(* ===== verification/_CoqProject ===== *)
-Q . S2P
Prelude.v
LogContent.v
Epoch.v
JournalFile.v
InodeLog.v
JCheckpoint.v
JournalSlots.v
JournalReplay.v
JournalIO.v
EpochCommit.v
CommitProps.v
JournalSystem.v
NodePath.v
FreeNid.v
Hash.v
Acl.v
ExtentTree.v
ExtentCache.v
ExtentInode.v
ExtentSystem.v
Witnesses.v
SysWitnesses.v
InoEntry.v
Orphan.v
CpPack.v
NatCache.v
NatFlush.v
NatProps.v
NatSystem.v
SegBitmap.v
SegState.v
SegAlloc.v
SegInv.v
SegLists.v
SegCur.v
SegSwitch.v
SegVictim.v
SegVictimProps.v
SegBlocks.v
SegData.v
SegDiscard.v
SegFlush.v
SegFlushProps.v
SegCkpt.v
SegTouch.v
SegSystem.v
SegSums.v
SegMount.v
SegTable.v
SegRestore.v
SegMountProps.v
SegRemount.v
Xattr.v
XattrProps.v
XattrSystem.v
DentryBlock.v
DirName.v
Directory.v
DirLevels.v
DirProps.v
DirOps.v
DirRefine.v
DirSystem.v
DirList.v
FileMap.v
FileTree.v
FileCut.v
FileTrunc.v
FileLookup.v
FileAlloc.v
FileOps.v
FileHistory.v
FileEvict.v
FileSeg.v
FsWitnesses.v
DirWitnesses.v
NatWitnesses.v
SegWitnesses.v
XattrWitnesses.v
FileWitnesses.v
