(* ===== verification/Prelude.v ===== *)
(** * F2FS-J: a verification of the journal layer and of core F2FS components

    F2FS-J (src/f2fsj) is the F2FS file system of Linux 5.15 as a kernel module,
    extended by a journal: file operations append small logical logs to a
    memory-mapped journal area instead of forcing node blocks to disk, a
    thread commits the logs epoch by epoch, and a second thread turns the
    committed epochs into an F2FS checkpoint.  This library models the journal
    layer (the [j_*] files) and the components of F2FS proper that it runs on,
    and proves what makes them correct.

    ** Parts of the program and files of this library

    Shared: [Prelude] (integers with wrap-around, little-endian images, C
    strings, kernel lists as lists without duplicates on which a corrupting
    operation has no result, tactics and hint databases).

    The journal layer:
    - [LogContent] : the log records of j_log_content.h as records and as byte
      images, and their collection from an inode (j_log_operate.c:
      get_inode_log_from_f2fs_inode, get_delete_log_from_f2fs_inode).
    - [JournalFile] : the journal area (j_journal_file.c): slot allocator
      (j_alloc_log_entry), mapping, bios, write_current_mmap_j_file,
      clear_journal_file_after_recovery, recover_read_journal,
      iterate_journal, do_recover_from_journal.  [JournalSlots] shows that the
      mapping is an array of slots, [JournalReplay] that appending and scanning
      are inverse (with the journal sections of namei.c), [JournalIO] which
      blocks the I/O loops touch.
    - [Epoch] : the ring of eight global epochs (j_epoch.c).
    - [InodeLog] : the log lists of an inode (j_log_operate.c:
      insert_log_into_inode, ino_checkin_global_epoch).
    - [JCheckpoint] : the list of committed records and the checkpoint
      (j_checkpoint.c).
    - [EpochCommit] : the whole layer as the state [jsys]; epoch_commit,
      aggregate_per_ino_log and one iteration of each thread
      (j_epoch_commit.c, j_epoch_process.c).  [CommitProps] has its invariant,
      [JournalSystem] the transition system in which file operations and the
      two threads interleave, a call at a time, and what a commit does.

    Nodes and node ids:
    - [NodePath] : get_node_path and its inverse (node.c, gc.c, node.h, data.c, super.c).
    - [FreeNid] : the cache of free node ids (node.c from __insert_free_nid to
      f2fs_try_to_free_nids).
    - [NatCache], [NatFlush] : the node address table (node.c, node.h): cached
      entries and their sets, look-ups, address changes, the shrinker, the
      journal, the two copies of each block and the flush of a checkpoint.
      [NatProps] has the invariant, [NatSystem] histories of all calls.

    Blocks and segments (segment.c, segment.h, gc.c):
    - [SegBitmap] : block maps with reversed bits and their word-wise searches.
    - [SegState] : segment entries, free, dirty and prefree segments;
      [SegAlloc] : the logs, block and segment allocation, invalidation.
      [SegInv], [SegLists], [SegCur], [SegSwitch], [SegBlocks], [SegData] and
      [SegTouch] have the invariant and what each step keeps.
    - [SegVictim] : victim selection (gc.c: get_victim_by_default and all it
      calls); [SegVictimProps] : that it discharges the interface
      [VictimSelection] the allocator relies on.
    - [SegDiscard] : small discards and the release of prefree segments;
      [SegFlush] : the segment table on disk, its journal and flush, and
      [sit_checkpoint], the part of f2fs_write_checkpoint about segments.
      [SegFlushProps] and [SegCkpt] have their lemmas.
    - [SegSystem] : the abstract specification of live and held blocks, and
      histories of all operations.
    - [SegSums] : compacted summaries; [SegMount] : f2fs_build_segment_manager
      with all it reads and checks (segment.c, node.c:
      f2fs_restore_node_summary, super.c: the checks on the logs).
      [SegTable], [SegRestore], [SegMountProps] and [SegRemount] : what a mount
      establishes, and a mount after a checkpoint.

    Block maps of files (node.c, data.c, file.c, f2fs.h):
    - [FileMap] : the inode's addresses and node ids, node pages and the
      counters; f2fs_get_dnode_of_data, f2fs_reserve_block,
      f2fs_do_write_data_page, __write_node_page, f2fs_do_truncate_blocks with
      f2fs_truncate_inode_blocks and all it calls, f2fs_truncate_hole,
      f2fs_remove_inode_page and the attempts of f2fsj_evict_inode.
    - [FileTree] : a tree of nodes as the list of its addresses, what is owned
      and counted, and the interface [BlockLaws] to the layer of blocks;
      [FileCut] and [FileTrunc] : truncation, from a range of one node to all
      trees of an inode; [FileLookup] : one node as a window on the file, and
      look-up; [FileAlloc] : allocation of nodes; [FileOps] : truncation,
      holes, reservations and writes.
    - [FileHistory] : histories of all calls against a list of addresses;
      [FileEvict] : the removal of a file without links (inode.c, node.c);
      [FileSeg] : the segment manager discharges [BlockLaws], and the two
      together.

    Checkpoints (checkpoint.c):
    - [InoEntry] and [Orphan] : inode entries, orphans, their blocks and their
      recovery, the link counts of namei.c and failed creations (inode.c); [CpPack] : the two packs, their validation and the choice at
      mount.

    Directories (dir.c, inline.c, hash.c):
    - [Hash] : directory name hashes.
    - [DentryBlock], [DirName], [Directory], [DirLevels] : slots of a dentry
      block, names and their matching, lookup, insertion, replacement and
      removal over the hash levels, inline directories and both conversions.
      [DirProps], [DirOps], [DirRefine] and [DirSystem] refine them to a map
      from names, [DirList] has listing, emptiness and creation.

    Others: [Acl], ACL images and the create mask (acl.c, acl.h); [ExtentTree],
    [ExtentCache], [ExtentInode] and [ExtentSystem], the extent cache
    (extent_cache.c, f2fs.h): searches and node operations, the range update
    against an abstract block map, the calls on the trees of all inodes,
    zombies and the shrinker, histories of all these calls.  [Xattr],
    [XattrProps] and [XattrSystem], extended attributes (xattr.c,
    xattr.h): the buffer, its entries, reading, writing and histories of calls
    against a list of keys and values.

    [Witnesses], [SysWitnesses], [FsWitnesses], [DirWitnesses],
    [NatWitnesses], [SegWitnesses], [XattrWitnesses] and [FileWitnesses] apply the
    theorems to concrete data.

    ** How the code is modelled

    A C function is a function on the state it reads and writes; a trap
    (f2fs_bug_on, a null pointer, a corrupted list, an index out of range) is
    the absence of a result, an error return is a value.  Locks make the
    modelled sections atomic, except in the journal layer, whose calls are
    modelled as whole steps although the code does not serialise those that log
    an operation with those of the threads (j_epoch_commit.c:135); concurrency is the interleaving of these sections
    in the step relations and histories of the system files.  Results of
    try-locks, of memory allocation, of memory pressure and of reads from the
    device are arguments, so the theorems hold for all of them.  Integers keep
    the width of their C type wherever the type is unsigned and a wrap-around
    is possible; bitmaps are sets of integers, except in [SegBitmap] and
    [DentryBlock], where bytes and bits matter.

    What is not in the repository is a parameter: the constants and formats of
    linux/f2fs_fs.h (classes F2fsFsInline, F2fsFsNode, NatFormat, DirFormat,
    OrphanFormat, CpFormat, SegGeometry, SitFormat, SumFormat, XattrFormat,
    FileFormat), name matching
    with encryption or case folding (NameMatching), the ACL tags and id maps
    (PosixAcl), the red-black tree library (RbTree: only that linking and
    erasing keep the order of the nodes; for victim selection the search for
    the entry nearest to an age is the function [central]), and the block
    device.  Each class is instantiated by concrete values in a witness file.

    Fuel: loops that are not structural carry fuel.  Callers pass an amount
    that the theorems show to be enough: the number of nodes plus two for the
    extent invalidation loop, the number of pages plus two for the I/O loops,
    the length of the name plus one for the hash, the length of the free list
    plus one for the id shrinker, the number of words of a block map plus one
    for its searches, the number of blocks of a segment plus one for the runs
    of a map, the number of segments plus one for the prefree list, the limit
    of a search plus three for the scan of victim selection, the number of
    blocks of a hole for its rounds, the words of a page for a reservation in
    it, five for the node ids of an inode, three for the depth of a tree.
    Only the retry loops of f2fs_alloc_nid and f2fsj_evict_inode have a free
    fuel argument, since the code puts no bound on them: their theorems hold
    for every amount; one attempt suffices while ids are cached, and an
    eviction ends once requests no longer fail for lack of memory.

    ** What the theorems show

    - Segments: every history of allocations, invalidations, requests for
      segments and checkpoints refines a set of live and a set of held blocks:
      no block is handed out twice or while the last checkpoint needs it, no
      discard covers a live block, every summary stays, and no assertion
      fails.  Until the next checkpoint the table on disk keeps its blocks; a
      checkpoint can be read back; a mount accepts only what satisfies the
      invariant, and a mount after a checkpoint gives the same live blocks,
      logs and summaries (entries of unknown type, which a mount does not
      look for, are excluded).  Victim selection ends and is optimal within its
      limit.  The condition on discards ([unit_ok]) is needed: with
      discard_unit=section the live blocks of the section of any prefree
      segment are discarded.
    - NAT: look-ups always return the last entry set, checkpoints replace the
      table as a whole; that the records of preallocated ids are lost when the
      journal is emptied is a theorem.
    - Block maps: every history of reservations, writes, truncations and holes
      of an uncompressed file, with errors of device, memory, quota and space
      at any point, refines a list of addresses; nodes and blocks are used
      once and counted exactly; every call returns.  On the segment manager
      all blocks of the file stay valid in the segment table, those of others
      are not touched and no assertion fails.  Truncation below the limit of the
      size (max_file_blocks) but inside the last direct node fails with E2BIG
      after it has emptied the blocks; from the limit on it empties nothing.
      An evicted file gives back all it had; after an error it can be tried again.
    - Checkpoints: whatever is on disk when a checkpoint stops, the mount finds
      the old or the new pack; orphans are exactly the inodes without links that
      have a block, unless a failed creation found no place and asked for a check.
    - Directories: every history of insertions, removals, look-ups and
      conversions refines a map from names to inodes; listing shows all.
    - Journal: logs appended to a cleared journal are given back in order by the
      scan of its mapping; slots are handed out as a ring; records are read back exactly;
      the invariant of the layer is kept by every call; one commit moves every
      queued log to the checkpoint list; a checkpoint frees every record once.
      Also what the code does not do: commits of more than one block write less
      than they should.
    - Extent cache: in every history of reads, updates, drops, write-backs,
      evictions, deletions and shrinker runs over all inodes a lookup agrees
      with the block map, no call traps, the counters are right and the extent
      in the inode page is true when the inode is not in memory; the one
      assumption on the environment is that the node for the page's extent
      can be allocated, and what happens otherwise is a theorem of its own.
    - Extended attributes: every history refines a list of attributes; no read
      leaves its buffer on any content; an area in the inode too small for a header is
      the exception, and a theorem of its own.
    - Free ids: ids handed out are distinct and free according to NAT cache,
      journal and blocks; a build that fails can break this.
    - Node paths, ACL images, masks and hashes: round trips and bounds.

    ** Not modelled

    - Pages and bios: the page cache, page locks, bios and read-ahead of data.c
      and node.c are effects on kernel objects; node pages are modelled by
      their contents, reads by their results.
    - Of the block map: compressed files (the release and reservation of
      compressed clusters; the definitions have the branches, the theorems
      assume an uncompressed file), writes in place, moving of ranges
      (collapse, insert, move), and inline data,
      where only the truncation is a definition.  The node address table
      is the abstract table that [NatSystem] shows the NAT code to implement;
      free ids are a list, as [FreeNid] shows them to be handed out.
    - VFS entry points, mount options, super blocks (super.c), reading and
      writing of inodes (inode.c; of an eviction the part from
      the flag FI_NO_ALLOC on is modelled), roll-forward recovery (recovery.c, node and
      page I/O), statistics (debug.c, sysfs.c, iostat.c) and libraries the code
      only calls (compress.c, verity.c).
    - Of the segment manager: the queue of discard commands and its thread,
      flush commands, zoned devices, read-only images, the migration of blocks
      by the cleaner.  The segment theorems are about a mount without
      checkpoint=disable.
    - j_recovery.c, whose callers are commented out, so it never runs; in the
      journal layer inodes stay in memory (an evicted inode loses its lists, and
      reading it again starts with empty ones, f2fs_alloc_inode of super.c).
    - What overlapping, unlocked calls of the journal layer may do. *)

From Stdlib Require Export ZArith Lia.
From stdpp Require Export base tactics numbers list gmap option.
From stdpp Require Import strings.

#[global] Open Scope Z_scope.
#[global] Set Default Goal Selector "!".

(** ** Fixed-width unsigned integers *)

(** A w-bit unsigned value is a [Z] in [0, 2^w); every C expression whose
    type has width w is written with its wrap-around. *)
Definition u8 (z : Z) : Z := z mod 2 ^ 8.
Definition u16 (z : Z) : Z := z mod 2 ^ 16.
Definition u32 (z : Z) : Z := z mod 2 ^ 32.
Definition u64 (z : Z) : Z := z mod 2 ^ 64.

Declare Scope cint_scope.
Delimit Scope cint_scope with cint.
(** 32-bit unsigned addition, subtraction and multiplication. *)
Notation "a +! b" := (u32 (a + b)) (at level 50, left associativity) : cint_scope.
Notation "a -! b" := (u32 (a - b)) (at level 50, left associativity) : cint_scope.
Notation "a *! b" := (u32 (a * b)) (at level 40, left associativity) : cint_scope.
#[global] Open Scope cint_scope.

(** The automation data bases of the development: [jbounds] holds the range
    facts of machine integers, [jsimp] the rewriting rules that normalise
    reads of written memory. *)
Create HintDb jbounds.
Create Rewrite HintDb jsimp.

Lemma u8_range z : 0 <= u8 z < 2 ^ 8.
Proof. apply Z.mod_pos_bound; lia. Qed.
Lemma u16_range z : 0 <= u16 z < 2 ^ 16.
Proof. apply Z.mod_pos_bound; lia. Qed.
Lemma u32_range z : 0 <= u32 z < 2 ^ 32.
Proof. apply Z.mod_pos_bound; lia. Qed.
Lemma u64_range z : 0 <= u64 z < 2 ^ 64.
Proof. apply Z.mod_pos_bound; lia. Qed.
#[export] Hint Resolve u8_range u16_range u32_range u64_range : jbounds.

Lemma u8_small z : 0 <= z < 2 ^ 8 -> u8 z = z.
Proof. apply Z.mod_small. Qed.
Lemma u16_small z : 0 <= z < 2 ^ 16 -> u16 z = z.
Proof. apply Z.mod_small. Qed.
Lemma u32_small z : 0 <= z < 2 ^ 32 -> u32 z = z.
Proof. apply Z.mod_small. Qed.
Lemma u64_small z : 0 <= z < 2 ^ 64 -> u64 z = z.
Proof. apply Z.mod_small. Qed.
#[export] Hint Rewrite u8_small u16_small u32_small u64_small using lia : jsimp.

Lemma u32_idemp z : u32 (u32 z) = u32 z.
Proof. apply u32_small, u32_range. Qed.
Lemma u32_add_l a b : u32 (u32 a + b) = u32 (a + b).
Proof. unfold u32. by rewrite Zplus_mod_idemp_l. Qed.
Lemma u32_sub_l a b : u32 (u32 a - b) = u32 (a - b).
Proof. unfold u32. by rewrite Zminus_mod_idemp_l. Qed.

(** Case analysis on every boolean comparison in sight, then arithmetic. *)
Ltac zbool :=
  repeat match goal with
  | H : context [Z.ltb ?a ?b] |- _ => destruct (Z.ltb_spec a b)
  | H : context [Z.leb ?a ?b] |- _ => destruct (Z.leb_spec a b)
  | H : context [Z.eqb ?a ?b] |- _ => destruct (Z.eqb_spec a b)
  | |- context [Z.ltb ?a ?b] => destruct (Z.ltb_spec a b)
  | |- context [Z.leb ?a ?b] => destruct (Z.leb_spec a b)
  | |- context [Z.eqb ?a ?b] => destruct (Z.eqb_spec a b)
  end.

(** Split syntactic conjunctions only: definitions that unfold to one stay whole. *)
Ltac conjs := repeat match goal with |- _ /\ _ => split end.

(** [lia] after naming the quotient and remainder of every division. *)
Ltac zdiv := Z.div_mod_to_equations; lia.

(** ** Little-endian byte images *)

Fixpoint le_bytes (n : nat) (v : Z) : list Z :=
  match n with
  | O => []
  | S n => v mod 256 :: le_bytes n (v / 256)
  end.

Fixpoint le_val (bs : list Z) : Z :=
  match bs with
  | [] => 0
  | b :: bs => b + 256 * le_val bs
  end.

(** [n]-byte little-endian read at a byte offset of an image. *)
Definition get_le (n off : nat) (bs : list Z) : Z := le_val (take n (drop off bs)).

Lemma length_le_bytes n v : length (le_bytes n v) = n.
Proof. revert v; induction n as [|n IH]; intros v; simpl; auto. Qed.
#[export] Hint Rewrite length_le_bytes : jsimp.

Lemma le_val_bytes n v : le_val (le_bytes n v) = v mod 2 ^ (8 * Z.of_nat n).
Proof.
  revert v; induction n as [|n IH]; intros v; simpl.
  - by rewrite Z.mod_1_r.
  - rewrite IH. replace (8 * Z.of_nat (S n)) with (8 + 8 * Z.of_nat n) by lia.
    rewrite Z.pow_add_r by lia. change (2 ^ 8) with 256.
    rewrite Z.rem_mul_r; [lia..|]. apply Z.pow_pos_nonneg; lia.
Qed.

Lemma le_val_bytes_small n v : 0 <= v < 2 ^ (8 * Z.of_nat n) -> le_val (le_bytes n v) = v.
Proof. intros H. rewrite le_val_bytes. by apply Z.mod_small. Qed.

(** ** C arrays of bytes and strings *)

(** A window [take n (drop o pg)] of an array after a block store. *)
Lemma window_inserts_same (n o : nat) (bs pg : list Z) :
  (length bs <= n)%nat -> (o + n <= length pg)%nat ->
  take n (drop o (list_inserts o bs pg)) = bs ++ drop (length bs) (take n (drop o pg)).
Proof.
  intros Hb Hp. apply list_eq. intros i.
  destruct (decide (i < n)%nat) as [Hi|Hi].
  - rewrite lookup_take_lt, lookup_drop by lia.
    destruct (decide (i < length bs)%nat).
    + rewrite lookup_app_l, list_lookup_inserts by lia. f_equal; lia.
    + rewrite lookup_app_r, lookup_drop, lookup_take_lt, lookup_drop, list_lookup_inserts_ge by lia.
      f_equal; lia.
  - rewrite !lookup_ge_None_2; [done| |].
    + rewrite length_app, length_drop, length_take, length_drop. lia.
    + rewrite length_take. lia.
Qed.

Lemma window_inserts_disjoint (n o o' : nat) (bs pg : list Z) :
  (o' + length bs <= o \/ o + n <= o')%nat ->
  take n (drop o (list_inserts o' bs pg)) = take n (drop o pg).
Proof.
  intros H. apply list_eq. intros i.
  destruct (decide (i < n)%nat) as [Hi|Hi].
  - rewrite !lookup_take_lt, !lookup_drop by lia.
    destruct H; [apply list_lookup_inserts_ge | apply list_lookup_inserts_lt]; lia.
  - rewrite !lookup_ge_None_2; [done|rewrite length_take; lia..].
Qed.

(** Reads and writes behind a prefix. *)
Lemma get_le_app n (pre l : list Z) : get_le n (length pre) (pre ++ l) = le_val (take n l).
Proof. unfold get_le. by rewrite drop_app_length. Qed.

Lemma list_inserts_app_behind {A} (pre bs l : list A) : (length bs <= length l)%nat ->
  list_inserts (length pre) bs (pre ++ l) = pre ++ bs ++ drop (length bs) l.
Proof.
  revert pre l. induction bs as [|b bs IH]; intros pre [|x l] Hl; cbn in *; try lia; try done.
  replace (S (length pre)) with (length (pre ++ [b])) by (rewrite length_app; cbn; lia).
  replace (pre ++ x :: l) with ((pre ++ [x]) ++ l) by (by rewrite <-app_assoc).
  replace (length (pre ++ [b])) with (length (pre ++ [x])) by (by rewrite !length_app).
  rewrite IH by lia. rewrite <-!app_assoc. cbn. rewrite insert_app_r_alt, Nat.sub_diag by lia. done.
Qed.


(** A fixed-size array image: the first [n] bytes of [bs], padded with 0. *)
Fixpoint fixed (n : nat) (bs : list Z) : list Z :=
  match n with
  | O => []
  | S n => List.hd 0 bs :: fixed n (List.tl bs)
  end.

Lemma length_fixed n bs : length (fixed n bs) = n.
Proof. revert bs; induction n as [|n IH]; intros bs; simpl; auto. Qed.
#[export] Hint Rewrite length_fixed : jsimp.

Lemma fixed_id bs : fixed (length bs) bs = bs.
Proof. induction bs; simpl; congruence. Qed.

(** [snprintf(buf, size, "%s", str)] for a buffer of [size > 0] bytes holding
    [old]: at most [size - 1] characters and the terminating NUL are
    stored, the bytes after the NUL keep their contents. *)
Definition snprintf_s (size : nat) (str old : list Z) : list Z :=
  let s := take (size - 1) str in
  fixed size (s ++ [0] ++ drop (length s + 1) old).

(** The C string held by a byte array: the bytes before the first NUL. *)
Fixpoint cstr (bs : list Z) : list Z :=
  match bs with
  | [] => []
  | b :: bs => if b =? 0 then [] else b :: cstr bs
  end.

Lemma cstr_app_nul s r : Forall (fun b => b <> 0) s -> cstr (s ++ 0 :: r) = s.
Proof.
  induction 1 as [|b s Hb _ IH]; simpl; [done|].
  destruct (Z.eqb_spec b 0); [done|]. by rewrite IH.
Qed.

Lemma fixed_app_short n s r : (length s <= n)%nat -> fixed n (s ++ r) = s ++ fixed (n - length s) r.
Proof.
  revert n; induction s as [|b s IH]; intros n Hn; simpl in *.
  - by rewrite Nat.sub_0_r.
  - destruct n as [|n]; [lia|]. simpl. rewrite IH by lia. done.
Qed.

Lemma snprintf_s_cstr size str old :
  (0 < size)%nat -> Forall (fun b => b <> 0) str ->
  cstr (snprintf_s size str old) = take (size - 1) str.
Proof.
  intros Hs Hstr. unfold snprintf_s.
  rewrite fixed_app_short by (rewrite length_take; lia).
  destruct (size - length _)%nat eqn:E; [rewrite length_take in E; lia|].
  simpl. apply cstr_app_nul. by apply Forall_take.
Qed.

Lemma length_snprintf_s size str old : length (snprintf_s size str old) = size.
Proof. apply length_fixed. Qed.
#[export] Hint Rewrite length_snprintf_s : jsimp.

#[global] Arguments le_bytes : simpl never.
#[global] Arguments fixed : simpl never.
#[global] Arguments snprintf_s : simpl never.

(** ** Kernel lists

    A [struct list_head] ring is the sequence of the nodes linked in it.
    Linking a node that is already linked, or unlinking one that is not,
    breaks the ring's pointers: those calls have no result ([None]). *)

(** Removing an element that is on the list once. *)
Lemma list_filter_all_ne (x : Z) (l : list Z) : x ∉ l -> filter (fun y => y <> x) l = l.
Proof.
  induction l as [|y l IH]; intros Hx; [done|]. rewrite not_elem_of_cons in Hx. rewrite filter_cons_True by naive_solver.
  by rewrite IH by tauto.
Qed.

Lemma length_filter_ne (x : Z) (l : list Z) : NoDup l -> x ∈ l ->
  Z.of_nat (length (filter (fun y => y <> x) l)) = Z.of_nat (length l) - 1.
Proof.
  induction 1 as [|y l Hy Hn IH]; intros Hx; [by apply elem_of_nil in Hx|]. cbn [length].
  destruct (decide (y = x)) as [->|Hne].
  - rewrite filter_cons_False by tauto. rewrite list_filter_all_ne by done. lia.
  - rewrite filter_cons_True by done. cbn [length]. apply elem_of_cons in Hx as [->|Hx]; [done|]. rewrite Nat2Z.inj_succ, IH by done. lia.
Qed.

Section klist.
Context {A : Type} `{EqDecision A}.

Definition list_add (x : A) (l : list A) : option (list A) :=
  if decide (x ∈ l) then None else Some (x :: l).

Definition list_add_tail (x : A) (l : list A) : option (list A) :=
  if decide (x ∈ l) then None else Some (l ++ [x]).

Definition list_del (x : A) (l : list A) : option (list A) :=
  if decide (x ∈ l) then Some (filter (fun y => y <> x) l) else None.

Lemma list_add_fresh x l : x ∉ l -> list_add x l = Some (x :: l).
Proof. intros H. unfold list_add. by rewrite decide_False. Qed.

Lemma list_add_tail_fresh x l : x ∉ l -> list_add_tail x l = Some (l ++ [x]).
Proof. intros H. unfold list_add_tail. by rewrite decide_False. Qed.

Lemma list_del_head x l : x ∉ l -> list_del x (x :: l) = Some l.
Proof.
  intros H. unfold list_del. rewrite decide_True by set_solver.
  rewrite filter_cons_False by (intros C; apply C; done).
  f_equal. induction l as [|y l IH]; [done|].
  apply not_elem_of_cons in H as [H1 H2].
  rewrite filter_cons_True by congruence. by rewrite IH.
Qed.
End klist.
