(* ===== verification/LogContent.v ===== *)
(** * Journal log records (j_log_content.h, j_log_operate.c collection part)

    The log types, the log structures with the byte layout the compiler gives
    them on x86-64, the collection of a create or unlink log from an inode, and
    the round trip of the byte images. *)

From S2P Require Import Prelude.

(** ** Return values and log types (j_log_content.h) *)

Inductive return_value_e := F2FSJ_OK | F2FSJ_ERROR | F2FSJ_FATAL.

#[export] Instance return_value_e_eq_dec : EqDecision return_value_e.
Proof. solve_decision. Defined.

Inductive log_type_e :=
| CREATE_LOG | MKDIR_LOG | UNLINK_LOG | LINK_LOG | RENAME_LOG | SYMLINK_LOG
| CHOWN_LOG | DIR_LOG | READ_FILE_DATA_LOG | READ_DIR_LOG | STAT_LOG | DATA_WRITE_LOG.

#[export] Instance log_type_e_eq_dec : EqDecision log_type_e.
Proof. solve_decision. Defined.

(** The enumeration constants. *)
Definition log_type_code (t : log_type_e) : Z :=
  match t with
  | CREATE_LOG => 0 | MKDIR_LOG => 1 | UNLINK_LOG => 2 | LINK_LOG => 3
  | RENAME_LOG => 4 | SYMLINK_LOG => 5 | CHOWN_LOG => 6 | DIR_LOG => 7
  | READ_FILE_DATA_LOG => 8 | READ_DIR_LOG => 9 | STAT_LOG => 10
  | DATA_WRITE_LOG => 11
  end.

(** An enum field read back from memory holds any 32-bit value; it names a
    log type when it is one of the constants. *)
Definition log_type_of (c : Z) : option log_type_e :=
  list_find (fun t => log_type_code t = c)
    [CREATE_LOG; MKDIR_LOG; UNLINK_LOG; LINK_LOG; RENAME_LOG; SYMLINK_LOG;
     CHOWN_LOG; DIR_LOG; READ_FILE_DATA_LOG; READ_DIR_LOG; STAT_LOG; DATA_WRITE_LOG]
  ≫= fun p => Some p.2.

Lemma log_type_of_code t : log_type_of (log_type_code t) = Some t.
Proof. by destruct t. Qed.

Lemma log_type_code_inj t1 t2 : log_type_code t1 = log_type_code t2 -> t1 = t2.
Proof. intros H. pose proof (log_type_of_code t1) as E. rewrite H, log_type_of_code in E. congruence. Qed.

Lemma log_type_code_range t : 0 <= log_type_code t < 12.
Proof. destruct t; simpl; lia. Qed.
#[export] Hint Resolve log_type_code_range : jbounds.

Record j_log_head_t := { log_type : Z; log_size : Z }.

Definition J_LOG_ENTRY_SIZE : Z := 128.

(** ** Structures *)

Record j_nat_entry_t := { j_nid : Z; j_ino : Z; j_node_lba : Z }.

Record j_new_inode_log_t := {
  i_mode : Z; i_advise : Z; i_inline : Z; i_uid : Z; i_gid : Z; i_links : Z;
  i_size : Z; i_blocks : Z; i_atime : Z; i_ctime : Z; i_mtime : Z;
  i_atime_nsec : Z; i_ctime_nsec : Z; i_mtime_nsec : Z; i_generation : Z;
  i_depth_or_gc : Z;   (* union { __le32 i_current_depth; __le16 i_gc_failures } *)
  i_xattr_nid : Z; i_flags : Z; i_pino : Z; i_ino : Z; i_namelen : Z;
  i_name : list Z;     (* __u8 i_name[16] *)
  i_dir_level : Z;
  i_pad : list Z       (* the 7 bytes of tail padding *)
}.

Record create_log_t := { cl_header : j_log_head_t; j_new_ino_log : j_new_inode_log_t }.

Record delete_log_t := {
  dl_header : j_log_head_t;
  ino_num : Z; parent_ino_num : Z; ino_nlink : Z;
  dl_file_name : list Z;   (* char file_name[16] *)
  dl_i_namelen : Z;        (* uint8_t i_namelen *)
  dl_pad : list Z;         (* 3 bytes of padding *)
  nat_log : j_nat_entry_t
}.

(** ** Byte images *)

Definition encode_head (h : j_log_head_t) : list Z :=
  le_bytes 4 (log_type h) ++ le_bytes 4 (log_size h).

Definition decode_head (bs : list Z) : j_log_head_t :=
  {| log_type := get_le 4 0 bs; log_size := get_le 4 4 bs |}.

(** The image of [create_log_t]: the header, the inode log, its padding. *)
Definition encode_create (c : create_log_t) : list Z :=
  let l := j_new_ino_log c in
  encode_head (cl_header c) ++
  le_bytes 2 (i_mode l) ++ le_bytes 1 (i_advise l) ++ le_bytes 1 (i_inline l) ++
  le_bytes 4 (i_uid l) ++ le_bytes 4 (i_gid l) ++ le_bytes 4 (i_links l) ++
  le_bytes 8 (i_size l) ++ le_bytes 8 (i_blocks l) ++
  le_bytes 8 (i_atime l) ++ le_bytes 8 (i_ctime l) ++ le_bytes 8 (i_mtime l) ++
  le_bytes 4 (i_atime_nsec l) ++ le_bytes 4 (i_ctime_nsec l) ++ le_bytes 4 (i_mtime_nsec l) ++
  le_bytes 4 (i_generation l) ++ le_bytes 4 (i_depth_or_gc l) ++
  le_bytes 4 (i_xattr_nid l) ++ le_bytes 4 (i_flags l) ++ le_bytes 4 (i_pino l) ++
  le_bytes 4 (i_ino l) ++ le_bytes 4 (i_namelen l) ++
  fixed 16 (i_name l) ++ le_bytes 1 (i_dir_level l) ++ fixed 7 (i_pad l).

(** Reading a [create_log_t] through a pointer to its image. *)
Definition decode_create (bs : list Z) : create_log_t := {|
  cl_header := decode_head bs;
  j_new_ino_log := {|
    i_mode := get_le 2 8 bs; i_advise := get_le 1 10 bs; i_inline := get_le 1 11 bs;
    i_uid := get_le 4 12 bs; i_gid := get_le 4 16 bs; i_links := get_le 4 20 bs;
    i_size := get_le 8 24 bs; i_blocks := get_le 8 32 bs;
    i_atime := get_le 8 40 bs; i_ctime := get_le 8 48 bs; i_mtime := get_le 8 56 bs;
    i_atime_nsec := get_le 4 64 bs; i_ctime_nsec := get_le 4 68 bs; i_mtime_nsec := get_le 4 72 bs;
    i_generation := get_le 4 76 bs; i_depth_or_gc := get_le 4 80 bs;
    i_xattr_nid := get_le 4 84 bs; i_flags := get_le 4 88 bs; i_pino := get_le 4 92 bs;
    i_ino := get_le 4 96 bs; i_namelen := get_le 4 100 bs;
    i_name := take 16 (drop 104 bs); i_dir_level := get_le 1 120 bs;
    i_pad := take 7 (drop 121 bs) |} |}.

(** The image of [delete_log_t] (52 bytes). *)
Definition encode_delete (d : delete_log_t) : list Z :=
  encode_head (dl_header d) ++
  le_bytes 4 (ino_num d) ++ le_bytes 4 (parent_ino_num d) ++ le_bytes 4 (ino_nlink d) ++
  fixed 16 (dl_file_name d) ++ le_bytes 1 (dl_i_namelen d) ++ fixed 3 (dl_pad d) ++
  le_bytes 4 (j_nid (nat_log d)) ++ le_bytes 4 (j_ino (nat_log d)) ++
  le_bytes 4 (j_node_lba (nat_log d)).

Definition decode_delete (bs : list Z) : delete_log_t := {|
  dl_header := decode_head bs;
  ino_num := get_le 4 8 bs; parent_ino_num := get_le 4 12 bs; ino_nlink := get_le 4 16 bs;
  dl_file_name := take 16 (drop 20 bs); dl_i_namelen := get_le 1 36 bs;
  dl_pad := take 3 (drop 37 bs);
  nat_log := {| j_nid := get_le 4 40 bs; j_ino := get_le 4 44 bs; j_node_lba := get_le 4 48 bs |} |}.

(** ** Values that fit their fields *)

Definition fits (w v : Z) : Prop := 0 <= v < 2 ^ w.

Definition head_fits (h : j_log_head_t) : Prop := fits 32 (log_type h) /\ fits 32 (log_size h).

Definition new_inode_fits (l : j_new_inode_log_t) : Prop :=
  (fits 16 (i_mode l) /\ fits 8 (i_advise l) /\ fits 8 (i_inline l) /\ fits 32 (i_uid l) /\
   fits 32 (i_gid l) /\ fits 32 (i_links l) /\ fits 64 (i_size l) /\ fits 64 (i_blocks l)) /\
  (fits 64 (i_atime l) /\ fits 64 (i_ctime l) /\ fits 64 (i_mtime l) /\ fits 32 (i_atime_nsec l) /\
   fits 32 (i_ctime_nsec l) /\ fits 32 (i_mtime_nsec l) /\ fits 32 (i_generation l) /\
   fits 32 (i_depth_or_gc l)) /\
  (fits 32 (i_xattr_nid l) /\ fits 32 (i_flags l) /\ fits 32 (i_pino l) /\ fits 32 (i_ino l) /\
   fits 32 (i_namelen l) /\ length (i_name l) = 16%nat /\ fits 8 (i_dir_level l) /\
   length (i_pad l) = 7%nat).

Definition delete_fits (d : delete_log_t) : Prop :=
  head_fits (dl_header d) /\
  (fits 32 (ino_num d) /\ fits 32 (parent_ino_num d) /\ fits 32 (ino_nlink d) /\
   length (dl_file_name d) = 16%nat /\ fits 8 (dl_i_namelen d) /\ length (dl_pad d) = 3%nat) /\
  (fits 32 (j_nid (nat_log d)) /\ fits 32 (j_ino (nat_log d)) /\ fits 32 (j_node_lba (nat_log d))).

(** ** Round trip of the images *)

(** A field read at its own offset of an image gives the field back. *)
Lemma get_le_field n off bs v :
  take n (drop off bs) = le_bytes n v -> fits (8 * Z.of_nat n) v -> get_le n off bs = v.
Proof. intros H Hv. unfold get_le. rewrite H. by apply le_val_bytes_small. Qed.

Lemma array_field n bs v off :
  take n (drop off bs) = fixed n v -> length v = n -> take n (drop off bs) = v.
Proof. intros -> <-. apply fixed_id. Qed.

(** Every field of a record read back from its image. *)
Ltac image_fields :=
  repeat match goal with H : _ /\ _ |- _ => destruct H end;
  f_equal; (apply get_le_field; [reflexivity | assumption])
           || (apply array_field; [reflexivity | assumption]).

Lemma decode_encode_head h r : head_fits h -> decode_head (encode_head h ++ r) = h.
Proof. intros H. destruct h as [t s]; unfold decode_head, head_fits in *; simpl in H; image_fields. Qed.

Lemma length_encode_create c : length (encode_create c) = 128%nat.
Proof. reflexivity. Qed.

Lemma length_encode_delete d : length (encode_delete d) = 52%nat.
Proof. reflexivity. Qed.
#[export] Hint Rewrite length_encode_create length_encode_delete : jsimp.

Lemma decode_encode_create c r :
  head_fits (cl_header c) -> new_inode_fits (j_new_ino_log c) ->
  decode_create (encode_create c ++ r) = c.
Proof.
  intros Hh Hl. destruct c as [h l]. unfold decode_create. simpl in Hh, Hl. f_equal.
  - by apply decode_encode_head.
  - destruct l. unfold new_inode_fits in Hl. simpl in Hl. image_fields.
Qed.

(** The reader of an unlink entry sees the 52 bytes of the log followed by
    whatever the slot held before. *)
Lemma decode_encode_delete d r :
  delete_fits d -> decode_delete (encode_delete d ++ r) = d.
Proof.
  intros (Hh & Hd & Hn). destruct d as [h ino pino nl name nlen pad n].
  unfold decode_delete. simpl in Hh, Hd, Hn. f_equal.
  1: by apply decode_encode_head.
  7: { destruct n. simpl in Hn. image_fields. }
  all: image_fields.
Qed.

(** ** Log collection (j_log_operate.c)

    What the collectors read of [struct inode] and [struct f2fs_inode_info]. *)

Module VfsInode.
Record t := {
  i_mode : Z; i_uid : Z; i_gid : Z; i_nlink : Z; i_size : Z; i_blocks : Z;
  atime_sec : Z; ctime_sec : Z; mtime_sec : Z;
  atime_nsec : Z; ctime_nsec : Z; mtime_nsec : Z;
  i_generation : Z; i_ino : Z;
  (* struct f2fs_inode_info *)
  i_advise : Z; i_current_depth : Z; i_gc_failures_pin : Z; i_xattr_nid : Z;
  i_flags : Z; i_pino : Z; i_dir_level : Z;
  fi_flags : list Z   (* the FI_* bits that are set *)
}.
End VfsInode.

(** The [FI_*] bit numbers of f2fs.h that the collector tests. *)
Definition FI_INLINE_XATTR : Z := 9.
Definition FI_INLINE_DATA : Z := 10.
Definition FI_INLINE_DENTRY : Z := 11.
Definition FI_DATA_EXIST : Z := 20.
Definition FI_INLINE_DOTS : Z := 21.
Definition FI_EXTRA_ATTR : Z := 26.
Definition FI_PIN_FILE : Z := 28.
Definition FI_COMPRESS_RELEASED : Z := 35.

Definition is_inode_flag_set (v : VfsInode.t) (flag : Z) : bool :=
  bool_decide (flag ∈ VfsInode.fi_flags v).

(** What the on-disk format header (linux/f2fs_fs.h) provides here: the
    [i_inline] bits of a raw inode. *)
Class F2fsFsInline := {
  F2FS_INLINE_XATTR : Z; F2FS_INLINE_DATA : Z; F2FS_INLINE_DENTRY : Z; F2FS_DATA_EXIST : Z;
  F2FS_INLINE_DOTS : Z; F2FS_EXTRA_ATTR : Z; F2FS_PIN_FILE : Z; F2FS_COMPRESS_RELEASED : Z;
}.

(** [S_ISDIR] and [S_ISREG] of the C library. *)
Definition S_ISDIR (m : Z) : bool := Z.land m 61440 =? 16384.
Definition S_ISREG (m : Z) : bool := Z.land m 61440 =? 32768.

Section collect.
Context `{F2fsFsInline}.

(** The [i_inline] byte: one bit or-ed in for every flag that is set. *)
Definition inline_bits (v : VfsInode.t) : Z :=
  let bit fi b acc := if is_inode_flag_set v fi then Z.lor acc b else acc in
  u8 (bit FI_COMPRESS_RELEASED F2FS_COMPRESS_RELEASED
     (bit FI_PIN_FILE F2FS_PIN_FILE
     (bit FI_EXTRA_ATTR F2FS_EXTRA_ATTR
     (bit FI_INLINE_DOTS F2FS_INLINE_DOTS
     (bit FI_DATA_EXIST F2FS_DATA_EXIST
     (bit FI_INLINE_DENTRY F2FS_INLINE_DENTRY
     (bit FI_INLINE_DATA F2FS_INLINE_DATA
     (bit FI_INLINE_XATTR F2FS_INLINE_XATTR 0)))))))).

(** The union: a directory stores the 32-bit depth, a regular file the low 16
    bits, any other inode nothing. *)
Definition depth_or_gc (v : VfsInode.t) (old : Z) : Z :=
  if S_ISDIR (VfsInode.i_mode v) then u32 (VfsInode.i_current_depth v)
  else if S_ISREG (VfsInode.i_mode v)
  then u16 (VfsInode.i_gc_failures_pin v) + old / 2 ^ 16 * 2 ^ 16
  else old.

(** [get_inode_log_from_f2fs_inode]: [old] is what the caller's stack slot
    holds.  [i_namelen], the header and the padding are not assigned. *)
Definition get_inode_log_from_f2fs_inode (v : VfsInode.t) (fname : list Z) (old : create_log_t)
    : create_log_t * return_value_e :=
  let o := j_new_ino_log old in
  ({| cl_header := cl_header old;
      j_new_ino_log := {|
        i_mode := u16 (VfsInode.i_mode v);
        i_advise := u8 (VfsInode.i_advise v);
        i_inline := inline_bits v;
        i_uid := u32 (VfsInode.i_uid v); i_gid := u32 (VfsInode.i_gid v);
        i_links := u32 (VfsInode.i_nlink v);
        i_size := u64 (VfsInode.i_size v);
        i_blocks := u64 (Z.shiftr (VfsInode.i_blocks v) 3 + 1);
        i_atime := u64 (VfsInode.atime_sec v); i_ctime := u64 (VfsInode.ctime_sec v);
        i_mtime := u64 (VfsInode.mtime_sec v);
        i_atime_nsec := u32 (VfsInode.atime_nsec v); i_ctime_nsec := u32 (VfsInode.ctime_nsec v);
        i_mtime_nsec := u32 (VfsInode.mtime_nsec v);
        i_generation := u32 (VfsInode.i_generation v);
        i_depth_or_gc := depth_or_gc v (i_depth_or_gc o);
        i_xattr_nid := u32 (VfsInode.i_xattr_nid v);
        i_flags := u32 (VfsInode.i_flags v);
        i_pino := u32 (VfsInode.i_pino v); i_ino := u32 (VfsInode.i_ino v);
        i_namelen := i_namelen o;
        i_name := snprintf_s 16 fname (i_name o);
        i_dir_level := u8 (VfsInode.i_dir_level v);
        i_pad := i_pad o |} |}, F2FSJ_OK).
End collect.

(** [get_delete_log_from_f2fs_inode]; a null inode is the error branch. *)
Definition get_delete_log_from_f2fs_inode (f2fs_i : option VfsInode.t) (fname : list Z)
    (old : delete_log_t) : delete_log_t * return_value_e :=
  match f2fs_i with
  | None => (old, F2FSJ_ERROR)
  | Some v =>
      ({| dl_header := dl_header old;
          ino_num := u32 (VfsInode.i_ino v);
          parent_ino_num := u32 (VfsInode.i_pino v);
          ino_nlink := u32 (VfsInode.i_nlink v);
          dl_file_name := snprintf_s 16 fname (dl_file_name old);
          dl_i_namelen := u8 (Z.of_nat (length fname));
          dl_pad := dl_pad old;
          nat_log := nat_log old |}, F2FSJ_OK)
  end.

(** The header assignments of [f2fs_create], [f2fs_mkdir] and [f2fs_unlink]
    (namei.c); mkdir stamps its log as a create log. *)
Definition stamp_create (c : create_log_t) : create_log_t :=
  {| cl_header := {| log_type := log_type_code CREATE_LOG; log_size := 128 |};
     j_new_ino_log := j_new_ino_log c |}.

Definition stamp_unlink (d : delete_log_t) : delete_log_t :=
  {| dl_header := {| log_type := log_type_code UNLINK_LOG; log_size := 128 |};
     ino_num := ino_num d; parent_ino_num := parent_ino_num d; ino_nlink := ino_nlink d;
     dl_file_name := dl_file_name d; dl_i_namelen := dl_i_namelen d; dl_pad := dl_pad d;
     nat_log := nat_log d |}.

(** ** The collected logs fit and read back *)

Lemma fits_u8 z : fits 8 (u8 z).
Proof. apply u8_range. Qed.
Lemma fits_u16 z : fits 16 (u16 z).
Proof. apply u16_range. Qed.
Lemma fits_u32 z : fits 32 (u32 z).
Proof. apply u32_range. Qed.
Lemma fits_u64 z : fits 64 (u64 z).
Proof. apply u64_range. Qed.
#[export] Hint Resolve fits_u8 fits_u16 fits_u32 fits_u64 : jbounds.

Lemma depth_or_gc_fits v old : fits 32 old -> fits 32 (depth_or_gc v old).
Proof.
  intros Hold. unfold depth_or_gc. repeat case_match; auto with jbounds.
  pose proof (u16_range (VfsInode.i_gc_failures_pin v)). unfold fits in *. zdiv.
Qed.
#[export] Hint Resolve depth_or_gc_fits : jbounds.

Lemma get_inode_log_fits `{F2fsFsInline} v fname old :
  new_inode_fits (j_new_ino_log old) ->
  new_inode_fits (j_new_ino_log (get_inode_log_from_f2fs_inode v fname old).1).
Proof.
  intros (_ & (? & ? & ? & ? & ? & ? & ? & ?) & (? & ? & ? & ? & ? & ? & ? & ?)).
  unfold new_inode_fits; simpl.
  conjs; auto with jbounds; by unfold inline_bits; auto with jbounds.
Qed.

Lemma get_delete_log_fits v fname old :
  delete_fits old -> delete_fits (stamp_unlink (get_delete_log_from_f2fs_inode (Some v) fname old).1).
Proof.
  intros (_ & (? & ? & ? & ? & ? & ?) & (? & ? & ?)). unfold delete_fits, head_fits; simpl.
  conjs; auto with jbounds; done.
Qed.

(** A create log collected from an inode, stamped and stored as bytes is
    read back exactly, and the name in it is the first 15 bytes of the file
    name: the whole name if it has at most 15 bytes. *)
Theorem create_log_roundtrip `{F2fsFsInline} (v : VfsInode.t) (fname : list Z) (old : create_log_t) :
  new_inode_fits (j_new_ino_log old) -> Forall (fun b => b <> 0) fname ->
  let c := stamp_create (get_inode_log_from_f2fs_inode v fname old).1 in
  decode_create (encode_create c) = c /\
  cstr (i_name (j_new_ino_log (decode_create (encode_create c)))) = take 15 fname /\
  ((length fname <= 15)%nat ->
   cstr (i_name (j_new_ino_log (decode_create (encode_create c)))) = fname).
Proof.
  intros Hold Hname c.
  assert (E : decode_create (encode_create c) = c).
  { rewrite <-(app_nil_r (encode_create c)).
    apply decode_encode_create; [done|]. by apply get_inode_log_fits. }
  rewrite E. subst c. simpl i_name.
  rewrite (snprintf_s_cstr 16) by (auto; lia).
  conjs; [done..|]. intros Hl. apply take_ge. simpl. lia.
Qed.

(** An unlink log read from a journal slot (its 52 bytes followed by any
    older bytes of the slot) gives back the inode number, the parent, the link
    count and the truncated name that were collected. *)
Theorem delete_log_roundtrip (v : VfsInode.t) (fname : list Z) (old : delete_log_t) (rest : list Z) :
  delete_fits old -> Forall (fun b => b <> 0) fname ->
  let d := stamp_unlink (get_delete_log_from_f2fs_inode (Some v) fname old).1 in
  let r := decode_delete (encode_delete d ++ rest) in
  r = d /\ ino_num r = u32 (VfsInode.i_ino v) /\ parent_ino_num r = u32 (VfsInode.i_pino v) /\
  ino_nlink r = u32 (VfsInode.i_nlink v) /\ cstr (dl_file_name r) = take 15 fname.
Proof.
  intros Hold Hname d r.
  assert (E : r = d) by (apply decode_encode_delete; by apply get_delete_log_fits).
  clearbody r. subst r d. conjs; [reflexivity..|].
  apply (snprintf_s_cstr 16); [lia | done].
Qed.
