(* ===== verification/Epoch.v ===== *)
(** * Global epochs (j_epoch.h, j_epoch.c)

    Eight global epochs are used round robin: one collects the inodes that log,
    the others wait for their commit or are idle. *)

From S2P Require Import Prelude LogContent.

Definition MAX_GLOBAL_EP_NUM : Z := 8.
Definition NONE_EPOCH : Z := MAX_GLOBAL_EP_NUM.

Inductive epoch_status_e := EPOCH_IDLE | EPOCH_RUNNING | EPOCH_TOBE_COMMIT | EPOCH_COMMITING.

#[export] Instance epoch_status_e_eq_dec : EqDecision epoch_status_e.
Proof. solve_decision. Defined.

Definition epoch_status_code (st : epoch_status_e) : Z :=
  match st with EPOCH_IDLE => 0 | EPOCH_RUNNING => 1 | EPOCH_TOBE_COMMIT => 2 | EPOCH_COMMITING => 3 end.

(** [global_ino_epoch_list] is the ring of the registration nodes, each named
    by the inode number it belongs to. *)
Record global_epoch_t := {
  total_checkin_ino : Z;
  epoch_seq : Z;
  g_epoch_type : Z;
  g_epoch_status : epoch_status_e;
  global_ino_epoch_list : list Z
}.

(** The statics of j_epoch.c.  The ring headed by
    [g_epoch_head.to_be_commit_global_epoch_list] links epochs, named by their
    index in [global_epoch]. *)
Record epochs := {
  g_epoch_seq : Z;
  g_running_ep : Z;
  global_epoch : list global_epoch_t;
  to_be_commit_list : list Z
}.

Definition set_status (e : global_epoch_t) (st : epoch_status_e) : global_epoch_t :=
  {| total_checkin_ino := total_checkin_ino e; epoch_seq := epoch_seq e; g_epoch_type := g_epoch_type e;
     g_epoch_status := st; global_ino_epoch_list := global_ino_epoch_list e |}.
Definition set_running (e : global_epoch_t) (seq : Z) : global_epoch_t :=
  {| total_checkin_ino := total_checkin_ino e; epoch_seq := seq; g_epoch_type := g_epoch_type e;
     g_epoch_status := EPOCH_RUNNING; global_ino_epoch_list := global_ino_epoch_list e |}.
Definition set_inos (e : global_epoch_t) (l : list Z) : global_epoch_t :=
  {| total_checkin_ino := total_checkin_ino e; epoch_seq := epoch_seq e; g_epoch_type := g_epoch_type e;
     g_epoch_status := g_epoch_status e; global_ino_epoch_list := l |}.

(** [global_epoch[i]], undefined outside the array. *)
Definition epoch_at (s : epochs) (i : Z) : option global_epoch_t := global_epoch s !! Z.to_nat i.
Definition upd_epoch (s : epochs) (i : Z) (e : global_epoch_t) : epochs :=
  {| g_epoch_seq := g_epoch_seq s; g_running_ep := g_running_ep s;
     global_epoch := <[Z.to_nat i := e]> (global_epoch s); to_be_commit_list := to_be_commit_list s |}.
Definition set_commit_list (s : epochs) (l : list Z) : epochs :=
  {| g_epoch_seq := g_epoch_seq s; g_running_ep := g_running_ep s;
     global_epoch := global_epoch s; to_be_commit_list := l |}.

(** [init_global_epoch]: the epochs and the commit list; the sequence number
    and the running epoch keep their static values. *)
Definition init_global_epoch (s : epochs) : epochs :=
  {| g_epoch_seq := g_epoch_seq s; g_running_ep := g_running_ep s;
     global_epoch := (fun i => {| total_checkin_ino := 0; epoch_seq := 0; g_epoch_type := i;
                                  g_epoch_status := EPOCH_IDLE; global_ino_epoch_list := [] |})
                     <$> seqZ 0 MAX_GLOBAL_EP_NUM;
     to_be_commit_list := [] |}.

(** The value the loader gives the statics. *)
Definition static_epochs : epochs :=
  {| g_epoch_seq := 0; g_running_ep := 0; global_epoch := []; to_be_commit_list := [] |}.

Definition is_valid_running_ep (s : epochs) : Z :=
  if MAX_GLOBAL_EP_NUM <=? g_running_ep s then -1 else 1.

(** [get_global_epoch]: the running epoch (its number stands for its list
    head).  Both values of [is_valid_running_ep] are true as a C condition. *)
Definition get_global_epoch (s : epochs) : option Z * return_value_e :=
  if is_valid_running_ep s =? 0 then (None, F2FSJ_ERROR) else (Some (g_running_ep s), F2FSJ_OK).

Definition get_cur_g_running_epoch (s : epochs) : Z := g_running_ep s.

(** [iterate_2_next_ep]. *)
Definition iterate_2_next_ep (s : epochs) : option epochs :=
  let run := u8 (g_running_ep s + 1) mod MAX_GLOBAL_EP_NUM in
  let s := {| g_epoch_seq := u64 (g_epoch_seq s + 1); g_running_ep := run;
              global_epoch := global_epoch s; to_be_commit_list := to_be_commit_list s |} in
  e ← epoch_at s run;
  Some (if decide (g_epoch_status e = EPOCH_IDLE) then upd_epoch s run (set_running e run) else s).

(** [trigger_epoch_commit] (j_epoch_commit.c), under the epoch switch lock. *)
Definition trigger_epoch_commit (s : epochs) : option (epochs * return_value_e) :=
  let g := get_cur_g_running_epoch s in
  l ← list_add g (to_be_commit_list s);
  let s := set_commit_list s l in
  e ← epoch_at s g;
  let s := upd_epoch s g (set_status e EPOCH_TOBE_COMMIT) in
  s ← iterate_2_next_ep s;
  Some (s, F2FSJ_OK).

Definition is_g_commit_ep_empty (s : epochs) : bool :=
  match to_be_commit_list s with [] => true | _ => false end.

(** ** Well-formed epochs

    The waiting epochs are described by their age: the one at distance [d] is
    the epoch that was running [d] switches ago. *)

Definition aged (run d : Z) : Z := (run - d) mod MAX_GLOBAL_EP_NUM.

Record epochs_wf (ages : list Z) (s : epochs) : Prop := {
  ewf_len : length (global_epoch s) = 8%nat;
  ewf_run : 0 <= g_running_ep s < 8;
  ewf_type : forall i e, global_epoch s !! i = Some e -> g_epoch_type e = Z.of_nat i;
  ewf_list : to_be_commit_list s = aged (g_running_ep s) <$> ages;
  ewf_ages : Forall (fun d => 1 <= d <= 8) ages;
  ewf_nodup : NoDup ages
}.

Lemma epoch_at_some ages s i : epochs_wf ages s -> 0 <= i < 8 ->
  exists e, epoch_at s i = Some e /\ g_epoch_type e = i.
Proof.
  intros H Hi. unfold epoch_at.
  destruct (lookup_lt_is_Some_2 (global_epoch s) (Z.to_nat i)) as [e E]; [rewrite (ewf_len _ _ H); lia|].
  exists e. split; [done|]. rewrite (ewf_type _ _ H _ _ E). lia.
Qed.

Lemma aged_range run d : 0 <= aged run d < 8.
Proof. by apply Z.mod_pos_bound. Qed.

Lemma aged_inj run d1 d2 : 1 <= d1 <= 8 -> 1 <= d2 <= 8 -> aged run d1 = aged run d2 -> d1 = d2.
Proof. unfold aged, MAX_GLOBAL_EP_NUM. intros. zdiv. Qed.

Lemma aged_self run d : 0 <= run < 8 -> 1 <= d <= 8 -> aged run d = run -> d = 8.
Proof. unfold aged, MAX_GLOBAL_EP_NUM. intros. zdiv. Qed.

(** An update that keeps the type keeps the epochs well-formed. *)
Lemma upd_epoch_wf ages s i e : epochs_wf ages s -> 0 <= i < 8 -> g_epoch_type e = i ->
  epochs_wf ages (upd_epoch s i e).
Proof.
  intros [Hl Hr Ht Hc Ha Hn] Hi He. constructor; simpl; try done.
  - by rewrite length_insert.
  - intros k e' Hk. apply list_lookup_insert_Some in Hk as [(<- & <- & _)|[_ Hk]]; [lia|by apply Ht].
Qed.

Lemma init_global_epoch_wf s : 0 <= g_running_ep s < 8 -> epochs_wf [] (init_global_epoch s).
Proof.
  intros Hr. constructor; [done|done| |done|by constructor|constructor].
  intros i e Hi. cbn [init_global_epoch global_epoch] in Hi.
  apply list_lookup_fmap_Some in Hi as (z & -> & Hz). apply lookup_seqZ in Hz as [-> _]. simpl. lia.
Qed.

Lemma running_not_waiting ages s : epochs_wf ages s -> 8 ∉ ages -> g_running_ep s ∉ to_be_commit_list s.
Proof.
  intros [Hl Hr Ht Hc Ha Hn] H8. rewrite Hc. intros (d & E & Hd)%list_elem_of_fmap.
  rewrite list.Forall_forall in Ha. specialize (Ha d Hd). apply H8.
  by rewrite <-(aged_self (g_running_ep s) d) by done.
Qed.

(** The running epoch after a switch, and the ages seen from it. *)
Lemma next_running run : 0 <= run < 8 -> u8 (run + 1) mod MAX_GLOBAL_EP_NUM = (run + 1) mod 8.
Proof. intros. by rewrite u8_small by lia. Qed.

Lemma aged_next run d : 0 <= run < 8 -> aged ((run + 1) mod 8) (d + 1) = aged run d.
Proof. unfold aged, MAX_GLOBAL_EP_NUM. intros. zdiv. Qed.

Definition older (ages : list Z) : list Z := 1 :: ((fun d => d + 1) <$> ages).

(** Two states have the same registrations when every epoch lists the same
    inodes and keeps its type. *)
Definition same_inos (s s' : epochs) : Prop :=
  length (global_epoch s') = length (global_epoch s) /\
  forall i e, epoch_at s i = Some e -> exists e', epoch_at s' i = Some e' /\
    global_ino_epoch_list e' = global_ino_epoch_list e /\ g_epoch_type e' = g_epoch_type e.

#[export] Instance same_inos_preorder : PreOrder same_inos.
Proof.
  split.
  - intros s. split; [done|]. eauto.
  - intros s1 s2 s3 [L1 H1] [L2 H2]. split; [congruence|]. intros i e E.
    destruct (H1 i e E) as (e' & E' & I & T). destruct (H2 i e' E') as (e'' & E'' & I' & T').
    exists e''. conjs; [done|congruence|congruence].
Qed.

Lemma upd_epoch_same s i e e' : epoch_at s i = Some e ->
  global_ino_epoch_list e' = global_ino_epoch_list e -> g_epoch_type e' = g_epoch_type e ->
  same_inos s (upd_epoch s i e').
Proof.
  intros E HI HT. split; [simpl; by rewrite length_insert|]. intros k e0 E0. unfold epoch_at in *. simpl.
  rewrite list_lookup_insert. destruct (decide _) as [[Hi _]|_]; [|by eauto].
  exists e'. rewrite Hi in E. assert (e0 = e) as -> by congruence. done.
Qed.

Lemma iterate_2_next_ep_spec s : length (global_epoch s) = 8%nat -> 0 <= g_running_ep s < 8 ->
  exists s', iterate_2_next_ep s = Some s' /\ same_inos s s' /\
    g_running_ep s' = (g_running_ep s + 1) mod 8 /\ g_epoch_seq s' = u64 (g_epoch_seq s + 1) /\
    to_be_commit_list s' = to_be_commit_list s.
Proof.
  intros Hl Hr. unfold iterate_2_next_ep. rewrite next_running by done. set (run := _ mod 8).
  assert (Hrun : 0 <= run < 8) by (by apply Z.mod_pos_bound).
  destruct (lookup_lt_is_Some_2 (global_epoch s) (Z.to_nat run)) as [e E]; [lia|].
  set (s2 := {| g_running_ep := run |}). assert (E2 : epoch_at s2 run = Some e) by done. rewrite E2. simpl.
  assert (H2 : same_inos s s2) by (split; [done|by eauto]).
  eexists. split; [reflexivity|]. destruct (decide _); [|done]. conjs; [|done..].
  etransitivity; [exact H2|]. by apply (upd_epoch_same s2 run e).
Qed.

Lemma same_inos_types s s' : length (global_epoch s) = 8%nat -> same_inos s s' ->
  (forall i e, global_epoch s !! i = Some e -> g_epoch_type e = Z.of_nat i) ->
  (forall i e, global_epoch s' !! i = Some e -> g_epoch_type e = Z.of_nat i).
Proof.
  intros Hl [HL HS] H i e' E'.
  destruct (lookup_lt_is_Some_2 (global_epoch s) i) as [e E].
  { apply lookup_lt_Some in E'. lia. }
  destruct (HS (Z.of_nat i) e) as (e'' & E'' & _ & T).
  { unfold epoch_at. by rewrite Nat2Z.id. }
  unfold epoch_at in E''. rewrite Nat2Z.id in E''. assert (e'' = e') as -> by congruence.
  rewrite T. by apply H.
Qed.

Lemma older_ages ages : Forall (fun d => 1 <= d <= 8) ages -> NoDup ages -> 8 ∉ ages ->
  Forall (fun d => 1 <= d <= 8) (older ages) /\ NoDup (older ages).
Proof.
  intros Ha Hn H8. rewrite list.Forall_forall in Ha. split; constructor.
  - lia.
  - apply Forall_fmap, list.Forall_forall. intros d Hd. simpl.
    specialize (Ha d Hd). assert (d <> 8) by (intros ->; done). lia.
  - intros (d & E1 & Hd)%list_elem_of_fmap. specialize (Ha d Hd). lia.
  - apply NoDup_fmap_2; [intros x y; lia|done].
Qed.

Lemma trigger_epoch_commit_spec ages s : epochs_wf ages s -> 8 ∉ ages ->
  exists s', trigger_epoch_commit s = Some (s', F2FSJ_OK) /\ epochs_wf (older ages) s' /\
    same_inos s s' /\ g_running_ep s' = (g_running_ep s + 1) mod 8 /\
    to_be_commit_list s' = g_running_ep s :: to_be_commit_list s.
Proof.
  intros Hw H8. pose proof (running_not_waiting _ _ Hw H8) as Hnot.
  destruct (epoch_at_some ages s (g_running_ep s) Hw (ewf_run _ _ Hw)) as (e & E & Et).
  destruct Hw as [Hl Hr Ht Hc Ha Hn].
  unfold trigger_epoch_commit, get_cur_g_running_epoch. rewrite list_add_fresh by done. cbn [mbind option_bind].
  set (s0 := set_commit_list s _). assert (E0 : epoch_at s0 (g_running_ep s) = Some e) by done.
  rewrite E0. cbn [mbind option_bind]. set (s1 := upd_epoch s0 _ _).
  assert (H1 : same_inos s s1) by (by apply (upd_epoch_same s0 (g_running_ep s) e)).
  destruct (iterate_2_next_ep_spec s1) as (s2 & E2 & H2 & R2 & Q2 & C2); [rewrite (proj1 H1); lia|done|].
  rewrite E2. cbn [mbind option_bind]. exists s2.
  assert (H12 : same_inos s s2) by (by etransitivity).
  destruct (older_ages ages Ha Hn H8) as [Ha' Hn']. conjs; [done| |done|done|done].
  constructor; [by rewrite (proj1 H12)|rewrite R2; by apply Z.mod_pos_bound|by eapply same_inos_types| |done|done].
  rewrite C2, R2. change (g_running_ep s1) with (g_running_ep s).
  cbn [s1 s0 upd_epoch to_be_commit_list set_commit_list]. unfold older. rewrite fmap_cons. f_equal.
  - unfold aged, MAX_GLOBAL_EP_NUM. zdiv.
  - rewrite Hc, <-list_fmap_compose. apply list_fmap_ext. intros _ d _. simpl. by rewrite aged_next.
Qed.
