(* ===== verification/JournalFile.v ===== *)
(** * The memory-mapped journal file (j_journal_file.h, j_journal_file.c)

    The journal is one ring of 65536 pages of 32 log slots.  This file models
    the slot allocator, the stores into the mapped pages, the block I/O that
    writes, clears and reads the journal area, and the scan of the journal at
    mount time. *)

From S2P Require Import Prelude LogContent.

(** ** Constants (j_journal_file.h) *)

Definition PAGE_SIZE : Z := 4096.
Definition JOURNAL_FILE_SIZE : Z := 256 * 1024 * 1024.
Definition F2FSJ_SB_BLOCK1_ADDR : Z := 3866624.
Definition JOURNAL_FILE_START_ADDR : Z := F2FSJ_SB_BLOCK1_ADDR + 1.
Definition JOURNAL_BLK_PER_SMALL_FILE : Z := 65536.
Definition NR_JOUNRAL_SMALL_FILE : Z := 1.
Definition JORNAL_FILE_0_START_BLK : Z := JOURNAL_FILE_START_ADDR + JOURNAL_BLK_PER_SMALL_FILE * 0.
Definition J_LOG_ENTRY_PER_FILE : Z := 2097152.
Definition J_LOG_ENTRY_PER_BLOCK : Z := 32.
Definition JOURNAL_FILE_MAGIC_NUMBER : Z := 52719. (* 0xCDEF *)
Definition F2FSJ_J_FILE_0 : Z := 0.

Lemma blk_per_small_file_eq : JOURNAL_BLK_PER_SMALL_FILE = 256 * 1024 * 1024 / 4096.
Proof. reflexivity. Qed.
Lemma entry_per_file_eq : J_LOG_ENTRY_PER_FILE = 256 * 1024 * 1024 / J_LOG_ENTRY_SIZE.
Proof. reflexivity. Qed.

(** log entry -> block, offset in the block, address in the mapping. *)
Definition J_LOG_ENTRY_TO_BLK (idx : Z) : Z := u32 idx / J_LOG_ENTRY_PER_BLOCK.
Definition J_LOG_ENTRY_TO_BLK_OFFSET (idx : Z) : Z := u32 idx mod J_LOG_ENTRY_PER_BLOCK.
Definition J_LOG_ENTRY_ADDR (idx : Z) : Z * Z :=
  (J_LOG_ENTRY_TO_BLK idx, J_LOG_ENTRY_TO_BLK_OFFSET idx * J_LOG_ENTRY_SIZE).
Definition J_SECTOR_FROM_BLOCK (blk : Z) : Z := u64 (Z.shiftl blk 3).

(** ** State *)

Inductive j_file_state_e :=
| J_FILE_IDLE | J_FILE_INUSE | J_WHOLE_FILE_WAIT_COMMIT | J_PARTIAL_FILE_WAIT_COMMIT.

#[export] Instance j_file_state_e_eq_dec : EqDecision j_file_state_e.
Proof. solve_decision. Defined.

(** A page buffer is its 4096 bytes; [j_pages] maps the page index of the
    mapping to the page. *)
Record j_file_mapping_t := {
  j_file_state : j_file_state_e;
  j_cur_file : Z;
  j_cur_log_entry_idx : Z;
  j_cur_file_start_blk : Z;
  j_cur_file_end_blk : Z;
  j_cur_file_first_inused_blk : Z;
  j_pages : gmap Z (list Z)
}.

Record j_jsb_info_t := {
  j_magic_num : Z; j_start_addr : Z; j_file_size : Z;
  j_current_small_file : Z; j_current_free_log_entry : Z
}.

Record j_on_disk_file_info_t := { total_file_size : Z; used_file_size : Z }.

(** The static variables of j_journal_file.c.  [j_file_mmap] has one small file
    in use ([NR_JOUNRAL_SMALL_FILE = 1], [j_current_small_file] is
    [F2FSJ_J_FILE_0] from the initialisation on), so the array is its element
    0.  [memap_lock] is whether [g_jsb.j_file_memap_lock] is held, and
    [entry_live] counts the [j_log_entry_t] objects of the slab in use. *)
Record journal := {
  j_file_mmap : j_file_mapping_t;
  g_jsb : j_jsb_info_t;
  g_on_disk_j_file : j_on_disk_file_info_t;
  memap_lock : bool;
  entry_live : Z
}.

Definition set_mmap (s : journal) (m : j_file_mapping_t) : journal :=
  {| j_file_mmap := m; g_jsb := g_jsb s; g_on_disk_j_file := g_on_disk_j_file s;
     memap_lock := memap_lock s; entry_live := entry_live s |}.
Definition set_lock (s : journal) (b : bool) : journal :=
  {| j_file_mmap := j_file_mmap s; g_jsb := g_jsb s; g_on_disk_j_file := g_on_disk_j_file s;
     memap_lock := b; entry_live := entry_live s |}.
Definition set_live (s : journal) (n : Z) : journal :=
  {| j_file_mmap := j_file_mmap s; g_jsb := g_jsb s; g_on_disk_j_file := g_on_disk_j_file s;
     memap_lock := memap_lock s; entry_live := n |}.
Definition set_on_disk (s : journal) (d : j_on_disk_file_info_t) : journal :=
  {| j_file_mmap := j_file_mmap s; g_jsb := g_jsb s; g_on_disk_j_file := d;
     memap_lock := memap_lock s; entry_live := entry_live s |}.
Definition set_jsb (s : journal) (b : j_jsb_info_t) : journal :=
  {| j_file_mmap := j_file_mmap s; g_jsb := b; g_on_disk_j_file := g_on_disk_j_file s;
     memap_lock := memap_lock s; entry_live := entry_live s |}.

Definition set_state_idx (m : j_file_mapping_t) (st : j_file_state_e) (idx first : Z)
    : j_file_mapping_t :=
  {| j_file_state := st; j_cur_file := j_cur_file m; j_cur_log_entry_idx := idx;
     j_cur_file_start_blk := j_cur_file_start_blk m; j_cur_file_end_blk := j_cur_file_end_blk m;
     j_cur_file_first_inused_blk := first; j_pages := j_pages m |}.
Definition set_pages (m : j_file_mapping_t) (ps : gmap Z (list Z)) : j_file_mapping_t :=
  {| j_file_state := j_file_state m; j_cur_file := j_cur_file m;
     j_cur_log_entry_idx := j_cur_log_entry_idx m;
     j_cur_file_start_blk := j_cur_file_start_blk m; j_cur_file_end_blk := j_cur_file_end_blk m;
     j_cur_file_first_inused_blk := j_cur_file_first_inused_blk m; j_pages := ps |}.

(** [spin_lock] on a lock that is held never returns. *)
Definition spin_lock (s : journal) : option journal :=
  if memap_lock s then None else Some (set_lock s true).
Definition spin_unlock (s : journal) : journal := set_lock s false.

(** ** Log entries (j_alloc_log_entry, j_free_log_entry) *)

Record j_log_entry_t := { log_entry_idx : Z; log_entry_addr : Z * Z }.

#[export] Instance j_log_entry_t_eq_dec : EqDecision j_log_entry_t.
Proof. solve_decision. Defined.

(** [j_alloc_log_entry]; [slab] is what [kmem_cache_alloc] returned: null, or
    an object with arbitrary contents.  The result is the new state, the
    entry pointer and the return code; there is none when the call hangs on
    the lock. *)
Definition j_alloc_log_entry (slab : option j_log_entry_t) (s : journal)
    : option (journal * option j_log_entry_t * return_value_e) :=
  match slab with
  | None => Some (s, None, F2FSJ_ERROR)
  | Some raw =>
  let s := set_live s (entry_live s + 1) in
  s ← spin_lock s;
  let m := j_file_mmap s in
  let m := if decide (j_file_state m = J_FILE_IDLE)
           then set_state_idx m J_FILE_INUSE (j_cur_log_entry_idx m) (j_cur_file_first_inused_blk m)
           else m in
  if decide (j_file_state m = J_WHOLE_FILE_WAIT_COMMIT)
  then (* returns -1 without releasing the lock *)
    Some (set_mmap s m, Some raw, F2FSJ_ERROR)
  else
    let idx := j_cur_log_entry_idx m in
    let entry := {| log_entry_idx := idx; log_entry_addr := J_LOG_ENTRY_ADDR idx |} in
    let idx' := idx +! 1 in
    let m := if idx' =? J_LOG_ENTRY_PER_FILE
             then set_state_idx m J_FILE_INUSE 0 (j_cur_file_start_blk m)
             else set_state_idx m J_PARTIAL_FILE_WAIT_COMMIT idx' (j_cur_file_first_inused_blk m) in
    Some (spin_unlock (set_mmap s m), Some entry, F2FSJ_OK)
  end.

Definition j_free_log_entry (log_entry : option j_log_entry_t) (s : journal)
    : journal * return_value_e :=
  match log_entry with
  | Some _ => (set_live s (entry_live s - 1), F2FSJ_OK)
  | None => (s, F2FSJ_ERROR)
  end.

(** ** Stores and loads in the mapped pages *)

(** [memcpy(addr, bs, sizeof bs)] into a page of the mapping. *)
Definition jmem_write (ps : gmap Z (list Z)) (addr : Z * Z) (bs : list Z) : gmap Z (list Z) :=
  alter (fun pg => list_inserts (Z.to_nat addr.2) bs pg) addr.1 ps.

(** [n] bytes read through a pointer into a page. *)
Definition jmem_read (ps : gmap Z (list Z)) (addr : Z * Z) (n : nat) : list Z :=
  take n (drop (Z.to_nat addr.2) (default [] (ps !! addr.1))).

(** The 128 bytes of a slot. *)
Definition slot (ps : gmap Z (list Z)) (idx : Z) : list Z :=
  jmem_read ps (J_LOG_ENTRY_ADDR idx) 128.

Definition zero_page : list Z := replicate 4096 0.

(** ** The allocation-order test counter and the space accounting *)

Definition alloc_log_entry_test (t : log_type_e) (g_whole_journal_size : Z) : Z :=
  match t with
  | CREATE_LOG => g_whole_journal_size + 128
  | MKDIR_LOG => g_whole_journal_size + 128
  | UNLINK_LOG => g_whole_journal_size + 64
  | DATA_WRITE_LOG => g_whole_journal_size + 32
  | _ => g_whole_journal_size
  end.

Definition get_on_disk_free_journal_space (s : journal) : Z :=
  let d := g_on_disk_j_file s in
  if used_file_size d <=? total_file_size d then total_file_size d - used_file_size d else -1.

Definition reset_on_disk_journal_space_info (s : journal) : journal :=
  set_on_disk s {| total_file_size := total_file_size (g_on_disk_j_file s); used_file_size := 0 |}.

(** [reserve_free_journal_space]: the start block is set only when the request
    fits; [j_current_free_log_entry] starts at the capacity. *)
Definition reserve_free_journal_space (nr : Z) (s : journal) : journal * option Z :=
  let b := g_jsb s in
  if j_current_free_log_entry b +! nr <=? JOURNAL_BLK_PER_SMALL_FILE
  then (set_jsb s {| j_magic_num := j_magic_num b; j_start_addr := j_start_addr b;
                     j_file_size := j_file_size b;
                     j_current_small_file := j_current_small_file b;
                     j_current_free_log_entry := j_current_free_log_entry b +! nr |},
        Some (j_current_free_log_entry b))
  else (s, None).

(** ** Block I/O on the journal area

    A bio is its operation, the first block and the indices of the journal
    pages added to it; it holds at most the number of vectors it was
    allocated with.  The submitted bios form the trace, in submission order. *)

Inductive req_op := REQ_OP_WRITE | REQ_OP_READ.

#[export] Instance req_op_eq_dec : EqDecision req_op.
Proof. solve_decision. Defined.

Record bio := { bi_op : req_op; bi_sector : Z; bi_max_vecs : Z; bi_pages : list Z }.

Definition j_alloc_bio_write (start_blk_addr pre_alloc_iovecs : Z) : bio :=
  {| bi_op := REQ_OP_WRITE; bi_sector := J_SECTOR_FROM_BLOCK start_blk_addr;
     bi_max_vecs := pre_alloc_iovecs; bi_pages := [] |}.

Definition j_alloc_bio_read (start_blk_addr : Z) : bio :=
  {| bi_op := REQ_OP_READ; bi_sector := J_SECTOR_FROM_BLOCK start_blk_addr;
     bi_max_vecs := 256; bi_pages := [] |}.

(** [bio_add_page] takes the page when a vector is free. *)
Definition add_journal_page_2_bio (p : Z) (b : bio) : bio * return_value_e :=
  if Z.of_nat (length (bi_pages b)) <? bi_max_vecs b
  then ({| bi_op := bi_op b; bi_sector := bi_sector b; bi_max_vecs := bi_max_vecs b;
           bi_pages := bi_pages b ++ [p] |}, F2FSJ_OK)
  else (b, F2FSJ_ERROR).

(** The loop of [write_current_mmap_j_file]: [j], [nr_page] and [start_blk]
    advance together while the bound [end_blk - start_blk] shrinks.  The
    result is the final [start_blk] and the submitted bios. *)
Fixpoint write_loop (fuel : nat) (j nr_page start_blk end_blk total_pages : Z)
    (b : bio) (trace : list bio) : option (Z * list bio) :=
  match fuel with
  | O => None
  | S fuel =>
      if negb (j <=? end_blk -! start_blk) then Some (start_blk, trace)
      else if nr_page =? total_pages then Some (start_blk, trace ++ [b])
      else
        let '(b, trace) :=
          if (nr_page mod 256 =? 0) && negb (nr_page =? 0)
          then (j_alloc_bio_write start_blk 256, trace ++ [b]) else (b, trace) in
        let '(b, _) := add_journal_page_2_bio j b in
        write_loop fuel (j + 1) (nr_page + 1) (start_blk +! 1) end_blk total_pages b trace
  end.

(** [write_current_mmap_j_file]: the bios submitted for the part of the
    journal between the first in-use block and the block of the current
    entry, and the update of the space accounting. *)
Definition write_current_mmap_j_file (s : journal) : option (journal * list bio) :=
  s ← spin_lock s;
  let cur_log_entry_idx := j_cur_log_entry_idx (j_file_mmap s) in
  let s := spin_unlock s in
  let m := j_file_mmap s in
  let start_blk := j_cur_file_first_inused_blk m in
  let end_blk := J_LOG_ENTRY_TO_BLK cur_log_entry_idx +! j_cur_file_start_blk m in
  let total_pages := u32 (end_blk - start_blk + 1) in
  let b := j_alloc_bio_write start_blk 256 in
  if decide (j_file_state m = J_WHOLE_FILE_WAIT_COMMIT \/
             j_file_state m = J_PARTIAL_FILE_WAIT_COMMIT)
  then
    '(start_blk', trace) ← write_loop (Z.to_nat total_pages + 2) 0 0 start_blk end_blk total_pages b [];
    let m := set_state_idx m (j_file_state m) (j_cur_log_entry_idx m) end_blk in
    let d := g_on_disk_j_file s in
    let used := u32 (used_file_size d + u32 (end_blk - start_blk' + 1) * PAGE_SIZE) in
    Some (set_on_disk (set_mmap s m)
            {| total_file_size := total_file_size d; used_file_size := used |}, trace)
  else Some (s, []).

(** The batching loop shared by [clear_journal_file_after_recovery] and
    [recover_read_journal]: pages [j, j+1, ...] are added in turn, a bio is
    submitted and a new one opened at every multiple of 256 pages, and the
    loop breaks after the submission that reaches [total] pages.  [touch] is
    what is done to a page before it is added, [mk] opens a bio at a block;
    the reader gives up when a page cannot be added ([strict]). *)
Fixpoint batch_loop (fuel : nat) (strict : bool) (mk : Z -> bio) (touch : gmap Z (list Z) -> Z -> gmap Z (list Z))
    (total j nr_page start_blk : Z) (b : bio) (ps : gmap Z (list Z)) (trace : list bio)
    : option (gmap Z (list Z) * list bio * return_value_e) :=
  match fuel with
  | O => None
  | S fuel =>
      if negb (j <=? total) then Some (ps, trace, F2FSJ_OK)
      else
        let full := (nr_page mod 256 =? 0) && negb (nr_page =? 0) in
        if full && (nr_page =? total) then Some (ps, trace ++ [b], F2FSJ_OK)
        else
          let '(b, trace) := if full then (mk start_blk, trace ++ [b]) else (b, trace) in
          let ps := touch ps j in
          let '(b, ret) := add_journal_page_2_bio j b in
          if strict && bool_decide (ret <> F2FSJ_OK) then Some (ps, trace, F2FSJ_ERROR) else
          batch_loop fuel strict mk touch total (j + 1) (nr_page + 1) (start_blk +! 1) b ps trace
  end.

Definition memzero_page (ps : gmap Z (list Z)) (j : Z) : gmap Z (list Z) := <[j := zero_page]> ps.

(** [clear_journal_file_after_recovery]: zero every page and write it. *)
Definition clear_journal_file_after_recovery (s : journal) : option (journal * list bio) :=
  let m := j_file_mmap s in
  let start_blk := j_cur_file_start_blk m in
  let mk := fun blk => j_alloc_bio_write blk 256 in
  '(ps, trace, _) ← batch_loop (Z.to_nat (JOURNAL_BLK_PER_SMALL_FILE + 2)) false mk memzero_page
                   JOURNAL_BLK_PER_SMALL_FILE 0 0 start_blk (mk start_blk) (j_pages m) [];
  Some (set_mmap s (set_pages m ps), trace).

(** The read half of [recover_read_journal]: the bios that fill the pages. *)
Definition recover_read_journal_bios (s : journal) : option (list bio * return_value_e) :=
  let m := j_file_mmap s in
  let start_blk := j_cur_file_start_blk m in
  let total_pages := j_cur_file_end_blk m -! start_blk in
  '(_, trace, ret) ← batch_loop (Z.to_nat (total_pages + 2)) true j_alloc_bio_read (fun ps _ => ps)
                  total_pages 0 0 start_blk (j_alloc_bio_read start_blk) (j_pages m) [];
  Some (trace, ret).

(** ** Effect of the bios on the device

    The block layer moves the pages of a bio to or from consecutive blocks,
    the first one at [bi_sector / 8]. *)

Abbreviation disk := (gmap Z (list Z)).

Fixpoint write_pages (ps : gmap Z (list Z)) (blk : Z) (pages : list Z) (d : disk) : disk :=
  match pages with
  | [] => d
  | p :: pages => write_pages ps (blk + 1) pages (<[blk := default zero_page (ps !! p)]> d)
  end.

Fixpoint read_pages (d : disk) (blk : Z) (pages : list Z) (ps : gmap Z (list Z)) : gmap Z (list Z) :=
  match pages with
  | [] => ps
  | p :: pages => read_pages d (blk + 1) pages (<[p := default zero_page (d !! blk)]> ps)
  end.

Definition bio_write (ps : gmap Z (list Z)) (d : disk) (b : bio) : disk :=
  write_pages ps (Z.shiftr (bi_sector b) 3) (bi_pages b) d.

Definition bio_read (d : disk) (ps : gmap Z (list Z)) (b : bio) : gmap Z (list Z) :=
  read_pages d (Z.shiftr (bi_sector b) 3) (bi_pages b) ps.

Definition exec_writes (ps : gmap Z (list Z)) (trace : list bio) (d : disk) : disk :=
  foldl (bio_write ps) d trace.

Definition exec_reads (d : disk) (trace : list bio) (ps : gmap Z (list Z)) : gmap Z (list Z) :=
  foldl (bio_read d) ps trace.

(** ** Scanning the journal (iterate_journal, do_recover_from_journal) *)

Definition is_invalid_log_type (t : Z) : bool :=
  negb ((t =? log_type_code CREATE_LOG) || (t =? log_type_code MKDIR_LOG) ||
        (t =? log_type_code UNLINK_LOG) || (t =? log_type_code RENAME_LOG) ||
        (t =? log_type_code DATA_WRITE_LOG)).

(** What [do_recover_from_journal] decodes from a log.  The calls that would
    apply it ([j_recover_new_inode], [j_recover_unlink]) are commented out in
    the source, so decoding is all it does. *)
Inductive recovered :=
| R_CREATE (l : j_new_inode_log_t)
| R_UNLINK (d : delete_log_t)
| R_OTHER (t : Z).

Definition do_recover_from_journal (t : Z) (log_content : list Z) : recovered :=
  if (t =? log_type_code CREATE_LOG) || (t =? log_type_code MKDIR_LOG)
  then R_CREATE (j_new_ino_log (decode_create log_content))
  else if t =? log_type_code UNLINK_LOG then R_UNLINK (decode_delete log_content)
  else R_OTHER t.

(** The test that ends the scan. *)
Definition entry_valid (img : list Z) : bool :=
  let h := decode_head img in
  negb (negb (log_size h =? 128) || is_invalid_log_type (log_type h)).

(** The inner loop over the entries of page [i]: the logs handed to the
    recovery and whether an invalid entry ended the scan. *)
Fixpoint iterate_block (ps : gmap Z (list Z)) (i j : Z) (n : nat) : list recovered * bool :=
  match n with
  | O => ([], false)
  | S n =>
      let log_en := jmem_read ps (i, J_LOG_ENTRY_SIZE * j) 128 in
      if entry_valid log_en
      then let '(rs, stop) := iterate_block ps i (j + 1) n in
           (do_recover_from_journal (log_type (decode_head log_en)) log_en :: rs, stop)
      else ([], true)
  end.

Fixpoint iterate_blocks (ps : gmap Z (list Z)) (i : Z) (n : nat) : list recovered :=
  match n with
  | O => []
  | S n =>
      let '(rs, stop) := iterate_block ps i 0 (Z.to_nat J_LOG_ENTRY_PER_BLOCK) in
      if stop then rs else rs ++ iterate_blocks ps (i + 1) n
  end.

Definition iterate_journal (s : journal) : list recovered :=
  iterate_blocks (j_pages (j_file_mmap s)) 0 (Z.to_nat JOURNAL_BLK_PER_SMALL_FILE).

(** [recover_read_journal]: fill the mapping from the device, then scan it
    when the last bio completed without error. *)
Definition recover_read_journal (d : disk) (bi_status_ok : bool) (s : journal)
    : option (journal * list recovered) :=
  '(trace, ret) ← recover_read_journal_bios s;
  let m := j_file_mmap s in
  let s := set_mmap s (set_pages m (exec_reads d trace (j_pages m))) in
  if decide (ret = F2FSJ_OK)
  then Some (s, if bi_status_ok then iterate_journal s else [])
  else Some (s, []).

(** ** Initialisation (mmap_journal_file, init_journal_file_info) *)

(** The pages of the mapping after the allocation loop; [alloc j] is the
    contents of the page [alloc_page] gives for index [j]. *)
Definition mapped_pages (alloc : Z -> list Z) : gmap Z (list Z) :=
  list_to_map ((fun j => (j, alloc j)) <$> seqZ 0 JOURNAL_BLK_PER_SMALL_FILE).

Definition mmap_journal_file (alloc : Z -> list Z) (s : journal) : journal :=
  set_mmap s {|
    j_file_state := J_FILE_IDLE; j_cur_file := 0; j_cur_log_entry_idx := 0;
    j_cur_file_start_blk := JORNAL_FILE_0_START_BLK;
    j_cur_file_end_blk := JORNAL_FILE_0_START_BLK + JOURNAL_BLK_PER_SMALL_FILE;
    j_cur_file_first_inused_blk := JORNAL_FILE_0_START_BLK;
    j_pages := mapped_pages alloc |}.

(** [init_journal_file_info].  [bh] is the journal super block read from block
    [F2FSJ_SB_BLOCK1_ADDR], [slab_ok] whether the slab cache was created.  The
    result is the state, the super block to write back (if the magic was
    missing), the logs found and the return code. *)
Definition init_journal_file_info (bh : option j_jsb_info_t) (slab_ok : bool)
    (alloc : Z -> list Z) (d : disk) (bi_status_ok : bool) (s : journal)
    : option (journal * option j_jsb_info_t * list recovered * return_value_e) :=
  match bh with
  | None => Some (s, None, [], F2FSJ_ERROR)
  | Some sb =>
      let g := g_jsb s in
      let s := set_jsb s {| j_magic_num := j_magic_num sb; j_start_addr := j_start_addr sb;
                            j_file_size := j_file_size sb;
                            j_current_small_file := j_current_small_file g;
                            j_current_free_log_entry := j_current_free_log_entry g |} in
      let wb := if j_magic_num sb =? JOURNAL_FILE_MAGIC_NUMBER then None
                else Some {| j_magic_num := JOURNAL_FILE_MAGIC_NUMBER;
                             j_start_addr := F2FSJ_SB_BLOCK1_ADDR;
                             j_file_size := JOURNAL_FILE_SIZE;
                             j_current_small_file := F2FSJ_J_FILE_0;
                             j_current_free_log_entry := JOURNAL_BLK_PER_SMALL_FILE |} in
      let s := set_lock s false in
      if negb slab_ok then Some (s, wb, [], F2FSJ_ERROR) else
      let s := mmap_journal_file alloc s in
      '(s, logs) ← recover_read_journal d bi_status_ok s;
      let g := g_jsb s in
      let s := set_jsb s {| j_magic_num := j_magic_num g; j_start_addr := j_start_addr g;
                            j_file_size := j_file_size g;
                            j_current_small_file := F2FSJ_J_FILE_0;
                            j_current_free_log_entry := JOURNAL_BLK_PER_SMALL_FILE |} in
      let s := set_on_disk s {| total_file_size := JOURNAL_FILE_SIZE; used_file_size := 0 |} in
      Some (s, wb, logs, F2FSJ_OK)
  end.
