(* ===== verification/InodeLog.v ===== *)
(** * Per-inode log lists (j_log_operate.c, f2fs.h, super.c)

    An inode owns eight local log lists.  The first log of an inode in the
    running global epoch registers the inode there and takes an idle local
    list; the logs are queued on the active local list until the commit of
    the global epoch moves them to the checkpoint list. *)

From S2P Require Import Prelude LogContent Epoch JournalFile.

Definition LOG_LIST_IDLE : Z := 0.
Definition LOG_LIST_INUSE : Z := 1.

(** A queued log: the address of its [j_log_entry_t] object, which is what the
    list links, and the object's contents. *)
Record log_node := { ln_ptr : Z; ln_entry : j_log_entry_t }.

(** The status is an [int]: the commit also stores [EPOCH_COMMITING] there. *)
Record j_ino_local_epoch_t := { log_list_status : Z; inode_log_list : list log_node }.

(** The journal fields of [struct f2fs_inode_info]. *)
Record j_inode := {
  j_local_active_epoch : Z;
  j_ino_log_list : list j_ino_local_epoch_t;
  g2l_ep_map : list Z
}.

Definition set_active (fi : j_inode) (a : Z) : j_inode :=
  {| j_local_active_epoch := a; j_ino_log_list := j_ino_log_list fi; g2l_ep_map := g2l_ep_map fi |}.
Definition set_g2l (fi : j_inode) (g l : Z) : j_inode :=
  {| j_local_active_epoch := j_local_active_epoch fi; j_ino_log_list := j_ino_log_list fi;
     g2l_ep_map := <[Z.to_nat g := l]> (g2l_ep_map fi) |}.
Definition upd_local (fi : j_inode) (l : Z) (ep : j_ino_local_epoch_t) : j_inode :=
  {| j_local_active_epoch := j_local_active_epoch fi;
     j_ino_log_list := <[Z.to_nat l := ep]> (j_ino_log_list fi); g2l_ep_map := g2l_ep_map fi |}.
Definition local_at (fi : j_inode) (l : Z) : option j_ino_local_epoch_t := j_ino_log_list fi !! Z.to_nat l.
Definition g2l_at (fi : j_inode) (g : Z) : option Z := g2l_ep_map fi !! Z.to_nat g.

(** A new inode ([f2fs_alloc_inode]). *)
Definition f2fs_alloc_inode : j_inode :=
  {| j_local_active_epoch := 0;
     j_ino_log_list := replicate 8 {| log_list_status := LOG_LIST_IDLE; inode_log_list := [] |};
     g2l_ep_map := replicate 8 NONE_EPOCH |}.

Definition update_ino_epoch_status (ep : j_ino_local_epoch_t) (st : Z) : j_ino_local_epoch_t :=
  {| log_list_status := st; inode_log_list := inode_log_list ep |}.
Definition set_log_list (ep : j_ino_local_epoch_t) (l : list log_node) : j_ino_local_epoch_t :=
  {| log_list_status := log_list_status ep; inode_log_list := l |}.

(** [is_already_checkin_g_epoch]: the flag and, when the running epoch was
    found, its number; an out-of-range index has no result. *)
Definition is_already_checkin_g_epoch (s : epochs) (fi : j_inode) : option (bool * option Z) :=
  match (get_global_epoch s).1 with
  | None => Some (false, None)
  | Some g =>
      if NONE_EPOCH <=? g then Some (false, Some g)
      else l ← g2l_at fi g;
           Some ((0 <=? l) && (l <? NONE_EPOCH), Some g)
  end.

(** One pass of [get_idle_local_epoch] over the local lists from [i]. *)
Fixpoint find_idle (ls : list j_ino_local_epoch_t) (i : Z) : Z :=
  match ls with
  | [] => i
  | ep :: ls => if log_list_status ep =? LOG_LIST_IDLE then i else find_idle ls (i + 1)
  end.

(** [get_idle_local_epoch]: the search is repeated once when it fails. *)
Definition get_idle_local_epoch (fi : j_inode) : Z :=
  let i := find_idle (j_ino_log_list fi) 0 in
  if i =? MAX_GLOBAL_EP_NUM then find_idle (j_ino_log_list fi) 0 else i.

(** [ino_checkin_global_epoch]. *)
Definition ino_checkin_global_epoch (ino : Z) (s : epochs) (fi : j_inode) : option (epochs * j_inode) :=
  '(checked, g) ← is_already_checkin_g_epoch s fi;
  if (checked : bool) then Some (s, fi)
  else
    match g with
    | None => Some (s, fi)
    | Some g =>
        if MAX_GLOBAL_EP_NUM <=? g then Some (s, fi)
        else
          let l := get_idle_local_epoch fi in
          if MAX_GLOBAL_EP_NUM <=? l then Some (s, fi)
          else
            let fi := set_g2l fi g l in
            ep ← local_at fi l;
            let fi := upd_local fi l (update_ino_epoch_status ep LOG_LIST_INUSE) in
            let fi := set_active fi l in
            e ← epoch_at s g;
            inos ← list_add_tail ino (global_ino_epoch_list e);
            Some (upd_epoch s g (set_inos e inos), fi)
    end.

(** [insert_log_into_inode] returns an error, or queues the log and reaches
    the end of the function. *)
Inductive insert_result := INS_ERROR | INS_QUEUED.

(** [list_add_tail] of a log entry on a local list. *)
Definition queue_log (n : log_node) (ep : j_ino_local_epoch_t) : option j_ino_local_epoch_t :=
  if decide (ln_ptr n ∈ ln_ptr <$> inode_log_list ep) then None
  else Some (set_log_list ep (inode_log_list ep ++ [n])).

Definition insert_log_into_inode (ino : Z) (n : log_node) (s : epochs) (fi : j_inode)
    : option (epochs * j_inode * insert_result) :=
  '(s, fi) ← ino_checkin_global_epoch ino s fi;
  let a := j_local_active_epoch fi in
  if MAX_GLOBAL_EP_NUM <=? a then Some (s, fi, INS_ERROR)
  else
    ep ← local_at fi a;
    if negb (log_list_status ep =? LOG_LIST_INUSE) then Some (s, fi, INS_ERROR)
    else
      ep ← queue_log n ep;
      Some (s, upd_local fi a ep, INS_QUEUED).

(** ** Well-formed inodes

    [regs] is the list of the global epochs the inode is registered in.  The
    local lists of these registrations are distinct and in use; the other
    local lists are idle and empty; the active list, when its status is in
    use, belongs to a registration. *)

Record inode_wf (regs : Z -> Prop) (fi : j_inode) : Prop := {
  iwf_lists : length (j_ino_log_list fi) = 8%nat;
  iwf_map : length (g2l_ep_map fi) = 8%nat;
  iwf_active : 0 <= j_local_active_epoch fi <= 8;
  iwf_range : Forall (fun l => 0 <= l <= 8) (g2l_ep_map fi);
  iwf_reg : forall g, regs g -> 0 <= g < 8 /\ exists l ep, g2l_at fi g = Some l /\ l < 8 /\
              local_at fi l = Some ep /\ log_list_status ep = LOG_LIST_INUSE;
  iwf_inj : forall g g' l, regs g -> regs g' -> g2l_at fi g = Some l -> g2l_at fi g' = Some l -> g = g';
  iwf_idle : forall l ep, 0 <= l -> local_at fi l = Some ep ->
               (forall g, regs g -> g2l_at fi g <> Some l) ->
               log_list_status ep = LOG_LIST_IDLE /\ inode_log_list ep = [];
  iwf_nodup : forall l ep, 0 <= l -> local_at fi l = Some ep -> NoDup (ln_ptr <$> inode_log_list ep)
}.

Lemma alloc_inode_wf (regs : Z -> Prop) : (forall g, ~ regs g) -> inode_wf regs f2fs_alloc_inode.
Proof.
  intros Hn.
  assert (Hat : forall l ep, local_at f2fs_alloc_inode l = Some ep ->
            ep = {| log_list_status := LOG_LIST_IDLE; inode_log_list := [] |}).
  { intros l ep Hl. by apply lookup_replicate in Hl as [? _]. }
  constructor; simpl; [done|done|lia| |by intros g ?%Hn|by intros g ? ? ?%Hn| |].
  - repeat constructor; unfold NONE_EPOCH, MAX_GLOBAL_EP_NUM; lia.
  - intros l ep _ E _. by rewrite (Hat _ _ E).
  - intros l ep _ E. rewrite (Hat _ _ E). constructor.
Qed.

(** [ino] is linked in the registration list of global epoch [g]. *)
Definition registered (s : epochs) (ino g : Z) : Prop :=
  0 <= g /\ exists e, epoch_at s g = Some e /\ ino ∈ global_ino_epoch_list e.

#[export] Instance registered_dec s ino g : Decision (registered s ino g).
Proof.
  unfold registered. destruct (epoch_at s g) as [e|] eqn:E.
  - refine (cast_if_and (decide (0 <= g)) (decide (ino ∈ global_ino_epoch_list e))); naive_solver.
  - right. intros (_ & e & E' & _). congruence.
Defined.

(** No registration list links an inode twice. *)
Definition inos_nodup (s : epochs) : Prop :=
  forall g e, 0 <= g -> epoch_at s g = Some e -> NoDup (global_ino_epoch_list e).

(** All logs queued on an inode. *)
Definition all_logs (fi : j_inode) : list log_node := concat (inode_log_list <$> j_ino_log_list fi).

Lemma find_idle_spec ls i : exists k, find_idle ls i = i + Z.of_nat k /\ (k <= length ls)%nat /\
  ((k < length ls)%nat -> exists ep, ls !! k = Some ep /\ log_list_status ep = LOG_LIST_IDLE) /\
  (forall j ep, (j < k)%nat -> ls !! j = Some ep -> log_list_status ep <> LOG_LIST_IDLE).
Proof.
  revert i; induction ls as [|ep ls IH]; intros i; cbn [find_idle].
  - exists 0%nat. conjs; simpl; [lia|lia|lia|by intros j ep ?%Nat.nlt_0_r].
  - destruct (log_list_status ep =? LOG_LIST_IDLE) eqn:E.
    + exists 0%nat. conjs; simpl; [lia|lia| |by intros j ? ?%Nat.nlt_0_r]. intros _. exists ep. split; [done|lia].
    + destruct (IH (i + 1)) as (k & Ek & Hk & Hs & Hn). exists (S k). conjs; simpl; [lia|lia| |].
      * intros Hlt. apply Hs. lia.
      * intros [|j] ep' Hj E'; [injection E' as <-; lia|]. apply (Hn j); [lia|done].
Qed.

Lemma get_idle_local_epoch_eq fi : get_idle_local_epoch fi = find_idle (j_ino_log_list fi) 0.
Proof. unfold get_idle_local_epoch. by destruct (_ =? _). Qed.

Lemma local_upd fi l ep l' : 0 <= l < Z.of_nat (length (j_ino_log_list fi)) -> 0 <= l' ->
  local_at (upd_local fi l ep) l' = if decide (l = l') then Some ep else local_at fi l'.
Proof.
  intros Hl Hl'. unfold local_at, upd_local. simpl. rewrite list_lookup_insert.
  destruct (decide (l = l')) as [->|Hne].
  - rewrite decide_True; [done|]. split; [done|lia].
  - rewrite decide_False; [done|]. intros [? _]. lia.
Qed.

Lemma g2l_set fi g l g' : 0 <= g < Z.of_nat (length (g2l_ep_map fi)) -> 0 <= g' ->
  g2l_at (set_g2l fi g l) g' = if decide (g = g') then Some l else g2l_at fi g'.
Proof.
  intros Hl Hl'. unfold g2l_at, set_g2l. simpl. rewrite list_lookup_insert.
  destruct (decide (g = g')) as [->|Hne].
  - rewrite decide_True; [done|]. split; [done|lia].
  - rewrite decide_False; [done|]. intros [? _]. lia.
Qed.

Lemma epoch_upd s g e g' : 0 <= g < Z.of_nat (length (global_epoch s)) -> 0 <= g' ->
  epoch_at (upd_epoch s g e) g' = if decide (g = g') then Some e else epoch_at s g'.
Proof.
  intros Hl Hl'. unfold epoch_at, upd_epoch. simpl. rewrite list_lookup_insert.
  destruct (decide (g = g')) as [->|Hne].
  - rewrite decide_True; [done|]. split; [done|lia].
  - rewrite decide_False; [done|]. intros [? _]. lia.
Qed.

Lemma local_some regs fi l : inode_wf regs fi -> 0 <= l < 8 -> exists ep, local_at fi l = Some ep.
Proof. intros H Hl. apply lookup_lt_is_Some_2. rewrite (iwf_lists _ _ H). lia. Qed.
Lemma g2l_some regs fi g : inode_wf regs fi -> 0 <= g < 8 -> exists l, g2l_at fi g = Some l /\ 0 <= l <= 8.
Proof.
  intros H Hg. destruct (lookup_lt_is_Some_2 (g2l_ep_map fi) (Z.to_nat g)) as [l E].
  - rewrite (iwf_map _ _ H). lia.
  - exists l. split; [done|]. exact (proj1 (Forall_lookup _ _) (iwf_range _ _ H) _ _ E).
Qed.

Lemma inode_wf_ext (regs regs' : Z -> Prop) fi : (forall g, regs g <-> regs' g) -> inode_wf regs fi -> inode_wf regs' fi.
Proof.
  intros He [H1 H2 H3 H4 H5 H6 H7 H8]. constructor; try done.
  - intros g Hg. apply H5. by apply He.
  - intros g g' l Hg Hg'. apply H6; by apply He.
  - intros l ep Hl E Hn. apply (H7 l ep Hl E). intros g Hg. apply Hn. by apply He.
Qed.

(** Registering the inode in epoch [g] with the idle local list [l]. *)
Lemma inode_wf_register regs fi g l ep : inode_wf regs fi -> 0 <= g < 8 -> ~ regs g -> 0 <= l < 8 ->
  local_at fi l = Some ep -> log_list_status ep = LOG_LIST_IDLE ->
  inode_wf (fun g' => regs g' \/ g' = g)
    (set_active (upd_local (set_g2l fi g l) l (update_ino_epoch_status ep LOG_LIST_INUSE)) l).
Proof.
  intros H Hg Hng Hl Eep Hidle. destruct H as [H1 H2 H3 H4 H5 H6 H7 H8].
  assert (Hfree : forall g', regs g' -> g2l_at fi g' <> Some l).
  { intros g' Hr Eg. destruct (H5 g' Hr) as (_ & l' & ep' & E1 & _ & E2 & E3).
    assert (l' = l) as -> by congruence. assert (ep' = ep) as -> by congruence. by rewrite Hidle in E3. }
  assert (Hne : forall g', regs g' -> g <> g') by (by intros g' Hr ->).
  set (fi' := set_active _ l).
  assert (Eg : forall g', 0 <= g' -> g2l_at fi' g' = if decide (g = g') then Some l else g2l_at fi g').
  { intros g' Hg'. apply (g2l_set fi g l g'); [lia|done]. }
  assert (El : forall l', 0 <= l' -> local_at fi' l' = if decide (l = l')
            then Some (update_ino_epoch_status ep LOG_LIST_INUSE) else local_at fi l').
  { intros l' Hl'. apply (local_upd (set_g2l fi g l) l _ l'); [simpl; lia|done]. }
  assert (Hrange : forall g' l', g2l_at fi g' = Some l' -> 0 <= l').
  { intros g' l' E. apply (proj1 (Forall_lookup _ _) H4) in E. lia. }
  constructor.
  - cbn. by rewrite length_insert.
  - cbn. by rewrite length_insert.
  - cbn. lia.
  - apply Forall_insert; [done|lia].
  - intros g' [Hr| ->].
    + destruct (H5 g' Hr) as (Hg' & l' & ep' & E1 & Hlt & E2 & E3). split; [done|].
      assert (Hll : l <> l') by (intros <-; by apply (Hfree g')). pose proof (Hrange _ _ E1).
      exists l', ep'. rewrite Eg, El by lia. rewrite !decide_False by auto. done.
    + split; [done|]. exists l, (update_ino_epoch_status ep LOG_LIST_INUSE).
      rewrite Eg, El, !decide_True by (done || lia). by conjs; [|lia|..].
  - assert (H5' : forall g', regs g' -> 0 <= g') by (intros g' Hr; destruct (H5 g' Hr); lia).
    assert (Eold : forall g', regs g' -> g2l_at fi' g' = g2l_at fi g').
    { intros g' Hr. rewrite Eg by auto. by rewrite decide_False by auto. }
    assert (Enew : g2l_at fi' g = Some l) by (rewrite Eg by lia; by rewrite decide_True).
    intros g1 g2 k [R1| ->] [R2| ->] E1 E2; [|exfalso|exfalso|done].
    + rewrite Eold in E1, E2 by done. eauto.
    + rewrite Eold in E1 by done. apply (Hfree g1 R1). congruence.
    + rewrite Eold in E2 by done. apply (Hfree g2 R2). congruence.
  - intros l' ep' Hl' E Hn. rewrite El in E by done. destruct (decide (l = l')) as [->|Hll].
    + exfalso. apply (Hn g); [by right|]. rewrite Eg by lia. by rewrite decide_True.
    + apply (H7 l' ep' Hl' E). intros g' Hr E1. apply (Hn g'); [by left|].
      destruct (H5 g' Hr). rewrite Eg by lia. rewrite decide_False by auto. done.
  - intros l' ep' Hl' E. rewrite El in E by done. destruct (decide (l = l')) as [->|]; [|by eapply H8].
    injection E as <-. by apply (H8 l' ep).
Qed.

(** Changing the contents of a registered local list. *)
Lemma inode_wf_upd regs fi l ep ep' : inode_wf regs fi -> 0 <= l < 8 -> local_at fi l = Some ep ->
  log_list_status ep' = log_list_status ep -> log_list_status ep = LOG_LIST_INUSE ->
  NoDup (ln_ptr <$> inode_log_list ep') -> inode_wf regs (upd_local fi l ep').
Proof.
  intros [H1 H2 H3 H4 H5 H6 H7 H8] Hl E Hs Hu Hn.
  assert (El : forall l', 0 <= l' -> local_at (upd_local fi l ep') l' =
            if decide (l = l') then Some ep' else local_at fi l').
  { intros l' Hl'. apply local_upd; [lia|done]. }
  assert (Hrange : forall g' l', g2l_at fi g' = Some l' -> 0 <= l').
  { intros g' l' Eg. apply (proj1 (Forall_lookup _ _) H4) in Eg. lia. }
  constructor; try done.
  - cbn. by rewrite length_insert.
  - intros g Hg. destruct (H5 g Hg) as (Hr & k & epk & E1 & Hk & E2 & E3). split; [done|].
    change (g2l_at (upd_local fi l ep') g) with (g2l_at fi g).
    exists k. rewrite El by eauto. destruct (decide (l = k)) as [->|]; [|by eauto 6].
    exists ep'. conjs; try done. congruence.
  - intros l' e Hl' E' Hno. rewrite El in E' by done. destruct (decide (l = l')) as [->|]; [|by apply (H7 l' e)].
    destruct (H7 l' ep Hl' E Hno) as [Hi _]. by rewrite Hu in Hi.
  - intros l' e Hl' E'. rewrite El in E' by done. destruct (decide (l = l')) as [->|]; [|by apply (H8 l')].
    by injection E' as <-.
Qed.

Lemma all_logs_upd fi l ep ep' n : local_at fi l = Some ep ->
  inode_log_list ep' = inode_log_list ep ++ [n] -> all_logs (upd_local fi l ep') ≡ₚ n :: all_logs fi.
Proof.
  unfold local_at, all_logs, upd_local. simpl. generalize (Z.to_nat l) as k. clear l.
  intros k. revert k. induction (j_ino_log_list fi) as [|e0 ls IH]; intros [|k] E Hep; csimpl in *; try done.
  - injection E as ->. rewrite Hep, <-app_assoc. simpl. symmetry. apply Permutation_middle.
  - rewrite (IH k E Hep). symmetry. apply Permutation_middle.
Qed.

Lemma all_logs_same fi l ep ep' : local_at fi l = Some ep -> inode_log_list ep' = inode_log_list ep ->
  all_logs (upd_local fi l ep') = all_logs fi.
Proof.
  unfold local_at, all_logs, upd_local. simpl. generalize (Z.to_nat l) as k. clear l.
  intros k. revert k. induction (j_ino_log_list fi) as [|e0 ls IH]; intros [|k] E Hep; csimpl in *; try done.
  - injection E as ->. by rewrite Hep.
  - by rewrite (IH k E Hep).
Qed.

Lemma in_all_logs fi l ep p : local_at fi l = Some ep -> p ∈ ln_ptr <$> inode_log_list ep ->
  p ∈ ln_ptr <$> all_logs fi.
Proof.
  intros E C. apply list_elem_of_fmap in C as (x & Ex & Hx). apply list_elem_of_fmap. exists x. split; [done|].
  unfold all_logs. apply list_elem_of_In, in_concat. exists (inode_log_list ep). split; [|by apply list_elem_of_In].
  apply list_elem_of_In, list_elem_of_fmap. exists ep. split; [done|]. by eapply list_elem_of_lookup_2.
Qed.

Lemma queue_log_fresh fi l ep n : local_at fi l = Some ep -> ln_ptr n ∉ ln_ptr <$> all_logs fi ->
  queue_log n ep = Some (set_log_list ep (inode_log_list ep ++ [n])).
Proof.
  intros E Hn. unfold queue_log. rewrite decide_False; [done|]. intros C. by apply Hn, (in_all_logs fi l ep).
Qed.

Section checkin.
Context (ages : list Z) (s : epochs) (ino : Z) (fi : j_inode).
Context (Hs : epochs_wf ages s) (Hnd : inos_nodup s) (Hfi : inode_wf (registered s ino) fi).

Lemma get_global_epoch_run : (get_global_epoch s).1 = Some (g_running_ep s).
Proof. unfold get_global_epoch, is_valid_running_ep. by destruct (MAX_GLOBAL_EP_NUM <=? g_running_ep s). Qed.

Lemma is_already_checkin_spec : exists l, g2l_at fi (g_running_ep s) = Some l /\ 0 <= l <= 8 /\
  is_already_checkin_g_epoch s fi = Some (l <? 8, Some (g_running_ep s)).
Proof.
  pose proof (ewf_run _ _ Hs) as Hr. destruct (g2l_some _ _ _ Hfi Hr) as (l & E & Hl).
  exists l. conjs; [done|lia|lia|]. unfold is_already_checkin_g_epoch, NONE_EPOCH, MAX_GLOBAL_EP_NUM.
  rewrite get_global_epoch_run. replace (8 <=? g_running_ep s) with false by lia. rewrite E. cbn [mbind option_bind].
  by replace (0 <=? l) with true by lia.
Qed.

(** An inode that is mapped to no local list in the running epoch is not
    registered there. *)
Lemma unmapped_unregistered : g2l_at fi (g_running_ep s) = Some 8 -> ~ registered s ino (g_running_ep s).
Proof. intros E Hr. destruct (iwf_reg _ _ Hfi _ Hr) as (_ & l & ep & E1 & Hl & _). assert (l = 8) by congruence. lia. Qed.

(** The registration: the epoch's list gets the inode, the first idle local
    list becomes active. *)
Lemma checkin_registers e l ep :
  g2l_at fi (g_running_ep s) = Some 8 -> epoch_at s (g_running_ep s) = Some e ->
  get_idle_local_epoch fi = l -> l < 8 -> local_at fi l = Some ep ->
  ino_checkin_global_epoch ino s fi =
  Some (upd_epoch s (g_running_ep s) (set_inos e (global_ino_epoch_list e ++ [ino])),
        set_active (upd_local (set_g2l fi (g_running_ep s) l) l (update_ino_epoch_status ep LOG_LIST_INUSE)) l).
Proof.
  intros E8 Ee El Hl Eep. destruct is_already_checkin_spec as (l0 & E0 & _ & Ec).
  assert (l0 = 8) as -> by congruence.
  unfold ino_checkin_global_epoch. rewrite Ec. cbn [mbind option_bind Z.ltb Z.compare Pos.compare Pos.compare_cont].
  pose proof (ewf_run _ _ Hs). unfold MAX_GLOBAL_EP_NUM. replace (8 <=? g_running_ep s) with false by lia.
  rewrite El. replace (8 <=? l) with false by lia.
  change (local_at (set_g2l fi (g_running_ep s) l) l) with (local_at fi l). rewrite Eep. cbn [mbind option_bind].
  rewrite Ee. cbn [mbind option_bind]. rewrite list_add_tail_fresh; [done|].
  intros C. apply unmapped_unregistered; [done|]. split; [lia|]. eauto.
Qed.

(** Registering changes the registrations of this inode only. *)
Lemma registered_add e j g : epoch_at s (g_running_ep s) = Some e ->
  registered (upd_epoch s (g_running_ep s) (set_inos e (global_ino_epoch_list e ++ [ino]))) j g <->
  registered s j g \/ (j = ino /\ g = g_running_ep s).
Proof.
  intros Ee. pose proof (ewf_run _ _ Hs) as Hr. unfold registered. split.
  - intros (Hg & e' & E' & Hj). rewrite epoch_upd in E' by (rewrite ?(ewf_len _ _ Hs); lia).
    destruct (decide (g_running_ep s = g)) as [<-|]; [|by left; eauto].
    injection E' as <-. simpl in Hj. apply elem_of_app in Hj as [Hj|Hj%list_elem_of_singleton]; [left; eauto|by right].
  - intros [(Hg & e' & E' & Hj)|[-> ->]].
    + split; [done|]. rewrite epoch_upd by (rewrite ?(ewf_len _ _ Hs); lia).
      destruct (decide (g_running_ep s = g)) as [<-|]; [|by eauto].
      eexists. split; [done|]. simpl. apply elem_of_app. left. congruence.
    + split; [lia|]. rewrite epoch_upd by (rewrite ?(ewf_len _ _ Hs); lia). rewrite decide_True by done.
      eexists. split; [done|]. simpl. set_solver.
Qed.

Lemma inos_nodup_add e : epoch_at s (g_running_ep s) = Some e -> ~ registered s ino (g_running_ep s) ->
  inos_nodup (upd_epoch s (g_running_ep s) (set_inos e (global_ino_epoch_list e ++ [ino]))).
Proof.
  intros Ee Hnr g e' Hg E'. pose proof (ewf_run _ _ Hs) as Hr.
  rewrite epoch_upd in E' by (rewrite ?(ewf_len _ _ Hs); lia).
  destruct (decide (g_running_ep s = g)) as [<-|]; [|by eapply Hnd].
  injection E' as <-. simpl. apply list.NoDup_app. conjs; [by eapply Hnd| |apply NoDup_singleton].
  intros x Hx ->%list_elem_of_singleton. apply Hnr. split; [lia|]. eauto.
Qed.

(** [ino_checkin_global_epoch] always returns and keeps the queued logs. *)
Lemma checkin_spec : exists s1 fi1, ino_checkin_global_epoch ino s fi = Some (s1, fi1) /\ epochs_wf ages s1 /\
  inos_nodup s1 /\ inode_wf (registered s1 ino) fi1 /\ to_be_commit_list s1 = to_be_commit_list s /\
  g_running_ep s1 = g_running_ep s /\ (forall g, registered s1 ino g -> registered s ino g \/ g = g_running_ep s) /\
  (forall j g, j <> ino -> registered s1 j g <-> registered s j g) /\ all_logs fi1 = all_logs fi.
Proof.
  destruct is_already_checkin_spec as (l0 & E0 & Hl0 & Ec). pose proof (ewf_run _ _ Hs) as Hr.
  destruct (decide (l0 < 8)) as [Hlt|Hge].
  { exists s, fi. unfold ino_checkin_global_epoch. rewrite Ec. cbn [mbind option_bind].
    replace (l0 <? 8) with true by lia. by conjs; auto. }
  assert (l0 = 8) as -> by lia. destruct (find_idle_spec (j_ino_log_list fi) 0) as (k & Ek & Hk & Hidle & _).
  rewrite (iwf_lists _ _ Hfi) in Hk, Hidle. rewrite <-get_idle_local_epoch_eq in Ek.
  destruct (decide (k < 8)%nat) as [Hk8|Hk8].
  - destruct (Hidle Hk8) as (ep & Eep & Hst). destruct (epoch_at_some ages s _ Hs Hr) as (e & Ee & Et).
    assert (Eep' : local_at fi (Z.of_nat k) = Some ep) by (unfold local_at; by rewrite Nat2Z.id).
    pose proof (unmapped_unregistered E0) as Hnr.
    do 2 eexists. split; [apply (checkin_registers e (Z.of_nat k) ep); [done|done|lia|lia|done]|].
    conjs; [by apply upd_epoch_wf|by apply inos_nodup_add| |done|done| | |].
    + eapply inode_wf_ext; [|apply (inode_wf_register (registered s ino)); [done|done|done|lia|done|done]].
      intros g. simpl. rewrite registered_add by done. clear. tauto.
    + intros g. rewrite registered_add by done. clear. tauto.
    + intros j g Hj. rewrite registered_add by done. clear -Hj. tauto.
    + exact (all_logs_same (set_g2l fi _ _) _ ep (update_ino_epoch_status ep LOG_LIST_INUSE) Eep' eq_refl).
  - exists s, fi. unfold ino_checkin_global_epoch. rewrite Ec. cbn [mbind option_bind Z.ltb Z.compare Pos.compare Pos.compare_cont].
    unfold MAX_GLOBAL_EP_NUM. replace (8 <=? g_running_ep s) with false by lia.
    replace (8 <=? get_idle_local_epoch fi) with true by lia. by conjs; auto.
Qed.

(** [insert_log_into_inode] always returns, keeps everything well-formed, and
    either queues the log, as one more log of the inode, or leaves the inode's
    logs alone. *)
Lemma insert_log_spec n : ln_ptr n ∉ ln_ptr <$> all_logs fi ->
  exists s' fi' r, insert_log_into_inode ino n s fi = Some (s', fi', r) /\
    epochs_wf ages s' /\ inos_nodup s' /\ inode_wf (registered s' ino) fi' /\
    to_be_commit_list s' = to_be_commit_list s /\ g_running_ep s' = g_running_ep s /\
    (forall g, registered s' ino g -> registered s ino g \/ g = g_running_ep s) /\
    (forall j g, j <> ino -> registered s' j g <-> registered s j g) /\
    (r = INS_QUEUED -> all_logs fi' ≡ₚ n :: all_logs fi) /\ (r = INS_ERROR -> all_logs fi' = all_logs fi).
Proof.
  intros Hfresh. unfold insert_log_into_inode.
  destruct checkin_spec as (s1 & fi1 & -> & Hs1 & Hnd1 & Hw1 & Hc1 & Hrun1 & Hself1 & Hj1 & Hlogs). cbn [mbind option_bind].
  pose proof (iwf_active _ _ Hw1) as Ha. unfold MAX_GLOBAL_EP_NUM.
  destruct (8 <=? j_local_active_epoch fi1) eqn:E8.
  { exists s1, fi1, INS_ERROR. by conjs. }
  destruct (local_some _ _ (j_local_active_epoch fi1) Hw1) as [ep Eep]; [lia|]. rewrite Eep. cbn [mbind option_bind].
  destruct (log_list_status ep =? LOG_LIST_INUSE) eqn:Eu; cbn [negb].
  - rewrite <-Hlogs in Hfresh. rewrite (queue_log_fresh _ _ _ _ Eep Hfresh). cbn [mbind option_bind].
    do 3 eexists. split; [reflexivity|]. conjs; [done|done| |done|done|done|done| |done].
    + eapply inode_wf_upd; [done|lia|done|done|lia|]. simpl. rewrite fmap_app. apply list.NoDup_app.
      conjs; [apply (iwf_nodup _ _ Hw1 (j_local_active_epoch fi1)); [lia|done]| |apply NoDup_singleton].
      intros x Hx ->%list_elem_of_singleton. exact (Hfresh (in_all_logs _ _ _ _ Eep Hx)).
    + intros _. rewrite <-Hlogs. by apply (all_logs_upd _ _ ep).
  - exists s1, fi1, INS_ERROR. by conjs.
Qed.
End checkin.
