(* ===== verification/JCheckpoint.v ===== *)
(** * The journal checkpoint list (j_checkpoint.h, j_checkpoint.c)

    Each committed epoch leaves one head on the global checkpoint list, with
    one record per committed log that says which inode, node and segment the
    log touched.  A checkpoint empties the list, calls [f2fs_write_checkpoint]
    and resets the space accounting of the journal. *)

From S2P Require Import Prelude LogContent Epoch JournalFile InodeLog.

Record j_log_cp_info_t := { log_inode_id : Z; log_node_id : Z; log_segno : Z }.

#[export] Instance j_log_cp_info_t_eq_dec : EqDecision j_log_cp_info_t.
Proof. solve_decision. Defined.

(** The statics of j_checkpoint.c.  A head node is the list of the records
    linked on it.  [cp_info_live] and [cp_head_live] count the objects in use
    in the two slabs, [kmem_calls] the allocations made so far, and
    [cp_written] the calls of [f2fs_write_checkpoint]. *)
Record checkpoint := {
  g_checkpoint_list : list (list j_log_cp_info_t);
  cp_info_live : Z;
  cp_head_live : Z;
  kmem_calls : nat;
  cp_written : Z
}.

Definition set_cp_list (c : checkpoint) (l : list (list j_log_cp_info_t)) : checkpoint :=
  {| g_checkpoint_list := l; cp_info_live := cp_info_live c; cp_head_live := cp_head_live c;
     kmem_calls := kmem_calls c; cp_written := cp_written c |}.
Definition set_cp_live (c : checkpoint) (infos heads : Z) : checkpoint :=
  {| g_checkpoint_list := g_checkpoint_list c; cp_info_live := infos; cp_head_live := heads;
     kmem_calls := kmem_calls c; cp_written := cp_written c |}.
Definition set_kmem (c : checkpoint) (n : nat) : checkpoint :=
  {| g_checkpoint_list := g_checkpoint_list c; cp_info_live := cp_info_live c; cp_head_live := cp_head_live c;
     kmem_calls := n; cp_written := cp_written c |}.

(** [init_g_checkpoint_list], with what [kmem_cache_create] returned for the
    two slabs. *)
Definition init_g_checkpoint_list (cache1 cache2 : bool) (c : checkpoint) : checkpoint * return_value_e :=
  let c := set_cp_list c [] in
  if negb cache1 then (c, F2FSJ_FATAL)
  else if negb cache2 then (c, F2FSJ_FATAL)
  else (c, F2FSJ_OK).

Definition is_g_checkpoint_cp_list_empty (c : checkpoint) : bool :=
  match g_checkpoint_list c with [] => true | _ => false end.

Section cp.
(** Whether the [n]th [kmem_cache_alloc] of the checkpoint slabs succeeds, and
    what [writepages] returns for the data pages of an inode. *)
Context (kmem : nat -> bool) (writepages : Z -> Z).

Definition alloc_log_cp_head_node_memory (c : checkpoint)
    : checkpoint * option (list j_log_cp_info_t) * return_value_e :=
  let ok := kmem (kmem_calls c) in
  let c := set_kmem c (S (kmem_calls c)) in
  if ok then (set_cp_live c (cp_info_live c) (cp_head_live c + 1), Some [], F2FSJ_OK)
  else (c, None, F2FSJ_ERROR).

Definition alloc_log_cp_info_memory (c : checkpoint)
    : checkpoint * option j_log_cp_info_t * return_value_e :=
  let ok := kmem (kmem_calls c) in
  let c := set_kmem c (S (kmem_calls c)) in
  if ok then (set_cp_live c (cp_info_live c + 1) (cp_head_live c),
              Some {| log_inode_id := 0; log_node_id := 0; log_segno := 0 |}, F2FSJ_OK)
  else (c, None, F2FSJ_ERROR).

Definition free_log_cp_info_memory (ci : option j_log_cp_info_t) (c : checkpoint) : checkpoint * return_value_e :=
  match ci with
  | Some _ => (set_cp_live c (cp_info_live c - 1) (cp_head_live c), F2FSJ_OK)
  | None => (c, F2FSJ_ERROR)
  end.

Definition free_log_cp_head_node_memory (h : option (list j_log_cp_info_t)) (c : checkpoint)
    : checkpoint * return_value_e :=
  match h with
  | Some _ => (set_cp_live c (cp_info_live c) (cp_head_live c - 1), F2FSJ_OK)
  | None => (c, F2FSJ_ERROR)
  end.

Definition insert_cp_info_list_head_2_g_cp_list (h : list j_log_cp_info_t) (c : checkpoint)
    : checkpoint * return_value_e :=
  (set_cp_list c (g_checkpoint_list c ++ [h]), F2FSJ_OK).

(** [ep_commit_writeback_data_pages] for the inode [ino] (the inode pointer is
    never null here). *)
Definition ep_commit_writeback_data_pages (ino : Z) : Z := writepages ino.

(** The fields read through the log pointer: [bs] are the 128 bytes at the
    log's address.  [None] is the early return of the data write log. *)
Definition cp_info_of_log (ino : Z) (bs : list Z) : option j_log_cp_info_t :=
  let t := get_le 4 0 bs in
  if (t =? log_type_code CREATE_LOG) || (t =? log_type_code MKDIR_LOG) || (t =? log_type_code SYMLINK_LOG)
  then Some {| log_inode_id := get_le 4 96 bs; log_node_id := 0; log_segno := 0 |}
  else if t =? log_type_code DIR_LOG
  then Some {| log_inode_id := get_le 4 20 bs; log_node_id := 0; log_segno := 0 |}
  else if t =? log_type_code DATA_WRITE_LOG
  then if ep_commit_writeback_data_pages ino =? 0
       then Some {| log_inode_id := get_le 4 12 bs; log_node_id := get_le 4 32 bs; log_segno := get_le 4 52 bs |}
       else None
  else if t =? log_type_code CHOWN_LOG
  then Some {| log_inode_id := get_le 4 0 bs; log_node_id := 0; log_segno := 0 |}
  else if t =? log_type_code UNLINK_LOG
  then Some {| log_inode_id := get_le 4 8 bs; log_node_id := 0; log_segno := 0 |}
  else Some {| log_inode_id := 0; log_node_id := 0; log_segno := 0 |}.

(** [get_cp_info_from_log]: the record is linked at the tail of head [h] (its
    position on the global list); on a writeback error it is left allocated
    and unlinked. *)
Definition get_cp_info_from_log (ino : Z) (h : nat) (bs : list Z) (c : checkpoint) : checkpoint * return_value_e :=
  let '(c, ci, _) := alloc_log_cp_info_memory c in
  match ci with
  | None => (c, F2FSJ_ERROR)
  | Some _ =>
      match cp_info_of_log ino bs with
      | None => (c, F2FSJ_ERROR)
      | Some ci => (set_cp_list c (alter (fun l => l ++ [ci]) h (g_checkpoint_list c)), F2FSJ_OK)
      end
  end.

(** [epoch_checkpoint]: the inner loop unlinks and frees the records of the
    first head, the outer loop the heads. *)
Fixpoint checkpoint_infos (infos : list j_log_cp_info_t) (c : checkpoint) : checkpoint :=
  match infos with
  | [] => c
  | ci :: infos =>
      let c := set_cp_list c (alter tail 0%nat (g_checkpoint_list c)) in
      let '(c, _) := free_log_cp_info_memory (Some ci) c in
      checkpoint_infos infos c
  end.

Fixpoint checkpoint_heads (heads : list (list j_log_cp_info_t)) (c : checkpoint) : checkpoint :=
  match heads with
  | [] => c
  | h :: heads =>
      let c := checkpoint_infos h c in
      let c := set_cp_list c (tail (g_checkpoint_list c)) in
      let '(c, _) := free_log_cp_head_node_memory (Some h) c in
      checkpoint_heads heads c
  end.

Definition f2fs_write_checkpoint (c : checkpoint) : checkpoint :=
  {| g_checkpoint_list := g_checkpoint_list c; cp_info_live := cp_info_live c; cp_head_live := cp_head_live c;
     kmem_calls := kmem_calls c; cp_written := cp_written c + 1 |}.

Definition epoch_checkpoint (c : checkpoint) (j : journal) : checkpoint * journal * return_value_e :=
  let c := checkpoint_heads (g_checkpoint_list c) c in
  let c := f2fs_write_checkpoint c in
  (c, reset_on_disk_journal_space_info j, F2FSJ_OK).
End cp.

(** ** What a checkpoint does *)

Lemma checkpoint_infos_eq infos rest hs c : g_checkpoint_list c = (infos ++ rest) :: hs ->
  checkpoint_infos infos c =
  set_cp_live (set_cp_list c (rest :: hs)) (cp_info_live c - Z.of_nat (length infos)) (cp_head_live c).
Proof.
  revert c. induction infos as [|ci infos IH]; intros c E; cbn [checkpoint_infos free_log_cp_info_memory].
  - destruct c; simpl in *. rewrite E. unfold set_cp_live, set_cp_list. simpl. f_equal. lia.
  - rewrite (IH _); [|simpl; by rewrite E]. unfold set_cp_live, set_cp_list. cbn -[Z.of_nat]. f_equal. lia.
Qed.

Lemma checkpoint_heads_eq c :
  checkpoint_heads (g_checkpoint_list c) c =
  set_cp_live (set_cp_list c []) (cp_info_live c - Z.of_nat (length (concat (g_checkpoint_list c))))
    (cp_head_live c - Z.of_nat (length (g_checkpoint_list c))).
Proof.
  remember (g_checkpoint_list c) as hs eqn:E. symmetry in E. revert c E.
  induction hs as [|h hs IH]; intros c E; cbn [checkpoint_heads].
  - destruct c; simpl in *. rewrite E. unfold set_cp_live, set_cp_list. simpl. f_equal; lia.
  - rewrite (checkpoint_infos_eq h [] hs) by (by rewrite app_nil_r). cbn [free_log_cp_head_node_memory].
    rewrite (IH _); [|done]. unfold set_cp_live, set_cp_list. cbn -[Z.of_nat].
    rewrite length_app. f_equal; lia.
Qed.

(** The objects of the slabs that are in use: every record linked on the
    list, plus [leaked] records that were allocated and never linked. *)
Record checkpoint_wf (leaked : Z) (c : checkpoint) : Prop := {
  cwf_infos : cp_info_live c = Z.of_nat (length (concat (g_checkpoint_list c))) + leaked;
  cwf_heads : cp_head_live c = Z.of_nat (length (g_checkpoint_list c))
}.

(** A checkpoint frees every record and every head it finds, exactly once
    each: afterwards the list is empty, no head is in use, the only records in
    use are those leaked earlier by failed data writebacks, one file system
    checkpoint was written, and the whole journal counts as free again. *)
Theorem epoch_checkpoint_correct (leaked : Z) (c : checkpoint) (j : journal) :
  checkpoint_wf leaked c -> 0 <= total_file_size (g_on_disk_j_file j) ->
  let '(c', j', ret) := epoch_checkpoint c j in
  ret = F2FSJ_OK /\ is_g_checkpoint_cp_list_empty c' = true /\ checkpoint_wf leaked c' /\
  cp_head_live c' = 0 /\ cp_info_live c' = leaked /\ cp_written c' = cp_written c + 1 /\
  get_on_disk_free_journal_space j' = total_file_size (g_on_disk_j_file j).
Proof.
  intros [Hi Hh] Ht. unfold epoch_checkpoint. rewrite checkpoint_heads_eq. cbn -[get_on_disk_free_journal_space].
  rewrite Hi, Hh. conjs; [done|done|constructor; simpl; lia|lia|lia|done|].
  unfold get_on_disk_free_journal_space. simpl. zbool; lia.
Qed.
