(* ===== verification/JournalSlots.v ===== *)
(** * The journal ring as an array of log slots

    Stores and loads through [J_LOG_ENTRY_ADDR] behave as updates and lookups
    of an array of 2097152 slots of 128 bytes; the allocator walks through it;
    the scan at mount time returns the logs in the order they were appended. *)

From S2P Require Import Prelude LogContent JournalFile.

#[global] Arguments j_alloc_log_entry : simpl never.
#[global] Arguments J_LOG_ENTRY_ADDR : simpl never.

(** ** Slots *)

(** Every page of the mapping exists and has its 4096 bytes. *)
Definition pages_ok (ps : gmap Z (list Z)) : Prop :=
  forall p, 0 <= p < JOURNAL_BLK_PER_SMALL_FILE -> exists pg, ps !! p = Some pg /\ length pg = 4096%nat.

Definition idx_ok (i : Z) : Prop := 0 <= i < J_LOG_ENTRY_PER_FILE.

Lemma slot_addr i : idx_ok i -> J_LOG_ENTRY_ADDR i = (i / 32, i mod 32 * 128).
Proof.
  intros [H1 H2]. unfold J_LOG_ENTRY_ADDR, J_LOG_ENTRY_TO_BLK, J_LOG_ENTRY_TO_BLK_OFFSET,
    J_LOG_ENTRY_PER_BLOCK, J_LOG_ENTRY_SIZE, J_LOG_ENTRY_PER_FILE in *.
  by rewrite u32_small by lia.
Qed.

(** A slot lies inside one page of the mapping, on a 128-byte boundary. *)
Lemma slot_in_page i : idx_ok i ->
  0 <= i / 32 < JOURNAL_BLK_PER_SMALL_FILE /\ 0 <= i mod 32 * 128 /\ i mod 32 * 128 + 128 <= 4096.
Proof. unfold idx_ok, J_LOG_ENTRY_PER_FILE, JOURNAL_BLK_PER_SMALL_FILE. intros. zdiv. Qed.

Lemma slot_addr_bounds i : idx_ok i ->
  0 <= (J_LOG_ENTRY_ADDR i).1 < JOURNAL_BLK_PER_SMALL_FILE /\
  0 <= (J_LOG_ENTRY_ADDR i).2 /\ (J_LOG_ENTRY_ADDR i).2 + 128 <= PAGE_SIZE.
Proof. intros Hi. rewrite slot_addr by done. by apply slot_in_page. Qed.

Lemma slot_page ps i : pages_ok ps -> idx_ok i ->
  exists pg, ps !! (i / 32) = Some pg /\ length pg = 4096%nat /\
             slot ps i = take 128 (drop (Z.to_nat (i mod 32 * 128)) pg).
Proof.
  intros Hp Hi. destruct (slot_in_page i Hi) as [Hpg _].
  destruct (Hp _ Hpg) as (pg & E & L). exists pg. unfold slot, jmem_read.
  rewrite slot_addr by done. simpl. by rewrite E.
Qed.

Lemma slot_length ps i : pages_ok ps -> idx_ok i -> length (slot ps i) = 128%nat.
Proof.
  intros Hp Hi. destruct (slot_page ps i Hp Hi) as (pg & _ & L & ->).
  rewrite length_take, length_drop. pose proof (slot_in_page i Hi). lia.
Qed.

Lemma pages_ok_write ps i bs : pages_ok ps -> pages_ok (jmem_write ps (J_LOG_ENTRY_ADDR i) bs).
Proof.
  intros Hp p Hr. destruct (Hp p Hr) as (pg & E & L). unfold jmem_write.
  destruct (decide (p = (J_LOG_ENTRY_ADDR i).1)) as [->|Hne].
  - exists (list_inserts (Z.to_nat (J_LOG_ENTRY_ADDR i).2) bs pg).
    rewrite lookup_alter_eq, E. split; [done|]. by rewrite length_inserts.
  - exists pg. by rewrite lookup_alter_ne by done.
Qed.

Lemma slot_write_same ps i bs : pages_ok ps -> idx_ok i -> (length bs <= 128)%nat ->
  slot (jmem_write ps (J_LOG_ENTRY_ADDR i) bs) i = bs ++ drop (length bs) (slot ps i).
Proof.
  intros Hp Hi Hb. destruct (slot_page ps i Hp Hi) as (pg & E & L & ->).
  pose proof (slot_in_page i Hi). unfold slot, jmem_write, jmem_read. rewrite slot_addr by done.
  simpl. rewrite lookup_alter_eq, E. simpl. apply window_inserts_same; lia.
Qed.

Lemma slot_write_other ps i k bs : pages_ok ps -> idx_ok i -> idx_ok k -> i <> k ->
  (length bs <= 128)%nat -> slot (jmem_write ps (J_LOG_ENTRY_ADDR i) bs) k = slot ps k.
Proof.
  intros Hp Hi Hk Hne Hb. destruct (slot_page ps k Hp Hk) as (pg & E & L & ->).
  unfold slot, jmem_write, jmem_read. rewrite !slot_addr by done. simpl.
  destruct (decide (i / 32 = k / 32)) as [Heq|Hd].
  - rewrite Heq, lookup_alter_eq, E. simpl. apply window_inserts_disjoint.
    assert (i mod 32 + 1 <= k mod 32 \/ k mod 32 + 1 <= i mod 32) by zdiv.
    pose proof (slot_in_page i Hi); pose proof (slot_in_page k Hk). lia.
  - by rewrite lookup_alter_ne, E.
Qed.

(** ** The allocator invariant *)

Record journal_wf (s : journal) : Prop := {
  wf_pages : pages_ok (j_pages (j_file_mmap s));
  wf_idx : idx_ok (j_cur_log_entry_idx (j_file_mmap s));
  wf_unlocked : memap_lock s = false;
  wf_state : j_file_state (j_file_mmap s) <> J_WHOLE_FILE_WAIT_COMMIT;
  wf_start : j_cur_file_start_blk (j_file_mmap s) = JORNAL_FILE_0_START_BLK;
  wf_end : j_cur_file_end_blk (j_file_mmap s) = JORNAL_FILE_0_START_BLK + JOURNAL_BLK_PER_SMALL_FILE;
  wf_first : JORNAL_FILE_0_START_BLK <= j_cur_file_first_inused_blk (j_file_mmap s)
             <= JORNAL_FILE_0_START_BLK + j_cur_log_entry_idx (j_file_mmap s) / 32
}.

Definition next_idx (i : Z) : Z := (i + 1) mod J_LOG_ENTRY_PER_FILE.

Lemma next_idx_ok i : idx_ok (next_idx i).
Proof. apply Z.mod_pos_bound. reflexivity. Qed.
#[export] Hint Resolve next_idx_ok : jbounds.

Lemma next_idx_cases i : idx_ok i ->
  (i +! 1 = J_LOG_ENTRY_PER_FILE /\ next_idx i = 0) \/
  (i +! 1 <> J_LOG_ENTRY_PER_FILE /\ next_idx i = i + 1 /\ i +! 1 = i + 1).
Proof.
  unfold idx_ok, next_idx, J_LOG_ENTRY_PER_FILE. intros Hi. rewrite u32_small by lia.
  destruct (decide (i = 2097151)) as [->|]; [by left|right].
  rewrite Z.mod_small by lia. lia.
Qed.

(** One allocation from a well-formed journal: it succeeds with the slot of
    the current index, moves the index forward round the ring, releases the
    lock, leaves the pages alone and keeps the invariant. *)
Lemma j_alloc_log_entry_spec raw s : journal_wf s ->
  exists s', j_alloc_log_entry (Some raw) s =
    Some (s', Some {| log_entry_idx := j_cur_log_entry_idx (j_file_mmap s);
                      log_entry_addr := J_LOG_ENTRY_ADDR (j_cur_log_entry_idx (j_file_mmap s)) |},
          F2FSJ_OK) /\
  journal_wf s' /\
  j_cur_log_entry_idx (j_file_mmap s') = next_idx (j_cur_log_entry_idx (j_file_mmap s)) /\
  j_pages (j_file_mmap s') = j_pages (j_file_mmap s) /\
  g_on_disk_j_file s' = g_on_disk_j_file s /\ entry_live s' = entry_live s + 1.
Proof.
  intros [Hp Hi Hl Hst Hs He Hf]. destruct s as [[st cf idx sb eb fb ps] jsb od lk lv]; simpl in *.
  subst lk. unfold j_alloc_log_entry. simpl.
  assert (E : (if decide (st = J_FILE_IDLE) then J_FILE_INUSE else st) <> J_WHOLE_FILE_WAIT_COMMIT)
    by (destruct (decide (st = J_FILE_IDLE)); congruence).
  destruct (next_idx_cases idx Hi) as [[E1 E2]|(E1 & E2 & E3)];
    repeat case_decide; simpl in *; try congruence;
    rewrite ?E1, ?Z.eqb_refl, ?(proj2 (Z.eqb_neq _ _) E1); simpl;
    (eexists; split; [reflexivity|]); rewrite ?E3, E2; conjs; try done;
    constructor; simpl; auto with jbounds; try congruence;
    unfold idx_ok, J_LOG_ENTRY_PER_FILE in *; try lia; zdiv.
Qed.

(** [n] allocations in a row, each with a slab object. *)
Fixpoint alloc_n (raws : list j_log_entry_t) (s : journal) : option (journal * list j_log_entry_t) :=
  match raws with
  | [] => Some (s, [])
  | raw :: raws =>
      '(s, e, _) ← j_alloc_log_entry (Some raw) s;
      e ← e;
      '(s, es) ← alloc_n raws s;
      Some (s, e :: es)
  end.

Definition ring_entry (i0 : Z) (k : nat) : j_log_entry_t :=
  let i := (i0 + Z.of_nat k) mod J_LOG_ENTRY_PER_FILE in
  {| log_entry_idx := i; log_entry_addr := J_LOG_ENTRY_ADDR i |}.

Lemma ring_entry_next i0 k : idx_ok i0 -> ring_entry (next_idx i0) k = ring_entry i0 (S k).
Proof.
  intros H. unfold ring_entry, next_idx. rewrite Zplus_mod_idemp_l.
  by replace (i0 + 1 + Z.of_nat k) with (i0 + Z.of_nat (S k)) by lia.
Qed.

Lemma ring_entries_cons i0 n : idx_ok i0 ->
  ring_entry i0 <$> seq 0 (S n) =
  {| log_entry_idx := i0; log_entry_addr := J_LOG_ENTRY_ADDR i0 |} :: (ring_entry (next_idx i0) <$> seq 0 n).
Proof.
  intros H. simpl. f_equal.
  - unfold ring_entry. simpl. by rewrite Z.add_0_r, Z.mod_small by apply H.
  - rewrite <-fmap_S_seq, <-list_fmap_compose. apply list_fmap_ext.
    intros _ k _. simpl. by rewrite ring_entry_next.
Qed.

Lemma alloc_n_spec raws s : journal_wf s ->
  exists s', alloc_n raws s =
    Some (s', ring_entry (j_cur_log_entry_idx (j_file_mmap s)) <$> seq 0 (length raws)) /\
  journal_wf s'.
Proof.
  revert s; induction raws as [|raw raws IH]; intros s Hs; [simpl; eauto|].
  destruct (j_alloc_log_entry_spec raw s Hs) as (s1 & E & Hs1 & Hi & _).
  cbn [alloc_n length]. rewrite E. simpl.
  destruct (IH s1 Hs1) as (s2 & E2 & Hs2). rewrite E2. simpl.
  exists s2. split; [|done]. rewrite Hi, <-ring_entries_cons; [done|apply Hs].
Qed.

Lemma J_LOG_ENTRY_ADDR_inj i k : idx_ok i -> idx_ok k ->
  J_LOG_ENTRY_ADDR i = J_LOG_ENTRY_ADDR k -> i = k.
Proof. intros Hi Hk. rewrite !slot_addr by done. intros [= E1 E2]. zdiv. Qed.

(** The log-entry allocator is a ring: [n] allocations from a well-formed
    journal all succeed, hand out the slots [i0, i0+1, ...] modulo 2097152, and
    keep the invariant (index in range, lock free, block bookkeeping); up to
    a full ring of them the addresses are pairwise distinct, each inside one
    page. *)
Theorem alloc_ring (raws : list j_log_entry_t) (s : journal) :
  journal_wf s ->
  exists s' es, alloc_n raws s = Some (s', es) /\ journal_wf s' /\
    es = (ring_entry (j_cur_log_entry_idx (j_file_mmap s)) <$> seq 0 (length raws)) /\
    (Z.of_nat (length raws) <= J_LOG_ENTRY_PER_FILE -> NoDup (log_entry_addr <$> es)) /\
    Forall (fun e => 0 <= (log_entry_addr e).1 < JOURNAL_BLK_PER_SMALL_FILE /\
                     0 <= (log_entry_addr e).2 /\ (log_entry_addr e).2 + 128 <= PAGE_SIZE) es.
Proof.
  intros Hs. destruct (alloc_n_spec raws s Hs) as (s' & E & Hs').
  exists s', (ring_entry (j_cur_log_entry_idx (j_file_mmap s)) <$> seq 0 (length raws)).
  assert (Hok : forall z, idx_ok (z mod J_LOG_ENTRY_PER_FILE)) by (intros z; by apply Z.mod_pos_bound).
  conjs; [done..| |].
  - intros Hn. rewrite <-list_fmap_compose. apply NoDup_fmap_2_strong; [|apply NoDup_seq].
    intros x y Hx%elem_of_seq Hy%elem_of_seq Heq%J_LOG_ENTRY_ADDR_inj; [|apply Hok..].
    unfold J_LOG_ENTRY_PER_FILE in *. zdiv.
  - apply Forall_fmap, Forall_forall. intros k _. apply slot_addr_bounds, Hok.
Qed.
