(* ===== verification/JournalReplay.v ===== *)
(** * Appending logs and scanning them back (namei.c, iterate_journal)

    The journal sections of create, mkdir and unlink append one log to the
    ring.  The scan at mount time returns the longest valid prefix of the
    slots, hence, from a cleared journal, exactly the appended logs in order. *)

From S2P Require Import Prelude LogContent JournalFile JournalSlots.

(** ** Appending (the journal sections of namei.c) *)

(** [j_alloc_log_entry] followed by [memcpy] into the entry; the callers do not
    test the return code, and a null entry is dereferenced (no result). *)
Definition append_log (slab : option j_log_entry_t) (img : list Z) (s : journal)
    : option (journal * j_log_entry_t) :=
  '(s, e, _) ← j_alloc_log_entry slab s;
  e ← e;
  let m := j_file_mmap s in
  let s := if Z.of_nat (length img) <=? J_LOG_ENTRY_SIZE
           then set_mmap s (set_pages m (jmem_write (j_pages m) (log_entry_addr e) img))
           else s in
  Some (s, e).

Section ops.
Context `{F2fsFsInline}.

(** What the file operations hand to the journal: the inode, the name and the
    previous contents of the stack slot the log is built in. *)
Inductive journal_op :=
| OpCreate (v : VfsInode.t) (fname : list Z) (old : create_log_t)
| OpMkdir (v : VfsInode.t) (fname : list Z) (old : create_log_t)
| OpUnlink (v : VfsInode.t) (fname : list Z) (old : delete_log_t).

(** The log built by [f2fs_create]. *)
Definition f2fs_create_log (v : VfsInode.t) (fname : list Z) (old : create_log_t) : create_log_t :=
  stamp_create (get_inode_log_from_f2fs_inode v fname old).1.

(** The log built by [f2fs_mkdir]: its header says [CREATE_LOG]. *)
Definition f2fs_mkdir_log (v : VfsInode.t) (fname : list Z) (old : create_log_t) : create_log_t :=
  stamp_create (get_inode_log_from_f2fs_inode v fname old).1.

(** The log built by [f2fs_unlink]. *)
Definition f2fs_unlink_log (v : VfsInode.t) (fname : list Z) (old : delete_log_t) : delete_log_t :=
  stamp_unlink (get_delete_log_from_f2fs_inode (Some v) fname old).1.

Definition op_image (o : journal_op) : list Z :=
  match o with
  | OpCreate v n old => encode_create (f2fs_create_log v n old)
  | OpMkdir v n old => encode_create (f2fs_mkdir_log v n old)
  | OpUnlink v n old => encode_delete (f2fs_unlink_log v n old)
  end.

Fixpoint run_ops (ops : list (j_log_entry_t * journal_op)) (s : journal) : option journal :=
  match ops with
  | [] => Some s
  | (raw, o) :: ops => '(s, _) ← append_log (Some raw) (op_image o) s; run_ops ops s
  end.

(** The log each operation should be recovered as. *)
Definition op_recovered (o : journal_op) : recovered :=
  match o with
  | OpCreate v n old => R_CREATE (j_new_ino_log (f2fs_create_log v n old))
  | OpMkdir v n old => R_CREATE (j_new_ino_log (f2fs_mkdir_log v n old))
  | OpUnlink v n old => R_UNLINK (f2fs_unlink_log v n old)
  end.

(** The stack slot held values of the fields' types. *)
Definition op_ok (o : journal_op) : Prop :=
  match o with
  | OpCreate _ _ old | OpMkdir _ _ old => new_inode_fits (j_new_ino_log old)
  | OpUnlink _ _ old => delete_fits old
  end.
End ops.

(** ** The scan as a walk over the slots *)

Fixpoint scan (ps : gmap Z (list Z)) (i : Z) (n : nat) : list recovered :=
  match n with
  | O => []
  | S n =>
      let img := slot ps i in
      if entry_valid img
      then do_recover_from_journal (log_type (decode_head img)) img :: scan ps (i + 1) n
      else []
  end.

Lemma entry_at ps i j : 0 <= i -> 0 <= j < 32 -> 32 * i + j < J_LOG_ENTRY_PER_FILE ->
  jmem_read ps (i, J_LOG_ENTRY_SIZE * j) 128 = slot ps (32 * i + j).
Proof.
  intros Hi Hj Hn. unfold slot. rewrite slot_addr by (split; lia).
  unfold J_LOG_ENTRY_SIZE. do 2 f_equal; zdiv.
Qed.

(** The inner loop consumes the rest of its page, or stops the scan. *)
Lemma iterate_block_scan ps i j n k :
  0 <= i -> 0 <= j -> j + Z.of_nat n = 32 ->
  32 * i + 32 + Z.of_nat k <= J_LOG_ENTRY_PER_FILE ->
  scan ps (32 * i + j) (n + k) =
  (let '(rs, stop) := iterate_block ps i j n in
   if stop then rs else rs ++ scan ps (32 * i + 32) k).
Proof.
  revert j; induction n as [|n IH]; intros j Hi Hj Hn Hk; cbn [iterate_block scan plus].
  - simpl. by replace (32 * i + j) with (32 * i + 32) by lia.
  - rewrite entry_at by lia. destruct (entry_valid (slot ps (32 * i + j))); [|done].
    replace (32 * i + j + 1) with (32 * i + (j + 1)) by lia.
    rewrite IH by lia. destruct (iterate_block ps i (j + 1) n) as [rs []]; done.
Qed.

Lemma iterate_blocks_scan ps i n :
  0 <= i -> 32 * (i + Z.of_nat n) <= J_LOG_ENTRY_PER_FILE ->
  iterate_blocks ps i n = scan ps (32 * i) (32 * n).
Proof.
  revert i; induction n as [|n IH]; intros i Hi Hn; cbn [iterate_blocks]; [done|].
  replace (32 * S n)%nat with (32 + 32 * n)%nat by lia.
  pose proof (iterate_block_scan ps i 0 32 (32 * n)) as E.
  rewrite Z.add_0_r in E. rewrite E by lia.
  change (Z.to_nat J_LOG_ENTRY_PER_BLOCK) with 32%nat.
  destruct (iterate_block ps i 0 32) as [rs []]; [done|].
  rewrite IH by lia. by replace (32 * (i + 1)) with (32 * i + 32) by lia.
Qed.

Lemma iterate_journal_scan s :
  iterate_journal s = scan (j_pages (j_file_mmap s)) 0 (Z.to_nat J_LOG_ENTRY_PER_FILE).
Proof.
  unfold iterate_journal. rewrite iterate_blocks_scan; [|lia|].
  - replace (32 * Z.to_nat JOURNAL_BLK_PER_SMALL_FILE)%nat with (Z.to_nat J_LOG_ENTRY_PER_FILE)
      by (unfold JOURNAL_BLK_PER_SMALL_FILE, J_LOG_ENTRY_PER_FILE; lia).
    exact eq_refl.
  - unfold JOURNAL_BLK_PER_SMALL_FILE, J_LOG_ENTRY_PER_FILE. lia.
Qed.

Definition recover_slot (ps : gmap Z (list Z)) (i : Z) : recovered :=
  do_recover_from_journal (log_type (decode_head (slot ps i))) (slot ps i).

Lemma scan_prefix ps i n : exists k, (k <= n)%nat /\
  scan ps i n = (fun d => recover_slot ps (i + Z.of_nat d)) <$> seq 0 k /\
  (forall d, (d < k)%nat -> entry_valid (slot ps (i + Z.of_nat d)) = true) /\
  (k = n \/ entry_valid (slot ps (i + Z.of_nat k)) = false).
Proof.
  revert i; induction n as [|n IH]; intros i; cbn [scan].
  { exists 0%nat. split; [lia|]. split; [done|]. split; [lia|auto]. }
  destruct (entry_valid (slot ps i)) eqn:E.
  - destruct (IH (i + 1)) as (k & Hk & Hs & Hv & He). exists (S k). conjs; [lia| | |].
    + cbn [seq fmap list_fmap]. unfold recover_slot at 1.
      rewrite Z.add_0_r, Hs. f_equal. rewrite <-fmap_S_seq, <-list_fmap_compose.
      apply list_fmap_ext. intros _ d _. unfold compose. f_equal; lia.
    + intros [|d] Hd; [by rewrite Z.add_0_r|].
      replace (i + Z.of_nat (S d)) with (i + 1 + Z.of_nat d) by lia. apply Hv; lia.
    + destruct He as [->|He]; [by left|right].
      by replace (i + Z.of_nat (S k)) with (i + 1 + Z.of_nat k) by lia.
  - exists 0%nat. split; [lia|]. split; [done|]. split; [lia|]. right. by rewrite Z.add_0_r.
Qed.

(** The nested loops of [iterate_journal] hand to the recovery exactly the
    longest prefix of valid slots: there is a count [k] such that slots
    [0..k-1] are valid, the logs decoded are those of slots [0..k-1] in
    order, and slot [k] is invalid unless the whole ring was read. *)
Theorem iterate_journal_prefix (s : journal) :
  exists k : nat, Z.of_nat k <= J_LOG_ENTRY_PER_FILE /\
    iterate_journal s = (fun d => recover_slot (j_pages (j_file_mmap s)) (Z.of_nat d)) <$> seq 0 k /\
    (forall d : nat, (d < k)%nat -> entry_valid (slot (j_pages (j_file_mmap s)) (Z.of_nat d)) = true) /\
    (Z.of_nat k = J_LOG_ENTRY_PER_FILE \/
     entry_valid (slot (j_pages (j_file_mmap s)) (Z.of_nat k)) = false).
Proof.
  rewrite iterate_journal_scan.
  destruct (scan_prefix (j_pages (j_file_mmap s)) 0 (Z.to_nat J_LOG_ENTRY_PER_FILE))
    as (k & Hk & Hs & Hv & He).
  assert (0 <= J_LOG_ENTRY_PER_FILE) by done.
  exists k. conjs; [lia| |done|].
  - rewrite Hs. by apply list_fmap_ext.
  - destruct He; [left; lia | by right].
Qed.

(** ** Replay of appended logs *)

Definition zero_slot : list Z := replicate 128 0.

(** The first [length rs] slots hold the logs [rs], the others are zero, and
    the allocator stands behind the last log. *)
Record journal_holds (rs : list recovered) (s : journal) : Prop := {
  holds_wf : journal_wf s;
  holds_len : Z.of_nat (length rs) <= J_LOG_ENTRY_PER_FILE;
  holds_idx : j_cur_log_entry_idx (j_file_mmap s) = Z.of_nat (length rs) mod J_LOG_ENTRY_PER_FILE;
  holds_logs : forall k r, rs !! k = Some r ->
    entry_valid (slot (j_pages (j_file_mmap s)) (Z.of_nat k)) = true /\
    recover_slot (j_pages (j_file_mmap s)) (Z.of_nat k) = r;
  holds_zero : forall i, Z.of_nat (length rs) <= i < J_LOG_ENTRY_PER_FILE ->
    slot (j_pages (j_file_mmap s)) i = zero_slot
}.

Lemma zero_slot_invalid : entry_valid zero_slot = false.
Proof. reflexivity. Qed.

Lemma scan_holds ps i rs n :
  (length rs <= n)%nat ->
  (forall k r, rs !! k = Some r ->
     entry_valid (slot ps (i + Z.of_nat k)) = true /\ recover_slot ps (i + Z.of_nat k) = r) ->
  ((length rs < n)%nat -> slot ps (i + Z.of_nat (length rs)) = zero_slot) ->
  scan ps i n = rs.
Proof.
  revert i n; induction rs as [|r rs IH]; intros i n Hn Hl Hz.
  - destruct n as [|n]; [done|]. cbn [scan]. rewrite Z.add_0_r in Hz.
    by rewrite Hz, zero_slot_invalid by (simpl; lia).
  - destruct n as [|n]; [simpl in Hn; lia|]. cbn [scan length] in *.
    destruct (Hl 0%nat r eq_refl) as [Hv Hr]. rewrite Z.add_0_r in Hv, Hr.
    rewrite Hv. f_equal; [done|]. apply IH; [lia| |].
    + intros k r' Hk. replace (i + 1 + Z.of_nat k) with (i + Z.of_nat (S k)) by lia. by apply Hl.
    + intros Hk. rewrite <-Hz by lia. f_equal. lia.
Qed.

Lemma iterate_journal_holds rs s : journal_holds rs s -> iterate_journal s = rs.
Proof.
  intros [_ Hlen _ Hl Hz]. rewrite iterate_journal_scan. apply scan_holds; [lia|by apply Hl|].
  intros H. apply Hz. lia.
Qed.

Section replay.
Context `{F2fsFsInline}.

Lemma op_image_length o : (length (op_image o) <= 128)%nat.
Proof. destruct o; simpl op_image; autorewrite with jsimp; lia. Qed.

Lemma create_log_image v n old rest : new_inode_fits (j_new_ino_log old) ->
  let img := encode_create (f2fs_create_log v n old) ++ rest in
  entry_valid img = true /\
  do_recover_from_journal (log_type (decode_head img)) img = R_CREATE (j_new_ino_log (f2fs_create_log v n old)).
Proof.
  intros Hold img.
  assert (E : decode_create img = f2fs_create_log v n old)
    by (apply decode_encode_create; [done | by apply get_inode_log_fits]).
  assert (Eh : decode_head img = cl_header (f2fs_create_log v n old)) by (by rewrite <-E).
  unfold entry_valid. rewrite Eh. split; [done|].
  transitivity (R_CREATE (j_new_ino_log (decode_create img))); [done | by rewrite E].
Qed.

Lemma unlink_log_image v n old rest : delete_fits old ->
  let img := encode_delete (f2fs_unlink_log v n old) ++ rest in
  entry_valid img = true /\
  do_recover_from_journal (log_type (decode_head img)) img = R_UNLINK (f2fs_unlink_log v n old).
Proof.
  intros Hold img.
  assert (E : decode_delete img = f2fs_unlink_log v n old)
    by (apply decode_encode_delete; by apply get_delete_log_fits).
  assert (Eh : decode_head img = dl_header (f2fs_unlink_log v n old)) by (by rewrite <-E).
  unfold entry_valid. rewrite Eh. split; [done|].
  transitivity (R_UNLINK (decode_delete img)); [done | by rewrite E].
Qed.

Lemma op_image_recovered o rest : op_ok o ->
  entry_valid (op_image o ++ rest) = true /\
  do_recover_from_journal (log_type (decode_head (op_image o ++ rest))) (op_image o ++ rest)
  = op_recovered o.
Proof.
  destruct o as [v n old|v n old|v n old]; intros Ho.
  - exact (create_log_image v n old rest Ho).
  - exact (create_log_image v n old rest Ho).
  - exact (unlink_log_image v n old rest Ho).
Qed.

Lemma append_log_holds rs raw o s :
  journal_holds rs s -> op_ok o -> Z.of_nat (length rs) < J_LOG_ENTRY_PER_FILE ->
  exists s' e, append_log (Some raw) (op_image o) s = Some (s', e) /\
               journal_holds (rs ++ [op_recovered o]) s'.
Proof.
  intros [Hw Hlen Hi Hl Hz] Ho Hn.
  destruct (j_alloc_log_entry_spec raw s Hw) as (s1 & E & Hw1 & Hi1 & Hp1 & _).
  pose proof (op_image_length o) as Himg.
  unfold append_log. rewrite E. simpl. rewrite (proj2 (Z.leb_le _ _)) by (unfold J_LOG_ENTRY_SIZE; lia).
  do 2 eexists. split; [reflexivity|].
  rewrite Z.mod_small in Hi by lia. rewrite Hi, Hp1.
  assert (Hok : idx_ok (Z.of_nat (length rs))) by (split; lia).
  assert (Hpg : pages_ok (j_pages (j_file_mmap s))) by apply Hw.
  constructor; simpl.
  - destruct Hw1. constructor; simpl; try done. by apply pages_ok_write.
  - rewrite length_app. simpl. lia.
  - rewrite Hi1, Hi, length_app. unfold next_idx. f_equal. simpl. lia.
  - intros k r Hk. apply lookup_app_Some in Hk as [Hk|[Hk1 Hk2]].
    + assert (k < length rs)%nat by (by eapply lookup_lt_Some).
      unfold recover_slot. rewrite slot_write_other; [by apply Hl|done|done|split; lia|lia|done].
    + destruct (k - length rs)%nat as [|?] eqn:Ek; simplify_eq/=.
      replace k with (length rs) by lia.
      unfold recover_slot. rewrite slot_write_same by done. by apply op_image_recovered.
  - rewrite length_app. simpl. intros i Hri.
    rewrite slot_write_other; [apply Hz; lia|done|done|split; lia|lia|done].
Qed.

Lemma run_ops_holds ops rs s :
  journal_holds rs s -> Forall (fun p => op_ok p.2) ops ->
  Z.of_nat (length rs + length ops) <= J_LOG_ENTRY_PER_FILE ->
  exists s', run_ops ops s = Some s' /\ journal_holds (rs ++ (op_recovered <$> ops.*2)) s'.
Proof.
  revert rs s; induction ops as [|[raw o] ops IH]; intros rs s Hh Ho Hn.
  - exists s. simpl. by rewrite app_nil_r.
  - apply Forall_cons_1 in Ho as [Ho1 Ho2]. simpl in Hn.
    destruct (append_log_holds rs raw o s Hh Ho1) as (s1 & e & E & Hh1); [lia|].
    cbn [run_ops]. rewrite E. simpl.
    destruct (IH _ _ Hh1 Ho2) as (s' & E' & Hh'); [rewrite length_app; simpl; lia|].
    exists s'. by rewrite <-app_assoc in Hh'.
Qed.

(** C22: Appending and parsing are inverse on the mapping of the journal: starting from a
    cleared journal, any sequence of at most 2097152 create, mkdir and unlink operations
    appends without failing, and the scan, run on the pages of the mapping that the appends
    filled, gives exactly the logs of those operations, in order and with nothing after
    them.  The scan at mount reads the pages from the device; whether the device holds
    them is what the theorems on the commit are about. *)
Theorem journal_replay (ops : list (j_log_entry_t * journal_op)) (s : journal) :
  journal_holds [] s -> Forall (fun p => op_ok p.2) ops ->
  Z.of_nat (length ops) <= J_LOG_ENTRY_PER_FILE ->
  exists s', run_ops ops s = Some s' /\ iterate_journal s' = (op_recovered <$> ops.*2).
Proof.
  intros Hh Ho Hn. destruct (run_ops_holds ops [] s Hh Ho Hn) as (s' & E & Hh').
  exists s'. split; [done|]. by apply iterate_journal_holds.
Qed.
End replay.
