(* ===== verification/JournalIO.v ===== *)
(** * The block I/O loops of the journal (j_journal_file.c)

    Which bios the clearing, the reading and the committing of the journal
    submit, and what they do to the device and to the mapping. *)

From S2P Require Import Prelude LogContent JournalFile JournalSlots JournalReplay.

(** ** Chunks of 256 pages *)

(** The bio opened at block [start + 256 c] with the first [r] pages of
    chunk [c] added. *)
Definition chunk (mk : Z -> bio) (start c r : Z) : bio :=
  let b := mk (start + 256 * c) in
  {| bi_op := bi_op b; bi_sector := bi_sector b; bi_max_vecs := bi_max_vecs b;
     bi_pages := seqZ (256 * c) r |}.

(** The bio constructors of the source give an empty bio of 256 vectors. *)
Class OpensBio (mk : Z -> bio) := {
  opens_empty : forall blk, bi_pages (mk blk) = [];
  opens_256 : forall blk, bi_max_vecs (mk blk) = 256
}.

#[export] Instance write_opens : OpensBio (fun blk => j_alloc_bio_write blk 256).
Proof. by split. Qed.
#[export] Instance read_opens : OpensBio j_alloc_bio_read.
Proof. by split. Qed.

Lemma seqZ_snoc m n : 0 <= n -> seqZ m (n + 1) = seqZ m n ++ [m + n].
Proof. intros H. rewrite seqZ_app by lia. f_equal. Qed.

Section chunks.
Context (mk : Z -> bio) `{!OpensBio mk}.

Lemma chunk_open start c : mk (start + 256 * c) = chunk mk start c 0.
Proof.
  unfold chunk. pose proof (opens_empty (start + 256 * c)) as E.
  destruct (mk (start + 256 * c)); simpl in *. by rewrite E.
Qed.

Lemma chunk_add start c r : 0 <= r < 256 ->
  add_journal_page_2_bio (256 * c + r) (chunk mk start c r) = (chunk mk start c (r + 1), F2FSJ_OK).
Proof.
  intros Hr. unfold add_journal_page_2_bio, chunk. simpl. rewrite opens_256, length_seqZ.
  rewrite (proj2 (Z.ltb_lt _ _)) by lia. by rewrite seqZ_snoc by lia.
Qed.

Lemma chunk_add_first start c :
  add_journal_page_2_bio (256 * c) (chunk mk start c 0) = (chunk mk start c 1, F2FSJ_OK).
Proof. rewrite <-(Z.add_0_r (256 * c)) at 1. by apply chunk_add. Qed.

(** From page [j = 256 c + r] on, the batching loop adds every remaining page
    exactly once and submits the remaining chunks. *)
Lemma batch_loop_spec strict touch start k fuel c r ps trace :
  0 <= start -> start + 256 * k < 2 ^ 32 -> 0 < k ->
  0 <= c -> (0 < r <= 256 \/ c = 0 /\ r = 0) -> 256 * c + r <= 256 * k ->
  256 * k - (256 * c + r) + 1 <= Z.of_nat fuel ->
  batch_loop fuel strict mk touch (256 * k) (256 * c + r) (256 * c + r) (start + (256 * c + r))
    (chunk mk start c r) ps trace
  = Some (foldl touch ps (seqZ (256 * c + r) (256 * k - (256 * c + r))),
          trace ++ ((fun i => chunk mk start i 256) <$> seqZ c (k - c)), F2FSJ_OK).
Proof.
  intros Hs Hb Hk. revert c r ps trace.
  induction fuel as [|fuel IH]; intros c r ps trace Hc Hr Hle Hf; [lia|].
  cbn [batch_loop]. rewrite (proj2 (Z.leb_le _ _) Hle). cbn [negb].
  destruct (decide (r = 256)) as [->|Hr256].
  - replace (256 * c + 256) with (256 * (c + 1)) by lia.
    rewrite (proj2 (Z.eqb_eq ((256 * (c + 1)) mod 256) 0)) by zdiv.
    rewrite (proj2 (Z.eqb_neq (256 * (c + 1)) 0)) by lia. cbn [negb andb].
    destruct (Z.eqb_spec (256 * (c + 1)) (256 * k)) as [Hend|Hmore].
    + replace (256 * k - 256 * (c + 1)) with 0 by lia. replace (k - c) with 1 by lia. done.
    + rewrite chunk_open, chunk_add_first.
      rewrite (bool_decide_eq_false_2 (F2FSJ_OK <> F2FSJ_OK)) by tauto. rewrite andb_false_r.
      rewrite u32_small by lia.
      specialize (IH (c + 1) 1 (touch ps (256 * (c + 1))) (trace ++ [chunk mk start c 256])).
      replace (start + 256 * (c + 1) + 1) with (start + (256 * (c + 1) + 1)) by lia.
      rewrite IH by lia. f_equal. f_equal. f_equal.
      * rewrite (seqZ_cons (256 * (c + 1))) by lia. simpl. do 2 f_equal; lia.
      * rewrite <-app_assoc, (seqZ_cons c) by lia. simpl. do 4 f_equal; lia.
  - assert (Hfull : ((256 * c + r) mod 256 =? 0) && negb (256 * c + r =? 0) = false).
    { destruct Hr as [Hr|[-> ->]]; [|done].
      rewrite (proj2 (Z.eqb_neq ((256 * c + r) mod 256) 0)) by zdiv. done. }
    rewrite Hfull. cbn [andb].
    rewrite chunk_add by lia.
    rewrite (bool_decide_eq_false_2 (F2FSJ_OK <> F2FSJ_OK)) by tauto. rewrite andb_false_r.
    rewrite u32_small by lia.
    specialize (IH c (r + 1) (touch ps (256 * c + r)) trace).
    replace (256 * c + r + 1) with (256 * c + (r + 1)) by lia.
    replace (start + (256 * c + r) + 1) with (start + (256 * c + (r + 1))) by lia.
    rewrite IH by lia. f_equal. f_equal. f_equal.
    rewrite (seqZ_cons (256 * c + r)) by lia. simpl. do 2 f_equal; lia.
Qed.

(** The whole loop, from its first page. *)
Lemma batch_loop_all strict touch start k fuel ps :
  0 <= start -> start + 256 * k < 2 ^ 32 -> 0 < k -> 256 * k + 1 <= Z.of_nat fuel ->
  batch_loop fuel strict mk touch (256 * k) 0 0 start (mk start) ps []
  = Some (foldl touch ps (seqZ 0 (256 * k)), (fun i => chunk mk start i 256) <$> seqZ 0 k, F2FSJ_OK).
Proof.
  intros Hs Hb Hk Hf.
  pose proof (batch_loop_spec strict touch start k fuel 0 0 ps []) as E.
  rewrite <-(chunk_open start 0) in E. rewrite !Z.mul_0_r, !Z.add_0_r, !Z.sub_0_r in E.
  apply E; lia.
Qed.
End chunks.

(** ** Effect of the chunks *)

Lemma write_pages_seqZ ps d blk p n b :
  write_pages ps blk (seqZ p (Z.of_nat n)) d !! b =
  if decide (blk <= b < blk + Z.of_nat n)
  then Some (default zero_page (ps !! (p + (b - blk)))) else d !! b.
Proof.
  revert blk p d; induction n as [|n IH]; intros blk p d.
  - rewrite seqZ_nil by lia. simpl. by rewrite decide_False by lia.
  - rewrite seqZ_cons by lia. cbn [write_pages].
    replace (Z.pred (Z.of_nat (S n))) with (Z.of_nat n) by lia. rewrite IH.
    destruct (decide (b = blk)) as [->|Hne].
    + rewrite decide_False, decide_True, lookup_insert_eq by lia. do 3 f_equal. lia.
    + rewrite lookup_insert_ne by done.
      destruct (decide (blk + 1 <= b < _)); [rewrite decide_True by lia; do 3 f_equal; lia|].
      by rewrite decide_False by lia.
Qed.

Lemma read_pages_seqZ d ps blk p n q :
  read_pages d blk (seqZ p (Z.of_nat n)) ps !! q =
  if decide (p <= q < p + Z.of_nat n)
  then Some (default zero_page (d !! (blk + (q - p)))) else ps !! q.
Proof.
  revert blk p ps; induction n as [|n IH]; intros blk p ps.
  - rewrite seqZ_nil by lia. simpl. by rewrite decide_False by lia.
  - rewrite seqZ_cons by lia. cbn [read_pages].
    replace (Z.pred (Z.of_nat (S n))) with (Z.of_nat n) by lia. rewrite IH.
    destruct (decide (q = p)) as [->|Hne].
    + rewrite decide_False, decide_True, lookup_insert_eq by lia. do 3 f_equal. lia.
    + rewrite lookup_insert_ne by done.
      destruct (decide (Z.succ p <= q < _)); [rewrite decide_True by lia; do 3 f_equal; lia|].
      by rewrite decide_False by lia.
Qed.

Lemma write_pages_256 ps d blk p b :
  write_pages ps blk (seqZ p 256) d !! b =
  if decide (blk <= b < blk + 256) then Some (default zero_page (ps !! (p + (b - blk)))) else d !! b.
Proof. exact (write_pages_seqZ ps d blk p 256 b). Qed.

Lemma read_pages_256 d ps blk p q :
  read_pages d blk (seqZ p 256) ps !! q =
  if decide (p <= q < p + 256) then Some (default zero_page (d !! (blk + (q - p)))) else ps !! q.
Proof. exact (read_pages_seqZ d ps blk p 256 q). Qed.

Lemma sector_block blk : 0 <= blk < 2 ^ 61 -> Z.shiftr (J_SECTOR_FROM_BLOCK blk) 3 = blk.
Proof.
  intros H. unfold J_SECTOR_FROM_BLOCK. rewrite Z.shiftl_mul_pow2, Z.shiftr_div_pow2 by lia.
  rewrite u64_small by lia. change (2 ^ 3) with 8. by rewrite Z.div_mul by lia.
Qed.

(** Writing or reading the first [k] chunks moves exactly [256 k] pages. *)
Lemma exec_writes_chunks ps d start k b :
  0 <= start -> start + 256 * Z.of_nat k < 2 ^ 32 ->
  exec_writes ps ((fun i => chunk (fun blk => j_alloc_bio_write blk 256) start i 256) <$>
                  seqZ 0 (Z.of_nat k)) d !! b =
  if decide (start <= b < start + 256 * Z.of_nat k)
  then Some (default zero_page (ps !! (b - start))) else d !! b.
Proof.
  intros Hs Hb. unfold exec_writes. induction k as [|k IH].
  - simpl. by rewrite decide_False by lia.
  - rewrite Nat2Z.inj_succ, <-Z.add_1_r, seqZ_snoc, fmap_app, foldl_app by lia.
    cbn [foldl fmap list_fmap]. unfold bio_write at 1, chunk at 1 2, j_alloc_bio_write at 1 2.
    cbn [bi_sector bi_pages]. rewrite sector_block by lia.
    rewrite write_pages_256, IH by lia.
    destruct (decide (start + 256 * (0 + Z.of_nat k) <= b < _)).
    + rewrite decide_True by lia. do 3 f_equal. lia.
    + destruct (decide (start <= b < start + 256 * Z.of_nat k));
        [by rewrite decide_True by lia | by rewrite decide_False by lia].
Qed.

Lemma exec_reads_chunks d ps start k q :
  0 <= start -> start + 256 * Z.of_nat k < 2 ^ 32 ->
  exec_reads d ((fun i => chunk j_alloc_bio_read start i 256) <$> seqZ 0 (Z.of_nat k)) ps !! q =
  if decide (0 <= q < 256 * Z.of_nat k)
  then Some (default zero_page (d !! (start + q))) else ps !! q.
Proof.
  intros Hs Hb. unfold exec_reads. induction k as [|k IH].
  - simpl. by rewrite decide_False by lia.
  - rewrite Nat2Z.inj_succ, <-Z.add_1_r, seqZ_snoc, fmap_app, foldl_app by lia.
    cbn [foldl fmap list_fmap]. unfold bio_read at 1, chunk at 1 2, j_alloc_bio_read at 1 2.
    cbn [bi_sector bi_pages]. rewrite sector_block by lia.
    rewrite read_pages_256, IH by lia.
    destruct (decide (256 * (0 + Z.of_nat k) <= q < _)).
    + rewrite decide_True by lia. do 3 f_equal. lia.
    + destruct (decide (0 <= q < 256 * Z.of_nat k));
        [by rewrite decide_True by lia | by rewrite decide_False by lia].
Qed.

(** ** Clearing and reading the journal *)

Lemma foldl_memzero ps n p :
  foldl memzero_page ps (seqZ 0 (Z.of_nat n)) !! p =
  if decide (0 <= p < Z.of_nat n) then Some zero_page else ps !! p.
Proof.
  induction n as [|n IH].
  - simpl. by rewrite decide_False by lia.
  - rewrite Nat2Z.inj_succ, <-Z.add_1_r, seqZ_snoc, foldl_app by lia.
    cbn [foldl]. unfold memzero_page at 1. destruct (decide (p = 0 + Z.of_nat n)) as [->|Hne].
    + rewrite lookup_insert_eq, decide_True by lia. done.
    + rewrite lookup_insert_ne, IH by done.
      destruct (decide (0 <= p < Z.of_nat n));
        [by rewrite decide_True by lia | by rewrite decide_False by lia].
Qed.

Lemma scan_ext ps ps' i n :
  (forall k, i <= k < i + Z.of_nat n -> slot ps k = slot ps' k) -> scan ps i n = scan ps' i n.
Proof.
  revert i; induction n as [|n IH]; intros i Hs; cbn [scan]; [done|].
  rewrite Hs by lia. destruct (entry_valid _); [|done]. f_equal. apply IH. intros; apply Hs; lia.
Qed.

(** The scan depends on the pages of the mapping only. *)
Lemma iterate_journal_ext s s' :
  (forall p, 0 <= p < JOURNAL_BLK_PER_SMALL_FILE ->
     j_pages (j_file_mmap s) !! p = j_pages (j_file_mmap s') !! p) ->
  iterate_journal s = iterate_journal s'.
Proof.
  intros Hp. rewrite !iterate_journal_scan. apply scan_ext. intros k Hk.
  assert (Hi : idx_ok k) by (unfold idx_ok; lia).
  unfold slot, jmem_read. rewrite slot_addr by done. simpl. rewrite Hp; [done|].
  by apply slot_in_page.
Qed.

Lemma zero_page_slot ps i : idx_ok i -> ps !! (i / 32) = Some zero_page -> slot ps i = zero_slot.
Proof.
  intros Hi E. unfold slot, jmem_read. rewrite slot_addr by done. cbn [fst snd]. rewrite E. simpl default.
  unfold zero_page. rewrite drop_replicate, take_replicate.
  pose proof (slot_in_page i Hi). unfold zero_slot. f_equal. lia.
Qed.

Lemma zero_pages_iterate s :
  (forall p, 0 <= p < JOURNAL_BLK_PER_SMALL_FILE -> j_pages (j_file_mmap s) !! p = Some zero_page) ->
  iterate_journal s = [].
Proof.
  intros Hz. rewrite iterate_journal_scan. apply scan_holds; [simpl; lia|done|].
  intros _. by apply zero_page_slot, Hz.
Qed.

Lemma clear_fuel : 256 * 256 + 1 <= Z.of_nat (Z.to_nat (JOURNAL_BLK_PER_SMALL_FILE + 2)).
Proof. unfold JOURNAL_BLK_PER_SMALL_FILE. lia. Qed.

(** Clearing the journal terminates having zeroed every page of the mapping
    and submitted 256 writes of 256 pages that overwrite exactly the 65536
    journal blocks of the device with zeros, every other block untouched;
    a scan of the cleared mapping finds no log. *)
Theorem clear_journal_correct (s : journal) :
  j_cur_file_start_blk (j_file_mmap s) = JORNAL_FILE_0_START_BLK ->
  exists s' trace, clear_journal_file_after_recovery s = Some (s', trace) /\
    length trace = 256%nat /\
    (forall p, 0 <= p < JOURNAL_BLK_PER_SMALL_FILE -> j_pages (j_file_mmap s') !! p = Some zero_page) /\
    (forall (d : disk) b, exec_writes (j_pages (j_file_mmap s')) trace d !! b =
       if decide (JORNAL_FILE_0_START_BLK <= b < JORNAL_FILE_0_START_BLK + JOURNAL_BLK_PER_SMALL_FILE)
       then Some zero_page else d !! b) /\
    iterate_journal s' = [] /\
    j_cur_log_entry_idx (j_file_mmap s') = j_cur_log_entry_idx (j_file_mmap s).
Proof.
  intros Hs. unfold clear_journal_file_after_recovery. rewrite Hs.
  pose proof (batch_loop_all (fun blk => j_alloc_bio_write blk 256) false memzero_page
    JORNAL_FILE_0_START_BLK 256 _ (j_pages (j_file_mmap s))
    ltac:(by compute) ltac:(by compute) ltac:(lia) clear_fuel) as E.
  change (256 * 256) with JOURNAL_BLK_PER_SMALL_FILE in E. rewrite E. clear E. cbn [mbind option_bind].
  assert (Hz : forall p, 0 <= p < JOURNAL_BLK_PER_SMALL_FILE ->
    foldl memzero_page (j_pages (j_file_mmap s)) (seqZ 0 JOURNAL_BLK_PER_SMALL_FILE) !! p = Some zero_page).
  { intros p Hp. rewrite <-(Z2Nat.id JOURNAL_BLK_PER_SMALL_FILE) by done.
    rewrite foldl_memzero. apply decide_True. lia. }
  do 2 eexists. split; [reflexivity|]. cbn [j_file_mmap set_mmap j_pages set_pages].
  conjs; [by rewrite length_fmap, length_seqZ|done| |by apply zero_pages_iterate|done].
  intros d b.
  pose proof (exec_writes_chunks (foldl memzero_page (j_pages (j_file_mmap s))
    (seqZ 0 JOURNAL_BLK_PER_SMALL_FILE)) d JORNAL_FILE_0_START_BLK 256 b ltac:(done) ltac:(done)) as E.
  change (Z.of_nat 256) with 256 in E. rewrite E. clear E.
  change (256 * 256) with JOURNAL_BLK_PER_SMALL_FILE.
  destruct (decide _); [|done]. by rewrite Hz by lia.
Qed.

Lemma recover_read_journal_pages d ok s :
  journal_wf s ->
  exists s', recover_read_journal d ok s = Some (s', if ok then iterate_journal s' else []) /\
    (forall q, 0 <= q < JOURNAL_BLK_PER_SMALL_FILE ->
       j_pages (j_file_mmap s') !! q = Some (default zero_page (d !! (JORNAL_FILE_0_START_BLK + q)))) /\
    j_cur_log_entry_idx (j_file_mmap s') = j_cur_log_entry_idx (j_file_mmap s).
Proof.
  intros [_ _ _ _ Hs He _]. unfold recover_read_journal, recover_read_journal_bios. rewrite Hs, He.
  replace (JORNAL_FILE_0_START_BLK + JOURNAL_BLK_PER_SMALL_FILE -! JORNAL_FILE_0_START_BLK)
    with JOURNAL_BLK_PER_SMALL_FILE by done.
  pose proof (batch_loop_all j_alloc_bio_read true (fun ps _ => ps)
    JORNAL_FILE_0_START_BLK 256 _ (j_pages (j_file_mmap s))
    ltac:(by compute) ltac:(by compute) ltac:(lia) clear_fuel) as E.
  change (256 * 256) with JOURNAL_BLK_PER_SMALL_FILE in E. rewrite E. clear E. cbn [mbind option_bind].
  rewrite decide_True by done. eexists. split; [reflexivity|]. split; [|done].
  intros q Hq. cbn [j_file_mmap set_mmap j_pages set_pages].
  pose proof (exec_reads_chunks d (j_pages (j_file_mmap s)) JORNAL_FILE_0_START_BLK 256 q
    ltac:(done) ltac:(done)) as E.
  change (Z.of_nat 256) with 256 in E. rewrite E. by apply decide_True.
Qed.

(** Reading the journal at mount fills page [q] of the mapping from journal
    block [q] for all 65536 pages, and, when the device holds the image of a
    journal containing the logs [rs] and the last read completed, recovers
    exactly [rs]. *)
Theorem recover_persisted_journal (d : disk) (s0 s : journal) (rs : list recovered) :
  journal_holds rs s0 -> journal_wf s ->
  (forall q, 0 <= q < JOURNAL_BLK_PER_SMALL_FILE ->
     d !! (JORNAL_FILE_0_START_BLK + q) = j_pages (j_file_mmap s0) !! q) ->
  exists s', recover_read_journal d true s = Some (s', rs) /\
    forall q, 0 <= q < JOURNAL_BLK_PER_SMALL_FILE ->
      j_pages (j_file_mmap s') !! q = d !! (JORNAL_FILE_0_START_BLK + q).
Proof.
  intros Hh Hw Hd. destruct (recover_read_journal_pages d true s Hw) as (s' & E & Hp & _).
  assert (Hpg : forall q, 0 <= q < JOURNAL_BLK_PER_SMALL_FILE ->
    j_pages (j_file_mmap s') !! q = j_pages (j_file_mmap s0) !! q).
  { intros q Hq. rewrite Hp, Hd by done.
    destruct (wf_pages _ (holds_wf _ _ Hh) q Hq) as (pg & -> & _). done. }
  exists s'. split.
  - rewrite E. by rewrite (iterate_journal_ext s' s0 Hpg), (iterate_journal_holds rs).
  - intros q Hq. by rewrite Hpg, Hd.
Qed.

(** ** Committing: the bios of [write_current_mmap_j_file] *)

Abbreviation mkw := (fun blk => j_alloc_bio_write blk 256).

(** One pass of the loop body at page [j = 256 c + r] that adds a page. *)
Lemma write_loop_step fuel start N c r trace :
  0 <= start -> start + N + 1 < 2 ^ 32 -> 0 < N ->
  0 <= c -> (0 < r <= 256 \/ c = 0 /\ r = 0) -> 2 * (256 * c + r) <= N ->
  write_loop (S fuel) (256 * c + r) (256 * c + r) (start + (256 * c + r)) (start + N) (N + 1)
    (chunk mkw start c r) trace =
  (let '(c', r', trace') := if decide (r = 256) then (c + 1, 0, trace ++ [chunk mkw start c 256])
                            else (c, r, trace) in
   write_loop fuel (256 * c' + (r' + 1)) (256 * c' + (r' + 1)) (start + (256 * c' + (r' + 1)))
     (start + N) (N + 1) (chunk mkw start c' (r' + 1)) trace').
Proof.
  intros Hs Hb HN Hc Hr Hj. cbn [write_loop].
  replace (start + N - (start + (256 * c + r))) with (N - (256 * c + r)) by lia.
  rewrite (u32_small (N - _)) by lia. rewrite (proj2 (Z.leb_le _ _)) by lia. cbn [negb].
  rewrite (proj2 (Z.eqb_neq (256 * c + r) (N + 1))) by lia.
  rewrite u32_small by lia.
  destruct (decide (r = 256)) as [->|Hne].
  - replace (256 * c + 256) with (256 * (c + 1)) by lia.
    rewrite (proj2 (Z.eqb_eq ((256 * (c + 1)) mod 256) 0)) by zdiv.
    rewrite (proj2 (Z.eqb_neq (256 * (c + 1)) 0)) by lia. cbn [negb andb].
    rewrite (chunk_open mkw), (chunk_add_first mkw). change (0 + 1) with 1.
    by rewrite <-Z.add_assoc.
  - assert (Hfull : ((256 * c + r) mod 256 =? 0) && negb (256 * c + r =? 0) = false).
    { destruct Hr as [Hr|[-> ->]]; [|done].
      rewrite (proj2 (Z.eqb_neq ((256 * c + r) mod 256) 0)) by zdiv. done. }
    rewrite Hfull, (chunk_add mkw) by lia. by rewrite <-!Z.add_assoc.
Qed.

(** The loop over more than one block stops half-way, after page [N / 2],
    with only the complete chunks before it submitted. *)
Lemma write_loop_spec fuel start N c r trace :
  0 <= start -> start + N + 1 < 2 ^ 32 -> 0 < N ->
  0 <= c -> (0 < r <= 256 \/ c = 0 /\ r = 0) -> 256 * c + r <= N / 2 + 1 ->
  N / 2 + 2 - (256 * c + r) <= Z.of_nat fuel ->
  write_loop fuel (256 * c + r) (256 * c + r) (start + (256 * c + r)) (start + N) (N + 1)
    (chunk mkw start c r) trace =
  Some (start + N / 2 + 1,
        trace ++ ((fun i => chunk mkw start i 256) <$> seqZ c (N / 2 / 256 - c))).
Proof.
  intros Hs Hb HN. revert c r trace.
  induction fuel as [|fuel IH]; intros c r trace Hc Hr Hj Hf; [lia|].
  destruct (decide (256 * c + r = N / 2 + 1)) as [Hend|Hmore].
  - cbn [write_loop].
    replace (start + N - (start + (256 * c + r))) with (N - (256 * c + r)) by lia.
    rewrite (u32_small (N - _)) by zdiv. rewrite (proj2 (Z.leb_gt _ _)) by zdiv. cbn [negb].
    f_equal. f_equal; [lia|]. rewrite seqZ_nil by zdiv. simpl. by rewrite app_nil_r.
  - rewrite write_loop_step by (try done; zdiv).
    destruct (decide (r = 256)) as [->|Hne].
    + rewrite IH by zdiv. rewrite <-app_assoc, (seqZ_cons c) by zdiv.
      replace (Z.succ c) with (c + 1) by lia.
      by replace (Z.pred (N / 2 / 256 - c)) with (N / 2 / 256 - (c + 1)) by lia.
    + rewrite IH by zdiv. done.
Qed.

(** The number of blocks after the first in-use one up to the current entry. *)
Definition pending_blocks (s : journal) : Z :=
  JORNAL_FILE_0_START_BLK + j_cur_log_entry_idx (j_file_mmap s) / 32
  - j_cur_file_first_inused_blk (j_file_mmap s).

(** The state a commit leaves: the first in-use block is the block of the
    current entry, and [used] has been added to the space accounting. *)
Definition committed (s : journal) (used : Z) : journal :=
  set_on_disk
    (set_mmap (set_lock s false)
       (set_state_idx (j_file_mmap s) (j_file_state (j_file_mmap s)) (j_cur_log_entry_idx (j_file_mmap s))
          (JORNAL_FILE_0_START_BLK + j_cur_log_entry_idx (j_file_mmap s) / 32)))
    {| total_file_size := total_file_size (g_on_disk_j_file s);
       used_file_size := u32 (used_file_size (g_on_disk_j_file s) + used) |}.

Lemma committed_wf s used : journal_wf s -> journal_wf (committed s used).
Proof.
  intros [Hp Hi Hl Hst Hs He Hf]. constructor; simpl; try done.
  split; [|lia]. destruct Hi. unfold JORNAL_FILE_0_START_BLK. zdiv.
Qed.

(** The commit when logs wait, in terms of the loop. *)
Lemma write_current_unfold s : journal_wf s ->
  j_file_state (j_file_mmap s) = J_PARTIAL_FILE_WAIT_COMMIT ->
  let N := pending_blocks s in
  let first := j_cur_file_first_inused_blk (j_file_mmap s) in
  write_current_mmap_j_file s =
  ('(start', trace) ← write_loop (Z.to_nat (N + 1) + 2) 0 0 first (first + N) (N + 1) (mkw first) [];
   Some (committed s (u32 (first + N - start' + 1) * PAGE_SIZE), trace)).
Proof.
  intros [Hp Hi Hl Hst Hs He Hf] Hpart N first. unfold write_current_mmap_j_file, spin_lock.
  rewrite Hl. cbn [mbind option_bind spin_unlock set_lock j_file_mmap g_on_disk_j_file].
  rewrite decide_True by auto. rewrite Hs.
  assert (E : J_LOG_ENTRY_TO_BLK (j_cur_log_entry_idx (j_file_mmap s)) +! JORNAL_FILE_0_START_BLK
              = first + N).
  { subst N first. unfold pending_blocks, J_LOG_ENTRY_TO_BLK, J_LOG_ENTRY_PER_BLOCK.
    destruct Hi as [Hi1 Hi2]. unfold J_LOG_ENTRY_PER_FILE in Hi2.
    rewrite (u32_small (j_cur_log_entry_idx _)) by lia. unfold JORNAL_FILE_0_START_BLK,
      JOURNAL_FILE_START_ADDR, F2FSJ_SB_BLOCK1_ADDR in *. rewrite u32_small by zdiv. lia. }
  rewrite E. change (j_cur_file_first_inused_blk (j_file_mmap s)) with first.
  replace (first + N - first + 1) with (N + 1) by lia.
  rewrite (u32_small (N + 1)).
  2: { subst N first. unfold pending_blocks in *. destruct Hi as [Hi1 Hi2].
       unfold J_LOG_ENTRY_PER_FILE, JORNAL_FILE_0_START_BLK, JOURNAL_FILE_START_ADDR,
         F2FSJ_SB_BLOCK1_ADDR in *. zdiv. }
  destruct (write_loop _ _ _ _ _ _ _ _) as [[st tr]|]; [|done]. cbn [mbind option_bind].
  unfold committed. rewrite Hpart.
  replace (JORNAL_FILE_0_START_BLK + j_cur_log_entry_idx (j_file_mmap s) / 32) with (first + N)
    by (subst N first; unfold pending_blocks; lia). done.
Qed.

Lemma pending_bounds s : journal_wf s ->
  0 <= pending_blocks s < JOURNAL_BLK_PER_SMALL_FILE /\
  0 <= j_cur_file_first_inused_blk (j_file_mmap s) /\
  j_cur_file_first_inused_blk (j_file_mmap s) + pending_blocks s + 1 < 2 ^ 32.
Proof.
  intros [_ [Hi1 Hi2] _ _ _ _ Hf]. unfold pending_blocks, JOURNAL_BLK_PER_SMALL_FILE,
    J_LOG_ENTRY_PER_FILE, JORNAL_FILE_0_START_BLK, JOURNAL_FILE_START_ADDR, F2FSJ_SB_BLOCK1_ADDR in *.
  zdiv.
Qed.

(** The loop over a single block: its page is added and submitted. *)
Lemma write_loop_one first : 0 <= first -> first + 1 < 2 ^ 32 ->
  write_loop (Z.to_nat (0 + 1) + 2) 0 0 first first (0 + 1) (mkw first) [] = Some (first + 1, [chunk mkw first 0 1]).
Proof.
  intros Hf0 Hf1. change (Z.to_nat (0 + 1) + 2)%nat with 3%nat.
  cbn [write_loop]. rewrite Z.sub_diag. change (u32 0) with 0. cbn [Z.leb negb].
  change (0 <=? 0) with true. change (0 =? 0 + 1) with false.
  change (0 mod 256 =? 0) with true. change (0 =? 0) with true. cbn [andb negb].
  replace (mkw first) with (chunk mkw first 0 0) by (rewrite <-(chunk_open mkw); f_equal; lia).
  rewrite (chunk_add_first mkw _ 0). rewrite (u32_small (first + 1)) by lia.
  replace (first - (first + 1)) with (-1) by lia. change (0 + 1 <=? u32 (-1)) with true.
  change (0 + 1 =? 0 + 1) with true. done.
Qed.

(** The loop over more than one block. *)
Lemma write_loop_many first N : 0 < N -> 0 <= first -> first + N + 1 < 2 ^ 32 ->
  write_loop (Z.to_nat (N + 1) + 2) 0 0 first (first + N) (N + 1) (mkw first) [] =
  Some (first + N / 2 + 1, (fun i => chunk mkw first i 256) <$> seqZ 0 (N / 2 / 256)).
Proof.
  intros HN Hf0 Hf1. pose proof (write_loop_spec (Z.to_nat (N + 1) + 2) first N 0 0 []) as E.
  rewrite <-(chunk_open mkw), !Z.mul_0_r, !Z.add_0_r in E.
  cbv beta in E |- *. rewrite E by (try lia; zdiv). by rewrite Z.sub_0_r.
Qed.

(** A commit always returns; it only moves the commit point and the space
    accounting. *)
Lemma write_current_total s : journal_wf s ->
  exists s' trace, write_current_mmap_j_file s = Some (s', trace) /\ journal_wf s' /\
    j_pages (j_file_mmap s') = j_pages (j_file_mmap s) /\ entry_live s' = entry_live s.
Proof.
  intros Hw. destruct (decide (j_file_state (j_file_mmap s) = J_PARTIAL_FILE_WAIT_COMMIT)) as [Hst|Hst].
  - destruct (pending_bounds s Hw) as (HB & Hf0 & Hf1). rewrite write_current_unfold by done.
    assert (Hl : exists r, write_loop (Z.to_nat (pending_blocks s + 1) + 2) 0 0
      (j_cur_file_first_inused_blk (j_file_mmap s)) (j_cur_file_first_inused_blk (j_file_mmap s) + pending_blocks s)
      (pending_blocks s + 1) (mkw (j_cur_file_first_inused_blk (j_file_mmap s))) [] = Some r).
    { destruct (decide (pending_blocks s = 0)) as [E|E].
      - rewrite E, Z.add_0_r in *. rewrite write_loop_one by lia. eauto.
      - rewrite write_loop_many by lia. eauto. }
    destruct Hl as [[st tr] ->]. cbn [mbind option_bind]. do 2 eexists. split; [reflexivity|].
    by conjs; [apply committed_wf|..].
  - exists (set_lock s false), []. unfold write_current_mmap_j_file, spin_lock. rewrite (wf_unlocked _ Hw).
    cbn [mbind option_bind spin_unlock set_lock j_file_mmap]. rewrite decide_False.
    + conjs; [done| |done|done]. destruct Hw. by constructor.
    + intros [C|C]; [by apply (wf_state _ Hw)|done].
Qed.

(** A commit while all waiting logs are in one block returns, keeps the
    journal well-formed and submits exactly one write, of page 0 of the mapping,
    to the first in-use block; the space accounting does not change.  When
    that block is the first of the journal, the device then holds the page
    with the waiting logs. *)
Theorem commit_one_block (s : journal) :
  journal_wf s -> j_file_state (j_file_mmap s) = J_PARTIAL_FILE_WAIT_COMMIT ->
  pending_blocks s = 0 -> 0 <= used_file_size (g_on_disk_j_file s) < 2 ^ 32 ->
  exists s' trace, write_current_mmap_j_file s = Some (s', trace) /\ journal_wf s' /\
    trace = [chunk mkw (j_cur_file_first_inused_blk (j_file_mmap s)) 0 1] /\
    used_file_size (g_on_disk_j_file s') = used_file_size (g_on_disk_j_file s) /\
    (forall d : disk, exec_writes (j_pages (j_file_mmap s)) trace d
                        !! j_cur_file_first_inused_blk (j_file_mmap s)
                      = Some (default zero_page (j_pages (j_file_mmap s) !! 0))).
Proof.
  intros Hw Hst HN Hu. destruct (pending_bounds s Hw) as (_ & Hf0 & Hf1).
  rewrite write_current_unfold by done. rewrite HN in *.
  set (first := j_cur_file_first_inused_blk (j_file_mmap s)) in *.
  replace (first + 0) with first in * by lia. rewrite write_loop_one by lia. cbn [mbind option_bind].
  replace (u32 (first - (first + 1) + 1) * PAGE_SIZE) with 0
    by (replace (first - (first + 1) + 1) with 0 by lia; done).
  do 2 eexists. split; [reflexivity|]. conjs; [by apply committed_wf|done| |].
  - simpl. rewrite Z.add_0_r. by apply u32_small.
  - intros d. unfold exec_writes, bio_write, chunk. cbn [foldl bi_sector bi_pages j_alloc_bio_write].
    rewrite sector_block by lia. change (seqZ (256 * 0) 1) with [0]. cbn [write_pages].
    replace (first + 256 * 0) with first by lia. apply lookup_insert_eq.
Qed.

(** C35: A commit whose waiting logs span [N + 1 > 1] blocks returns and keeps
    the journal well-formed, but its loop stops after page [N / 2]: the only
    writes submitted are the complete 256-page chunks below it.  With fewer
    than 512 blocks waiting nothing at all is submitted, although the commit
    point moves past them and half of their size is accounted as used. *)
Theorem commit_many_blocks (s : journal) :
  journal_wf s -> j_file_state (j_file_mmap s) = J_PARTIAL_FILE_WAIT_COMMIT ->
  0 < pending_blocks s ->
  let N := pending_blocks s in
  exists s' trace, write_current_mmap_j_file s = Some (s', trace) /\ journal_wf s' /\
    trace = ((fun i => chunk mkw (j_cur_file_first_inused_blk (j_file_mmap s)) i 256)
              <$> seqZ 0 (N / 2 / 256)) /\
    (N < 512 -> trace = []) /\
    pending_blocks s' = 0 /\
    used_file_size (g_on_disk_j_file s')
    = u32 (used_file_size (g_on_disk_j_file s) + (N - N / 2) * PAGE_SIZE).
Proof.
  intros Hw Hst HN N. destruct (pending_bounds s Hw) as (HB & Hf0 & Hf1).
  rewrite write_current_unfold by done. fold N in HN, HB, Hf1 |- *.
  set (first := j_cur_file_first_inused_blk (j_file_mmap s)) in *.
  rewrite write_loop_many by lia. cbn [mbind option_bind].
  do 2 eexists. split; [reflexivity|]. conjs; [by apply committed_wf|done| | |].
  - intros H512. rewrite seqZ_nil by zdiv. done.
  - unfold pending_blocks, committed. simpl. lia.
  - simpl. do 2 f_equal. rewrite u32_small by (unfold JOURNAL_BLK_PER_SMALL_FILE in *; zdiv). lia.
Qed.

(** ** The freshly mapped journal *)

Lemma mapped_page (alloc : Z -> list Z) p : 0 <= p < JOURNAL_BLK_PER_SMALL_FILE ->
  mapped_pages alloc !! p = Some (alloc p).
Proof.
  intros Hp. unfold mapped_pages. apply elem_of_list_to_map_1.
  - rewrite <-list_fmap_compose. unfold compose. cbn [fst]. rewrite list_fmap_id. apply NoDup_seqZ.
  - apply list_elem_of_fmap. exists p. split; [done|]. apply elem_of_seqZ. lia.
Qed.

#[global] Opaque mapped_pages.

Lemma mmap_journal_file_wf alloc s :
  memap_lock s = false -> (forall p, length (alloc p) = 4096%nat) ->
  journal_wf (mmap_journal_file alloc s).
Proof.
  intros Hl Ha. constructor; simpl; try done.
  intros p Hp. exists (alloc p). split; [by apply mapped_page | apply Ha].
Qed.

(** A mapping of zero pages holds no log. *)
Lemma mmap_journal_file_holds s :
  memap_lock s = false -> journal_holds [] (mmap_journal_file (fun _ => zero_page) s).
Proof.
  intros Hl. constructor; [by apply mmap_journal_file_wf|done|done|done|].
  intros i Hi. apply zero_page_slot; [split; simpl in Hi; lia|].
  apply mapped_page, slot_in_page. split; simpl in Hi; lia.
Qed.

Lemma journal_wf_pages s ps : journal_wf s -> pages_ok ps ->
  journal_wf (set_mmap s (set_pages (j_file_mmap s) ps)).
Proof. intros [] Hp. by constructor. Qed.

Lemma journal_wf_state_idx s st idx first : journal_wf s -> st <> J_WHOLE_FILE_WAIT_COMMIT -> idx_ok idx ->
  JORNAL_FILE_0_START_BLK <= first <= JORNAL_FILE_0_START_BLK + idx / 32 ->
  journal_wf (set_mmap s (set_state_idx (j_file_mmap s) st idx first)).
Proof. intros [] Hs Hi Hf. by constructor. Qed.

Lemma journal_wf_static s b d : journal_wf s -> journal_wf (set_on_disk (set_jsb s b) d).
Proof. intros []. by constructor. Qed.

(** Reading the journal changes nothing but the pages. *)
Lemma recover_read_journal_frame d ok s s' logs :
  recover_read_journal d ok s = Some (s', logs) ->
  exists ps, s' = set_mmap s (set_pages (j_file_mmap s) ps).
Proof.
  unfold recover_read_journal. destruct (recover_read_journal_bios s) as [[tr ret]|]; [|done].
  cbn [mbind option_bind]. destruct (decide (ret = F2FSJ_OK)); intros [= <- _]; eauto.
Qed.

#[local] Opaque iterate_journal recover_read_journal.

(** Mounting maps the 65536 pages, fills them from the device and hands the
    logs of the longest valid prefix to the recovery: with a readable super
    block and slab cache the initialisation succeeds, leaves the allocator at
    entry 0 with the whole journal accounted free, the pages equal to the
    device blocks, and rewrites the super block exactly when its magic is
    wrong. *)
Theorem init_journal_correct (sb : j_jsb_info_t) (alloc : Z -> list Z) (d : disk) (s : journal) :
  (forall p, length (alloc p) = 4096%nat) ->
  (forall b pg, d !! b = Some pg -> length pg = 4096%nat) ->
  exists s' wb logs, init_journal_file_info (Some sb) true alloc d true s = Some (s', wb, logs, F2FSJ_OK) /\
    journal_wf s' /\ logs = iterate_journal s' /\
    (forall q, 0 <= q < JOURNAL_BLK_PER_SMALL_FILE ->
      j_pages (j_file_mmap s') !! q = Some (default zero_page (d !! (JORNAL_FILE_0_START_BLK + q)))) /\
    j_cur_log_entry_idx (j_file_mmap s') = 0 /\
    get_on_disk_free_journal_space s' = JOURNAL_FILE_SIZE /\
    (wb = None <-> j_magic_num sb = JOURNAL_FILE_MAGIC_NUMBER).
Proof.
  intros Ha Hd. unfold init_journal_file_info. cbn [negb].
  set (s1 := mmap_journal_file alloc _).
  assert (Hw : journal_wf s1) by (by apply mmap_journal_file_wf).
  destruct (recover_read_journal_pages d true s1 Hw) as (s2 & E & Hp & Hi). rewrite E.
  destruct (recover_read_journal_frame d true s1 s2 _ E) as [ps ->]. cbn [mbind option_bind].
  do 3 eexists. split; [reflexivity|]. conjs; [|by apply iterate_journal_ext|exact Hp|done|done|].
  - apply journal_wf_static, journal_wf_pages; [done|]. intros p Hr.
    exists (default zero_page (d !! (JORNAL_FILE_0_START_BLK + p))).
    split; [by apply Hp|]. destruct (d !! _) eqn:El; [by eapply Hd | done].
  - clear. destruct (Z.eqb_spec (j_magic_num sb) JOURNAL_FILE_MAGIC_NUMBER); split; congruence.
Qed.
