(* ===== verification/EpochCommit.v ===== *)
(** * Epoch commit and the journal threads (j_epoch_commit.c, j_epoch_process.c,
    aggregate_per_ino_log of j_log_operate.c)

    The whole journal layer as one state: the file operations append logs and
    queue them on inodes, the commit thread switches epochs and commits the
    waiting ones, the checkpoint thread applies and frees. *)

From S2P Require Import Prelude LogContent Epoch JournalFile JournalSlots JournalReplay JournalIO InodeLog JCheckpoint.

(** [log_objs] is the set of the [j_log_entry_t] objects of the slab in use,
    [sys_io] the bios submitted so far, [commt_thread_cnt], [is_clean_jfile]
    and [cp_thread_cnt] the counters of the two threads. *)
Record jsys := {
  sys_ep : epochs;
  sys_inodes : gmap Z j_inode;
  sys_j : journal;
  sys_cp : checkpoint;
  log_objs : gset Z;
  sys_io : list bio;
  commt_thread_cnt : Z;
  is_clean_jfile : bool;
  cp_thread_cnt : Z
}.

Definition with_ep (s : jsys) (e : epochs) : jsys :=
  {| sys_ep := e; sys_inodes := sys_inodes s; sys_j := sys_j s; sys_cp := sys_cp s; log_objs := log_objs s;
     sys_io := sys_io s; commt_thread_cnt := commt_thread_cnt s; is_clean_jfile := is_clean_jfile s;
     cp_thread_cnt := cp_thread_cnt s |}.
Definition with_inode (s : jsys) (ino : Z) (fi : j_inode) : jsys :=
  {| sys_ep := sys_ep s; sys_inodes := <[ino := fi]> (sys_inodes s); sys_j := sys_j s; sys_cp := sys_cp s;
     log_objs := log_objs s; sys_io := sys_io s; commt_thread_cnt := commt_thread_cnt s;
     is_clean_jfile := is_clean_jfile s; cp_thread_cnt := cp_thread_cnt s |}.
Definition with_journal (s : jsys) (j : journal) (objs : gset Z) (io : list bio) : jsys :=
  {| sys_ep := sys_ep s; sys_inodes := sys_inodes s; sys_j := j; sys_cp := sys_cp s; log_objs := objs;
     sys_io := io; commt_thread_cnt := commt_thread_cnt s; is_clean_jfile := is_clean_jfile s;
     cp_thread_cnt := cp_thread_cnt s |}.
Definition with_cp (s : jsys) (c : checkpoint) : jsys :=
  {| sys_ep := sys_ep s; sys_inodes := sys_inodes s; sys_j := sys_j s; sys_cp := c; log_objs := log_objs s;
     sys_io := sys_io s; commt_thread_cnt := commt_thread_cnt s; is_clean_jfile := is_clean_jfile s;
     cp_thread_cnt := cp_thread_cnt s |}.
Definition with_threads (s : jsys) (cnt : Z) (clean : bool) (cp : Z) : jsys :=
  {| sys_ep := sys_ep s; sys_inodes := sys_inodes s; sys_j := sys_j s; sys_cp := sys_cp s; log_objs := log_objs s;
     sys_io := sys_io s; commt_thread_cnt := cnt; is_clean_jfile := clean; cp_thread_cnt := cp |}.

Section sys.
Context `{F2fsFsInline}.
Context (kmem : nat -> bool) (writepages : Z -> Z).

(** ** File operations *)

(** The journal section of [f2fs_create] and [f2fs_mkdir]: [p] is the address
    of the log entry object that the slab returned and [raw] its contents.  An
    inode that is not in memory yet is allocated with its journal fields. *)
Definition log_and_queue (p : Z) (raw : j_log_entry_t) (ino : Z) (img : list Z) (s : jsys) : option (jsys * insert_result) :=
  '(j, e) ← append_log (Some raw) img (sys_j s);
  let s := with_journal s j ({[p]} ∪ log_objs s) (sys_io s) in
  let fi := default f2fs_alloc_inode (sys_inodes s !! ino) in
  '(ep, fi, r) ← insert_log_into_inode ino {| ln_ptr := p; ln_entry := e |} (sys_ep s) fi;
  Some (with_inode (with_ep s ep) ino fi, r).

(** The journal section of [f2fs_unlink]: the log is written and not queued. *)
Definition log_only (p : Z) (raw : j_log_entry_t) (img : list Z) (s : jsys) : option jsys :=
  '(j, _) ← append_log (Some raw) img (sys_j s);
  Some (with_journal s j ({[p]} ∪ log_objs s) (sys_io s)).

(** ** Commit of one inode *)

(** [list_del] of a log entry. *)
Definition unlink_log (n : log_node) (ep : j_ino_local_epoch_t) : option j_ino_local_epoch_t :=
  if decide (ln_ptr n ∈ ln_ptr <$> inode_log_list ep)
  then Some (set_log_list ep (filter (fun m => ln_ptr m <> ln_ptr n) (inode_log_list ep)))
  else None.

(** The loop of [aggregate_per_ino_log] over the logs of local list [l]. *)
Fixpoint aggregate_logs (ino : Z) (h : nat) (l : Z) (ns : list log_node) (s : jsys) : option jsys :=
  match ns with
  | [] => Some s
  | n :: ns =>
      let bs := jmem_read (j_pages (j_file_mmap (sys_j s))) (log_entry_addr (ln_entry n)) 128 in
      let '(c, _) := get_cp_info_from_log kmem writepages ino h bs (sys_cp s) in
      let s := with_cp s c in
      fi ← sys_inodes s !! ino;
      ep ← local_at fi l;
      ep ← unlink_log n ep;
      let s := with_inode s ino (upd_local fi l ep) in
      let '(j, _) := j_free_log_entry (Some (ln_entry n)) (sys_j s) in
      let s := with_journal s j (log_objs s ∖ {[ln_ptr n]}) (sys_io s) in
      aggregate_logs ino h l ns s
  end.

Definition aggregate_per_ino_log (ino : Z) (h : nat) (global_ep_idx local_log_list_idx : Z) (s : jsys) : option jsys :=
  if MAX_GLOBAL_EP_NUM <=? local_log_list_idx then Some s
  else
    fi ← sys_inodes s !! ino;
    ep ← local_at fi local_log_list_idx;
    s ← aggregate_logs ino h local_log_list_idx (inode_log_list ep) s;
    e ← epoch_at (sys_ep s) global_ep_idx;
    inos ← list_del ino (global_ino_epoch_list e);
    Some (with_ep s (upd_epoch (sys_ep s) global_ep_idx (set_inos e inos))).

(** The body of the inode loop of [epoch_commit]. *)
Definition commit_inode (h : nat) (global_ep_idx ino : Z) (s : jsys) : option jsys :=
  fi ← sys_inodes s !! ino;
  local_ep_idx ← g2l_at fi global_ep_idx;
  if MAX_GLOBAL_EP_NUM <=? local_ep_idx then Some s
  else
    ep ← local_at fi local_ep_idx;
    let fi := upd_local fi local_ep_idx (update_ino_epoch_status ep (epoch_status_code EPOCH_COMMITING)) in
    let s := with_inode s ino (set_active fi NONE_EPOCH) in
    s ← aggregate_per_ino_log ino h global_ep_idx local_ep_idx s;
    fi ← sys_inodes s !! ino;
    ep ← local_at fi local_ep_idx;
    Some (with_inode s ino (upd_local fi local_ep_idx (update_ino_epoch_status ep LOG_LIST_IDLE))).

Fixpoint commit_inodes (h : nat) (global_ep_idx : Z) (inos : list Z) (s : jsys) : option jsys :=
  match inos with
  | [] => Some s
  | ino :: inos => s ← commit_inode h global_ep_idx ino s; commit_inodes h global_ep_idx inos s
  end.

(** ** Commit of the waiting epochs *)

Definition set_epoch_status (s : jsys) (g : Z) (st : epoch_status_e) : option jsys :=
  e ← epoch_at (sys_ep s) g; Some (with_ep s (upd_epoch (sys_ep s) g (set_status e st))).

(** The body of the epoch loop of [epoch_commit]; an allocation failure
    returns from the whole function ([F2FSJ_ERROR]). *)
Definition commit_epoch (g : Z) (s : jsys) : option (jsys * return_value_e) :=
  s ← set_epoch_status s g EPOCH_COMMITING;
  let '(c, head, _) := alloc_log_cp_head_node_memory kmem (sys_cp s) in
  match head with
  | None => Some (with_cp s c, F2FSJ_ERROR)
  | Some head =>
      let h := length (g_checkpoint_list c) in
      let '(c, _) := insert_cp_info_list_head_2_g_cp_list head c in
      let s := with_cp s c in
      e ← epoch_at (sys_ep s) g;
      s ← commit_inodes h (g_epoch_type e) (global_ino_epoch_list e) s;
      '(j, trace) ← write_current_mmap_j_file (sys_j s);
      let s := with_journal s j (log_objs s) (sys_io s ++ trace) in
      l ← list_del g (to_be_commit_list (sys_ep s));
      let s := with_ep s (set_commit_list (sys_ep s) l) in
      s ← set_epoch_status s g EPOCH_IDLE;
      Some (s, F2FSJ_OK)
  end.

Fixpoint commit_epochs (gs : list Z) (s : jsys) : option (jsys * return_value_e) :=
  match gs with
  | [] => Some (s, F2FSJ_OK)
  | g :: gs =>
      '(s, ret) ← commit_epoch g s;
      if decide (ret = F2FSJ_OK) then commit_epochs gs s else Some (s, F2FSJ_ERROR)
  end.

Definition epoch_commit (s : jsys) : option (jsys * return_value_e) :=
  if is_g_commit_ep_empty (sys_ep s) then Some (s, F2FSJ_OK)
  else commit_epochs (to_be_commit_list (sys_ep s)) s.

(** ** The threads: one iteration of each loop *)

Definition J_COMMIT_INTERVAL : Z := 5.

Definition sys_trigger (s : jsys) : option jsys :=
  '(ep, _) ← trigger_epoch_commit (sys_ep s); Some (with_ep s ep).

Definition j_ep_commit_kthread_tick (s : jsys) : option jsys :=
  let s := with_threads s (u64 (commt_thread_cnt s + 1)) (is_clean_jfile s) (cp_thread_cnt s) in
  s ← (if is_clean_jfile s then Some s
       else '(j, trace) ← clear_journal_file_after_recovery (sys_j s);
            let s := with_journal s j (log_objs s) (sys_io s ++ trace) in
            Some (with_threads s (commt_thread_cnt s) true (cp_thread_cnt s)));
  if commt_thread_cnt s mod J_COMMIT_INTERVAL =? 0
  then s ← sys_trigger s;
       if is_g_commit_ep_empty (sys_ep s) then Some s
       else '(s, _) ← epoch_commit s; Some s
  else Some s.

Definition sys_checkpoint (s : jsys) : jsys :=
  let '(c, j, _) := epoch_checkpoint (sys_cp s) (sys_j s) in
  with_journal (with_cp s c) j (log_objs s) (sys_io s).

(** The comparison with [(0.05) * JOURNAL_FILE_SIZE] is one of doubles, both
    exact up to the product, whose double is just above 13421772.8. *)
Definition j_checkpoint_kthread_tick (s : jsys) : jsys :=
  let s := with_threads s (commt_thread_cnt s) (is_clean_jfile s) (u64 (cp_thread_cnt s + 1)) in
  let free := get_on_disk_free_journal_space (sys_j s) in
  if free =? 0 then s
  else
    let s := if 20 * free <=? JOURNAL_FILE_SIZE
             then if is_g_checkpoint_cp_list_empty (sys_cp s) then s else sys_checkpoint s
             else s in
    if cp_thread_cnt s mod 3 =? 0
    then if is_g_checkpoint_cp_list_empty (sys_cp s) then s else sys_checkpoint s
    else s.
End sys.
