(* ===== verification/CommitProps.v ===== *)
(** * Correctness of the epoch commit

    The invariant of the journal layer, and its preservation by the file
    operations, the epoch switch, the commit and the checkpoint. *)

From S2P Require Import Prelude LogContent Epoch JournalFile JournalSlots JournalReplay JournalIO InodeLog.
From S2P Require Import JCheckpoint EpochCommit.

Section props.
Context `{F2fsFsInline}.
Context (kmem : nat -> bool) (writepages : Z -> Z).

(** ** The records a list of logs leaves on a head *)

Definition log_image (ps : gmap Z (list Z)) (n : log_node) : list Z := jmem_read ps (log_entry_addr (ln_entry n)) 128.

Definition collect (ino : Z) (h : nat) (imgs : list (list Z)) (c : checkpoint) : checkpoint :=
  foldl (fun c bs => (get_cp_info_from_log kmem writepages ino h bs c).1) c imgs.

(** The closed form of the state after [aggregate_logs]. *)
Definition aggregated (ino : Z) (h : nat) (l : Z) (fi : j_inode) (ep : j_ino_local_epoch_t) (s : jsys) : jsys :=
  let ns := inode_log_list ep in
  let j := sys_j s in
  with_journal
    (with_inode (with_cp s (collect ino h (log_image (j_pages (j_file_mmap j)) <$> ns) (sys_cp s)))
       ino (upd_local fi l (set_log_list ep [])))
    (set_live j (entry_live j - Z.of_nat (length ns))) (log_objs s ∖ list_to_set (ln_ptr <$> ns)) (sys_io s).

Lemma unlink_log_head n ns ep : inode_log_list ep = n :: ns -> NoDup (ln_ptr <$> (n :: ns)) ->
  unlink_log n ep = Some (set_log_list ep ns).
Proof.
  intros E Hn. unfold unlink_log. rewrite E, fmap_cons in *. apply list.NoDup_cons in Hn as [Hn Hnd].
  rewrite decide_True by set_solver. do 2 f_equal.
  rewrite filter_cons_False by (intros C; apply C; done). clear E Hnd.
  induction ns as [|m ns IH]; [done|]. rewrite fmap_cons, not_elem_of_cons in Hn. destruct Hn as [H1 H2].
  rewrite filter_cons_True by congruence. by rewrite IH.
Qed.

Lemma upd_local_twice fi l e1 e2 : upd_local (upd_local fi l e1) l e2 = upd_local fi l e2.
Proof. unfold upd_local. simpl. by rewrite list_insert_insert_eq. Qed.
Lemma upd_local_id fi l ep : local_at fi l = Some ep -> upd_local fi l ep = fi.
Proof. intros E. unfold upd_local. rewrite list_insert_id by done. by destruct fi. Qed.

Lemma aggregate_logs_eq ino h l fi ep s :
  sys_inodes s !! ino = Some fi -> 0 <= l < Z.of_nat (length (j_ino_log_list fi)) -> local_at fi l = Some ep ->
  NoDup (ln_ptr <$> inode_log_list ep) ->
  aggregate_logs kmem writepages ino h l (inode_log_list ep) s = Some (aggregated ino h l fi ep s).
Proof.
  remember (inode_log_list ep) as ns eqn:Ens. symmetry in Ens. revert fi ep s Ens.
  induction ns as [|n ns IH]; intros fi ep s Ens Efi Hl Eep Hnd; cbn [aggregate_logs].
  - f_equal. unfold aggregated. rewrite Ens. simpl. unfold set_log_list. rewrite <-Ens at 1.
    replace {| log_list_status := log_list_status ep; inode_log_list := inode_log_list ep |} with ep by (by destruct ep).
    rewrite upd_local_id by done. destruct s as [? inos j c objs]. simpl in *.
    unfold with_journal, with_inode, with_cp. simpl. f_equal; [by rewrite insert_id| |set_solver].
    destruct j. unfold set_live. simpl. f_equal. lia.
  - destruct (get_cp_info_from_log _ _ _ _ _ _) as [c r] eqn:Ec. cbn [with_cp sys_inodes]. rewrite Efi.
    cbn [mbind option_bind]. rewrite Eep. cbn [mbind option_bind].
    rewrite (unlink_log_head n ns) by done. cbn [mbind option_bind j_free_log_entry].
    set (ep' := set_log_list ep ns). set (s' := with_journal _ _ _ _).
    rewrite (IH (upd_local fi l ep') ep' s'); [|done|by apply lookup_insert_eq|simpl; by rewrite length_insert| |].
    + f_equal. unfold aggregated. rewrite Ens. cbn [inode_log_list ep' set_log_list].
      subst s'. unfold with_journal, with_inode, with_cp. cbn -[Z.of_nat]. f_equal.
      * rewrite insert_insert_eq. f_equal. by rewrite upd_local_twice.
      * unfold set_live. cbn -[Z.of_nat]. f_equal. lia.
      * unfold log_image in *. by rewrite Ec.
      * set_solver.
    + rewrite local_upd by lia. by rewrite decide_True.
    + by apply list.NoDup_cons in Hnd as [_ ?].
Qed.

(** ** The invariant of the journal layer

    [ages] describes the waiting epochs.  The registered inodes are in memory
    and consistent with their registrations; every queued log is an object in
    use that is queued once; an epoch with registrations is running or
    waiting. *)
Record sys_inv (ages : list Z) (s : jsys) : Prop := {
  inv_ep : epochs_wf ages (sys_ep s);
  inv_nodup : inos_nodup (sys_ep s);
  inv_reg : forall ino g, registered (sys_ep s) ino g -> is_Some (sys_inodes s !! ino);
  inv_open : forall ino g, registered (sys_ep s) ino g ->
               g = g_running_ep (sys_ep s) \/ g ∈ to_be_commit_list (sys_ep s);
  inv_inodes : forall ino fi, sys_inodes s !! ino = Some fi -> inode_wf (registered (sys_ep s) ino) fi;
  inv_ptr : forall ino fi, sys_inodes s !! ino = Some fi -> NoDup (ln_ptr <$> all_logs fi);
  inv_live : forall ino fi p, sys_inodes s !! ino = Some fi -> p ∈ ln_ptr <$> all_logs fi -> p ∈ log_objs s;
  inv_disj : forall ino ino' fi fi' p, sys_inodes s !! ino = Some fi -> sys_inodes s !! ino' = Some fi' ->
               p ∈ ln_ptr <$> all_logs fi -> p ∈ ln_ptr <$> all_logs fi' -> ino = ino';
  inv_j : journal_wf (sys_j s);
  inv_cp : exists leaked, checkpoint_wf leaked (sys_cp s)
}.

(** ** One inode *)

(** The inode after its local list [l] was committed. *)
Definition drained (fi : j_inode) (l : Z) : j_inode :=
  upd_local (set_active fi NONE_EPOCH) l {| log_list_status := LOG_LIST_IDLE; inode_log_list := [] |}.

Definition committed_inode (h : nat) (g ino l : Z) (fi : j_inode) (ep : j_ino_local_epoch_t)
    (e : global_epoch_t) (rest : list Z) (s : jsys) : jsys :=
  let ns := inode_log_list ep in
  {| sys_ep := upd_epoch (sys_ep s) g (set_inos e rest); sys_inodes := <[ino := drained fi l]> (sys_inodes s);
     sys_j := set_live (sys_j s) (entry_live (sys_j s) - Z.of_nat (length ns));
     sys_cp := collect ino h (log_image (j_pages (j_file_mmap (sys_j s))) <$> ns) (sys_cp s);
     log_objs := log_objs s ∖ list_to_set (ln_ptr <$> ns); sys_io := sys_io s;
     commt_thread_cnt := commt_thread_cnt s; is_clean_jfile := is_clean_jfile s; cp_thread_cnt := cp_thread_cnt s |}.

Lemma commit_inode_eq h g ino l fi ep e rest s :
  sys_inodes s !! ino = Some fi -> length (j_ino_log_list fi) = 8%nat -> g2l_at fi g = Some l -> 0 <= l < 8 ->
  local_at fi l = Some ep -> NoDup (ln_ptr <$> inode_log_list ep) ->
  epoch_at (sys_ep s) g = Some e -> global_ino_epoch_list e = ino :: rest -> ino ∉ rest ->
  commit_inode kmem writepages h g ino s = Some (committed_inode h g ino l fi ep e rest s).
Proof.
  intros Efi Hlen Eg Hl Eep Hnd Ee Einos Hnot. unfold commit_inode. rewrite Efi. cbn [mbind option_bind].
  rewrite Eg. cbn [mbind option_bind]. unfold MAX_GLOBAL_EP_NUM. replace (8 <=? l) with false by lia.
  rewrite Eep. cbn [mbind option_bind]. set (ep1 := update_ino_epoch_status ep _).
  set (fi1 := set_active (upd_local fi l ep1) NONE_EPOCH). set (s1 := with_inode s ino fi1).
  assert (Eep1 : local_at fi1 l = Some ep1).
  { transitivity (local_at (upd_local fi l ep1) l); [done|]. rewrite local_upd by lia. by rewrite decide_True. }
  assert (Efi1 : sys_inodes s1 !! ino = Some fi1) by (apply lookup_insert_eq).
  assert (Hlen1 : length (j_ino_log_list fi1) = 8%nat) by (cbn; by rewrite length_insert).
  unfold aggregate_per_ino_log, MAX_GLOBAL_EP_NUM. replace (8 <=? l) with false by lia.
  rewrite Efi1. cbn [mbind option_bind]. rewrite Eep1. cbn [mbind option_bind].
  rewrite (aggregate_logs_eq ino h l fi1 ep1 s1) by (done || lia). cbn [mbind option_bind].
  change (sys_ep (aggregated ino h l fi1 ep1 s1)) with (sys_ep s). rewrite Ee. cbn [mbind option_bind].
  rewrite Einos, list_del_head by done. cbn [mbind option_bind].
  cbn [with_ep sys_inodes aggregated with_journal with_inode with_cp]. rewrite lookup_insert_eq. cbn [mbind option_bind].
  rewrite local_upd by lia. rewrite decide_True by done. cbn [mbind option_bind]. f_equal.
  unfold committed_inode, drained, with_inode, with_ep. cbn. f_equal.
  rewrite !insert_insert_eq. f_equal. unfold upd_local. cbn. by rewrite !list_insert_insert_eq.
Qed.

Lemma drained_local fi l l' : length (j_ino_log_list fi) = 8%nat -> 0 <= l < 8 -> 0 <= l' ->
  local_at (drained fi l) l' =
  if decide (l = l') then Some {| log_list_status := LOG_LIST_IDLE; inode_log_list := [] |} else local_at fi l'.
Proof. intros Hlen Hl Hl'. unfold drained. rewrite local_upd by (cbn; lia). done. Qed.

(** Draining the local list of epoch [g] removes the registration in [g]. *)
Lemma drained_wf regs fi g l : inode_wf regs fi -> regs g -> g2l_at fi g = Some l -> 0 <= l < 8 ->
  inode_wf (fun g' => regs g' /\ g' <> g) (drained fi l).
Proof.
  intros [H1 H2 H3 H4 H5 H6 H7 H8] Hg Egl Hl.
  pose proof (fun l' => drained_local fi l l' H1 Hl) as El.
  assert (Hrange : forall g' l', g2l_at fi g' = Some l' -> 0 <= l').
  { intros g' l' E. apply (proj1 (Forall_lookup _ _) H4) in E. lia. }
  constructor; try done.
  - cbn. by rewrite length_insert.
  - intros g' [Hr Hne]. destruct (H5 g' Hr) as (Hg' & l' & ep' & E1 & Hlt & E2 & E3). split; [done|].
    exists l', ep'. rewrite El by eauto. rewrite decide_False; [done|]. intros <-. apply Hne. by apply (H6 g' g l).
  - intros g1 g2 k [R1 _] [R2 _]. by apply H6.
  - intros l' ep' Hl' E Hn. rewrite El in E by done. destruct (decide (l = l')) as [->|Hll]; [by injection E as <-|].
    apply (H7 l' ep' Hl' E). intros g' Hr E1. destruct (decide (g' = g)) as [->|Hne].
    + change (g2l_at fi g = Some l') in E1. congruence.
    + by apply (Hn g').
  - intros l' ep' Hl' E. rewrite El in E by done. destruct (decide (l = l')) as [->|Hll]; [|by apply (H8 l')].
    injection E as <-. constructor.
Qed.

Lemma drained_logs fi l ep : local_at fi l = Some ep -> all_logs fi ≡ₚ inode_log_list ep ++ all_logs (drained fi l).
Proof.
  unfold local_at, all_logs, drained, upd_local. simpl. generalize (Z.to_nat l) as k.
  induction (j_ino_log_list fi) as [|e0 ls IH]; intros [|k] E; csimpl in *; try done.
  - injection E as ->. done.
  - rewrite (IH k E). rewrite !app_assoc. by rewrite (Permutation_app_comm (inode_log_list e0)).
Qed.

Lemma registered_del s g e ino rest j g' :
  0 <= g < Z.of_nat (length (global_epoch s)) -> epoch_at s g = Some e ->
  global_ino_epoch_list e = ino :: rest -> ino ∉ rest ->
  registered (upd_epoch s g (set_inos e rest)) j g' <-> registered s j g' /\ ~ (j = ino /\ g' = g).
Proof.
  intros Hg Ee El Hn. unfold registered. split.
  - intros (Hg' & e' & E' & Hj). rewrite epoch_upd in E' by lia. destruct (decide (g = g')) as [<-|Hne].
    + injection E' as <-. simpl in Hj. split; [|by intros [-> _]]. split; [done|]. exists e. rewrite El. set_solver.
    + split; [by eauto|]. by intros [_ ->].
  - intros [(Hg' & e' & E' & Hj) Hne]. split; [done|]. rewrite epoch_upd by lia.
    destruct (decide (g = g')) as [<-|]; [|by eauto]. eexists. split; [done|]. simpl.
    assert (e' = e) as -> by congruence. rewrite El in Hj. apply elem_of_cons in Hj as [->|?]; [|done]. by destruct Hne.
Qed.

Lemma inos_nodup_del s g e ino rest : 0 <= g < Z.of_nat (length (global_epoch s)) -> inos_nodup s ->
  epoch_at s g = Some e -> global_ino_epoch_list e = ino :: rest ->
  inos_nodup (upd_epoch s g (set_inos e rest)).
Proof.
  intros Hg Hnd Ee El g' e' Hg' E'. rewrite epoch_upd in E' by lia. destruct (decide (g = g')) as [<-|]; [|by eapply Hnd].
  injection E' as <-. simpl. pose proof (Hnd g e Hg' Ee) as H0. rewrite El in H0. by apply list.NoDup_cons in H0 as [_ ?].
Qed.

(** Collecting keeps the accounting of the slabs and touches head [h] only. *)
Lemma get_cp_info_wf ino h bs c leaked : checkpoint_wf leaked c -> (h < length (g_checkpoint_list c))%nat ->
  let c' := (get_cp_info_from_log kmem writepages ino h bs c).1 in
  (exists leaked', checkpoint_wf leaked' c') /\ length (g_checkpoint_list c') = length (g_checkpoint_list c).
Proof.
  intros [Hi Hh] Hlt. unfold get_cp_info_from_log, alloc_log_cp_info_memory.
  destruct (kmem (kmem_calls c)); [|by split; [exists leaked|]].
  destruct (cp_info_of_log writepages ino bs) as [ci|].
  - cbn. rewrite length_alter. split; [|done]. exists leaked. constructor; cbn.
    + rewrite Hi. clear Hi Hh. revert h Hlt. induction (g_checkpoint_list c) as [|x l IH]; intros [|h] Hlt; cbn -[Z.of_nat] in *; try lia.
      * rewrite !length_app. simpl. lia.
      * rewrite !length_app. specialize (IH h ltac:(lia)). lia.
    + by rewrite length_alter.
  - split; [|done]. exists (leaked + 1). constructor; cbn; lia.
Qed.

Lemma collect_wf ino h imgs c leaked : checkpoint_wf leaked c -> (h < length (g_checkpoint_list c))%nat ->
  (exists leaked', checkpoint_wf leaked' (collect ino h imgs c)) /\
  length (g_checkpoint_list (collect ino h imgs c)) = length (g_checkpoint_list c).
Proof.
  unfold collect. revert c leaked. induction imgs as [|bs imgs IH]; intros c leaked Hc Hh; [by eauto|]. cbn [foldl].
  destruct (get_cp_info_wf ino h bs c leaked Hc Hh) as [[l' Hc'] Hlen].
  destruct (IH _ l' Hc') as [? ->]; [lia|]. done.
Qed.

(** Commits leave the epoch maps of all inodes alone and only deactivate. *)
Definition inodes_kept (m m' : gmap Z j_inode) : Prop :=
  forall j fj, m !! j = Some fj -> exists fj', m' !! j = Some fj' /\ g2l_ep_map fj' = g2l_ep_map fj /\
    (j_local_active_epoch fj' = j_local_active_epoch fj \/ j_local_active_epoch fj' = NONE_EPOCH).

#[local] Instance inodes_kept_preorder : PreOrder inodes_kept.
Proof.
  split; [intros m j fj E; eauto|]. intros m1 m2 m3 H1 H2 j fj E.
  destruct (H1 j fj E) as (f2 & E2 & G2 & A2). destruct (H2 j f2 E2) as (f3 & E3 & G3 & A3).
  exists f3. conjs; [done|congruence|]. destruct A2, A3; [left|right..]; congruence.
Qed.

(** What the commit of one inode leaves unchanged. *)
Record frame (g : Z) (s s' : jsys) : Prop := {
  fr_run : g_running_ep (sys_ep s') = g_running_ep (sys_ep s);
  fr_list : to_be_commit_list (sys_ep s') = to_be_commit_list (sys_ep s);
  fr_epochs : forall g', 0 <= g' -> g' <> g -> epoch_at (sys_ep s') g' = epoch_at (sys_ep s) g';
  fr_mmap : j_file_mmap (sys_j s') = j_file_mmap (sys_j s);
  fr_heads : length (g_checkpoint_list (sys_cp s')) = length (g_checkpoint_list (sys_cp s));
  fr_io : sys_io s' = sys_io s;
  fr_inodes : inodes_kept (sys_inodes s) (sys_inodes s')
}.

#[local] Instance frame_preorder g : PreOrder (frame g).
Proof.
  split; [by intros s|]. intros s1 s2 s3 [] []. constructor; [congruence..| |congruence|congruence|congruence|by etransitivity].
  intros g' Hp Hne. rewrite fr_epochs1 by done. auto.
Qed.

Lemma journal_wf_live s n : journal_wf s -> journal_wf (set_live s n).
Proof. intros []. by constructor. Qed.

(** The facts about a registered inode that its commit needs. *)
Lemma inv_registered ages s g e ino rest : sys_inv ages s -> 0 <= g < 8 -> epoch_at (sys_ep s) g = Some e ->
  global_ino_epoch_list e = ino :: rest ->
  exists fi l ep, sys_inodes s !! ino = Some fi /\ inode_wf (registered (sys_ep s) ino) fi /\
    registered (sys_ep s) ino g /\ g2l_at fi g = Some l /\ 0 <= l < 8 /\ local_at fi l = Some ep /\
    NoDup (ln_ptr <$> inode_log_list ep) /\ ino ∉ rest.
Proof.
  intros Hinv Hg Ee El.
  assert (Hr : registered (sys_ep s) ino g) by (split; [lia|]; exists e; rewrite El; split; [done|left]).
  destruct (inv_reg _ _ Hinv ino g Hr) as [fi Efi]. pose proof (inv_inodes _ _ Hinv ino fi Efi) as Hfi.
  destruct (iwf_reg _ _ Hfi g Hr) as (_ & l & ep & Egl & Hl & Eep & _).
  assert (0 <= l <= 8) by exact (proj1 (Forall_lookup _ _) (iwf_range _ _ Hfi) _ _ Egl).
  exists fi, l, ep. conjs; try done; [lia|apply (iwf_nodup _ _ Hfi l); [lia|done]|].
  pose proof (inv_nodup _ _ Hinv g e ltac:(lia) Ee) as Hn. rewrite El in Hn. by apply list.NoDup_cons in Hn as [? _].
Qed.

(** The logs inode [ino] has queued for global epoch [g]. *)
Definition epoch_logs (s : jsys) (g ino : Z) : list log_node :=
  match sys_inodes s !! ino with
  | Some fi => match g2l_at fi g with
               | Some l => match local_at fi l with Some ep => inode_log_list ep | None => [] end
               | None => []
               end
  | None => []
  end.

(** The commit of the first registered inode keeps the invariant. *)
Lemma commit_inode_inv ages s h g e ino rest : sys_inv ages s -> 0 <= g < 8 ->
  epoch_at (sys_ep s) g = Some e -> global_ino_epoch_list e = ino :: rest ->
  (h < length (g_checkpoint_list (sys_cp s)))%nat ->
  exists s', commit_inode kmem writepages h g ino s = Some s' /\ sys_inv ages s' /\ frame g s s' /\
    epoch_at (sys_ep s') g = Some (set_inos e rest) /\
    sys_cp s' = collect ino h (log_image (j_pages (j_file_mmap (sys_j s))) <$> epoch_logs s g ino) (sys_cp s) /\
    (forall j, j <> ino -> sys_inodes s' !! j = sys_inodes s !! j).
Proof.
  intros Hinv Hg Ee El Hh.
  destruct (inv_registered _ _ _ _ _ _ Hinv Hg Ee El) as (fi & l & ep & Efi & Hfi & Hr & Egl & Hl & Eep & Hnd & Hnot).
  pose proof (ewf_len _ _ (inv_ep _ _ Hinv)) as H8. destruct (inv_cp _ _ Hinv) as [leaked Hc].
  pose proof (collect_wf ino h (log_image (j_pages (j_file_mmap (sys_j s))) <$> inode_log_list ep) _ _ Hc Hh) as [Hc' Hheads].
  pose proof (fun j g' => registered_del (sys_ep s) g e ino rest j g' ltac:(lia) Ee El Hnot) as Hreg.
  pose proof (drained_logs fi l ep Eep) as Hlogs.
  assert (Hsub : forall p, p ∈ ln_ptr <$> all_logs (drained fi l) -> p ∈ ln_ptr <$> all_logs fi).
  { intros p Hp. rewrite Hlogs, fmap_app. apply elem_of_app. by right. }
  pose proof (inv_ptr _ _ Hinv ino fi Efi) as Hptr. rewrite Hlogs, fmap_app in Hptr.
  apply list.NoDup_app in Hptr as (_ & Hdis & Hptr').
  assert (Hin : forall j fj, <[ino := drained fi l]> (sys_inodes s) !! j = Some fj ->
            (j = ino /\ fj = drained fi l) \/ (j <> ino /\ sys_inodes s !! j = Some fj)).
  { intros j fj Ej. apply lookup_insert_Some in Ej as [[<- <-]|[? ?]]; auto. }
  assert (Hold : forall j fj p, <[ino := drained fi l]> (sys_inodes s) !! j = Some fj -> p ∈ ln_ptr <$> all_logs fj ->
            exists fj', sys_inodes s !! j = Some fj' /\ p ∈ ln_ptr <$> all_logs fj').
  { intros j fj p [[-> ->]|[_ Ej]]%Hin Hp; eauto. }
  eexists. split; [by apply (commit_inode_eq h g ino l fi ep e rest s); [|apply (iwf_lists _ _ Hfi)|..]|].
  conjs; [constructor; cbn [committed_inode sys_ep sys_inodes sys_j sys_cp log_objs]| | | |].
  - apply upd_epoch_wf; [apply Hinv|lia|]. destruct (epoch_at_some _ _ g (inv_ep _ _ Hinv) Hg) as (e' & E' & T).
    cbn. congruence.
  - by apply (inos_nodup_del _ _ _ ino); [lia|apply Hinv|..].
  - intros j g' [Hj _]%Hreg. apply lookup_insert_is_Some'. right. by eapply inv_reg.
  - intros j g' [Hj _]%Hreg. by eapply inv_open.
  - intros j fj [[-> ->]|[Hne Ej]]%Hin.
    + eapply inode_wf_ext; [|by apply (drained_wf (registered (sys_ep s) ino))]. intros g'. simpl. rewrite Hreg. tauto.
    + eapply inode_wf_ext; [|by apply (inv_inodes _ _ Hinv)]. intros g'. rewrite Hreg. tauto.
  - intros j fj [[-> ->]|[Hne Ej]]%Hin; [done|by eapply inv_ptr].
  - intros j fj p Ej Hp. destruct (Hold j fj p Ej Hp) as (fj' & Ej' & Hp').
    apply elem_of_difference. split; [by eapply inv_live|]. rewrite elem_of_list_to_set. intros Hp1.
    apply Hin in Ej as [[-> ->]|[Hne Ej]]; [by apply (Hdis p)|].
    apply Hne. apply (inv_disj _ _ Hinv j ino fj fi p); try done. by apply (in_all_logs fi l ep).
  - intros j j' fj fj' p Ej Ej' Hp Hp'. destruct (Hold j fj p Ej Hp) as (f1 & E1 & P1).
    destruct (Hold j' fj' p Ej' Hp') as (f2 & E2 & P2). by eapply (inv_disj _ _ Hinv).
  - apply journal_wf_live, Hinv.
  - exact Hc'.
  - constructor; cbn; [done|done| |done|done|done|].
    + intros g' Hg' Hne. pose proof (epoch_upd (sys_ep s) g (set_inos e rest) g' ltac:(lia) Hg') as E.
      by rewrite decide_False in E.
    + intros j fj Ej. destruct (decide (j = ino)) as [->|Hj]; [|rewrite lookup_insert_ne by done; eauto].
      rewrite lookup_insert_eq. eexists. split; [done|]. assert (fj = fi) as -> by congruence. by cbn; auto.
  - cbn. rewrite epoch_upd by lia. by rewrite decide_True.
  - cbn. unfold epoch_logs. by rewrite Efi, Egl, Eep.
  - intros j Hj. cbn. by apply lookup_insert_ne.
Qed.

(** No allocation of a record and no data writeback fails. *)
Definition no_failure : Prop := (forall n, kmem n = true) /\ (forall ino, writepages ino = 0).

(** The record a log leaves when nothing fails. *)
Definition cp_record (ino : Z) (bs : list Z) : j_log_cp_info_t :=
  default {| log_inode_id := 0; log_node_id := 0; log_segno := 0 |} (cp_info_of_log writepages ino bs).

Lemma collect_ok ino h imgs c : no_failure ->
  g_checkpoint_list (collect ino h imgs c) = alter (fun l => l ++ (cp_record ino <$> imgs)) h (g_checkpoint_list c).
Proof.
  intros [Hk Hw]. unfold collect. revert c. induction imgs as [|bs imgs IH]; intros c; cbn [foldl].
  - symmetry. apply list_alter_id. intros x. apply app_nil_r.
  - rewrite IH. unfold get_cp_info_from_log, alloc_log_cp_info_memory. rewrite Hk.
    destruct (cp_info_of_log writepages ino bs) as [ci|] eqn:E.
    + cbn. rewrite list_alter_alter_eq. apply list_alter_ext; [|done]. intros x _. unfold compose, cp_record.
      rewrite E, <-app_assoc. done.
    + unfold cp_info_of_log, ep_commit_writeback_data_pages in E. rewrite Hw in E.
      repeat (case_match; try done).
Qed.

(** The records of the logs queued for epoch [g] by the inodes [inos], in
    registration order and, for each inode, in queueing order. *)
Definition epoch_records (s : jsys) (g : Z) (inos : list Z) : list j_log_cp_info_t :=
  concat ((fun ino => (fun n => cp_record ino (log_image (j_pages (j_file_mmap (sys_j s))) n)) <$> epoch_logs s g ino)
          <$> inos).

Lemma epoch_records_ext s s' g inos : j_file_mmap (sys_j s') = j_file_mmap (sys_j s) ->
  (forall j, j ∈ inos -> sys_inodes s' !! j = sys_inodes s !! j) -> epoch_records s' g inos = epoch_records s g inos.
Proof.
  intros Ej Hi. unfold epoch_records. f_equal. apply list_fmap_ext. intros k ino E%list_elem_of_lookup_2.
  unfold epoch_logs. by rewrite Ej, Hi.
Qed.

Lemma epoch_records_elem s g inos ino n : ino ∈ inos -> n ∈ epoch_logs s g ino ->
  cp_record ino (log_image (j_pages (j_file_mmap (sys_j s))) n) ∈ epoch_records s g inos.
Proof.
  unfold epoch_records. induction inos as [|i inos IH]; intros Hi Hn; [by apply elem_of_nil in Hi|].
  rewrite fmap_cons. cbn [concat]. apply elem_of_app.
  apply elem_of_cons in Hi as [->|Hi]; [left|right; by apply IH].
  by apply (list_elem_of_fmap_2 (fun n => cp_record i (log_image (j_pages (j_file_mmap (sys_j s))) n))).
Qed.

Lemma commit_inodes_inv ages h g inos : forall s e, sys_inv ages s -> 0 <= g < 8 ->
  epoch_at (sys_ep s) g = Some e -> global_ino_epoch_list e = inos ->
  (h < length (g_checkpoint_list (sys_cp s)))%nat ->
  exists s' e', commit_inodes kmem writepages h g inos s = Some s' /\ sys_inv ages s' /\ frame g s s' /\
    epoch_at (sys_ep s') g = Some e' /\ global_ino_epoch_list e' = [] /\
    (no_failure -> g_checkpoint_list (sys_cp s') =
                   alter (fun l => l ++ epoch_records s g inos) h (g_checkpoint_list (sys_cp s))).
Proof.
  induction inos as [|ino inos IH]; intros s e Hinv Hg Ee El Hh; cbn [commit_inodes].
  - exists s, e. conjs; try done. intros _. cbn. symmetry. apply list_alter_id. intros x. apply app_nil_r.
  - destruct (commit_inode_inv ages s h g e ino inos Hinv Hg Ee El Hh)
      as (s1 & -> & Hinv1 & Hf1 & Ee1 & Ecp & Hother). cbn [mbind option_bind].
    destruct (IH s1 _ Hinv1 Hg Ee1 eq_refl) as (s2 & e2 & -> & Hinv2 & Hf2 & Ee2 & El2 & Hrec);
      [by rewrite (fr_heads _ _ _ Hf1)|].
    exists s2, e2. conjs; try done; [by etransitivity|]. intros Hok. rewrite (Hrec Hok), Ecp, collect_ok by done.
    rewrite list_alter_alter_eq. apply list_alter_ext; [|done]. intros x _. unfold compose. cbn.
    rewrite <-app_assoc. do 2 f_equal; [by rewrite <-list_fmap_compose|].
    apply epoch_records_ext; [apply (fr_mmap _ _ _ Hf1)|]. intros j Hj. apply Hother. intros ->.
    pose proof (inv_nodup _ _ Hinv g e ltac:(lia) Ee) as Hn. rewrite El in Hn. by apply list.NoDup_cons in Hn as [? _].
Qed.

(** ** Whole epochs *)

Lemma same_inos_back s s' g e' : same_inos s s' -> epoch_at s' g = Some e' ->
  exists e, epoch_at s g = Some e /\ global_ino_epoch_list e' = global_ino_epoch_list e.
Proof.
  intros [HL HS] E'. destruct (lookup_lt_is_Some_2 (global_epoch s) (Z.to_nat g)) as [e E].
  { rewrite <-HL. by eapply lookup_lt_Some. }
  destruct (HS g e E) as (e'' & E'' & HI & _). exists e. split; [done|]. congruence.
Qed.

Lemma same_inos_registered s s' j g : same_inos s s' -> registered s' j g <-> registered s j g.
Proof.
  intros HS. split; intros [Hg (e & E & Hj)]; (split; [done|]).
  - destruct (same_inos_back _ _ _ _ HS E) as (e0 & E0 & HI). exists e0. split; [done|congruence].
  - destruct (proj2 HS g e E) as (e0 & E0 & HI & _). exists e0. split; [done|congruence].
Qed.

(** Changing the epochs without changing the registrations. *)
Lemma sys_inv_ep ages ages' s ep : sys_inv ages s -> epochs_wf ages' ep -> same_inos (sys_ep s) ep ->
  (forall ino g, registered (sys_ep s) ino g -> g = g_running_ep ep \/ g ∈ to_be_commit_list ep) ->
  sys_inv ages' (with_ep s ep).
Proof.
  intros [H1 H2 H3 H4 H5 H6 H7 H8 H9 H10] He Hsame Ho.
  pose proof (fun j g => same_inos_registered _ _ j g Hsame) as Hr.
  constructor; cbn [with_ep sys_ep sys_inodes sys_j sys_cp log_objs]; try done.
  - intros g e Hg E. destruct (same_inos_back _ _ _ _ Hsame E) as (e0 & E0 & ->). by eapply H2.
  - intros ino g Hg%Hr. by eapply H3.
  - intros ino g Hg%Hr. by eapply Ho.
  - intros ino fi E. eapply inode_wf_ext; [|by apply H5]. intros g. by rewrite Hr.
Qed.

(** Changing the journal, the checkpoint list or the bios. *)
Lemma sys_inv_j ages s j objs io : sys_inv ages s -> journal_wf j -> log_objs s ⊆ objs ->
  sys_inv ages (with_journal s j objs io).
Proof. intros [] Hj Hsub. constructor; cbn; try done. intros ino fi p E Hp. apply Hsub. by eapply inv_live0. Qed.
Lemma sys_inv_cp ages s c leaked : sys_inv ages s -> checkpoint_wf leaked c -> sys_inv ages (with_cp s c).
Proof. intros [] Hc. constructor; cbn; try done. by eexists. Qed.
Lemma sys_inv_threads ages s a b c : sys_inv ages s -> sys_inv ages (with_threads s a b c).
Proof. intros []. by constructor. Qed.

Lemma set_epoch_status_inv ages s g st : sys_inv ages s -> 0 <= g < 8 ->
  exists e, epoch_at (sys_ep s) g = Some e /\
    set_epoch_status s g st = Some (with_ep s (upd_epoch (sys_ep s) g (set_status e st))) /\
    sys_inv ages (with_ep s (upd_epoch (sys_ep s) g (set_status e st))).
Proof.
  intros Hinv Hg. destruct (epoch_at_some _ _ g (inv_ep _ _ Hinv) Hg) as (e & E & T).
  exists e. unfold set_epoch_status. rewrite E. conjs; [done|done|].
  eapply sys_inv_ep; [done|apply upd_epoch_wf; [apply Hinv|done|done]|by eapply upd_epoch_same|].
  cbn. apply Hinv.
Qed.

(** The waiting epoch at the head of the list is dropped once it has no
    registrations. *)
Lemma drop_waiting_inv d ages s g gs e : sys_inv (d :: ages) s -> to_be_commit_list (sys_ep s) = g :: gs ->
  epoch_at (sys_ep s) g = Some e -> global_ino_epoch_list e = [] ->
  list_del g (to_be_commit_list (sys_ep s)) = Some gs /\
  sys_inv ages (with_ep s (set_commit_list (sys_ep s) gs)).
Proof.
  intros Hinv El Ee Hempty. destruct (inv_ep _ _ Hinv) as [Hl Hr Ht Hc Ha Hn].
  rewrite El in Hc. injection Hc as Eg Egs. apply list.NoDup_cons in Hn as [Hd Hn].
  apply list.Forall_cons in Ha as [Hd8 Ha].
  assert (Hnot : g ∉ gs).
  { rewrite Eg, Egs. intros (d' & E & Hd')%list_elem_of_fmap. rewrite list.Forall_forall in Ha.
    apply aged_inj in E; [|done|by apply Ha]. by subst. }
  split; [rewrite El; by apply list_del_head|]. eapply sys_inv_ep; [done|by constructor| |].
  - split; [done|]. by eauto.
  - intros ino g' Hreg. destruct (inv_open _ _ Hinv ino g' Hreg) as [?|Hin]; [by left|].
    rewrite El in Hin. apply elem_of_cons in Hin as [->|?]; [|by right].
    destruct Hreg as [_ (e' & E' & Hi)]. assert (e' = e) as -> by congruence. rewrite Hempty in Hi. by apply elem_of_nil in Hi.
Qed.

Lemma waiting_range d ages s g gs : epochs_wf (d :: ages) s -> to_be_commit_list s = g :: gs -> 0 <= g < 8.
Proof. intros Hw E. pose proof (ewf_list _ _ Hw) as Hc. rewrite E in Hc. injection Hc as -> _. apply aged_range. Qed.

(** The inodes registered in epoch [g]. *)
Definition epoch_inos (s : epochs) (g : Z) : list Z :=
  match epoch_at s g with Some e => global_ino_epoch_list e | None => [] end.

(** The commit of the first waiting epoch: either the head allocation fails
    and the epoch stays on the list, or the epoch is committed and removed. *)
Lemma commit_epoch_inv d ages s g gs : sys_inv (d :: ages) s -> to_be_commit_list (sys_ep s) = g :: gs ->
  exists s' r, commit_epoch kmem writepages g s = Some (s', r) /\ inodes_kept (sys_inodes s) (sys_inodes s') /\
    ((r = F2FSJ_ERROR /\ kmem (kmem_calls (sys_cp s)) = false /\ sys_inv (d :: ages) s') \/
     (r = F2FSJ_OK /\ kmem (kmem_calls (sys_cp s)) = true /\ sys_inv ages s' /\ to_be_commit_list (sys_ep s') = gs /\
      g_running_ep (sys_ep s') = g_running_ep (sys_ep s) /\
      (forall j g', registered (sys_ep s') j g' -> registered (sys_ep s) j g') /\
      (no_failure -> g_checkpoint_list (sys_cp s') =
                     g_checkpoint_list (sys_cp s) ++ [epoch_records s g (epoch_inos (sys_ep s) g)]))).
Proof.
  intros Hinv El. pose proof (waiting_range _ _ _ _ _ (inv_ep _ _ Hinv) El) as Hg.
  destruct (set_epoch_status_inv _ s g EPOCH_COMMITING Hinv Hg) as (e & Ee & Es & Hinv1).
  unfold commit_epoch. rewrite Es. cbn [mbind option_bind]. set (s1 := with_ep s _) in *.
  destruct (inv_cp _ _ Hinv1) as [leaked Hc]. unfold alloc_log_cp_head_node_memory.
  change (sys_cp s1) with (sys_cp s) in *. destruct (kmem (kmem_calls (sys_cp s))).
  2: { do 2 eexists. split; [reflexivity|]. split; [by cbn|]. left. conjs; [done|done|]. by apply (sys_inv_cp _ _ _ leaked); [|destruct Hc; constructor]. }
  cbn [insert_cp_info_list_head_2_g_cp_list]. set (c := set_cp_list _ _).
  assert (Hinv2 : sys_inv (d :: ages) (with_cp s1 c)).
  { apply (sys_inv_cp _ _ _ leaked); [done|]. destruct Hc as [Hc1 Hc2]. constructor; cbn.
    - rewrite concat_app. simpl. by rewrite !app_nil_r.
    - rewrite length_app. simpl. lia. }
  cbn [with_cp sys_ep]. set (s2 := with_cp s1 c) in *.
  assert (Ee2 : epoch_at (sys_ep s1) g = Some (set_status e EPOCH_COMMITING)).
  { cbn. rewrite epoch_upd by (rewrite ?(ewf_len _ _ (inv_ep _ _ Hinv)); lia). by rewrite decide_True. }
  rewrite Ee2. cbn [mbind option_bind].
  assert (Et : g_epoch_type (set_status e EPOCH_COMMITING) = g).
  { destruct (epoch_at_some _ _ g (inv_ep _ _ Hinv2) Hg) as (e' & E' & T). change (sys_ep s2) with (sys_ep s1) in E'. congruence. }
  rewrite Et.
  change (length (g_checkpoint_list (set_cp_live _ _ _))) with (length (g_checkpoint_list (sys_cp s))).
  destruct (commit_inodes_inv (d :: ages) (length (g_checkpoint_list (sys_cp s))) g _ s2 _ Hinv2 Hg Ee2 eq_refl)
    as (s3 & e3 & E3 & Hinv3 & Hf & Ee3 & El3 & Hrec).
  { cbn. rewrite length_app. simpl. lia. }
  rewrite E3. cbn [mbind option_bind].
  destruct (write_current_total _ (inv_j _ _ Hinv3)) as (j & tr & -> & Hj & _). cbn [mbind option_bind].
  set (s4 := with_journal s3 _ _ _).
  assert (Hinv4 : sys_inv (d :: ages) s4) by (by apply sys_inv_j).
  assert (El4 : to_be_commit_list (sys_ep s4) = g :: gs) by (cbn; rewrite (fr_list _ _ _ Hf); exact El).
  destruct (drop_waiting_inv _ _ _ _ _ _ Hinv4 El4 Ee3 El3) as [-> Hinv5]. cbn [mbind option_bind].
  destruct (set_epoch_status_inv _ _ g EPOCH_IDLE Hinv5 Hg) as (e5 & Ee5 & -> & Hinv6). cbn [mbind option_bind].
  do 2 eexists. split; [reflexivity|]. split; [exact (fr_inodes _ _ _ Hf)|].
  right. conjs; [done|done|done|done|cbn; by rewrite (fr_run _ _ _ Hf)| |].
  { intros j0 g' Hr. apply (same_inos_registered (set_commit_list (sys_ep s4) gs)) in Hr; [|by apply (upd_epoch_same _ g e5)].
    destruct Hr as [Hg' (e' & E' & Hi)]. cbn in E'. destruct (decide (g' = g)) as [->|Hne].
    - assert (e' = e3) as -> by exact (inj Some _ _ (eq_trans (eq_sym E') Ee3)). rewrite El3 in Hi. by apply elem_of_nil in Hi.
    - rewrite <-(same_inos_registered (sys_ep s) (sys_ep s1)) by (by apply (upd_epoch_same (sys_ep s) g e)).
      split; [done|]. exists e'. split; [|done].
      exact (eq_trans (eq_sym (fr_epochs _ _ _ Hf g' Hg' Hne)) E'). }
  intros Hok. change (g_checkpoint_list (sys_cp s3) = g_checkpoint_list (sys_cp s) ++
    [epoch_records s g (epoch_inos (sys_ep s) g)]).
  rewrite (Hrec Hok). cbn [s2 with_cp sys_cp c set_cp_list g_checkpoint_list set_cp_live set_kmem].
  rewrite alter_app_r_alt, Nat.sub_diag by lia. do 2 f_equal. unfold epoch_inos. by rewrite Ee.
Qed.

(** The commit of all waiting epochs stops at the first head that cannot be
    allocated; without failures nothing waits any more. *)
Lemma commit_epochs_inv gs : forall ages s, sys_inv ages s -> to_be_commit_list (sys_ep s) = gs ->
  exists s' r ages', commit_epochs kmem writepages gs s = Some (s', r) /\ sys_inv ages' s' /\ ages' `suffix_of` ages /\
    inodes_kept (sys_inodes s) (sys_inodes s') /\ (r = F2FSJ_OK -> ages' = []) /\ (no_failure -> r = F2FSJ_OK).
Proof.
  induction gs as [|g gs IH]; intros ages s Hinv El; cbn [commit_epochs].
  - exists s, F2FSJ_OK, ages. conjs; try done. intros _. pose proof (ewf_list _ _ (inv_ep _ _ Hinv)) as Hc.
    rewrite El in Hc. by destruct ages.
  - assert (exists d ages0, ages = d :: ages0) as (d & ages0 & ->).
    { pose proof (ewf_list _ _ (inv_ep _ _ Hinv)) as Hc. rewrite El in Hc. destruct ages; [done|eauto]. }
    destruct (commit_epoch_inv d ages0 s g gs Hinv El) as (s1 & r1 & -> & Hk1 & [(-> & Ek & Hinv1)|(-> & _ & Hinv1 & El1 & _)]);
      cbn [mbind option_bind].
    + rewrite decide_False by done. exists s1, F2FSJ_ERROR, (d :: ages0). conjs; try done.
      intros [Hk _]. by rewrite Hk in Ek.
    + rewrite decide_True by done. destruct (IH ages0 s1 Hinv1 El1) as (s2 & r2 & ages2 & -> & Hinv2 & Hs & Hk2 & Hr & Hok).
      exists s2, r2, ages2. conjs; try done; [by apply suffix_cons_r|by etransitivity].
Qed.

Lemma epoch_commit_inv ages s : sys_inv ages s ->
  exists s' r ages', epoch_commit kmem writepages s = Some (s', r) /\ sys_inv ages' s' /\ ages' `suffix_of` ages /\
    inodes_kept (sys_inodes s) (sys_inodes s') /\ (r = F2FSJ_OK -> ages' = []) /\ (no_failure -> r = F2FSJ_OK).
Proof.
  intros Hinv. unfold epoch_commit, is_g_commit_ep_empty. destruct (to_be_commit_list (sys_ep s)) eqn:El.
  - by apply (commit_epochs_inv [] ages s).
  - by apply commit_epochs_inv.
Qed.

(** The epoch switch. *)
Lemma sys_trigger_inv ages s : sys_inv ages s -> 8 ∉ ages ->
  exists s', sys_trigger s = Some s' /\ sys_inv (older ages) s' /\ same_inos (sys_ep s) (sys_ep s') /\
    g_running_ep (sys_ep s') = (g_running_ep (sys_ep s) + 1) mod 8 /\
    to_be_commit_list (sys_ep s') = g_running_ep (sys_ep s) :: to_be_commit_list (sys_ep s) /\
    sys_inodes s' = sys_inodes s /\ sys_j s' = sys_j s /\ sys_cp s' = sys_cp s.
Proof.
  intros Hinv H8. destruct (trigger_epoch_commit_spec ages _ (inv_ep _ _ Hinv) H8) as (ep & E & Hw & Hs & Hr & Hl).
  unfold sys_trigger. rewrite E. cbn [mbind option_bind]. eexists. split; [reflexivity|].
  conjs; try done. apply (sys_inv_ep ages _ _ _ Hinv Hw Hs). intros ino g Hg. right. rewrite Hl.
  apply elem_of_cons. by apply (inv_open _ _ Hinv ino g).
Qed.

(** ** File operations *)

Lemma append_log_total raw img s : journal_wf s -> exists s' e, append_log (Some raw) img s = Some (s', e) /\ journal_wf s'.
Proof.
  intros Hw. destruct (j_alloc_log_entry_spec raw s Hw) as (s1 & E & Hw1 & Hi1 & Hp1 & _).
  unfold append_log. rewrite E. cbn [mbind option_bind]. do 2 eexists. split; [reflexivity|].
  destruct (Z.of_nat (length img) <=? J_LOG_ENTRY_SIZE) eqn:Hl; [|done].
  destruct Hw1. constructor; cbn; try done. by apply pages_ok_write.
Qed.

(** An inode that is not in memory has no registrations. *)
Lemma inode_or_new ages s ino : sys_inv ages s ->
  inode_wf (registered (sys_ep s) ino) (default f2fs_alloc_inode (sys_inodes s !! ino)).
Proof.
  intros Hinv. destruct (sys_inodes s !! ino) as [fi|] eqn:E; [by apply (inv_inodes _ _ Hinv)|].
  apply alloc_inode_wf. intros g Hg. destruct (inv_reg _ _ Hinv ino g Hg). congruence.
Qed.

(** The new inode state [fi'] only has logs of [fi], or one more with a fresh
    object. *)
Lemma sys_inv_queue ages s ep ino fi' n : sys_inv ages s -> epochs_wf ages ep -> inos_nodup ep ->
  inode_wf (registered ep ino) fi' -> g_running_ep ep = g_running_ep (sys_ep s) ->
  to_be_commit_list ep = to_be_commit_list (sys_ep s) ->
  (forall g, registered ep ino g -> registered (sys_ep s) ino g \/ g = g_running_ep (sys_ep s)) ->
  (forall j g, j <> ino -> registered ep j g <-> registered (sys_ep s) j g) ->
  ln_ptr n ∉ log_objs s ->
  all_logs fi' ≡ₚ n :: all_logs (default f2fs_alloc_inode (sys_inodes s !! ino)) \/
  all_logs fi' = all_logs (default f2fs_alloc_inode (sys_inodes s !! ino)) ->
  forall j io, journal_wf j ->
  sys_inv ages (with_inode (with_ep (with_journal s j ({[ln_ptr n]} ∪ log_objs s) io) ep) ino fi').
Proof.
  intros Hinv He Hnd Hfi Hrun Hlist Hself Hother Hfresh Hlogs j io Hj.
  set (fi := default f2fs_alloc_inode (sys_inodes s !! ino)) in *.
  assert (Hfi0 : NoDup (ln_ptr <$> all_logs fi) /\ (forall p, p ∈ ln_ptr <$> all_logs fi -> p ∈ log_objs s /\
            forall j' fj', sys_inodes s !! j' = Some fj' -> p ∈ ln_ptr <$> all_logs fj' -> j' = ino)).
  { subst fi. destruct (sys_inodes s !! ino) as [fi|] eqn:E; cbn [default from_option id].
    - split; [by eapply inv_ptr|]. intros p Hp. split; [by eapply inv_live|]. intros j' fj' E' Hp'.
      by apply (inv_disj _ _ Hinv j' ino fj' fi p).
    - cbn. split; [constructor|]. intros p Hp. by apply elem_of_nil in Hp. }
  destruct Hfi0 as [Hnd0 Hold].
  assert (Hnew : forall p, p ∈ ln_ptr <$> all_logs fi' -> p = ln_ptr n \/ p ∈ ln_ptr <$> all_logs fi).
  { intros p. destruct Hlogs as [->| ->]; [|by auto]. rewrite fmap_cons. apply elem_of_cons. }
  assert (Hnodup : NoDup (ln_ptr <$> all_logs fi')).
  { destruct Hlogs as [->| ->]; [|done]. rewrite fmap_cons. constructor; [|done]. intros C. by apply Hfresh, Hold. }
  assert (Hin : forall k fk, <[ino := fi']> (sys_inodes s) !! k = Some fk ->
            (k = ino /\ fk = fi') \/ (k <> ino /\ sys_inodes s !! k = Some fk)).
  { intros k fk Ek. apply lookup_insert_Some in Ek as [[<- <-]|[? ?]]; auto. }
  constructor; cbn [with_inode with_ep with_journal sys_ep sys_inodes sys_j sys_cp log_objs]; try done.
  - intros k g Hg. apply lookup_insert_is_Some'. destruct (decide (ino = k)) as [->|Hne]; [by left|right].
    apply (inv_reg _ _ Hinv k g). apply Hother; [congruence|done].
  - intros k g Hg. rewrite Hrun, Hlist. destruct (decide (k = ino)) as [->|Hne].
    + destruct (Hself g Hg) as [Hg'| ->]; [by apply (inv_open _ _ Hinv ino)|by left].
    + apply (inv_open _ _ Hinv k). by apply Hother.
  - intros k fk [[-> ->]|[Hne Ek]]%Hin; [done|]. eapply inode_wf_ext; [|by apply (inv_inodes _ _ Hinv)].
    intros g. rewrite Hother by done. done.
  - intros k fk [[-> ->]|[Hne Ek]]%Hin; [done|by eapply inv_ptr].
  - intros k fk p [[-> ->]|[Hne Ek]]%Hin Hp; apply elem_of_union.
    + destruct (Hnew p Hp) as [->|Hp']; [left; by apply elem_of_singleton|right; by apply Hold].
    + right. by eapply inv_live.
  - intros k k' fk fk' p [[-> ->]|[Hne Ek]]%Hin [[-> ->]|[Hne' Ek']]%Hin Hp Hp'; [done| | |by eapply inv_disj].
    + destruct (Hnew p Hp) as [->|Hp0]; [by apply (inv_live _ _ Hinv k' fk') in Hp'|]. symmetry. by apply (proj2 (Hold p Hp0) k' fk').
    + destruct (Hnew p Hp') as [->|Hp0]; [by apply (inv_live _ _ Hinv k fk) in Hp|]. by apply (proj2 (Hold p Hp0) k fk).
  - by apply Hinv.
Qed.
End props.
