(* ===== verification/JournalSystem.v ===== *)
(** * The journal layer as a transition system

    File operations, the commit thread and the checkpoint thread interleave, a call at a
    time: the code does not serialise the calls that log an operation with those of the
    threads (the lock of j_epoch_commit.c is commented out), so what happens inside
    overlapping calls is not covered.  The invariant of the layer holds in every state the
    steps reach; a commit moves every queued log to the checkpoint list. *)

From S2P Require Import Prelude LogContent Epoch JournalFile JournalSlots JournalReplay JournalIO InodeLog.
From S2P Require Import JCheckpoint EpochCommit CommitProps.

(** ** Steps *)

(** The commit thread switches the epoch, then commits. *)
Inductive jpc := AtTrigger | AtCommit.

Section system.
Context `{F2fsFsInline}.
Context (kmem : nat -> bool) (writepages : Z -> Z).

(** A step is one call; a new log entry object is one that is not in use. *)
Inductive jstep : jpc * jsys -> jpc * jsys -> Prop :=
| step_log pc s p raw ino o s' r :
    p ∉ log_objs s -> log_and_queue p raw ino (op_image o) s = Some (s', r) -> jstep (pc, s) (pc, s')
| step_unlink pc s p raw o s' :
    p ∉ log_objs s -> log_only p raw (op_image o) s = Some s' -> jstep (pc, s) (pc, s')
| step_trigger s s' : sys_trigger s = Some s' -> jstep (AtTrigger, s) (AtCommit, s')
| step_commit s s' r : epoch_commit kmem writepages s = Some (s', r) -> jstep (AtCommit, s) (AtTrigger, s')
| step_checkpoint pc s : jstep (pc, s) (pc, sys_checkpoint s).

(** The state after the mount: no epoch used, no inode in memory, a mapped
    journal and an empty checkpoint list. *)
Record initial (s : jsys) : Prop := {
  init_ep : sys_ep s = init_global_epoch static_epochs;
  init_inodes : sys_inodes s = ∅;
  init_j : journal_wf (sys_j s);
  init_list : g_checkpoint_list (sys_cp s) = [];
  init_heads : cp_head_live (sys_cp s) = 0
}.

Lemma initial_inv s : initial s -> sys_inv [] s.
Proof.
  intros [He Hi Hj Hl Hh].
  assert (Hn : forall ino g, ~ registered (sys_ep s) ino g).
  { rewrite He. intros ino g (_ & e & E & Hin). cbn [init_global_epoch epoch_at global_epoch] in E.
    apply list_lookup_fmap_Some in E as (z & -> & _). by apply elem_of_nil in Hin. }
  constructor; rewrite ?Hi.
  - rewrite He. apply init_global_epoch_wf. cbn. lia.
  - rewrite He. intros g e _ E. cbn [init_global_epoch epoch_at global_epoch] in E.
    apply list_lookup_fmap_Some in E as (z & -> & _). constructor.
  - by intros ino g ?%Hn.
  - by intros ino g ?%Hn.
  - by intros ino fi E.
  - by intros ino fi E.
  - by intros ino fi p E.
  - by intros ino ino' fi fi' p E.
  - done.
  - exists (cp_info_live (sys_cp s)). constructor; rewrite Hl; cbn; lia.
Qed.

Lemma log_and_queue_inv ages s p raw ino img : sys_inv ages s -> p ∉ log_objs s ->
  exists s' r, log_and_queue p raw ino img s = Some (s', r) /\ sys_inv ages s'.
Proof.
  intros Hinv Hp. unfold log_and_queue.
  destruct (append_log_total raw img _ (inv_j _ _ Hinv)) as (j & e & -> & Hj). cbn [mbind option_bind].
  cbn [with_journal sys_inodes sys_ep]. pose proof (inode_or_new _ _ ino Hinv) as Hfi.
  destruct (insert_log_spec ages _ ino _ (inv_ep _ _ Hinv) (inv_nodup _ _ Hinv) Hfi {| ln_ptr := p; ln_entry := e |})
    as (ep & fi' & r & -> & He & Hnd & Hfi' & Hlist & Hrun & Hself & Hother & Hq & Herr).
  { destruct (sys_inodes s !! ino) as [fi|] eqn:E; cbn.
    - intros C. by apply (inv_live _ _ Hinv ino fi) in C.
    - set_solver. }
  cbn [mbind option_bind]. do 2 eexists. split; [reflexivity|].
  apply (sys_inv_queue ages s ep ino fi' {| ln_ptr := p; ln_entry := e |}); try done.
  destruct r; [right; auto|left; auto].
Qed.

Lemma log_only_inv ages s p raw img : sys_inv ages s ->
  exists s', log_only p raw img s = Some s' /\ sys_inv ages s'.
Proof.
  intros Hinv. unfold log_only. destruct (append_log_total raw img _ (inv_j _ _ Hinv)) as (j & e & -> & Hj).
  cbn [mbind option_bind]. eexists. split; [reflexivity|]. apply sys_inv_j; [done|done|set_solver].
Qed.

Lemma sys_checkpoint_inv ages s : sys_inv ages s -> sys_inv ages (sys_checkpoint s).
Proof.
  intros Hinv. unfold sys_checkpoint, epoch_checkpoint. rewrite checkpoint_heads_eq.
  destruct (inv_cp _ _ Hinv) as [leaked [Hi Hh]]. apply sys_inv_j; [|by destruct (inv_j _ _ Hinv)|done].
  apply (sys_inv_cp _ _ _ leaked); [done|]. constructor; cbn; lia.
Qed.

(** The waiting epochs at the two points of the commit thread. *)
Definition waiting_at (pc : jpc) : list Z := match pc with AtTrigger => [] | AtCommit => [1] end.

Lemma jstep_inv pc s pc' s' : no_failure kmem writepages -> sys_inv (waiting_at pc) s ->
  jstep (pc, s) (pc', s') -> sys_inv (waiting_at pc') s'.
Proof.
  intros Hok Hinv Hs. inversion Hs; subst.
  - destruct (log_and_queue_inv _ s p raw ino (op_image o) Hinv) as (s1 & r1 & E & Hinv1); [done|]. congruence.
  - destruct (log_only_inv _ s p raw (op_image o) Hinv) as (s1 & E & Hinv1). congruence.
  - destruct (sys_trigger_inv [] s Hinv) as (s1 & E & Hinv1 & _); [set_solver|].
    assert (s1 = s') as -> by congruence. exact Hinv1.
  - destruct (epoch_commit_inv kmem writepages _ s Hinv) as (s1 & r1 & ages1 & E & Hinv1 & _ & _ & Hr & Hr').
    assert (s1 = s') as -> by congruence. by rewrite (Hr (Hr' Hok)) in Hinv1.
  - by apply sys_checkpoint_inv.
Qed.

Lemma jsteps_inv x y : no_failure kmem writepages -> rtc jstep x y ->
  sys_inv (waiting_at x.1) x.2 -> sys_inv (waiting_at y.1) y.2.
Proof.
  intros Hok Hr. induction Hr as [x|[pc1 s1] [pc2 s2] z H1 _ IH]; [done|]. intros Hinv. apply IH. by eapply jstep_inv.
Qed.

Lemma reachable_inv s0 pc s : no_failure kmem writepages -> initial s0 -> rtc jstep (AtTrigger, s0) (pc, s) ->
  sys_inv (waiting_at pc) s.
Proof. intros Hok Hi Hr. apply (jsteps_inv _ _ Hok Hr). by apply initial_inv. Qed.

(** ** What a commit round does *)

(** An inode without registrations has no queued log. *)
Lemma unregistered_no_logs regs fi : inode_wf regs fi -> (forall g, ~ regs g) -> all_logs fi = [].
Proof.
  intros Hfi Hn. unfold all_logs. apply concat_nil_Forall, Forall_fmap, Forall_lookup. intros k ep E.
  apply (iwf_idle _ _ Hfi (Z.of_nat k) ep); [lia|unfold local_at; by rewrite Nat2Z.id|]. by intros g ?%Hn.
Qed.

(** A queued log is queued for an epoch the inode is registered in. *)
Lemma queued_epoch ages s ino fi n : sys_inv ages s -> sys_inodes s !! ino = Some fi -> n ∈ all_logs fi ->
  exists g, registered (sys_ep s) ino g /\ n ∈ epoch_logs s g ino.
Proof.
  intros Hinv E Hn. pose proof (inv_inodes _ _ Hinv ino fi E) as Hfi.
  unfold all_logs in Hn. apply list_elem_of_In, in_concat in Hn as (ns & Hns%list_elem_of_In & Hin%list_elem_of_In).
  apply list_elem_of_fmap in Hns as (ep & -> & [k Hk]%list_elem_of_lookup_1).
  assert (Ek : local_at fi (Z.of_nat k) = Some ep) by (unfold local_at; by rewrite Nat2Z.id).
  assert (Hk8 : (k < 8)%nat) by (rewrite <-(iwf_lists _ _ Hfi); by eapply lookup_lt_Some).
  destruct (decide (Exists (fun g => g2l_at fi g = Some (Z.of_nat k) /\ registered (sys_ep s) ino g) (seqZ 0 8)))
    as [Hex|Hno].
  - apply list.Exists_exists in Hex as (g & _ & Eg & Hr). exists g. split; [done|].
    unfold epoch_logs. by rewrite E, Eg, Ek.
  - exfalso. destruct (iwf_idle _ _ Hfi (Z.of_nat k) ep ltac:(lia) Ek) as [_ Hempty].
    + intros g Hr Eg. apply Hno, list.Exists_exists. exists g. split; [|done]. apply elem_of_seqZ.
      destruct (iwf_reg _ _ Hfi g Hr) as [? _]. lia.
    + rewrite Hempty in Hin. by apply elem_of_nil in Hin.
Qed.

(** C21: One commit iteration of the commit thread (every fifth second, once the
    journal was cleared) from a state with nothing waiting commits everything
    that is queued: it succeeds, switches to the next epoch round the ring of
    eight, adds one head to the checkpoint list whose records are those of the
    logs of the epoch's inodes, in registration and queueing order, every log
    queued on any inode is among them, and no inode has a queued log left. *)
Theorem commit_tick_commits_all (s : jsys) :
  no_failure kmem writepages -> sys_inv [] s -> is_clean_jfile s = true ->
  u64 (commt_thread_cnt s + 1) mod J_COMMIT_INTERVAL = 0 ->
  let run := g_running_ep (sys_ep s) in
  let records := epoch_records writepages s run (epoch_inos (sys_ep s) run) in
  exists s', j_ep_commit_kthread_tick kmem writepages s = Some s' /\ sys_inv [] s' /\
    g_running_ep (sys_ep s') = (run + 1) mod 8 /\
    g_checkpoint_list (sys_cp s') = g_checkpoint_list (sys_cp s) ++ [records] /\
    (forall ino fi n, sys_inodes s !! ino = Some fi -> n ∈ all_logs fi ->
       cp_record writepages ino (log_image (j_pages (j_file_mmap (sys_j s))) n) ∈ records) /\
    (forall ino fi, sys_inodes s' !! ino = Some fi -> all_logs fi = []).
Proof.
  intros Hok Hinv Hclean Hcnt run records. unfold j_ep_commit_kthread_tick.
  cbn [with_threads is_clean_jfile commt_thread_cnt]. rewrite Hclean. cbn [mbind option_bind with_threads commt_thread_cnt].
  rewrite Hcnt. cbn [Z.eqb]. apply (sys_inv_threads [] s (u64 (commt_thread_cnt s + 1)) true (cp_thread_cnt s)) in Hinv as Hinv0.
  set (s0 := with_threads s _ _ _) in *.
  destruct (sys_trigger_inv [] s0 Hinv0) as (s1 & -> & Hinv1 & Hsame & Hrun1 & Hl1 & Ei1 & Ej1 & Ec1); [set_solver|].
  cbn [mbind option_bind]. unfold epoch_commit, is_g_commit_ep_empty. rewrite Hl1.
  change (to_be_commit_list (sys_ep s0)) with (to_be_commit_list (sys_ep s)) in *.
  rewrite (ewf_list _ _ (inv_ep _ _ Hinv)) in *. cbn [fmap list_fmap commit_epochs].
  change (g_running_ep (sys_ep s0)) with run in *.
  destruct (commit_epoch_inv kmem writepages 1 [] s1 run [] Hinv1 Hl1)
    as (s2 & r2 & -> & _ & [(-> & Ek & _)|(-> & _ & Hinv2 & El2 & Hrun2 & Hreg & Hrec)]); [by rewrite (proj1 Hok) in Ek|].
  cbn [mbind option_bind]. rewrite decide_True by done. cbn [mbind option_bind].
  assert (Erec : epoch_records writepages s1 run (epoch_inos (sys_ep s1) run) = records).
  { transitivity (epoch_records writepages s run (epoch_inos (sys_ep s1) run)).
    - apply epoch_records_ext; [by rewrite Ej1|]. intros j _. by rewrite Ei1.
    - subst records. f_equal. unfold epoch_inos.
      destruct (epoch_at_some _ _ run (inv_ep _ _ Hinv) (ewf_run _ _ (inv_ep _ _ Hinv))) as (e & E & _).
      destruct (proj2 Hsame run e E) as (e' & -> & -> & _). by rewrite E. }
  exists s2. conjs; [done|done|by rewrite Hrun2|by rewrite (Hrec Hok), Erec, Ec1| |].
  - intros ino fi n E Hn. destruct (queued_epoch _ s ino fi n Hinv E Hn) as (g & Hr & Hg).
    destruct (inv_open _ _ Hinv ino g Hr) as [->|Hin].
    + destruct Hr as [_ (e & Ee & Hi)]. subst records. unfold epoch_inos, run. rewrite Ee. by apply epoch_records_elem.
    + rewrite (ewf_list _ _ (inv_ep _ _ Hinv)) in Hin. by apply elem_of_nil in Hin.
  - intros ino fi E. eapply unregistered_no_logs; [by apply (inv_inodes _ _ Hinv2)|]. intros g Hr.
    destruct (inv_open _ _ Hinv2 ino g Hr) as [Hg|Hin]; [|rewrite El2 in Hin; by apply elem_of_nil in Hin].
    apply Hreg, (same_inos_registered _ _ _ _ Hsame) in Hr.
    destruct (inv_open _ _ Hinv ino g Hr) as [Hg'|Hin].
    + pose proof (ewf_run _ _ (inv_ep _ _ Hinv)) as Hb. fold run in Hg', Hb. rewrite Hrun2, Hrun1 in Hg. clear -Hg Hg' Hb. zdiv.
    + rewrite (ewf_list _ _ (inv_ep _ _ Hinv)) in Hin. by apply elem_of_nil in Hin.
Qed.

(** ** The checkpoint thread *)

(** One iteration of the checkpoint thread writes one checkpoint exactly
    when the checkpoint list is not empty, the free journal space is not
    reported as 0, and either at most 5% of the journal size is free or the
    iteration count is a multiple of 3; it then empties the list and frees the
    whole journal.  Otherwise only the iteration count changes.  In
    particular a journal that is exactly full is never checkpointed. *)
Theorem checkpoint_tick_decision (s : jsys) :
  let cnt := u64 (cp_thread_cnt s + 1) in
  let free := get_on_disk_free_journal_space (sys_j s) in
  let due := negb (is_g_checkpoint_cp_list_empty (sys_cp s)) && negb (free =? 0) &&
             ((20 * free <=? JOURNAL_FILE_SIZE) || (cnt mod 3 =? 0)) in
  let s' := j_checkpoint_kthread_tick s in
  cp_thread_cnt s' = cnt /\
  (due = true -> cp_written (sys_cp s') = cp_written (sys_cp s) + 1 /\ g_checkpoint_list (sys_cp s') = [] /\
                 used_file_size (g_on_disk_j_file (sys_j s')) = 0) /\
  (due = false -> s' = with_threads s (commt_thread_cnt s) (is_clean_jfile s) cnt).
Proof.
  cbv zeta. unfold j_checkpoint_kthread_tick. set (s1 := with_threads s _ _ _).
  change (get_on_disk_free_journal_space (sys_j s1)) with (get_on_disk_free_journal_space (sys_j s)).
  set (free := get_on_disk_free_journal_space (sys_j s)). change (cp_thread_cnt s1) with (u64 (cp_thread_cnt s + 1)).
  assert (Hcp : sys_checkpoint s1 = with_journal (with_cp s1 (f2fs_write_checkpoint
            (set_cp_live (set_cp_list (sys_cp s) []) (cp_info_live (sys_cp s) - Z.of_nat (length (concat (g_checkpoint_list (sys_cp s)))))
               (cp_head_live (sys_cp s) - Z.of_nat (length (g_checkpoint_list (sys_cp s)))))))
            (reset_on_disk_journal_space_info (sys_j s)) (log_objs s) (sys_io s)).
  { unfold sys_checkpoint, epoch_checkpoint. by rewrite checkpoint_heads_eq. }
  change (is_g_checkpoint_cp_list_empty (sys_cp s1)) with (is_g_checkpoint_cp_list_empty (sys_cp s)).
  assert (He : is_g_checkpoint_cp_list_empty (sys_cp (sys_checkpoint s1)) = true) by (by rewrite Hcp).
  assert (Hc : cp_thread_cnt (sys_checkpoint s1) = u64 (cp_thread_cnt s + 1)) by (by rewrite Hcp).
  destruct (free =? 0); cbn [negb andb]; [by rewrite andb_false_r|rewrite andb_true_r].
  destruct (is_g_checkpoint_cp_list_empty (sys_cp s)) eqn:Ee; cbn [negb andb].
  - assert (E1 : (if 20 * free <=? JOURNAL_FILE_SIZE then s1 else s1) = s1) by (by destruct (_ <=? _)).
    rewrite E1. change (is_g_checkpoint_cp_list_empty (sys_cp s1)) with (is_g_checkpoint_cp_list_empty (sys_cp s)).
    rewrite Ee. by destruct (_ =? 0).
  - assert (Hdo : cp_written (sys_cp (sys_checkpoint s1)) = cp_written (sys_cp s) + 1 /\
      g_checkpoint_list (sys_cp (sys_checkpoint s1)) = [] /\
      used_file_size (g_on_disk_j_file (sys_j (sys_checkpoint s1))) = 0) by (by rewrite Hcp).
    destruct (20 * free <=? JOURNAL_FILE_SIZE); cbn [orb].
    + rewrite Hc, He. destruct (u64 (cp_thread_cnt s + 1) mod 3 =? 0);
        (conjs; [done|by intros _|intros C; discriminate C]).
    + change (cp_thread_cnt s1) with (u64 (cp_thread_cnt s + 1)).
      change (is_g_checkpoint_cp_list_empty (sys_cp s1)) with (is_g_checkpoint_cp_list_empty (sys_cp s)). rewrite Ee.
      destruct (u64 (cp_thread_cnt s + 1) mod 3 =? 0); (conjs; [done|intros C; first [done|discriminate C]|intros C; first [done|discriminate C]]).
Qed.

(** ** The record of a log *)

(** The inode an operation logs. *)
Definition op_inode (o : journal_op) : VfsInode.t :=
  match o with OpCreate v _ _ | OpMkdir v _ _ | OpUnlink v _ _ => v end.

Lemma create_record v n old rest ino :
  cp_info_of_log writepages ino (encode_create (f2fs_create_log v n old) ++ rest) =
  Some {| log_inode_id := u32 (VfsInode.i_ino v); log_node_id := 0; log_segno := 0 |}.
Proof.
  unfold cp_info_of_log. rewrite (get_le_field 4 0 _ (log_type_code CREATE_LOG)) by (reflexivity || done).
  cbn [log_type_code Z.eqb orb]. do 2 f_equal. apply get_le_field; [reflexivity|apply fits_u32].
Qed.

Lemma unlink_record v n old rest ino :
  cp_info_of_log writepages ino (encode_delete (f2fs_unlink_log v n old) ++ rest) =
  Some {| log_inode_id := u32 (VfsInode.i_ino v); log_node_id := 0; log_segno := 0 |}.
Proof.
  unfold cp_info_of_log. rewrite (get_le_field 4 0 _ (log_type_code UNLINK_LOG)) by (reflexivity || done).
  cbn [log_type_code Z.eqb Pos.eqb orb]. do 2 f_equal. apply get_le_field; [reflexivity|apply fits_u32].
Qed.

(** The commit of a create or mkdir log records the number of the created
    inode, and that of an unlink log would record the number of the unlinked
    inode: the offsets at which [get_cp_info_from_log] reads the mapped log
    agree with the layout the file operations wrote, whatever the rest of
    the slot holds. *)
Theorem log_record_names_inode (ino : Z) (o : journal_op) (rest : list Z) :
  cp_info_of_log writepages ino (op_image o ++ rest) =
  Some {| log_inode_id := u32 (VfsInode.i_ino (op_inode o)); log_node_id := 0; log_segno := 0 |}.
Proof. destruct o; [apply create_record|apply create_record|apply unlink_record]. Qed.
End system.
