(* ===== verification/NodePath.v ===== *)
(** * Block index to node path (node.c, gc.c, node.h, data.c)

    [get_node_path] turns a file block index into the chain of node blocks
    that leads to it; [f2fs_start_bidx_of_node] inverts it from the offset of
    the direct node; [f2fs_get_next_page_offset] skips over a missing subtree. *)

From S2P Require Import Prelude.

(** What the on-disk format header (linux/f2fs_fs.h) provides here.  The
    node identifiers of a node block fill a 4096-byte block without its
    24-byte footer, and so do the addresses of a direct node. *)
Class F2fsFsNode := {
  NIDS_PER_BLOCK : Z; DEF_ADDRS_PER_BLOCK : Z;
  NODE_DIR1_BLOCK : Z; NODE_DIR2_BLOCK : Z; NODE_IND1_BLOCK : Z; NODE_IND2_BLOCK : Z; NODE_DIND_BLOCK : Z;
  nids_range : 0 < NIDS_PER_BLOCK <= 1018;
  addrs_range : 0 < DEF_ADDRS_PER_BLOCK <= 1018
}.

(** What the path computation reads of an inode: the number of addresses in
    the inode block ([CUR_ADDRS_PER_INODE] minus the inline xattr), whether
    the file is compressed and its cluster size. *)
Record node_inode := { cur_addrs : Z; f2fs_compressed_file : bool; i_cluster_size : Z }.

(** [ALIGN_DOWN] by subtraction of the remainder; the cluster size is a power
    of two. *)
Definition ALIGN_DOWN (x a : Z) : Z := x - x mod a.

Section path.
Context `{F2fsFsNode}.

Definition addrs_per_inode (i : node_inode) : Z :=
  if negb (f2fs_compressed_file i) then cur_addrs i else ALIGN_DOWN (cur_addrs i) (i_cluster_size i).

Definition addrs_per_block (i : node_inode) : Z :=
  if negb (f2fs_compressed_file i) then DEF_ADDRS_PER_BLOCK else ALIGN_DOWN DEF_ADDRS_PER_BLOCK (i_cluster_size i).

(** The level and the assigned prefixes of [offset] and [noffset]. *)
Record node_path := { level : Z; offset : list Z; noffset : list Z }.

(** [get_node_path]; [None] is [-E2BIG]. *)
Definition get_node_path (i : node_inode) (block : Z) : option node_path :=
  let direct_index := addrs_per_inode i in
  let direct_blks := addrs_per_block i in
  let dptrs_per_blk := NIDS_PER_BLOCK in
  let indirect_blks := direct_blks * NIDS_PER_BLOCK in
  let dindirect_blks := indirect_blks * NIDS_PER_BLOCK in
  if block <? direct_index then Some {| level := 0; offset := [block]; noffset := [0] |} else
  let block := block - direct_index in
  if block <? direct_blks
  then Some {| level := 1; offset := [NODE_DIR1_BLOCK; block]; noffset := [0; 1] |} else
  let block := block - direct_blks in
  if block <? direct_blks
  then Some {| level := 1; offset := [NODE_DIR2_BLOCK; block]; noffset := [0; 2] |} else
  let block := block - direct_blks in
  if block <? indirect_blks
  then let o1 := block / direct_blks in
       Some {| level := 2; offset := [NODE_IND1_BLOCK; o1; block mod direct_blks];
               noffset := [0; 3; u32 (4 + o1)] |} else
  let block := block - indirect_blks in
  if block <? indirect_blks
  then let o1 := block / direct_blks in
       Some {| level := 2; offset := [NODE_IND2_BLOCK; o1; block mod direct_blks];
               noffset := [0; u32 (4 + dptrs_per_blk); u32 (5 + dptrs_per_blk + o1)] |} else
  let block := block - indirect_blks in
  if block <? dindirect_blks
  then let o1 := block / indirect_blks in
       let o2 := (block / direct_blks) mod dptrs_per_blk in
       Some {| level := 3; offset := [NODE_DIND_BLOCK; o1; o2; block mod direct_blks];
               noffset := [0; u32 (5 + dptrs_per_blk * 2);
                           u32 (6 + dptrs_per_blk * 2 + o1 * (dptrs_per_blk + 1));
                           u32 (7 + dptrs_per_blk * 2 + o1 * (dptrs_per_blk + 1) + o2)] |}
  else None.

(** [f2fs_start_bidx_of_node]. *)
Definition f2fs_start_bidx_of_node (node_ofs : Z) (i : node_inode) : Z :=
  let indirect_blks := 2 *! NIDS_PER_BLOCK +! 4 in
  if node_ofs =? 0 then 0
  else
    let bidx :=
      if node_ofs <=? 2 then node_ofs -! 1
      else if node_ofs <=? indirect_blks
      then let dec := (node_ofs -! 4) / (NIDS_PER_BLOCK +! 1) in node_ofs -! 2 -! dec
      else let dec := (node_ofs -! indirect_blks -! 3) / (NIDS_PER_BLOCK +! 1) in node_ofs -! 5 -! dec in
    (bidx *! addrs_per_block i) +! addrs_per_inode i.

(** [IS_DNODE] on a node offset; the xattr block's offset is tested by the
    caller's argument. *)
Definition IS_DNODE (f2fs_has_xattr_block : Z -> bool) (ofs : Z) : bool :=
  if f2fs_has_xattr_block ofs then true
  else if (ofs =? 3) || (ofs =? 4 + NIDS_PER_BLOCK) || (ofs =? 5 + 2 * NIDS_PER_BLOCK) then false
  else if (6 + 2 * NIDS_PER_BLOCK <=? ofs) && ((ofs - (6 + 2 * NIDS_PER_BLOCK)) mod (NIDS_PER_BLOCK + 1) =? 0)
  then false else true.

Definition max_inode_blocks (i : node_inode) : Z :=
  let result := addrs_per_inode i in
  let leaf_count := addrs_per_block i in
  let result := result + leaf_count * 2 in
  let leaf_count := leaf_count * NIDS_PER_BLOCK in
  let result := result + leaf_count * 2 in
  let leaf_count := leaf_count * NIDS_PER_BLOCK in
  result + leaf_count.

(** [max_file_blocks] of a file: the limit of its size, without the inode's own addresses. *)
Definition max_file_blocks (i : node_inode) : Z :=
  let leaf_count := if f2fs_compressed_file i then addrs_per_block i else DEF_ADDRS_PER_BLOCK in
  let result := leaf_count * 2 in
  let leaf_count := leaf_count * NIDS_PER_BLOCK in
  let result := result + leaf_count * 2 in
  let leaf_count := leaf_count * NIDS_PER_BLOCK in
  result + leaf_count.
Lemma max_blocks i : max_inode_blocks i = max_file_blocks i + addrs_per_inode i.
Proof. unfold max_inode_blocks, max_file_blocks. unfold addrs_per_block. destruct (f2fs_compressed_file i); cbn [negb]; lia. Qed.

(** The loop of [f2fs_get_next_page_offset]. *)
Fixpoint skip_levels (n : nat) (skipped_unit : Z) : Z :=
  match n with O => skipped_unit | S n => skip_levels n (skipped_unit *! NIDS_PER_BLOCK) end.

(** [f2fs_get_next_page_offset]; [None] is the bug trap on an impossible
    level. *)
Definition f2fs_get_next_page_offset (i : node_inode) (cur_level max_level pgofs : Z) : option Z :=
  let direct_index := addrs_per_inode i in
  let direct_blks := addrs_per_block i in
  let indirect_blks := direct_blks * NIDS_PER_BLOCK in
  if max_level =? 0 then Some (pgofs + 1)
  else
    let skipped_unit := skip_levels (Z.to_nat (max_level - cur_level)) (addrs_per_block i) in
    base ← (if max_level =? 3 then Some (2 * indirect_blks + 2 * direct_blks + direct_index)
            else if max_level =? 2 then Some (2 * direct_blks + direct_index)
            else if max_level =? 1 then Some direct_index
            else None);
    Some (((pgofs - base) / skipped_unit + 1) * skipped_unit + base).

(** ** Correctness *)

(** The inode's address counts are those of a block. *)
Record inode_ok (i : node_inode) : Prop := {
  iok_direct : 0 <= addrs_per_inode i <= 1018;
  iok_block : 0 < addrs_per_block i <= 1018
}.

Lemma uncompressed_ok i : f2fs_compressed_file i = false -> 0 <= cur_addrs i <= 1018 -> inode_ok i.
Proof. intros Hc Hr. pose proof addrs_range. constructor; unfold addrs_per_inode, addrs_per_block; rewrite Hc; cbn; lia. Qed.

(** Clusters are whole powers of two no larger than the address area. *)
Lemma compressed_ok i : f2fs_compressed_file i = true -> 0 <= cur_addrs i <= 1018 ->
  0 < i_cluster_size i <= DEF_ADDRS_PER_BLOCK -> inode_ok i.
Proof.
  intros Hc Hr Hs. pose proof addrs_range as Ha.
  pose proof (Z.mod_pos_bound (cur_addrs i) (i_cluster_size i) ltac:(lia)).
  pose proof (Z.mod_pos_bound DEF_ADDRS_PER_BLOCK (i_cluster_size i) ltac:(lia)).
  pose proof (Z.mod_le (cur_addrs i) (i_cluster_size i) ltac:(lia) ltac:(lia)).
  constructor; unfold addrs_per_inode, addrs_per_block, ALIGN_DOWN; rewrite Hc; cbn; lia.
Qed.

Section inverse.
Context (i : node_inode) (Hi : inode_ok i).
#[local] Abbreviation N := (@NIDS_PER_BLOCK H).
#[local] Abbreviation B := (addrs_per_block i).
#[local] Abbreviation D := (addrs_per_inode i).

Lemma mul_le_bound a b ma mb : 0 <= a <= ma -> 0 <= b <= mb -> 0 <= a * b <= ma * mb.
Proof. intros. split; [nia|]. apply Z.mul_le_mono_nonneg; lia. Qed.

(** The start of direct node number [k] (counting direct nodes only). *)
Lemma start_of_index k : 0 <= k -> k * B + D < 2 ^ 32 -> (k *! B) +! D = k * B + D.
Proof.
  intros Hk Hb. destruct Hi as [Hd Hbl]. assert (0 <= k * B) by nia.
  rewrite (u32_small (k * B)) by lia. apply u32_small. lia.
Qed.

Lemma start_direct n : 1 <= n <= 2 -> f2fs_start_bidx_of_node n i = (n - 1) * B + D.
Proof.
  intros Hn. destruct Hi as [Hd Hbl]. unfold f2fs_start_bidx_of_node. rewrite (proj2 (Z.eqb_neq n 0)) by lia.
  rewrite (proj2 (Z.leb_le n 2)) by lia. rewrite (u32_small (n - 1)) by lia. apply start_of_index; nia.
Qed.

(** Offsets of the direct nodes under the two indirect nodes. *)
Lemma start_indirect n dec : 4 <= n <= 2 * N + 4 -> (n - 4) / (N + 1) = dec ->
  f2fs_start_bidx_of_node n i = (n - 2 - dec) * B + D.
Proof.
  intros Hn Hdec. destruct Hi as [Hd Hbl]. pose proof nids_range as HN. unfold f2fs_start_bidx_of_node.
  rewrite (u32_small (2 * N)), (u32_small (2 * N + 4)), (u32_small (n - 4)), (u32_small (N + 1)) by lia.
  rewrite (proj2 (Z.eqb_neq n 0)), (proj2 (Z.leb_gt n 2)), (proj2 (Z.leb_le n _)), Hdec by lia.
  assert (0 <= (n - 4) / (N + 1)) by (apply Z.div_pos; lia).
  assert ((n - 4) / (N + 1) < 2) by (apply Z.div_lt_upper_bound; lia).
  rewrite (u32_small (n - 2)), (u32_small (n - 2 - dec)) by lia. apply start_of_index; [lia|].
  pose proof (mul_le_bound (n - 2 - dec) B 2038 1018 ltac:(lia) ltac:(lia)). lia.
Qed.

(** Offsets of the direct nodes under the double indirect node. *)
Lemma start_dindirect o1 o2 : 0 <= o1 < N -> 0 <= o2 < N ->
  f2fs_start_bidx_of_node (7 + N * 2 + o1 * (N + 1) + o2) i = (2 + 2 * N + o1 * N + o2) * B + D.
Proof.
  intros H1 H2. destruct Hi as [Hd Hbl]. pose proof nids_range as HN. unfold f2fs_start_bidx_of_node.
  set (n := 7 + N * 2 + o1 * (N + 1) + o2).
  pose proof (mul_le_bound o1 (N + 1) 1018 1019 ltac:(lia) ltac:(lia)) as Hm.
  rewrite (u32_small (2 * N)), (u32_small (2 * N + 4)), (u32_small (n - (2 * N + 4))), (u32_small (N + 1)) by lia.
  rewrite (u32_small (n - (2 * N + 4) - 3)) by lia.
  rewrite (proj2 (Z.eqb_neq n 0)), (proj2 (Z.leb_gt n 2)), (proj2 (Z.leb_gt n _)) by lia.
  replace ((n - (2 * N + 4) - 3) / (N + 1)) with o1.
  2: { apply (Z.div_unique _ _ _ o2); [left; lia|]. unfold n. lia. }
  rewrite (u32_small (n - 5)), (u32_small (n - 5 - o1)) by lia.
  replace (n - 5 - o1) with (2 + 2 * N + o1 * N + o2) by (unfold n; lia).
  pose proof (mul_le_bound o1 N 1018 1018 ltac:(lia) ltac:(lia)).
  apply start_of_index; [lia|]. pose proof (mul_le_bound (2 + 2 * N + o1 * N + o2) B 1040000 1018 ltac:(lia) ltac:(lia)). lia.
Qed.

(** The quotients of the double indirect region. *)
Lemma dind_quotients b : 0 <= b < B * N * N ->
  0 <= b / (B * N) < N /\ 0 <= (b / B) mod N < N /\ 0 <= b mod B < B /\
  b = (b / (B * N) * N + (b / B) mod N) * B + b mod B.
Proof.
  intros Hb. destruct Hi as [Hd Hbl]. pose proof nids_range as HN.
  pose proof (Z.mod_pos_bound (b / B) N ltac:(lia)). pose proof (Z.mod_pos_bound b B ltac:(lia)).
  rewrite <-Z.div_div by lia. pose proof (Z.div_mod b B ltac:(lia)) as E1.
  pose proof (Z.div_mod (b / B) N ltac:(lia)) as E2.
  conjs; try lia.
  - apply Z.div_pos; [|lia]. apply Z.div_pos; lia.
  - apply Z.div_lt_upper_bound; [lia|]. apply Z.div_lt_upper_bound; [lia|]. lia.
Qed.

Lemma ind_quotients b : 0 <= b < B * N -> 0 <= b / B < N /\ 0 <= b mod B < B /\ b = b / B * B + b mod B.
Proof.
  intros Hb. destruct Hi as [Hd Hbl]. pose proof nids_range as HN.
  pose proof (Z.mod_pos_bound b B ltac:(lia)). pose proof (Z.div_mod b B ltac:(lia)).
  conjs; try lia; [apply Z.div_pos; lia|apply Z.div_lt_upper_bound; lia].
Qed.

(** What it means for a path to lead to [block]. *)
Definition leads_to (p : node_path) (block : Z) : Prop :=
  0 <= level p <= 3 /\ Z.of_nat (length (offset p)) = level p + 1 /\ Z.of_nat (length (noffset p)) = level p + 1 /\
  exists n o, noffset p !! Z.to_nat (level p) = Some n /\ offset p !! Z.to_nat (level p) = Some o /\
    0 <= o < (if level p =? 0 then D else B) /\ IS_DNODE (fun _ => false) n = true /\
    f2fs_start_bidx_of_node n i + o = block.

Lemma leads_to_intro l offs nofs n o block : 0 <= l <= 3 -> Z.of_nat (length offs) = l ->
  Z.of_nat (length nofs) = l -> 0 <= o < (if l =? 0 then D else B) -> IS_DNODE (fun _ => false) n = true ->
  f2fs_start_bidx_of_node n i + o = block ->
  leads_to {| level := l; offset := offs ++ [o]; noffset := nofs ++ [n] |} block.
Proof.
  intros. unfold leads_to. cbn. rewrite !length_app. conjs; cbn; try lia. exists n, o. rewrite !lookup_app_r by lia.
  replace (Z.to_nat l - length offs)%nat with 0%nat by lia. replace (Z.to_nat l - length nofs)%nat with 0%nat by lia. conjs; (done || tauto).
Qed.

Lemma is_dnode_low n : 0 <= n < 5 + 2 * N -> n <> 3 -> n <> 4 + N -> IS_DNODE (fun _ => false) n = true.
Proof.
  intros Hn H3 H4. unfold IS_DNODE. rewrite !(proj2 (Z.eqb_neq _ _)) by lia. cbn [orb].
  by rewrite (proj2 (Z.leb_gt _ _)) by lia.
Qed.

Lemma is_dnode_dind o1 o2 : 0 <= o1 -> 0 <= o2 < N -> IS_DNODE (fun _ => false) (7 + N * 2 + o1 * (N + 1) + o2) = true.
Proof.
  intros H1 H2. pose proof nids_range as HN. unfold IS_DNODE. assert (0 <= o1 * (N + 1)) by nia.
  rewrite !(proj2 (Z.eqb_neq _ _)) by lia. cbn [orb]. rewrite (proj2 (Z.eqb_neq (_ mod _) 0)); [by rewrite andb_false_r|].
  replace (7 + N * 2 + o1 * (N + 1) + o2 - (6 + 2 * N)) with (1 + o2 + o1 * (N + 1)) by lia.
  rewrite Z.mod_add, Z.mod_small by lia. lia.
Qed.

(** The branches of [get_node_path], one lemma per region of the file. *)
Lemma path_direct block : 0 <= block < D ->
  leads_to {| level := 0; offset := [block]; noffset := [0] |} block.
Proof. intros Hb. pose proof nids_range. apply (leads_to_intro 0 [] [] 0 block); [lia|done|done|done|apply is_dnode_low; lia|done]. Qed.

Lemma path_dir n c b : 1 <= n <= 2 -> 0 <= b < B ->
  leads_to {| level := 1; offset := [c; b]; noffset := [0; n] |} (D + (n - 1) * B + b).
Proof.
  intros Hn Hb. pose proof nids_range. apply (leads_to_intro 1 [c] [0] n b); [lia|done|done|done|apply is_dnode_low; lia|].
  rewrite start_direct by done. lia.
Qed.

(** The direct node [o1] under the first ([k = 0]) or second ([k = 1])
    indirect node. *)
Lemma path_ind k c m b : 0 <= k <= 1 -> 0 <= b < B * N ->
  leads_to {| level := 2; offset := [c; b / B; b mod B]; noffset := [0; m; u32 (4 + k * (N + 1) + b / B)] |}
    (D + 2 * B + k * (B * N) + b).
Proof.
  intros Hk Hb. pose proof nids_range as HN. destruct (ind_quotients b Hb) as (Hq & Hm & E).
  assert (0 <= k * (N + 1) <= N + 1) by nia.
  rewrite (u32_small (4 + k * (N + 1) + b / B)) by lia.
  apply (leads_to_intro 2 [c; b / B] [0; m]); [lia|done|done|done|apply is_dnode_low; nia|].
  rewrite (start_indirect _ k); [nia|nia|].
  symmetry. apply (Z.div_unique _ _ _ (b / B)); [left; lia|]. lia.
Qed.

Lemma path_dind c m m' b : 0 <= b < B * N * N ->
  leads_to {| level := 3; offset := [c; b / (B * N); (b / B) mod N; b mod B];
              noffset := [0; m; m'; u32 (7 + N * 2 + b / (B * N) * (N + 1) + (b / B) mod N)] |}
    (D + 2 * B + 2 * (B * N) + b).
Proof.
  intros Hb. pose proof nids_range as HN. destruct (dind_quotients b Hb) as (H1 & H2 & Hm & E).
  pose proof (mul_le_bound (b / (B * N)) (N + 1) 1018 1019 ltac:(lia) ltac:(lia)).
  rewrite u32_small by lia.
  apply (leads_to_intro 3 [c; b / (B * N); (b / B) mod N] [0; m; m']); [lia|done|done|done|by apply is_dnode_dind; lia|].
  rewrite start_dindirect by done. lia.
Qed.
End inverse.

(** The blocks that have a path. *)
Lemma path_reaches (i : node_inode) (block : Z) :
  inode_ok i -> 0 <= block ->
  match get_node_path i block with
  | Some p => block < max_inode_blocks i /\ leads_to i p block
  | None => max_inode_blocks i <= block
  end.
Proof.
  intros Hi Hb. pose proof nids_range as HN. destruct Hi as [Hd Hbl] eqn:E0. clear E0.
  unfold get_node_path, max_inode_blocks.
  set (D := addrs_per_inode i) in *. set (B := addrs_per_block i) in *. set (N := NIDS_PER_BLOCK) in *.
  assert (HBN : 0 < B * N) by nia. assert (HBNN : 0 < B * N * N) by nia.
  destruct (block <? D) eqn:E1; [split; [lia|]; apply path_direct; fold D; lia|].
  destruct (block - D <? B) eqn:E2.
  { split; [lia|]. pose proof (path_dir i Hi 1 NODE_DIR1_BLOCK (block - D) ltac:(lia) ltac:(fold B; lia)) as P.
    fold B D in P. by replace (D + (1 - 1) * B + (block - D)) with block in P by lia. }
  destruct (block - D - B <? B) eqn:E3.
  { split; [lia|]. pose proof (path_dir i Hi 2 NODE_DIR2_BLOCK (block - D - B) ltac:(lia) ltac:(fold B; lia)) as P.
    fold B D in P. by replace (D + (2 - 1) * B + (block - D - B)) with block in P by lia. }
  destruct (block - D - B - B <? B * N) eqn:E4.
  { split; [lia|]. pose proof (path_ind i Hi 0 NODE_IND1_BLOCK 3 (block - D - B - B) ltac:(lia) ltac:(fold B N; lia)) as P.
    fold B D N in P. replace (4 + 0 * (N + 1)) with 4 in P by lia.
    by replace (D + 2 * B + 0 * (B * N) + (block - D - B - B)) with block in P by lia. }
  destruct (block - D - B - B - B * N <? B * N) eqn:E5.
  { split; [lia|]. pose proof (path_ind i Hi 1 NODE_IND2_BLOCK (u32 (4 + N)) (block - D - B - B - B * N) ltac:(lia)
      ltac:(fold B N; lia)) as P. fold B D N in P. replace (4 + 1 * (N + 1)) with (5 + N) in P by lia.
    by replace (D + 2 * B + 1 * (B * N) + (block - D - B - B - B * N)) with block in P by lia. }
  destruct (block - D - B - B - B * N - B * N <? B * N * N) eqn:E6; [|lia].
  split; [lia|]. pose proof (path_dind i Hi NODE_DIND_BLOCK (u32 (5 + N * 2))
    (u32 (6 + N * 2 + (block - D - B - B - B * N - B * N) / (B * N) * (N + 1)))
    (block - D - B - B - B * N - B * N) ltac:(fold B N; lia)) as P. fold B D N in P.
  by replace (D + 2 * B + 2 * (B * N) + (block - D - B - B - B * N - B * N)) with block in P by lia.
Qed.

(** C30: [get_node_path] reaches exactly the blocks below [max_inode_blocks], the number of
    places in the inode and its trees, and
    inverts [f2fs_start_bidx_of_node]: for such a block the path has at most
    three levels, its last node is a direct node (or the inode), the last
    offset is inside that node, and the start index of that node plus the
    offset is the block; for any other block the result is [-E2BIG].  In particular every
    block below the limit of the file size, [max_file_blocks], has a path. *)
Theorem node_path_roundtrip (i : node_inode) (block : Z) :
  inode_ok i -> 0 <= block ->
  match get_node_path i block with
  | Some p => block < max_inode_blocks i /\ leads_to i p block
  | None => max_inode_blocks i <= block /\ max_file_blocks i <= block
  end.
Proof.
  intros Hi Hb. pose proof (path_reaches i block Hi Hb) as Hr. pose proof (max_blocks i). destruct (iok_direct i Hi). destruct (get_node_path i block); [done|lia].
Qed.
End path.
