(* ===== verification/FreeNid.v ===== *)
(** * Free node ids (node.c, node.h, f2fs.h)

    A cache of node ids that may be allocated: [free_nid_root] holds the free
    and the preallocated ids, [free_nid_list] the free ones, and a bitmap per
    scanned block of the node address table (NAT) the ids found free in it.
    The cache is filled by scanning NAT blocks and the NAT journal. *)

From S2P Require Import Prelude.

(** What the on-disk format header provides. *)
Class NatFormat := {
  NAT_ENTRY_PER_BLOCK : Z; NULL_ADDR : Z; NEW_ADDR : Z;
  nat_entries_range : 0 < NAT_ENTRY_PER_BLOCK < 2 ^ 16;
  nat_addrs : NULL_ADDR <> NEW_ADDR
}.

Inductive nid_state := FREE_NID | PREALLOC_NID.
#[export] Instance nid_state_eq_dec : EqDecision nid_state.
Proof. solve_decision. Defined.

(** The free id part of [struct f2fs_nm_info]; a bit of [free_nid_bitmap] is
    the pair of its block and its offset. *)
Record f2fs_nm_info := {
  max_nid : Z; available_nids : Z; next_scan_nid : Z; nat_blocks : Z;
  free_nid_root : gmap Z nid_state; free_nid_list : list Z; cnt_free : Z; cnt_prealloc : Z;
  nat_block_bitmap : gset Z; free_nid_bitmap : gset (Z * Z); free_nid_count : gmap Z Z
}.

(** The tree, the list and the counters replaced. *)
Definition set_nids (nm : f2fs_nm_info) (r : gmap Z nid_state) (l : list Z) (cf cp : Z) : f2fs_nm_info :=
  {| max_nid := max_nid nm; available_nids := available_nids nm; next_scan_nid := next_scan_nid nm; nat_blocks := nat_blocks nm;
     free_nid_root := r; free_nid_list := l; cnt_free := cf; cnt_prealloc := cp;
     nat_block_bitmap := nat_block_bitmap nm; free_nid_bitmap := free_nid_bitmap nm; free_nid_count := free_nid_count nm |}.
Definition set_bits (nm : f2fs_nm_info) (blocks : gset Z) (bits : gset (Z * Z)) (count : gmap Z Z) : f2fs_nm_info :=
  {| max_nid := max_nid nm; available_nids := available_nids nm; next_scan_nid := next_scan_nid nm; nat_blocks := nat_blocks nm;
     free_nid_root := free_nid_root nm; free_nid_list := free_nid_list nm; cnt_free := cnt_free nm; cnt_prealloc := cnt_prealloc nm;
     nat_block_bitmap := blocks; free_nid_bitmap := bits; free_nid_count := count |}.
Definition set_available (nm : f2fs_nm_info) (a : Z) : f2fs_nm_info :=
  {| max_nid := max_nid nm; available_nids := a; next_scan_nid := next_scan_nid nm; nat_blocks := nat_blocks nm;
     free_nid_root := free_nid_root nm; free_nid_list := free_nid_list nm; cnt_free := cnt_free nm; cnt_prealloc := cnt_prealloc nm;
     nat_block_bitmap := nat_block_bitmap nm; free_nid_bitmap := free_nid_bitmap nm; free_nid_count := free_nid_count nm |}.
Definition set_next_scan (nm : f2fs_nm_info) (n : Z) : f2fs_nm_info :=
  {| max_nid := max_nid nm; available_nids := available_nids nm; next_scan_nid := n; nat_blocks := nat_blocks nm;
     free_nid_root := free_nid_root nm; free_nid_list := free_nid_list nm; cnt_free := cnt_free nm; cnt_prealloc := cnt_prealloc nm;
     nat_block_bitmap := nat_block_bitmap nm; free_nid_bitmap := free_nid_bitmap nm; free_nid_count := free_nid_count nm |}.

(** The counter of a state. *)
Definition nid_cnt (nm : f2fs_nm_info) (st : nid_state) : Z :=
  match st with FREE_NID => cnt_free nm | PREALLOC_NID => cnt_prealloc nm end.

(** A cached NAT entry: its [IS_CHECKPOINTED] flag and its block address. *)
Record nat_entry := { is_checkpointed : bool; nat_get_blkaddr : Z }.

(** What a build reads: the NAT cache, the NAT blocks by offset (or the error
    of reading one), and the NAT journal of the current summary. *)
Record nat_env := { nat_cache : Z -> option nat_entry; get_current_nat_page : Z -> option (Z -> Z); nat_journal : list (Z * Z) }.

Section free_nid.
Context `{NatFormat}.

Definition NAT_BLOCK_OFFSET (nid : Z) : Z := nid / NAT_ENTRY_PER_BLOCK.
Definition START_NID (nid : Z) : Z := nid / NAT_ENTRY_PER_BLOCK * NAT_ENTRY_PER_BLOCK.
Definition FREE_NID_PAGES : Z := 8.
Definition MAX_FREE_NIDS : Z := NAT_ENTRY_PER_BLOCK * FREE_NID_PAGES.
Definition SHRINK_NID_BATCH_SIZE : Z := 8.

(** The number of the root inode, of the super block. *)
Context (F2FS_ROOT_INO : Z).

(** [f2fs_check_nid_range]: whether the id is out of range. *)
Definition f2fs_check_nid_range (nm : f2fs_nm_info) (nid : Z) : bool := (nid <? F2FS_ROOT_INO) || (max_nid nm <=? nid).

Definition __lookup_free_nid_list (nm : f2fs_nm_info) (n : Z) : option nid_state := free_nid_root nm !! n.

(** [__insert_free_nid]; the flag is the error of [radix_tree_insert] on an id
    that is there; no result is an insertion into a corrupt list. *)
Definition __insert_free_nid (nm : f2fs_nm_info) (nid : Z) : option (f2fs_nm_info * bool) :=
  match free_nid_root nm !! nid with
  | Some _ => Some (nm, true)
  | None => l ← list_add_tail nid (free_nid_list nm);
            Some (set_nids nm (<[nid := FREE_NID]> (free_nid_root nm)) l (cnt_free nm +! 1) (cnt_prealloc nm), false)
  end.

(** No result is the trap on a wrong state or an entry that is not there. *)
Definition __remove_free_nid (nm : f2fs_nm_info) (nid : Z) (state : nid_state) : option f2fs_nm_info :=
  st ← free_nid_root nm !! nid;
  if decide (state <> st) then None
  else
    match state with
    | FREE_NID => l ← list_del nid (free_nid_list nm);
                  Some (set_nids nm (delete nid (free_nid_root nm)) l (cnt_free nm -! 1) (cnt_prealloc nm))
    | PREALLOC_NID => Some (set_nids nm (delete nid (free_nid_root nm)) (free_nid_list nm) (cnt_free nm) (cnt_prealloc nm -! 1))
    end.

Definition __move_free_nid (nm : f2fs_nm_info) (nid : Z) (org dst : nid_state) : option f2fs_nm_info :=
  st ← free_nid_root nm !! nid;
  if decide (org <> st) then None
  else
    let r := <[nid := dst]> (free_nid_root nm) in
    let cf := match org with FREE_NID => cnt_free nm -! 1 | PREALLOC_NID => cnt_free nm end in
    let cp := match org with FREE_NID => cnt_prealloc nm | PREALLOC_NID => cnt_prealloc nm -! 1 end in
    match dst with
    | PREALLOC_NID => l ← list_del nid (free_nid_list nm); Some (set_nids nm r l cf (cp +! 1))
    | FREE_NID => l ← list_add_tail nid (free_nid_list nm); Some (set_nids nm r l (cf +! 1) cp)
    end.

Definition bit (nid : Z) : Z * Z := (NAT_BLOCK_OFFSET nid, nid - START_NID nid).
Definition count_of (nm : f2fs_nm_info) (nat_ofs : Z) : Z := default 0 (free_nid_count nm !! nat_ofs).

Definition update_free_nid_bitmap (nm : f2fs_nm_info) (nid : Z) (set build : bool) : f2fs_nm_info :=
  let nat_ofs := NAT_BLOCK_OFFSET nid in
  let b := bit nid in
  if decide (nat_ofs ∉ nat_block_bitmap nm) then nm
  else if set then
    if decide (b ∈ free_nid_bitmap nm) then nm
    else set_bits nm (nat_block_bitmap nm) ({[b]} ∪ free_nid_bitmap nm) (<[nat_ofs := u16 (count_of nm nat_ofs + 1)]> (free_nid_count nm))
  else
    if decide (b ∉ free_nid_bitmap nm) then nm
    else set_bits nm (nat_block_bitmap nm) (free_nid_bitmap nm ∖ {[b]})
           (if negb build then <[nat_ofs := u16 (count_of nm nat_ofs - 1)]> (free_nid_count nm) else free_nid_count nm).

(** [add_free_nid]; the result tells whether the id is recognised as free. *)
Definition add_free_nid (cache : Z -> option nat_entry) (nm : f2fs_nm_info) (nid : Z) (build update : bool)
    : option (f2fs_nm_info * bool) :=
  if nid =? 0 then Some (nm, false)
  else if f2fs_check_nid_range nm nid then Some (nm, false)
  else
    let stop :=
      if build then
        match cache nid with
        | Some ne => if negb (is_checkpointed ne) || negb (nat_get_blkaddr ne =? NULL_ADDR) then Some false
                     else match __lookup_free_nid_list nm nid with Some st => Some (bool_decide (st = FREE_NID)) | None => None end
        | None => match __lookup_free_nid_list nm nid with Some st => Some (bool_decide (st = FREE_NID)) | None => None end
        end
      else None in
    '(nm, ret) ← match stop with
                 | Some ret => Some (nm, ret)
                 | None => '(nm, _) ← __insert_free_nid nm nid; Some (nm, true)
                 end;
    let nm := if update then
                let nm := update_free_nid_bitmap nm nid ret build in
                if negb build then set_available nm (available_nids nm +! 1) else nm
              else nm in
    Some (nm, ret).

Definition remove_free_nid (nm : f2fs_nm_info) (nid : Z) : option f2fs_nm_info :=
  match __lookup_free_nid_list nm nid with
  | Some FREE_NID => __remove_free_nid nm nid FREE_NID
  | _ => Some nm
  end.

(** The loop of [scan_nat_page]: [i] is the entry, [n] the entries left. *)
Fixpoint scan_entries (n : nat) (cache : Z -> option nat_entry) (entries : Z -> Z) (i start_nid : Z) (nm : f2fs_nm_info)
    : option (f2fs_nm_info * bool) :=
  match n with
  | O => Some (nm, false)
  | S n =>
      if max_nid nm <=? start_nid then Some (nm, false)
      else
        let blk_addr := entries i in
        if blk_addr =? NEW_ADDR then Some (nm, true)
        else
          nm ← (if blk_addr =? NULL_ADDR then '(nm, _) ← add_free_nid cache nm start_nid true true; Some nm
                else Some (update_free_nid_bitmap nm start_nid false true));
          scan_entries n cache entries (i + 1) (start_nid + 1) nm
  end.

(** [scan_nat_page]; the flag is the error. *)
Definition scan_nat_page (cache : Z -> option nat_entry) (nm : f2fs_nm_info) (entries : Z -> Z) (start_nid : Z)
    : option (f2fs_nm_info * bool) :=
  let nat_ofs := NAT_BLOCK_OFFSET start_nid in
  let nm := set_bits nm ({[nat_ofs]} ∪ nat_block_bitmap nm) (free_nid_bitmap nm) (free_nid_count nm) in
  let i := start_nid mod NAT_ENTRY_PER_BLOCK in
  scan_entries (Z.to_nat (NAT_ENTRY_PER_BLOCK - i)) cache entries i start_nid nm.

(** [scan_curseg_cache] over the journal entries. *)
Fixpoint scan_curseg_cache (cache : Z -> option nat_entry) (journal : list (Z * Z)) (nm : f2fs_nm_info) : option f2fs_nm_info :=
  match journal with
  | [] => Some nm
  | (nid, addr) :: journal =>
      nm ← (if addr =? NULL_ADDR then '(nm, _) ← add_free_nid cache nm nid true false; Some nm else remove_free_nid nm nid);
      scan_curseg_cache cache journal nm
  end.

(** The inner loop of [scan_free_nid_bits] over the offsets of one block; the
    flag tells that enough ids are cached. *)
Fixpoint scan_block_bits (cache : Z -> option nat_entry) (i : Z) (idxs : list Z) (nm : f2fs_nm_info) : option (f2fs_nm_info * bool) :=
  match idxs with
  | [] => Some (nm, false)
  | idx :: idxs =>
      if decide ((i, idx) ∈ free_nid_bitmap nm) then
        '(nm, _) ← add_free_nid cache nm (i * NAT_ENTRY_PER_BLOCK + idx) true false;
        if MAX_FREE_NIDS <=? cnt_free nm then Some (nm, true) else scan_block_bits cache i idxs nm
      else scan_block_bits cache i idxs nm
  end.

Fixpoint scan_blocks (cache : Z -> option nat_entry) (bs : list Z) (nm : f2fs_nm_info) : option f2fs_nm_info :=
  match bs with
  | [] => Some nm
  | i :: bs =>
      if decide (i ∉ nat_block_bitmap nm) then scan_blocks cache bs nm
      else if count_of nm i =? 0 then scan_blocks cache bs nm
      else
        '(nm, out) ← scan_block_bits cache i (seqZ 0 NAT_ENTRY_PER_BLOCK) nm;
        if (out : bool) then Some nm else scan_blocks cache bs nm
  end.

Definition scan_free_nid_bits (env : nat_env) (nm : f2fs_nm_info) : option f2fs_nm_info :=
  nm ← scan_blocks (nat_cache env) (seqZ 0 (nat_blocks nm)) nm;
  scan_curseg_cache (nat_cache env) (nat_journal env) nm.

(** The loop of [__f2fs_build_free_nids] over NAT blocks; the result has the id
    to go on with, or none after an error. *)
Fixpoint build_loop (n : nat) (env : nat_env) (nid : Z) (nm : f2fs_nm_info) : option (f2fs_nm_info * option Z) :=
  match n with
  | O => Some (nm, Some nid)
  | S n =>
      '(nm, err) ← (if decide (NAT_BLOCK_OFFSET nid ∉ nat_block_bitmap nm) then
                      match get_current_nat_page env (NAT_BLOCK_OFFSET nid) with
                      | None => Some (nm, true)
                      | Some page => scan_nat_page (nat_cache env) nm page nid
                      end
                    else Some (nm, false));
      if (err : bool) then Some (nm, None)
      else
        let nid := nid +! (NAT_ENTRY_PER_BLOCK - nid mod NAT_ENTRY_PER_BLOCK) in
        let nid := if max_nid nm <=? nid then 0 else nid in
        build_loop n env nid nm
  end.

(** [__f2fs_build_free_nids]: [memory] is [f2fs_available_free_memory]; the
    flag tells whether it succeeded. *)
Definition __f2fs_build_free_nids (env : nat_env) (memory : bool) (nm : f2fs_nm_info) (sync mount : bool)
    : option (f2fs_nm_info * bool) :=
  let nid := next_scan_nid nm in
  let nid := if max_nid nm <=? nid then 0 else nid in
  let nid := if negb (nid mod NAT_ENTRY_PER_BLOCK =? 0) then NAT_BLOCK_OFFSET nid * NAT_ENTRY_PER_BLOCK else nid in
  if NAT_ENTRY_PER_BLOCK <=? cnt_free nm then Some (nm, true)
  else if negb sync && negb memory then Some (nm, true)
  else
    nm ← (if negb mount then scan_free_nid_bits env nm else Some nm);
    if negb mount && (NAT_ENTRY_PER_BLOCK <=? cnt_free nm) then Some (nm, true)
    else
      '(nm, next) ← build_loop (Z.to_nat FREE_NID_PAGES) env nid nm;
      match next with
      | None => Some (nm, false)
      | Some nid =>
          let nm := set_next_scan nm nid in
          nm ← scan_curseg_cache (nat_cache env) (nat_journal env) nm;
          Some (nm, true)
      end.

(** [f2fs_alloc_nid] without fault injection, while no other build runs:
    [fuel] bounds the retries; the inner result is the id, if any. *)
Fixpoint f2fs_alloc_nid (fuel : nat) (env : nat_env) (memory : bool) (nm : f2fs_nm_info) : option (f2fs_nm_info * option Z) :=
  match fuel with
  | O => None
  | S fuel =>
      if available_nids nm =? 0 then Some (nm, None)
      else if negb (cnt_free nm =? 0) then
        nid ← head (free_nid_list nm);
        nm ← __move_free_nid nm nid FREE_NID PREALLOC_NID;
        let nm := set_available nm (available_nids nm -! 1) in
        Some (update_free_nid_bitmap nm nid false false, Some nid)
      else
        '(nm, ok) ← __f2fs_build_free_nids env memory nm true false;
        if (ok : bool) then f2fs_alloc_nid fuel env memory nm else Some (nm, None)
  end.

(** No result is the trap on an id that is not cached. *)
Definition f2fs_alloc_nid_done (nm : f2fs_nm_info) (nid : Z) : option f2fs_nm_info :=
  _ ← __lookup_free_nid_list nm nid;
  __remove_free_nid nm nid PREALLOC_NID.

Definition f2fs_alloc_nid_failed (memory : bool) (nm : f2fs_nm_info) (nid : Z) : option f2fs_nm_info :=
  if nid =? 0 then Some nm
  else
    _ ← __lookup_free_nid_list nm nid;
    nm ← (if negb memory then __remove_free_nid nm nid PREALLOC_NID else __move_free_nid nm nid PREALLOC_NID FREE_NID);
    let nm := set_available nm (available_nids nm +! 1) in
    Some (update_free_nid_bitmap nm nid true false).

(** One batch of [f2fs_try_to_free_nids]. *)
Fixpoint free_batch (l : list Z) (nr_shrink batch : Z) (nm : f2fs_nm_info) : option (f2fs_nm_info * Z) :=
  match l with
  | [] => Some (nm, nr_shrink)
  | i :: l =>
      if (nr_shrink =? 0) || (batch =? 0) || (cnt_free nm <=? MAX_FREE_NIDS) then Some (nm, nr_shrink)
      else nm ← __remove_free_nid nm i FREE_NID; free_batch l (nr_shrink - 1) (batch - 1) nm
  end.

Fixpoint free_batches (fuel : nat) (nr_shrink : Z) (nm : f2fs_nm_info) : option (f2fs_nm_info * Z) :=
  match fuel with
  | O => None
  | S fuel =>
      if negb (nr_shrink =? 0) && (MAX_FREE_NIDS <? cnt_free nm) then
        '(nm, nr_shrink) ← free_batch (free_nid_list nm) nr_shrink SHRINK_NID_BATCH_SIZE nm;
        free_batches fuel nr_shrink nm
      else Some (nm, nr_shrink)
  end.

(** [f2fs_try_to_free_nids] when [build_lock] is free or taken ([trylock]). *)
Definition f2fs_try_to_free_nids (trylock : bool) (nm : f2fs_nm_info) (nr_shrink : Z) : option (f2fs_nm_info * Z) :=
  if cnt_free nm <=? MAX_FREE_NIDS then Some (nm, 0)
  else if negb trylock then Some (nm, 0)
  else
    '(nm, remaining) ← free_batches (S (length (free_nid_list nm))) nr_shrink nm;
    Some (nm, nr_shrink - remaining).

(** ** Counters and lists *)

Definition prealloc_set (r : gmap Z nid_state) : gmap Z nid_state := filter (fun p => p.2 = PREALLOC_NID) r.

Record nid_inv (nm : f2fs_nm_info) : Prop := {
  ni_max : max_nid nm < 2 ^ 32;
  ni_list : NoDup (free_nid_list nm);
  ni_free : forall n, n ∈ free_nid_list nm <-> free_nid_root nm !! n = Some FREE_NID;
  ni_range : forall n st, free_nid_root nm !! n = Some st -> 0 < n < max_nid nm;
  ni_cf : cnt_free nm = Z.of_nat (length (free_nid_list nm));
  ni_cp : cnt_prealloc nm = Z.of_nat (size (prealloc_set (free_nid_root nm)))
}.

Lemma bounded_length (l : list Z) m : NoDup l -> (forall n, n ∈ l -> 0 < n < m) -> Z.of_nat (length l) <= Z.max 0 m.
Proof.
  intros Hn Hr. assert (Hs : l ⊆+ seqZ 0 m).
  { apply NoDup_submseteq; [done|]. intros n Hin. apply elem_of_seqZ. specialize (Hr n Hin). lia. }
  apply submseteq_length in Hs. rewrite length_seqZ in Hs. lia.
Qed.

Lemma bounded_size (r : gmap Z nid_state) m : (forall n st, r !! n = Some st -> 0 < n < m) -> Z.of_nat (size r) <= Z.max 0 m.
Proof.
  intros Hr. rewrite <-length_map_to_list, <-(length_fmap fst). apply bounded_length; [apply NoDup_fst_map_to_list|].
  intros n (p & -> & Hp)%list_elem_of_fmap. destruct p as [n st]. apply elem_of_map_to_list in Hp. by eapply Hr.
Qed.

Lemma prealloc_bounded r m : (forall n st, r !! n = Some st -> 0 < n < m) -> m < 2 ^ 32 -> 0 <= Z.of_nat (size (prealloc_set r)) < 2 ^ 32.
Proof.
  intros Hr Hm. pose proof (bounded_size (prealloc_set r) m) as Hb. split; [lia|].
  enough (Z.of_nat (size (prealloc_set r)) <= Z.max 0 m) by lia. apply Hb. intros n st [Hn _]%map_lookup_filter_Some. by eapply Hr.
Qed.

(** The list and the counters after a change of the tree and the list that
    keep them matched. *)
Lemma nid_inv_intro nm r l cf cp : nid_inv nm -> NoDup l -> (forall n, n ∈ l <-> r !! n = Some FREE_NID) ->
  (forall n st, r !! n = Some st -> 0 < n < max_nid nm) ->
  cf = u32 (Z.of_nat (length l)) -> cp = u32 (Z.of_nat (size (prealloc_set r))) -> nid_inv (set_nids nm r l cf cp).
Proof.
  intros Hi Hl Hf Hr -> ->. pose proof (ni_max _ Hi) as Hm. constructor; cbn [set_nids max_nid free_nid_list free_nid_root cnt_free cnt_prealloc]; try done.
  - apply u32_small. pose proof (bounded_length l (max_nid nm) Hl) as Hb. split; [lia|].
    enough (Z.of_nat (length l) <= Z.max 0 (max_nid nm)) by lia. apply Hb. intros n Hn. apply Hf in Hn. by eapply Hr.
  - apply u32_small. by eapply prealloc_bounded.
Qed.

Lemma prealloc_insert_free r n : r !! n <> Some PREALLOC_NID -> prealloc_set (<[n := FREE_NID]> r) = prealloc_set r.
Proof.
  intros Hn. unfold prealloc_set. rewrite map_filter_insert_False by done. rewrite map_filter_delete. apply delete_id.
  apply map_lookup_filter_None. right. intros st Hst. cbn. congruence.
Qed.

Lemma insert_nid nm nid : nid_inv nm -> 0 < nid < max_nid nm ->
  exists nm' err, __insert_free_nid nm nid = Some (nm', err) /\ nid_inv nm' /\ max_nid nm' = max_nid nm /\
    (free_nid_root nm !! nid = None -> free_nid_root nm' = <[nid := FREE_NID]> (free_nid_root nm)) /\
    (is_Some (free_nid_root nm !! nid) -> nm' = nm) /\
    free_nid_bitmap nm' = free_nid_bitmap nm /\ nat_block_bitmap nm' = nat_block_bitmap nm.
Proof.
  intros Hi Hr. unfold __insert_free_nid. destruct (free_nid_root nm !! nid) as [st|] eqn:E; [by exists nm, true|].
  rewrite list_add_tail_fresh by (rewrite (ni_free _ Hi), E; done). cbn [mbind option_bind].
  do 2 eexists. split; [reflexivity|]. conjs; try done; try (by intros [? ?]).
  apply nid_inv_intro; [done|..].
  - apply list.NoDup_app. conjs; [apply Hi| |apply NoDup_singleton]. intros n Hn ->%list_elem_of_singleton. apply (ni_free _ Hi) in Hn. congruence.
  - intros n. rewrite elem_of_app, list_elem_of_singleton, (ni_free _ Hi). destruct (decide (n = nid)) as [->|Hne].
    + rewrite lookup_insert_eq. naive_solver.
    + rewrite lookup_insert_ne by done. naive_solver.
  - intros n st [[<- <-]|[_ Hn]]%lookup_insert_Some; [done|]. by eapply (ni_range _ Hi).
  - rewrite (ni_cf _ Hi), length_app. cbn. f_equal. lia.
  - rewrite prealloc_insert_free by congruence. rewrite <-(ni_cp _ Hi). symmetry. apply u32_small. rewrite (ni_cp _ Hi).
    eapply prealloc_bounded; [apply Hi|apply Hi].
Qed.

Lemma prealloc_lookup r n : prealloc_set r !! n = if decide (r !! n = Some PREALLOC_NID) then Some PREALLOC_NID else None.
Proof.
  unfold prealloc_set. destruct (decide _) as [E|E].
  - by apply map_lookup_filter_Some.
  - apply map_lookup_filter_None. destruct (r !! n) as [[]|] eqn:E1; [right; by intros ? [= <-]|done|by left].
Qed.

Lemma size_prealloc_delete r n : r !! n = Some PREALLOC_NID ->
  Z.of_nat (size (prealloc_set (delete n r))) = Z.of_nat (size (prealloc_set r)) - 1.
Proof.
  intros Hn. unfold prealloc_set. rewrite map_filter_delete. fold (prealloc_set r).
  assert (Hs : is_Some (prealloc_set r !! n)) by (rewrite prealloc_lookup, decide_True by done; done).
  rewrite map_size_delete_Some by done. pose proof (map_size_ne_0_lookup_2 _ _ Hs). lia.
Qed.

Lemma prealloc_delete_free r n : r !! n <> Some PREALLOC_NID -> prealloc_set (delete n r) = prealloc_set r.
Proof.
  intros Hn. unfold prealloc_set. rewrite map_filter_delete. apply delete_id. fold (prealloc_set r).
  by rewrite prealloc_lookup, decide_False.
Qed.

Lemma prealloc_free_delete r n : prealloc_set (<[n := FREE_NID]> r) = prealloc_set (delete n r).
Proof. unfold prealloc_set. rewrite map_filter_insert_False by done. done. Qed.

Lemma size_prealloc_insert r n : r !! n <> Some PREALLOC_NID ->
  Z.of_nat (size (prealloc_set (<[n := PREALLOC_NID]> r))) = Z.of_nat (size (prealloc_set r)) + 1.
Proof.
  intros Hn. unfold prealloc_set. rewrite map_filter_insert_True by done. fold (prealloc_set r).
  rewrite map_size_insert_None; [lia|]. by rewrite prealloc_lookup, decide_False.
Qed.

(** The free list without one of its ids. *)
Lemma free_list_del nm nid (r : gmap Z nid_state) : nid_inv nm -> free_nid_root nm !! nid = Some FREE_NID ->
  r !! nid <> Some FREE_NID -> (forall n, n <> nid -> r !! n = free_nid_root nm !! n) ->
  let l := filter (fun y => y <> nid) (free_nid_list nm) in
  list_del nid (free_nid_list nm) = Some l /\ NoDup l /\ (forall n, n ∈ l <-> r !! n = Some FREE_NID) /\
  cnt_free nm -! 1 = u32 (Z.of_nat (length l)).
Proof.
  intros Hi Hn Hr Ho l. assert (Hin : nid ∈ free_nid_list nm) by (by apply (ni_free _ Hi)). conjs.
  - unfold list_del. by rewrite decide_True.
  - apply list.NoDup_filter, Hi.
  - intros n. unfold l. rewrite list_elem_of_filter, (ni_free _ Hi). destruct (decide (n = nid)) as [->|Hne]; [naive_solver|].
    rewrite Ho by done. naive_solver.
  - unfold l. rewrite length_filter_ne, <-(ni_cf _ Hi); [done|apply Hi|done].
Qed.

Lemma cp_small nm : nid_inv nm -> cnt_prealloc nm = u32 (Z.of_nat (size (prealloc_set (free_nid_root nm)))).
Proof. intros Hi. rewrite <-(ni_cp _ Hi). symmetry. apply u32_small. rewrite (ni_cp _ Hi). eapply prealloc_bounded; apply Hi. Qed.

Lemma cf_small nm : nid_inv nm -> cnt_free nm = u32 (Z.of_nat (length (free_nid_list nm))).
Proof.
  intros Hi. rewrite <-(ni_cf _ Hi). symmetry. apply u32_small. rewrite (ni_cf _ Hi). split; [lia|]. pose proof (ni_max _ Hi).
  enough (Z.of_nat (length (free_nid_list nm)) <= Z.max 0 (max_nid nm)) by lia. apply bounded_length; [apply Hi|].
  intros n Hn. apply (ni_free _ Hi) in Hn. by eapply (ni_range _ Hi).
Qed.

Lemma remove_nid nm nid st : nid_inv nm -> free_nid_root nm !! nid = Some st ->
  exists nm', __remove_free_nid nm nid st = Some nm' /\ nid_inv nm' /\ max_nid nm' = max_nid nm /\
    free_nid_root nm' = delete nid (free_nid_root nm) /\ cnt_free nm' = (match st with FREE_NID => cnt_free nm - 1 | _ => cnt_free nm end) /\
    free_nid_list nm' = (match st with FREE_NID => filter (fun y => y <> nid) (free_nid_list nm) | _ => free_nid_list nm end) /\
    free_nid_bitmap nm' = free_nid_bitmap nm /\ available_nids nm' = available_nids nm.
Proof.
  intros Hi Hn. unfold __remove_free_nid. rewrite Hn. cbn [mbind option_bind]. rewrite decide_False by tauto.
  assert (Hrange : forall n s, delete nid (free_nid_root nm) !! n = Some s -> 0 < n < max_nid nm).
  { intros n s [_ Hs]%lookup_delete_Some. by eapply (ni_range _ Hi). }
  destruct st.
  - destruct (free_list_del nm nid (delete nid (free_nid_root nm)) Hi Hn) as (-> & Hnd & Hl & Hcf);
      [by rewrite lookup_delete_eq|intros n Hne; by rewrite lookup_delete_ne|]. cbn [mbind option_bind].
    eexists. split; [reflexivity|]. conjs; try done.
    + apply nid_inv_intro; try done. rewrite prealloc_delete_free by congruence. by apply cp_small.
    + cbn. rewrite Hcf. rewrite length_filter_ne; [|apply Hi|by apply (ni_free _ Hi)]. rewrite <-(ni_cf _ Hi).
      apply u32_small. assert (nid ∈ free_nid_list nm) as Hin by (by apply (ni_free _ Hi)). pose proof (cf_small nm Hi) as Hs.
      pose proof (u32_range (Z.of_nat (length (free_nid_list nm)))). rewrite <-Hs in *. rewrite (ni_cf _ Hi) in *.
      destruct (free_nid_list nm); [by apply elem_of_nil in Hin|]. cbn [length] in *. lia.
  - eexists. split; [reflexivity|]. conjs; try done. apply nid_inv_intro; try done.
    + apply Hi.
    + intros n. rewrite (ni_free _ Hi). destruct (decide (n = nid)) as [->|Hne]; [rewrite lookup_delete_eq; naive_solver|by rewrite lookup_delete_ne].
    + by apply cf_small.
    + rewrite (cp_small nm Hi), u32_sub_l, size_prealloc_delete by done. done.
Qed.

Lemma take_nid nm nid : nid_inv nm -> free_nid_root nm !! nid = Some FREE_NID ->
  exists nm', __move_free_nid nm nid FREE_NID PREALLOC_NID = Some nm' /\ nid_inv nm' /\ max_nid nm' = max_nid nm /\
    free_nid_root nm' = <[nid := PREALLOC_NID]> (free_nid_root nm) /\ available_nids nm' = available_nids nm /\
    free_nid_bitmap nm' = free_nid_bitmap nm /\ nat_block_bitmap nm' = nat_block_bitmap nm.
Proof.
  intros Hi Hn. unfold __move_free_nid. rewrite Hn. cbn [mbind option_bind]. rewrite decide_False by tauto.
  destruct (free_list_del nm nid (<[nid := PREALLOC_NID]> (free_nid_root nm)) Hi Hn) as (-> & Hnd & Hl & Hcf);
    [by rewrite lookup_insert_eq|intros n Hne; by rewrite lookup_insert_ne|]. cbn [mbind option_bind].
  eexists. split; [reflexivity|]. conjs; try done. apply nid_inv_intro; try done.
  - intros n s [[<- <-]|[_ Hs]]%lookup_insert_Some; by eapply (ni_range _ Hi).
  - rewrite (cp_small nm Hi), u32_add_l, size_prealloc_insert by congruence. done.
Qed.

Lemma give_back_nid nm nid : nid_inv nm -> free_nid_root nm !! nid = Some PREALLOC_NID ->
  exists nm', __move_free_nid nm nid PREALLOC_NID FREE_NID = Some nm' /\ nid_inv nm' /\ max_nid nm' = max_nid nm /\
    free_nid_root nm' = <[nid := FREE_NID]> (free_nid_root nm).
Proof.
  intros Hi Hn. unfold __move_free_nid. rewrite Hn. cbn [mbind option_bind]. rewrite decide_False by tauto.
  assert (Hni : nid ∉ free_nid_list nm) by (rewrite (ni_free _ Hi), Hn; done).
  rewrite list_add_tail_fresh by done. cbn [mbind option_bind]. eexists. split; [reflexivity|]. conjs; try done. apply nid_inv_intro; try done.
  - apply list.NoDup_app. conjs; [apply Hi| |apply NoDup_singleton]. intros n Hin ->%list_elem_of_singleton. done.
  - intros n. rewrite elem_of_app, list_elem_of_singleton, (ni_free _ Hi). destruct (decide (n = nid)) as [->|Hne].
    + rewrite lookup_insert_eq. naive_solver.
    + rewrite lookup_insert_ne by done. naive_solver.
  - intros n s [[<- <-]|[_ Hs]]%lookup_insert_Some; by eapply (ni_range _ Hi).
  - rewrite (ni_cf _ Hi), length_app. cbn. f_equal. lia.
  - rewrite (cp_small nm Hi), u32_sub_l, prealloc_free_delete, size_prealloc_delete by done. done.
Qed.

Lemma bitmap_frame nm nid set build :
  let nm' := update_free_nid_bitmap nm nid set build in
  free_nid_root nm' = free_nid_root nm /\ free_nid_list nm' = free_nid_list nm /\ cnt_free nm' = cnt_free nm /\
  cnt_prealloc nm' = cnt_prealloc nm /\ max_nid nm' = max_nid nm /\ available_nids nm' = available_nids nm /\
  nat_block_bitmap nm' = nat_block_bitmap nm /\
  (forall b, b ∈ free_nid_bitmap nm' -> b ∈ free_nid_bitmap nm \/ set = true /\ b = bit nid).
Proof.
  unfold update_free_nid_bitmap. destruct (decide _); [cbn; conjs; try done; intros; by left|].
  destruct set; destruct (decide _); cbn [set_bits free_nid_root free_nid_list cnt_free cnt_prealloc max_nid available_nids nat_block_bitmap free_nid_bitmap];
    conjs; try done; intros b; set_solver.
Qed.

Lemma bitmap_inv nm nid set build : nid_inv nm -> nid_inv (update_free_nid_bitmap nm nid set build).
Proof.
  intros []. destruct (bitmap_frame nm nid set build) as (E1 & E2 & E3 & E4 & E5 & _). constructor; rewrite ?E1, ?E2, ?E3, ?E4, ?E5; done.
Qed.

(** ** Building against the NAT *)

Context (Hroot : 0 <= F2FS_ROOT_INO) (env : nat_env).

(** The cached entry allows the id to be free. *)
Definition cache_ok (n : Z) : Prop :=
  match nat_cache env n with Some ne => is_checkpointed ne = true /\ nat_get_blkaddr ne = NULL_ADDR | None => True end.

(** The entry in the NAT block is free. *)
Definition page_null (n : Z) : Prop :=
  exists entries, get_current_nat_page env (NAT_BLOCK_OFFSET n) = Some entries /\ entries (n mod NAT_ENTRY_PER_BLOCK) = NULL_ADDR.

Definition journaled (n : Z) : Prop := n ∈ (nat_journal env).*1.

(** An id is free: no cached entry, journal entry or block entry says
    otherwise, each overriding the next. *)
Definition truly_free (n : Z) : Prop :=
  cache_ok n /\ (journaled n -> (n, NULL_ADDR) ∈ nat_journal env) /\ (~ journaled n -> page_null n).

(** What a scan may take for free before the journal is read. *)
Definition cand (n : Z) : Prop := cache_ok n /\ (page_null n \/ journaled n).
Definition bit_ok (b : Z * Z) : Prop :=
  let n := b.1 * NAT_ENTRY_PER_BLOCK + b.2 in page_null n \/ journaled n \/ ~ cache_ok n.

(** Preallocated ids stay, new free ids are candidates, new bits are right. *)
Record evolves (nm nm' : f2fs_nm_info) : Prop := {
  ev_inv : nid_inv nm -> nid_inv nm';
  ev_max : max_nid nm' = max_nid nm;
  ev_pre : forall n, free_nid_root nm' !! n = Some PREALLOC_NID <-> free_nid_root nm !! n = Some PREALLOC_NID;
  ev_free : forall n, free_nid_root nm' !! n = Some FREE_NID -> free_nid_root nm !! n = Some FREE_NID \/ cand n;
  ev_bits : forall b, b ∈ free_nid_bitmap nm' -> b ∈ free_nid_bitmap nm \/ bit_ok b;
  ev_avail : available_nids nm' = available_nids nm
}.

#[local] Instance evolves_preorder : PreOrder evolves.
Proof.
  split.
  - intros nm. constructor; try done; by left.
  - intros a b c [] []. constructor.
    + auto.
    + congruence.
    + intros n. rewrite ev_pre1. auto.
    + intros n Hn. destruct (ev_free1 n Hn); auto.
    + intros x Hx. destruct (ev_bits1 x Hx); auto.
    + congruence.
Qed.

Lemma evolves_bits nm nid set : (set = true -> bit_ok (bit nid)) -> evolves nm (update_free_nid_bitmap nm nid set true).
Proof.
  intros Hb. destruct (bitmap_frame nm nid set true) as (E1 & E2 & E3 & E4 & E5 & E6 & E7 & E8). constructor; rewrite ?E1; try done.
  - apply bitmap_inv.
  - auto.
  - intros b Hin. destruct (E8 b Hin) as [?|[? ->]]; auto.
Qed.

(** What [add_free_nid] does during a build, besides the bitmap. *)
Lemma add_build nm nid update : nid_inv nm -> (page_null nid \/ journaled nid) -> (update = true -> bit_ok (bit nid)) ->
  exists nm' ret, add_free_nid (nat_cache env) nm nid true update = Some (nm', ret) /\ evolves nm nm' /\
    (forall n, n <> nid -> free_nid_root nm' !! n = free_nid_root nm !! n) /\ nat_block_bitmap nm' = nat_block_bitmap nm.
Proof.
  intros Hi Hp Hb. unfold add_free_nid.
  destruct (nid =? 0) eqn:E0; [exists nm, false; split; [done|]; split; [reflexivity|done]|].
  destruct (f2fs_check_nid_range nm nid) eqn:Er; [exists nm, false; split; [done|]; split; [reflexivity|done]|].
  unfold f2fs_check_nid_range in Er. set (stop := match nat_cache env nid with Some _ => _ | None => _ end).
  assert (Hstop : stop = None -> cache_ok nid /\ free_nid_root nm !! nid = None).
  { unfold stop, cache_ok, __lookup_free_nid_list. destruct (nat_cache env nid) as [ne|].
    - destruct (is_checkpointed ne); cbn [negb orb]; [|done]. destruct (nat_get_blkaddr ne =? NULL_ADDR) eqn:Ea; cbn [negb]; [|done].
      destruct (free_nid_root nm !! nid); [done|]. intros _. split; [split; [done|lia]|done].
    - destruct (free_nid_root nm !! nid); done. }
  assert (Hmid : exists nm1 ret, match stop with Some ret => Some (nm, ret) | None => '(nm, _) ← __insert_free_nid nm nid; Some (nm, true) end = Some (nm1, ret) /\
    evolves nm nm1 /\ (forall n, n <> nid -> free_nid_root nm1 !! n = free_nid_root nm !! n) /\ nat_block_bitmap nm1 = nat_block_bitmap nm).
  { destruct stop as [ret|]; [exists nm, ret; split; [done|]; split; [reflexivity|done]|]. destruct (Hstop eq_refl) as [Hc Hn].
    destruct (insert_nid nm nid Hi) as (nm1 & err & E1 & Hi1 & Em & Er1 & _ & Eb & En); [lia|]. rewrite E1. cbn [mbind option_bind].
    specialize (Er1 Hn). do 2 eexists. split; [reflexivity|]. split; [|split; [intros n Hne; by rewrite Er1, lookup_insert_ne|done]].
    constructor; rewrite ?Er1; try done.
    - intros n. destruct (decide (n = nid)) as [->|Hne]; [rewrite lookup_insert_eq; naive_solver|by rewrite lookup_insert_ne].
    - intros n [[<- _]|[_ ?]]%lookup_insert_Some; [right; by split|by left].
    - rewrite Eb. auto.
    - unfold __insert_free_nid in E1. rewrite Hn in E1. destruct (list_add_tail _ _); [|done]. by injection E1 as <- _. }
  destruct Hmid as (nm1 & ret & -> & He & Ho & Hnb). cbn [mbind option_bind]. cbn [negb].
  destruct update; [|do 2 eexists; split; [reflexivity|done]].
  do 2 eexists. split; [reflexivity|]. destruct (bitmap_frame nm1 nid ret true) as (E1 & _ & _ & _ & _ & _ & E7 & _). split.
  - etransitivity; [exact He|]. apply evolves_bits. auto.
  - rewrite E1, E7. done.
Qed.

Lemma bit_value nid : (bit nid).1 * NAT_ENTRY_PER_BLOCK + (bit nid).2 = nid.
Proof. unfold bit, START_NID, NAT_BLOCK_OFFSET. cbn. lia. Qed.

Lemma page_bit_ok nid : page_null nid -> bit_ok (bit nid).
Proof. intros Hp. unfold bit_ok. rewrite bit_value. by left. Qed.

(** Scanning the entries of a NAT block. *)
Lemma scan_entries_ok n : forall ofs i entries nm, nid_inv nm -> get_current_nat_page env ofs = Some entries ->
  0 <= i -> i + Z.of_nat n <= NAT_ENTRY_PER_BLOCK ->
  exists nm' err, scan_entries n (nat_cache env) entries i (ofs * NAT_ENTRY_PER_BLOCK + i) nm = Some (nm', err) /\ evolves nm nm'.
Proof.
  pose proof nat_entries_range as HN.
  induction n as [|n IH]; intros ofs i entries nm Hi Hp H0 Hn; cbn [scan_entries]; [do 2 eexists; split; [reflexivity|reflexivity]|].
  destruct (max_nid nm <=? _); [do 2 eexists; split; [reflexivity|reflexivity]|].
  destruct (entries i =? NEW_ADDR); [do 2 eexists; split; [reflexivity|reflexivity]|].
  assert (Hnext : forall nm1, evolves nm nm1 -> exists nm' err,
    scan_entries n (nat_cache env) entries (i + 1) (ofs * NAT_ENTRY_PER_BLOCK + i + 1) nm1 = Some (nm', err) /\ evolves nm nm').
  { intros nm1 He. destruct (IH ofs (i + 1) entries nm1 (ev_inv _ _ He Hi) Hp) as (nm' & err & E & He'); [lia|lia|].
    rewrite <-Z.add_assoc. do 2 eexists. split; [exact E|]. by etransitivity. }
  destruct (entries i =? NULL_ADDR) eqn:Ea.
  - assert (Hpn : page_null (ofs * NAT_ENTRY_PER_BLOCK + i)).
    { exists entries. unfold NAT_BLOCK_OFFSET. rewrite Z.div_add_l, (Z.div_small i) by lia. rewrite Z.add_0_r. split; [done|].
      rewrite Z.add_comm, Z.mod_add, Z.mod_small by lia. lia. }
    destruct (add_build nm (ofs * NAT_ENTRY_PER_BLOCK + i) true Hi) as (nm1 & ret & -> & He & _); [by left|intros _; by apply page_bit_ok|].
    cbn [mbind option_bind]. by apply Hnext.
  - cbn [mbind option_bind]. apply Hnext. by apply evolves_bits.
Qed.

Lemma scan_nat_page_ok nm nid entries : nid_inv nm -> get_current_nat_page env (NAT_BLOCK_OFFSET nid) = Some entries ->
  exists nm' err, scan_nat_page (nat_cache env) nm entries nid = Some (nm', err) /\ evolves nm nm'.
Proof.
  intros Hi Hp. pose proof nat_entries_range as HN. unfold scan_nat_page. set (nm0 := set_bits _ _ _ _).
  assert (He : evolves nm nm0) by (constructor; try done; [by intros []|auto|auto]).
  pose proof (Z.mod_pos_bound nid NAT_ENTRY_PER_BLOCK) as Hm. pose proof (Z.div_mod nid NAT_ENTRY_PER_BLOCK) as Hd.
  destruct (scan_entries_ok (Z.to_nat (NAT_ENTRY_PER_BLOCK - nid mod NAT_ENTRY_PER_BLOCK)) (NAT_BLOCK_OFFSET nid) (nid mod NAT_ENTRY_PER_BLOCK)
    entries nm0 (ev_inv _ _ He Hi) Hp) as (nm' & err & E & He'); [lia|lia|].
  replace (NAT_BLOCK_OFFSET nid * NAT_ENTRY_PER_BLOCK + nid mod NAT_ENTRY_PER_BLOCK) with nid in E by (unfold NAT_BLOCK_OFFSET; lia).
  do 2 eexists. split; [exact E|]. by etransitivity.
Qed.

Lemma remove_free_ok nm nid : nid_inv nm -> exists nm', remove_free_nid nm nid = Some nm' /\ evolves nm nm' /\
  free_nid_root nm' !! nid <> Some FREE_NID /\ (forall n, n <> nid -> free_nid_root nm' !! n = free_nid_root nm !! n).
Proof.
  intros Hi. unfold remove_free_nid, __lookup_free_nid_list. destruct (free_nid_root nm !! nid) as [[]|] eqn:E.
  - destruct (remove_nid nm nid FREE_NID Hi E) as (nm' & -> & Hi' & Em & Er & Ec & _ & Eb & Eav). exists nm'. split; [done|]. split.
    + constructor; rewrite ?Er; try done.
      * intros n. destruct (decide (n = nid)) as [->|Hne]; [rewrite lookup_delete_eq; naive_solver|by rewrite lookup_delete_ne].
      * intros n [_ ?]%lookup_delete_Some. by left.
      * rewrite Eb. auto.
    + rewrite Er. split; [by rewrite lookup_delete_eq|]. intros n Hne. by rewrite lookup_delete_ne.
  - exists nm. split; [done|]. split; [reflexivity|]. split; [by rewrite E|done].
  - exists nm. split; [done|]. split; [reflexivity|]. split; [by rewrite E|done].
Qed.

(** Reading the journal: what it says is in use is no longer free. *)
Lemma scan_journal_ok js : forall nm, nid_inv nm -> NoDup js.*1 -> (forall n a, (n, a) ∈ js -> (n, a) ∈ nat_journal env) ->
  exists nm', scan_curseg_cache (nat_cache env) js nm = Some nm' /\ evolves nm nm' /\
    forall n, free_nid_root nm' !! n = Some FREE_NID -> (forall a, (n, a) ∈ js -> a = NULL_ADDR) /\
      (free_nid_root nm !! n = Some FREE_NID \/ n ∈ js.*1).
Proof.
  induction js as [|[nid addr] js IH]; intros nm Hi Hnd Hsub; cbn [scan_curseg_cache].
  { exists nm. split; [done|]. split; [reflexivity|]. intros n Hn. split; [by intros a ?%elem_of_nil|by left]. }
  rewrite fmap_cons in Hnd. apply list.NoDup_cons in Hnd as [Hnid Hnd]. cbn [fst] in Hnid.
  assert (Hmem : (nid, addr) ∈ nat_journal env) by (apply Hsub, elem_of_cons; by left).
  assert (Hstep : exists nm1, (if addr =? NULL_ADDR then '(nm, _) ← add_free_nid (nat_cache env) nm nid true false; Some nm else remove_free_nid nm nid) = Some nm1 /\
    evolves nm nm1 /\ (forall n, n <> nid -> free_nid_root nm1 !! n = free_nid_root nm !! n) /\
    (addr <> NULL_ADDR -> free_nid_root nm1 !! nid <> Some FREE_NID)).
  { destruct (addr =? NULL_ADDR) eqn:Ea.
    - destruct (add_build nm nid false Hi) as (nm1 & ret & -> & He & Ho & _); [|done|].
      { right. unfold journaled. change nid with (nid, addr).1. by apply list_elem_of_fmap_2. }
      cbn [mbind option_bind]. exists nm1. conjs; try done. lia.
    - destruct (remove_free_ok nm nid Hi) as (nm1 & -> & He & Hr & Ho). by exists nm1. }
  destruct Hstep as (nm1 & -> & He1 & Ho1 & Hr1). cbn [mbind option_bind].
  destruct (IH nm1 (ev_inv _ _ He1 Hi) Hnd) as (nm' & -> & He & Hend); [intros n a Hna; apply Hsub, elem_of_cons; by right|].
  exists nm'. split; [done|]. split; [by etransitivity|]. intros n Hn. destruct (Hend n Hn) as [Hnull Hor]. rewrite fmap_cons, elem_of_cons. cbn [fst].
  destruct (decide (n = nid)) as [->|Hne].
  - split; [|by right; left]. intros a [[= ->]|Ha]%elem_of_cons; [|by apply Hnull].
    destruct (decide (addr = NULL_ADDR)) as [|Hna]; [done|]. destruct Hor as [Hf|Hk]; [by destruct (Hr1 Hna)|done].
  - split; [intros a [[= -> ->]|Ha]%elem_of_cons; [done|by apply Hnull]|]. destruct Hor as [Hf|Hk]; [left; by rewrite <-Ho1|by right; right].
Qed.

Definition journal_ok : Prop := NoDup (nat_journal env).*1.

(** After the journal is read every free id is truly free. *)
Lemma scan_curseg_sound nm : journal_ok -> nid_inv nm -> (forall n, free_nid_root nm !! n = Some FREE_NID -> cand n) ->
  exists nm', scan_curseg_cache (nat_cache env) (nat_journal env) nm = Some nm' /\ evolves nm nm' /\
    forall n, free_nid_root nm' !! n = Some FREE_NID -> truly_free n.
Proof.
  intros Hj Hi Hc. destruct (scan_journal_ok (nat_journal env) nm Hi Hj) as (nm' & E & He & Hend); [done|].
  exists nm'. split; [done|]. split; [done|]. intros n Hn. destruct (Hend n Hn) as [Hnull _].
  assert (Hcand : cand n) by (destruct (ev_free _ _ He n Hn); auto). destruct Hcand as [Hcache Hor]. unfold truly_free. conjs; [done| |].
  - intros Hk. unfold journaled in Hk. apply list_elem_of_fmap in Hk as ([n' a] & -> & Hin). cbn [fst] in *. pose proof (Hnull a Hin) as ->. done.
  - intros Hk. by destruct Hor.
Qed.

(** ** Scanning the bitmaps *)

Lemma add_refused nm nid : ~ cache_ok nid -> exists ret, add_free_nid (nat_cache env) nm nid true false = Some (nm, ret).
Proof.
  intros Hc. unfold add_free_nid. destruct (nid =? 0); [by eexists|]. destruct (f2fs_check_nid_range nm nid); [by eexists|].
  unfold cache_ok in Hc. destruct (nat_cache env nid) as [ne|]; [|done].
  destruct (is_checkpointed ne); cbn [negb orb]; [|by eexists]. destruct (nat_get_blkaddr ne =? NULL_ADDR) eqn:E; cbn [negb]; [|by eexists].
  exfalso. apply Hc. split; [done|lia].
Qed.

Lemma scan_block_bits_ok i idxs : forall nm, nid_inv nm -> (forall b, b ∈ free_nid_bitmap nm -> bit_ok b) ->
  exists nm' out, scan_block_bits (nat_cache env) i idxs nm = Some (nm', out) /\ evolves nm nm'.
Proof.
  induction idxs as [|idx idxs IH]; intros nm Hi Hb; cbn [scan_block_bits]; [do 2 eexists; split; reflexivity|].
  destruct (decide _) as [Hin|Hin]; [|by apply IH]. pose proof (Hb _ Hin) as Hbit. unfold bit_ok in Hbit. cbn [fst snd] in Hbit.
  assert (Hadd : exists nm1 ret, add_free_nid (nat_cache env) nm (i * NAT_ENTRY_PER_BLOCK + idx) true false = Some (nm1, ret) /\ evolves nm nm1).
  { destruct Hbit as [Hp|[Hp|Hp]].
    - destruct (add_build nm (i * NAT_ENTRY_PER_BLOCK + idx) false Hi) as (nm1 & ret & E & He & _); [by left|done|eauto].
    - destruct (add_build nm (i * NAT_ENTRY_PER_BLOCK + idx) false Hi) as (nm1 & ret & E & He & _); [by right|done|eauto].
    - destruct (add_refused nm _ Hp) as [ret E]. exists nm, ret. split; [done|reflexivity]. }
  destruct Hadd as (nm1 & ret & -> & He). cbn [mbind option_bind]. destruct (MAX_FREE_NIDS <=? cnt_free nm1); [by eauto|].
  destruct (IH nm1 (ev_inv _ _ He Hi)) as (nm' & out & E & He').
  { intros b Hb'. destruct (ev_bits _ _ He b Hb'); auto. }
  do 2 eexists. split; [exact E|]. by etransitivity.
Qed.

Lemma scan_blocks_ok bs : forall nm, nid_inv nm -> (forall b, b ∈ free_nid_bitmap nm -> bit_ok b) ->
  exists nm', scan_blocks (nat_cache env) bs nm = Some nm' /\ evolves nm nm'.
Proof.
  induction bs as [|i bs IH]; intros nm Hi Hb; cbn [scan_blocks]; [eexists; split; reflexivity|].
  destruct (decide _); [by apply IH|]. destruct (count_of nm i =? 0); [by apply IH|].
  destruct (scan_block_bits_ok i (seqZ 0 NAT_ENTRY_PER_BLOCK) nm Hi Hb) as (nm1 & out & -> & He). cbn [mbind option_bind].
  destruct out; [by eauto|]. destruct (IH nm1 (ev_inv _ _ He Hi)) as (nm' & E & He').
  { intros b Hb'. destruct (ev_bits _ _ He b Hb'); auto. }
  eexists. split; [exact E|]. by etransitivity.
Qed.

Lemma build_loop_ok n : forall nid nm, nid_inv nm -> exists nm' next, build_loop n env nid nm = Some (nm', next) /\ evolves nm nm'.
Proof.
  induction n as [|n IH]; intros nid nm Hi; cbn [build_loop]; [do 2 eexists; split; reflexivity|].
  assert (Hpage : exists nm1 err, (if decide (NAT_BLOCK_OFFSET nid ∉ nat_block_bitmap nm) then
      match get_current_nat_page env (NAT_BLOCK_OFFSET nid) with None => Some (nm, true) | Some page => scan_nat_page (nat_cache env) nm page nid end
    else Some (nm, false)) = Some (nm1, err) /\ evolves nm nm1).
  { destruct (decide _); [|do 2 eexists; split; reflexivity]. destruct (get_current_nat_page env (NAT_BLOCK_OFFSET nid)) as [page|] eqn:Ep.
    - destruct (scan_nat_page_ok nm nid page Hi Ep) as (nm1 & err & E & He). eauto.
    - do 2 eexists; split; reflexivity. }
  destruct Hpage as (nm1 & err & -> & He). cbn [mbind option_bind]. destruct err; [by eauto|].
  destruct (IH (if max_nid nm1 <=? nid +! (NAT_ENTRY_PER_BLOCK - nid mod NAT_ENTRY_PER_BLOCK) then 0
                else nid +! (NAT_ENTRY_PER_BLOCK - nid mod NAT_ENTRY_PER_BLOCK)) nm1 (ev_inv _ _ He Hi)) as (nm' & next & E & He').
  do 2 eexists. split; [exact E|]. by etransitivity.
Qed.

(** The premise of a build: the ids in the cache and the bits agree with what
    the NAT and its journal say. *)
Record nat_sound (nm : f2fs_nm_info) : Prop := {
  ns_inv : nid_inv nm;
  ns_free : forall n, free_nid_root nm !! n = Some FREE_NID -> truly_free n;
  ns_bits : forall b, b ∈ free_nid_bitmap nm -> bit_ok b
}.

Lemma truly_free_cand n : truly_free n -> cand n.
Proof.
  intros (Hc & Hj & Hp). split; [done|]. destruct (decide (n ∈ (nat_journal env).*1)) as [Hk|Hk]; [by right|left; auto].
Qed.

Lemma evolves_cand nm nm' : evolves nm nm' -> (forall n, free_nid_root nm !! n = Some FREE_NID -> truly_free n) ->
  forall n, free_nid_root nm' !! n = Some FREE_NID -> cand n.
Proof. intros He Hf n Hn. destruct (ev_free _ _ He n Hn) as [?|?]; [by apply truly_free_cand, Hf|done]. Qed.

Lemma evolves_bits_ok nm nm' : evolves nm nm' -> (forall b, b ∈ free_nid_bitmap nm -> bit_ok b) ->
  forall b, b ∈ free_nid_bitmap nm' -> bit_ok b.
Proof. intros He Hb b Hin. destruct (ev_bits _ _ He b Hin); auto. Qed.

Lemma scan_bits_sound nm : journal_ok -> nat_sound nm ->
  exists nm', scan_free_nid_bits env nm = Some nm' /\ evolves nm nm' /\ nat_sound nm'.
Proof.
  intros Hj [Hi Hf Hb]. unfold scan_free_nid_bits. destruct (scan_blocks_ok (seqZ 0 (nat_blocks nm)) nm Hi Hb) as (nm1 & -> & He1).
  cbn [mbind option_bind]. destruct (scan_curseg_sound nm1 Hj (ev_inv _ _ He1 Hi)) as (nm2 & -> & He2 & Hf2); [by eapply evolves_cand|].
  exists nm2. assert (He : evolves nm nm2) by (by etransitivity). split; [done|]. split; [done|].
  constructor; [by apply (ev_inv _ _ He)|done|by eapply evolves_bits_ok].
Qed.

(** A build always returns, keeps preallocated ids and the counters, and when
    it succeeds every id on the free list is truly free. *)
Lemma build_ok memory nm sync mount : journal_ok -> nat_sound nm ->
  exists nm' ok, __f2fs_build_free_nids env memory nm sync mount = Some (nm', ok) /\ evolves nm nm' /\ (ok = true -> nat_sound nm').
Proof.
  intros Hj Hs. unfold __f2fs_build_free_nids. set (nid := if negb _ then _ else _).
  destruct (NAT_ENTRY_PER_BLOCK <=? cnt_free nm); [exists nm, true; split; [done|]; split; [reflexivity|done]|].
  destruct (negb sync && negb memory); [exists nm, true; split; [done|]; split; [reflexivity|done]|].
  assert (H1 : exists nm1, (if negb mount then scan_free_nid_bits env nm else Some nm) = Some nm1 /\ evolves nm nm1 /\ nat_sound nm1).
  { destruct (negb mount); [by apply scan_bits_sound|]. exists nm. split; [done|]. split; [reflexivity|done]. }
  destruct H1 as (nm1 & -> & He1 & Hs1). cbn [mbind option_bind]. destruct (negb mount && _); [by eauto 10|].
  destruct (build_loop_ok (Z.to_nat FREE_NID_PAGES) nid nm1 (ns_inv _ Hs1)) as (nm2 & next & -> & He2). cbn [mbind option_bind].
  destruct next as [next|]; [|exists nm2, false; split; [done|]; split; [by etransitivity|done]].
  assert (He3 : evolves nm2 (set_next_scan nm2 next)) by (constructor; try done; [by intros []|by left|by left]).
  assert (He13 : evolves nm1 (set_next_scan nm2 next)) by (by etransitivity).
  destruct (scan_curseg_sound (set_next_scan nm2 next) Hj) as (nm4 & -> & He4 & Hf4).
  { by apply (ev_inv _ _ He13), Hs1. } { eapply evolves_cand; [exact He13|apply Hs1]. }
  cbn [mbind option_bind]. exists nm4, true. assert (He14 : evolves nm1 nm4) by (by etransitivity). split; [done|]. split; [by etransitivity|].
  intros _. constructor; [by apply (ev_inv _ _ He14), Hs1|done|]. eapply evolves_bits_ok; [exact He14|apply Hs1].
Qed.

(** C31: building the free id cache always returns and never touches an id that
    is handed out; when it reports success, every id on the free list is free
    according to the NAT cache, the NAT journal and the NAT blocks, although
    the scan of the blocks alone takes journaled ids for free. *)
Theorem build_free_nids_sound memory nm sync mount : journal_ok -> nat_sound nm ->
  exists nm' ok, __f2fs_build_free_nids env memory nm sync mount = Some (nm', ok) /\ nid_inv nm' /\
    (forall n, free_nid_root nm' !! n = Some PREALLOC_NID <-> free_nid_root nm !! n = Some PREALLOC_NID) /\
    (ok = true -> forall n, n ∈ free_nid_list nm' -> truly_free n).
Proof.
  intros Hj Hs. destruct (build_ok memory nm sync mount Hj Hs) as (nm' & ok & E & He & Hs'). exists nm', ok. pose proof (ev_inv _ _ He (ns_inv _ Hs)) as Hi'.
  conjs; [done|done|apply He|]. intros Hok n Hn. apply (ns_free _ (Hs' Hok)). by apply (ni_free _ Hi').
Qed.

(** The allocation hands out a free id. *)
Lemma alloc_ok fuel memory : forall nm nm' nid, journal_ok -> nat_sound nm ->
  f2fs_alloc_nid fuel env memory nm = Some (nm', Some nid) ->
  nat_sound nm' /\ truly_free nid /\ 0 < nid < max_nid nm' /\ free_nid_root nm !! nid <> Some PREALLOC_NID /\
  (forall n, free_nid_root nm' !! n = Some PREALLOC_NID <-> n = nid \/ free_nid_root nm !! n = Some PREALLOC_NID) /\
  available_nids nm' = available_nids nm -! 1.
Proof.
  induction fuel as [|fuel IH]; intros nm nm' nid Hj Hs E; cbn [f2fs_alloc_nid] in E; [done|].
  destruct (available_nids nm =? 0); [done|]. destruct (cnt_free nm =? 0); cbn [negb] in E.
  - destruct (build_ok memory nm true false Hj Hs) as (nm1 & ok & E1 & He & Hs1). rewrite E1 in E. cbn [mbind option_bind] in E.
    destruct ok; [|done]. destruct (IH nm1 nm' nid Hj (Hs1 eq_refl) E) as (H1 & H2 & H3 & H4 & H5 & H6).
    rewrite (ev_pre _ _ He) in H4. rewrite (ev_avail _ _ He) in H6. conjs; try done; try lia. intros n. by rewrite H5, (ev_pre _ _ He).
  - destruct (head (free_nid_list nm)) as [n0|] eqn:Eh; [|done]. cbn [mbind option_bind] in E. destruct Hs as [Hi Hf Hb].
    assert (Hn0 : free_nid_root nm !! n0 = Some FREE_NID).
    { apply (ni_free _ Hi). destruct (free_nid_list nm); [done|]. injection Eh as ->. apply elem_of_cons. by left. }
    destruct (take_nid nm n0 Hi Hn0) as (nm1 & E1 & Hi1 & Em & Er & Ea & Eb & _). rewrite E1 in E. cbn [mbind option_bind] in E.
    injection E as <- <-. set (nm2 := set_available nm1 (available_nids nm1 -! 1)).
    destruct (bitmap_frame nm2 n0 false false) as (B1 & B2 & B3 & B4 & B5 & B6 & B7 & B8). conjs.
    + constructor.
      * apply bitmap_inv. destruct Hi1. by constructor.
      * intros n Hn. rewrite B1 in Hn. cbn in Hn. rewrite Er in Hn. apply lookup_insert_Some in Hn as [[_ ?]|[_ Hn]]; [done|]. by apply Hf.
      * intros b Hin. destruct (B8 b Hin) as [Hin'|[? _]]; [|done]. apply Hb. cbn in Hin'. by rewrite <-Eb.
    + by apply Hf.
    + destruct (ni_range _ Hi n0 FREE_NID Hn0). lia.
    + rewrite B5. cbn. rewrite Em. by destruct (ni_range _ Hi n0 FREE_NID Hn0).
    + congruence.
    + intros n. rewrite B1. cbn. rewrite Er. destruct (decide (n = n0)) as [->|Hne]; [rewrite lookup_insert_eq; naive_solver|].
      rewrite lookup_insert_ne by done. naive_solver.
    + rewrite B6. cbn. by rewrite Ea.
Qed.

(** Ids allocated one after the other. *)
Fixpoint alloc_nids (k fuel : nat) (memory : bool) (nm : f2fs_nm_info) : option (f2fs_nm_info * list Z) :=
  match k with
  | O => Some (nm, [])
  | S k => '(nm, r) ← f2fs_alloc_nid fuel env memory nm;
           nid ← r;
           '(nm, l) ← alloc_nids k fuel memory nm;
           Some (nm, nid :: l)
  end.

(** C23: ids that are allocated one after the other, with builds in between as
    needed, are pairwise different, differ from every id that was handed out
    before and is not done yet, and are free according to the NAT. *)
Theorem alloc_nids_distinct k fuel memory nm nm' l : journal_ok -> nat_sound nm ->
  alloc_nids k fuel memory nm = Some (nm', l) ->
  NoDup l /\ length l = k /\ (forall n, n ∈ l -> truly_free n /\ free_nid_root nm !! n <> Some PREALLOC_NID /\ 0 < n) /\
  cnt_prealloc nm' = cnt_prealloc nm + Z.of_nat k /\ nat_sound nm'.
Proof.
  intros Hj. revert nm nm' l. induction k as [|k IH]; intros nm nm' l Hs E; cbn [alloc_nids] in E.
  { injection E as <- <-. conjs; try done; [apply NoDup_nil_2|by intros n ?%elem_of_nil|lia]. }
  destruct (f2fs_alloc_nid fuel env memory nm) as [[nm1 [nid|]]|] eqn:E1; [|done|done]. cbn [mbind option_bind] in E.
  destruct (alloc_nids k fuel memory nm1) as [[nm2 l2]|] eqn:E2; [|done]. cbn [mbind option_bind] in E. injection E as <- <-.
  destruct (alloc_ok _ _ _ _ _ Hj Hs E1) as (Hs1 & Ht & Hr & Hn & Hp & _). destruct (IH _ _ _ Hs1 E2) as (I1 & I2 & I3 & I4 & I5).
  assert (Hcp : cnt_prealloc nm1 = cnt_prealloc nm + 1).
  { rewrite (ni_cp _ (ns_inv _ Hs1)), (ni_cp _ (ns_inv _ Hs)).
    assert (Ep : prealloc_set (free_nid_root nm1) = prealloc_set (<[nid := PREALLOC_NID]> (free_nid_root nm))).
    { apply map_eq. intros n. rewrite !prealloc_lookup. apply decide_ext. rewrite Hp. destruct (decide (n = nid)) as [->|Hne].
      - rewrite lookup_insert_eq. naive_solver.
      - rewrite lookup_insert_ne by done. naive_solver. }
    by rewrite Ep, size_prealloc_insert. }
  conjs; try done.
  - apply list.NoDup_cons. split; [|done]. intros Hin. destruct (I3 nid Hin) as (_ & Hc & _). apply Hc, Hp. by left.
  - cbn. by rewrite I2.
  - intros n [->|Hin]%elem_of_cons; [conjs; [done|done|lia]|]. destruct (I3 n Hin) as (J1 & J2 & J3). conjs; [done| |done].
    intros Hc. apply J2, Hp. by right.
  - rewrite I4, Hcp. lia.
Qed.

Lemma alloc_head fuel memory nm : nat_sound nm -> cnt_free nm <> 0 -> available_nids nm <> 0 ->
  exists nm' nid, f2fs_alloc_nid (S fuel) env memory nm = Some (nm', Some nid) /\
    free_nid_list nm = nid :: free_nid_list nm'.
Proof.
  intros [Hi _ _] Hc Ha. cbn [f2fs_alloc_nid]. rewrite !(proj2 (Z.eqb_neq _ _)) by done. cbn [negb].
  destruct (free_nid_list nm) as [|nid l] eqn:El; [rewrite (ni_cf _ Hi), El in Hc; done|]. cbn [head hd_error mbind option_bind].
  assert (Hn : free_nid_root nm !! nid = Some FREE_NID) by (apply (ni_free _ Hi); rewrite El; apply elem_of_cons; by left).
  unfold __move_free_nid. rewrite Hn. cbn [mbind option_bind]. rewrite decide_False by tauto.
  pose proof (ni_list _ Hi) as Hnd. rewrite El in Hnd. apply list.NoDup_cons in Hnd as [Hni _].
  rewrite El, list_del_head by done. cbn [mbind option_bind]. do 2 eexists. split; [reflexivity|].
  match goal with |- context [update_free_nid_bitmap ?a ?b ?c ?d] => destruct (bitmap_frame a b c d) as (_ & B2 & _) end.
  by rewrite B2.
Qed.

(** C37: as long as enough ids are cached and available, allocations succeed
    without a build, and they hand out the ids of the free list from its front. *)
Theorem alloc_nids_fifo k fuel memory nm : journal_ok -> nat_sound nm ->
  Z.of_nat k <= cnt_free nm -> Z.of_nat k <= available_nids nm < 2 ^ 32 ->
  exists nm', alloc_nids k (S fuel) memory nm = Some (nm', take k (free_nid_list nm)) /\
    free_nid_list nm' = drop k (free_nid_list nm) /\ available_nids nm' = available_nids nm - Z.of_nat k.
Proof.
  intros Hj. revert nm. induction k as [|k IH]; intros nm Hs Hc Ha; cbn [alloc_nids]; [exists nm; conjs; [done|done|lia]|].
  destruct (alloc_head fuel memory nm Hs) as (nm1 & nid & E1 & El); [lia|lia|].
  destruct (alloc_ok _ _ _ _ _ Hj Hs E1) as (Hs1 & _ & _ & _ & _ & Hav). rewrite u32_small in Hav by lia.
  assert (Hc1 : cnt_free nm1 = cnt_free nm - 1).
  { rewrite (ni_cf _ (ns_inv _ Hs1)), (ni_cf _ (ns_inv _ Hs)), El. cbn [length]. lia. }
  destruct (IH nm1 Hs1) as (nm' & E2 & Hl & Hav'); [lia|lia|]. rewrite E1. cbn [mbind option_bind]. rewrite E2. cbn [mbind option_bind].
  exists nm'. rewrite El. conjs; [done|done|lia].
Qed.

(** an allocated id can always be finished or given back without a trap:
    finishing removes it, giving it back makes it free again or, when memory
    is short, forgets it; the lists and counters stay right. *)
Theorem alloc_nid_release fuel memory nm nm' nid : journal_ok -> nat_sound nm ->
  f2fs_alloc_nid fuel env memory nm = Some (nm', Some nid) ->
  (exists nm1, f2fs_alloc_nid_done nm' nid = Some nm1 /\ nid_inv nm1 /\ free_nid_root nm1 = delete nid (free_nid_root nm')) /\
  (forall memory', exists nm2, f2fs_alloc_nid_failed memory' nm' nid = Some nm2 /\ nid_inv nm2 /\
    free_nid_root nm2 !! nid = (if memory' then Some FREE_NID else None) /\
    available_nids nm2 = available_nids nm' +! 1).
Proof.
  intros Hj Hs E. destruct (alloc_ok _ _ _ _ _ Hj Hs E) as ([Hi _ _] & _ & Hr & _ & Hp & _).
  assert (Hn : free_nid_root nm' !! nid = Some PREALLOC_NID) by (apply Hp; by left).
  unfold f2fs_alloc_nid_done, f2fs_alloc_nid_failed, __lookup_free_nid_list. rewrite Hn. cbn [mbind option_bind].
  rewrite (proj2 (Z.eqb_neq nid 0)) by lia. destruct (remove_nid nm' nid PREALLOC_NID Hi Hn) as (nm1 & E1 & Hi1 & _ & Er1 & _ & _ & _ & Ea1).
  split; [by exists nm1|]. intros memory'. destruct memory'; cbn [negb].
  - destruct (give_back_nid nm' nid Hi Hn) as (nm2 & E2 & Hi2 & Em2 & Er2). rewrite E2. cbn [mbind option_bind]. eexists. split; [reflexivity|].
    match goal with |- context [update_free_nid_bitmap ?a ?b ?c ?d] => destruct (bitmap_frame a b c d) as (B1 & _ & _ & _ & _ & B6 & _) end.
    conjs; [apply bitmap_inv; destruct Hi2; by constructor|rewrite B1; cbn; by rewrite Er2, lookup_insert_eq|rewrite B6; cbn].
    unfold __move_free_nid in E2. rewrite Hn in E2. cbn [mbind option_bind] in E2. rewrite decide_False in E2 by tauto.
    destruct (list_add_tail _ _); [|done]. cbn [mbind option_bind] in E2. by injection E2 as <-.
  - rewrite E1. cbn [mbind option_bind]. eexists. split; [reflexivity|].
    match goal with |- context [update_free_nid_bitmap ?a ?b ?c ?d] => destruct (bitmap_frame a b c d) as (B1 & _ & _ & _ & _ & B6 & _) end.
    conjs; [apply bitmap_inv; destruct Hi1; by constructor|rewrite B1; cbn; by rewrite Er1, lookup_delete_eq|rewrite B6; cbn; by rewrite Ea1].
Qed.

(** ** Shrinking *)

(** [k] ids were taken from the front of the free list. *)
Record shrunk (nm nm' : f2fs_nm_info) (k : Z) : Prop := {
  sh_inv : nid_inv nm';
  sh_list : free_nid_list nm' = drop (Z.to_nat k) (free_nid_list nm);
  sh_pre : forall n, free_nid_root nm' !! n = Some PREALLOC_NID <-> free_nid_root nm !! n = Some PREALLOC_NID
}.

Lemma shrunk_cnt nm nm' k : nid_inv nm -> shrunk nm nm' k -> 0 <= k <= cnt_free nm -> cnt_free nm' = cnt_free nm - k.
Proof. intros Hi [Hi' Hl _] Hk. rewrite (ni_cf _ Hi'), Hl, length_drop. rewrite (ni_cf _ Hi) in *. lia. Qed.

Lemma shrunk_trans nm nm1 nm2 k1 k2 : shrunk nm nm1 k1 -> shrunk nm1 nm2 k2 -> 0 <= k1 -> 0 <= k2 -> shrunk nm nm2 (k1 + k2).
Proof.
  intros [_ L1 P1] [Hi L2 P2] H1 H2. constructor; [done| |intros n; by rewrite P2, P1].
  rewrite L2, L1, drop_drop. f_equal. lia.
Qed.

Lemma free_batch_ok l : forall nm nr batch, nid_inv nm -> free_nid_list nm = l -> 0 <= nr -> 0 <= batch ->
  exists nm' k, free_batch l nr batch nm = Some (nm', nr - k) /\ shrunk nm nm' k /\
    k = Z.max 0 (Z.min nr (Z.min batch (cnt_free nm - MAX_FREE_NIDS))).
Proof.
  pose proof nat_entries_range as HN. assert (Hmax : 0 <= MAX_FREE_NIDS) by (unfold MAX_FREE_NIDS, FREE_NID_PAGES; lia).
  assert (Hdone : forall nm, nid_inv nm -> shrunk nm nm 0) by (intros nm Hi; constructor; done).
  induction l as [|i l IH]; intros nm nr batch Hi El Hnr Hb; cbn [free_batch].
  { exists nm, 0. rewrite Z.sub_0_r. conjs; [done|by apply Hdone|]. rewrite (ni_cf _ Hi), El. cbn. lia. }
  destruct ((nr =? 0) || (batch =? 0) || (cnt_free nm <=? MAX_FREE_NIDS)) eqn:Es.
  { exists nm, 0. rewrite Z.sub_0_r. conjs; [done|by apply Hdone|]. lia. }
  assert (Hn : free_nid_root nm !! i = Some FREE_NID) by (apply (ni_free _ Hi); rewrite El; apply elem_of_cons; by left).
  destruct (remove_nid nm i FREE_NID Hi Hn) as (nm1 & -> & Hi1 & _ & Er & Ec & El1 & _). cbn [mbind option_bind].
  assert (El1' : free_nid_list nm1 = l).
  { rewrite El1, El. pose proof (ni_list _ Hi) as Hnd. rewrite El in Hnd. apply list.NoDup_cons in Hnd as [Hni _].
    rewrite filter_cons_False by tauto. by apply list_filter_all_ne. }
  assert (Hsh : shrunk nm nm1 1).
  { constructor; [done|by rewrite El1', El|]. intros n. rewrite Er. destruct (decide (n = i)) as [->|Hne]; [rewrite lookup_delete_eq; naive_solver|].
    by rewrite lookup_delete_ne. }
  destruct (IH nm1 (nr - 1) (batch - 1) Hi1 El1') as (nm' & k & E & Hsh' & Ek); [lia|lia|]. cbn in Ec. rewrite Ec in Ek.
  exists nm', (1 + k). conjs; [rewrite E; do 2 f_equal; lia| |lia]. eapply shrunk_trans; [done|done|lia|lia].
Qed.

Lemma free_batches_ok fuel : forall nm nr, nid_inv nm -> 0 <= nr -> (length (free_nid_list nm) < fuel)%nat ->
  exists nm' k, free_batches fuel nr nm = Some (nm', nr - k) /\ shrunk nm nm' k /\
    k = Z.max 0 (Z.min nr (cnt_free nm - MAX_FREE_NIDS)).
Proof.
  pose proof nat_entries_range as HN. assert (Hmax : 0 <= MAX_FREE_NIDS) by (unfold MAX_FREE_NIDS, FREE_NID_PAGES; lia).
  induction fuel as [|fuel IH]; intros nm nr Hi Hnr Hf; [lia|]. cbn [free_batches].
  destruct (negb (nr =? 0) && (MAX_FREE_NIDS <? cnt_free nm)) eqn:Es.
  - destruct (free_batch_ok (free_nid_list nm) nm nr SHRINK_NID_BATCH_SIZE Hi) as (nm1 & k1 & -> & Hsh1 & Ek1); [done|done|unfold SHRINK_NID_BATCH_SIZE; lia|].
    unfold SHRINK_NID_BATCH_SIZE in Ek1. cbn [mbind option_bind]. pose proof (shrunk_cnt _ _ _ Hi Hsh1) as Hc1.
    pose proof (ni_cf _ Hi) as Hcf. pose proof (ni_cf _ (sh_inv _ _ _ Hsh1)) as Hcf1.
    destruct (IH nm1 (nr - k1) (sh_inv _ _ _ Hsh1)) as (nm' & k & E & Hsh & Ek); [lia|lia|].
    exists nm', (k1 + k). conjs; [rewrite E; do 2 f_equal; lia| |lia]. eapply shrunk_trans; [done|done|lia|lia].
  - exists nm, 0. rewrite Z.sub_0_r. conjs; [done|by constructor|lia].
Qed.

(** the shrinker of the free id cache always ends and frees exactly the
    requested number of ids, but never below [MAX_FREE_NIDS] cached ids and
    only when no build holds the lock; the oldest free ids go first, and no
    id that is handed out is touched. *)
Theorem try_to_free_nids_exact trylock nm nr_shrink : nid_inv nm -> 0 <= nr_shrink ->
  exists nm' n, f2fs_try_to_free_nids trylock nm nr_shrink = Some (nm', n) /\ nid_inv nm' /\
    n = (if trylock then Z.max 0 (Z.min nr_shrink (cnt_free nm - MAX_FREE_NIDS)) else 0) /\
    free_nid_list nm' = drop (Z.to_nat n) (free_nid_list nm) /\
    (forall i, free_nid_root nm' !! i = Some PREALLOC_NID <-> free_nid_root nm !! i = Some PREALLOC_NID).
Proof.
  intros Hi Hn. unfold f2fs_try_to_free_nids. destruct (cnt_free nm <=? MAX_FREE_NIDS) eqn:E.
  { exists nm, 0. conjs; try done. destruct trylock; lia. }
  destruct trylock; cbn [negb]; [|by exists nm, 0].
  destruct (free_batches_ok (S (length (free_nid_list nm))) nm nr_shrink Hi Hn) as (nm' & k & -> & [Hi' Hl Hp] & Ek); [lia|].
  cbn [mbind option_bind]. exists nm', k. conjs; try done. do 2 f_equal. lia.
Qed.
End free_nid.

(** ** A failed build *)

(** 455 entries per 4 KiB block. *)
Definition nat_4k : NatFormat.
Proof. refine {| NAT_ENTRY_PER_BLOCK := 455; NULL_ADDR := 0; NEW_ADDR := 4294967295 |}; lia. Defined.

(** Nothing cached or scanned yet. *)
Definition fresh_nm : f2fs_nm_info := {|
  max_nid := 3640; available_nids := 100; next_scan_nid := 0; nat_blocks := 8; free_nid_root := ∅; free_nid_list := []; cnt_free := 0;
  cnt_prealloc := 0; nat_block_bitmap := ∅; free_nid_bitmap := ∅; free_nid_count := ∅ |}.

(** Id 4 is in use according to the journal only; the second NAT block cannot
    be read. *)
Definition broken_nat : nat_env := {|
  nat_cache := fun _ => None; get_current_nat_page := fun b => if b =? 0 then Some (fun i => if i =? 4 then 0 else 1) else None;
  nat_journal := [(4, 700)] |}.

(** a build that fails on a NAT block it cannot read returns before the
    journal is read: an id that the journal says is in use stays on the free
    list, and the next allocation hands it out. *)
Theorem failed_build_hands_out_used :
  match @__f2fs_build_free_nids nat_4k 3 broken_nat true fresh_nm true false with
  | Some (nm, false) => match @f2fs_alloc_nid nat_4k 3 1 broken_nat true nm with
                        | Some (_, Some nid) => nid = 4 /\ ~ @truly_free nat_4k broken_nat nid
                        | _ => False
                        end
  | _ => False
  end.
Proof.
  destruct (@__f2fs_build_free_nids nat_4k 3 broken_nat true fresh_nm true false) as [[nm ok]|] eqn:E; [|vm_compute in E; done].
  assert (Hok : ok = false) by (vm_compute in E; congruence). subst ok.
  destruct (@f2fs_alloc_nid nat_4k 3 1 broken_nat true nm) as [[nm' [nid|]]|] eqn:E2.
  - assert (Hn : nid = 4).
    { vm_compute in E. injection E as <-. vm_compute in E2. congruence. }
    split; [done|]. subst nid. intros (_ & Hj & _). unfold journaled in Hj. cbn in Hj.
    specialize (Hj ltac:(by apply list_elem_of_singleton)). apply list_elem_of_singleton in Hj. done.
  - vm_compute in E. injection E as <-. vm_compute in E2. done.
  - vm_compute in E. injection E as <-. vm_compute in E2. done.
Qed.
