(* ===== verification/Hash.v ===== *)
(** * Directory name hash (hash.c)

    The hash of a directory entry name: the TEA transform of ext3 over 16-byte
    pieces of the name. *)

From S2P Require Import Prelude.

Definition DELTA : Z := 2654435769. (* 0x9E3779B9 *)

(** The loop of [TEA_transform] on [b0], [b1]. *)
Fixpoint tea_rounds (n : nat) (sum b0 b1 a b c d : Z) : Z * Z :=
  match n with
  | O => (b0, b1)
  | S n =>
      let sum := sum +! DELTA in
      let b0 := b0 +! Z.lxor (Z.lxor (u32 (Z.shiftl b1 4) +! a) (b1 +! sum)) (Z.shiftr b1 5 +! b) in
      let b1 := b1 +! Z.lxor (Z.lxor (u32 (Z.shiftl b0 4) +! c) (b0 +! sum)) (Z.shiftr b0 5 +! d) in
      tea_rounds n sum b0 b1 a b c d
  end.

(** [TEA_transform]: words 0 and 1 of the buffer, keyed by the first four
    words of the input. *)
Definition TEA_transform (buf : list Z) (inp : list Z) : option (list Z) :=
  match buf, inp with
  | b0 :: b1 :: rest, a :: b :: c :: d :: _ =>
      let '(r0, r1) := tea_rounds 16 0 b0 b1 a b c d in
      Some (b0 +! r0 :: b1 +! r1 :: rest)
  | _, _ => None
  end.

(** The loop of [str2hashbuf]: [i] counts the bytes, [num] the words left, and
    the written words are collected in [buf]. *)
Fixpoint str2hashbuf_loop (msg : list Z) (i : Z) (pad val num : Z) (buf : list Z) : Z * Z * list Z :=
  match msg with
  | [] => (val, num, buf)
  | c :: msg =>
      let val := if i mod 4 =? 0 then pad else val in
      let val := c +! u32 (Z.shiftl val 8) in
      if i mod 4 =? 3 then str2hashbuf_loop msg (i + 1) pad pad (num - 1) (buf ++ [val])
      else str2hashbuf_loop msg (i + 1) pad val num buf
  end.

Definition hash_pad (len : Z) : Z :=
  let pad := Z.lor (u32 len) (u32 (Z.shiftl (u32 len) 8)) in
  Z.lor pad (u32 (Z.shiftl pad 16)).

(** [str2hashbuf]: [msg] are the bytes from the pointer on, [len] the length
    argument; the result is what was written to the buffer. *)
Definition str2hashbuf (msg : list Z) (len : Z) (num : Z) : list Z :=
  let pad := hash_pad len in
  let len := if num * 4 <? len then num * 4 else len in
  let '(val, num, buf) := str2hashbuf_loop (take (Z.to_nat len) msg) 0 pad pad num [] in
  let buf := if 0 <=? num - 1 then buf ++ [val] else buf in
  buf ++ replicate (Z.to_nat (num - 1)) pad.

Section hash.
(** [F2FS_HASH_COL_BIT] of the on-disk format header, and [is_dot_dotdot] of
    the kernel's fs headers. *)
Context (F2FS_HASH_COL_BIT : Z) (is_dot_dotdot : list Z -> Z -> bool).

(** The loop of [TEA_hash_name]. *)
Fixpoint tea_hash_loop (fuel : nat) (p : list Z) (len : Z) (buf : list Z) : option (list Z) :=
  match fuel with
  | O => None
  | S fuel =>
      buf ← TEA_transform buf (str2hashbuf p len 4);
      let p := drop 16 p in
      if len <=? 16 then Some buf else tea_hash_loop fuel p (len - 16) buf
  end.

Definition tea_seed : list Z := [1732584193; 4023233417; 2562383102; 271733878].

Definition TEA_hash_name (p : list Z) (len : Z) : option Z :=
  buf ← tea_hash_loop (S (Z.to_nat len)) p len tea_seed;
  b0 ← buf !! 0%nat;
  Some (u32 (Z.land b0 (Z.lnot F2FS_HASH_COL_BIT))).

(** What [f2fs_hash_filename] reads of the directory and the name: the
    casefolded and the user's name are used in casefolded directories;
    [siphash] is [fscrypt_fname_siphash]. *)
Record f2fs_filename := { disk_name : list Z; usr_fname : list Z; cf_name : option (list Z) }.

Definition f2fs_hash_filename (casefolded encrypted : bool) (siphash : list Z -> Z) (fname : f2fs_filename) : option Z :=
  let name := disk_name fname in
  if is_dot_dotdot name (Z.of_nat (length name)) then Some 0
  else
    let name' := match cf_name fname with Some n => n | None => usr_fname fname end in
    if casefolded && encrypted then Some (u32 (siphash name'))
    else
      let name := if casefolded then name' else name in
      TEA_hash_name name (Z.of_nat (length name)).
End hash.

(** ** [str2hashbuf] in closed form

    Word [k] is the fold of bytes [4k .. 4k+3] into the pad. *)

Definition hash_word (pad : Z) (bs : list Z) : Z := foldl (fun v c => c +! u32 (Z.shiftl v 8)) pad bs.

Fixpoint hash_words (n : nat) (pad : Z) (bs : list Z) : list Z :=
  match n with O => [] | S n => hash_word pad (take 4 bs) :: hash_words n pad (drop 4 bs) end.

Lemma length_hash_words n pad bs : length (hash_words n pad bs) = n.
Proof. revert bs; induction n as [|n IH]; intros bs; [done|]. cbn. by rewrite IH. Qed.

Lemma hash_words_nil n pad : hash_words n pad [] = replicate n pad.
Proof. induction n as [|n IH]; [done|]. cbn. by rewrite IH. Qed.

(** One word of the loop. *)
Lemma str2hashbuf_loop_word a b c d msg k pad val num buf : 0 <= k ->
  str2hashbuf_loop (a :: b :: c :: d :: msg) (4 * k) pad val num buf =
  str2hashbuf_loop msg (4 * (k + 1)) pad pad (num - 1) (buf ++ [hash_word pad [a; b; c; d]]).
Proof.
  intros Hk. cbn [str2hashbuf_loop].
  replace ((4 * k) mod 4 =? 0) with true by zdiv. replace ((4 * k) mod 4 =? 3) with false by zdiv.
  replace ((4 * k + 1) mod 4 =? 0) with false by zdiv. replace ((4 * k + 1) mod 4 =? 3) with false by zdiv.
  replace ((4 * k + 1 + 1) mod 4 =? 0) with false by zdiv. replace ((4 * k + 1 + 1) mod 4 =? 3) with false by zdiv.
  replace ((4 * k + 1 + 1 + 1) mod 4 =? 0) with false by zdiv. replace ((4 * k + 1 + 1 + 1) mod 4 =? 3) with true by zdiv.
  by replace (4 * k + 1 + 1 + 1 + 1) with (4 * (k + 1)) by lia.
Qed.

(** The last, incomplete word. *)
Lemma str2hashbuf_loop_tail msg k pad num buf : 0 <= k -> (length msg < 4)%nat ->
  str2hashbuf_loop msg (4 * k) pad pad num buf = (hash_word pad msg, num, buf).
Proof.
  intros Hk Hl. destruct msg as [|a [|b [|c [|d msg]]]]; cbn [length] in Hl; try lia; cbn [str2hashbuf_loop]; try done;
  replace ((4 * k) mod 4 =? 0) with true by zdiv; replace ((4 * k) mod 4 =? 3) with false by zdiv; try done;
  replace ((4 * k + 1) mod 4 =? 0) with false by zdiv; replace ((4 * k + 1) mod 4 =? 3) with false by zdiv; try done;
  replace ((4 * k + 1 + 1) mod 4 =? 0) with false by zdiv; by replace ((4 * k + 1 + 1) mod 4 =? 3) with false by zdiv.
Qed.

Definition finish (pad : Z) (r : Z * Z * list Z) : list Z :=
  let '(val, num, buf) := r in
  (if 0 <=? num - 1 then buf ++ [val] else buf) ++ replicate (Z.to_nat (num - 1)) pad.

Lemma str2hashbuf_loop_spec n : forall msg k pad buf, 0 <= k -> (length msg <= 4 * n)%nat ->
  finish pad (str2hashbuf_loop msg (4 * k) pad pad (Z.of_nat n) buf) = buf ++ hash_words n pad msg.
Proof.
  induction n as [|n IH]; intros msg k pad buf Hk Hl.
  - destruct msg; [|cbn in Hl; lia]. cbn. by rewrite !app_nil_r.
  - destruct (decide (length msg < 4)%nat) as [Hs|Hs].
    + rewrite str2hashbuf_loop_tail by done. unfold finish. rewrite (proj2 (Z.leb_le _ _)) by lia.
      cbn [hash_words]. rewrite take_ge, drop_ge, hash_words_nil by lia.
      replace (Z.to_nat (Z.of_nat (S n) - 1)) with n by lia. by rewrite <-app_assoc.
    + destruct msg as [|a [|b [|c [|d msg]]]]; cbn [length] in *; try lia.
      rewrite str2hashbuf_loop_word by done. replace (Z.of_nat (S n) - 1) with (Z.of_nat n) by lia.
      rewrite IH by lia. rewrite <-app_assoc. done.
Qed.

Lemma str2hashbuf_eq msg num :
  str2hashbuf msg (Z.of_nat (length msg)) (Z.of_nat num) =
  hash_words num (hash_pad (Z.of_nat (length msg))) (take (4 * num) msg).
Proof.
  set (len := Z.of_nat (length msg)). unfold str2hashbuf. set (l := if _ <? _ then _ else _).
  assert (El : take (Z.to_nat l) msg = take (4 * num) msg).
  { subst l len. destruct (Z.of_nat num * 4 <? Z.of_nat (length msg)) eqn:C; [f_equal; lia|].
    rewrite !take_ge by lia. done. }
  rewrite El. pose proof (str2hashbuf_loop_spec num (take (4 * num) msg) 0 (hash_pad len) [] ltac:(lia)) as E.
  rewrite Z.mul_0_r in E. unfold finish in E. destruct (str2hashbuf_loop _ _ _ _ _ _) as [[val nm] buf].
  apply E. rewrite length_take. lia.
Qed.

(** [str2hashbuf] writes exactly [num] words whatever the length of the
    name, so it never overruns the buffer, and word [k] is the fold of bytes
    [4k .. 4k+3] of the name, shifted into the length pad; the bytes after
    the first [4 num] are ignored. *)
Theorem str2hashbuf_words (msg : list Z) (num : nat) :
  length (str2hashbuf msg (Z.of_nat (length msg)) (Z.of_nat num)) = num /\
  str2hashbuf msg (Z.of_nat (length msg)) (Z.of_nat num) =
  hash_words num (hash_pad (Z.of_nat (length msg))) (take (4 * num) msg).
Proof. split; [by rewrite str2hashbuf_eq, length_hash_words|apply str2hashbuf_eq]. Qed.

(** ** No information is lost in the words *)

Definition is_byte (b : Z) : Prop := 0 <= b < 256.

Lemma hash_step v c : c +! u32 (Z.shiftl v 8) = u32 (c + v * 256).
Proof. unfold u32. rewrite Z.shiftl_mul_pow2 by lia. by rewrite Zplus_mod_idemp_r. Qed.

Lemma hash_step_u32 v c : u32 (c + u32 v * 256) = u32 (c + v * 256).
Proof. unfold u32. by rewrite <-Zplus_mod_idemp_r, Zmult_mod_idemp_l, Zplus_mod_idemp_r. Qed.

(** The bytes of a word as a big-endian number. *)
Definition be_val (v : Z) (bs : list Z) : Z := foldl (fun v c => c + v * 256) v bs.

Lemma be_val_u32 bs : forall v, u32 (be_val (u32 v) bs) = u32 (be_val v bs).
Proof.
  induction bs as [|c bs IH]; intros v; [apply u32_idemp|]. cbn [be_val foldl].
  change (foldl _ ?x bs) with (be_val x bs). rewrite <-(IH (c + u32 v * 256)), hash_step_u32. apply IH.
Qed.

Lemma hash_word_be bs : forall v, u32 (hash_word v bs) = u32 (be_val v bs).
Proof.
  induction bs as [|c bs IH]; intros v; [done|]. cbn [hash_word be_val foldl].
  change (foldl _ ?x bs) with (hash_word x bs) at 1. change (foldl _ ?x bs) with (be_val x bs).
  rewrite hash_step, IH. apply be_val_u32.
Qed.

Lemma hash_word_inj pad bs bs' : Forall is_byte bs -> Forall is_byte bs' -> length bs = length bs' ->
  (length bs <= 4)%nat -> hash_word pad bs = hash_word pad bs' -> bs = bs'.
Proof.
  intros Hb Hb' Hl H4 E. apply (f_equal u32) in E. rewrite !hash_word_be in E. unfold u32, is_byte in *.
  do 5 (try destruct bs as [|? bs]); do 5 (try destruct bs' as [|? bs']); cbn [length] in *; try lia;
    repeat match goal with H : Forall _ (_ :: _) |- _ => apply list.Forall_cons in H as [? H] end;
    try done; cbn [be_val foldl] in E; repeat f_equal; zdiv.
Qed.

Lemma hash_words_inj n pad : forall bs bs', Forall is_byte bs -> Forall is_byte bs' -> length bs = length bs' ->
  (length bs <= 4 * n)%nat -> hash_words n pad bs = hash_words n pad bs' -> bs = bs'.
Proof.
  induction n as [|n IH]; intros bs bs' Hb Hb' Hl Hn E.
  - destruct bs, bs'; cbn in *; try lia. done.
  - cbn [hash_words] in E. injection E as E1 E2.
    rewrite <-(take_drop 4 bs), <-(take_drop 4 bs'). f_equal.
    + apply (hash_word_inj pad); [by apply Forall_take|by apply Forall_take| | |done]; rewrite !length_take; lia.
    + apply IH; [by apply Forall_drop|by apply Forall_drop| | |done]; rewrite !length_drop; lia.
Qed.

(** Two names of the same length that fit the buffer are turned into the
    same words only when they are equal: the packing loses nothing. *)
Theorem str2hashbuf_injective (msg msg' : list Z) (num : nat) :
  Forall is_byte msg -> Forall is_byte msg' -> length msg = length msg' -> (length msg <= 4 * num)%nat ->
  str2hashbuf msg (Z.of_nat (length msg)) (Z.of_nat num) = str2hashbuf msg' (Z.of_nat (length msg')) (Z.of_nat num) ->
  msg = msg'.
Proof.
  intros Hb Hb' Hl Hn E. rewrite !str2hashbuf_eq, <-Hl in E. rewrite !take_ge in E by lia.
  by apply (hash_words_inj num (hash_pad (Z.of_nat (length msg)))).
Qed.

(** ** Termination and range *)

Lemma TEA_transform_some b0 b1 rest msg : exists r0 r1,
  TEA_transform (b0 :: b1 :: rest) (str2hashbuf msg (Z.of_nat (length msg)) 4) = Some (r0 :: r1 :: rest) /\
  0 <= r0 < 2 ^ 32.
Proof.
  pose proof (str2hashbuf_eq msg 4) as E. change (Z.of_nat 4) with 4 in E. rewrite E. cbn [hash_words TEA_transform]. destruct (tea_rounds _ _ _ _ _ _ _ _) as [x y].
  do 2 eexists. split; [reflexivity|]. apply u32_range.
Qed.

Lemma tea_hash_loop_some fuel : forall p b0 b1 rest, (length p < fuel)%nat ->
  exists r0 r1, tea_hash_loop fuel p (Z.of_nat (length p)) (b0 :: b1 :: rest) = Some (r0 :: r1 :: rest) /\ 0 <= r0 < 2 ^ 32.
Proof.
  induction fuel as [|fuel IH]; intros p b0 b1 rest Hf; [lia|]. cbn [tea_hash_loop].
  destruct (TEA_transform_some b0 b1 rest p) as (r0 & r1 & -> & Hr). cbn [mbind option_bind].
  destruct (Z.of_nat (length p) <=? 16) eqn:E; [by eauto|].
  replace (Z.of_nat (length p) - 16) with (Z.of_nat (length (drop 16 p))) by (rewrite length_drop; lia).
  apply IH. rewrite length_drop. lia.
Qed.

Lemma TEA_hash_name_some col name : exists h, TEA_hash_name col name (Z.of_nat (length name)) = Some h /\ 0 <= h < 2 ^ 32.
Proof.
  unfold TEA_hash_name. rewrite Nat2Z.id.
  destruct (tea_hash_loop_some (S (length name)) name 1732584193 4023233417 [2562383102; 271733878])
    as (r0 & r1 & E & Hr); [lia|]. unfold tea_seed. rewrite E. cbn [mbind option_bind lookup list_lookup].
  eexists. split; [reflexivity|]. apply u32_range.
Qed.

(** [TEA_hash_name] terminates on every name, after one transform per 16
    bytes, and its value is a 32-bit number; [f2fs_hash_filename] returns for
    every kind of directory, with 0 for the dot entries. *)
Theorem hash_filename_total (col : Z) (is_dot : list Z -> Z -> bool) (casefolded encrypted : bool)
    (siphash : list Z -> Z) (fname : f2fs_filename) :
  exists h, f2fs_hash_filename col is_dot casefolded encrypted siphash fname = Some h /\ 0 <= h < 2 ^ 32 /\
    (is_dot (disk_name fname) (Z.of_nat (length (disk_name fname))) = true -> h = 0).
Proof.
  unfold f2fs_hash_filename. destruct (is_dot _ _); [by exists 0|].
  destruct (casefolded && encrypted).
  - eexists. split; [reflexivity|]. split; [apply u32_range|done].
  - set (name := if casefolded then _ else _). destruct (TEA_hash_name_some col name) as (h & -> & Hh). by exists h.
Qed.
