(* ===== verification/Acl.v ===== *)
(** * POSIX access control lists (acl.c, acl.h)

    The on-disk image of an ACL (a version word, four-byte entries for the
    owner, the owning group, the mask and the others, eight-byte entries for
    named users and groups), and the masking of a default ACL by the create
    mode. *)

From S2P Require Import Prelude.

Definition F2FS_ACL_VERSION : Z := 1.

(** Sizes of [f2fs_acl_header], [f2fs_acl_entry_short] and [f2fs_acl_entry]. *)
Definition acl_header_size : Z := 4.
Definition acl_short_size : Z := 4.
Definition acl_entry_size : Z := 8.

(** What the kernel's ACL headers provide: the tags, and the mapping between
    kernel ids and the ids of the initial user namespace. *)
Class PosixAcl := {
  ACL_USER_OBJ : Z; ACL_USER : Z; ACL_GROUP_OBJ : Z; ACL_GROUP : Z; ACL_MASK : Z; ACL_OTHER : Z;
  make_kuid : Z -> Z; make_kgid : Z -> Z; from_kuid : Z -> Z; from_kgid : Z -> Z;
  acl_tags_nodup : NoDup [ACL_USER_OBJ; ACL_USER; ACL_GROUP_OBJ; ACL_GROUP; ACL_MASK; ACL_OTHER];
  acl_tags_u16 : Forall (fun t => 0 <= t < 2 ^ 16) [ACL_USER_OBJ; ACL_USER; ACL_GROUP_OBJ; ACL_GROUP; ACL_MASK; ACL_OTHER]
}.

(** [struct posix_acl_entry]; the id of an entry that is not for a named user
    or group is not initialised. *)
Record posix_acl_entry := { e_tag : Z; e_perm : Z; e_id : option Z }.

(** The error codes of the ACL functions. *)
Inductive acl_error := EINVAL | ENOMEM | EIO.

Section acl.
Context `{PosixAcl}.

Definition f2fs_acl_size (count : Z) : Z :=
  if count <=? 4 then u64 (acl_header_size + count * acl_short_size)
  else u64 (acl_header_size + 4 * acl_short_size + (count - 4) * acl_entry_size).

(** [f2fs_acl_count]; [size] is unsigned, [s] its signed difference. *)
Definition signed64 (z : Z) : Z := let u := u64 z in if u <? 2 ^ 63 then u else u - 2 ^ 64.

Definition f2fs_acl_count (size : Z) : Z :=
  let size := u64 (size - acl_header_size) in
  let s := signed64 (size - 4 * acl_short_size) in
  if s <? 0 then if negb (size mod acl_short_size =? 0) then -1 else size / acl_short_size
  else if negb (s mod acl_entry_size =? 0) then -1 else s / acl_entry_size + 4.

Definition is_short_tag (t : Z) : bool :=
  (t =? ACL_USER_OBJ) || (t =? ACL_GROUP_OBJ) || (t =? ACL_MASK) || (t =? ACL_OTHER).

(** The loop of [f2fs_acl_from_disk]: [entry] is the offset of the entry
    pointer and [size] that of [end]; reads may touch the bytes after it. *)
Fixpoint acl_from_disk_loop (n : nat) (mem : list Z) (entry size : Z) : option (list posix_acl_entry * Z) :=
  match n with
  | O => Some ([], entry)
  | S n =>
      if size <? entry then None
      else
        let tag := get_le 2 (Z.to_nat entry) mem in
        let perm := get_le 2 (Z.to_nat (entry + 2)) mem in
        let id := get_le 4 (Z.to_nat (entry + 4)) mem in
        if is_short_tag tag then
          '(es, last) ← acl_from_disk_loop n mem (entry + acl_short_size) size;
          Some ({| e_tag := tag; e_perm := perm; e_id := None |} :: es, last)
        else if tag =? ACL_USER then
          '(es, last) ← acl_from_disk_loop n mem (entry + acl_entry_size) size;
          Some ({| e_tag := tag; e_perm := perm; e_id := Some (make_kuid id) |} :: es, last)
        else if tag =? ACL_GROUP then
          '(es, last) ← acl_from_disk_loop n mem (entry + acl_entry_size) size;
          Some ({| e_tag := tag; e_perm := perm; e_id := Some (make_kgid id) |} :: es, last)
        else None
  end.

(** [f2fs_acl_from_disk]: [mem] is the memory from [value] on, [alloc] whether
    [posix_acl_alloc] succeeds; no ACL is the empty result [inl None]. *)
Definition f2fs_acl_from_disk (alloc : bool) (mem : list Z) (size : Z)
    : option (list posix_acl_entry) + acl_error :=
  if size <? acl_header_size then inr EINVAL
  else if negb (get_le 4 0 mem =? F2FS_ACL_VERSION) then inr EINVAL
  else
    let count := f2fs_acl_count size in
    if count <? 0 then inr EINVAL
    else if count =? 0 then inl None
    else if negb alloc then inr ENOMEM
    else match acl_from_disk_loop (Z.to_nat count) mem acl_header_size size with
         | None => inr EINVAL
         | Some (es, last) => if negb (last =? size) then inr EINVAL else inl (Some es)
         end.

(** The loop of [f2fs_acl_to_disk] on the allocated buffer. *)
Fixpoint acl_to_disk_loop (es : list posix_acl_entry) (entry : Z) (buf : list Z) : option (list Z) :=
  match es with
  | [] => Some buf
  | e :: es =>
      let buf := list_inserts (Z.to_nat entry) (le_bytes 2 (e_tag e)) buf in
      let buf := list_inserts (Z.to_nat (entry + 2)) (le_bytes 2 (e_perm e)) buf in
      if e_tag e =? ACL_USER then
        let buf := list_inserts (Z.to_nat (entry + 4)) (le_bytes 4 (from_kuid (default 0 (e_id e)))) buf in
        acl_to_disk_loop es (entry + acl_entry_size) buf
      else if e_tag e =? ACL_GROUP then
        let buf := list_inserts (Z.to_nat (entry + 4)) (le_bytes 4 (from_kgid (default 0 (e_id e)))) buf in
        acl_to_disk_loop es (entry + acl_entry_size) buf
      else if is_short_tag (e_tag e) then acl_to_disk_loop es (entry + acl_short_size) buf
      else None
  end.

(** [f2fs_acl_to_disk]: [kmalloc] is the buffer that was allocated, if any. *)
Definition f2fs_acl_to_disk (kmalloc : option (list Z)) (es : list posix_acl_entry) : (list Z * Z) + acl_error :=
  match kmalloc with
  | None => inr ENOMEM
  | Some buf =>
      let buf := list_inserts 0 (le_bytes 4 F2FS_ACL_VERSION) buf in
      match acl_to_disk_loop es acl_header_size buf with
      | None => inr EINVAL
      | Some buf => inl (buf, f2fs_acl_size (Z.of_nat (length es)))
      end
  end.

(** ** Masking by the create mode *)

Definition S_IRWXU : Z := 448.
Definition S_IRWXG : Z := 56.
Definition S_IRWXO : Z := 7.
Definition S_IRWXUGO : Z := 511.

Definition set_perm (e : posix_acl_entry) (p : Z) : posix_acl_entry :=
  {| e_tag := e_tag e; e_perm := p; e_id := e_id e |}.

(** State of the loop of [f2fs_acl_create_masq]; [group_obj] and [mask_obj]
    point to entries by index. *)
Record masq_state := { mq_mode : Z; mq_group : option nat; mq_mask : option nat; mq_not_equiv : bool }.

Definition masq_step (st : masq_state) (k : nat) (pa : posix_acl_entry) : option (masq_state * posix_acl_entry) :=
  let mode := mq_mode st in
  if e_tag pa =? ACL_USER_OBJ then
    let perm := Z.land (e_perm pa) (Z.lor (Z.shiftr mode 6) (Z.lnot S_IRWXO)) in
    Some ({| mq_mode := Z.land mode (Z.lor (Z.shiftl perm 6) (Z.lnot S_IRWXU)); mq_group := mq_group st;
             mq_mask := mq_mask st; mq_not_equiv := mq_not_equiv st |}, set_perm pa perm)
  else if (e_tag pa =? ACL_USER) || (e_tag pa =? ACL_GROUP) then
    Some ({| mq_mode := mode; mq_group := mq_group st; mq_mask := mq_mask st; mq_not_equiv := true |}, pa)
  else if e_tag pa =? ACL_GROUP_OBJ then
    Some ({| mq_mode := mode; mq_group := Some k; mq_mask := mq_mask st; mq_not_equiv := mq_not_equiv st |}, pa)
  else if e_tag pa =? ACL_OTHER then
    let perm := Z.land (e_perm pa) (Z.lor mode (Z.lnot S_IRWXO)) in
    Some ({| mq_mode := Z.land mode (Z.lor perm (Z.lnot S_IRWXO)); mq_group := mq_group st;
             mq_mask := mq_mask st; mq_not_equiv := mq_not_equiv st |}, set_perm pa perm)
  else if e_tag pa =? ACL_MASK then
    Some ({| mq_mode := mode; mq_group := mq_group st; mq_mask := Some k; mq_not_equiv := true |}, pa)
  else None.

Fixpoint masq_loop (es : list posix_acl_entry) (k : nat) (st : masq_state)
    : option (masq_state * list posix_acl_entry) :=
  match es with
  | [] => Some (st, [])
  | pa :: es =>
      '(st, pa) ← masq_step st k pa;
      '(st, es) ← masq_loop es (S k) st;
      Some (st, pa :: es)
  end.

(** [f2fs_acl_create_masq]: the new entries, the new mode and whether the ACL
    is not equivalent to a mode; the error is [-EIO], after which only the
    entries may have changed. *)
Definition f2fs_acl_create_masq (es : list posix_acl_entry) (mode_p : Z)
    : (list posix_acl_entry * Z * bool) + acl_error :=
  match masq_loop es 0 {| mq_mode := mode_p; mq_group := None; mq_mask := None; mq_not_equiv := false |} with
  | None => inr EIO
  | Some (st, es) =>
      match match mq_mask st with Some k => Some k | None => mq_group st end with
      | None => inr EIO
      | Some k =>
          match es !! k with
          | None => inr EIO
          | Some pa =>
              let mode := mq_mode st in
              let perm := Z.land (e_perm pa) (Z.lor (Z.shiftr mode 3) (Z.lnot S_IRWXO)) in
              let mode := Z.land mode (Z.lor (Z.shiftl perm 3) (Z.lnot S_IRWXG)) in
              inl (<[k := set_perm pa perm]> es, Z.lor (Z.land mode_p (Z.lnot S_IRWXUGO)) mode, mq_not_equiv st)
          end
      end
  end.

(** ** Size and count *)

Lemma signed64_small z : - 2 ^ 63 <= z < 2 ^ 63 -> signed64 z = z.
Proof.
  intros Hz. unfold signed64, u64. destruct (decide (0 <= z)).
  - rewrite Z.mod_small by lia. by rewrite (proj2 (Z.ltb_lt _ _)) by lia.
  - replace (z mod 2 ^ 64) with (z + 2 ^ 64) by zdiv. rewrite (proj2 (Z.ltb_ge _ _)) by lia. lia.
Qed.

Lemma acl_size_eq n : 0 <= n < 2 ^ 32 ->
  f2fs_acl_size n = if n <=? 4 then 4 + 4 * n else 20 + 8 * (n - 4).
Proof.
  intros Hn. unfold f2fs_acl_size, acl_header_size, acl_short_size, acl_entry_size.
  destruct (n <=? 4) eqn:E; rewrite u64_small by lia; lia.
Qed.

Lemma acl_count_of_size n : 0 <= n < 2 ^ 32 -> f2fs_acl_count (f2fs_acl_size n) = n.
Proof.
  intros Hn. rewrite acl_size_eq by done. unfold f2fs_acl_count, acl_header_size, acl_short_size, acl_entry_size.
  destruct (n <=? 4) eqn:E.
  - rewrite u64_small by lia. rewrite signed64_small by lia. destruct (4 + 4 * n - 4 - 4 * 4 <? 0) eqn:E2.
    + replace ((4 + 4 * n - 4) mod 4 =? 0) with true by zdiv. cbn. zdiv.
    + replace ((4 + 4 * n - 4 - 4 * 4) mod 8 =? 0) with true by zdiv. cbn. zdiv.
  - rewrite u64_small by lia. rewrite signed64_small by lia. rewrite (proj2 (Z.ltb_ge _ _)) by lia.
    replace ((20 + 8 * (n - 4) - 4 - 4 * 4) mod 8 =? 0) with true by zdiv. cbn. zdiv.
Qed.

(** ** The image of a list of entries *)

Definition named_id (e : posix_acl_entry) : option Z :=
  if e_tag e =? ACL_USER then Some (from_kuid (default 0 (e_id e)))
  else if e_tag e =? ACL_GROUP then Some (from_kgid (default 0 (e_id e))) else None.

Definition entry_bytes (e : posix_acl_entry) : list Z :=
  le_bytes 2 (e_tag e) ++ le_bytes 2 (e_perm e) ++ match named_id e with Some i => le_bytes 4 i | None => [] end.

Definition acl_image (es : list posix_acl_entry) : list Z := concat (entry_bytes <$> es).

(** An entry the kernel can hold: a 16-bit permission, and a mapped id exactly
    for named users and groups. *)
Definition entry_ok (e : posix_acl_entry) : Prop :=
  0 <= e_perm e < 2 ^ 16 /\
  ((is_short_tag (e_tag e) = true /\ e_id e = None) \/
   (e_tag e = ACL_USER /\ exists u, e_id e = Some u /\ 0 <= from_kuid u < 2 ^ 32 /\ make_kuid (from_kuid u) = u) \/
   (e_tag e = ACL_GROUP /\ exists g, e_id e = Some g /\ 0 <= from_kgid g < 2 ^ 32 /\ make_kgid (from_kgid g) = g)).

(** The shape of a POSIX ACL: the owner, group and other entries and, when
    there are named entries, a mask. *)
Definition acl_shape (es : list posix_acl_entry) : Prop :=
  let shorts := length (filter (fun e => is_short_tag (e_tag e) = true) es) in
  (shorts = length es /\ (1 <= length es <= 4)%nat) \/ shorts = 4%nat.

Lemma named_tags_distinct : ACL_USER <> ACL_GROUP /\
  (ACL_USER <> ACL_USER_OBJ /\ ACL_USER <> ACL_GROUP_OBJ /\ ACL_USER <> ACL_MASK /\ ACL_USER <> ACL_OTHER) /\
  (ACL_GROUP <> ACL_USER_OBJ /\ ACL_GROUP <> ACL_GROUP_OBJ /\ ACL_GROUP <> ACL_MASK /\ ACL_GROUP <> ACL_OTHER).
Proof.
  pose proof acl_tags_nodup as Hn. repeat (apply list.NoDup_cons in Hn as [? Hn]).
  rewrite !not_elem_of_cons in *. conjs; intros E; rewrite E in *; tauto.
Qed.

Lemma short_not_named t : is_short_tag t = true -> (t =? ACL_USER) = false /\ (t =? ACL_GROUP) = false.
Proof.
  pose proof named_tags_distinct as (_ & (? & ? & ? & ?) & (? & ? & ? & ?)). unfold is_short_tag. intros Hs.
  rewrite !orb_true_iff, !Z.eqb_eq in Hs. rewrite !Z.eqb_neq. split; intros E; rewrite E in Hs; tauto.
Qed.

Lemma named_not_short t : t = ACL_USER \/ t = ACL_GROUP -> is_short_tag t = false.
Proof.
  intros Ht. destruct (is_short_tag t) eqn:E; [|done]. apply short_not_named in E as [E1 E2].
  rewrite Z.eqb_neq in E1, E2. tauto.
Qed.

Lemma group_not_user : (ACL_GROUP =? ACL_USER) = false.
Proof. apply Z.eqb_neq. intros E. apply (proj1 named_tags_distinct). done. Qed.

(** Storing entries behind a written prefix. *)
Lemma acl_to_disk_loop_spec es : forall pre junk, Forall entry_ok es -> (length (acl_image es) <= length junk)%nat ->
  acl_to_disk_loop es (Z.of_nat (length pre)) (pre ++ junk) =
  Some (pre ++ acl_image es ++ drop (length (acl_image es)) junk).
Proof.
  induction es as [|e es IH]; intros pre junk Hok Hl; [by rewrite drop_0|].
  apply list.Forall_cons in Hok as [He Hok]. unfold acl_image in *. rewrite fmap_cons in *. cbn [concat] in *.
  fold (acl_image es) in *. rewrite length_app in Hl. cbn [acl_to_disk_loop].
  assert (H8 : (4 <= length (entry_bytes e))%nat).
  { unfold entry_bytes. rewrite !length_app, !length_le_bytes. lia. }
  rewrite Nat2Z.id, list_inserts_app_behind by (rewrite length_le_bytes; lia). rewrite length_le_bytes.
  set (t2 := le_bytes 2 (e_tag e)). set (p2 := le_bytes 2 (e_perm e)).
  replace (Z.to_nat (Z.of_nat (length pre) + 2)) with (length (pre ++ t2))
    by (rewrite length_app; unfold t2; rewrite length_le_bytes; lia).
  rewrite (app_assoc pre t2), list_inserts_app_behind by (unfold p2; rewrite length_drop, length_le_bytes; lia).
  assert (Htail : forall (i4 : list Z), entry_bytes e = t2 ++ p2 ++ i4 ->
    list_inserts (length ((pre ++ t2) ++ p2)) i4 (((pre ++ t2) ++ p2) ++ drop 4 junk) =
    (pre ++ entry_bytes e) ++ drop (length (entry_bytes e)) junk).
  { intros i4 E. rewrite list_inserts_app_behind by (rewrite E, !length_app in Hl; rewrite length_drop;
      unfold t2, p2 in Hl; rewrite !length_le_bytes in Hl; lia).
    rewrite E, drop_drop, <-!app_assoc. do 4 f_equal. }
  assert (H4 : Z.to_nat (Z.of_nat (length pre) + 4) = length ((pre ++ t2) ++ p2)).
  { rewrite !length_app. unfold t2, p2. rewrite !length_le_bytes. lia. }
  assert (Hnext : acl_to_disk_loop es (Z.of_nat (length (pre ++ entry_bytes e)))
    ((pre ++ entry_bytes e) ++ drop (length (entry_bytes e)) junk) =
    Some (pre ++ (entry_bytes e ++ acl_image es) ++ drop (length (entry_bytes e ++ acl_image es)) junk)).
  { rewrite IH by (done || rewrite length_drop; lia). by rewrite drop_drop, length_app, <-!app_assoc. }
  assert (Hshort : entry_bytes e = t2 ++ p2 -> ((pre ++ t2) ++ p2) ++ drop 4 junk =
    (pre ++ entry_bytes e) ++ drop (length (entry_bytes e)) junk).
  { intros E. specialize (Htail [] ltac:(by rewrite E, app_nil_r)). exact Htail. }
  assert (Hbuf : (pre ++ t2) ++ p2 ++ drop (length p2) (drop 2 junk) = ((pre ++ t2) ++ p2) ++ drop 4 junk).
  { by rewrite <-(app_assoc (pre ++ t2)), drop_drop. }
  rewrite Hbuf.
  destruct He as (_ & [[Hs _]|[(Et & u & Eu & _)|(Et & u & Eu & _)]]).
  - destruct (short_not_named _ Hs) as [E1 E2]. rewrite E1, E2, Hs.
    assert (Eb : entry_bytes e = t2 ++ p2) by (unfold entry_bytes, named_id; rewrite E1, E2, app_nil_r; reflexivity).
    rewrite (Hshort Eb). rewrite <-Hnext. f_equal. rewrite Eb, !length_app. unfold t2, p2, acl_short_size. rewrite !length_le_bytes. lia.
  - assert (E1 : (e_tag e =? ACL_USER) = true) by (rewrite Et; apply Z.eqb_refl).
    rewrite E1, H4, Htail by (unfold entry_bytes, named_id; by rewrite E1).
    rewrite <-Hnext. f_equal. unfold entry_bytes, named_id. rewrite E1, !length_app, !length_le_bytes.
    unfold acl_entry_size. lia.
  - assert (E1 : (e_tag e =? ACL_USER) = false) by (rewrite Et; apply group_not_user).
    assert (E2 : (e_tag e =? ACL_GROUP) = true) by (rewrite Et; apply Z.eqb_refl).
    rewrite E1, E2, H4, Htail by (unfold entry_bytes, named_id; by rewrite E1, E2).
    rewrite <-Hnext. f_equal. unfold entry_bytes, named_id. rewrite E1, E2, !length_app, !length_le_bytes.
    unfold acl_entry_size. lia.
Qed.

(** Reading entries back, whatever follows them. *)
Lemma acl_tag_u16 t : is_short_tag t = true \/ t = ACL_USER \/ t = ACL_GROUP -> 0 <= t < 2 ^ 16.
Proof.
  pose proof acl_tags_u16 as Ht. rewrite !list.Forall_cons in Ht. unfold is_short_tag.
  rewrite !orb_true_iff, !Z.eqb_eq. intros Hs.
  destruct Ht as (? & ? & ? & ? & ? & ? & _). by destruct Hs as [[[[->| ->]| ->]| ->]|[->| ->]].
Qed.

Lemma entry_ok_tag e : entry_ok e -> 0 <= e_tag e < 2 ^ 16.
Proof. intros (_ & [[Hs _]|[[Ht _]|[Ht _]]]); apply acl_tag_u16; auto. Qed.

Lemma acl_from_disk_loop_spec es : forall pre rest size, Forall entry_ok es ->
  Z.of_nat (length pre + length (acl_image es)) <= size ->
  acl_from_disk_loop (length es) (pre ++ acl_image es ++ rest) (Z.of_nat (length pre)) size =
  Some (es, Z.of_nat (length pre + length (acl_image es))).
Proof.
  induction es as [|e es IH]; intros pre rest size Hok Hs; cbn [acl_from_disk_loop length].
  - by rewrite Nat.add_0_r.
  - apply list.Forall_cons in Hok as [He Hok]. unfold acl_image in *. rewrite fmap_cons in *. cbn [concat] in *.
    fold (acl_image es) in *. rewrite length_app in Hs. rewrite (proj2 (Z.ltb_ge _ _)) by lia.
    specialize (IH (pre ++ entry_bytes e) rest size Hok). rewrite length_app in IH. specialize (IH ltac:(lia)).
    rewrite <-!app_assoc in *. set (t2 := le_bytes 2 (e_tag e)). set (p2 := le_bytes 2 (e_perm e)).
    set (mem := pre ++ entry_bytes e ++ acl_image es ++ rest) in *.
    assert (Em : forall i4, entry_bytes e = t2 ++ p2 ++ i4 ->
      get_le 2 (Z.to_nat (Z.of_nat (length pre))) mem = e_tag e /\
      get_le 2 (Z.to_nat (Z.of_nat (length pre) + 2)) mem = e_perm e /\
      get_le 4 (Z.to_nat (Z.of_nat (length pre) + 4)) mem = le_val (take 4 (i4 ++ acl_image es ++ rest))).
    { intros i4 E. unfold mem. rewrite E, Nat2Z.id, <-!app_assoc. pose proof (entry_ok_tag e He). destruct He as [Hp _].
      conjs.
      - rewrite get_le_app, take_app_length' by (unfold t2; by rewrite length_le_bytes). unfold t2. by rewrite le_val_bytes_small.
      - replace (Z.to_nat _) with (length (pre ++ t2)) by (rewrite length_app; unfold t2; rewrite length_le_bytes; lia).
        rewrite app_assoc, get_le_app, take_app_length' by (unfold p2; by rewrite length_le_bytes).
        unfold p2. by rewrite le_val_bytes_small.
      - replace (Z.to_nat _) with (length ((pre ++ t2) ++ p2))
          by (rewrite !length_app; unfold t2, p2; rewrite !length_le_bytes; lia).
        by rewrite !(app_assoc _ t2), !(app_assoc _ p2), get_le_app. }
    assert (Eid : forall v, 0 <= v < 2 ^ 32 -> le_val (take 4 (le_bytes 4 v ++ acl_image es ++ rest)) = v).
    { intros v Hv. rewrite take_app_length' by (by rewrite length_le_bytes). by rewrite le_val_bytes_small. }
    destruct He as (Hp & [[Hsh En]|[(Et & u & Eu & Hu & Em')|(Et & u & Eu & Hu & Em')]]).
    + destruct (short_not_named _ Hsh) as [E1 E2].
      assert (Eb : entry_bytes e = t2 ++ p2 ++ []) by (unfold entry_bytes, named_id; by rewrite E1, E2).
      destruct (Em [] Eb) as (-> & -> & _). rewrite Hsh.
      replace (Z.of_nat (length pre) + acl_short_size) with (Z.of_nat (length pre + length (entry_bytes e)))
        by (rewrite Eb, !length_app; unfold t2, p2, acl_short_size; rewrite !length_le_bytes; cbn [length]; lia).
      rewrite IH. cbn [mbind option_bind]. rewrite length_app, Nat.add_assoc. do 3 f_equal. destruct e; cbn in *; congruence.
    + assert (E1 : (e_tag e =? ACL_USER) = true) by (rewrite Et; apply Z.eqb_refl).
      assert (Eb : entry_bytes e = t2 ++ p2 ++ le_bytes 4 (from_kuid u)) by (unfold entry_bytes, named_id; by rewrite E1, Eu).
      destruct (Em _ Eb) as (-> & -> & ->). rewrite (named_not_short (e_tag e)), E1, Eid, Em' by (auto || done).
      replace (Z.of_nat (length pre) + acl_entry_size) with (Z.of_nat (length pre + length (entry_bytes e)))
        by (rewrite Eb, !length_app; unfold t2, p2, acl_entry_size; rewrite !length_le_bytes; lia).
      rewrite IH. cbn [mbind option_bind]. rewrite length_app, Nat.add_assoc. do 3 f_equal. destruct e; cbn in *; congruence.
    + assert (E1 : (e_tag e =? ACL_USER) = false) by (rewrite Et; apply group_not_user).
      assert (E2 : (e_tag e =? ACL_GROUP) = true) by (rewrite Et; apply Z.eqb_refl).
      assert (Eb : entry_bytes e = t2 ++ p2 ++ le_bytes 4 (from_kgid u)) by (unfold entry_bytes, named_id; by rewrite E1, E2, Eu).
      destruct (Em _ Eb) as (-> & -> & ->). rewrite (named_not_short (e_tag e)), E1, E2, Eid, Em' by (auto || done).
      replace (Z.of_nat (length pre) + acl_entry_size) with (Z.of_nat (length pre + length (entry_bytes e)))
        by (rewrite Eb, !length_app; unfold t2, p2, acl_entry_size; rewrite !length_le_bytes; lia).
      rewrite IH. cbn [mbind option_bind]. rewrite length_app, Nat.add_assoc. do 3 f_equal. destruct e; cbn in *; congruence.
Qed.

(** The image of an ACL has the size [f2fs_acl_size] computes. *)
Lemma acl_image_length es : Forall entry_ok es ->
  Z.of_nat (length (acl_image es)) =
  8 * Z.of_nat (length es) - 4 * Z.of_nat (length (filter (fun e => is_short_tag (e_tag e) = true) es)).
Proof.
  induction 1 as [|e es He Hok IH]; [done|]. unfold acl_image in *. rewrite fmap_cons. cbn [concat].
  fold (acl_image es) in *. rewrite length_app, filter_cons.
  assert (Hl : Z.of_nat (length (entry_bytes e)) = if decide (is_short_tag (e_tag e) = true) then 4 else 8).
  { unfold entry_bytes, named_id. rewrite !length_app, !length_le_bytes.
    destruct He as (_ & [[Hs _]|[[Et _]|[Et _]]]).
    - destruct (short_not_named _ Hs) as [-> ->]. by rewrite decide_True.
    - rewrite decide_False by (rewrite named_not_short; auto). by rewrite Et, Z.eqb_refl, length_le_bytes.
    - rewrite decide_False by (rewrite named_not_short; auto). by rewrite Et, group_not_user, Z.eqb_refl, length_le_bytes. }
  destruct (decide (is_short_tag (e_tag e) = true)); cbn [length]; lia.
Qed.

Lemma acl_image_size es : Forall entry_ok es -> acl_shape es -> Z.of_nat (length es) < 2 ^ 32 ->
  4 + Z.of_nat (length (acl_image es)) = f2fs_acl_size (Z.of_nat (length es)) /\ (1 <= length es)%nat.
Proof.
  intros Hok Hsh Hn. rewrite acl_size_eq, acl_image_length by (done || lia). unfold acl_shape in Hsh.
  pose proof (length_filter (fun e => is_short_tag (e_tag e) = true) es).
  destruct Hsh as [[-> Hl]|Hs]; [rewrite (proj2 (Z.leb_le _ _)) by lia; lia|]. rewrite Hs in *.
  destruct (Z.of_nat (length es) <=? 4) eqn:E; lia.
Qed.

(** An ACL of the POSIX shape with fewer than 2^32 entries that fits its
    buffer is stored without error, and reading the stored value gives the
    ACL back, whatever the buffer held before and whatever follows it. *)
Theorem acl_disk_roundtrip (es : list posix_acl_entry) (junk after : list Z) :
  Forall entry_ok es -> acl_shape es -> Z.of_nat (length es) < 2 ^ 32 ->
  length junk = (4 + 8 * length es)%nat ->
  exists buf size, f2fs_acl_to_disk (Some junk) es = inl (buf, size) /\ 0 <= size <= Z.of_nat (length buf) /\
    f2fs_acl_from_disk true (take (Z.to_nat size) buf ++ after) size = inl (Some es).
Proof.
  intros Hok Hsh Hn Hj. destruct (acl_image_size es Hok Hsh Hn) as [Hsz H1].
  pose proof (acl_image_length es Hok) as Hl.
  set (v4 := le_bytes 4 F2FS_ACL_VERSION). assert (Hv : length v4 = 4%nat) by (unfold v4; apply length_le_bytes).
  assert (Ebuf : f2fs_acl_to_disk (Some junk) es =
    inl (v4 ++ acl_image es ++ drop (length (acl_image es)) (drop 4 junk), f2fs_acl_size (Z.of_nat (length es)))).
  { unfold f2fs_acl_to_disk. pose proof (list_inserts_app_behind [] v4 junk ltac:(lia)) as E. cbn [length app] in E.
    fold v4. rewrite E, Hv. pose proof (acl_to_disk_loop_spec es v4 (drop 4 junk) Hok) as E2. rewrite Hv in E2.
    change acl_header_size with (Z.of_nat 4). rewrite E2; [done|]. rewrite length_drop. clear -Hl Hj. lia. }
  do 2 eexists. split; [exact Ebuf|]. rewrite <-Hsz. split; [rewrite !length_app, Hv; lia|].
  replace (take (Z.to_nat (4 + Z.of_nat (length (acl_image es)))) _) with (v4 ++ acl_image es).
  2: { rewrite app_assoc, take_app_length' by (rewrite length_app, Hv; lia). done. }
  unfold f2fs_acl_from_disk. rewrite (proj2 (Z.ltb_ge _ _)) by (unfold acl_header_size; lia).
  rewrite <-app_assoc. pose proof (get_le_app 4 [] (v4 ++ acl_image es ++ after)) as Eg. cbn [length app] in Eg.
  rewrite Eg, take_app_length' by done. unfold v4 at 1. rewrite le_val_bytes_small by done.
  rewrite Z.eqb_refl. cbn [negb].
  rewrite Hsz, acl_count_of_size by lia. rewrite (proj2 (Z.ltb_ge (Z.of_nat (length es)) 0)), (proj2 (Z.eqb_neq (Z.of_nat (length es)) 0)) by lia. cbn [negb].
  rewrite Nat2Z.id, <-Hsz. pose proof (acl_from_disk_loop_spec es v4 after (4 + Z.of_nat (length (acl_image es))) Hok) as El.
  rewrite Hv in El. change acl_header_size with (Z.of_nat 4). rewrite El by lia.
  rewrite (proj2 (Z.eqb_eq _ _)) by lia. done.
Qed.

(** ** Reads behind the value *)

Lemma get_le_within n off (v a : list Z) : (off + n <= length v)%nat -> get_le n off (v ++ a) = get_le n off v.
Proof. intros Hl. unfold get_le. rewrite drop_app_le by lia. rewrite take_app_le; [done|]. rewrite length_drop. lia. Qed.

(** A parse that ran past the end: it ends in an error. *)
Definition overrun (size : Z) (r : option (list posix_acl_entry * Z)) : Prop :=
  match r with None => True | Some (_, last) => size < last end.

Lemma overrun_loop n mem entry size : size < entry -> overrun size (acl_from_disk_loop n mem entry size).
Proof. intros Hs. destruct n; cbn; [done|]. by rewrite (proj2 (Z.ltb_lt _ _)). Qed.

Lemma overrun_cons size e r : overrun size r -> overrun size ('(es, last) ← r; Some (e :: es, last)).
Proof. by destruct r as [[es last]|]. Qed.

(** Two parses agree, or both ran past the end. *)
Definition same_parse (size : Z) (r r' : option (list posix_acl_entry * Z)) : Prop :=
  r = r' \/ (overrun size r /\ overrun size r').

Lemma same_parse_cons size e r r' : same_parse size r r' ->
  same_parse size ('(es, last) ← r; Some (e :: es, last)) ('(es, last) ← r'; Some (e :: es, last)).
Proof. intros [->|[H1 H2]]; [by left|right]. split; by apply overrun_cons. Qed.

(** An entry that does not fit before the end overruns. *)
Lemma entry_overruns n v a entry : 0 <= entry -> Z.of_nat (length v) < entry + 4 ->
  overrun (Z.of_nat (length v)) (acl_from_disk_loop (S n) (v ++ a) entry (Z.of_nat (length v))).
Proof.
  intros H0 Hs. cbn [acl_from_disk_loop]. destruct (Z.of_nat (length v) <? entry) eqn:E; [done|].
  assert (Ho : forall k e, 4 <= k -> overrun (Z.of_nat (length v)) ('(es, last) ← acl_from_disk_loop n (v ++ a) (entry + k)
    (Z.of_nat (length v)); Some (e :: es, last))) by (intros k e Hk; apply overrun_cons, overrun_loop; lia).
  destruct (is_short_tag _); [by apply Ho|]. destruct (_ =? ACL_USER); [by apply Ho|].
  destruct (_ =? ACL_GROUP); [by apply Ho|done].
Qed.

Lemma acl_from_disk_loop_local n v a a' : forall entry, 0 <= entry ->
  same_parse (Z.of_nat (length v)) (acl_from_disk_loop n (v ++ a) entry (Z.of_nat (length v)))
    (acl_from_disk_loop n (v ++ a') entry (Z.of_nat (length v))).
Proof.
  induction n as [|n IH]; intros entry H0; [by left|].
  destruct (decide (Z.of_nat (length v) < entry + 4)) as [Ho|Hin]; [right; split; by apply entry_overruns|].
  cbn [acl_from_disk_loop]. rewrite (proj2 (Z.ltb_ge _ _)) by lia.
  rewrite !(get_le_within 2 (Z.to_nat entry)), !(get_le_within 2 (Z.to_nat (entry + 2))) by lia.
  destruct (is_short_tag _); [apply same_parse_cons, IH; unfold acl_short_size; lia|].
  assert (Hn : forall k : Z -> posix_acl_entry, same_parse (Z.of_nat (length v))
    ('(es, last) ← acl_from_disk_loop n (v ++ a) (entry + acl_entry_size) (Z.of_nat (length v));
     Some (k (get_le 4 (Z.to_nat (entry + 4)) (v ++ a)) :: es, last))
    ('(es, last) ← acl_from_disk_loop n (v ++ a') (entry + acl_entry_size) (Z.of_nat (length v));
     Some (k (get_le 4 (Z.to_nat (entry + 4)) (v ++ a')) :: es, last))).
  { intros k. unfold acl_entry_size. destruct (decide (Z.of_nat (length v) < entry + 8)).
    - right. split; apply overrun_cons, overrun_loop; lia.
    - rewrite !(get_le_within 4) by lia. apply same_parse_cons, IH. lia. }
  destruct (_ =? ACL_USER).
  - apply (Hn (fun id => {| e_tag := _; e_perm := _; e_id := Some (make_kuid id) |})).
  - destruct (_ =? ACL_GROUP); [|by left].
    apply (Hn (fun id => {| e_tag := _; e_perm := _; e_id := Some (make_kgid id) |})).
Qed.

(** The result of [f2fs_acl_from_disk] is a function of the [size] bytes of
    the value: the bytes behind it, which the loop does read when a value is
    malformed (its check lets the entry pointer reach the end), never change
    the result. *)
Theorem acl_from_disk_local (alloc : bool) (v after after' : list Z) :
  f2fs_acl_from_disk alloc (v ++ after) (Z.of_nat (length v)) =
  f2fs_acl_from_disk alloc (v ++ after') (Z.of_nat (length v)).
Proof.
  unfold f2fs_acl_from_disk. destruct (Z.of_nat (length v) <? acl_header_size) eqn:E; [done|].
  unfold acl_header_size in E. rewrite !(get_le_within 4 0) by lia.
  destruct (negb _); [done|]. destruct (_ <? 0); [done|]. destruct (_ =? 0); [done|]. destruct (negb alloc); [done|].
  destruct (acl_from_disk_loop_local (Z.to_nat (f2fs_acl_count (Z.of_nat (length v)))) v after after' acl_header_size
    ltac:(done)) as [->|[H1 H2]]; [done|].
  assert (Hbad : forall r, overrun (Z.of_nat (length v)) r -> match r with
    | Some (es, last) => if negb (last =? Z.of_nat (length v)) then inr EINVAL else inl (Some es)
    | None => inr EINVAL end = (inr EINVAL : option (list posix_acl_entry) + acl_error)).
  { intros [[es last]|] Hr; [|done]. cbn in Hr. by rewrite (proj2 (Z.eqb_neq _ _)) by lia. }
  by rewrite !Hbad.
Qed.

(** ** Masking never grants a permission *)

(** Every bit of [a] is a bit of [b]. *)
Definition subset_bits (a b : Z) : Prop := Z.land a b = a.

Lemma subset_land a b : subset_bits (Z.land a b) a.
Proof. unfold subset_bits. by rewrite <-Z.land_assoc, (Z.land_comm b), Z.land_assoc, Z.land_diag. Qed.
Lemma subset_refl a : subset_bits a a.
Proof. apply Z.land_diag. Qed.
Lemma subset_trans a b c : subset_bits a b -> subset_bits b c -> subset_bits a c.
Proof. unfold subset_bits. intros H1 H2. rewrite <-H1 at 1. by rewrite <-Z.land_assoc, H2, H1. Qed.

Definition weaker (e' e : posix_acl_entry) : Prop :=
  e_tag e' = e_tag e /\ e_id e' = e_id e /\ subset_bits (e_perm e') (e_perm e).

Lemma weaker_refl e : weaker e e.
Proof. split; [done|]. split; [done|apply subset_refl]. Qed.
Lemma weaker_set e p : subset_bits p (e_perm e) -> weaker (set_perm e p) e.
Proof. done. Qed.

Lemma masq_step_weaker st k pa st' pa' : masq_step st k pa = Some (st', pa') ->
  weaker pa' pa /\ subset_bits (mq_mode st') (mq_mode st).
Proof.
  unfold masq_step. intros E.
  repeat match type of E with context [if ?b then _ else _] => destruct b end; simplify_eq/=;
    (split; [first [apply weaker_refl|apply weaker_set, subset_land]|first [apply subset_refl|apply subset_land]]).
Qed.

Lemma masq_loop_weaker es : forall k st st' es', masq_loop es k st = Some (st', es') ->
  Forall2 weaker es' es /\ subset_bits (mq_mode st') (mq_mode st).
Proof.
  induction es as [|pa es IH]; intros k st st' es' E; cbn [masq_loop] in E.
  - injection E as <- <-. split; [constructor|apply subset_refl].
  - destruct (masq_step st k pa) as [[st1 pa1]|] eqn:E1; [|done]. cbn [mbind option_bind] in E.
    destruct (masq_loop es (S k) st1) as [[st2 es2]|] eqn:E2; [|done]. cbn [mbind option_bind] in E. injection E as <- <-.
    destruct (masq_step_weaker _ _ _ _ _ E1) as [Hw1 Hm1]. destruct (IH _ _ _ _ E2) as [Hw2 Hm2].
    split; [by constructor|]. by eapply subset_trans.
Qed.

(** Masking a default ACL by the create mode never grants anything: on
    success the entries keep their order, tags and ids, each permission set
    is a subset of the old one, and the new mode is a subset of the old mode
    with the same file type and special bits. *)
Theorem masq_never_grants (es es' : list posix_acl_entry) (mode mode' : Z) (not_equiv : bool) :
  f2fs_acl_create_masq es mode = inl (es', mode', not_equiv) ->
  Forall2 weaker es' es /\ subset_bits mode' mode /\
  Z.land mode' (Z.lnot S_IRWXUGO) = Z.land mode (Z.lnot S_IRWXUGO).
Proof.
  unfold f2fs_acl_create_masq. destruct (masq_loop _ _ _) as [[st es1]|] eqn:El; [|done].
  destruct (masq_loop_weaker _ _ _ _ _ El) as [Hw Hm]. cbn [mq_mode] in Hm.
  destruct (match mq_mask st with Some k => Some k | None => mq_group st end) as [k|]; [|done].
  destruct (es1 !! k) as [pa|] eqn:Ek; [|done]. intros E. injection E as <- <- _.
  set (perm := Z.land (e_perm pa) _). set (m := Z.land (mq_mode st) _).
  assert (Hsub : subset_bits m mode) by (eapply subset_trans; [apply subset_land|done]).
  conjs.
  - destruct (Forall2_lookup_l _ _ _ _ _ Hw Ek) as (pa0 & Ek0 & Ht & Hi & Hp).
    rewrite <-(list_insert_id es k pa0 Ek0). apply Forall2_insert; [done|]. split; [done|]. split; [done|].
    cbn. eapply subset_trans; [apply subset_land|done].
  - unfold subset_bits in *. rewrite Z.land_lor_distr_l, Hsub. f_equal.
    by rewrite <-Z.land_assoc, (Z.land_comm _ mode), Z.land_assoc, Z.land_diag.
  - rewrite Z.land_lor_distr_l, <-Z.land_assoc, Z.land_diag. apply Z.bits_inj'. intros n Hn.
    rewrite Z.lor_spec, !Z.land_spec. unfold subset_bits in Hsub. apply (f_equal (fun z => Z.testbit z n)) in Hsub.
    rewrite Z.land_spec in Hsub. destruct (Z.testbit m n), (Z.testbit mode n), (Z.testbit (Z.lnot S_IRWXUGO) n); done.
Qed.
End acl.
