(* ===== verification/ExtentTree.v ===== *)
(** * Extent trees: data, searches and node operations (extent_cache.c, f2fs.h)

    An extent tree caches pieces of one inode's block map as nodes of a
    red-black tree, ordered by file offset.  This file models the searches on
    the tree, the attachment and removal of nodes, and merging. *)

From S2P Require Import Prelude.

Definition F2FS_MIN_EXTENT_LEN : Z := 64.

Record extent_info := { fofs : Z; len : Z; blk : Z; c_len : Z }.

(** A node, with its address. *)
Record extent_node := { en_id : Z; ei : extent_info }.

Definition set_ei (n : extent_node) (e : extent_info) : extent_node := {| en_id := en_id n; ei := e |}.

(** The shape of a red-black tree without its colours. *)
Inductive rb_root := RB_NULL | RB_NODE (rb_left : rb_root) (re : extent_node) (rb_right : rb_root).

(** The nodes in order. *)
Fixpoint rb_nodes (t : rb_root) : list extent_node :=
  match t with RB_NULL => [] | RB_NODE l re r => rb_nodes l ++ re :: rb_nodes r end.

(** The kernel's red-black tree library: linking a node at a leaf position
    (given by the number of nodes before it) and removing a node rebalance
    the tree without changing the order of the other nodes. *)
Class RbTree := {
  rb_insert_color : rb_root -> nat -> extent_node -> rb_root;
  rb_erase : rb_root -> Z -> rb_root;
  rb_insert_nodes : forall t k n, (k <= length (rb_nodes t))%nat ->
    rb_nodes (rb_insert_color t k n) = take k (rb_nodes t) ++ n :: drop k (rb_nodes t);
  rb_erase_nodes : forall t id, rb_nodes (rb_erase t id) = filter (fun n => en_id n <> id) (rb_nodes t)
}.

(** Neighbours in order. *)
Fixpoint next_of (id : Z) (l : list extent_node) : option extent_node :=
  match l with
  | [] => None
  | n :: l => if en_id n =? id then head l else next_of id l
  end.
Fixpoint prev_of (id : Z) (p : option extent_node) (l : list extent_node) : option extent_node :=
  match l with
  | [] => None
  | n :: l => if en_id n =? id then p else prev_of id (Some n) l
  end.
Definition rb_next (t : rb_root) (id : Z) : option extent_node := next_of id (rb_nodes t).
Definition rb_prev (t : rb_root) (id : Z) : option extent_node := prev_of id None (rb_nodes t).

(** The node at an address, and a store through a node pointer. *)
Definition node_at (t : rb_root) (id : Z) : option extent_node := list_find (fun n => en_id n = id) (rb_nodes t) ≫= fun p => Some p.2.
Fixpoint store_ei (t : rb_root) (id : Z) (e : extent_info) : rb_root :=
  match t with
  | RB_NULL => RB_NULL
  | RB_NODE l re r => RB_NODE (store_ei l id e) (if en_id re =? id then set_ei re e else re) (store_ei r id e)
  end.

(** ** Extent predicates (f2fs.h) *)

Definition extent_end (e : extent_info) : Z := fofs e +! len e.

Definition set_extent_info (f b l : Z) : extent_info := {| fofs := u32 f; len := u32 l; blk := u32 b; c_len := 0 |}.

Definition __is_extent_mergeable (back front : extent_info) : bool :=
  if negb (c_len back =? 0) && negb (len back =? c_len back) then false
  else if negb (c_len front =? 0) && negb (len front =? c_len front) then false
  else (fofs back +! len back =? fofs front) && (blk back +! len back =? blk front).
Definition __is_back_mergeable (cur back : extent_info) : bool := __is_extent_mergeable back cur.
Definition __is_front_mergeable (cur front : extent_info) : bool := __is_extent_mergeable cur front.

(** ** Searches *)

Definition __lookup_rb_tree_fast (cached_re : option extent_node) (ofs : Z) : option extent_node :=
  match cached_re with
  | Some re => if (fofs (ei re) <=? ofs) && (ofs <? extent_end (ei re)) then Some re else None
  | None => None
  end.

Fixpoint __lookup_rb_tree_slow (node : rb_root) (ofs : Z) : option extent_node :=
  match node with
  | RB_NULL => None
  | RB_NODE l re r =>
      if ofs <? fofs (ei re) then __lookup_rb_tree_slow l ofs
      else if extent_end (ei re) <=? ofs then __lookup_rb_tree_slow r ofs
      else Some re
  end.

Definition f2fs_lookup_rb_tree (root : rb_root) (cached_re : option extent_node) (ofs : Z) : option extent_node :=
  match __lookup_rb_tree_fast cached_re ofs with
  | Some re => Some re
  | None => __lookup_rb_tree_slow root ofs
  end.

(** [f2fs_lookup_rb_tree_for_insert]: the leaf position, as the number of
    nodes before it, and [leftmost]; [None] is the trap on an offset inside
    a node. *)
Fixpoint f2fs_lookup_rb_tree_for_insert (p : rb_root) (ofs : Z) (k : nat) (leftmost : bool) : option (nat * bool) :=
  match p with
  | RB_NULL => Some (k, leftmost)
  | RB_NODE l re r =>
      if ofs <? fofs (ei re) then f2fs_lookup_rb_tree_for_insert l ofs k leftmost
      else if extent_end (ei re) <=? ofs
      then f2fs_lookup_rb_tree_for_insert r ofs (k + S (length (rb_nodes l))) false
      else None
  end.

(** The descent of [f2fs_lookup_rb_tree_ret]: the node hit, or the leaf
    position with its parent. *)
Fixpoint search_ret (pnode : rb_root) (ofs : Z) (parent : option extent_node) (k : nat) (leftmost : bool)
    : extent_node + (nat * option extent_node * bool) :=
  match pnode with
  | RB_NULL => inr (k, parent, leftmost)
  | RB_NODE l re r =>
      if ofs <? fofs (ei re) then search_ret l ofs (Some re) k leftmost
      else if extent_end (ei re) <=? ofs then search_ret r ofs (Some re) (k + S (length (rb_nodes l))) false
      else inl re
  end.

Record lookup_ret := {
  lr_re : option extent_node; lr_prev : option extent_node; lr_next : option extent_node;
  lr_insert : option nat; lr_leftmost : bool
}.

(** [f2fs_lookup_rb_tree_ret], with [*leftmost] false on entry. *)
Definition f2fs_lookup_rb_tree_ret (root : rb_root) (cached_re : option extent_node) (ofs : Z) (force : bool) : lookup_ret :=
  let neighbors re leftmost := {|
    lr_re := Some re;
    lr_prev := if (ofs =? fofs (ei re)) || force then rb_prev root (en_id re) else None;
    lr_next := if (ofs =? (fofs (ei re) +! len (ei re)) -! 1) || force then rb_next root (en_id re) else None;
    lr_insert := None; lr_leftmost := leftmost |} in
  match root with
  | RB_NULL => {| lr_re := None; lr_prev := None; lr_next := None; lr_insert := None; lr_leftmost := false |}
  | _ =>
      match __lookup_rb_tree_fast cached_re ofs with
      | Some re => neighbors re false
      | None =>
          match search_ret root ofs None 0 true with
          | inl re => neighbors re true
          | inr (k, parent, leftmost) =>
              match parent with
              | None => {| lr_re := None; lr_prev := None; lr_next := None; lr_insert := Some k; lr_leftmost := leftmost |}
              | Some re => {|
                  lr_re := None;
                  lr_prev := if ofs <? fofs (ei re) then rb_prev root (en_id re) else Some re;
                  lr_next := if fofs (ei re) <? ofs then rb_next root (en_id re) else Some re;
                  lr_insert := Some k; lr_leftmost := leftmost |}
              end
          end
      end
  end.

(** [f2fs_check_rb_tree_consistence], on offsets. *)
Fixpoint check_consistence (l : list extent_node) : bool :=
  match l with
  | cur :: ((next :: _) as l') => if fofs (ei next) <? extent_end (ei cur) then false else check_consistence l'
  | _ => true
  end.
Definition f2fs_check_rb_tree_consistence (root : rb_root) : bool := check_consistence (rb_nodes root).

(** ** The tree of an inode and the global node list

    [extent_list] is [sbi->extent_list], the nodes of this tree and of others
    in use order; a node whose [list] is empty is one that is not on it. *)

Record extent_tree := {
  root : rb_root; cached_en : option Z; largest : extent_info; largest_updated : bool; node_cnt : Z
}.

Record ext_sbi := { extent_list : list Z; total_ext_node : Z; ext_allocs : nat }.

Definition set_root (et : extent_tree) (t : rb_root) : extent_tree :=
  {| root := t; cached_en := cached_en et; largest := largest et; largest_updated := largest_updated et; node_cnt := node_cnt et |}.
Definition set_cached (et : extent_tree) (c : option Z) : extent_tree :=
  {| root := root et; cached_en := c; largest := largest et; largest_updated := largest_updated et; node_cnt := node_cnt et |}.
Definition set_largest (et : extent_tree) (e : extent_info) (u : bool) : extent_tree :=
  {| root := root et; cached_en := cached_en et; largest := e; largest_updated := u; node_cnt := node_cnt et |}.
Definition set_cnt (et : extent_tree) (c : Z) : extent_tree :=
  {| root := root et; cached_en := cached_en et; largest := largest et; largest_updated := largest_updated et; node_cnt := c |}.
Definition with_len (e : extent_info) (l : Z) : extent_info := {| fofs := fofs e; len := l; blk := blk e; c_len := c_len e |}.

(** The node the cached pointer refers to. *)
Definition cached_node (et : extent_tree) : option extent_node := id ← cached_en et; node_at (root et) id.

Definition __try_update_largest_extent (et : extent_tree) (e : extent_info) : extent_tree :=
  if len (largest et) <? len e then set_largest et e true else et.

Section ops.
Context `{RbTree}.
(** Whether the [n]th allocation of a node succeeds; the address of the [n]th
    node is [n]. *)
Context (kmem : nat -> bool).

Definition __attach_extent_node (s : ext_sbi) (et : extent_tree) (e : extent_info) (p : nat)
    : ext_sbi * extent_tree * option extent_node :=
  let n := ext_allocs s in
  let s := {| extent_list := extent_list s; total_ext_node := total_ext_node s; ext_allocs := S n |} in
  if kmem n then
    let en := {| en_id := Z.of_nat n; ei := e |} in
    let et := set_cnt (set_root et (rb_insert_color (root et) p en)) (node_cnt et + 1) in
    ({| extent_list := extent_list s; total_ext_node := total_ext_node s + 1; ext_allocs := ext_allocs s |}, et, Some en)
  else (s, et, None).

Definition __detach_extent_node (s : ext_sbi) (et : extent_tree) (id : Z) : ext_sbi * extent_tree :=
  let et := set_cnt (set_root et (rb_erase (root et) id)) (node_cnt et - 1) in
  let et := if decide (cached_en et = Some id) then set_cached et None else et in
  ({| extent_list := extent_list s; total_ext_node := total_ext_node s - 1; ext_allocs := ext_allocs s |}, et).

(** [__release_extent_node]; no result when the node is not on the list (the
    trap, and a deletion from no list). *)
Definition __release_extent_node (s : ext_sbi) (et : extent_tree) (id : Z) : option (ext_sbi * extent_tree) :=
  l ← list_del id (extent_list s);
  Some (__detach_extent_node {| extent_list := l; total_ext_node := total_ext_node s; ext_allocs := ext_allocs s |} et id).

(** The common tail of the lookups and the merge: [list_move_tail] and the
    cached pointer, when the node is on the list. *)
Definition touch_node (s : ext_sbi) (et : extent_tree) (id : Z) : ext_sbi * extent_tree :=
  if decide (id ∈ extent_list s)
  then ({| extent_list := filter (fun i => i <> id) (extent_list s) ++ [id];
           total_ext_node := total_ext_node s; ext_allocs := ext_allocs s |}, set_cached et (Some id))
  else (s, et).

(** [__init_extent_tree]. *)
Definition __init_extent_tree (s : ext_sbi) (et : extent_tree) (e : extent_info)
    : ext_sbi * extent_tree * option extent_node :=
  let '(s, et, en) := __attach_extent_node s et e 0 in
  match en with
  | None => (s, et, None)
  | Some en => (s, set_cached (set_largest et (ei en) (largest_updated et)) (Some (en_id en)), Some en)
  end.

(** [__free_extent_tree]: every node in order; the result counts them. *)
Fixpoint free_nodes (ns : list extent_node) (s : ext_sbi) (et : extent_tree) : option (ext_sbi * extent_tree) :=
  match ns with
  | [] => Some (s, et)
  | n :: ns => '(s, et) ← __release_extent_node s et (en_id n); free_nodes ns s et
  end.
Definition __free_extent_tree (s : ext_sbi) (et : extent_tree) : option (ext_sbi * extent_tree * Z) :=
  let count := node_cnt et in
  '(s, et) ← free_nodes (rb_nodes (root et)) s et;
  Some (s, et, u32 (count - node_cnt et)).

Definition __drop_largest_extent (et : extent_tree) (f l : Z) : extent_tree :=
  if (f <? fofs (largest et) +! len (largest et)) && (fofs (largest et) <? f + l)
  then set_largest et (with_len (largest et) 0) true else et.

(** [f2fs_lookup_extent_tree]. *)
Definition f2fs_lookup_extent_tree (s : ext_sbi) (et : extent_tree) (pgofs : Z)
    : ext_sbi * extent_tree * option extent_info :=
  if (fofs (largest et) <=? pgofs) && (pgofs <? fofs (largest et) +! len (largest et))
  then (s, et, Some (largest et))
  else match f2fs_lookup_rb_tree (root et) (cached_node et) pgofs with
       | None => (s, et, None)
       | Some en => let '(s, et) := touch_node s et (en_id en) in (s, et, Some (ei en))
       end.

(** [__try_merge_extent_node]; the flag tells whether it merged. *)
Definition __try_merge_extent_node (s : ext_sbi) (et : extent_tree) (e : extent_info) (prev_ex next_ex : option extent_node)
    : option (ext_sbi * extent_tree * bool) :=
  let '(et, e, en) :=
    match prev_ex with
    | Some p => if __is_back_mergeable e (ei p)
                then let e' := with_len (ei p) (len (ei p) +! len e) in
                     (set_root et (store_ei (root et) (en_id p) e'), e', Some (en_id p, e'))
                else (et, e, None)
    | None => (et, e, None)
    end in
  '(s, et, en) ←
    match next_ex with
    | Some n => if __is_front_mergeable e (ei n)
                then let e' := {| fofs := fofs e; len := len (ei n) +! len e; blk := blk e; c_len := c_len (ei n) |} in
                     let et := set_root et (store_ei (root et) (en_id n) e') in
                     '(s, et) ← match en with
                                | Some (p, _) => __release_extent_node s et p
                                | None => Some (s, et)
                                end;
                     Some (s, et, Some (en_id n, e'))
                else Some (s, et, en)
    | None => Some (s, et, en)
    end;
  match en with
  | None => Some (s, et, false)
  | Some (id, e) => let et := __try_update_largest_extent et e in
                    let '(s, et) := touch_node s et id in Some (s, et, true)
  end.

(** [__insert_extent_tree]: [p] is the leaf position found by an earlier
    search, when it is still valid and its parent is not null. *)
Definition __insert_extent_tree (s : ext_sbi) (et : extent_tree) (e : extent_info) (p : option nat)
    : option (ext_sbi * extent_tree * option extent_node) :=
  k ← (match p with
       | Some k => Some k
       | None => '(k, _) ← f2fs_lookup_rb_tree_for_insert (root et) (fofs e) 0 true; Some k
       end);
  let '(s, et, en) := __attach_extent_node s et e k in
  match en with
  | None => Some (s, et, None)
  | Some en =>
      let et := __try_update_largest_extent et (ei en) in
      l ← list_add_tail (en_id en) (extent_list s);
      Some ({| extent_list := l; total_ext_node := total_ext_node s; ext_allocs := ext_allocs s |},
            set_cached et (Some (en_id en)), Some en)
  end.
End ops.
