(* ===== verification/ExtentCache.v ===== *)
(** * The extent cache update (extent_cache.c)

    [f2fs_update_extent_tree_range] makes the cache of an inode follow a
    change of its block map.  The cache refines the block map: every cached
    extent, and the largest extent kept in the inode, agrees with it. *)

From S2P Require Import Prelude ExtentTree.

Section update.
Context `{RbTree} (kmem : nat -> bool).

(** The variables of the invalidation loop. *)
Record inval := {
  iv_s : ext_sbi; iv_et : extent_tree; iv_prev : option extent_node; iv_next : option extent_node;
  iv_insert : option nat; iv_dei : option extent_info
}.

(** One iteration for the node [en]: the new variables, and the node to
    continue with; no result on a trap. *)
Definition invalidate_node (pos end_ : Z) (v : inval) (en : extent_node) : option inval :=
  let dei := ei en in
  let org_end := fofs dei +! len dei in
  if org_end <=? pos then None
  else
    let left := (fofs dei <? pos) && (F2FS_MIN_EXTENT_LEN <=? pos -! fofs dei) in
    let en := if left then set_ei en (with_len dei (pos -! fofs dei)) else en in
    let et := if left then set_root (iv_et v) (store_ei (root (iv_et v)) (en_id en) (ei en)) else iv_et v in
    let prev := if left then Some en else iv_prev v in
    let right := (end_ <? org_end) && (F2FS_MIN_EXTENT_LEN <=? org_end -! end_) in
    '(s, et, en, next) ←
      (if right then
         if left then
           '(s, et, en1) ← __insert_extent_tree kmem (iv_s v) et
                             (set_extent_info end_ (end_ - fofs dei + blk dei) (org_end - end_)) None;
           Some (s, et, en, en1)
         else
           let en := set_ei en {| fofs := end_; len := len dei -! (end_ -! fofs dei);
                                  blk := blk dei +! (end_ -! fofs dei); c_len := c_len dei |} in
           Some (iv_s v, set_root et (store_ei (root et) (en_id en) (ei en)), en, Some en)
       else Some (iv_s v, et, en, None));
    let next := match next with Some n => Some n | None => rb_next (root et) (en_id en) end in
    let parts := ((if left then 1 else 0) + (if right then 1 else 0))%nat in
    '(s, et) ← (if decide (parts = 0%nat) then __release_extent_node s et (en_id en)
                else Some (s, __try_update_largest_extent et (ei en)));
    Some {| iv_s := s; iv_et := et; iv_prev := prev; iv_next := next;
            iv_insert := if decide (parts = 1%nat) then iv_insert v else None; iv_dei := Some dei |}.

(** The loop: the fuel is the number of nodes in the range, plus one. *)
Fixpoint invalidate_loop (fuel : nat) (pos end_ : Z) (en : option extent_node) (v : inval) : option inval :=
  match fuel with
  | O => None
  | S fuel =>
      match en with
      | None => Some v
      | Some en => if fofs (ei en) <? end_
                   then v ← invalidate_node pos end_ v en; invalidate_loop fuel pos end_ (iv_next v) v
                   else Some v
      end
  end.

(** [f2fs_update_extent_tree_range] for an inode with a tree: [no_extent] is
    the inode's [FI_NO_EXTENT] flag; the results are the new flag and whether
    the inode is marked dirty. *)
Definition f2fs_update_extent_tree_range (s : ext_sbi) (et : extent_tree) (no_extent : bool) (f blkaddr l : Z)
    : option (ext_sbi * extent_tree * bool * bool) :=
  if no_extent then Some (s, et, no_extent, false)
  else
    let end_ := u32 (f + l) in
    let pos := u32 f in
    let prev := largest et in
    let et := __drop_largest_extent et f l in
    let r := f2fs_lookup_rb_tree_ret (root et) (cached_node et) pos false in
    let en := match lr_re r with Some en => Some en | None => lr_next r end in
    v ← invalidate_loop (S (S (length (rb_nodes (root et))))) pos end_ en
          {| iv_s := s; iv_et := et; iv_prev := lr_prev r; iv_next := lr_next r;
             iv_insert := lr_insert r; iv_dei := None |};
    '(s, et, no_extent) ←
      (if blkaddr =? 0 then Some (iv_s v, iv_et v, no_extent)
       else
         let e := set_extent_info f blkaddr l in
         '(s, et, merged) ← __try_merge_extent_node (iv_s v) (iv_et v) e (iv_prev v) (iv_next v);
         '(s, et) ← (if (merged : bool) then Some (s, et)
                     else '(s, et, _) ← __insert_extent_tree kmem s et e (iv_insert v); Some (s, et));
         let keep_none := match iv_dei v with
                        | Some dei => (1 <=? len dei) && (len prev <? F2FS_MIN_EXTENT_LEN) &&
                                      (len (largest et) <? F2FS_MIN_EXTENT_LEN)
                        | None => false
                        end in
         if keep_none then Some (s, set_largest et (with_len (largest et) 0) true, true)
         else Some (s, et, no_extent));
    '(s, et) ← (if (no_extent : bool) then '(s, et, _) ← __free_extent_tree s et; Some (s, et) else Some (s, et));
    Some (s, set_largest et (largest et) false, no_extent, largest_updated et).
End update.

(** ** The abstraction: a partial block map *)

(** The block map of the inode, by file offset. *)
Definition bmap := Z -> option Z.

(** An extent agrees with the map. *)
Definition ext_ok (M : bmap) (e : extent_info) : Prop :=
  forall i, 0 <= i < len e -> M (fofs e + i) = Some (blk e + i).

(** An extent stays inside 32-bit offsets and addresses. *)
Definition ext_range (e : extent_info) : Prop :=
  0 <= fofs e /\ 0 <= len e /\ fofs e + len e < 2 ^ 32 /\ 0 <= blk e /\ blk e + len e < 2 ^ 32.

(** Nodes in order: non-empty, inside [lo, ...), disjoint. *)
Fixpoint ordered (lo : Z) (l : list extent_node) : Prop :=
  match l with
  | [] => True
  | n :: l => lo <= fofs (ei n) /\ 0 < len (ei n) /\ ordered (fofs (ei n) + len (ei n)) l
  end.

Definition nodes_ok (M : bmap) (l : list extent_node) : Prop :=
  Forall (fun n => ext_range (ei n) /\ ext_ok M (ei n)) l.

(** The map after blocks [f .. f+l-1] moved to [b ..], or were dropped. *)
Definition remap (M : bmap) (f b l : Z) : bmap :=
  fun x => if (f <=? x) && (x <? f + l) then (if b =? 0 then None else Some (b + (x - f))) else M x.

(** ** Ordered lists of nodes *)

(** The end of the last node of a prefix. *)
Definition last_end (lo : Z) (l : list extent_node) : Z := foldl (fun _ n => fofs (ei n) + len (ei n)) lo l.

Lemma last_end_cons lo n l : last_end lo (n :: l) = last_end (fofs (ei n) + len (ei n)) l.
Proof. done. Qed.

Lemma ordered_app lo l1 l2 : ordered lo (l1 ++ l2) <->
  ordered lo l1 /\ ordered (last_end lo l1) l2.
Proof.
  revert lo. induction l1 as [|n l1 IH]; intros lo; [cbn; tauto|]. cbn [ordered app]. rewrite IH, last_end_cons. tauto.
Qed.

Lemma ordered_weaken lo lo' l : ordered lo l -> lo' <= lo -> ordered lo' l.
Proof. destruct l; cbn; [done|]. intros (? & ? & ?) ?. conjs; [lia|done|done]. Qed.

Lemma ordered_lb lo l n : ordered lo l -> n ∈ l -> lo <= fofs (ei n) /\ 0 < len (ei n).
Proof.
  revert lo. induction l as [|m l IH]; intros lo Ho Hn; [by apply elem_of_nil in Hn|].
  destruct Ho as (H1 & H2 & H3). apply elem_of_cons in Hn as [->|Hn]; [done|].
  destruct (IH _ H3 Hn). lia.
Qed.

Lemma last_end_app lo l n : last_end lo (l ++ [n]) = fofs (ei n) + len (ei n).
Proof. unfold last_end. by rewrite foldl_snoc. Qed.

Lemma last_end_ge lo l : ordered lo l -> lo <= last_end lo l.
Proof.
  revert lo. induction l as [|k l IH]; intros lo Ho; [done|]. destruct Ho as (H1 & H2 & H3).
  rewrite last_end_cons. specialize (IH _ H3). lia.
Qed.

Lemma ordered_ub lo l n : ordered lo l -> n ∈ l -> fofs (ei n) + len (ei n) <= last_end lo l.
Proof.
  revert lo. induction l as [|m l IH]; intros lo Ho Hn; [by apply elem_of_nil in Hn|].
  destruct Ho as (H1 & H2 & H3). change (last_end lo (m :: l)) with (last_end (fofs (ei m) + len (ei m)) l).
  apply elem_of_cons in Hn as [->|Hn]; [|by apply IH].
  by apply last_end_ge.
Qed.

(** In an ordered sequence around a node, the others are on either side. *)
Lemma ordered_around lo A n C : ordered lo (A ++ n :: C) ->
  ordered lo A /\ 0 < len (ei n) /\ ordered (fofs (ei n) + len (ei n)) C /\
  (forall m, m ∈ A -> fofs (ei m) + len (ei m) <= fofs (ei n)) /\
  (forall m, m ∈ C -> fofs (ei n) + len (ei n) <= fofs (ei m)).
Proof.
  rewrite ordered_app. intros (HA & Hl & Hn & HC). conjs; try done.
  - intros m Hm. pose proof (ordered_ub _ _ _ HA Hm). lia.
  - intros m Hm. by apply (ordered_lb _ _ _ HC).
Qed.

(** ** Tree operations in terms of the node sequence *)

Lemma store_nodes t id e : rb_nodes (store_ei t id e) = (fun n => if en_id n =? id then set_ei n e else n) <$> rb_nodes t.
Proof. induction t as [|l IHl re r IHr]; [done|]. cbn. by rewrite IHl, IHr, fmap_app. Qed.

Lemma ids_split A n (C : list extent_node) : NoDup (en_id <$> A ++ n :: C) ->
  Forall (fun m => en_id m <> en_id n) A /\ Forall (fun m => en_id m <> en_id n) C.
Proof.
  rewrite fmap_app, fmap_cons. intros (_ & H1 & H2)%list.NoDup_app. apply list.NoDup_cons in H2 as [H2 _].
  split; apply list.Forall_forall; intros m Hm E.
  - apply (H1 (en_id m)); [by apply list_elem_of_fmap_2|]. rewrite E. apply elem_of_cons. by left.
  - apply H2. rewrite <-E. by apply list_elem_of_fmap_2.
Qed.

Lemma map_other id (f : extent_node -> extent_node) l : Forall (fun m => en_id m <> id) l ->
  (fun n => if en_id n =? id then f n else n) <$> l = l.
Proof. induction 1 as [|m l Hm _ IH]; [done|]. rewrite fmap_cons, IH. by rewrite (proj2 (Z.eqb_neq _ _)). Qed.

Lemma store_split t A n C e : rb_nodes t = A ++ n :: C -> NoDup (en_id <$> rb_nodes t) ->
  rb_nodes (store_ei t (en_id n) e) = A ++ set_ei n e :: C.
Proof.
  intros E Hn. rewrite store_nodes. rewrite E in *. apply ids_split in Hn as [HA HC].
  by rewrite fmap_app, fmap_cons, !map_other, Z.eqb_refl.
Qed.

Lemma filter_other id l : Forall (fun m => en_id m <> id) l -> filter (fun n => en_id n <> id) l = l.
Proof. induction 1 as [|m l Hm _ IH]; [done|]. by rewrite filter_cons_True, IH. Qed.

Lemma erase_split `{RbTree} t A n C : rb_nodes t = A ++ n :: C -> NoDup (en_id <$> rb_nodes t) ->
  rb_nodes (rb_erase t (en_id n)) = A ++ C.
Proof.
  intros E Hn. rewrite rb_erase_nodes. rewrite E in *. apply ids_split in Hn as [HA HC].
  rewrite list.filter_app, filter_cons_False by (intros C0; by apply C0). by rewrite !filter_other.
Qed.

Lemma next_split t A n C : rb_nodes t = A ++ n :: C -> NoDup (en_id <$> rb_nodes t) -> rb_next t (en_id n) = head C.
Proof.
  intros E Hn. unfold rb_next. rewrite E in *. apply ids_split in Hn as [HA _]. clear E.
  induction HA as [|m A Hm _ IH]; cbn.
  - by rewrite Z.eqb_refl.
  - by rewrite (proj2 (Z.eqb_neq _ _)).
Qed.

Lemma prev_split t A n C : rb_nodes t = A ++ n :: C -> NoDup (en_id <$> rb_nodes t) ->
  rb_prev t (en_id n) = list.last A.
Proof.
  intros E Hn. unfold rb_prev. rewrite E in *. apply ids_split in Hn as [HA _]. clear E t.
  assert (G : forall p, prev_of (en_id n) p (A ++ n :: C) = match list.last A with Some x => Some x | None => p end).
  { induction HA as [|m A Hm _ IH]; intros p; cbn.
    - by rewrite Z.eqb_refl.
    - rewrite (proj2 (Z.eqb_neq _ _)) by done. rewrite IH, last_cons. by destruct (list.last A). }
  rewrite G. by destruct (list.last A).
Qed.

Lemma node_at_in t n : n ∈ rb_nodes t -> NoDup (en_id <$> rb_nodes t) -> node_at t (en_id n) = Some n.
Proof.
  intros Hin Hn. unfold node_at. apply list_elem_of_split in Hin as (A & C & E). rewrite E in *.
  apply ids_split in Hn as [HA _].
  destruct (list_find_Some (fun m => en_id m = en_id n) (A ++ n :: C) (length A) n) as [_ Hf]. rewrite Hf; [done|].
  split; [by apply list_lookup_middle|]. split; [done|]. intros j y Ey Hj. rewrite lookup_app_l in Ey by done.
  by eapply (proj1 (Forall_lookup _ _) HA).
Qed.

Section frame.
(** The addresses of the nodes of other trees. *)
Context (F : Z -> Prop).

(** The tree of an inode agrees with its map; the node list holds the nodes of
    the tree and the foreign ones, once each. *)
Record tree_inv (M : bmap) (s : ext_sbi) (et : extent_tree) : Prop := {
  ti_ordered : ordered 0 (rb_nodes (root et));
  ti_ok : nodes_ok M (rb_nodes (root et));
  ti_largest : ext_range (largest et) /\ ext_ok M (largest et);
  ti_ids : NoDup (en_id <$> rb_nodes (root et));
  ti_listed : forall n, n ∈ rb_nodes (root et) -> en_id n ∈ extent_list s;
  ti_list : NoDup (extent_list s);
  ti_fresh : forall i, i ∈ extent_list s -> i < Z.of_nat (ext_allocs s);
  ti_cached : forall i, cached_en et = Some i -> exists n, n ∈ rb_nodes (root et) /\ en_id n = i;
  ti_cnt : node_cnt et = Z.of_nat (length (rb_nodes (root et)));
  ti_only : forall i, i ∈ extent_list s -> i ∈ en_id <$> rb_nodes (root et) \/ F i;
  ti_frame : forall i, F i -> i ∈ extent_list s /\ i ∉ en_id <$> rb_nodes (root et);
  ti_total : total_ext_node s = Z.of_nat (length (extent_list s))
}.

(** What holds of the pointers and counters between two operations. *)
Record core (s : ext_sbi) (et : extent_tree) : Prop := {
  co_ids : NoDup (en_id <$> rb_nodes (root et));
  co_listed : forall n, n ∈ rb_nodes (root et) -> en_id n ∈ extent_list s;
  co_list : NoDup (extent_list s);
  co_fresh : forall i, i ∈ extent_list s -> i < Z.of_nat (ext_allocs s);
  co_cached : forall i, cached_en et = Some i -> exists n, n ∈ rb_nodes (root et) /\ en_id n = i;
  co_cnt : node_cnt et = Z.of_nat (length (rb_nodes (root et)));
  co_only : forall i, i ∈ extent_list s -> i ∈ en_id <$> rb_nodes (root et) \/ F i;
  co_frame : forall i, F i -> i ∈ extent_list s /\ i ∉ en_id <$> rb_nodes (root et);
  co_total : total_ext_node s = Z.of_nat (length (extent_list s))
}.

Lemma core_store s et A n C e : core s et -> rb_nodes (root et) = A ++ n :: C ->
  core s (set_root et (store_ei (root et) (en_id n) e)) /\
  rb_nodes (root (set_root et (store_ei (root et) (en_id n) e))) = A ++ set_ei n e :: C.
Proof.
  intros [H1 H2 H3 H4 H5 H6 H7 H8 H9] E. pose proof (store_split _ A n C e E H1) as E'. split; [|exact E'].
  assert (Hids : en_id <$> rb_nodes (store_ei (root et) (en_id n) e) = en_id <$> rb_nodes (root et)).
  { rewrite E', E, !fmap_app, !fmap_cons. done. }
  constructor; cbn [set_root root cached_en node_cnt]; try done.
  - by rewrite Hids.
  - intros m Hm. apply (list_elem_of_fmap_2 en_id) in Hm. rewrite Hids in Hm.
    apply list_elem_of_fmap in Hm as (m' & -> & Hm'). by apply H2.
  - intros i Hi. destruct (H5 i Hi) as (m & Hm & <-). apply (list_elem_of_fmap_2 en_id) in Hm. rewrite <-Hids in Hm.
    apply list_elem_of_fmap in Hm as (m' & -> & Hm'). eauto.
  - rewrite H6. rewrite <-(length_fmap en_id), <-Hids, length_fmap. done.
  - by rewrite Hids.
  - by rewrite Hids.
Qed.

Section core_rb.
Context `{RbTree}.

Lemma core_release s et A n C : core s et -> rb_nodes (root et) = A ++ n :: C ->
  exists s' et', __release_extent_node s et (en_id n) = Some (s', et') /\ core s' et' /\
    rb_nodes (root et') = A ++ C /\ largest et' = largest et /\ largest_updated et' = largest_updated et.
Proof.
  intros [H1 H2 H3 H4 H5 H6 H7 H8 H9] E. pose proof (erase_split _ A n C E H1) as E'.
  assert (Hn : n ∈ rb_nodes (root et)) by (rewrite E; apply elem_of_app; right; apply elem_of_cons; by left).
  unfold __release_extent_node, list_del. rewrite decide_True by auto. cbn [mbind option_bind].
  do 2 eexists. split; [reflexivity|].
  assert (Hlist : forall et', root et' = rb_erase (root et) (en_id n) -> node_cnt et' = node_cnt et - 1 ->
    (forall i, cached_en et' = Some i -> cached_en et = Some i /\ i <> en_id n) ->
    core {| extent_list := filter (fun y => y <> en_id n) (extent_list s); total_ext_node := total_ext_node s - 1;
            ext_allocs := ext_allocs s |} et').
  { intros et' Er Ec Hc. pose proof (ids_split A n C) as Hs. rewrite <-E in Hs. destruct (Hs H1) as [HA HC].
    rewrite list.Forall_forall in HA, HC. constructor; cbn [extent_list ext_allocs]; rewrite ?Er, ?E'.
    - rewrite E in H1. rewrite fmap_app, fmap_cons in H1. rewrite fmap_app. apply list.NoDup_app in H1 as (N1 & N2 & N3).
      apply list.NoDup_cons in N3 as [_ N3]. apply list.NoDup_app. conjs; [done| |done]. intros x Hx Hx'. apply (N2 x Hx).
      apply elem_of_cons. by right.
    - intros m Hm. apply list_elem_of_filter. split.
      + apply elem_of_app in Hm as [Hm|Hm]; auto.
      + apply H2. rewrite E. apply elem_of_app in Hm as [Hm|Hm]; apply elem_of_app; [by left|right; apply elem_of_cons; by right].
    - by apply list.NoDup_filter.
    - intros i [_ Hi]%list_elem_of_filter. by apply H4.
    - intros i Hi. destruct (Hc i Hi) as [Hi' Hne]. destruct (H5 i Hi') as (m & Hm & <-). exists m. split; [|done].
      rewrite E in Hm. apply elem_of_app in Hm as [Hm|Hm]; apply elem_of_app; [by left|]. apply elem_of_cons in Hm as [->|Hm]; [done|by right].
    - rewrite Ec, H6, E, !length_app. cbn [length]. lia.
    - intros i [Hne Hi]%list_elem_of_filter. destruct (H7 i Hi) as [Hin|HF]; [|by right]. left. rewrite E in Hin.
      rewrite fmap_app, fmap_cons, elem_of_app, elem_of_cons in Hin. rewrite fmap_app, elem_of_app. tauto.
    - intros i HF. destruct (H8 i HF) as [Hi Hni]. rewrite E in Hni.
      rewrite fmap_app, fmap_cons, elem_of_app, elem_of_cons in Hni. rewrite fmap_app, elem_of_app, list_elem_of_filter. tauto.
    - cbn [total_ext_node]. rewrite length_filter_ne by auto. lia. }
  unfold __detach_extent_node. cbn [set_cnt set_root cached_en]. destruct (decide (cached_en et = Some (en_id n))) as [Hc|Hc].
  - conjs; [|done|done|done]. apply Hlist; [done|done|]. by intros i Hi.
  - conjs; [|done|done|done]. apply Hlist; [done|done|]. intros i Hi. split; [done|]. intros ->. done.
Qed.

Lemma core_touch s et id : core s et -> id ∈ en_id <$> rb_nodes (root et) ->
  core (touch_node s et id).1 (touch_node s et id).2 /\ root (touch_node s et id).2 = root et /\
  largest (touch_node s et id).2 = largest et.
Proof.
  intros [H1 H2 H3 H4 H5 H6 H7 H8 H9] (n & -> & Hn)%list_elem_of_fmap. unfold touch_node. rewrite decide_True by auto. cbn [fst snd].
  conjs; [|done|done]. constructor; cbn [extent_list ext_allocs set_cached root cached_en node_cnt]; try done.
  - intros m Hm. apply elem_of_app. destruct (decide (en_id m = en_id n)) as [->|Hne]; [right; by apply list_elem_of_singleton|left].
    apply list_elem_of_filter. auto.
  - apply list.NoDup_app. conjs; [by apply list.NoDup_filter| |apply NoDup_singleton].
    intros x [Hx _]%list_elem_of_filter ->%list_elem_of_singleton. done.
  - intros i [[_ Hi]%list_elem_of_filter| ->%list_elem_of_singleton]%elem_of_app; auto.
  - intros i [= <-]. eauto.
  - intros i [[_ Hi]%list_elem_of_filter| ->%list_elem_of_singleton]%elem_of_app; [auto|left; by apply list_elem_of_fmap_2].
  - intros i HF. destruct (H8 i HF) as [Hi Hni]. split; [|done]. apply elem_of_app. left. apply list_elem_of_filter. split; [|done].
    intros ->. apply Hni. by apply list_elem_of_fmap_2.
  - rewrite length_app, Nat2Z.inj_add, length_filter_ne, H9 by auto. cbn. lia.
Qed.

Lemma core_largest s et e u : core s et -> core s (set_largest et e u).
Proof. intros []. by constructor. Qed.

Lemma core_try_largest s et e : core s et -> core s (__try_update_largest_extent et e).
Proof. intros Hc. unfold __try_update_largest_extent. destruct (_ <? _); [by apply core_largest|done]. Qed.

Lemma root_try_largest et e : root (__try_update_largest_extent et e) = root et.
Proof. unfold __try_update_largest_extent. by destruct (_ <? _). Qed.

(** An extent is kept as the largest only if it agrees with the map. *)
Definition largest_ok (M : bmap) (et : extent_tree) : Prop := ext_range (largest et) /\ ext_ok M (largest et).

Lemma largest_try M et e : largest_ok M et -> ext_range e -> ext_ok M e -> largest_ok M (__try_update_largest_extent et e).
Proof. intros Hl Hr Ho. unfold __try_update_largest_extent. by destruct (_ <? _). Qed.

(** Inserting at the leaf position between [A] and [B]. *)
Context (kmem : nat -> bool).

Lemma core_insert s et A B e p :
  core s et -> rb_nodes (root et) = A ++ B ->
  (p = Some (length A) \/
   p = None /\ exists lm, f2fs_lookup_rb_tree_for_insert (root et) (fofs e) 0 true = Some (length A, lm)) ->
  exists s' et' r, __insert_extent_tree kmem s et e p = Some (s', et', r) /\ core s' et' /\
    ((r = None /\ rb_nodes (root et') = A ++ B /\ largest et' = largest et /\ kmem (ext_allocs s) = false) \/
     exists n, r = Some n /\ ei n = e /\ rb_nodes (root et') = A ++ n :: B /\
       largest et' = largest (__try_update_largest_extent et e)).
Proof.
  intros [H1 H2 H3 H4 H5 H6 H7 H8 H9] E Hp. unfold __insert_extent_tree.
  assert (Hk : (match p with Some k => Some k
    | None => '(k, _) ← f2fs_lookup_rb_tree_for_insert (root et) (fofs e) 0 true; Some k end) = Some (length A)).
  { destruct Hp as [->|[-> [lm ->]]]; done. }
  rewrite Hk. cbn [mbind option_bind]. unfold __attach_extent_node. destruct (kmem (ext_allocs s)) eqn:Ekm.
  - set (en := {| en_id := Z.of_nat (ext_allocs s); ei := e |}).
    assert (Hfresh : en_id en ∉ extent_list s) by (intros C; apply H4 in C; cbn in C; lia).
    assert (Enew : rb_nodes (rb_insert_color (root et) (length A) en) = A ++ en :: B).
    { rewrite rb_insert_nodes by (rewrite E, length_app; lia). rewrite E, take_app_length, drop_app_length. done. }
    cbn [extent_list]. rewrite list_add_tail_fresh by done. cbn [mbind option_bind].
    do 3 eexists. split; [reflexivity|].
    assert (Hroot : root (set_cached (__try_update_largest_extent (set_cnt (set_root et (rb_insert_color (root et) (length A) en))
       (node_cnt et + 1)) (ei en)) (Some (en_id en))) = rb_insert_color (root et) (length A) en).
    { cbn [set_cached root]. by rewrite root_try_largest. }
    assert (Hcnt : node_cnt (set_cached (__try_update_largest_extent (set_cnt (set_root et (rb_insert_color (root et) (length A) en))
       (node_cnt et + 1)) (ei en)) (Some (en_id en))) = node_cnt et + 1).
    { unfold __try_update_largest_extent. by destruct (_ <? _). }
    assert (Hin : forall m, m ∈ A ++ en :: B <-> m = en \/ m ∈ rb_nodes (root et)).
    { intros m. rewrite E, !elem_of_app, elem_of_cons. tauto. }
    split.
    + constructor; rewrite ?Hroot, ?Enew; cbn [extent_list ext_allocs].
      * rewrite E in H1. rewrite fmap_app in *. rewrite fmap_cons. apply list.NoDup_app in H1 as (N1 & N2 & N3).
        assert (Hno : forall m, m ∈ rb_nodes (root et) -> en_id en <> en_id m) by (intros m Hm C; apply Hfresh; rewrite C; auto).
        apply list.NoDup_app. conjs; [done| |].
        -- intros x Hx [->|Hx']%elem_of_cons; [|by apply (N2 x)]. apply list_elem_of_fmap in Hx as (m & Em & Hm).
           apply (Hno m); [|done]. rewrite E. apply elem_of_app. by left.
        -- apply list.NoDup_cons. split; [|done]. intros Hx. apply list_elem_of_fmap in Hx as (m & Em & Hm).
           apply (Hno m); [|done]. rewrite E. apply elem_of_app. by right.
      * intros m [->|Hm]%Hin; apply elem_of_app; [right; by apply list_elem_of_singleton|left; auto].
      * apply list.NoDup_app. conjs; [done| |apply NoDup_singleton]. intros x Hx ->%list_elem_of_singleton. done.
      * intros i [Hi| ->%list_elem_of_singleton]%elem_of_app; [apply H4 in Hi; lia|cbn; lia].
      * intros i [= <-]. exists en. split; [|done]. apply Hin. by left.
      * rewrite Hcnt, H6, E, !length_app. cbn [length]. lia.
      * intros i [Hi| ->%list_elem_of_singleton]%elem_of_app.
        -- destruct (H7 i Hi) as [(m & -> & Hm)%list_elem_of_fmap|HF]; [left|by right]. apply list_elem_of_fmap_2, Hin. by right.
        -- left. apply list_elem_of_fmap_2, Hin. by left.
      * intros i HF. destruct (H8 i HF) as [Hi Hni]. split; [apply elem_of_app; by left|].
        intros (m & -> & [->|Hm]%Hin)%list_elem_of_fmap; [done|]. apply Hni. by apply list_elem_of_fmap_2.
      * cbn [total_ext_node]. rewrite H9, length_app. cbn [length]. lia.
    + right. exists en. rewrite Hroot, Enew. conjs; [done|done|done|].
      unfold __try_update_largest_extent. by destruct (_ <? _).
  - do 3 eexists. split; [reflexivity|]. split; [|left; done].
    constructor; cbn [extent_list ext_allocs]; try done. intros i Hi. apply H4 in Hi. lia.
Qed.
End core_rb.

(** ** Searches on ordered trees *)

Lemma extent_end_eq e : ext_range e -> extent_end e = fofs e + len e.
Proof. intros (? & ? & ? & _). unfold extent_end. apply u32_small. lia. Qed.

Definition ranges (l : list extent_node) : Prop := Forall (fun n => ext_range (ei n)) l.

Lemma lookup_slow_spec t : forall lo ofs, ordered lo (rb_nodes t) -> ranges (rb_nodes t) ->
  match __lookup_rb_tree_slow t ofs with
  | Some n => n ∈ rb_nodes t /\ fofs (ei n) <= ofs < fofs (ei n) + len (ei n)
  | None => forall n, n ∈ rb_nodes t -> ~ fofs (ei n) <= ofs < fofs (ei n) + len (ei n)
  end.
Proof.
  induction t as [|l IHl re r IHr]; intros lo ofs Ho Hr; cbn [__lookup_rb_tree_slow rb_nodes] in *.
  { intros n Hn. by apply elem_of_nil in Hn. }
  apply ordered_around in Ho as (HA & Hlen & HC & HAn & HCn).
  apply list.Forall_app in Hr as [Rl [Rre Rr]%list.Forall_cons]. rewrite extent_end_eq by done.
  destruct (ofs <? fofs (ei re)) eqn:E1; [|destruct (fofs (ei re) + len (ei re) <=? ofs) eqn:E2].
  - specialize (IHl lo ofs HA Rl). destruct (__lookup_rb_tree_slow l ofs) as [n|]; [rewrite elem_of_app; tauto|].
    intros n [Hn|[->|Hn]%elem_of_cons]%elem_of_app; [by apply IHl|lia|]. pose proof (HCn n Hn). lia.
  - specialize (IHr _ ofs HC Rr). destruct (__lookup_rb_tree_slow r ofs) as [n|]; [rewrite elem_of_app, elem_of_cons; tauto|].
    intros n [Hn|[->|Hn]%elem_of_cons]%elem_of_app; [|lia|by apply IHr]. pose proof (HAn n Hn). lia.
  - rewrite elem_of_app, elem_of_cons. split; [tauto|lia].
Qed.

(** The leaf position found for an offset outside all nodes. *)
Lemma for_insert_spec t : forall lo ofs k lm A B, ordered lo (rb_nodes t) -> ranges (rb_nodes t) ->
  rb_nodes t = A ++ B -> (forall n, n ∈ A -> fofs (ei n) + len (ei n) <= ofs) -> (forall n, n ∈ B -> ofs < fofs (ei n)) ->
  exists lm', f2fs_lookup_rb_tree_for_insert t ofs k lm = Some ((k + length A)%nat, lm').
Proof.
  induction t as [|l IHl re r IHr]; intros lo ofs k lm A B Ho Hr E HA HB; cbn [f2fs_lookup_rb_tree_for_insert rb_nodes] in *.
  { symmetry in E. apply app_nil in E as [-> ->]. rewrite Nat.add_0_r. eauto. }
  apply ordered_around in Ho as (Hol & Hlen & Hor & HAn & HCn).
  apply list.Forall_app in Hr as [Rl [Rre Rr]%list.Forall_cons]. rewrite extent_end_eq by done.
  assert (Hre : re ∈ A \/ re ∈ B) by (apply elem_of_app; rewrite <-E; apply elem_of_app; right; apply elem_of_cons; by left).
  destruct (ofs <? fofs (ei re)) eqn:E1.
  - assert (Hsplit : exists B1, rb_nodes l = A ++ B1 /\ B = B1 ++ re :: rb_nodes r).
    { apply app_eq_app in E as (k0 & [[E2 E3]|[E2 E3]]); [by eauto|]. destruct k0 as [|x k0].
      - exists []. rewrite app_nil_r in *. cbn in *. by subst.
      - injection E3 as <- E3. assert (Hin : re ∈ A) by (rewrite E2; apply elem_of_app; right; apply elem_of_cons; by left).
        apply HA in Hin. lia. }
    destruct Hsplit as (B1 & El & ->). apply (IHl lo ofs k lm A B1); [done|done|done|done|].
    intros n Hn. apply HB. apply elem_of_app. by left.
  - assert (Hin : re ∈ A). { destruct Hre as [|Hre]; [done|]. apply HB in Hre. lia. }
    assert (Hend : fofs (ei re) + len (ei re) <= ofs) by (by apply HA). rewrite (proj2 (Z.leb_le _ _)) by done.
    assert (Hsplit : exists A1, A = rb_nodes l ++ re :: A1 /\ rb_nodes r = A1 ++ B).
    { apply app_eq_app in E as (k0 & [[E2 E3]|[E2 E3]]).
      - assert (Hin2 : re ∈ B) by (rewrite E3; apply elem_of_app; right; apply elem_of_cons; by left).
        apply HB in Hin2. lia.
      - destruct k0 as [|x k0].
        + rewrite app_nil_r in E2. cbn in E3. subst B. assert (re ∈ re :: rb_nodes r) as Hb by (apply elem_of_cons; by left).
          apply HB in Hb. lia.
        + injection E3 as <- E3. by eauto. }
    destruct Hsplit as (A1 & -> & Er).
    destruct (IHr (fofs (ei re) + len (ei re)) ofs (k + S (length (rb_nodes l)))%nat false A1 B) as [lm' E']; try done.
    { intros n Hn. apply HA. apply elem_of_app. right. apply elem_of_cons. by right. }
    exists lm'. rewrite E'. do 2 f_equal. rewrite length_app. cbn [length]. lia.
Qed.

(** The last element of a prefix. *)
Definition is_last (A : list extent_node) (p : extent_node) : Prop := exists A0, A = A0 ++ [p].

Lemma is_last_app A p X : is_last A p -> is_last (X ++ A) p.
Proof. intros [A0 ->]. exists (X ++ A0). by rewrite app_assoc. Qed.

(** The descent ends in a node that covers the offset, or at the leaf position
    between the nodes before and behind it, below one of its neighbours. *)
Definition search_result (nodes : list extent_node) (ofs : Z) (parent : option extent_node) (k : nat)
    (r : extent_node + (nat * option extent_node * bool)) : Prop :=
  match r with
  | inl re => exists A C, nodes = A ++ re :: C /\ fofs (ei re) <= ofs < fofs (ei re) + len (ei re)
  | inr (k', parent', _) => exists A C, nodes = A ++ C /\ k' = (k + length A)%nat /\
      (forall n, n ∈ A -> fofs (ei n) + len (ei n) <= ofs) /\ (forall n, n ∈ C -> ofs < fofs (ei n)) /\
      ((nodes = [] /\ parent' = parent) \/ (exists p, is_last A p /\ parent' = Some p) \/
       (exists p C0, C = p :: C0 /\ parent' = Some p))
  end.

Lemma search_result_left l re r ofs parent k res lo : ordered lo (l ++ re :: r) -> ofs < fofs (ei re) ->
  search_result l ofs (Some re) k res -> search_result (l ++ re :: r) ofs parent k res.
Proof.
  intros Ho Hlt. apply ordered_around in Ho as (_ & Hlen & _ & _ & HC).
  destruct res as [m|[[k' p'] lm]]; cbn.
  - intros (A & C & -> & Hm). exists A, (C ++ re :: r). by rewrite <-app_assoc.
  - intros (A & C & -> & -> & HA & HCm & Hp). exists A, (C ++ re :: r). rewrite <-app_assoc. conjs; try done.
    + intros n [Hn|[->|Hn]%elem_of_cons]%elem_of_app; [by apply HCm|done|]. pose proof (HC n Hn). lia.
    + right. destruct Hp as [[E ->]|[Hp|(p & C0 & -> & ->)]].
      * apply app_nil in E as [-> ->]. right. by exists re, r.
      * by left.
      * right. by exists p, (C0 ++ re :: r).
Qed.

Lemma search_result_right l re r ofs parent k res lo : ordered lo (l ++ re :: r) -> fofs (ei re) + len (ei re) <= ofs ->
  search_result r ofs (Some re) (k + S (length l)) res -> search_result (l ++ re :: r) ofs parent k res.
Proof.
  intros Ho Hlt. apply ordered_around in Ho as (_ & Hlen & _ & HL & _).
  destruct res as [m|[[k' p'] lm]]; cbn.
  - intros (A & C & -> & Hm). exists (l ++ re :: A), C. by rewrite <-app_assoc.
  - intros (A & C & -> & -> & HA & HCm & Hp). exists (l ++ re :: A), C. rewrite <-app_assoc. conjs; try done.
    + rewrite length_app. cbn [length]. lia.
    + intros n [Hn|[->|Hn]%elem_of_cons]%elem_of_app; [|done|by apply HA]. pose proof (HL n Hn). lia.
    + right. destruct Hp as [[E ->]|[(p & Hp & ->)|Hp]].
      * apply app_nil in E as [-> ->]. left. exists re. split; [|done]. by exists l.
      * left. exists p. split; [|done]. rewrite cons_middle, app_assoc. by apply is_last_app.
      * by right.
Qed.

Lemma search_ret_spec t : forall lo ofs parent k lm, ordered lo (rb_nodes t) -> ranges (rb_nodes t) ->
  search_result (rb_nodes t) ofs parent k (search_ret t ofs parent k lm).
Proof.
  induction t as [|l IHl re r IHr]; intros lo ofs parent k lm Ho Hr; cbn [search_ret rb_nodes] in *.
  { exists [], []. conjs; [done|by rewrite Nat.add_0_r|by intros n ?%elem_of_nil|by intros n ?%elem_of_nil|by left]. }
  pose proof Ho as Ho'. apply ordered_around in Ho' as (Hol & Hlen & Hor & _).
  apply list.Forall_app in Hr as [Rl [Rre Rr]%list.Forall_cons]. rewrite extent_end_eq by done.
  destruct (ofs <? fofs (ei re)) eqn:E1; [|destruct (fofs (ei re) + len (ei re) <=? ofs) eqn:E2].
  - eapply search_result_left; [done|lia|]. by eapply IHl.
  - eapply search_result_right; [done|lia|]. by eapply IHr.
  - exists (rb_nodes l), (rb_nodes r). split; [done|lia].
Qed.

(** What [f2fs_lookup_rb_tree_ret] finds: the sequence splits into the nodes
    that end before the offset and the others; the first of the others is the
    node found or [next_entry]; [prev_entry] is the last of the former or
    null; the insertion point, if there is one, lies between. *)
Record split_at (t : rb_root) (ofs : Z) (A B : list extent_node) (r : lookup_ret) : Prop := {
  sp_nodes : rb_nodes t = A ++ B;
  sp_before : forall n, n ∈ A -> fofs (ei n) + len (ei n) <= ofs;
  sp_behind : forall n, n ∈ B -> ofs < fofs (ei n) + len (ei n);
  sp_first : match lr_re r with Some en => Some en | None => lr_next r end = head B;
  sp_hit : forall re, lr_re r = Some re -> fofs (ei re) <= ofs;
  sp_next : lr_re r = None -> lr_next r = head B;
  sp_prev : forall p, lr_prev r = Some p -> is_last A p;
  sp_insert : forall k, lr_insert r = Some k -> k = length A /\ forall n, n ∈ B -> ofs < fofs (ei n)
}.

Lemma last_is_last A p : list.last A = Some p -> is_last A p.
Proof. intros E. by apply last_Some in E. Qed.

(** A node that covers the offset splits the sequence. *)
Lemma split_cover t ofs A re C (lm : bool) : rb_nodes t = A ++ re :: C -> ordered 0 (rb_nodes t) -> NoDup (en_id <$> rb_nodes t) ->
  fofs (ei re) <= ofs < fofs (ei re) + len (ei re) ->
  split_at t ofs A (re :: C) {|
    lr_re := Some re; lr_prev := if (ofs =? fofs (ei re)) || false then rb_prev t (en_id re) else None;
    lr_next := if (ofs =? (fofs (ei re) +! len (ei re)) -! 1) || false then rb_next t (en_id re) else None;
    lr_insert := None; lr_leftmost := lm |}.
Proof.
  intros E Ho Hn Hc. rewrite E in Ho. apply ordered_around in Ho as (_ & Hlen & HoC & HA & HC).
  constructor; cbn [lr_re lr_prev lr_next lr_insert]; try done.
  - intros n Hm. pose proof (HA n Hm). lia.
  - intros n [->|Hm]%elem_of_cons; [lia|]. pose proof (HC n Hm). pose proof (ordered_lb _ _ _ HoC Hm). lia.
  - intros re' [= <-]. lia.
  - intros p. rewrite orb_false_r. destruct (ofs =? fofs (ei re)); [|done].
    rewrite (prev_split t A re C E Hn). apply last_is_last.
Qed.

Lemma lookup_ret_spec t cached ofs : ordered 0 (rb_nodes t) -> ranges (rb_nodes t) -> NoDup (en_id <$> rb_nodes t) ->
  (forall re, cached = Some re -> re ∈ rb_nodes t) ->
  exists A B, split_at t ofs A B (f2fs_lookup_rb_tree_ret t cached ofs false).
Proof.
  intros Ho Hr Hn Hcached. unfold f2fs_lookup_rb_tree_ret.
  destruct t as [|l0 re0 r0]; [by exists [], []; constructor; try done; intros n ?%elem_of_nil|].
  set (t := RB_NODE l0 re0 r0) in *. destruct (__lookup_rb_tree_fast cached ofs) as [re|] eqn:Ef.
  - unfold __lookup_rb_tree_fast in Ef. destruct cached as [re'|]; [|done].
    destruct ((fofs (ei re') <=? ofs) && (ofs <? extent_end (ei re'))) eqn:Ec; [|done]. injection Ef as <-.
    pose proof (Hcached re' eq_refl) as Hin. pose proof (proj1 (list.Forall_forall _ _) Hr re' Hin) as Hre.
    rewrite extent_end_eq in Ec by done. apply list_elem_of_split in Hin as (A & C & E).
    exists A, (re' :: C). apply split_cover; [done..|lia].
  - pose proof (search_ret_spec t 0 ofs None 0 true Ho Hr) as Hs. destruct (search_ret t ofs None 0 true) as [re|[[k parent] lm]]; cbn [search_result] in Hs.
    + destruct Hs as (A & C & E & Hc). exists A, (re :: C). by apply split_cover.
    + destruct Hs as (A & C & E & -> & HA & HC & Hp). exists A, C.
      assert (HC' : forall n, n ∈ C -> ofs < fofs (ei n) + len (ei n)).
      { intros n Hn'. pose proof (HC n Hn'). rewrite E in Ho. apply ordered_app in Ho as [_ Ho].
        pose proof (ordered_lb _ _ _ Ho Hn'). lia. }
      destruct Hp as [[Hnil ->]|[(p & [A0 EA] & ->)|(p & C0 & EC & ->)]].
      * rewrite Hnil in E. symmetry in E. apply app_nil in E as [-> ->]. constructor; cbn; try done.
        intros k [= <-]. split; [done|]. intros n Hn'. by apply elem_of_nil in Hn'.
      * subst A. rewrite <-app_assoc in E. cbn [app] in E.
        assert (Hpe : fofs (ei p) + len (ei p) <= ofs) by (apply HA, elem_of_app; right; by apply list_elem_of_singleton).
        assert (Hpl : 0 < len (ei p)). { rewrite E in Ho. by apply ordered_around in Ho as (_ & ? & _). }
        assert (Enext : rb_next t (en_id p) = head C) by (by apply (next_split t A0 p C)).
        constructor; cbn [lr_re lr_prev lr_next lr_insert]; try done.
        -- by rewrite <-app_assoc.
        -- by rewrite (proj2 (Z.ltb_lt _ _)) by lia.
        -- intros _. by rewrite (proj2 (Z.ltb_lt _ _)) by lia.
        -- intros q. rewrite (proj2 (Z.ltb_ge _ _)) by lia. intros [= <-]. by exists A0.
        -- intros k [= <-]. done.
      * subst C. assert (Hpf : ofs < fofs (ei p)) by (apply HC, elem_of_cons; by left).
        constructor; cbn [lr_re lr_prev lr_next lr_insert]; try done.
        -- by rewrite (proj2 (Z.ltb_ge _ _)) by lia.
        -- intros _. by rewrite (proj2 (Z.ltb_ge _ _)) by lia.
        -- intros q. rewrite (proj2 (Z.ltb_lt _ _)) by lia. rewrite (prev_split t A p C0 E Hn). apply last_is_last.
        -- intros k [= <-]. done.
Qed.

(** ** Pieces of extents *)

Definition piece (d : extent_info) (a n c : Z) : extent_info :=
  {| fofs := a; len := n; blk := blk d + (a - fofs d); c_len := c |}.

Lemma piece_range d a n c : ext_range d -> fofs d <= a -> 0 <= n -> a + n <= fofs d + len d -> ext_range (piece d a n c).
Proof. unfold ext_range, piece. cbn. intros (? & ? & ? & ? & ?) ? ? ?. conjs; lia. Qed.

Lemma piece_ok M d a n c : ext_ok M d -> fofs d <= a -> a + n <= fofs d + len d -> ext_ok M (piece d a n c).
Proof.
  intros Hd Ha Hn i Hi. cbn in *. replace (a + i) with (fofs d + (a - fofs d + i)) by lia. rewrite Hd by lia. f_equal. lia.
Qed.

Lemma ext_ok_outside M f b l e : ext_ok M e -> fofs e + len e <= f \/ f + l <= fofs e -> ext_ok (remap M f b l) e.
Proof.
  intros He Ho i Hi. unfold remap. rewrite <-He by done.
  destruct ((f <=? fofs e + i) && (fofs e + i <? f + l)) eqn:E; [lia|done].
Qed.

Lemma left_piece d f : ext_range d -> fofs d <= f < fofs d + len d -> with_len d (f -! fofs d) = piece d (fofs d) (f - fofs d) (c_len d).
Proof.
  intros (? & ? & ? & ? & ?) Hf. unfold with_len, piece. rewrite u32_small by lia. f_equal. lia.
Qed.

Lemma right_piece d e : ext_range d -> fofs d <= e < fofs d + len d ->
  {| fofs := e; len := len d -! (e -! fofs d); blk := blk d +! (e -! fofs d); c_len := c_len d |} =
  piece d e (fofs d + len d - e) (c_len d).
Proof.
  intros (? & ? & ? & ? & ?) He. unfold piece.
  rewrite (u32_small (e - fofs d)), (u32_small (len d - _)), (u32_small (blk d + _)) by lia. f_equal. lia.
Qed.

Lemma split_piece d e : ext_range d -> fofs d <= e < fofs d + len d ->
  set_extent_info e (e - fofs d + blk d) (fofs d + len d - e) = piece d e (fofs d + len d - e) 0.
Proof.
  intros (? & ? & ? & ? & ?) He. unfold set_extent_info, piece. rewrite !u32_small by lia. f_equal. lia.
Qed.

(** ** The invalidation loop *)

Section inval_loop.
Context `{RbTree} (kmem : nat -> bool) (M : bmap) (f l : Z).
Context (Hf : 0 <= f) (Hl : 0 < l) (Hfl : f + l < 2 ^ 32).

(** The nodes [A] end before the range; the loop has to look at [B]. *)
Record linv (v : inval) (A B : list extent_node) : Prop := {
  li_core : core (iv_s v) (iv_et v);
  li_nodes : rb_nodes (root (iv_et v)) = A ++ B;
  li_ord : ordered 0 (A ++ B);
  li_ok : nodes_ok M (A ++ B);
  li_before : forall n, n ∈ A -> fofs (ei n) + len (ei n) <= f;
  li_behind : forall n, n ∈ B -> f < fofs (ei n) + len (ei n);
  li_largest : largest_ok (remap M f 0 l) (iv_et v);
  li_prev : forall p, iv_prev v = Some p -> is_last A p;
  li_insert : forall k, iv_insert v = Some k -> k = length A /\ forall n, n ∈ B -> f < fofs (ei n)
}.

Definition node_ok (n : extent_node) : Prop := ext_range (ei n) /\ ext_ok M (ei n).

(** Replacing the first node behind [A] by pieces of it. *)
Lemma pieces_ordered A n C ps : ordered 0 (A ++ n :: C) -> ordered (fofs (ei n)) ps ->
  last_end (fofs (ei n)) ps <= fofs (ei n) + len (ei n) -> ordered 0 (A ++ ps ++ C).
Proof.
  rewrite !ordered_app. intros (HA & H1 & H2 & HC) Hps Hle. conjs; [done|by eapply ordered_weaken|].
  apply (ordered_weaken (fofs (ei n) + len (ei n))); [done|]. destruct ps as [|p ps].
  - cbn in *. lia.
  - exact Hle.
Qed.

Lemma pieces_ok A n C ps : nodes_ok M (A ++ n :: C) -> Forall node_ok ps -> nodes_ok M (A ++ ps ++ C).
Proof.
  clear. unfold nodes_ok. rewrite !list.Forall_app, list.Forall_cons. tauto.
Qed.

Lemma linv_head v A n C : linv v A (n :: C) ->
  node_ok n /\ f < fofs (ei n) + len (ei n) /\ 0 < len (ei n) /\
  (forall m, m ∈ C -> fofs (ei n) + len (ei n) <= fofs (ei m) /\ 0 < len (ei m)).
Proof.
  intros Hv. pose proof (li_ok _ _ _ Hv) as Ho. pose proof (li_ord _ _ _ Hv) as Hord.
  unfold nodes_ok in Ho. rewrite list.Forall_app, list.Forall_cons in Ho. destruct Ho as (_ & Hn & _).
  apply ordered_around in Hord as (_ & Hlen & HC & _ & Hbehind).
  conjs; [exact Hn|apply (li_behind _ _ _ Hv), elem_of_cons; by left|done|].
  intros m Hm. split; [by apply Hbehind|by apply (ordered_lb _ _ _ HC)].
Qed.

(** Assembling the invariant after an iteration that replaced the first node
    by the pieces [ps] before the range and [qs] behind it. *)
Lemma linv_step v v' A n C ps qs : linv v A (n :: C) ->
  core (iv_s v') (iv_et v') -> rb_nodes (root (iv_et v')) = (A ++ ps) ++ qs ++ C ->
  ordered (fofs (ei n)) (ps ++ qs) -> last_end (fofs (ei n)) (ps ++ qs) <= fofs (ei n) + len (ei n) ->
  Forall node_ok (ps ++ qs) ->
  (forall m, m ∈ ps -> fofs (ei m) + len (ei m) <= f) -> (forall m, m ∈ qs -> f + l <= fofs (ei m)) ->
  largest_ok (remap M f 0 l) (iv_et v') ->
  (forall p, iv_prev v' = Some p -> is_last (A ++ ps) p) ->
  (forall k, iv_insert v' = Some k -> ps = [] /\ iv_insert v = Some k) ->
  linv v' (A ++ ps) (qs ++ C).
Proof.
  intros Hv Hc Hn Ho Hle Hok Hps Hqs Hlg Hp Hi. destruct (linv_head v A n C Hv) as (_ & Hfn & _ & HC).
  constructor; try done.
  - rewrite <-app_assoc, (app_assoc ps). by apply (pieces_ordered A n C); [apply Hv|..].
  - rewrite <-app_assoc, (app_assoc ps). apply (pieces_ok A n C); [apply Hv|done].
  - intros m [Hm|Hm]%elem_of_app; [by apply Hv|by apply Hps].
  - intros m [Hm|Hm]%elem_of_app.
    + pose proof (Hqs m Hm). apply ordered_app in Ho as [_ Ho]. pose proof (ordered_lb _ _ _ Ho Hm). lia.
    + pose proof (HC m Hm). lia.
  - intros k Hk. destruct (Hi k Hk) as [-> Hk']. destruct (li_insert _ _ _ Hv k Hk') as [-> Hb].
    rewrite app_nil_r. split; [done|]. intros m [Hm|Hm]%elem_of_app; [pose proof (Hqs m Hm); lia|].
    apply Hb, elem_of_cons. by right.
Qed.

Lemma largest_outside et e : largest_ok (remap M f 0 l) et -> ext_range e -> ext_ok M e ->
  fofs e + len e <= f \/ f + l <= fofs e -> largest_ok (remap M f 0 l) (__try_update_largest_extent et e).
Proof. intros. apply largest_try; [done..|]. by apply ext_ok_outside. Qed.

(** The state after an iteration: the first node is consumed, and either the
    rest is what followed it or everything left is behind the range. *)
Definition step_done (v' : option inval) (C : list extent_node) : Prop :=
  exists w A' B', v' = Some w /\ linv w A' B' /\ iv_next w = head B' /\
    (B' = C \/ forall m, m ∈ B' -> f + l <= fofs (ei m)).

Lemma inval_release v A n C (d : option extent_info) : linv v A (n :: C) ->
  step_done ('(s, et) ← __release_extent_node (iv_s v) (iv_et v) (en_id n);
             Some {| iv_s := s; iv_et := et; iv_prev := iv_prev v; iv_next := rb_next (root (iv_et v)) (en_id n);
                     iv_insert := None; iv_dei := d |}) C.
Proof.
  intros Hv. destruct (core_release _ _ A n C (li_core _ _ _ Hv) (li_nodes _ _ _ Hv)) as (s' & et' & Er & Hc & Hn & Hlg & _).
  rewrite Er. cbn [mbind option_bind]. eexists _, (A ++ []), C. split; [reflexivity|].
  rewrite (next_split _ A n C (li_nodes _ _ _ Hv) (co_ids _ _ (li_core _ _ _ Hv))).
  conjs; [|done|by left].
  apply (linv_step v _ A n C [] []); cbn [iv_s iv_et iv_prev iv_insert app]; try done.
  - by rewrite app_nil_r.
  - destruct (linv_head _ _ _ _ Hv) as ([(? & ? & _) _] & _). cbn. lia.
  - by intros m ?%elem_of_nil.
  - by intros m ?%elem_of_nil.
  - unfold largest_ok. rewrite Hlg. apply Hv.
  - rewrite app_nil_r. apply Hv.
Qed.

Lemma inval_left v A n C d : linv v A (n :: C) -> fofs (ei n) < f ->
  let n1 := set_ei n (piece (ei n) (fofs (ei n)) (f - fofs (ei n)) (c_len (ei n))) in
  let et1 := set_root (iv_et v) (store_ei (root (iv_et v)) (en_id n) (ei n1)) in
  step_done (Some {| iv_s := iv_s v; iv_et := __try_update_largest_extent et1 (ei n1); iv_prev := Some n1;
                     iv_next := rb_next (root et1) (en_id n1); iv_insert := iv_insert v; iv_dei := d |}) C.
Proof.
  intros Hv Hlt n1 et1. destruct (linv_head _ _ _ _ Hv) as ([Hr Ho] & Hfn & Hlen & HC).
  destruct (core_store _ _ A n C (ei n1) (li_core _ _ _ Hv) (li_nodes _ _ _ Hv)) as [Hc En]. fold et1 in Hc, En.
  change (set_ei n (ei n1)) with n1 in En.
  assert (Hr1 : ext_range (ei n1)) by (apply piece_range; [done|lia..]).
  assert (Ho1 : ext_ok M (ei n1)) by (apply piece_ok; [done|lia..]).
  eexists _, (A ++ [n1]), C. split; [reflexivity|]. rewrite (next_split _ A n1 C En (co_ids _ _ Hc)).
  conjs; [|done|by left].
  apply (linv_step v _ A n C [n1] []); cbn [iv_s iv_et iv_prev iv_insert]; rewrite ?app_nil_r; try done.
  - by apply core_try_largest.
  - rewrite root_try_largest, En. by rewrite <-app_assoc.
  - cbn. conjs; [lia|lia|done].
  - cbn. lia.
  - apply list.Forall_singleton. by split.
  - intros m ->%list_elem_of_singleton. cbn. lia.
  - by intros m ?%elem_of_nil.
  - apply largest_outside; [apply Hv|done|done|cbn; lia].
  - intros p [= <-]. by exists A.
  - intros k Hk. destruct (li_insert _ _ _ Hv k Hk) as [_ Hb]. specialize (Hb n (list_elem_of_here _ _)). lia.
Qed.

Lemma inval_right v A n C d : linv v A (n :: C) -> fofs (ei n) < f + l < fofs (ei n) + len (ei n) ->
  let n1 := set_ei n (piece (ei n) (f + l) (fofs (ei n) + len (ei n) - (f + l)) (c_len (ei n))) in
  let et1 := set_root (iv_et v) (store_ei (root (iv_et v)) (en_id n) (ei n1)) in
  step_done (Some {| iv_s := iv_s v; iv_et := __try_update_largest_extent et1 (ei n1); iv_prev := iv_prev v;
                     iv_next := Some n1; iv_insert := iv_insert v; iv_dei := d |}) C.
Proof.
  intros Hv Hlt n1 et1. destruct (linv_head _ _ _ _ Hv) as ([Hr Ho] & Hfn & Hlen & HC).
  destruct (core_store _ _ A n C (ei n1) (li_core _ _ _ Hv) (li_nodes _ _ _ Hv)) as [Hc En]. fold et1 in Hc, En.
  change (set_ei n (ei n1)) with n1 in En.
  assert (Hr1 : ext_range (ei n1)) by (apply piece_range; [done|lia..]).
  assert (Ho1 : ext_ok M (ei n1)) by (apply piece_ok; [done|lia..]).
  eexists _, (A ++ []), (n1 :: C). split; [reflexivity|]. conjs; [|done|].
  - apply (linv_step v _ A n C [] [n1]); cbn [iv_s iv_et iv_prev iv_insert]; rewrite ?app_nil_r; try done.
    + by apply core_try_largest.
    + by rewrite root_try_largest, En.
    + cbn. conjs; [lia|lia|done].
    + cbn. lia.
    + apply list.Forall_singleton. by split.
    + by intros m ?%elem_of_nil.
    + intros m ->%list_elem_of_singleton. cbn. lia.
    + apply largest_outside; [apply Hv|done|done|cbn; lia].
    + apply Hv.
  - right. intros m [->|Hm]%elem_of_cons; [cbn; lia|]. pose proof (HC m Hm). lia.
Qed.

(** The insertion of the right piece behind the left one. *)
Lemma insert_right v A n C : linv v A (n :: C) -> fofs (ei n) < f -> f + l < fofs (ei n) + len (ei n) ->
  let n1 := set_ei n (piece (ei n) (fofs (ei n)) (f - fofs (ei n)) (c_len (ei n))) in
  let et1 := set_root (iv_et v) (store_ei (root (iv_et v)) (en_id n) (ei n1)) in
  let e2 := piece (ei n) (f + l) (fofs (ei n) + len (ei n) - (f + l)) 0 in
  exists s2 et2 r qs, __insert_extent_tree kmem (iv_s v) et1 e2 None = Some (s2, et2, r) /\ core s2 et2 /\
    rb_nodes (root et2) = A ++ n1 :: qs ++ C /\ largest_ok (remap M f 0 l) et2 /\
    (r = None /\ qs = [] \/ exists n2, r = Some n2 /\ qs = [n2] /\ ei n2 = e2).
Proof.
  intros Hv Hlt Hgt n1 et1 e2. destruct (linv_head _ _ _ _ Hv) as ([Hr Ho] & Hfn & Hlen & HC).
  destruct (core_store _ _ A n C (ei n1) (li_core _ _ _ Hv) (li_nodes _ _ _ Hv)) as [Hc En]. fold et1 in Hc, En.
  change (set_ei n (ei n1)) with n1 in En.
  assert (Hn1 : node_ok n1) by (split; [apply piece_range|apply piece_ok]; try done; lia).
  assert (Hr2 : ext_range e2 /\ ext_ok M e2) by (split; [apply piece_range|apply piece_ok]; try done; lia).
  assert (Hord : ordered 0 (A ++ [n1] ++ C)).
  { apply (pieces_ordered A n C [n1]); [apply Hv|cbn; conjs; [lia|lia|done]|cbn; lia]. }
  assert (Hok : nodes_ok M (A ++ [n1] ++ C)).
  { apply (pieces_ok A n C); [apply Hv|]. by apply list.Forall_singleton. }
  assert (En' : rb_nodes (root et1) = (A ++ [n1]) ++ C) by (by rewrite <-app_assoc).
  destruct (for_insert_spec (root et1) 0 (f + l) 0 true (A ++ [n1]) C) as [lm Hfi].
  { by rewrite En. } { rewrite En. eapply list.Forall_impl; [exact Hok|]. by intros m [? _]. } { done. }
  { intros m [Hm| ->%list_elem_of_singleton]%elem_of_app; [pose proof (li_before _ _ _ Hv m Hm); lia|cbn; lia]. }
  { intros m Hm. pose proof (HC m Hm). lia. }
  destruct (core_insert kmem _ et1 (A ++ [n1]) C e2 None Hc En') as (s2 & et2 & r & Ei & Hc2 & Hres).
  { right. split; [done|]. exists lm. exact Hfi. }
  rewrite Ei. destruct Hres as [(-> & Hn2 & Hlg & _)|(n2 & -> & He2 & Hn2 & Hlg)].
  - exists s2, et2, None, []. conjs; try done; [by rewrite Hn2, <-app_assoc| |by left].
    unfold largest_ok. rewrite Hlg. apply Hv.
  - exists s2, et2, (Some n2), [n2]. conjs; try done; [by rewrite Hn2, <-app_assoc| |right; by exists n2].
    unfold largest_ok. rewrite Hlg. apply largest_outside; [apply Hv|apply Hr2|apply Hr2|cbn; lia].
Qed.

Lemma inval_both v A n C d : linv v A (n :: C) -> fofs (ei n) < f -> f + l < fofs (ei n) + len (ei n) ->
  let n1 := set_ei n (piece (ei n) (fofs (ei n)) (f - fofs (ei n)) (c_len (ei n))) in
  let et1 := set_root (iv_et v) (store_ei (root (iv_et v)) (en_id n) (ei n1)) in
  let e2 := piece (ei n) (f + l) (fofs (ei n) + len (ei n) - (f + l)) 0 in
  step_done ('(s, et, en1) ← __insert_extent_tree kmem (iv_s v) et1 e2 None;
             Some {| iv_s := s; iv_et := __try_update_largest_extent et (ei n1); iv_prev := Some n1;
                     iv_next := match en1 with Some n => Some n | None => rb_next (root et) (en_id n1) end;
                     iv_insert := None; iv_dei := d |}) C.
Proof.
  intros Hv Hlt Hgt n1 et1 e2. destruct (linv_head _ _ _ _ Hv) as ([Hr Ho] & Hfn & Hlen & HC).
  pose proof (insert_right v A n C Hv Hlt Hgt) as Hins. cbv zeta in Hins. fold n1 in Hins. fold et1 e2 in Hins.
  destruct Hins as (s2 & et2 & r & qs & -> & Hc & En & Hlg & Hq). cbn [mbind option_bind].
  assert (Hn1 : node_ok n1) by (split; [apply piece_range|apply piece_ok]; try done; lia).
  assert (Hqs : forall m, m ∈ qs -> ei m = e2).
  { destruct Hq as [[_ ->]|(n2 & _ & -> & ?)]; [by intros m ?%elem_of_nil|by intros m ->%list_elem_of_singleton]. }
  eexists _, (A ++ [n1]), (qs ++ C). split; [reflexivity|]. cbn [iv_next]. conjs.
  - apply (linv_step v _ A n C [n1] qs); cbn [iv_s iv_et iv_prev iv_insert]; try done.
    + by apply core_try_largest.
    + by rewrite root_try_largest, En, <-app_assoc.
    + destruct Hq as [[_ ->]|(n2 & _ & -> & E2)]; cbn; rewrite ?E2; cbn; conjs; lia || done.
    + destruct Hq as [[_ ->]|(n2 & _ & -> & E2)]; cbn; rewrite ?E2; cbn; lia.
    + apply list.Forall_forall. intros m [ ->%list_elem_of_singleton|Hm]%elem_of_app; [done|].
      unfold node_ok. rewrite (Hqs m Hm). split; [apply piece_range|apply piece_ok]; try done; lia.
    + intros m ->%list_elem_of_singleton. cbn. lia.
    + intros m Hm. rewrite (Hqs m Hm). cbn. lia.
    + apply largest_outside; [done|apply Hn1|apply Hn1|cbn; lia].
    + intros p [= <-]. by exists A.
  - destruct Hq as [[-> ->]|(n2 & -> & -> & E2)]; [|done]. apply (next_split _ A n1 C); [exact En|apply Hc].
  - destruct Hq as [[-> ->]|(n2 & -> & -> & E2)]; [by left|right]. intros m [->|Hm]%elem_of_cons; [rewrite E2; cbn; lia|].
    pose proof (HC m Hm). lia.
Qed.

Lemma inval_step v A n C : linv v A (n :: C) -> fofs (ei n) < f + l ->
  step_done (invalidate_node kmem f (f + l) v n) C.
Proof.
  intros Hv Hlt. destruct (linv_head _ _ _ _ Hv) as ([Hr Ho] & Hfn & Hlen & HC).
  pose proof Hr as (R1 & R2 & R3 & _). unfold invalidate_node, F2FS_MIN_EXTENT_LEN.
  rewrite (u32_small (fofs (ei n) + len (ei n))) by lia. rewrite (proj2 (Z.leb_gt _ f)) by lia.
  destruct ((fofs (ei n) <? f) && (64 <=? f -! fofs (ei n))) eqn:El;
    destruct ((f + l <? fofs (ei n) + len (ei n)) && (64 <=? (fofs (ei n) + len (ei n)) -! (f + l))) eqn:Er.
  - rewrite left_piece by (done || lia). rewrite split_piece by (done || lia).
    pose proof (inval_both v A n C (Some (ei n)) Hv ltac:(lia) ltac:(lia)) as HH. cbn zeta in HH.
    destruct (__insert_extent_tree _ _ _ _ _) as [[[s2 et2] r]|]; exact HH.
  - rewrite left_piece by (done || lia). exact (inval_left v A n C (Some (ei n)) Hv ltac:(lia)).
  - rewrite right_piece by (done || lia). exact (inval_right v A n C (Some (ei n)) Hv ltac:(lia)).
  - pose proof (inval_release v A n C (Some (ei n)) Hv) as HH. exact HH.
Qed.

(** The loop ends with every node left behind the range, the first of them in
    [next_en]. *)
Lemma inval_loop_done fuel : forall v A B, linv v A B ->
  (length B < fuel)%nat \/ (0 < fuel)%nat /\ (forall m, m ∈ B -> f + l <= fofs (ei m)) ->
  iv_next v = head B \/ (exists n, head B = Some n /\ fofs (ei n) < f + l) ->
  exists w A' B', invalidate_loop kmem fuel f (f + l) (head B) v = Some w /\ linv w A' B' /\ iv_next w = head B' /\
    (forall m, m ∈ B' -> f + l <= fofs (ei m)).
Proof.
  induction fuel as [|fuel IH]; intros v A B Hv Hfuel Hnext; [lia|]. cbn [invalidate_loop].
  destruct B as [|n C]; cbn [head hd_error] in *.
  { exists v, A, []. conjs; [done|done| |by intros m ?%elem_of_nil]. destruct Hnext as [|(n & ? & _)]; done. }
  destruct (fofs (ei n) <? f + l) eqn:En.
  - destruct (inval_step v A n C Hv ltac:(lia)) as (w & A' & B' & -> & Hw & Hn & HB). cbn [mbind option_bind].
    rewrite Hn. apply (IH w A' B' Hw); [|by left]. destruct Hfuel as [Hfuel|[_ Hall]].
    + destruct HB as [->|HB]; [left; cbn in Hfuel; lia|right; split; [cbn in Hfuel; lia|done]].
    + specialize (Hall n (list_elem_of_here _ _)). lia.
  - exists v, A, (n :: C). destruct (linv_head _ _ _ _ Hv) as (_ & _ & Hlen & HC). conjs; [done|done| |].
    + destruct Hnext as [|(m & [= ->] & ?)]; [done|lia].
    + intros m [->|Hm]%elem_of_cons; [lia|]. pose proof (HC m Hm). lia.
Qed.
End inval_loop.

(** ** Merging *)

Lemma tree_inv_core M s et : tree_inv M s et <->
  core s et /\ ordered 0 (rb_nodes (root et)) /\ nodes_ok M (rb_nodes (root et)) /\ largest_ok M et.
Proof.
  split.
  - intros []. conjs; try done.
  - intros ([] & ? & ? & ?). by constructor.
Qed.

(** The join of two adjacent extents. *)
Definition join (a b : extent_info) (c : Z) : extent_info := {| fofs := fofs a; len := len a + len b; blk := blk a; c_len := c |}.

Lemma mergeable_join M a b c : ext_range a -> ext_ok M a -> ext_range b -> ext_ok M b -> __is_extent_mergeable a b = true ->
  fofs a + len a = fofs b /\ ext_range (join a b c) /\ ext_ok M (join a b c).
Proof.
  intros (A1 & A2 & A3 & A4 & A5) Ha (B1 & B2 & B3 & B4 & B5) Hb. unfold __is_extent_mergeable.
  destruct (negb _ && negb _); [done|]. destruct (negb _ && negb _); [done|]. rewrite !u32_small by lia. intros [Ef Eb]%andb_true_iff.
  apply Z.eqb_eq in Ef, Eb. conjs; [done|unfold ext_range, join; cbn; conjs; lia|].
  intros i Hi. cbn in *. destruct (decide (i < len a)) as [Hlt|Hge]; [apply Ha; lia|].
  replace (fofs a + i) with (fofs b + (i - len a)) by lia. rewrite Hb by lia. f_equal. lia.
Qed.

Lemma back_join a e : ext_range (join a e (c_len a)) -> ext_range a -> with_len a (len a +! len e) = join a e (c_len a).
Proof. intros (? & ? & ? & _) (? & ? & ? & ? & ?). unfold with_len, join in *. cbn in *. rewrite u32_small by lia. done. Qed.

Lemma front_join e n : ext_range (join e n (c_len n)) -> ext_range e -> ext_range n ->
  {| fofs := fofs e; len := len n +! len e; blk := blk e; c_len := c_len n |} = join e n (c_len n).
Proof.
  intros (? & ? & ? & _) (? & _) (? & ? & ? & ? & ?). unfold join in *. cbn in *. rewrite u32_small by lia. f_equal. lia.
Qed.

Section merge.
Context `{RbTree} (kmem : nat -> bool) (M : bmap) (e : extent_info).
Context (He : ext_range e) (Hoe : ext_ok M e) (Hlen : 0 < len e).

(** The situation in front of the merge: the tree has no node in the range. *)
Record gap (s : ext_sbi) (et : extent_tree) (A B : list extent_node) : Prop := {
  g_core : core s et;
  g_nodes : rb_nodes (root et) = A ++ B;
  g_ord : ordered 0 (A ++ B);
  g_ok : nodes_ok M (A ++ B);
  g_before : forall n, n ∈ A -> fofs (ei n) + len (ei n) <= fofs e;
  g_behind : forall n, n ∈ B -> fofs e + len e <= fofs (ei n);
  g_largest : largest_ok M et
}.

(** The tree holds a node over the whole range. *)
Definition covered (et : extent_tree) : Prop :=
  exists n, n ∈ rb_nodes (root et) /\ fofs (ei n) <= fofs e /\ fofs e + len e <= fofs (ei n) + len (ei n).

(** A node over the range between the nodes before and behind it. *)
Lemma fill_ordered A x B : ordered 0 (A ++ B) ->
  last_end 0 A <= fofs (ei x) -> 0 < len (ei x) -> (forall n, n ∈ B -> fofs (ei x) + len (ei x) <= fofs (ei n)) ->
  ordered 0 (A ++ x :: B).
Proof.
  rewrite !ordered_app. intros [HA HB] H1 H2 H3. conjs; [done|]. cbn [ordered]. conjs; [done|done|].
  destruct B as [|m B]; [done|]. cbn [ordered] in *. destruct HB as (? & ? & ?). conjs; try done.
  apply H3, elem_of_cons. by left.
Qed.

Lemma fill_ok A x B : nodes_ok M (A ++ B) -> ext_range (ei x) -> ext_ok M (ei x) -> nodes_ok M (A ++ x :: B).
Proof. unfold nodes_ok. rewrite !list.Forall_app, list.Forall_cons. tauto. Qed.

Lemma last_end_le A z : 0 <= z -> (forall n, n ∈ A -> fofs (ei n) + len (ei n) <= z) -> last_end 0 A <= z.
Proof.
  intros Hz HA. destruct A as [|n A _] using rev_ind; [done|]. rewrite last_end_app. apply HA.
  apply elem_of_app. right. by apply list_elem_of_singleton.
Qed.

Lemma merge_finish s et A x B : core s et -> rb_nodes (root et) = A ++ x :: B ->
  ordered 0 (A ++ x :: B) -> nodes_ok M (A ++ x :: B) -> largest_ok M et ->
  fofs (ei x) <= fofs e -> fofs e + len e <= fofs (ei x) + len (ei x) ->
  exists s' et', touch_node s (__try_update_largest_extent et (ei x)) (en_id x) = (s', et') /\
    tree_inv M s' et' /\ covered et'.
Proof.
  intros Hc En Ho Hok Hlg H1 H2. set (et1 := __try_update_largest_extent et (ei x)).
  assert (Hx : x ∈ A ++ x :: B) by (apply elem_of_app; right; apply elem_of_cons; by left).
  pose proof (proj1 (list.Forall_forall _ _) Hok x Hx) as [Hxr Hxo].
  destruct (core_touch s et1 (en_id x)) as (Hc' & Er & El).
  { by apply core_try_largest. }
  { unfold et1. rewrite root_try_largest, En. by apply list_elem_of_fmap_2. }
  destruct (touch_node s et1 (en_id x)) as [s' et']. cbn [fst snd] in *. do 2 eexists. split; [reflexivity|].
  assert (Enodes : rb_nodes (root et') = A ++ x :: B) by (rewrite Er; unfold et1; by rewrite root_try_largest).
  split.
  - apply tree_inv_core. rewrite Enodes. conjs; try done. unfold largest_ok. rewrite El. by apply largest_try.
  - exists x. rewrite Enodes. by conjs.
Qed.

Lemma gap_node s et A B n : gap s et A B -> n ∈ A ++ B -> ext_range (ei n) /\ ext_ok M (ei n) /\ 0 < len (ei n).
Proof.
  intros Hg Hn. destruct (proj1 (list.Forall_forall _ _) (g_ok _ _ _ _ Hg) n Hn).
  by destruct (ordered_lb _ _ _ (g_ord _ _ _ _ Hg) Hn).
Qed.

(** The merge loses nothing and keeps the tree in order; a merged range is
    covered by one node. *)
Definition merge_result (s : ext_sbi) (et : extent_tree) (r : option (ext_sbi * extent_tree * bool)) : Prop :=
  exists s' et' m, r = Some (s', et', m) /\ if (m : bool) then tree_inv M s' et' /\ covered et' else s' = s /\ et' = et.

Lemma merge_prev s et A p B : gap s et (A ++ [p]) B -> __is_back_mergeable e (ei p) = true ->
  let x := set_ei p (join (ei p) e (c_len (ei p))) in
  let et1 := set_root et (store_ei (root et) (en_id p) (join (ei p) e (c_len (ei p)))) in
  core s et1 /\ rb_nodes (root et1) = A ++ x :: B /\ ordered 0 (A ++ x :: B) /\ nodes_ok M (A ++ x :: B) /\
  largest_ok M et1 /\ fofs (ei x) <= fofs e /\ fofs (ei x) + len (ei x) = fofs e + len e.
Proof.
  intros Hg Hm x et1. assert (Hin : p ∈ (A ++ [p]) ++ B).
  { apply elem_of_app. left. apply elem_of_app. right. by apply list_elem_of_singleton. }
  destruct (gap_node _ _ _ _ p Hg Hin) as (Hpr & Hpo & Hpl).
  destruct (mergeable_join M (ei p) e (c_len (ei p))) as (Ef & Hjr & Hjo); try done.
  destruct (core_store s et A p B (join (ei p) e (c_len (ei p)))) as [Hc En]; [apply Hg|by rewrite (g_nodes _ _ _ _ Hg), <-app_assoc|].
  pose proof (g_ord _ _ _ _ Hg) as Hord. rewrite <-app_assoc in Hord. cbn [app] in Hord.
  pose proof (g_ok _ _ _ _ Hg) as Hok. unfold nodes_ok in Hok. rewrite <-app_assoc, list.Forall_app in Hok. cbn [app] in Hok.
  rewrite list.Forall_cons in Hok. destruct Hok as (HA & _ & HB).
  apply ordered_app in Hord as (HoA & H1 & H2 & HoB). conjs; try done.
  - apply ordered_app. split; [done|]. cbn [ordered set_ei ei x join fofs len]. conjs; [done|lia|].
    destruct B as [|b B]; [done|]. cbn [ordered] in *. destruct HoB as (? & ? & ?). conjs; try done.
    pose proof (g_behind _ _ _ _ Hg b (list_elem_of_here _ _)). lia.
  - unfold nodes_ok. rewrite list.Forall_app, list.Forall_cons. done.
  - apply Hg.
  - cbn. lia.
  - cbn. lia.
Qed.

(** Merging with the node behind the range; [y] is the range, possibly grown
    by the node before it, and [A] the nodes in front of it. *)
Lemma fill_next A n B y : ordered 0 (A ++ n :: B) -> nodes_ok M (A ++ n :: B) ->
  last_end 0 A <= fofs y -> ext_range y -> ext_ok M y -> 0 < len y -> __is_front_mergeable y (ei n) = true ->
  let x := set_ei n (join y (ei n) (c_len (ei n))) in
  ext_range (join y (ei n) (c_len (ei n))) /\ ordered 0 (A ++ x :: B) /\ nodes_ok M (A ++ x :: B) /\
  fofs (ei x) = fofs y /\ fofs y + len y <= fofs (ei x) + len (ei x).
Proof.
  intros Hord Hok Hle Hyr Hyo Hyl Hm x. unfold nodes_ok in *.
  rewrite list.Forall_app, list.Forall_cons in Hok. destruct Hok as (HA & [Hnr Hno] & HB).
  destruct (mergeable_join M y (ei n) (c_len (ei n))) as (Ef & Hjr & Hjo); try done.
  apply ordered_app in Hord as (HoA & H1 & H2 & HoB). conjs; try done.
  - apply ordered_app. split; [done|]. cbn [ordered set_ei ei x join fofs len]. conjs; [done|lia|].
    by rewrite Z.add_assoc, Ef.
  - rewrite list.Forall_app, list.Forall_cons. done.
  - cbn. lia.
Qed.

Lemma gap_last_end s et A B : gap s et A B -> last_end 0 A <= fofs e.
Proof. intros Hg. apply last_end_le; [apply He|apply Hg]. Qed.

(** Only the node behind merges. *)
Lemma merge_front s et A n B : gap s et A (n :: B) -> __is_front_mergeable e (ei n) = true ->
  exists s' et', touch_node s (__try_update_largest_extent (set_root et (store_ei (root et) (en_id n) (join e (ei n) (c_len (ei n)))))
    (join e (ei n) (c_len (ei n)))) (en_id n) = (s', et') /\ tree_inv M s' et' /\ covered et'.
Proof.
  intros Hg Hm.
  destruct (fill_next A n B e) as (Hj & Ho & Hok & E1 & E2); try done; [apply Hg|apply Hg|by eapply gap_last_end|].
  destruct (core_store s et A n B (join e (ei n) (c_len (ei n)))) as [Hc En]; [apply Hg|apply Hg|].
  apply (merge_finish _ _ A (set_ei n (join e (ei n) (c_len (ei n)))) B); try done; apply Hg.
Qed.

(** Both neighbours merge: the node before the range is released. *)
Lemma merge_both s et A p n B : gap s et (A ++ [p]) (n :: B) -> __is_back_mergeable e (ei p) = true ->
  __is_front_mergeable (join (ei p) e (c_len (ei p))) (ei n) = true ->
  let y := join (ei p) e (c_len (ei p)) in
  let et1 := set_root et (store_ei (root et) (en_id p) y) in
  let et2 := set_root et1 (store_ei (root et1) (en_id n) (join y (ei n) (c_len (ei n)))) in
  ext_range (join y (ei n) (c_len (ei n))) /\ exists s3 et3 s' et', __release_extent_node s et2 (en_id p) = Some (s3, et3) /\
    touch_node s3 (__try_update_largest_extent et3 (join y (ei n) (c_len (ei n)))) (en_id n) = (s', et') /\ tree_inv M s' et' /\ covered et'.
Proof.
  intros Hg Hb Hm y et1 et2. pose proof (merge_prev _ _ _ _ _ Hg Hb) as HH. cbv zeta in HH. fold y et1 in HH.
  destruct HH as (Hc & En & Ho & Hok & Hlg & E1 & E2).
  assert (HoA : ordered 0 (A ++ n :: B)) by (eapply (pieces_ordered A _ _ []); [exact Ho|done|]; cbn; apply ordered_around in Ho as (_ & Hpos & _); cbn in Hpos; lia).
  assert (HokA : nodes_ok M (A ++ n :: B)) by (apply (pieces_ok M A (set_ei p y) _ []); done).
  assert (Hy : ext_range y /\ ext_ok M y).
  { apply (proj1 (list.Forall_forall _ _) Hok (set_ei p y)). apply elem_of_app. right. apply elem_of_cons. by left. }
  destruct (fill_next A n B y) as (Hj & Hox & Hokx & Ex1 & Ex2); try done; try apply Hy.
  { apply ordered_app in Ho as (_ & Hle & _). exact Hle. }
  { apply ordered_around in Ho as (_ & ? & _). done. }
  split; [done|].
  destruct (core_store s et1 (A ++ [set_ei p y]) n B (join y (ei n) (c_len (ei n))) Hc) as [Hc2 En2]; [by rewrite <-app_assoc|]. fold et2 in Hc2, En2.
  rewrite <-app_assoc in En2. cbn [app] in En2.
  destruct (core_release s et2 A (set_ei p y) _ Hc2 En2) as (s3 & et3 & Er & Hc3 & En3 & El3 & _).
  destruct (merge_finish s3 et3 A (set_ei n (join y (ei n) (c_len (ei n)))) B) as (s' & et' & Et & Hi); try done.
  { unfold largest_ok. by rewrite El3. } { cbn [set_ei ei] in *. lia. }
  exists s3, et3, s', et'. done.
Qed.

Lemma merge_front_or_none s et A B next : gap s et A B -> (forall n, next = Some n -> exists B0, B = n :: B0) ->
  merge_result s et ('(s, et, en) ←
    match next with
    | Some n => if __is_front_mergeable e (ei n)
                then '(s, et) ← Some (s, set_root et (store_ei (root et) (en_id n)
                       {| fofs := fofs e; len := len (ei n) +! len e; blk := blk e; c_len := c_len (ei n) |}));
                     Some (s, et, Some (en_id n, {| fofs := fofs e; len := len (ei n) +! len e; blk := blk e; c_len := c_len (ei n) |}))
                else Some (s, et, None)
    | None => Some (s, et, None)
    end;
    match en with
    | None => Some (s, et, false)
    | Some (id, e) => let et := __try_update_largest_extent et e in
                      let '(s, et) := touch_node s et id in Some (s, et, true)
    end).
Proof.
  intros Hg Hn. unfold merge_result. destruct next as [n|]; [destruct (__is_front_mergeable e (ei n)) eqn:Ef|];
    cbn [mbind option_bind].
  - destruct (Hn n eq_refl) as [B0 ->]. destruct (merge_front _ _ _ _ _ Hg Ef) as (s' & et' & Et & Hi).
    destruct (gap_node _ _ _ _ n Hg) as (Hnr & Hno & _); [apply elem_of_app; right; apply elem_of_cons; by left|].
    destruct (mergeable_join M e (ei n) (c_len (ei n))) as (_ & Hjr & _); try done.
    rewrite front_join by done. rewrite Et. by exists s', et', true.
  - by exists s, et, false.
  - by exists s, et, false.
Qed.

Lemma merge_spec s et A B prev next : gap s et A B -> (forall p, prev = Some p -> is_last A p) ->
  (forall n, next = Some n -> exists B0, B = n :: B0) ->
  merge_result s et (__try_merge_extent_node s et e prev next).
Proof.
  intros Hg Hp Hn. unfold __try_merge_extent_node, merge_result. destruct prev as [p|].
  - destruct (Hp p eq_refl) as [A0 ->]. destruct (__is_back_mergeable e (ei p)) eqn:Eb.
    + assert (Hpr : p ∈ (A0 ++ [p]) ++ B) by (rewrite !elem_of_app, list_elem_of_singleton; tauto).
      destruct (gap_node _ _ _ _ p Hg Hpr) as (Hpr' & Hpo & _).
      destruct (mergeable_join M (ei p) e (c_len (ei p))) as (_ & Hjr & _); try done.
      rewrite back_join by done. pose proof (merge_prev _ _ _ _ _ Hg Eb) as HH. cbv zeta in HH.
      destruct HH as (Hc & En & Ho & Hok & Hlg & E1 & E2).
      destruct next as [n|]; [destruct (__is_front_mergeable (join (ei p) e (c_len (ei p))) (ei n)) eqn:Ef|].
      * destruct (Hn n eq_refl) as [B0 ->]. pose proof (merge_both _ _ _ _ _ _ Hg Eb Ef) as HH. cbv zeta in HH.
        destruct HH as (Hj & s3 & et3 & s' & et' & Er & Et & Hi).
        assert (Hnr : ext_range (ei n)).
        { destruct (gap_node _ _ _ _ n Hg) as [? _]; [|done]. apply elem_of_app. right. apply elem_of_cons. by left. }
        rewrite front_join by done. rewrite Er. cbn [mbind option_bind]. rewrite Et. by exists s', et', true.
      * cbn [mbind option_bind]. edestruct (merge_finish s _ A0 _ B Hc En) as (s' & et' & Et & Hi); try done; [cbn in *; lia|].
        cbn [set_ei ei en_id] in Et. rewrite Et. by exists s', et', true.
      * cbn [mbind option_bind]. edestruct (merge_finish s _ A0 _ B Hc En) as (s' & et' & Et & Hi); try done; [cbn in *; lia|].
        cbn [set_ei ei en_id] in Et. rewrite Et. by exists s', et', true.
    + apply (merge_front_or_none s et (A0 ++ [p]) B next Hg Hn).
  - apply (merge_front_or_none s et A B next Hg Hn).
Qed.
End merge.

(** ** The whole update *)

Lemma largest_remap M f b l et : largest_ok (remap M f 0 l) et -> largest_ok (remap M f b l) et.
Proof.
  intros [Hr Ho]. split; [done|]. intros i Hi. specialize (Ho i Hi). unfold remap in *.
  destruct ((f <=? fofs (largest et) + i) && (fofs (largest et) + i <? f + l)); [done|exact Ho].
Qed.

Lemma drop_largest_ok M et f l : 0 <= f -> 0 < l -> largest_ok M et -> largest_ok (remap M f 0 l) (__drop_largest_extent et f l).
Proof.
  intros Hf Hl [Hr Ho]. pose proof Hr as (R1 & R2 & R3 & R4 & R5). unfold __drop_largest_extent.
  rewrite u32_small by lia. destruct ((f <? _) && _) eqn:E.
  - split; [unfold ext_range; cbn; conjs; lia|]. intros i Hi. cbn in Hi. lia.
  - split; [done|]. apply ext_ok_outside; [done|lia].
Qed.

Lemma drop_largest_root et f l : root (__drop_largest_extent et f l) = root et /\ cached_node (__drop_largest_extent et f l) = cached_node et.
Proof. unfold __drop_largest_extent. by destruct (_ && _). Qed.

Lemma drop_largest_core s et f l : core s et -> core s (__drop_largest_extent et f l).
Proof. intros. unfold __drop_largest_extent. destruct (_ && _); [by apply core_largest|done]. Qed.

Lemma nodes_ok_outside M f b l ns : nodes_ok M ns ->
  (forall n, n ∈ ns -> fofs (ei n) + len (ei n) <= f \/ f + l <= fofs (ei n)) -> nodes_ok (remap M f b l) ns.
Proof.
  unfold nodes_ok. rewrite !list.Forall_forall. intros Hok Ho n Hn. destruct (Hok n Hn). split; [done|].
  apply ext_ok_outside; auto.
Qed.

Lemma cached_node_in s et re : core s et -> cached_node et = Some re -> re ∈ rb_nodes (root et).
Proof.
  intros Hc Ec. unfold cached_node in Ec. destruct (cached_en et) as [i|] eqn:Ei; [|done]. cbn in Ec.
  destruct (co_cached _ _ Hc i Ei) as (n & Hn & <-). rewrite (node_at_in _ n Hn (co_ids _ _ Hc)) in Ec. by injection Ec as <-.
Qed.

Section update_thms.
Context `{RbTree} (kmem : nat -> bool).

Lemma free_nodes_core ns : forall s et, core s et -> rb_nodes (root et) = ns ->
  exists s' et', free_nodes ns s et = Some (s', et') /\ core s' et' /\ rb_nodes (root et') = [] /\ largest et' = largest et.
Proof.
  induction ns as [|n ns IH]; intros s et Hc En; [by exists s, et|].
  destruct (core_release s et [] n ns Hc En) as (s1 & et1 & E1 & Hc1 & En1 & El1 & _).
  destruct (IH s1 et1 Hc1 En1) as (s' & et' & E' & ? & ? & El). exists s', et'. cbn [free_nodes]. rewrite E1.
  cbn [mbind option_bind]. rewrite El, El1. done.
Qed.

(** What holds for an inode: the cache agrees with its map, and is empty once
    the inode gave extents up. *)
Definition inode_inv (M : bmap) (s : ext_sbi) (et : extent_tree) (no_extent : bool) : Prop :=
  tree_inv M s et /\ (no_extent = true -> rb_nodes (root et) = [] /\ len (largest et) = 0).

Lemma empty_inv M M' s et : tree_inv M s et -> rb_nodes (root et) = [] -> len (largest et) = 0 -> tree_inv M' s et.
Proof.
  rewrite !tree_inv_core. intros (Hc & Ho & _ & [Hr _]) -> Hl. conjs; try done; [by apply list.Forall_nil|].
  split; [done|]. intros i Hi. lia.
Qed.

Lemma flag_reset M s et u : tree_inv M s et -> tree_inv M s (set_largest et (largest et) u).
Proof. rewrite !tree_inv_core. intros (Hc & Ho & Hok & Hlg). conjs; try done. by apply core_largest. Qed.

(** Up to the end of the invalidation loop. *)
Lemma update_invalidates M s et f l : tree_inv M s et -> 0 <= f -> 0 < l -> f + l < 2 ^ 32 ->
  let et1 := __drop_largest_extent et f l in
  let r := f2fs_lookup_rb_tree_ret (root et1) (cached_node et1) f false in
  exists v A B, invalidate_loop kmem (S (S (length (rb_nodes (root et1))))) f (f + l)
      (match lr_re r with Some en => Some en | None => lr_next r end)
      {| iv_s := s; iv_et := et1; iv_prev := lr_prev r; iv_next := lr_next r; iv_insert := lr_insert r; iv_dei := None |} = Some v /\
    linv M f l v A B /\ iv_next v = head B /\ (forall m, m ∈ B -> f + l <= fofs (ei m)).
Proof.
  intros (Hc & Ho & Hok & Hlg)%tree_inv_core Hf Hl Hfl et1 r. subst r. subst et1.
  destruct (drop_largest_root et f l) as [-> ->]. pose proof (drop_largest_core s et f l Hc) as Hc1.
  destruct (lookup_ret_spec (root et) (cached_node et) f Ho) as (A & B & Hs).
  { eapply list.Forall_impl; [exact Hok|]. by intros n [? _]. } { apply Hc. }
  { intros re Hre. by apply (cached_node_in s). }
  rewrite (sp_first _ _ _ _ _ Hs). pose proof (sp_nodes _ _ _ _ _ Hs) as En.
  destruct (inval_loop_done kmem M f l Hf Hl (S (S (length (rb_nodes (root et)))))
    {| iv_s := s; iv_et := __drop_largest_extent et f l; iv_prev := lr_prev (f2fs_lookup_rb_tree_ret (root et) (cached_node et) f false);
       iv_next := lr_next (f2fs_lookup_rb_tree_ret (root et) (cached_node et) f false);
       iv_insert := lr_insert (f2fs_lookup_rb_tree_ret (root et) (cached_node et) f false); iv_dei := None |} A B) as (v & A' & B' & Hv).
  - constructor; cbn [iv_s iv_et iv_prev iv_next iv_insert]; rewrite <-?En; try done.
    + by rewrite (proj1 (drop_largest_root et f l)).
    + apply Hs.
    + apply Hs.
    + by apply drop_largest_ok.
    + apply Hs.
    + apply Hs.
  - left. rewrite En, length_app. lia.
  - cbn [iv_next]. destruct (lr_re (f2fs_lookup_rb_tree_ret (root et) (cached_node et) f false)) as [re|] eqn:Er.
    + right. exists re. pose proof (sp_first _ _ _ _ _ Hs) as Hh. rewrite Er in Hh. split; [done|].
      pose proof (sp_hit _ _ _ _ _ Hs re Er). lia.
    + left. by apply (sp_next _ _ _ _ _ Hs).
  - by exists v, A', B'.
Qed.

Lemma linv_gap M f l b v A B : linv M f l v A B -> (forall m, m ∈ B -> f + l <= fofs (ei m)) ->
  gap (remap M f b l) {| fofs := f; len := l; blk := b; c_len := 0 |} (iv_s v) (iv_et v) A B.
Proof.
  intros Hv HB. constructor; cbn [fofs len]; try apply Hv; try done.
  - apply nodes_ok_outside; [apply Hv|]. intros n [Hn|Hn]%elem_of_app; [left; by apply Hv|right; by apply HB].
  - apply largest_remap, Hv.
Qed.

(** The range enters the tree, by merging or in a node of its own. *)
Lemma store_range M e v A B : ext_range e -> ext_ok M e -> 0 < len e -> gap M e (iv_s v) (iv_et v) A B ->
  (forall p, iv_prev v = Some p -> is_last A p) -> iv_next v = head B ->
  (forall k, iv_insert v = Some k -> k = length A) ->
  exists s' et', ('(s, et, merged) ← __try_merge_extent_node (iv_s v) (iv_et v) e (iv_prev v) (iv_next v);
                  if (merged : bool) then Some (s, et)
                  else '(s, et, _) ← __insert_extent_tree kmem s et e (iv_insert v); Some (s, et)) = Some (s', et') /\
    tree_inv M s' et' /\ ((forall k, kmem k = true) -> covered e et').
Proof.
  intros He Hoe Hlen Hg Hp Hn Hk. destruct (merge_spec M e He Hoe Hlen _ _ A B (iv_prev v) (iv_next v) Hg Hp) as (s1 & et1 & m & -> & Hm).
  { intros n Hn'. rewrite Hn in Hn'. destruct B as [|b B]; [done|]. injection Hn' as ->. by exists B. }
  cbn [mbind option_bind]. destruct m; [destruct Hm; exists s1, et1; by conjs|]. destruct Hm as [-> ->].
  destruct (core_insert kmem (iv_s v) (iv_et v) A B e (iv_insert v)) as (s2 & et2 & r & -> & Hc & Hres); [apply Hg|apply Hg| |].
  { destruct (iv_insert v) as [k|]; [left; by rewrite (Hk k eq_refl)|right]. split; [done|].
    apply (for_insert_spec (root (iv_et v)) 0 (fofs e) 0 true A B); [rewrite (g_nodes _ _ _ _ _ _ Hg); apply Hg| |apply Hg|apply Hg|].
    - rewrite (g_nodes _ _ _ _ _ _ Hg). eapply list.Forall_impl; [apply (g_ok _ _ _ _ _ _ Hg)|]. by intros n [? _].
    - intros n Hn'. pose proof (g_behind _ _ _ _ _ _ Hg n Hn'). lia. }
  cbn [mbind option_bind]. exists s2, et2. split; [done|]. destruct Hres as [(_ & En & El & Ek)|(n & _ & <- & En & El)].
  - split; [|intros Hall; by rewrite Hall in Ek]. apply tree_inv_core. rewrite En. conjs; [done|apply Hg|apply Hg|].
    unfold largest_ok. rewrite El. apply Hg.
  - split.
    + apply tree_inv_core. rewrite En. conjs; [done| | |].
      * apply fill_ordered; [apply Hg| |done|apply Hg]. apply last_end_le; [apply He|apply Hg].
      * apply fill_ok; [apply Hg|done|done].
      * unfold largest_ok. rewrite El. apply largest_try; [apply Hg|done|done].
    + intros _. exists n. rewrite En. conjs; [|lia|lia]. apply elem_of_app. right. apply elem_of_cons. by left.
Qed.

Lemma remap_self M f b l : b <> 0 -> ext_ok (remap M f b l) {| fofs := f; len := l; blk := b; c_len := 0 |}.
Proof.
  intros Hb i Hi. cbn in *. unfold remap. rewrite (proj2 (Z.eqb_neq b 0)) by done.
  destruct ((f <=? f + i) && (f + i <? f + l)) eqn:E; [f_equal; lia|lia].
Qed.

Lemma free_tree_inv M s et : core s et -> ext_range (largest et) -> len (largest et) = 0 ->
  exists s' et' c, __free_extent_tree s et = Some (s', et', c) /\ inode_inv M s' et' true.
Proof.
  intros Hc Hr Hl. destruct (free_nodes_core _ s et Hc eq_refl) as (s' & et' & E & Hc' & En & El).
  unfold __free_extent_tree. rewrite E. cbn [mbind option_bind]. do 3 eexists. split; [reflexivity|].
  split; [|by rewrite El]. apply tree_inv_core. rewrite En. conjs; [done|done|by apply list.Forall_nil|].
  rewrite <-El in Hr, Hl. split; [done|]. intros i Hi. lia.
Qed.

(** The update keeps the cache consistent with the new map, always returns,
    empties the cache of an inode that gives extents up, and leaves the range
    covered when allocations succeed. *)
Lemma update_refines M s et no_extent f b l :
  inode_inv M s et no_extent -> 0 <= f -> 0 < l -> f + l < 2 ^ 32 -> 0 <= b -> b + l < 2 ^ 32 ->
  exists s' et' no_extent' dirty,
    f2fs_update_extent_tree_range kmem s et no_extent f b l = Some (s', et', no_extent', dirty) /\
    inode_inv (remap M f b l) s' et' no_extent' /\
    (no_extent' = false -> b <> 0 -> (forall k, kmem k = true) -> covered {| fofs := f; len := l; blk := b; c_len := 0 |} et').
Proof.
  intros [Hinv Hne] Hf Hl Hfl Hb Hbl. unfold f2fs_update_extent_tree_range. destruct no_extent.
  { destruct (Hne eq_refl) as [En El]. do 4 eexists. split; [reflexivity|]. split; [|done]. split; [|done]. by eapply empty_inv. }
  rewrite (u32_small (f + l)), (u32_small f) by lia.
  destruct (update_invalidates M s et f l Hinv Hf Hl Hfl) as (v & A & B & -> & Hv & Hn & HB). cbn [mbind option_bind].
  set (e := {| fofs := f; len := l; blk := b; c_len := 0 |}). pose proof (linv_gap M f l b v A B Hv HB) as Hg. fold e in Hg.
  destruct (b =? 0) eqn:Eb; cbn [mbind option_bind].
  - do 4 eexists. split; [reflexivity|]. split; [|lia]. split; [|done]. apply flag_reset, tree_inv_core.
    rewrite (g_nodes _ _ _ _ _ _ Hg). conjs; apply Hg.
  - assert (Ee : set_extent_info f b l = e) by (unfold set_extent_info; by rewrite !u32_small by lia). rewrite Ee.
    destruct (store_range (remap M f b l) e v A B) as (s2 & et2 & Es & Hi2 & Hcov); try done.
    { unfold ext_range, e. cbn. conjs; lia. } { apply remap_self. lia. } { apply Hv. } { intros k Hk. by apply (li_insert _ _ _ _ _ _ Hv). }
    destruct (__try_merge_extent_node _ _ _ _ _) as [[[s1 et1] m]|]; [|done]. cbn [mbind option_bind] in Es |- *.
    destruct (if m then Some (s1, et1) else _) as [[s2' et2']|]; [|done]. injection Es as -> ->. cbn [mbind option_bind].
    destruct (match iv_dei v with Some _ => _ | None => _ end); cbn [mbind option_bind].
    + destruct (free_tree_inv (remap M f b l) s2 (set_largest et2 (with_len (largest et2) 0) true)) as (s3 & et3 & c & -> & [Hi3 He3]).
      { apply core_largest. by apply tree_inv_core in Hi2 as [? _]. }
      { destruct (ti_largest _ _ _ Hi2) as [(? & ? & ? & ? & ?) _]. unfold ext_range. cbn. conjs; lia. } { done. }
      cbn [mbind option_bind]. do 4 eexists. split; [reflexivity|]. split; [|done]. split; [by apply flag_reset|done].
    + do 4 eexists. split; [reflexivity|]. split; [split; [by apply flag_reset|done]|]. intros _ _ Hall. apply (Hcov Hall).
Qed.

(** A lookup answers from the map, or misses what no node covers. *)
Lemma lookup_correct M s et pgofs : tree_inv M s et ->
  exists s' et' r, f2fs_lookup_extent_tree s et pgofs = (s', et', r) /\ tree_inv M s' et' /\
    (root et' = root et /\ largest et' = largest et) /\
    match r with
    | Some e => fofs e <= pgofs < fofs e + len e /\ M pgofs = Some (blk e + (pgofs - fofs e))
    | None => forall n, n ∈ rb_nodes (root et) -> ~ fofs (ei n) <= pgofs < fofs (ei n) + len (ei n)
    end.
Proof.
  intros Hi. pose proof Hi as (Hc & Ho & Hok & [Hlr Hlo])%tree_inv_core. unfold f2fs_lookup_extent_tree.
  assert (Hext : forall e, ext_ok M e -> fofs e <= pgofs < fofs e + len e -> M pgofs = Some (blk e + (pgofs - fofs e))).
  { intros e He Hp. rewrite <-He by lia. f_equal. lia. }
  rewrite u32_small by (destruct Hlr as (? & ? & ? & _); lia).
  destruct ((fofs (largest et) <=? pgofs) && _) eqn:El.
  { exists s, et, (Some (largest et)). conjs; [done|done|done|done|lia|lia|]. apply Hext; [done|lia]. }
  assert (Hr : ranges (rb_nodes (root et))) by (eapply list.Forall_impl; [exact Hok|]; by intros n [? _]).
  assert (Hspec : match f2fs_lookup_rb_tree (root et) (cached_node et) pgofs with
    | Some n => n ∈ rb_nodes (root et) /\ fofs (ei n) <= pgofs < fofs (ei n) + len (ei n)
    | None => forall n, n ∈ rb_nodes (root et) -> ~ fofs (ei n) <= pgofs < fofs (ei n) + len (ei n) end).
  { unfold f2fs_lookup_rb_tree, __lookup_rb_tree_fast. pose proof (lookup_slow_spec (root et) 0 pgofs Ho Hr) as Hs.
    destruct (cached_node et) as [re|] eqn:Ec; [|exact Hs]. pose proof (cached_node_in s et re Hc Ec) as Hin.
    pose proof (proj1 (list.Forall_forall _ _) Hr re Hin) as Hrr. rewrite extent_end_eq by exact Hrr.
    destruct ((fofs (ei re) <=? pgofs) && _) eqn:E; [split; [done|lia]|exact Hs]. }
  destruct (f2fs_lookup_rb_tree _ _ _) as [n|]; [|by exists s, et, None].
  destruct Hspec as [Hin Hp]. pose proof (proj1 (list.Forall_forall _ _) Hok n Hin) as [_ Hno].
  destruct (core_touch s et (en_id n) Hc) as (Hc' & Er & Elg); [by apply list_elem_of_fmap_2|].
  destruct (touch_node s et (en_id n)) as [s' et']. cbn [fst snd] in *. exists s', et', (Some (ei n)). split; [done|].
  split; [|split; [done|split; [done|by apply Hext]]]. apply tree_inv_core. rewrite Er. conjs; try done. unfold largest_ok. by rewrite Elg.
Qed.

(** after an update of the extent cache for a range of blocks, a lookup of
    any offset in the range reports the new addresses, never the old ones: it
    misses when the range was dropped, and otherwise it misses or names the
    new block of the offset; it does not miss when node allocation succeeds
    and the inode keeps extents. *)
Theorem update_then_lookup M s et no_extent f b l i :
  inode_inv M s et no_extent -> 0 <= f -> 0 < l -> f + l < 2 ^ 32 -> 0 <= b -> b + l < 2 ^ 32 -> 0 <= i < l ->
  exists s1 et1 no_extent' dirty s2 et2 r,
    f2fs_update_extent_tree_range kmem s et no_extent f b l = Some (s1, et1, no_extent', dirty) /\
    f2fs_lookup_extent_tree s1 et1 (f + i) = (s2, et2, r) /\
    match r with
    | Some e => b <> 0 /\ fofs e <= f + i < fofs e + len e /\ blk e + (f + i - fofs e) = b + i
    | None => b <> 0 -> (forall k, kmem k = true) -> no_extent' = true
    end.
Proof.
  intros Hi Hf Hl Hfl Hb Hbl Hr. destruct (update_refines M s et no_extent f b l) as (s1 & et1 & ne & d & Eu & [Hi1 _] & Hcov); [done..|].
  destruct (lookup_correct (remap M f b l) s1 et1 (f + i) Hi1) as (s2 & et2 & r & El & _ & _ & Hr2).
  exists s1, et1, ne, d, s2, et2, r. split; [done|]. split; [done|]. destruct r as [e|].
  - destruct Hr2 as [Hin HM]. unfold remap in HM.
    destruct ((f <=? f + i) && (f + i <? f + l)) eqn:Ein; [|lia]. destruct (b =? 0) eqn:Eb; [done|]. injection HM as HM. lia.
  - intros Hb0 Hall. destruct ne; [done|]. exfalso. destruct (Hcov eq_refl Hb0 Hall) as (n & Hn & H1 & H2). cbn in H1, H2.
    apply (Hr2 n Hn). lia.
Qed.
End update_thms.
End frame.
