(* ===== verification/ExtentInode.v ===== *)
(** * The extent caches of a mounted file system (extent_cache.c, inode.c)

    The trees of all inodes live in one radix tree and their nodes on one
    list in order of use.  A tree outlives its inode as a zombie until the
    shrinker frees it or the inode is read again.  This file models the calls
    that create, use, drop and shrink the trees. *)

From S2P Require Import Prelude NodePath ExtentTree ExtentCache.

(** The extent in the raw inode. *)
Record f2fs_extent := { x_fofs : Z; x_blk : Z; x_len : Z }.

(** [get_extent_info] does not assign [c_len]: it keeps what was on the stack. *)
Definition get_extent_info (stack : Z) (i_ext : f2fs_extent) : extent_info :=
  {| fofs := x_fofs i_ext; len := x_len i_ext; blk := x_blk i_ext; c_len := stack |}.

Definition set_raw_extent (e : extent_info) : f2fs_extent := {| x_fofs := fofs e; x_blk := blk e; x_len := len e |}.

Record ext_opts := { EXTENT_CACHE : bool; sb_has_readonly : bool; s_list_empty : bool }.

(** The fields of an inode in memory the extent cache reads. *)
Record ext_inode := { xi_ino : Z; S_ISREG : bool; FI_COMPRESSED_FILE : bool; FI_NO_EXTENT : bool; xi_tree : bool }.

Definition set_no_extent (i : ext_inode) (b : bool) : ext_inode :=
  {| xi_ino := xi_ino i; S_ISREG := S_ISREG i; FI_COMPRESSED_FILE := FI_COMPRESSED_FILE i; FI_NO_EXTENT := b; xi_tree := xi_tree i |}.
Definition set_tree (i : ext_inode) (b : bool) : ext_inode :=
  {| xi_ino := xi_ino i; S_ISREG := S_ISREG i; FI_COMPRESSED_FILE := FI_COMPRESSED_FILE i; FI_NO_EXTENT := FI_NO_EXTENT i; xi_tree := b |}.

Definition f2fs_may_extent_tree (o : ext_opts) (i : ext_inode) : bool :=
  if negb (EXTENT_CACHE o) || FI_NO_EXTENT i || (FI_COMPRESSED_FILE i && negb (sb_has_readonly o)) then false
  else if s_list_empty o then false
  else S_ISREG i.

(** The extent cache part of [struct f2fs_sb_info]: [extent_tree_root] maps
    inode numbers to trees, [zombie_list] names trees by inode number. *)
Record ext_fs := {
  fs_s : ext_sbi; extent_tree_root : gmap Z extent_tree; zombie_list : list Z;
  total_ext_tree : Z; total_zombie_tree : Z
}.

Definition f2fs_init_extent_cache_info (allocs : nat) : ext_fs :=
  {| fs_s := {| extent_list := []; total_ext_node := 0; ext_allocs := allocs |}; extent_tree_root := ∅; zombie_list := [];
     total_ext_tree := 0; total_zombie_tree := 0 |}.

(** The state with the node list and the tree of one inode replaced. *)
Definition set_inode_tree (fs : ext_fs) (s : ext_sbi) (ino : Z) (et : extent_tree) : ext_fs :=
  {| fs_s := s; extent_tree_root := <[ino := et]> (extent_tree_root fs); zombie_list := zombie_list fs;
     total_ext_tree := total_ext_tree fs; total_zombie_tree := total_zombie_tree fs |}.

(** A tree after [memset]. *)
Definition new_extent_tree : extent_tree :=
  {| root := RB_NULL; cached_en := None; largest := {| fofs := 0; len := 0; blk := 0; c_len := 0 |};
     largest_updated := false; node_cnt := 0 |}.

(** [__grab_extent_tree]: the allocations retry until they succeed. *)
Definition __grab_extent_tree (fs : ext_fs) (ino : Z) : ext_fs :=
  match extent_tree_root fs !! ino with
  | None => {| fs_s := fs_s fs; extent_tree_root := <[ino := new_extent_tree]> (extent_tree_root fs);
               zombie_list := zombie_list fs; total_ext_tree := total_ext_tree fs + 1;
               total_zombie_tree := total_zombie_tree fs |}
  | Some _ => {| fs_s := fs_s fs; extent_tree_root := extent_tree_root fs;
                 zombie_list := filter (fun z => z <> ino) (zombie_list fs);
                 total_ext_tree := total_ext_tree fs; total_zombie_tree := total_zombie_tree fs - 1 |}
  end.

Section calls.
Context `{RbTree} (kmem : nat -> bool) (o : ext_opts).

(** [__f2fs_init_extent_tree]: [i_ext] is the extent of the inode page, when
    there is a page; the result has the extent that the page holds then. *)
Definition __f2fs_init_extent_tree (stack : Z) (fs : ext_fs) (i : ext_inode) (i_ext : option f2fs_extent)
    : option (ext_fs * ext_inode * option f2fs_extent) :=
  if negb (f2fs_may_extent_tree o i) then
    match i_ext with
    | Some x => if negb (x_len x =? 0) then Some (fs, i, Some {| x_fofs := x_fofs x; x_blk := x_blk x; x_len := 0 |})
                else Some (fs, i, i_ext)
    | None => Some (fs, i, i_ext)
    end
  else
    let fs := __grab_extent_tree fs (xi_ino i) in
    let i := set_tree i true in
    match i_ext with
    | None => Some (fs, i, i_ext)
    | Some x =>
        if x_len x =? 0 then Some (fs, i, i_ext)
        else
          et ← extent_tree_root fs !! xi_ino i;
          if negb (node_cnt et =? 0) then Some (fs, i, i_ext)
          else
            let '(s, et, en) := __init_extent_tree kmem (fs_s fs) et (get_extent_info stack x) in
            match en with
            | None => Some (set_inode_tree fs s (xi_ino i) et, i, i_ext)
            | Some en =>
                l ← list_add_tail (en_id en) (extent_list s);
                Some (set_inode_tree fs {| extent_list := l; total_ext_node := total_ext_node s; ext_allocs := ext_allocs s |}
                                     (xi_ino i) et, i, i_ext)
            end
    end.

Definition f2fs_init_extent_tree (stack : Z) (fs : ext_fs) (i : ext_inode) (i_ext : option f2fs_extent)
    : option (ext_fs * ext_inode * option f2fs_extent) :=
  '(fs, i, i_ext) ← __f2fs_init_extent_tree stack fs i i_ext;
  Some (fs, if negb (xi_tree i) then set_no_extent i true else i, i_ext).

(** The tree of an inode through its pointer. *)
Definition inode_tree (fs : ext_fs) (i : ext_inode) : option extent_tree :=
  if xi_tree i then extent_tree_root fs !! xi_ino i else None.

(** No result is the trap on a missing tree. *)
Definition f2fs_lookup_extent_cache (fs : ext_fs) (i : ext_inode) (pgofs : Z) : option (ext_fs * option extent_info) :=
  if negb (f2fs_may_extent_tree o i) then Some (fs, None)
  else
    et ← inode_tree fs i;
    let '(s, et, r) := f2fs_lookup_extent_tree (fs_s fs) et pgofs in
    Some (set_inode_tree fs s (xi_ino i) et, r).

(** The flag tells whether the inode is marked dirty. *)
Definition f2fs_update_extent_cache_range (fs : ext_fs) (i : ext_inode) (f blkaddr l : Z)
    : option (ext_fs * ext_inode * bool) :=
  if negb (f2fs_may_extent_tree o i) then Some (fs, i, false)
  else
    match inode_tree fs i with
    | None => Some (fs, i, false)
    | Some et =>
        '(s, et, no_extent, updated) ← f2fs_update_extent_tree_range kmem (fs_s fs) et (FI_NO_EXTENT i) f blkaddr l;
        Some (set_inode_tree fs s (xi_ino i) et, set_no_extent i no_extent, updated)
    end.

(** [f2fs_update_extent_cache] for the block [ofs_in_node] of the node
    [node_ofs]; [NEW_ADDR] is the address of a reserved block. *)
Definition f2fs_update_extent_cache `{F2fsFsNode} (NEW_ADDR : Z) (fs : ext_fs) (i : ext_inode) (n : node_inode)
    (node_ofs ofs_in_node data_blkaddr : Z) : option (ext_fs * ext_inode * bool) :=
  if negb (f2fs_may_extent_tree o i) then Some (fs, i, false)
  else
    let blkaddr := if data_blkaddr =? NEW_ADDR then 0 else data_blkaddr in
    let f := f2fs_start_bidx_of_node node_ofs n + ofs_in_node in
    f2fs_update_extent_cache_range fs i f blkaddr 1.

Definition f2fs_destroy_extent_node (fs : ext_fs) (i : ext_inode) : option (ext_fs * Z) :=
  match inode_tree fs i with
  | None => Some (fs, 0)
  | Some et =>
      if node_cnt et =? 0 then Some (fs, 0)
      else '(s, et, n) ← __free_extent_tree (fs_s fs) et; Some (set_inode_tree fs s (xi_ino i) et, n)
  end.

(** [f2fs_drop_extent_tree]: the flag tells whether the inode is marked dirty;
    no result is the null pointer of an inode without tree. *)
Definition f2fs_drop_extent_tree (fs : ext_fs) (i : ext_inode) : option (ext_fs * ext_inode * bool) :=
  if negb (f2fs_may_extent_tree o i) then Some (fs, i, false)
  else
    let i := set_no_extent i true in
    et ← inode_tree fs i;
    '(s, et, _) ← __free_extent_tree (fs_s fs) et;
    let updated := negb (len (largest et) =? 0) in
    let et := if updated then set_largest et (with_len (largest et) 0) (largest_updated et) else et in
    Some (set_inode_tree fs s (xi_ino i) et, i, updated).

(** Removing the tree of an inode from the radix tree and freeing it; the trap
    is on nodes that are left. *)
Definition delete_tree (fs : ext_fs) (ino : Z) : option ext_fs :=
  et ← extent_tree_root fs !! ino;
  if negb (node_cnt et =? 0) then None
  else Some {| fs_s := fs_s fs; extent_tree_root := delete ino (extent_tree_root fs); zombie_list := zombie_list fs;
               total_ext_tree := total_ext_tree fs - 1; total_zombie_tree := total_zombie_tree fs |}.

Definition f2fs_destroy_extent_tree (fs : ext_fs) (i : ext_inode) (i_nlink : Z) (is_bad_inode : bool)
    : option (ext_fs * ext_inode) :=
  match inode_tree fs i with
  | None => Some (fs, i)
  | Some et =>
      if negb (i_nlink =? 0) && negb is_bad_inode && negb (node_cnt et =? 0) then
        l ← list_add_tail (xi_ino i) (zombie_list fs);
        Some ({| fs_s := fs_s fs; extent_tree_root := extent_tree_root fs; zombie_list := l;
                 total_ext_tree := total_ext_tree fs; total_zombie_tree := total_zombie_tree fs + 1 |}, i)
      else
        '(fs, _) ← f2fs_destroy_extent_node fs i;
        fs ← delete_tree fs (xi_ino i);
        Some (fs, set_tree i false)
  end.

(** The first loop of [f2fs_shrink_extent_tree], over the zombies; the flag
    tells that enough was freed. *)
Fixpoint shrink_zombies (zs : list Z) (nr_shrink : Z) (fs : ext_fs) (node_cnt_ tree_cnt : Z) : option (ext_fs * Z * Z * bool) :=
  match zs with
  | [] => Some (fs, node_cnt_, tree_cnt, false)
  | z :: zs =>
      et ← extent_tree_root fs !! z;
      '(fs, node_cnt_) ← (if negb (node_cnt et =? 0)
                          then '(s, et, n) ← __free_extent_tree (fs_s fs) et; Some (set_inode_tree fs s z et, node_cnt_ +! n)
                          else Some (fs, node_cnt_));
      fs ← delete_tree fs z;
      l ← list_del z (zombie_list fs);
      let fs := {| fs_s := fs_s fs; extent_tree_root := extent_tree_root fs; zombie_list := l;
                   total_ext_tree := total_ext_tree fs; total_zombie_tree := total_zombie_tree fs - 1 |} in
      let tree_cnt := tree_cnt +! 1 in
      if u32 nr_shrink <=? node_cnt_ +! tree_cnt then Some (fs, node_cnt_, tree_cnt, true)
      else shrink_zombies zs nr_shrink fs node_cnt_ tree_cnt
  end.

(** The tree a node belongs to ([en->et]). *)
Definition node_tree (fs : ext_fs) (id : Z) : option (Z * extent_tree) :=
  p ← list_find (fun p : Z * extent_tree => id ∈ en_id <$> rb_nodes (root p.2)) (map_to_list (extent_tree_root fs));
  Some p.2.

(** The second loop, over the least recently used nodes; [trylock k] is
    whether the lock of the tree is free [k] iterations before the end. *)
Fixpoint shrink_nodes (remained : nat) (trylock : nat -> bool) (fs : ext_fs) (node_cnt_ : Z) : option (ext_fs * Z) :=
  match remained with
  | O => Some (fs, node_cnt_)
  | S remained =>
      let s := fs_s fs in
      match extent_list s with
      | [] => Some (fs, node_cnt_)
      | id :: _ =>
          '(ino, et) ← node_tree fs id;
          if negb (trylock remained) then
            let l := filter (fun j => j <> id) (extent_list s) ++ [id] in
            shrink_nodes remained trylock
              {| fs_s := {| extent_list := l; total_ext_node := total_ext_node s; ext_allocs := ext_allocs s |};
                 extent_tree_root := extent_tree_root fs; zombie_list := zombie_list fs;
                 total_ext_tree := total_ext_tree fs; total_zombie_tree := total_zombie_tree fs |} node_cnt_
          else
            '(s, et) ← __release_extent_node s et id;
            shrink_nodes remained trylock (set_inode_tree fs s ino et) (node_cnt_ +! 1)
      end
  end.

(** [f2fs_shrink_extent_tree]: [lock1] and [lock2] are the results of the two
    attempts to take [extent_tree_lock]. *)
Definition f2fs_shrink_extent_tree (lock1 lock2 : bool) (trylock : nat -> bool) (fs : ext_fs) (nr_shrink : Z) : option (ext_fs * Z) :=
  if negb (EXTENT_CACHE o) then Some (fs, 0)
  else if negb (total_zombie_tree fs =? 0) && negb lock1 then Some (fs, 0)
  else
    '(fs, n, t, enough) ← (if negb (total_zombie_tree fs =? 0) then shrink_zombies (zombie_list fs) nr_shrink fs 0 0
                           else Some (fs, 0, 0, false));
    if (enough : bool) || negb lock2 then Some (fs, n +! t)
    else
      '(fs, n) ← shrink_nodes (Z.to_nat (nr_shrink - (n + t))) trylock fs n;
      Some (fs, n +! t).

(** The part of [f2fs_update_inode] that stores the largest extent. *)
Definition update_inode_extent (fs : ext_fs) (i : ext_inode) : f2fs_extent :=
  match inode_tree fs i with
  | Some et => set_raw_extent (largest et)
  | None => {| x_fofs := 0; x_blk := 0; x_len := 0 |}
  end.
End calls.

(** ** All trees against the block maps of their inodes *)

Definition ids (et : extent_tree) : list Z := en_id <$> rb_nodes (root et).

(** One tree by itself. *)
Record local_inv (M : bmap) (et : extent_tree) : Prop := {
  lo_ordered : ordered 0 (rb_nodes (root et));
  lo_ok : nodes_ok M (rb_nodes (root et));
  lo_largest : largest_ok M et;
  lo_ids : NoDup (ids et);
  lo_cached : forall i, cached_en et = Some i -> exists n, n ∈ rb_nodes (root et) /\ en_id n = i;
  lo_cnt : node_cnt et = Z.of_nat (length (rb_nodes (root et)))
}.

(** The node list holds the nodes of all trees, once each. *)
Record trees_inv (M : Z -> bmap) (fs : ext_fs) : Prop := {
  gi_local : forall ino et, extent_tree_root fs !! ino = Some et -> local_inv (M ino) et;
  gi_list : NoDup (extent_list (fs_s fs));
  gi_fresh : forall i, i ∈ extent_list (fs_s fs) -> i < Z.of_nat (ext_allocs (fs_s fs));
  gi_total : total_ext_node (fs_s fs) = Z.of_nat (length (extent_list (fs_s fs)));
  gi_in : forall i, i ∈ extent_list (fs_s fs) <-> exists ino et, extent_tree_root fs !! ino = Some et /\ i ∈ ids et;
  gi_disjoint : forall ino1 et1 ino2 et2 i, extent_tree_root fs !! ino1 = Some et1 -> extent_tree_root fs !! ino2 = Some et2 ->
    i ∈ ids et1 -> i ∈ ids et2 -> ino1 = ino2;
  gi_trees : total_ext_tree fs = Z.of_nat (size (extent_tree_root fs))
}.

(** The nodes of the other trees. *)
Definition foreign (fs : ext_fs) (ino i : Z) : Prop :=
  exists j et, j <> ino /\ extent_tree_root fs !! j = Some et /\ i ∈ ids et.

Lemma trees_tree M fs ino et : trees_inv M fs -> extent_tree_root fs !! ino = Some et ->
  tree_inv (foreign fs ino) (M ino) (fs_s fs) et.
Proof.
  intros Hg He. destruct (gi_local _ _ Hg ino et He). constructor; try done; try apply Hg.
  - intros n Hn. apply (gi_in _ _ Hg). exists ino, et. split; [done|]. by apply list_elem_of_fmap_2.
  - intros i Hi. apply (gi_in _ _ Hg) in Hi as (j & et' & Hj & Hi). destruct (decide (j = ino)) as [->|Hne].
    + left. rewrite He in Hj. by injection Hj as <-.
    + right. by exists j, et'.
  - intros i (j & et' & Hne & Hj & Hi). split; [apply (gi_in _ _ Hg); by exists j, et'|].
    intros Hi'. apply Hne. by eapply gi_disjoint.
Qed.

Lemma tree_local F M s et : tree_inv F M s et -> local_inv M et.
Proof. intros []. by constructor. Qed.

(** Replacing the tree of one inode, and its map, keeps the others. *)
Lemma trees_set M M' fs s ino et et' : trees_inv M fs -> extent_tree_root fs !! ino = Some et ->
  tree_inv (foreign fs ino) (M' ino) s et' -> (forall j, j <> ino -> M' j = M j) ->
  trees_inv M' (set_inode_tree fs s ino et').
Proof.
  intros Hg He Ht HM. assert (Hl : forall j t, (<[ino := et']> (extent_tree_root fs)) !! j = Some t ->
    j = ino /\ t = et' \/ j <> ino /\ extent_tree_root fs !! j = Some t).
  { intros j t [[<- <-]|[? ?]]%lookup_insert_Some; [by left|right; by split]. }
  constructor; cbn [set_inode_tree fs_s extent_tree_root total_ext_tree]; try (apply Ht).
  - intros j t [[-> ->]|[Hne Hj]]%Hl; [by eapply tree_local|]. rewrite HM by done. by apply Hg.
  - intros i. split.
    + intros [Hi|(j & t & Hne & Hj & Hi)]%(ti_only _ _ _ _ Ht); [exists ino, et'|exists j, t]; [by rewrite lookup_insert_eq|].
      by rewrite lookup_insert_ne.
    + intros (j & t & [[-> ->]|[Hne Hj]]%Hl & Hi).
      * apply list_elem_of_fmap in Hi as (n & -> & Hn). by apply (ti_listed _ _ _ _ Ht).
      * apply (ti_frame _ _ _ _ Ht). by exists j, t.
  - assert (Hx : forall j t i, j <> ino -> extent_tree_root fs !! j = Some t -> i ∈ ids t -> i ∉ ids et').
    { intros j t i Hne Hj Hi. apply (ti_frame _ _ _ _ Ht). by exists j, t. }
    intros j1 t1 j2 t2 i [[-> ->]|[Hne1 H1]]%Hl [[-> ->]|[Hne2 H2]]%Hl I1 I2; [done| | |by eapply (gi_disjoint _ _ Hg)].
    + by destruct (Hx j2 t2 i).
    + by destruct (Hx j1 t1 i).
  - rewrite map_size_insert_Some by (by rewrite He). apply Hg.
Qed.

(** A fresh tree is empty and agrees with every map. *)
Lemma new_tree_local M : local_inv M new_extent_tree.
Proof.
  constructor; try done; [apply list.Forall_nil; done| |apply NoDup_nil_2].
  split; [unfold ext_range; cbn; lia|]. intros i Hi. cbn in Hi. lia.
Qed.

Lemma trees_new M fs ino : trees_inv M fs -> extent_tree_root fs !! ino = None ->
  trees_inv M {| fs_s := fs_s fs; extent_tree_root := <[ino := new_extent_tree]> (extent_tree_root fs);
                 zombie_list := zombie_list fs; total_ext_tree := total_ext_tree fs + 1;
                 total_zombie_tree := total_zombie_tree fs |}.
Proof.
  intros Hg Hn. assert (Hl : forall j t i, (<[ino := new_extent_tree]> (extent_tree_root fs)) !! j = Some t -> i ∈ ids t ->
    extent_tree_root fs !! j = Some t).
  { intros j t i [[<- <-]|[? ?]]%lookup_insert_Some Hi; [by apply elem_of_nil in Hi|done]. }
  constructor; cbn [fs_s extent_tree_root total_ext_tree]; try apply Hg.
  - intros j t [[<- <-]|[? ?]]%lookup_insert_Some; [apply new_tree_local|by apply Hg].
  - intros i. rewrite (gi_in _ _ Hg). split.
    + intros (j & t & Hj & Hi). exists j, t. split; [|done]. rewrite lookup_insert_ne; [done|]. intros ->. congruence.
    + intros (j & t & Hj & Hi). exists j, t. split; [|done]. by eapply Hl.
  - intros j1 t1 j2 t2 i H1 H2 I1 I2. eapply (gi_disjoint _ _ Hg); [by eapply Hl|by eapply Hl|done|done].
  - rewrite map_size_insert_None by done. rewrite (gi_trees _ _ Hg). lia.
Qed.

(** Deleting an empty tree. *)
Lemma trees_delete M fs ino et : trees_inv M fs -> extent_tree_root fs !! ino = Some et -> node_cnt et = 0 ->
  exists fs', delete_tree fs ino = Some fs' /\ trees_inv M fs' /\ extent_tree_root fs' = delete ino (extent_tree_root fs) /\
    zombie_list fs' = zombie_list fs /\ total_zombie_tree fs' = total_zombie_tree fs /\ fs_s fs' = fs_s fs.
Proof.
  intros Hg He Hc. unfold delete_tree. rewrite He. cbn [mbind option_bind]. rewrite Hc. cbn [Z.eqb negb].
  eexists. split; [reflexivity|]. conjs; try done.
  assert (Hnil : ids et = []).
  { pose proof (lo_cnt _ _ (gi_local _ _ Hg ino et He)) as Hcnt. unfold ids. destruct (rb_nodes (root et)); [done|]. cbn in Hcnt. lia. }
  constructor; cbn [fs_s extent_tree_root total_ext_tree]; try apply Hg.
  - intros j t [_ Hj]%lookup_delete_Some. by apply Hg.
  - intros i. rewrite (gi_in _ _ Hg). split.
    + intros (j & t & Hj & Hi). exists j, t. split; [|done]. apply lookup_delete_Some. split; [|done].
      intros ->. rewrite He in Hj. injection Hj as <-. rewrite Hnil in Hi. by apply elem_of_nil in Hi.
    + intros (j & t & [_ Hj]%lookup_delete_Some & Hi). by exists j, t.
  - intros j1 t1 j2 t2 i [_ H1]%lookup_delete_Some [_ H2]%lookup_delete_Some. by eapply (gi_disjoint _ _ Hg).
  - rewrite map_size_delete_Some by (by rewrite He). rewrite (gi_trees _ _ Hg).
    pose proof (map_size_ne_0_lookup_2 (extent_tree_root fs) ino ltac:(by rewrite He)). lia.
Qed.

(** ** Effects of the calls on one tree *)

Section tree_effects.
Context `{RbTree} (kmem : nat -> bool) (F : Z -> Prop).

Lemma free_nodes_allocs ns : forall s et s' et', free_nodes ns s et = Some (s', et') -> ext_allocs s' = ext_allocs s.
Proof.
  induction ns as [|n ns IH]; intros s et s' et' E; [by injection E as <- <-|].
  cbn [free_nodes] in E. unfold __release_extent_node in E. destruct (list_del _ _); [|done]. cbn [mbind option_bind] in E.
  unfold __detach_extent_node in E. apply IH in E. done.
Qed.

Lemma free_tree M s et : tree_inv F M s et ->
  exists s' et', __free_extent_tree s et = Some (s', et', u32 (node_cnt et)) /\ tree_inv F M s' et' /\
    rb_nodes (root et') = [] /\ node_cnt et' = 0 /\ largest et' = largest et /\ ext_allocs s' = ext_allocs s.
Proof.
  intros (Hc & _ & _ & Hlg)%tree_inv_core. destruct (free_nodes_core F _ s et Hc eq_refl) as (s' & et' & E & Hc' & En & El).
  assert (Hcnt : node_cnt et' = 0) by (rewrite (co_cnt _ _ _ Hc'), En; done).
  exists s', et'. unfold __free_extent_tree. rewrite E. cbn [mbind option_bind]. rewrite Hcnt, Z.sub_0_r.
  conjs; try done.
  - apply tree_inv_core. rewrite En. conjs; try done; [by apply list.Forall_nil|]. unfold largest_ok. by rewrite El.
  - by eapply free_nodes_allocs.
Qed.

Lemma core_ext s et et' : core F s et -> root et' = root et -> cached_en et' = cached_en et -> node_cnt et' = node_cnt et -> core F s et'.
Proof. intros [] Hr Hca Hn. constructor; rewrite ?Hr, ?Hca, ?Hn; done. Qed.

(** The first node of an empty tree, from the extent of the inode page. *)
Lemma init_tree M s et e : tree_inv F M s et -> node_cnt et = 0 -> ext_range e -> ext_ok M e -> 0 < len e ->
  kmem (ext_allocs s) = true ->
  exists s1 et1 en l, __init_extent_tree kmem s et e = (s1, et1, Some en) /\ list_add_tail (en_id en) (extent_list s1) = Some l /\
    tree_inv F M {| extent_list := l; total_ext_node := total_ext_node s1; ext_allocs := ext_allocs s1 |} et1 /\
    largest et1 = e.
Proof.
  intros (Hc & Ho & Hok & Hlg)%tree_inv_core Hz Hr Hoe Hlen Hk.
  assert (En : rb_nodes (root et) = []).
  { pose proof (co_cnt _ _ _ Hc) as Hcnt. destruct (rb_nodes (root et)); [done|]. cbn in Hcnt. lia. }
  destruct (core_insert F kmem s et [] [] e (Some 0%nat) Hc En) as (s' & et' & r & Ei & Hc' & Hres); [by left|].
  unfold __insert_extent_tree, __init_extent_tree, __attach_extent_node in *. rewrite Hk in *. cbn [mbind option_bind] in *.
  destruct (list_add_tail _ _) as [l|] eqn:El; [|done]. cbn [mbind option_bind] in Ei. injection Ei as <- <- <-.
  do 4 eexists. split; [reflexivity|]. split; [exact El|]. split; [|done].
  destruct Hres as [(? & _)|(n & [= <-] & _ & Hn & _)]; [done|].
  cbn [set_cached root] in Hn. rewrite root_try_largest in Hn. cbn [set_cnt set_root root] in Hn.
  apply tree_inv_core. cbn [set_cached set_largest set_cnt set_root root]. rewrite Hn. conjs.
  - eapply core_ext; [exact Hc'|..]; cbn [set_cached set_largest set_cnt set_root root cached_en node_cnt]; [by rewrite root_try_largest|done|].
    unfold __try_update_largest_extent. by destruct (_ <? _).
  - cbn. conjs; [apply Hr|done|done].
  - apply list.Forall_singleton. done.
  - done.
Qed.

(** The release of one node. *)
Lemma release_tree M s et id : tree_inv F M s et -> id ∈ ids et ->
  exists s' et', __release_extent_node s et id = Some (s', et') /\ tree_inv F M s' et' /\ largest et' = largest et /\
    extent_list s' = filter (fun j => j <> id) (extent_list s).
Proof.
  intros (Hc & Ho & Hok & Hlg)%tree_inv_core (n & -> & Hn)%list_elem_of_fmap.
  apply list_elem_of_split in Hn as (A & C & E). destruct (core_release F s et A n C Hc E) as (s' & et' & Er & Hc' & En & El & _).
  exists s', et'. conjs; try done.
  - apply tree_inv_core. rewrite En. rewrite E in Ho, Hok. conjs; [done| | |unfold largest_ok; by rewrite El].
    + apply (pieces_ordered A n C []); [done|done|]. apply ordered_around in Ho as (_ & ? & _). cbn. lia.
    + by apply (pieces_ok M A n C []).
  - unfold __release_extent_node, list_del in Er. destruct (decide _); [|done]. cbn in Er. by injection Er as <- _.
Qed.
End tree_effects.

(** ** The largest extent changes only with [largest_updated] *)

Definition tracks (et et' : extent_tree) : Prop :=
  largest_updated et' = true \/ largest et' = largest et /\ largest_updated et' = largest_updated et.

Lemma tracks_refl et : tracks et et.
Proof. by right. Qed.
Lemma tracks_trans et1 et2 et3 : tracks et1 et2 -> tracks et2 et3 -> tracks et1 et3.
Proof. unfold tracks. intros [H1|[H1 H2]] [H3|[H3 H4]]; [by left|left; congruence|by left|right; split; congruence]. Qed.

#[export] Instance tracks_preorder : PreOrder tracks.
Proof. split; [exact tracks_refl|exact tracks_trans]. Qed.

Create HintDb tracks.
#[export] Hint Resolve tracks_refl : tracks.

Lemma tracks_root et t : tracks et (set_root et t).
Proof. by right. Qed.
Lemma tracks_try et e : tracks et (__try_update_largest_extent et e).
Proof. unfold __try_update_largest_extent. destruct (_ <? _); [by left|by right]. Qed.
Lemma tracks_drop et f l : tracks et (__drop_largest_extent et f l).
Proof. unfold __drop_largest_extent. destruct (_ && _); [by left|by right]. Qed.
Lemma tracks_touch s et id : tracks et (touch_node s et id).2.
Proof. unfold touch_node. destruct (decide _); by right. Qed.

Section tracks.
Context `{RbTree} (kmem : nat -> bool).

Lemma tracks_release s et id s' et' : __release_extent_node s et id = Some (s', et') -> tracks et et'.
Proof.
  unfold __release_extent_node, __detach_extent_node. destruct (list_del _ _); [|done]. cbn [mbind option_bind].
  intros [= _ <-]. destruct (decide _); by right.
Qed.

Lemma tracks_free_nodes ns : forall s et s' et', free_nodes ns s et = Some (s', et') -> tracks et et'.
Proof.
  induction ns as [|n ns IH]; intros s et s' et' E; [injection E as _ <-; reflexivity|]. cbn [free_nodes] in E.
  destruct (__release_extent_node s et (en_id n)) as [[s1 et1]|] eqn:E1; [|done]. cbn [mbind option_bind] in E.
  etransitivity; [by eapply tracks_release|by eapply IH].
Qed.

Lemma tracks_free s et s' et' c : __free_extent_tree s et = Some (s', et', c) -> tracks et et'.
Proof.
  unfold __free_extent_tree. destruct (free_nodes _ _ _) as [[s1 et1]|] eqn:E; [|done]. cbn [mbind option_bind].
  intros [= _ <- _]. by eapply tracks_free_nodes.
Qed.

Lemma tracks_insert s et e p s' et' r : __insert_extent_tree kmem s et e p = Some (s', et', r) -> tracks et et'.
Proof.
  unfold __insert_extent_tree. destruct (match p with Some _ => _ | None => _ end) as [k|]; [|done]. cbn [mbind option_bind].
  unfold __attach_extent_node. destruct (kmem _).
  - destruct (list_add_tail _ _); [|done]. cbn [mbind option_bind]. intros [= _ <- _].
    unfold __try_update_largest_extent. destruct (_ <? _); [by left|by right].
  - intros [= _ <- _]. reflexivity.
Qed.

Lemma tracks_merge s et e prev next s' et' m : __try_merge_extent_node s et e prev next = Some (s', et', m) -> tracks et et'.
Proof.
  unfold __try_merge_extent_node. intros E.
  destruct (match prev with Some p => _ | None => _ end) as [[et1 e1] en1] eqn:E1.
  assert (T1 : tracks et et1).
  { destruct prev as [p|]; [destruct (__is_back_mergeable e (ei p))|]; injection E1 as <- <- <-; [apply tracks_root|reflexivity|reflexivity]. }
  destruct (match next with Some n => _ | None => _ end) as [[[s2 et2] en2]|] eqn:E2; [|done]. cbn [mbind option_bind] in E.
  assert (T2 : tracks et1 et2).
  { destruct next as [n|]; [destruct (__is_front_mergeable e1 (ei n))|].
    - destruct en1 as [[q ?]|].
      + destruct (__release_extent_node _ _ _) as [[s3 et3]|] eqn:E3; [|done]. cbn [mbind option_bind] in E2. injection E2 as _ <- _.
        etransitivity; [apply tracks_root|by eapply tracks_release].
      + cbn [mbind option_bind] in E2. injection E2 as _ <- _. apply tracks_root.
    - injection E2 as _ <- _. reflexivity.
    - injection E2 as _ <- _. reflexivity. }
  transitivity et1; [done|]. transitivity et2; [done|]. destruct en2 as [[id e2]|]; [|injection E as _ <- _; reflexivity].
  pose proof (tracks_touch s2 (__try_update_largest_extent et2 e2) id) as T3. destruct (touch_node _ _ _) as [s3 et3].
  injection E as _ <- _. etransitivity; [apply tracks_try|exact T3].
Qed.

Lemma tracks_invalidate pos end_ v en w : invalidate_node kmem pos end_ v en = Some w -> tracks (iv_et v) (iv_et w).
Proof.
  unfold invalidate_node. destruct (_ <=? pos); [done|]. intros E.
  set (left := _ && _) in E. set (right := (end_ <? _) && _) in E.
  assert (T0 : forall n, tracks (iv_et v) (if left then set_root (iv_et v) n else iv_et v)) by (intros n; destruct left; [apply tracks_root|reflexivity]).
  set (et1 := if left then set_root _ _ else _) in E. assert (T1 : tracks (iv_et v) et1) by apply T0. clearbody et1. clear T0.
  set (en1 := if left then set_ei _ _ else _) in E. clearbody en1.
  destruct (if right then (if left then _ ≫= _ else _) else Some _) as [[[[s2 et2] en2] next2]|] eqn:E2; [|done]. cbn [mbind option_bind] in E.
  assert (T2 : tracks et1 et2).
  { destruct right; [|injection E2 as _ <- _ _; reflexivity]. destruct left.
    - destruct (__insert_extent_tree _ _ _ _ _) as [[[s3 et3] r3]|] eqn:E3; [|done]. cbn [mbind option_bind] in E2.
      injection E2 as _ <- _ _. by eapply tracks_insert.
    - injection E2 as _ <- _ _. apply tracks_root. }
  transitivity et1; [done|]. transitivity et2; [done|]. destruct (decide (_ = 0%nat)).
  - destruct (__release_extent_node _ _ _) as [[s3 et3]|] eqn:E3; [|done]. cbn [mbind option_bind] in E. injection E as <-.
    by eapply tracks_release.
  - cbn [mbind option_bind] in E. injection E as <-. apply tracks_try.
Qed.

Lemma tracks_loop fuel pos end_ : forall en v w, invalidate_loop kmem fuel pos end_ en v = Some w -> tracks (iv_et v) (iv_et w).
Proof.
  induction fuel as [|fuel IH]; intros en v w E; [done|]. cbn [invalidate_loop] in E.
  destruct en as [en|]; [|injection E as <-; reflexivity]. destruct (_ <? end_); [|injection E as <-; reflexivity].
  destruct (invalidate_node _ _ _ _ _) as [v1|] eqn:E1; [|done]. cbn [mbind option_bind] in E.
  etransitivity; [by eapply tracks_invalidate|by eapply IH].
Qed.

(** An update that does not mark the inode dirty leaves the largest extent. *)
Lemma update_clean s et ne f b l s' et' ne' : f2fs_update_extent_tree_range kmem s et ne f b l = Some (s', et', ne', false) ->
  largest et' = largest et.
Proof.
  unfold f2fs_update_extent_tree_range. destruct ne; [by intros [= _ <- _]|].
  destruct (invalidate_loop _ _ _ _ _ _) as [v|] eqn:Ev; [|done]. cbn [mbind option_bind].
  apply tracks_loop in Ev. cbn [iv_et] in Ev. assert (T1 : tracks et (iv_et v)) by (etransitivity; [apply tracks_drop|exact Ev]).
  assert (Hend : forall et2, tracks et et2 -> largest_updated et2 = false -> largest et2 = largest et).
  { intros et2 [T|[T _]] Hu; [congruence|done]. }
  destruct (b =? 0); cbn [mbind option_bind].
  { intros [= _ <- _ Hu]. cbn. by apply Hend. }
  destruct (__try_merge_extent_node _ _ _ _ _) as [[[s1 et1] m]|] eqn:Em; [|done]. cbn [mbind option_bind].
  apply tracks_merge in Em. destruct (if m then Some (s1, et1) else _) as [[s2 et2]|] eqn:Ei; [|done]. cbn [mbind option_bind].
  assert (T2 : tracks et et2).
  { transitivity (iv_et v); [done|]. transitivity et1; [done|]. destruct m; [injection Ei as _ <-; reflexivity|].
    destruct (__insert_extent_tree _ _ _ _ _) as [[[s3 et3] r]|] eqn:E3; [|done]. cbn [mbind option_bind] in Ei. injection Ei as _ <-.
    by eapply tracks_insert. }
  destruct (match iv_dei v with Some _ => _ | None => _ end); cbn [mbind option_bind].
  - destruct (__free_extent_tree _ _) as [[[s3 et3] c]|] eqn:E3; [|done]. cbn [mbind option_bind]. intros [= _ <- _ Hu]. cbn.
    apply tracks_free in E3. destruct E3 as [E3|[_ E3]]; [congruence|]. cbn in E3. congruence.
  - intros [= _ <- _ Hu]. cbn. by apply Hend.
Qed.
End tracks.
