(* ===== verification/ExtentSystem.v ===== *)
(** * Histories of the extent caches

    The inodes of a mounted file system are read, created, written, truncated,
    looked up, written back, evicted and deleted, and the shrinker runs, in
    any order.  In every state reached, the caches agree with the block maps
    and no call traps. *)

From S2P Require Import Prelude NodePath ExtentTree ExtentCache ExtentInode.

(** The inodes in memory, the extents in the inode pages, the dirty inodes,
    the inodes that exist, and the block maps. *)
Record world := {
  w_fs : ext_fs; w_live : gmap Z ext_inode; w_disk : Z -> f2fs_extent; w_dirty : Z -> bool; w_exists : Z -> bool;
  w_map : Z -> bmap
}.

Definition upd {A} (f : Z -> A) (k : Z) (v : A) : Z -> A := fun x => if x =? k then v else f x.

Definition no_extent : f2fs_extent := {| x_fofs := 0; x_blk := 0; x_len := 0 |}.

Section system.
Context `{RbTree} (kmem : nat -> bool) (o : ext_opts).
(** The type of each inode, and whether it is compressed: neither changes. *)
Context (reg compressed : Z -> bool).

Definition fresh_inode (ino : Z) : ext_inode :=
  {| xi_ino := ino; S_ISREG := reg ino; FI_COMPRESSED_FILE := compressed ino; FI_NO_EXTENT := false; xi_tree := false |}.

(** One call.  An inode is evicted only when it is clean, and one whose page has an extent is
    read only when the first node of its tree can be allocated (what happens
    otherwise is shown at the end). *)
Inductive w_step : world -> world -> Prop :=
  | ws_iget w ino stack fs i x :
      w_exists w ino = true -> w_live w !! ino = None ->
      (x_len (w_disk w ino) <> 0 -> kmem (ext_allocs (fs_s (w_fs w))) = true) ->
      f2fs_init_extent_tree kmem o stack (w_fs w) (fresh_inode ino) (Some (w_disk w ino)) = Some (fs, i, Some x) ->
      w_step w {| w_fs := fs; w_live := <[ino := i]> (w_live w); w_disk := upd (w_disk w) ino x; w_dirty := upd (w_dirty w) ino false;
                  w_exists := w_exists w; w_map := w_map w |}
  | ws_new w ino stack fs i x :
      w_exists w ino = false ->
      f2fs_init_extent_tree kmem o stack (w_fs w) (fresh_inode ino) None = Some (fs, i, x) ->
      w_step w {| w_fs := fs; w_live := <[ino := i]> (w_live w); w_disk := upd (w_disk w) ino no_extent; w_dirty := upd (w_dirty w) ino true;
                  w_exists := upd (w_exists w) ino true; w_map := upd (w_map w) ino (fun _ => None) |}
  | ws_lookup w ino i pgofs fs r :
      w_live w !! ino = Some i -> f2fs_lookup_extent_cache o (w_fs w) i pgofs = Some (fs, r) ->
      w_step w {| w_fs := fs; w_live := w_live w; w_disk := w_disk w; w_dirty := w_dirty w; w_exists := w_exists w; w_map := w_map w |}
  | ws_update w ino i f b l fs i' d :
      w_live w !! ino = Some i -> 0 <= f -> 0 < l -> f + l < 2 ^ 32 -> 0 <= b -> b + l < 2 ^ 32 ->
      f2fs_update_extent_cache_range kmem o (w_fs w) i f b l = Some (fs, i', d) ->
      w_step w {| w_fs := fs; w_live := <[ino := i']> (w_live w); w_disk := w_disk w; w_dirty := upd (w_dirty w) ino (w_dirty w ino || d);
                  w_exists := w_exists w; w_map := upd (w_map w) ino (remap (w_map w ino) f b l) |}
  | ws_drop w ino i fs i' d :
      w_live w !! ino = Some i -> f2fs_drop_extent_tree o (w_fs w) i = Some (fs, i', d) ->
      w_step w {| w_fs := fs; w_live := <[ino := i']> (w_live w); w_disk := w_disk w; w_dirty := upd (w_dirty w) ino (w_dirty w ino || d);
                  w_exists := w_exists w; w_map := w_map w |}
  | ws_write w ino i :
      w_live w !! ino = Some i ->
      w_step w {| w_fs := w_fs w; w_live := w_live w; w_disk := upd (w_disk w) ino (update_inode_extent (w_fs w) i);
                  w_dirty := upd (w_dirty w) ino false; w_exists := w_exists w; w_map := w_map w |}
  | ws_evict w ino i i_nlink bad fs i' :
      w_live w !! ino = Some i -> w_dirty w ino = false -> i_nlink <> 0 ->
      f2fs_destroy_extent_tree (w_fs w) i i_nlink bad = Some (fs, i') ->
      w_step w {| w_fs := fs; w_live := delete ino (w_live w); w_disk := w_disk w; w_dirty := w_dirty w; w_exists := w_exists w; w_map := w_map w |}
  | ws_delete w ino i bad fs i' :
      w_live w !! ino = Some i -> f2fs_destroy_extent_tree (w_fs w) i 0 bad = Some (fs, i') ->
      w_step w {| w_fs := fs; w_live := delete ino (w_live w); w_disk := w_disk w; w_dirty := w_dirty w;
                  w_exists := upd (w_exists w) ino false; w_map := w_map w |}
  | ws_shrink w lock1 lock2 trylock nr fs n :
      f2fs_shrink_extent_tree o lock1 lock2 trylock (w_fs w) nr = Some (fs, n) ->
      w_step w {| w_fs := fs; w_live := w_live w; w_disk := w_disk w; w_dirty := w_dirty w; w_exists := w_exists w; w_map := w_map w |}.

(** An extent of an inode page that agrees with the map; the page extent that
    a tree's largest extent was stored to. *)
Definition disk_ok (M : bmap) (x : f2fs_extent) : Prop :=
  x_len x <> 0 -> ext_range (get_extent_info 0 x) /\ ext_ok M (get_extent_info 0 x).
Definition stored (x : f2fs_extent) (e : extent_info) : Prop :=
  x_len x = len e /\ (len e <> 0 -> x_fofs x = fofs e /\ x_blk x = blk e).

(** A mounted file system: no inode in memory, no tree, and page extents that
    agree with the maps. *)
Definition w_mounted (w : world) : Prop :=
  (exists n, w_fs w = f2fs_init_extent_cache_info n) /\ w_live w = ∅ /\
  forall ino, w_exists w ino = true -> disk_ok (w_map w ino) (w_disk w ino).

(** The trees of live inodes. *)
Definition live_inv (w : world) (ino : Z) (i : ext_inode) : Prop :=
  xi_ino i = ino /\ S_ISREG i = reg ino /\ FI_COMPRESSED_FILE i = compressed ino /\ w_exists w ino = true /\
  if xi_tree i
  then ino ∉ zombie_list (w_fs w) /\ exists et, extent_tree_root (w_fs w) !! ino = Some et /\
    (FI_NO_EXTENT i = true -> rb_nodes (root et) = [] /\ len (largest et) = 0) /\
    (w_dirty w ino = false -> stored (w_disk w ino) (largest et))
  else FI_NO_EXTENT i = true /\ extent_tree_root (w_fs w) !! ino = None /\ (w_dirty w ino = false -> x_len (w_disk w ino) = 0).

Record w_inv (w : world) : Prop := {
  wi_trees : trees_inv (w_map w) (w_fs w);
  wi_live : forall ino i, w_live w !! ino = Some i -> live_inv w ino i;
  wi_zombie : forall z, z ∈ zombie_list (w_fs w) -> w_live w !! z = None /\
    exists et, extent_tree_root (w_fs w) !! z = Some et /\ stored (w_disk w z) (largest et);
  wi_nodup : NoDup (zombie_list (w_fs w));
  wi_zcount : total_zombie_tree (w_fs w) = Z.of_nat (length (zombie_list (w_fs w)));
  wi_owned : forall ino et, extent_tree_root (w_fs w) !! ino = Some et ->
    w_exists w ino = true /\ f2fs_may_extent_tree o (fresh_inode ino) = true /\
    (ino ∈ zombie_list (w_fs w) \/ exists i, w_live w !! ino = Some i /\ xi_tree i = true);
  wi_disk : forall ino, w_live w !! ino = None -> w_exists w ino = true -> disk_ok (w_map w ino) (w_disk w ino)
}.

Lemma upd_eq {A} (f : Z -> A) k v : upd f k v k = v.
Proof. unfold upd. by rewrite Z.eqb_refl. Qed.
Lemma upd_ne {A} (f : Z -> A) k v j : j <> k -> upd f k v j = f j.
Proof. intros Hj. unfold upd. by rewrite (proj2 (Z.eqb_neq _ _)). Qed.

Lemma stored_ok M x e : stored x e -> ext_range e -> ext_ok M e -> disk_ok M x.
Proof.
  intros [El Ef] Hr Ho Hx. rewrite El in Hx. destruct (Ef Hx) as [Ef' Eb]. unfold get_extent_info, ext_range, ext_ok in *. cbn.
  rewrite Ef', Eb, El. done.
Qed.

Lemma may_fresh i ino : S_ISREG i = reg ino -> FI_COMPRESSED_FILE i = compressed ino -> f2fs_may_extent_tree o i = true ->
  f2fs_may_extent_tree o (fresh_inode ino) = true /\ FI_NO_EXTENT i = false.
Proof.
  unfold f2fs_may_extent_tree, fresh_inode. cbn. intros -> ->. destruct (FI_NO_EXTENT i); [by rewrite orb_true_r|].
  rewrite orb_false_r. done.
Qed.

(** Replacing the tree of one inode in memory. *)
Lemma w_inv_set w w' ino i i' s et et' : w_inv w -> w_live w !! ino = Some i -> xi_tree i = true ->
  extent_tree_root (w_fs w) !! ino = Some et ->
  tree_inv (foreign (w_fs w) ino) (w_map w' ino) s et' ->
  w_fs w' = set_inode_tree (w_fs w) s ino et' -> w_live w' = <[ino := i']> (w_live w) ->
  (forall j, j <> ino -> w_disk w' j = w_disk w j /\ w_dirty w' j = w_dirty w j /\ w_map w' j = w_map w j) ->
  (forall j, w_exists w' j = w_exists w j) ->
  (xi_ino i' = ino /\ S_ISREG i' = reg ino /\ FI_COMPRESSED_FILE i' = compressed ino /\ xi_tree i' = true) ->
  (FI_NO_EXTENT i' = true -> rb_nodes (root et') = [] /\ len (largest et') = 0) ->
  (w_dirty w' ino = false -> stored (w_disk w' ino) (largest et')) -> w_inv w'.
Proof.
  intros Hw Hi Hxt He Ht Efs Elive Hother Hex (Ei1 & Ei2 & Ei3 & Ei4) Hne Hst.
  pose proof (wi_live _ Hw ino i Hi) as (_ & _ & _ & Hexi & Hlt). rewrite Hxt in Hlt. destruct Hlt as (Hz & et0 & He0 & _ & _).
  assert (Hroot : forall j, j <> ino -> extent_tree_root (w_fs w') !! j = extent_tree_root (w_fs w) !! j).
  { intros j Hj. rewrite Efs. cbn. by rewrite lookup_insert_ne. }
  assert (Hroot' : extent_tree_root (w_fs w') !! ino = Some et') by (rewrite Efs; cbn; by rewrite lookup_insert_eq).
  assert (Hzl : zombie_list (w_fs w') = zombie_list (w_fs w)) by (by rewrite Efs).
  constructor.
  - rewrite Efs. eapply trees_set; [apply Hw|exact He|exact Ht|]. intros j Hj. by apply Hother.
  - intros j k Hj. rewrite Elive in Hj. unfold live_inv. apply lookup_insert_Some in Hj as [[<- <-]|[Hj Hk]].
    + rewrite Ei4, Hex, Hzl, Hroot'. conjs; try done. by exists et'.
    + destruct (Hother j) as (-> & -> & _); [done|]. rewrite Hex, Hzl, Hroot by done. by apply (wi_live _ Hw).
  - intros z Hzz. rewrite Hzl in Hzz. assert (z <> ino) by (intros ->; done). destruct (wi_zombie _ Hw z Hzz) as [Hzn Hzt].
    destruct (Hother z) as (-> & _); [done|]. rewrite Hroot, Elive, lookup_insert_ne by done. done.
  - rewrite Hzl. apply Hw.
  - rewrite Hzl, Efs. apply Hw.
  - intros j t Hj. rewrite Hex, Hzl. destruct (decide (j = ino)) as [->|Hne'].
    + destruct (wi_owned _ Hw ino et He) as (? & ? & _). conjs; [done|done|]. right. exists i'. by rewrite Elive, lookup_insert_eq.
    + rewrite Hroot in Hj by done. rewrite Elive, lookup_insert_ne by done. by apply (wi_owned _ Hw j t).
  - intros j Hj Hxj. rewrite Elive in Hj. apply lookup_insert_None in Hj as [Hj Hne']. rewrite Hex in Hxj.
    destruct (Hother j) as (-> & _ & ->); [done|]. by apply (wi_disk _ Hw).
Qed.

(** A live inode whose cache is used has a tree. *)
Lemma live_may w ino i : w_inv w -> w_live w !! ino = Some i -> f2fs_may_extent_tree o i = true ->
  xi_ino i = ino /\ xi_tree i = true /\ FI_NO_EXTENT i = false /\
  exists et, extent_tree_root (w_fs w) !! ino = Some et /\ inode_tree (w_fs w) i = Some et /\
    tree_inv (foreign (w_fs w) ino) (w_map w ino) (fs_s (w_fs w)) et /\ (w_dirty w ino = false -> stored (w_disk w ino) (largest et)).
Proof.
  intros Hw Hi Hm. destruct (wi_live _ Hw ino i Hi) as (E1 & E2 & E3 & _ & Ht). destruct (may_fresh i ino E2 E3 Hm) as [_ Hne].
  unfold inode_tree. destruct (xi_tree i); [|by destruct Ht as [? _]; congruence]. destruct Ht as (_ & et & He & _ & Hst).
  rewrite E1. conjs; try done. exists et. conjs; try done. apply trees_tree; [apply Hw|done].
Qed.

Lemma lookup_step w ino i pgofs : w_inv w -> w_live w !! ino = Some i ->
  exists fs r, f2fs_lookup_extent_cache o (w_fs w) i pgofs = Some (fs, r) /\
    w_inv {| w_fs := fs; w_live := w_live w; w_disk := w_disk w; w_dirty := w_dirty w; w_exists := w_exists w; w_map := w_map w |} /\
    forall e, r = Some e -> fofs e <= pgofs < fofs e + len e /\ w_map w ino pgofs = Some (blk e + (pgofs - fofs e)).
Proof.
  intros Hw Hi. unfold f2fs_lookup_extent_cache. destruct (f2fs_may_extent_tree o i) eqn:Hm; cbn [negb].
  - destruct (live_may w ino i Hw Hi Hm) as (E1 & Hxt & Hne & et & He & Eit & Ht & Hst). rewrite Eit. cbn [mbind option_bind].
    destruct (lookup_correct _ _ _ _ pgofs Ht) as (s' & et' & r & -> & Ht' & [_ Elg] & Hr). rewrite E1.
    do 2 eexists. split; [reflexivity|]. split; [|by intros e ->].
    destruct (wi_live _ Hw ino i Hi) as (_ & E2 & E3 & _).
    eapply (w_inv_set w _ ino i i s' et et'); cbn [w_fs w_live w_disk w_dirty w_exists w_map]; try done.
    + by rewrite insert_id.
    + by rewrite Hne.
    + by rewrite Elg.
  - do 2 eexists. split; [reflexivity|]. split; [|done]. by destruct w.
Qed.

(** Changes of the map of an inode without a tree in use. *)
Lemma w_inv_map w w' ino i i' : w_inv w -> w_live w !! ino = Some i ->
  w_fs w' = w_fs w -> w_live w' = <[ino := i']> (w_live w) -> (forall j, w_exists w' j = w_exists w j) ->
  (forall j, j <> ino -> w_disk w' j = w_disk w j /\ w_dirty w' j = w_dirty w j /\ w_map w' j = w_map w j) ->
  live_inv w' ino i' -> xi_tree i' = xi_tree i ->
  (forall et, extent_tree_root (w_fs w) !! ino = Some et -> local_inv (w_map w' ino) et) -> w_inv w'.
Proof.
  intros Hw Hi Efs Elive Hex Hother Hl Hxt Hloc. constructor; rewrite ?Efs; try apply Hw.
  - destruct (wi_trees _ Hw). constructor; try done. intros j t Hj. destruct (decide (j = ino)) as [->|Hne]; [by apply Hloc|].
    destruct (Hother j) as (_ & _ & ->); [done|]. by apply gi_local.
  - intros j k Hj. rewrite Elive in Hj. apply lookup_insert_Some in Hj as [[<- <-]|[Hj Hk]]; [done|].
    pose proof (wi_live _ Hw j k Hk) as Hlk. unfold live_inv in *. rewrite Efs, Hex. destruct (Hother j) as (-> & -> & _); done.
  - intros z Hz. destruct (wi_zombie _ Hw z Hz) as [Hzn Hzt]. assert (z <> ino) by (intros ->; congruence).
    rewrite Elive, lookup_insert_ne by done. destruct (Hother z) as (-> & _); done.
  - intros j t Hj. rewrite Hex. destruct (wi_owned _ Hw j t Hj) as (? & ? & Ho). conjs; [done|done|].
    destruct Ho as [Ho|(k & Hk & Hx)]; [by left|right]. rewrite Elive. destruct (decide (j = ino)) as [->|Hne].
    + rewrite lookup_insert_eq. exists i'. split; [done|]. congruence.
    + rewrite lookup_insert_ne by done. eauto.
  - intros j Hj Hxj. rewrite Elive in Hj. apply lookup_insert_None in Hj as [Hj Hne]. rewrite Hex in Hxj.
    destruct (Hother j) as (-> & _ & ->); [done|]. by apply (wi_disk _ Hw).
Qed.

Lemma may_false_inv w ino i M : w_inv w -> w_live w !! ino = Some i -> f2fs_may_extent_tree o i = false ->
  forall et, extent_tree_root (w_fs w) !! ino = Some et -> local_inv M et.
Proof.
  intros Hw Hi Hm et He. destruct (wi_live _ Hw ino i Hi) as (E1 & E2 & E3 & _ & Ht).
  destruct (wi_owned _ Hw ino et He) as (_ & Hbase & _).
  assert (Hne : FI_NO_EXTENT i = true).
  { destruct (FI_NO_EXTENT i) eqn:E; [done|]. rewrite <-Hm, <-Hbase. unfold f2fs_may_extent_tree, fresh_inode. cbn. by rewrite E, E2, E3. }
  destruct (xi_tree i); [|destruct Ht as (_ & ? & _); congruence]. destruct Ht as (_ & et' & He' & Hemp & _).
  rewrite He in He'. injection He' as <-. destruct (Hemp Hne) as [En El].
  apply (tree_local (foreign (w_fs w) ino)) with (s := fs_s (w_fs w)). eapply empty_inv; [|done|done]. apply trees_tree; [apply Hw|done].
Qed.

(** A call that changes nothing but the map and the dirty flag of an inode
    whose cache is not in use. *)
Lemma unused_step w ino i M : w_inv w -> w_live w !! ino = Some i -> f2fs_may_extent_tree o i = false ->
  w_inv {| w_fs := w_fs w; w_live := <[ino := i]> (w_live w); w_disk := w_disk w; w_dirty := upd (w_dirty w) ino (w_dirty w ino || false);
           w_exists := w_exists w; w_map := upd (w_map w) ino M |}.
Proof.
  intros Hw Hi Hm.
  eapply (w_inv_map w _ ino i i); cbn [w_fs w_live w_disk w_dirty w_exists w_map]; try done.
  - intros j Hj. by rewrite !upd_ne.
  - pose proof (wi_live _ Hw ino i Hi) as Hl. unfold live_inv in *. cbn [w_fs w_live w_disk w_dirty w_exists w_map].
    by rewrite upd_eq, orb_false_r.
  - rewrite upd_eq. by eapply may_false_inv.
Qed.

Lemma update_step w ino i f b l : w_inv w -> w_live w !! ino = Some i ->
  0 <= f -> 0 < l -> f + l < 2 ^ 32 -> 0 <= b -> b + l < 2 ^ 32 ->
  exists fs i' d, f2fs_update_extent_cache_range kmem o (w_fs w) i f b l = Some (fs, i', d) /\
    w_inv {| w_fs := fs; w_live := <[ino := i']> (w_live w); w_disk := w_disk w; w_dirty := upd (w_dirty w) ino (w_dirty w ino || d);
             w_exists := w_exists w; w_map := upd (w_map w) ino (remap (w_map w ino) f b l) |}.
Proof.
  intros Hw Hi Hf Hl Hfl Hb Hbl. unfold f2fs_update_extent_cache_range. destruct (f2fs_may_extent_tree o i) eqn:Hm; cbn [negb].
  - destruct (live_may w ino i Hw Hi Hm) as (E1 & Hxt & Hne & et & He & Eit & Ht & Hst). rewrite Eit, Hne.
    destruct (update_refines (foreign (w_fs w) ino) kmem (w_map w ino) (fs_s (w_fs w)) et false f b l) as (s' & et' & ne & d & Eu & [Ht' Hemp] & _); try done.
    rewrite Eu. cbn [mbind option_bind]. rewrite E1. do 3 eexists. split; [reflexivity|].
    destruct (wi_live _ Hw ino i Hi) as (_ & E2 & E3 & _).
    eapply (w_inv_set w _ ino i (set_no_extent i ne) s' et et'); cbn [w_fs w_live w_disk w_dirty w_exists w_map]; try done.
    + by rewrite upd_eq.
    + intros j Hj. by rewrite !upd_ne.
    + rewrite upd_eq. intros [Hd ->]%orb_false_iff. rewrite (update_clean _ _ _ _ _ _ _ _ _ _ Eu). by apply Hst.
  - do 3 eexists. split; [reflexivity|]. by apply unused_step.
Qed.

Lemma drop_step w ino i : w_inv w -> w_live w !! ino = Some i ->
  exists fs i' d, f2fs_drop_extent_tree o (w_fs w) i = Some (fs, i', d) /\
    w_inv {| w_fs := fs; w_live := <[ino := i']> (w_live w); w_disk := w_disk w; w_dirty := upd (w_dirty w) ino (w_dirty w ino || d);
             w_exists := w_exists w; w_map := w_map w |}.
Proof.
  intros Hw Hi. unfold f2fs_drop_extent_tree. destruct (f2fs_may_extent_tree o i) eqn:Hm; cbn [negb].
  - destruct (live_may w ino i Hw Hi Hm) as (E1 & Hxt & Hne & et & He & Eit & Ht & Hst).
    change (inode_tree (w_fs w) (set_no_extent i true)) with (inode_tree (w_fs w) i). rewrite Eit. cbn [mbind option_bind].
    destruct (free_tree _ _ _ _ Ht) as (s' & et' & -> & Ht' & En & Ec & El & _). cbn [mbind option_bind set_no_extent xi_ino].
    rewrite E1. do 3 eexists. split; [reflexivity|]. destruct (wi_live _ Hw ino i Hi) as (_ & E2 & E3 & _).
    set (et2 := if negb (len (largest et') =? 0) then _ else _).
    assert (Et2 : root et2 = root et' /\ len (largest et2) = 0).
    { unfold et2. destruct (len (largest et') =? 0) eqn:E; cbn; [split; [done|lia]|done]. }
    eapply (w_inv_set w _ ino i (set_no_extent i true) s' et et2); cbn [w_fs w_live w_disk w_dirty w_exists w_map]; try done.
    + apply tree_inv_core in Ht' as (Hc & Ho & Hok & Hlr & _). destruct Et2 as [Er2 El2]. apply tree_inv_core. rewrite Er2. conjs; try done.
      * unfold et2. destruct (negb _); [by apply core_largest|done].
      * split; [|intros k Hk; lia]. unfold et2. destruct (negb _); [|done]. destruct Hlr as (? & ? & ? & ? & ?).
        unfold ext_range. cbn. conjs; lia.
    + intros j Hj. by rewrite !upd_ne.
    + intros _. destruct Et2 as [-> ->]. done.
    + rewrite upd_eq. intros [Hd Hd']%orb_false_iff. unfold et2. rewrite Hd'. rewrite El. by apply Hst.
  - do 3 eexists. split; [reflexivity|].
    eapply (w_inv_map w _ ino i i); cbn [w_fs w_live w_disk w_dirty w_exists w_map]; try done.
    + intros j Hj. by rewrite !upd_ne.
    + pose proof (wi_live _ Hw ino i Hi) as Hl. unfold live_inv in *. cbn [w_fs w_live w_disk w_dirty w_exists w_map].
      by rewrite upd_eq, orb_false_r.
    + intros et He. by apply (wi_trees _ Hw).
Qed.

Lemma write_step w ino i : w_inv w -> w_live w !! ino = Some i ->
  w_inv {| w_fs := w_fs w; w_live := w_live w; w_disk := upd (w_disk w) ino (update_inode_extent (w_fs w) i);
           w_dirty := upd (w_dirty w) ino false; w_exists := w_exists w; w_map := w_map w |}.
Proof.
  intros Hw Hi. pose proof (wi_live _ Hw ino i Hi) as (E1 & E2 & E3 & Hex & Ht).
  eapply (w_inv_map w _ ino i i); cbn [w_fs w_live w_disk w_dirty w_exists w_map]; try done.
  - by rewrite insert_id.
  - intros j Hj. by rewrite !upd_ne.
  - unfold live_inv, update_inode_extent, inode_tree. cbn [w_fs w_live w_disk w_dirty w_exists w_map]. rewrite !upd_eq, E1. conjs; try done.
    destruct (xi_tree i).
    + destruct Ht as (Hz & et & He & Hemp & _). split; [done|]. exists et. rewrite He. by conjs.
    + destruct Ht as (? & ? & _). by conjs.
  - intros et He. by apply (wi_trees _ Hw).
Qed.

(** An inode leaves memory and its tree is gone. *)
Lemma w_inv_gone w fs ino ex : w_inv w -> trees_inv (w_map w) fs ->
  extent_tree_root fs = delete ino (extent_tree_root (w_fs w)) ->
  zombie_list fs = zombie_list (w_fs w) -> total_zombie_tree fs = total_zombie_tree (w_fs w) -> ino ∉ zombie_list (w_fs w) ->
  (forall j, j <> ino -> ex j = w_exists w j) -> (ex ino = true -> disk_ok (w_map w ino) (w_disk w ino)) ->
  w_inv {| w_fs := fs; w_live := delete ino (w_live w); w_disk := w_disk w; w_dirty := w_dirty w; w_exists := ex; w_map := w_map w |}.
Proof.
  intros Hw Ht Er Ez Ezc Hz Hex Hd. constructor; cbn [w_fs w_live w_disk w_dirty w_exists w_map]; rewrite ?Ez; try done.
  - intros j k [Hne Hk]%lookup_delete_Some. destruct (wi_live _ Hw j k Hk) as (E1 & E2 & E3 & E4 & E5). unfold live_inv.
    cbn [w_fs w_live w_disk w_dirty w_exists w_map]. rewrite Er, Ez, Hex, lookup_delete_ne by done. done.
  - intros z Hzz. assert (z <> ino) by (intros ->; done). destruct (wi_zombie _ Hw z Hzz) as [Hn Hs].
    rewrite Er, !lookup_delete_ne by done. done.
  - apply Hw.
  - rewrite Ezc. apply Hw.
  - intros j t Hj. rewrite Er in Hj. apply lookup_delete_Some in Hj as [Hne Hj]. rewrite Hex, lookup_delete_ne by done.
    by apply (wi_owned _ Hw j t).
  - intros j Hj Hxj. destruct (decide (j = ino)) as [->|Hne]; [by apply Hd|]. rewrite lookup_delete_ne in Hj by done.
    rewrite Hex in Hxj by done. by apply (wi_disk _ Hw).
Qed.

(** Freeing the nodes of an inode and deleting its tree. *)
Lemma destroy_tree w ino i et : w_inv w -> w_live w !! ino = Some i -> xi_tree i = true -> extent_tree_root (w_fs w) !! ino = Some et ->
  exists fs, ('(fs, _) ← f2fs_destroy_extent_node (w_fs w) i; delete_tree fs (xi_ino i)) = Some fs /\
    trees_inv (w_map w) fs /\ extent_tree_root fs = delete ino (extent_tree_root (w_fs w)) /\
    zombie_list fs = zombie_list (w_fs w) /\ total_zombie_tree fs = total_zombie_tree (w_fs w).
Proof.
  intros Hw Hi Hxt He. destruct (wi_live _ Hw ino i Hi) as (E1 & _). unfold f2fs_destroy_extent_node, inode_tree. rewrite Hxt, E1, He.
  destruct (node_cnt et =? 0) eqn:Ec.
  - cbn [mbind option_bind]. destruct (trees_delete (w_map w) (w_fs w) ino et) as (fs & -> & ? & ? & ? & ? & _); [apply Hw|done|lia|].
    by exists fs.
  - destruct (free_tree _ _ _ _ (trees_tree _ _ _ _ (wi_trees _ Hw) He)) as (s' & et' & -> & Ht' & _ & Ec' & _). cbn [mbind option_bind].
    destruct (trees_delete (w_map w) (set_inode_tree (w_fs w) s' ino et') ino et') as (fs & -> & Hi' & Er & Ez & Ezc & _).
    { eapply trees_set; [apply Hw|done|done|done]. } { cbn. by rewrite lookup_insert_eq. } { done. }
    exists fs. conjs; try done. rewrite Er. cbn. by rewrite delete_insert_eq.
Qed.

Lemma delete_step w ino i bad : w_inv w -> w_live w !! ino = Some i ->
  exists fs i', f2fs_destroy_extent_tree (w_fs w) i 0 bad = Some (fs, i') /\
    w_inv {| w_fs := fs; w_live := delete ino (w_live w); w_disk := w_disk w; w_dirty := w_dirty w;
             w_exists := upd (w_exists w) ino false; w_map := w_map w |}.
Proof.
  intros Hw Hi. pose proof (wi_live _ Hw ino i Hi) as (E1 & E2 & E3 & E4 & E5). unfold f2fs_destroy_extent_tree.
  unfold inode_tree. destruct (xi_tree i) eqn:Hxt.
  - destruct E5 as (Hz & et & He & _). rewrite E1, He. cbn [Z.eqb negb andb].
    destruct (destroy_tree w ino i et Hw Hi Hxt He) as (fs & Ed & Ht & Er & Ez & Ezc). rewrite E1 in Ed.
    destruct (f2fs_destroy_extent_node (w_fs w) i) as [[fs1 n1]|]; [|done]. cbn [mbind option_bind] in Ed |- *. rewrite Ed.
    cbn [mbind option_bind]. do 2 eexists. split; [reflexivity|]. apply w_inv_gone; try done; [intros j Hj; by rewrite upd_ne|by rewrite upd_eq].
  - do 2 eexists. split; [reflexivity|]. destruct E5 as (_ & Hn & _).
    apply w_inv_gone; try done; [apply Hw|by rewrite delete_id| |intros j Hj; by rewrite upd_ne|by rewrite upd_eq].
    intros Hz. destruct (wi_zombie _ Hw ino Hz) as [? _]. congruence.
Qed.

Lemma evict_disk w ino i : w_inv w -> w_live w !! ino = Some i -> w_dirty w ino = false -> disk_ok (w_map w ino) (w_disk w ino).
Proof.
  intros Hw Hi Hd. destruct (wi_live _ Hw ino i Hi) as (_ & _ & _ & _ & E5). destruct (xi_tree i).
  - destruct E5 as (_ & et & He & _ & Hst). destruct (lo_largest _ _ (gi_local _ _ (wi_trees _ Hw) ino et He)). eapply stored_ok; eauto.
  - destruct E5 as (_ & _ & Hx). intros Hne. by rewrite Hx in Hne.
Qed.

Lemma evict_step w ino i i_nlink bad : w_inv w -> w_live w !! ino = Some i -> w_dirty w ino = false -> i_nlink <> 0 ->
  exists fs i', f2fs_destroy_extent_tree (w_fs w) i i_nlink bad = Some (fs, i') /\
    w_inv {| w_fs := fs; w_live := delete ino (w_live w); w_disk := w_disk w; w_dirty := w_dirty w;
             w_exists := w_exists w; w_map := w_map w |}.
Proof.
  intros Hw Hi Hd Hnl. pose proof (wi_live _ Hw ino i Hi) as (E1 & E2 & E3 & E4 & E5). pose proof (evict_disk w ino i Hw Hi Hd) as Hdisk.
  unfold f2fs_destroy_extent_tree, inode_tree. destruct (xi_tree i) eqn:Hxt.
  - destruct E5 as (Hz & et & He & _ & Hst). rewrite E1, He. destruct (negb (i_nlink =? 0) && negb bad && negb (node_cnt et =? 0)).
    + rewrite list_add_tail_fresh by done. cbn [mbind option_bind]. do 2 eexists. split; [reflexivity|].
      constructor; cbn [w_fs w_live w_disk w_dirty w_exists w_map zombie_list extent_tree_root total_zombie_tree]; try apply Hw.
      * destruct (wi_trees _ Hw). by constructor.
      * intros j k [Hne Hk]%lookup_delete_Some. destruct (wi_live _ Hw j k Hk) as (F1 & F2 & F3 & F4 & F5). unfold live_inv.
        cbn [w_fs w_live w_disk w_dirty w_exists w_map zombie_list extent_tree_root]. conjs; try done. destruct (xi_tree k); [|done].
        destruct F5 as [F5 ?]. split; [|done]. intros [?|?%list_elem_of_singleton]%elem_of_app; [done|congruence].
      * intros z [Hzz| ->%list_elem_of_singleton]%elem_of_app; [|split; [by rewrite lookup_delete_eq|eauto]].
        destruct (wi_zombie _ Hw z Hzz) as [Hn Hs]. split; [|done]. apply lookup_delete_None. by right.
      * apply list.NoDup_app. conjs; [apply Hw| |apply NoDup_singleton]. intros z Hzz ->%list_elem_of_singleton. done.
      * rewrite (wi_zcount _ Hw), length_app. cbn [length]. lia.
      * intros j t Hj. destruct (wi_owned _ Hw j t Hj) as (O1 & O2 & O3). conjs; [done|done|]. rewrite elem_of_app, list_elem_of_singleton.
        destruct (decide (j = ino)) as [->|Hne]; [by left; right|]. rewrite lookup_delete_ne by done. tauto.
      * intros j Hj Hxj. destruct (decide (j = ino)) as [->|Hne]; [done|]. rewrite lookup_delete_ne in Hj by done. by apply (wi_disk _ Hw).
    + destruct (destroy_tree w ino i et Hw Hi Hxt He) as (fs & Ed & Ht & Er & Ez & Ezc). rewrite E1 in Ed.
      destruct (f2fs_destroy_extent_node (w_fs w) i) as [[fs1 n1]|]; [|done]. cbn [mbind option_bind] in Ed |- *. rewrite Ed.
      cbn [mbind option_bind]. do 2 eexists. split; [reflexivity|]. by apply w_inv_gone.
  - do 2 eexists. split; [reflexivity|]. destruct E5 as (_ & Hn & _). apply w_inv_gone; try done; [apply Hw|by rewrite delete_id|].
    intros Hz. destruct (wi_zombie _ Hw ino Hz) as [? _]. congruence.
Qed.

(** The inode enters memory with a tree, marked dirty for the moment. *)
Lemma grab_step w ino : w_inv w -> w_live w !! ino = None -> w_exists w ino = true ->
  f2fs_may_extent_tree o (fresh_inode ino) = true ->
  w_inv {| w_fs := __grab_extent_tree (w_fs w) ino; w_live := <[ino := set_tree (fresh_inode ino) true]> (w_live w); w_disk := w_disk w;
           w_dirty := upd (w_dirty w) ino true; w_exists := w_exists w; w_map := w_map w |} /\
  fs_s (__grab_extent_tree (w_fs w) ino) = fs_s (w_fs w) /\
  exists et, extent_tree_root (__grab_extent_tree (w_fs w) ino) !! ino = Some et /\
    (et = new_extent_tree \/ stored (w_disk w ino) (largest et)).
Proof.
  intros Hw Hn Hx Hm. unfold __grab_extent_tree. destruct (extent_tree_root (w_fs w) !! ino) as [et|] eqn:He.
  - assert (Hz : ino ∈ zombie_list (w_fs w)).
    { destruct (wi_owned _ Hw ino et He) as (_ & _ & [?|(i & Hi & _)]); [done|congruence]. }
    destruct (wi_zombie _ Hw ino Hz) as (_ & et' & He' & Hst). rewrite He in He'. injection He' as <-.
    conjs; [|done|by exists et; split; [|right]].
    constructor; cbn [w_fs w_live w_disk w_dirty w_exists w_map zombie_list extent_tree_root total_zombie_tree].
    + destruct (wi_trees _ Hw). by constructor.
    + intros j k [[<- <-]|[Hne Hk]]%lookup_insert_Some; unfold live_inv; cbn [w_fs w_live w_disk w_dirty w_exists w_map zombie_list extent_tree_root].
      * rewrite upd_eq. cbn [set_tree fresh_inode xi_ino S_ISREG FI_COMPRESSED_FILE FI_NO_EXTENT xi_tree]. conjs; try done.
        -- by intros [? _]%list_elem_of_filter.
        -- by exists et.
      * rewrite upd_ne by done. destruct (wi_live _ Hw j k Hk) as (F1 & F2 & F3 & F4 & F5). conjs; try done. destruct (xi_tree k); [|done].
        destruct F5 as [F5 ?]. split; [|done]. by intros [_ ?]%list_elem_of_filter.
    + intros z [Hne Hzz]%list_elem_of_filter. destruct (wi_zombie _ Hw z Hzz). by rewrite lookup_insert_ne.
    + apply list.NoDup_filter, Hw.
    + rewrite (wi_zcount _ Hw). symmetry. apply length_filter_ne; [apply Hw|done].
    + intros j t Hj. destruct (wi_owned _ Hw j t Hj) as (O1 & O2 & O3). conjs; [done|done|]. rewrite list_elem_of_filter.
      destruct (decide (j = ino)) as [->|Hne]; [right; eexists; split; [by rewrite lookup_insert_eq|done]|].
      rewrite lookup_insert_ne by done. tauto.
    + intros j [Hj Hne]%lookup_insert_None Hxj. by apply (wi_disk _ Hw).
  - conjs; [|done|exists new_extent_tree; split; [cbn; by rewrite lookup_insert_eq|by left]].
    constructor; cbn [w_fs w_live w_disk w_dirty w_exists w_map zombie_list extent_tree_root total_zombie_tree]; try apply Hw.
    + by apply (trees_new _ (w_fs w)); [apply Hw|].
    + intros j k [[<- <-]|[Hne Hk]]%lookup_insert_Some; unfold live_inv; cbn [w_fs w_live w_disk w_dirty w_exists w_map zombie_list extent_tree_root].
      * rewrite upd_eq, lookup_insert_eq. cbn [set_tree fresh_inode xi_ino S_ISREG FI_COMPRESSED_FILE FI_NO_EXTENT xi_tree]. conjs; try done.
        -- intros Hz. destruct (wi_zombie _ Hw ino Hz) as (_ & ? & ? & _). congruence.
        -- by exists new_extent_tree.
      * rewrite upd_ne, lookup_insert_ne by done. by apply (wi_live _ Hw).
    + intros z Hzz. destruct (wi_zombie _ Hw z Hzz) as (Hzn & et & Het & Hs). assert (z <> ino) by (intros ->; congruence).
      rewrite !lookup_insert_ne by done. eauto.
    + intros j t [[<- <-]|[Hne Hj]]%lookup_insert_Some.
      * conjs; [done|done|]. right. eexists. split; [by rewrite lookup_insert_eq|done].
      * rewrite lookup_insert_ne by done. by apply (wi_owned _ Hw j t).
    + intros j [Hj Hne]%lookup_insert_None Hxj. by apply (wi_disk _ Hw).
Qed.

(** The inode enters memory without a tree. *)
Lemma bare_step w ino x d : w_inv w -> w_live w !! ino = None -> w_exists w ino = true ->
  f2fs_may_extent_tree o (fresh_inode ino) = false -> x_len x = 0 ->
  w_inv {| w_fs := w_fs w; w_live := <[ino := set_no_extent (fresh_inode ino) true]> (w_live w); w_disk := upd (w_disk w) ino x;
           w_dirty := upd (w_dirty w) ino d; w_exists := w_exists w; w_map := w_map w |}.
Proof.
  intros Hw Hn Hx Hm Hlen.
  assert (Hno : extent_tree_root (w_fs w) !! ino = None).
  { destruct (extent_tree_root (w_fs w) !! ino) as [et|] eqn:He; [|done]. destruct (wi_owned _ Hw ino et He) as (_ & ? & _). congruence. }
  constructor; cbn [w_fs w_live w_disk w_dirty w_exists w_map]; try apply Hw.
  - intros j k [[<- <-]|[Hne Hk]]%lookup_insert_Some; unfold live_inv; cbn [w_fs w_live w_disk w_dirty w_exists w_map].
    + rewrite !upd_eq. done.
    + rewrite !upd_ne by done. by apply (wi_live _ Hw).
  - intros z Hz. destruct (wi_zombie _ Hw z Hz) as (Hzn & et & Het & Hs). assert (z <> ino) by (intros ->; congruence).
    rewrite lookup_insert_ne, upd_ne by done. eauto.
  - intros j t Hj. assert (j <> ino) by (intros ->; congruence). rewrite lookup_insert_ne by done. by apply (wi_owned _ Hw j t).
  - intros j [Hj Hne]%lookup_insert_None Hxj. rewrite upd_ne by done. by apply (wi_disk _ Hw).
Qed.

(** The world in which a read inode is in memory. *)
Definition iget_world (w : world) (ino : Z) (fs : ext_fs) (i : ext_inode) (x : f2fs_extent) (d : bool) : world :=
  {| w_fs := fs; w_live := <[ino := i]> (w_live w); w_disk := upd (w_disk w) ino x; w_dirty := upd (w_dirty w) ino d;
     w_exists := w_exists w; w_map := w_map w |}.

(** The inode just grabbed becomes clean when its page holds the largest extent. *)
Lemma grabbed_clean w ino fs et d : w_live w !! ino = None ->
  w_inv {| w_fs := fs; w_live := <[ino := set_tree (fresh_inode ino) true]> (w_live w); w_disk := w_disk w;
           w_dirty := upd (w_dirty w) ino true; w_exists := w_exists w; w_map := w_map w |} ->
  extent_tree_root fs !! ino = Some et -> (d = false -> stored (w_disk w ino) (largest et)) ->
  w_inv (iget_world w ino fs (set_tree (fresh_inode ino) true) (w_disk w ino) d).
Proof.
  intros Hn Hw He Hst.
  eapply (w_inv_map _ _ ino _ (set_tree (fresh_inode ino) true) Hw); cbn [w_fs w_live w_disk w_dirty w_exists w_map iget_world];
    try (by rewrite lookup_insert_eq); try done.
  - by rewrite insert_insert_eq.
  - intros j Hj. by rewrite !upd_ne.
  - pose proof (wi_live _ Hw ino _ (lookup_insert_eq _ _ _)) as (F1 & F2 & F3 & F4 & F5). unfold live_inv in *.
    cbn [w_fs w_live w_disk w_dirty w_exists w_map iget_world xi_tree set_tree] in *.
    destruct F5 as (Hz & et' & He' & Hemp & _). conjs; try done. exists et'. rewrite !upd_eq. conjs; try done. rewrite He in He'. injection He' as <-. done.
  - intros et' He'. by apply (wi_trees _ Hw).
Qed.

(** The tree just grabbed gets the extent of the page as its first node. *)
Lemma grabbed_init w ino stack fs et : w_live w !! ino = None ->
  w_inv {| w_fs := fs; w_live := <[ino := set_tree (fresh_inode ino) true]> (w_live w); w_disk := w_disk w;
           w_dirty := upd (w_dirty w) ino true; w_exists := w_exists w; w_map := w_map w |} ->
  extent_tree_root fs !! ino = Some et -> node_cnt et = 0 -> x_len (w_disk w ino) <> 0 ->
  disk_ok (w_map w ino) (w_disk w ino) -> kmem (ext_allocs (fs_s fs)) = true ->
  exists s1 et1 en l, __init_extent_tree kmem (fs_s fs) et (get_extent_info stack (w_disk w ino)) = (s1, et1, Some en) /\
    list_add_tail (en_id en) (extent_list s1) = Some l /\
    w_inv (iget_world w ino (set_inode_tree fs {| extent_list := l; total_ext_node := total_ext_node s1; ext_allocs := ext_allocs s1 |} ino et1)
             (set_tree (fresh_inode ino) true) (w_disk w ino) false).
Proof.
  intros Hn Hw He Hc Hx Hd Hk. set (x := w_disk w ino) in *. destruct (Hd Hx) as [Hr Ho].
  pose proof (trees_tree _ _ _ _ (wi_trees _ Hw) He) as Ht. cbn [w_fs w_map] in Ht.
  destruct (init_tree kmem _ _ _ _ (get_extent_info stack x) Ht Hc) as (s1 & et1 & en & l & E1 & E2 & Ht1 & El1); try done.
  { destruct Hr as (_ & Hge & _). cbn in *. lia. }
  exists s1, et1, en, l. conjs; [done|done|].
  eapply (w_inv_set _ _ ino (set_tree (fresh_inode ino) true) (set_tree (fresh_inode ino) true) _ et et1 Hw);
    cbn [w_fs w_live w_disk w_dirty w_exists w_map iget_world]; try done.
  - by rewrite lookup_insert_eq.
  - by rewrite insert_insert_eq.
  - intros j Hj. by rewrite !upd_ne.
  - rewrite !upd_eq, El1. intros _. split; [done|]. by intros _.
Qed.

Lemma iget_step w ino stack : w_inv w -> w_exists w ino = true -> w_live w !! ino = None ->
  (x_len (w_disk w ino) <> 0 -> kmem (ext_allocs (fs_s (w_fs w))) = true) ->
  exists fs i x, f2fs_init_extent_tree kmem o stack (w_fs w) (fresh_inode ino) (Some (w_disk w ino)) = Some (fs, i, Some x) /\
    w_inv (iget_world w ino fs i x false).
Proof.
  intros Hw Hx Hn Hk. unfold f2fs_init_extent_tree, __f2fs_init_extent_tree.
  destruct (f2fs_may_extent_tree o (fresh_inode ino)) eqn:Hm; cbn [negb].
  - destruct (grab_step w ino Hw Hn Hx Hm) as (Hg & Es & et & He & Hst). cbn [fresh_inode xi_ino].
    destruct (x_len (w_disk w ino) =? 0) eqn:Ex.
    { do 3 eexists. split; [reflexivity|]. eapply grabbed_clean; [done|done|done|]. intros _.
      destruct Hst as [->|?]; [|done]. split; cbn; [lia|done]. }
    change (xi_ino (set_tree (fresh_inode ino) true)) with ino. cbn [xi_ino set_tree]. rewrite He. cbn [mbind option_bind].
    destruct (node_cnt et =? 0) eqn:Ec; cbn [negb].
    + destruct (grabbed_init w ino stack _ et Hn Hg He) as (s1 & et1 & en & l & E1 & E2 & Hi); [lia|lia|by apply (wi_disk _ Hw)|rewrite Es; apply Hk; lia|].
      rewrite E1, E2. cbn [mbind option_bind]. do 3 eexists. split; [reflexivity|]. exact Hi.
    + do 3 eexists. split; [reflexivity|]. eapply grabbed_clean; [done|done|done|]. intros _.
      destruct Hst as [->|?]; [|done]. cbn in Ec. lia.
  - destruct (x_len (w_disk w ino) =? 0) eqn:Ex; cbn [negb].
    + do 3 eexists. split; [reflexivity|]. apply bare_step; [done..|lia].
    + do 3 eexists. split; [reflexivity|]. by apply bare_step.
Qed.

(** A new inode: nothing refers to its number before. *)
Lemma reborn w ino : w_inv w -> w_exists w ino = false ->
  w_live w !! ino = None /\
  w_inv {| w_fs := w_fs w; w_live := w_live w; w_disk := upd (w_disk w) ino no_extent; w_dirty := w_dirty w;
           w_exists := upd (w_exists w) ino true; w_map := upd (w_map w) ino (fun _ => None) |}.
Proof.
  intros Hw Hx. assert (Hn : w_live w !! ino = None).
  { destruct (w_live w !! ino) as [i|] eqn:Hi; [|done]. destruct (wi_live _ Hw ino i Hi) as (_ & _ & _ & ? & _). congruence. }
  assert (Hno : forall j t, extent_tree_root (w_fs w) !! j = Some t -> j <> ino).
  { intros j t Hj ->. destruct (wi_owned _ Hw ino t Hj) as (? & _). congruence. }
  split; [done|]. constructor; cbn [w_fs w_live w_disk w_dirty w_exists w_map]; try apply Hw.
  - destruct (wi_trees _ Hw). constructor; try done. intros j t Hj. rewrite upd_ne by (by eapply Hno). by apply gi_local.
  - intros j k Hk. assert (j <> ino) by (intros ->; congruence). unfold live_inv. cbn [w_fs w_live w_disk w_dirty w_exists w_map].
    rewrite !upd_ne by done. by apply (wi_live _ Hw).
  - intros z Hz. destruct (wi_zombie _ Hw z Hz) as (Hzn & et & Het & Hs). rewrite upd_ne by (by eapply Hno). eauto.
  - intros j t Hj. rewrite upd_ne by (by eapply Hno). by apply (wi_owned _ Hw j t).
  - intros j Hj Hxj. destruct (decide (j = ino)) as [->|Hne]; [rewrite !upd_eq; by intros ?|]. rewrite upd_ne in Hxj by done.
    rewrite !upd_ne by done. by apply (wi_disk _ Hw).
Qed.

Lemma new_step w ino stack : w_inv w -> w_exists w ino = false ->
  exists fs i, f2fs_init_extent_tree kmem o stack (w_fs w) (fresh_inode ino) None = Some (fs, i, None) /\
    w_inv {| w_fs := fs; w_live := <[ino := i]> (w_live w); w_disk := upd (w_disk w) ino no_extent; w_dirty := upd (w_dirty w) ino true;
             w_exists := upd (w_exists w) ino true; w_map := upd (w_map w) ino (fun _ => None) |}.
Proof.
  intros Hw Hx. destruct (reborn w ino Hw Hx) as [Hn Hw0]. unfold f2fs_init_extent_tree, __f2fs_init_extent_tree.
  destruct (f2fs_may_extent_tree o (fresh_inode ino)) eqn:Hm; cbn [negb].
  - do 2 eexists. split; [reflexivity|]. destruct (grab_step _ ino Hw0) as (Hg & _); cbn [w_live w_exists]; [done|by rewrite upd_eq|done|]. exact Hg.
  - do 2 eexists. split; [reflexivity|].
    pose proof (bare_step _ ino no_extent true Hw0 Hn (upd_eq _ _ _) Hm eq_refl) as Hb. cbn [w_fs w_live w_disk w_dirty w_exists w_map] in Hb.
    destruct Hb. constructor; cbn [w_fs w_live w_disk w_dirty w_exists w_map] in *; try done.
    + intros j k Hk. specialize (wi_live0 j k Hk). unfold live_inv in *. cbn [w_fs w_live w_disk w_dirty w_exists w_map] in *.
      unfold upd in *. by destruct (j =? ino).
    + intros z Hz. specialize (wi_zombie0 z Hz). unfold upd in *. by destruct (z =? ino).
    + intros j Hj Hxj. specialize (wi_disk0 j Hj Hxj). unfold upd in *. by destruct (j =? ino).
Qed.

(** ** The shrinker *)

Definition with_fs (w : world) (fs : ext_fs) : world :=
  {| w_fs := fs; w_live := w_live w; w_disk := w_disk w; w_dirty := w_dirty w; w_exists := w_exists w; w_map := w_map w |}.

(** A tree loses nodes, whoever owns it. *)
Lemma w_inv_tree w ino et s et' : w_inv w -> extent_tree_root (w_fs w) !! ino = Some et ->
  tree_inv (foreign (w_fs w) ino) (w_map w ino) s et' -> largest et' = largest et ->
  (rb_nodes (root et) = [] -> rb_nodes (root et') = []) ->
  w_inv (with_fs w (set_inode_tree (w_fs w) s ino et')).
Proof.
  intros Hw He Ht El En. constructor; cbn [with_fs w_fs w_live w_disk w_dirty w_exists w_map set_inode_tree zombie_list total_zombie_tree extent_tree_root];
    try apply Hw.
  - by eapply trees_set; [apply Hw|done|done|].
  - intros j k Hk. destruct (wi_live _ Hw j k Hk) as (F1 & F2 & F3 & F4 & F5). unfold live_inv.
    cbn [with_fs w_fs w_live w_disk w_dirty w_exists w_map set_inode_tree zombie_list extent_tree_root]. conjs; try done.
    destruct (decide (j = ino)) as [->|Hne]; [|by rewrite lookup_insert_ne].
    destruct (xi_tree k); [|destruct F5 as (_ & ? & _); congruence]. destruct F5 as (Hz & t & Hj & Hemp & Hst). split; [done|].
    exists et'. rewrite lookup_insert_eq, El. rewrite He in Hj. injection Hj as <-. conjs; try done. intros Hne. destruct (Hemp Hne). auto.
  - intros z Hz. destruct (wi_zombie _ Hw z Hz) as (Hzn & t & Hj & Hst). split; [done|]. destruct (decide (z = ino)) as [->|Hne].
    + exists et'. rewrite lookup_insert_eq, El. rewrite He in Hj. by injection Hj as <-.
    + rewrite lookup_insert_ne by done. eauto.
  - intros j t [[<- <-]|[Hne Hj]]%lookup_insert_Some; [by apply (wi_owned _ Hw ino et)|by apply (wi_owned _ Hw j t)].
Qed.

(** An empty zombie tree goes away. *)
Lemma w_inv_unzombie w z et l : w_inv w -> z ∈ zombie_list (w_fs w) -> extent_tree_root (w_fs w) !! z = Some et -> node_cnt et = 0 ->
  list_del z (zombie_list (w_fs w)) = Some l ->
  exists fs, delete_tree (w_fs w) z = Some fs /\ zombie_list fs = zombie_list (w_fs w) /\
    w_inv (with_fs w {| fs_s := fs_s fs; extent_tree_root := extent_tree_root fs; zombie_list := l;
                        total_ext_tree := total_ext_tree fs; total_zombie_tree := total_zombie_tree fs - 1 |}).
Proof.
  intros Hw Hz He Hc El. unfold list_del in El. rewrite decide_True in El by done. injection El as <-.
  destruct (trees_delete _ _ _ _ (wi_trees _ Hw) He Hc) as (fs & Ed & Ht & Er & Ez & Ezc & _). exists fs. conjs; [done|done|].
  destruct (wi_zombie _ Hw z Hz) as [Hzn _].
  constructor; cbn [with_fs w_fs w_live w_disk w_dirty w_exists w_map zombie_list extent_tree_root total_zombie_tree]; try apply Hw.
  - destruct Ht. by constructor.
  - intros j k Hk. assert (j <> z) by (intros ->; congruence). destruct (wi_live _ Hw j k Hk) as (F1 & F2 & F3 & F4 & F5). unfold live_inv.
    cbn [with_fs w_fs w_live w_disk w_dirty w_exists w_map zombie_list extent_tree_root]. rewrite Er, lookup_delete_ne by done. conjs; try done.
    destruct (xi_tree k); [|done]. destruct F5 as [F5 ?]. split; [|done]. by intros [_ ?]%list_elem_of_filter.
  - intros z' [Hne Hz']%list_elem_of_filter. rewrite Er, lookup_delete_ne by done. by apply (wi_zombie _ Hw).
  - apply list.NoDup_filter, Hw.
  - rewrite Ezc, (wi_zcount _ Hw). symmetry. apply length_filter_ne; [apply Hw|done].
  - intros j t Hj. rewrite Er in Hj. apply lookup_delete_Some in Hj as [Hne Hj]. destruct (wi_owned _ Hw j t Hj) as (? & ? & Ho).
    conjs; [done|done|]. rewrite list_elem_of_filter. destruct Ho as [Ho|Ho]; [left; split; [done|done]|by right].
Qed.

Lemma shrink_zombies_step nr zs : forall w n t, w_inv w -> NoDup zs -> (forall z, z ∈ zs -> z ∈ zombie_list (w_fs w)) ->
  exists fs n' t' enough, shrink_zombies zs nr (w_fs w) n t = Some (fs, n', t', enough) /\ w_inv (with_fs w fs).
Proof.
  induction zs as [|z zs IH]; intros w n t Hw Hnd Hzs.
  { do 4 eexists. split; [reflexivity|]. by destruct w. }
  apply list.NoDup_cons in Hnd as [Hz Hnd]. assert (Hzz : z ∈ zombie_list (w_fs w)) by (apply Hzs, elem_of_cons; by left).
  destruct (wi_zombie _ Hw z Hzz) as (_ & et & He & _). cbn [shrink_zombies]. rewrite He. cbn [mbind option_bind].
  assert (Hfree : exists fs1 n1 et1, (if negb (node_cnt et =? 0)
      then '(s, et, k) ← __free_extent_tree (fs_s (w_fs w)) et; Some (set_inode_tree (w_fs w) s z et, n +! k) else Some (w_fs w, n)) = Some (fs1, n1) /\
    w_inv (with_fs w fs1) /\ extent_tree_root fs1 !! z = Some et1 /\ node_cnt et1 = 0 /\ zombie_list fs1 = zombie_list (w_fs w)).
  { destruct (node_cnt et =? 0) eqn:Ec; cbn [negb].
    - exists (w_fs w), n, et. conjs; [done|by destruct w|done|lia|done].
    - destruct (free_tree _ _ _ _ (trees_tree _ _ _ _ (wi_trees _ Hw) He)) as (s' & et' & -> & Ht' & En & Ec' & El & _). cbn [mbind option_bind].
      do 3 eexists. split; [reflexivity|]. conjs; [by eapply w_inv_tree|cbn; by rewrite lookup_insert_eq|done|done]. }
  destruct Hfree as (fs1 & n1 & et1 & -> & Hw1 & He1 & Ec1 & Ez1). cbn [mbind option_bind].
  destruct (list_del z (zombie_list fs1)) as [l|] eqn:El.
  2:{ unfold list_del in El. rewrite Ez1, decide_True in El by done. done. }
  destruct (w_inv_unzombie _ z et1 l Hw1) as (fs2 & Ed & Ez2 & Hw2); try done; [by cbn; rewrite Ez1|].
  cbn [with_fs w_fs] in Ed, Ez2. rewrite Ed. cbn [mbind option_bind]. rewrite Ez2, El. cbn [mbind option_bind].
  destruct (u32 nr <=? _); [do 4 eexists; split; [reflexivity|exact Hw2]|].
  destruct (IH _ n1 (t +! 1) Hw2 Hnd) as (fs & n' & t' & b & E & Hw'); [|by exists fs, n', t', b].
  intros z' Hz'. cbn. unfold list_del in El. rewrite Ez1, decide_True in El by done. injection El as <-.
  apply list_elem_of_filter. split; [intros ->; done|]. apply Hzs, elem_of_cons. by right.
Qed.

Lemma node_tree_in M fs id : trees_inv M fs -> id ∈ extent_list (fs_s fs) ->
  exists ino et, node_tree fs id = Some (ino, et) /\ extent_tree_root fs !! ino = Some et /\ id ∈ ids et.
Proof.
  intros Ht (ino & et & He & Hin)%(gi_in _ _ Ht). unfold node_tree.
  destruct (list_find _ (map_to_list (extent_tree_root fs))) as [[k [ino' et']]|] eqn:Ef.
  - apply list_find_Some in Ef as (Hk & Hin' & _). exists ino', et'. conjs; [done| |done].
    apply elem_of_map_to_list. by eapply list_elem_of_lookup_2.
  - apply list_find_None in Ef. rewrite list.Forall_forall in Ef. exfalso. apply (Ef (ino, et)); [by apply elem_of_map_to_list|done].
Qed.

Lemma shrink_nodes_step trylock r : forall w n, w_inv w ->
  exists fs n', shrink_nodes r trylock (w_fs w) n = Some (fs, n') /\ w_inv (with_fs w fs).
Proof.
  induction r as [|r IH]; intros w n Hw; cbn [shrink_nodes].
  { do 2 eexists. split; [reflexivity|]. by destruct w. }
  destruct (extent_list (fs_s (w_fs w))) as [|id l] eqn:El; [do 2 eexists; split; [reflexivity|by destruct w]|].
  assert (Hid : id ∈ extent_list (fs_s (w_fs w))) by (rewrite El; apply elem_of_cons; by left).
  destruct (node_tree_in _ _ id (wi_trees _ Hw) Hid) as (ino & et & -> & He & Hin). cbn [mbind option_bind].
  destruct (trylock r); cbn [negb].
  - destruct (release_tree _ _ _ _ _ (trees_tree _ _ _ _ (wi_trees _ Hw) He) Hin) as (s' & et' & Er & Ht' & Elg & _).
    rewrite Er. cbn [mbind option_bind].
    assert (Hw1 : w_inv (with_fs w (set_inode_tree (w_fs w) s' ino et'))).
    { eapply w_inv_tree; try done. intros Hn. unfold ids in Hin. rewrite Hn in Hin. by apply elem_of_nil in Hin. }
    destruct (IH _ (n +! 1) Hw1) as (fs & n' & E & Hw'). by exists fs, n'.
  - set (fs1 := {| fs_s := _ |}). assert (Hw1 : w_inv (with_fs w fs1)).
    { assert (Hperm : forall j, j ∈ filter (fun j => j <> id) (id :: l) ++ [id] <-> j ∈ id :: l).
      { intros j. rewrite elem_of_app, list_elem_of_filter, list_elem_of_singleton, elem_of_cons. destruct (decide (j = id)); naive_solver. }
      destruct Hw. constructor; try done. destruct wi_trees0. rewrite El in *. constructor; try done; cbn [fs1 with_fs w_fs fs_s extent_list ext_allocs total_ext_node].
      - apply list.NoDup_app. conjs; [by apply list.NoDup_filter| |apply NoDup_singleton].
        intros j [Hj _]%list_elem_of_filter ->%list_elem_of_singleton. done.
      - intros j Hj. by apply gi_fresh, Hperm.
      - rewrite length_app, Nat2Z.inj_add, length_filter_ne, gi_total by done. cbn. lia.
      - intros j. rewrite Hperm. apply gi_in. }
    destruct (IH _ n Hw1) as (fs & n' & E & Hw'). by exists fs, n'.
Qed.

Lemma shrink_step w lock1 lock2 trylock nr : w_inv w ->
  exists fs n, f2fs_shrink_extent_tree o lock1 lock2 trylock (w_fs w) nr = Some (fs, n) /\ w_inv (with_fs w fs).
Proof.
  intros Hw. assert (Hsame : w_inv (with_fs w (w_fs w))) by (by destruct w). unfold f2fs_shrink_extent_tree.
  destruct (EXTENT_CACHE o); cbn [negb]; [|eauto]. destruct (negb (total_zombie_tree (w_fs w) =? 0) && negb lock1); [eauto|].
  assert (H1 : exists fs n t b, (if negb (total_zombie_tree (w_fs w) =? 0) then shrink_zombies (zombie_list (w_fs w)) nr (w_fs w) 0 0
      else Some (w_fs w, 0, 0, false)) = Some (fs, n, t, b) /\ w_inv (with_fs w fs)).
  { destruct (negb _); [apply shrink_zombies_step; [done|apply Hw|done]|eauto 10]. }
  destruct H1 as (fs1 & n1 & t1 & b & -> & Hw1). cbn [mbind option_bind]. destruct (b || negb lock2); [eauto|].
  destruct (shrink_nodes_step trylock (Z.to_nat (nr - (n1 + t1))) _ n1 Hw1) as (fs & n & E & Hw2). cbn [with_fs w_fs] in E. rewrite E.
  cbn [mbind option_bind]. eauto.
Qed.

(** ** Reachable states *)

Lemma mounted_inv w : w_mounted w -> w_inv w.
Proof.
  intros ((n & Efs) & El & Hd). constructor; rewrite ?Efs, ?El; cbn; try done.
  - constructor; cbn; try done; try apply NoDup_nil_2; [by intros i ?%elem_of_nil|].
    intros i. split; [by intros ?%elem_of_nil|]. by intros (j & t & ? & _).
  - by intros z ?%elem_of_nil.
  - apply NoDup_nil_2.
  - intros ino _ Hx. by apply Hd.
Qed.

Lemma step_inv w w' : w_step w w' -> w_inv w -> w_inv w'.
Proof.
  intros Hs Hw. destruct Hs as [w ino stack fs i x Hx Hn Hk E|w ino stack fs i x Hx E|w ino i pgofs fs r Hi E
    |w ino i f b l fs i' d Hi Hf Hl Hfl Hb Hbl E|w ino i fs i' d Hi E|w ino i Hi|w ino i i_nlink bad fs i' Hi Hd Hnl E
    |w ino i bad fs i' Hi E|w lock1 lock2 trylock nr fs n E].
  - destruct (iget_step w ino stack Hw Hx Hn Hk) as (? & ? & ? & E' & Hr). rewrite E' in E. by simplify_eq.
  - destruct (new_step w ino stack Hw Hx) as (? & ? & E' & Hr). rewrite E' in E. by simplify_eq.
  - destruct (lookup_step w ino i pgofs Hw Hi) as (? & ? & E' & Hr & _). rewrite E' in E. by simplify_eq.
  - destruct (update_step w ino i f b l Hw Hi) as (? & ? & ? & E' & Hr); [done..|]. rewrite E' in E. by simplify_eq.
  - destruct (drop_step w ino i Hw Hi) as (? & ? & ? & E' & Hr). rewrite E' in E. by simplify_eq.
  - by apply write_step.
  - destruct (evict_step w ino i i_nlink bad Hw Hi Hd Hnl) as (? & ? & E' & Hr). rewrite E' in E. by simplify_eq.
  - destruct (delete_step w ino i bad Hw Hi) as (? & ? & E' & Hr). rewrite E' in E. by simplify_eq.
  - destruct (shrink_step w lock1 lock2 trylock nr Hw) as (? & ? & E' & Hr). rewrite E' in E. by simplify_eq.
Qed.

Lemma w_reachable_inv w0 w : w_mounted w0 -> rtc w_step w0 w -> w_inv w.
Proof. intros Hm Hs. apply mounted_inv in Hm. induction Hs as [|w1 w2 w3 H1 _ IH]; [done|]. apply IH. by eapply step_inv. Qed.

Lemma destroy_returns w ino i i_nlink bad : w_inv w -> w_live w !! ino = Some i -> is_Some (f2fs_destroy_extent_tree (w_fs w) i i_nlink bad).
Proof.
  intros Hw Hi. destruct (decide (i_nlink = 0)) as [->|Hnl]; [by edestruct (delete_step w ino i bad Hw Hi) as (? & ? & -> & _)|].
  pose proof (write_step w ino i Hw Hi) as Hw'. edestruct (evict_step _ ino i i_nlink bad Hw') as (? & ? & E & _); cbn [w_live w_dirty w_fs] in *; [done|apply upd_eq|done|by rewrite E].
Qed.

(** C14: in every state that calls on the extent caches of all inodes and runs
    of the shrinker can reach after mount, provided that memory for the first node of
    the tree was found whenever an inode whose page has an extent was read, a lookup on
    an inode in memory returns, and an extent it returns contains the offset and gives
    the block that the inode's block map holds there. *)
Theorem extent_lookup_agrees w0 w ino i pgofs : w_mounted w0 -> rtc w_step w0 w -> w_live w !! ino = Some i ->
  exists fs r, f2fs_lookup_extent_cache o (w_fs w) i pgofs = Some (fs, r) /\
    forall e, r = Some e -> fofs e <= pgofs < fofs e + len e /\ w_map w ino pgofs = Some (blk e + (pgofs - fofs e)).
Proof.
  intros Hm Hs Hi. destruct (lookup_step w ino i pgofs (w_reachable_inv _ _ Hm Hs) Hi) as (fs & r & E & _ & Hr). by exists fs, r.
Qed.

(** C26: in every state reached under the same proviso no call on an inode in
    memory traps or loses a node: updates, drops, and the destruction of the tree, both
    of an inode that is deleted and of one that is evicted with links, whose tree may
    stay as a zombie, return; so does the shrinker whatever locks it gets, and the
    counters of the file system count the trees, the zombies and the nodes on the list. *)
Theorem extent_calls_return w0 w : w_mounted w0 -> rtc w_step w0 w ->
  (forall ino i f b l, w_live w !! ino = Some i -> 0 <= f -> 0 < l -> f + l < 2 ^ 32 -> 0 <= b -> b + l < 2 ^ 32 ->
    is_Some (f2fs_update_extent_cache_range kmem o (w_fs w) i f b l)) /\
  (forall ino i, w_live w !! ino = Some i -> is_Some (f2fs_drop_extent_tree o (w_fs w) i) /\
    forall i_nlink bad, is_Some (f2fs_destroy_extent_tree (w_fs w) i i_nlink bad)) /\
  (forall lock1 lock2 trylock nr, is_Some (f2fs_shrink_extent_tree o lock1 lock2 trylock (w_fs w) nr)) /\
  total_ext_node (fs_s (w_fs w)) = Z.of_nat (length (extent_list (fs_s (w_fs w)))) /\
  total_ext_tree (w_fs w) = Z.of_nat (size (extent_tree_root (w_fs w))) /\
  total_zombie_tree (w_fs w) = Z.of_nat (length (zombie_list (w_fs w))).
Proof.
  intros Hm Hs. pose proof (w_reachable_inv _ _ Hm Hs) as Hw. conjs; try apply Hw.
  - intros ino i f b l Hi. intros. edestruct (update_step w ino i f b l) as (? & ? & ? & -> & _); done.
  - intros ino i Hi. split; [by edestruct (drop_step w ino i Hw Hi) as (? & ? & ? & -> & _)|]. intros i_nlink bad. by apply (destroy_returns w ino).
  - intros. by edestruct (shrink_step w lock1 lock2 trylock nr Hw) as (? & ? & -> & _).
Qed.

(** the extent that the page of an inode holds is true of the inode's
    block map whenever the inode is not in memory, so reading the inode again
    starts the cache from a true extent. *)
Theorem page_extent_true w0 w ino : w_mounted w0 -> rtc w_step w0 w -> w_live w !! ino = None -> w_exists w ino = true ->
  disk_ok (w_map w ino) (w_disk w ino).
Proof. intros Hm Hs. apply (wi_disk _ (w_reachable_inv _ _ Hm Hs)). Qed.

(** C36: when the first node of a tree cannot be allocated, the inode page keeps
    its extent but the tree has none: as long as allocations fail, no update
    of the block map marks the inode dirty for its extent, whatever range of
    the page's extent it moves. *)
Theorem init_failure_unmarked stack fs ino x f b l :
  f2fs_may_extent_tree o (fresh_inode ino) = true -> extent_tree_root fs !! ino = None -> x_len x <> 0 ->
  kmem (ext_allocs (fs_s fs)) = false -> kmem (S (ext_allocs (fs_s fs))) = false -> 0 <= f -> 0 < l ->
  exists fs1 i1, f2fs_init_extent_tree kmem o stack fs (fresh_inode ino) (Some x) = Some (fs1, i1, Some x) /\
    exists fs2, f2fs_update_extent_cache_range kmem o fs1 i1 f b l = Some (fs2, i1, false).
Proof.
  intros Hm Hn Hx Hk Hk' Hf Hl. unfold f2fs_init_extent_tree, __f2fs_init_extent_tree, __grab_extent_tree. rewrite Hm. cbn [negb].
  change (xi_ino (fresh_inode ino)) with ino. rewrite Hn, (proj2 (Z.eqb_neq _ _) Hx).
  cbn [extent_tree_root set_tree xi_ino fresh_inode]. rewrite lookup_insert_eq. cbn [mbind option_bind new_extent_tree node_cnt Z.eqb negb].
  unfold __init_extent_tree, __attach_extent_node. cbn [fs_s]. rewrite Hk. cbn [xi_tree set_tree negb mbind option_bind].
  do 2 eexists. split; [reflexivity|].
  unfold f2fs_update_extent_cache_range. change (f2fs_may_extent_tree o _) with (f2fs_may_extent_tree o (fresh_inode ino)). rewrite Hm.
  cbn [negb]. unfold inode_tree. cbn [set_inode_tree extent_tree_root set_tree fresh_inode xi_tree xi_ino FI_NO_EXTENT]. rewrite lookup_insert_eq.
  unfold f2fs_update_extent_tree_range, __drop_largest_extent. cbn [largest new_extent_tree fofs len].
  change (0 +! 0) with 0. rewrite (proj2 (Z.ltb_ge f 0)) by lia. cbn [andb].
  cbn [root new_extent_tree f2fs_lookup_rb_tree_ret lr_re lr_next lr_prev lr_insert invalidate_loop mbind option_bind iv_s iv_et iv_prev iv_next iv_insert iv_dei].
  destruct (b =? 0); cbn [mbind option_bind]; [by eexists|]. unfold __try_merge_extent_node. cbn [mbind option_bind].
  unfold __insert_extent_tree. cbn [root new_extent_tree f2fs_lookup_rb_tree_for_insert mbind option_bind].
  unfold __attach_extent_node. cbn [set_inode_tree fs_s ext_allocs extent_list]. rewrite Hk'. cbn [mbind option_bind]. by eexists.
Qed.
End system.
