(* ===== verification/Witnesses.v ===== *)
(** * Concrete instances of the theorems

    Each lemma applies one theorem of the development to a concrete inode,
    journal or history and discharges its hypotheses there. *)

From S2P Require Import Prelude LogContent JournalFile JournalSlots JournalReplay JournalIO.

(** ** Concrete data *)

(** The values of the [i_inline] bits. *)
Definition inline_values : F2fsFsInline := {|
  F2FS_INLINE_XATTR := 1; F2FS_INLINE_DATA := 2; F2FS_INLINE_DENTRY := 4; F2FS_DATA_EXIST := 8;
  F2FS_INLINE_DOTS := 16; F2FS_EXTRA_ATTR := 32; F2FS_PIN_FILE := 64; F2FS_COMPRESS_RELEASED := 128 |}.
#[local] Existing Instance inline_values.

Definition inode7 : VfsInode.t := {|
  VfsInode.i_mode := 33188; VfsInode.i_uid := 1000; VfsInode.i_gid := 1000; VfsInode.i_nlink := 1;
  VfsInode.i_size := 4096; VfsInode.i_blocks := 8; VfsInode.atime_sec := 1690000000;
  VfsInode.ctime_sec := 1690000000; VfsInode.mtime_sec := 1690000000;
  VfsInode.atime_nsec := 5; VfsInode.ctime_nsec := 6; VfsInode.mtime_nsec := 7;
  VfsInode.i_generation := 77; VfsInode.i_ino := 7; VfsInode.i_advise := 0;
  VfsInode.i_current_depth := 0; VfsInode.i_gc_failures_pin := 0; VfsInode.i_xattr_nid := 0;
  VfsInode.i_flags := 0; VfsInode.i_pino := 3; VfsInode.i_dir_level := 0;
  VfsInode.fi_flags := [FI_INLINE_XATTR; FI_DATA_EXIST] |}.

(** The file name "log". *)
Definition name_log : list Z := [108; 111; 103].

Definition stack_create : create_log_t := {|
  cl_header := {| log_type := 0; log_size := 0 |};
  j_new_ino_log := {|
    i_mode := 0; i_advise := 0; i_inline := 0; i_uid := 0; i_gid := 0; i_links := 0; i_size := 0;
    i_blocks := 0; i_atime := 0; i_ctime := 0; i_mtime := 0; i_atime_nsec := 0; i_ctime_nsec := 0;
    i_mtime_nsec := 0; i_generation := 0; i_depth_or_gc := 0; i_xattr_nid := 0; i_flags := 0;
    i_pino := 0; i_ino := 0; i_namelen := 17; i_name := replicate 16 9; i_dir_level := 0;
    i_pad := replicate 7 1 |} |}.

Definition stack_delete : delete_log_t := {|
  dl_header := {| log_type := 0; log_size := 0 |}; ino_num := 0; parent_ino_num := 0; ino_nlink := 0;
  dl_file_name := replicate 16 9; dl_i_namelen := 0; dl_pad := replicate 3 0;
  nat_log := {| j_nid := 0; j_ino := 0; j_node_lba := 0 |} |}.

Definition raw_entry : j_log_entry_t := {| log_entry_idx := 0; log_entry_addr := (0, 0) |}.

(** The statics of j_journal_file.c before the mount, and the mapping of zero pages. *)
Definition journal0 : journal := {|
  j_file_mmap := {| j_file_state := J_FILE_IDLE; j_cur_file := 0; j_cur_log_entry_idx := 0;
                    j_cur_file_start_blk := 0; j_cur_file_end_blk := 0;
                    j_cur_file_first_inused_blk := 0; j_pages := ∅ |};
  g_jsb := {| j_magic_num := 0; j_start_addr := 0; j_file_size := 0; j_current_small_file := 0;
              j_current_free_log_entry := 0 |};
  g_on_disk_j_file := {| total_file_size := 0; used_file_size := 0 |};
  memap_lock := false; entry_live := 0 |}.

Definition mounted : journal := mmap_journal_file (fun _ => zero_page) journal0.

(** The mounted journal with the allocator at entry [idx] and logs waiting. *)
Definition waiting (idx : Z) : journal :=
  set_mmap mounted (set_state_idx (j_file_mmap mounted) J_PARTIAL_FILE_WAIT_COMMIT idx
                      JORNAL_FILE_0_START_BLK).

Lemma mounted_holds : journal_holds [] mounted.
Proof. by apply mmap_journal_file_holds. Qed.

Lemma waiting_wf idx : idx_ok idx -> journal_wf (waiting idx).
Proof.
  intros Hi. apply journal_wf_state_idx; [exact (holds_wf _ _ mounted_holds)|discriminate|done|].
  unfold idx_ok in Hi. clear -Hi. zdiv.
Qed.

#[local] Opaque mounted.

Lemma small_fits w v : (0 <=? v) && (v <? 2 ^ w) = true -> fits w v.
Proof. unfold fits. lia. Qed.

Lemma stack_create_fits : new_inode_fits (j_new_ino_log stack_create).
Proof. unfold new_inode_fits. conjs; first [by apply small_fits | reflexivity]. Qed.
Lemma stack_delete_fits : delete_fits stack_delete.
Proof. unfold delete_fits, head_fits. conjs; first [by apply small_fits | reflexivity]. Qed.
Lemma name_log_nul_free : Forall (fun b => b <> 0) name_log.
Proof. repeat constructor; lia. Qed.

(** ** The journal file *)

Lemma create_log_roundtrip_witness :
  let c := stamp_create (get_inode_log_from_f2fs_inode inode7 name_log stack_create).1 in
  decode_create (encode_create c) = c /\
  cstr (i_name (j_new_ino_log (decode_create (encode_create c)))) = take 15 name_log /\
  ((length name_log <= 15)%nat ->
   cstr (i_name (j_new_ino_log (decode_create (encode_create c)))) = name_log).
Proof. apply (create_log_roundtrip inode7 name_log stack_create stack_create_fits name_log_nul_free). Defined.

Lemma delete_log_roundtrip_witness :
  let d := stamp_unlink (get_delete_log_from_f2fs_inode (Some inode7) name_log stack_delete).1 in
  let r := decode_delete (encode_delete d ++ replicate 76 9) in
  r = d /\ ino_num r = 7 /\ parent_ino_num r = 3 /\ ino_nlink r = 1 /\
  cstr (dl_file_name r) = name_log.
Proof.
  apply (delete_log_roundtrip inode7 name_log stack_delete (replicate 76 9) stack_delete_fits name_log_nul_free).
Defined.

Lemma alloc_ring_witness :
  exists s' es, alloc_n [raw_entry; raw_entry] (waiting 2097151) = Some (s', es) /\ journal_wf s' /\
    es = (ring_entry 2097151 <$> seq 0 2) /\
    (2 <= J_LOG_ENTRY_PER_FILE -> NoDup (log_entry_addr <$> es)) /\
    Forall (fun e => 0 <= (log_entry_addr e).1 < JOURNAL_BLK_PER_SMALL_FILE /\
                     0 <= (log_entry_addr e).2 /\ (log_entry_addr e).2 + 128 <= PAGE_SIZE) es.
Proof.
  apply (alloc_ring [raw_entry; raw_entry] (waiting 2097151)). apply waiting_wf. by compute.
Defined.

Lemma journal_replay_witness :
  exists s', run_ops [(raw_entry, OpCreate inode7 name_log stack_create);
                      (raw_entry, OpUnlink inode7 name_log stack_delete)] mounted = Some s' /\
    iterate_journal s' = [R_CREATE (j_new_ino_log (f2fs_create_log inode7 name_log stack_create));
                          R_UNLINK (f2fs_unlink_log inode7 name_log stack_delete)].
Proof.
  apply (journal_replay [(raw_entry, OpCreate inode7 name_log stack_create);
                         (raw_entry, OpUnlink inode7 name_log stack_delete)] mounted mounted_holds).
  - constructor; [exact stack_create_fits|]. constructor; [exact stack_delete_fits|]. constructor.
  - by compute.
Defined.

Lemma clear_journal_correct_witness :
  exists s' trace, clear_journal_file_after_recovery (waiting 40) = Some (s', trace) /\
    length trace = 256%nat /\
    (forall p, 0 <= p < JOURNAL_BLK_PER_SMALL_FILE -> j_pages (j_file_mmap s') !! p = Some zero_page) /\
    (forall (d : disk) b, exec_writes (j_pages (j_file_mmap s')) trace d !! b =
       if decide (JORNAL_FILE_0_START_BLK <= b < JORNAL_FILE_0_START_BLK + JOURNAL_BLK_PER_SMALL_FILE)
       then Some zero_page else d !! b) /\
    iterate_journal s' = [] /\ j_cur_log_entry_idx (j_file_mmap s') = 40.
Proof.
  assert (Hi : idx_ok 40) by (by compute).
  apply (clear_journal_correct (waiting 40)). exact (wf_start _ (waiting_wf 40 Hi)).
Defined.

(** The device image of the mounted journal. *)
Definition mounted_disk : disk := kmap (Z.add JORNAL_FILE_0_START_BLK) (j_pages (j_file_mmap mounted)).

Lemma recover_persisted_journal_witness :
  exists s', recover_read_journal mounted_disk true mounted = Some (s', []) /\
    forall q, 0 <= q < JOURNAL_BLK_PER_SMALL_FILE ->
      j_pages (j_file_mmap s') !! q = mounted_disk !! (JORNAL_FILE_0_START_BLK + q).
Proof.
  apply (recover_persisted_journal mounted_disk mounted mounted [] mounted_holds (holds_wf _ _ mounted_holds)).
  intros q _. unfold mounted_disk. apply lookup_kmap. intros x y E. lia.
Defined.

Lemma commit_one_block_witness :
  exists s' trace, write_current_mmap_j_file (waiting 5) = Some (s', trace) /\ journal_wf s' /\
    trace = [chunk (fun blk => j_alloc_bio_write blk 256) JORNAL_FILE_0_START_BLK 0 1] /\
    used_file_size (g_on_disk_j_file s') = used_file_size (g_on_disk_j_file (waiting 5)) /\
    (forall d : disk, exec_writes (j_pages (j_file_mmap (waiting 5))) trace d !! JORNAL_FILE_0_START_BLK
                      = Some (default zero_page (j_pages (j_file_mmap (waiting 5)) !! 0))).
Proof.
  assert (Hi : idx_ok 5) by (by compute).
  apply (commit_one_block (waiting 5) (waiting_wf 5 Hi)); [reflexivity..|].
  change (0 <= 0 < 2 ^ 32). lia.
Defined.

Lemma commit_many_blocks_witness :
  exists s' trace, write_current_mmap_j_file (waiting 100) = Some (s', trace) /\ journal_wf s' /\
    trace = ((fun i => chunk (fun blk => j_alloc_bio_write blk 256) JORNAL_FILE_0_START_BLK i 256)
              <$> seqZ 0 (3 / 2 / 256)) /\
    (3 < 512 -> trace = []) /\ pending_blocks s' = 0 /\
    used_file_size (g_on_disk_j_file s')
    = u32 (used_file_size (g_on_disk_j_file (waiting 100)) + (3 - 3 / 2) * PAGE_SIZE).
Proof.
  assert (Hi : idx_ok 100) by (by compute).
  apply (commit_many_blocks (waiting 100) (waiting_wf 100 Hi)); reflexivity.
Defined.

Lemma init_journal_correct_witness :
  exists s' wb logs, init_journal_file_info (Some (g_jsb journal0)) true (fun _ => zero_page) ∅ true journal0
      = Some (s', wb, logs, F2FSJ_OK) /\
    journal_wf s' /\ logs = iterate_journal s' /\
    (forall q, 0 <= q < JOURNAL_BLK_PER_SMALL_FILE ->
      j_pages (j_file_mmap s') !! q = Some (default zero_page ((∅ : disk) !! (JORNAL_FILE_0_START_BLK + q)))) /\
    j_cur_log_entry_idx (j_file_mmap s') = 0 /\
    get_on_disk_free_journal_space s' = JOURNAL_FILE_SIZE /\
    (wb = None <-> j_magic_num (g_jsb journal0) = JOURNAL_FILE_MAGIC_NUMBER).
Proof.
  apply (init_journal_correct (g_jsb journal0) (fun _ => zero_page) ∅ journal0); [reflexivity|].
  intros b pg H. by rewrite lookup_empty in H.
Defined.
