(* ===== verification/SysWitnesses.v ===== *)
(** * Concrete instances of the theorems about the whole journal layer *)

From S2P Require Import Prelude LogContent Epoch JournalFile JournalSlots JournalReplay JournalIO InodeLog.
From S2P Require Import JCheckpoint EpochCommit CommitProps JournalSystem Witnesses.

#[local] Existing Instance inline_values.
#[local] Opaque mounted.

Definition kmem_ok : nat -> bool := fun _ => true.
Definition writepages_ok : Z -> Z := fun _ => 0.

Lemma nothing_fails : no_failure kmem_ok writepages_ok.
Proof. done. Qed.

(** The layer right after the mount; the commit thread has cleared the
    journal and has run [cnt] times. *)
Definition sys0 (cnt : Z) : jsys := {|
  sys_ep := init_global_epoch static_epochs; sys_inodes := ∅; sys_j := mounted;
  sys_cp := {| g_checkpoint_list := []; cp_info_live := 0; cp_head_live := 0; kmem_calls := 0; cp_written := 0 |};
  log_objs := ∅; sys_io := []; commt_thread_cnt := cnt; is_clean_jfile := true; cp_thread_cnt := 0 |}.

Lemma sys0_initial cnt : initial (sys0 cnt).
Proof. constructor; [done|done|exact (holds_wf _ _ mounted_holds)|done|done]. Qed.

Definition create7 : journal_op := OpCreate inode7 name_log stack_create.

Lemma log_keeps_threads p raw ino img s s' r : log_and_queue p raw ino img s = Some (s', r) ->
  commt_thread_cnt s' = commt_thread_cnt s /\ is_clean_jfile s' = is_clean_jfile s.
Proof.
  unfold log_and_queue. intros E. destruct (append_log _ _ _) as [[j0 e]|]; [|done]. cbn [mbind option_bind] in E.
  destruct (insert_log_into_inode _ _ _ _) as [[[ep fi] r0]|]; [|done]. cbn [mbind option_bind] in E. by injection E as <- _.
Qed.

(** The fifth iteration after a file was created and logged. *)
Lemma commit_tick_commits_all_witness :
  exists s r s', log_and_queue 64 raw_entry 7 (op_image create7) (sys0 4) = Some (s, r) /\
    j_ep_commit_kthread_tick kmem_ok writepages_ok s = Some s' /\
    (forall ino fi, sys_inodes s' !! ino = Some fi -> all_logs fi = []).
Proof.
  destruct (log_and_queue_inv [] (sys0 4) 64 raw_entry 7 (op_image create7)) as (s1 & r & E1 & Hinv1).
  { apply initial_inv, sys0_initial. }
  { apply not_elem_of_empty. }
  destruct (log_keeps_threads _ _ _ _ _ _ _ E1) as [Ec Ecl].
  destruct (commit_tick_commits_all kmem_ok writepages_ok s1 nothing_fails Hinv1) as (s2 & E2 & _ & _ & _ & _ & H).
  { rewrite Ecl. reflexivity. }
  { rewrite Ec. reflexivity. }
  exists s1, r, s2. by conjs.
Defined.

Lemma epoch_checkpoint_correct_witness :
  let ci := {| log_inode_id := 7; log_node_id := 0; log_segno := 0 |} in
  let c := {| g_checkpoint_list := [[ci; ci]; []; [ci]]; cp_info_live := 4; cp_head_live := 3; kmem_calls := 7;
              cp_written := 2 |} in
  let '(c', j', ret) := epoch_checkpoint c journal0 in
  ret = F2FSJ_OK /\ is_g_checkpoint_cp_list_empty c' = true /\ checkpoint_wf 1 c' /\
  cp_head_live c' = 0 /\ cp_info_live c' = 1 /\ cp_written c' = 3 /\
  get_on_disk_free_journal_space j' = total_file_size (g_on_disk_j_file journal0).
Proof.
  apply (epoch_checkpoint_correct 1
    {| g_checkpoint_list := [[{| log_inode_id := 7; log_node_id := 0; log_segno := 0 |};
                              {| log_inode_id := 7; log_node_id := 0; log_segno := 0 |}]; [];
                             [{| log_inode_id := 7; log_node_id := 0; log_segno := 0 |}]];
       cp_info_live := 4; cp_head_live := 3; kmem_calls := 7; cp_written := 2 |} journal0).
  - constructor; reflexivity.
  - cbn. lia.
Defined.
