(* ===== verification/InoEntry.v ===== *)
(** * Inode entries and orphans (checkpoint.c)

    Per kind of entry a tree and a list of inode numbers: orphans, inodes with
    data or metadata written since the last checkpoint, and the devices they were
    written to.  Orphans are also counted before they exist, so that their number
    stays below what a checkpoint can hold; a checkpoint writes them to blocks
    that the next mount reads. *)

From S2P Require Import Prelude.

Inductive ino_type := ORPHAN_INO | APPEND_INO | UPDATE_INO | TRANS_DIR_INO | FLUSH_INO.
#[export] Instance ino_type_eq_dec : EqDecision ino_type.
Proof. solve_decision. Defined.

(** [struct inode_management]: the entry of an inode is its set of dirty devices. *)
Record inode_management := { ino_root : gmap Z (gset Z); ino_list : list Z; ino_num : Z }.
Definition ino_mgmt : Type := ino_type -> inode_management.

(** One kind replaced. *)
Definition set_im (im : ino_mgmt) (t : ino_type) (m : inode_management) : ino_mgmt := fun t' => if decide (t' = t) then m else im t'.

Definition no_inos : inode_management := {| ino_root := ∅; ino_list := []; ino_num := 0 |}.

(** [f2fs_init_ino_entry_info], without the bound on orphans. *)
Definition f2fs_init_ino_entry_info : ino_mgmt := fun _ => no_inos.

Definition INO_ENOSPC : Z := 28.

(** [__add_ino_entry].  [seen] is what the look-up without the lock found, for
    device entries only.  Also returned: the calls of radix_tree_preload without
    a radix_tree_preload_end, one if the entry has vanished meanwhile. *)
Definition __add_ino_entry (seen : bool) (im : ino_mgmt) (ino devidx : Z) (type : ino_type) : option (ino_mgmt * Z) :=
  let flush := bool_decide (type = FLUSH_INO) in
  let m := im type in
  let set_dev := fun e : gset Z => if flush then {[devidx]} ∪ e else e in
  match ino_root m !! ino with
  | Some e => Some (set_im im type {| ino_root := <[ino := set_dev e]> (ino_root m); ino_list := ino_list m; ino_num := ino_num m |}, 0)
  | None =>
      l ← list_add_tail ino (ino_list m);
      let num := if decide (type = ORPHAN_INO) then ino_num m else u64 (ino_num m + 1) in
      Some (set_im im type {| ino_root := <[ino := set_dev ∅]> (ino_root m); ino_list := l; ino_num := num |},
            if seen && flush then 1 else 0)
  end.

Definition __remove_ino_entry (im : ino_mgmt) (ino : Z) (type : ino_type) : option ino_mgmt :=
  let m := im type in
  match ino_root m !! ino with
  | Some _ =>
      l ← list_del ino (ino_list m);
      Some (set_im im type {| ino_root := delete ino (ino_root m); ino_list := l; ino_num := u64 (ino_num m - 1) |})
  | None => Some im
  end.

Definition f2fs_add_ino_entry (im : ino_mgmt) (ino : Z) (type : ino_type) : option ino_mgmt := fst <$> __add_ino_entry false im ino 0 type.
Definition f2fs_remove_ino_entry : ino_mgmt -> Z -> ino_type -> option ino_mgmt := __remove_ino_entry.
Definition f2fs_exist_written_data (im : ino_mgmt) (ino : Z) (mode : ino_type) : bool := bool_decide (is_Some (ino_root (im mode) !! ino)).

(** The loop of [f2fs_release_ino_entry] on one kind. *)
Fixpoint release_list (es : list Z) (m : inode_management) : option inode_management :=
  match es with
  | [] => Some m
  | e :: es =>
      l ← list_del e (ino_list m);
      release_list es {| ino_root := delete e (ino_root m); ino_list := l; ino_num := u64 (ino_num m - 1) |}
  end.
Fixpoint release_types (ts : list ino_type) (im : ino_mgmt) : option ino_mgmt :=
  match ts with
  | [] => Some im
  | t :: ts => m ← release_list (ino_list (im t)) (im t); release_types ts (set_im im t m)
  end.
Definition f2fs_release_ino_entry (im : ino_mgmt) (all : bool) : option ino_mgmt :=
  release_types ((if all then [ORPHAN_INO] else []) ++ [APPEND_INO; UPDATE_INO; TRANS_DIR_INO; FLUSH_INO]) im.

Definition f2fs_set_dirty_device (seen : bool) (im : ino_mgmt) (ino devidx : Z) (type : ino_type) : option ino_mgmt :=
  fst <$> __add_ino_entry seen im ino devidx type.
Definition f2fs_is_dirty_device (im : ino_mgmt) (ino devidx : Z) (type : ino_type) : bool :=
  match ino_root (im type) !! ino with Some e => bool_decide (devidx ∈ e) | None => false end.

(** ** Orphans *)

Section orphans.
Context (max_orphans : Z).

(** The counter of orphans replaced. *)
Definition set_orphan_num (im : ino_mgmt) (n : Z) : ino_mgmt :=
  set_im im ORPHAN_INO {| ino_root := ino_root (im ORPHAN_INO); ino_list := ino_list (im ORPHAN_INO); ino_num := n |}.

(** [f2fs_acquire_orphan_inode] without fault injection, [f2fs_release_orphan_inode],
    which traps on a counter of 0. *)
Definition f2fs_acquire_orphan_inode (im : ino_mgmt) : ino_mgmt * Z :=
  if max_orphans <=? ino_num (im ORPHAN_INO) then (im, - INO_ENOSPC)
  else (set_orphan_num im (u64 (ino_num (im ORPHAN_INO) + 1)), 0).
Definition f2fs_release_orphan_inode (im : ino_mgmt) : option ino_mgmt :=
  if ino_num (im ORPHAN_INO) =? 0 then None else Some (set_orphan_num im (u64 (ino_num (im ORPHAN_INO) - 1))).

Definition f2fs_add_orphan_inode (im : ino_mgmt) (ino : Z) : option ino_mgmt := fst <$> __add_ino_entry false im ino 0 ORPHAN_INO.
Definition f2fs_remove_orphan_inode (im : ino_mgmt) (ino : Z) : option ino_mgmt := __remove_ino_entry im ino ORPHAN_INO.

(** The invariant, while [tok] orphans are acquired and neither added nor released. *)
Record ino_inv (im : ino_mgmt) (tok : Z) : Prop := {
  ii_nodup : forall t, NoDup (ino_list (im t));
  ii_root : forall t ino, is_Some (ino_root (im t) !! ino) <-> ino ∈ ino_list (im t);
  ii_num : forall t, ino_num (im t) = Z.of_nat (length (ino_list (im t))) + (if decide (t = ORPHAN_INO) then tok else 0);
  ii_tok : 0 <= tok;
  ii_max : ino_num (im ORPHAN_INO) <= max_orphans;
  ii_range : forall t, ino_num (im t) < 2 ^ 63
}.

Context (max_range : 0 <= max_orphans < 2 ^ 32).

Lemma init_ino_inv : ino_inv f2fs_init_ino_entry_info 0.
Proof.
  constructor; cbn; try lia.
  - constructor.
  - intros t ino. rewrite lookup_empty. split; [by intros []|by intros ?%elem_of_nil].
  - intros t. by case_decide.
Qed.

Lemma set_im_eq im t m : set_im im t m t = m.
Proof. unfold set_im. by rewrite decide_True. Qed.
Lemma set_im_ne im t t' m : t' <> t -> set_im im t m t' = im t'.
Proof. intros Hne. unfold set_im. by rewrite decide_False. Qed.

(** A kind replaced by one that satisfies its part of the invariant. *)
Lemma ino_inv_set im tok t m tok' : ino_inv im tok -> NoDup (ino_list m) -> (forall ino, is_Some (ino_root m !! ino) <-> ino ∈ ino_list m) ->
  ino_num m = Z.of_nat (length (ino_list m)) + (if decide (t = ORPHAN_INO) then tok' else 0) -> 0 <= tok' ->
  (t = ORPHAN_INO -> ino_num m <= max_orphans) -> (t <> ORPHAN_INO -> tok' = tok) -> ino_num m < 2 ^ 63 -> ino_inv (set_im im t m) tok'.
Proof.
  intros [] Hn Hr Hm Ht Hx Hk H63. constructor; try done.
  - intros t'. destruct (decide (t' = t)) as [->|]; [by rewrite set_im_eq|by rewrite set_im_ne].
  - intros t'. destruct (decide (t' = t)) as [->|]; [by rewrite set_im_eq|by rewrite set_im_ne].
  - intros t'. destruct (decide (t' = t)) as [->|Hne]; [by rewrite set_im_eq|rewrite set_im_ne by done]. rewrite ii_num0.
    destruct (decide (t' = ORPHAN_INO)) as [->|Ho]; [|done]. rewrite Hk by congruence. done.
  - destruct (decide (t = ORPHAN_INO)) as [->|Hne]; [rewrite set_im_eq; by apply Hx|by rewrite set_im_ne].
  - intros t'. destruct (decide (t' = t)) as [->|]; [by rewrite set_im_eq|by rewrite set_im_ne].
Qed.

Lemma set_orphan_num_inv im tok tok' : ino_inv im tok -> 0 <= tok' -> ino_num (im ORPHAN_INO) - tok + tok' <= max_orphans ->
  ino_inv (set_orphan_num im (ino_num (im ORPHAN_INO) - tok + tok')) tok'.
Proof.
  intros Hinv Ht Hm. pose proof (ii_num im tok Hinv ORPHAN_INO) as Hnum. rewrite decide_True in Hnum by done.
  apply (ino_inv_set im tok); cbn [ino_list ino_root ino_num]; try done; try apply Hinv; try lia. rewrite decide_True by done. lia.
Qed.

(** Entries *)
Lemma add_ino_entry_spec seen im tok ino dev t : ino_inv im tok -> ino_num (im t) < 2 ^ 62 -> (t = ORPHAN_INO -> ino ∉ ino_list (im t) -> 0 < tok) ->
  exists im' leak, __add_ino_entry seen im ino dev t = Some (im', leak) /\
    ino_list (im' t) = (if decide (ino ∈ ino_list (im t)) then ino_list (im t) else ino_list (im t) ++ [ino]) /\
    (forall t', t' <> t -> im' t' = im t') /\
    ino_inv im' (if decide (t = ORPHAN_INO /\ ino ∉ ino_list (im t)) then tok - 1 else tok).
Proof.
  intros Hinv H62 Htok. pose proof (ii_root im tok Hinv t) as Hroot. pose proof (ii_num im tok Hinv t) as Hnum. pose proof (ii_tok im tok Hinv) as Ht0.
  unfold __add_ino_entry. destruct (ino_root (im t) !! ino) as [e|] eqn:E.
  - assert (ino ∈ ino_list (im t)) as Hin by (apply Hroot; eauto). eexists _, _. split; [done|]. rewrite set_im_eq. split; [by destruct (decide (ino ∈ ino_list (im t)))|].
    split; [intros t' Hne; by rewrite set_im_ne|]. rewrite decide_False by tauto. apply (ino_inv_set im tok); cbn; try done; try apply Hinv.
    + intros i. rewrite lookup_insert_is_Some', Hroot. split; [|by right]. intros [<-|]; done.
    + intros ->. apply Hinv.
  - assert (ino ∉ ino_list (im t)) as Hin by (intros Hx%Hroot; rewrite E in Hx; by destruct Hx). rewrite list_add_tail_fresh by done. cbn [mbind option_bind].
    eexists _, _. split; [done|]. rewrite set_im_eq. split; [by destruct (decide (ino ∈ ino_list (im t)))|]. split; [intros t' Hne; by rewrite set_im_ne|].
    apply (ino_inv_set im tok); cbn; try done.
    + apply list.NoDup_app. split; [apply Hinv|]. split; [|apply NoDup_singleton]. intros x Hx Hs%list_elem_of_singleton. by subst.
    + intros i. rewrite lookup_insert_is_Some', Hroot, elem_of_app, list_elem_of_singleton. naive_solver.
    + rewrite length_app. cbn [length]. destruct (decide (t = ORPHAN_INO)) as [->|Hne].
      * destruct (decide (_ /\ _)) as [|Hx]; [lia|by destruct Hx].
      * rewrite u64_small by lia. lia.
    + destruct (decide (_ /\ _)) as [[-> _]|Hc]; [|done]. specialize (Htok eq_refl Hin). lia.
    + intros ->. cbn. apply Hinv.
    + intros Hne. destruct (decide (_ /\ _)) as [[]|]; done.
    + destruct (decide (t = ORPHAN_INO)); [apply Hinv|]. rewrite u64_small; lia.
Qed.

Lemma remove_ino_entry_spec im tok ino t : ino_inv im tok ->
  exists im', __remove_ino_entry im ino t = Some im' /\ ino_list (im' t) = filter (fun y => y <> ino) (ino_list (im t)) /\
    (forall t', t' <> t -> im' t' = im t') /\ ino_inv im' tok.
Proof.
  intros Hinv. pose proof (ii_root im tok Hinv t) as Hroot. pose proof (ii_num im tok Hinv t) as Hnum. pose proof (ii_tok im tok Hinv) as Ht0.
  pose proof (ii_nodup im tok Hinv t) as Hnd. unfold __remove_ino_entry. destruct (ino_root (im t) !! ino) as [e|] eqn:E.
  - assert (ino ∈ ino_list (im t)) as Hin by (apply Hroot; eauto). unfold list_del. rewrite decide_True by done. cbn [mbind option_bind].
    eexists. split; [done|]. rewrite set_im_eq. split; [done|]. split; [intros t' Hne; by rewrite set_im_ne|].
    pose proof (length_filter_ne ino _ Hnd Hin) as Hlen. pose proof (ii_range im tok Hinv t).
    assert (0 < Z.of_nat (length (ino_list (im t)))) by (destruct (ino_list (im t)); [by apply elem_of_nil in Hin|cbn; lia]).
    assert (u64 (ino_num (im t) - 1) = ino_num (im t) - 1) as E64 by (apply u64_small; case_decide; lia).
    apply (ino_inv_set im tok); cbn; try done.
    + by apply list.NoDup_filter.
    + intros i. rewrite lookup_delete_is_Some, Hroot, list_elem_of_filter. naive_solver.
    + rewrite Hlen, E64, Hnum. case_decide; lia.
    + intros ->. rewrite E64. pose proof (ii_max im tok Hinv). lia.
    + rewrite E64. lia.
  - assert (ino ∉ ino_list (im t)) as Hin by (intros Hx%Hroot; rewrite E in Hx; by destruct Hx). exists im. split; [done|].
    split; [by rewrite list_filter_all_ne|]. done.
Qed.
End orphans.
