(* ===== verification/Orphan.v ===== *)
(** * Orphans across a checkpoint (checkpoint.c, dir.c)

    Inodes without links are on the list of orphans; a checkpoint writes the list
    to the orphan blocks of the checkpoint pack, and the next mount frees the
    inodes it reads there. *)

From S2P Require Import Prelude.
From S2P Require Import InoEntry.

(** The orphan blocks of linux/f2fs_fs.h: entries per block, and the number of
    blocks for a number of orphans. *)
Class OrphanFormat := {
  F2FS_ORPHANS_PER_BLOCK : Z; GET_ORPHAN_BLOCKS : Z -> Z;
  orphans_per_block : 0 < F2FS_ORPHANS_PER_BLOCK < 2 ^ 16;
  orphan_blocks_law : forall n, 0 <= n -> GET_ORPHAN_BLOCKS n = (n + F2FS_ORPHANS_PER_BLOCK - 1) / F2FS_ORPHANS_PER_BLOCK
}.

(** [struct f2fs_orphan_block], the numbers that are filled in. *)
Record f2fs_orphan_block := { ob_ino : list Z; blk_addr : Z; blk_count : Z; entry_count : Z }.

Section blocks.
Context `{OrphanFormat}.

(** The loop of [write_orphan_inodes]: the block being filled, the next block
    number, the index, and the meta pages written. *)
Fixpoint write_orphan_loop (l : list Z) (page : option (Z * list Z)) (start_blk index orphan_blocks : Z) (meta : gmap Z f2fs_orphan_block)
    : gmap Z f2fs_orphan_block :=
  match l with
  | [] =>
      match page with
      | Some (blk, inos) => <[blk := {| ob_ino := inos; blk_addr := u16 index; blk_count := u16 orphan_blocks; entry_count := u32 (Z.of_nat (length inos)) |}]> meta
      | None => meta
      end
  | ino :: l =>
      let '(blk, inos, start_blk) := match page with Some (blk, inos) => (blk, inos, start_blk) | None => (start_blk, [], start_blk + 1) end in
      let inos := inos ++ [u32 ino] in
      if Z.of_nat (length inos) =? F2FS_ORPHANS_PER_BLOCK then
        write_orphan_loop l None start_blk (u16 (index + 1)) orphan_blocks
          (<[blk := {| ob_ino := inos; blk_addr := u16 index; blk_count := u16 orphan_blocks; entry_count := u32 (Z.of_nat (length inos)) |}]> meta)
      else write_orphan_loop l (Some (blk, inos)) start_blk index orphan_blocks meta
  end.
Definition write_orphan_inodes (im : ino_mgmt) (start_blk : Z) (meta : gmap Z f2fs_orphan_block) : gmap Z f2fs_orphan_block :=
  write_orphan_loop (ino_list (im ORPHAN_INO)) None start_blk 1 (u16 (GET_ORPHAN_BLOCKS (ino_num (im ORPHAN_INO)))) meta.

(** The inner loop of [f2fs_recover_orphan_inodes] over the entries of a block;
    [recover] is [recover_orphan_inode].  The inodes freed and the error. *)
Fixpoint recover_entries (recover : Z -> Z) (inos : list Z) (freed : list Z) : list Z * Z :=
  match inos with
  | [] => (freed, 0)
  | ino :: inos => let err := recover ino in if err =? 0 then recover_entries recover inos (freed ++ [ino]) else (freed, err)
  end.

(** The outer loop over [n] blocks; [meta] gives a block or the error of reading it. *)
Fixpoint recover_orphan_loop (recover : Z -> Z) (n : nat) (blk : Z) (meta : Z -> Z + f2fs_orphan_block) (freed : list Z) : list Z * Z :=
  match n with
  | O => (freed, 0)
  | S n =>
      match meta blk with
      | inl err => (freed, err)
      | inr b =>
          let '(freed, err) := recover_entries recover (take (Z.to_nat (entry_count b)) (ob_ino b)) freed in
          if err =? 0 then recover_orphan_loop recover n (blk + 1) meta freed else (freed, err)
      end
  end.

(** [f2fs_recover_orphan_inodes]: nothing without the flag or on a read-only device;
    otherwise the blocks between the checkpoint block with its payload and the
    summaries; the flag is cleared on success. *)
Definition f2fs_recover_orphan_inodes (recover : Z -> Z) (orphan_present read_only : bool) (start_cp_addr start_sum_addr cp_payload : Z)
    (meta : Z -> Z + f2fs_orphan_block) : list Z * Z * bool :=
  if negb orphan_present || read_only then ([], 0, orphan_present)
  else
    let start_blk := start_cp_addr + 1 + cp_payload in
    let orphan_blocks := start_sum_addr - 1 - cp_payload in
    let '(freed, err) := recover_orphan_loop recover (Z.to_nat orphan_blocks) start_blk meta [] in
    (freed, err, negb (err =? 0)).

(** ** What a checkpoint writes is what a mount reads *)

(** The chunks the loop makes of a list, given what the current block holds. *)
Definition per : nat := Z.to_nat F2FS_ORPHANS_PER_BLOCK.

(** Blocks [blk ...] hold the list [l] and nothing else is read in [n] blocks. *)
Fixpoint holds (meta : gmap Z f2fs_orphan_block) (n : nat) (blk : Z) (l : list Z) : Prop :=
  match n with
  | O => l = []
  | S n => exists b, meta !! blk = Some b /\ entry_count b = Z.of_nat (length (ob_ino b)) /\
      exists l', l = ob_ino b ++ l' /\ holds meta n (blk + 1) l'
  end.

Lemma holds_insert_below meta n blk blk' b l : blk' < blk -> holds (<[blk' := b]> meta) n blk l <-> holds meta n blk l.
Proof.
  revert blk l. induction n as [|n IH]; intros blk l Hlt; cbn; [done|]. rewrite lookup_insert_ne by lia. setoid_rewrite (IH (blk + 1)); [done|lia].
Qed.

(** Enough fuel is not needed: the loop is structural.  The blocks it writes. *)
Lemma write_loop_below l : forall page start index cnt meta blk, (forall b inos, page = Some (b, inos) -> blk < b) -> blk < start ->
  write_orphan_loop l page start index cnt meta !! blk = meta !! blk.
Proof.
  induction l as [|ino l IH]; intros page start index cnt meta blk Hp Hs; cbn -[u32 u16].
  - destruct page as [[b inos]|]; [|done]. rewrite lookup_insert_ne; [done|]. specialize (Hp b inos eq_refl). lia.
  - set (t := match page with Some _ => _ | None => _ end). destruct t as [[b inos] st] eqn:Et.
    assert (blk < b /\ blk < st) as [Hb Hst].
    { destruct page as [[b0 i0]|]; injection Et as <- <- <-; [specialize (Hp b0 i0 eq_refl)|]; lia. }
    destruct (_ =? _).
    + rewrite IH by (done || naive_solver). by rewrite lookup_insert_ne by lia.
    + apply IH; [|done]. intros ?? [= <- _]. done.
Qed.

Lemma length_pos_blocks n k : 0 < k -> 0 <= n -> (n + k - 1) / k = (if n =? 0 then 0 else (n - 1) / k + 1).
Proof.
  intros Hk Hn. destruct (Z.eqb_spec n 0) as [->|Hz]; [rewrite Z.div_small; lia|]. replace (n + k - 1) with (n - 1 + 1 * k) by lia. by rewrite Z.div_add by lia.
Qed.

(** The blocks needed for [l] when the current one holds [inos] already. *)
Definition blocks_for (n : Z) : nat := Z.to_nat ((n + F2FS_ORPHANS_PER_BLOCK - 1) / F2FS_ORPHANS_PER_BLOCK).

Lemma blocks_for_full n : 0 <= n -> blocks_for (F2FS_ORPHANS_PER_BLOCK + n) = S (blocks_for n).
Proof.
  intros Hn. pose proof orphans_per_block. unfold blocks_for.
  replace (F2FS_ORPHANS_PER_BLOCK + n + F2FS_ORPHANS_PER_BLOCK - 1) with (n + F2FS_ORPHANS_PER_BLOCK - 1 + 1 * F2FS_ORPHANS_PER_BLOCK) by lia.
  rewrite Z.div_add by lia. assert (0 <= (n + F2FS_ORPHANS_PER_BLOCK - 1) / F2FS_ORPHANS_PER_BLOCK) by (apply Z.div_pos; lia). lia.
Qed.
Lemma blocks_for_small n : 0 < n <= F2FS_ORPHANS_PER_BLOCK -> blocks_for n = 1%nat.
Proof.
  intros Hn. pose proof orphans_per_block. unfold blocks_for. replace (n + F2FS_ORPHANS_PER_BLOCK - 1) with (n - 1 + 1 * F2FS_ORPHANS_PER_BLOCK) by lia.
  rewrite Z.div_add, Z.div_small by lia. done.
Qed.
Lemma blocks_for_0 : blocks_for 0 = 0%nat.
Proof. pose proof orphans_per_block. unfold blocks_for. rewrite Z.div_small by lia. done. Qed.

(** One orphan more in a block that holds [inos]. *)
Lemma write_orphan_loop_step l ino blk inos index cnt meta : 0 <= ino < 2 ^ 32 -> Z.of_nat (length inos) < F2FS_ORPHANS_PER_BLOCK ->
  (forall index meta, holds (write_orphan_loop l None (blk + 1) index cnt meta) (blocks_for (Z.of_nat (length l))) (blk + 1) l) ->
  (Z.of_nat (length inos + 1) < F2FS_ORPHANS_PER_BLOCK ->
    holds (write_orphan_loop l (Some (blk, inos ++ [ino])) (blk + 1) index cnt meta) (blocks_for (Z.of_nat (length inos + 1 + length l))) blk ((inos ++ [ino]) ++ l)) ->
  holds (if Z.of_nat (length (inos ++ [ino])) =? F2FS_ORPHANS_PER_BLOCK then
      write_orphan_loop l None (blk + 1) (u16 (index + 1)) cnt
        (<[blk := {| ob_ino := inos ++ [ino]; blk_addr := u16 index; blk_count := u16 cnt; entry_count := u32 (Z.of_nat (length (inos ++ [ino]))) |}]> meta)
    else write_orphan_loop l (Some (blk, inos ++ [ino])) (blk + 1) index cnt meta)
    (blocks_for (Z.of_nat (length inos + S (length l)))) blk (inos ++ ino :: l).
Proof.
  intros Hino Hlt Hnone Hsome. pose proof orphans_per_block as Hper. rewrite length_app. cbn [length].
  destruct (Z.eqb_spec (Z.of_nat (length inos + 1)) F2FS_ORPHANS_PER_BLOCK) as [Hfull|Hnf].
  - replace (Z.of_nat (length inos + S (length l))) with (F2FS_ORPHANS_PER_BLOCK + Z.of_nat (length l)) by lia. rewrite blocks_for_full by lia.
    eexists. rewrite write_loop_below by (done || lia). rewrite lookup_insert_eq. split; [done|]. cbn -[u32 u16]. rewrite length_app. cbn [length].
    split; [apply u32_small; lia|]. exists l. split; [by rewrite <-app_assoc|]. apply Hnone.
  - replace (Z.of_nat (length inos + S (length l))) with (Z.of_nat (length inos + 1 + length l)) by lia.
    replace (inos ++ ino :: l) with ((inos ++ [ino]) ++ l) by (by rewrite <-app_assoc). apply Hsome. lia.
Qed.

Lemma write_orphan_loop_spec cnt l : Forall (fun i => 0 <= i < 2 ^ 32) l ->
  (forall blk index meta, holds (write_orphan_loop l None blk index cnt meta) (blocks_for (Z.of_nat (length l))) blk l) /\
  (forall blk inos index meta, 0 < Z.of_nat (length inos) < F2FS_ORPHANS_PER_BLOCK ->
    holds (write_orphan_loop l (Some (blk, inos)) (blk + 1) index cnt meta) (blocks_for (Z.of_nat (length inos + length l))) blk (inos ++ l)).
Proof.
  pose proof orphans_per_block as Hper. induction 1 as [|ino l Hino Hl [IH0 IH1]]; split.
  - intros. change (Z.of_nat (@length Z [])) with 0. rewrite blocks_for_0. done.
  - intros blk inos index meta Hi. cbn -[u32 u16 blocks_for]. rewrite Nat.add_0_r, blocks_for_small by lia. eexists. rewrite lookup_insert_eq.
    split; [done|]. cbn -[u32 u16]. split; [apply u32_small; lia|]. exists []. by rewrite app_nil_r.
  - intros blk index meta. cbn -[u32 u16 blocks_for length app]. rewrite (u32_small ino) by done.
    apply (write_orphan_loop_step l ino blk [] index cnt meta); [done|cbn; lia|intros; apply IH0|]. intros Hlt. apply (IH1 blk [ino]). cbn in *. lia.
  - intros blk inos index meta Hi. cbn -[u32 u16 blocks_for length app]. rewrite (u32_small ino) by done.
    apply write_orphan_loop_step; [done|lia|intros; apply IH0|]. intros Hlt. rewrite <-(length_app inos [ino] : _ = (length inos + 1)%nat). apply IH1. rewrite length_app. cbn. lia.
Qed.

Lemma recover_entries_all recover inos freed : (forall i, i ∈ inos -> recover i = 0) -> recover_entries recover inos freed = (freed ++ inos, 0).
Proof.
  revert freed. induction inos as [|i inos IH]; intros freed Hr; cbn; [by rewrite app_nil_r|]. rewrite Hr by (left; done). cbn.
  rewrite IH by (intros j Hj; apply Hr; by right). by rewrite <-app_assoc.
Qed.

Lemma recover_loop_holds recover meta n blk l freed : holds meta n blk l -> (forall i, i ∈ l -> recover i = 0) ->
  recover_orphan_loop recover n blk (fun i => match meta !! i with Some b => inr b | None => inl (-5) end) freed = (freed ++ l, 0).
Proof.
  revert blk l freed. induction n as [|n IH]; intros blk l freed; cbn.
  - intros -> _. by rewrite app_nil_r.
  - intros (b & -> & Hc & l' & -> & Hh) Hr. rewrite Hc, Nat2Z.id, firstn_all, recover_entries_all by (intros i Hi; apply Hr; set_solver). cbn.
    rewrite (IH _ l') by (done || (intros i Hi; apply Hr; set_solver)). by rewrite app_assoc.
Qed.

(** Orphans survive a crash.  The inodes on the list of orphans when a
    checkpoint is written are exactly those the next mount frees, in their order,
    for any number of orphans, full and partly filled blocks; the flag is cleared.
    The checkpoint is taken when no operation is in flight, so the counter is the
    length of the list. *)
Theorem orphans_recovered im recover meta0 start_cp cp_payload max_orphans :
  ino_inv max_orphans im 0 -> Forall (fun i => 0 <= i < 2 ^ 32) (ino_list (im ORPHAN_INO)) -> 0 <= cp_payload ->
  (forall i, i ∈ ino_list (im ORPHAN_INO) -> recover i = 0) ->
  let meta := write_orphan_inodes im (start_cp + 1 + cp_payload) meta0 in
  let start_sum := 1 + cp_payload + GET_ORPHAN_BLOCKS (ino_num (im ORPHAN_INO)) in
  f2fs_recover_orphan_inodes recover true false start_cp start_sum cp_payload
    (fun i => match meta !! i with Some b => inr b | None => inl (-5) end) = (ino_list (im ORPHAN_INO), 0, false).
Proof.
  intros Hinv Hl Hp Hr meta start_sum. unfold f2fs_recover_orphan_inodes. cbn [negb orb].
  pose proof (ii_num _ im 0 Hinv ORPHAN_INO) as Hnum. rewrite decide_True, Z.add_0_r in Hnum by done.
  replace (Z.to_nat (start_sum - 1 - cp_payload)) with (blocks_for (Z.of_nat (length (ino_list (im ORPHAN_INO))))).
  2: { unfold start_sum, blocks_for. rewrite Hnum, orphan_blocks_law by lia. f_equal. lia. }
  rewrite (recover_loop_holds recover meta _ _ (ino_list (im ORPHAN_INO)) []); [done| |done].
  unfold meta, write_orphan_inodes. by apply write_orphan_loop_spec.
Qed.
End blocks.

(** ** Link counts and orphans

    The operations of namei.c on an inode that take or drop a link, as sections
    under the checkpoint lock, with what becomes of an inode whose creation fails. *)
Section links.
Context (max_orphans NULL_ADDR : Z).

(** Link counts of the inodes in memory, and the inode entries; the inodes with the flag
    FI_FREE_NID, which never had a block, and the flag SBI_NEED_FSCK. *)
Record link_state := { nlinks : gmap Z Z; im : ino_mgmt; FI_FREE_NID : gset Z; SBI_NEED_FSCK : bool }.
Definition with_im (st : link_state) (m : ino_mgmt) : link_state := {| nlinks := nlinks st; im := m; FI_FREE_NID := FI_FREE_NID st; SBI_NEED_FSCK := SBI_NEED_FSCK st |}.
Definition with_nlink (st : link_state) (ino nl : Z) : link_state := {| nlinks := <[ino := nl]> (nlinks st); im := im st; FI_FREE_NID := FI_FREE_NID st; SBI_NEED_FSCK := SBI_NEED_FSCK st |}.
Definition with_fsck (st : link_state) : link_state := {| nlinks := nlinks st; im := im st; FI_FREE_NID := FI_FREE_NID st; SBI_NEED_FSCK := true |}.
Definition with_free_nid (st : link_state) (ino : Z) : link_state := {| nlinks := nlinks st; im := im st; FI_FREE_NID := {[ino]} ∪ FI_FREE_NID st; SBI_NEED_FSCK := SBI_NEED_FSCK st |}.

(** [f2fs_drop_nlink], on the inode: [n] links are dropped (two of a directory), and
    an inode without links becomes an orphan in the place that was acquired. *)
Definition f2fs_drop_nlink (st : link_state) (ino n : Z) : option link_state :=
  nl ← nlinks st !! ino;
  let nl := u32 (nl - n) in
  im' ← if nl =? 0 then f2fs_add_orphan_inode (im st) ino else f2fs_release_orphan_inode (im st);
  Some (with_im (with_nlink st ino nl) im').

(** Unlinking, and renaming over an inode: a place for an orphan is acquired first. *)
Definition drop_links (st : link_state) (ino n : Z) : option (link_state * Z) :=
  match f2fs_acquire_orphan_inode max_orphans (im st) with
  | (im', 0) => st ← f2fs_drop_nlink (with_im st im') ino n; Some (st, 0)
  | (_, err) => Some (st, err)
  end.

(** [f2fs_handle_failed_inode]: the inode loses its links; if it has a block it becomes an
    orphan, when the list has a place.  [ni] is the block [f2fs_get_node_info] finds, [None]
    if that fails. *)
Definition f2fs_handle_failed_inode (st : link_state) (ino : Z) (ni : option Z) : option link_state :=
  let st := with_nlink st ino 0 in
  match ni with
  | None => Some (with_fsck st)
  | Some blk_addr =>
      if blk_addr =? NULL_ADDR then Some (with_free_nid st ino)
      else
        match f2fs_acquire_orphan_inode max_orphans (im st) with
        | (im', 0) => with_im st <$> f2fs_add_orphan_inode im' ino
        | _ => Some (with_fsck st)
        end
  end.

(** A new inode with a name ([f2fs_create], [f2fs_mkdir], [f2fs_mknod], [f2fs_symlink]):
    [f2fs_new_inode] gives it one link, a directory gets another; [err] is the result of
    [f2fs_add_link]. *)
Definition new_inode (st : link_state) (ino : Z) (dir : bool) (err : Z) (ni : option Z) : option (link_state * Z) :=
  let st := with_nlink st ino 1 in
  if err =? 0 then Some (if dir then with_nlink st ino 2 else st, 0)
  else st ← f2fs_handle_failed_inode st ino ni; Some (st, err).

(** A file without a name ([__f2fs_tmpfile]); [err] is the result of [f2fs_do_tmpfile]. *)
Definition make_tmpfile (st : link_state) (ino err : Z) (ni : option Z) : option (link_state * Z) :=
  let st := with_nlink st ino 1 in
  match f2fs_acquire_orphan_inode max_orphans (im st) with
  | (im', 0) =>
      if err =? 0 then im' ← f2fs_add_orphan_inode im' ino; Some (with_nlink (with_im st im') ino 0, 0)
      else im' ← f2fs_release_orphan_inode im'; st ← f2fs_handle_failed_inode (with_im st im') ino ni; Some (st, err)
  | (_, err) => st ← f2fs_handle_failed_inode st ino ni; Some (st, err)
  end.

(** A new name for an inode, in [f2fs_init_inode_metadata]: a file without a name
    leaves the orphans. *)
Definition take_link (st : link_state) (ino : Z) : option link_state :=
  nl ← nlinks st !! ino;
  im' ← if nl =? 0 then f2fs_remove_orphan_inode (im st) ino else Some (im st);
  Some (with_nlink (with_im st im') ino (u32 (nl + 1))).

(** The inode is freed: [truncate_node] on its own block, if it has one. *)
Definition free_inode (st : link_state) (ino : Z) : option link_state :=
  im' ← if decide (ino ∈ FI_FREE_NID st) then Some (im st) else f2fs_remove_orphan_inode (im st) ino;
  Some {| nlinks := delete ino (nlinks st); im := im'; FI_FREE_NID := FI_FREE_NID st ∖ {[ino]}; SBI_NEED_FSCK := SBI_NEED_FSCK st |}.

Inductive link_op := Drop (ino n : Z) | Tmpfile (ino err : Z) (ni : option Z) | Take (ino : Z) | NewInode (ino : Z) (dir : bool) (err : Z) (ni : option Z) | FreeInode (ino : Z).

Definition link_exec (st : link_state) (op : link_op) : option (link_state * Z) :=
  match op with
  | Drop ino n => drop_links st ino n
  | Tmpfile ino err ni => make_tmpfile st ino err ni
  | Take ino => (fun st => (st, 0)) <$> take_link st ino
  | NewInode ino dir err ni => new_inode st ino dir err ni
  | FreeInode ino => (fun st => (st, 0)) <$> free_inode st ino
  end.

(** Callers drop links an inode has, add links below the limit of the counter and to no
    inode that never had a block, and create an inode under a number not in use. *)
Definition link_op_ok (st : link_state) (op : link_op) : Prop :=
  match op with
  | Drop ino n => exists nl, nlinks st !! ino = Some nl /\ 0 < n <= nl
  | Tmpfile ino err _ | NewInode ino _ err _ => nlinks st !! ino = None /\ err <= 0
  | Take ino => ino ∉ FI_FREE_NID st /\ exists nl, nlinks st !! ino = Some nl /\ nl < 2 ^ 32 - 1
  | FreeInode ino => True
  end.

(** The orphans have no links, and an inode without links and with a block is an orphan
    unless the file system is marked for a check. *)
Record link_inv (st : link_state) : Prop := {
  li_ino : ino_inv max_orphans (im st) 0;
  li_orphan : forall ino, ino ∈ ino_list (im st ORPHAN_INO) -> nlinks st !! ino = Some 0 /\ ino ∉ FI_FREE_NID st;
  li_unlinked : SBI_NEED_FSCK st = false -> forall ino, nlinks st !! ino = Some 0 -> ino ∉ FI_FREE_NID st -> ino ∈ ino_list (im st ORPHAN_INO);
  li_free : forall ino, ino ∈ FI_FREE_NID st -> nlinks st !! ino = Some 0;
  li_range : forall ino nl, nlinks st !! ino = Some nl -> 0 <= nl < 2 ^ 32
}.

Context (max_range : 0 <= max_orphans < 2 ^ 32).

(** Acquiring succeeds or fails at the bound. *)
Lemma acquire_spec im0 tok : ino_inv max_orphans im0 tok ->
  (f2fs_acquire_orphan_inode max_orphans im0 = (im0, - INO_ENOSPC) /\ max_orphans <= ino_num (im0 ORPHAN_INO)) \/
  exists im1, f2fs_acquire_orphan_inode max_orphans im0 = (im1, 0) /\ ino_inv max_orphans im1 (tok + 1) /\ ino_list (im1 ORPHAN_INO) = ino_list (im0 ORPHAN_INO).
Proof.
  intros Hinv. unfold f2fs_acquire_orphan_inode. destruct (Z.leb_spec max_orphans (ino_num (im0 ORPHAN_INO))); [by left|right].
  pose proof (ii_num _ im0 tok Hinv ORPHAN_INO) as Hn. rewrite decide_True in Hn by done. pose proof (ii_tok _ im0 tok Hinv).
  rewrite u64_small by lia. eexists. split; [done|]. split; [|done].
  replace (ino_num (im0 ORPHAN_INO) + 1) with (ino_num (im0 ORPHAN_INO) - tok + (tok + 1)) by lia. apply set_orphan_num_inv; [done|done|lia|lia].
Qed.

Lemma release_spec im0 tok : ino_inv max_orphans im0 tok -> 0 < tok ->
  exists im1, f2fs_release_orphan_inode im0 = Some im1 /\ ino_inv max_orphans im1 (tok - 1) /\ ino_list (im1 ORPHAN_INO) = ino_list (im0 ORPHAN_INO).
Proof.
  intros Hinv Ht. unfold f2fs_release_orphan_inode. pose proof (ii_num _ im0 tok Hinv ORPHAN_INO) as Hn. rewrite decide_True in Hn by done.
  pose proof (ii_max _ im0 tok Hinv). destruct (Z.eqb_spec (ino_num (im0 ORPHAN_INO)) 0); [lia|]. rewrite u64_small by lia. eexists. split; [done|]. split; [|done].
  replace (ino_num (im0 ORPHAN_INO) - 1) with (ino_num (im0 ORPHAN_INO) - tok + (tok - 1)) by lia. apply set_orphan_num_inv; [done|done|lia|lia].
Qed.

Lemma add_orphan_spec im0 tok ino : ino_inv max_orphans im0 tok -> 0 < tok -> ino ∉ ino_list (im0 ORPHAN_INO) ->
  exists im1, f2fs_add_orphan_inode im0 ino = Some im1 /\ ino_inv max_orphans im1 (tok - 1) /\ ino_list (im1 ORPHAN_INO) = ino_list (im0 ORPHAN_INO) ++ [ino].
Proof.
  intros Hinv Ht Hin. unfold f2fs_add_orphan_inode. pose proof (ii_max _ im0 tok Hinv).
  destruct (add_ino_entry_spec max_orphans max_range false im0 tok ino 0 ORPHAN_INO Hinv) as (im1 & leak & -> & Hl & _ & Hi); [lia|done|].
  rewrite decide_False in Hl by done. rewrite decide_True in Hi by done. eexists. done.
Qed.

Lemma remove_orphan_spec im0 tok ino : ino_inv max_orphans im0 tok ->
  exists im1, f2fs_remove_orphan_inode im0 ino = Some im1 /\ ino_inv max_orphans im1 tok /\ forall i, i ∈ ino_list (im1 ORPHAN_INO) <-> i <> ino /\ i ∈ ino_list (im0 ORPHAN_INO).
Proof.
  intros Hinv. destruct (remove_ino_entry_spec max_orphans max_range im0 tok ino ORPHAN_INO Hinv) as (im1 & E & Hl & _ & Hi). exists im1. split; [done|]. split; [done|].
  intros i. by rewrite Hl, list_elem_of_filter.
Qed.

(** One inode changes its count and its place on the list. *)
Lemma link_inv_change st ino nl m : link_inv st -> ino_inv max_orphans m 0 -> 0 <= nl < 2 ^ 32 -> ino ∉ FI_FREE_NID st ->
  (forall i, i ∈ ino_list (m ORPHAN_INO) <-> if decide (i = ino) then nl = 0 else i ∈ ino_list (im st ORPHAN_INO)) ->
  link_inv (with_im (with_nlink st ino nl) m).
Proof.
  intros [L1 L2 L3 L4 L5] Hm Hnl Hf Hl. constructor; cbn; [done| | | |].
  - intros i. rewrite Hl. destruct (decide (i = ino)) as [->|Hne]; [intros ->; by rewrite lookup_insert_eq|rewrite lookup_insert_ne by done; auto].
  - intros Hs i. rewrite Hl. destruct (decide (i = ino)) as [->|Hne]; [rewrite lookup_insert_eq; by intros [= ->]|rewrite lookup_insert_ne by done; auto].
  - intros i Hi. rewrite lookup_insert_ne by (intros ->; done). auto.
  - intros i x. rewrite lookup_insert_Some. intros [[<- <-]|[_ Hx]]; [done|by apply (L5 i)].
Qed.
Lemma same_list (im0 im1 : ino_mgmt) ino (nl : Z) : ino_list (im1 ORPHAN_INO) = ino_list (im0 ORPHAN_INO) -> (ino ∈ ino_list (im0 ORPHAN_INO) <-> nl = 0) ->
  forall i, i ∈ ino_list (im1 ORPHAN_INO) <-> if decide (i = ino) then nl = 0 else i ∈ ino_list (im0 ORPHAN_INO).
Proof. intros -> Hi i. by destruct (decide (i = ino)) as [->|]. Qed.
Lemma one_more (im0 im1 : ino_mgmt) ino : ino_list (im1 ORPHAN_INO) = ino_list (im0 ORPHAN_INO) ++ [ino] ->
  forall i, i ∈ ino_list (im1 ORPHAN_INO) <-> if decide (i = ino) then 0 = 0 else i ∈ ino_list (im0 ORPHAN_INO).
Proof. intros -> i. rewrite elem_of_app, list_elem_of_singleton. destruct (decide (i = ino)); naive_solver. Qed.

(** An inode in use has no place on the list. *)
Lemma linked_unlisted st ino nl : link_inv st -> nlinks st !! ino = nl -> nl <> Some 0 -> ino ∉ ino_list (im st ORPHAN_INO) /\ ino ∉ FI_FREE_NID st.
Proof. intros Hi Hn Hz. split; intros Hx; [apply (li_orphan _ Hi) in Hx as [Hx _]|apply (li_free _ Hi) in Hx]; congruence. Qed.

(** What a call keeps: the counts of the inodes there were. *)
Definition counts_kept (st st' : link_state) : Prop := forall i, nlinks st !! i <> None -> nlinks st' !! i = nlinks st !! i.
Lemma with_nlink_kept st ino x m : nlinks st !! ino = None -> counts_kept st (with_im (with_nlink st ino x) m).
Proof. intros Hn i Hi. cbn. rewrite lookup_insert_ne; [done|congruence]. Qed.

(** The creation of an inode that fails. *)
Lemma failed_inode_ok st ino x m ni : link_inv st -> nlinks st !! ino = None -> ino_inv max_orphans m 0 -> ino_list (m ORPHAN_INO) = ino_list (im st ORPHAN_INO) ->
  exists st', f2fs_handle_failed_inode (with_im (with_nlink st ino x) m) ino ni = Some st' /\ link_inv st' /\ counts_kept st st'.
Proof.
  intros Hi Hn Hm Hl. destruct (linked_unlisted st ino None Hi Hn ltac:(done)) as [Hul Huf]. unfold f2fs_handle_failed_inode, with_im, with_nlink. cbn [im nlinks FI_FREE_NID SBI_NEED_FSCK]. rewrite insert_insert_eq.
  assert (Hk : forall st', nlinks st' = <[ino := 0]> (nlinks st) -> counts_kept st st') by (intros st' E i Hx; rewrite E, lookup_insert_ne; [done|congruence]).
  assert (Hfsck : link_inv (with_fsck {| nlinks := <[ino := 0]> (nlinks st); im := m; FI_FREE_NID := FI_FREE_NID st; SBI_NEED_FSCK := SBI_NEED_FSCK st |})).
  { destruct Hi as [L1 L2 L3 L4 L5]. constructor; cbn; [done| |done| |].
    - intros i. rewrite Hl. intros Hx. rewrite lookup_insert_ne by (intros ->; done). auto.
    - intros i Hx. rewrite lookup_insert_ne by (intros ->; done). auto.
    - intros i y. rewrite lookup_insert_Some. intros [[<- <-]|[_ Hx]]; [lia|by apply (L5 i)]. }
  destruct ni as [blk|]; [|eexists; split; [done|]; split; [done|by apply Hk]]. destruct (Z.eqb_spec blk NULL_ADDR) as [->|_].
  - eexists. split; [done|]. split; [|by apply Hk]. destruct Hi as [L1 L2 L3 L4 L5]. constructor; cbn; [done| | | |].
    + intros i. rewrite Hl. intros Hx. assert (i <> ino) by (intros ->; done). rewrite lookup_insert_ne by done. destruct (L2 i Hx). set_solver.
    + intros Hs i Hx Hf. assert (i <> ino) by set_solver. rewrite lookup_insert_ne in Hx by done. rewrite Hl. apply L3; [done|done|set_solver].
    + intros i Hx. destruct (decide (i = ino)) as [->|]; [by rewrite lookup_insert_eq|]. rewrite lookup_insert_ne by done. apply L4. set_solver.
    + intros i y. rewrite lookup_insert_Some. intros [[<- <-]|[_ Hx]]; [lia|by apply (L5 i)].
  - destruct (acquire_spec m 0 Hm) as [[-> _]|(m1 & -> & Hm1 & Hl1)]; [eexists; split; [done|]; split; [done|by apply Hk]|].
    destruct (add_orphan_spec m1 1 ino) as (m2 & -> & Hm2 & Hl2); [done|lia|by rewrite Hl1, Hl|]. eexists. split; [done|]. split; [|by apply Hk].
    apply (link_inv_change st ino 0 m2 Hi Hm2); [lia|done|]. apply one_more. by rewrite Hl2, Hl1, Hl.
Qed.

(** A call that is made as the callers do returns; one that fails keeps the counts, and one
    that does not fail does not mark the file system. *)
Definition call_ok (st st' : link_state) (err : Z) : Prop := link_inv st' /\ (err <> 0 -> counts_kept st st') /\ (err = 0 -> SBI_NEED_FSCK st' = SBI_NEED_FSCK st).
Lemma drop_links_ok st ino n nl : link_inv st -> nlinks st !! ino = Some nl -> 0 < n <= nl -> exists st' err, drop_links st ino n = Some (st', err) /\ call_ok st st' err.
Proof.
  intros Hi Hnl Hn. unfold drop_links. destruct (acquire_spec (im st) 0 (li_ino _ Hi)) as [[-> _]|(im1 & -> & Hi1 & Hl1)]; [eexists _, _; split; [done|]; split; [done|]; split; [by intros _ i|done]|].
  destruct (linked_unlisted st ino (Some nl) Hi Hnl) as [Hul Huf]; [intros [= ->]; lia|]. unfold f2fs_drop_nlink. cbn [nlinks im with_im]. rewrite Hnl. cbn [mbind option_bind].
  pose proof (li_range _ Hi ino nl Hnl). rewrite (u32_small (nl - n)) by lia. destruct (Z.eqb_spec (nl - n) 0) as [Hz|Hz].
  - destruct (add_orphan_spec im1 1 ino) as (im2 & -> & Hi2 & Hl2); [done|lia|by rewrite Hl1|]. cbn [mbind option_bind]. eexists _, _. split; [done|]. split; [|done].
    apply (link_inv_change st ino (nl - n) im2 Hi Hi2); [lia|done|]. rewrite Hz. apply one_more. by rewrite Hl2, Hl1.
  - destruct (release_spec im1 1) as (im2 & -> & Hi2 & Hl2); [done|lia|]. cbn [mbind option_bind]. eexists _, _. split; [done|]. split; [|done].
    apply (link_inv_change st ino (nl - n) im2 Hi Hi2); [lia|done|]. apply same_list; [by rewrite Hl2|]. done.
Qed.
Lemma make_tmpfile_ok st ino err ni : link_inv st -> nlinks st !! ino = None -> exists st' err', make_tmpfile st ino err ni = Some (st', err') /\ call_ok st st' err'.
Proof.
  intros Hi Hn. destruct (linked_unlisted st ino None Hi Hn ltac:(done)) as [Hul Huf]. unfold make_tmpfile. cbn [im with_nlink]. destruct (acquire_spec (im st) 0 (li_ino _ Hi)) as [[-> _]|(im1 & -> & Hi1 & Hl1)].
  - destruct (failed_inode_ok st ino 1 (im st) ni Hi Hn (li_ino _ Hi) eq_refl) as (st' & E & Hi' & Hk). change (with_im (with_nlink st ino 1) (im st)) with (with_nlink st ino 1) in E. rewrite E. eexists _, _. split; [done|]. done.
  - destruct (Z.eqb_spec err 0) as [->|Hne].
    + destruct (add_orphan_spec im1 1 ino) as (im2 & -> & Hi2 & Hl2); [done|lia|by rewrite Hl1|]. cbn [mbind option_bind]. eexists _, _. split; [done|]. split; [|done].
      unfold with_nlink, with_im. cbn. rewrite insert_insert_eq. apply (link_inv_change st ino 0 im2 Hi Hi2); [lia|done|]. apply one_more. by rewrite Hl2, Hl1.
    + destruct (release_spec im1 1) as (im2 & -> & Hi2 & Hl2); [done|lia|]. cbn [mbind option_bind]. destruct (failed_inode_ok st ino 1 im2 ni Hi Hn Hi2) as (st' & -> & Hi' & Hk); [by rewrite Hl2|]. eexists _, _. split; [done|]. done.
Qed.
Lemma new_inode_ok st ino dir err ni : link_inv st -> nlinks st !! ino = None -> exists st' err', new_inode st ino dir err ni = Some (st', err') /\ call_ok st st' err'.
Proof.
  intros Hi Hn. destruct (linked_unlisted st ino None Hi Hn ltac:(done)) as [Hul Huf]. unfold new_inode. destruct (Z.eqb_spec err 0) as [->|Hne].
  - eexists _, _. split; [done|]. split; [|split; [done|by destruct dir]]. destruct dir; [unfold with_nlink at 1; cbn; rewrite insert_insert_eq|];
      (apply (link_inv_change st ino _ (im st) Hi (li_ino _ Hi)); [lia|done|]; by apply same_list).
  - destruct (failed_inode_ok st ino 1 (im st) ni Hi Hn (li_ino _ Hi) eq_refl) as (st' & E & Hi' & Hk). change (with_im (with_nlink st ino 1) (im st)) with (with_nlink st ino 1) in E. rewrite E. eexists _, _. split; [done|]. done.
Qed.
Lemma take_link_ok st ino nl : link_inv st -> ino ∉ FI_FREE_NID st -> nlinks st !! ino = Some nl -> nl < 2 ^ 32 - 1 -> exists st', take_link st ino = Some st' /\ call_ok st st' 0.
Proof.
  intros Hi Hf Hnl Hn. unfold take_link. rewrite Hnl. cbn [mbind option_bind]. pose proof (li_range _ Hi ino nl Hnl). rewrite (u32_small (nl + 1)) by lia.
  destruct (remove_orphan_spec (im st) 0 ino (li_ino _ Hi)) as (im1 & Erm & Hi1 & Hl1). destruct (Z.eqb_spec nl 0) as [->|Hz]; [rewrite Erm|]; cbn [mbind option_bind]; (eexists; split; [done|]; split; [|done]).
  - apply (link_inv_change st ino 1 im1 Hi Hi1); [lia|done|]. intros i. rewrite Hl1. destruct (decide (i = ino)); naive_solver.
  - apply (link_inv_change st ino (nl + 1) (im st) Hi (li_ino _ Hi)); [lia|done|]. apply same_list; [done|]. split; [intros [Hx _]%(li_orphan _ Hi); congruence|lia].
Qed.
Lemma free_inode_ok st ino : link_inv st -> exists st', free_inode st ino = Some st' /\ call_ok st st' 0.
Proof.
  intros Hi. destruct (remove_orphan_spec (im st) 0 ino (li_ino _ Hi)) as (im1 & Erm & Hi1 & Hl1). unfold free_inode. set (m := if decide _ then _ else _).
  assert (Hm : exists im2, m = Some im2 /\ ino_inv max_orphans im2 0 /\ forall i, i ∈ ino_list (im2 ORPHAN_INO) <-> i <> ino /\ i ∈ ino_list (im st ORPHAN_INO)).
  { unfold m. destruct (decide _) as [Hf|]; [|eauto]. exists (im st). split; [done|]. split; [apply Hi|]. intros i. split; [|naive_solver]. intros Hx. split; [|done]. intros ->. by apply (li_orphan _ Hi) in Hx as [_ ?]. }
  clearbody m. destruct Hm as (im2 & -> & Hi2 & Hl2). cbn [mbind option_bind]. eexists. split; [done|]. split; [|done]. destruct Hi as [L1 L2 L3 L4 L5]. constructor; cbn; [done| | | |].
  - intros i [Hne Hx]%Hl2. rewrite lookup_delete_ne by done. destruct (L2 i Hx). set_solver.
  - intros Hs i. rewrite lookup_delete_Some. intros [Hne Hx] Hf. apply Hl2. split; [done|]. apply L3; [done|done|set_solver].
  - intros i Hx. rewrite lookup_delete_ne by set_solver. apply L4. set_solver.
  - intros i x. rewrite lookup_delete_Some. intros [_ Hx]. by apply (L5 i).
Qed.
Lemma link_exec_ok st op : link_inv st -> link_op_ok st op -> exists st' err, link_exec st op = Some (st', err) /\ call_ok st st' err.
Proof.
  intros Hi Hop. destruct op as [ino n|ino err ni|ino|ino dir err ni|ino]; cbn [link_exec link_op_ok] in *.
  - destruct Hop as (nl & ? & ?). by apply (drop_links_ok st ino n nl).
  - destruct Hop. by apply make_tmpfile_ok.
  - destruct Hop as (? & nl & ? & ?). destruct (take_link_ok st ino nl) as (st' & -> & Hc); [done|done|done|done|]. by exists st', 0.
  - destruct Hop. by apply new_inode_ok.
  - destruct (free_inode_ok st ino Hi) as (st' & -> & Hc). by exists st', 0.
Qed.

(** Histories of link operations. *)
Inductive link_run : link_state -> list link_op -> link_state -> Prop :=
| lrun_nil st : link_run st [] st
| lrun_cons st op st1 err ops st' : link_op_ok st op -> link_exec st op = Some (st1, err) -> link_run st1 ops st' -> link_run st (op :: ops) st'.

Definition link_init : link_state := {| nlinks := ∅; im := f2fs_init_ino_entry_info; FI_FREE_NID := ∅; SBI_NEED_FSCK := false |}.

Lemma link_init_inv : link_inv link_init.
Proof. constructor; cbn; [by apply init_ino_inv|intros i Hi; by apply elem_of_nil in Hi|intros _ i; by rewrite lookup_empty|set_solver|intros i x; by rewrite lookup_empty]. Qed.
Lemma link_run_inv ops st : link_run link_init ops st -> link_inv st.
Proof.
  generalize link_init_inv. generalize link_init. intros st0 H0 Hrun. induction Hrun as [|st0 op st1 err ops st' Hop E _ IH]; [done|]. apply IH. destruct (link_exec_ok st0 op H0 Hop) as (st2 & err2 & E2 & H2 & _). congruence.
Qed.

(** C20: The list of orphans is exact.  After any history of unlinks, renames over
    inodes, creations with and without a name, failed ones included, new links and freed
    inodes: an orphan has no links, and unless the file system was marked for a check
    every inode that has no links and has had a block is an orphan, so that a checkpoint
    at any point frees no inode in use and loses none; the counter is the length of the
    list and within the bound; no call traps on a counter of 0 or a corrupt list; a call
    that fails keeps the link counts of the inodes there were, and only a call that fails
    marks the file system. *)
Theorem orphans_exact ops st : link_run link_init ops st ->
  (forall ino, ino ∈ ino_list (im st ORPHAN_INO) -> nlinks st !! ino = Some 0) /\
  (SBI_NEED_FSCK st = false -> forall ino, ino ∈ ino_list (im st ORPHAN_INO) <-> nlinks st !! ino = Some 0 /\ ino ∉ FI_FREE_NID st) /\
  ino_num (im st ORPHAN_INO) = Z.of_nat (length (ino_list (im st ORPHAN_INO))) /\ ino_num (im st ORPHAN_INO) <= max_orphans /\
  forall op, link_op_ok st op -> exists st' err, link_exec st op = Some (st', err) /\ (err <> 0 -> counts_kept st st') /\ (err = 0 -> SBI_NEED_FSCK st' = SBI_NEED_FSCK st).
Proof.
  intros Hi%link_run_inv. split; [intros ino Hx; by apply (li_orphan _ Hi)|]. split; [intros Hs ino; split; [apply (li_orphan _ Hi)|intros [? ?]; by apply (li_unlinked _ Hi)]|].
  pose proof (ii_num _ _ 0 (li_ino _ Hi) ORPHAN_INO) as Hn. rewrite decide_True, Z.add_0_r in Hn by done.
  split; [done|]. split; [apply (li_ino _ Hi)|]. intros op Hop. destruct (link_exec_ok st op Hi Hop) as (st' & err & E & _ & ? & ?). eauto.
Qed.
End links.
