(* ===== verification/CpPack.v ===== *)
(** * Checkpoint packs (checkpoint.c, f2fs.h)

    A checkpoint is written alternately to one of two packs.  A pack starts and
    ends with a copy of the checkpoint block, and is valid if both carry a right
    checksum and the same version; a mount takes the newer valid pack. *)

From S2P Require Import Prelude.

(** What linux/f2fs_fs.h lays out: where the checkpoint block keeps its version,
    its number of blocks and its checksum offset, and the bounds of the latter. *)
Class CpFormat := {
  OFF_VER : nat; OFF_TOTAL : nat; OFF_CKSUM : nat; CP_MIN_CHKSUM_OFFSET : Z; CP_CHKSUM_OFFSET : Z; F2FS_BLKSIZE : Z; F2FS_SUPER_MAGIC : Z;
  cp_fields : Z.of_nat (OFF_VER + 8) <= CP_MIN_CHKSUM_OFFSET /\ Z.of_nat (OFF_TOTAL + 4) <= CP_MIN_CHKSUM_OFFSET /\ Z.of_nat (OFF_CKSUM + 4) <= CP_MIN_CHKSUM_OFFSET;
  cp_disjoint : (OFF_TOTAL + 4 <= OFF_CKSUM \/ OFF_CKSUM + 4 <= OFF_TOTAL)%nat /\ (OFF_TOTAL + 4 <= OFF_VER \/ OFF_VER + 8 <= OFF_TOTAL)%nat;
  cp_offsets : 0 <= CP_MIN_CHKSUM_OFFSET <= CP_CHKSUM_OFFSET /\ CP_CHKSUM_OFFSET = F2FS_BLKSIZE - 4 /\ F2FS_BLKSIZE < 2 ^ 32
}.

Definition block : Type := list Z.

Section cp.
Context `{CpFormat}.
(** The checksum driver: [__f2fs_crc32] on a seed and some bytes. *)
Context (crc32 : Z -> list Z -> Z).

Definition checksum_offset (cp : block) : Z := get_le 4 OFF_CKSUM cp.
Definition cur_cp_version (cp : block) : Z := get_le 8 OFF_VER cp.
Definition cp_pack_total_block_count (cp : block) : Z := get_le 4 OFF_TOTAL cp.
Definition cur_cp_crc (cp : block) : Z := get_le 4 (Z.to_nat (checksum_offset cp)) cp.

Definition f2fs_checkpoint_chksum (ckpt : block) : Z :=
  let chksum_ofs := checksum_offset ckpt in
  let chksum := crc32 F2FS_SUPER_MAGIC (take (Z.to_nat chksum_ofs) ckpt) in
  if chksum_ofs <? CP_CHKSUM_OFFSET then
    let chksum_ofs := chksum_ofs +! 4 in
    crc32 chksum (take (Z.to_nat (F2FS_BLKSIZE -! chksum_ofs)) (drop (Z.to_nat chksum_ofs) ckpt))
  else chksum.

Definition CP_EINVAL : Z := 22.
Definition CP_EFSCORRUPTED : Z := 117.

(** [get_checkpoint_version]: the block and its version, or an error. *)
Definition get_checkpoint_version (meta : Z -> Z + block) (cp_addr : Z) : Z + block * Z :=
  match meta cp_addr with
  | inl err => inl err
  | inr cp =>
      let crc_offset := checksum_offset cp in
      if (crc_offset <? CP_MIN_CHKSUM_OFFSET) || (CP_CHKSUM_OFFSET <? crc_offset) then inl (- CP_EINVAL)
      else if negb (f2fs_checkpoint_chksum cp =? cur_cp_crc cp) then inl (- CP_EINVAL)
      else inr (cp, cur_cp_version cp)
  end.

(** [validate_checkpoint]: the first block of a valid pack and its version. *)
Definition validate_checkpoint (blocks_per_seg : Z) (meta : Z -> Z + block) (cp_addr : Z) : option (block * Z) :=
  match get_checkpoint_version meta cp_addr with
  | inl _ => None
  | inr (cp, pre_version) =>
      if blocks_per_seg <? cp_pack_total_block_count cp then None
      else
        match get_checkpoint_version meta (cp_addr +! (cp_pack_total_block_count cp -! 1)) with
        | inl _ => None
        | inr (_, cur_version) => if cur_version =? pre_version then Some (cp, cur_version) else None
        end
  end.

(** [ver_after]: the difference is positive as a 64-bit signed number. *)
Definition ver_after (a b : Z) : bool := let d := u64 (a - b) in (0 <? d) && (d <? 2 ^ 63).

(** The loop of [f2fs_get_valid_checkpoint] over the payload blocks. *)
Fixpoint read_payload (n : nat) (meta : Z -> Z + block) (blk : Z) (ckpt : block) : Z + block :=
  match n with
  | O => inr ckpt
  | S n => match meta blk with inl err => inl err | inr b => read_payload n meta (blk + 1) (ckpt ++ b) end
  end.

(** [f2fs_get_valid_checkpoint]: the current pack and the checkpoint, or an error;
    [sanity] is [f2fs_sanity_check_ckpt], true if the check fails. *)
Definition f2fs_get_valid_checkpoint (sanity : block -> bool) (blocks_per_seg cp_blkaddr log_blocks_per_seg : Z) (cp_payload : nat) (meta : Z -> Z + block)
    : Z + Z * block :=
  let cp1 := validate_checkpoint blocks_per_seg meta cp_blkaddr in
  let cp2 := validate_checkpoint blocks_per_seg meta (cp_blkaddr + Z.shiftl 1 log_blocks_per_seg) in
  let cur :=
    match cp1, cp2 with
    | Some (b1, v1), Some (b2, v2) => if ver_after v2 v1 then Some (2, b2) else Some (1, b1)
    | Some (b1, _), None => Some (1, b1)
    | None, Some (b2, _) => Some (2, b2)
    | None, None => None
    end in
  match cur with
  | None => inl (- CP_EFSCORRUPTED)
  | Some (pack, b) =>
      if sanity b then inl (- CP_EFSCORRUPTED)
      else
        let cp_blk_no := if pack =? 2 then cp_blkaddr + Z.shiftl 1 log_blocks_per_seg else cp_blkaddr in
        match read_payload cp_payload meta (cp_blk_no + 1) b with
        | inl err => inl err
        | inr ckpt => inr (pack, ckpt)
        end
  end.

(** ** Writing a pack *)

(** [__start_cp_addr], [__start_cp_next_addr] and [__set_cp_next_pack]. *)
Definition __start_cp_addr (cp_blkaddr blocks_per_seg cur_cp_pack : Z) : Z := if cur_cp_pack =? 2 then cp_blkaddr + blocks_per_seg else cp_blkaddr.
Definition __start_cp_next_addr (cp_blkaddr blocks_per_seg cur_cp_pack : Z) : Z := if cur_cp_pack =? 1 then cp_blkaddr + blocks_per_seg else cp_blkaddr.
Definition __set_cp_next_pack (cur_cp_pack : Z) : Z := if cur_cp_pack =? 1 then 2 else 1.

(** A number stored in a block. *)
Definition put_le (n off : nat) (v : Z) (bs : block) : block := list_inserts off (le_bytes n v) bs.

(** The fields [do_checkpoint] sets last: the number of blocks and the checksum. *)
Definition seal_checkpoint (ckpt : block) (total : Z) : block :=
  let ckpt := put_le 4 OFF_TOTAL total ckpt in
  put_le 4 (Z.to_nat (checksum_offset ckpt)) (f2fs_checkpoint_chksum ckpt) ckpt.

(** The blocks [do_checkpoint] writes before the barrier, from the start of the
    pack on: the checkpoint, its payload, orphans, data and node summaries; behind
    the barrier [commit_checkpoint] writes the checkpoint block again.  The NAT bits
    an unmount adds behind the pack are left out. *)
Definition pack_blocks (ckpt : block) (payload orphans data_sum node_sum : list block) : list block :=
  let total := 2 + Z.of_nat (length payload + length orphans + length data_sum + length node_sum) in
  seal_checkpoint ckpt total :: payload ++ orphans ++ data_sum ++ node_sum.

(** The state of a block after a crash: not written, written, or torn. *)
Inductive written := Old | New | Torn (b : block).

(** The disk after a crash while a pack is written: what became of the blocks before
    the barrier, and of the last one. *)
Definition crash_disk (disk : Z -> block) (start : Z) (blocks : list block) (st : nat -> written) (last : written) : Z -> block :=
  fun a =>
    let i := Z.to_nat (a - start) in
    if (start <=? a) && (a <? start + Z.of_nat (length blocks)) then
      match st i with Old => disk a | New => default [] (blocks !! i) | Torn b => b end
    else if a =? start + Z.of_nat (length blocks) then
      match last with Old => disk a | New => default [] (blocks !! 0%nat) | Torn b => b end
    else disk a.

(** ** A sealed block is accepted *)

Definition cp_block_ok (cp : block) : Prop :=
  length cp = Z.to_nat F2FS_BLKSIZE /\ CP_MIN_CHKSUM_OFFSET <= checksum_offset cp <= CP_CHKSUM_OFFSET.

Lemma put_le_length n off v bs : length (put_le n off v bs) = length bs.
Proof. apply length_inserts. Qed.

Lemma get_put_le_same n off v bs : (off + n <= length bs)%nat -> get_le n off (put_le n off v bs) = v mod 2 ^ (8 * Z.of_nat n).
Proof.
  intros Hl. unfold get_le, put_le. rewrite window_inserts_same by (rewrite ?length_le_bytes; lia). rewrite length_le_bytes, drop_ge, app_nil_r by (rewrite length_take; lia). apply le_val_bytes.
Qed.
Lemma get_put_le_other n n' off off' v bs : (off' + n' <= off \/ off + n <= off')%nat -> get_le n off (put_le n' off' v bs) = get_le n off bs.
Proof. intros Hd. unfold get_le, put_le. by rewrite window_inserts_disjoint by (rewrite ?length_le_bytes; lia). Qed.

Lemma take_put_le n off k v bs : (k <= off)%nat -> take k (put_le n off v bs) = take k bs.
Proof. intros Hk. rewrite <-(drop_0 (put_le n off v bs)), <-(drop_0 bs). apply window_inserts_disjoint. lia. Qed.
Lemma drop_put_le n off k m v bs : (off + n <= k)%nat -> take m (drop k (put_le n off v bs)) = take m (drop k bs).
Proof. intros Hk. apply window_inserts_disjoint. rewrite length_le_bytes. lia. Qed.

(** The checksum does not cover itself. *)
Lemma chksum_put_crc cp v : cp_block_ok cp ->
  f2fs_checkpoint_chksum (put_le 4 (Z.to_nat (checksum_offset cp)) v cp) = f2fs_checkpoint_chksum cp /\
  checksum_offset (put_le 4 (Z.to_nat (checksum_offset cp)) v cp) = checksum_offset cp.
Proof.
  intros [Hl Ho]. pose proof cp_fields as (_ & _ & Hf). pose proof cp_offsets as (Hmin & Hmax & Hb).
  assert (Hsame : checksum_offset (put_le 4 (Z.to_nat (checksum_offset cp)) v cp) = checksum_offset cp).
  { unfold checksum_offset at 1. rewrite get_put_le_other; [done|]. right. lia. }
  split; [|done]. unfold f2fs_checkpoint_chksum. rewrite Hsame, take_put_le by lia. destruct (Z.ltb_spec (checksum_offset cp) CP_CHKSUM_OFFSET); [|done].
  rewrite drop_put_le; [done|]. rewrite u32_small by lia. lia.
Qed.

(** The driver returns 32 bits. *)
Context (crc_range : forall s bs, 0 <= crc32 s bs < 2 ^ 32).

Lemma seal_fields ckpt total : cp_block_ok ckpt -> 0 <= total < 2 ^ 32 ->
  let cp := seal_checkpoint ckpt total in
  cp_block_ok cp /\ cur_cp_version cp = cur_cp_version ckpt /\ cp_pack_total_block_count cp = total /\ f2fs_checkpoint_chksum cp = cur_cp_crc cp.
Proof.
  intros Hok Ht cp. pose proof cp_disjoint as [Hd1 Hd2]. pose proof cp_fields as (Hf1 & Hf2 & Hf3). pose proof cp_offsets as (Hmin & Hmax & Hb). destruct Hok as [Hl Ho].
  unfold cp, seal_checkpoint. set (c1 := put_le 4 OFF_TOTAL total ckpt).
  assert (Ho1 : checksum_offset c1 = checksum_offset ckpt) by (unfold checksum_offset, c1; rewrite get_put_le_other by lia; done).
  assert (Hok1 : cp_block_ok c1) by (split; [unfold c1; by rewrite put_le_length|lia]).
  destruct (chksum_put_crc c1 (f2fs_checkpoint_chksum c1) Hok1) as [E1 E2]. set (c2 := put_le 4 _ _ c1) in *.
  conjs.
  - split; [unfold c2; rewrite put_le_length; apply Hok1|lia].
  - unfold cur_cp_version, c2. rewrite get_put_le_other by lia. unfold c1. by rewrite get_put_le_other by lia.
  - unfold cp_pack_total_block_count, c2. rewrite get_put_le_other by lia. unfold c1. rewrite get_put_le_same by lia. apply Z.mod_small. cbn. lia.
  - rewrite E1. unfold cur_cp_crc. rewrite E2. unfold c2. rewrite get_put_le_same by (destruct Hok1; lia). symmetry. apply Z.mod_small. cbn.
    unfold f2fs_checkpoint_chksum. destruct (_ <? _); apply crc_range.
Qed.

(** ** A crash leaves the old or the new checkpoint *)

(** A disk whose blocks can all be read, and the check of one block. *)
Definition readable (disk : Z -> block) : Z -> Z + block := fun a => inr (disk a).
Definition cp_check (b : block) : option Z :=
  match get_checkpoint_version (fun _ => inr b) 0 with inr (_, v) => Some v | inl _ => None end.

Lemma get_version_check disk a : get_checkpoint_version (readable disk) a = match cp_check (disk a) with Some v => inr (disk a, v) | None => inl (- CP_EINVAL) end.
Proof. unfold cp_check, get_checkpoint_version, readable. destruct (_ || _); [done|]. by destruct (negb _). Qed.

Lemma cp_check_sealed ckpt total : cp_block_ok ckpt -> 0 <= total < 2 ^ 32 -> cp_check (seal_checkpoint ckpt total) = Some (cur_cp_version ckpt).
Proof.
  intros Hok Ht. destruct (seal_fields ckpt total Hok Ht) as ([_ Ho] & Hv & _ & Hc). unfold cp_check, get_checkpoint_version.
  destruct (Z.ltb_spec (checksum_offset (seal_checkpoint ckpt total)) CP_MIN_CHKSUM_OFFSET); [lia|].
  destruct (Z.ltb_spec CP_CHKSUM_OFFSET (checksum_offset (seal_checkpoint ckpt total))); [lia|]. cbn [orb]. by rewrite Hc, Z.eqb_refl, Hv.
Qed.

Lemma validate_check bps disk a : validate_checkpoint bps (readable disk) a =
  (v ← cp_check (disk a);
   if bps <? cp_pack_total_block_count (disk a) then None
   else w ← cp_check (disk (a +! (cp_pack_total_block_count (disk a) -! 1))); if w =? v then Some (disk a, w) else None).
Proof.
  unfold validate_checkpoint. rewrite get_version_check. destruct (cp_check (disk a)) as [v|]; [|done]. cbn [mbind option_bind]. destruct (bps <? _); [done|].
  rewrite get_version_check. by destruct (cp_check _).
Qed.

(** What a mount finds in the pack that was being written. *)
Lemma crashed_pack disk start bps ckpt rest st last v : cp_block_ok ckpt -> cur_cp_version ckpt = v + 1 -> 0 <= v ->
  let total := 2 + Z.of_nat (length rest) in let blocks := seal_checkpoint ckpt total :: rest in
  total <= bps < 2 ^ 16 -> 0 <= start -> start + bps < 2 ^ 32 ->
  (forall a w, start <= a < start + bps -> cp_check (disk a) = Some w -> 0 <= w < v) ->
  (forall i b, st i = Torn b -> cp_check b = None) -> (forall b, last = Torn b -> cp_check b = None) -> (last = New -> forall i, st i = New) ->
  validate_checkpoint bps (readable (crash_disk disk start blocks st last)) start = Some (seal_checkpoint ckpt total, v + 1) /\ last = New \/
  last <> New /\ (validate_checkpoint bps (readable (crash_disk disk start blocks st last)) start = None \/
                  exists b w, validate_checkpoint bps (readable (crash_disk disk start blocks st last)) start = Some (b, w) /\ 0 <= w < v).
Proof.
  intros Hok Hver Hv total blocks Ht Hs Hsb Hstale Htorn Hlt Hbar. destruct (seal_fields ckpt total Hok ltac:(lia)) as (_ & _ & Htot & _).
  pose proof (cp_check_sealed ckpt total Hok ltac:(lia)) as Hck. rewrite Hver in Hck.
  assert (Hhead : crash_disk disk start blocks st last start = match st 0%nat with Old => disk start | New => seal_checkpoint ckpt total | Torn b => b end).
  { unfold crash_disk. rewrite Z.sub_diag. cbn [length blocks]. destruct (Z.leb_spec start start); [|lia]. destruct (Z.ltb_spec start (start + Z.of_nat (S (length rest)))); [|lia]. done. }
  assert (Htail : crash_disk disk start blocks st last (start + total - 1) = match last with Old => disk (start + total - 1) | New => seal_checkpoint ckpt total | Torn b => b end).
  { unfold crash_disk. cbn [length blocks]. destruct (Z.ltb_spec (start + total - 1) (start + Z.of_nat (S (length rest)))); [lia|]. rewrite andb_false_r.
    destruct (Z.eqb_spec (start + total - 1) (start + Z.of_nat (S (length rest)))); [done|lia]. }
  rewrite validate_check, Hhead. destruct (st 0%nat) as [| |b] eqn:E0.
  - right. split; [intros Hn; rewrite Hbar in E0; done|]. destruct (cp_check (disk start)) as [w|] eqn:Ew; [|by left]. cbn.
    destruct (bps <? _); [by left|]. destruct (cp_check (crash_disk _ _ _ _ _ _)) as [w'|]; [|by left]. cbn [mbind option_bind]. destruct (Z.eqb_spec w' w) as [->|]; [|by left].
    right. eexists _, _. split; [done|]. apply (Hstale start); [lia|done].
  - rewrite Hck, Htot. cbn -[u32]. destruct (Z.ltb_spec bps total); [lia|]. rewrite (u32_small (total - 1)), u32_small by lia.
    replace (start + (total - 1)) with (start + total - 1) by lia. rewrite Htail. destruct last as [| |b].
    + right. split; [done|]. left. destruct (cp_check (disk (start + total - 1))) as [w|] eqn:Ew; [|done]. cbn.
      specialize (Hstale (start + total - 1) w ltac:(unfold total in *; lia) Ew). destruct (Z.eqb_spec w (v + 1)); [lia|done].
    + left. rewrite Hck. cbn. by rewrite Z.eqb_refl.
    + right. split; [done|]. left. by rewrite (Hlt b eq_refl).
  - right. split; [intros Hn; rewrite Hbar in E0; done|]. left. by rewrite (Htorn 0%nat b E0).
Qed.

(** Blocks outside the pack that is written are as they were. *)
Lemma crash_disk_outside disk start blocks st last a : a < start \/ start + Z.of_nat (length blocks) < a -> crash_disk disk start blocks st last a = disk a.
Proof.
  intros Ha. unfold crash_disk. destruct (Z.leb_spec start a), (Z.ltb_spec a (start + Z.of_nat (length blocks))), (Z.eqb_spec a (start + Z.of_nat (length blocks))); cbn; try done; lia.
Qed.

Lemma validate_ext bps disk disk' a : 0 <= a -> a + bps < 2 ^ 32 -> 0 < bps < 2 ^ 16 -> 0 < cp_pack_total_block_count (disk a) ->
  (forall x, a <= x < a + bps -> disk' x = disk x) -> validate_checkpoint bps (readable disk') a = validate_checkpoint bps (readable disk) a.
Proof.
  intros Ha Hb Hp Ht He. rewrite !validate_check. rewrite (He a) by lia. destruct (cp_check (disk a)) as [v|]; [|done]. cbn -[u32].
  destruct (Z.ltb_spec bps (cp_pack_total_block_count (disk a))); [done|]. rewrite (u32_small (_ - 1)), u32_small by lia. by rewrite He by lia.
Qed.

Lemma ver_after_lt a b : 0 <= a < 2 ^ 63 -> 0 <= b < 2 ^ 63 -> ver_after a b = (b <? a).
Proof.
  intros Ha Hb. unfold ver_after. destruct (Z.ltb_spec b a).
  - rewrite u64_small by lia. destruct (Z.ltb_spec 0 (a - b)), (Z.ltb_spec (a - b) (2 ^ 63)); done || lia.
  - destruct (decide (a = b)) as [->|]; [by rewrite Z.sub_diag|]. assert (u64 (a - b) = a - b + 2 ^ 64) as ->; [|destruct (Z.ltb_spec (a - b + 2 ^ 64) (2 ^ 63)); [lia|by rewrite andb_false_r]].
    unfold u64. rewrite <-(Z.mod_add _ 1) by lia. apply Z.mod_small. lia.
Qed.

(** The checkpoint with its payload, as a mount reads it from a pack. *)
Fixpoint blocks_at (disk : Z -> block) (blk : Z) (n : nat) : list block :=
  match n with O => [] | S n => disk blk :: blocks_at disk (blk + 1) n end.

Lemma read_payload_readable n disk blk ckpt : read_payload n (readable disk) blk ckpt = inr (ckpt ++ concat (blocks_at disk blk n)).
Proof.
  revert blk ckpt. induction n as [|n IH]; intros blk ckpt; cbn; [by rewrite app_nil_r|]. rewrite IH. by rewrite app_assoc.
Qed.

Lemma blocks_at_ext disk disk' blk n : (forall a, blk <= a < blk + Z.of_nat n -> disk' a = disk a) -> blocks_at disk' blk n = blocks_at disk blk n.
Proof.
  revert blk. induction n as [|n IH]; intros blk He; cbn; [done|]. rewrite He by lia. f_equal. apply IH. intros a Ha. apply He. lia.
Qed.

Lemma blocks_at_list disk blk l : (forall i b, l !! i = Some b -> disk (blk + Z.of_nat i) = b) -> blocks_at disk blk (length l) = l.
Proof.
  revert blk. induction l as [|b l IH]; intros blk He; cbn; [done|]. rewrite <-(He 0%nat b eq_refl), Z.add_0_r. f_equal. apply IH.
  intros i x Hi. rewrite <-(He (S i) x Hi). f_equal. lia.
Qed.

(** The choice between the packs. *)
Lemma get_valid_choice sanity bps base log n disk c b v :
  bps = Z.shiftl 1 log -> (forall x, sanity x = false) -> c = 1 \/ c = 2 -> 0 <= v < 2 ^ 63 ->
  validate_checkpoint bps (readable disk) (__start_cp_addr base bps c) = Some (b, v) ->
  (validate_checkpoint bps (readable disk) (__start_cp_next_addr base bps c) = None \/
   exists b' w, validate_checkpoint bps (readable disk) (__start_cp_next_addr base bps c) = Some (b', w) /\ 0 <= w < v) ->
  f2fs_get_valid_checkpoint sanity bps base log n (readable disk) =
  inr (c, b ++ concat (blocks_at disk (__start_cp_addr base bps c + 1) n)).
Proof.
  intros Hbps Hsan Hc Hv H1 H2. unfold f2fs_get_valid_checkpoint, __start_cp_addr, __start_cp_next_addr in *. rewrite <-Hbps.
  destruct Hc as [-> | ->]; cbn in H1, H2 |- *; rewrite H1; (destruct H2 as [->|(b' & w & -> & Hw)]; [|rewrite ver_after_lt by lia]).
  - rewrite Hsan. cbn. by rewrite read_payload_readable.
  - destruct (Z.ltb_spec v w); [lia|]. rewrite Hsan. cbn. by rewrite read_payload_readable.
  - rewrite Hsan. cbn. by rewrite read_payload_readable.
  - destruct (Z.ltb_spec w v); [|lia]. rewrite Hsan. cbn. by rewrite read_payload_readable.
Qed.

Lemma cp_check_range b w : cp_check b = Some w -> w = cur_cp_version b.
Proof.
  unfold cp_check, get_checkpoint_version. destruct (_ || _); [done|]. destruct (negb _); [done|]. by intros [= <-].
Qed.

Lemma validate_version bps disk a b w : validate_checkpoint bps (readable disk) a = Some (b, w) -> cp_check (disk a) = Some w /\ b = disk a.
Proof.
  rewrite validate_check. destruct (cp_check (disk a)) as [v|]; [|done]. cbn [mbind option_bind]. destruct (bps <? _); [done|].
  destruct (cp_check (disk (_ +! _))) as [w'|]; [|done]. cbn [mbind option_bind]. destruct (Z.eqb_spec w' v) as [->|]; [|done]. by intros [= <- <-].
Qed.

(** C15: A crash while a checkpoint is written leaves the old checkpoint or the new
    one, whole.  Whichever blocks of the new pack have reached the disk, or were
    torn, the next mount takes the new pack, with its payload, if the block behind
    the barrier was written, and the pack of the checkpoint before, unchanged,
    otherwise. *)
Theorem checkpoint_crash_safe sanity base log cur disk ckpt payload orphans data_sum node_sum st last b v :
  let bps := Z.shiftl 1 log in let blocks := pack_blocks ckpt payload orphans data_sum node_sum in
  let start := __start_cp_next_addr base bps cur in let old := __start_cp_addr base bps cur in
  (cur = 1 \/ cur = 2) -> 0 <= log < 16 -> 0 <= base -> base + 2 * bps < 2 ^ 32 -> Z.of_nat (length blocks) < bps -> (forall x, sanity x = false) ->
  cp_block_ok ckpt -> cur_cp_version ckpt = v + 1 -> 0 <= v < 2 ^ 63 - 1 ->
  validate_checkpoint bps (readable disk) old = Some (b, v) -> 0 < cp_pack_total_block_count (disk old) ->
  (forall a w, start <= a < start + bps -> cp_check (disk a) = Some w -> 0 <= w < v) ->
  (forall i t, st i = Torn t -> cp_check t = None) -> (forall t, last = Torn t -> cp_check t = None) -> (last = New -> forall i, st i = New) ->
  f2fs_get_valid_checkpoint sanity bps base log (length payload) (readable (crash_disk disk start blocks st last)) =
  inr (match last with
       | New => (__set_cp_next_pack cur, default [] (blocks !! 0%nat) ++ concat payload)
       | _ => (cur, b ++ concat (blocks_at disk (old + 1) (length payload)))
       end).
Proof.
  intros bps blocks start old Hcur Hlog Hbase Hfit Hlen Hsan Hok Hver Hv Hold Htot Hstale Htorn Htl Hbar.
  assert (Hbps : 0 < bps < 2 ^ 16).
  { unfold bps. rewrite Z.shiftl_1_l. split; [apply Z.pow_pos_nonneg; lia|apply Z.pow_lt_mono_r; lia]. }
  assert (Hpos : (start = base + bps /\ old = base) \/ (start = base /\ old = base + bps)) by (unfold start, old, __start_cp_next_addr, __start_cp_addr; destruct Hcur as [-> | ->]; auto).
  set (rest := payload ++ orphans ++ data_sum ++ node_sum).
  assert (Hbl : blocks = seal_checkpoint ckpt (2 + Z.of_nat (length rest)) :: rest).
  { unfold blocks, pack_blocks, rest. rewrite !length_app. do 3 f_equal. lia. }
  assert (Hlen' : Z.of_nat (S (length rest)) < bps) by (rewrite Hbl in Hlen; done).
  set (disk' := crash_disk disk start blocks st last).
  assert (Hsame : forall a, old <= a < old + bps -> disk' a = disk a).
  { intros a Ha. unfold disk'. rewrite Hbl. apply crash_disk_outside. cbn [length]. lia. }
  assert (Hold' : validate_checkpoint bps (readable disk') old = Some (b, v)) by (rewrite <-Hold; apply validate_ext; lia || done).
  pose proof (crashed_pack disk start bps ckpt rest st last v Hok Hver (proj1 Hv) ltac:(lia) ltac:(lia) ltac:(lia)) as Hcr.
  cbn zeta in Hcr. rewrite <-Hbl in Hcr. fold disk' in Hcr.
  destruct Hcr as [[Hnew Hl]|[Hl Hnew]]; [intros a w Ha E; by apply (Hstale a w Ha E)|done|done|done| |].
  - rewrite Hl. assert (Hs' : start = __start_cp_addr base bps (__set_cp_next_pack cur) /\ old = __start_cp_next_addr base bps (__set_cp_next_pack cur)).
    { unfold start, old, __start_cp_addr, __start_cp_next_addr, __set_cp_next_pack. by destruct Hcur as [-> | ->]. }
    destruct Hs' as [Es Eo]. rewrite (get_valid_choice sanity bps base log (length payload) disk' (__set_cp_next_pack cur) (seal_checkpoint ckpt (2 + Z.of_nat (length rest))) (v + 1)); try done; try lia.
    + rewrite <-Es. do 3 f_equal; [by rewrite Hbl|]. apply f_equal. apply blocks_at_list. intros i x Hi. pose proof (lookup_lt_Some _ _ _ Hi) as Hilt.
      assert (Hrl : (length payload <= length rest)%nat) by (unfold rest; rewrite length_app; lia).
      unfold disk', crash_disk. rewrite Hbl. cbn [length]. destruct (Z.leb_spec start (start + 1 + Z.of_nat i)); [|lia].
      destruct (Z.ltb_spec (start + 1 + Z.of_nat i) (start + Z.of_nat (S (length rest)))); [|lia]. cbn [andb]. rewrite (Hbar Hl).
      replace (Z.to_nat (start + 1 + Z.of_nat i - start)) with (S i) by lia.
      change ((seal_checkpoint ckpt (2 + Z.of_nat (length rest)) :: rest) !! S i) with (rest !! i). unfold rest. by rewrite lookup_app_l, Hi by done.
    + unfold __set_cp_next_pack. destruct Hcur as [-> | ->]; cbn; auto.
    + by rewrite <-Es.
    + right. exists b, v. rewrite <-Eo. split; [done|lia].
  - rewrite (get_valid_choice sanity bps base log (length payload) disk' cur b v); try done; try lia.
    assert (blocks_at disk' (old + 1) (length payload) = blocks_at disk (old + 1) (length payload)) as E.
    { apply blocks_at_ext. intros a Ha. apply Hsame. unfold rest in Hlen'. rewrite length_app in Hlen'. lia. }
    fold old. rewrite E. by destruct last.
Qed.
End cp.
