(* ===== verification/NatCache.v ===== *)
(** * The cache of the node address table (node.c, node.h)

    The node address table (NAT) maps a node id to its owner, block address and
    version.  Changes are kept in a cache: [nat_root] holds the cached entries,
    [nat_entries] the clean ones in the order of their use, and for each block of
    the table a set lists the entries to write.  An entry whose node has no block
    yet ([NEW_ADDR]) is on no list. *)

From S2P Require Import Prelude FreeNid.

(** [struct f2fs_nat_entry]; the owner, address and version of [struct node_info]. *)
Record f2fs_nat_entry := { ne_ino : Z; block_addr : Z; version : Z }.

(** [struct nat_entry], and [struct nat_entry_set] with the ids on its list. *)
Record nat_ent := { ni : f2fs_nat_entry; flag : Z }.
Record nat_entry_set := { entry_list : list Z; entry_cnt : Z }.

(** The cache in [struct f2fs_nm_info]; [nat_cnt] by kind. *)
Record nat_cache_info := {
  nat_root : gmap Z nat_ent; nat_entries : list Z; nat_set_root : gmap Z nat_entry_set;
  TOTAL_NAT : Z; DIRTY_NAT : Z; RECLAIMABLE_NAT : Z
}.

(** ** Flags *)

Definition IS_CHECKPOINTED : Z := 0.
Definition HAS_FSYNCED_INODE : Z := 1.
Definition HAS_LAST_FSYNC : Z := 2.
Definition IS_DIRTY : Z := 3.
Definition IS_PREALLOC : Z := 4.

Definition set_nat_flag (ne : nat_ent) (type : Z) (set : bool) : nat_ent :=
  let mask := Z.shiftl 1 type in
  {| ni := ni ne; flag := if set then Z.lor (flag ne) mask else Z.ldiff (flag ne) mask |}.
Definition get_nat_flag (ne : nat_ent) (type : Z) : bool := negb (Z.land (flag ne) (Z.shiftl 1 type) =? 0).
Definition nat_reset_flag (ne : nat_ent) : nat_ent :=
  set_nat_flag (set_nat_flag (set_nat_flag ne IS_CHECKPOINTED true) HAS_FSYNCED_INODE false) HAS_LAST_FSYNC true.
Definition set_ni (ne : nat_ent) (i : f2fs_nat_entry) : nat_ent := {| ni := i; flag := flag ne |}.

Definition zero_nat : f2fs_nat_entry := {| ne_ino := 0; block_addr := 0; version := 0 |}.

Section nat.
Context `{NatFormat}.

(** ** Lists *)

(** An entry is taken off the list it is on, that of the clean entries or of its set. *)
Definition unlink (n : Z) (l : list Z) : list Z := filter (fun x => x <> n) l.
Definition set_lists (c : nat_cache_info) (l : list Z) (sets : gmap Z nat_entry_set) : nat_cache_info :=
  {| nat_root := nat_root c; nat_entries := l; nat_set_root := sets; TOTAL_NAT := TOTAL_NAT c; DIRTY_NAT := DIRTY_NAT c; RECLAIMABLE_NAT := RECLAIMABLE_NAT c |}.
Definition map_entries (f : list Z -> list Z) (s : nat_entry_set) : nat_entry_set := {| entry_list := f (entry_list s); entry_cnt := entry_cnt s |}.
Definition add_entry_cnt (k : Z) (s : nat_entry_set) : nat_entry_set := {| entry_list := entry_list s; entry_cnt := entry_cnt s +! k |}.
Definition list_del_init (n : Z) (c : nat_cache_info) : nat_cache_info :=
  set_lists c (unlink n (nat_entries c)) (alter (map_entries (unlink n)) (NAT_BLOCK_OFFSET n) (nat_set_root c)).
Definition set_list (c : nat_cache_info) (b : Z) : list Z := match nat_set_root c !! b with Some s => entry_list s | None => [] end.
Definition list_empty (n : Z) (c : nat_cache_info) : bool := bool_decide (n ∉ nat_entries c /\ n ∉ set_list c (NAT_BLOCK_OFFSET n)).

(** [list_move_tail] to the clean entries, and to the list of the set of [n]. *)
Definition move_to_clean (n : Z) (c : nat_cache_info) : nat_cache_info :=
  let c := list_del_init n c in set_lists c (nat_entries c ++ [n]) (nat_set_root c).
Definition move_to_set (n : Z) (c : nat_cache_info) : nat_cache_info :=
  let c := list_del_init n c in set_lists c (nat_entries c) (alter (map_entries (fun l => l ++ [n])) (NAT_BLOCK_OFFSET n) (nat_set_root c)).

(** An entry and the counters replaced. *)
Definition put_ent (n : Z) (e : nat_ent) (c : nat_cache_info) : nat_cache_info :=
  {| nat_root := <[n := e]> (nat_root c); nat_entries := nat_entries c; nat_set_root := nat_set_root c;
     TOTAL_NAT := TOTAL_NAT c; DIRTY_NAT := DIRTY_NAT c; RECLAIMABLE_NAT := RECLAIMABLE_NAT c |}.
Definition add_cnt (t d r : Z) (c : nat_cache_info) : nat_cache_info :=
  {| nat_root := nat_root c; nat_entries := nat_entries c; nat_set_root := nat_set_root c;
     TOTAL_NAT := TOTAL_NAT c +! t; DIRTY_NAT := DIRTY_NAT c +! d; RECLAIMABLE_NAT := RECLAIMABLE_NAT c +! r |}.

(** ** The cache *)

(** A zeroed entry with its flags reset. *)
Definition __alloc_nat_entry : nat_ent := nat_reset_flag {| ni := zero_nat; flag := 0 |}.

Definition __init_nat_entry (c : nat_cache_info) (n : Z) (ne : nat_ent) (raw : option f2fs_nat_entry) : nat_cache_info :=
  let ne := match raw with Some r => set_ni ne r | None => ne end in
  let c := put_ent n ne c in
  add_cnt 1 0 1 (set_lists c (nat_entries c ++ [n]) (nat_set_root c)).

Definition __lookup_nat_cache (c : nat_cache_info) (n : Z) : nat_cache_info * option nat_ent :=
  match nat_root c !! n with
  | Some ne => (if negb (get_nat_flag ne IS_DIRTY) && negb (list_empty n c) then move_to_clean n c else c, Some ne)
  | None => (c, None)
  end.

Definition __del_from_nat_cache (c : nat_cache_info) (n : Z) : nat_cache_info :=
  add_cnt (-1) 0 (-1) {| nat_root := delete n (nat_root c); nat_entries := nat_entries c; nat_set_root := nat_set_root c;
                         TOTAL_NAT := TOTAL_NAT c; DIRTY_NAT := DIRTY_NAT c; RECLAIMABLE_NAT := RECLAIMABLE_NAT c |}.

(** [__grab_nat_entry_set]: the set of [n] exists afterwards. *)
Definition __grab_nat_entry_set (c : nat_cache_info) (n : Z) : nat_cache_info :=
  let set := NAT_BLOCK_OFFSET n in
  match nat_set_root c !! set with
  | Some _ => c
  | None => set_lists c (nat_entries c) (<[set := {| entry_list := []; entry_cnt := 0 |}]> (nat_set_root c))
  end.

Definition __set_nat_cache_dirty (c : nat_cache_info) (n : Z) : option nat_cache_info :=
  ne ← nat_root c !! n;
  let new_ne := block_addr (ni ne) =? NEW_ADDR in
  let c := if new_ne then c else __grab_nat_entry_set c n in
  let c :=
    if negb new_ne && (get_nat_flag ne IS_PREALLOC || negb (get_nat_flag ne IS_DIRTY))
    then set_lists c (nat_entries c) (alter (add_entry_cnt 1) (NAT_BLOCK_OFFSET n) (nat_set_root c)) else c in
  let ne' := set_nat_flag ne IS_PREALLOC new_ne in
  let c := if get_nat_flag ne' IS_DIRTY then put_ent n ne' c else put_ent n (set_nat_flag ne' IS_DIRTY true) (add_cnt 0 1 (-1) c) in
  Some (if new_ne then list_del_init n c else move_to_set n c).

(** [__clear_nat_cache_dirty]; [set] is the set that is flushed. *)
Definition __clear_nat_cache_dirty (c : nat_cache_info) (set n : Z) : option nat_cache_info :=
  ne ← nat_root c !! n;
  let c := move_to_clean n c in
  let c := put_ent n (set_nat_flag ne IS_DIRTY false) c in
  let c := set_lists c (nat_entries c) (alter (add_entry_cnt (-1)) set (nat_set_root c)) in
  Some (add_cnt 0 (-1) 1 c).

(** [f2fs_need_dentry_mark], [f2fs_is_checkpointed_node], [f2fs_need_inode_block_update]. *)
Definition f2fs_need_dentry_mark (c : nat_cache_info) (n : Z) : nat_cache_info * bool :=
  let '(c, e) := __lookup_nat_cache c n in
  (c, match e with Some e => negb (get_nat_flag e IS_CHECKPOINTED) && negb (get_nat_flag e HAS_FSYNCED_INODE) | None => false end).
Definition f2fs_is_checkpointed_node (c : nat_cache_info) (n : Z) : nat_cache_info * bool :=
  let '(c, e) := __lookup_nat_cache c n in (c, match e with Some e => get_nat_flag e IS_CHECKPOINTED | None => true end).
Definition f2fs_need_inode_block_update (c : nat_cache_info) (n : Z) : nat_cache_info * bool :=
  let '(c, e) := __lookup_nat_cache c n in
  (c, match e with
      | Some e => negb (get_nat_flag e HAS_LAST_FSYNC && (get_nat_flag e IS_CHECKPOINTED || get_nat_flag e HAS_FSYNCED_INODE))
      | None => true
      end).

(** [cache_nat_entry]; [mem] tells whether the entry could be allocated and inserted,
    no result is a cached entry that differs. *)
Definition cache_nat_entry (mem : bool) (c : nat_cache_info) (n : Z) (raw : f2fs_nat_entry) : option nat_cache_info :=
  if negb mem then Some c
  else
    match __lookup_nat_cache c n with
    | (c, None) => Some (__init_nat_entry c n __alloc_nat_entry (Some raw))
    | (c, Some e) =>
        if negb (ne_ino (ni e) =? ne_ino raw) || negb (block_addr (ni e) =? block_addr raw) || negb (version (ni e) =? version raw) then None
        else Some c
    end.

Context (COMPRESS_ADDR : Z).
Definition __is_valid_data_blkaddr (a : Z) : bool := negb ((a =? NEW_ADDR) || (a =? NULL_ADDR) || (a =? COMPRESS_ADDR)).

(** The first part of [set_node_addr]: the entry to change. *)
Definition node_addr_entry (c : nat_cache_info) (n : Z) (i : f2fs_nat_entry) (new_blkaddr : Z) : option (nat_cache_info * nat_ent) :=
  match __lookup_nat_cache c n with
  | (c, None) =>
      if block_addr i =? NEW_ADDR then None
      else let e := set_ni __alloc_nat_entry i in Some (put_ent n e (__init_nat_entry c n __alloc_nat_entry None), e)
  | (c, Some e) =>
      if new_blkaddr =? NEW_ADDR then
        if negb (block_addr i =? NULL_ADDR) then None else Some (put_ent n (set_ni e i) c, set_ni e i)
      else Some (c, e)
  end.

(** The last part: the fsync marks of the inode, if it is cached. *)
Definition fsync_mark (c : nat_cache_info) (n ino : Z) (fsync_done : bool) : nat_cache_info :=
  let '(c, e) := if negb (n =? ino) then __lookup_nat_cache c ino else (c, nat_root c !! n) in
  match e with
  | Some e =>
      let e := if fsync_done && (n =? ino) then set_nat_flag e HAS_FSYNCED_INODE true else e in
      put_ent ino (set_nat_flag e HAS_LAST_FSYNC fsync_done) c
  | None => c
  end.

(** [set_node_addr]: [n] and [i] are the caller's [node_info]; no result is one of
    its checks failing. *)
Definition set_node_addr (c : nat_cache_info) (n : Z) (i : f2fs_nat_entry) (new_blkaddr : Z) (fsync_done : bool) : option nat_cache_info :=
  '(c, e) ← node_addr_entry c n i new_blkaddr;
  let old := block_addr (ni e) in
  if negb (old =? block_addr i) || ((old =? NULL_ADDR) && (new_blkaddr =? NULL_ADDR)) || ((old =? NEW_ADDR) && (new_blkaddr =? NEW_ADDR))
     || (__is_valid_data_blkaddr old && (new_blkaddr =? NEW_ADDR)) then None
  else
    let ver := if negb (old =? NEW_ADDR) && (new_blkaddr =? NULL_ADDR) then u8 (version (ni e) + 1) else version (ni e) in
    let e := set_ni e {| ne_ino := ne_ino (ni e); block_addr := new_blkaddr; version := ver |} in
    let e := if negb (__is_valid_data_blkaddr new_blkaddr) then set_nat_flag e IS_CHECKPOINTED false else e in
    c ← __set_nat_cache_dirty (put_ent n e c) n;
    Some (fsync_mark c n (ne_ino i) fsync_done).

(** The loop of [f2fs_try_to_free_nats] and the function. *)
Fixpoint free_nats (l : list Z) (c : nat_cache_info) (nr : Z) : nat_cache_info * Z :=
  match l with
  | [] => (c, nr)
  | n :: l =>
      if nr =? 0 then (c, nr)
      else free_nats l (__del_from_nat_cache (set_lists c l (nat_set_root c)) n) (nr - 1)
  end.
Definition f2fs_try_to_free_nats (trylock : bool) (c : nat_cache_info) (nr_shrink : Z) : nat_cache_info * Z :=
  if negb trylock then (c, 0) else let '(c, nr) := free_nats (nat_entries c) c nr_shrink in (c, nr_shrink - nr).

(** ** Flags are independent *)

Lemma get_flag_testbit e t : 0 <= t -> get_nat_flag e t = Z.testbit (flag e) t.
Proof.
  intros Ht. unfold get_nat_flag. rewrite Z.shiftl_1_l. destruct (Z.testbit (flag e) t) eqn:E.
  - destruct (Z.eqb_spec (Z.land (flag e) (2 ^ t)) 0) as [E0|]; [|done]. assert (Z.testbit (Z.land (flag e) (2 ^ t)) t = true) as Hx; [|by rewrite E0, Z.bits_0 in Hx].
    by rewrite Z.land_spec, E, Z.pow2_bits_true by lia.
  - assert (Z.land (flag e) (2 ^ t) = 0) as ->; [|done]. apply Z.bits_inj'. intros k Hk. rewrite Z.land_spec, Z.bits_0.
    destruct (decide (k = t)) as [->|]; [by rewrite E|]. by rewrite Z.pow2_bits_false, andb_false_r by lia.
Qed.

Lemma get_set_flag e t s t' : 0 <= t -> 0 <= t' -> get_nat_flag (set_nat_flag e t s) t' = if decide (t' = t) then s else get_nat_flag e t'.
Proof.
  intros Ht Ht'. rewrite !get_flag_testbit by done. unfold set_nat_flag. cbn [flag]. rewrite Z.shiftl_1_l. destruct s.
  - rewrite Z.lor_spec. case_decide as E; [subst; by rewrite Z.pow2_bits_true, orb_true_r by lia|]. by rewrite Z.pow2_bits_false, orb_false_r by lia.
  - rewrite Z.ldiff_spec. case_decide as E; [subst; by rewrite Z.pow2_bits_true, andb_false_r by lia|]. by rewrite Z.pow2_bits_false, andb_true_r by lia.
Qed.

Lemma get_flag_ni e i t : get_nat_flag (set_ni e i) t = get_nat_flag e t.
Proof. done. Qed.
Lemma ni_set_flag e t s : ni (set_nat_flag e t s) = ni e.
Proof. done. Qed.

Lemma reset_flag_dirty e : get_nat_flag (nat_reset_flag e) IS_DIRTY = get_nat_flag e IS_DIRTY.
Proof. unfold nat_reset_flag. by rewrite !get_set_flag. Qed.

(** ** The invariant of the lists *)

Notation dirty e := (get_nat_flag e IS_DIRTY).
(** The list an entry belongs on. *)
Definition on_clean (e : nat_ent) : bool := negb (dirty e).
Definition on_set (e : nat_ent) : bool := dirty e && negb (block_addr (ni e) =? NEW_ADDR).

Record lists_ok (c : nat_cache_info) : Prop := {
  lo_nodup : NoDup (nat_entries c);
  lo_clean : forall n, n ∈ nat_entries c <-> exists e, nat_root c !! n = Some e /\ on_clean e = true;
  lo_set_nodup : forall b, NoDup (set_list c b);
  lo_set : forall b n, n ∈ set_list c b <-> b = NAT_BLOCK_OFFSET n /\ exists e, nat_root c !! n = Some e /\ on_set e = true
}.

Lemma elem_of_unlink n m l : m ∈ unlink n l <-> m <> n /\ m ∈ l.
Proof. unfold unlink. by rewrite list_elem_of_filter. Qed.
Lemma unlink_NoDup n l : NoDup l -> NoDup (unlink n l).
Proof. apply list.NoDup_filter. Qed.
Lemma unlink_fresh n l : n ∉ l -> unlink n l = l.
Proof. intros Hn. apply list_filter_all_ne; done. Qed.

Definition on_if (b : bool) (n : Z) : list Z := if b then [n] else [].

Lemma unlink_app_NoDup n l b : NoDup l -> NoDup (unlink n l ++ on_if b n).
Proof.
  intros Hl. destruct b; cbn; [|by rewrite app_nil_r; apply unlink_NoDup]. apply list.NoDup_app. split; [by apply unlink_NoDup|]. split; [|apply NoDup_singleton].
  intros x [Hx _]%elem_of_unlink Hx'%list_elem_of_singleton. done.
Qed.
Lemma elem_of_unlink_app n m l b : m ∈ unlink n l ++ on_if b n <-> (m <> n /\ m ∈ l) \/ (m = n /\ b = true).
Proof. rewrite elem_of_app, elem_of_unlink. destruct b; cbn; rewrite ?list_elem_of_singleton, ?elem_of_nil; naive_solver. Qed.

(** One entry changes, and is put on the list it belongs on. *)
Lemma lists_change c c' n e : lists_ok c -> nat_root c' = <[n := e]> (nat_root c) ->
  nat_entries c' = unlink n (nat_entries c) ++ on_if (on_clean e) n ->
  (forall b, set_list c' b = unlink n (set_list c b) ++ on_if (on_set e && bool_decide (b = NAT_BLOCK_OFFSET n)) n) -> lists_ok c'.
Proof.
  intros [H1 H2 H3 H4] Hr Hl Hs. constructor.
  - rewrite Hl. by apply unlink_app_NoDup.
  - intros m. rewrite Hl, elem_of_unlink_app, H2, Hr. destruct (decide (m = n)) as [->|Hne]; [rewrite lookup_insert_eq|rewrite lookup_insert_ne by done]; naive_solver.
  - intros b. rewrite Hs. by apply unlink_app_NoDup.
  - intros b m. rewrite Hs, elem_of_unlink_app, H4, Hr, andb_true_iff, bool_decide_eq_true.
    destruct (decide (m = n)) as [->|Hne]; [rewrite lookup_insert_eq|rewrite lookup_insert_ne by done]; naive_solver.
Qed.

Lemma set_list_alter c f b b' : nat_set_root c !! b <> None \/ f [] = [] ->
  set_list (set_lists c (nat_entries c) (alter (map_entries f) b (nat_set_root c))) b' = if decide (b' = b) then f (set_list c b') else set_list c b'.
Proof.
  intros Hb. unfold set_list, set_lists. cbn. case_decide as E; [subst|by rewrite lookup_alter_ne]. rewrite lookup_alter_eq.
  destruct (nat_set_root c !! b) as [s|]; cbn; [done|]. by destruct Hb.
Qed.

(** ** Counters *)

Definition dirty_ents (r : gmap Z nat_ent) : gmap Z nat_ent := filter (fun p => dirty p.2 = true) r.

Lemma dirty_ents_insert r n e : Z.of_nat (size (dirty_ents (<[n := e]> r))) = Z.of_nat (size (dirty_ents (delete n r))) + (if dirty e then 1 else 0).
Proof.
  unfold dirty_ents. rewrite <-insert_delete_eq. destruct (dirty e) eqn:Ed.
  - rewrite map_filter_insert_True by done. rewrite map_size_insert_None; [lia|]. apply map_lookup_filter_None. left. apply lookup_delete_eq.
  - rewrite map_filter_insert_False by (cbn; congruence). rewrite delete_delete_eq. lia.
Qed.
Lemma dirty_ents_split r n e : r !! n = Some e -> Z.of_nat (size (dirty_ents r)) = Z.of_nat (size (dirty_ents (delete n r))) + (if dirty e then 1 else 0).
Proof. intros E. rewrite <-dirty_ents_insert. by rewrite insert_id. Qed.

Lemma length_unlink n l : NoDup l -> Z.of_nat (length (unlink n l)) = Z.of_nat (length l) - (if decide (n ∈ l) then 1 else 0).
Proof. intros Hl. case_decide; [by apply length_filter_ne|]. rewrite unlink_fresh by done. lia. Qed.

Context (lo hi : Z) (nid_bounds : 0 < lo /\ hi < 2 ^ 32).

(** The invariant: [D] is the table on disk, with which clean entries agree. *)
Record cache_inv (D : Z -> f2fs_nat_entry) (c : nat_cache_info) : Prop := {
  ci_lists : lists_ok c;
  ci_range : forall n e, nat_root c !! n = Some e -> lo <= n < hi;
  ci_prealloc : forall n e, nat_root c !! n = Some e -> get_nat_flag e IS_PREALLOC = dirty e && (block_addr (ni e) =? NEW_ADDR);
  ci_clean : forall n e, nat_root c !! n = Some e -> dirty e = false -> ni e = D n;
  ci_cnt : forall b s, nat_set_root c !! b = Some s -> entry_cnt s = Z.of_nat (length (entry_list s));
  ci_reclaimable : RECLAIMABLE_NAT c = Z.of_nat (length (nat_entries c));
  ci_dirty : DIRTY_NAT c = Z.of_nat (size (dirty_ents (nat_root c)));
  ci_total : TOTAL_NAT c = Z.of_nat (size (nat_root c))
}.

Lemma ranged_length (l : list Z) : NoDup l -> (forall n, n ∈ l -> lo <= n < hi) -> Z.of_nat (length l) < 2 ^ 32.
Proof. intros Hn Hr. pose proof (bounded_length l hi Hn) as Hb. enough (Z.of_nat (length l) <= Z.max 0 hi) by lia. apply Hb. intros n Hin. specialize (Hr n Hin). lia. Qed.
Lemma ranged_size {A} (r : gmap Z A) : (forall n e, r !! n = Some e -> lo <= n < hi) -> Z.of_nat (size r) < 2 ^ 32.
Proof.
  intros Hr. rewrite <-length_map_to_list, <-(length_fmap fst). apply ranged_length; [apply NoDup_fst_map_to_list|].
  intros n ((m & e) & -> & Hp)%list_elem_of_fmap. apply elem_of_map_to_list in Hp. by eapply Hr.
Qed.
Lemma dirty_size (r : gmap Z nat_ent) : (forall n e, r !! n = Some e -> lo <= n < hi) -> Z.of_nat (size (dirty_ents r)) < 2 ^ 32.
Proof. intros Hr. apply ranged_size. intros n e [Hn _]%map_lookup_filter_Some. by eapply Hr. Qed.

(** One entry changes; the counters are those of the new lists. *)
Lemma inv_change D D' c c' n e : cache_inv D c -> lo <= n < hi -> nat_root c' = <[n := e]> (nat_root c) ->
  nat_entries c' = unlink n (nat_entries c) ++ on_if (on_clean e) n ->
  (forall b, set_list c' b = unlink n (set_list c b) ++ on_if (on_set e && bool_decide (b = NAT_BLOCK_OFFSET n)) n) ->
  get_nat_flag e IS_PREALLOC = dirty e && (block_addr (ni e) =? NEW_ADDR) -> (dirty e = false -> ni e = D' n) ->
  (forall m x, m <> n -> nat_root c !! m = Some x -> dirty x = false -> D' m = D m) ->
  (forall b s, nat_set_root c' !! b = Some s -> entry_cnt s = u32 (Z.of_nat (length (entry_list s)))) ->
  RECLAIMABLE_NAT c' = u32 (Z.of_nat (length (nat_entries c'))) -> DIRTY_NAT c' = u32 (Z.of_nat (size (dirty_ents (nat_root c')))) ->
  TOTAL_NAT c' = u32 (Z.of_nat (size (nat_root c'))) -> cache_inv D' c'.
Proof.
  intros Hi Hn Hr Hl Hs Hp Hd HD Hcnt Hre Hdi Hto.
  assert (Hlo : lists_ok c') by (eapply lists_change; [apply Hi|done..]).
  assert (Hrange : forall m x, nat_root c' !! m = Some x -> lo <= m < hi).
  { intros m x. rewrite Hr, lookup_insert_Some. intros [[<- _]|[_ Hm]]; [done|by apply (ci_range D c Hi m x)]. }
  constructor; try done.
  - intros m x. rewrite Hr, lookup_insert_Some. intros [[<- <-]|[_ Hm]]; [done|by apply (ci_prealloc D c Hi m)].
  - intros m x. rewrite Hr, lookup_insert_Some. intros [[<- <-]|[Hne Hm]] Hx; [by apply Hd|]. rewrite (HD m x) by done. by apply (ci_clean D c Hi m).
  - intros b s Hb. rewrite (Hcnt b s Hb). apply u32_small. split; [lia|]. assert (entry_list s = set_list c' b) as -> by (unfold set_list; by rewrite Hb).
    apply ranged_length; [apply Hlo|]. intros m (_ & x & Hm & _)%(lo_set c' Hlo). by apply (Hrange m x).
  - rewrite Hre. apply u32_small. split; [lia|]. apply ranged_length; [apply Hlo|]. intros m (x & Hm & _)%(lo_clean c' Hlo). by apply (Hrange m x).
  - rewrite Hdi. apply u32_small. split; [lia|by apply dirty_size].
  - rewrite Hto. apply u32_small. split; [lia|by apply ranged_size].
Qed.

(** A change of the table away from the clean entries. *)
Lemma inv_table D D' c : cache_inv D c -> (forall n e, nat_root c !! n = Some e -> dirty e = false -> D' n = D n) -> cache_inv D' c.
Proof. intros Hi HD. destruct Hi. constructor; try done. intros n e Hn He. rewrite (HD n e) by done. by apply (ci_clean0 n). Qed.

(** ** Operations keep the invariant *)

Lemma set_list_del_init c n b : set_list (list_del_init n c) b = if decide (b = NAT_BLOCK_OFFSET n) then unlink n (set_list c b) else set_list c b.
Proof.
  unfold list_del_init, set_list, set_lists. cbn [nat_set_root]. case_decide as E; [subst; rewrite lookup_alter_eq; by destruct (nat_set_root c !! _)|by rewrite lookup_alter_ne by congruence].
Qed.

(** An entry is on no list but that of its place. *)
Lemma unlink_set c n b : lists_ok c -> b <> NAT_BLOCK_OFFSET n -> unlink n (set_list c b) = set_list c b.
Proof. intros Hl Hb. apply unlink_fresh. by intros [-> _]%(lo_set c Hl). Qed.
Lemma del_init_set c n b : lists_ok c -> set_list (list_del_init n c) b = unlink n (set_list c b).
Proof. intros Hl. rewrite set_list_del_init. case_decide; [done|]. by rewrite unlink_set. Qed.

Lemma in_clean c n e : lists_ok c -> nat_root c !! n = Some e -> n ∈ nat_entries c <-> dirty e = false.
Proof. intros Hl E. rewrite (lo_clean c Hl), E. unfold on_clean. rewrite <-negb_true_iff. naive_solver. Qed.
Lemma in_set c n e : lists_ok c -> nat_root c !! n = Some e -> n ∈ set_list c (NAT_BLOCK_OFFSET n) <-> on_set e = true.
Proof. intros Hl E. rewrite (lo_set c Hl), E. naive_solver. Qed.

Lemma unlink_unset c n e : lists_ok c -> nat_root c !! n = Some e -> on_set e = false -> forall b, unlink n (set_list c b) = set_list c b.
Proof.
  intros Hl E He b. destruct (decide (b = NAT_BLOCK_OFFSET n)) as [->|]; [|by apply unlink_set]. apply unlink_fresh. intros Hx%(in_set c n e Hl E). congruence.
Qed.

Lemma del_init_cnt n c b s : nat_set_root (list_del_init n c) !! b = Some s -> exists s0, nat_set_root c !! b = Some s0 /\ entry_cnt s = entry_cnt s0 /\
  entry_list s = if decide (b = NAT_BLOCK_OFFSET n) then unlink n (entry_list s0) else entry_list s0.
Proof.
  cbn. case_decide as Hb; [subst; rewrite lookup_alter_eq|rewrite lookup_alter_ne by congruence]; [|by exists s].
  destruct (nat_set_root c !! _) as [s0|]; [|done]. cbn. intros [= <-]. by exists s0.
Qed.

(** The parts of the invariant that only count. *)
Lemma inv_counts D c : cache_inv D c -> RECLAIMABLE_NAT c = u32 (Z.of_nat (length (nat_entries c))) /\ DIRTY_NAT c = u32 (Z.of_nat (size (dirty_ents (nat_root c)))) /\
  TOTAL_NAT c = u32 (Z.of_nat (size (nat_root c))) /\ forall b s, nat_set_root c !! b = Some s -> entry_cnt s = u32 (Z.of_nat (length (entry_list s))).
Proof.
  intros Hi. pose proof (ci_lists D c Hi) as Hl. conjs.
  - rewrite (ci_reclaimable D c Hi). symmetry. apply u32_small. split; [lia|]. apply ranged_length; [apply Hl|]. intros m (x & Hm & _)%(lo_clean c Hl). by apply (ci_range D c Hi m x).
  - rewrite (ci_dirty D c Hi). symmetry. apply u32_small. split; [lia|]. apply dirty_size. apply Hi.
  - rewrite (ci_total D c Hi). symmetry. apply u32_small. split; [lia|]. apply ranged_size. apply Hi.
  - intros b s Hb. rewrite (ci_cnt D c Hi b s Hb). symmetry. apply u32_small. split; [lia|]. assert (entry_list s = set_list c b) as -> by (unfold set_list; by rewrite Hb).
    apply ranged_length; [apply Hl|]. intros m (_ & x & Hm & _)%(lo_set c Hl). by apply (ci_range D c Hi m x).
Qed.
(** A clean entry moves to the end of the list. *)
Lemma move_clean_inv D c n e : cache_inv D c -> nat_root c !! n = Some e -> dirty e = false -> cache_inv D (move_to_clean n c).
Proof.
  intros Hi E He. pose proof (ci_lists D c Hi) as Hl. assert (Hos : on_set e = false) by (unfold on_set; by rewrite He). assert (Hoc : on_clean e = true) by (unfold on_clean; by rewrite He).
  destruct (inv_counts D c Hi) as (Hc1 & Hc2 & Hc3 & Hc4). assert (Hid : <[n := e]> (nat_root c) = nat_root c) by (by rewrite insert_id).
  apply (inv_change D D c _ n e); rewrite ?Hid; try done.
  - by apply (ci_range D c Hi n e).
  - by rewrite Hoc.
  - intros b. rewrite Hos. cbn. rewrite app_nil_r. apply (del_init_set c n b Hl).
  - by apply (ci_prealloc D c Hi n).
  - intros _. by apply (ci_clean D c Hi n).
  - intros b s Hb. apply (del_init_cnt n c) in Hb as (s0 & Hs0 & -> & ->).
    assert (Hsl : entry_list s0 = set_list c b) by (unfold set_list; by rewrite Hs0). assert (Hu : unlink n (entry_list s0) = entry_list s0) by (rewrite Hsl; by apply (unlink_unset c n e)).
    rewrite Hu. replace (if decide _ then entry_list s0 else entry_list s0) with (entry_list s0) by (by case_decide). by apply (Hc4 b s0).
  - cbn. rewrite length_app, Nat2Z.inj_add, length_unlink by apply Hl. rewrite decide_True by (by apply (in_clean c n e)). rewrite Hc1. cbn. f_equal. lia.
Qed.

Lemma lookup_spec D c n : cache_inv D c -> exists c', __lookup_nat_cache c n = (c', nat_root c !! n) /\ cache_inv D c' /\
  nat_root c' = nat_root c /\ (nat_root c !! n = None -> c' = c) /\ DIRTY_NAT c' = DIRTY_NAT c.
Proof.
  intros Hi. unfold __lookup_nat_cache. destruct (nat_root c !! n) as [e|] eqn:E; [|by exists c].
  destruct (negb (dirty e) && negb (list_empty n c)) eqn:Em; [|by exists c]. apply andb_true_iff in Em as [Ed%negb_true_iff _].
  exists (move_to_clean n c). split; [done|]. split; [by apply (move_clean_inv D c n e)|]. done.
Qed.


Lemma not_cached c n : lists_ok c -> nat_root c !! n = None -> n ∉ nat_entries c /\ forall b, n ∉ set_list c b.
Proof. intros Hl E. split; [|intros b]; [intros (e & Hx & _)%(lo_clean c Hl)|intros (_ & e & Hx & _)%(lo_set c Hl)]; congruence. Qed.

(** A new clean entry, as the table has it. *)
Lemma init_spec D c n e e0 : cache_inv D c -> lo <= n < hi -> nat_root c !! n = None -> ni e = D n -> flag e = flag __alloc_nat_entry ->
  cache_inv D (put_ent n e (__init_nat_entry c n e0 None)).
Proof.
  intros Hi Hn E Hni Hfl. pose proof (ci_lists D c Hi) as Hl. destruct (inv_counts D c Hi) as (Hc1 & Hc2 & Hc3 & Hc4). destruct (not_cached c n Hl E) as [Hn1 Hn2].
  assert (Hd : dirty e = false) by (unfold get_nat_flag; by rewrite Hfl). assert (Hp : get_nat_flag e IS_PREALLOC = false) by (unfold get_nat_flag; by rewrite Hfl).
  apply (inv_change D D c _ n e); try done.
  - cbn. by rewrite insert_insert_eq.
  - cbn. unfold on_clean. by rewrite Hd, unlink_fresh.
  - intros b. unfold on_set. rewrite Hd. cbn. by rewrite app_nil_r, unlink_fresh.
  - by rewrite Hp, Hd.
  - cbn. rewrite length_app, Nat2Z.inj_add, Hc1, u32_add_l. done.
  - cbn. rewrite Hc2, u32_add_l, insert_insert_eq, dirty_ents_insert, Hd, delete_id by done. done.
  - cbn. rewrite insert_insert_eq, map_size_insert_None, Hc3, u32_add_l by done. f_equal. lia.
Qed.

Lemma cache_nat_spec D mem c n : cache_inv D c -> lo <= n < hi -> nat_root c !! n = None ->
  exists c', cache_nat_entry mem c n (D n) = Some c' /\ cache_inv D c' /\
    (nat_root c' = nat_root c \/ exists e, ni e = D n /\ nat_root c' = <[n := e]> (nat_root c)).
Proof.
  intros Hi Hn E. unfold cache_nat_entry. destruct mem; cbn [negb]; [|exists c; auto].
  destruct (lookup_spec D c n Hi) as (c1 & El & Hi1 & Hr1 & Hc1 & _). rewrite El, E. rewrite (Hc1 E) in *. eexists. split; [done|].
  pose proof (init_spec D c n (set_ni __alloc_nat_entry (D n)) __alloc_nat_entry Hi Hn E eq_refl eq_refl) as Hx.
  split; [|right; eexists; split; [|done]; done]. unfold __init_nat_entry, put_ent, add_cnt, set_lists in *. cbn in *. by rewrite insert_insert_eq in Hx.
Qed.

(** The set of an entry. *)
Lemma grab_spec c n : exists s, nat_set_root (__grab_nat_entry_set c n) !! NAT_BLOCK_OFFSET n = Some s /\ entry_list s = set_list c (NAT_BLOCK_OFFSET n) /\
  (nat_set_root c !! NAT_BLOCK_OFFSET n = Some s \/ s = {| entry_list := []; entry_cnt := 0 |}) /\
  (forall b, b <> NAT_BLOCK_OFFSET n -> nat_set_root (__grab_nat_entry_set c n) !! b = nat_set_root c !! b).
Proof.
  unfold __grab_nat_entry_set, set_list. destruct (nat_set_root c !! NAT_BLOCK_OFFSET n) as [s|] eqn:E; [exists s; naive_solver|].
  eexists. cbn. rewrite lookup_insert_eq. split; [done|]. split; [done|]. split; [by right|]. intros b Hb. by rewrite lookup_insert_ne.
Qed.

(** What [__set_nat_cache_dirty] has done before it moves the entry: [fresh] tells
    that the entry was on no set. *)
Lemma dirty_stage D c0 n e e1 (new_ne fresh was : bool) : cache_inv D c0 -> 
  let cA := if new_ne then put_ent n e c0 else __grab_nat_entry_set (put_ent n e c0) n in
  let cB := if negb new_ne && fresh then set_lists cA (nat_entries cA) (alter (add_entry_cnt 1) (NAT_BLOCK_OFFSET n) (nat_set_root cA)) else cA in
  let cC := if was then put_ent n e1 cB else put_ent n (set_nat_flag e1 IS_DIRTY true) (add_cnt 0 1 (-1) cB) in
  nat_root cC = <[n := if was then e1 else set_nat_flag e1 IS_DIRTY true]> (nat_root c0) /\ nat_entries cC = nat_entries c0 /\
  (forall b, set_list cC b = set_list c0 b) /\ (new_ne = false -> is_Some (nat_set_root cC !! NAT_BLOCK_OFFSET n)) /\
  (forall b s, nat_set_root cC !! b = Some s -> entry_cnt s = u32 (Z.of_nat (length (entry_list s)) + (if negb new_ne && fresh && bool_decide (b = NAT_BLOCK_OFFSET n) then 1 else 0))) /\
  RECLAIMABLE_NAT cC = u32 (Z.of_nat (length (nat_entries c0)) - (if was then 0 else 1)) /\
  DIRTY_NAT cC = u32 (Z.of_nat (size (dirty_ents (nat_root c0))) + (if was then 0 else 1)) /\ TOTAL_NAT cC = u32 (Z.of_nat (size (nat_root c0))).
Proof.
  intros Hi cA cB cC. destruct (inv_counts D c0 Hi) as (Hc1 & Hc2 & Hc3 & Hc4).
  assert (HA : nat_root cA = <[n := e]> (nat_root c0) /\ nat_entries cA = nat_entries c0 /\ (forall b, set_list cA b = set_list c0 b) /\
    (new_ne = false -> is_Some (nat_set_root cA !! NAT_BLOCK_OFFSET n)) /\ (forall b s, nat_set_root cA !! b = Some s -> entry_cnt s = u32 (Z.of_nat (length (entry_list s)))) /\
    RECLAIMABLE_NAT cA = RECLAIMABLE_NAT c0 /\ DIRTY_NAT cA = DIRTY_NAT c0 /\ TOTAL_NAT cA = TOTAL_NAT c0).
  { unfold cA. destruct new_ne; [done|]. unfold __grab_nat_entry_set. cbn [put_ent nat_set_root]. destruct (nat_set_root c0 !! NAT_BLOCK_OFFSET n) as [s|] eqn:Es; cbn.
    - rewrite Es. done.
    - conjs; try done; [|by rewrite lookup_insert_eq|].
      + intros b. unfold set_list. cbn. destruct (decide (b = NAT_BLOCK_OFFSET n)) as [->|]; [by rewrite lookup_insert_eq, Es|by rewrite lookup_insert_ne].
      + intros b s. rewrite lookup_insert_Some. intros [[_ <-]|[_ Hb]]; [done|by apply (Hc4 b)]. }
  destruct HA as (A1 & A2 & A3 & A4 & A5 & A6 & A7 & A8).
  assert (HB : nat_root cB = nat_root cA /\ nat_entries cB = nat_entries cA /\ (forall b, set_list cB b = set_list cA b) /\
    (new_ne = false -> is_Some (nat_set_root cB !! NAT_BLOCK_OFFSET n)) /\
    (forall b s, nat_set_root cB !! b = Some s -> entry_cnt s = u32 (Z.of_nat (length (entry_list s)) + (if negb new_ne && fresh && bool_decide (b = NAT_BLOCK_OFFSET n) then 1 else 0))) /\
    RECLAIMABLE_NAT cB = RECLAIMABLE_NAT cA /\ DIRTY_NAT cB = DIRTY_NAT cA /\ TOTAL_NAT cB = TOTAL_NAT cA).
  { unfold cB. destruct (negb new_ne && fresh) eqn:Ef.
    - cbn. conjs; try done.
      + intros b. unfold set_list. cbn. destruct (decide (b = NAT_BLOCK_OFFSET n)) as [->|]; [rewrite lookup_alter_eq; by destruct (nat_set_root cA !! _)|by rewrite lookup_alter_ne].
      + intros Hn. rewrite lookup_alter_eq. by destruct (A4 Hn) as [s ->].
      + intros b s. case_bool_decide as Hb; [subst; rewrite lookup_alter_eq|rewrite lookup_alter_ne by congruence; intros Hs; rewrite Z.add_0_r; by apply (A5 b)].
        destruct (nat_set_root cA !! _) as [s0|] eqn:Es; [|done]. cbn. intros [= <-]. cbn. by rewrite (A5 _ s0 Es), u32_add_l.
    - conjs; try done. intros b s Hs. rewrite andb_false_l, Z.add_0_r. by apply (A5 b). }
  destruct HB as (B1 & B2 & B3 & B4 & B5 & B6 & B7 & B8). unfold cC. destruct was; cbn; rewrite ?B1, ?A1, ?B2, ?A2, ?B6, ?A6, ?B7, ?A7, ?B8, ?A8, ?Hc1, ?Hc2, ?Hc3, ?insert_insert_eq, ?u32_add_l, ?Z.add_0_r, ?Z.sub_0_r, ?u32_idemp.
  - conjs; try done. intros b. by rewrite <-A3, <-B3.
  - conjs; try done. intros b. by rewrite <-A3, <-B3.
Qed.

(** The count of a set after its entry is moved. *)
Lemma moved_cnt c0 cC n e0 (new_ne fresh : bool) : lists_ok c0 -> nat_root c0 !! n = Some e0 -> (forall b, set_list cC b = set_list c0 b) ->
  fresh = negb (on_set e0) -> (on_set e0 = true -> new_ne = false) ->
  (forall b s, nat_set_root cC !! b = Some s -> entry_cnt s = u32 (Z.of_nat (length (entry_list s)) + (if negb new_ne && fresh && bool_decide (b = NAT_BLOCK_OFFSET n) then 1 else 0))) ->
  forall b s, nat_set_root (if new_ne then list_del_init n cC else move_to_set n cC) !! b = Some s -> entry_cnt s = u32 (Z.of_nat (length (entry_list s))).
Proof.
  intros Hl E C3 Hfresh Hnew C5 b s Hs.
  assert (Hlen : forall l, l = set_list c0 (NAT_BLOCK_OFFSET n) -> Z.of_nat (length (unlink n l)) = Z.of_nat (length l) - (if on_set e0 then 1 else 0)).
  { intros l ->. rewrite length_unlink by apply Hl. case_decide as Hin; rewrite (in_set c0 n e0 Hl E) in Hin; [by rewrite Hin|by destruct (on_set e0)]. }
  assert (Hsl : forall b s0, nat_set_root cC !! b = Some s0 -> entry_list s0 = set_list c0 b) by (intros b0 s0 Hs0; rewrite <-C3; unfold set_list; by rewrite Hs0).
  destruct new_ne; cbn [negb andb] in C5.
  - apply del_init_cnt in Hs as (s0 & Hs0 & -> & ->). rewrite (C5 b s0 Hs0), Z.add_0_r. case_decide as Hb; [subst|done]. rewrite Hlen by (by apply Hsl).
      destruct (on_set e0) eqn:Eo; [|by rewrite Z.sub_0_r]. by specialize (Hnew eq_refl).
  - unfold move_to_set in Hs. cbn [set_lists nat_set_root] in Hs. destruct (decide (b = NAT_BLOCK_OFFSET n)) as [->|Hb].
    + rewrite lookup_alter_eq in Hs. destruct (nat_set_root (list_del_init n cC) !! NAT_BLOCK_OFFSET n) as [s1|] eqn:E1; [|done]. injection Hs as <-. cbn.
        apply del_init_cnt in E1 as (s0 & Hs0 & -> & ->). rewrite (C5 _ s0 Hs0), decide_True, length_app, Nat2Z.inj_add by done. rewrite Hlen by (by apply Hsl).
        rewrite bool_decide_true, andb_true_r, Hfresh by done. f_equal. destruct (on_set e0); cbn; lia.
    + rewrite lookup_alter_ne in Hs by congruence. apply del_init_cnt in Hs as (s0 & Hs0 & -> & ->). rewrite decide_False by done.
        rewrite (C5 _ s0 Hs0), bool_decide_false, andb_false_r, Z.add_0_r by done. done.
Qed.

(** [c] is the cache [c0] with the entry of [n] changed to [e], but for its lists. *)
Lemma set_dirty_spec D c0 n e0 e : cache_inv D c0 -> nat_root c0 !! n = Some e0 -> dirty e = dirty e0 -> get_nat_flag e IS_PREALLOC = get_nat_flag e0 IS_PREALLOC ->
  (on_set e0 = true -> block_addr (ni e) <> NEW_ADDR) ->
  exists c' e', __set_nat_cache_dirty (put_ent n e c0) n = Some c' /\ cache_inv D c' /\ nat_root c' = <[n := e']> (nat_root c0) /\
    ni e' = ni e /\ dirty e' = true /\ (forall t, 0 <= t < 3 -> get_nat_flag e' t = get_nat_flag e t).
Proof.
  intros Hi E Hd Hp Hnew. pose proof (ci_lists D c0 Hi) as Hl.
  pose proof (ci_prealloc D c0 Hi n e0 E) as Hpre. unfold __set_nat_cache_dirty. cbn [put_ent nat_root]. rewrite lookup_insert_eq. cbn [mbind option_bind].
  set (new_ne := block_addr (ni e) =? NEW_ADDR). set (e1 := set_nat_flag e IS_PREALLOC new_ne).
  assert (Hd1 : dirty e1 = dirty e0) by (unfold e1; rewrite get_set_flag by done; by rewrite decide_False).
  set (fresh := get_nat_flag e IS_PREALLOC || negb (dirty e)).
  assert (Hfresh : fresh = negb (on_set e0)) by (unfold fresh, on_set; rewrite Hd, Hp, Hpre; by destruct (dirty e0), (_ =? _)).
  destruct (dirty_stage D c0 n e e1 new_ne fresh (dirty e1) Hi) as (C1 & C2 & C3 & C4 & C5 & C6 & C7 & C8).
  set (cC := if dirty e1 then _ else _) in *. set (e' := if dirty e1 then e1 else set_nat_flag e1 IS_DIRTY true) in *.
  assert (He' : ni e' = ni e /\ dirty e' = true /\ get_nat_flag e' IS_PREALLOC = new_ne /\ forall t, 0 <= t < 3 -> get_nat_flag e' t = get_nat_flag e t).
  { unfold e'. split; [by destruct (dirty e1)|]. split; [destruct (dirty e1) eqn:Ed1; [done|by rewrite get_set_flag]|].
    split; [destruct (dirty e1); unfold e1; by rewrite !get_set_flag|]. intros t Ht. destruct (dirty e1); unfold e1, IS_DIRTY, IS_PREALLOC; rewrite !get_set_flag by lia; repeat case_decide; lia || done. }
  destruct He' as (N1 & N2 & N3 & N4). exists (if new_ne then list_del_init n cC else move_to_set n cC), e'. split; [done|]. split; [|by destruct new_ne].
  assert (Hoc : on_clean e' = false) by (unfold on_clean; by rewrite N2). assert (Hos : on_set e' = negb new_ne) by (unfold on_set; by rewrite N1, N2).
  assert (HlC : forall b, set_list (list_del_init n cC) b = unlink n (set_list c0 b)).
  { intros b. rewrite set_list_del_init, C3. case_decide as Hb; [done|]. by rewrite unlink_set. }
  apply (inv_change D D c0 _ n e'); try done.
  - by apply (ci_range D c0 Hi n e0).
  - by destruct new_ne.
  - rewrite Hoc, app_nil_r. destruct new_ne; cbn; by rewrite C2.
  - intros b. rewrite Hos. destruct new_ne; cbn [negb andb on_if]; [by rewrite HlC, app_nil_r|].
    rewrite <-HlC. unfold move_to_set. rewrite set_list_alter by (left; cbn; rewrite lookup_alter_eq; by destruct (C4 eq_refl) as [? ->]).
    case_bool_decide; [by rewrite decide_True|rewrite decide_False by done; cbn; by rewrite app_nil_r].
  - by rewrite N1, N2, N3.
  - congruence.
  - apply (moved_cnt c0 cC n e0 new_ne fresh); try done. intros Eo. by apply Z.eqb_neq, Hnew.
  - assert (RECLAIMABLE_NAT (if new_ne then list_del_init n cC else move_to_set n cC) = RECLAIMABLE_NAT cC) as -> by (by destruct new_ne).
    assert (nat_entries (if new_ne then list_del_init n cC else move_to_set n cC) = unlink n (nat_entries c0)) as -> by (destruct new_ne; cbn; by rewrite C2).
    rewrite C6, length_unlink, Hd1 by apply Hl. do 2 f_equal. case_decide as Hin; rewrite (in_clean c0 n e0 Hl E) in Hin; [by rewrite Hin|by destruct (dirty e0)].
  - assert (DIRTY_NAT (if new_ne then list_del_init n cC else move_to_set n cC) = DIRTY_NAT cC) as -> by (by destruct new_ne).
    assert (nat_root (if new_ne then list_del_init n cC else move_to_set n cC) = nat_root cC) as -> by (by destruct new_ne).
    rewrite C7, C1, dirty_ents_insert, N2, (dirty_ents_split _ n e0 E), Hd1. f_equal. destruct (dirty e0); lia.
  - assert (TOTAL_NAT (if new_ne then list_del_init n cC else move_to_set n cC) = TOTAL_NAT cC) as -> by (by destruct new_ne).
    assert (nat_root (if new_ne then list_del_init n cC else move_to_set n cC) = nat_root cC) as -> by (by destruct new_ne).
    by rewrite C8, C1, map_size_insert_Some by eauto.
Qed.

(** Flags that do not place an entry. *)
Lemma put_flags D c n e e' : cache_inv D c -> nat_root c !! n = Some e -> ni e' = ni e -> dirty e' = dirty e ->
  get_nat_flag e' IS_PREALLOC = get_nat_flag e IS_PREALLOC -> cache_inv D (put_ent n e' c).
Proof.
  intros Hi E Hn Hd Hp. pose proof (ci_lists D c Hi) as [L1 L2 L3 L4]. assert (Hoc : on_clean e' = on_clean e) by (unfold on_clean; by rewrite Hd).
  assert (Hos : on_set e' = on_set e) by (unfold on_set; by rewrite Hd, Hn).
  constructor; cbn; try apply Hi.
  - constructor; cbn; try done.
    + intros m. rewrite L2. destruct (decide (m = n)) as [->|]; [rewrite lookup_insert_eq, E|by rewrite lookup_insert_ne]. naive_solver.
    + intros b m. change (set_list (put_ent n e' c) b) with (set_list c b). rewrite L4. destruct (decide (m = n)) as [->|]; [rewrite lookup_insert_eq, E|by rewrite lookup_insert_ne]. naive_solver.
  - intros m x. rewrite lookup_insert_Some. intros [[<- _]|[_ Hm]]; [by apply (ci_range D c Hi n e)|by apply (ci_range D c Hi m x)].
  - intros m x. rewrite lookup_insert_Some. intros [[<- <-]|[_ Hm]]; [rewrite Hd, Hp, Hn; by apply (ci_prealloc D c Hi n)|by apply (ci_prealloc D c Hi m)].
  - intros m x. rewrite lookup_insert_Some. intros [[<- <-]|[_ Hm]]; [rewrite Hd, Hn; by apply (ci_clean D c Hi n)|by apply (ci_clean D c Hi m)].
  - rewrite (ci_dirty D c Hi), dirty_ents_insert, (dirty_ents_split _ n e E), Hd. done.
  - rewrite (ci_total D c Hi). by rewrite map_size_insert_Some by eauto.
Qed.

(** The table: what the cache says, or the disk. *)
Definition view (c : nat_cache_info) (D : Z -> f2fs_nat_entry) (n : Z) : f2fs_nat_entry := match nat_root c !! n with Some e => ni e | None => D n end.

(** A removed node is not yet checkpointed, so its id is not taken for free. *)
Definition null_ok (c : nat_cache_info) : Prop :=
  forall n e, nat_root c !! n = Some e -> dirty e = true -> block_addr (ni e) = NULL_ADDR -> get_nat_flag e IS_CHECKPOINTED = false.

(** The changes of an address the code allows: a node gets a place, a block, moves,
    or goes. *)
Definition addr_change (old new : Z) : Prop :=
  (new = NEW_ADDR -> old = NULL_ADDR) /\ (new = NULL_ADDR -> old <> NULL_ADDR).

Definition new_info (i : f2fs_nat_entry) (new_blkaddr : Z) : f2fs_nat_entry :=
  {| ne_ino := ne_ino i; block_addr := new_blkaddr;
     version := if negb (block_addr i =? NEW_ADDR) && (new_blkaddr =? NULL_ADDR) then u8 (version i + 1) else version i |}.

Lemma fsync_mark_spec D c n ino fsync : cache_inv D c -> cache_inv D (fsync_mark c n ino fsync) /\ (null_ok c -> null_ok (fsync_mark c n ino fsync)) /\
  forall m, view (fsync_mark c n ino fsync) D m = view c D m.
Proof.
  intros Hi. unfold fsync_mark.
  assert (Hl : exists c1, (if negb (n =? ino) then __lookup_nat_cache c ino else (c, nat_root c !! n)) = (c1, nat_root c !! ino) /\ cache_inv D c1 /\ nat_root c1 = nat_root c).
  { destruct (Z.eqb_spec n ino) as [->|]; [by exists c|]. destruct (lookup_spec D c ino Hi) as (c1 & -> & Hi1 & Hr1 & _). by exists c1. }
  destruct Hl as (c1 & -> & Hi1 & Hr1). destruct (nat_root c !! ino) as [e|] eqn:E.
  2: { split; [done|]. unfold null_ok, view. by rewrite Hr1. }
  set (e' := set_nat_flag _ HAS_LAST_FSYNC fsync).
  assert (He : ni e' = ni e /\ forall t, 0 <= t -> t <> 1 -> t <> 2 -> get_nat_flag e' t = get_nat_flag e t).
  { unfold e'. destruct (fsync && _); (split; [done|]); intros t Ht H1 H2; rewrite !get_set_flag by done; by rewrite !decide_False. }
  destruct He as [He Hf]. split; [apply (put_flags D c1 ino e); try done; by rewrite ?Hr1, ?Hf|]. split.
  - intros Hnu m x. cbn. rewrite Hr1, lookup_insert_Some. intros [[<- <-]|[_ Hm]]; [rewrite He, !Hf by done; by apply (Hnu ino)|by apply (Hnu m)].
  - intros m. unfold view. cbn. rewrite Hr1. destruct (decide (m = ino)) as [->|]; [by rewrite lookup_insert_eq, E|by rewrite lookup_insert_ne].
Qed.

(** The entry [set_node_addr] works on. *)
Lemma grab_entry D c n i new : cache_inv D c -> lo <= n < hi -> i = view c D n -> block_addr (D n) <> NEW_ADDR -> (new = NEW_ADDR -> block_addr i = NULL_ADDR) ->
  exists c1 e, node_addr_entry c n i new = Some (c1, e) /\ cache_inv D c1 /\ nat_root c1 = <[n := e]> (nat_root c) /\ ni e = i /\ (forall x, nat_root c !! n = Some x -> e = x) /\
    (nat_root c !! n = None -> dirty e = false).
Proof.
  intros Hi Hn Hv HD Hnew. unfold node_addr_entry. destruct (lookup_spec D c n Hi) as (c1 & -> & Hi1 & Hr1 & Hc1 & _). unfold view in Hv. destruct (nat_root c !! n) as [e|] eqn:E.
  - assert (Hse : set_ni e i = e) by (rewrite Hv; by destruct e). assert (Hid : <[n := e]> (nat_root c) = nat_root c) by (by rewrite insert_id).
    destruct (Z.eqb_spec new NEW_ADDR) as [Hn1|].
    + rewrite (Hnew Hn1), Z.eqb_refl, Hse. cbn [negb]. eexists _, _. split; [done|]. split; [apply (put_flags D c1 n e); try done; by rewrite Hr1|]. cbn. rewrite Hr1. naive_solver.
    + exists c1, e. rewrite Hid. naive_solver.
  - specialize (Hc1 eq_refl) as ->. destruct (Z.eqb_spec (block_addr i) NEW_ADDR); [congruence|]. eexists _, _. split; [done|].
    split; [by apply init_spec|]. cbn. rewrite insert_insert_eq. done.
Qed.

Lemma set_node_addr_spec D c n i new fsync : cache_inv D c -> lo <= n < hi -> i = view c D n -> block_addr (D n) <> NEW_ADDR -> addr_change (block_addr i) new ->
  (forall e, nat_root c !! n = Some e -> new = NEW_ADDR -> dirty e = false) -> NULL_ADDR <> NEW_ADDR ->
  exists c', set_node_addr c n i new fsync = Some c' /\ cache_inv D c' /\ (null_ok c -> null_ok c') /\
    (forall m, view c' D m = if decide (m = n) then new_info i new else view c D m).
Proof.
  intros Hi Hn Hv HD [Hch1 Hch2] Hclean Hne. destruct (grab_entry D c n i new Hi Hn Hv HD Hch1) as (c1 & e & E1 & Hi1 & Hr1 & Hni & Hx & Hx0).
  unfold set_node_addr. rewrite E1. cbn [mbind option_bind]. rewrite Hni, Z.eqb_refl. cbn [negb orb].
  assert (Hchk : (block_addr i =? NULL_ADDR) && (new =? NULL_ADDR) || (block_addr i =? NEW_ADDR) && (new =? NEW_ADDR) || __is_valid_data_blkaddr (block_addr i) && (new =? NEW_ADDR) = false).
  { destruct (Z.eqb_spec new NEW_ADDR) as [->|].
    - unfold __is_valid_data_blkaddr. rewrite (Hch1 eq_refl), Z.eqb_refl. destruct (Z.eqb_spec NULL_ADDR NEW_ADDR), (Z.eqb_spec NEW_ADDR NULL_ADDR); [congruence..|]. done.
    - rewrite !andb_false_r, !orb_false_r. destruct (Z.eqb_spec new NULL_ADDR) as [->|]; [|by rewrite andb_false_r].
      destruct (Z.eqb_spec (block_addr i) NULL_ADDR); [by destruct (Hch2 eq_refl)|done]. }
  rewrite Hchk. set (e2 := set_ni e _). set (e3 := if negb _ then set_nat_flag e2 IS_CHECKPOINTED false else e2).
  assert (H3 : ni e3 = new_info i new /\ dirty e3 = dirty e /\ get_nat_flag e3 IS_PREALLOC = get_nat_flag e IS_PREALLOC /\ (new = NULL_ADDR -> get_nat_flag e3 IS_CHECKPOINTED = false)).
  { assert (Hn2 : ni e2 = new_info i new) by done. assert (Hf2 : forall t, get_nat_flag e2 t = get_nat_flag e t) by done. clearbody e2.
    unfold e3. destruct (negb (__is_valid_data_blkaddr new)) eqn:Ev; [rewrite !get_set_flag by done; by rewrite !decide_False, !Hf2 by done|]. rewrite !Hf2. conjs; try done.
    intros ->. unfold __is_valid_data_blkaddr in Ev. by rewrite Z.eqb_refl, orb_true_r in Ev. }
  destruct H3 as (H31 & H32 & H33 & H34).
  assert (E1' : nat_root c1 !! n = Some e) by (by rewrite Hr1, lookup_insert_eq).
  destruct (set_dirty_spec D c1 n e e3) as (c2 & e4 & -> & Hi2 & Hr2 & H41 & H42 & H43); try done.
  { intros Hos Hb. rewrite H31 in Hb. cbn in Hb. unfold on_set in Hos. destruct (nat_root c !! n) as [x|] eqn:Ex; [rewrite (Hx x eq_refl), (Hclean x eq_refl Hb) in Hos|rewrite (Hx0 eq_refl) in Hos]; done. }
  cbn [mbind option_bind].
  assert (Hr : forall m, nat_root c2 !! m = if decide (m = n) then Some e4 else nat_root c !! m).
  { intros m. rewrite Hr2, Hr1, insert_insert_eq. case_decide as Hm; [subst; by rewrite lookup_insert_eq|by rewrite lookup_insert_ne]. }
  assert (Hview : forall m, view c2 D m = if decide (m = n) then new_info i new else view c D m).
  { intros m. unfold view. rewrite Hr. case_decide; [|done]. by rewrite H41, H31. }
  assert (Hnull : null_ok c -> null_ok c2).
  { intros Hnu m x. rewrite Hr. case_decide as Hm; [|by apply Hnu]. intros [= <-] _ Hb. rewrite H41, H31 in Hb. rewrite H43 by (unfold IS_CHECKPOINTED; lia). by apply H34. }
  destruct (fsync_mark_spec D c2 n (ne_ino i) fsync Hi2) as (Hi3 & Hnull3 & Hview3). eexists. split; [done|]. split; [done|]. split; [tauto|].
  intros m. by rewrite Hview3.
Qed.

(** The oldest clean entry is dropped: the disk has what it says. *)
Lemma del_clean_spec D c n l : cache_inv D c -> nat_entries c = n :: l ->
  let c' := __del_from_nat_cache (set_lists c l (nat_set_root c)) n in
  cache_inv D c' /\ (forall m, view c' D m = view c D m) /\ nat_root c' = delete n (nat_root c) /\ nat_entries c' = l.
Proof.
  intros Hi El c'. pose proof (ci_lists D c Hi) as Hl. pose proof (ci_lists D c Hi) as [L1 L2 L3 L4]. destruct (inv_counts D c Hi) as (Hc1 & Hc2 & Hc3 & Hc4).
  assert (Hin : n ∈ nat_entries c) by (rewrite El; left). pose proof (proj1 (L2 n) Hin) as (e & E & Hoc). rewrite El in L1. apply list.NoDup_cons in L1 as [Hnl L1].
  assert (Hd : dirty e = false) by (by apply (in_clean c n e)). assert (Hr : nat_root c' = delete n (nat_root c)) by done. assert (Hle : nat_entries c' = l) by done.
  assert (Hrange : forall m x, nat_root c' !! m = Some x -> lo <= m < hi) by (intros m x; rewrite Hr; intros [_ Hm]%lookup_delete_Some; by apply (ci_range D c Hi m x)).
  split; [|split; [|done]].
  - constructor; try done.
    + constructor; rewrite ?Hle; try done.
      * intros m. rewrite Hr. destruct (decide (m = n)) as [->|Hm]; [rewrite lookup_delete_eq; naive_solver|rewrite lookup_delete_ne by done]. rewrite <-L2, El, elem_of_cons. naive_solver.
      * intros b m. change (set_list c' b) with (set_list c b). rewrite L4, Hr. destruct (decide (m = n)) as [->|Hm]; [|by rewrite lookup_delete_ne]. rewrite lookup_delete_eq, E.
        split; [|naive_solver]. intros (_ & x & [= <-] & Hx). unfold on_set in Hx. by rewrite Hd in Hx.
    + intros m x; rewrite Hr; intros [_ Hm]%lookup_delete_Some. by apply (ci_prealloc D c Hi m).
    + intros m x; rewrite Hr; intros [_ Hm]%lookup_delete_Some. by apply (ci_clean D c Hi m).
    + apply Hi.
    + cbn. rewrite (ci_reclaimable D c Hi), El, <-(u32_small (Z.of_nat (length l))); [f_equal; cbn; lia|]. split; [lia|]. apply ranged_length; [done|].
      intros m Hm. assert (m ∈ nat_entries c) as (x & Hx & _)%L2 by (rewrite El; by right). by apply (ci_range D c Hi m x).
    + cbn. rewrite Hc2, u32_add_l, Z.add_0_r, (dirty_ents_split _ n e E), Hd, Z.add_0_r. apply u32_small. split; [lia|by apply dirty_size].
    + cbn. rewrite Hc3, u32_add_l, <-(u32_small (Z.of_nat (size (delete n (nat_root c))))); [|split; [lia|by apply ranged_size]]. f_equal.
      rewrite map_size_delete_Some by eauto. assert (size (nat_root c) <> 0%nat); [|lia]. intros H0%map_size_empty_inv. by rewrite H0, lookup_empty in E.
  - intros m. unfold view. rewrite Hr. destruct (decide (m = n)) as [->|]; [|by rewrite lookup_delete_ne]. rewrite lookup_delete_eq, E. symmetry. by apply (ci_clean D c Hi n).
Qed.

Lemma free_nats_spec D l : forall c nr, cache_inv D c -> nat_entries c = l -> let r := free_nats l c nr in
  cache_inv D r.1 /\ (forall m, view r.1 D m = view c D m) /\ (forall m e, nat_root r.1 !! m = Some e -> nat_root c !! m = Some e).
Proof.
  induction l as [|n l IH]; intros c nr Hi El; cbn; [done|]. destruct (nr =? 0); [done|].
  destruct (del_clean_spec D c n l Hi El) as (Hi1 & Hv1 & Hr1 & Hl1). destruct (IH _ (nr - 1) Hi1 Hl1) as (Hi2 & Hv2 & Hr2). split; [done|]. split; [intros m; by rewrite Hv2|].
  intros m e Hm. apply Hr2 in Hm. rewrite Hr1 in Hm. by apply lookup_delete_Some in Hm as [_ ?].
Qed.

(** A dirty entry of a set is written: the new table [D'] has it. *)
Lemma clear_dirty_spec D D' c n e : cache_inv D c -> nat_root c !! n = Some e -> on_set e = true ->
  D' n = ni e -> (forall m x, m <> n -> nat_root c !! m = Some x -> dirty x = false -> D' m = D m) ->
  exists c' e', __clear_nat_cache_dirty (put_ent n (nat_reset_flag e) c) (NAT_BLOCK_OFFSET n) n = Some c' /\ cache_inv D' c' /\
    nat_root c' = <[n := e']> (nat_root c) /\ ni e' = ni e /\ dirty e' = false /\ get_nat_flag e' IS_CHECKPOINTED = true /\ (forall b, set_list c' b = unlink n (set_list c b)) /\
    (forall b, nat_set_root c' !! b = None <-> nat_set_root c !! b = None).
Proof.
  intros Hi E Hos HD HD'. pose proof (ci_lists D c Hi) as Hl. destruct (inv_counts D c Hi) as (Hc1 & Hc2 & Hc3 & Hc4).
  pose proof Hos as Hos'. unfold on_set in Hos'. apply andb_true_iff in Hos' as [Hd Hnw%negb_true_iff].
  unfold __clear_nat_cache_dirty. cbn [put_ent nat_root]. rewrite lookup_insert_eq. cbn [mbind option_bind]. eexists _, (set_nat_flag (nat_reset_flag e) IS_DIRTY false). split; [done|].
  set (e' := set_nat_flag (nat_reset_flag e) IS_DIRTY false). set (c' := add_cnt _ _ _ _).
  assert (Hd' : dirty e' = false) by (unfold e'; by rewrite get_set_flag).
  assert (Hp' : get_nat_flag e' IS_PREALLOC = false).
  { unfold e', nat_reset_flag. rewrite !get_set_flag by done. rewrite !decide_False by done. rewrite (ci_prealloc D c Hi n e E), Hnw. apply andb_false_r. }
  assert (Hck : get_nat_flag e' IS_CHECKPOINTED = true) by (unfold e', nat_reset_flag; by rewrite !get_set_flag).
  assert (Hr : nat_root c' = <[n := e']> (nat_root c)) by (cbn; by rewrite insert_insert_eq).
  assert (Hsl : forall b, set_list c' b = unlink n (set_list c b)).
  { intros b. rewrite <-(del_init_set c n b Hl). unfold set_list. cbn. destruct (decide (b = NAT_BLOCK_OFFSET n)) as [->|]; [rewrite !lookup_alter_eq; by destruct (nat_set_root c !! _)|by rewrite !lookup_alter_ne by congruence]. }
  split; [|conjs; try done; intros b; cbn; destruct (decide (b = NAT_BLOCK_OFFSET n)) as [->|]; [rewrite !lookup_alter_eq; by destruct (nat_set_root c !! _)|by rewrite !lookup_alter_ne by congruence]].
  apply (inv_change D D' c c' n e'); try done.
  - by apply (ci_range D c Hi n e).
  - unfold on_clean. by rewrite Hd'.
  - intros b. rewrite Hsl. unfold on_set. rewrite Hd'. cbn. by rewrite app_nil_r.
  - by rewrite Hp', Hd'.
  - intros b s. cbn. destruct (decide (b = NAT_BLOCK_OFFSET n)) as [->|Hb].
    + rewrite !lookup_alter_eq. destruct (nat_set_root c !! NAT_BLOCK_OFFSET n) as [s0|] eqn:Es; [|done]. cbn. intros [= <-]. cbn.
      assert (Hs0 : entry_list s0 = set_list c (NAT_BLOCK_OFFSET n)) by (unfold set_list; by rewrite Es). rewrite Hs0, length_unlink by apply Hl.
      rewrite decide_True by (by apply (in_set c n e)). by rewrite (Hc4 _ _ Es), u32_add_l, Hs0.
    + rewrite !lookup_alter_ne by congruence. apply Hc4.
  - cbn -[unlink]. rewrite length_app, Nat2Z.inj_add, length_unlink by apply Hl. rewrite decide_False by (rewrite (in_clean c n e) by done; congruence). rewrite Hc1, u32_add_l. f_equal. cbn. lia.
  - rewrite Hr, dirty_ents_insert, Hd'. cbn. rewrite Hc2, u32_add_l, (dirty_ents_split _ n e E), Hd. f_equal. lia.
  - rewrite Hr. cbn. by rewrite Hc3, u32_add_l, Z.add_0_r, map_size_insert_Some by eauto.
Qed.
End nat.
