(* ===== verification/NatFlush.v ===== *)
(** * The node address table on disk and its checkpoint (node.c, node.h, segment.c)

    The table is kept in blocks of which there are two copies each; a bitmap tells
    which one is valid.  Recent changes may be in a journal in the summary of the
    current segment instead.  A checkpoint writes the dirty entries of the cache
    to the journal or to the other copies of their blocks. *)

From stdpp Require Import sorting.
From S2P Require Import Prelude FreeNid NatCache.

(** The table on disk: the bitmap of the copies, the journal, the pages of the meta
    mapping by block address and those that are dirty, the bitmaps of full and
    empty blocks, and the error flag of the checkpoint. *)
Record nat_disk := {
  nat_bitmap : gset Z; n_journal : list (Z * f2fs_nat_entry); meta : Z -> Z -> f2fs_nat_entry; meta_dirty : gset Z;
  full_nat_bits : gset Z; empty_nat_bits : gset Z; cp_error : bool
}.
Record nat_sys := { cache : nat_cache_info; nids : f2fs_nm_info; disk : nat_disk }.

Definition set_journal (d : nat_disk) (j : list (Z * f2fs_nat_entry)) : nat_disk :=
  {| nat_bitmap := nat_bitmap d; n_journal := j; meta := meta d; meta_dirty := meta_dirty d;
     full_nat_bits := full_nat_bits d; empty_nat_bits := empty_nat_bits d; cp_error := cp_error d |}.
Definition set_meta (d : nat_disk) (m : Z -> Z -> f2fs_nat_entry) (dirty : gset Z) (bm : gset Z) : nat_disk :=
  {| nat_bitmap := bm; n_journal := n_journal d; meta := m; meta_dirty := dirty;
     full_nat_bits := full_nat_bits d; empty_nat_bits := empty_nat_bits d; cp_error := cp_error d |}.
Definition set_nat_bits (d : nat_disk) (full empty : gset Z) : nat_disk :=
  {| nat_bitmap := nat_bitmap d; n_journal := n_journal d; meta := meta d; meta_dirty := meta_dirty d;
     full_nat_bits := full; empty_nat_bits := empty; cp_error := cp_error d |}.
Definition f2fs_stop_checkpoint (d : nat_disk) : nat_disk :=
  {| nat_bitmap := nat_bitmap d; n_journal := n_journal d; meta := meta d; meta_dirty := meta_dirty d;
     full_nat_bits := full_nat_bits d; empty_nat_bits := empty_nat_bits d; cp_error := true |}.

(** A page, or an entry of it, replaced. *)
Definition set_page {A} (m : Z -> A) (a : Z) (p : A) : Z -> A := fun x => if decide (x = a) then p else m x.

Section flush.
Context `{NatFormat}.
(** The capacity of the journal and the place of the table on the device. *)
Context (NAT_JOURNAL_ENTRIES : Z) (nat_blkaddr log_blocks_per_seg : Z).
Definition blocks_per_seg : Z := Z.shiftl 1 log_blocks_per_seg.

Definition current_nat_addr (d : nat_disk) (start : Z) : Z :=
  let block_off := NAT_BLOCK_OFFSET start in
  let block_addr := nat_blkaddr + Z.shiftl block_off 1 - Z.land block_off (blocks_per_seg - 1) in
  if bool_decide (block_off ∈ nat_bitmap d) then block_addr + blocks_per_seg else block_addr.
Definition next_nat_addr (block_addr : Z) : Z := Z.lxor (block_addr - nat_blkaddr) (Z.shiftl 1 log_blocks_per_seg) + nat_blkaddr.
(** [f2fs_change_bit]. *)
Definition set_to_next_nat (bm : gset Z) (start_nid : Z) : gset Z :=
  let block_off := NAT_BLOCK_OFFSET start_nid in if decide (block_off ∈ bm) then bm ∖ {[block_off]} else {[block_off]} ∪ bm.

(** [get_next_nat_page]: the address of the page, or an error of reading the current
    one, which stops checkpoints; no result is a current page that is dirty. *)
Definition get_next_nat_page (io : Z -> option Z) (d : nat_disk) (nid : Z) : option (nat_disk * (Z + Z)) :=
  let src := current_nat_addr d nid in
  let dst := next_nat_addr src in
  match io src with
  | Some err => Some (f2fs_stop_checkpoint d, inl err)
  | None =>
      if decide (src ∈ meta_dirty d) then None
      else Some (set_meta d (set_page (meta d) dst (meta d src)) ({[dst]} ∪ meta_dirty d) (set_to_next_nat (nat_bitmap d) nid), inr dst)
  end.

(** ** The journal *)

Fixpoint find_nid (j : list (Z * f2fs_nat_entry)) (val : Z) (i : nat) : option nat :=
  match j with
  | [] => None
  | (n, _) :: j => if n =? val then Some i else find_nid j val (S i)
  end.
Definition __has_cursum_space (j : list (Z * f2fs_nat_entry)) (size : Z) : bool := size <=? NAT_JOURNAL_ENTRIES - Z.of_nat (length j).

(** [f2fs_lookup_journal_in_cursum] for NAT entries: the index, and the journal with
    a new slot if one was allocated. *)
Definition f2fs_lookup_journal_in_cursum (j : list (Z * f2fs_nat_entry)) (val : Z) (alloc : bool) : list (Z * f2fs_nat_entry) * option nat :=
  match find_nid j val 0 with
  | Some i => (j, Some i)
  | None => if alloc && __has_cursum_space j 1 then (j ++ [(0, zero_nat)], Some (length j)) else (j, None)
  end.

(** ** Reading an entry *)

Context (is_valid_blkaddr : Z -> bool) (COMPRESS_ADDR : Z).
Definition EFAULT : Z := 14.

(** [f2fs_get_node_info]; [mem] is the allocation of a cache entry. *)
Definition f2fs_get_node_info (io : Z -> option Z) (mem : bool) (st : nat_sys) (nid : Z) : option (nat_sys * (Z + f2fs_nat_entry)) :=
  match __lookup_nat_cache (cache st) nid with
  | (c, Some e) => Some ({| cache := c; nids := nids st; disk := disk st |}, inr (ni e))
  | (c, None) =>
      let d := disk st in
      let read :=
        match f2fs_lookup_journal_in_cursum (n_journal d) nid false with
        | (_, Some i) => inr (default zero_nat (snd <$> n_journal d !! i))
        | (_, None) =>
            let index := current_nat_addr d nid in
            match io index with Some err => inl err | None => inr (meta d index (nid - START_NID nid)) end
        end in
      match read with
      | inl err => Some ({| cache := c; nids := nids st; disk := d |}, inl err)
      | inr ne =>
          if __is_valid_data_blkaddr COMPRESS_ADDR (block_addr ne) && negb (is_valid_blkaddr (block_addr ne))
          then Some ({| cache := c; nids := nids st; disk := d |}, inl (- EFAULT))
          else c ← cache_nat_entry mem c nid ne; Some ({| cache := c; nids := nids st; disk := d |}, inr ne)
      end
  end.

(** ** Flushing *)

Context (F2FS_ROOT_INO : Z) (nat_bits_flag : bool).

(** The loop of [remove_nats_in_journal], and the function. *)
Fixpoint remove_nats (js : list (Z * f2fs_nat_entry)) (c : nat_cache_info) (nm : f2fs_nm_info) : option (nat_cache_info * f2fs_nm_info) :=
  match js with
  | [] => Some (c, nm)
  | (nid, raw_ne) :: js =>
      if f2fs_check_nid_range F2FS_ROOT_INO nm nid then remove_nats js c nm
      else
        let '(c, ne) :=
          match __lookup_nat_cache c nid with
          | (c, Some ne) => (c, ne)
          | (c, None) => (__init_nat_entry c nid __alloc_nat_entry (Some raw_ne), set_ni __alloc_nat_entry raw_ne)
          end in
        let nm := if negb (get_nat_flag ne IS_DIRTY) && (block_addr raw_ne =? NULL_ADDR) then set_available nm (available_nids nm -! 1) else nm in
        c ← __set_nat_cache_dirty c nid;
        remove_nats js c nm
  end.
Definition remove_nats_in_journal (st : nat_sys) : option nat_sys :=
  '(c, nm) ← remove_nats (n_journal (disk st)) (cache st) (nids st);
  Some {| cache := c; nids := nm; disk := set_journal (disk st) [] |}.

(** [__adjust_nat_entry_set]: sets are put in the order of their sizes, those that do
    not fit the journal last. *)
Definition set_cnt (sets : gmap Z nat_entry_set) (b : Z) : Z := match sets !! b with Some s => entry_cnt s | None => 0 end.
Fixpoint insert_set (sets : gmap Z nat_entry_set) (nes : Z) (head : list Z) : list Z :=
  match head with
  | [] => [nes]
  | cur :: head => if set_cnt sets nes <=? set_cnt sets cur then nes :: cur :: head else cur :: insert_set sets nes head
  end.
Definition __adjust_nat_entry_set (sets : gmap Z nat_entry_set) (nes : Z) (head : list Z) (max : Z) : list Z :=
  if max <=? set_cnt sets nes then head ++ [nes] else insert_set sets nes head.

(** [__gang_lookup_nat_set]: at most [nr] sets in their order from [start] on. *)
Definition SETVEC_SIZE : nat := 32.
Definition __gang_lookup_nat_set (sets : gmap Z nat_entry_set) (start : Z) (nr : nat) : list Z :=
  take nr (filter (fun b => start <= b) (merge_sort Z.le (elements (dom sets)))).

(** The loop that collects the sets; it runs at most once per set. *)
Fixpoint collect_sets (fuel : nat) (sets : gmap Z nat_entry_set) (set_idx max : Z) (head : list Z) : list Z :=
  match fuel with
  | O => head
  | S fuel =>
      match __gang_lookup_nat_set sets set_idx SETVEC_SIZE with
      | [] => head
      | b :: found => collect_sets fuel sets (List.last (b :: found) 0 + 1) max (foldl (fun h x => __adjust_nat_entry_set sets x h max) head (b :: found))
      end
  end.

(** [update_nat_bits] on the page that was written. *)
Fixpoint count_valid (n : nat) (page : Z -> f2fs_nat_entry) (i : Z) : Z :=
  match n with
  | O => 0
  | S n => (if negb (block_addr (page i) =? NULL_ADDR) then 1 else 0) + count_valid n page (i + 1)
  end.
Definition __update_nat_bits (d : nat_disk) (nat_ofs valid : Z) : nat_disk :=
  if valid =? 0 then set_nat_bits d (full_nat_bits d ∖ {[nat_ofs]}) ({[nat_ofs]} ∪ empty_nat_bits d)
  else set_nat_bits d (if valid =? NAT_ENTRY_PER_BLOCK then {[nat_ofs]} ∪ full_nat_bits d else full_nat_bits d ∖ {[nat_ofs]}) (empty_nat_bits d ∖ {[nat_ofs]}).
Definition update_nat_bits (d : nat_disk) (start_nid page : Z) : nat_disk :=
  let nat_index := start_nid / NAT_ENTRY_PER_BLOCK in
  if negb nat_bits_flag then d
  else
    let valid :=
      if nat_index =? 0 then 1 + count_valid (Z.to_nat NAT_ENTRY_PER_BLOCK - 1) (meta d page) 1
      else count_valid (Z.to_nat NAT_ENTRY_PER_BLOCK) (meta d page) 0 in
    __update_nat_bits d nat_index valid.

(** Where an entry is written: to the journal, or to the page at [dst]. *)
Definition write_raw (dst : option Z) (start_nid nid : Z) (raw : f2fs_nat_entry) (d : nat_disk) : option nat_disk :=
  match dst with
  | None =>
      let '(j, offset) := f2fs_lookup_journal_in_cursum (n_journal d) nid true in
      i ← offset; Some (set_journal d (<[i := (nid, raw)]> j))
  | Some a => Some (set_meta d (set_page (meta d) a (set_page (meta d a) (nid - start_nid) raw)) (meta_dirty d) (nat_bitmap d))
  end.

(** The loop of [__flush_nat_entry_set] over the entries of a set. *)
Fixpoint flush_entries (l : list Z) (set : Z) (dst : option Z) (st : nat_sys) : option nat_sys :=
  match l with
  | [] => Some st
  | nid :: l =>
      ne ← nat_root (cache st) !! nid;
      if block_addr (ni ne) =? NEW_ADDR then None
      else
        d ← write_raw dst (set * NAT_ENTRY_PER_BLOCK) nid (ni ne) (disk st);
        c ← __clear_nat_cache_dirty (put_ent nid (nat_reset_flag ne) (cache st)) set nid;
        nm ← if block_addr (ni ne) =? NULL_ADDR then fst <$> add_free_nid F2FS_ROOT_INO (fun _ => None) (nids st) nid false true
             else Some (update_free_nid_bitmap (nids st) nid false false);
        flush_entries l set dst {| cache := c; nids := nm; disk := d |}
  end.

(** [__flush_nat_entry_set]; [umount] is the reason [CP_UMOUNT]. *)
Definition __flush_nat_entry_set (umount : bool) (io : Z -> option Z) (st : nat_sys) (set : Z) : option (nat_sys * Z) :=
  s ← nat_set_root (cache st) !! set;
  let start_nid := set * NAT_ENTRY_PER_BLOCK in
  let to_journal := negb (umount || negb (__has_cursum_space (n_journal (disk st)) (entry_cnt s))) in
  '(d, page) ← if to_journal then Some (disk st, inr None)
               else '(d, r) ← get_next_nat_page io (disk st) start_nid; Some (d, match r with inl err => inl err | inr a => inr (Some a) end);
  match page with
  | inl err => Some ({| cache := cache st; nids := nids st; disk := d |}, err)
  | inr dst =>
      st ← flush_entries (entry_list s) set dst {| cache := cache st; nids := nids st; disk := d |};
      let d := match dst with None => disk st | Some a => update_nat_bits (disk st) start_nid a end in
      s ← nat_set_root (cache st) !! set;
      let c := if entry_cnt s =? 0 then set_lists (cache st) (nat_entries (cache st)) (delete set (nat_set_root (cache st))) else cache st in
      Some ({| cache := c; nids := nids st; disk := d |}, 0)
  end.

(** The loop of [f2fs_flush_nat_entries] over the sets; the sets of a list stay when
    others are freed. *)
Fixpoint flush_sets (l : list Z) (umount : bool) (io : Z -> option Z) (st : nat_sys) : option (nat_sys * Z) :=
  match l with
  | [] => Some (st, 0)
  | b :: l => '(st, err) ← __flush_nat_entry_set umount io st b; if negb (err =? 0) then Some (st, err) else flush_sets l umount io st
  end.

Definition f2fs_flush_nat_entries (umount : bool) (io : Z -> option Z) (st : nat_sys) : option (nat_sys * Z) :=
  st ← if umount then remove_nats_in_journal st else Some st;
  if DIRTY_NAT (cache st) =? 0 then Some (st, 0)
  else
    st ← if umount || negb (__has_cursum_space (n_journal (disk st)) (DIRTY_NAT (cache st))) then remove_nats_in_journal st else Some st;
    let sets := nat_set_root (cache st) in
    flush_sets (collect_sets (S (size sets)) sets 0 (NAT_JOURNAL_ENTRIES - Z.of_nat (length (n_journal (disk st)))) []) umount io st.
End flush.
