(* ===== verification/NatProps.v ===== *)
(** * The node address table: addresses, journal and flushing

    A checkpoint writes what the cache holds and only to copies of blocks that the
    last checkpoint does not use. *)

From stdpp Require Import sorting.
From S2P Require Import Prelude FreeNid NatCache NatFlush.

Section props.
Context `{NatFormat}.
Context (NAT_JOURNAL_ENTRIES : Z) (nat_blkaddr log_blocks_per_seg : Z) (log_pos : 0 <= log_blocks_per_seg).
Notation bps := (blocks_per_seg log_blocks_per_seg).
Notation current_nat_addr := (current_nat_addr nat_blkaddr log_blocks_per_seg).
Notation next_nat_addr := (next_nat_addr nat_blkaddr log_blocks_per_seg).

(** ** Addresses *)

(** The two copies of a block of the table. *)
Definition nat_addr (off : Z) (b : bool) : Z := nat_blkaddr + Z.shiftl off 1 - Z.land off (bps - 1) + (if b then bps else 0).

Lemma current_addr d n : current_nat_addr d n = nat_addr (NAT_BLOCK_OFFSET n) (bool_decide (NAT_BLOCK_OFFSET n ∈ nat_bitmap d)).
Proof. unfold current_nat_addr, nat_addr. case_bool_decide; lia. Qed.

Lemma bps_pow : bps = 2 ^ log_blocks_per_seg /\ 0 < bps.
Proof. unfold blocks_per_seg. rewrite Z.shiftl_1_l. split; [done|apply Z.pow_pos_nonneg; lia]. Qed.

Lemma nat_addr_parts off b : 0 <= off ->
  nat_addr off b - nat_blkaddr = 2 * bps * (off / bps) + off mod bps + (if b then bps else 0) /\ 0 <= off mod bps < bps /\ 0 <= off / bps.
Proof.
  intros Ho. destruct bps_pow as [Hp Hb]. pose proof (Z.div_mod off bps ltac:(lia)). pose proof (Z.mod_pos_bound off bps Hb).
  split; [|split; [lia|apply Z.div_pos; lia]]. unfold nat_addr. rewrite Z.shiftl_mul_pow2 by lia.
  replace (bps - 1) with (Z.ones log_blocks_per_seg) by (rewrite Z.ones_equiv; lia). rewrite Z.land_ones, <-Hp by done. change (2 ^ 1) with 2. lia.
Qed.

(** The copies of blocks are all different. *)
Lemma nat_addr_inj off b off' b' : 0 <= off -> 0 <= off' -> nat_addr off b = nat_addr off' b' -> off = off' /\ b = b'.
Proof.
  intros Ho Ho' He. destruct bps_pow as [_ Hb]. destruct (nat_addr_parts off b Ho) as (E & Hm & Hd), (nat_addr_parts off' b' Ho') as (E' & Hm' & Hd').
  pose proof (Z.div_mod off bps ltac:(lia)). pose proof (Z.div_mod off' bps ltac:(lia)).
  assert (Hq : off / bps = off' / bps) by (destruct b, b'; nia). assert (b = b') as -> by (destruct b, b'; done || nia). split; [nia|done].
Qed.

(** [next_nat_addr] is the other copy. *)
Lemma next_addr off b : 0 <= off -> next_nat_addr (nat_addr off b) = nat_addr off (negb b).
Proof.
  intros Ho. destruct bps_pow as [Hp Hb]. destruct (nat_addr_parts off b Ho) as (E & Hm & Hd), (nat_addr_parts off (negb b) Ho) as (E' & _).
  unfold next_nat_addr. change (Z.shiftl 1 log_blocks_per_seg) with bps. rewrite E.
  set (a := 2 * bps * (off / bps) + off mod bps) in *.
  assert (Hbit : Z.land a bps = 0).
  { apply Z.bits_inj'. intros k Hk. rewrite Z.land_spec, Z.bits_0, Hp. destruct (decide (k = log_blocks_per_seg)) as [->|]; [|by rewrite Z.pow2_bits_false, andb_false_r by lia].
    rewrite Z.pow2_bits_true, andb_true_r by done. apply Z.testbit_false; [done|]. rewrite <-Hp. replace (a / bps) with (2 * (off / bps)).
    - rewrite Z.mul_comm. apply Z.mod_mul. lia.
    - unfold a. replace (2 * bps * (off / bps) + off mod bps) with (off mod bps + 2 * (off / bps) * bps) by lia. rewrite Z.div_add, (Z.div_small (off mod bps)) by lia. lia. }
  assert (Hx : Z.lxor a bps = a + bps) by (symmetry; by apply Z.add_nocarry_lxor). destruct b; cbn [negb] in *.
  - rewrite <-Hx, Z.lxor_assoc, Z.lxor_nilpotent, Z.lxor_0_r. lia.
  - rewrite Z.add_0_r, Hx. lia.
Qed.

(** ** The journal *)

Lemma find_nid_spec j val : forall i, match find_nid j val i with
  | Some k => exists k' raw, k = (i + k')%nat /\ j !! k' = Some (val, raw)
  | None => val ∉ j.*1
  end.
Proof.
  induction j as [|[n r] j IH]; intros i; cbn; [apply not_elem_of_nil|]. destruct (Z.eqb_spec n val) as [->|Hne].
  - exists 0%nat, r. split; [lia|done].
  - specialize (IH (S i)). destruct (find_nid j val (S i)) as [k|].
    + destruct IH as (k' & raw & -> & E). exists (S k'), raw. split; [lia|done].
    + rewrite not_elem_of_cons. done.
Qed.

(** What the journal says about an id. *)
Definition journal_get (j : list (Z * f2fs_nat_entry)) (n : Z) : option f2fs_nat_entry := list_to_map (M := gmap Z f2fs_nat_entry) j !! n.

Lemma journal_get_at j i n raw : NoDup j.*1 -> j !! i = Some (n, raw) -> journal_get j n = Some raw.
Proof. intros Hn Hi. apply elem_of_list_to_map_1; [done|]. by apply list_elem_of_lookup_2 in Hi. Qed.
Lemma journal_get_none j n : n ∉ j.*1 <-> journal_get j n = None.
Proof. unfold journal_get. split; [apply not_elem_of_list_to_map_1|apply not_elem_of_list_to_map_2]. Qed.

Lemma lookup_journal j n : NoDup j.*1 ->
  match f2fs_lookup_journal_in_cursum NAT_JOURNAL_ENTRIES j n false with
  | (_, Some i) => exists raw, j !! i = Some (n, raw) /\ journal_get j n = Some raw
  | (_, None) => journal_get j n = None
  end.
Proof.
  intros Hn. unfold f2fs_lookup_journal_in_cursum. pose proof (find_nid_spec j n 0) as Hf. destruct (find_nid j n 0) as [k|]; cbn [andb].
  - destruct Hf as (k' & raw & -> & E). exists raw. split; [done|by eapply journal_get_at].
  - by apply journal_get_none.
Qed.

(** An entry is written to the journal. *)
Lemma journal_put j n raw : NoDup j.*1 -> Z.of_nat (length j) <= NAT_JOURNAL_ENTRIES -> (n ∈ j.*1 \/ Z.of_nat (length j) < NAT_JOURNAL_ENTRIES) ->
  exists j0 i, f2fs_lookup_journal_in_cursum NAT_JOURNAL_ENTRIES j n true = (j0, Some i) /\ let j' := <[i := (n, raw)]> j0 in
    NoDup j'.*1 /\ Z.of_nat (length j') <= NAT_JOURNAL_ENTRIES /\ (length j' <= S (length j))%nat /\
    (forall m, journal_get j' m = if decide (m = n) then Some raw else journal_get j m).
Proof.
  intros Hn Hl Hs. unfold f2fs_lookup_journal_in_cursum. pose proof (find_nid_spec j n 0) as Hf.
  assert (Hext : forall j', NoDup j'.*1 -> (n, raw) ∈ j' -> (forall m r, m <> n -> (m, r) ∈ j' <-> (m, r) ∈ j) ->
    forall m, journal_get j' m = if decide (m = n) then Some raw else journal_get j m).
  { intros j' Hn' Hin Hoth m. unfold journal_get. case_decide as Hm; [subst; by apply elem_of_list_to_map_1|].
    apply option_eq. intros r. rewrite <-!elem_of_list_to_map by done. by apply Hoth. }
  destruct (find_nid j n 0) as [k|].
  - destruct Hf as (k' & r & -> & E). cbn [Nat.add]. exists j, k'. split; [done|]. cbn zeta. assert (Hk : (k' < length j)%nat) by (by apply lookup_lt_Some in E).
    assert (Hfst : (<[k' := (n, raw)]> j).*1 = j.*1) by (rewrite list_fmap_insert; cbn; apply list_insert_id; by rewrite list_lookup_fmap, E).
    split; [by rewrite Hfst|]. rewrite length_insert. split; [done|]. split; [lia|]. apply Hext; [by rewrite Hfst|apply list_elem_of_lookup; exists k'; by apply list_lookup_insert_eq|].
    intros m r' Hm. rewrite !list_elem_of_lookup. split; intros (i & Hi); exists i.
    + destruct (decide (i = k')) as [->|]; [rewrite list_lookup_insert_eq in Hi by done; congruence|by rewrite list_lookup_insert_ne in Hi].
    + rewrite list_lookup_insert_ne; [done|]. intros ->. congruence.
  - cbn [andb]. unfold __has_cursum_space. destruct Hs as [|Hs]; [done|]. destruct (Z.leb_spec 1 (NAT_JOURNAL_ENTRIES - Z.of_nat (length j))); [|lia].
    eexists _, _. split; [done|]. cbn zeta. rewrite insert_app_r_alt, Nat.sub_diag by lia. cbn [insert list_insert].
    assert (Hnd : NoDup (j ++ [(n, raw)]).*1).
    { rewrite fmap_app. cbn. apply list.NoDup_app. split; [done|]. split; [|apply NoDup_singleton]. intros x Hx ->%list_elem_of_singleton. done. }
    split; [done|]. rewrite length_app. cbn. split; [lia|]. split; [lia|]. apply Hext; [done|set_solver|]. intros m r' Hm. rewrite elem_of_app, list_elem_of_singleton. naive_solver.
Qed.

(** ** The table on disk *)

Context (F2FS_ROOT_INO hi : Z) (nid_bounds : 0 < F2FS_ROOT_INO /\ hi < 2 ^ 32).
Notation in_range n := (F2FS_ROOT_INO <= n < hi).

Definition page_entry (d : nat_disk) (n : Z) : f2fs_nat_entry := meta d (current_nat_addr d n) (n - START_NID n).
Definition table (d : nat_disk) (n : Z) : f2fs_nat_entry := match journal_get (n_journal d) n with Some r => r | None => page_entry d n end.

Record disk_ok (d : nat_disk) : Prop := {
  dk_journal : NoDup (n_journal d).*1;
  dk_space : Z.of_nat (length (n_journal d)) <= NAT_JOURNAL_ENTRIES;
  dk_entries : forall n r, journal_get (n_journal d) n = Some r -> in_range n /\ block_addr r <> NEW_ADDR;
  dk_pages : forall n, in_range n -> block_addr (page_entry d n) <> NEW_ADDR
}.

Lemma table_not_new d n : disk_ok d -> in_range n -> block_addr (table d n) <> NEW_ADDR.
Proof. intros Hd Hn. unfold table. destruct (journal_get (n_journal d) n) as [r|] eqn:E; [by apply (dk_entries d Hd n r)|by apply Hd]. Qed.

Lemma block_off_nonneg n : in_range n -> 0 <= NAT_BLOCK_OFFSET n.
Proof. intros Hn. apply Z.div_pos; [lia|]. pose proof nat_entries_range. lia. Qed.

Lemma same_slot n m : NAT_BLOCK_OFFSET n = NAT_BLOCK_OFFSET m -> n - START_NID n = m - START_NID m -> n = m.
Proof. unfold START_NID, NAT_BLOCK_OFFSET. intros -> ?. lia. Qed.

(** Where [write_raw] may write: to a journal with room, or to the current copy of the
    block of an id that the journal does not hold. *)
Definition may_write (dst : option Z) (d : nat_disk) (n : Z) : Prop :=
  match dst with
  | None => n ∈ (n_journal d).*1 \/ Z.of_nat (length (n_journal d)) < NAT_JOURNAL_ENTRIES
  | Some a => a = current_nat_addr d n /\ n ∉ (n_journal d).*1
  end.

Lemma write_raw_spec dst d n raw : disk_ok d -> in_range n -> may_write dst d n -> block_addr raw <> NEW_ADDR ->
  exists d', write_raw NAT_JOURNAL_ENTRIES dst (START_NID n) n raw d = Some d' /\ disk_ok d' /\
    (forall m, in_range m -> table d' m = if decide (m = n) then raw else table d m) /\
    nat_bitmap d' = nat_bitmap d /\ meta_dirty d' = meta_dirty d /\ cp_error d' = cp_error d /\ full_nat_bits d' = full_nat_bits d /\ empty_nat_bits d' = empty_nat_bits d /\
    match dst with
    | None => meta d' = meta d /\ (length (n_journal d') <= S (length (n_journal d)))%nat /\ forall m, m ∈ (n_journal d').*1 -> m = n \/ m ∈ (n_journal d).*1
    | Some a => n_journal d' = n_journal d /\ forall x, x <> a -> meta d' x = meta d x
    end.
Proof.
  intros Hd Hn Hw Hraw. destruct dst as [a|]; cbn [may_write write_raw] in *.
  - destruct Hw as [-> Hj]. eexists. split; [done|]. set (d' := set_meta d _ _ _).
    assert (Hpe : forall m, in_range m -> page_entry d' m = if decide (m = n) then raw else page_entry d m).
    { intros m Hm. unfold page_entry. replace (current_nat_addr d' m) with (current_nat_addr d m) by done. cbn. unfold set_page. destruct (decide (m = n)) as [->|Hne]; [by rewrite !decide_True|].
      case_decide as Ha; [|done]. rewrite !current_addr in Ha. apply nat_addr_inj in Ha as [Hoff _]; [|by apply block_off_nonneg..]. case_decide as Ho; [|].
      - destruct Hne. by apply same_slot.
      - rewrite !current_addr. by rewrite Hoff. }
    split; [constructor; try apply Hd; intros m Hm; rewrite Hpe by done; case_decide; [done|by apply Hd]|].
    split; [|conjs; try done; intros x Hx; cbn; unfold set_page; by rewrite decide_False].
    intros m Hm. unfold table. cbn [set_meta n_journal]. replace (n_journal d') with (n_journal d) by done. rewrite Hpe by done. case_decide as Hmn; [|done]. subst.
    by rewrite (proj1 (journal_get_none _ n)).
  - destruct (journal_put (n_journal d) n raw) as (j0 & i & E & Hn' & Hl' & Hs' & Hg); [apply Hd|apply Hd|done|]. rewrite E. cbn [mbind option_bind]. eexists. split; [done|].
    split; [|split; [|conjs; try done]].
    + constructor; try done; [|apply Hd]. intros m r. cbn. rewrite Hg. case_decide as Hm; [|by apply (dk_entries d Hd)]. subst. by intros [= <-].
    + intros m Hm. unfold table. cbn. rewrite Hg. by case_decide.
    + intros m Hm. cbn in Hm. destruct (decide (m ∈ (n_journal d).*1)) as [|Hno]; [by right|left]. apply journal_get_none in Hno. destruct (decide (m = n)) as [|Hne]; [done|exfalso].
      assert (journal_get (<[i := (n, raw)]> j0) m = None) as Hx by (rewrite Hg; by rewrite decide_False). by apply journal_get_none in Hx.
Qed.

Lemma off_of_start b : NAT_BLOCK_OFFSET (b * NAT_ENTRY_PER_BLOCK) = b.
Proof. apply Z.div_mul. pose proof nat_entries_range. lia. Qed.
Lemma start_of_off n : NAT_BLOCK_OFFSET n * NAT_ENTRY_PER_BLOCK = START_NID n.
Proof. done. Qed.

Definition copy_of (d : nat_disk) (b : Z) : bool := bool_decide (b ∈ nat_bitmap d).

(** The other copy of a block becomes the current one, with the same entries. *)
Lemma get_next_spec io d b : disk_ok d -> 0 <= b -> (forall x, x ∈ meta_dirty d -> x <> nat_addr b (copy_of d b)) ->
  match io (nat_addr b (copy_of d b)) with
  | Some err => get_next_nat_page nat_blkaddr log_blocks_per_seg io d (b * NAT_ENTRY_PER_BLOCK) = Some (f2fs_stop_checkpoint d, inl err)
  | None =>
      exists d', let dst := nat_addr b (negb (copy_of d b)) in get_next_nat_page nat_blkaddr log_blocks_per_seg io d (b * NAT_ENTRY_PER_BLOCK) = Some (d', inr dst) /\
        disk_ok d' /\ (forall m, in_range m -> table d' m = table d m) /\ (forall b', copy_of d' b' = if decide (b' = b) then negb (copy_of d b) else copy_of d b') /\
        (forall x, x <> dst -> meta d' x = meta d x) /\ meta_dirty d' = {[dst]} ∪ meta_dirty d /\ n_journal d' = n_journal d /\
        full_nat_bits d' = full_nat_bits d /\ empty_nat_bits d' = empty_nat_bits d /\ cp_error d' = cp_error d
  end.
Proof.
  intros Hd Hb Hdirty. unfold get_next_nat_page. rewrite !current_addr, off_of_start. fold (copy_of d b). rewrite next_addr by done.
  destruct (io _) as [err|]; [done|]. rewrite decide_False by (intros Hx; by apply Hdirty in Hx). eexists. cbn zeta. split; [done|]. set (d' := set_meta d _ _ _).
  assert (Hcp : forall b', copy_of d' b' = if decide (b' = b) then negb (copy_of d b) else copy_of d b').
  { intros b'. unfold copy_of. cbn. unfold set_to_next_nat. rewrite off_of_start. destruct (decide (b ∈ nat_bitmap d)) as [Hin|Hin].
    - destruct (decide (b' = b)) as [->|]; [rewrite (bool_decide_true (b ∈ nat_bitmap d)) by done; apply bool_decide_false; set_solver|apply bool_decide_ext; set_solver].
    - destruct (decide (b' = b)) as [->|]; [rewrite (bool_decide_false (b ∈ nat_bitmap d)) by done; apply bool_decide_true; set_solver|apply bool_decide_ext; set_solver]. }
  assert (Hpe : forall m, in_range m -> page_entry d' m = page_entry d m).
  { intros m Hm. unfold page_entry. rewrite !current_addr. fold (copy_of d (NAT_BLOCK_OFFSET m)) (copy_of d' (NAT_BLOCK_OFFSET m)). rewrite Hcp. cbn. unfold set_page.
    destruct (decide (NAT_BLOCK_OFFSET m = b)) as [->|Hne]; [by rewrite decide_True|]. rewrite decide_False; [done|].
    intros [Hx _]%nat_addr_inj; [done|by apply block_off_nonneg|done]. }
  split; [constructor; try apply Hd; intros m Hm; rewrite Hpe by done; by apply Hd|]. split; [intros m Hm; unfold table; by rewrite Hpe|].
  conjs; try done. intros x Hx. cbn. unfold set_page. by rewrite decide_False.
Qed.

(** ** The entries of a set *)

Notation cache_inv := (cache_inv F2FS_ROOT_INO hi).
Notation dirty e := (get_nat_flag e IS_DIRTY).

Record sys_inv (st : nat_sys) : Prop := {
  si_cache : cache_inv (table (disk st)) (cache st);
  si_nids : nid_inv (nids st);
  si_max : max_nid (nids st) = hi;
  si_disk : disk_ok (disk st);
  si_keys : forall b, nat_set_root (cache st) !! b <> None -> 0 <= b
}.

(** The table as the callers see it. *)
Definition nat_view (st : nat_sys) (n : Z) : f2fs_nat_entry := view (cache st) (table (disk st)) n.

Lemma add_free_total nm n : nid_inv nm -> in_range n -> max_nid nm = hi ->
  exists nm' r, add_free_nid F2FS_ROOT_INO (fun _ => None) nm n false true = Some (nm', r) /\ nid_inv nm' /\ max_nid nm' = hi.
Proof.
  intros Hi Hn Hm. unfold add_free_nid. destruct (Z.eqb_spec n 0); [lia|]. unfold f2fs_check_nid_range.
  destruct (Z.ltb_spec n F2FS_ROOT_INO); [lia|]. destruct (Z.leb_spec (max_nid nm) n); [lia|]. cbn [orb].
  destruct (insert_nid nm n Hi) as (nm1 & err & -> & Hi1 & Hm1 & _); [lia|]. cbn [mbind option_bind]. cbn [negb]. eexists _, _. split; [done|].
  pose proof (bitmap_inv nm1 n true false Hi1) as Hi2. destruct (bitmap_frame nm1 n true false) as (_ & _ & _ & _ & Hm2 & _). split; [|cbn; by rewrite Hm2, Hm1].
  destruct Hi2. by constructor.
Qed.

(** What flushing the entries [l] has done. *)
Record entries_flushed (l : list Z) (st st' : nat_sys) : Prop := {
  ef_inv : sys_inv st';
  ef_view : forall m, in_range m -> nat_view st' m = nat_view st m;
  ef_root : forall m, m ∉ l -> nat_root (cache st') !! m = nat_root (cache st) !! m;
  ef_done : forall m, m ∈ l -> exists e, nat_root (cache st') !! m = Some e /\ dirty e = false;
  ef_sets : forall b m, m ∈ set_list (cache st') b <-> m ∈ set_list (cache st) b /\ m ∉ l;
  ef_keys : forall b, nat_set_root (cache st') !! b = None <-> nat_set_root (cache st) !! b = None;
  ef_table : forall m, in_range m -> m ∉ l -> table (disk st') m = table (disk st) m;
  ef_copies : nat_bitmap (disk st') = nat_bitmap (disk st);
  ef_dirty : meta_dirty (disk st') = meta_dirty (disk st);
  ef_error : cp_error (disk st') = cp_error (disk st)
}.

(** The frame of the part of the disk that is not written. *)
Definition wrote (dst : option Z) (l : list Z) (d d' : nat_disk) : Prop :=
  match dst with
  | None => meta d' = meta d /\ (length (n_journal d') <= length l + length (n_journal d))%nat /\ forall m, m ∈ (n_journal d').*1 -> m ∈ l \/ m ∈ (n_journal d).*1
  | Some a => n_journal d' = n_journal d /\ forall x, x <> a -> meta d' x = meta d x
  end.
Notation flush_entries := (flush_entries NAT_JOURNAL_ENTRIES F2FS_ROOT_INO).

Lemma entries_flushed_nil st : sys_inv st -> entries_flushed [] st st.
Proof. intros Hi. constructor; try done. - intros m Hm. by apply elem_of_nil in Hm. - intros b m. rewrite elem_of_nil. tauto. Qed.

(** One entry: it is written and becomes clean. *)
Lemma flush_entry dst st n b : sys_inv st -> n ∈ set_list (cache st) b -> may_write dst (disk st) n ->
  exists st', (forall l, flush_entries (n :: l) b dst st = flush_entries l b dst st') /\ entries_flushed [n] st st' /\ wrote dst [n] (disk st) (disk st').
Proof.
  intros [Hc Hnid Hmax Hd Hkeys] Hin Hw. pose proof (ci_lists _ _ _ _ Hc) as Hl. pose proof (proj1 (lo_set _ Hl b n) Hin) as (-> & e & E & Hos).
  pose proof (ci_range _ _ _ _ Hc n e E) as Hn. pose proof Hos as Hos'. unfold on_set in Hos'. apply andb_true_iff in Hos' as [_ Hnw%negb_true_iff].
  destruct (write_raw_spec dst (disk st) n (ni e) Hd Hn Hw) as (d' & Ew & Hd' & Ht & Hf1 & Hf2 & Hf3 & Hf4 & Hf5 & Hfr); [by apply Z.eqb_neq|].
  destruct (clear_dirty_spec F2FS_ROOT_INO hi nid_bounds (table (disk st)) (table d') (cache st) n e) as (c' & e' & Ec & Hi' & Hr' & Hni' & Hdi' & _ & Hsl' & Hk'); try done.
  { rewrite Ht by done. by rewrite decide_True. }
  { intros m x Hm Ex _. rewrite Ht by (by apply (ci_range _ _ _ _ Hc m x)). by rewrite decide_False. }
  assert (Hnm : exists nm, (if block_addr (ni e) =? NULL_ADDR then fst <$> add_free_nid F2FS_ROOT_INO (fun _ => None) (nids st) n false true
             else Some (update_free_nid_bitmap (nids st) n false false)) = Some nm /\ nid_inv nm /\ max_nid nm = hi).
  { destruct (block_addr (ni e) =? NULL_ADDR).
    - destruct (add_free_total (nids st) n Hnid Hn Hmax) as (nm & r & -> & H1 & H2). by exists nm.
    - eexists. split; [reflexivity|]. split; [by apply bitmap_inv|]. destruct (bitmap_frame (nids st) n false false) as (_ & _ & _ & _ & -> & _). done. }
  destruct Hnm as (nm & En & Hnm1 & Hnm2). exists {| cache := c'; nids := nm; disk := d' |}. split.
  { intros l. cbn [flush_entries]. rewrite E. cbn [mbind option_bind]. rewrite Hnw, start_of_off, Ew. cbn [mbind option_bind]. rewrite Ec. cbn [mbind option_bind]. by rewrite En. }
  split; [|destruct dst; cbn [wrote length Nat.add]; [done|destruct Hfr as (? & ? & Hj); conjs; try done; intros m [->|]%Hj; set_solver]].
  constructor; try done.
  - constructor; try done. intros b. cbn. rewrite Hk'. apply Hkeys.
  - intros m Hm. unfold nat_view, view. cbn. rewrite Hr'. destruct (decide (m = n)) as [->|]; [by rewrite lookup_insert_eq, E|rewrite lookup_insert_ne by done]. destruct (nat_root (cache st) !! m); [done|].
    rewrite Ht by done. by rewrite decide_False.
  - intros m Hm. cbn. rewrite Hr', lookup_insert_ne; [done|set_solver].
  - intros m ->%list_elem_of_singleton. exists e'. cbn. by rewrite Hr', lookup_insert_eq.
  - intros b m. cbn. rewrite Hsl', elem_of_unlink, list_elem_of_singleton. tauto.
  - intros m Hm Hni. cbn. rewrite Ht by done. rewrite decide_False; [done|set_solver].
Qed.

Lemma entries_flushed_cons n l st st1 st2 : entries_flushed [n] st st1 -> entries_flushed l st1 st2 -> n ∉ l -> entries_flushed (n :: l) st st2.
Proof.
  intros [] [] Hn. constructor; try done; try congruence.
  - intros m Hm. by rewrite ef_view1, ef_view0.
  - intros m Hm. rewrite ef_root1, ef_root0 by set_solver. done.
  - intros m [->|Hm]%elem_of_cons; [|by apply ef_done1]. rewrite ef_root1 by done. apply ef_done0. set_solver.
  - intros b m. rewrite ef_sets1, ef_sets0. set_solver.
  - intros b. by rewrite ef_keys1.
  - intros m Hm Hni. rewrite ef_table1, ef_table0 by set_solver. done.
Qed.

Definition may_flush (dst : option Z) (l : list Z) (d : nat_disk) : Prop :=
  match dst with
  | None => Z.of_nat (length (n_journal d)) + Z.of_nat (length l) <= NAT_JOURNAL_ENTRIES
  | Some a => forall n, n ∈ l -> a = current_nat_addr d n /\ n ∉ (n_journal d).*1
  end.

Lemma flush_entries_spec dst b l : forall st, sys_inv st -> NoDup l -> (forall n, n ∈ l -> n ∈ set_list (cache st) b) -> may_flush dst l (disk st) ->
  exists st', flush_entries l b dst st = Some st' /\ entries_flushed l st st' /\ wrote dst l (disk st) (disk st').
Proof.
  induction l as [|n l IH]; intros st Hi Hnd Hin Hmf.
  { exists st. split; [done|]. split; [by apply entries_flushed_nil|]. destruct dst; cbn; [done|]. split; [done|]. split; [lia|by right]. }
  apply list.NoDup_cons in Hnd as [Hnl Hnd].
  destruct (flush_entry dst st n b Hi) as (st1 & E1 & Hf1 & Hw1); [apply Hin; left| |].
  { destruct dst; cbn in *; [apply Hmf; left|right; lia]. }
  rewrite E1. destruct (IH st1) as (st2 & E2 & Hf2 & Hw2).
  - apply Hf1.
  - done.
  - intros m Hm. apply (ef_sets _ _ _ Hf1). split; [apply Hin; by right|set_solver].
  - unfold may_flush, wrote in *. destruct dst as [a|].
    + destruct Hw1 as [-> Hmeta]. intros m Hm. destruct (Hmf m ltac:(by right)) as [-> Hj]. split; [|done]. rewrite !current_addr. by rewrite (ef_copies _ _ _ Hf1).
    + destruct Hw1 as (_ & Hlen & _). cbn in *. lia.
  - exists st2. split; [done|]. split; [by apply (entries_flushed_cons n l st st1)|]. unfold wrote in *. destruct dst as [a|].
    + destruct Hw1 as [J1 H1], Hw2 as [J2 H2]. split; [by rewrite J2|]. intros x Hx. by rewrite H2, H1.
    + destruct Hw1 as (M1 & H1 & H1'), Hw2 as (M2 & H2 & H2'). split; [by rewrite M2|]. cbn in *. split; [lia|]. intros m [Hm|[Hm|Hm]%H1']%H2'; set_solver.
Qed.

(** ** A set *)

Context (nat_bits_flag : bool).
Notation __flush_nat_entry_set := (__flush_nat_entry_set NAT_JOURNAL_ENTRIES nat_blkaddr log_blocks_per_seg F2FS_ROOT_INO nat_bits_flag).

Record set_flushed (b : Z) (st st' : nat_sys) : Prop := {
  sf_inv : sys_inv st';
  sf_view : forall m, in_range m -> nat_view st' m = nat_view st m;
  sf_root : forall m, m ∉ set_list (cache st) b -> nat_root (cache st') !! m = nat_root (cache st) !! m;
  sf_done : forall m, m ∈ set_list (cache st) b -> exists e, nat_root (cache st') !! m = Some e /\ dirty e = false;
  sf_gone : nat_set_root (cache st') !! b = None;
  sf_keys : forall b', b' <> b -> nat_set_root (cache st') !! b' = None <-> nat_set_root (cache st) !! b' = None;
  sf_table : forall m, in_range m -> m ∉ set_list (cache st) b -> table (disk st') m = table (disk st) m;
  sf_copies : forall b', b' <> b -> copy_of (disk st') b' = copy_of (disk st) b';
  sf_meta : forall x, x <> nat_addr b (negb (copy_of (disk st) b)) -> meta (disk st') x = meta (disk st) x;
  sf_dirty : forall x, x ∈ meta_dirty (disk st') -> x = nat_addr b (negb (copy_of (disk st) b)) \/ x ∈ meta_dirty (disk st);
  sf_error : cp_error (disk st') = cp_error (disk st);
  sf_journal : forall m, m ∈ (n_journal (disk st')).*1 -> m ∈ set_list (cache st) b \/ m ∈ (n_journal (disk st)).*1;
  sf_space : (length (n_journal (disk st')) <= length (set_list (cache st) b) + length (n_journal (disk st)))%nat
}.

Lemma del_set_inv D c b : cache_inv D c -> set_list c b = [] -> cache_inv D (set_lists c (nat_entries c) (delete b (nat_set_root c))).
Proof.
  intros Hi Hb. assert (Hsl : forall b', set_list (set_lists c (nat_entries c) (delete b (nat_set_root c))) b' = set_list c b').
  { intros b'. unfold set_list. cbn. destruct (decide (b' = b)) as [->|]; [rewrite lookup_delete_eq; symmetry; exact Hb|by rewrite lookup_delete_ne]. }
  destruct (ci_lists _ _ _ _ Hi). destruct Hi. constructor; try done.
  - constructor; try done; intros b'; rewrite Hsl; done.
  - intros b' s; cbn [set_lists nat_set_root]; intros [_ Hs]%lookup_delete_Some. by apply (ci_cnt b').
Qed.

Lemma bits_table d start a : let d' := update_nat_bits nat_bits_flag d start a in
  (forall m, table d' m = table d m) /\ (disk_ok d -> disk_ok d') /\ (forall b, copy_of d' b = copy_of d b) /\ meta d' = meta d /\ meta_dirty d' = meta_dirty d /\
  n_journal d' = n_journal d /\ cp_error d' = cp_error d.
Proof.
  intros d'. unfold d', update_nat_bits, __update_nat_bits. destruct nat_bits_flag; cbn [negb]; [|done].
  match goal with |- context [if ?b then _ else _] => destruct b end; (conjs; try done; intros []; by constructor).
Qed.

(** The set once its entries are clean: it is freed. *)
Lemma finish_set b dst st st1 d0 : sys_inv st -> is_Some (nat_set_root (cache st) !! b) ->
  let st0 := {| cache := cache st; nids := nids st; disk := d0 |} in
  entries_flushed (set_list (cache st) b) st0 st1 -> wrote dst (set_list (cache st) b) d0 (disk st1) ->
  (forall m, in_range m -> table d0 m = table (disk st) m) -> n_journal d0 = n_journal (disk st) -> cp_error d0 = cp_error (disk st) ->
  (forall b', b' <> b -> copy_of d0 b' = copy_of (disk st) b') ->
  (forall x, x <> nat_addr b (negb (copy_of (disk st) b)) -> meta d0 x = meta (disk st) x) ->
  (forall x, x ∈ meta_dirty d0 -> x = nat_addr b (negb (copy_of (disk st) b)) \/ x ∈ meta_dirty (disk st)) ->
  (forall a, dst = Some a -> a = nat_addr b (negb (copy_of (disk st) b))) ->
  exists st', (s ← nat_set_root (cache st1) !! b;
      Some ({| cache := if entry_cnt s =? 0 then set_lists (cache st1) (nat_entries (cache st1)) (delete b (nat_set_root (cache st1))) else cache st1;
               nids := nids st1; disk := match dst with None => disk st1 | Some a => update_nat_bits nat_bits_flag (disk st1) (b * NAT_ENTRY_PER_BLOCK) a end |}, 0)) = Some (st', 0) /\
    set_flushed b st st'.
Proof.
  intros Hi Hb st0 Hf Hw Ht0 Hj0 He0 Hc0 Hm0 Hd0 Ha. pose proof Hf as [[Hci Hnid Hmax Hdk Hkeys] Fv Fr Fd Fs Fk Ft Fc Fdi Fe].
  assert (Hempty : set_list (cache st1) b = []).
  { destruct (set_list (cache st1) b) as [|x l] eqn:El; [done|]. assert (x ∈ set_list (cache st1) b) as Hx by (rewrite El; left). apply Fs in Hx as [? ?]. done. }
  destruct (nat_set_root (cache st1) !! b) as [s|] eqn:Es; [|apply Fk in Es; destruct Hb as [? Hb]; cbn in Es; congruence]. cbn [mbind option_bind].
  assert (Hcnt : entry_cnt s = 0).
  { rewrite (ci_cnt _ _ _ _ Hci b s Es). unfold set_list in Hempty. rewrite Es in Hempty. by rewrite Hempty. }
  rewrite Hcnt. cbn [Z.eqb]. eexists. split; [done|]. set (d' := match dst with None => _ | Some a => _ end).
  assert (Hd' : (forall m, table d' m = table (disk st1) m) /\ disk_ok d' /\ (forall b, copy_of d' b = copy_of (disk st1) b) /\ meta d' = meta (disk st1) /\ meta_dirty d' = meta_dirty (disk st1) /\
    n_journal d' = n_journal (disk st1) /\ cp_error d' = cp_error (disk st1)).
  { unfold d'. destruct dst as [a|]; [|done]. destruct (bits_table (disk st1) (b * NAT_ENTRY_PER_BLOCK) a) as (B1 & B2 & B3 & B4 & B5 & B6 & B7). conjs; try done. by apply B2. }
  destruct Hd' as (T1 & T2 & T3 & T4 & T5 & T6 & T7).
  assert (Hview : forall m, in_range m -> nat_view st0 m = nat_view st m) by (intros m Hm; unfold nat_view, view; cbn; destruct (nat_root (cache st) !! m); [done|by apply Ht0]).
  constructor; cbn [cache nids disk].
  - constructor; cbn [cache nids disk]; try done; [|intros b'; cbn; intros Hx; apply Hkeys; intros Hy; apply Hx; by apply lookup_delete_None; right]. apply del_set_inv; [|done]. apply (inv_table _ _ (table (disk st1))); [done|]. intros n e _ _. apply T1.
  - intros m Hm. rewrite <-Hview, <-Fv by done. unfold nat_view, view. cbn. destruct (nat_root (cache st1) !! m); [done|]. apply T1.
  - intros m Hm. by apply Fr.
  - intros m Hm. by apply Fd.
  - cbn. apply lookup_delete_eq.
  - intros b' Hb'. cbn. rewrite lookup_delete_ne by done. apply Fk.
  - intros m Hm Hni. rewrite T1, Ft by done. by apply Ht0.
  - intros b' Hb'. rewrite T3. unfold copy_of. rewrite Fc. by apply Hc0.
  - intros x Hx. rewrite T4. destruct dst as [a|]; cbn in Hw.
    + destruct Hw as [_ Hw]. rewrite Hw by (rewrite (Ha a eq_refl); done). by apply Hm0.
    + destruct Hw as [-> _]. by apply Hm0.
  - intros x. rewrite T5, Fdi. apply Hd0.
  - by rewrite T7, Fe.
  - intros m. rewrite T6. destruct dst; cbn in Hw; [destruct Hw as [-> _]; rewrite Hj0; by right|]. destruct Hw as (_ & _ & Hw). rewrite <-Hj0. apply Hw.
  - rewrite T6, <-Hj0. destruct dst; cbn in Hw; [destruct Hw as [-> _]; lia|]. apply Hw.
Qed.

Lemma flush_set_spec umount io st b : sys_inv st -> 0 <= b -> is_Some (nat_set_root (cache st) !! b) ->
  nat_addr b (copy_of (disk st) b) ∉ meta_dirty (disk st) ->
  (umount = true \/ NAT_JOURNAL_ENTRIES < Z.of_nat (length (set_list (cache st) b)) + Z.of_nat (length (n_journal (disk st))) ->
    forall n, n ∈ set_list (cache st) b -> n ∉ (n_journal (disk st)).*1) ->
  (exists err, io (nat_addr b (copy_of (disk st) b)) = Some err /\
     __flush_nat_entry_set umount io st b = Some ({| cache := cache st; nids := nids st; disk := f2fs_stop_checkpoint (disk st) |}, err)) \/
  exists st', __flush_nat_entry_set umount io st b = Some (st', 0) /\ set_flushed b st st'.
Proof.
  intros Hi Hb Hs Hnd Hj. pose proof Hi as [Hci Hnid Hmax Hdk Hkeys]. destruct Hs as [s Es].
  assert (Hsl : set_list (cache st) b = entry_list s) by (unfold set_list; by rewrite Es). pose proof (ci_lists _ _ _ _ Hci) as Hl.
  assert (Hin : forall n, n ∈ set_list (cache st) b -> NAT_BLOCK_OFFSET n = b) by (intros n [-> _]%(lo_set _ Hl); done).
  unfold __flush_nat_entry_set. rewrite Es. cbn [mbind option_bind]. rewrite <-Hsl. unfold __has_cursum_space. rewrite (ci_cnt _ _ _ _ Hci b s Es), <-Hsl.
  destruct (umount || negb (Z.of_nat (length (set_list (cache st) b)) <=? NAT_JOURNAL_ENTRIES - Z.of_nat (length (n_journal (disk st))))) eqn:Etj; cbn [negb].
  - pose proof (get_next_spec io (disk st) b Hdk Hb) as Hgn. destruct (io (nat_addr b (copy_of (disk st) b))) as [err|]; [left; exists err; rewrite Hgn by (intros x Hx ->; done); done|right].
    destruct Hgn as (d' & Eg & Hd' & Ht & Hcp & Hm & Hdi & Hjn & _ & _ & He); [intros x Hx ->; done|]. cbn zeta in *. rewrite Eg. cbn [mbind option_bind].
    set (st0 := {| cache := cache st; nids := nids st; disk := d' |}).
    assert (Hi0 : sys_inv st0).
    { constructor; cbn; try done. apply (inv_table _ _ (table (disk st))); [done|]. intros n e En _. apply Ht. by apply (ci_range _ _ _ _ Hci n e). }
    destruct (flush_entries_spec (Some (nat_addr b (negb (copy_of (disk st) b)))) b (set_list (cache st) b) st0 Hi0) as (st1 & E1 & Hf & Hw); [apply Hl|done| |].
    { cbn. rewrite Hjn. intros n Hn. split; [|apply Hj; [|done]].
      - rewrite current_addr, (Hin n Hn). fold (copy_of d' b). by rewrite Hcp, decide_True.
      - apply orb_true_iff in Etj as [->|Hx]; [by left|right]. apply negb_true_iff, Z.leb_gt in Hx. lia. }
    rewrite E1. cbn [mbind option_bind]. apply (finish_set b (Some (nat_addr b (negb (copy_of (disk st) b)))) st st1 d'); try done; [| |naive_solver].
    + intros b' Hb'. rewrite Hcp. by rewrite decide_False.
    + intros x. rewrite Hdi. set_solver.
  - right. cbn [mbind option_bind]. apply orb_false_iff in Etj as [-> Hx%negb_false_iff%Z.leb_le].
    destruct (flush_entries_spec None b (set_list (cache st) b) st Hi) as (st1 & E1 & Hf & Hw); [apply Hl|done|cbn; lia|].
    assert (Est : {| cache := cache st; nids := nids st; disk := disk st |} = st) by (by destruct st).
    rewrite Est, E1. cbn [mbind option_bind]. apply (finish_set b None st st1 (disk st)); try done; [by rewrite Est|by right].
Qed.

(** Other sets keep their entries. *)
Lemma other_set b st st' b' : sys_inv st -> set_flushed b st st' -> b' <> b ->
  (forall m, m ∈ set_list (cache st') b' <-> m ∈ set_list (cache st) b') /\ length (set_list (cache st') b') = length (set_list (cache st) b').
Proof.
  intros Hi Hf Hb. pose proof (ci_lists _ _ _ _ (si_cache st Hi)) as Hl. pose proof (ci_lists _ _ _ _ (si_cache st' (sf_inv _ _ _ Hf))) as Hl'.
  assert (Hm : forall m, m ∈ set_list (cache st') b' <-> m ∈ set_list (cache st) b').
  { intros m. rewrite (lo_set _ Hl), (lo_set _ Hl'). destruct (decide (b' = NAT_BLOCK_OFFSET m)) as [Hbm|]; [|tauto]. rewrite (sf_root _ _ _ Hf); [done|].
    intros [Hx _]%(lo_set _ Hl). congruence. }
  split; [done|]. apply Permutation_length, NoDup_Permutation; [apply Hl'|apply Hl|done].
Qed.

(** ** All sets *)

Notation flush_sets := (flush_sets NAT_JOURNAL_ENTRIES nat_blkaddr log_blocks_per_seg F2FS_ROOT_INO nat_bits_flag).
Definition total_len (c : nat_cache_info) (l : list Z) : Z := foldr (fun b k => Z.of_nat (length (set_list c b)) + k) 0 l.
Lemma total_len_cons c b l : total_len c (b :: l) = Z.of_nat (length (set_list c b)) + total_len c l.
Proof. done. Qed.
Lemma total_len_nonneg c l : 0 <= total_len c l.
Proof. induction l as [|b l IH]; [done|]. rewrite total_len_cons. lia. Qed.
Lemma total_len_ext c c' l : (forall b, b ∈ l -> length (set_list c b) = length (set_list c' b)) -> total_len c l = total_len c' l.
Proof. induction l as [|b l IH]; intros Hl; [done|]. rewrite !total_len_cons, Hl, IH; [done| |left]. intros b' Hb'. apply Hl. by right. Qed.
(** The copies that were current are as they were. *)
Definition shadow (bm0 : Z -> bool) (m0 : Z -> Z -> f2fs_nat_entry) (d : nat_disk) : Prop := forall b, 0 <= b -> meta d (nat_addr b (bm0 b)) = m0 (nat_addr b (bm0 b)).

Lemma flush_sets_spec umount io bm0 m0 l : (forall a, io a <> Some 0) -> forall st, sys_inv st -> NoDup l -> (forall b, b ∈ l -> 0 <= b) ->
  (forall b, b ∈ l <-> is_Some (nat_set_root (cache st) !! b)) -> (forall b, b ∈ l -> copy_of (disk st) b = bm0 b) -> shadow bm0 m0 (disk st) ->
  (forall x b, x ∈ meta_dirty (disk st) -> b ∈ l -> x <> nat_addr b (bm0 b)) ->
  (umount = false /\ total_len (cache st) l + Z.of_nat (length (n_journal (disk st))) <= NAT_JOURNAL_ENTRIES) \/
    (forall b n, b ∈ l -> n ∈ set_list (cache st) b -> n ∉ (n_journal (disk st)).*1) ->
  exists st' err, flush_sets l umount io st = Some (st', err) /\ sys_inv st' /\ (forall m, in_range m -> nat_view st' m = nat_view st m) /\ shadow bm0 m0 (disk st') /\
    (forall m, in_range m -> (forall b, m ∉ set_list (cache st) b) -> table (disk st') m = table (disk st) m) /\
    (err = 0 /\ cp_error (disk st') = cp_error (disk st) /\ (forall m e, nat_root (cache st') !! m = Some e -> on_set e = false) \/
     (exists a, io a = Some err) /\ cp_error (disk st') = true).
Proof.
  intros Hio. induction l as [|b l IH]; intros st Hi Hnd Hpos Hkeys Hcp Hsh Hdi Hj.
  { exists st, 0. cbn. split; [done|]. split; [done|]. split; [done|]. split; [done|]. split; [done|]. left. split; [done|]. split; [done|]. intros m e E.
    destruct (on_set e) eqn:Eo; [|done]. pose proof (ci_lists _ _ _ _ (si_cache st Hi)) as Hl. apply (in_set _ _ nid_bounds _ m e Hl E) in Eo. unfold set_list in Eo.
    destruct (nat_set_root (cache st) !! NAT_BLOCK_OFFSET m) eqn:Es; [|by apply elem_of_nil in Eo]. assert (NAT_BLOCK_OFFSET m ∈ []) as Hx by (apply Hkeys; by rewrite Es). by apply elem_of_nil in Hx. }
  apply list.NoDup_cons in Hnd as [Hbl Hnd]. assert (Hb : b ∈ b :: l) by left. assert (Hpb : 0 <= b) by (by apply Hpos).
  cbn [NatFlush.flush_sets]. destruct (flush_set_spec umount io st b Hi Hpb) as [(err & Ea & E)|(st1 & E & Hf)]; [by apply Hkeys|rewrite Hcp by done; intros Hx; by destruct (Hdi _ b Hx Hb)| | |].
  { intros Hc n Hn. destruct Hj as [[Hu Hs]|Hj]; [|by apply (Hj b)]. exfalso. destruct Hc as [|Hc]; [congruence|]. rewrite total_len_cons in Hs.
    pose proof (total_len_nonneg (cache st) l). lia. }
  - rewrite E. cbn [mbind option_bind]. destruct (Z.eqb_spec err 0) as [->|]; [by destruct (Hio (nat_addr b (copy_of (disk st) b)))|]. cbn [negb]. eexists _, _. split; [done|].
    split; [|split; [done|split; [done|split; [done|right; split; [eauto|done]]]]]. destruct Hi as [H1 H2 H3 [] H5]. by constructor.
  - rewrite E. cbn [mbind option_bind negb Z.eqb].
    assert (Hneq : forall b', b' ∈ l -> b' <> b) by (intros b' Hb' ->; done).
    destruct (IH st1) as (st2 & err & E2 & Hi2 & Hv2 & Hsh2 & Ht2 & Hres).
    + apply Hf.
    + done.
    + intros b' Hb'. apply Hpos. by right.
    + intros b'. destruct (decide (b' = b)) as [->|Hne].
      * rewrite (sf_gone _ _ _ Hf). split; [done|by intros [? ?]].
      * transitivity (b' ∈ b :: l); [set_solver|]. rewrite Hkeys, <-!not_eq_None_Some. by rewrite (sf_keys _ _ _ Hf b' Hne).
    + intros b' Hb'. rewrite (sf_copies _ _ _ Hf) by (by apply Hneq). apply Hcp. by right.
    + intros b' Hb'. rewrite (sf_meta _ _ _ Hf); [by apply Hsh|]. rewrite (Hcp b Hb). intros [-> Hx]%nat_addr_inj; [by destruct (bm0 b)|done|done].
    + intros x b' Hx Hb'. apply (sf_dirty _ _ _ Hf) in Hx as [-> |Hx]; [|apply Hdi; [done|by right]]. rewrite (Hcp b Hb). intros [Hx _]%nat_addr_inj; [by destruct (Hneq b' Hb')|done|apply Hpos; by right].
    + destruct Hj as [[Hu Hs]|Hj]; [left|right].
      * split; [done|]. rewrite total_len_cons in Hs. pose proof (sf_space _ _ _ Hf).
        rewrite (total_len_ext (cache st1) (cache st)); [lia|]. intros b' Hb'. by apply (other_set b st st1 b' Hi Hf), Hneq.
      * intros b' n Hb' Hn Hx. pose proof (Hneq b' Hb') as Hne. apply (other_set b st st1 b' Hi Hf Hne) in Hn. apply (sf_journal _ _ _ Hf) in Hx as [Hx|Hx]; [|by apply (Hj b' n); [right| |]].
        pose proof (ci_lists _ _ _ _ (si_cache st Hi)) as Hl. apply (lo_set _ Hl) in Hn as [-> _]. apply (lo_set _ Hl) in Hx as [-> _]. done.
    + exists st2, err. rewrite E2. split; [done|]. split; [done|]. split; [intros m Hm; rewrite Hv2 by done; by apply (sf_view _ _ _ Hf)|]. split; [done|].
      rewrite (sf_error _ _ _ Hf) in Hres. split; [|done]. intros m Hm Hno. rewrite Ht2; [apply (sf_table _ _ _ Hf); [done|apply Hno]|done|].
      intros b'. destruct (decide (b' = b)) as [->|Hne]; [unfold set_list; rewrite (sf_gone _ _ _ Hf); apply not_elem_of_nil|]. rewrite (proj1 (other_set b st st1 b' Hi Hf Hne)). apply Hno.
Qed.

(** ** The sets that are collected *)

Lemma insert_set_perm sets n head : insert_set sets n head ≡ₚ n :: head.
Proof. induction head as [|x head IH]; cbn; [done|]. destruct (_ <=? _); [done|]. rewrite IH. apply Permutation_swap. Qed.
Lemma adjust_perm sets n head max : __adjust_nat_entry_set sets n head max ≡ₚ n :: head.
Proof. unfold __adjust_nat_entry_set. destruct (_ <=? _); [|apply insert_set_perm]. by rewrite Permutation_app_comm. Qed.
Lemma adjusts_perm sets max l : forall head, foldl (fun h x => __adjust_nat_entry_set sets x h max) head l ≡ₚ head ++ l.
Proof. induction l as [|x l IH]; intros head; cbn; [by rewrite app_nil_r|]. rewrite IH, adjust_perm. cbn. apply Permutation_middle. Qed.

Lemma filter_split (P : Z -> Prop) `{!forall x, Decision (P x)} l1 l2 : (forall x, x ∈ l1 -> ~ P x) -> (forall x, x ∈ l2 -> P x) -> filter P (l1 ++ l2) = l2.
Proof.
  intros H1 H2. rewrite list.filter_app. replace (filter P l1) with (@nil Z).
  - cbn. induction l2 as [|x l2 IH]; [done|]. rewrite filter_cons_True by (apply H2; left). f_equal. apply IH. intros y Hy. apply H2. by right.
  - symmetry. induction l1 as [|x l1 IH]; [done|]. rewrite filter_cons_False by (apply H1; left). apply IH. intros y Hy. apply H1. by right.
Qed.

Definition set_keys (sets : gmap Z nat_entry_set) : list Z := merge_sort Z.le (elements (dom sets)).

Lemma set_keys_facts sets : StronglySorted Z.le (set_keys sets) /\ NoDup (set_keys sets) /\ set_keys sets ≡ₚ elements (dom sets).
Proof.
  pose proof (merge_sort_Permutation Z.le (elements (dom sets))) as Hp. split; [|split; [|done]].
  - apply StronglySorted_merge_sort; [intros x y z; lia|intros x y; lia].
  - unfold set_keys. rewrite Hp. apply NoDup_elements.
Qed.

Lemma collect_loop sets max fuel : forall done todo idx head, set_keys sets = done ++ todo -> (forall x, x ∈ done -> x < idx) -> (forall x, x ∈ todo -> idx <= x) ->
  head ≡ₚ done -> (length todo < fuel)%nat -> collect_sets fuel sets idx max head ≡ₚ set_keys sets.
Proof.
  destruct (set_keys_facts sets) as (Hs & Hnd & _). induction fuel as [|fuel IH]; intros dn todo idx head HK H1 H2 Hh Hf; [lia|].
  cbn [collect_sets]. unfold __gang_lookup_nat_set. fold (set_keys sets). rewrite HK, filter_split; [|intros x Hx; apply H1 in Hx; lia|done].
  destruct todo as [|t todo]; [rewrite take_nil, app_nil_r; done|].
  set (T := t :: todo) in *. assert (HT : T = take SETVEC_SIZE T ++ drop SETVEC_SIZE T) by (by rewrite take_drop).
  assert (HF : take SETVEC_SIZE T = t :: take 31 todo) by done. rewrite HF.
  set (F := t :: take 31 todo) in *. assert (Hne : F <> []) by done. destruct (exists_last Hne) as (F' & z & Hz). rewrite Hz, last_last, <-Hz.
  change (foldl _ (__adjust_nat_entry_set sets t head max) (take 31 todo)) with (foldl (fun h x => __adjust_nat_entry_set sets x h max) head F) || idtac.
  rewrite HF in HT. rewrite <-HK. apply (IH (dn ++ F) (drop SETVEC_SIZE T)).
  - by rewrite <-app_assoc, <-HT.
  - intros x [Hx|Hx]%elem_of_app.
    + apply H1 in Hx. assert (idx <= z); [|lia]. apply H2. rewrite HT, Hz. set_solver.
    + assert (x <= z); [|lia]. rewrite HK, HT, Hz in Hs. apply StronglySorted_app_1_r, StronglySorted_app_1_l in Hs. rewrite Hz in Hx. apply elem_of_app in Hx as [Hx| ->%list_elem_of_singleton]; [|lia].
      apply (StronglySorted_app_1_elem_of _ F' [z]); [done|done|left].
  - intros x Hx. assert (z <= x /\ z <> x); [|lia]. rewrite HK, HT in Hs, Hnd. apply StronglySorted_app_1_r in Hs. apply list.NoDup_app in Hnd as (_ & _ & Hnd). apply list.NoDup_app in Hnd as (_ & Hnd & _).
    assert (Hzin : z ∈ F) by (rewrite Hz; set_solver). split; [by apply (StronglySorted_app_1_elem_of _ F (drop SETVEC_SIZE T))|]. intros ->. by apply (Hnd x).
  - rewrite adjusts_perm. by rewrite Hh.
  - rewrite length_drop. unfold SETVEC_SIZE, T in *. cbn [length] in *. lia.
Qed.

Lemma collect_spec sets max : collect_sets (S (size sets)) sets 0 max [] ≡ₚ elements (dom sets) \/ exists b, b ∈ dom sets /\ b < 0.
Proof.
  destruct (set_keys_facts sets) as (_ & _ & Hp). destruct (decide (Forall (fun b => 0 <= b) (set_keys sets))) as [Hpos|Hneg].
  - left. rewrite <-Hp. apply (collect_loop sets max (S (size sets)) [] (set_keys sets)); [done|by intros x Hx%elem_of_nil|by apply list.Forall_forall|done|].
    rewrite (Permutation_length Hp). assert (length (elements (dom sets)) = size (dom sets)) as -> by done. rewrite size_dom. lia.
  - right. apply not_Forall_Exists in Hneg; [|apply _]. apply list.Exists_exists in Hneg as (b & Hb & Hlt). exists b. split; [|by apply Z.nle_gt]. apply elem_of_elements. by rewrite <-Hp.
Qed.

(** ** The journal is emptied *)

Definition keys_ok (c : nat_cache_info) : Prop := forall b, nat_set_root c !! b <> None -> 0 <= b.

Lemma alter_keys (f : nat_entry_set -> nat_entry_set) (m : gmap Z nat_entry_set) i b : alter f i m !! b <> None -> m !! b <> None.
Proof. destruct (decide (b = i)) as [->|]; [rewrite lookup_alter_eq; by destruct (m !! i)|by rewrite lookup_alter_ne]. Qed.

Lemma set_dirty_keys c n c' : __set_nat_cache_dirty c n = Some c' -> keys_ok c -> in_range n -> keys_ok c'.
Proof.
  intros E Hk Hn. unfold __set_nat_cache_dirty in E. destruct (nat_root c !! n) as [e|]; [|done]. cbn [mbind option_bind] in E. injection E as <-.
  set (c1 := if block_addr (ni e) =? NEW_ADDR then c else __grab_nat_entry_set c n).
  assert (H1 : keys_ok c1).
  { unfold c1, __grab_nat_entry_set. destruct (_ =? _); [done|]. destruct (nat_set_root c !! NAT_BLOCK_OFFSET n); [done|]. intros b. cbn.
    destruct (decide (b = NAT_BLOCK_OFFSET n)) as [->|]; [intros _; by apply block_off_nonneg|rewrite lookup_insert_ne by done; apply Hk]. }
  set (c2 := if negb (block_addr (ni e) =? NEW_ADDR) && _ then _ else c1). assert (H2 : keys_ok c2) by (unfold c2; destruct (_ && _); [|done]; intros b Hb%alter_keys; by apply H1).
  clearbody c2. intros b Hb. apply H2. destruct (block_addr (ni e) =? NEW_ADDR).
  - apply alter_keys in Hb. by destruct (get_nat_flag (set_nat_flag e IS_PREALLOC true) IS_DIRTY).
  - apply alter_keys in Hb. apply alter_keys in Hb. by destruct (get_nat_flag (set_nat_flag e IS_PREALLOC false) IS_DIRTY).
Qed.

Lemma move_clean_keys c n : keys_ok c -> keys_ok (move_to_clean n c).
Proof. intros Hk b Hb%alter_keys. by apply Hk. Qed.
Lemma lookup_keys c n : keys_ok c -> keys_ok (__lookup_nat_cache c n).1.
Proof. intros Hk. unfold __lookup_nat_cache. destruct (nat_root c !! n); [|done]. destruct (_ && _); [by apply move_clean_keys|done]. Qed.

Lemma put_same n e c : nat_root c !! n = Some e -> put_ent n e c = c.
Proof. intros E. unfold put_ent. rewrite insert_id by done. by destruct c. Qed.

(** An entry of the journal: it is cached and dirty afterwards. *)
Lemma remove_entry D c n : cache_inv D c -> keys_ok c -> in_range n -> block_addr (D n) <> NEW_ADDR ->
  exists c1 e c', match __lookup_nat_cache c n with
    | (c, Some ne) => (c, ne)
    | (c, None) => (__init_nat_entry c n __alloc_nat_entry (Some (D n)), set_ni __alloc_nat_entry (D n))
    end = (c1, e) /\ __set_nat_cache_dirty c1 n = Some c' /\ cache_inv D c' /\ keys_ok c' /\ (forall m, view c' D m = view c D m) /\
    (exists e', nat_root c' !! n = Some e' /\ dirty e' = true) /\ (forall m x, nat_root c !! m = Some x -> dirty x = true -> exists x', nat_root c' !! m = Some x' /\ dirty x' = true).
Proof.
  intros Hi Hk Hn HD. destruct (lookup_spec _ _ nid_bounds D c n Hi) as (c0 & El & Hi0 & Hr0 & Hc0 & _). pose proof (lookup_keys c n Hk) as Hk0. rewrite El in *. cbn in Hk0.
  assert (Hex : exists c1 e, match nat_root c !! n with Some ne => (c0, ne) | None => (__init_nat_entry c0 n __alloc_nat_entry (Some (D n)), set_ni __alloc_nat_entry (D n)) end = (c1, e) /\
    cache_inv D c1 /\ keys_ok c1 /\ nat_root c1 = <[n := e]> (nat_root c) /\ (nat_root c !! n = None -> ni e = D n) /\ (forall x, nat_root c !! n = Some x -> e = x)).
  { destruct (nat_root c !! n) as [ne|] eqn:En.
    - exists c0, ne. rewrite Hr0, insert_id by done. naive_solver.
    - rewrite (Hc0 eq_refl) in *. eexists _, _. split; [done|]. pose proof (init_spec _ _ nid_bounds D c n (set_ni __alloc_nat_entry (D n)) __alloc_nat_entry Hi Hn En eq_refl eq_refl) as Hx.
      unfold __init_nat_entry, put_ent, add_cnt, set_lists in *. cbn in *. rewrite insert_insert_eq in Hx. naive_solver. }
  destruct Hex as (c1 & e & Em & Hi1 & Hk1 & Hr1 & Hni & Hex). exists c1, e. assert (E1 : nat_root c1 !! n = Some e) by (by rewrite Hr1, lookup_insert_eq).
  destruct (set_dirty_spec _ _ nid_bounds D c1 n e e Hi1 E1 eq_refl eq_refl) as (c' & e' & Ed & Hi' & Hr' & Hn' & Hd' & _).
  { unfold on_set. intros [_ Hx%negb_true_iff]%andb_true_iff. by apply Z.eqb_neq. }
  rewrite put_same in Ed by done. exists c'. conjs; try done.
  - by apply (set_dirty_keys c1 n c').
  - intros m. unfold view. rewrite Hr', Hr1, insert_insert_eq. destruct (decide (m = n)) as [->|]; [rewrite lookup_insert_eq, Hn'|by rewrite lookup_insert_ne].
    destruct (nat_root c !! n) as [x|] eqn:Ex; [by rewrite (Hex x eq_refl)|by apply Hni].
  - exists e'. by rewrite Hr', lookup_insert_eq.
  - intros m x Ex Hx. rewrite Hr', Hr1, insert_insert_eq. destruct (decide (m = n)) as [->|]; [exists e'; by rewrite lookup_insert_eq|exists x; by rewrite lookup_insert_ne].
Qed.

Lemma remove_nats_spec D js : forall c nm, cache_inv D c -> keys_ok c -> nid_inv nm -> max_nid nm = hi ->
  (forall n r, (n, r) ∈ js -> in_range n /\ r = D n /\ block_addr r <> NEW_ADDR) ->
  exists c' nm', remove_nats F2FS_ROOT_INO js c nm = Some (c', nm') /\ cache_inv D c' /\ keys_ok c' /\ nid_inv nm' /\ max_nid nm' = hi /\ (forall m, view c' D m = view c D m) /\
    (forall n, n ∈ js.*1 -> exists e, nat_root c' !! n = Some e /\ dirty e = true) /\
    (forall m x, nat_root c !! m = Some x -> dirty x = true -> exists x', nat_root c' !! m = Some x' /\ dirty x' = true).
Proof.
  induction js as [|[n r] js IH]; intros c nm Hi Hk Hni Hm Hjs.
  { exists c, nm. cbn. conjs; try done; [intros n Hn; by apply elem_of_nil in Hn|naive_solver]. }
  destruct (Hjs n r ltac:(left)) as (Hn & -> & Hnw). cbn [remove_nats]. unfold f2fs_check_nid_range.
  destruct (Z.ltb_spec n F2FS_ROOT_INO); [lia|]. destruct (Z.leb_spec (max_nid nm) n); [lia|]. cbn [orb].
  destruct (remove_entry D c n Hi Hk Hn Hnw) as (c1 & e & c2 & -> & Ed & Hi2 & Hk2 & Hv2 & Hd2 & Hmono2). rewrite Ed. cbn [mbind option_bind].
  set (nm1 := if _ && _ then _ else nm). assert (Hnm1 : nid_inv nm1 /\ max_nid nm1 = hi) by (unfold nm1; destruct (_ && _); [|done]; split; [destruct Hni; by constructor|done]).
  destruct Hnm1 as [Hni1 Hm1].
  destruct (IH c2 nm1) as (c' & nm' & -> & Hi' & Hk' & Hni' & Hm' & Hv' & Hd' & Hmono'); try done; [intros n' r' Hin; apply Hjs; by right|].
  exists c', nm'. conjs; try done.
  - intros m. by rewrite Hv', Hv2.
  - intros m. cbn. intros [->|Hin]%elem_of_cons; [|by apply Hd']. destruct Hd2 as (e' & Ee & He). by apply (Hmono' n e').
  - intros m x Ex Hx. destruct (Hmono2 m x Ex Hx) as (x2 & Ex2 & Hx2). by apply (Hmono' m x2).
Qed.

Lemma remove_journal_spec st : sys_inv st -> exists st', remove_nats_in_journal F2FS_ROOT_INO st = Some st' /\ sys_inv st' /\
  (forall m, in_range m -> nat_view st' m = nat_view st m) /\ n_journal (disk st') = [] /\ disk st' = set_journal (disk st) [].
Proof.
  intros [Hi Hni Hm Hd Hk]. pose proof Hd as [J1 J2 J3 J4].
  assert (Hjs : forall n r, (n, r) ∈ n_journal (disk st) -> in_range n /\ r = table (disk st) n /\ block_addr r <> NEW_ADDR).
  { intros n r Hin. apply list_elem_of_lookup in Hin as (i & Hi0). pose proof (journal_get_at _ i n r J1 Hi0) as Hg. destruct (J3 n r Hg). unfold table. by rewrite Hg. }
  unfold remove_nats_in_journal.
  destruct (remove_nats_spec (table (disk st)) (n_journal (disk st)) (cache st) (nids st)) as (c' & nm' & -> & Hi' & Hk' & Hni' & Hm' & Hv' & Hd' & _); try done.
  cbn [mbind option_bind]. eexists. split; [done|].
  assert (Ht : forall n, n ∉ (n_journal (disk st)).*1 -> table (set_journal (disk st) []) n = table (disk st) n).
  { intros n Hn%journal_get_none. unfold table at 2. by rewrite Hn. }
  assert (Hok : disk_ok (set_journal (disk st) [])).
  { constructor; cbn; try done; [constructor|]. pose proof (Zle_0_nat (length (n_journal (disk st)))). lia. }
  split; [|split; [|done]].
  - constructor; try done. cbn. apply (inv_table _ _ (table (disk st))); [done|]. intros n e Ee He. apply Ht. intros Hin. destruct (Hd' n Hin) as (e' & Ee' & He'). congruence.
  - intros m Hr. unfold nat_view in *. rewrite <-Hv'. unfold view. cbn. destruct (nat_root c' !! m) eqn:Em; [done|]. apply Ht. intros Hin. destruct (Hd' m Hin) as (e' & Ee' & He'). congruence.
Qed.

(** ** The whole flush *)

Lemma mjoin_cons (x : list Z) ls : mjoin (x :: ls) = x ++ mjoin ls.
Proof. done. Qed.

Lemma total_dirty c D l : cache_inv D c -> NoDup l -> total_len c l <= Z.of_nat (size (dirty_ents (nat_root c))).
Proof.
  intros Hi Hnd. pose proof (ci_lists _ _ _ _ Hi) as Hl. set (L := mjoin (set_list c <$> l)).
  assert (HL : Z.of_nat (length L) = total_len c l).
  { unfold L. clear Hnd. induction l as [|b l IH]; [done|]. rewrite fmap_cons, mjoin_cons. by rewrite length_app, Nat2Z.inj_add, total_len_cons, IH. }
  assert (Hin : forall n, n ∈ L -> NAT_BLOCK_OFFSET n ∈ l /\ exists e, nat_root c !! n = Some e /\ dirty e = true).
  { intros n. unfold L. rewrite list_elem_of_join. intros (x & Hn & Hx). apply list_elem_of_fmap in Hx as (b & -> & Hb).
    apply (lo_set _ Hl) in Hn as (-> & e & E & He). split; [done|]. exists e. split; [done|]. by apply andb_true_iff in He as [? _]. }
  assert (HnL : NoDup L).
  { unfold L. clear HL Hin. induction l as [|b l IH]; [constructor|]. apply list.NoDup_cons in Hnd as [Hb Hnd]. rewrite fmap_cons, mjoin_cons. apply list.NoDup_app. split; [apply Hl|]. split; [|by apply IH].
    intros n [-> _]%(lo_set _ Hl) Hn. apply list_elem_of_join in Hn as (x & Hn & Hx). apply list_elem_of_fmap in Hx as (b' & -> & Hb'). apply (lo_set _ Hl) in Hn as [-> _]. done. }
  rewrite <-HL. rewrite <-length_map_to_list, <-(length_fmap fst). apply inj_le, submseteq_length, NoDup_submseteq; [done|].
  intros n Hn. destruct (Hin n Hn) as (_ & e & E & He). apply list_elem_of_fmap. exists (n, e). split; [done|]. apply elem_of_map_to_list, map_lookup_filter_Some. done.
Qed.

Notation f2fs_flush_nat_entries := (f2fs_flush_nat_entries NAT_JOURNAL_ENTRIES nat_blkaddr log_blocks_per_seg F2FS_ROOT_INO nat_bits_flag).

(** No current copy waits to be written. *)
Definition copies_clean (d : nat_disk) : Prop := forall x b, x ∈ meta_dirty d -> 0 <= b -> x <> nat_addr b (copy_of d b).

Record flush_result (umount : bool) (io : Z -> option Z) (st st' : nat_sys) (err : Z) : Prop := {
  fr_inv : sys_inv st';
  fr_view : forall m, in_range m -> nat_view st' m = nat_view st m;
  fr_shadow : shadow (copy_of (disk st)) (meta (disk st)) (disk st');
  fr_new : umount = true -> forall m, in_range m -> block_addr (nat_view st m) = NEW_ADDR -> table (disk st') m = page_entry (disk st) m;
  fr_res : err = 0 /\ cp_error (disk st') = cp_error (disk st) /\ (forall m e, nat_root (cache st') !! m = Some e -> on_set e = false) \/
           (exists a, io a = Some err) /\ cp_error (disk st') = true
}.

(** An entry without an address yet is in no set. *)
Lemma new_unlisted st m : sys_inv st -> in_range m -> block_addr (nat_view st m) = NEW_ADDR -> forall b, m ∉ set_list (cache st) b.
Proof.
  intros Hi Hm Hnew b [_ (e & E & Ho)]%(lo_set _ (ci_lists _ _ _ _ (si_cache st Hi))). unfold nat_view, view in Hnew. rewrite E in Hnew. unfold on_set in Ho. by rewrite Hnew, Z.eqb_refl, andb_false_r in Ho.
Qed.
Lemma flush_spec umount io st : sys_inv st -> copies_clean (disk st) -> (forall a, io a <> Some 0) ->
  exists st' err, f2fs_flush_nat_entries umount io st = Some (st', err) /\ flush_result umount io st st' err.
Proof.
  intros Hi Hcl Hio. unfold f2fs_flush_nat_entries.
  assert (H1 : exists st1, (if umount then remove_nats_in_journal F2FS_ROOT_INO st else Some st) = Some st1 /\ sys_inv st1 /\ (forall m, in_range m -> nat_view st1 m = nat_view st m) /\
    exists j, disk st1 = set_journal (disk st) j /\ (umount = true -> j = [])).
  { destruct umount; [destruct (remove_journal_spec st Hi) as (st1 & E & Hi1 & Hv1 & _ & Hd1); exists st1; eauto 10|]. exists st. conjs; try done. exists (n_journal (disk st)). by destruct (disk st). }
  destruct H1 as (st1 & -> & Hi1 & Hv1 & j1 & Hd1 & Hj1). cbn [mbind option_bind]. destruct (Z.eqb_spec (DIRTY_NAT (cache st1)) 0) as [Hz|Hz].
  { exists st1, 0. split; [done|]. constructor; try done; [rewrite Hd1; done|intros Hu m _ _; by rewrite Hd1, (Hj1 Hu)|]. left. split; [done|]. split; [by rewrite Hd1|]. intros m e E. destruct (on_set e) eqn:Eo; [|done]. exfalso.
    apply andb_true_iff in Eo as [Hde _]. rewrite (ci_dirty _ _ _ _ (si_cache st1 Hi1)), (dirty_ents_split _ m e E), Hde in Hz. lia. }
  set (cond := umount || negb (__has_cursum_space NAT_JOURNAL_ENTRIES (n_journal (disk st1)) (DIRTY_NAT (cache st1)))).
  assert (H2 : exists st2, (if cond then remove_nats_in_journal F2FS_ROOT_INO st1 else Some st1) = Some st2 /\ sys_inv st2 /\ (forall m, in_range m -> nat_view st2 m = nat_view st m) /\
    exists j, disk st2 = set_journal (disk st) j /\ (j = [] \/ umount = false /\ DIRTY_NAT (cache st2) + Z.of_nat (length j) <= NAT_JOURNAL_ENTRIES)).
  { destruct cond eqn:Ec.
    - destruct (remove_journal_spec st1 Hi1) as (st2 & E & Hi2 & Hv2 & _ & Hd2). exists st2. split; [done|]. split; [done|]. split; [intros m Hm; by rewrite Hv2, Hv1|].
      exists []. rewrite Hd2, Hd1. split; [done|by left].
    - exists st1. split; [done|]. split; [done|]. split; [done|]. exists j1. split; [done|]. right. apply orb_false_iff in Ec as [-> Ec]. split; [done|].
      apply negb_false_iff, Z.leb_le in Ec. rewrite Hd1 in Ec. cbn in Ec. lia. }
  destruct H2 as (st2 & -> & Hi2 & Hv2 & j2 & Hd2 & Hj2). cbn [mbind option_bind].
  set (sets := nat_set_root (cache st2)). set (max := NAT_JOURNAL_ENTRIES - Z.of_nat (length (n_journal (disk st2)))).
  assert (Hperm : collect_sets (S (size sets)) sets 0 max [] ≡ₚ elements (dom sets)).
  { destruct (collect_spec sets max) as [|(b & Hb & Hneg)]; [done|]. apply elem_of_dom in Hb as [s Hb]. assert (0 <= b) by (apply (si_keys st2 Hi2); unfold sets in Hb; by rewrite Hb). lia. }
  set (l := collect_sets _ _ _ _ _) in *.
  assert (Hnd : NoDup l) by (rewrite Hperm; apply NoDup_elements). assert (Hkeys : forall b, b ∈ l <-> is_Some (sets !! b)) by (intros b; by rewrite Hperm, elem_of_elements, elem_of_dom).
  assert (Hpos : forall b, b ∈ l -> 0 <= b) by (intros b Hb; apply (si_keys st2 Hi2); apply not_eq_None_Some; by apply Hkeys).
  destruct (flush_sets_spec umount io (copy_of (disk st)) (meta (disk st)) l Hio st2) as (st' & err & -> & Hi' & Hv' & Hsh' & Ht' & Hres); try done.
  - intros b Hb. by rewrite Hd2.
  - intros b Hb. by rewrite Hd2.
  - intros x b Hx Hb. rewrite Hd2 in Hx. apply Hcl; [done|by apply Hpos].
  - destruct Hj2 as [Hj2|[Hu Hj2]]; [right; intros b n _ _; rewrite Hd2, Hj2; apply not_elem_of_nil|left]. split; [done|]. rewrite Hd2. cbn [set_journal n_journal].
    pose proof (total_dirty (cache st2) _ l (si_cache st2 Hi2) Hnd). rewrite (ci_dirty _ _ _ _ (si_cache st2 Hi2)) in Hj2. lia.
  - exists st', err. split; [done|]. constructor; try done; [intros m Hm; by rewrite Hv', Hv2| |by rewrite Hd2 in Hres]. intros Hu m Hm Hnew. rewrite Ht'; [|done|apply (new_unlisted st2 m Hi2 Hm); by rewrite Hv2].
    destruct Hj2 as [->|[? _]]; [by rewrite Hd2|congruence].
Qed.
End props.
