(* ===== verification/NatSystem.v ===== *)
(** * Histories of the node address table

    Any sequence of look-ups, address changes, shrinker runs and checkpoints behaves
    as operations on one table; a checkpoint replaces the table on disk as a whole. *)

From S2P Require Import Prelude FreeNid NatCache NatFlush NatProps.

Section system.
Context `{NatFormat}.
Context (NAT_JOURNAL_ENTRIES : Z) (nat_blkaddr log_blocks_per_seg : Z) (log_pos : 0 <= log_blocks_per_seg).
Context (F2FS_ROOT_INO hi : Z) (nid_bounds : 0 < F2FS_ROOT_INO /\ hi < 2 ^ 32) (nat_bits_flag : bool).
Context (is_valid_blkaddr : Z -> bool) (COMPRESS_ADDR : Z).
Notation in_range n := (F2FS_ROOT_INO <= n < hi).
Notation sys_inv := (sys_inv NAT_JOURNAL_ENTRIES nat_blkaddr log_blocks_per_seg F2FS_ROOT_INO hi).
Notation table := (table nat_blkaddr log_blocks_per_seg).
Notation nat_view := (nat_view nat_blkaddr log_blocks_per_seg).
Notation copies_clean := (copies_clean nat_blkaddr log_blocks_per_seg).
Notation nat_addr := (nat_addr nat_blkaddr log_blocks_per_seg).
Notation dirty e := (get_nat_flag e IS_DIRTY).
Notation flush := (f2fs_flush_nat_entries NAT_JOURNAL_ENTRIES nat_blkaddr log_blocks_per_seg F2FS_ROOT_INO nat_bits_flag).

(** ** A checkpoint *)

(** The device if the machine stops: some of the pages of [d'] were written over those
    of [d]; the bitmap and the journal are those of the checkpoint before. *)
Definition crashed (d d' : nat_disk) (written : Z -> bool) : nat_disk :=
  set_meta d (fun a => if written a then meta d' a else meta d a) ∅ (nat_bitmap d).

Lemma crashed_table d d' written n : shadow nat_blkaddr log_blocks_per_seg (copy_of d) (meta d) d' -> in_range n -> table (crashed d d' written) n = table d n.
Proof.
  intros Hsh Hn. unfold table, page_entry. rewrite !current_addr. cbn. destruct (journal_get _ n); [done|]. destruct (written _); [|done].
  fold (copy_of d (NAT_BLOCK_OFFSET n)). rewrite Hsh; [done|]. by eapply block_off_nonneg.
Qed.

(** Without dirty entries that have an address, the disk has the table. *)
Lemma flushed_table st m : sys_inv st -> in_range m -> (forall e, nat_root (cache st) !! m = Some e -> on_set e = false) -> block_addr (nat_view st m) <> NEW_ADDR ->
  table (disk st) m = nat_view st m.
Proof.
  intros Hi Hm Hos Hnw. unfold nat_view, view in *. destruct (nat_root (cache st) !! m) as [e|] eqn:E; [|done]. specialize (Hos e eq_refl). unfold on_set in Hos.
  destruct (dirty e) eqn:Ed; cbn in Hos; [by apply negb_false_iff, Z.eqb_eq in Hos|]. symmetry. by apply (ci_clean _ _ _ _ (si_cache _ _ _ _ _ st Hi) m e).
Qed.

(** C7: A checkpoint replaces the node address table as a whole.  Flushing always
    returns and changes nothing for readers.  Whatever pages it has written when the
    machine stops, the table of the checkpoint before is intact on the device; and
    when it succeeds, the bitmap and the journal of the new checkpoint give every
    node that has an address exactly the entry that readers see.  A read error stops
    checkpoints. *)
Theorem nat_checkpoint_atomic umount io st : sys_inv st -> copies_clean (disk st) -> (forall a, io a <> Some 0) ->
  exists st' err, flush umount io st = Some (st', err) /\ sys_inv st' /\
    (forall m, in_range m -> nat_view st' m = nat_view st m) /\
    (forall written m, in_range m -> table (crashed (disk st) (disk st') written) m = table (disk st) m) /\
    (err = 0 /\ cp_error (disk st') = cp_error (disk st) /\ (forall m, in_range m -> block_addr (nat_view st m) <> NEW_ADDR -> table (disk st') m = nat_view st m) \/
     (exists a, io a = Some err) /\ cp_error (disk st') = true).
Proof.
  intros Hi Hcl Hio. destruct (flush_spec NAT_JOURNAL_ENTRIES nat_blkaddr log_blocks_per_seg log_pos F2FS_ROOT_INO hi nid_bounds nat_bits_flag umount io st Hi Hcl Hio) as (st' & err & E & [Hi' Hv Hsh _ Hres]).
  exists st', err. split; [done|]. split; [done|]. split; [done|]. split; [intros written m Hm; by apply crashed_table|].
  destruct Hres as [(-> & He & Hos)|]; [left|by right]. split; [done|]. split; [done|]. intros m Hm Hnw. rewrite <-Hv in * by done. apply flushed_table; [done|done|by apply Hos|done].
Qed.

(** C39: A checkpoint at unmount empties the journal, but an id whose cached entry has no
    block yet (NEW_ADDR) is on no set and is not written: what the journal said of it is
    lost.  Whether the flush succeeds or not, the table on the device then shows the entry
    of the NAT block below, the one from before the change that was in the journal. *)
Theorem preallocated_record_lost io st m r : sys_inv st -> copies_clean (disk st) -> (forall a, io a <> Some 0) ->
  in_range m -> block_addr (nat_view st m) = NEW_ADDR -> journal_get (n_journal (disk st)) m = Some r ->
  table (disk st) m = r /\ exists st' err, flush true io st = Some (st', err) /\ table (disk st') m = page_entry nat_blkaddr log_blocks_per_seg (disk st) m.
Proof.
  intros Hi Hcl Hio Hm Hnew Hj. split; [unfold table; by rewrite Hj|].
  destruct (flush_spec NAT_JOURNAL_ENTRIES nat_blkaddr log_blocks_per_seg log_pos F2FS_ROOT_INO hi nid_bounds nat_bits_flag true io st Hi Hcl Hio) as (st' & err & E & [_ _ _ Hn _]).
  exists st', err. split; [done|]. by apply Hn.
Qed.

(** ** Calls *)

Definition EIO : Z := 5.

(** The part of [f2fs_write_checkpoint] that concerns the table: it is refused after
    an error; on success all meta pages are written before the pack. *)
Definition nat_checkpoint (umount : bool) (io : Z -> option Z) (st : nat_sys) : option (nat_sys * Z) :=
  if cp_error (disk st) then Some (st, - EIO)
  else
    '(st, err) ← flush umount io st;
    Some (if err =? 0 then {| cache := cache st; nids := nids st; disk := set_meta (disk st) (meta (disk st)) ∅ (nat_bitmap (disk st)) |} else st, err).

Inductive nat_op :=
| GetInfo (io : Z -> option Z) (mem : bool) (n : Z)
| SetAddr (n : Z) (i : f2fs_nat_entry) (new : Z) (fsync : bool)
| DentryMark (n : Z) | Checkpointed (n : Z) | InodeUpdate (n : Z)
| Shrink (trylock : bool) (nr : Z)
| Checkpoint (umount : bool) (io : Z -> option Z).
Inductive nat_result := RInfo (e : f2fs_nat_entry) | RErr (err : Z) | ROk | RBool (b : bool).

Definition with_cache (st : nat_sys) (c : nat_cache_info) : nat_sys := {| cache := c; nids := nids st; disk := disk st |}.

Definition nat_exec (st : nat_sys) (op : nat_op) : option (nat_sys * nat_result) :=
  match op with
  | GetInfo io mem n =>
      '(st, r) ← f2fs_get_node_info NAT_JOURNAL_ENTRIES nat_blkaddr log_blocks_per_seg is_valid_blkaddr COMPRESS_ADDR io mem st n;
      Some (st, match r with inl err => RErr err | inr e => RInfo e end)
  | SetAddr n i new fsync => c ← set_node_addr COMPRESS_ADDR (cache st) n i new fsync; Some (with_cache st c, ROk)
  | DentryMark n => let '(c, b) := f2fs_need_dentry_mark (cache st) n in Some (with_cache st c, RBool b)
  | Checkpointed n => let '(c, b) := f2fs_is_checkpointed_node (cache st) n in Some (with_cache st c, RBool b)
  | InodeUpdate n => let '(c, b) := f2fs_need_inode_block_update (cache st) n in Some (with_cache st c, RBool b)
  | Shrink trylock nr => let '(c, _) := f2fs_try_to_free_nats trylock (cache st) nr in Some (with_cache st c, ROk)
  | Checkpoint umount io => '(st, err) ← nat_checkpoint umount io st; Some (st, if err =? 0 then ROk else RErr err)
  end.

(** The abstract table: an entry per node id. *)
Definition upd_table (T : Z -> f2fs_nat_entry) (n : Z) (e : f2fs_nat_entry) : Z -> f2fs_nat_entry := fun m => if decide (m = n) then e else T m.

Inductive table_step (T : Z -> f2fs_nat_entry) : nat_op -> (Z -> f2fs_nat_entry) -> nat_result -> Prop :=
| step_get io mem n : table_step T (GetInfo io mem n) T (RInfo (T n))
| step_get_err io mem n err : (exists a, io a = Some err) \/ err = - EFAULT /\ is_valid_blkaddr (block_addr (T n)) = false -> table_step T (GetInfo io mem n) T (RErr err)
| step_set n new fsync : table_step T (SetAddr n (T n) new fsync) (upd_table T n (new_info (T n) new)) ROk
| step_mark n b : table_step T (DentryMark n) T (RBool b)
| step_checkpointed n b : table_step T (Checkpointed n) T (RBool b)
| step_update n b : table_step T (InodeUpdate n) T (RBool b)
| step_shrink trylock nr : table_step T (Shrink trylock nr) T ROk
| step_checkpoint umount io : table_step T (Checkpoint umount io) T ROk
| step_checkpoint_err umount io err : err = - EIO \/ (exists a, io a = Some err) -> table_step T (Checkpoint umount io) T (RErr err).

(** The table as the scan for free ids reads it. *)
Definition nat_env_of (st : nat_sys) : nat_env := {|
  nat_cache := fun n => (fun e => {| is_checkpointed := get_nat_flag e IS_CHECKPOINTED; nat_get_blkaddr := block_addr (ni e) |}) <$> nat_root (cache st) !! n;
  get_current_nat_page := fun ofs => Some (fun i => block_addr (meta (disk st) (nat_addr ofs (copy_of (disk st) ofs)) i));
  nat_journal := (fun p => (p.1, block_addr p.2)) <$> n_journal (disk st)
|}.

(** What callers guarantee: they pass what they have read; a node that is removed is
    there, and a new node has an id that is free, as [f2fs_alloc_nid] hands out. *)
Definition nat_op_ok (st : nat_sys) (op : nat_op) : Prop :=
  match op with
  | GetInfo _ _ n => in_range n
  | SetAddr n i new _ =>
      in_range n /\ i = nat_view st n /\ (new = NULL_ADDR -> block_addr i <> NULL_ADDR) /\
      (new = NEW_ADDR -> truly_free (nat_env_of st) n /\ cp_error (disk st) = false)
  | Checkpoint _ io => forall a, io a <> Some 0
  | _ => True
  end.

Record nat_inv (st : nat_sys) : Prop := {
  ns_sys : sys_inv st;
  ns_clean : cp_error (disk st) = false -> copies_clean (disk st) /\ null_ok (cache st)
}.

(** ** Free ids *)

(** An id that the free id cache may hand out has no address. *)
Lemma truly_free_null st n : nat_inv st -> in_range n -> truly_free (nat_env_of st) n -> block_addr (nat_view st n) = NULL_ADDR.
Proof.
  intros [Hi _] Hn (Hc & Hj & Hp). unfold nat_view, view. unfold cache_ok in Hc. cbn in Hc. destruct (nat_root (cache st) !! n) as [e|] eqn:E; [cbn in Hc; apply Hc|].
  pose proof (dk_journal _ _ _ _ _ _ (si_disk _ _ _ _ _ st Hi)) as Hnd. unfold table.
  assert (Hfst : (nat_journal (nat_env_of st)).*1 = (n_journal (disk st)).*1) by (cbn; by rewrite <-list_fmap_compose).
  destruct (decide (n ∈ (n_journal (disk st)).*1)) as [Hin|Hin].
  - unfold journaled in Hj. rewrite Hfst in Hj. specialize (Hj Hin). apply list_elem_of_fmap in Hj as ([m r] & Heq & Hm). cbn in Heq. injection Heq as -> ->.
    apply list_elem_of_lookup in Hm as (i & Hm). by rewrite (journal_get_at _ i m r Hnd Hm).
  - assert (Hp' : page_null (nat_env_of st) n) by (apply Hp; unfold journaled; by rewrite Hfst). apply journal_get_none in Hin. rewrite Hin.
    destruct Hp' as (entries & [= <-] & Hz). unfold page_entry. rewrite current_addr. fold (copy_of (disk st) (NAT_BLOCK_OFFSET n)). unfold START_NID.
    pose proof nat_entries_range. replace (n - n / NAT_ENTRY_PER_BLOCK * NAT_ENTRY_PER_BLOCK) with (n mod NAT_ENTRY_PER_BLOCK) by (rewrite Z.mod_eq; lia). done.
Qed.

Lemma truly_free_clean st n e : nat_inv st -> cp_error (disk st) = false -> truly_free (nat_env_of st) n -> nat_root (cache st) !! n = Some e -> dirty e = false.
Proof.
  intros [Hi Hok] Hce (Hc & _) E. unfold cache_ok in Hc. cbn in Hc. rewrite E in Hc. destruct Hc as [Hck Hnull]. cbn in *. destruct (dirty e) eqn:Ed; [|done].
  destruct (Hok Hce) as [_ Hnu]. rewrite (Hnu n e E Ed Hnull) in Hck. done.
Qed.

(** ** Each call refines a step *)

Lemma cache_step st c' : nat_inv st -> cache_inv F2FS_ROOT_INO hi (table (disk st)) c' -> keys_ok c' -> (null_ok (cache st) -> null_ok c') -> nat_inv (with_cache st c').
Proof. intros [[H1 H2 H3 H4 H5] Hok] Hc Hk Hn. split; [by constructor|]. intros He. destruct (Hok He) as [? ?]. split; [done|by apply Hn]. Qed.

Lemma set_node_addr_keys c n i new fsync c' : set_node_addr COMPRESS_ADDR c n i new fsync = Some c' -> keys_ok c -> in_range n -> keys_ok c'.
Proof.
  intros E Hk Hn. unfold set_node_addr in E.
  destruct (node_addr_entry c n i new) as [[c1 e]|] eqn:E1; [|done]. cbn [mbind option_bind] in E.
  assert (Hk1 : keys_ok c1).
  { unfold node_addr_entry in E1. pose proof (lookup_keys c n Hk) as Hkl. destruct (__lookup_nat_cache c n) as [c0 [e0|]]; cbn in Hkl.
    - destruct (new =? NEW_ADDR); [destruct (negb _)|]; try done; by injection E1 as <- _.
    - destruct (_ =? _); [done|]. by injection E1 as <- _. }
  destruct (_ || _); [done|]. set (e3 := if negb (__is_valid_data_blkaddr COMPRESS_ADDR new) then _ else _) in E.
  destruct (__set_nat_cache_dirty (put_ent n e3 c1) n) as [c2|] eqn:E2; [|done]. cbn [mbind option_bind] in E. injection E as <-.
  assert (Hk2 : keys_ok c2) by (eapply set_dirty_keys; done). unfold fsync_mark. destruct (negb (n =? ne_ino i)).
  - pose proof (lookup_keys c2 (ne_ino i) Hk2) as Hk3. by destruct (__lookup_nat_cache c2 (ne_ino i)) as [c3 [e'|]].
  - by destruct (nat_root c2 !! n).
Qed.

Lemma free_nats_keys l : forall c nr, nat_set_root (free_nats l c nr).1 = nat_set_root c.
Proof. induction l as [|n l IH]; intros c nr; cbn; [done|]. destruct (nr =? 0); [done|]. by rewrite IH. Qed.

Lemma view_agree st c' T : (forall m, in_range m -> nat_view st m = T m) -> (forall m, view c' (table (disk st)) m = view (cache st) (table (disk st)) m) ->
  forall m, in_range m -> nat_view (with_cache st c') m = T m.
Proof. intros HT Hv m Hm. unfold nat_view in *. cbn. rewrite Hv. by apply HT. Qed.

(** A look-up of the cache only reorders it. *)
Lemma nat_lookup_step st n : nat_inv st -> exists c', __lookup_nat_cache (cache st) n = (c', nat_root (cache st) !! n) /\ nat_inv (with_cache st c') /\
  nat_root c' = nat_root (cache st) /\ cache_inv F2FS_ROOT_INO hi (table (disk st)) c' /\ keys_ok c' /\ (nat_root (cache st) !! n = None -> c' = cache st).
Proof.
  intros Hi. pose proof (ns_sys st Hi) as [H1 H2 H3 H4 H5]. destruct (lookup_spec _ _ nid_bounds _ (cache st) n H1) as (c' & E & Hc & Hr & Hn & _).
  pose proof (lookup_keys (cache st) n H5) as Hk. rewrite E in Hk. exists c'. conjs; try done. apply cache_step; try done. unfold null_ok. by rewrite Hr.
Qed.

Lemma get_info_step st T io mem n : nat_inv st -> (forall m, in_range m -> nat_view st m = T m) -> in_range n ->
  exists st' r, nat_exec st (GetInfo io mem n) = Some (st', r) /\ nat_inv st' /\ (forall m, in_range m -> nat_view st' m = T m) /\ table_step T (GetInfo io mem n) T r.
Proof.
  intros Hi HT Hn. cbn [nat_exec]. unfold f2fs_get_node_info. destruct (nat_lookup_step st n Hi) as (c' & -> & Hi' & Hr & Hc & Hk & Hsame). fold (with_cache st c').
  assert (HT' : forall m, in_range m -> nat_view (with_cache st c') m = T m) by (apply view_agree; [done|]; intros m; unfold view; by rewrite Hr).
  destruct (nat_root (cache st) !! n) as [e|] eqn:E; cbn [mbind option_bind].
  { eexists _, _. split; [done|]. split; [done|]. split; [done|]. replace (ni e) with (T n); [constructor|]. rewrite <-HT by done. unfold nat_view, view. by rewrite E. }
  set (read := match f2fs_lookup_journal_in_cursum _ _ n false with (_, Some i) => _ | (_, None) => _ end).
  pose proof (dk_journal _ _ _ _ _ _ (si_disk _ _ _ _ _ st (ns_sys st Hi))) as Hnd.
  assert (HTn : T n = table (disk st) n) by (rewrite <-HT by done; unfold nat_view, view; by rewrite E).
  assert (Hread : read = inr (T n) \/ exists a err, io a = Some err /\ read = inl err).
  { unfold read. pose proof (lookup_journal NAT_JOURNAL_ENTRIES (n_journal (disk st)) n Hnd) as Hlj. rewrite HTn. unfold table.
    destruct (f2fs_lookup_journal_in_cursum _ _ n false) as [j [i|]].
    - destruct Hlj as (raw & Hi0 & ->). left. by rewrite Hi0.
    - rewrite Hlj. unfold page_entry. destruct (io (current_nat_addr _ _ (disk st) n)) as [err|] eqn:Eio; [right; eauto|by left]. }
  destruct Hread as [->|(a & err & Ea & ->)]; cbn [mbind option_bind].
  2: { eexists _, _. split; [done|]. split; [done|]. split; [done|]. constructor. left. eauto. }
  destruct (__is_valid_data_blkaddr _ _ && negb (is_valid_blkaddr _)) eqn:Ev; cbn [mbind option_bind].
  { eexists _, _. split; [done|]. split; [done|]. split; [done|]. constructor. right. split; [done|]. by apply andb_true_iff in Ev as [_ ?%negb_true_iff]. }
  rewrite (Hsame eq_refl) in *. rewrite HTn. destruct (cache_nat_spec _ _ nid_bounds (table (disk st)) mem (cache st) n Hc Hn E) as (c2 & E2 & Hc2 & Hr2). rewrite E2. cbn [mbind option_bind].
  assert (Hsets : nat_set_root c2 = nat_set_root (cache st)).
  { unfold cache_nat_entry, __lookup_nat_cache in E2. destruct mem; cbn [negb] in E2; [|by injection E2 as <-]. rewrite E in E2. by injection E2 as <-. }
  eexists _, _. split; [done|]. split; [|split; [|rewrite <-HTn; constructor]].
  - apply (cache_step st c2); try done; [unfold keys_ok; by rewrite Hsets|]. intros Hnu m x Ex Hdx Hb. destruct Hr2 as [Hr2|(e & He & Hr2)]; rewrite Hr2 in Ex; [by apply (Hnu m x)|].
    apply lookup_insert_Some in Ex as [[<- <-]|[_ Ex]]; [|by apply (Hnu m x)]. exfalso.
    unfold cache_nat_entry, __lookup_nat_cache in E2. destruct mem; cbn [negb] in E2; [|injection E2 as E2; rewrite E2, Hr2, lookup_insert_eq in E; done]. rewrite E in E2. injection E2 as E2.
    rewrite <-E2 in Hr2. cbn in Hr2. assert (Hx : nat_root (__init_nat_entry (cache st) n __alloc_nat_entry (Some (table (disk st) n))) !! n = Some e) by (cbn; by rewrite Hr2, lookup_insert_eq).
    cbn in Hx. rewrite lookup_insert_eq in Hx. injection Hx as <-. done.
  - apply view_agree; [done|]. intros m. unfold view. destruct Hr2 as [Hr2|(e & He & Hr2)]; rewrite Hr2; [done|].
    destruct (decide (m = n)) as [->|]; [by rewrite lookup_insert_eq, E|by rewrite lookup_insert_ne].
Qed.

Lemma set_addr_step st T n i new fsync : nat_inv st -> (forall m, in_range m -> nat_view st m = T m) -> nat_op_ok st (SetAddr n i new fsync) ->
  exists st', nat_exec st (SetAddr n i new fsync) = Some (st', ROk) /\ nat_inv st' /\ i = T n /\ (forall m, in_range m -> nat_view st' m = upd_table T n (new_info (T n) new) m).
Proof.
  intros Hi HT (Hn & Hv & Hnull & Hnew). pose proof (ns_sys st Hi) as [H1 H2 H3 H4 H5]. assert (HTn : i = T n) by (rewrite <-HT by done; done).
  destruct (set_node_addr_spec COMPRESS_ADDR _ _ nid_bounds (table (disk st)) (cache st) n i new fsync) as (c' & E & Hc & Hnu & Hw); try done.
  - by eapply table_not_new.
  - split; [|done]. intros E. rewrite Hv. apply truly_free_null; [done|done|by apply Hnew].
  - intros e E En. destruct (Hnew En) as [Hf He]. by apply (truly_free_clean st n e).
  - apply nat_addrs.
  - cbn [nat_exec]. rewrite E. cbn [mbind option_bind]. eexists. split; [done|]. split; [apply cache_step; try done; by eapply set_node_addr_keys|]. split; [done|].
    intros m Hm. unfold nat_view. cbn. rewrite Hw. unfold upd_table. rewrite <-HTn. destruct (decide (m = n)); [done|]. by apply HT.
Qed.

(** The queries of [fsync]. *)
Lemma query_step st T n (f : option nat_ent -> bool) : nat_inv st -> (forall m, in_range m -> nat_view st m = T m) ->
  exists st' b, (let '(c, e) := __lookup_nat_cache (cache st) n in Some (with_cache st c, RBool (f e))) = Some (st', RBool b) /\ nat_inv st' /\
    (forall m, in_range m -> nat_view st' m = T m).
Proof.
  intros Hi HT. destruct (nat_lookup_step st n Hi) as (c' & -> & Hi' & Hr & _). eexists _, _. split; [done|]. split; [done|].
  apply view_agree; [done|]. intros m. unfold view. by rewrite Hr.
Qed.

Lemma nat_shrink_step st T trylock nr : nat_inv st -> (forall m, in_range m -> nat_view st m = T m) ->
  exists st', nat_exec st (Shrink trylock nr) = Some (st', ROk) /\ nat_inv st' /\ (forall m, in_range m -> nat_view st' m = T m).
Proof.
  intros Hi HT. cbn [nat_exec]. unfold f2fs_try_to_free_nats. destruct trylock; cbn [negb]; [|exists (with_cache st (cache st)); destruct st; done].
  pose proof (ns_sys st Hi) as [H1 H2 H3 H4 H5]. destruct (free_nats_spec _ _ nid_bounds (table (disk st)) (nat_entries (cache st)) (cache st) nr H1 eq_refl) as (Hc & Hv & Hr).
  pose proof (free_nats_keys (nat_entries (cache st)) (cache st) nr) as Hk. destruct (free_nats _ _ nr) as [c' nr']. cbn in *. eexists. split; [done|]. split.
  - apply cache_step; try done; [unfold keys_ok; by rewrite Hk|]. intros Hnu m e He. by apply (Hnu m e), Hr.
  - by apply view_agree.
Qed.

Lemma checkpoint_step st T umount io : nat_inv st -> (forall m, in_range m -> nat_view st m = T m) -> (forall a, io a <> Some 0) ->
  exists st' r, nat_exec st (Checkpoint umount io) = Some (st', r) /\ nat_inv st' /\ (forall m, in_range m -> nat_view st' m = T m) /\ table_step T (Checkpoint umount io) T r.
Proof.
  intros Hi HT Hio. cbn [nat_exec]. unfold nat_checkpoint. destruct (cp_error (disk st)) eqn:Ece.
  { eexists _, _. split; [done|]. conjs; try done. constructor. by left. }
  destruct (ns_clean st Hi Ece) as [Hcl Hnu].
  destruct (flush_spec NAT_JOURNAL_ENTRIES nat_blkaddr log_blocks_per_seg log_pos F2FS_ROOT_INO hi nid_bounds nat_bits_flag umount io st (ns_sys st Hi) Hcl Hio) as (st' & err & -> & [Hi' Hv _ _ Hres]).
  cbn [mbind option_bind]. assert (HT' : forall m, in_range m -> nat_view st' m = T m) by (intros m Hm; rewrite Hv by done; by apply HT).
  destruct Hres as [(-> & He & Hos)|[(a & Ea) He]].
  - cbn [Z.eqb]. eexists _, _. split; [done|]. split; [|split; [done|constructor]]. destruct Hi' as [H1 H2 H3 H4 H5]. split.
    + constructor; try done. destruct H4. by constructor.
    + intros _. split; [intros x b Hx; cbn in Hx; set_solver|]. intros m e E Hd Hb. cbn in E. specialize (Hos m e E). unfold on_set in Hos. rewrite Hd, Hb in Hos. cbn in Hos.
      apply negb_false_iff, Z.eqb_eq in Hos. by destruct nat_addrs.
  - destruct (Z.eqb_spec err 0) as [->|Hne]; [by destruct (Hio a)|]. eexists _, _. split; [done|]. split; [split; [done|congruence]|]. split; [done|].
    destruct (Z.eqb_spec err 0); [done|]. constructor. right. eauto.
Qed.

Lemma nat_exec_refines st T op : nat_inv st -> (forall m, in_range m -> nat_view st m = T m) -> nat_op_ok st op ->
  exists st' T' r, nat_exec st op = Some (st', r) /\ nat_inv st' /\ (forall m, in_range m -> nat_view st' m = T' m) /\ table_step T op T' r.
Proof.
  intros Hi HT Hok. destruct op as [io mem n|n i new fsync|n|n|n|trylock nr|umount io].
  - destruct (get_info_step st T io mem n Hi HT Hok) as (st' & r & ?). exists st', T, r. naive_solver.
  - destruct (set_addr_step st T n i new fsync Hi HT Hok) as (st' & E & Hi' & -> & HT'). eexists _, _, _. split; [done|]. split; [done|]. split; [done|constructor].
  - destruct (query_step st T n (fun e => match e with Some e => negb (get_nat_flag e IS_CHECKPOINTED) && negb (get_nat_flag e HAS_FSYNCED_INODE) | None => false end) Hi HT) as (st' & b & E & ? & ?).
    exists st', T, (RBool b). split; [cbn [nat_exec]; unfold f2fs_need_dentry_mark; by destruct (__lookup_nat_cache (cache st) n)|]. split; [done|]. split; [done|constructor].
  - destruct (query_step st T n (fun e => match e with Some e => get_nat_flag e IS_CHECKPOINTED | None => true end) Hi HT) as (st' & b & E & ? & ?).
    exists st', T, (RBool b). split; [cbn [nat_exec]; unfold f2fs_is_checkpointed_node; by destruct (__lookup_nat_cache (cache st) n)|]. split; [done|]. split; [done|constructor].
  - destruct (query_step st T n (fun e => match e with Some e => negb (get_nat_flag e HAS_LAST_FSYNC && (get_nat_flag e IS_CHECKPOINTED || get_nat_flag e HAS_FSYNCED_INODE)) | None => true end) Hi HT)
      as (st' & b & E & ? & ?).
    exists st', T, (RBool b). split; [cbn [nat_exec]; unfold f2fs_need_inode_block_update; by destruct (__lookup_nat_cache (cache st) n)|]. split; [done|]. split; [done|constructor].
  - destruct (nat_shrink_step st T trylock nr Hi HT) as (st' & E & ? & ?). exists st', T, ROk. split; [done|]. split; [done|]. split; [done|constructor].
  - destruct (checkpoint_step st T umount io Hi HT Hok) as (st' & r & ?). exists st', T, r. naive_solver.
Qed.

(** ** Histories *)

Fixpoint nat_run (st : nat_sys) (ops : list nat_op) : option (nat_sys * list nat_result) :=
  match ops with
  | [] => Some (st, [])
  | op :: ops => '(st, r) ← nat_exec st op; '(st, rs) ← nat_run st ops; Some (st, r :: rs)
  end.
Fixpoint nat_history_ok (st : nat_sys) (ops : list nat_op) : Prop :=
  match ops with
  | [] => True
  | op :: ops => nat_op_ok st op /\ forall st' r, nat_exec st op = Some (st', r) -> nat_history_ok st' ops
  end.
Inductive table_run (T : Z -> f2fs_nat_entry) : list nat_op -> (Z -> f2fs_nat_entry) -> list nat_result -> Prop :=
| table_nil : table_run T [] T []
| table_cons op ops T' T'' r rs : table_step T op T' r -> table_run T' ops T'' rs -> table_run T (op :: ops) T'' (r :: rs).

(** C3: The node address table is one table.  However look-ups, address changes, the
    queries of fsync, the shrinker and checkpoints follow each other, whether entries
    are in the cache, the journal, one of the two copies of a block, or several of
    these, and whatever reads and allocations fail: no check of the code fails, every
    look-up returns the last entry set or an error of the device, and only address
    changes change the table. *)
Theorem nat_history_refines ops st T : nat_inv st -> (forall m, in_range m -> nat_view st m = T m) -> nat_history_ok st ops ->
  exists st' T' rs, nat_run st ops = Some (st', rs) /\ nat_inv st' /\ (forall m, in_range m -> nat_view st' m = T' m) /\ table_run T ops T' rs.
Proof.
  revert st T. induction ops as [|op ops IH]; intros st T Hi HT Hok.
  { eexists _, _, _. split; [done|]. split; [done|]. split; [done|constructor]. }
  destruct Hok as [Hok Hnext]. destruct (nat_exec_refines st T op Hi HT Hok) as (st1 & T1 & r & E & Hi1 & HT1 & Hs).
  destruct (IH st1 T1 Hi1 HT1 (Hnext st1 r E)) as (st2 & T2 & rs & E2 & Hi2 & HT2 & Hr). cbn. rewrite E. cbn [mbind option_bind]. rewrite E2. cbn [mbind option_bind].
  eexists _, _, _. split; [done|]. split; [done|]. split; [done|]. by econstructor.
Qed.
End system.
