(* ===== verification/SegBitmap.v ===== *)
(** * Bitmaps of blocks (segment.c, f2fs.h)

    The maps of the valid blocks of a segment number their bits from the highest one
    of each byte.  Free blocks are searched a word at a time. *)

From S2P Require Import Prelude.

Definition BITS_PER_LONG : Z := 64.
Definition ULONG_MAX : Z := 2 ^ 64 - 1.

Definition byte_at (addr : list Z) (i : Z) : Z := default 0 (addr !! Z.to_nat i).

(** [f2fs_test_bit], [f2fs_set_bit] and [f2fs_clear_bit]. *)
Definition bit_mask (nr : Z) : Z := Z.shiftl 1 (7 - Z.land nr 7).
Definition f2fs_test_bit (nr : Z) (addr : list Z) : bool := negb (Z.land (bit_mask nr) (byte_at addr (Z.shiftr nr 3)) =? 0).
Definition f2fs_set_bit (nr : Z) (addr : list Z) : list Z :=
  alter (fun b => Z.lor b (bit_mask nr)) (Z.to_nat (Z.shiftr nr 3)) addr.
Definition f2fs_clear_bit (nr : Z) (addr : list Z) : list Z :=
  alter (fun b => Z.land b (Z.lnot (bit_mask nr))) (Z.to_nat (Z.shiftr nr 3)) addr.

(** [__reverse_ulong]: the loop over the bytes of a word. *)
Fixpoint reverse_loop (n : nat) (str : Z -> Z) (shift idx tmp : Z) : Z :=
  match n with
  | O => tmp
  | S n => if 0 <=? shift then reverse_loop n str (shift - 8) (idx + 1) (Z.lor tmp (Z.shiftl (str idx) shift)) else tmp
  end.
Definition __reverse_ulong (str : Z -> Z) : Z := reverse_loop 8 str 56 0 0.

Definition __reverse_ffs (word : Z) : Z :=
  let '(num, word) := if Z.land word 0xffffffff00000000 =? 0 then (32, word) else (0, Z.shiftr word 32) in
  let '(num, word) := if Z.land word 0xffff0000 =? 0 then (num + 16, word) else (num, Z.shiftr word 16) in
  let '(num, word) := if Z.land word 0xff00 =? 0 then (num + 8, word) else (num, Z.shiftr word 8) in
  let '(num, word) := if Z.land word 0xf0 =? 0 then (num + 4, word) else (num, Z.shiftr word 4) in
  let '(num, word) := if Z.land word 0xc =? 0 then (num + 2, word) else (num, Z.shiftr word 2) in
  if Z.land word 0x2 =? 0 then num + 1 else num.
Definition __reverse_ffz (word : Z) : Z := __reverse_ffs (Z.land (Z.lnot word) ULONG_MAX).

(** The word [p] of a map, and its bytes. *)
Definition word_at (addr : list Z) (p : Z) : Z := le_val (take 8 (drop (8 * Z.to_nat p) addr)).
Definition word_bytes (addr : list Z) (p : Z) : Z -> Z := fun idx => byte_at addr (8 * p + idx).

(** Whether all of the word is in the map; reading any other is a trap. *)
Definition word_inside (addr : list Z) (p : Z) : bool := (0 <=? p) && (8 * (p + 1) <=? Z.of_nat (length addr)).

(** The loops of [__find_rev_next_bit] and [__find_rev_next_zero_bit]; [result] is the
    size of the map, [size] what is left of it from the word [p] on. *)
Fixpoint rev_next_loop (fuel : nat) (addr : list Z) (result p size offset : Z) : option Z :=
  match fuel with
  | O => None
  | S fuel =>
      let pass := if size <=? BITS_PER_LONG then Some result else rev_next_loop fuel addr result (p + 1) (size - BITS_PER_LONG) 0 in
      if negb (word_inside addr p) then None
      else if word_at addr p =? 0 then pass
      else
        let tmp := __reverse_ulong (word_bytes addr p) in
        let tmp := Z.land tmp (Z.shiftr ULONG_MAX offset) in
        let tmp := if size <? BITS_PER_LONG then Z.land tmp (u64 (Z.shiftl ULONG_MAX (BITS_PER_LONG - size))) else tmp in
        if negb (tmp =? 0) then Some (result - size + __reverse_ffs tmp) else pass
  end.
Fixpoint rev_next_zero_loop (fuel : nat) (addr : list Z) (result p size offset : Z) : option Z :=
  match fuel with
  | O => None
  | S fuel =>
      let pass := if size <=? BITS_PER_LONG then Some result else rev_next_zero_loop fuel addr result (p + 1) (size - BITS_PER_LONG) 0 in
      if negb (word_inside addr p) then None
      else if word_at addr p =? ULONG_MAX then pass
      else
        let tmp := __reverse_ulong (word_bytes addr p) in
        let tmp := if negb (offset =? 0) then Z.lor tmp (u64 (Z.shiftl ULONG_MAX (BITS_PER_LONG - offset))) else tmp in
        let tmp := if size <? BITS_PER_LONG then Z.lor tmp (Z.shiftr ULONG_MAX size) else tmp in
        if negb (tmp =? ULONG_MAX) then Some (result - size + __reverse_ffz tmp) else pass
  end.
Definition __find_rev_next_bit (addr : list Z) (size offset : Z) : option Z :=
  if size <=? offset then Some size
  else rev_next_loop (S (Z.to_nat (size / BITS_PER_LONG))) addr size (offset / BITS_PER_LONG)
         (size - Z.land offset (Z.lnot (BITS_PER_LONG - 1))) (offset mod BITS_PER_LONG).
Definition __find_rev_next_zero_bit (addr : list Z) (size offset : Z) : option Z :=
  if size <=? offset then Some size
  else rev_next_zero_loop (S (Z.to_nat (size / BITS_PER_LONG))) addr size (offset / BITS_PER_LONG)
         (size - Z.land offset (Z.lnot (BITS_PER_LONG - 1))) (offset mod BITS_PER_LONG).

(** ** The search, bit by bit *)

Fixpoint find_first (n : nat) (P : Z -> bool) (i : Z) : Z :=
  match n with
  | O => i
  | S n => if P i then i else find_first n P (i + 1)
  end.
Definition next_bit (P : Z -> bool) (size offset : Z) : Z :=
  if size <=? offset then size else find_first (Z.to_nat (size - offset)) P offset.

(** [r] is the first position from [offset] on with [P], or the end. *)
Record is_next (P : Z -> bool) (size offset r : Z) : Prop := {
  nx_range : offset <= r <= size;
  nx_before : forall i, offset <= i < r -> P i = false;
  nx_at : r < size -> P r = true
}.

Lemma is_next_unique P size offset r r' : is_next P size offset r -> is_next P size offset r' -> r = r'.
Proof.
  intros [H1 H2 H3] [H1' H2' H3']. destruct (Z.lt_trichotomy r r') as [Hlt|[?|Hlt]]; [exfalso|done|exfalso].
  - specialize (H2' r ltac:(lia)). rewrite (H3 ltac:(lia)) in H2'. done.
  - specialize (H2 r' ltac:(lia)). rewrite (H3' ltac:(lia)) in H2. done.
Qed.

Lemma find_first_is_next n P i : is_next P (i + Z.of_nat n) i (find_first n P i).
Proof.
  revert i. induction n as [|n IH]; intros i; cbn [find_first]; [constructor; [lia|intros; lia|lia]|].
  destruct (P i) eqn:E; [constructor; [lia|intros; lia|done]|]. destruct (IH (i + 1)) as [H1 H2 H3]. constructor; [lia| |intros; apply H3; lia].
  intros j Hj. destruct (decide (j = i)) as [->|]; [done|]. apply H2. lia.
Qed.
Lemma next_bit_is_next P size offset : offset < size -> is_next P size offset (next_bit P size offset).
Proof. intros Hlt. unfold next_bit. destruct (Z.leb_spec size offset); [lia|]. pose proof (find_first_is_next (Z.to_nat (size - offset)) P offset) as Hn. by replace (offset + Z.of_nat (Z.to_nat (size - offset))) with size in Hn by lia. Qed.

(** ** Bits of bytes and words *)

Lemma test_bit_testbit nr addr : 0 <= nr -> f2fs_test_bit nr addr = Z.testbit (byte_at addr (nr / 8)) (7 - nr mod 8).
Proof.
  intros Hnr. unfold f2fs_test_bit, bit_mask. replace (Z.land nr 7) with (nr mod 8) by (symmetry; apply (Z.land_ones nr 3); lia).
  rewrite Z.shiftr_div_pow2 by lia. change (2 ^ 3) with 8. set (b := byte_at addr (nr / 8)). pose proof (Z.mod_pos_bound nr 8 ltac:(lia)). set (t := 7 - nr mod 8).
  rewrite Z.shiftl_1_l, Z.land_comm. destruct (Z.testbit b t) eqn:E.
  - destruct (Z.eqb_spec (Z.land b (2 ^ t)) 0) as [E0|]; [|done]. assert (Hx : Z.testbit (Z.land b (2 ^ t)) t = true) by (rewrite Z.land_spec, E, Z.pow2_bits_true by lia; done).
    by rewrite E0, Z.bits_0 in Hx.
  - assert (Z.land b (2 ^ t) = 0) as ->; [|done]. apply Z.bits_inj'. intros k Hk. rewrite Z.land_spec, Z.bits_0. destruct (decide (k = t)) as [->|]; [by rewrite E|].
    by rewrite Z.pow2_bits_false, andb_false_r by lia.
Qed.

Lemma byte_high b k : 0 <= b < 256 -> 8 <= k -> Z.testbit b k = false.
Proof. intros Hb Hk. destruct (decide (b = 0)) as [->|]; [apply Z.bits_0|]. apply Z.bits_above_log2; [lia|]. apply Z.log2_lt_pow2; [lia|]. assert (2 ^ 8 <= 2 ^ k) by (apply Z.pow_le_mono_r; lia). lia. Qed.

Lemma reverse_ulong_eq str : __reverse_ulong str = fold_left (fun tmp idx => Z.lor tmp (Z.shiftl (str idx) (56 - 8 * idx))) [0; 1; 2; 3; 4; 5; 6; 7] 0.
Proof. reflexivity. Qed.

(** Bit [i] of a word in the order of the map is bit [63 - i] of [__reverse_ulong]. *)
Lemma reverse_ulong_bit str i : (forall j, 0 <= str j < 256) -> 0 <= i < 64 -> Z.testbit (__reverse_ulong str) (63 - i) = Z.testbit (str (i / 8)) (7 - i mod 8).
Proof.
  intros Hs Hi. rewrite reverse_ulong_eq.
  pose proof (Z.div_mod i 8 ltac:(lia)) as Hdm. pose proof (Z.mod_pos_bound i 8 ltac:(lia)) as Hm. set (q := i / 8) in *. set (m := i mod 8) in *.
  assert (Hq : q = 0 \/ q = 1 \/ q = 2 \/ q = 3 \/ q = 4 \/ q = 5 \/ q = 6 \/ q = 7) by lia. clearbody q m.
  cbn [fold_left]. rewrite !Z.lor_spec, !Z.shiftl_spec, Z.bits_0 by lia. replace (7 - m) with (63 - i - (56 - 8 * q)) by lia.
  destruct Hq as [->|[->|[->|[->|[->|[->|[->| ->]]]]]]]; 
    repeat match goal with
    | |- context [Z.testbit (str ?j) (63 - i - ?k)] => rewrite (byte_high (str j) (63 - i - k)) by (auto; lia)
    | |- context [Z.testbit (str ?j) (63 - i - ?k)] => rewrite (Z.testbit_neg_r (str j) (63 - i - k)) by lia
    end; rewrite ?orb_false_r, ?orb_false_l; done.
Qed.

(** [__reverse_ffs] halves the word until one bit is left. *)
Lemma upper_half h w : 0 < h -> 0 <= w < 2 ^ (2 * h) -> (Z.land w (Z.shiftl (Z.ones h) h) =? 0) = (w <? 2 ^ h).
Proof.
  intros Hh Hw. assert (Hl : Z.land w (Z.shiftl (Z.ones h) h) = Z.shiftl (Z.shiftr w h) h).
  { apply Z.bits_inj'. intros k Hk. rewrite Z.land_spec, !Z.shiftl_spec by lia. destruct (Z.ltb_spec k h); [by rewrite !(Z.testbit_neg_r _ (k - h)), andb_false_r by lia|].
    rewrite Z.shiftr_spec by lia. replace (k - h + h) with k by lia. rewrite Z.testbit_ones_nonneg by lia. destruct (Z.ltb_spec (k - h) h); [by rewrite andb_true_r|].
    rewrite andb_false_r. destruct (decide (w = 0)) as [->|]; [by rewrite Z.bits_0|]. symmetry. apply Z.bits_above_log2; [lia|].
    apply Z.log2_lt_pow2; [lia|]. assert (2 ^ (2 * h) <= 2 ^ k) by (apply Z.pow_le_mono_r; lia). lia. }
  rewrite Hl, Z.shiftl_mul_pow2, Z.shiftr_div_pow2 by lia. assert (0 < 2 ^ h) by (apply Z.pow_pos_nonneg; lia).
  destruct (Z.ltb_spec w (2 ^ h)); [by rewrite Z.div_small by lia|]. apply Z.eqb_neq. assert (1 <= w / 2 ^ h) by (apply Z.div_le_lower_bound; lia). nia.
Qed.

Lemma ffs_step h mask num w : mask = Z.shiftl (Z.ones h) h -> 0 < h -> 0 < w < 2 ^ (2 * h) ->
  let r := if Z.land w mask =? 0 then (num + h, w) else (num, Z.shiftr w h) in
  0 < r.2 < 2 ^ h /\ r.1 + (h - 1 - Z.log2 r.2) = num + (2 * h - 1 - Z.log2 w).
Proof.
  intros -> Hh Hw. rewrite upper_half by lia. assert (0 < 2 ^ h) by (apply Z.pow_pos_nonneg; lia). destruct (Z.ltb_spec w (2 ^ h)); cbn; [lia|].
  assert (h <= Z.log2 w) by (rewrite <-(Z.log2_pow2 h) by lia; apply Z.log2_le_mono; lia). split.
  - rewrite Z.shiftr_div_pow2 by lia. split; [apply Z.div_str_pos; lia|]. apply Z.div_lt_upper_bound; [lia|]. rewrite <-Z.pow_add_r, Z.add_diag by lia; lia.
  - rewrite Z.log2_shiftr by lia. rewrite Z.max_r by lia. lia.
Qed.

Lemma reverse_ffs_spec w : 0 < w < 2 ^ 64 -> __reverse_ffs w = 63 - Z.log2 w.
Proof.
  intros Hw. unfold __reverse_ffs. change (if Z.land w 0xffffffff00000000 =? 0 then (32, w) else (0, Z.shiftr w 32)) with (if Z.land w 0xffffffff00000000 =? 0 then (0 + 32, w) else (0, Z.shiftr w 32)).
  destruct (ffs_step 32 0xffffffff00000000 0 w eq_refl ltac:(lia) Hw) as [H1 E1]. destruct (if Z.land w 0xffffffff00000000 =? 0 then (0 + 32, w) else _) as [n1 w1]. cbn [fst snd] in *.
  destruct (ffs_step 16 0xffff0000 n1 w1 eq_refl ltac:(lia) H1) as [H2 E2]. destruct (if Z.land w1 0xffff0000 =? 0 then _ else _) as [n2 w2]. cbn [fst snd] in *.
  destruct (ffs_step 8 0xff00 n2 w2 eq_refl ltac:(lia) H2) as [H3 E3]. destruct (if Z.land w2 0xff00 =? 0 then _ else _) as [n3 w3]. cbn [fst snd] in *.
  destruct (ffs_step 4 0xf0 n3 w3 eq_refl ltac:(lia) H3) as [H4 E4]. destruct (if Z.land w3 0xf0 =? 0 then _ else _) as [n4 w4]. cbn [fst snd] in *.
  destruct (ffs_step 2 0xc n4 w4 eq_refl ltac:(lia) H4) as [H5 E5]. destruct (if Z.land w4 0xc =? 0 then _ else _) as [n5 w5]. cbn [fst snd] in *.
  destruct (ffs_step 1 0x2 n5 w5 eq_refl ltac:(lia) H5) as [H6 E6]. destruct (Z.land w5 2 =? 0); cbn [fst snd] in *.
  - assert (w5 = 1) by lia. subst. cbn in *. lia.
  - assert (Hs : Z.shiftr w5 1 = 1) by lia. rewrite Hs in *. cbn in E6. lia.
Qed.

(** ** One word *)

Section word.
Context (addr : list Z) (bytes_ok : forall b, b ∈ addr -> 0 <= b < 256).

Lemma byte_at_range i : 0 <= byte_at addr i < 256.
Proof. unfold byte_at. destruct (addr !! Z.to_nat i) eqn:E; cbn; [|lia]. apply bytes_ok. by eapply list_elem_of_lookup_2. Qed.

Notation bit i := (f2fs_test_bit i addr).

Lemma word_bit p i : 0 <= p -> 0 <= i < 64 -> Z.testbit (__reverse_ulong (word_bytes addr p)) (63 - i) = bit (64 * p + i).
Proof.
  intros Hp Hi. rewrite reverse_ulong_bit by (try done; intros; apply byte_at_range). rewrite test_bit_testbit by lia. unfold word_bytes.
  replace (64 * p + i) with (i + (8 * p) * 8) by lia. rewrite Z.div_add, Z.mod_add by lia. by rewrite Z.add_comm.
Qed.

Lemma reverse_range str : (forall j, 0 <= str j < 256) -> 0 <= __reverse_ulong str < 2 ^ 64.
Proof.
  intros Hs. assert (Hn : 0 <= __reverse_ulong str).
  { rewrite reverse_ulong_eq. cbn [fold_left]. repeat (apply Z.lor_nonneg; split; [|apply Z.shiftl_nonneg, Hs]). done. }
  split; [done|]. destruct (decide (__reverse_ulong str = 0)) as [->|]; [lia|]. apply Z.log2_lt_pow2; [lia|]. destruct (Z.lt_ge_cases (Z.log2 (__reverse_ulong str)) 64); [done|exfalso].
  assert (Hb : Z.testbit (__reverse_ulong str) (Z.log2 (__reverse_ulong str)) = true) by (apply Z.bit_log2; lia). set (k := Z.log2 _) in *. clearbody k.
  rewrite reverse_ulong_eq in Hb. cbn [fold_left] in Hb. rewrite !Z.lor_spec, !Z.shiftl_spec, Z.bits_0 in Hb by lia.
  rewrite !byte_high in Hb by (auto; lia). done.
Qed.

(** A word is zero, or full, as its bits are. *)
Lemma le_val_zero l : (forall b, b ∈ l -> 0 <= b < 256) -> le_val l = 0 -> forall b, b ∈ l -> b = 0.
Proof.
  induction l as [|x l IH]; intros Hl E b Hb; [set_solver|]. cbn in E. assert (0 <= le_val l) by (clear -Hl; induction l as [|y l IH]; cbn; [lia|]; specialize (Hl y) as Hy; 
    assert (0 <= le_val l) by (apply IH; set_solver); set_unfold; specialize (Hy ltac:(auto)); lia).
  assert (0 <= x < 256) by set_solver. apply elem_of_cons in Hb as [->|Hb]; [lia|]. apply IH; [set_solver|lia|done].
Qed.
Lemma le_val_range l : (forall b, b ∈ l -> 0 <= b < 256) -> 0 <= le_val l < 2 ^ (8 * Z.of_nat (length l)).
Proof.
  induction l as [|x l IH]; intros Hl; cbn [le_val length]; [lia|]. assert (0 <= x < 256) by set_solver. specialize (IH ltac:(set_solver)).
  replace (8 * Z.of_nat (S (length l))) with (8 + 8 * Z.of_nat (length l)) by lia. rewrite Z.pow_add_r by lia. lia.
Qed.
Lemma le_val_full l : (forall b, b ∈ l -> 0 <= b < 256) -> le_val l = 2 ^ (8 * Z.of_nat (length l)) - 1 -> forall b, b ∈ l -> b = 255.
Proof.
  induction l as [|x l IH]; intros Hl E b Hb; [set_solver|]. cbn [le_val length] in E. replace (8 * Z.of_nat (S (length l))) with (8 + 8 * Z.of_nat (length l)) in E by lia.
  rewrite Z.pow_add_r in E by lia. change (2 ^ 8) with 256 in E. assert (0 <= x < 256) by set_solver. pose proof (le_val_range l ltac:(set_solver)).
  apply elem_of_cons in Hb as [->|Hb]; [lia|]. apply IH; [set_solver|lia|done].
Qed.

Lemma word_elem p j : 0 <= p -> 0 <= j < 8 -> byte_at addr (8 * p + j) = 0 \/ byte_at addr (8 * p + j) ∈ take 8 (drop (8 * Z.to_nat p) addr).
Proof.
  intros Hp Hj. unfold byte_at. destruct (addr !! Z.to_nat (8 * p + j)) eqn:E; cbn; [right|by left]. apply list_elem_of_lookup_2 with (Z.to_nat j).
  rewrite lookup_take, decide_True by lia. rewrite lookup_drop, <-E. f_equal. lia.
Qed.
Lemma in_word p b : b ∈ take 8 (drop (8 * Z.to_nat p) addr) -> 0 <= b < 256.
Proof. intros Hb. apply bytes_ok. apply elem_of_take in Hb as (i & Hb & _). rewrite lookup_drop in Hb. by eapply list_elem_of_lookup_2. Qed.

Lemma word_zero_bits p i : 0 <= p -> word_at addr p = 0 -> 0 <= i < 64 -> bit (64 * p + i) = false.
Proof.
  intros Hp E Hi. rewrite test_bit_testbit by lia. replace (64 * p + i) with (i + (8 * p) * 8) by lia. rewrite Z.div_add, Z.mod_add by lia.
  assert (Hq : 0 <= i / 8 < 8) by (split; [apply Z.div_pos; lia|apply Z.div_lt_upper_bound; lia]). rewrite Z.add_comm.
  destruct (word_elem p (i / 8) Hp Hq) as [->|Hb]; [apply Z.bits_0|]. rewrite (le_val_zero _ (in_word p) E _ Hb). apply Z.bits_0.
Qed.
Lemma word_full_bits p i : 0 <= p -> word_at addr p = ULONG_MAX -> 0 <= i < 64 -> bit (64 * p + i) = true.
Proof.
  intros Hp E Hi. assert (Hlen : length (take 8 (drop (8 * Z.to_nat p) addr)) = 8%nat).
  { pose proof (le_val_range _ (in_word p)) as Hr. unfold word_at in E. rewrite E in Hr. pose proof (length_take_le (drop (8 * Z.to_nat p) addr) 8). rewrite length_take in *.
    set (n := (8 `min` _)%nat) in *. assert (Hn : (n <= 8)%nat) by (unfold n; lia). clearbody n. unfold ULONG_MAX in Hr. destruct (decide (n = 8%nat)); [done|exfalso].
    assert (2 ^ (8 * Z.of_nat n) <= 2 ^ 56) by (apply Z.pow_le_mono_r; lia). lia. }
  rewrite test_bit_testbit by lia. replace (64 * p + i) with (i + (8 * p) * 8) by lia. rewrite Z.div_add, Z.mod_add by lia.
  assert (Hq : 0 <= i / 8 < 8) by (split; [apply Z.div_pos; lia|apply Z.div_lt_upper_bound; lia]). rewrite Z.add_comm.
  assert (Hb : byte_at addr (8 * p + i / 8) ∈ take 8 (drop (8 * Z.to_nat p) addr)).
  { apply list_elem_of_lookup_2 with (Z.to_nat (i / 8)). destruct (lookup_lt_is_Some_2 (take 8 (drop (8 * Z.to_nat p) addr)) (Z.to_nat (i / 8))) as [b Hb]; [lia|]. rewrite Hb. f_equal.
    rewrite lookup_take, decide_True, lookup_drop in Hb by lia. unfold byte_at. replace (Z.to_nat (8 * p + i / 8)) with (8 * Z.to_nat p + Z.to_nat (i / 8))%nat by lia. by rewrite Hb. }
  rewrite (le_val_full _ (in_word p) ltac:(rewrite Hlen; exact E) _ Hb). change 255 with (Z.ones 8). apply Z.ones_spec_low. pose proof (Z.mod_pos_bound i 8). lia.
Qed.

(** ** The searches *)

Lemma first_of_word tmp Q : 0 < tmp < 2 ^ 64 -> (forall i, 0 <= i < 64 -> Z.testbit tmp (63 - i) = Q i) ->
  let f := __reverse_ffs tmp in 0 <= f < 64 /\ Q f = true /\ forall i, 0 <= i < f -> Q i = false.
Proof.
  intros Ht HQ. cbn zeta. rewrite reverse_ffs_spec by done. pose proof (Z.log2_nonneg tmp). assert (Z.log2 tmp < 64) by (apply Z.log2_lt_pow2; lia).
  split; [lia|]. split; [rewrite <-HQ by lia; replace (63 - (63 - Z.log2 tmp)) with (Z.log2 tmp) by lia; apply Z.bit_log2; lia|].
  intros i Hi. rewrite <-HQ by lia. apply Z.bits_above_log2; lia.
Qed.
Lemma none_in_word Q : (forall i, 0 <= i < 64 -> Z.testbit 0 (63 - i) = Q i) -> forall i, 0 <= i < 64 -> Q i = false.
Proof. intros HQ i Hi. rewrite <-HQ by done. apply Z.bits_0. Qed.

Lemma is_next_extend P size o o' r : is_next P size o' r -> o <= o' -> (forall i, o <= i < o' -> P i = false) -> is_next P size o r.
Proof. intros [H1 H2 H3] Ho Hb. constructor; [lia| |done]. intros i Hi. destruct (decide (i < o')); [apply Hb|apply H2]; lia. Qed.

Lemma ulong_max_bit k : 0 <= k -> Z.testbit ULONG_MAX k = (k <? 64).
Proof. intros Hk. change ULONG_MAX with (Z.ones 64). by rewrite Z.testbit_ones_nonneg by lia. Qed.
Lemma shr_max_bit n i : 0 <= n -> 0 <= i < 64 -> Z.testbit (Z.shiftr ULONG_MAX n) (63 - i) = (n <=? i).
Proof. intros Hn Hi. rewrite Z.shiftr_spec, ulong_max_bit by lia. zbool; lia. Qed.
Lemma shl_max_bit n i : 0 <= n <= 64 -> 0 <= i < 64 -> Z.testbit (u64 (Z.shiftl ULONG_MAX (64 - n))) (63 - i) = (i <? n).
Proof.
  intros Hn Hi. unfold u64. rewrite Z.mod_pow2_bits_low, Z.shiftl_spec by lia. destruct (Z.ltb_spec i n); [rewrite ulong_max_bit by lia; zbool; lia|].
  apply Z.testbit_neg_r. lia.
Qed.
Lemma land_range a b : 0 <= a < 2 ^ 64 -> 0 <= b -> 0 <= Z.land a b < 2 ^ 64.
Proof.
  intros Ha Hb. assert (0 <= Z.land a b) by (apply Z.land_nonneg; lia). split; [done|]. destruct (decide (Z.land a b = 0)); [lia|]. apply Z.log2_lt_pow2; [lia|].
  pose proof (Z.log2_land a b ltac:(lia) ltac:(lia)). assert (a <> 0) by (intros ->; by rewrite Z.land_0_l in *). assert (Z.log2 a < 64) by (apply Z.log2_lt_pow2; lia). lia.
Qed.
Lemma lor_range a b : 0 <= a < 2 ^ 64 -> 0 <= b < 2 ^ 64 -> 0 <= Z.lor a b < 2 ^ 64.
Proof.
  intros Ha Hb. assert (0 <= Z.lor a b) by (apply Z.lor_nonneg; lia). split; [done|]. destruct (decide (Z.lor a b = 0)); [lia|]. apply Z.log2_lt_pow2; [lia|].
  rewrite Z.log2_lor by lia. assert (forall x, 0 <= x < 2 ^ 64 -> Z.log2 x < 64) as Hl; [|by apply Z.max_lub_lt; apply Hl].
  intros x Hx. destruct (decide (x = 0)) as [->|]; [done|]. apply Z.log2_lt_pow2; lia.
Qed.
Lemma shr_max_range n : 0 <= n -> 0 <= Z.shiftr ULONG_MAX n < 2 ^ 64.
Proof.
  intros Hn. rewrite Z.shiftr_div_pow2 by lia. assert (0 < 2 ^ n) by (apply Z.pow_pos_nonneg; lia). unfold ULONG_MAX. split; [apply Z.div_pos; lia|].
  apply Z.div_lt_upper_bound; [lia|]. nia.
Qed.

Lemma inside result p size : result = 64 * p + size -> result mod 64 = 0 -> result <= 8 * Z.of_nat (length addr) -> 0 <= p -> 0 < size -> word_inside addr p = true.
Proof. intros Er Hm Hin Hp Hs. unfold word_inside. apply andb_true_iff. rewrite !Z.leb_le. pose proof (Z.div_mod result 64 ltac:(lia)). lia. Qed.
Lemma rev_next_loop_spec fuel : forall result p size offset, result = 64 * p + size -> result mod 64 = 0 -> result <= 8 * Z.of_nat (length addr) -> 0 <= p -> 0 <= offset < 64 -> offset < size -> size <= 64 * Z.of_nat fuel ->
  exists r, rev_next_loop fuel addr result p size offset = Some r /\ is_next (fun i => bit i) result (64 * p + offset) r.
Proof.
  induction fuel as [|fuel IH]; intros result p size offset Er Hm Hin Hp Ho Hs Hf; [lia|]. cbn [rev_next_loop]. change BITS_PER_LONG with 64. rewrite (inside result p size) by (done || lia). cbn [negb].
  set (pass := if size <=? 64 then _ else _).
  assert (Hpass : (forall i, offset <= i < 64 -> i < size -> bit (64 * p + i) = false) -> exists r, pass = Some r /\ is_next (fun i => bit i) result (64 * p + offset) r).
  { intros Hz. unfold pass. destruct (Z.leb_spec size 64).
    - exists result. split; [done|]. constructor; [lia| |lia]. intros i Hi. replace i with (64 * p + (i - 64 * p)) by lia. apply Hz; lia.
    - destruct (IH result (p + 1) (size - 64) 0) as (r & -> & Hn); [lia..|]. exists r. split; [done|]. eapply is_next_extend; [exact Hn|lia|].
      intros i Hi. replace i with (64 * p + (i - 64 * p)) by lia. apply Hz; lia. }
  destruct (Z.eqb_spec (word_at addr p) 0) as [Ew|_]; [apply Hpass; intros; by apply word_zero_bits; [| |lia]|].
  set (tmp := if size <? 64 then _ else _). pose proof (reverse_range (word_bytes addr p) ltac:(intros; apply byte_at_range)) as Hw.
  pose proof (land_range _ _ Hw (proj1 (shr_max_range offset ltac:(lia)))) as Hw1.
  assert (Hb : forall i, 0 <= i < 64 -> Z.testbit tmp (63 - i) = bit (64 * p + i) && (offset <=? i) && (i <? size)).
  { intros i Hi. unfold tmp. destruct (Z.ltb_spec size 64).
    - by rewrite !Z.land_spec, word_bit, shr_max_bit, shl_max_bit by lia.
    - rewrite Z.land_spec, word_bit, shr_max_bit by lia. replace (i <? size) with true by (symmetry; apply Z.ltb_lt; lia). by rewrite andb_true_r. }
  assert (Ht : 0 <= tmp < 2 ^ 64). { unfold tmp. destruct (size <? 64); [apply land_range; [done|apply u64_range]|done]. }
  clearbody tmp. destruct (Z.eqb_spec tmp 0) as [->|Hne]; cbn [negb].
  - apply Hpass. intros i Hi Hi2. pose proof (none_in_word _ Hb i ltac:(lia)) as Hf0. cbn in Hf0. destruct (bit (64 * p + i)); [|done]. zbool; cbn in Hf0; lia.
  - destruct (first_of_word tmp _ ltac:(lia) Hb) as (Hfr & Hft & Hfb). set (f := __reverse_ffs tmp) in *. cbn in Hft. apply andb_true_iff in Hft as [[Hbt Hfo%Z.leb_le]%andb_true_iff Hfs%Z.ltb_lt].
    exists (result - size + f). split; [done|]. replace (result - size + f) with (64 * p + f) by lia. constructor; [lia| |done].
    intros i Hi. specialize (Hfb (i - 64 * p) ltac:(lia)). cbn in Hfb. replace (64 * p + (i - 64 * p)) with i in Hfb by lia. destruct (bit i); [|done]. zbool; cbn in Hfb; lia.
Qed.

Lemma rev_next_zero_loop_spec fuel : forall result p size offset, result = 64 * p + size -> result mod 64 = 0 -> result <= 8 * Z.of_nat (length addr) -> 0 <= p -> 0 <= offset < 64 -> offset < size -> size <= 64 * Z.of_nat fuel ->
  exists r, rev_next_zero_loop fuel addr result p size offset = Some r /\ is_next (fun i => negb (bit i)) result (64 * p + offset) r.
Proof.
  induction fuel as [|fuel IH]; intros result p size offset Er Hm Hin Hp Ho Hs Hf; [lia|]. cbn [rev_next_zero_loop]. change BITS_PER_LONG with 64. rewrite (inside result p size) by (done || lia). cbn [negb].
  set (pass := if size <=? 64 then _ else _).
  assert (Hpass : (forall i, offset <= i < 64 -> i < size -> bit (64 * p + i) = true) -> exists r, pass = Some r /\ is_next (fun i => negb (bit i)) result (64 * p + offset) r).
  { intros Hz. unfold pass. destruct (Z.leb_spec size 64).
    - exists result. split; [done|]. constructor; [lia| |lia]. intros i Hi. replace i with (64 * p + (i - 64 * p)) by lia. by rewrite Hz by lia.
    - destruct (IH result (p + 1) (size - 64) 0) as (r & -> & Hn); [lia..|]. exists r. split; [done|]. eapply is_next_extend; [exact Hn|lia|].
      intros i Hi. replace i with (64 * p + (i - 64 * p)) by lia. by rewrite Hz by lia. }
  destruct (Z.eqb_spec (word_at addr p) ULONG_MAX) as [Ew|_]; [apply Hpass; intros; by apply word_full_bits; [| |lia]|].
  pose proof (reverse_range (word_bytes addr p) ltac:(intros; apply byte_at_range)) as Hw. set (t1 := if negb (offset =? 0) then _ else _).
  assert (Hw1 : 0 <= t1 < 2 ^ 64). { unfold t1. destruct (negb (offset =? 0)); [apply lor_range; [done|apply u64_range]|done]. }
  assert (Hb1 : forall i, 0 <= i < 64 -> Z.testbit t1 (63 - i) = bit (64 * p + i) || (i <? offset)).
  { intros i Hi. unfold t1. destruct (Z.eqb_spec offset 0) as [->|]; cbn [negb].
    - rewrite word_bit by lia. replace (i <? 0) with false by (symmetry; apply Z.ltb_ge; lia). by rewrite orb_false_r.
    - by rewrite Z.lor_spec, word_bit, shl_max_bit by lia. }
  clearbody t1. set (tmp := if size <? 64 then _ else _).
  assert (Ht : 0 <= tmp < 2 ^ 64). { unfold tmp. destruct (Z.ltb_spec size 64); [apply lor_range; [done|apply shr_max_range; lia]|done]. }
  assert (Hb : forall i, 0 <= i < 64 -> Z.testbit (Z.land (Z.lnot tmp) ULONG_MAX) (63 - i) = negb (bit (64 * p + i)) && (offset <=? i) && (i <? size)).
  { intros i Hi. rewrite Z.land_spec, Z.lnot_spec, ulong_max_bit by lia. replace (63 - i <? 64) with true by (symmetry; apply Z.ltb_lt; lia). rewrite andb_true_r. unfold tmp. destruct (Z.ltb_spec size 64).
    - rewrite Z.lor_spec, Hb1, shr_max_bit by lia. destruct (bit (64 * p + i)); zbool; cbn; lia.
    - rewrite Hb1 by lia. destruct (bit (64 * p + i)); zbool; cbn; lia. }
  clearbody tmp. unfold __reverse_ffz. assert (Hl : Z.land (Z.lnot tmp) ULONG_MAX = ULONG_MAX - tmp).
  { apply Z.bits_inj'. intros k Hk. change ULONG_MAX with (Z.ones 64). rewrite Z.sub_nocarry_ldiff; [by rewrite Z.ldiff_spec, Z.land_spec, Z.lnot_spec, andb_comm by lia|].
    apply Z.ldiff_ones_r_low; [lia|]. destruct (decide (tmp = 0)) as [->|]; [done|]. apply Z.log2_lt_pow2; lia. }
  destruct (Z.eqb_spec tmp ULONG_MAX) as [->|Hne]; cbn [negb].
  - apply Hpass. rewrite Hl, Z.sub_diag in Hb. intros i Hi Hi2. pose proof (none_in_word _ Hb i ltac:(lia)) as Hf0. cbn in Hf0. destruct (bit (64 * p + i)); [done|]. zbool; cbn in Hf0; lia.
  - destruct (first_of_word (Z.land (Z.lnot tmp) ULONG_MAX) _ ltac:(rewrite Hl; unfold ULONG_MAX in *; lia) Hb) as (Hfr & Hft & Hfb). set (f := __reverse_ffs _) in *.
    cbn in Hft. apply andb_true_iff in Hft as [[Hbt Hfo%Z.leb_le]%andb_true_iff Hfs%Z.ltb_lt].
    exists (result - size + f). split; [done|]. replace (result - size + f) with (64 * p + f) by lia. constructor; [lia| |done].
    intros i Hi. specialize (Hfb (i - 64 * p) ltac:(lia)). cbn in Hfb. replace (64 * p + (i - 64 * p)) with i in Hfb by lia. destruct (bit i); [done|]. zbool; cbn in Hfb; lia.
Qed.

Lemma align_down offset : 0 <= offset -> Z.land offset (Z.lnot (BITS_PER_LONG - 1)) = 64 * (offset / 64).
Proof.
  intros Ho. change (BITS_PER_LONG - 1) with (Z.ones 6). rewrite <-Z.ldiff_land, Z.ldiff_ones_r, Z.shiftl_mul_pow2, Z.shiftr_div_pow2 by lia. change (2 ^ 6) with 64. lia.
Qed.

(** C24: The word-wise searches of a block map agree with a search bit by bit: in a map of whole
    words, as the code demands, they return from any offset the first bit below the size that is set, or clear,
    or the size, and they read no word outside of the map. *)
Theorem find_rev_next_bits size offset : 0 <= offset -> size mod BITS_PER_LONG = 0 -> size <= 8 * Z.of_nat (length addr) ->
  __find_rev_next_bit addr size offset = Some (next_bit (fun i => f2fs_test_bit i addr) size offset) /\
  __find_rev_next_zero_bit addr size offset = Some (next_bit (fun i => negb (f2fs_test_bit i addr)) size offset).
Proof.
  intros Ho Hm Hin. unfold __find_rev_next_bit, __find_rev_next_zero_bit. change (size mod 64 = 0) in Hm. destruct (Z.leb_spec size offset) as [Hle|Hlt].
  { unfold next_bit. destruct (Z.leb_spec size offset); [done|lia]. }
  rewrite align_down by done. change BITS_PER_LONG with 64. pose proof (Z.div_mod offset 64 ltac:(lia)). pose proof (Z.mod_pos_bound offset 64 ltac:(lia)).
  pose proof (Z.div_mod size 64 ltac:(lia)). pose proof (Z.mod_pos_bound size 64 ltac:(lia)). assert (0 <= offset / 64) by (apply Z.div_pos; lia). assert (0 <= size / 64) by (apply Z.div_pos; lia).
  split.
  - destruct (rev_next_loop_spec (S (Z.to_nat (size / 64))) size (offset / 64) (size - 64 * (offset / 64)) (offset mod 64)) as (r & -> & Hn); [lia..|].
    f_equal. eapply is_next_unique; [exact Hn|]. replace (64 * (offset / 64) + offset mod 64) with offset by lia. by apply next_bit_is_next.
  - destruct (rev_next_zero_loop_spec (S (Z.to_nat (size / 64))) size (offset / 64) (size - 64 * (offset / 64)) (offset mod 64)) as (r & -> & Hn); [lia..|].
    f_equal. eapply is_next_unique; [exact Hn|]. replace (64 * (offset / 64) + offset mod 64) with offset by lia. by apply next_bit_is_next.
Qed.
End word.
