(* ===== verification/SegState.v ===== *)
(** * Segments: valid blocks, free and dirty segments (segment.c, segment.h)

    The main area is an array of segments of blocks, grouped into sections and zones.
    For each segment the maps of the blocks that are valid now and that were valid at
    the last checkpoint are kept, for the area the maps of segments in use, and lists
    of segments with holes (dirty) or without valid blocks (prefree).  A device
    without zones of its own is modelled. *)

From S2P Require Import Prelude FreeNid NatCache SegBitmap.

(** The geometry of the super block, as [sanity_check_raw_super] accepts it. *)
Class SegGeometry `{NatFormat} := {
  log_blocks_per_seg : Z; segs_per_sec : Z; secs_per_zone : Z; MAIN_SECS : Z;
  SEG0_BLKADDR : Z; start_segno : Z; ssa_blkaddr : Z; COMPRESS_ADDR : Z;
  log_range : 0 <= log_blocks_per_seg <= 9;
  sec_pos : 0 < segs_per_sec /\ 0 < secs_per_zone /\ 0 < MAIN_SECS;
  area_pos : 0 <= SEG0_BLKADDR /\ 0 <= start_segno;
  area_end : SEG0_BLKADDR + (start_segno + MAIN_SECS * segs_per_sec) * 2 ^ log_blocks_per_seg < 2 ^ 32 - 2;
  area_addrs : forall a, SEG0_BLKADDR + start_segno * 2 ^ log_blocks_per_seg <= a < 2 ^ 32 - 2 -> __is_valid_data_blkaddr COMPRESS_ADDR a = true
}.

(** ** Data *)

(** [struct seg_entry]; the counters have ten bits. *)
Record seg_entry := {
  se_type : Z; valid_blocks : Z; ckpt_valid_blocks : Z; cur_valid_map : gset Z; ckpt_valid_map : gset Z; discard_map : gset Z; se_mtime : Z
}.
Definition u10 (z : Z) : Z := z mod 2 ^ 10.

(** [struct f2fs_summary] and [struct curseg_info] with its cached summary block. *)
Record f2fs_summary := { sum_nid : Z; sum_version : Z; ofs_in_node : Z }.
Record curseg_info := {
  sum_blk : Z -> f2fs_summary; entry_type : Z; alloc_type : Z; seg_type : Z; segno : Z; next_blkoff : Z; zone : Z; next_segno : Z; inited : bool
}.

(** [struct sit_info], [struct free_segmap_info] and [struct dirty_seglist_info]; what
    victim selection keeps is apart. *)
Record sit_info := { sentries : gmap Z seg_entry; sec_entries : gmap Z Z; written_valid_blocks : Z; dirty_sentries_bitmap : gset Z; dirty_sentries : Z }.
Record free_segmap_info := { free_segmap : gset Z; free_secmap : gset Z; free_segments : Z; free_sections : Z }.
Record dirty_seglist_info := { dirty_segmap : Z -> gset Z; nr_dirty : Z -> Z; dirty_secmap : gset Z }.
Record victim_info := {
  victim_secmap : gset Z; last_victim : Z -> Z; cur_victim_sec : Z; next_victim_seg : Z -> Z;
  min_mtime : Z; max_mtime : Z; dirty_min_mtime : Z; dirty_max_mtime : Z
}.

(** The segment manager, with the pages of the summary area and the counters and flags
    of the super block it changes. *)
Record seg_sys := {
  sit : sit_info; fre : free_segmap_info; dirt : dirty_seglist_info; vict : victim_info; CURSEG_I : Z -> curseg_info;
  ssa : Z -> Z -> f2fs_summary; discard_blks : Z; unusable_block_count : Z; CP_DISABLED : bool; CP_ERROR : bool
}.

Definition with_sit (s : seg_sys) (x : sit_info) : seg_sys :=
  {| sit := x; fre := fre s; dirt := dirt s; vict := vict s; CURSEG_I := CURSEG_I s; ssa := ssa s;
     discard_blks := discard_blks s; unusable_block_count := unusable_block_count s; CP_DISABLED := CP_DISABLED s; CP_ERROR := CP_ERROR s |}.
Definition with_fre (s : seg_sys) (x : free_segmap_info) : seg_sys :=
  {| sit := sit s; fre := x; dirt := dirt s; vict := vict s; CURSEG_I := CURSEG_I s; ssa := ssa s;
     discard_blks := discard_blks s; unusable_block_count := unusable_block_count s; CP_DISABLED := CP_DISABLED s; CP_ERROR := CP_ERROR s |}.
Definition with_dirt (s : seg_sys) (x : dirty_seglist_info) : seg_sys :=
  {| sit := sit s; fre := fre s; dirt := x; vict := vict s; CURSEG_I := CURSEG_I s; ssa := ssa s;
     discard_blks := discard_blks s; unusable_block_count := unusable_block_count s; CP_DISABLED := CP_DISABLED s; CP_ERROR := CP_ERROR s |}.
Definition with_vict (s : seg_sys) (x : victim_info) : seg_sys :=
  {| sit := sit s; fre := fre s; dirt := dirt s; vict := x; CURSEG_I := CURSEG_I s; ssa := ssa s;
     discard_blks := discard_blks s; unusable_block_count := unusable_block_count s; CP_DISABLED := CP_DISABLED s; CP_ERROR := CP_ERROR s |}.
Definition with_counts (s : seg_sys) (discard unusable : Z) : seg_sys :=
  {| sit := sit s; fre := fre s; dirt := dirt s; vict := vict s; CURSEG_I := CURSEG_I s; ssa := ssa s;
     discard_blks := discard; unusable_block_count := unusable; CP_DISABLED := CP_DISABLED s; CP_ERROR := CP_ERROR s |}.
Definition with_ssa (s : seg_sys) (x : Z -> Z -> f2fs_summary) (err : bool) : seg_sys :=
  {| sit := sit s; fre := fre s; dirt := dirt s; vict := vict s; CURSEG_I := CURSEG_I s; ssa := x;
     discard_blks := discard_blks s; unusable_block_count := unusable_block_count s; CP_DISABLED := CP_DISABLED s; CP_ERROR := err |}.
(** A value of a map or of an array replaced. *)
Definition upd {A} (f : Z -> A) (i : Z) (x : A) : Z -> A := fun j => if decide (j = i) then x else f j.
Definition with_curseg (s : seg_sys) (type : Z) (c : curseg_info) : seg_sys :=
  {| sit := sit s; fre := fre s; dirt := dirt s; vict := vict s; CURSEG_I := upd (CURSEG_I s) type c; ssa := ssa s;
     discard_blks := discard_blks s; unusable_block_count := unusable_block_count s; CP_DISABLED := CP_DISABLED s; CP_ERROR := CP_ERROR s |}.
Definition put_se (s : seg_sys) (segno : Z) (se : seg_entry) : seg_sys :=
  with_sit s {| sentries := <[segno := se]> (sentries (sit s)); sec_entries := sec_entries (sit s); written_valid_blocks := written_valid_blocks (sit s);
                dirty_sentries_bitmap := dirty_sentries_bitmap (sit s); dirty_sentries := dirty_sentries (sit s) |}.

(** Log types, allocation types and the kinds of dirty lists. *)
Definition CURSEG_HOT_DATA : Z := 0.
Definition CURSEG_WARM_DATA : Z := 1.
Definition CURSEG_COLD_DATA : Z := 2.
Definition CURSEG_HOT_NODE : Z := 3.
Definition CURSEG_WARM_NODE : Z := 4.
Definition CURSEG_COLD_NODE : Z := 5.
Definition NR_PERSISTENT_LOG : Z := 6.
Definition CURSEG_COLD_DATA_PINNED : Z := 6.
Definition CURSEG_ALL_DATA_ATGC : Z := 7.
Definition NO_CHECK_TYPE : Z := 8.
Definition LFS : Z := 0.
Definition SSR : Z := 1.
Definition AT_SSR : Z := 2.
Definition DIRTY : Z := 6.
Definition PRE : Z := 7.
Definition NULL_SEGNO : Z := 2 ^ 32 - 1.
Definition IS_DATASEG (t : Z) : bool := t <=? CURSEG_COLD_DATA.
Definition IS_NODESEG (t : Z) : bool := (CURSEG_HOT_NODE <=? t) && (t <=? CURSEG_COLD_NODE).
Definition curseg_types : list Z := [0; 1; 2; 3; 4; 5; 6; 7].

Section segs.
Context `{SegGeometry}.

(** ** Addresses *)

Definition blks_per_seg : Z := Z.shiftl 1 log_blocks_per_seg.
Definition MAIN_SEGS : Z := MAIN_SECS * segs_per_sec.
Definition START_BLOCK (segno : Z) : Z := SEG0_BLKADDR +! Z.shiftl (segno + start_segno) log_blocks_per_seg.
Definition NEXT_FREE_BLKADDR (c : curseg_info) : Z := START_BLOCK (segno c) +! next_blkoff c.
Definition GET_SEGNO (a : Z) : Z :=
  if negb (__is_valid_data_blkaddr COMPRESS_ADDR a) then NULL_SEGNO else Z.shiftr (a -! SEG0_BLKADDR) log_blocks_per_seg -! start_segno.
Definition GET_BLKOFF_FROM_SEG0 (a : Z) : Z := Z.land (a -! SEG0_BLKADDR) (blks_per_seg - 1).
Definition GET_SEC_FROM_SEG (segno : Z) : Z := if segno =? NULL_SEGNO then NULL_SEGNO else segno / segs_per_sec.
Definition GET_SEG_FROM_SEC (secno : Z) : Z := secno *! segs_per_sec.
Definition GET_ZONE_FROM_SEC (secno : Z) : Z := if secno =? NULL_SEGNO then NULL_SEGNO else secno / secs_per_zone.
Definition GET_ZONE_FROM_SEG (segno : Z) : Z := GET_ZONE_FROM_SEC (GET_SEC_FROM_SEG segno).
Definition GET_SUM_BLOCK (segno : Z) : Z := ssa_blkaddr +! segno.
Definition is_large_section : bool := 1 <? segs_per_sec.
Definition BLKS_PER_SEC : Z := segs_per_sec * blks_per_seg.
Definition f2fs_usable_blks_in_seg (segno : Z) : Z := blks_per_seg.
Definition f2fs_usable_segs_in_sec (segno : Z) : Z := segs_per_sec.

Definition IS_CURSEG (s : seg_sys) (seg : Z) : bool := existsb (fun t => seg =? segno (CURSEG_I s t)) curseg_types.
Definition IS_CURSEC (s : seg_sys) (secno : Z) : bool := existsb (fun t => secno =? segno (CURSEG_I s t) / segs_per_sec) curseg_types.

(** ** Segment entries *)

Definition get_seg_entry (s : seg_sys) (segno : Z) : option seg_entry := sentries (sit s) !! segno.
Definition get_valid_blocks (s : seg_sys) (segno : Z) (use_section : bool) : option Z :=
  if use_section && is_large_section then sec_entries (sit s) !! GET_SEC_FROM_SEG segno else valid_blocks <$> get_seg_entry s segno.

Definition __mark_sit_entry_dirty (s : seg_sys) (segno : Z) : seg_sys * bool :=
  let x := sit s in
  if decide (segno ∈ dirty_sentries_bitmap x) then (s, true)
  else (with_sit s {| sentries := sentries x; sec_entries := sec_entries x; written_valid_blocks := written_valid_blocks x;
                      dirty_sentries_bitmap := {[segno]} ∪ dirty_sentries_bitmap x; dirty_sentries := dirty_sentries x +! 1 |}, false).

Definition set_se_type (se : seg_entry) (t : Z) : seg_entry :=
  {| se_type := t; valid_blocks := valid_blocks se; ckpt_valid_blocks := ckpt_valid_blocks se; cur_valid_map := cur_valid_map se;
     ckpt_valid_map := ckpt_valid_map se; discard_map := discard_map se; se_mtime := se_mtime se |}.
Definition __set_sit_entry_type (s : seg_sys) (type segno : Z) (modified : bool) : option seg_sys :=
  se ← get_seg_entry s segno;
  let s := put_se s segno (set_se_type se type) in
  Some (if modified then (__mark_sit_entry_dirty s segno).1 else s).

Definition set_se_mtime (se : seg_entry) (t : Z) : seg_entry :=
  {| se_type := se_type se; valid_blocks := valid_blocks se; ckpt_valid_blocks := ckpt_valid_blocks se; cur_valid_map := cur_valid_map se;
     ckpt_valid_map := ckpt_valid_map se; discard_map := discard_map se; se_mtime := t |}.
Definition get_segment_mtime (s : seg_sys) (blkaddr : Z) : option Z :=
  if GET_SEGNO blkaddr =? NULL_SEGNO then Some 0 else se_mtime <$> get_seg_entry s (GET_SEGNO blkaddr).
(** [update_segment_mtime]; [ctime] is the value of [get_mtime]. *)
Definition update_segment_mtime (ctime : Z) (s : seg_sys) (blkaddr old_mtime : Z) : option seg_sys :=
  let segno := GET_SEGNO blkaddr in
  let mtime := if negb (old_mtime =? 0) then old_mtime else ctime in
  if segno =? NULL_SEGNO then Some s
  else
    se ← get_seg_entry s segno;
    let m := if se_mtime se =? 0 then mtime else u64 (u64 (se_mtime se * valid_blocks se) + mtime) / (valid_blocks se + 1) in
    let s := put_se s segno (set_se_mtime se m) in
    let v := vict s in
    Some (if max_mtime v <? ctime
          then with_vict s {| victim_secmap := victim_secmap v; last_victim := last_victim v; cur_victim_sec := cur_victim_sec v; next_victim_seg := next_victim_seg v;
                              min_mtime := min_mtime v; max_mtime := ctime; dirty_min_mtime := dirty_min_mtime v; dirty_max_mtime := dirty_max_mtime v |}
          else s).

(** [update_sit_entry]: a block becomes valid ([del] is 1) or invalid ([del] is -1). *)
Context (block_unit_discard : bool).
Definition set_valid (s : seg_sys) (se : seg_entry) (offset new_vblocks : Z) : option (seg_entry * Z * Z) :=
  if decide (offset ∈ cur_valid_map se) then None
  else
    let '(dm, db) := if block_unit_discard && bool_decide (offset ∉ discard_map se) then ({[offset]} ∪ discard_map se, discard_blks s -! 1) else (discard_map se, discard_blks s) in
    let '(cm, cb) := if negb (CP_DISABLED s) && bool_decide (offset ∉ ckpt_valid_map se) then ({[offset]} ∪ ckpt_valid_map se, u10 (ckpt_valid_blocks se + 1))
                     else (ckpt_valid_map se, ckpt_valid_blocks se) in
    Some ({| se_type := se_type se; valid_blocks := u10 new_vblocks; ckpt_valid_blocks := cb; cur_valid_map := {[offset]} ∪ cur_valid_map se;
             ckpt_valid_map := cm; discard_map := dm; se_mtime := se_mtime se |}, db, unusable_block_count s).
Definition clear_valid (s : seg_sys) (se : seg_entry) (offset new_vblocks : Z) : option (seg_entry * Z * Z) :=
  if decide (offset ∈ cur_valid_map se) then
    let un := if CP_DISABLED s && bool_decide (offset ∈ ckpt_valid_map se) then unusable_block_count s +! 1 else unusable_block_count s in
    let '(dm, db) := if block_unit_discard && bool_decide (offset ∈ discard_map se) then (discard_map se ∖ {[offset]}, discard_blks s +! 1) else (discard_map se, discard_blks s) in
    Some ({| se_type := se_type se; valid_blocks := u10 new_vblocks; ckpt_valid_blocks := ckpt_valid_blocks se; cur_valid_map := cur_valid_map se ∖ {[offset]};
             ckpt_valid_map := ckpt_valid_map se; discard_map := dm; se_mtime := se_mtime se |}, db, un)
  else None.
Definition add_ckpt_blocks (se : seg_entry) (offset del : Z) : seg_entry :=
  if decide (offset ∈ ckpt_valid_map se) then se
  else {| se_type := se_type se; valid_blocks := valid_blocks se; ckpt_valid_blocks := u10 (ckpt_valid_blocks se + del); cur_valid_map := cur_valid_map se;
          ckpt_valid_map := ckpt_valid_map se; discard_map := discard_map se; se_mtime := se_mtime se |}.
Definition update_sit_entry (s : seg_sys) (blkaddr del : Z) : option seg_sys :=
  let segno := GET_SEGNO blkaddr in
  se ← get_seg_entry s segno;
  let new_vblocks := valid_blocks se + del in
  let offset := GET_BLKOFF_FROM_SEG0 blkaddr in
  if (new_vblocks <? 0) || (f2fs_usable_blks_in_seg segno <? new_vblocks) then None
  else
    '(se, db, un) ← if 0 <? del then set_valid s se offset new_vblocks else clear_valid s se offset new_vblocks;
    let s := with_counts (put_se s segno (add_ckpt_blocks se offset del)) db un in
    let '(s, _) := __mark_sit_entry_dirty s segno in
    let x := sit s in
    sec ← if is_large_section then v ← sec_entries x !! GET_SEC_FROM_SEG segno; Some (<[GET_SEC_FROM_SEG segno := v +! del]> (sec_entries x)) else Some (sec_entries x);
    Some (with_sit s {| sentries := sentries x; sec_entries := sec; written_valid_blocks := written_valid_blocks x +! del;
                        dirty_sentries_bitmap := dirty_sentries_bitmap x; dirty_sentries := dirty_sentries x |}).

(** [f2fs_is_checkpointed_data]. *)
Definition f2fs_is_checkpointed_data (s : seg_sys) (blkaddr : Z) : option bool :=
  if negb (__is_valid_data_blkaddr COMPRESS_ADDR blkaddr) then Some true
  else se ← get_seg_entry s (GET_SEGNO blkaddr); Some (bool_decide (GET_BLKOFF_FROM_SEG0 blkaddr ∈ ckpt_valid_map se)).

(** ** Dirty segments *)

Definition set_dirty_bit (d : dirty_seglist_info) (t segno : Z) : dirty_seglist_info :=
  if decide (segno ∈ dirty_segmap d t) then d
  else {| dirty_segmap := upd (dirty_segmap d) t ({[segno]} ∪ dirty_segmap d t); nr_dirty := upd (nr_dirty d) t (nr_dirty d t + 1); dirty_secmap := dirty_secmap d |}.
Definition clear_dirty_bit (d : dirty_seglist_info) (t segno : Z) : dirty_seglist_info :=
  if decide (segno ∈ dirty_segmap d t) then
    {| dirty_segmap := upd (dirty_segmap d) t (dirty_segmap d t ∖ {[segno]}); nr_dirty := upd (nr_dirty d) t (nr_dirty d t - 1); dirty_secmap := dirty_secmap d |}
  else d.
Definition set_secmap (d : dirty_seglist_info) (m : gset Z) : dirty_seglist_info := {| dirty_segmap := dirty_segmap d; nr_dirty := nr_dirty d; dirty_secmap := m |}.

Definition __locate_dirty_segment (s : seg_sys) (segno dirty_type : Z) : option seg_sys :=
  if IS_CURSEG s segno then Some s
  else
    let d := set_dirty_bit (dirt s) dirty_type segno in
    if negb (dirty_type =? DIRTY) then Some (with_dirt s d)
    else
      sentry ← get_seg_entry s segno;
      if DIRTY <=? se_type sentry then None
      else
        let d := set_dirty_bit d (se_type sentry) segno in
        if is_large_section then
          let secno := GET_SEC_FROM_SEG segno in
          valid_blocks ← get_valid_blocks s segno true;
          if (valid_blocks =? 0) || (valid_blocks =? BLKS_PER_SEC) then None
          else Some (with_dirt s (if IS_CURSEC s secno then d else set_secmap d ({[secno]} ∪ dirty_secmap d)))
        else Some (with_dirt s d).

Definition clear_victim_bit (v : victim_info) (secno : Z) : victim_info :=
  {| victim_secmap := victim_secmap v ∖ {[secno]}; last_victim := last_victim v; cur_victim_sec := cur_victim_sec v; next_victim_seg := next_victim_seg v;
     min_mtime := min_mtime v; max_mtime := max_mtime v; dirty_min_mtime := dirty_min_mtime v; dirty_max_mtime := dirty_max_mtime v |}.
Definition __remove_dirty_segment (s : seg_sys) (segno dirty_type : Z) : option seg_sys :=
  let s := with_dirt s (clear_dirty_bit (dirt s) dirty_type segno) in
  if negb (dirty_type =? DIRTY) then Some s
  else
    sentry ← get_seg_entry s segno;
    let s := with_dirt s (clear_dirty_bit (dirt s) (se_type sentry) segno) in
    valid_blocks ← get_valid_blocks s segno true;
    let secno := GET_SEC_FROM_SEG segno in
    let s := if valid_blocks =? 0 then with_vict s (clear_victim_bit (vict s) secno) else s in
    let d := dirt s in
    Some (if is_large_section
          then if (valid_blocks =? 0) || (valid_blocks =? BLKS_PER_SEC) then with_dirt s (set_secmap d (dirty_secmap d ∖ {[secno]}))
               else if IS_CURSEC s secno then s else with_dirt s (set_secmap d ({[secno]} ∪ dirty_secmap d))
          else s).

(** [locate_dirty_segment]. *)
Definition locate_dirty_segment (s : seg_sys) (segno : Z) : option seg_sys :=
  if (segno =? NULL_SEGNO) || IS_CURSEG s segno then Some s
  else
    se ← get_seg_entry s segno;
    let usable_blocks := f2fs_usable_blks_in_seg segno in
    if (valid_blocks se =? 0) && (negb (CP_DISABLED s) || (ckpt_valid_blocks se =? usable_blocks))
    then s ← __locate_dirty_segment s segno PRE; __remove_dirty_segment s segno DIRTY
    else if valid_blocks se <? usable_blocks then __locate_dirty_segment s segno DIRTY
    else __remove_dirty_segment s segno DIRTY.

(** The bits of a map in order ([for_each_set_bit]). *)
Definition set_bits (m : gset Z) (size : Z) : list Z := filter (fun i => i ∈ m) (seqZ 0 size).

(** [f2fs_dirty_to_prefree], which [f2fs_disable_checkpoint] calls. *)
Fixpoint dirty_to_prefree_loop (l : list Z) (s : seg_sys) : option seg_sys :=
  match l with
  | [] => Some s
  | segno :: l =>
      v ← get_valid_blocks s segno false;
      if negb (v =? 0) || IS_CURSEG s segno then dirty_to_prefree_loop l s
      else s ← __locate_dirty_segment s segno PRE; s ← __remove_dirty_segment s segno DIRTY; dirty_to_prefree_loop l s
  end.
Definition f2fs_dirty_to_prefree (s : seg_sys) : option seg_sys := dirty_to_prefree_loop (set_bits (dirty_segmap (dirt s) DIRTY) MAIN_SEGS) s.

(** [get_free_segment]: a segment without blocks among the dirty ones. *)
Fixpoint free_segment_loop (l : list Z) (s : seg_sys) : option Z :=
  match l with
  | [] => Some NULL_SEGNO
  | segno :: l =>
      se ← get_seg_entry s segno;
      if negb (valid_blocks se =? 0) || negb (ckpt_valid_blocks se =? 0) then free_segment_loop l s else Some segno
  end.
Definition get_free_segment (s : seg_sys) : option Z := free_segment_loop (set_bits (dirty_segmap (dirt s) DIRTY) MAIN_SEGS) s.

(** ** Free segments *)

(** [find_next_bit] and [find_next_zero_bit] on a map. *)
Definition next_set (m : gset Z) (size offset : Z) : Z := next_bit (fun i => bool_decide (i ∈ m)) size offset.
Definition next_zero (m : gset Z) (size offset : Z) : Z := next_bit (fun i => bool_decide (i ∉ m)) size offset.

Definition __set_inuse (f : free_segmap_info) (segno : Z) : free_segmap_info :=
  let secno := GET_SEC_FROM_SEG segno in
  {| free_segmap := {[segno]} ∪ free_segmap f; free_segments := free_segments f -! 1; free_secmap := {[secno]} ∪ free_secmap f;
     free_sections := if decide (secno ∈ free_secmap f) then free_sections f else free_sections f -! 1 |}.
Definition __set_test_and_inuse (f : free_segmap_info) (segno : Z) : free_segmap_info :=
  if decide (segno ∈ free_segmap f) then f else __set_inuse f segno.
(** [__set_free] and [__set_test_and_free]; [cursec] is [IS_CURSEC]. *)
Definition section_empty (f : free_segmap_info) (segno : Z) : bool :=
  let start_segno := GET_SEG_FROM_SEC (GET_SEC_FROM_SEG segno) in
  start_segno +! f2fs_usable_segs_in_sec segno <=? next_set (free_segmap f) (start_segno +! segs_per_sec) start_segno.
Definition __set_free (f : free_segmap_info) (segno : Z) : free_segmap_info :=
  let secno := GET_SEC_FROM_SEG segno in
  let f := {| free_segmap := free_segmap f ∖ {[segno]}; free_segments := free_segments f +! 1; free_secmap := free_secmap f; free_sections := free_sections f |} in
  if section_empty f segno
  then {| free_segmap := free_segmap f; free_segments := free_segments f; free_secmap := free_secmap f ∖ {[secno]}; free_sections := free_sections f +! 1 |}
  else f.
Definition __set_test_and_free (cursec : bool) (f : free_segmap_info) (segno : Z) (inmem : bool) : free_segmap_info :=
  let secno := GET_SEC_FROM_SEG segno in
  if decide (segno ∈ free_segmap f) then
    let f := {| free_segmap := free_segmap f ∖ {[segno]}; free_segments := free_segments f +! 1; free_secmap := free_secmap f; free_sections := free_sections f |} in
    if negb inmem && cursec then f
    else if section_empty f segno && bool_decide (secno ∈ free_secmap f)
    then {| free_segmap := free_segmap f; free_segments := free_segments f; free_secmap := free_secmap f ∖ {[secno]}; free_sections := free_sections f +! 1 |}
    else f
  else f.

(** [set_prefree_as_free_segments] and the part of [f2fs_clear_prefree_segments] that
    empties the list; discards are commands to the device. *)
Fixpoint prefree_loop (l : list Z) (s : seg_sys) : seg_sys :=
  match l with
  | [] => s
  | segno :: l => prefree_loop l (with_fre s (__set_test_and_free (IS_CURSEC s (GET_SEC_FROM_SEG segno)) (fre s) segno false))
  end.
Definition set_prefree_as_free_segments (s : seg_sys) : seg_sys := prefree_loop (set_bits (dirty_segmap (dirt s) PRE) MAIN_SEGS) s.
End segs.
