(* ===== verification/SegAlloc.v ===== *)
(** * Allocation of segments and blocks (segment.c)

    Each log writes to its current segment, either to the end of a segment that was
    free (LFS) or into the holes of a dirty one (SSR).  A block is allocated, and the
    block it replaces becomes invalid; when the current segment is full, the log gets
    another one. *)

From S2P Require Import Prelude FreeNid NatCache SegBitmap SegState.

(** What a call depends on outside the segment manager: the clock, the sections that
    dirty pages may need, mount options, and which summary pages can be read. *)
Record alloc_env := {
  ctime : Z; ssr_needed : Z; lfs_mode : bool; gc_urgent_high : bool; noheap : bool; alloc_reuse : bool; crc_recovery : bool; sum_readable : Z -> bool
}.

Section alloc.
Context `{SegGeometry} (block_unit_discard : bool).
(** Victim selection, for a type of segments, a mode and an age. *)
Context (get_victim : seg_sys -> Z -> Z -> Z -> option (victim_info * option Z)).
Context (env : alloc_env).

(** ** Current segments *)

Definition zero_summary : f2fs_summary := {| sum_nid := 0; sum_version := 0; ofs_in_node := 0 |}.
Definition set_cur (c : curseg_info) (al st sg off nxt : Z) (ini : bool) : curseg_info :=
  {| sum_blk := sum_blk c; entry_type := entry_type c; alloc_type := al; seg_type := st; segno := sg; next_blkoff := off; zone := zone c; next_segno := nxt; inited := ini |}.
Definition set_next_segno (c : curseg_info) (n : Z) : curseg_info := set_cur c (alloc_type c) (seg_type c) (segno c) (next_blkoff c) n (inited c).
Definition set_next_blkoff (c : curseg_info) (o : Z) : curseg_info := set_cur c (alloc_type c) (seg_type c) (segno c) o (next_segno c) (inited c).
Definition set_alloc_type (c : curseg_info) (a : Z) : curseg_info := set_cur c a (seg_type c) (segno c) (next_blkoff c) (next_segno c) (inited c).
Definition set_seg_type (c : curseg_info) (t : Z) : curseg_info := set_cur c (alloc_type c) t (segno c) (next_blkoff c) (next_segno c) (inited c).
Definition set_sum (c : curseg_info) (b : Z -> f2fs_summary) : curseg_info :=
  {| sum_blk := b; entry_type := entry_type c; alloc_type := alloc_type c; seg_type := seg_type c; segno := segno c; next_blkoff := next_blkoff c; zone := zone c;
     next_segno := next_segno c; inited := inited c |}.

(** [write_sum_page]: the cached summary of a segment goes to the summary area. *)
Definition write_sum_page (s : seg_sys) (sum : Z -> f2fs_summary) (blk_addr : Z) : seg_sys := with_ssa s (upd (ssa s) blk_addr sum) (CP_ERROR s).
Definition __add_sum_entry (s : seg_sys) (type : Z) (sum : f2fs_summary) : seg_sys :=
  let c := CURSEG_I s type in with_curseg s type (set_sum c (upd (sum_blk c) (next_blkoff c) sum)).

Definition SUM_TYPE_DATA : Z := 0.
Definition SUM_TYPE_NODE : Z := 1.
Definition reset_curseg (s : seg_sys) (type : Z) (modified : bool) : option seg_sys :=
  let c := CURSEG_I s type in
  if NR_PERSISTENT_LOG <=? seg_type c then None
  else
    let c' := {| sum_blk := sum_blk c; entry_type := if IS_NODESEG (seg_type c) then SUM_TYPE_NODE else if IS_DATASEG (seg_type c) then SUM_TYPE_DATA else 0;
                 alloc_type := alloc_type c; seg_type := seg_type c; segno := next_segno c; next_blkoff := 0; zone := GET_ZONE_FROM_SEG (next_segno c);
                 next_segno := NULL_SEGNO; inited := true |} in
    __set_sit_entry_type (with_curseg s type c') (seg_type c) (segno c') modified.

(** ** A free segment *)

Definition is_next_segment_free (s : seg_sys) (c : curseg_info) : bool :=
  let n := segno c +! 1 in
  if (n <? MAIN_SEGS) && negb (n mod segs_per_sec =? 0) then bool_decide (n ∉ free_segmap (fre s)) else false.

(** The search for a section to the left. *)
Fixpoint left_loop (fuel : nat) (secmap : gset Z) (left_start : Z) : option Z :=
  match fuel with
  | O => None
  | S fuel =>
      if MAIN_SECS <=? left_start then None
      else if decide (left_start ∈ secmap) then
        if 0 <? left_start then left_loop fuel secmap (left_start - 1)
        else let n := next_zero secmap MAIN_SECS 0 in if MAIN_SECS <=? n then None else Some n
      else Some left_start
  end.
(** From [find_other_zone] to [skip_left]: the section, and the direction. *)
Definition find_sec (alloc_right : bool) (secmap : gset Z) (hint : Z) (go_left : bool) (left_start : Z) : option (Z * bool * Z) :=
  let secno := next_zero secmap MAIN_SECS hint in
  '(secno, go_left, left_start) ←
    if MAIN_SECS <=? secno then
      if alloc_right then let secno := next_zero secmap MAIN_SECS 0 in if MAIN_SECS <=? secno then None else Some (secno, go_left, left_start)
      else Some (secno, true, hint -! 1)
    else Some (secno, go_left, left_start);
  if negb go_left then Some (secno, go_left, left_start)
  else ls ← left_loop (S (Z.to_nat left_start)) secmap left_start; Some (ls, go_left, ls).

Definition get_new_segment (s : seg_sys) (newseg : Z) (new_sec alloc_right : bool) : option (seg_sys * Z) :=
  let f := fre s in
  let total_zones := MAIN_SECS / secs_per_zone in
  let hint := GET_SEC_FROM_SEG newseg in
  let old_zoneno := GET_ZONE_FROM_SEG newseg in
  let got_it sg := if decide (sg ∈ free_segmap f) then None else Some (with_fre s (__set_inuse f sg), sg) in
  let bound := GET_SEG_FROM_SEC (hint +! 1) in
  let sg := next_zero (free_segmap f) bound (newseg +! 1) in
  if negb new_sec && negb ((newseg +! 1) mod segs_per_sec =? 0) && (sg <? bound) then got_it sg
  else
    '(secno, go_left, left_start) ← find_sec alloc_right (free_secmap f) hint false hint;
    let zoneno := GET_ZONE_FROM_SEC secno in
    if (secs_per_zone =? 1) || (zoneno =? old_zoneno) ||
       (negb alloc_right && ((negb go_left && (total_zones <=? zoneno +! 1)) || (go_left && (zoneno =? 0)))) ||
       negb (existsb (fun t => zone (CURSEG_I s t) =? zoneno) curseg_types)
    then got_it (GET_SEG_FROM_SEC secno)
    else
      let hint := if go_left then zoneno *! secs_per_zone -! 1 else if total_zones <=? zoneno +! 1 then 0 else (zoneno +! 1) *! secs_per_zone in
      '(secno, _, _) ← find_sec alloc_right (free_secmap f) hint go_left left_start;
      got_it (GET_SEG_FROM_SEC secno).

Definition ALLOC_NEXT : Z := 3.
Definition __get_next_segno (s : seg_sys) (type : Z) : option Z :=
  let c := CURSEG_I s type in
  if NR_PERSISTENT_LOG <=? seg_type c then None
  else Some (if is_large_section then segno c
             else if negb (inited c) then 0
             else if CP_DISABLED s then 0
             else if noheap env && ((seg_type c =? CURSEG_HOT_DATA) || IS_NODESEG (seg_type c)) then 0
             else if negb (last_victim (vict s) ALLOC_NEXT =? 0) then last_victim (vict s) ALLOC_NEXT
             else if alloc_reuse env then 0
             else segno c).

Definition new_curseg (s : seg_sys) (type : Z) (new_sec : bool) : option seg_sys :=
  let c := CURSEG_I s type in
  let s := if inited c then write_sum_page s (sum_blk c) (GET_SUM_BLOCK (segno c)) else s in
  let alloc_right := (seg_type c =? CURSEG_WARM_DATA) || (seg_type c =? CURSEG_COLD_DATA) || noheap env in
  sg ← __get_next_segno s type;
  '(s, sg) ← get_new_segment s sg new_sec alloc_right;
  let s := with_curseg s type (set_next_segno (CURSEG_I s type) sg) in
  s ← reset_curseg s type true;
  Some (with_curseg s type (set_alloc_type (CURSEG_I s type) LFS)).

(** ** Holes of a dirty segment *)

(** [__next_free_blkoff]; the search by words of the joined maps is in [SegBitmap]. *)
Definition __next_free_blkoff (s : seg_sys) (sg start : Z) : option Z :=
  se ← get_seg_entry s sg; Some (next_zero (ckpt_valid_map se ∪ cur_valid_map se) blks_per_seg start).
Definition __refresh_next_blkoff (s : seg_sys) (type : Z) : option seg_sys :=
  let c := CURSEG_I s type in
  o ← if alloc_type c =? SSR then __next_free_blkoff s (segno c) (next_blkoff c + 1) else Some (u16 (next_blkoff c + 1));
  Some (with_curseg s type (set_next_blkoff c o)).
Definition f2fs_segment_has_free_slot (s : seg_sys) (sg : Z) : option bool := o ← __next_free_blkoff s sg 0; Some (o <? blks_per_seg).

Definition change_curseg (s : seg_sys) (type : Z) (flush : bool) : option seg_sys :=
  let c := CURSEG_I s type in
  let new_segno := next_segno c in
  let s := if flush then write_sum_page s (sum_blk c) (GET_SUM_BLOCK (segno c)) else s in
  let s := with_fre s (__set_test_and_inuse (fre s) new_segno) in
  s ← __remove_dirty_segment s new_segno PRE;
  s ← __remove_dirty_segment s new_segno DIRTY;
  s ← reset_curseg s type true;
  o ← __next_free_blkoff s new_segno 0;
  let c := set_next_blkoff (set_alloc_type (CURSEG_I s type) SSR) o in
  let addr := GET_SUM_BLOCK new_segno in
  if CP_ERROR s || negb (sum_readable env addr)
  then Some (with_ssa (with_curseg s type (set_sum c (fun _ => zero_summary))) (ssa s) true)
  else Some (with_curseg s type (set_sum c (ssa s addr))).

(** The types [get_ssr_segment] tries, in order. *)
Definition ssr_types (t : Z) : list Z :=
  if IS_NODESEG t then (if CURSEG_WARM_NODE <=? t then [CURSEG_COLD_NODE; CURSEG_WARM_NODE; CURSEG_HOT_NODE] else [CURSEG_HOT_NODE; CURSEG_WARM_NODE; CURSEG_COLD_NODE])
  else if CURSEG_WARM_DATA <=? t then [CURSEG_COLD_DATA; CURSEG_WARM_DATA; CURSEG_HOT_DATA] else [CURSEG_HOT_DATA; CURSEG_WARM_DATA; CURSEG_COLD_DATA].
Fixpoint ssr_loop (l : list Z) (s : seg_sys) (st alloc_mode age : Z) : option (seg_sys * option Z) :=
  match l with
  | [] => Some (s, None)
  | i :: l =>
      if i =? st then ssr_loop l s st alloc_mode age
      else
        '(v, r) ← get_victim s i alloc_mode age;
        let s := with_vict s v in
        match r with Some sg => Some (s, Some sg) | None => ssr_loop l s st alloc_mode age end
  end.
Definition get_ssr_segment (s : seg_sys) (type alloc_mode age : Z) : option (seg_sys * bool) :=
  let st := seg_type (CURSEG_I s type) in
  if NR_PERSISTENT_LOG <=? st then None
  else
    '(v, r) ← get_victim s st alloc_mode age;
    let s := with_vict s v in
    '(s, r) ← match r with Some sg => Some (s, Some sg) | None => ssr_loop (ssr_types st) s st alloc_mode age end;
    r ← match r with
        | Some sg => Some (Some sg)
        | None => if CP_DISABLED s then sg ← get_free_segment s; Some (if sg =? NULL_SEGNO then None else Some sg) else Some None
        end;
    Some (match r with
          | Some sg => (with_curseg s type (set_next_segno (CURSEG_I s type) sg), true)
          | None => (s, false)
          end).

Definition get_atssr_segment (s : seg_sys) (type target_type alloc_mode age : Z) : option seg_sys :=
  let s := with_curseg s type (set_seg_type (CURSEG_I s type) target_type) in
  '(s, found) ← get_ssr_segment s type alloc_mode age;
  if found : bool then
    se ← get_seg_entry s (next_segno (CURSEG_I s type));
    change_curseg (with_curseg s type (set_seg_type (CURSEG_I s type) (se_type se))) type true
  else new_curseg (with_curseg s type (set_seg_type (CURSEG_I s type) CURSEG_COLD_DATA)) type true.

Definition f2fs_need_SSR (s : seg_sys) : bool :=
  if lfs_mode env then false else if gc_urgent_high env then true else if CP_DISABLED s then true else free_sections (fre s) <=? ssr_needed env.

(** [allocate_segment_by_default]. *)
Definition allocate_segment (s : seg_sys) (type : Z) (force : bool) : option seg_sys :=
  let c := CURSEG_I s type in
  if force then new_curseg s type true
  else if negb (crc_recovery env) && (seg_type c =? CURSEG_WARM_NODE) then new_curseg s type false
  else if (alloc_type c =? LFS) && is_next_segment_free s c && negb (CP_DISABLED s) then new_curseg s type false
  else if f2fs_need_SSR s then '(s, found) ← get_ssr_segment s type SSR 0; if found : bool then change_curseg s type true else new_curseg s type false
  else new_curseg s type false.

(** ** Blocks *)

Definition __has_curseg_space (c : curseg_info) : bool := next_blkoff c <? f2fs_usable_blks_in_seg (segno c).

(** [f2fs_allocate_data_block]: a block of the log [type] for what was at
    [old_blkaddr]; its address is returned. *)
Definition f2fs_allocate_data_block (s : seg_sys) (old_blkaddr : Z) (sum : f2fs_summary) (type : Z) : option (seg_sys * Z) :=
  let from_gc := type =? CURSEG_ALL_DATA_ATGC in
  let old_seg := GET_SEGNO old_blkaddr in
  _ ← if from_gc then
        if old_seg =? NULL_SEGNO then None
        else se ← get_seg_entry s old_seg; if (NR_PERSISTENT_LOG <=? se_type se) || IS_NODESEG (se_type se) then None else Some tt
      else Some tt;
  let c := CURSEG_I s type in
  let new_blkaddr := NEXT_FREE_BLKADDR c in
  if blks_per_seg <=? next_blkoff c then None
  else
    let s := __add_sum_entry s type sum in
    s ← __refresh_next_blkoff s type;
    '(s, old_mtime) ← if from_gc then m ← get_segment_mtime s old_blkaddr; Some (s, m)
                      else s ← update_segment_mtime (ctime env) s old_blkaddr 0; Some (s, 0);
    s ← update_segment_mtime (ctime env) s new_blkaddr old_mtime;
    s ← update_sit_entry block_unit_discard s new_blkaddr 1;
    s ← if negb (old_seg =? NULL_SEGNO) then update_sit_entry block_unit_discard s old_blkaddr (-1) else Some s;
    s ← if __has_curseg_space (CURSEG_I s type) then Some s
        else if from_gc then se ← get_seg_entry s old_seg; get_atssr_segment s type (se_type se) AT_SSR (se_mtime se)
        else allocate_segment s type false;
    s ← locate_dirty_segment s old_seg;
    s ← locate_dirty_segment s (GET_SEGNO new_blkaddr);
    Some (s, new_blkaddr).

(** [f2fs_invalidate_blocks]. *)
Definition f2fs_invalidate_blocks (s : seg_sys) (addr : Z) : option seg_sys :=
  if addr =? NULL_ADDR then None
  else if (addr =? NEW_ADDR) || (addr =? COMPRESS_ADDR) then Some s
  else
    s ← update_segment_mtime (ctime env) s addr 0;
    s ← update_sit_entry block_unit_discard s addr (-1);
    locate_dirty_segment s (GET_SEGNO addr).

(** ** New segments on request *)

(** [get_ckpt_valid_blocks]: of a segment, or of [segs_per_sec] segments from the one
    that starts its block of the segment table ([START_SEGNO]). *)
Context (SIT_ENTRY_PER_BLOCK : Z).
Fixpoint ckpt_blocks_loop (n : nat) (s : seg_sys) (start blocks : Z) : option Z :=
  match n with
  | O => Some blocks
  | S n => se ← get_seg_entry s start; ckpt_blocks_loop n s (start +! 1) (blocks +! ckpt_valid_blocks se)
  end.
Definition get_ckpt_valid_blocks (s : seg_sys) (sg : Z) (use_section : bool) : option Z :=
  if use_section && is_large_section then ckpt_blocks_loop (Z.to_nat segs_per_sec) s (sg / SIT_ENTRY_PER_BLOCK * SIT_ENTRY_PER_BLOCK) 0
  else ckpt_valid_blocks <$> get_seg_entry s sg.

Definition __allocate_new_segment (s : seg_sys) (type : Z) (new_sec force : bool) : option seg_sys :=
  let c := CURSEG_I s type in
  let alloc := s ← allocate_segment s type true; locate_dirty_segment s (segno c) in
  if negb (inited c) then alloc
  else if force || negb (next_blkoff c =? 0) then alloc
  else
    v ← get_valid_blocks s (segno c) new_sec;
    if negb (v =? 0) then alloc
    else k ← get_ckpt_valid_blocks s (segno c) new_sec; if k =? 0 then Some s else alloc.
Definition f2fs_allocate_new_section (s : seg_sys) (type : Z) (force : bool) : option seg_sys := __allocate_new_segment s type true force.
Fixpoint new_segments_loop (l : list Z) (s : seg_sys) : option seg_sys :=
  match l with
  | [] => Some s
  | i :: l => s ← __allocate_new_segment s i false false; new_segments_loop l s
  end.
Definition f2fs_allocate_new_segments (s : seg_sys) : option seg_sys := new_segments_loop [CURSEG_HOT_DATA; CURSEG_WARM_DATA; CURSEG_COLD_DATA] s.

(** [__f2fs_init_atgc_curseg]: the log of age-based cleaning gets a segment at mount. *)
Definition __f2fs_init_atgc_curseg (atgc_enabled : bool) (s : seg_sys) : option seg_sys :=
  if negb atgc_enabled then Some s else get_atssr_segment s CURSEG_ALL_DATA_ATGC CURSEG_COLD_DATA SSR 0.

(** [f2fs_save_inmem_curseg] and [f2fs_restore_inmem_curseg]: the logs that are not in
    the checkpoint, around it. *)
Definition __f2fs_save_inmem_curseg (s : seg_sys) (type : Z) : option seg_sys :=
  let c := CURSEG_I s type in
  if negb (inited c) then Some s
  else
    v ← get_valid_blocks s (segno c) false;
    Some (if negb (v =? 0) then write_sum_page s (sum_blk c) (GET_SUM_BLOCK (segno c))
          else with_fre s (__set_test_and_free (IS_CURSEC s (GET_SEC_FROM_SEG (segno c))) (fre s) (segno c) true)).
Definition f2fs_save_inmem_curseg (atgc_enabled : bool) (s : seg_sys) : option seg_sys :=
  s ← __f2fs_save_inmem_curseg s CURSEG_COLD_DATA_PINNED; if atgc_enabled then __f2fs_save_inmem_curseg s CURSEG_ALL_DATA_ATGC else Some s.
Definition __f2fs_restore_inmem_curseg (s : seg_sys) (type : Z) : option seg_sys :=
  let c := CURSEG_I s type in
  if negb (inited c) then Some s
  else
    v ← get_valid_blocks s (segno c) false;
    Some (if negb (v =? 0) then s else with_fre s (__set_test_and_inuse (fre s) (segno c))).
Definition f2fs_restore_inmem_curseg (atgc_enabled : bool) (s : seg_sys) : option seg_sys :=
  s ← __f2fs_restore_inmem_curseg s CURSEG_COLD_DATA_PINNED; if atgc_enabled then __f2fs_restore_inmem_curseg s CURSEG_ALL_DATA_ATGC else Some s.
End alloc.
