(* ===== verification/SegInv.v ===== *)
(** * The invariant of the segment manager

    [seg_inv X s]: maps and counters agree, a free segment has no block that is valid
    or was valid at the last checkpoint, the place each log writes to next is free,
    and every segment that is in use, not current and not full is on exactly one
    list; the segments in [X] have been changed and their lists may be behind. *)

From S2P Require Import Prelude FreeNid NatCache SegBitmap SegState SegAlloc.

Section inv.
Context `{SegGeometry} (block_unit_discard : bool).

(** ** Addresses *)

Lemma bps_eq : blks_per_seg = 2 ^ log_blocks_per_seg.
Proof. unfold blks_per_seg. pose proof log_range. by rewrite Z.shiftl_1_l. Qed.
Lemma bps_range : 0 < blks_per_seg <= 512.
Proof.
  rewrite bps_eq. pose proof log_range. split; [apply Z.pow_pos_nonneg; lia|]. change 512 with (2 ^ 9). apply Z.pow_le_mono_r; lia.
Qed.
Lemma main_pos : 0 < MAIN_SEGS.
Proof. unfold MAIN_SEGS. pose proof sec_pos. nia. Qed.
Lemma area_end' : SEG0_BLKADDR + (start_segno + MAIN_SEGS) * blks_per_seg < 2 ^ 32 - 2.
Proof. rewrite bps_eq. apply area_end. Qed.
Lemma main_small : MAIN_SEGS < 2 ^ 32 - 2.
Proof. pose proof area_end'. pose proof area_pos. pose proof bps_range. pose proof main_pos. nia. Qed.
Lemma secs_le : MAIN_SECS <= MAIN_SEGS.
Proof. unfold MAIN_SEGS. pose proof sec_pos. nia. Qed.

(** The address of a block. *)
Definition blk (g o : Z) : Z := SEG0_BLKADDR + (g + start_segno) * blks_per_seg + o.
Notation seg_ok g := (0 <= g < MAIN_SEGS).
Notation off_ok o := (0 <= o < blks_per_seg).

Lemma blk_range g o : seg_ok g -> off_ok o -> SEG0_BLKADDR + start_segno * blks_per_seg <= blk g o < 2 ^ 32 - 2.
Proof. intros Hg Ho. unfold blk. pose proof area_end'. pose proof area_pos. pose proof bps_range. nia. Qed.
Lemma start_block g : seg_ok g -> START_BLOCK g = blk g 0.
Proof.
  intros Hg. unfold START_BLOCK. pose proof log_range. rewrite Z.shiftl_mul_pow2, <-bps_eq by lia. unfold blk. rewrite Z.add_0_r. apply u32_small.
  pose proof area_end'. pose proof area_pos. pose proof bps_range. nia.
Qed.
Lemma log_next_addr c : seg_ok (segno c) -> off_ok (next_blkoff c) -> NEXT_FREE_BLKADDR c = blk (segno c) (next_blkoff c).
Proof.
  intros Hg Ho. unfold NEXT_FREE_BLKADDR. rewrite start_block by done. unfold blk. rewrite Z.add_0_r. apply u32_small.
  pose proof (blk_range _ _ Hg Ho) as Hb. pose proof area_pos. pose proof bps_range. unfold blk in Hb. nia.
Qed.
Lemma blk_valid g o : seg_ok g -> off_ok o -> __is_valid_data_blkaddr COMPRESS_ADDR (blk g o) = true.
Proof. intros Hg Ho. apply area_addrs. rewrite <-bps_eq. apply blk_range; done. Qed.
Lemma blk_sub g o : seg_ok g -> off_ok o -> blk g o -! SEG0_BLKADDR = (g + start_segno) * blks_per_seg + o.
Proof.
  intros Hg Ho. pose proof (blk_range _ _ Hg Ho) as Hb. pose proof area_pos. pose proof bps_range. replace (blk g o - SEG0_BLKADDR) with ((g + start_segno) * blks_per_seg + o) by (unfold blk; lia).
  apply u32_small. unfold blk in Hb. nia.
Qed.
Lemma get_segno g o : seg_ok g -> off_ok o -> GET_SEGNO (blk g o) = g.
Proof.
  intros Hg Ho. unfold GET_SEGNO. rewrite blk_valid by done. cbn [negb]. rewrite blk_sub by done. pose proof log_range. rewrite Z.shiftr_div_pow2, <-bps_eq by lia.
  rewrite Z.add_comm, Z.div_add, Z.div_small by lia. rewrite Z.add_0_l. replace (g + start_segno - start_segno) with g by lia. apply u32_small. pose proof main_small. lia.
Qed.
Lemma get_blkoff g o : seg_ok g -> off_ok o -> GET_BLKOFF_FROM_SEG0 (blk g o) = o.
Proof.
  intros Hg Ho. unfold GET_BLKOFF_FROM_SEG0. rewrite blk_sub by done. pose proof log_range.
  replace (blks_per_seg - 1) with (Z.ones log_blocks_per_seg) by (rewrite Z.ones_equiv, bps_eq; lia). rewrite Z.land_ones, <-bps_eq by lia. rewrite Z.add_comm, Z.mod_add by lia. by apply Z.mod_small.
Qed.
Lemma blk_inj g o g' o' : seg_ok g -> off_ok o -> seg_ok g' -> off_ok o' -> blk g o = blk g' o' -> g = g' /\ o = o'.
Proof. intros Hg Ho Hg' Ho' E. split; [by rewrite <-(get_segno g o), E, get_segno|by rewrite <-(get_blkoff g o), E, get_blkoff]. Qed.
(** Any address of a segment of the area is of this form. *)
Lemma blk_of a : 0 <= a < 2 ^ 32 -> seg_ok (GET_SEGNO a) -> a = blk (GET_SEGNO a) (GET_BLKOFF_FROM_SEG0 a) /\ off_ok (GET_BLKOFF_FROM_SEG0 a).
Proof.
  intros Ha Hg. pose proof log_range. pose proof main_small. pose proof bps_range. pose proof area_pos. unfold GET_SEGNO in *. destruct (__is_valid_data_blkaddr COMPRESS_ADDR a); cbn [negb] in *; [|unfold NULL_SEGNO in Hg; lia].
  rewrite Z.shiftr_div_pow2, <-bps_eq in * by lia. unfold GET_BLKOFF_FROM_SEG0. replace (blks_per_seg - 1) with (Z.ones log_blocks_per_seg) by (rewrite Z.ones_equiv, bps_eq; lia).
  rewrite Z.land_ones, <-bps_eq by lia. set (x := a -! SEG0_BLKADDR) in *. pose proof (u32_range (a - SEG0_BLKADDR)) as Hx. fold x in Hx.
  assert (Hnz : blks_per_seg <> 0) by lia. assert (Hbp : 0 < blks_per_seg) by lia. pose proof (Z.div_mod x _ Hnz) as Hdm. pose proof (Z.mod_pos_bound x _ Hbp) as Hm. split; [|done].
  assert (Hq : 0 <= x / blks_per_seg) by (apply Z.div_pos; lia). assert (Hs : start_segno * blks_per_seg < 2 ^ 32) by (pose proof area_end'; nia).
  assert (Hge : x / blks_per_seg -! start_segno + start_segno = x / blks_per_seg \/ x / blks_per_seg < start_segno).
  { destruct (Z.lt_ge_cases (x / blks_per_seg) start_segno); [by right|left]. rewrite u32_small; [lia|]. split; [lia|]. assert (x / blks_per_seg <= x) by (apply Z.div_le_upper_bound; nia). lia. }
  assert (Hge' : x / blks_per_seg -! start_segno + start_segno = x / blks_per_seg).
  { destruct Hge as [|Hlt]; [done|exfalso]. unfold u32 in Hg. replace (x / blks_per_seg - start_segno) with ((x / blks_per_seg - start_segno + 2 ^ 32) + (-1) * 2 ^ 32) in Hg by lia.
    assert (start_segno + MAIN_SEGS < 2 ^ 32) by (pose proof area_end'; pose proof main_pos; nia). rewrite Z.mod_add, Z.mod_small in Hg by lia. lia. }
  unfold blk. rewrite Hge'. assert (Ex : x = a - SEG0_BLKADDR \/ x = a - SEG0_BLKADDR + 2 ^ 32).
  { unfold x, u32. destruct (Z.lt_ge_cases a SEG0_BLKADDR); [right|left; apply Z.mod_small; lia]. replace (a - SEG0_BLKADDR) with ((a - SEG0_BLKADDR + 2 ^ 32) + (-1) * 2 ^ 32) at 1 by lia.
    rewrite Z.mod_add by lia. apply Z.mod_small. pose proof area_end'. nia. }
  destruct Ex as [Ex|Ex]; [nia|exfalso]. assert (x < (start_segno + MAIN_SEGS) * blks_per_seg) by nia. pose proof area_end'. lia.
Qed.
Lemma get_segno_null a : __is_valid_data_blkaddr COMPRESS_ADDR a = false -> GET_SEGNO a = NULL_SEGNO.
Proof. intros E. unfold GET_SEGNO. by rewrite E. Qed.

(** ** Counting *)

(** The numbers below [n] that are not in a map. *)
Definition count_out (m : gset Z) (n : Z) : Z := Z.of_nat (length (filter (fun g => g ∉ m) (seqZ 0 n))).

Lemma filter_one (P Q : Z -> Prop) `{!forall x, Decision (P x), !forall x, Decision (Q x)} (l : list Z) g :
  NoDup l -> g ∈ l -> (forall x, x <> g -> P x <-> Q x) -> P g -> ~ Q g -> length (filter P l) = S (length (filter Q l)).
Proof.
  intros Hn Hg HPQ Hp Hq. induction l as [|x l IH]; [set_solver|]. apply list.NoDup_cons in Hn as [Hx Hn]. apply elem_of_cons in Hg as [->|Hg].
  - rewrite filter_cons_True, filter_cons_False by done. cbn [length]. f_equal. clear -Hx HPQ. induction l as [|y l IH]; [done|]. rewrite !filter_cons.
    assert (P y <-> Q y) as Hy by (apply HPQ; set_solver). destruct (decide (P y)), (decide (Q y)); cbn; try tauto; [f_equal|]; apply IH; set_solver.
  - assert (x <> g) by (intros ->; done). rewrite !filter_cons. specialize (IH Hn Hg). assert (P x <-> Q x) as Hy by auto.
    destruct (decide (P x)), (decide (Q x)); cbn; try tauto; lia.
Qed.
Lemma count_out_add m n g : 0 <= g < n -> g ∉ m -> count_out ({[g]} ∪ m) n = count_out m n - 1.
Proof.
  intros Hg Hm. unfold count_out. rewrite (filter_one (fun x => x ∉ m) (fun x => x ∉ ({[g]} : gset Z) ∪ m) (seqZ 0 n) g); [lia|apply NoDup_seqZ|apply elem_of_seqZ; lia|set_solver|done|set_solver].
Qed.
Lemma count_out_remove m n g : 0 <= g < n -> g ∈ m -> count_out (m ∖ {[g]}) n = count_out m n + 1.
Proof.
  intros Hg Hm. unfold count_out. rewrite (filter_one (fun x => x ∉ m ∖ {[g]}) (fun x => x ∉ m) (seqZ 0 n) g); [lia|apply NoDup_seqZ|apply elem_of_seqZ; lia|set_solver|set_solver|set_solver].
Qed.
Lemma count_out_range m n : 0 <= n -> 0 <= count_out m n <= n.
Proof. intros Hn. unfold count_out. pose proof (length_filter (fun g => g ∉ m) (seqZ 0 n)). rewrite length_seqZ in *. lia. Qed.
Lemma count_out_pos m n : 0 < count_out m n -> exists g, 0 <= g < n /\ g ∉ m.
Proof.
  unfold count_out. destruct (filter _ (seqZ 0 n)) as [|g l] eqn:E; [cbn; lia|]. intros _. exists g. assert (Hg : g ∈ filter (fun g => g ∉ m) (seqZ 0 n)) by (rewrite E; set_solver).
  apply list_elem_of_filter in Hg as [Hg Hs]. apply elem_of_seqZ in Hs. split; [lia|done].
Qed.

Lemma map_size (m : gset Z) n : 0 <= n -> (forall o, o ∈ m -> 0 <= o < n) -> Z.of_nat (size m) <= n.
Proof.
  intros Hn Hm. assert (Hs : m ⊆ list_to_set (seqZ 0 n)). { intros o Ho. apply elem_of_list_to_set, elem_of_seqZ. specialize (Hm o Ho). lia. }
  apply subseteq_size in Hs. rewrite size_list_to_set, length_seqZ in Hs by apply NoDup_seqZ. lia.
Qed.
Lemma map_size_lt (m : gset Z) n o : 0 <= o < n -> o ∉ m -> (forall o, o ∈ m -> 0 <= o < n) -> Z.of_nat (size m) < n.
Proof.
  intros Ho Hm Hr. pose proof (map_size ({[o]} ∪ m) n ltac:(lia) ltac:(set_solver)) as Hs. rewrite size_union, size_singleton in Hs by set_solver. lia.
Qed.
Lemma size_add (m : gset Z) o : o ∉ m -> Z.of_nat (size ({[o]} ∪ m)) = Z.of_nat (size m) + 1.
Proof. intros Ho. rewrite size_union, size_singleton by set_solver. lia. Qed.
Lemma size_remove (m : gset Z) o : o ∈ m -> Z.of_nat (size (m ∖ {[o]})) = Z.of_nat (size m) - 1.
Proof. intros Ho. pose proof (size_add (m ∖ {[o]}) o ltac:(set_solver)) as Hs. replace ({[o]} ∪ m ∖ {[o]}) with m in Hs; [lia|]. apply set_eq. intros x. destruct (decide (x = o)); set_solver. Qed.
Lemma size_zero (m : gset Z) : size m = 0%nat <-> m = ∅.
Proof. split; [intros E; by apply size_empty_inv, leibniz_equiv in E|intros ->; apply size_empty]. Qed.

(** ** The invariant *)

Record entry_ok (se : seg_entry) : Prop := {
  eo_type : 0 <= se_type se < NR_PERSISTENT_LOG;
  eo_sub : cur_valid_map se ⊆ ckpt_valid_map se;
  eo_map : forall o, o ∈ ckpt_valid_map se -> off_ok o;
  eo_valid : valid_blocks se = Z.of_nat (size (cur_valid_map se));
  eo_ckpt : ckpt_valid_blocks se = Z.of_nat (size (ckpt_valid_map se))
}.

(** A log: nothing is left to overwrite from the next block on, or at it. *)
Record cur_ok (s : seg_sys) (c : curseg_info) : Prop := {
  co_type : 0 <= seg_type c < NR_PERSISTENT_LOG;
  co_seg : inited c = true -> seg_ok (segno c) /\ segno c ∈ free_segmap (fre s) /\ 0 <= next_blkoff c <= blks_per_seg /\ (alloc_type c = LFS \/ alloc_type c = SSR);
  co_null : inited c = false -> segno c = NULL_SEGNO;
  co_lfs : inited c = true -> alloc_type c = LFS -> forall se o, sentries (sit s) !! segno c = Some se -> next_blkoff c <= o -> o ∉ ckpt_valid_map se;
  co_ssr : inited c = true -> forall se, sentries (sit s) !! segno c = Some se -> next_blkoff c ∉ ckpt_valid_map se
}.

Definition valid_of (x : sit_info) (g : Z) : Z := match sentries x !! g with Some se => valid_blocks se | None => 0 end.
Definition sum_valid (x : sit_info) (l : list Z) : Z := foldr (fun g a => valid_of x g + a) 0 l.
Notation log_ok t := (0 <= t < NO_CHECK_TYPE).

Record sit_ok (x : sit_info) : Prop := {
  so_dom : forall g, is_Some (sentries x !! g) <-> seg_ok g;
  so_entry : forall g se, sentries x !! g = Some se -> entry_ok se;
  so_clean : forall g se, sentries x !! g = Some se -> g ∉ dirty_sentries_bitmap x -> ckpt_valid_map se = cur_valid_map se;
  so_bits : forall g, g ∈ dirty_sentries_bitmap x -> seg_ok g;
  so_dirty : dirty_sentries x = Z.of_nat (size (dirty_sentries_bitmap x));
  so_sec : is_large_section = true -> forall c, 0 <= c < MAIN_SECS -> sec_entries x !! c = Some (sum_valid x (seqZ (c * segs_per_sec) segs_per_sec));
  so_written : written_valid_blocks x = sum_valid x (seqZ 0 MAIN_SEGS)
}.

Record free_ok (f : free_segmap_info) : Prop := {
  fo_segs : free_segments f = count_out (free_segmap f) MAIN_SEGS;
  fo_secs : free_sections f = count_out (free_secmap f) MAIN_SECS;
  fo_map : forall c, 0 <= c < MAIN_SECS -> c ∈ free_secmap f <-> exists g, seg_ok g /\ g / segs_per_sec = c /\ g ∈ free_segmap f
}.

Record lists_sound (s : seg_sys) : Prop := {
  ls_nr : forall t, 0 <= t <= PRE -> nr_dirty (dirt s) t = Z.of_nat (size (dirty_segmap (dirt s) t));
  ls_pre : forall g, g ∈ dirty_segmap (dirt s) PRE -> seg_ok g /\ g ∈ free_segmap (fre s) /\ IS_CURSEG s g = false /\ valid_of (sit s) g = 0;
  ls_dirty : forall g, g ∈ dirty_segmap (dirt s) DIRTY -> seg_ok g /\ g ∈ free_segmap (fre s) /\ IS_CURSEG s g = false /\ g ∉ dirty_segmap (dirt s) PRE;
  ls_types : forall t g, 0 <= t < DIRTY -> g ∈ dirty_segmap (dirt s) t <-> g ∈ dirty_segmap (dirt s) DIRTY /\ exists se, sentries (sit s) !! g = Some se /\ se_type se = t;
  ls_ckpt : forall g se, g ∈ dirty_segmap (dirt s) DIRTY -> sentries (sit s) !! g = Some se -> ckpt_valid_map se <> ∅
}.

Record listed (s : seg_sys) (g : Z) : Prop := {
  li_pre : g ∈ free_segmap (fre s) -> IS_CURSEG s g = false -> valid_of (sit s) g = 0 -> g ∈ dirty_segmap (dirt s) PRE;
  li_dirty : g ∈ free_segmap (fre s) -> IS_CURSEG s g = false -> 0 < valid_of (sit s) g < blks_per_seg -> g ∈ dirty_segmap (dirt s) DIRTY;
  li_holes : g ∈ dirty_segmap (dirt s) DIRTY -> 0 < valid_of (sit s) g < blks_per_seg
}.

Record seg_inv (X : gset Z) (s : seg_sys) : Prop := {
  si_sit : sit_ok (sit s);
  si_fre : free_ok (fre s);
  si_free : forall g se, seg_ok g -> g ∉ free_segmap (fre s) -> sentries (sit s) !! g = Some se -> ckpt_valid_map se = ∅;
  si_cur : forall t, log_ok t -> cur_ok s (CURSEG_I s t);
  si_persist : forall t, 0 <= t < NR_PERSISTENT_LOG -> inited (CURSEG_I s t) = true;
  si_cur_ne : forall t t', log_ok t -> log_ok t' -> t <> t' -> inited (CURSEG_I s t) = true -> segno (CURSEG_I s t) <> segno (CURSEG_I s t');
  si_lists : lists_sound s;
  si_listed : forall g, seg_ok g -> g ∉ X -> listed s g;
  si_last : forall p, 0 <= last_victim (vict s) p <= MAIN_SEGS;
  si_cp : CP_DISABLED s = false
}.

(** ** Facts of the invariant *)

Lemma curseg_iff s g : IS_CURSEG s g = true <-> exists t, log_ok t /\ segno (CURSEG_I s t) = g.
Proof.
  unfold IS_CURSEG. rewrite existsb_exists. split.
  - intros (t & Ht & E%Z.eqb_eq). exists t. split; [|done]. unfold curseg_types, NO_CHECK_TYPE in *. cbn in Ht. lia.
  - intros (t & Ht & E). exists t. split; [unfold curseg_types, NO_CHECK_TYPE in *; cbn; lia|by apply Z.eqb_eq].
Qed.
Lemma curseg_not s g : IS_CURSEG s g = false <-> forall t, log_ok t -> segno (CURSEG_I s t) <> g.
Proof.
  split.
  - intros E t Ht Hg. assert (IS_CURSEG s g = true) by (apply curseg_iff; eauto). congruence.
  - intros Hn. destruct (IS_CURSEG s g) eqn:E; [|done]. apply curseg_iff in E as (t & Ht & Hg). by destruct (Hn t Ht).
Qed.
Lemma curseg_same s s' g : CURSEG_I s' = CURSEG_I s -> IS_CURSEG s' g = IS_CURSEG s g.
Proof. intros E. unfold IS_CURSEG. by rewrite E. Qed.
Lemma null_not_seg : ~ seg_ok NULL_SEGNO.
Proof. unfold NULL_SEGNO. pose proof main_small. lia. Qed.
Lemma curseg_inited X s t : seg_inv X s -> log_ok t -> seg_ok (segno (CURSEG_I s t)) -> inited (CURSEG_I s t) = true.
Proof. intros Hi Ht Hg. destruct (inited (CURSEG_I s t)) eqn:E; [done|]. rewrite (co_null _ _ (si_cur _ _ Hi t Ht) E) in Hg. by apply null_not_seg in Hg. Qed.

Lemma seg_entry_at X s g : seg_inv X s -> seg_ok g -> exists se, sentries (sit s) !! g = Some se /\ entry_ok se.
Proof. intros Hi Hg. destruct (proj2 (so_dom _ (si_sit X s Hi) g) Hg) as [se E]. exists se. split; [done|]. by eapply so_entry; [apply Hi|]. Qed.
Lemma valid_of_at x g se : sentries x !! g = Some se -> valid_of x g = valid_blocks se.
Proof. unfold valid_of. by intros ->. Qed.

Lemma entry_bounds se : entry_ok se -> 0 <= valid_blocks se <= blks_per_seg /\ 0 <= ckpt_valid_blocks se <= blks_per_seg.
Proof.
  intros [H1 H2 H3 H4 H5]. pose proof bps_range. rewrite H4, H5. split; (split; [lia|]); apply map_size; [lia|set_solver|lia|done].
Qed.
Lemma valid_range x g : sit_ok x -> 0 <= valid_of x g <= blks_per_seg.
Proof. intros Hx. unfold valid_of. pose proof bps_range. destruct (sentries x !! g) eqn:E; [|lia]. by apply entry_bounds, (so_entry x Hx g). Qed.
Lemma sum_range x l : sit_ok x -> 0 <= sum_valid x l <= Z.of_nat (length l) * blks_per_seg.
Proof. intros Hx. induction l as [|g l IH]; cbn [sum_valid foldr length]; [lia|]. fold (sum_valid x l). pose proof (valid_range x g Hx). lia. Qed.
Lemma sum_valid_at x l g : sit_ok x -> g ∈ l -> valid_of x g <= sum_valid x l.
Proof.
  intros Hx. induction l as [|h l IH]; intros Hg; [set_solver|]. cbn [sum_valid foldr]. fold (sum_valid x l). pose proof (valid_range x h Hx). pose proof (sum_range x l Hx).
  apply elem_of_cons in Hg as [->|Hg]; [lia|]. specialize (IH Hg). lia.
Qed.
Lemma sum_valid_room x l g : sit_ok x -> g ∈ l -> sum_valid x l <= valid_of x g + (Z.of_nat (length l) - 1) * blks_per_seg.
Proof.
  intros Hx. induction l as [|h l IH]; intros Hg; [set_solver|]. cbn [sum_valid foldr length]. fold (sum_valid x l). pose proof (valid_range x h Hx). pose proof (sum_range x l Hx). pose proof bps_range.
  apply elem_of_cons in Hg as [->|Hg]; [lia|]. specialize (IH Hg). lia.
Qed.

Lemma sum_valid_update x x' g se' l d : sentries x' = <[g := se']> (sentries x) -> valid_blocks se' = valid_of x g + d -> NoDup l ->
  sum_valid x' l = sum_valid x l + if decide (g ∈ l) then d else 0.
Proof.
  intros E Hd Hn. induction l as [|h l IH]; [by rewrite decide_False by set_solver|]. apply list.NoDup_cons in Hn as [Hh Hn]. cbn [sum_valid foldr]. fold (sum_valid x l) (sum_valid x' l).
  rewrite IH by done. unfold valid_of at 1. rewrite E. destruct (decide (h = g)) as [->|Hne].
  - rewrite lookup_insert_eq, Hd. rewrite (decide_False (P := g ∈ l)), decide_True by set_solver. lia.
  - rewrite lookup_insert_ne by done. fold (valid_of x h). destruct (decide (g ∈ l)); [rewrite decide_True by set_solver|rewrite decide_False by set_solver]; lia.
Qed.

Lemma sec_of g : seg_ok g -> GET_SEC_FROM_SEG g = g / segs_per_sec /\ 0 <= g / segs_per_sec < MAIN_SECS.
Proof.
  intros Hg. unfold GET_SEC_FROM_SEG. destruct (Z.eqb_spec g NULL_SEGNO) as [->|]; [by apply null_not_seg in Hg|]. split; [done|]. pose proof sec_pos. unfold MAIN_SEGS in Hg.
  split; [apply Z.div_pos; lia|apply Z.div_lt_upper_bound; lia].
Qed.
Lemma in_sec g c : seg_ok g -> g ∈ seqZ (c * segs_per_sec) segs_per_sec <-> g / segs_per_sec = c.
Proof.
  intros Hg. pose proof sec_pos as [Hs _]. rewrite elem_of_seqZ. assert (Hnz : segs_per_sec <> 0) by lia. pose proof (Z.div_mod g _ Hnz). pose proof (Z.mod_pos_bound g _ Hs). split; [|intros <-; lia].
  intros Hr. symmetry. apply (Z.div_unique g segs_per_sec c (g - c * segs_per_sec)); lia.
Qed.

Lemma sit_update x x' g se se' d : sit_ok x -> sentries x !! g = Some se -> entry_ok se' -> valid_blocks se' = valid_blocks se + d ->
  sentries x' = <[g := se']> (sentries x) -> dirty_sentries_bitmap x' = {[g]} ∪ dirty_sentries_bitmap x -> dirty_sentries x' = Z.of_nat (size (dirty_sentries_bitmap x')) ->
  written_valid_blocks x' = written_valid_blocks x +! d ->
  (is_large_section = true -> exists v, sec_entries x !! (g / segs_per_sec) = Some v /\ sec_entries x' = <[g / segs_per_sec := v +! d]> (sec_entries x)) -> sit_ok x'.
Proof.
  intros Hx E He Hd Es Eb Ed Ew Ec. assert (Hg : seg_ok g) by (apply (so_dom x Hx); eauto). assert (Hvd : valid_blocks se' = valid_of x g + d) by (by rewrite (valid_of_at _ _ _ E)).
  pose proof (entry_bounds se' He) as [Hb _]. pose proof (entry_bounds se (so_entry x Hx g se E)) as [Hb0 _]. pose proof bps_range. pose proof main_pos. pose proof sec_pos. pose proof area_end'. pose proof area_pos.
  assert (Hu : forall l, NoDup l -> g ∈ l -> Z.of_nat (length l) <= MAIN_SEGS -> sum_valid x l +! d = sum_valid x' l).
  { intros l Hn Hl Hlen. rewrite (sum_valid_update x x' g se' l d Es Hvd Hn), decide_True by done. apply u32_small.
    pose proof (sum_valid_at x l g Hx Hl) as Hlo. pose proof (sum_valid_room x l g Hx Hl) as Hhi. rewrite (valid_of_at _ _ _ E) in *. nia. }
  constructor.
  - intros h. rewrite Es. destruct (decide (h = g)) as [->|]; [rewrite lookup_insert_eq; naive_solver|rewrite lookup_insert_ne by done; apply Hx].
  - intros h e. rewrite Es. intros [[<- <-]|[_ He']]%lookup_insert_Some; [done|by apply (so_entry x Hx h)].
  - intros h e. rewrite Es, Eb. intros [[<- <-]|[Hne He']]%lookup_insert_Some Hn; [set_solver|]. apply (so_clean x Hx h e He'). set_solver.
  - intros h. rewrite Eb. intros [->%elem_of_singleton|Hh]%elem_of_union; [done|by apply (so_bits x Hx)].
  - done.
  - intros Hl c Hc. destruct (Ec Hl) as (v & Ev & Ec'). rewrite Ec'. destruct (sec_of g Hg) as [_ Hsr]. rewrite (so_sec x Hx Hl _ Hsr) in Ev. injection Ev as <-.
    destruct (decide (c = g / segs_per_sec)) as [->|Hne].
    + rewrite lookup_insert_eq. f_equal. apply Hu; [apply NoDup_seqZ|by apply in_sec|rewrite length_seqZ; pose proof secs_le; unfold MAIN_SEGS; nia].
    + rewrite lookup_insert_ne, (so_sec x Hx Hl c Hc) by done. f_equal. rewrite (sum_valid_update x x' g se' _ d Es Hvd) by apply NoDup_seqZ. rewrite decide_False; [lia|]. rewrite in_sec by done. congruence.
  - rewrite Ew, (so_written x Hx). apply Hu; [apply NoDup_seqZ|apply elem_of_seqZ; lia|rewrite length_seqZ; lia].
Qed.

(** ** Changes of an entry *)

(** Only the segment table, the statistics of the super block and the newest time change. *)
Record sit_step (s s' : seg_sys) (g : Z) (se' : seg_entry) : Prop := {
  ss_entries : sentries (sit s') = <[g := se']> (sentries (sit s));
  ss_fre : fre s' = fre s;
  ss_dirt : dirt s' = dirt s;
  ss_last : last_victim (vict s') = last_victim (vict s);
  ss_cur : CURSEG_I s' = CURSEG_I s;
  ss_ssa : ssa s' = ssa s;
  ss_cp : CP_DISABLED s' = CP_DISABLED s;
  ss_err : CP_ERROR s' = CP_ERROR s
}.

Lemma inv_sit_step X s s' g se se' : seg_inv X s -> sit_step s s' g se' -> sit_ok (sit s') -> sentries (sit s) !! g = Some se -> se_type se' = se_type se ->
  (g ∉ free_segmap (fre s) -> ckpt_valid_map se' = ∅) ->
  (forall t, log_ok t -> inited (CURSEG_I s t) = true -> segno (CURSEG_I s t) = g ->
    (alloc_type (CURSEG_I s t) = LFS -> forall o, next_blkoff (CURSEG_I s t) <= o -> o ∉ ckpt_valid_map se') /\ next_blkoff (CURSEG_I s t) ∉ ckpt_valid_map se') ->
  (g ∈ dirty_segmap (dirt s) PRE -> valid_blocks se' = 0) -> ckpt_valid_map se ⊆ ckpt_valid_map se' ->
  (valid_blocks se' = valid_blocks se -> seg_inv X s') /\ seg_inv ({[g]} ∪ X) s'.
Proof.
  intros [Hs Hf Hfr Hc Hp Hne [Hl1 Hl2 Hl3 Hl4 Hl5] Hli Hla Hcp] [E1 E2 E3 E4 E5 E6 E7 E8] Hx E Ht Hfree Hcur Hpre Hsub.
  assert (Hvo : forall h, h <> g -> valid_of (sit s') h = valid_of (sit s) h) by (intros h Hh; unfold valid_of; by rewrite E1, lookup_insert_ne).
  assert (Hvg : valid_of (sit s') g = valid_blocks se') by (unfold valid_of; by rewrite E1, lookup_insert_eq).
  assert (Hcs : forall h, IS_CURSEG s' h = IS_CURSEG s h) by (intros; by apply curseg_same).
  assert (Hlist : lists_sound s').
  { constructor; rewrite ?E3, ?E2; [done| | | |].
    - intros h Hh. rewrite Hcs. destruct (Hl2 h Hh) as (? & ? & ? & Hv). split; [done|]. split; [done|]. split; [done|].
      destruct (decide (h = g)) as [->|]; [rewrite Hvg; by apply Hpre|by rewrite Hvo].
    - intros h Hh. rewrite Hcs. by apply Hl3.
    - intros t h Hth. rewrite (Hl4 t h Hth), E1. split; intros [? (e & Ee & Et)]; (split; [done|]).
      + destruct (decide (h = g)) as [->|]; [exists se'; rewrite lookup_insert_eq; split; [done|]; congruence|exists e; by rewrite lookup_insert_ne].
      + apply lookup_insert_Some in Ee as [[<- <-]|[_ Ee]]; [exists se; split; [done|]; congruence|by exists e].
    - intros h e Hh. rewrite E1. intros [[<- <-]|[_ Ee]]%lookup_insert_Some; [specialize (Hl5 g se Hh E); set_solver|by apply (Hl5 h)]. }
  assert (Hother : forall h, seg_ok h -> h ∉ X -> h <> g \/ valid_blocks se' = valid_blocks se -> listed s' h).
  { intros h Hh HX Hor. assert (Hv : valid_of (sit s') h = valid_of (sit s) h).
    { destruct (decide (h = g)) as [->|]; [|by apply Hvo]. destruct Hor as [|Hor]; [done|]. by rewrite Hvg, (valid_of_at _ _ _ E). }
    destruct (Hli h Hh HX) as [H1' H2' H3']. constructor; rewrite ?E3, ?E2, ?Hcs, Hv; done. }
  assert (Hrest : forall Y, (forall h, seg_ok h -> h ∉ Y -> listed s' h) -> seg_inv Y s').
  { intros Y HY. constructor; rewrite ?E2, ?E3, ?E4, ?E5; try done.
    - intros h e Hh Hn. rewrite E1. intros [[<- <-]|[_ Ee]]%lookup_insert_Some; [by apply Hfree|by apply (Hfr h)].
    - intros t Htt. destruct (Hc t Htt) as [K1 K2 K3 K4 K5]. constructor; rewrite ?E2; try done.
      + intros Hin Hal e o. rewrite E1. intros [[Hsg <-]|[_ Ee]]%lookup_insert_Some Ho; [by apply (Hcur t Htt Hin (eq_sym Hsg))|by eapply K4].
      + intros Hin e. rewrite E1. intros [[Hsg <-]|[_ Ee]]%lookup_insert_Some; [by apply (Hcur t Htt Hin (eq_sym Hsg))|by apply K5].
    - congruence. }
  split; [intros Hv; apply Hrest; intros; apply Hother; [done|done|by right]|]. apply Hrest. intros h Hh HX. apply Hother; [done|set_solver|left; set_solver].
Qed.

Lemma mark_dirty_sit s g : let s' := (__mark_sit_entry_dirty s g).1 in sit_ok (sit s) -> seg_ok g ->
  sentries (sit s') = sentries (sit s) /\ sec_entries (sit s') = sec_entries (sit s) /\ written_valid_blocks (sit s') = written_valid_blocks (sit s) /\
  dirty_sentries_bitmap (sit s') = {[g]} ∪ dirty_sentries_bitmap (sit s) /\ dirty_sentries (sit s') = Z.of_nat (size (dirty_sentries_bitmap (sit s'))) /\
  s' = with_sit s (sit s').
Proof.
  intros s' Hx Hg. unfold s', __mark_sit_entry_dirty. destruct (decide (g ∈ dirty_sentries_bitmap (sit s))) as [Hin|Hin]; cbn.
  - conjs; try done; [by rewrite subseteq_union_1_L by set_solver|apply Hx|by destruct s].
  - conjs; try done. rewrite size_add, (so_dirty _ Hx) by done. apply u32_small. pose proof (map_size_lt (dirty_sentries_bitmap (sit s)) MAIN_SEGS g Hg Hin (so_bits _ Hx)). pose proof main_small. lia.
Qed.

Lemma u10_small z : 0 <= z <= 512 -> u10 z = z.
Proof. intros Hz. apply Z.mod_small. lia. Qed.

(** The end of [update_sit_entry], common to both directions. *)
Lemma sit_commit s g se se' d db un : sit_ok (sit s) -> seg_ok g -> sentries (sit s) !! g = Some se -> entry_ok se' -> valid_blocks se' = valid_blocks se + d ->
  exists s', (let '(s, _) := __mark_sit_entry_dirty (with_counts (put_se s g se') db un) g in
    let x := sit s in
    sec ← if is_large_section then v ← sec_entries x !! GET_SEC_FROM_SEG g; Some (<[GET_SEC_FROM_SEG g := v +! d]> (sec_entries x)) else Some (sec_entries x);
    Some (with_sit s {| sentries := sentries x; sec_entries := sec; written_valid_blocks := written_valid_blocks x +! d;
                        dirty_sentries_bitmap := dirty_sentries_bitmap x; dirty_sentries := dirty_sentries x |})) = Some s' /\ sit_ok (sit s') /\ sit_step s s' g se'.
Proof.
  intros Hx Hg E He Hd. set (s1 := with_counts (put_se s g se') db un).
  assert (Hm : exists s2, (__mark_sit_entry_dirty s1 g).1 = s2 /\ sentries (sit s2) = <[g := se']> (sentries (sit s)) /\ sec_entries (sit s2) = sec_entries (sit s) /\
    written_valid_blocks (sit s2) = written_valid_blocks (sit s) /\ dirty_sentries_bitmap (sit s2) = {[g]} ∪ dirty_sentries_bitmap (sit s) /\
    dirty_sentries (sit s2) = Z.of_nat (size (dirty_sentries_bitmap (sit s2))) /\ s2 = with_sit s1 (sit s2)).
  { eexists. split; [reflexivity|]. unfold __mark_sit_entry_dirty, s1. cbn. destruct (decide (g ∈ dirty_sentries_bitmap (sit s))) as [Hin|Hin]; cbn.
    - conjs; try done; [by rewrite subseteq_union_1_L by set_solver|apply Hx].
    - conjs; try done. rewrite size_add, (so_dirty _ Hx) by done. apply u32_small. pose proof (map_size_lt (dirty_sentries_bitmap (sit s)) MAIN_SEGS g Hg Hin (so_bits _ Hx)). pose proof main_small. lia. }
  destruct Hm as (s2 & Es2 & M1 & M2 & M3 & M4 & M5 & M6). destruct (__mark_sit_entry_dirty s1 g) as [s2' b]. cbn in Es2. subst s2'. destruct (sec_of g Hg) as [Hsec Hsr].
  assert (Hsecs : exists sec, (if is_large_section then v ← sec_entries (sit s2) !! GET_SEC_FROM_SEG g; Some (<[GET_SEC_FROM_SEG g := v +! d]> (sec_entries (sit s2))) else Some (sec_entries (sit s2))) = Some sec /\
    (is_large_section = true -> exists v, sec_entries (sit s) !! (g / segs_per_sec) = Some v /\ sec = <[g / segs_per_sec := v +! d]> (sec_entries (sit s)))).
  { rewrite M2, Hsec. destruct is_large_section eqn:Hl; [|by exists (sec_entries (sit s))]. rewrite (so_sec _ Hx Hl _ Hsr). cbn. eauto. }
  destruct Hsecs as (sec & Hse & Hsecs). cbv zeta. rewrite Hse. cbn [mbind option_bind]. eexists. split; [reflexivity|]. split.
  - eapply (sit_update (sit s) _ g se se' d); cbn; try done; [by rewrite M3].
  - rewrite M6. constructor; cbn; done.
Qed.

Lemma sit_make_valid X s g o se : seg_inv X s -> seg_ok g -> off_ok o -> sentries (sit s) !! g = Some se -> o ∉ cur_valid_map se -> g ∈ free_segmap (fre s) ->
  (forall t, log_ok t -> inited (CURSEG_I s t) = true -> segno (CURSEG_I s t) = g -> (alloc_type (CURSEG_I s t) = LFS -> o < next_blkoff (CURSEG_I s t)) /\ o <> next_blkoff (CURSEG_I s t)) ->
  g ∉ dirty_segmap (dirt s) PRE ->
  exists s' se', update_sit_entry block_unit_discard s (blk g o) 1 = Some s' /\ seg_inv ({[g]} ∪ X) s' /\ sit_step s s' g se' /\
    cur_valid_map se' = {[o]} ∪ cur_valid_map se /\ ckpt_valid_map se' = {[o]} ∪ ckpt_valid_map se /\ se_type se' = se_type se.
Proof.
  intros Hi Hg Ho E Hn Huse Hcur Hpre. pose proof (so_entry _ (si_sit _ _ Hi) g se E) as He. destruct He as [T1 T2 T3 T4 T5] eqn:Eh. clear Eh. pose proof bps_range.
  assert (Hlt : Z.of_nat (size (cur_valid_map se)) < blks_per_seg) by (apply (map_size_lt _ _ o Ho Hn); set_solver).
  unfold update_sit_entry. rewrite get_segno, get_blkoff by done. unfold get_seg_entry. rewrite E. cbn [mbind option_bind]. unfold f2fs_usable_blks_in_seg.
  destruct (Z.ltb_spec (valid_blocks se + 1) 0); [lia|]. destruct (Z.ltb_spec blks_per_seg (valid_blocks se + 1)); [lia|]. cbn [orb Z.ltb Z.compare].
  unfold set_valid. rewrite decide_False by done. rewrite (si_cp _ _ Hi). cbn [negb andb].
  destruct (if block_unit_discard && _ then _ else _) as [dm db].
  set (ck := if bool_decide (o ∉ ckpt_valid_map se) then _ else _).
  assert (Hck : ck = ({[o]} ∪ ckpt_valid_map se, Z.of_nat (size ({[o]} ∪ ckpt_valid_map se)))).
  { unfold ck. case_bool_decide as Hb.
    - rewrite T5, u10_small, size_add by (try done; pose proof (map_size_lt (ckpt_valid_map se) blks_per_seg o Ho Hb T3); lia). done.
    - assert (o ∈ ckpt_valid_map se) by (destruct (decide (o ∈ ckpt_valid_map se)); [done|tauto]). by rewrite subseteq_union_1_L, T5 by set_solver. }
  clearbody ck. subst ck. cbn [mbind option_bind]. unfold add_ckpt_blocks. cbn [ckpt_valid_map]. rewrite decide_True by set_solver.
  set (se' := {| se_type := se_type se; valid_blocks := _; ckpt_valid_blocks := _; cur_valid_map := _; ckpt_valid_map := _; discard_map := dm; se_mtime := _ |}).
  assert (He' : entry_ok se'). { constructor; cbn; [done|set_solver|set_solver|rewrite u10_small, size_add by (done || lia); lia|done]. }
  assert (Hv' : valid_blocks se' = valid_blocks se + 1) by (cbn; rewrite u10_small; lia).
  destruct (sit_commit s g se se' 1 db (unusable_block_count s) (si_sit _ _ Hi) Hg E He' Hv') as (s' & E' & Hx' & Hst). exists s', se'. split; [exact E'|]. split; [|done].
  apply (inv_sit_step X s s' g se se' Hi Hst Hx' E eq_refl); [done| |done|cbn; set_solver].
  intros t Ht Hin Hsg. destruct (Hcur t Ht Hin Hsg) as [Hc1 Hc2]. destruct (si_cur _ _ Hi t Ht) as [_ _ _ Hc4 Hc5]. cbn. rewrite Hsg in *. split.
  - intros Hal o' Ho'. specialize (Hc1 Hal). specialize (Hc4 Hin Hal se o' E Ho'). rewrite elem_of_union, elem_of_singleton. intros [->|?]; [lia|done].
  - specialize (Hc5 Hin se E). rewrite elem_of_union, elem_of_singleton. intros [<-|?]; done.
Qed.

Lemma sit_make_invalid X s g o se : seg_inv X s -> seg_ok g -> off_ok o -> sentries (sit s) !! g = Some se -> o ∈ cur_valid_map se ->
  exists s' se', update_sit_entry block_unit_discard s (blk g o) (-1) = Some s' /\ seg_inv ({[g]} ∪ X) s' /\ sit_step s s' g se' /\
    cur_valid_map se' = cur_valid_map se ∖ {[o]} /\ ckpt_valid_map se' = ckpt_valid_map se /\ se_type se' = se_type se.
Proof.
  intros Hi Hg Ho E Hin. pose proof (so_entry _ (si_sit _ _ Hi) g se E) as He. pose proof (entry_bounds se He) as [Hvb _]. destruct He as [T1 T2 T3 T4 T5] eqn:Eh. clear Eh. pose proof bps_range.
  pose proof (size_remove (cur_valid_map se) o Hin) as Hsz. assert (Hck : o ∈ ckpt_valid_map se) by set_solver.
  unfold update_sit_entry. rewrite get_segno, get_blkoff by done. unfold get_seg_entry. rewrite E. cbn [mbind option_bind]. unfold f2fs_usable_blks_in_seg.
  destruct (Z.ltb_spec (valid_blocks se + -1) 0); [lia|]. destruct (Z.ltb_spec blks_per_seg (valid_blocks se + -1)); [lia|]. cbn [orb Z.ltb Z.compare].
  unfold clear_valid. rewrite decide_True by done. set (un := if CP_DISABLED s && _ then _ else _).
  destruct (if block_unit_discard && _ then _ else _) as [dm db]. cbn [mbind option_bind]. unfold add_ckpt_blocks. cbn [ckpt_valid_map]. rewrite decide_True by done.
  set (se' := {| se_type := se_type se; valid_blocks := _; ckpt_valid_blocks := _; cur_valid_map := _; ckpt_valid_map := _; discard_map := dm; se_mtime := _ |}).
  assert (He' : entry_ok se'). { constructor; cbn; [done|set_solver|done|rewrite u10_small by lia; lia|done]. }
  assert (Hv' : valid_blocks se' = valid_blocks se + -1) by (cbn; rewrite u10_small; lia).
  destruct (sit_commit s g se se' (-1) db un (si_sit _ _ Hi) Hg E He' Hv') as (s' & E' & Hx' & Hst). exists s', se'. split; [exact E'|]. split; [|done].
  apply (inv_sit_step X s s' g se se' Hi Hst Hx' E eq_refl); [intros Hf; by apply (si_free _ _ Hi g se)| | |done].
  - intros t Ht Hini Hsg. destruct (si_cur _ _ Hi t Ht) as [_ _ _ Hc4 Hc5]. cbn. rewrite Hsg in *. split; [intros; by apply Hc4|by apply Hc5].
  - intros Hp. destruct (ls_pre _ (si_lists _ _ Hi) g Hp) as (_ & _ & _ & Hv). rewrite (valid_of_at _ _ _ E), T4 in Hv. assert (size (cur_valid_map se) = 0%nat) as Hz by lia. apply size_zero in Hz. set_solver.
Qed.

(** ** Changes that keep the maps *)

Definition maps_of (s : seg_sys) (g : Z) : option (gset Z * gset Z) := (fun se => (cur_valid_map se, ckpt_valid_map se)) <$> sentries (sit s) !! g.

Record frame (s s' : seg_sys) : Prop := {
  fr_maps : forall g, maps_of s' g = maps_of s g;
  fr_fre : fre s' = fre s;
  fr_cur : CURSEG_I s' = CURSEG_I s;
  fr_ssa : ssa s' = ssa s;
  fr_err : CP_ERROR s' = CP_ERROR s
}.
Lemma frame_refl s : frame s s.
Proof. by constructor. Qed.
Lemma frame_trans s s' s'' : frame s s' -> frame s' s'' -> frame s s''.
Proof. intros [A1 A2 A3 A4 A5] [B1 B2 B3 B4 B5]. constructor; intros; try congruence. Qed.

Lemma maps_insert s s' g se se' : sentries (sit s') = <[g := se']> (sentries (sit s)) -> sentries (sit s) !! g = Some se -> cur_valid_map se' = cur_valid_map se ->
  ckpt_valid_map se' = ckpt_valid_map se -> forall h, maps_of s' h = maps_of s h.
Proof.
  intros E Hg H1' H2' h. unfold maps_of. rewrite E. destruct (decide (h = g)) as [->|]; [|by rewrite lookup_insert_ne]. rewrite lookup_insert_eq, Hg. cbn. by rewrite H1', H2'.
Qed.

Lemma sit_same x x' g se se' : sit_ok x -> sentries x !! g = Some se -> entry_ok se' -> valid_blocks se' = valid_blocks se -> cur_valid_map se' = cur_valid_map se -> ckpt_valid_map se' = ckpt_valid_map se ->
  sentries x' = <[g := se']> (sentries x) -> dirty_sentries_bitmap x' = dirty_sentries_bitmap x \/ dirty_sentries_bitmap x' = {[g]} ∪ dirty_sentries_bitmap x ->
  dirty_sentries x' = Z.of_nat (size (dirty_sentries_bitmap x')) -> written_valid_blocks x' = written_valid_blocks x -> sec_entries x' = sec_entries x -> sit_ok x'.
Proof.
  intros Hx E He Hv Hcu Hck Es Eb Ed Ew Ec. assert (Hg : seg_ok g) by (apply (so_dom x Hx); eauto).
  assert (Hsum : forall l, sum_valid x' l = sum_valid x l).
  { intros l. induction l as [|h l IH]; [done|]. cbn [sum_valid foldr]. fold (sum_valid x l) (sum_valid x' l). rewrite IH. f_equal. unfold valid_of. rewrite Es.
    destruct (decide (h = g)) as [->|]; [by rewrite lookup_insert_eq, E|by rewrite lookup_insert_ne]. }
  constructor.
  - intros h. rewrite Es. destruct (decide (h = g)) as [->|]; [rewrite lookup_insert_eq; naive_solver|rewrite lookup_insert_ne by done; apply Hx].
  - intros h e. rewrite Es. intros [[<- <-]|[_ He']]%lookup_insert_Some; [done|by apply (so_entry x Hx h)].
  - intros h e. rewrite Es. intros [[<- <-]|[Hne He']]%lookup_insert_Some Hn.
    + rewrite Hcu, Hck. apply (so_clean x Hx g se E). destruct Eb as [Eb|Eb]; rewrite Eb in Hn; set_solver.
    + apply (so_clean x Hx h e He'). destruct Eb as [Eb|Eb]; rewrite Eb in Hn; set_solver.
  - intros h Hh. destruct Eb as [Eb|Eb]; rewrite Eb in Hh; [by apply (so_bits x Hx)|]. apply elem_of_union in Hh as [->%elem_of_singleton|Hh]; [done|by apply (so_bits x Hx)].
  - done.
  - intros Hl c Hc. rewrite Ec, Hsum. by apply Hx.
  - rewrite Ew, Hsum. apply Hx.
Qed.

Lemma mtime_spec X s a ct old : seg_inv X s -> GET_SEGNO a = NULL_SEGNO \/ seg_ok (GET_SEGNO a) ->
  exists s', update_segment_mtime ct s a old = Some s' /\ seg_inv X s' /\ frame s s' /\ dirt s' = dirt s.
Proof.
  intros Hi Ha. unfold update_segment_mtime. destruct (Z.eqb_spec (GET_SEGNO a) NULL_SEGNO) as [|Hne]; [exists s; conjs; try done|].
  destruct Ha as [|Hg]; [done|]. set (g := GET_SEGNO a) in *. destruct (seg_entry_at X s g Hi Hg) as (se & E & He). unfold get_seg_entry. rewrite E. cbn [mbind option_bind].
  set (se' := set_se_mtime se _). set (s1 := put_se s g se'). set (s' := if max_mtime (vict s1) <? ct then _ else s1). exists s'. split; [done|].
  assert (He' : entry_ok se') by (destruct He; by constructor).
  assert (Hst : sit_step s s' g se') by (unfold s'; destruct (max_mtime (vict s1) <? ct); by constructor).
  assert (Hx : sit_ok (sit s')).
  { apply (sit_same (sit s) _ g se se'); try done; [apply Hi|apply Hst|..]; (unfold s'; destruct (max_mtime (vict s1) <? ct); try done; try (by left); apply Hi). }
  split.
  - apply (inv_sit_step X s s' g se se' Hi Hst Hx E eq_refl); [intros Hf; by apply (si_free _ _ Hi g se)| | |done|done].
    + intros t Ht Hini Hsg. destruct (si_cur _ _ Hi t Ht) as [_ _ _ Hc4 Hc5]. rewrite Hsg in *. split; [intros Hal o Hle; exact (Hc4 Hini Hal se o E Hle)|exact (Hc5 Hini se E)].
    + intros Hp. destruct (ls_pre _ (si_lists _ _ Hi) g Hp) as (_ & _ & _ & Hv). by rewrite (valid_of_at _ _ _ E) in Hv.
  - split; [|apply Hst]. destruct Hst as [S1 S2 S3 S4 S5 S6 S7 S8]. constructor; try done. by apply (maps_insert s s' g se se').
Qed.
End inv.
