(* ===== verification/SegLists.v ===== *)
(** * The lists of dirty and prefree segments *)

From S2P Require Import Prelude FreeNid NatCache SegBitmap SegState SegAlloc SegInv.

Section lists.
Context `{SegGeometry} (block_unit_discard : bool).
Notation seg_ok g := (0 <= g < MAIN_SEGS).
Notation log_ok t := (0 <= t < NO_CHECK_TYPE).

(** ** Bits and their counters *)

Definition nr_ok (d : dirty_seglist_info) : Prop := forall t, 0 <= t <= PRE -> nr_dirty d t = Z.of_nat (size (dirty_segmap d t)).

Lemma set_bit_spec d t g : nr_ok d ->
  nr_ok (set_dirty_bit d t g) /\ (forall t', dirty_segmap (set_dirty_bit d t g) t' = if decide (t' = t) then {[g]} ∪ dirty_segmap d t else dirty_segmap d t').
Proof.
  intros Hn. unfold set_dirty_bit. destruct (decide (g ∈ dirty_segmap d t)) as [Hin|Hin].
  - split; [done|]. intros t'. destruct (decide (t' = t)) as [->|]; [|done]. by rewrite subseteq_union_1_L by set_solver.
  - split; [|done]. intros t' Ht'. cbn. unfold upd. destruct (decide (t' = t)) as [->|]; [|by apply Hn]. rewrite size_add, Hn by done. done.
Qed.
Lemma clear_bit_spec d t g : nr_ok d ->
  nr_ok (clear_dirty_bit d t g) /\ (forall t', dirty_segmap (clear_dirty_bit d t g) t' = if decide (t' = t) then dirty_segmap d t ∖ {[g]} else dirty_segmap d t').
Proof.
  intros Hn. unfold clear_dirty_bit. destruct (decide (g ∈ dirty_segmap d t)) as [Hin|Hin].
  - split; [|done]. intros t' Ht'. cbn. unfold upd. destruct (decide (t' = t)) as [->|]; [|by apply Hn]. rewrite size_remove, Hn by done. done.
  - split; [done|]. intros t'. destruct (decide (t' = t)) as [->|]; [|done]. apply set_eq. intros x. destruct (decide (x = g)); set_solver.
Qed.

(** ** A segment moves between the lists *)

Record dirt_step (s s' : seg_sys) : Prop := {
  ds_sit : sit s' = sit s;
  ds_fre : fre s' = fre s;
  ds_last : last_victim (vict s') = last_victim (vict s);
  ds_cur : CURSEG_I s' = CURSEG_I s;
  ds_ssa : ssa s' = ssa s;
  ds_cp : CP_DISABLED s' = CP_DISABLED s;
  ds_err : CP_ERROR s' = CP_ERROR s
}.
Lemma dirt_step_refl s : dirt_step s s.
Proof. by constructor. Qed.
Lemma dirt_step_trans s s' s'' : dirt_step s s' -> dirt_step s' s'' -> dirt_step s s''.
Proof. intros [] []. constructor; congruence. Qed.
Lemma dirt_frame s s' : dirt_step s s' -> frame s s'.
Proof. intros [E1 E2 E3 E4 E5 E6 E7]. constructor; try done. intros g. unfold maps_of. by rewrite E1. Qed.

Lemma inv_relist X Y s s' g (P Q : Prop) : seg_inv X s -> dirt_step s s' -> nr_ok (dirt s') ->
  (forall h, h ∈ dirty_segmap (dirt s') PRE <-> (h <> g /\ h ∈ dirty_segmap (dirt s) PRE) \/ (h = g /\ P)) ->
  (forall h, h ∈ dirty_segmap (dirt s') DIRTY <-> (h <> g /\ h ∈ dirty_segmap (dirt s) DIRTY) \/ (h = g /\ Q)) ->
  (forall t h, 0 <= t < DIRTY -> h ∈ dirty_segmap (dirt s') t <-> h ∈ dirty_segmap (dirt s') DIRTY /\ exists se, sentries (sit s) !! h = Some se /\ se_type se = t) ->
  (P \/ Q -> seg_ok g /\ g ∈ free_segmap (fre s) /\ IS_CURSEG s g = false) -> (P -> valid_of (sit s) g = 0 /\ ~ Q) -> (Q -> forall se, sentries (sit s) !! g = Some se -> ckpt_valid_map se <> ∅) ->
  (g ∉ Y -> listed s' g) -> (forall h, h ∈ X -> h <> g -> h ∈ Y) -> seg_inv Y s'.
Proof.
  intros Hi [E1 E2 E3 E4 E5 E6 E7] Hnr Hp Hd Ht Hpq HP HQ' Hg HXY. pose proof (si_lists _ _ Hi) as [L1 L2 L3 L4 L5]. assert (Hcs : forall h, IS_CURSEG s' h = IS_CURSEG s h) by (intros; by apply curseg_same).
  constructor; rewrite ?E1, ?E2, ?E3; try apply Hi.
  - intros t Htt. rewrite E4. destruct (si_cur _ _ Hi t Htt). constructor; rewrite ?E1, ?E2; done.
  - rewrite E4. apply Hi.
  - rewrite E4. apply Hi.
  - constructor; rewrite ?E1, ?E2; [done| | |done|].
    + intros h Hh. rewrite Hcs. apply Hp in Hh as [[_ Hh]|[-> HP']]; [by apply L2|]. destruct (Hpq (or_introl HP')) as (? & ? & ?). by destruct (HP HP').
    + intros h Hh. rewrite Hcs. apply Hd in Hh as [[Hne Hh]|[-> HQ]].
      * destruct (L3 h Hh) as (? & ? & ? & Hn). repeat (split; [done|]). rewrite Hp. tauto.
      * destruct (Hpq (or_intror HQ)) as (? & ? & ?). repeat (split; [done|]). rewrite Hp. intros [[? _]|[_ HP']]; [done|]. by destruct (HP HP').
    + intros h e Hh E. apply Hd in Hh as [[_ Hh]|[-> HQ]]; [by apply (L5 h)|by apply HQ'].
  - intros h Hh HY. destruct (decide (h = g)) as [->|Hne]; [by apply Hg|]. destruct (si_listed _ _ Hi h Hh ltac:(intros HX; by apply HY, HXY)) as [K1 K2 K3].
    constructor; rewrite ?E1, ?E2, ?Hcs.
    + intros A B C. apply Hp. left. split; [done|]. by apply K1.
    + intros A B C. apply Hd. left. split; [done|]. by apply K2.
    + intros A. apply Hd in A as [[_ A]|[? _]]; [by apply K3|done].
  - rewrite E6. apply Hi.
Qed.

(** The number of valid blocks of a section. *)
Lemma section_valid X s g : seg_inv X s -> seg_ok g -> exists v, get_valid_blocks s g true = Some v /\
  (0 < valid_of (sit s) g < blks_per_seg -> is_large_section = true -> v <> 0 /\ v <> BLKS_PER_SEC).
Proof.
  intros Hi Hg. unfold get_valid_blocks. destruct (sec_of g Hg) as [-> Hsr]. destruct (seg_entry_at X s g Hi Hg) as (se & E & He). unfold get_seg_entry. rewrite E. cbn [andb].
  destruct is_large_section eqn:Hl; [|eexists; split; [done|]; intros _ ?; done]. rewrite (so_sec _ (si_sit _ _ Hi) Hl _ Hsr). eexists. split; [done|]. intros Hv _.
  assert (Hin : g ∈ seqZ (g / segs_per_sec * segs_per_sec) segs_per_sec) by (by apply in_sec). pose proof (sum_valid_at _ _ g (si_sit _ _ Hi) Hin). pose proof (sum_valid_room _ _ g (si_sit _ _ Hi) Hin) as Hr.
  rewrite length_seqZ in Hr. pose proof sec_pos. pose proof bps_range. unfold BLKS_PER_SEC. split; [lia|]. nia.
Qed.

(** [__remove_dirty_segment] takes a segment off a list. *)
Lemma remove_pre s g : nr_ok (dirt s) -> exists s', __remove_dirty_segment s g PRE = Some s' /\ dirt_step s s' /\ nr_ok (dirt s') /\
  (forall t, dirty_segmap (dirt s') t = if decide (t = PRE) then dirty_segmap (dirt s) PRE ∖ {[g]} else dirty_segmap (dirt s) t).
Proof.
  intros Hnr. destruct (clear_bit_spec (dirt s) PRE g Hnr) as [Hn Hm]. unfold __remove_dirty_segment. cbn [Z.eqb negb PRE DIRTY Pos.eqb]. eexists. split; [done|]. split; [by constructor|]. done.
Qed.
Lemma remove_dirty s g se v : nr_ok (dirt s) -> sentries (sit s) !! g = Some se -> get_valid_blocks s g true = Some v -> exists s', __remove_dirty_segment s g DIRTY = Some s' /\ dirt_step s s' /\ nr_ok (dirt s') /\
  (forall t, dirty_segmap (dirt s') t = if decide (t = DIRTY \/ t = se_type se) then dirty_segmap (dirt s) t ∖ {[g]} else dirty_segmap (dirt s) t).
Proof.
  intros Hnr E Hv. destruct (clear_bit_spec (dirt s) DIRTY g Hnr) as [Hn Hm]. destruct (clear_bit_spec _ (se_type se) g Hn) as [Hn2 Hm2].
  unfold __remove_dirty_segment. cbn [Z.eqb negb DIRTY Pos.eqb]. unfold get_seg_entry. cbn [sit with_dirt]. rewrite E. cbn [mbind option_bind dirt with_dirt]. 
  set (s1 := with_dirt (with_dirt s _) _). replace (get_valid_blocks s1 g true) with (Some v) by (rewrite <-Hv; done). cbn [mbind option_bind].
  set (s2 := if v =? 0 then _ else s1). assert (Hs2 : dirt_step s s2 /\ dirt s2 = clear_dirty_bit (clear_dirty_bit (dirt s) DIRTY g) (se_type se) g) by (unfold s2; destruct (v =? 0); split; done).
  destruct Hs2 as [Hst Hd]. clearbody s2 s1. eexists. split; [reflexivity|].
  assert (Hmaps : forall t, dirty_segmap (dirt s2) t = if decide (t = DIRTY \/ t = se_type se) then dirty_segmap (dirt s) t ∖ {[g]} else dirty_segmap (dirt s) t).
  { intros t. rewrite Hd, Hm2, !Hm. destruct (decide (t = se_type se)) as [->|]; [rewrite (decide_True (P := _ \/ _)) by auto; destruct (decide (se_type se = DIRTY)) as [->|]; [|done]; apply set_eq; set_solver|].
    destruct (decide (t = DIRTY)) as [->|]; [by rewrite decide_True by auto|by rewrite decide_False by tauto]. }
  rewrite <-Hd in Hn2. destruct is_large_section; [|done]. destruct ((v =? 0) || (v =? BLKS_PER_SEC)); [|destruct (IS_CURSEC s2 (GET_SEC_FROM_SEG g)); [done|]]; (split; [destruct Hst; by constructor|done]).
Qed.

(** The lists after [g] was put on the one it belongs to. *)
Lemma relist_one X s s' g se (P Q : Prop) : seg_inv X s -> seg_ok g -> g ∈ free_segmap (fre s) -> IS_CURSEG s g = false -> sentries (sit s) !! g = Some se ->
  dirt_step s s' -> nr_ok (dirt s') ->
  (forall h, h ∈ dirty_segmap (dirt s') PRE <-> (h <> g /\ h ∈ dirty_segmap (dirt s) PRE) \/ (h = g /\ P)) ->
  (forall h, h ∈ dirty_segmap (dirt s') DIRTY <-> (h <> g /\ h ∈ dirty_segmap (dirt s) DIRTY) \/ (h = g /\ Q)) ->
  (forall t, 0 <= t < DIRTY -> dirty_segmap (dirt s') t = if decide (t = se_type se) then (if decide (g ∈ dirty_segmap (dirt s') DIRTY) then {[g]} ∪ dirty_segmap (dirt s) t else dirty_segmap (dirt s) t ∖ {[g]}) else dirty_segmap (dirt s) t) ->
  (P <-> valid_blocks se = 0) -> (Q <-> 0 < valid_blocks se < blks_per_seg) -> seg_inv (X ∖ {[g]}) s'.
Proof.
  intros Hi Hg Huse Ecs E. pose proof (si_lists _ _ Hi) as [L1 L2 L3 L4 L5]. pose proof (valid_of_at _ _ _ E) as Hvo.
  intros Hst Hnr Hp Hd Ht HP HQ. apply (inv_relist X _ s s' g P Q); try done.
  - intros t h Hth. rewrite (Ht t Hth), (Hd h). destruct (decide (h = g)) as [->|Hne].
    + split.
      * destruct (decide (t = se_type se)) as [->|Htn]; [|intros Hin; apply L4 in Hin as [_ (e & Ee & Et)]; [congruence|done]].
        destruct (decide (g ∈ dirty_segmap (dirt s') DIRTY)) as [Hy|]; [|set_solver]. apply Hd in Hy. intros _. split; [done|]. eauto.
      * intros [Hgd (e & Ee & <-)]. rewrite E in Ee. injection Ee as <-. rewrite decide_True by done. rewrite decide_True; [set_solver|]. by apply Hd.
    + transitivity (h ∈ dirty_segmap (dirt s) t).
      * destruct (decide (t = se_type se)); [|done]. destruct (decide (g ∈ _)); set_solver.
      * rewrite (L4 t h Hth). tauto.
  - intros HP'. rewrite Hvo. split; [by apply HP|]. rewrite HQ. apply HP in HP'. lia.
  - intros HQ' e Ee. rewrite E in Ee. injection Ee as <-. apply HQ in HQ'. pose proof (so_entry _ (si_sit _ _ Hi) g se E) as [_ T2 _ T4 _].
    intros Hem. rewrite T4 in HQ'. replace (cur_valid_map se) with (∅ : gset Z) in HQ' by set_solver. rewrite size_empty in HQ'. lia.
  - intros _. destruct Hst as [E1 E2 E3 E4 E5 E6 E7]. constructor; rewrite ?E1, ?E2, ?Hvo.
    + intros _ _ Hz. apply Hp. right. split; [done|]. by apply HP.
    + intros _ _ Hz. apply Hd. right. split; [done|]. by apply HQ.
    + intros Hin. apply Hd in Hin as [[? _]|[_ HQ']]; [done|]. by apply HQ.
  - set_solver.
Qed.

Lemma remove_dirty_from X s s1 g se : seg_inv X s -> seg_ok g -> sentries (sit s) !! g = Some se -> dirt_step s s1 -> nr_ok (dirt s1) -> exists s', __remove_dirty_segment s1 g DIRTY = Some s' /\ dirt_step s s' /\ nr_ok (dirt s') /\
  (forall t, dirty_segmap (dirt s') t = if decide (t = DIRTY \/ t = se_type se) then dirty_segmap (dirt s1) t ∖ {[g]} else dirty_segmap (dirt s1) t).
Proof.
  intros Hi Hg E Hst Hnr. destruct (section_valid X s g Hi Hg) as (v & Ev & _).
  destruct (remove_dirty s1 g se v Hnr) as (s' & Es' & Hst' & Hrest); [by rewrite (ds_sit _ _ Hst)|unfold get_valid_blocks, get_seg_entry in *; by rewrite (ds_sit _ _ Hst)|].
  exists s'. split; [done|]. split; [by eapply dirt_step_trans|done].
Qed.

(** After a segment has changed, [locate_dirty_segment] puts it on the
    list it belongs to. *)
Lemma locate_spec X s g : seg_inv X s -> g = NULL_SEGNO \/ seg_ok g /\ g ∈ free_segmap (fre s) ->
  exists s', locate_dirty_segment s g = Some s' /\ seg_inv (X ∖ {[g]}) s' /\ dirt_step s s'.
Proof.
  intros Hi Hg. unfold locate_dirty_segment. destruct (Z.eqb_spec g NULL_SEGNO) as [->|Hnn]; cbn [orb].
  { exists s. split; [done|]. split; [|apply dirt_step_refl]. destruct Hi. constructor; try done. intros h Hh HX. apply si_listed; [done|]. intros HX'. assert (h <> NULL_SEGNO) by (intros ->; by apply null_not_seg in Hh). set_solver. }
  destruct Hg as [|[Hg Huse]]; [done|]. pose proof (si_lists _ _ Hi) as [L1 L2 L3 L4 L5]. destruct (IS_CURSEG s g) eqn:Ecs.
  { exists s. split; [done|]. split; [|apply dirt_step_refl]. pose proof Hi as Hi'. destruct Hi'. constructor; try done. intros h Hh HX. destruct (decide (h = g)) as [->|]; [|apply si_listed; [done|set_solver]].
    constructor; [congruence|congruence|]. intros Hd. apply L3 in Hd as (_ & _ & Hd & _). congruence. }
  destruct (seg_entry_at X s g Hi Hg) as (se & E & He). unfold get_seg_entry. rewrite E. cbn [mbind option_bind]. rewrite (si_cp _ _ Hi). cbn [negb orb andb]. rewrite andb_true_r.
  pose proof (valid_of_at _ _ _ E) as Hvo. pose proof (entry_bounds se He) as [Hvb _]. destruct (section_valid X s g Hi Hg) as (v & Ev & Hsv). unfold f2fs_usable_blks_in_seg.
  pose proof (eo_type se He) as Hty. unfold NR_PERSISTENT_LOG in Hty.
  destruct (Z.eqb_spec (valid_blocks se) 0) as [Hz|Hnz]; [|destruct (Z.ltb_spec (valid_blocks se) blks_per_seg) as [Hlt|Hge]].
  - unfold __locate_dirty_segment. rewrite Ecs. cbn [Z.eqb negb PRE DIRTY Pos.eqb mbind option_bind]. destruct (set_bit_spec (dirt s) PRE g L1) as [Hn Hm].
    destruct (remove_dirty_from X s (with_dirt s (set_dirty_bit (dirt s) PRE g)) g se Hi Hg E ltac:(by constructor) Hn) as (s' & -> & Hst & Hnr & Hmap). exists s'. split; [done|]. split; [|done].
    assert (Hdd : g ∉ dirty_segmap (dirt s') DIRTY) by (rewrite Hmap, decide_True by auto; set_solver).
    apply (relist_one X s s' g se True False Hi Hg Huse Ecs E); [done|done| | | |split; done|split; [done|lia]].
    + intros h. rewrite Hmap, decide_False by (unfold PRE, DIRTY; lia). cbn [dirt with_dirt]. rewrite Hm, decide_True by done. destruct (decide (h = g)) as [->|]; set_solver.
    + intros h. rewrite Hmap, decide_True by auto. cbn [dirt with_dirt]. rewrite Hm, decide_False by done. destruct (decide (h = g)) as [->|]; set_solver.
    + intros t Ht. rewrite (decide_False (P := g ∈ _)) by done. rewrite Hmap. cbn [dirt with_dirt]. rewrite Hm. rewrite (decide_False (P := t = PRE)) by (unfold PRE, DIRTY in *; lia).
      destruct (decide (t = se_type se)); [by rewrite decide_True by auto|by rewrite decide_False by (unfold DIRTY in *; lia)].
  - unfold __locate_dirty_segment. rewrite Ecs. cbn [Z.eqb negb DIRTY Pos.eqb]. unfold get_seg_entry. rewrite E. cbn [mbind option_bind].
    change 6 with DIRTY. destruct (Z.leb_spec DIRTY (se_type se)); [unfold DIRTY in *; lia|]. destruct (set_bit_spec (dirt s) DIRTY g L1) as [Hn Hm]. destruct (set_bit_spec _ (se_type se) g Hn) as [Hn2 Hm2].
    set (d := set_dirty_bit (set_dirty_bit (dirt s) DIRTY g) (se_type se) g) in *. rewrite Ev.
    set (res := if is_large_section then _ else _). assert (Hres : exists s', res = Some s' /\ dirt_step s s' /\ nr_ok (dirt s') /\ dirty_segmap (dirt s') = dirty_segmap d).
    { unfold res. cbn [mbind option_bind]. destruct is_large_section; [|eexists; split; [done|]; split; [by constructor|done]]. destruct (Hsv ltac:(lia) eq_refl) as [Hv1 Hv2].
      rewrite (proj2 (Z.eqb_neq v 0) Hv1), (proj2 (Z.eqb_neq v _) Hv2). cbn [orb]. destruct (IS_CURSEC s (GET_SEC_FROM_SEG g)); eexists; (split; [done|]; split; [by constructor|done]). }
    clearbody res. destruct Hres as (s' & -> & Hst & Hnr & Hmap). exists s'. split; [done|]. split; [|done].
    assert (Hdd : g ∈ dirty_segmap (dirt s') DIRTY). { rewrite Hmap. unfold d. rewrite Hm2, decide_False, Hm, decide_True by (unfold DIRTY in *; lia). set_solver. }
    apply (relist_one X s s' g se False True Hi Hg Huse Ecs E); [done|done| | | |lia|split; [lia|done]].
    + intros h. rewrite Hmap, Hm2, decide_False, Hm, decide_False by (unfold PRE, DIRTY in *; lia). destruct (decide (h = g)) as [->|]; [|set_solver]. split; [|tauto]. intros Hp. apply L2 in Hp as (_ & _ & _ & Hp). lia.
    + intros h. rewrite Hmap, Hm2, decide_False, Hm, decide_True by (unfold DIRTY in *; lia). destruct (decide (h = g)) as [->|]; set_solver.
    + intros t Ht. rewrite (decide_True (P := g ∈ _)) by done. rewrite Hmap, Hm2, !Hm. destruct (decide (t = se_type se)) as [->|]; [by rewrite decide_False by lia|by rewrite decide_False by lia].
  - destruct (remove_dirty_from X s s g se Hi Hg E (dirt_step_refl s) L1) as (s' & -> & Hst & Hnr & Hmap). exists s'. split; [done|]. split; [|done].
    assert (Hdd : g ∉ dirty_segmap (dirt s') DIRTY) by (rewrite Hmap, decide_True by auto; set_solver).
    apply (relist_one X s s' g se False False Hi Hg Huse Ecs E); [done|done| | | |lia|lia].
    + intros h. rewrite Hmap, decide_False by (unfold PRE, DIRTY; lia). destruct (decide (h = g)) as [->|]; [|set_solver]. split; [|tauto]. intros Hp. apply L2 in Hp as (_ & _ & _ & Hp). lia.
    + intros h. rewrite Hmap, decide_True by auto. destruct (decide (h = g)) as [->|]; set_solver.
    + intros t Ht. rewrite (decide_False (P := g ∈ _)) by done. rewrite Hmap. destruct (decide (t = se_type se)); [by rewrite decide_True by auto|by rewrite decide_False by (unfold DIRTY in *; lia)].
Qed.
End lists.
