(* ===== verification/SegCur.v ===== *)
(** * Free segments and the switch of a log to another segment *)

From S2P Require Import Prelude FreeNid NatCache SegBitmap SegState SegAlloc SegInv SegLists.

Section cur.
Context `{SegGeometry} (block_unit_discard : bool).
Notation seg_ok g := (0 <= g < MAIN_SEGS).
Notation off_ok o := (0 <= o < blks_per_seg).
Notation log_ok t := (0 <= t < NO_CHECK_TYPE).

(** ** Searches *)

Lemma next_zero_spec m size offset : offset < size -> offset <= next_zero m size offset <= size /\ (next_zero m size offset < size -> next_zero m size offset ∉ m) /\
  (forall i, offset <= i < next_zero m size offset -> i ∈ m).
Proof.
  intros Hlt. destruct (next_bit_is_next (fun i => bool_decide (i ∉ m)) size offset Hlt) as [N1 N2 N3]. fold (next_zero m size offset) in *. split; [done|]. split.
  - intros Hr. by apply N3, bool_decide_eq_true in Hr.
  - intros i Hi. apply N2, bool_decide_eq_false in Hi. destruct (decide (i ∈ m)); [done|tauto].
Qed.
Lemma next_zero_end m size offset : size <= offset -> next_zero m size offset = size.
Proof. intros Hle. unfold next_zero, next_bit. destruct (Z.leb_spec size offset); [done|lia]. Qed.
Lemma next_set_spec m size offset : offset < size -> offset <= next_set m size offset <= size /\ (next_set m size offset < size -> next_set m size offset ∈ m) /\
  (forall i, offset <= i < next_set m size offset -> i ∉ m).
Proof.
  intros Hlt. destruct (next_bit_is_next (fun i => bool_decide (i ∈ m)) size offset Hlt) as [N1 N2 N3]. fold (next_set m size offset) in *. split; [done|]. split.
  - intros Hr. by apply N3, bool_decide_eq_true in Hr.
  - intros i Hi. by apply N2, bool_decide_eq_false in Hi.
Qed.

(** ** The maps of free segments and sections *)

Lemma secs_pos : 0 < MAIN_SECS.
Proof. apply sec_pos. Qed.
Lemma count_segs_range m : 0 <= count_out m MAIN_SEGS <= MAIN_SEGS.
Proof. apply count_out_range. pose proof main_pos. lia. Qed.
Lemma count_secs_range m : 0 <= count_out m MAIN_SECS <= MAIN_SECS.
Proof. apply count_out_range. pose proof secs_pos. lia. Qed.

Lemma seg_of_sec c : 0 <= c <= MAIN_SECS -> GET_SEG_FROM_SEC c = c * segs_per_sec.
Proof. intros Hc. unfold GET_SEG_FROM_SEC. apply u32_small. pose proof sec_pos. pose proof main_small. unfold MAIN_SEGS in *. nia. Qed.
Lemma sec_first c : 0 <= c < MAIN_SECS -> seg_ok (c * segs_per_sec) /\ c * segs_per_sec / segs_per_sec = c.
Proof. intros Hc. pose proof sec_pos. unfold MAIN_SEGS. split; [nia|]. apply Z.div_mul. lia. Qed.

Lemma section_empty_iff f g : seg_ok g -> section_empty f g = true <-> forall h, seg_ok h -> h / segs_per_sec = g / segs_per_sec -> h ∉ free_segmap f.
Proof.
  intros Hg. destruct (sec_of g Hg) as [Hs Hsr]. pose proof sec_pos as [Hp _]. pose proof main_small. unfold section_empty, f2fs_usable_segs_in_sec. rewrite Hs, seg_of_sec by lia. set (c := g / segs_per_sec) in *.
  assert (Hend : 0 <= c * segs_per_sec /\ c * segs_per_sec + segs_per_sec <= MAIN_SEGS) by (unfold MAIN_SEGS; nia). rewrite u32_small by lia.
  assert (Hlt0 : c * segs_per_sec < c * segs_per_sec + segs_per_sec) by lia. destruct (next_set_spec (free_segmap f) _ _ Hlt0) as (N1 & N2 & N3). rewrite Z.leb_le. split.
  - intros Hle h Hh Hc. apply N3. apply in_sec, elem_of_seqZ in Hc; lia.
  - intros Hno. destruct (Z.lt_ge_cases (next_set (free_segmap f) (c * segs_per_sec + segs_per_sec) (c * segs_per_sec)) (c * segs_per_sec + segs_per_sec)) as [Hlt|]; [|lia]. exfalso. specialize (N2 Hlt).
    revert N2. apply Hno; [lia|]. apply in_sec; [lia|]. apply elem_of_seqZ. lia.
Qed.

Lemma set_inuse_ok f g : free_ok f -> seg_ok g -> g ∉ free_segmap f -> free_ok (__set_inuse f g).
Proof.
  intros [F1 F2 F3] Hg Hn. destruct (sec_of g Hg) as [Hs Hsr]. pose proof main_small. pose proof secs_le. pose proof sec_pos. constructor; cbn; rewrite ?Hs.
  - rewrite F1, count_out_add by done. pose proof (count_segs_range ({[g]} ∪ free_segmap f)). rewrite count_out_add in * by done. apply u32_small. pose proof (count_segs_range (free_segmap f)). lia.
  - destruct (decide (g / segs_per_sec ∈ free_secmap f)) as [Hin|Hin]; [by rewrite subseteq_union_1_L by set_solver|]. rewrite F2, count_out_add by done.
    pose proof (count_secs_range ({[g / segs_per_sec]} ∪ free_secmap f)). rewrite count_out_add in * by done. apply u32_small. pose proof (count_secs_range (free_secmap f)). lia.
  - intros c Hc. rewrite elem_of_union, elem_of_singleton, (F3 c Hc). split.
    + intros [->|(h & ? & ? & ?)]; [exists g|exists h]; set_solver.
    + intros (h & Hh & Hhc & [->%elem_of_singleton|Hin]%elem_of_union); [by left|right; eauto].
Qed.
Lemma test_and_inuse_ok f g : free_ok f -> seg_ok g -> free_ok (__set_test_and_inuse f g) /\ free_segmap (__set_test_and_inuse f g) = {[g]} ∪ free_segmap f.
Proof.
  intros Hf Hg. unfold __set_test_and_inuse. destruct (decide (g ∈ free_segmap f)); [split; [done|]; by rewrite subseteq_union_1_L by set_solver|]. split; [by apply set_inuse_ok|done].
Qed.

(** A segment is given back; the section of a log keeps its mark, since the segment
    of the log is in use. *)
Lemma test_and_free_ok cursec f g inmem : free_ok f -> seg_ok g -> g ∈ free_segmap f ->
  (negb inmem && cursec = true -> exists h, h <> g /\ seg_ok h /\ h / segs_per_sec = g / segs_per_sec /\ h ∈ free_segmap f) ->
  free_ok (__set_test_and_free cursec f g inmem) /\ free_segmap (__set_test_and_free cursec f g inmem) = free_segmap f ∖ {[g]}.
Proof.
  intros [F1 F2 F3] Hg Hin Hcs. destruct (sec_of g Hg) as [Hs Hsr]. pose proof main_small. pose proof secs_le. pose proof sec_pos. unfold __set_test_and_free. rewrite decide_True by done. rewrite Hs.
  set (f1 := {| free_segmap := free_segmap f ∖ {[g]}; free_segments := _; free_secmap := _; free_sections := _ |}).
  assert (K1 : free_segments f +! 1 = count_out (free_segmap f ∖ {[g]}) MAIN_SEGS).
  { rewrite F1, count_out_remove by done. pose proof (count_segs_range (free_segmap f ∖ {[g]})). rewrite count_out_remove in * by done. apply u32_small. pose proof (count_segs_range (free_segmap f)). lia. }
  assert (Hother : forall c, 0 <= c < MAIN_SECS -> c <> g / segs_per_sec -> c ∈ free_secmap f <-> exists h, seg_ok h /\ h / segs_per_sec = c /\ h ∈ free_segmap f ∖ {[g]}).
  { intros c Hc Hne. rewrite (F3 c Hc). split; intros (h & ? & ? & ?); exists h; (split; [done|]; split; [done|]); [|set_solver]. apply elem_of_difference. split; [done|]. intros ->%elem_of_singleton. done. }
  assert (Hsec : g / segs_per_sec ∈ free_secmap f) by (apply F3; eauto).
  assert (Hkeep : (exists h, h <> g /\ seg_ok h /\ h / segs_per_sec = g / segs_per_sec /\ h ∈ free_segmap f) -> free_ok f1).
  { intros (h & Hne & Hh & Hhs & Hhi). constructor; cbn; [done|done|]. intros c Hc. destruct (decide (c = g / segs_per_sec)) as [->|]; [|by apply Hother]. split; [|done]. intros _. exists h. set_solver. }
  destruct (negb inmem && cursec); [split; [by apply Hkeep, Hcs|done]|]. rewrite (bool_decide_eq_true_2 _ Hsec), andb_true_r. destruct (section_empty f1 g) eqn:Ese.
  - split; [|done]. rewrite section_empty_iff in Ese by done. constructor; cbn; [done| |].
    + rewrite F2, count_out_remove by done. pose proof (count_secs_range (free_secmap f ∖ {[g / segs_per_sec]})). rewrite count_out_remove in * by done. apply u32_small. pose proof (count_secs_range (free_secmap f)). lia.
    + intros c Hc. destruct (decide (c = g / segs_per_sec)) as [->|Hne]; [|rewrite <-Hother by done; set_solver]. split; [set_solver|]. intros (h & Hh & Hhs & Hhi). by destruct (Ese h Hh Hhs).
  - split; [|done]. apply Hkeep. destruct (decide (Exists (fun h => h <> g /\ h / segs_per_sec = g / segs_per_sec /\ h ∈ free_segmap f) (seqZ 0 MAIN_SEGS))) as [Hex|Hno].
    + apply list.Exists_exists in Hex as (h & Hh%elem_of_seqZ & ? & ? & ?). exists h. split; [done|]. split; [lia|done].
    + exfalso. assert (Ht : section_empty f1 g = true); [|congruence]. apply section_empty_iff; [done|]. intros h Hh Hhs [Hhi Hhn]%elem_of_difference. apply Hno, list.Exists_exists. exists h. split; [apply elem_of_seqZ; lia|set_solver].
Qed.

(** ** A section to write to *)

Lemma left_loop_spec fuel : forall m ls, 0 <= ls < MAIN_SECS -> ls < Z.of_nat fuel -> (exists c, 0 <= c < MAIN_SECS /\ c ∉ m) ->
  exists c, left_loop fuel m ls = Some c /\ 0 <= c < MAIN_SECS /\ c ∉ m /\ (ls ∉ m -> c = ls).
Proof.
  induction fuel as [|fuel IH]; intros m ls Hls Hf Hex; [lia|]. cbn [left_loop]. destruct (Z.leb_spec MAIN_SECS ls); [lia|]. destruct (decide (ls ∈ m)) as [Hin|Hin].
  - destruct (Z.ltb_spec 0 ls).
    + destruct (IH m (ls - 1) ltac:(lia) ltac:(lia) Hex) as (c & E & ? & ? & _). exists c. done.
    + destruct Hex as (c & Hc & Hcm). destruct (next_zero_spec m MAIN_SECS 0 secs_pos) as (N1 & N2 & N3).
      destruct (Z.leb_spec MAIN_SECS (next_zero m MAIN_SECS 0)); [exfalso; apply Hcm, N3; lia|]. eexists. split; [done|]. split; [lia|]. split; [by apply N2|done].
  - exists ls. done.
Qed.

Lemma find_sec_spec right m hint gl ls : 0 <= hint -> (right = false -> hint <= MAIN_SECS) -> (exists c, 0 <= c < MAIN_SECS /\ c ∉ m) ->
  (gl = true -> right = false /\ 0 <= ls < MAIN_SECS /\ ls ∉ m) ->
  exists c gl' ls', find_sec right m hint gl ls = Some (c, gl', ls') /\ 0 <= c < MAIN_SECS /\ c ∉ m /\ (gl' = true -> right = false /\ ls' = c).
Proof.
  intros Hh Hhr Hex Hgl. pose proof sec_pos. pose proof main_small. pose proof secs_le. unfold find_sec.
  assert (Hfound : (next_zero m MAIN_SECS hint < MAIN_SECS -> 0 <= next_zero m MAIN_SECS hint /\ next_zero m MAIN_SECS hint ∉ m) /\ (MAIN_SECS <= next_zero m MAIN_SECS hint -> hint < MAIN_SECS -> forall i, hint <= i < MAIN_SECS -> i ∈ m)).
  { destruct (Z.lt_ge_cases hint MAIN_SECS) as [Hlt|Hge]; [|rewrite next_zero_end by done; lia]. destruct (next_zero_spec m MAIN_SECS hint Hlt) as (N1 & N2 & N3). split; [intros; split; [lia|by apply N2]|].
    intros Hle _ i Hi. apply N3. lia. }
  destruct Hfound as [Hfd Hnf]. assert (Hleft : forall ls, 0 <= ls < MAIN_SECS -> exists c, left_loop (S (Z.to_nat ls)) m ls = Some c /\ 0 <= c < MAIN_SECS /\ c ∉ m /\ (ls ∉ m -> c = ls)) by (intros; apply left_loop_spec; [done|lia|done]).
  destruct (Z.leb_spec MAIN_SECS (next_zero m MAIN_SECS hint)) as [Hge|Hlt].
  - destruct right eqn:Er.
    + destruct Hex as (c & Hc & Hcm). destruct (next_zero_spec m MAIN_SECS 0 secs_pos) as (N1 & N2 & N3). destruct (Z.leb_spec MAIN_SECS (next_zero m MAIN_SECS 0)); [exfalso; apply Hcm, N3; lia|].
      cbn [mbind option_bind]. destruct gl; [by destruct (Hgl eq_refl)|]. cbn [negb]. eexists _, _, _. split; [done|]. split; [lia|]. split; [by apply N2|done].
    + cbn [mbind option_bind negb]. assert (Hh1 : 1 <= hint). { destruct Hex as (c & Hc & Hcm). destruct (Z.lt_ge_cases hint 1); [|lia]. exfalso. apply Hcm, Hnf; lia. }
      specialize (Hhr eq_refl). rewrite u32_small by lia. destruct (Hleft (hint - 1) ltac:(lia)) as (c & E & Hc & Hcm & _). rewrite E. cbn [mbind option_bind]. eexists _, _, _. split; [done|]. done.
  - cbn [mbind option_bind]. destruct (Hfd Hlt) as [H0' Hnm]. destruct gl; cbn [negb]; [|eexists _, _, _; split; [done|]; split; [lia|done]].
    destruct (Hgl eq_refl) as (-> & Hls & Hlm). destruct (Hleft ls Hls) as (c & E & Hc & Hcm & _). rewrite E. cbn [mbind option_bind]. eexists _, _, _. split; [done|]. done.
Qed.

(** Hints for the search: a segment, or none for a log without one that goes right. *)
Definition hint_ok (g : Z) (right : bool) : Prop := seg_ok g \/ g = MAIN_SEGS /\ segs_per_sec = 1 \/ g = NULL_SEGNO /\ right = true.

Lemma get_new_segment_spec X s g new_sec right : seg_inv X s -> 0 < free_sections (fre s) -> hint_ok g right ->
  exists sg, get_new_segment s g new_sec right = Some (with_fre s (__set_inuse (fre s) sg), sg) /\ seg_ok sg /\ sg ∉ free_segmap (fre s).
Proof.
  intros Hi Hfs Hh. pose proof (si_fre _ _ Hi) as [F1 F2 F3]. pose proof sec_pos. pose proof main_small. pose proof secs_le. pose proof main_pos.
  rewrite F2 in Hfs. apply count_out_pos in Hfs. unfold get_new_segment. set (got := fun sg => if decide (sg ∈ free_segmap (fre s)) then None else Some (with_fre s (__set_inuse (fre s) sg), sg)).
  assert (Hgot : forall c, 0 <= c < MAIN_SECS -> c ∉ free_secmap (fre s) -> exists sg, got (GET_SEG_FROM_SEC c) = Some (with_fre s (__set_inuse (fre s) sg), sg) /\ seg_ok sg /\ sg ∉ free_segmap (fre s)).
  { intros c Hc Hcm. destruct (sec_first c Hc) as [Hs1 Hs2]. rewrite seg_of_sec by lia. exists (c * segs_per_sec). assert (Hn : c * segs_per_sec ∉ free_segmap (fre s)) by (intros Hin; apply Hcm, F3; [done|]; eauto).
    unfold got. by rewrite decide_False. }
  assert (Hhint : 0 <= GET_SEC_FROM_SEG g /\ (right = false -> GET_SEC_FROM_SEG g <= MAIN_SECS)).
  { destruct Hh as [Hg|[[-> Hs1]|[-> ->]]].
    - destruct (sec_of g Hg) as [-> ?]. lia.
    - unfold GET_SEC_FROM_SEG. destruct (Z.eqb_spec MAIN_SEGS NULL_SEGNO) as [E|]; [unfold NULL_SEGNO in E; lia|]. rewrite Hs1, Z.div_1_r. unfold MAIN_SEGS. rewrite Hs1. lia.
    - unfold GET_SEC_FROM_SEG. rewrite Z.eqb_refl. unfold NULL_SEGNO. split; [lia|done]. }
  destruct Hhint as [Hh0 Hh1]. set (hint := GET_SEC_FROM_SEG g) in *. set (bound := GET_SEG_FROM_SEC (hint +! 1)). set (sg := next_zero (free_segmap (fre s)) bound (g +! 1)).
  destruct (negb new_sec && negb ((g +! 1) mod segs_per_sec =? 0) && (sg <? bound)) eqn:Eq.
  { apply andb_true_iff in Eq as [[_ Hmod%negb_true_iff%Z.eqb_neq]%andb_true_iff Hlt%Z.ltb_lt]. exists sg.
    assert (Hg : seg_ok g). { destruct Hh as [Hg|[[-> Hs1]|[-> _]]]; [done|exfalso; rewrite Hs1, Z.mod_1_r in Hmod; done|exfalso; apply Hmod; replace (NULL_SEGNO +! 1) with 0 by reflexivity; apply Z.mod_0_l; lia]. }
    destruct (sec_of g Hg) as [Hs Hsr]. unfold hint in *. rewrite Hs in *. assert (Hb : bound = (g / segs_per_sec + 1) * segs_per_sec) by (unfold bound; rewrite Hs, u32_small by lia; apply seg_of_sec; lia).
    assert (Hg1 : g +! 1 = g + 1) by (apply u32_small; lia). unfold sg in *. rewrite Hg1 in *. assert (Hlt' : g + 1 < bound).
    { destruct (Z.lt_ge_cases (g + 1) bound); [done|]. rewrite next_zero_end in Hlt by done. lia. }
    destruct (next_zero_spec (free_segmap (fre s)) bound (g + 1) Hlt') as (N1 & N2 & _). specialize (N2 Hlt). unfold got. rewrite decide_False by done. split; [done|]. split; [|done].
    assert (bound <= MAIN_SEGS) by (rewrite Hb; unfold MAIN_SEGS; nia). lia. }
  destruct (find_sec_spec right (free_secmap (fre s)) hint false hint Hh0 Hh1 Hfs ltac:(done)) as (c & gl & ls & -> & Hc & Hcm & Hgl). cbn [mbind option_bind].
  assert (Hzone : GET_ZONE_FROM_SEC c = c / secs_per_zone) by (unfold GET_ZONE_FROM_SEC; destruct (Z.eqb_spec c NULL_SEGNO) as [->|]; [unfold NULL_SEGNO in *; lia|done]). rewrite Hzone. set (z := c / secs_per_zone).
  assert (Hz : 0 <= z /\ z * secs_per_zone <= c) by (unfold z; split; [apply Z.div_pos; lia|rewrite Z.mul_comm; apply Z.mul_div_le; lia]).
  destruct ((secs_per_zone =? 1) || (z =? GET_ZONE_FROM_SEG g) || _ || _) eqn:Eacc; [by apply Hgot|].
  apply orb_false_iff in Eacc as [[[_ _]%orb_false_iff Edir]%orb_false_iff _]. assert (Hz1 : z + 1 < 2 ^ 32) by nia. rewrite (u32_small (z + 1)) in * by lia.
  set (hint2 := if gl then _ else _). assert (Hh2 : 0 <= hint2 <= MAIN_SECS).
  { unfold hint2. destruct gl.
    - destruct (Hgl eq_refl) as [-> ->]. cbn in Edir. apply Z.eqb_neq in Edir. rewrite (u32_small (z * secs_per_zone)) by nia. rewrite u32_small by nia. nia.
    - destruct (Z.leb_spec (MAIN_SECS / secs_per_zone) (z + 1)) as [|Hlt]; [lia|]. assert ((z + 1) * secs_per_zone <= MAIN_SECS) by (pose proof (Z.mul_div_le MAIN_SECS _ (proj1 (proj2 sec_pos))); nia). rewrite u32_small by nia. nia. }
  destruct (find_sec_spec right (free_secmap (fre s)) hint2 gl ls ltac:(lia) ltac:(lia) Hfs) as (c2 & gl2 & ls2 & -> & Hc2 & Hcm2 & _); [intros Hg; destruct (Hgl Hg) as [? ->]; done|].
  cbn [mbind option_bind]. by apply Hgot.
Qed.

(** ** A log moves to another segment *)

Lemma maps_valid s s' g : sit_ok (sit s) -> sit_ok (sit s') -> maps_of s' g = maps_of s g -> valid_of (sit s') g = valid_of (sit s) g.
Proof.
  intros Hx Hx' E. unfold maps_of, valid_of in *. destruct (sentries (sit s) !! g) as [e|] eqn:E1, (sentries (sit s') !! g) as [e'|] eqn:E2; try done. cbn in E. injection E as Ec _.
  rewrite (eo_valid _ (so_entry _ Hx g e E1)), (eo_valid _ (so_entry _ Hx' g e' E2)). by rewrite Ec.
Qed.
Lemma maps_ckpt s s' g se' : maps_of s' g = maps_of s g -> sentries (sit s') !! g = Some se' ->
  exists se, sentries (sit s) !! g = Some se /\ ckpt_valid_map se = ckpt_valid_map se' /\ cur_valid_map se = cur_valid_map se'.
Proof. unfold maps_of. intros E E'. rewrite E' in E. destruct (sentries (sit s) !! g) as [e|]; [|done]. cbn in E. injection E as E1 E2. eauto. Qed.
Lemma curseg_upd s s' t c' h : (forall u, CURSEG_I s' u = upd (CURSEG_I s) t c' u) -> h <> segno c' -> h <> segno (CURSEG_I s t) -> log_ok t -> IS_CURSEG s' h = IS_CURSEG s h.
Proof.
  intros E H1' H2' Ht. destruct (IS_CURSEG s h) eqn:Ec.
  - apply curseg_iff in Ec as (u & Hu & Hs). apply curseg_iff. exists u. split; [done|]. rewrite E. unfold upd. destruct (decide (u = t)) as [->|]; [congruence|done].
  - rewrite curseg_not in Ec |- *. intros u Hu. rewrite E. unfold upd. destruct (decide (u = t)); [congruence|by apply Ec].
Qed.

Lemma inv_switch X s s' t sg c' : seg_inv X s -> log_ok t -> seg_ok sg -> IS_CURSEG s sg = false ->
  sit_ok (sit s') -> (forall g, maps_of s' g = maps_of s g) -> (forall g, g <> sg -> se_type <$> sentries (sit s') !! g = se_type <$> sentries (sit s) !! g) ->
  free_ok (fre s') -> free_segmap (fre s') = {[sg]} ∪ free_segmap (fre s) ->
  nr_ok (dirt s') -> (forall u h, 0 <= u <= PRE -> h ∈ dirty_segmap (dirt s') u <-> h <> sg /\ h ∈ dirty_segmap (dirt s) u) ->
  (forall u, CURSEG_I s' u = upd (CURSEG_I s) t c' u) -> cur_ok s' c' -> inited c' = true -> segno c' = sg ->
  last_victim (vict s') = last_victim (vict s) -> CP_DISABLED s' = CP_DISABLED s -> seg_inv ({[segno (CURSEG_I s t)]} ∪ X) s'.
Proof.
  intros Hi Ht Hsg Hnc Hx Hm Hty Hf Hfm Hnr Hd Ec Hc' Hini Hseg Hla Hcp. pose proof (si_lists _ _ Hi) as [L1 L2 L3 L4 L5]. rewrite curseg_not in Hnc.
  assert (Hv : forall g, valid_of (sit s') g = valid_of (sit s) g) by (intros g; apply maps_valid; [apply Hi|done|apply Hm]).
  assert (Hcs : forall h, h <> sg -> IS_CURSEG s h = false -> IS_CURSEG s' h = false).
  { intros h Hh. rewrite !curseg_not. intros Hn u Hu. rewrite Ec. unfold upd. destruct (decide (u = t)); [congruence|by apply Hn]. }
  constructor; try done.
  - intros g se Hg Hn E. destruct (maps_ckpt s s' g se (Hm g) E) as (e & Ee & <- & _). apply (si_free _ _ Hi g e Hg); [set_solver|done].
  - intros u Hu. rewrite Ec. unfold upd. destruct (decide (u = t)); [done|]. destruct (si_cur _ _ Hi u Hu) as [K1 K2 K3 K4 K5]. constructor; try done.
    + intros Hin. destruct (K2 Hin) as (? & ? & ? & ?). split; [done|]. split; [set_solver|done].
    + intros Hin Hal se o E Ho. destruct (maps_ckpt s s' _ se (Hm _) E) as (e & Ee & <- & _). by eapply K4.
    + intros Hin se E. destruct (maps_ckpt s s' _ se (Hm _) E) as (e & Ee & <- & _). by apply K5.
  - intros u Hu. rewrite Ec. unfold upd. destruct (decide (u = t)); [done|by apply Hi].
  - intros u u' Hu Hu' Hne. rewrite !Ec. unfold upd. destruct (decide (u = t)) as [->|], (decide (u' = t)) as [->|]; try done; [|intros _; rewrite Hseg; by apply Hnc|by apply (si_cur_ne _ _ Hi)].
    intros _. rewrite Hseg. intros E. by apply (Hnc u' Hu').
  - constructor; [done| | | |].
    + intros h Hh. apply Hd in Hh as [Hne Hh]; [|done]. destruct (L2 h Hh) as (? & ? & ? & ?). rewrite Hv. split; [done|]. split; [set_solver|]. split; [by apply Hcs|done].
    + intros h Hh. apply Hd in Hh as [Hne Hh]; [|done]. destruct (L3 h Hh) as (? & ? & ? & ?). split; [done|]. split; [set_solver|]. split; [by apply Hcs|]. rewrite Hd by done. tauto.
    + intros u h Hu. rewrite !Hd by (unfold DIRTY, PRE in *; lia). rewrite (L4 u h Hu). split.
      * intros (Hne & ? & e & Ee & Et). split; [done|]. specialize (Hty h Hne). rewrite Ee in Hty. cbn in Hty. destruct (sentries (sit s') !! h) as [e'|]; [|done]. cbn in Hty. exists e'. split; [done|congruence].
      * intros ((Hne & ?) & e & Ee & Et). split; [done|]. split; [done|]. specialize (Hty h Hne). rewrite Ee in Hty. cbn in Hty. destruct (sentries (sit s) !! h) as [e'|]; [|done]. cbn in Hty. exists e'. split; [done|congruence].
    + intros h e Hh E. apply Hd in Hh as [Hne Hh]; [|done]. destruct (maps_ckpt s s' h e (Hm h) E) as (e0 & Ee & <- & _). by apply (L5 h).
  - intros h Hh HX. destruct (decide (h = sg)) as [->|Hne].
    { assert (IS_CURSEG s' sg = true) by (apply curseg_iff; exists t; rewrite Ec; unfold upd; by rewrite decide_True). constructor; [congruence|congruence|]. rewrite Hd by done. tauto. }
    assert (Hcu : IS_CURSEG s' h = IS_CURSEG s h) by (apply (curseg_upd s s' t c'); [done|congruence|set_solver|done]).
    destruct (si_listed _ _ Hi h Hh ltac:(set_solver)) as [K1 K2 K3]. constructor; rewrite ?Hcu, ?Hv, ?Hfm, ?Hd by done.
    + intros Hu. set_solver.
    + intros Hu. set_solver.
    + intros [_ ?]. by apply K3.
  - rewrite Hla. apply Hi.
  - rewrite Hcp. apply Hi.
Qed.

(** [reset_curseg]. *)
Record reset_to (s s' : seg_sys) (t : Z) : Prop := {
  rs_sit : sit_ok (sit s');
  rs_maps : forall g, maps_of s' g = maps_of s g;
  rs_type : forall g, g <> next_segno (CURSEG_I s t) -> se_type <$> sentries (sit s') !! g = se_type <$> sentries (sit s) !! g;
  rs_rest : fre s' = fre s /\ dirt s' = dirt s /\ vict s' = vict s /\ ssa s' = ssa s /\ CP_DISABLED s' = CP_DISABLED s /\ CP_ERROR s' = CP_ERROR s;
  rs_cur : exists z e, forall u, CURSEG_I s' u = upd (CURSEG_I s) t {| sum_blk := sum_blk (CURSEG_I s t); entry_type := e; alloc_type := alloc_type (CURSEG_I s t); seg_type := seg_type (CURSEG_I s t);
             segno := next_segno (CURSEG_I s t); next_blkoff := 0; zone := z; next_segno := NULL_SEGNO; inited := true |} u
}.
Lemma reset_spec s t : sit_ok (sit s) -> seg_ok (next_segno (CURSEG_I s t)) -> 0 <= seg_type (CURSEG_I s t) < NR_PERSISTENT_LOG ->
  exists s', reset_curseg s t true = Some s' /\ reset_to s s' t.
Proof.
  intros Hx Hg Hty. unfold reset_curseg. destruct (Z.leb_spec NR_PERSISTENT_LOG (seg_type (CURSEG_I s t))); [lia|]. set (sg := next_segno (CURSEG_I s t)) in *.
  unfold __set_sit_entry_type. cbn [segno]. destruct (proj2 (so_dom _ Hx sg) Hg) as [se E]. unfold get_seg_entry. cbn [sit with_curseg]. rewrite E. cbn [mbind option_bind].
  set (c' := {| sum_blk := _ |}). set (se' := set_se_type se (seg_type (CURSEG_I s t))). set (s1 := put_se (with_curseg s t c') sg se').
  assert (He' : entry_ok se') by (destruct (so_entry _ Hx sg se E); by constructor).
  assert (Hx1 : sit_ok (sit s1)) by (apply (sit_same (sit s) _ sg se se'); try done; [by left|apply Hx]).
  destruct (mark_dirty_sit s1 sg Hx1 Hg) as (M1 & M2 & M3 & M4 & M5 & M6). set (s' := (__mark_sit_entry_dirty s1 sg).1) in *. exists s'. split; [done|]. constructor.
  - apply (sit_same (sit s1) _ sg se' se'); try done; [by cbn; rewrite lookup_insert_eq|rewrite M1; cbn; by rewrite insert_insert_eq|by right].
  - apply (maps_insert s s' sg se se'); [by rewrite M1|done..].
  - intros g Hne. rewrite M1. cbn. by rewrite lookup_insert_ne.
  - rewrite M6. done.
  - rewrite M6. by eexists _, _.
Qed.
End cur.
