(* ===== verification/SegSwitch.v ===== *)
(** * New and changed current segments *)

From S2P Require Import Prelude FreeNid NatCache SegBitmap SegState SegAlloc SegInv SegLists SegCur.

Section switch.
Context `{SegGeometry} (block_unit_discard : bool).
Notation seg_ok g := (0 <= g < MAIN_SEGS).
Notation off_ok o := (0 <= o < blks_per_seg).
Notation log_ok t := (0 <= t < NO_CHECK_TYPE).

(** ** Summaries *)

(** The summary of a block: in the cached block of a log, or in the summary area. *)
Definition summ (s : seg_sys) (g o : Z) : f2fs_summary :=
  match List.find (fun t => segno (CURSEG_I s t) =? g) curseg_types with
  | Some t => sum_blk (CURSEG_I s t) o
  | None => ssa s (GET_SUM_BLOCK g) o
  end.
(** A block that is valid now or was at the last checkpoint. *)
Definition kept (s : seg_sys) (g o : Z) : Prop := exists se, sentries (sit s) !! g = Some se /\ o ∈ ckpt_valid_map se.

Lemma in_types t : List.In t curseg_types <-> log_ok t.
Proof. unfold curseg_types, NO_CHECK_TYPE. cbn. lia. Qed.
Lemma summ_cur X s t o : seg_inv X s -> log_ok t -> inited (CURSEG_I s t) = true -> summ s (segno (CURSEG_I s t)) o = sum_blk (CURSEG_I s t) o.
Proof.
  intros Hi Ht Hin. unfold summ. destruct (List.find _ _) as [u|] eqn:E.
  - apply List.find_some in E as [Hu%in_types E%Z.eqb_eq]. destruct (decide (u = t)) as [->|Hne]; [done|]. exfalso. by apply (si_cur_ne _ _ Hi t u).
  - apply (List.find_none _ _) with (x := t) in E; [by rewrite Z.eqb_refl in E|by apply in_types].
Qed.
Lemma summ_not s g o : IS_CURSEG s g = false -> summ s g o = ssa s (GET_SUM_BLOCK g) o.
Proof.
  intros Hn. unfold summ. destruct (List.find _ _) as [u|] eqn:E; [|done]. apply List.find_some in E as [Hu%in_types E%Z.eqb_eq]. rewrite curseg_not in Hn. by destruct (Hn u Hu).
Qed.
Lemma sum_block_inj g h : 0 <= g < 2 ^ 32 -> 0 <= h < 2 ^ 32 -> GET_SUM_BLOCK g = GET_SUM_BLOCK h -> g = h.
Proof.
  intros Hg Hh E. unfold GET_SUM_BLOCK, u32 in E. assert (Hd : (g - h) mod 2 ^ 32 = 0).
  { replace (g - h) with ((ssa_blkaddr + g) - (ssa_blkaddr + h)) by lia. by rewrite Zminus_mod, E, Z.sub_diag. }
  apply Z.mod_divide in Hd as [k Hk]; [|lia]. nia.
Qed.
Lemma maps_kept s s' g o : maps_of s' g = maps_of s g -> kept s' g o <-> kept s g o.
Proof.
  intros E. unfold kept, maps_of in *. destruct (sentries (sit s) !! g) as [e|], (sentries (sit s') !! g) as [e'|]; try done. cbn in E. injection E as _ E2.
  split; intros (x & [= <-] & Hx); eexists; (split; [done|]); congruence.
Qed.

(** What the switch of the log [t] to the segment [sg] does. *)
Record switched (s s' : seg_sys) (t sg : Z) : Prop := {
  sw_maps : forall g, maps_of s' g = maps_of s g;
  sw_seg : seg_ok sg /\ IS_CURSEG s sg = false;
  sw_use : free_segmap (fre s') = {[sg]} ∪ free_segmap (fre s);
  sw_cur : exists c', (forall u, CURSEG_I s' u = upd (CURSEG_I s) t c' u) /\ inited c' = true /\ segno c' = sg /\ off_ok (next_blkoff c');
  sw_err : CP_ERROR s = true -> CP_ERROR s' = true;
  sw_sum : CP_ERROR s' = false -> forall g o, seg_ok g -> kept s g o -> summ s' g o = summ s g o
}.

Lemma switch_sum X Y s s' t sg c' x : seg_inv X s -> seg_inv Y s' -> log_ok t -> seg_ok sg -> IS_CURSEG s sg = false -> (forall u, CURSEG_I s' u = upd (CURSEG_I s) t c' u) -> segno c' = sg -> inited c' = true ->
  (ssa s' = upd (ssa s) (GET_SUM_BLOCK (segno (CURSEG_I s t))) x \/ ssa s' = ssa s) ->
  (inited (CURSEG_I s t) = true -> ssa s' = upd (ssa s) (GET_SUM_BLOCK (segno (CURSEG_I s t))) (sum_blk (CURSEG_I s t))) ->
  (forall o, kept s sg o -> sum_blk c' o = ssa s (GET_SUM_BLOCK sg) o) -> forall g o, seg_ok g -> kept s g o -> summ s' g o = summ s g o.
Proof.
  intros Hi Hi' Ht Hsg Hnc Ec Hseg Hin Hssa Hssai Hsum g o Hg Hk. pose proof main_small. assert (Hold : 0 <= segno (CURSEG_I s t) < 2 ^ 32).
  { destruct (inited (CURSEG_I s t)) eqn:E; [destruct (co_seg _ _ (si_cur _ _ Hi t Ht) E); lia|rewrite (co_null _ _ (si_cur _ _ Hi t Ht) E); unfold NULL_SEGNO; lia]. }
  assert (Hct : CURSEG_I s' t = c') by (rewrite Ec; unfold upd; by rewrite decide_True). destruct (decide (g = sg)) as [->|Hne].
  - rewrite (summ_not s sg) by done. rewrite <-Hsum by done. rewrite <-Hseg, <-Hct. apply (summ_cur Y s' t o Hi' Ht). by rewrite Hct.
  - destruct (decide (g = segno (CURSEG_I s t))) as [Eo|Hno].
    + assert (Hini : inited (CURSEG_I s t) = true) by (apply (curseg_inited X s t Hi Ht); by rewrite <-Eo). rewrite Eo, (summ_cur X s t o Hi Ht Hini).
      rewrite summ_not; [rewrite (Hssai Hini); unfold upd; by rewrite decide_True|]. apply curseg_not. intros u Hu. rewrite Ec. unfold upd. destruct (decide (u = t)) as [->|]; [congruence|]. intros E. by apply (si_cur_ne _ _ Hi t u).
    + destruct (IS_CURSEG s g) eqn:Eg.
      * apply curseg_iff in Eg as (u & Hu & <-). assert (u <> t) by (intros ->; done). assert (Hini : inited (CURSEG_I s u) = true) by (by apply (curseg_inited X s u Hi Hu)).
        assert (Hcu : CURSEG_I s' u = CURSEG_I s u) by (rewrite Ec; unfold upd; by rewrite decide_False). rewrite (summ_cur X s u o Hi Hu Hini). rewrite <-Hcu. apply (summ_cur Y s' u o Hi' Hu). by rewrite Hcu.
      * rewrite (summ_not s g) by done. rewrite summ_not by (rewrite (curseg_upd s s' t c' g); [done|done|congruence|done|done]).
        destruct Hssa as [->| ->]; [|done]. unfold upd. rewrite decide_False; [done|]. intros E. apply sum_block_inj in E; [done|lia|done].
Qed.

Context (env : alloc_env).

(** ** A free segment for a log *)

Lemma next_segno_hint X s t : seg_inv X s -> log_ok t -> (inited (CURSEG_I s t) = false -> is_large_section = true -> (seg_type (CURSEG_I s t) =? CURSEG_WARM_DATA) || (seg_type (CURSEG_I s t) =? CURSEG_COLD_DATA) || noheap env = true) ->
  exists g, __get_next_segno env s t = Some g /\ hint_ok g ((seg_type (CURSEG_I s t) =? CURSEG_WARM_DATA) || (seg_type (CURSEG_I s t) =? CURSEG_COLD_DATA) || noheap env).
Proof.
  intros Hi Ht Hr. destruct (si_cur _ _ Hi t Ht) as [K1 K2 K3 _ _]. unfold __get_next_segno. destruct (Z.leb_spec NR_PERSISTENT_LOG (seg_type (CURSEG_I s t))); [lia|]. eexists. split; [done|].
  pose proof main_pos. assert (Hz : forall r, hint_ok 0 r) by (left; lia). destruct is_large_section eqn:El.
  - destruct (inited (CURSEG_I s t)) eqn:Ei; [left; by apply K2|]. right. right. split; [by apply K3|by apply Hr].
  - destruct (inited (CURSEG_I s t)) eqn:Ei; cbn [negb]; [|done]. destruct (CP_DISABLED s); [done|]. destruct (noheap env && _); [done|].
    assert (Hs1 : segs_per_sec = 1) by (unfold is_large_section in El; apply Z.ltb_ge in El; pose proof sec_pos; lia).
    destruct (negb (last_victim (vict s) ALLOC_NEXT =? 0)); [|destruct (alloc_reuse env); [done|left; by apply K2]]. pose proof (si_last _ _ Hi ALLOC_NEXT). unfold hint_ok.
    destruct (decide (last_victim (vict s) ALLOC_NEXT = MAIN_SEGS)); [right; by left|left; lia].
Qed.

Lemma new_curseg_spec X s t new_sec : seg_inv X s -> log_ok t -> 0 < free_sections (fre s) ->
  (inited (CURSEG_I s t) = false -> is_large_section = true -> (seg_type (CURSEG_I s t) =? CURSEG_WARM_DATA) || (seg_type (CURSEG_I s t) =? CURSEG_COLD_DATA) || noheap env = true) ->
  exists s' sg, new_curseg env s t new_sec = Some s' /\ seg_inv ({[segno (CURSEG_I s t)]} ∪ X) s' /\ switched s s' t sg.
Proof.
  intros Hi Ht Hfs Hr. unfold new_curseg. set (c := CURSEG_I s t) in *. set (s0 := if inited c then write_sum_page s (sum_blk c) (GET_SUM_BLOCK (segno c)) else s).
  assert (Hs0 : seg_inv X s0 /\ fre s0 = fre s /\ CURSEG_I s0 = CURSEG_I s /\ sit s0 = sit s /\ dirt s0 = dirt s /\ vict s0 = vict s /\ CP_DISABLED s0 = CP_DISABLED s /\ CP_ERROR s0 = CP_ERROR s /\
    ssa s0 = if inited c then upd (ssa s) (GET_SUM_BLOCK (segno c)) (sum_blk c) else ssa s).
  { unfold s0. destruct (inited c); [|done]. split; [|done]. destruct Hi as [? ? ? Hc ? ? [? ? ? ? ?] Hl ? ?]. constructor; try done.
    - intros u Hu. destruct (Hc u Hu). by constructor.
    - intros g Hg HX. destruct (Hl g Hg HX). by constructor. }
  destruct Hs0 as (Hi0 & Ef & Ecur & Es & Ed & Ev & Ecp & Eer & Essa). clearbody s0. unfold c in *.
  destruct (next_segno_hint X s0 t Hi0 Ht) as (g & Eg & Hg); [by rewrite Ecur|]. rewrite Eg, Ecur in *. cbn [mbind option_bind].
  destruct (get_new_segment_spec X s0 g new_sec _ Hi0 ltac:(by rewrite Ef) Hg) as (sg & -> & Hsg & Hfree). cbn [mbind option_bind].
  set (s1 := with_fre s0 (__set_inuse (fre s0) sg)). set (s2 := with_curseg s1 t (set_next_segno (CURSEG_I s1 t) sg)).
  assert (Hn2 : next_segno (CURSEG_I s2 t) = sg) by (cbn; unfold upd; by rewrite decide_True). assert (Ht2 : seg_type (CURSEG_I s2 t) = seg_type (CURSEG_I s t)) by (cbn; unfold upd; rewrite decide_True by done; cbn; by rewrite Ecur).
  destruct (reset_spec s2 t) as (s3 & -> & [R1 R2 R3 R4 (z & e & R5)]); [cbn; rewrite Es; apply Hi|by rewrite Hn2|rewrite Ht2; apply (si_cur _ _ Hi t Ht)|]. cbn [mbind option_bind]. rewrite Hn2 in *.
  destruct R4 as (R4a & R4b & R4c & R4d & R4e & R4f). set (s' := with_curseg s3 t (set_alloc_type (CURSEG_I s3 t) LFS)). exists s', sg. split; [done|].
  assert (Hnc : IS_CURSEG s sg = false). { apply curseg_not. intros u Hu E. destruct (co_seg _ _ (si_cur _ _ Hi u Hu)) as (_ & Huse & _); [apply (curseg_inited X s u Hi Hu); by rewrite E|]. rewrite E, <-Ef in Huse. done. }
  set (c' := set_alloc_type (CURSEG_I s3 t) LFS).
  assert (Hc : forall u, CURSEG_I s' u = upd (CURSEG_I s) t c' u).
  { intros u. unfold s'. cbn. unfold upd. destruct (decide (u = t)); [done|]. rewrite R5. unfold upd. rewrite decide_False by done. cbn. unfold upd. rewrite decide_False by done. by rewrite Ecur. }
  assert (Hc' : c' = set_alloc_type {| sum_blk := sum_blk (CURSEG_I s t); entry_type := e; alloc_type := alloc_type (CURSEG_I s t); seg_type := seg_type (CURSEG_I s t);
    segno := sg; next_blkoff := 0; zone := z; next_segno := NULL_SEGNO; inited := true |} LFS).
  { unfold c'. rewrite R5. unfold upd at 1. rewrite decide_True by done. cbn. unfold upd. rewrite decide_True by done. cbn. by rewrite Ecur. }
  clearbody c'. assert (Hmaps : forall g, maps_of s' g = maps_of s g) by (intros h; change (maps_of s' h) with (maps_of s3 h); rewrite R2; unfold maps_of; cbn; by rewrite Es).
  assert (Hempty : forall se, sentries (sit s') !! sg = Some se -> ckpt_valid_map se = ∅).
  { intros se E. destruct (maps_ckpt s s' sg se (Hmaps sg) E) as (e0 & Ee & <- & _). apply (si_free _ _ Hi sg e0 Hsg); [by rewrite <-Ef|done]. }
  assert (Hi' : seg_inv ({[segno (CURSEG_I s t)]} ∪ X) s').
  { apply (inv_switch X s s' t sg c'); rewrite ?Hc'; try done.
    - intros h Hne. cbn. rewrite R3 by done. cbn. by rewrite Es.
    - cbn. rewrite R4a. cbn. rewrite Ef. apply set_inuse_ok; [apply Hi|done|by rewrite <-Ef].
    - cbn. rewrite R4a. cbn. by rewrite Ef.
    - cbn. rewrite R4b. cbn. rewrite Ed. exact (ls_nr _ (si_lists _ _ Hi)).
    - intros u h Hu. cbn. rewrite R4b. cbn. rewrite Ed. split; [|tauto]. intros Hh. split; [|done]. intros ->. assert (Hin : sg ∈ dirty_segmap (dirt s) PRE \/ sg ∈ dirty_segmap (dirt s) DIRTY).
      { unfold PRE, DIRTY in *. destruct (decide (u = 7)) as [->|]; [by left|right]. destruct (decide (u = 6)) as [->|]; [done|]. by apply (ls_types _ (si_lists _ _ Hi) u sg ltac:(unfold DIRTY; lia)). }
      destruct Hin as [Hin|Hin]; [apply (ls_pre _ (si_lists _ _ Hi)) in Hin|apply (ls_dirty _ (si_lists _ _ Hi)) in Hin]; destruct Hin as (_ & Hin & _); by rewrite <-Ef in Hin.
    - intros u. by rewrite Hc, Hc'.
    - pose proof bps_range. constructor; cbn; try done; [apply (si_cur _ _ Hi t Ht)| | |].
      + intros _. split; [done|]. split; [rewrite R4a; cbn; set_solver|]. split; [lia|by left].
      + intros _ _ se o E _. rewrite (Hempty se E). set_solver.
      + intros _ se E. rewrite (Hempty se E). set_solver.
    - cbn. rewrite R4c. cbn. by rewrite Ev.
    - cbn. by rewrite R4e. }
  split; [done|]. pose proof bps_range. constructor; try done.
  - cbn. rewrite R4a. cbn. by rewrite Ef.
  - exists c'. split; [done|]. rewrite Hc'. cbn. split; [done|]. split; [done|]. lia.
  - cbn. rewrite R4f. cbn. by rewrite Eer.
  - intros _. apply (switch_sum X ({[segno (CURSEG_I s t)]} ∪ X) s s' t sg c' (sum_blk (CURSEG_I s t))); try done; [by rewrite Hc'|by rewrite Hc'| | |].
    + cbn. rewrite R4d. cbn. rewrite Essa. destruct (inited (CURSEG_I s t)); [by left|by right].
    + intros Hini. cbn. rewrite R4d. cbn. by rewrite Essa, Hini.
    + intros o (se & E & Ho). exfalso. rewrite (si_free _ _ Hi sg se Hsg ltac:(by rewrite <-Ef) E) in Ho. set_solver.
Qed.

(** ** A dirty segment for a log *)

Lemma on_no_list X s sg u : seg_inv X s -> 0 <= u <= PRE -> sg ∉ dirty_segmap (dirt s) PRE -> sg ∉ dirty_segmap (dirt s) DIRTY -> sg ∉ dirty_segmap (dirt s) u.
Proof.
  intros Hi Hu Hp Hd Hin. unfold PRE, DIRTY in *. destruct (decide (u = 7)) as [->|]; [done|]. destruct (decide (u = 6)) as [->|]; [done|].
  by apply Hd, (ls_types _ (si_lists _ _ Hi) u sg ltac:(unfold DIRTY; lia)).
Qed.

(** A segment is taken off all lists. *)
Lemma unlist_spec X s s1 sg se : seg_inv X s -> seg_ok sg -> sentries (sit s) !! sg = Some se -> sit s1 = sit s -> dirt s1 = dirt s ->
  exists s2 s3, __remove_dirty_segment s1 sg PRE = Some s2 /\ __remove_dirty_segment s2 sg DIRTY = Some s3 /\ dirt_step s1 s3 /\ nr_ok (dirt s3) /\
    forall u h, 0 <= u <= PRE -> h ∈ dirty_segmap (dirt s3) u <-> h <> sg /\ h ∈ dirty_segmap (dirt s) u.
Proof.
  intros Hi Hsg E Es Ed. destruct (section_valid X s sg Hi Hsg) as (v & Ev & _).
  destruct (remove_pre s1 sg) as (s2 & E2 & St2 & N2 & M2); [rewrite Ed; exact (ls_nr _ (si_lists _ _ Hi))|].
  destruct (remove_dirty s2 sg se v N2) as (s3 & E3 & St3 & N3 & M3); [by rewrite (ds_sit _ _ St2), Es|unfold get_valid_blocks, get_seg_entry in *; by rewrite (ds_sit _ _ St2), Es|].
  exists s2, s3. split; [done|]. split; [done|]. split; [by eapply dirt_step_trans|]. split; [done|]. intros u h Hu. rewrite M3, M2, Ed. unfold PRE, DIRTY in *.
  destruct (decide (u = 7)) as [->|]; [rewrite decide_False by (pose proof (eo_type _ (so_entry _ (si_sit _ _ Hi) sg se E)); unfold NR_PERSISTENT_LOG in *; lia); set_solver|].
  destruct (decide (u = 6 \/ u = se_type se)) as [|Hne]; [set_solver|]. split; [|tauto]. intros Hh. split; [|done]. intros ->. apply (ls_types _ (si_lists _ _ Hi) u sg ltac:(unfold DIRTY; lia)) in Hh as [_ (e & Ee & Et)].
  rewrite E in Ee. injection Ee as <-. apply Hne. by right.
Qed.

Lemma change_curseg_spec X s t : seg_inv X s -> log_ok t -> seg_ok (next_segno (CURSEG_I s t)) -> IS_CURSEG s (next_segno (CURSEG_I s t)) = false ->
  (forall se, sentries (sit s) !! next_segno (CURSEG_I s t) = Some se -> ckpt_valid_blocks se < blks_per_seg) ->
  exists s', change_curseg env s t true = Some s' /\ seg_inv ({[segno (CURSEG_I s t)]} ∪ X) s' /\ switched s s' t (next_segno (CURSEG_I s t)).
Proof.
  intros Hi Ht Hsg Hnc Hroom. unfold change_curseg. set (c := CURSEG_I s t) in *. set (sg := next_segno c) in *. destruct (seg_entry_at X s sg Hi Hsg) as (se & E & He).
  set (s0 := write_sum_page s (sum_blk c) (GET_SUM_BLOCK (segno c))). set (s1 := with_fre s0 (__set_test_and_inuse (fre s0) sg)).
  destruct (unlist_spec X s s1 sg se Hi Hsg E eq_refl eq_refl) as (s2 & s3 & -> & E3 & St & Nr & Hd). cbn [mbind option_bind]. rewrite E3. cbn [mbind option_bind].
  destruct St as [D1 D2 D3 D4 D5 D6 D7]. assert (Hc3 : CURSEG_I s3 = CURSEG_I s) by done.
  destruct (reset_spec s3 t) as (s4 & -> & [R1 R2 R3 (R4a & R4b & R4c & R4d & R4e & R4f) (z & e & R5)]); [rewrite D1; apply Hi|by rewrite Hc3|rewrite Hc3; apply (si_cur _ _ Hi t Ht)|].
  cbn [mbind option_bind]. rewrite Hc3 in *. fold c in R3, R5. fold sg in R3, R5.
  assert (Hmaps : forall g, maps_of s4 g = maps_of s g) by (intros g; rewrite R2; unfold maps_of; by rewrite D1).
  assert (H4 : exists se4, sentries (sit s4) !! sg = Some se4 /\ ckpt_valid_map se4 = ckpt_valid_map se /\ cur_valid_map se4 = cur_valid_map se).
  { specialize (Hmaps sg). unfold maps_of in Hmaps. rewrite E in Hmaps. destruct (sentries (sit s4) !! sg) as [se4|]; [|done]. cbn in Hmaps. injection Hmaps as Hm1 Hm2. eauto. }
  destruct H4 as (se4 & E4 & Hck4 & Hcu4). unfold __next_free_blkoff at 1, get_seg_entry. rewrite E4. cbn [mbind option_bind]. rewrite Hck4, Hcu4.
  replace (ckpt_valid_map se ∪ cur_valid_map se) with (ckpt_valid_map se) by (pose proof (eo_sub se He); set_solver). pose proof bps_range.
  destruct (next_zero_spec (ckpt_valid_map se) blks_per_seg 0 ltac:(apply bps_range)) as (N1 & N2 & N3). set (o := next_zero (ckpt_valid_map se) blks_per_seg 0) in *.
  assert (Ho : o < blks_per_seg).
  { destruct (Z.lt_ge_cases o blks_per_seg); [done|exfalso]. specialize (Hroom se E). rewrite (eo_ckpt se He) in Hroom. assert (Hs : list_to_set (seqZ 0 blks_per_seg) ⊆ ckpt_valid_map se).
    { intros x Hx. apply elem_of_list_to_set, elem_of_seqZ in Hx. apply N3. lia. }
    apply subseteq_size in Hs. rewrite size_list_to_set, length_seqZ in Hs by apply NoDup_seqZ. lia. }
  set (c4 := set_next_blkoff (set_alloc_type (CURSEG_I s4 t) SSR) o). assert (Hc4 : c4 = {| sum_blk := sum_blk c; entry_type := e; alloc_type := SSR; seg_type := seg_type c;
    segno := sg; next_blkoff := o; zone := z; next_segno := NULL_SEGNO; inited := true |}) by (unfold c4; rewrite R5; unfold upd; by rewrite decide_True).
  set (bad := CP_ERROR s4 || negb (sum_readable env (GET_SUM_BLOCK sg))). set (b := if bad then (fun _ => zero_summary) else ssa s4 (GET_SUM_BLOCK sg)).
  set (s' := with_ssa (with_curseg s4 t (set_sum c4 b)) (ssa s4) (if bad then true else CP_ERROR s4)).
  assert (Es' : (if bad then Some (with_ssa (with_curseg s4 t (set_sum c4 (fun _ => zero_summary))) (ssa s4) true) else Some (with_curseg s4 t (set_sum c4 (ssa s4 (GET_SUM_BLOCK sg))))) = Some s').
  { unfold s', b. destruct bad; [done|]. by destruct s4. }
  rewrite Es'. exists s'. split; [done|]. assert (Hcs : forall u, CURSEG_I s' u = upd (CURSEG_I s) t (set_sum c4 b) u).
  { intros u. cbn. unfold upd. destruct (decide (u = t)); [done|]. rewrite R5. unfold upd. by rewrite decide_False. }
  destruct (test_and_inuse_ok (fre s) sg (si_fre _ _ Hi) Hsg) as [Hf1 Hf2]. assert (Hfre : fre s' = __set_test_and_inuse (fre s) sg) by (cbn; rewrite R4a, D2; done).
  assert (Hi' : seg_inv ({[segno c]} ∪ X) s').
  { apply (inv_switch X s s' t sg (set_sum c4 b)); rewrite ?Hc4, ?Hfre; try done.
    - intros g Hne. cbn. rewrite R3 by done. by rewrite D1.
    - cbn. by rewrite R4b.
    - intros u h Hu. cbn. rewrite R4b. by apply Hd.
    - intros u. by rewrite Hcs, Hc4.
    - constructor; cbn; try done; [apply (si_cur _ _ Hi t Ht)| |].
      + intros _. split; [done|]. split; [rewrite R4a, D2; cbn; rewrite Hf2; set_solver|]. split; [lia|by right].
      + intros _ x Ex. rewrite E4 in Ex. injection Ex as <-. rewrite Hck4. by apply N2.
    - cbn. by rewrite R4c, D3.
    - cbn. by rewrite R4e, D6. }
  split; [done|]. constructor; try done.
  - by rewrite Hfre.
  - exists (set_sum c4 b). split; [done|]. rewrite Hc4. cbn. split; [done|]. split; [done|]. lia.
  - intros Hce. cbn. destruct bad; [done|]. rewrite R4f, D7. done.
  - intros Hok. cbn in Hok. destruct bad eqn:Eb; [done|]. apply (switch_sum X ({[segno c]} ∪ X) s s' t sg (set_sum c4 b) (sum_blk c)); try done; [by rewrite Hc4|by rewrite Hc4| | |].
    + left. cbn. by rewrite R4d, D5.
    + intros _. cbn. by rewrite R4d, D5.
    + intros x _. cbn. unfold b. rewrite R4d, D5. cbn. unfold upd. rewrite decide_False; [done|]. intros Eq. apply sum_block_inj in Eq; [|pose proof main_small; lia|].
      * rewrite curseg_not in Hnc. by destruct (Hnc t Ht).
      * destruct (inited c) eqn:Ei; [destruct (co_seg _ _ (si_cur _ _ Hi t Ht) Ei) as [Hsr _]; pose proof main_small; unfold c; lia|unfold c; rewrite (co_null _ _ (si_cur _ _ Hi t Ht) Ei); unfold NULL_SEGNO; lia].
Qed.
End switch.
