(* ===== verification/SegVictim.v ===== *)
(** * Victim selection (gc.c)

    [get_victim_by_default] chooses the section the garbage collector cleans, or the
    segment whose holes a log fills.  It scans a map of dirty segments or sections in a
    circle from where the last search stopped, and takes the cheapest, or collects
    candidates in a tree ordered by age and chooses among these. *)

From S2P Require Import Prelude FreeNid NatCache SegBitmap SegState SegAlloc.

Definition GC_CB : Z := 0.
Definition GC_GREEDY : Z := 1.
Definition GC_AT : Z := 2.
Definition BG_GC : Z := 0.
Definition FG_GC : Z := 1.
Definition GC_IDLE_CB : Z := 1.
Definition GC_IDLE_GREEDY : Z := 2.
Definition GC_IDLE_AT : Z := 3.
Definition GC_URGENT_HIGH : Z := 4.
Definition UINT_MAX : Z := 2 ^ 32 - 1.
Definition ULLONG_MAX : Z := 2 ^ 64 - 1.
Definition ENODATA : Z := 61.
Definition EBUSY : Z := 16.
Definition DEFAULT_ACCURACY_CLASS : Z := 10000.

(** What a selection reads outside the segment manager: the mode of cleaning, mount
    options, the time since mount and [struct atgc_management]. *)
Record victim_env := {
  sbi_gc_mode : Z; max_victim_search : Z; v_noheap : bool; elapsed_time : Z;
  atgc_enabled : bool; candidate_ratio : Z; max_candidate_count : Z; age_weight : Z; am_age_threshold : Z
}.
(** [struct victim_sel_policy]. *)
Record victim_sel_policy := {
  p_alloc_mode : Z; p_gc_mode : Z; dirty_bitmap : gset Z; max_search : Z; p_offset : Z; ofs_unit : Z;
  min_cost : Z; oldest_age : Z; min_segno : Z; p_age : Z; age_threshold : Z
}.
(** [struct victim_entry]; the tree is the list of its entries in order. *)
Record victim_entry := { ve_mtime : Z; ve_segno : Z }.

Definition with_offset (p : victim_sel_policy) (o : Z) : victim_sel_policy :=
  {| p_alloc_mode := p_alloc_mode p; p_gc_mode := p_gc_mode p; dirty_bitmap := dirty_bitmap p; max_search := max_search p; p_offset := o; ofs_unit := ofs_unit p;
     min_cost := min_cost p; oldest_age := oldest_age p; min_segno := min_segno p; p_age := p_age p; age_threshold := age_threshold p |}.
Definition with_min (p : victim_sel_policy) (cost oldest sg : Z) : victim_sel_policy :=
  {| p_alloc_mode := p_alloc_mode p; p_gc_mode := p_gc_mode p; dirty_bitmap := dirty_bitmap p; max_search := max_search p; p_offset := p_offset p; ofs_unit := ofs_unit p;
     min_cost := cost; oldest_age := oldest; min_segno := sg; p_age := p_age p; age_threshold := age_threshold p |}.
Definition set_last (v : victim_info) (m x : Z) : victim_info :=
  {| victim_secmap := victim_secmap v; last_victim := upd (last_victim v) m x; cur_victim_sec := cur_victim_sec v; next_victim_seg := next_victim_seg v;
     min_mtime := min_mtime v; max_mtime := max_mtime v; dirty_min_mtime := dirty_min_mtime v; dirty_max_mtime := dirty_max_mtime v |}.
Definition set_times (v : victim_info) (mn mx dmn dmx : Z) : victim_info :=
  {| victim_secmap := victim_secmap v; last_victim := last_victim v; cur_victim_sec := cur_victim_sec v; next_victim_seg := next_victim_seg v;
     min_mtime := mn; max_mtime := mx; dirty_min_mtime := dmn; dirty_max_mtime := dmx |}.
Definition set_victims (v : victim_info) (m : gset Z) (cur : Z) (next : Z -> Z) : victim_info :=
  {| victim_secmap := m; last_victim := last_victim v; cur_victim_sec := cur; next_victim_seg := next;
     min_mtime := min_mtime v; max_mtime := max_mtime v; dirty_min_mtime := dirty_min_mtime v; dirty_max_mtime := dirty_max_mtime v |}.

Section victim.
Context `{SegGeometry} (env : victim_env).
(** Where the descent for a time ends depends on the shape of the kernel's red-black
    tree: the place of the last node visited, if there is one. *)
Context (central : list victim_entry -> Z -> option nat).
Context (SIT_ENTRY_PER_BLOCK : Z).

(** ** The policy *)

Definition select_gc_type (gc_type : Z) : Z :=
  let m := if gc_type =? BG_GC then (if atgc_enabled env then GC_AT else GC_CB) else GC_GREEDY in
  if sbi_gc_mode env =? GC_IDLE_CB then GC_CB
  else if (sbi_gc_mode env =? GC_IDLE_GREEDY) || (sbi_gc_mode env =? GC_URGENT_HIGH) then GC_GREEDY
  else if sbi_gc_mode env =? GC_IDLE_AT then GC_AT
  else m.

(** [count_bits] from 0. *)
Definition count_bits (m : gset Z) (len : Z) : Z := Z.of_nat (length (set_bits m len)).

Definition get_max_cost (alloc_mode gc_mode ofs_unit : Z) : Z :=
  if alloc_mode =? SSR then blks_per_seg
  else if alloc_mode =? AT_SSR then UINT_MAX
  else if gc_mode =? GC_GREEDY then u32 (2 * blks_per_seg * ofs_unit)
  else if gc_mode =? GC_CB then UINT_MAX
  else if gc_mode =? GC_AT then UINT_MAX
  else 0.

(** [select_policy], and the fields [get_victim_by_default] sets after it. *)
Definition select_policy (s : seg_sys) (v : victim_info) (gc_type type alloc_mode age thr : Z) : victim_sel_policy :=
  let d := dirt s in
  let ssr := (alloc_mode =? SSR) || (alloc_mode =? AT_SSR) in
  let gc_mode := if ssr then GC_GREEDY else select_gc_type gc_type in
  let unit := if ssr then 1 else segs_per_sec in
  let '(map, search) := if ssr then (dirty_segmap d type, nr_dirty d type)
                        else if is_large_section then (dirty_secmap d, count_bits (dirty_secmap d) MAIN_SECS)
                        else (dirty_segmap d DIRTY, nr_dirty d DIRTY) in
  let search := if negb (gc_type =? FG_GC) && negb (sbi_gc_mode env =? GC_URGENT_HIGH) && (negb (gc_mode =? GC_AT) && negb (alloc_mode =? AT_SSR)) && (max_victim_search env <? search)
                then max_victim_search env else search in
  let off := if v_noheap env && ((type =? CURSEG_HOT_DATA) || IS_NODESEG type) then 0 else last_victim v gc_mode in
  {| p_alloc_mode := alloc_mode; p_gc_mode := gc_mode; dirty_bitmap := map; max_search := search; p_offset := off; ofs_unit := unit;
     min_cost := get_max_cost alloc_mode gc_mode unit; oldest_age := 0; min_segno := NULL_SEGNO; p_age := age; age_threshold := thr |}.

Definition sec_usage_check (s : seg_sys) (v : victim_info) (secno : Z) : bool := IS_CURSEC s secno || (cur_victim_sec v =? secno).

(** A victim the background collector has marked. *)
Fixpoint bg_victims_loop (l : list Z) (s : seg_sys) (v : victim_info) : victim_info * Z :=
  match l with
  | [] => (v, NULL_SEGNO)
  | secno :: l =>
      if sec_usage_check s v secno then bg_victims_loop l s v
      else (set_victims v (victim_secmap v ∖ {[secno]}) (cur_victim_sec v) (next_victim_seg v), GET_SEG_FROM_SEC secno)
  end.
Definition check_bg_victims (s : seg_sys) (v : victim_info) : victim_info * Z := bg_victims_loop (set_bits (victim_secmap v) MAIN_SECS) s v.

(** ** Costs *)

(** The times of the segments of a section added up. *)
Fixpoint mtime_sum (n : nat) (s : seg_sys) (start acc : Z) : option Z :=
  match n with
  | O => Some acc
  | S n => se ← get_seg_entry s start; mtime_sum n s (start +! 1) (u64 (acc + se_mtime se))
  end.
Definition section_mtime (s : seg_sys) (sg : Z) : option Z :=
  t ← mtime_sum (Z.to_nat segs_per_sec) s (GET_SEG_FROM_SEC (GET_SEC_FROM_SEG sg)) 0; Some (t / segs_per_sec).

Definition get_cb_cost (s : seg_sys) (v : victim_info) (sg : Z) : option (victim_info * Z) :=
  mtime ← section_mtime s sg;
  vb ← get_valid_blocks s sg true;
  let vblocks := vb / segs_per_sec in
  let u := u8 (Z.shiftr (vblocks *! 100) log_blocks_per_seg) in
  let mn := if mtime <? min_mtime v then mtime else min_mtime v in
  let mx := if max_mtime v <? mtime then mtime else max_mtime v in
  let age := if mx =? mn then 0 else u8 (100 - u64 (100 * u64 (mtime - mn)) / u64 (mx - mn)) in
  Some (set_times v mn mx (dirty_min_mtime v) (dirty_max_mtime v), UINT_MAX -! Z.quot (100 * (100 - u) * age) (100 + u)).

Definition get_gc_cost (s : seg_sys) (v : victim_info) (sg : Z) (p : victim_sel_policy) : option (victim_info * Z) :=
  if p_alloc_mode p =? SSR then se ← get_seg_entry s sg; Some (v, ckpt_valid_blocks se)
  else if p_gc_mode p =? GC_GREEDY then c ← get_valid_blocks s sg true; Some (v, c)
  else if p_gc_mode p =? GC_CB then get_cb_cost s v sg
  else None.

(** ** Candidates by age *)

(** [insert_victim_entry]: after the entries that are not younger
    ([f2fs_lookup_rb_tree_ext] goes right at an equal key). *)
Fixpoint insert_victim_entry (l : list victim_entry) (mtime sg : Z) : list victim_entry :=
  match l with
  | [] => [{| ve_mtime := mtime; ve_segno := sg |}]
  | x :: l' => if mtime <? ve_mtime x then {| ve_mtime := mtime; ve_segno := sg |} :: l else x :: insert_victim_entry l' mtime sg
  end.
Definition add_victim_entry (s : seg_sys) (v : victim_info) (p : victim_sel_policy) (l : list victim_entry) (sg : Z) : option (victim_info * list victim_entry) :=
  empty ← if CP_DISABLED s && (p_gc_mode p =? GC_AT) then vb ← get_valid_blocks s sg true; Some (vb =? 0) else Some false;
  if empty : bool then Some (v, l)
  else
    mtime ← section_mtime s sg;
    let v := set_times v (if mtime <? min_mtime v then mtime else min_mtime v) (if max_mtime v <? mtime then mtime else max_mtime v)
               (if mtime <? dirty_min_mtime v then mtime else dirty_min_mtime v) (if dirty_max_mtime v <? mtime then mtime else dirty_max_mtime v) in
    if u64 (dirty_max_mtime v - mtime) <? age_threshold p then Some (v, l) else Some (v, insert_victim_entry l mtime sg).

Definition dirty_threshold (l : list victim_entry) : Z := Z.max (max_candidate_count env) (candidate_ratio env *! Z.of_nat (length l) / 100).
Definition better (p : victim_sel_policy) (cost age sg : Z) : victim_sel_policy :=
  if (cost <? min_cost p) || ((cost =? min_cost p) && (oldest_age p <? age)) then with_min p cost age sg else p.

(** [atgc_lookup_victim]: the oldest first, age and utilisation weighed. *)
Fixpoint atgc_loop (l : list victim_entry) (s : seg_sys) (p : victim_sel_policy) (max_mtime min_mtime accu threshold iter : Z) : option victim_sel_policy :=
  match l with
  | [] => Some p
  | ve :: l =>
      '(p, iter) ←
        if (max_mtime <=? ve_mtime ve) || (ve_mtime ve <? min_mtime) then Some (p, iter)
        else
          let total_time := u64 (max_mtime - min_mtime) in
          let age := u64 (u64 (accu * u64 (max_mtime - ve_mtime ve)) / total_time * age_weight env) in
          vblocks ← get_valid_blocks s (ve_segno ve) true;
          if (vblocks =? 0) || (vblocks =? BLKS_PER_SEC) then None
          else
            let u := u64 (u64 (accu * (BLKS_PER_SEC -! vblocks)) / BLKS_PER_SEC * (100 -! age_weight env)) in
            if UINT_MAX <=? u64 (age + u) then None
            else Some (better p (UINT_MAX - u64 (age + u)) age (ve_segno ve), iter +! 1);
      if iter <? threshold then atgc_loop l s p max_mtime min_mtime accu threshold iter else Some p
  end.
Definition atgc_lookup_victim (s : seg_sys) (v : victim_info) (p : victim_sel_policy) (l : list victim_entry) : option victim_sel_policy :=
  if dirty_max_mtime v <? dirty_min_mtime v then Some p
  else
    let max_mtime := u64 (dirty_max_mtime v + 1) in
    let total_time := u64 (max_mtime - dirty_min_mtime v) in
    if total_time =? 0 then None
    else atgc_loop l s p max_mtime (dirty_min_mtime v) (Z.min (ULLONG_MAX / total_time / 100) DEFAULT_ACCURACY_CLASS) (dirty_threshold l) 0.

(** [abs] of a 64-bit value taken as signed. *)
Definition abs64 (z : Z) : Z := let x := u64 z in u64 (if x <? 2 ^ 63 then x else - (x - 2 ^ 64)).
(** One stage of [atssr_lookup_victim]: the nodes it visits in order. *)
Fixpoint atssr_stage (l : list victim_entry) (s : seg_sys) (p : victim_sel_policy) (max_mtime min_mtime threshold iter : Z) : option victim_sel_policy :=
  match l with
  | [] => Some p
  | ve :: l =>
      '(p, iter) ←
        if (max_mtime <=? ve_mtime ve) || (ve_mtime ve <? min_mtime) then Some (p, iter)
        else
          se ← get_seg_entry s (ve_segno ve);
          if ckpt_valid_blocks se =? 0 then None
          else if ckpt_valid_blocks se =? blks_per_seg then Some (p, iter)
          else
            let age := u64 (max_mtime - abs64 (p_age p - u64 (max_mtime - ve_mtime ve))) in
            Some (better p (UINT_MAX -! ckpt_valid_blocks se) age (ve_segno ve), iter +! 1);
      if iter <? threshold then atssr_stage l s p max_mtime min_mtime threshold iter else Some p
  end.
Definition atssr_lookup_victim (s : seg_sys) (v : victim_info) (p : victim_sel_policy) (l : list victim_entry) : option victim_sel_policy :=
  if dirty_max_mtime v <? dirty_min_mtime v then Some p
  else
    let mx := u64 (dirty_max_mtime v + 1) in
    let '(before, after) := match central l (p_age p) with Some i => (rev (take (S i) l), drop i l) | None => ([], []) end in
    p ← atssr_stage before s p mx (dirty_min_mtime v) (dirty_threshold l) 0;
    atssr_stage after s p mx (dirty_min_mtime v) (dirty_threshold l) 0.
Definition lookup_victim_by_age (s : seg_sys) (v : victim_info) (p : victim_sel_policy) (l : list victim_entry) : option victim_sel_policy :=
  if p_gc_mode p =? GC_AT then atgc_lookup_victim s v p l
  else if p_alloc_mode p =? AT_SSR then atssr_lookup_victim s v p l
  else None.

(** ** The scan *)

Definition is_atgc (p : victim_sel_policy) : bool := (p_gc_mode p =? GC_AT) || (p_alloc_mode p =? AT_SSR).

(** The tests that skip a segment. *)
Definition victim_skip (s : seg_sys) (v : victim_info) (p : victim_sel_policy) (gc_type sg : Z) : option bool :=
  let secno := GET_SEC_FROM_SEG sg in
  if sec_usage_check s v secno then Some true
  else
    keep ← if CP_DISABLED s
           then if p_alloc_mode p =? LFS then k ← get_ckpt_valid_blocks SIT_ENTRY_PER_BLOCK s sg true; Some (negb (k =? 0))
                else free ← f2fs_segment_has_free_slot s sg; Some (negb free)
           else Some false;
    Some (keep || ((gc_type =? BG_GC) && bool_decide (secno ∈ victim_secmap v))).
(** What is done with a segment that is not skipped. *)
Definition victim_visit (s : seg_sys) (v : victim_info) (p : victim_sel_policy) (l : list victim_entry) (sg : Z) : option (victim_info * victim_sel_policy * list victim_entry) :=
  if is_atgc p then '(v, l) ← add_victim_entry s v p l sg; Some (v, p, l)
  else '(v, cost) ← get_gc_cost s v sg p; Some (v, if cost <? min_cost p then with_min p cost (oldest_age p) sg else p, l).

Fixpoint victim_loop (fuel : nat) (s : seg_sys) (v : victim_info) (p : victim_sel_policy) (l : list victim_entry) (gc_type last nsearched last_segment : Z) :
    option (victim_info * victim_sel_policy * list victim_entry * Z) :=
  match fuel with
  | O => None
  | S fuel =>
      let sg := next_set (dirty_bitmap p) (last_segment / ofs_unit p) (p_offset p / ofs_unit p) *! ofs_unit p in
      if last_segment <=? sg then
        if negb (last_victim v (p_gc_mode p) =? 0)
        then victim_loop fuel s (set_last v (p_gc_mode p) 0) (with_offset p 0) l gc_type last nsearched (last_victim v (p_gc_mode p))
        else Some (v, p, l, last_segment)
      else
        let p := with_offset p (sg +! ofs_unit p) in
        let nsearched := nsearched +! 1 in
        skip ← victim_skip s v p gc_type sg;
        '(v, p, l) ← if skip : bool then Some (v, p, l) else victim_visit s v p l sg;
        if max_search p <=? nsearched
        then Some (set_last v (p_gc_mode p) ((if (last_victim v (p_gc_mode p) =? 0) && (sg <=? last) then last +! ofs_unit p else sg +! ofs_unit p) mod MAIN_SEGS), p, l, last_segment)
        else victim_loop fuel s v p l gc_type last nsearched last_segment
  end.
(** Each turn but the one that wraps around visits one of at most [max_search] segments. *)
Definition victim_fuel (p : victim_sel_policy) : nat := Z.to_nat (max_search p) + 3.

(** From [got_it] and from [got_result]. *)
Definition got_result (v : victim_info) (alloc_mode gc_type min_sg result : Z) : victim_info * Z * Z :=
  let secno := GET_SEC_FROM_SEG min_sg in
  (if alloc_mode =? LFS
   then if gc_type =? FG_GC then set_victims v (victim_secmap v) secno (next_victim_seg v)
        else set_victims v ({[secno]} ∪ victim_secmap v) (cur_victim_sec v) (next_victim_seg v)
   else v, 0, result).
Definition got_it (v : victim_info) (p : victim_sel_policy) (gc_type : Z) : victim_info * Z * Z :=
  got_result v (p_alloc_mode p) gc_type (min_segno p) (min_segno p / ofs_unit p *! ofs_unit p).

(** The search from [retry] on; the second time the age does not matter, so there is no
    third.  The result is the state, the error and the segment. *)
Fixpoint victim_search (fuel : nat) (s : seg_sys) (v : victim_info) (result gc_type type alloc_mode age thr last_segment : Z) : option (victim_info * Z * Z) :=
  match fuel with
  | O => None
  | S fuel =>
      let p := select_policy s v gc_type type alloc_mode age thr in
      let v := if is_atgc p then set_times v (min_mtime v) (max_mtime v) ULLONG_MAX (dirty_max_mtime v) else v in
      if negb (result =? NULL_SEGNO) then
        vb ← get_valid_blocks s result false;
        if vb =? 0 then Some (v, - ENODATA, result)
        else Some (v, if sec_usage_check s v (GET_SEC_FROM_SEG result) then - EBUSY else 0, result)
      else if max_search p =? 0 then Some (v, - ENODATA, result)
      else
        let next := next_victim_seg v in
        let large_lfs := is_large_section && (alloc_mode =? LFS) in
        if large_lfs && negb (next BG_GC =? NULL_SEGNO)
        then Some (got_result (set_victims v (victim_secmap v) (cur_victim_sec v) (upd next BG_GC NULL_SEGNO)) alloc_mode gc_type (next BG_GC) (next BG_GC))
        else if large_lfs && (gc_type =? FG_GC) && negb (next FG_GC =? NULL_SEGNO)
        then Some (got_result (set_victims v (victim_secmap v) (cur_victim_sec v) (upd next FG_GC NULL_SEGNO)) alloc_mode gc_type (next FG_GC) (next FG_GC))
        else
          let last := last_victim v (p_gc_mode p) in
          let '(v, bg) := if (alloc_mode =? LFS) && (gc_type =? FG_GC) then check_bg_victims s v else (v, NULL_SEGNO) in
          if negb (bg =? NULL_SEGNO) then Some (got_it v (with_min p (min_cost p) (oldest_age p) bg) gc_type)
          else
            '(v, p, l, last_segment) ← victim_loop (victim_fuel p) s v p [] gc_type last 0 last_segment;
            p ← if is_atgc p then lookup_victim_by_age s v p l else Some p;
            if is_atgc p && (min_segno p =? NULL_SEGNO) && (elapsed_time env <? age_threshold p)
            then victim_search fuel s v result gc_type type alloc_mode age 0 last_segment
            else Some (if min_segno p =? NULL_SEGNO then (v, - ENODATA, result) else got_it v p gc_type)
  end.
Definition get_victim_by_default (s : seg_sys) (result gc_type type alloc_mode age : Z) : option (victim_info * Z * Z) :=
  victim_search 2 s (vict s) result gc_type type alloc_mode age (am_age_threshold env) MAIN_SEGS.

(** The call of the allocator for a segment with holes. *)
Definition ssr_victim (s : seg_sys) (type alloc_mode age : Z) : option (victim_info * option Z) :=
  '(v, err, sg) ← get_victim_by_default s NULL_SEGNO BG_GC type alloc_mode age;
  Some (v, if err =? 0 then Some sg else None).
End victim.
