(* ===== verification/SegVictimProps.v ===== *)
(** * Victim selection finds a segment with room, and the cheapest *)

From S2P Require Import Prelude FreeNid NatCache SegBitmap SegState SegAlloc SegInv SegLists SegCur SegVictim.

(** What the allocator relies on when it asks for a segment with holes
    ([struct victim_selection] in segment.h): the call returns, and a segment it returns
    is dirty and has a block that is free now and was free at the last checkpoint. *)
Class VictimSelection `{SegGeometry} (get_victim : seg_sys -> Z -> Z -> Z -> option (victim_info * option Z)) : Prop := {
  victim_found : forall X s t mode age, seg_inv X s -> mode = SSR \/ mode = AT_SSR -> 0 <= t < NR_PERSISTENT_LOG ->
    exists v r, get_victim s t mode age = Some (v, r) /\ (forall p, 0 <= last_victim v p <= MAIN_SEGS) /\
      forall sg, r = Some sg -> sg ∈ dirty_segmap (dirt s) DIRTY /\ exists se, sentries (sit s) !! sg = Some se /\ ckpt_valid_blocks se < blks_per_seg
}.

Section vprops.
Context `{SegGeometry} (env : victim_env) (central : list victim_entry -> Z -> option nat) (SIT_ENTRY_PER_BLOCK : Z).
Notation seg_ok g := (0 <= g < MAIN_SEGS).
Notation loop := (victim_loop SIT_ENTRY_PER_BLOCK).

Lemma next_set_end m size offset : size <= offset -> next_set m size offset = size.
Proof. intros Hle. unfold next_set, next_bit. destruct (Z.leb_spec size offset); [done|lia]. Qed.

(** ** The scan in segments *)

Section scan.
Context (s : seg_sys) (m : gset Z) (ms gc_type last : Z).
(** What holds when the segments in a set have been visited. *)
Context (I : gset Z -> victim_info -> victim_sel_policy -> list victim_entry -> Prop).
Hypothesis m_range : forall g, g ∈ m -> seg_ok g.
Hypothesis ms_le : ms <= Z.of_nat (size m).
Hypothesis I_static : forall V v p l, I V v p l -> dirty_bitmap p = m /\ ofs_unit p = 1 /\ p_gc_mode p = GC_GREEDY /\ max_search p = ms /\ (forall q, 0 <= last_victim v q <= MAIN_SEGS).
Hypothesis I_offset : forall V v p l o, I V v p l -> I V v (with_offset p o) l.
Hypothesis I_last : forall V v p l x, I V v p l -> 0 <= x <= MAIN_SEGS -> I V (set_last v GC_GREEDY x) p l.
Hypothesis I_visit : forall V v p l g, I V v p l -> g ∈ m -> exists b v' p' l', victim_skip SIT_ENTRY_PER_BLOCK s v p gc_type g = Some b /\
  (if b : bool then Some (v, p, l) else victim_visit s v p l g) = Some (v', p', l') /\ I ({[g]} ∪ V) v' p' l' /\ last_victim v' = last_victim v /\ p_offset p' = p_offset p.

(** Every segment of the map has been visited or is ahead, and none is met again; [w] is
    where the scan after the wrap ends. *)
Definition covers (V : gset Z) (off ls lv n : Z) : Prop :=
  exists w, (w = lv \/ w = 0) /\ 0 <= w <= off /\ (forall g, g ∈ m -> g ∈ V \/ off <= g < ls \/ g < w) /\ (forall g, g ∈ V -> ~ off <= g < ls /\ ~ g < w) /\ n = Z.of_nat (size V).

Lemma covers_step V off ls lv n sg : covers V off ls lv n -> off <= sg < ls -> (forall g, off <= g < sg -> g ∉ m) -> covers ({[sg]} ∪ V) (sg + 1) ls lv (n + 1).
Proof.
  intros (w & Hw & Hwo & Hall & Hno & ->) Hsg Hskip. exists w. split; [done|]. split; [lia|]. split; [|split].
  - intros g Hg. destruct (Hall g Hg) as [|[Hr|]]; [left; set_solver| |auto]. destruct (decide (g = sg)) as [->|]; [left; set_solver|]. destruct (Z.lt_ge_cases g sg); [by destruct (Hskip g ltac:(lia))|right; left; lia].
  - intros g [->%elem_of_singleton|Hg]%elem_of_union; [lia|]. specialize (Hno g Hg). lia.
  - rewrite size_add; [done|]. intros Hin. specialize (Hno sg Hin). lia.
Qed.
Lemma covers_wrap V off ls lv n : covers V off ls lv n -> lv <> 0 -> n < Z.max 1 ms -> ls <= off \/ (forall g, off <= g < ls -> g ∉ m) -> covers V 0 lv 0 n \/ m ⊆ V.
Proof.
  intros (w & Hw & Hwo & Hall & Hno & ->) Hlv Hn Hnone. destruct (decide (w = lv)) as [->|Hne].
  - left. exists 0. split; [by left|]. split; [lia|]. split; [|split; [|done]].
    + intros g Hg. destruct (Hall g Hg) as [|[Hr|]]; [by left|destruct Hnone as [|Hnone]; [lia|by destruct (Hnone g Hr)]|]. right. left. specialize (m_range g Hg). lia.
    + intros g Hg. specialize (Hno g Hg). lia.
  - right. intros g Hg. assert (w = 0) by tauto. destruct (Hall g Hg) as [|[Hr|]]; [done|destruct Hnone as [|Hnone]; [lia|by destruct (Hnone g Hr)]|specialize (m_range g Hg); lia].
Qed.

Lemma victim_loop_ok fuel : forall V v p l n ls, I V v p l -> 0 <= p_offset p -> 0 <= ls <= MAIN_SEGS -> 0 <= n < Z.max 1 ms -> 
  (Z.to_nat (Z.max 1 ms - n)%Z + (if (last_victim v GC_GREEDY =? 0)%Z then 1 else 2) <= fuel)%nat ->
  exists v' p' l' ls' V', loop fuel s v p l gc_type last n ls = Some (v', p', l', ls') /\ I V' v' p' l' /\ 0 <= ls' <= MAIN_SEGS /\
    (covers V (p_offset p) ls (last_victim v GC_GREEDY) n \/ m ⊆ V -> m ⊆ V' \/ ms <= Z.of_nat (size V') /\ V' ⊆ m \/ ~ V ⊆ m).
Proof.
  induction fuel as [|fuel IH]; intros V v p l n ls HI Ho Hls Hn Hf; [destruct (_ =? 0); lia|]. destruct (I_static V v p l HI) as (E1 & E2 & E3 & E4 & Hlv).
  cbn [victim_loop]. rewrite E1, E2, E3, !Z.div_1_r, Z.mul_1_r. pose proof main_small. pose proof main_pos. set (sg := next_set m ls (p_offset p)).
  assert (Hsg : (ls <= p_offset p \/ p_offset p <= sg) /\ 0 <= sg <= ls /\ (sg < ls -> p_offset p <= sg /\ sg ∈ m) /\ (forall g, p_offset p <= g < sg -> g ∉ m \/ ls <= p_offset p)).
  { unfold sg. destruct (Z.lt_ge_cases (p_offset p) ls) as [Hlt|Hge]; [|rewrite next_set_end by done; conjs; try lia; auto].
    destruct (next_set_spec m ls (p_offset p) Hlt) as (N1 & N2 & N3). conjs; try lia; [intros; split; [lia|auto]|auto]. }
  clearbody sg. destruct Hsg as (S1 & S2 & S3 & S4). rewrite u32_small by lia. destruct (Z.leb_spec ls sg) as [Hge|Hlt].
  - assert (Hnone : ls <= p_offset p \/ (forall g, p_offset p <= g < ls -> g ∉ m)).
    { destruct (Z.lt_ge_cases (p_offset p) ls); [right|by left]. intros g Hg. destruct (S4 g ltac:(lia)); [done|lia]. }
    destruct (Z.eqb_spec (last_victim v GC_GREEDY) 0) as [Hz|Hnz]; cbn [negb].
    + exists v, p, l, ls, V. split; [done|]. split; [done|]. split; [done|]. intros [(w & Hw & Hwo & Hall & _)|]; [|by left]. left. intros g Hg.
      destruct (Hall g Hg) as [|[Hr|]]; [done|destruct Hnone as [|Hnone]; [lia|by destruct (Hnone g Hr)]|specialize (m_range g Hg); lia].
    + specialize (Hlv GC_GREEDY) as Hlr. destruct (IH V (set_last v GC_GREEDY 0) (with_offset p 0) l n (last_victim v GC_GREEDY)) as (v' & p' & l' & ls' & V' & -> & HI' & Hls' & Hcov).
      * apply I_offset, I_last; [done|lia].
      * cbn. lia.
      * lia.
      * lia.
      * cbn. unfold upd. rewrite decide_True by done. cbn. lia.
      * exists v', p', l', ls', V'. split; [done|]. split; [done|]. split; [done|]. intros Hc. apply Hcov. cbn. unfold upd. rewrite decide_True by done.
        destruct Hc as [Hc|]; [|by right]. by apply (covers_wrap _ _ _ _ _ Hc Hnz (proj2 Hn) Hnone).
  - destruct (S3 Hlt) as [Hoff Hin]. rewrite (u32_small (sg + 1)) by lia. assert (Hszm : Z.of_nat (size m) <= MAIN_SEGS) by (apply map_size; [lia|done]). rewrite (u32_small (n + 1)) by lia.
    set (p1 := with_offset p (sg + 1)). assert (HI1 : I V v p1 l) by (by apply I_offset).
    destruct (I_visit V v p1 l sg HI1 Hin) as (b & v' & p' & l' & -> & Ev & HI' & Elv & Eo). cbn [mbind option_bind]. rewrite Ev. cbn [mbind option_bind].
    destruct (I_static _ _ _ _ HI') as (F1 & F2 & F3 & F4 & Flv). rewrite F4, F3, F2.
    assert (Hsub : V ⊆ m -> {[sg]} ∪ V ⊆ m) by set_solver.
    destruct (Z.leb_spec ms (n + 1)) as [Hend|Hgo].
    + eexists _, p', l', ls, ({[sg]} ∪ V). split; [done|]. split; [|split; [done|]].
      * apply I_last; [done|]. assert (Hmod : forall x, 0 <= x mod MAIN_SEGS < MAIN_SEGS) by (intros; apply Z.mod_pos_bound; lia). split; [apply Hmod|apply Z.lt_le_incl, Hmod].
      * intros Hc. destruct (decide (V ⊆ m)) as [HVm|]; [|auto]. destruct Hc as [Hc|]; [|left; set_solver]. right. left. split; [|auto].
        destruct (covers_step _ _ _ _ _ sg Hc) as (_ & _ & _ & _ & _ & Hsz); [lia|intros g Hg; destruct (S4 g Hg); [done|lia]|lia].
    + destruct (IH ({[sg]} ∪ V) v' p' l' (n + 1) ls) as (v2 & p2 & l2 & ls' & V' & -> & HI2 & Hls' & Hcov); [done|rewrite Eo; cbn; lia|done|lia|rewrite Elv; lia|].
      exists v2, p2, l2, ls', V'. split; [done|]. split; [done|]. split; [done|]. rewrite Eo, Elv in Hcov. intros Hc. destruct (decide (V ⊆ m)) as [HVm|]; [|auto].
      assert (Hc' : covers ({[sg]} ∪ V) (p_offset p1) ls (last_victim v GC_GREEDY) (n + 1) \/ m ⊆ {[sg]} ∪ V).
      { destruct Hc as [Hc|]; [left|right; set_solver]. apply covers_step with (off := p_offset p); [done|lia|intros g Hg; destruct (S4 g Hg); [done|lia]]. }
      destruct (Hcov Hc') as [|[|Hbad]]; auto. destruct Hbad. by apply Hsub.
Qed.
End scan.

(** ** Segments with holes *)

Definition ckpt_of (s : seg_sys) (g : Z) : Z := match sentries (sit s) !! g with Some se => ckpt_valid_blocks se | None => 0 end.
(** The sections a search leaves out: of a current segment, the one being cleaned, and
    those the background collector has marked. *)
Definition left_out (s : seg_sys) (v : victim_info) (g : Z) : bool := sec_usage_check s v (GET_SEC_FROM_SEG g) || bool_decide (GET_SEC_FROM_SEG g ∈ victim_secmap v).

Section one.
Context (X : gset Z) (s : seg_sys) (t : Z).
Hypothesis Hi : seg_inv X s.
Hypothesis Ht : 0 <= t < NR_PERSISTENT_LOG.
Notation m := (dirty_segmap (dirt s) t).

Lemma of_type g : g ∈ m -> seg_ok g /\ g ∈ dirty_segmap (dirt s) DIRTY /\ exists se, sentries (sit s) !! g = Some se /\ entry_ok se /\ 0 < ckpt_valid_blocks se.
Proof.
  intros Hg. unfold NR_PERSISTENT_LOG in Ht. apply (ls_types _ (si_lists _ _ Hi) t g ltac:(unfold DIRTY; lia)) in Hg as [Hg _]. destruct (ls_dirty _ (si_lists _ _ Hi) g Hg) as [Hr _].
  split; [done|]. split; [done|]. destruct (seg_entry_at X s g Hi Hr) as (se & E & He). exists se. split; [done|]. split; [done|]. rewrite (eo_ckpt se He).
  pose proof (ls_ckpt _ (si_lists _ _ Hi) g se Hg E) as Hne. destruct (size (ckpt_valid_map se)) eqn:Es; [by apply size_zero in Es|lia].
Qed.
Lemma nr_of_type : nr_dirty (dirt s) t = Z.of_nat (size m).
Proof. apply (ls_nr _ (si_lists _ _ Hi)). unfold NR_PERSISTENT_LOG, PRE in *. lia. Qed.

(** What a search keeps of the state of the selection. *)
Definition vkeeps (v : victim_info) : Prop :=
  victim_secmap v = victim_secmap (vict s) /\ cur_victim_sec v = cur_victim_sec (vict s) /\ forall q, 0 <= last_victim v q <= MAIN_SEGS.
Definition pstatic (ms mode : Z) (p : victim_sel_policy) : Prop := dirty_bitmap p = m /\ ofs_unit p = 1 /\ p_gc_mode p = GC_GREEDY /\ max_search p = ms /\ p_alloc_mode p = mode.

Lemma vkeeps_last v x : vkeeps v -> 0 <= x <= MAIN_SEGS -> vkeeps (set_last v GC_GREEDY x).
Proof. intros (A & B & C) Hx. split; [done|]. split; [done|]. intros q. cbn. unfold upd. by destruct (decide (q = GC_GREEDY)). Qed.
Lemma skip_left_out v p g : vkeeps v -> victim_skip SIT_ENTRY_PER_BLOCK s v p BG_GC g = Some (left_out s (vict s) g).
Proof.
  intros (A & B & _). unfold victim_skip, left_out, sec_usage_check. rewrite A, B, (si_cp _ _ Hi). destruct (IS_CURSEC s (GET_SEC_FROM_SEG g) || _); done.
Qed.

(** *** The cheapest segment *)

Definition best (V : gset Z) (p : victim_sel_policy) : Prop :=
  (forall g, g ∈ V -> left_out s (vict s) g = false -> min_cost p <= ckpt_of s g) /\
  (min_segno p = NULL_SEGNO /\ min_cost p = blks_per_seg \/
   min_segno p ∈ V /\ left_out s (vict s) (min_segno p) = false /\ ckpt_of s (min_segno p) = min_cost p /\ min_cost p < blks_per_seg).
Definition I_ssr (ms : Z) (V : gset Z) (v : victim_info) (p : victim_sel_policy) (l : list victim_entry) : Prop := vkeeps v /\ pstatic ms SSR p /\ V ⊆ m /\ best V p.

Lemma ssr_visit ms V v p l g : I_ssr ms V v p l -> g ∈ m -> exists b v' p' l', victim_skip SIT_ENTRY_PER_BLOCK s v p BG_GC g = Some b /\
  (if b : bool then Some (v, p, l) else victim_visit s v p l g) = Some (v', p', l') /\ I_ssr ms ({[g]} ∪ V) v' p' l' /\ last_victim v' = last_victim v /\ p_offset p' = p_offset p.
Proof.
  intros (Hv & Hp & HV & HB1 & HB2) Hg. pose proof Hp as (P1 & P2 & P3 & P4 & P5). rewrite (skip_left_out v p g Hv). destruct (left_out s (vict s) g) eqn:El.
  - exists true, v, p, l. split; [done|]. split; [done|]. split; [|done]. split; [done|]. split; [done|]. split; [set_solver|]. split.
    + intros h [->%elem_of_singleton|Hh]%elem_of_union Hl; [congruence|auto].
    + destruct HB2 as [|(B1 & ?)]; [auto|right; split; [set_solver|done]].
  - destruct (of_type g Hg) as (Hr & _ & se & E & He & _). assert (Hc : ckpt_of s g = ckpt_valid_blocks se) by (unfold ckpt_of; by rewrite E).
    unfold victim_visit, is_atgc, get_gc_cost, get_seg_entry. rewrite P3, P5, E. cbn [orb Z.eqb GC_GREEDY GC_AT SSR AT_SSR Pos.eqb mbind option_bind].
    eexists false, v, _, l. split; [done|]. split; [reflexivity|]. rewrite <-Hc. split; [|by destruct (_ <? _)]. split; [done|]. split; [by destruct (_ <? _)|]. split; [set_solver|].
    destruct (Z.ltb_spec (ckpt_of s g) (min_cost p)) as [Hlt|Hge]; unfold best; cbn.
    + split.
      * intros h [->%elem_of_singleton|Hh]%elem_of_union Hl; [done|]. specialize (HB1 h Hh Hl). lia.
      * right. split; [set_solver|]. split; [done|]. split; [done|]. destruct HB2 as [[_ HB2]|(_ & _ & _ & ?)]; lia.
    + split.
      * intros h [->%elem_of_singleton|Hh]%elem_of_union Hl; [done|auto].
      * destruct HB2 as [|(B1 & ?)]; [auto|right; split; [set_solver|done]].
Qed.

Lemma got_hole v p gc : ofs_unit p = 1 -> seg_ok (min_segno p) -> (p_alloc_mode p =? LFS) = false -> got_it v p gc = (v, 0, min_segno p).
Proof. intros E Hr El. unfold got_it, got_result. rewrite E, El, Z.div_1_r, Z.mul_1_r. pose proof main_small. by rewrite u32_small by lia. Qed.

(** The segments a search may return. *)
Definition candidate (g : Z) : Prop := g ∈ m /\ left_out s (vict s) g = false /\ ckpt_of s g < blks_per_seg.

Lemma seg_not_null g : seg_ok g -> (g =? NULL_SEGNO) = false.
Proof. intros Hg. apply Z.eqb_neq. intros ->. by apply null_not_seg in Hg. Qed.
Lemma policy_static v mode age thr : mode = SSR \/ mode = AT_SSR -> vkeeps v -> let p := select_policy env s v BG_GC t mode age thr in
  pstatic (max_search p) mode p /\ max_search p <= Z.of_nat (size m) /\ 0 <= p_offset p <= MAIN_SEGS /\ min_segno p = NULL_SEGNO /\ min_cost p = (if mode =? SSR then blks_per_seg else UINT_MAX) /\
  (p_offset p = last_victim v GC_GREEDY \/ p_offset p = 0) /\ age_threshold p = thr.
Proof.
  intros Hm (_ & _ & Hl). unfold select_policy. assert (Em : (mode =? SSR) || (mode =? AT_SSR) = true) by (destruct Hm as [->| ->]; done). rewrite Em, nr_of_type. cbv zeta. cbn [p_alloc_mode p_gc_mode dirty_bitmap max_search p_offset ofs_unit min_cost min_segno age_threshold].
  split; [by split|]. split; [|split; [|split; [done|]]].
  - set (c := _ && (max_victim_search env <? _)). destruct c eqn:Ec; [|lia]. unfold c in Ec. apply andb_true_iff in Ec as [_ Ec%Z.ltb_lt]. lia.
  - pose proof main_pos. specialize (Hl GC_GREEDY). destruct (v_noheap env && _); lia.
  - split; [unfold get_max_cost; destruct Hm as [->| ->]; done|]. split; [|done]. destruct (v_noheap env && _); auto.
Qed.

Lemma policy_full age thr : Z.of_nat (size m) <= max_victim_search env \/ sbi_gc_mode env = GC_URGENT_HIGH -> max_search (select_policy env s (vict s) BG_GC t SSR age thr) = Z.of_nat (size m).
Proof.
  intros Hfull. unfold select_policy. cbn [max_search orb Z.eqb SSR Pos.eqb]. rewrite nr_of_type. destruct Hfull as [Hle|Hu].
  - destruct (Z.ltb_spec (max_victim_search env) (Z.of_nat (size m))); [lia|]. by rewrite andb_false_r.
  - by rewrite Hu.
Qed.
(** A set of segments that is as large as the map is all of it. *)
Lemma all_visited (V : gset Z) : m ⊆ V \/ Z.of_nat (size m) <= Z.of_nat (size V) /\ V ⊆ m \/ ~ (∅ : gset Z) ⊆ m -> forall h, h ∈ m -> h ∈ V.
Proof.
  intros [Hs|[[Hle Hs]|Hn]] h Hh; [by apply Hs| |set_solver]. destruct (decide (h ∈ V)); [done|exfalso]. assert (Hsub : {[h]} ∪ V ⊆ m) by set_solver.
  apply subseteq_size in Hsub. rewrite size_union, size_singleton in Hsub by set_solver. lia.
Qed.

Lemma ssr_search age : exists v r, ssr_victim env central SIT_ENTRY_PER_BLOCK s t SSR age = Some (v, r) /\ (forall q, 0 <= last_victim v q <= MAIN_SEGS) /\
  (forall g, r = Some g -> candidate g) /\
  (Z.of_nat (size m) <= max_victim_search env \/ sbi_gc_mode env = GC_URGENT_HIGH ->
   match r with Some g => forall h, candidate h -> ckpt_of s g <= ckpt_of s h | None => forall h, ~ candidate h end).
Proof.
  assert (Hv : vkeeps (vict s)) by (split; [done|]; split; [done|apply (si_last _ _ Hi)]).
  destruct (policy_static (vict s) SSR age (am_age_threshold env) (or_introl eq_refl) Hv) as (Hp & Hms & Hoff & Hmin & Hcost & Hoff' & _).
  unfold ssr_victim, get_victim_by_default. cbn [victim_search]. set (p := select_policy env s (vict s) BG_GC t SSR age (am_age_threshold env)) in *. pose proof Hp as (P1 & P2 & P3 & P4 & P5).
  assert (Hna : forall q, pstatic (max_search p) SSR q -> is_atgc q = false) by (intros q (_ & _ & Q3 & _ & Q5); unfold is_atgc; by rewrite Q3, Q5).
  rewrite (Hna p Hp). cbn [negb Z.eqb NULL_SEGNO SSR LFS]. change (NULL_SEGNO =? NULL_SEGNO) with true. cbn [negb]. destruct (Z.eqb_spec (max_search p) 0) as [Hz|Hnz].
  - exists (vict s), None. split; [done|]. split; [apply (si_last _ _ Hi)|]. split; [done|]. intros Hfull h (Hh & _). assert (Hm0 : Z.of_nat (size m) = 0).
    { rewrite <-(policy_full age (am_age_threshold env) Hfull). done. }
    assert (Hsz : size m = 0%nat) by lia. apply size_zero in Hsz. rewrite Hsz in Hh. set_solver.
  - rewrite andb_false_r. cbn [andb].
    destruct (victim_loop_ok s m (max_search p) BG_GC (last_victim (vict s) (p_gc_mode p)) (I_ssr (max_search p))) with (fuel := victim_fuel p) (V := ∅ : gset Z) (v := vict s) (p := p) (l := @nil victim_entry) (n := 0) (ls := MAIN_SEGS)
      as (v' & p' & l' & ls' & V' & Eq & (Hv' & Hp' & HV' & HB1 & HB2) & _ & Hcov).
    + intros g Hg. by apply of_type.
    + done.
    + intros V v q l ((? & ? & ?) & (? & ? & ? & ? & ?) & ?). done.
    + intros V v q l o HI. exact HI.
    + intros V v q l x (? & ?) Hx. split; [by apply vkeeps_last|done].
    + intros V v q l g. apply ssr_visit.
    + split; [done|]. split; [done|]. split; [set_solver|]. split; [set_solver|]. left. by rewrite Hmin, Hcost.
    + lia.
    + pose proof main_pos. lia.
    + lia.
    + unfold victim_fuel. destruct (_ =? 0); lia.
    + assert (Hall : Z.of_nat (size m) <= max_victim_search env \/ sbi_gc_mode env = GC_URGENT_HIGH -> forall h, h ∈ m -> h ∈ V').
      { intros Hfull. pose proof (policy_full age (am_age_threshold env) Hfull) as Hmx. fold p in Hmx. rewrite Hmx in Hcov. apply all_visited, Hcov. left. pose proof (si_last _ _ Hi GC_GREEDY).
        exists (p_offset p). split; [done|]. split; [lia|]. split; [|split; [set_solver|by rewrite size_empty]]. intros g Hg. destruct (of_type g Hg) as [Hr _]. lia. }
      rewrite Eq. cbn [mbind option_bind]. rewrite (Hna p' Hp'). cbn [mbind option_bind]. rewrite (Hna p' Hp'). cbn [andb]. destruct HB2 as [[Hn Hc]|(Hin & Hlo & Hck & Hlt)].
      * rewrite Hn. change (NULL_SEGNO =? NULL_SEGNO) with true. eexists _, None. split; [done|]. split; [apply Hv'|]. split; [done|]. intros Hfull h (Hh & Hlh & Hch).
        assert (HhV : h ∈ V') by (by apply Hall).
        specialize (HB1 h HhV Hlh). lia.
      * pose proof (of_type _ (HV' _ Hin)) as (Hr & _). rewrite (seg_not_null _ Hr). destruct Hp' as (Q1 & Q2 & Q3 & Q4 & Q5). rewrite (got_hole v' p' BG_GC Q2 Hr ltac:(by rewrite Q5)).
        eexists _, (Some (min_segno p')). split; [done|]. split; [apply Hv'|]. split; [intros g [= <-]; split; [by apply HV'|]; split; [done|lia]|]. intros Hfull h (Hh & Hlh & Hch).
        assert (HhV : h ∈ V') by (by apply Hall).
        rewrite Hck. by apply HB1.
Qed.

(** *** By age *)

Hypothesis elapsed_pos : 0 <= elapsed_time env.

Lemma mtime_sum_ok n : forall start acc, 0 <= start -> start + Z.of_nat n <= MAIN_SEGS -> exists x, mtime_sum n s start acc = Some x.
Proof.
  induction n as [|n IH]; intros start acc Hs He; cbn [mtime_sum]; [eauto|]. destruct (seg_entry_at X s start Hi ltac:(lia)) as (se & E & _). unfold get_seg_entry. rewrite E. cbn [mbind option_bind].
  pose proof main_small. rewrite u32_small by lia. apply IH; lia.
Qed.
Lemma section_mtime_ok g : seg_ok g -> exists x, section_mtime s g = Some x.
Proof.
  intros Hg. destruct (sec_of g Hg) as [Es Hsr]. unfold section_mtime. rewrite Es, seg_of_sec by lia. pose proof sec_pos. destruct (mtime_sum_ok (Z.to_nat segs_per_sec) (g / segs_per_sec * segs_per_sec) 0) as [x ->]; [nia|unfold MAIN_SEGS; nia|cbn; eauto].
Qed.
Lemma insert_entry_in l mt g : g ∈ m -> Forall (fun e => ve_segno e ∈ m) l -> Forall (fun e => ve_segno e ∈ m) (insert_victim_entry l mt g).
Proof. intros Hg Hl. induction Hl as [|e l He Hl IH]; cbn; [by repeat constructor|]. destruct (mt <? ve_mtime e); by repeat constructor. Qed.

Definition I_at (ms thr : Z) (V : gset Z) (v : victim_info) (p : victim_sel_policy) (l : list victim_entry) : Prop :=
  vkeeps v /\ pstatic ms AT_SSR p /\ Forall (fun e => ve_segno e ∈ m) l /\ min_segno p = NULL_SEGNO /\ age_threshold p = thr.
Lemma at_visit ms thr V v p l g : I_at ms thr V v p l -> g ∈ m -> exists b v' p' l', victim_skip SIT_ENTRY_PER_BLOCK s v p BG_GC g = Some b /\
  (if b : bool then Some (v, p, l) else victim_visit s v p l g) = Some (v', p', l') /\ I_at ms thr ({[g]} ∪ V) v' p' l' /\ last_victim v' = last_victim v /\ p_offset p' = p_offset p.
Proof.
  intros (Hv & Hp & Hl & Hm & Ha) Hg. pose proof Hp as (P1 & P2 & P3 & P4 & P5). rewrite (skip_left_out v p g Hv). exists (left_out s (vict s) g). destruct (left_out s (vict s) g); [by exists v, p, l|].
  destruct (of_type g Hg) as (Hr & _). unfold victim_visit, is_atgc, add_victim_entry. rewrite P3, P5, (si_cp _ _ Hi). destruct (section_mtime_ok g Hr) as [x ->]. cbn [orb andb Z.eqb GC_GREEDY GC_AT AT_SSR Pos.eqb mbind option_bind].
  cbv zeta. cbn [dirty_max_mtime set_times]. set (v1 := set_times _ _ _ _ _). destruct (u64 _ <? age_threshold p); cbn [mbind option_bind]; eexists v1, p, _; (split; [done|]; split; [done|]; split; [|done]).
  - split; [exact Hv|done].
  - split; [exact Hv|]. split; [done|]. split; [by apply insert_entry_in|done].
Qed.

(** The policy is unchanged but for a segment with room. *)
Definition chosen (p p' : victim_sel_policy) : Prop :=
  (min_segno p' = min_segno p \/ min_segno p' ∈ m /\ ckpt_of s (min_segno p') < blks_per_seg) /\
  p_alloc_mode p' = p_alloc_mode p /\ p_gc_mode p' = p_gc_mode p /\ ofs_unit p' = ofs_unit p /\ age_threshold p' = age_threshold p.
Lemma chosen_trans p p' p'' : chosen p p' -> chosen p' p'' -> chosen p p''.
Proof. intros (A & A1 & A2 & A3 & A4) (B & B1 & B2 & B3 & B4). split; [|conjs; congruence]. destruct B as [->|]; [done|by right]. Qed.
Lemma better_chosen p cost age g : g ∈ m -> ckpt_of s g < blks_per_seg -> chosen p (better p cost age g).
Proof. intros Hg Hc. unfold better. destruct (_ || _); (split; [cbn; auto|done]). Qed.
Lemma atssr_stage_ok l : Forall (fun e => ve_segno e ∈ m) l -> forall p mx mn thr it, exists p', atssr_stage l s p mx mn thr it = Some p' /\ chosen p p'.
Proof.
  assert (Hrefl : forall p, chosen p p) by (intros; split; [by left|done]).
  induction 1 as [|e l He Hl IH]; intros p mx mn thr it; cbn [atssr_stage]; [eauto|]. destruct (of_type _ He) as (Hr & _ & se & E & Hse & Hpos).
  assert (Hck : ckpt_of s (ve_segno e) = ckpt_valid_blocks se) by (unfold ckpt_of; by rewrite E). pose proof (entry_bounds se Hse) as [_ Hb].
  set (r := if _ || _ then _ else _). assert (Hstep : exists p1 it1, r = Some (p1, it1) /\ chosen p p1).
  { unfold r. destruct (_ || _); [eauto|]. unfold get_seg_entry. rewrite E. cbn [mbind option_bind]. destruct (Z.eqb_spec (ckpt_valid_blocks se) 0); [lia|]. destruct (Z.eqb_spec (ckpt_valid_blocks se) blks_per_seg); [eauto|].
    eexists _, _. split; [done|]. apply better_chosen; [done|lia]. }
  clearbody r. destruct Hstep as (p1 & it1 & -> & Hc). cbn [mbind option_bind]. destruct (it1 <? thr); [|eauto]. destruct (IH p1 mx mn thr it1) as (p' & -> & Hc'). eauto using chosen_trans.
Qed.
Lemma atssr_lookup_ok v p l : Forall (fun e => ve_segno e ∈ m) l -> exists p', atssr_lookup_victim env central s v p l = Some p' /\ chosen p p'.
Proof.
  intros Hl. assert (Hrefl : chosen p p) by (split; [by left|done]). unfold atssr_lookup_victim. destruct (_ <? _); [eauto|]. cbv zeta.
  destruct (central l (p_age p)) as [i|]; cbn iota beta.
  - destruct (atssr_stage_ok (rev (take (S i) l))) with (p := p) (mx := u64 (dirty_max_mtime v + 1)) (mn := dirty_min_mtime v) (thr := dirty_threshold env l) (it := 0) as (p1 & -> & Hc); [apply Forall_rev; by apply Forall_take|].
    cbn [mbind option_bind]. destruct (atssr_stage_ok (drop i l)) with (p := p1) (mx := u64 (dirty_max_mtime v + 1)) (mn := dirty_min_mtime v) (thr := dirty_threshold env l) (it := 0) as (p2 & -> & Hc2); [by apply Forall_drop|].
    eauto using chosen_trans.
  - cbn. eauto.
Qed.

Lemma at_search fuel : forall v age thr ls, vkeeps v -> 0 <= ls <= MAIN_SEGS -> (2 <= fuel)%nat \/ (1 <= fuel)%nat /\ thr <= 0 ->
  exists v' err sg, victim_search env central SIT_ENTRY_PER_BLOCK fuel s v NULL_SEGNO BG_GC t AT_SSR age thr ls = Some (v', err, sg) /\ (forall q, 0 <= last_victim v' q <= MAIN_SEGS) /\
    (err = 0 -> sg ∈ m /\ ckpt_of s sg < blks_per_seg).
Proof.
  induction fuel as [|fuel IH]; intros v age thr ls Hv Hls Hf; [lia|]. destruct (policy_static v AT_SSR age thr (or_intror eq_refl) Hv) as (Hp & Hms & Hoff & Hmin & Hcost & Hoff' & Hthr).
  cbn [victim_search]. set (p := select_policy env s v BG_GC t AT_SSR age thr) in *. pose proof Hp as (P1 & P2 & P3 & P4 & P5).
  assert (Ha : forall q, p_alloc_mode q = AT_SSR -> is_atgc q = true) by (intros q Q5; unfold is_atgc; by rewrite Q5, orb_true_r).
  rewrite (Ha p P5). change (NULL_SEGNO =? NULL_SEGNO) with true. cbn [negb Z.eqb AT_SSR LFS]. set (v1 := set_times v _ _ _ _). assert (Hv1 : vkeeps v1) by exact Hv. destruct (Z.eqb_spec (max_search p) 0) as [Hz|Hnz].
  { exists v1, (- ENODATA), NULL_SEGNO. split; [done|]. split; [apply Hv|done]. }
  rewrite andb_false_r. cbn [andb].
  destruct (victim_loop_ok s m (max_search p) BG_GC (last_victim v1 (p_gc_mode p)) (I_at (max_search p) thr)) with (fuel := victim_fuel p) (V := ∅ : gset Z) (v := v1) (p := p) (l := @nil victim_entry) (n := 0) (ls := ls)
    as (v' & p' & l' & ls' & V' & Eq & (Hv' & Hp' & Hl' & Hm' & Ht') & Hls' & _).
  - intros g Hg. by apply of_type.
  - done.
  - intros V w q l ((? & ? & ?) & (? & ? & ? & ? & ?) & ?). done.
  - intros V w q l o HI. exact HI.
  - intros V w q l x (? & ?) Hx. split; [by apply vkeeps_last|done].
  - intros V w q l g. apply at_visit.
  - done.
  - lia.
  - done.
  - lia.
  - unfold victim_fuel. destruct (_ =? 0); lia.
  - rewrite Eq. cbn [mbind option_bind]. pose proof Hp' as (Q1 & Q2 & Q3 & Q4 & Q5). rewrite (Ha p' Q5). unfold lookup_victim_by_age. rewrite Q3, Q5. cbn [Z.eqb GC_GREEDY GC_AT AT_SSR Pos.eqb].
    destruct (atssr_lookup_ok v' p' l' Hl') as (p2 & -> & [Hch (C1 & C2 & C3 & C4)]). cbn [mbind option_bind]. rewrite (Ha p2 (eq_trans C1 Q5)). cbn [andb]. destruct Hch as [Hn|[Hin Hck]].
    + rewrite Hn, Hm'. change (NULL_SEGNO =? NULL_SEGNO) with true. cbn [andb]. rewrite C4, Ht'. destruct (Z.ltb_spec (elapsed_time env) thr) as [Hlt|].
      * apply IH; [done|done|right; lia].
      * exists v', (- ENODATA), NULL_SEGNO. split; [done|]. split; [apply Hv'|done].
    + destruct (of_type _ Hin) as [Hr _]. rewrite (seg_not_null _ Hr). cbn [andb]. rewrite (got_hole v' p2 BG_GC (eq_trans C3 Q2) Hr) by (by rewrite C1, Q5). exists v', 0, (min_segno p2). split; [done|]. split; [apply Hv'|done].
Qed.
End one.

(** The selection keeps what the allocator relies on. *)
#[global] Instance default_v_ops (He : 0 <= elapsed_time env) : VictimSelection (ssr_victim env central SIT_ENTRY_PER_BLOCK).
Proof.
  constructor. intros X s t mode age Hi Hmode Ht.
  assert (Hout : forall g, g ∈ dirty_segmap (dirt s) t -> ckpt_of s g < blks_per_seg -> g ∈ dirty_segmap (dirt s) DIRTY /\ exists se, sentries (sit s) !! g = Some se /\ ckpt_valid_blocks se < blks_per_seg).
  { intros g Hg Hc. destruct (of_type X s t Hi Ht g Hg) as (_ & Hd & se & E & _). split; [done|]. exists se. split; [done|]. unfold ckpt_of in Hc. by rewrite E in Hc. }
  destruct Hmode as [->| ->].
  - destruct (ssr_search X s t Hi Ht age) as (v & r & E & Hl & Hr & _). exists v, r. split; [done|]. split; [done|]. intros g Eg. destruct (Hr g Eg) as (? & _ & ?). auto.
  - destruct (at_search X s t Hi Ht He 2 (vict s) age (am_age_threshold env) MAIN_SEGS) as (v & err & sg & E & Hl & Hr); [split; [done|]; split; [done|apply (si_last _ _ Hi)]|pose proof main_pos; lia|by left|].
    unfold ssr_victim, get_victim_by_default. rewrite E. cbn [mbind option_bind]. eexists _, _. split; [done|]. split; [done|]. intros g Eg. destruct (Z.eqb_spec err 0) as [Hz|]; [|done]. injection Eg as <-. destruct (Hr Hz). auto.
Qed.

(** C19: The search for a segment whose holes a log may fill always ends, whatever the
    place it starts from, and when it may look at all segments of the type (there are no
    more than the limit of a search, or cleaning is urgent) it is optimal: the segment it
    returns has the fewest blocks in use now or at the last checkpoint among all dirty
    segments of the type that have room and whose section is not in use by a log, being
    cleaned or marked for cleaning; it returns none only if there is no such segment. *)
Theorem ssr_victim_cheapest X s t age : seg_inv X s -> 0 <= t < NR_PERSISTENT_LOG ->
  Z.of_nat (size (dirty_segmap (dirt s) t)) <= max_victim_search env \/ sbi_gc_mode env = GC_URGENT_HIGH ->
  exists v r, ssr_victim env central SIT_ENTRY_PER_BLOCK s t SSR age = Some (v, r) /\
    match r with Some g => candidate s t g /\ forall h, candidate s t h -> ckpt_of s g <= ckpt_of s h | None => forall h, ~ candidate s t h end.
Proof.
  intros Hi Ht Hfull. destruct (ssr_search X s t Hi Ht age) as (v & r & E & _ & Hr & Hmin). exists v, r. split; [done|]. specialize (Hmin Hfull). destruct r as [g|]; [|done]. split; [by apply Hr|done].
Qed.
End vprops.
