(* ===== verification/SegBlocks.v ===== *)
(** * Allocation and invalidation of blocks keep the invariant *)

From S2P Require Import Prelude FreeNid NatCache SegBitmap SegState SegAlloc SegInv SegLists SegCur SegSwitch SegVictim SegVictimProps.

Section blocks.
Context `{SegGeometry} (block_unit_discard : bool).
Notation seg_ok g := (0 <= g < MAIN_SEGS).
Notation off_ok o := (0 <= o < blks_per_seg).
Notation log_ok t := (0 <= t < NO_CHECK_TYPE).

(** ** Changes of one log that stays in its segment *)

Record retag (s s' : seg_sys) (t : Z) (c' : curseg_info) : Prop := {
  rt_sit : sit s' = sit s;
  rt_fre : fre s' = fre s;
  rt_dirt : dirt s' = dirt s;
  rt_ssa : ssa s' = ssa s;
  rt_err : CP_ERROR s' = CP_ERROR s;
  rt_cp : CP_DISABLED s' = CP_DISABLED s;
  rt_last : forall p, 0 <= last_victim (vict s') p <= MAIN_SEGS;
  rt_cur : forall u, CURSEG_I s' u = upd (CURSEG_I s) t c' u;
  rt_seg : segno c' = segno (CURSEG_I s t);
  rt_ini : inited c' = inited (CURSEG_I s t)
}.

Lemma retag_cur s s' t c' : retag s s' t c' -> CURSEG_I s' t = c'.
Proof. intros Hr. rewrite (rt_cur _ _ _ _ Hr). unfold upd. by rewrite decide_True. Qed.
Lemma retag_segno s s' t c' u : retag s s' t c' -> segno (CURSEG_I s' u) = segno (CURSEG_I s u) /\ inited (CURSEG_I s' u) = inited (CURSEG_I s u).
Proof. intros Hr. rewrite (rt_cur _ _ _ _ Hr). unfold upd. destruct (decide (u = t)) as [->|]; [split; [by apply Hr|by apply Hr]|done]. Qed.
Lemma retag_curseg s s' t c' g : retag s s' t c' -> IS_CURSEG s' g = IS_CURSEG s g.
Proof. intros Hr. unfold IS_CURSEG. induction curseg_types as [|u l IH]; [done|]. cbn [existsb]. destruct (retag_segno s s' t c' u Hr) as [-> _]. by rewrite IH. Qed.

Lemma inv_retag X s s' t c' : seg_inv X s -> log_ok t -> retag s s' t c' -> cur_ok s c' -> seg_inv X s'.
Proof.
  intros Hi Ht Hr Hc. pose proof Hr as [E1 E2 E3 E4 E5 E6 E7 E8 E9 E10]. assert (Hcs : forall g, IS_CURSEG s' g = IS_CURSEG s g) by (intros; by apply (retag_curseg s s' t c')).
  destruct Hi as [I1 I2 I3 I4 I5 I6 [L1 L2 L3 L4 L5] I8 I9 I10]. constructor; rewrite ?E1, ?E2, ?E6; try done.
  - intros u Hu. rewrite E8. unfold upd. destruct (decide (u = t)); [destruct Hc as [K1 K2 K3 K4 K5]|destruct (I4 u Hu) as [K1 K2 K3 K4 K5]]; constructor; rewrite ?E1, ?E2; done.
  - intros u Hu. destruct (retag_segno s s' t c' u Hr) as [_ ->]. auto.
  - intros u u' Hu Hu' Hne. destruct (retag_segno s s' t c' u Hr) as [-> ->]. destruct (retag_segno s s' t c' u' Hr) as [-> _]. auto.
  - constructor; rewrite ?E1, ?E2, ?E3; try done; intros g Hg; rewrite Hcs; auto.
  - intros g Hg HX. destruct (I8 g Hg HX). constructor; rewrite ?E1, ?E2, ?E3, ?Hcs; done.
Qed.

(** The log keeps its place, its summaries and its kind of allocation. *)
Definition same_place (c c' : curseg_info) : Prop := sum_blk c' = sum_blk c /\ alloc_type c' = alloc_type c /\ segno c' = segno c /\ next_blkoff c' = next_blkoff c /\ inited c' = inited c.
Lemma cur_same s c c' : cur_ok s c -> same_place c c' -> 0 <= seg_type c' < NR_PERSISTENT_LOG -> cur_ok s c'.
Proof. intros [K1 K2 K3 K4 K5] (A1 & A2 & A3 & A4 & A5) Ht. constructor; rewrite ?A2, ?A3, ?A4, ?A5; done. Qed.

Lemma summ_retag s s' t c' g o : retag s s' t c' -> sum_blk c' = sum_blk (CURSEG_I s t) -> summ s' g o = summ s g o.
Proof.
  intros Hr Hs. unfold summ. rewrite (rt_ssa _ _ _ _ Hr).
  replace (List.find (fun u => segno (CURSEG_I s' u) =? g) curseg_types) with (List.find (fun u => segno (CURSEG_I s u) =? g) curseg_types).
  - destruct (List.find _ _) as [u|]; [|done]. rewrite (rt_cur _ _ _ _ Hr). unfold upd. destruct (decide (u = t)) as [->|]; [by rewrite Hs|done].
  - induction curseg_types as [|u l IH]; [done|]. cbn [List.find]. destruct (retag_segno s s' t c' u Hr) as [-> _]. by rewrite IH.
Qed.
Lemma maps_retag s s' t c' g : retag s s' t c' -> maps_of s' g = maps_of s g.
Proof. intros Hr. unfold maps_of. by rewrite (rt_sit _ _ _ _ Hr). Qed.

Lemma switched_retag s s1 s' t c1 sg : retag s s1 t c1 -> sum_blk c1 = sum_blk (CURSEG_I s t) -> switched s1 s' t sg -> switched s s' t sg.
Proof.
  intros Hr Hs [W1 [W2 W2'] W3 (c' & W4 & W4') W5 W6]. constructor.
  - intros g. by rewrite W1, (maps_retag s s1 t c1 g Hr).
  - split; [done|]. by rewrite <-(retag_curseg s s1 t c1 sg Hr).
  - by rewrite W3, (rt_fre _ _ _ _ Hr).
  - exists c'. split; [|done]. intros u. rewrite W4. unfold upd. destruct (decide (u = t)); [done|]. rewrite (rt_cur _ _ _ _ Hr). unfold upd. by rewrite decide_False.
  - rewrite <-(rt_err _ _ _ _ Hr). done.
  - intros He g o Hg Hk. rewrite W6; [by apply (summ_retag s s1 t c1)|done|done|]. apply (maps_kept s s1 g o (maps_retag s s1 t c1 g Hr)). done.
Qed.

(** ** Another segment for a log *)

Context (get_victim : seg_sys -> Z -> Z -> Z -> option (victim_info * option Z)) `{Hvs : !VictimSelection get_victim}.
Context (env : alloc_env).
Notation get_ssr := (get_ssr_segment get_victim).

(** The segment a search found, if any. *)
Definition with_room (s : seg_sys) (sg : Z) : Prop :=
  seg_ok sg /\ IS_CURSEG s sg = false /\ exists se, sentries (sit s) !! sg = Some se /\ ckpt_valid_blocks se < blks_per_seg.

Lemma retag_refl X s t : seg_inv X s -> retag s s t (CURSEG_I s t).
Proof. intros Hi. constructor; try done; [apply (si_last _ _ Hi)|]. intros u. unfold upd. by destruct (decide (u = t)) as [->|]. Qed.
Lemma retag_vict s s1 t v : retag s s1 t (CURSEG_I s t) -> (forall p, 0 <= last_victim v p <= MAIN_SEGS) -> retag s (with_vict s1 v) t (CURSEG_I s t).
Proof. intros [E1 E2 E3 E4 E5 E6 E7 E8 E9 E10] Hv. constructor; done. Qed.
Lemma retag_next X s t : seg_inv X s -> log_ok t -> forall s1, retag s s1 t (CURSEG_I s t) -> seg_inv X s1.
Proof. intros Hi Ht s1 Hr. apply (inv_retag X s s1 t _ Hi Ht Hr). by apply (si_cur _ _ Hi). Qed.

Lemma victim_step X s s1 t ty mode age : seg_inv X s -> log_ok t -> retag s s1 t (CURSEG_I s t) -> mode = SSR \/ mode = AT_SSR -> 0 <= ty < NR_PERSISTENT_LOG ->
  exists v r, get_victim s1 ty mode age = Some (v, r) /\ retag s (with_vict s1 v) t (CURSEG_I s t) /\ forall sg, r = Some sg -> with_room s sg.
Proof.
  intros Hi Ht Hr Hm Hty. pose proof (retag_next X s t Hi Ht s1 Hr) as Hi1. destruct (victim_found X s1 ty mode age Hi1 Hm Hty) as (v & r & E & Hl & Hsg). exists v, r. split; [done|]. split; [by apply retag_vict|].
  intros sg Es. destruct (Hsg sg Es) as [Hd Hse]. destruct (ls_dirty _ (si_lists _ _ Hi1) sg Hd) as (? & _ & Hc & _). rewrite (retag_curseg s s1 t _ sg Hr) in Hc. rewrite (rt_sit _ _ _ _ Hr) in Hse. by split.
Qed.
Lemma ssr_loop_spec X s t st mode age l : seg_inv X s -> log_ok t -> mode = SSR \/ mode = AT_SSR -> (forall i, i ∈ l -> 0 <= i < NR_PERSISTENT_LOG) ->
  forall s1, retag s s1 t (CURSEG_I s t) -> exists s2 r, ssr_loop get_victim l s1 st mode age = Some (s2, r) /\ retag s s2 t (CURSEG_I s t) /\ forall sg, r = Some sg -> with_room s sg.
Proof.
  intros Hi Ht Hm. induction l as [|i l IH]; intros Hl s1 Hr; cbn [ssr_loop]; [exists s1, None; done|]. destruct (i =? st); [apply IH; [set_solver|done]|].
  destruct (victim_step X s s1 t i mode age Hi Ht Hr Hm) as (v & r & -> & Hr2 & Hsg); [apply Hl; set_solver|]. cbn [mbind option_bind]. destruct r as [sg|]; [by exists (with_vict s1 v), (Some sg)|]. apply IH; [set_solver|done].
Qed.
Lemma ssr_types_ok st i : i ∈ ssr_types st -> 0 <= i < NR_PERSISTENT_LOG.
Proof. unfold ssr_types, CURSEG_COLD_NODE, CURSEG_WARM_NODE, CURSEG_HOT_NODE, CURSEG_COLD_DATA, CURSEG_WARM_DATA, CURSEG_HOT_DATA, NR_PERSISTENT_LOG. destruct (IS_NODESEG st), (_ <=? st); set_unfold; lia. Qed.

(** What a search for a segment with holes does: the log knows its next segment. *)
Lemma get_ssr_spec X s t mode age : seg_inv X s -> log_ok t -> mode = SSR \/ mode = AT_SSR ->
  exists s1 found c1, get_ssr s t mode age = Some (s1, found) /\ retag s s1 t c1 /\ same_place (CURSEG_I s t) c1 /\ seg_type c1 = seg_type (CURSEG_I s t) /\ (found = true -> with_room s (next_segno c1)).
Proof.
  intros Hi Ht Hm. unfold get_ssr_segment. pose proof (co_type _ _ (si_cur _ _ Hi t Ht)) as Hty. destruct (Z.leb_spec NR_PERSISTENT_LOG (seg_type (CURSEG_I s t))); [lia|].
  destruct (victim_step X s s t (seg_type (CURSEG_I s t)) mode age Hi Ht (retag_refl X s t Hi) Hm Hty) as (v & r & -> & Hr1 & Hsg1). cbn [mbind option_bind].
  set (x := match r with Some sg => Some (with_vict s v, Some sg) | None => _ end).
  assert (Hx : exists s2 r2, x = Some (s2, r2) /\ retag s s2 t (CURSEG_I s t) /\ forall sg, r2 = Some sg -> with_room s sg).
  { unfold x. destruct r as [sg|]; [by exists (with_vict s v), (Some sg)|]. apply (ssr_loop_spec X s t _ mode age _ Hi Ht Hm); [apply ssr_types_ok|done]. }
  clearbody x. destruct Hx as (s2 & r2 & -> & Hr2 & Hsg2). cbn [mbind option_bind]. assert (Hcp : CP_DISABLED s2 = false) by (rewrite (rt_cp _ _ _ _ Hr2); apply Hi). rewrite Hcp.
  destruct r2 as [sg|]; cbn [mbind option_bind].
  - eexists _, true, (set_next_segno (CURSEG_I s t) sg). split; [done|]. split; [|split; [by conjs|split; [done|intros _; by apply Hsg2]]].
    pose proof (retag_cur _ _ _ _ Hr2) as Ec. destruct Hr2 as [E1 E2 E3 E4 E5 E6 E7 E8 E9 E10]. constructor; try done. intros u. cbn. unfold upd at 1. rewrite Ec. destruct (decide (u = t)) as [->|]; [by unfold upd; rewrite decide_True|].
    rewrite E8. unfold upd. by rewrite !decide_False.
  - by exists s2, false, (CURSEG_I s t).
Qed.

Lemma switched_next X s t s1 c1 : seg_inv X s -> log_ok t -> retag s s1 t c1 -> same_place (CURSEG_I s t) c1 -> 0 <= seg_type c1 < NR_PERSISTENT_LOG -> with_room s (next_segno c1) ->
  exists s' sg, change_curseg env s1 t true = Some s' /\ seg_inv ({[segno (CURSEG_I s t)]} ∪ X) s' /\ switched s s' t sg.
Proof.
  intros Hi Ht Hr Hsp Hty (R1 & R2 & se & E & Hse). assert (Hi1 : seg_inv X s1) by (apply (inv_retag X s s1 t c1 Hi Ht Hr); exact (cur_same s _ c1 (si_cur _ _ Hi t Ht) Hsp Hty)).
  pose proof (retag_cur _ _ _ _ Hr) as Ec. pose proof (change_curseg_spec env X s1 t Hi1 Ht) as Hch. rewrite Ec in Hch.
  destruct Hch as (s' & Es & Hi' & Hsw); [done|by rewrite (retag_curseg s s1 t c1 _ Hr)|rewrite (rt_sit _ _ _ _ Hr), E; by intros x [= <-]|].
  exists s', (next_segno c1). split; [done|]. rewrite (rt_seg _ _ _ _ Hr) in Hi'. split; [done|]. apply (switched_retag s s1 s' t c1 _ Hr); [apply Hsp|done].
Qed.
Lemma switched_new X s t s1 c1 new_sec : seg_inv X s -> log_ok t -> 0 < free_sections (fre s) -> retag s s1 t c1 -> same_place (CURSEG_I s t) c1 -> 0 <= seg_type c1 < NR_PERSISTENT_LOG ->
  inited c1 = true \/ seg_type c1 = CURSEG_COLD_DATA ->
  exists s' sg, new_curseg env s1 t new_sec = Some s' /\ seg_inv ({[segno (CURSEG_I s t)]} ∪ X) s' /\ switched s s' t sg.
Proof.
  intros Hi Ht Hfs Hr Hsp Hty Hc. assert (Hi1 : seg_inv X s1) by (apply (inv_retag X s s1 t c1 Hi Ht Hr); exact (cur_same s _ c1 (si_cur _ _ Hi t Ht) Hsp Hty)).
  pose proof (retag_cur _ _ _ _ Hr) as Ec. pose proof (new_curseg_spec env X s1 t new_sec Hi1 Ht) as Hch. rewrite Ec in Hch. destruct Hch as (s' & sg & Es & Hi' & Hsw); [by rewrite (rt_fre _ _ _ _ Hr)| |].
  { intros Hf _. destruct Hc as [|Hc]; [congruence|]. rewrite Hc. by rewrite orb_true_r. }
  exists s', sg. split; [done|]. rewrite (rt_seg _ _ _ _ Hr) in Hi'. split; [done|]. apply (switched_retag s s1 s' t c1 _ Hr); [apply Hsp|done].
Qed.
Lemma same_refl c : same_place c c.
Proof. by conjs. Qed.
#[local] Hint Resolve same_refl : core.

Lemma allocate_segment_spec X s t force : seg_inv X s -> log_ok t -> 0 < free_sections (fre s) -> inited (CURSEG_I s t) = true ->
  exists s' sg, allocate_segment get_victim env s t force = Some s' /\ seg_inv ({[segno (CURSEG_I s t)]} ∪ X) s' /\ switched s s' t sg.
Proof.
  intros Hi Ht Hfs Hini. pose proof (co_type _ _ (si_cur _ _ Hi t Ht)) as Hty.
  assert (Hnew : forall b, exists s' sg, new_curseg env s t b = Some s' /\ seg_inv ({[segno (CURSEG_I s t)]} ∪ X) s' /\ switched s s' t sg).
  { intros b. apply (switched_new X s t s (CURSEG_I s t) b Hi Ht Hfs (retag_refl X s t Hi)); auto. }
  unfold allocate_segment. destruct force; [done|]. destruct (negb (crc_recovery env) && _); [done|]. destruct (_ && negb (CP_DISABLED s)); [done|]. destruct (f2fs_need_SSR env s); [|done].
  destruct (get_ssr_spec X s t SSR 0 Hi Ht (or_introl eq_refl)) as (s1 & found & c1 & -> & Hr & Hsp & Ht1 & Hroom). cbn [mbind option_bind]. destruct found.
  - apply (switched_next X s t s1 c1 Hi Ht Hr Hsp); [by rewrite Ht1|auto].
  - apply (switched_new X s t s1 c1 false Hi Ht Hfs Hr Hsp); [by rewrite Ht1|left]. by rewrite (rt_ini _ _ _ _ Hr).
Qed.

Lemma set_type_retag s s1 t c1 ty : retag s s1 t c1 -> same_place (CURSEG_I s t) c1 -> let c2 := set_seg_type (CURSEG_I s1 t) ty in
  retag s (with_curseg s1 t c2) t c2 /\ same_place (CURSEG_I s t) c2 /\ next_segno c2 = next_segno c1.
Proof.
  intros Hr Hsp c2. assert (Ec : c2 = set_seg_type c1 ty) by (unfold c2; by rewrite (retag_cur _ _ _ _ Hr)). rewrite Ec. split; [|split; [exact Hsp|done]].
  destruct Hr as [E1 E2 E3 E4 E5 E6 E7 E8 E9 E10]. constructor; try done. intros u. cbn. unfold upd. destruct (decide (u = t)); [done|]. rewrite E8. unfold upd. by rewrite decide_False.
Qed.

Lemma get_atssr_spec X s t ty mode age : seg_inv X s -> log_ok t -> 0 < free_sections (fre s) -> 0 <= ty < NR_PERSISTENT_LOG -> mode = SSR \/ mode = AT_SSR ->
  exists s' sg, get_atssr_segment get_victim env s t ty mode age = Some s' /\ seg_inv ({[segno (CURSEG_I s t)]} ∪ X) s' /\ switched s s' t sg.
Proof.
  intros Hi Ht Hfs Hty Hm. unfold get_atssr_segment. destruct (set_type_retag s s t (CURSEG_I s t) ty (retag_refl X s t Hi) (same_refl _)) as (Hr0 & Hsp0 & _). cbv zeta in Hr0, Hsp0.
  set (c0 := set_seg_type (CURSEG_I s t) ty) in *. set (s0 := with_curseg s t c0) in *.
  assert (Hi0 : seg_inv X s0) by (apply (inv_retag X s s0 t c0 Hi Ht Hr0); exact (cur_same s _ c0 (si_cur _ _ Hi t Ht) Hsp0 Hty)).
  destruct (get_ssr_spec X s0 t mode age Hi0 Ht Hm) as (s1 & found & c1 & -> & Hr & Hsp & Ht1 & Hroom). cbn [mbind option_bind]. pose proof (retag_cur _ _ _ _ Hr0) as Ec0. rewrite Ec0 in Hsp, Ht1.
  assert (Hr1 : retag s s1 t c1 /\ same_place (CURSEG_I s t) c1).
  { destruct Hr as [E1 E2 E3 E4 E5 E6 E7 E8 E9 E10], Hr0 as [F1 F2 F3 F4 F5 F6 F7 F8 F9 F10]. rewrite Ec0 in E9, E10. split.
    - constructor; try congruence; [done|]. intros u. rewrite E8. unfold upd. destruct (decide (u = t)); [done|]. rewrite F8. unfold upd. by rewrite decide_False.
    - unfold same_place in *. intuition congruence. }
  destruct Hr1 as [Hr1 Hsp1]. destruct found.
  - assert (Hwr : with_room s (next_segno c1)) by (destruct (Hroom eq_refl) as (R1 & R2 & R3); split; [done|]; split; [by rewrite <-(retag_curseg s s0 t c0 _ Hr0)|done]).
    rewrite (retag_cur _ _ _ _ Hr1). destruct Hwr as (R1 & R2 & se & E & R3). unfold get_seg_entry. rewrite (rt_sit _ _ _ _ Hr1), E. cbn [mbind option_bind].
    destruct (set_type_retag s s1 t c1 (se_type se) Hr1 Hsp1) as (Hr2 & Hsp2 & Hn2). rewrite (retag_cur _ _ _ _ Hr1) in Hr2, Hsp2, Hn2.
    apply (switched_next X s t _ _ Hi Ht Hr2 Hsp2); [apply (so_entry _ (si_sit _ _ Hi) _ _ E)|]. rewrite Hn2. split; [done|]. split; [done|]. eauto.
  - destruct (set_type_retag s s1 t c1 CURSEG_COLD_DATA Hr1 Hsp1) as (Hr2 & Hsp2 & Hn2). apply (switched_new X s t _ _ true Hi Ht Hfs Hr2 Hsp2); [done|by right].
Qed.
End blocks.
