(* ===== verification/SegData.v ===== *)
(** * Blocks handed out and given back *)

From S2P Require Import Prelude FreeNid NatCache SegBitmap SegState SegAlloc SegInv SegLists SegCur SegSwitch SegVictim SegVictimProps SegBlocks.

Section data.
Context `{SegGeometry} (block_unit_discard : bool).
Notation seg_ok g := (0 <= g < MAIN_SEGS).
Notation off_ok o := (0 <= o < blks_per_seg).
Notation log_ok t := (0 <= t < NO_CHECK_TYPE).

(** A block that is valid now. *)
Definition valid_at (s : seg_sys) (g o : Z) : Prop := exists se, sentries (sit s) !! g = Some se /\ o ∈ cur_valid_map se.
(** Every log has a block to write to. *)
Definition room (s : seg_sys) : Prop := forall t, log_ok t -> inited (CURSEG_I s t) = true -> next_blkoff (CURSEG_I s t) < blks_per_seg.

Lemma inv_weaken X Y s : seg_inv X s -> X ⊆ Y -> seg_inv Y s.
Proof. intros [I1 I2 I3 I4 I5 I6 I7 I8 I9 I10] HXY. constructor; try done. intros g Hg HY. apply I8; [done|set_solver]. Qed.
Lemma valid_kept X s g o : seg_inv X s -> valid_at s g o -> kept s g o.
Proof. intros Hi (se & E & Ho). exists se. split; [done|]. pose proof (eo_sub _ (so_entry _ (si_sit _ _ Hi) g se E)). set_solver. Qed.
Lemma kept_range X s g o : seg_inv X s -> kept s g o -> seg_ok g /\ off_ok o.
Proof. intros Hi (se & E & Ho). split; [apply (so_dom _ (si_sit _ _ Hi)); eauto|]. by apply (eo_map _ (so_entry _ (si_sit _ _ Hi) g se E)). Qed.
Lemma kept_in_use X s g o : seg_inv X s -> kept s g o -> g ∈ free_segmap (fre s).
Proof.
  intros Hi Hk. destruct (kept_range X s g o Hi Hk) as [Hg _]. destruct Hk as (se & E & Ho). destruct (decide (g ∈ free_segmap (fre s))) as [|Hn]; [done|]. rewrite (si_free _ _ Hi g se Hg Hn E) in Ho. set_solver.
Qed.
Lemma maps_valid_at s s' g o : maps_of s' g = maps_of s g -> valid_at s' g o <-> valid_at s g o.
Proof.
  intros E. unfold valid_at, maps_of in *. destruct (sentries (sit s) !! g) as [e|], (sentries (sit s') !! g) as [e'|]; try done. cbn in E. injection E as E1 _.
  split; intros (x & [= <-] & Hx); eexists; (split; [done|]); congruence.
Qed.

(** ** The next block of a log *)

Lemma refresh_spec X s t sum : seg_inv X s -> log_ok t -> inited (CURSEG_I s t) = true -> next_blkoff (CURSEG_I s t) < blks_per_seg ->
  exists s' c', __refresh_next_blkoff (__add_sum_entry s t sum) t = Some s' /\ retag s s' t c' /\ seg_inv X s' /\ next_blkoff (CURSEG_I s t) < next_blkoff c' <= blks_per_seg /\
    sum_blk c' = upd (sum_blk (CURSEG_I s t)) (next_blkoff (CURSEG_I s t)) sum /\ vict s' = vict s.
Proof.
  intros Hi Ht Hini Hroom. pose proof (si_cur _ _ Hi t Ht) as [K1 K2 K3 K4 K5]. destruct (K2 Hini) as (Hg & Huse & Hoff & Hal). set (c := CURSEG_I s t) in *. pose proof bps_range.
  set (c1 := set_sum c (upd (sum_blk c) (next_blkoff c) sum)). set (s1 := with_curseg s t c1). change (__add_sum_entry s t sum) with s1. assert (Ec1 : CURSEG_I s1 t = c1) by (cbn; unfold upd; by rewrite decide_True).
  unfold __refresh_next_blkoff. rewrite Ec1. cbn [alloc_type c1 set_sum segno next_blkoff].
  assert (Hfin : forall o, next_blkoff c < o <= blks_per_seg -> (alloc_type c = LFS -> o = next_blkoff c + 1) -> (forall se, sentries (sit s) !! segno c = Some se -> o ∉ ckpt_valid_map se) ->
    retag s (with_curseg s1 t (set_next_blkoff c1 o)) t (set_next_blkoff c1 o) /\ seg_inv X (with_curseg s1 t (set_next_blkoff c1 o))).
  { intros o Ho Hlfs Hfree. assert (Hr : retag s (with_curseg s1 t (set_next_blkoff c1 o)) t (set_next_blkoff c1 o)).
    { constructor; try done; [apply (si_last _ _ Hi)|]. intros u. cbn. unfold upd. by destruct (decide (u = t)). }
    split; [done|]. apply (inv_retag X s _ t _ Hi Ht Hr). constructor; cbn; try done.
    - intros _. split; [done|]. split; [done|]. split; [lia|done].
    - intros _ Hl se o' E Ho'. apply (K4 Hini Hl se o' E). rewrite (Hlfs Hl) in Ho'. lia. }
  destruct (seg_entry_at X s (segno c) Hi Hg) as (se & E & He).
  destruct Hal as [Hal|Hal]; rewrite Hal; cbn [Z.eqb LFS SSR].
  - rewrite u16_small by lia. cbn [mbind option_bind]. destruct (Hfin (next_blkoff c + 1)) as [Hr Hi']; [lia|done| |eexists _, _; split; [done|]; split; [done|]; split; [done|]; split; [cbn; lia|done]].
    intros x Ex. apply (K4 Hini Hal x _ Ex). lia.
  - unfold __next_free_blkoff, get_seg_entry. change (sit s1) with (sit s). rewrite E. cbn [mbind option_bind]. replace (ckpt_valid_map se ∪ cur_valid_map se) with (ckpt_valid_map se) by (pose proof (eo_sub se He); set_solver).
    set (o := next_zero (ckpt_valid_map se) blks_per_seg (next_blkoff c + 1)).
    assert (Ho : next_blkoff c < o <= blks_per_seg /\ o ∉ ckpt_valid_map se).
    { assert (Hend : blks_per_seg ∉ ckpt_valid_map se) by (intros Hin; apply (eo_map se He) in Hin; lia). unfold o. destruct (Z.lt_ge_cases (next_blkoff c + 1) blks_per_seg) as [Hlt|Hge]; [|rewrite next_zero_end by done; split; [lia|done]].
      destruct (next_zero_spec (ckpt_valid_map se) blks_per_seg _ Hlt) as (N1 & N2 & N3). split; [lia|]. destruct (Z.lt_ge_cases (next_zero (ckpt_valid_map se) blks_per_seg (next_blkoff c + 1)) blks_per_seg) as [Hl|Hg']; [by apply N2|].
      replace (next_zero (ckpt_valid_map se) blks_per_seg (next_blkoff c + 1)) with blks_per_seg by lia. done. }
    clearbody o. destruct Ho as [Ho1 Ho2]. destruct (Hfin o) as [Hr Hi']; [done|rewrite Hal; done|intros x Ex; rewrite E in Ex; by injection Ex as <-|].
    eexists _, _. split; [done|]. split; [done|]. split; [done|]. split; [cbn; lia|done].
Qed.

Lemma summ_write X s s' t c' sum g o : seg_inv X s -> seg_inv X s' -> log_ok t -> inited (CURSEG_I s t) = true -> retag s s' t c' ->
  sum_blk c' = upd (sum_blk (CURSEG_I s t)) (next_blkoff (CURSEG_I s t)) sum ->
  summ s' g o = if decide (g = segno (CURSEG_I s t) /\ o = next_blkoff (CURSEG_I s t)) then sum else summ s g o.
Proof.
  intros Hi Hi' Ht Hini Hr Hs. destruct (decide (g = segno (CURSEG_I s t))) as [->|Hne].
  - rewrite (summ_cur X s t o Hi Ht Hini). rewrite <-(rt_seg _ _ _ _ Hr) at 1. rewrite <-(retag_cur _ _ _ _ Hr) at 1. rewrite (summ_cur X s' t o Hi' Ht) by (rewrite (retag_cur _ _ _ _ Hr), (rt_ini _ _ _ _ Hr); done).
    rewrite (retag_cur _ _ _ _ Hr), Hs. unfold upd. destruct (decide (o = next_blkoff (CURSEG_I s t))); [by rewrite decide_True|by rewrite decide_False by tauto].
  - rewrite decide_False by tauto. unfold summ. rewrite (rt_ssa _ _ _ _ Hr).
    replace (List.find (fun u => segno (CURSEG_I s' u) =? g) curseg_types) with (List.find (fun u => segno (CURSEG_I s u) =? g) curseg_types).
    + destruct (List.find _ _) as [u|] eqn:Ef; [|done]. apply List.find_some in Ef as [_ Ef%Z.eqb_eq]. rewrite (rt_cur _ _ _ _ Hr). unfold upd. rewrite decide_False; [done|]. intros ->. done.
    + induction curseg_types as [|u l IH]; [done|]. cbn [List.find]. destruct (retag_segno s s' t c' u Hr) as [-> _]. by rewrite IH.
Qed.

(** ** Marking blocks *)

Lemma step_maps s s' g se se' h o : sit_step s s' g se' -> sentries (sit s) !! g = Some se ->
  (valid_at s' h o <-> if decide (h = g) then o ∈ cur_valid_map se' else valid_at s h o) /\ (kept s' h o <-> if decide (h = g) then o ∈ ckpt_valid_map se' else kept s h o).
Proof.
  intros Hst E. unfold valid_at, kept. rewrite (ss_entries _ _ _ _ Hst). destruct (decide (h = g)) as [->|]; [rewrite lookup_insert_eq|by rewrite lookup_insert_ne].
  split; (split; [by intros (x & [= <-] & Hx)|eauto]).
Qed.
Lemma at_entry s g se o : sentries (sit s) !! g = Some se -> (valid_at s g o <-> o ∈ cur_valid_map se) /\ (kept s g o <-> o ∈ ckpt_valid_map se).
Proof. intros E. unfold valid_at, kept. rewrite E. split; (split; [by intros (x & [= <-] & Hx)|eauto]). Qed.
Lemma step_summ s s' g se' h o : sit_step s s' g se' -> summ s' h o = summ s h o.
Proof. intros Hst. unfold summ. by rewrite (ss_cur _ _ _ _ Hst), (ss_ssa _ _ _ _ Hst). Qed.
Lemma frame_summ s s' h o : frame s s' -> summ s' h o = summ s h o.
Proof. intros Hf. unfold summ. by rewrite (fr_cur _ _ Hf), (fr_ssa _ _ Hf). Qed.

(** The address an operation replaces: none, or a valid block. *)
Definition old_ok (s : seg_sys) (a : Z) : Prop := GET_SEGNO a = NULL_SEGNO \/ exists g o, a = blk g o /\ valid_at s g o.

Lemma old_range X s a : seg_inv X s -> old_ok s a -> GET_SEGNO a = NULL_SEGNO \/ seg_ok (GET_SEGNO a) /\ exists g o, a = blk g o /\ GET_SEGNO a = g /\ seg_ok g /\ off_ok o /\ valid_at s g o.
Proof.
  intros Hi [|(g & o & -> & Hv)]; [by left|right]. destruct (kept_range X s g o Hi (valid_kept X s g o Hi Hv)) as [Hg Ho]. rewrite get_segno by done. split; [done|]. by exists g, o.
Qed.
Lemma old_same X s s' a : seg_inv X s -> old_ok s a -> (forall g o, valid_at s g o -> valid_at s' g o) -> old_ok s' a.
Proof. intros Hi [|(g & o & -> & Hv)] Hm; [by left|right]. exists g, o. auto. Qed.

(** [update_sit_entry] for the old address. *)
Lemma drop_old X s a : seg_inv X s -> old_ok s a ->
  exists s', (if negb (GET_SEGNO a =? NULL_SEGNO) then update_sit_entry block_unit_discard s a (-1) else Some s) = Some s' /\ seg_inv ({[GET_SEGNO a]} ∪ X) s' /\
    (forall g o, seg_ok g -> off_ok o -> valid_at s' g o <-> valid_at s g o /\ blk g o <> a) /\ (forall g o, kept s' g o <-> kept s g o) /\
    (forall h o, summ s' h o = summ s h o) /\ fre s' = fre s /\ CURSEG_I s' = CURSEG_I s /\ CP_ERROR s' = CP_ERROR s /\
    (forall g, se_type <$> sentries (sit s') !! g = se_type <$> sentries (sit s) !! g).
Proof.
  intros Hi Ha. destruct (old_range X s a Hi Ha) as [En|(Hr & g & o & -> & Eg & Hg & Ho & Hv)].
  - rewrite En. cbn. exists s. split; [done|]. split; [apply (inv_weaken X); [done|set_solver]|]. split; [|done]. intros g o Hg Ho. split; [|tauto]. intros Hv. split; [done|]. intros <-.
    rewrite get_segno in En by done. rewrite En in Hg. by apply null_not_seg in Hg.
  - rewrite Eg. destruct (Z.eqb_spec g NULL_SEGNO) as [->|_]; [by apply null_not_seg in Hg|]. cbn [negb]. destruct (seg_entry_at X s g Hi Hg) as (se & E & _). pose proof (proj1 (proj1 (at_entry s g se o E)) Hv) as Hin.
    destruct (sit_make_invalid block_unit_discard X s g o se Hi Hg Ho E Hin) as (s' & se' & -> & Hi' & Hst & M1 & M2 & M3). exists s'. split; [done|]. split; [done|]. split; [|split; [|split]].
    + intros h p Hh Hp. rewrite (proj1 (step_maps s s' g se se' h p Hst E)). destruct (decide (h = g)) as [->|Hne].
      * rewrite M1, (proj1 (at_entry s g se p E)), elem_of_difference, not_elem_of_singleton. split; intros [? Hn]; (split; [done|]); [|by intros ->]. intros Eb. by apply blk_inj in Eb as [_ ?].
      * split; [|tauto]. intros Hv'. split; [done|]. intros Eb. by apply blk_inj in Eb as [? _].
    + intros h p. rewrite (proj2 (step_maps s s' g se se' h p Hst E)). destruct (decide (h = g)) as [->|]; [|done]. by rewrite M2, (proj2 (at_entry s g se p E)).
    + intros h p. by apply (step_summ s s' g se').
    + split; [apply Hst|]. split; [apply Hst|]. split; [apply Hst|]. intros h. rewrite (ss_entries _ _ _ _ Hst). destruct (decide (h = g)) as [->|]; [rewrite lookup_insert_eq, E; cbn; by rewrite M3|by rewrite lookup_insert_ne].
Qed.

(** ** Allocation *)

Context (get_victim : seg_sys -> Z -> Z -> Z -> option (victim_info * option Z)) `{Hvs : !VictimSelection get_victim}.
Context (env : alloc_env).

(** The block [o0] of segment [g0] with summary [sum] replaces the address [old]. *)
Record allocated (s s' : seg_sys) (old g0 o0 : Z) (sum : f2fs_summary) : Prop := {
  al_valid : forall g o, seg_ok g -> off_ok o -> valid_at s' g o <-> ((g = g0 /\ o = o0) \/ valid_at s g o) /\ blk g o <> old;
  al_kept : forall g o, kept s' g o <-> (g = g0 /\ o = o0) \/ kept s g o;
  al_err : CP_ERROR s = true -> CP_ERROR s' = true;
  al_sum : CP_ERROR s' = false -> forall g o, seg_ok g -> kept s' g o -> summ s' g o = if decide (g = g0 /\ o = o0) then sum else summ s g o
}.
Lemma allocated_frame s s1 s2 old g0 o0 sum : allocated s s1 old g0 o0 sum -> frame s1 s2 -> allocated s s2 old g0 o0 sum.
Proof.
  intros [A1 A2 A3 A4] Hf. constructor.
  - intros g o Hg Ho. rewrite (maps_valid_at s1 s2 g o) by apply Hf. auto.
  - intros g o. rewrite (maps_kept s1 s2 g o) by apply Hf. auto.
  - rewrite (fr_err _ _ Hf). done.
  - rewrite (fr_err _ _ Hf). intros He g o Hg. rewrite (maps_kept s1 s2 g o) by apply Hf. rewrite (frame_summ s1 s2 g o Hf). auto.
Qed.
Lemma allocated_switch s s1 s2 old g0 o0 sum t sg : allocated s s1 old g0 o0 sum -> switched s1 s2 t sg -> allocated s s2 old g0 o0 sum.
Proof.
  intros [A1 A2 A3 A4] [W1 W2 W3 W4 W5 W6]. constructor.
  - intros g o Hg Ho. rewrite (maps_valid_at s1 s2 g o) by apply W1. auto.
  - intros g o. rewrite (maps_kept s1 s2 g o) by apply W1. auto.
  - auto.
  - intros He g o Hg Hk. rewrite (maps_kept s1 s2 g o) in Hk by apply W1. rewrite W6 by done. apply A4; [|done|done]. destruct (CP_ERROR s1); [by rewrite W5 in He|done].
Qed.

(** The block is marked valid and the old one invalid. *)
Lemma mark_blocks X s s2 t c' old sum : seg_inv X s -> log_ok t -> inited (CURSEG_I s t) = true -> next_blkoff (CURSEG_I s t) < blks_per_seg -> old_ok s old ->
  retag s s2 t c' -> seg_inv X s2 -> next_blkoff (CURSEG_I s t) < next_blkoff c' -> sum_blk c' = upd (sum_blk (CURSEG_I s t)) (next_blkoff (CURSEG_I s t)) sum -> forall s3, frame s2 s3 -> dirt s3 = dirt s2 -> seg_inv X s3 ->
  let g0 := segno (CURSEG_I s t) in let o0 := next_blkoff (CURSEG_I s t) in
  ~ kept s g0 o0 /\ exists s4 s5, update_sit_entry block_unit_discard s3 (blk g0 o0) 1 = Some s4 /\
    (if negb (GET_SEGNO old =? NULL_SEGNO) then update_sit_entry block_unit_discard s4 old (-1) else Some s4) = Some s5 /\
    seg_inv ({[GET_SEGNO old]} ∪ ({[g0]} ∪ X)) s5 /\ allocated s s5 old g0 o0 sum /\ CURSEG_I s5 = CURSEG_I s2 /\ fre s5 = fre s /\
    (forall g, se_type <$> sentries (sit s5) !! g = se_type <$> sentries (sit s3) !! g).
Proof.
  intros Hi Ht Hini Hroom Hold Hr Hi2 Hoff Hsum s3 Hf Hd Hi3 g0 o0. pose proof (si_cur _ _ Hi t Ht) as [K1 K2 K3 K4 K5]. destruct (K2 Hini) as (Hg & Huse & Ho & Hal). fold g0 in Hg, Huse. fold o0 in Ho, Hroom, Hoff.
  assert (Ho0 : off_ok o0) by lia. destruct (seg_entry_at X s3 g0 Hi3 Hg) as (se & E & He). assert (Hmaps : forall h, maps_of s3 h = maps_of s h) by (intros h; rewrite (fr_maps _ _ Hf); by apply (maps_retag s s2 t c')).
  assert (Hnk : ~ kept s g0 o0) by (intros (x & Ex & Hx); by apply (K5 Hini x Ex)). split; [done|].
  assert (Hnk3 : o0 ∉ ckpt_valid_map se) by (intros Hin; apply Hnk; apply (maps_kept s s3 g0 o0 (Hmaps g0)); by exists se).
  assert (Hcur3 : forall u, log_ok u -> inited (CURSEG_I s3 u) = true -> segno (CURSEG_I s3 u) = g0 -> CURSEG_I s3 u = c').
  { intros u Hu Hin Hsg. rewrite (fr_cur _ _ Hf) in *. destruct (decide (u = t)) as [->|Hne]; [by apply (retag_cur s s2 t c')|]. destruct (retag_segno s s2 t c' u Hr) as [Es Ei]. rewrite Es in Hsg. rewrite Ei in Hin. by apply (si_cur_ne _ _ Hi u t) in Hsg. }
  destruct (sit_make_valid block_unit_discard X s3 g0 o0 se Hi3 Hg Ho0 E) as (s4 & se4 & E4 & Hi4 & Hst4 & M1 & M2 & M3).
  - pose proof (eo_sub se He). set_solver.
  - rewrite (fr_fre _ _ Hf), (rt_fre _ _ _ _ Hr). done.
  - intros u Hu Hin Hsg. rewrite (Hcur3 u Hu Hin Hsg). lia.
  - rewrite Hd, (rt_dirt _ _ _ _ Hr). intros Hp. apply (ls_pre _ (si_lists _ _ Hi)) in Hp as (_ & _ & Hp & _). rewrite curseg_not in Hp. by apply (Hp t Ht).
  - assert (Hv4 : forall h p, valid_at s4 h p <-> (h = g0 /\ p = o0) \/ valid_at s h p).
    { intros h p. rewrite (proj1 (step_maps s3 s4 g0 se se4 h p Hst4 E)), <-(maps_valid_at s s3 h p (Hmaps h)). destruct (decide (h = g0)) as [->|]; [rewrite M1, (proj1 (at_entry s3 g0 se p E)); set_solver|naive_solver]. }
    assert (Hk4 : forall h p, kept s4 h p <-> (h = g0 /\ p = o0) \/ kept s h p).
    { intros h p. rewrite (proj2 (step_maps s3 s4 g0 se se4 h p Hst4 E)), <-(maps_kept s s3 h p (Hmaps h)). destruct (decide (h = g0)) as [->|]; [rewrite M2, (proj2 (at_entry s3 g0 se p E)); set_solver|naive_solver]. }
    destruct (drop_old ({[g0]} ∪ X) s4 old Hi4) as (s5 & E5 & Hi5 & D1 & D2 & D3 & D4 & D5 & D6 & D7).
    { apply (old_same X s s4 old Hi Hold). intros h p Hv. apply Hv4. by right. }
    exists s4, s5. split; [done|]. split; [done|]. split; [done|]. split; [|split; [|split]].
    + constructor.
      * intros h p Hh Hp. rewrite (D1 h p Hh Hp), Hv4. tauto.
      * intros h p. by rewrite D2, Hk4.
      * rewrite D6, (ss_err _ _ _ _ Hst4), (fr_err _ _ Hf), (rt_err _ _ _ _ Hr). done.
      * intros _ h p Hh _. rewrite D3, (step_summ s3 s4 g0 se4 h p Hst4), (frame_summ s2 s3 h p Hf). by apply (summ_write X s s2 t c').
    + by rewrite D5, (ss_cur _ _ _ _ Hst4), (fr_cur _ _ Hf).
    + by rewrite D4, (ss_fre _ _ _ _ Hst4), (fr_fre _ _ Hf), (rt_fre _ _ _ _ Hr).
    + intros h. rewrite D7, (ss_entries _ _ _ _ Hst4). destruct (decide (h = g0)) as [->|]; [rewrite lookup_insert_eq, E; cbn; by rewrite M3|by rewrite lookup_insert_ne].
Qed.

Lemma room_upd s s' t c' : room s -> (forall u, CURSEG_I s' u = upd (CURSEG_I s) t c' u) -> next_blkoff c' < blks_per_seg -> room s'.
Proof. intros Hr Hc Hn u Hu. rewrite Hc. unfold upd. destruct (decide (u = t)); [done|auto]. Qed.

(** What the callers of the log of age-based cleaning give: a block of data. *)
Definition gc_ok (s : seg_sys) (t old : Z) : Prop :=
  t = CURSEG_ALL_DATA_ATGC -> GET_SEGNO old <> NULL_SEGNO /\ forall se, sentries (sit s) !! GET_SEGNO old = Some se -> IS_NODESEG (se_type se) = false.

Lemma allocate_spec X s t old sum : seg_inv X s -> room s -> log_ok t -> inited (CURSEG_I s t) = true -> 0 < free_sections (fre s) -> old_ok s old -> gc_ok s t old ->
  let g0 := segno (CURSEG_I s t) in let o0 := next_blkoff (CURSEG_I s t) in
  exists s', f2fs_allocate_data_block block_unit_discard get_victim env s old sum t = Some (s', blk g0 o0) /\ seg_inv X s' /\ room s' /\ seg_ok g0 /\ off_ok o0 /\ ~ kept s g0 o0 /\ allocated s s' old g0 o0 sum /\
    (forall u, inited (CURSEG_I s' u) = inited (CURSEG_I s u)).
Proof.
  intros Hi Hroom Ht Hini Hfs Hold Hgc g0 o0. pose proof (co_seg _ _ (si_cur _ _ Hi t Ht) Hini) as (Hg & Huse & Ho & _). specialize (Hroom t Ht Hini) as Hr0. fold g0 in Hg, Huse. fold o0 in Ho, Hr0. assert (Ho0 : off_ok o0) by lia.
  pose proof (old_range X s old Hi Hold) as Hor. assert (Hor' : GET_SEGNO old = NULL_SEGNO \/ seg_ok (GET_SEGNO old)) by tauto. unfold f2fs_allocate_data_block.
  set (gd := if t =? CURSEG_ALL_DATA_ATGC then if _ =? NULL_SEGNO then None else _ else Some tt). assert (Egd : gd = Some tt).
  { unfold gd. destruct (Z.eqb_spec t CURSEG_ALL_DATA_ATGC) as [Et|]; [|done]. destruct (Hgc Et) as [Hn Hty]. destruct (Z.eqb_spec (GET_SEGNO old) NULL_SEGNO); [done|]. destruct Hor' as [|Hr]; [done|].
    destruct (seg_entry_at X s _ Hi Hr) as (se & E & He). unfold get_seg_entry. rewrite E. cbn [mbind option_bind]. rewrite (Hty se E), orb_false_r. pose proof (eo_type se He). by destruct (Z.leb_spec NR_PERSISTENT_LOG (se_type se)); [lia|]. }
  rewrite Egd. clear gd Egd. cbn [mbind option_bind]. fold o0. destruct (Z.leb_spec blks_per_seg o0); [lia|]. rewrite (log_next_addr (CURSEG_I s t) Hg Ho0). fold g0 o0.
  destruct (refresh_spec X s t sum Hi Ht Hini Hr0) as (s2 & c2 & -> & Hr2 & Hi2 & Hoff2 & Hsum2 & _). cbn [mbind option_bind]. fold o0 in Hoff2, Hsum2.
  set (mt := if t =? CURSEG_ALL_DATA_ATGC then _ else _). assert (Emt : exists s3 m, mt = Some (s3, m) /\ seg_inv X s3 /\ frame s2 s3 /\ dirt s3 = dirt s2).
  { unfold mt. destruct (t =? CURSEG_ALL_DATA_ATGC).
    - unfold get_segment_mtime. destruct (Z.eqb_spec (GET_SEGNO old) NULL_SEGNO); [by eexists _, _|]. destruct Hor' as [|Hr]; [done|]. destruct (seg_entry_at X s2 _ Hi2 Hr) as (se & E & _). unfold get_seg_entry. rewrite E. by eexists _, _.
    - destruct (mtime_spec X s2 old (ctime env) 0 Hi2 Hor') as (s3 & -> & ? & ? & ?). by eexists _, _. }
  clearbody mt. destruct Emt as (s3 & m & -> & Hi3 & Hf3 & Hd3). cbn [mbind option_bind].
  destruct (mtime_spec X s3 (blk g0 o0) (ctime env) m Hi3) as (s3' & -> & Hi3' & Hf3' & Hd3'); [right; by rewrite get_segno|]. cbn [mbind option_bind].
  destruct (mark_blocks X s s2 t c2 old sum Hi Ht Hini Hr0 Hold Hr2 Hi2 (proj1 Hoff2) Hsum2 s3' (frame_trans _ _ _ Hf3 Hf3') ltac:(congruence) Hi3') as (Hnk & s4 & s5 & E4 & E5 & Hi5 & Hal5 & Hc5 & Hf5 & _).
  fold g0 o0 in Hnk, E4, Hi5, Hal5. rewrite E4. cbn [mbind option_bind]. rewrite E5. cbn [mbind option_bind].
  assert (Hcur5 : CURSEG_I s5 t = c2) by (rewrite Hc5; by apply (retag_cur s s2)). assert (Hini5 : inited (CURSEG_I s5 t) = true) by (rewrite Hcur5, (rt_ini _ _ _ _ Hr2); done). assert (Hseg5 : segno (CURSEG_I s5 t) = g0) by (rewrite Hcur5; apply Hr2).
  set (Y := {[GET_SEGNO old]} ∪ ({[g0]} ∪ X)) in *.
  set (nx := if __has_curseg_space (CURSEG_I s5 t) then _ else _). assert (Enx : exists s6, nx = Some s6 /\ seg_inv Y s6 /\ allocated s s6 old g0 o0 sum /\ room s6 /\ free_segmap (fre s) ⊆ free_segmap (fre s6) /\ (forall u, inited (CURSEG_I s6 u) = inited (CURSEG_I s u))).
  { assert (Hini2 : forall u, inited (CURSEG_I s5 u) = inited (CURSEG_I s u)) by (intros u; rewrite Hc5; by destruct (retag_segno s s2 t c2 u Hr2)).
    assert (Hsw : forall s6 sg, seg_inv ({[segno (CURSEG_I s5 t)]} ∪ Y) s6 -> switched s5 s6 t sg -> seg_inv Y s6 /\ allocated s s6 old g0 o0 sum /\ room s6 /\ free_segmap (fre s) ⊆ free_segmap (fre s6) /\ (forall u, inited (CURSEG_I s6 u) = inited (CURSEG_I s u))).
    { intros s6 sg Hi6 Hsw. rewrite Hseg5 in Hi6. split; [apply (inv_weaken _ _ _ Hi6); set_solver|]. split; [by apply (allocated_switch s s5 s6 old g0 o0 sum t sg)|]. destruct (sw_cur _ _ _ _ Hsw) as (c6 & Hc6 & Hin6 & _ & Hn6).
      split; [|split; [rewrite (sw_use _ _ _ _ Hsw), Hf5; set_solver|]].
      - intros u Hu. rewrite Hc6. unfold upd. destruct (decide (u = t)); [intros _; lia|]. rewrite Hc5, (rt_cur _ _ _ _ Hr2). unfold upd. rewrite decide_False by done. by apply Hroom.
      - intros u. rewrite Hc6. unfold upd. destruct (decide (u = t)) as [->|]; [by rewrite Hin6, Hini|done]. }
    unfold nx, __has_curseg_space, f2fs_usable_blks_in_seg. destruct (Z.ltb_spec (next_blkoff (CURSEG_I s5 t)) blks_per_seg) as [Hsp|Hfull].
    - exists s5. split; [done|]. split; [done|]. split; [done|]. split; [|split; [by rewrite Hf5|done]]. rewrite Hcur5 in Hsp. apply (room_upd s s5 t c2); [done| |done]. intros u. rewrite Hc5. apply Hr2.
    - destruct (Z.eqb_spec t CURSEG_ALL_DATA_ATGC) as [Et|].
      + destruct (Hgc Et) as [Hn _]. destruct Hor' as [|Hr]; [done|]. destruct (seg_entry_at Y s5 _ Hi5 Hr) as (se & E & He). unfold get_seg_entry. rewrite E. cbn [mbind option_bind].
        destruct (get_atssr_spec get_victim env Y s5 t (se_type se) AT_SSR (se_mtime se) Hi5 Ht ltac:(by rewrite Hf5) (eo_type se He) (or_intror eq_refl)) as (s6 & sg & -> & Hi6 & Hsw6). exists s6. split; [done|]. by apply (Hsw s6 sg).
      + destruct (allocate_segment_spec get_victim env Y s5 t false Hi5 Ht ltac:(by rewrite Hf5) Hini5) as (s6 & sg & -> & Hi6 & Hsw6). exists s6. split; [done|]. by apply (Hsw s6 sg). }
  clearbody nx. destruct Enx as (s6 & -> & Hi6 & Hal6 & Hroom6 & Huse6 & Hin6). cbn [mbind option_bind].
  destruct (locate_spec Y s6 (GET_SEGNO old) Hi6) as (s7 & -> & Hi7 & Hst7).
  { destruct Hor as [|(Hr & g & o & Ea & Eg & _ & _ & Hv)]; [by left|right]. split; [done|]. apply Huse6. rewrite Eg. apply (kept_in_use X s g o Hi). by apply (valid_kept X). }
  cbn [mbind option_bind]. rewrite (get_segno g0 o0) by done. destruct (locate_spec _ s7 g0 Hi7) as (s8 & -> & Hi8 & Hst8); [right; split; [done|]; rewrite (ds_fre _ _ Hst7); by apply Huse6|].
  cbn [mbind option_bind]. exists s8. pose proof (dirt_step_trans _ _ _ Hst7 Hst8) as Hst. split; [done|]. split; [apply (inv_weaken _ _ _ Hi8); unfold Y; set_solver|]. split; [unfold room; by rewrite (ds_cur _ _ Hst)|].
  split; [done|]. split; [done|]. split; [done|]. split; [by apply (allocated_frame s s6), dirt_frame|]. intros u. by rewrite (ds_cur _ _ Hst).
Qed.
End data.
