(* ===== verification/SegDiscard.v ===== *)
(** * Discards (segment.c)

    When blocks become free the device may be told.  A checkpoint collects the blocks of
    dirty segments that were given up since the last one ([add_discard_addrs]), and when
    it is done these and the prefree segments are passed on as discard commands
    ([f2fs_clear_prefree_segments]).  The queue of commands and the thread that sends them
    are not modelled: the commands are recorded in order.  A device that is not zoned, and
    only one, is modelled. *)

From S2P Require Import Prelude FreeNid NatCache SegBitmap SegState SegAlloc.

Inductive discard_unit_t := DISCARD_UNIT_BLOCK | DISCARD_UNIT_SEGMENT | DISCARD_UNIT_SECTION.
(** What the device and the mount options say, and the limit of small discards. *)
Record discard_env := { discard_unit : discard_unit_t; hw_support_discard : bool; realtime_discard : bool; max_discards : Z; d_lfs_mode : bool }.
(** [struct cp_control]. *)
Record cp_control := { cp_discard : bool; trim_start : Z; trim_end : Z; trim_minlen : Z }.
(** [struct discard_cmd_control]: the entries of a checkpoint, their number, and the
    commands given to [__queue_discard_cmd]. *)
Record discard_cmd_control := { entry_list : list (Z * gset Z); nr_discards : Z; issued : list (Z * Z) }.

Definition f2fs_block_unit_discard (e : discard_env) : bool := match discard_unit e with DISCARD_UNIT_BLOCK => true | _ => false end.

Section discard.
Context `{SegGeometry} (env : discard_env).

(** ** Small discards of a segment *)

(** The loop of [add_discard_addrs]: the blocks put into the entry, their number, and
    whether a candidate was found when only asked. *)
Fixpoint discard_loop (fuel : nat) (dmap : gset Z) (force check_only : bool) (minlen nr from : Z) (acc : gset Z) : option (Z * gset Z * bool) :=
  match fuel with
  | O => None
  | S fuel =>
      if negb (force || (nr <=? max_discards env)) then Some (nr, acc, false)
      else
        let start := next_set dmap blks_per_seg from in
        if blks_per_seg <=? start then Some (nr, acc, false)
        else
          let end_ := next_zero dmap blks_per_seg (start + 1) in
          if force && negb (start =? 0) && negb (end_ =? blks_per_seg) && (end_ - start <? minlen) then discard_loop fuel dmap force check_only minlen nr (end_ + 1) acc
          else if check_only then Some (nr, acc, true)
          else discard_loop fuel dmap force check_only minlen (nr + (end_ - start)) (end_ + 1) (acc ∪ list_to_set (seqZ start (end_ - start)))
  end.
Definition add_discard_addrs (s : seg_sys) (d : discard_cmd_control) (segno minlen : Z) (force check_only : bool) : option (discard_cmd_control * bool) :=
  se ← get_seg_entry s segno;
  if (valid_blocks se =? blks_per_seg) || negb (hw_support_discard env) || negb (f2fs_block_unit_discard env) then Some (d, false)
  else if negb force && (negb (realtime_discard env) || (valid_blocks se =? 0) || (max_discards env <=? nr_discards d)) then Some (d, false)
  else
    let dmap := if force then filter (fun o => o ∉ ckpt_valid_map se /\ o ∉ discard_map se) (list_to_set (seqZ 0 blks_per_seg)) else ckpt_valid_map se ∖ cur_valid_map se in
    '(nr, acc, found) ← discard_loop (S (Z.to_nat blks_per_seg)) dmap force check_only minlen (nr_discards d) 0 ∅;
    Some (if decide (acc = ∅) then d else {| entry_list := entry_list d ++ [(START_BLOCK segno, acc)]; nr_discards := nr; issued := issued d |}, found).

(** [f2fs_exist_trim_candidates]. *)
Fixpoint trim_candidates (l : list Z) (s : seg_sys) (d : discard_cmd_control) (minlen : Z) : option bool :=
  match l with
  | [] => Some false
  | g :: l => '(_, found) ← add_discard_addrs s d g minlen true true; if found : bool then Some true else trim_candidates l s d minlen
  end.
Definition f2fs_exist_trim_candidates (s : seg_sys) (d : discard_cmd_control) (cpc : cp_control) : option bool :=
  trim_candidates (seqZ (trim_start cpc) (trim_end cpc - trim_start cpc + 1)) s d (trim_minlen cpc).

Definition f2fs_release_discard_addrs (d : discard_cmd_control) : discard_cmd_control := {| entry_list := []; nr_discards := nr_discards d; issued := issued d |}.

(** ** Commands *)

Definition set_discard_map (se : seg_entry) (m : gset Z) : seg_entry :=
  {| se_type := se_type se; valid_blocks := valid_blocks se; ckpt_valid_blocks := ckpt_valid_blocks se; cur_valid_map := cur_valid_map se;
     ckpt_valid_map := ckpt_valid_map se; discard_map := m; se_mtime := se_mtime se |}.
Fixpoint mark_discarded (l : list Z) (s : seg_sys) : option seg_sys :=
  match l with
  | [] => Some s
  | i :: l =>
      se ← get_seg_entry s (GET_SEGNO i);
      let offset := GET_BLKOFF_FROM_SEG0 i in
      mark_discarded l
        (if f2fs_block_unit_discard env && bool_decide (offset ∉ discard_map se)
         then with_counts (put_se s (GET_SEGNO i) (set_discard_map se ({[offset]} ∪ discard_map se))) (discard_blks s -! 1) (unusable_block_count s)
         else s)
  end.
Definition f2fs_issue_discard (s : seg_sys) (d : discard_cmd_control) (blkstart blklen : Z) : option (seg_sys * discard_cmd_control) :=
  s ← mark_discarded (seqZ blkstart blklen) s;
  Some (s, if blklen =? 0 then d else {| entry_list := entry_list d; nr_discards := nr_discards d; issued := issued d ++ [(blkstart, blklen)] |}).

(** ** Prefree segments *)

Fixpoint clear_pre (l : list Z) (d : dirty_seglist_info) : dirty_seglist_info := match l with [] => d | i :: l => clear_pre l (clear_dirty_bit d PRE i) end.

(** From the label [next]: the sections from [start] to [end_], and where the loop goes on. *)
Fixpoint discard_sections (fuel : nat) (s : seg_sys) (d : discard_cmd_control) (start end_ : Z) : option (seg_sys * discard_cmd_control * Z) :=
  match fuel with
  | O => None
  | S fuel =>
      let secno := GET_SEC_FROM_SEG start in
      let start_segno := GET_SEG_FROM_SEC secno in
      v ← get_valid_blocks s start true;
      '(s, d) ← if negb (IS_CURSEC s secno) && (v =? 0) then f2fs_issue_discard s d (START_BLOCK start_segno) (Z.shiftl segs_per_sec log_blocks_per_seg) else Some (s, d);
      let start := start_segno +! segs_per_sec in
      if start <? end_ then discard_sections fuel s d start end_ else Some (s, d, start - 1)
  end.
Definition rounddown (x y : Z) : Z := x - x mod y.
Definition roundup (x y : Z) : Z := (x + (y - 1)) / y * y.
Definition section_alignment : bool := match discard_unit env with DISCARD_UNIT_SECTION => true | _ => d_lfs_mode env && is_large_section end.

Fixpoint clear_prefree_loop (fuel : nat) (s : seg_sys) (d : discard_cmd_control) (cpc : cp_control) (end_ : Z) : option (seg_sys * discard_cmd_control) :=
  match fuel with
  | O => None
  | S fuel =>
      let end_ := if section_alignment && negb (end_ =? -1) then end_ - 1 else end_ in
      let pre := dirty_segmap (dirt s) PRE in
      let start := next_set pre MAIN_SEGS (end_ + 1) in
      if MAIN_SEGS <=? start then Some (s, d)
      else
        let end_ := next_zero pre MAIN_SEGS (start + 1) in
        let '(start, end_) := if section_alignment then (rounddown start segs_per_sec, roundup end_ segs_per_sec) else (start, end_) in
        let s := with_dirt s (clear_pre (seqZ start (end_ - start)) (dirt s)) in
        if negb (realtime_discard env) then clear_prefree_loop fuel s d cpc end_
        else if cp_discard cpc && (trim_start cpc <=? start) && (end_ - 1 <=? trim_end cpc) then clear_prefree_loop fuel s d cpc end_
        else if negb (d_lfs_mode env) || negb is_large_section
        then '(s, d) ← f2fs_issue_discard s d (START_BLOCK start) (Z.shiftl (end_ - start) log_blocks_per_seg); clear_prefree_loop fuel s d cpc end_
        else '(s, d, end_) ← discard_sections (Z.to_nat MAIN_SECS) s d start end_; clear_prefree_loop fuel s d cpc end_
  end.

(** The small discards of an entry: the runs of its map. *)
Fixpoint entry_loop (fuel : nat) (s : seg_sys) (d : discard_cmd_control) (cpc : cp_control) (addr : Z) (map : gset Z) (cur_pos total_len : Z) (is_valid : bool) : option (seg_sys * discard_cmd_control * Z) :=
  match fuel with
  | O => None
  | S fuel =>
      let next_pos := if is_valid then next_zero map blks_per_seg cur_pos else next_set map blks_per_seg cur_pos in
      let len := next_pos - cur_pos in
      '(s, d, total_len) ← if is_valid && negb (cp_discard cpc && (len <? trim_minlen cpc))
                           then '(s, d) ← f2fs_issue_discard s d (addr +! cur_pos) len; Some (s, d, total_len + len)
                           else Some (s, d, total_len);
      if next_pos <? blks_per_seg then entry_loop fuel s d cpc addr map next_pos total_len (negb is_valid) else Some (s, d, total_len)
  end.
Fixpoint small_discards (l : list (Z * gset Z)) (s : seg_sys) (d : discard_cmd_control) (cpc : cp_control) : option (seg_sys * discard_cmd_control) :=
  match l with
  | [] => Some (s, d)
  | (addr, map) :: l =>
      '(s, d, total_len) ← entry_loop (S (Z.to_nat blks_per_seg)) s d cpc addr map 0 0 (bool_decide (0 ∈ map));
      small_discards l s {| entry_list := l; nr_discards := nr_discards d - total_len; issued := issued d |} cpc
  end.

Definition f2fs_clear_prefree_segments (s : seg_sys) (d : discard_cmd_control) (cpc : cp_control) : option (seg_sys * discard_cmd_control) :=
  '(s, d) ← clear_prefree_loop (S (Z.to_nat MAIN_SEGS)) s d cpc (-1);
  if f2fs_block_unit_discard env then small_discards (entry_list d) s d cpc else Some (s, d).
End discard.
