(* ===== verification/SegFlush.v ===== *)
(** * The segment table on disk and its checkpoint (segment.c, segment.h)

    The table is kept in blocks of which there are two copies each; a bitmap in the
    checkpoint tells which one is valid.  Recent changes may be in a journal in the summary
    of the log of cold data instead.  A checkpoint writes the dirty entries to the journal
    or to the other copies of their blocks; the state of a mount is read back from them. *)

From S2P Require Import Prelude FreeNid NatCache SegBitmap SegState SegAlloc SegDiscard.

(** The format of an entry of the table (the kernel's f2fs_fs.h), the place and size of the
    table and the capacity of the journal. *)
Class SitFormat `{SegGeometry} := {
  SIT_VBLOCKS_SHIFT : Z; GET_SIT_VBLOCKS : Z -> Z; GET_SIT_TYPE : Z -> Z;
  SIT_ENTRY_PER_BLOCK : Z; SIT_JOURNAL_ENTRIES : Z; sit_base_addr : Z; sit_blocks : Z; TOTAL_SEGS : Z;
  sit_vblocks_law : forall t v, 0 <= t < NR_PERSISTENT_LOG -> 0 <= v <= 512 -> GET_SIT_VBLOCKS (u16 (Z.lor (Z.shiftl t SIT_VBLOCKS_SHIFT) v)) = v /\ GET_SIT_TYPE (u16 (Z.lor (Z.shiftl t SIT_VBLOCKS_SHIFT) v)) = t;
  sit_vblocks_join : forall v, 0 <= v < 2 ^ 16 -> u16 (Z.lor (Z.shiftl (GET_SIT_TYPE v) SIT_VBLOCKS_SHIFT) (GET_SIT_VBLOCKS v)) = v;
  sit_per_block : 0 < SIT_ENTRY_PER_BLOCK < 2 ^ 16;
  sit_journal_cap : 0 <= SIT_JOURNAL_ENTRIES < 2 ^ 16;
  sit_area : 0 <= sit_base_addr /\ 0 < sit_blocks /\ MAIN_SECS * segs_per_sec <= sit_blocks * SIT_ENTRY_PER_BLOCK;
  total_segs : MAIN_SECS * segs_per_sec <= TOTAL_SEGS < 2 ^ 32
}.

(** [struct f2fs_sit_entry], and what a checkpoint saves of the table: the bitmap of the
    copies, the journal, and the pages by block address; the flag asks for a check. *)
Record f2fs_sit_entry := { vblocks : Z; valid_map : gset Z; raw_mtime : Z }.
Record sit_disk := { sit_bitmap : gset Z; s_journal : list (Z * f2fs_sit_entry); sit_meta : Z -> Z -> f2fs_sit_entry; need_fsck : bool }.
Definition zero_sit : f2fs_sit_entry := {| vblocks := 0; valid_map := ∅; raw_mtime := 0 |}.
Definition set_sjournal (d : sit_disk) (j : list (Z * f2fs_sit_entry)) : sit_disk := {| sit_bitmap := sit_bitmap d; s_journal := j; sit_meta := sit_meta d; need_fsck := need_fsck d |}.
Definition set_sit_page (d : sit_disk) (a : Z) (p : Z -> f2fs_sit_entry) : sit_disk := {| sit_bitmap := sit_bitmap d; s_journal := s_journal d; sit_meta := upd (sit_meta d) a p; need_fsck := need_fsck d |}.
Definition set_fsck (d : sit_disk) (b : bool) : sit_disk := {| sit_bitmap := sit_bitmap d; s_journal := s_journal d; sit_meta := sit_meta d; need_fsck := need_fsck d || b |}.

Section flush.
Context `{SitFormat} (denv : discard_env).

Definition SIT_BLOCK_OFFSET (segno : Z) : Z := segno / SIT_ENTRY_PER_BLOCK.
Definition START_SEGNO (segno : Z) : Z := SIT_BLOCK_OFFSET segno * SIT_ENTRY_PER_BLOCK.
Definition SIT_ENTRY_OFFSET (segno : Z) : Z := segno mod SIT_ENTRY_PER_BLOCK.

(** ** Entries *)

Definition __seg_info_to_raw_sit (se : seg_entry) : f2fs_sit_entry :=
  {| vblocks := u16 (Z.lor (Z.shiftl (se_type se) SIT_VBLOCKS_SHIFT) (valid_blocks se)); valid_map := cur_valid_map se; raw_mtime := se_mtime se |}.
(** [seg_info_to_raw_sit], and the entry afterwards. *)
Definition seg_info_to_raw_sit (se : seg_entry) : f2fs_sit_entry * seg_entry :=
  let rs := __seg_info_to_raw_sit se in
  (rs, {| se_type := se_type se; valid_blocks := valid_blocks se; ckpt_valid_blocks := valid_blocks se; cur_valid_map := cur_valid_map se;
          ckpt_valid_map := valid_map rs; discard_map := discard_map se; se_mtime := se_mtime se |}).
Definition seg_info_from_raw_sit (discard : gset Z) (rs : f2fs_sit_entry) : seg_entry :=
  {| se_type := GET_SIT_TYPE (vblocks rs); valid_blocks := GET_SIT_VBLOCKS (vblocks rs); ckpt_valid_blocks := GET_SIT_VBLOCKS (vblocks rs); cur_valid_map := valid_map rs;
     ckpt_valid_map := valid_map rs; discard_map := discard; se_mtime := raw_mtime rs |}.

(** The loop of [check_block_count]: the runs of valid blocks added up. *)
Fixpoint count_runs (fuel : nat) (map : gset Z) (cur_pos count : Z) (is_valid : bool) : option Z :=
  match fuel with
  | O => None
  | S fuel =>
      let next_pos := if is_valid then next_zero map blks_per_seg cur_pos else next_set map blks_per_seg cur_pos in
      let count := if is_valid then count + (next_pos - cur_pos) else count in
      if next_pos <? blks_per_seg then count_runs fuel map next_pos count (negb is_valid) else Some count
  end.
(** [check_block_count]; [true] is the error. *)
Definition check_block_count (segno : Z) (rs : f2fs_sit_entry) : option bool :=
  n ← count_runs (S (Z.to_nat blks_per_seg)) (valid_map rs) 0 0 (bool_decide (0 ∈ valid_map rs));
  Some (negb (GET_SIT_VBLOCKS (vblocks rs) =? n) || (f2fs_usable_blks_in_seg segno <? GET_SIT_VBLOCKS (vblocks rs)) || (TOTAL_SEGS -! 1 <? segno)).

(** ** Pages *)

(** [current_sit_addr]; no result is a segment out of range. *)
Definition current_sit_addr (d : sit_disk) (start : Z) : option Z :=
  let offset := SIT_BLOCK_OFFSET start in
  if TOTAL_SEGS -! 1 <? start then None
  else Some (sit_base_addr + offset + if bool_decide (offset ∈ sit_bitmap d) then sit_blocks else 0).
Definition next_sit_addr (block_addr : Z) : Z :=
  let a := block_addr - sit_base_addr in (if a <? sit_blocks then a + sit_blocks else a - sit_blocks) + sit_base_addr.
Definition set_to_next_sit (d : sit_disk) (start : Z) : sit_disk :=
  let off := SIT_BLOCK_OFFSET start in
  {| sit_bitmap := if decide (off ∈ sit_bitmap d) then sit_bitmap d ∖ {[off]} else {[off]} ∪ sit_bitmap d; s_journal := s_journal d; sit_meta := sit_meta d; need_fsck := need_fsck d |}.

Definition block_end (start : Z) : Z := Z.min (start + SIT_ENTRY_PER_BLOCK) MAIN_SEGS.
(** [seg_info_to_sit_page]: a page with the entries of a block. *)
Definition seg_info_to_sit_page (s : seg_sys) (start : Z) : Z -> f2fs_sit_entry :=
  fun i => if (0 <=? i) && (i <? block_end start - start) then match get_seg_entry s (start + i) with Some se => __seg_info_to_raw_sit se | None => zero_sit end else zero_sit.
Definition get_next_sit_page (s : seg_sys) (d : sit_disk) (start : Z) : option (sit_disk * Z) :=
  src ← current_sit_addr d start;
  let dst := next_sit_addr src in
  Some (set_to_next_sit (set_sit_page d dst (seg_info_to_sit_page s start)) start, dst).

(** ** Sets of dirty entries *)

(** [struct sit_entry_set]: the first segment of the block and the number of entries. *)
Record sit_entry_set := { start_seg : Z; entry_cnt : Z }.
Fixpoint insert_sit_set (e : sit_entry_set) (l : list sit_entry_set) : list sit_entry_set :=
  match l with
  | [] => [e]
  | x :: l' => if entry_cnt e <=? entry_cnt x then e :: l else x :: insert_sit_set e l'
  end.
(** [add_sit_entry] with [adjust_sit_entry_set]: a set that has grown moves back. *)
Fixpoint grow_sit_set (start : Z) (l : list sit_entry_set) : option (list sit_entry_set) :=
  match l with
  | [] => None
  | x :: l => if start_seg x =? start then Some (insert_sit_set {| start_seg := start; entry_cnt := entry_cnt x +! 1 |} l) else l ← grow_sit_set start l; Some (x :: l)
  end.
Definition add_sit_entry (segno : Z) (head : list sit_entry_set) : list sit_entry_set :=
  match grow_sit_set (START_SEGNO segno) head with Some l => l | None => {| start_seg := START_SEGNO segno; entry_cnt := 1 |} :: head end.
Definition add_sits_in_set (s : seg_sys) : list sit_entry_set := foldl (fun l g => add_sit_entry g l) [] (set_bits (dirty_sentries_bitmap (sit s)) MAIN_SEGS).

Fixpoint remove_sits (js : list (Z * f2fs_sit_entry)) (s : seg_sys) (head : list sit_entry_set) : seg_sys * list sit_entry_set :=
  match js with
  | [] => (s, head)
  | (segno, _) :: js => let '(s, dirtied) := __mark_sit_entry_dirty s segno in remove_sits js s (if dirtied : bool then head else add_sit_entry segno head)
  end.
Definition remove_sits_in_journal (s : seg_sys) (d : sit_disk) (head : list sit_entry_set) : seg_sys * sit_disk * list sit_entry_set :=
  let '(s, head) := remove_sits (s_journal d) s head in (s, set_sjournal d [], head).

(** ** The journal *)

Definition has_sit_space (j : list (Z * f2fs_sit_entry)) (size : Z) : bool := size <=? SIT_JOURNAL_ENTRIES - Z.of_nat (length j).
Fixpoint find_segno (j : list (Z * f2fs_sit_entry)) (val : Z) (i : nat) : option nat :=
  match j with
  | [] => None
  | (n, _) :: j => if n =? val then Some i else find_segno j val (S i)
  end.
(** [f2fs_lookup_journal_in_cursum] for the segment table, with allocation. *)
Definition lookup_sit_journal (j : list (Z * f2fs_sit_entry)) (val : Z) : list (Z * f2fs_sit_entry) * option nat :=
  match find_segno j val 0 with
  | Some i => (j, Some i)
  | None => if has_sit_space j 1 then (j ++ [(0, zero_sit)], Some (length j)) else (j, None)
  end.

(** ** The flush *)

Definition clear_dirty_sit (s : seg_sys) (segno : Z) : seg_sys :=
  let x := sit s in
  with_sit s {| sentries := sentries x; sec_entries := sec_entries x; written_valid_blocks := written_valid_blocks x;
                dirty_sentries_bitmap := dirty_sentries_bitmap x ∖ {[segno]}; dirty_sentries := dirty_sentries x -! 1 |}.

(** One entry of a set, to the journal or to the page [dst]. *)
Definition flush_sit_entry (cpc : cp_control) (dst : option Z) (s : seg_sys) (d : sit_disk) (dcc : discard_cmd_control) (segno : Z) : option (seg_sys * sit_disk * discard_cmd_control) :=
  se ← get_seg_entry s segno;
  dcc ← if cp_discard cpc then Some dcc else '(dcc, _) ← add_discard_addrs denv s dcc segno (trim_minlen cpc) false false; Some dcc;
  let '(rs, se) := seg_info_to_raw_sit se in
  err ← check_block_count segno rs;
  d ← match dst with
      | None => let '(j, off) := lookup_sit_journal (s_journal d) segno in i ← off; Some (set_sjournal d (<[i := (segno, rs)]> j))
      | Some a => Some (set_sit_page d a (upd (sit_meta d a) (SIT_ENTRY_OFFSET segno) rs))
      end;
  Some (clear_dirty_sit (put_se s segno se) segno, set_fsck d err, dcc).
Fixpoint flush_sit_loop (cpc : cp_control) (dst : option Z) (l : list Z) (s : seg_sys) (d : sit_disk) (dcc : discard_cmd_control) (cnt : Z) : option (seg_sys * sit_disk * discard_cmd_control * Z) :=
  match l with
  | [] => Some (s, d, dcc, cnt)
  | g :: l => '(s, d, dcc) ← flush_sit_entry cpc dst s d dcc g; flush_sit_loop cpc dst l s d dcc (cnt -! 1)
  end.
Definition flush_sit_set (cpc : cp_control) (to_journal : bool) (s : seg_sys) (d : sit_disk) (dcc : discard_cmd_control) (ses : sit_entry_set) : option (seg_sys * sit_disk * discard_cmd_control * bool) :=
  let start := start_seg ses in
  let to_journal := to_journal && has_sit_space (s_journal d) (entry_cnt ses) in
  '(d, dst) ← if to_journal then Some (d, None) else '(d, a) ← get_next_sit_page s d start; Some (d, Some a);
  '(s, d, dcc, cnt) ← flush_sit_loop cpc dst (filter (fun g => g ∈ dirty_sentries_bitmap (sit s)) (seqZ start (block_end start - start))) s d dcc (entry_cnt ses);
  if cnt =? 0 then Some (s, d, dcc, to_journal) else None.
Fixpoint flush_sit_sets (cpc : cp_control) (l : list sit_entry_set) (to_journal : bool) (s : seg_sys) (d : sit_disk) (dcc : discard_cmd_control) : option (seg_sys * sit_disk * discard_cmd_control) :=
  match l with
  | [] => Some (s, d, dcc)
  | ses :: l => '(s, d, dcc, tj) ← flush_sit_set cpc to_journal s d dcc ses; flush_sit_sets cpc l tj s d dcc
  end.
Fixpoint trim_loop (cpc : cp_control) (l : list Z) (s : seg_sys) (dcc : discard_cmd_control) : option discard_cmd_control :=
  match l with
  | [] => Some dcc
  | g :: l => '(dcc, _) ← add_discard_addrs denv s dcc g (trim_minlen cpc) true false; trim_loop cpc l s dcc
  end.

Definition f2fs_flush_sit_entries (resizefs : bool) (cpc : cp_control) (s : seg_sys) (d : sit_disk) (dcc : discard_cmd_control) : option (seg_sys * sit_disk * discard_cmd_control) :=
  '(s, d, dcc) ←
    if dirty_sentries (sit s) =? 0 then Some (s, d, dcc)
    else
      let head := add_sits_in_set s in
      let '(s, d, head) := if negb (has_sit_space (s_journal d) (dirty_sentries (sit s))) || resizefs then remove_sits_in_journal s d head else (s, d, head) in
      '(s, d, dcc) ← flush_sit_sets cpc head (negb resizefs) s d dcc;
      if dirty_sentries (sit s) =? 0 then Some (s, d, dcc) else None;
  dcc ← if cp_discard cpc then trim_loop cpc (seqZ (trim_start cpc) (trim_end cpc - trim_start cpc + 1)) s dcc else Some dcc;
  Some (set_prefree_as_free_segments s, d, dcc).

(** ** The segment manager at a checkpoint *)

(** The part of [f2fs_write_checkpoint] from the flush on, for a pack that is written
    ([ok]) or not. *)
Definition sit_checkpoint (atgc : bool) (ok : bool) (cpc : cp_control) (s : seg_sys) (d : sit_disk) (dcc : discard_cmd_control) : option (seg_sys * sit_disk * discard_cmd_control) :=
  '(s, d, dcc) ← f2fs_flush_sit_entries false cpc s d dcc;
  s ← f2fs_save_inmem_curseg atgc s;
  '(s, dcc) ← if ok then f2fs_clear_prefree_segments denv s dcc cpc else Some (s, f2fs_release_discard_addrs dcc);
  s ← f2fs_restore_inmem_curseg atgc s;
  Some (s, d, dcc).
End flush.
