(* ===== verification/SegFlushProps.v ===== *)
(** * What a flush of the segment table does *)

From S2P Require Import Prelude FreeNid NatCache SegBitmap SegState SegAlloc SegInv SegLists SegCur SegSwitch SegVictim SegVictimProps SegBlocks SegData SegDiscard SegFlush.

Section counts.
Context `{SegGeometry}.
Notation off_ok o := (0 <= o < blks_per_seg).

(** ** Runs of bits *)

Definition from_pos (map : gset Z) (c : Z) : list Z := filter (fun o => o ∈ map) (seqZ c (blks_per_seg - c)).

Lemma from_pos_split map c n : c <= n <= blks_per_seg -> from_pos map c = filter (fun o => o ∈ map) (seqZ c (n - c)) ++ from_pos map n.
Proof.
  intros Hn. unfold from_pos. rewrite <-list.filter_app. f_equal. replace (blks_per_seg - c) with ((n - c) + (blks_per_seg - n)) by lia. rewrite seqZ_app by lia. by replace (c + (n - c)) with n by lia.
Qed.
Lemma filter_all (map : gset Z) (l : list Z) : (forall o, o ∈ l -> o ∈ map) -> filter (fun o => o ∈ map) l = l.
Proof. induction l as [|x l IH]; intros Hl; [done|]. rewrite filter_cons_True by (apply Hl; set_solver). f_equal. apply IH. set_solver. Qed.
Lemma filter_none (map : gset Z) (l : list Z) : (forall o, o ∈ l -> o ∉ map) -> filter (fun o => o ∈ map) l = [].
Proof. induction l as [|x l IH]; intros Hl; [done|]. rewrite filter_cons_False by (apply Hl; set_solver). apply IH. set_solver. Qed.

(** Where a run from a position ends. *)
Lemma run_spec (map : gset Z) c (v : bool) : off_ok c -> v = bool_decide (c ∈ map) -> let n := if v then next_zero map blks_per_seg c else next_set map blks_per_seg c in
  c < n <= blks_per_seg /\ (forall o, c <= o < n -> o ∈ map <-> v = true) /\ (n < blks_per_seg -> negb v = bool_decide (n ∈ map)).
Proof.
  intros Hc -> n. assert (Hlt0 : c < blks_per_seg) by lia. unfold n. case_bool_decide as Hin.
  - destruct (next_zero_spec map blks_per_seg c Hlt0) as (N1 & N2 & N3). assert (c <> next_zero map blks_per_seg c) by (intros E; apply N2; [lia|by rewrite <-E]). split; [lia|]. split; [intros o Ho; split; [done|intros _; by apply N3]|].
    intros Hlt. specialize (N2 Hlt). by rewrite bool_decide_eq_false_2.
  - destruct (next_set_spec map blks_per_seg c Hlt0) as (N1 & N2 & N3). assert (c <> next_set map blks_per_seg c) by (intros E; apply Hin; rewrite E; apply N2; lia). split; [lia|]. split; [intros o Ho; split; [intros Ho'; by apply N3 in Ho'|done]|].
    intros Hlt. specialize (N2 Hlt). by rewrite bool_decide_eq_true_2.
Qed.

Lemma count_runs_spec fuel : forall map c n v, off_ok c -> v = bool_decide (c ∈ map) -> (Z.to_nat (blks_per_seg - c) <= fuel)%nat ->
  count_runs fuel map c n v = Some (n + Z.of_nat (length (from_pos map c))).
Proof.
  induction fuel as [|fuel IH]; intros map c n v Hc Hv Hf; [lia|]. cbn [count_runs]. destruct (run_spec map c v Hc Hv) as (R1 & R2 & R3). set (m := if v then _ else _) in *. clearbody m.
  assert (Hlen : (if v then n + (m - c) else n) + Z.of_nat (length (from_pos map m)) = n + Z.of_nat (length (from_pos map c))).
  { rewrite (from_pos_split map c m), length_app by lia. destruct v.
    - rewrite filter_all; [rewrite length_seqZ; lia|]. intros o Ho. apply elem_of_seqZ in Ho. apply R2; [lia|done].
    - rewrite filter_none; [cbn; lia|]. intros o Ho. apply elem_of_seqZ in Ho. rewrite R2 by lia. done. }
  destruct (Z.ltb_spec m blks_per_seg) as [Hlt|Hge].
  - rewrite IH; [f_equal; exact Hlen|lia|auto|lia].
  - f_equal. assert (m = blks_per_seg) as -> by lia. assert (Hnil : from_pos map blks_per_seg = []) by (unfold from_pos; by rewrite Z.sub_diag). rewrite Hnil in Hlen. cbn in Hlen. rewrite Z.add_0_r in Hlen. exact Hlen.
Qed.
Lemma length_filter_size (map : gset Z) n : (forall o, o ∈ map -> 0 <= o < n) -> Z.of_nat (length (filter (fun o => o ∈ map) (seqZ 0 n))) = Z.of_nat (size map).
Proof.
  intros Hm. rewrite <-(size_list_to_set (C := gset Z)) by (apply list.NoDup_filter, NoDup_seqZ). do 2 f_equal. apply set_eq. intros o. rewrite elem_of_list_to_set, list_elem_of_filter, elem_of_seqZ. split; [tauto|]. intros Ho. specialize (Hm o Ho). split; [done|lia].
Qed.

(** ** Small discards *)

Context (denv : discard_env).
Lemma discard_loop_ok fuel : forall dmap force co minlen nr from acc, 0 <= from -> (Z.to_nat (blks_per_seg - from) < fuel)%nat -> (forall o, o ∈ acc -> o ∈ dmap /\ off_ok o) ->
  exists nr' acc' b, discard_loop denv fuel dmap force co minlen nr from acc = Some (nr', acc', b) /\ forall o, o ∈ acc' -> o ∈ dmap /\ off_ok o.
Proof.
  induction fuel as [|fuel IH]; intros dmap force co minlen nr from acc Hfr Hf Hacc; [lia|]. cbn [discard_loop]. destruct (negb (force || _)); [eauto|]. pose proof bps_range.
  destruct (Z.lt_ge_cases from blks_per_seg) as [Hlt|Hge]; [|rewrite (next_set_end dmap _ from) by lia; destruct (Z.leb_spec blks_per_seg blks_per_seg); [eauto|lia]].
  destruct (next_set_spec dmap blks_per_seg from Hlt) as (N1 & N2 & N3). set (st := next_set dmap blks_per_seg from) in *. destruct (Z.leb_spec blks_per_seg st) as [|Hst]; [eauto|].
  assert (Hend : st < next_zero dmap blks_per_seg (st + 1) <= blks_per_seg /\ forall o, st <= o < next_zero dmap blks_per_seg (st + 1) -> o ∈ dmap).
  { destruct (Z.lt_ge_cases (st + 1) blks_per_seg) as [Hl|Hg].
    - destruct (next_zero_spec dmap blks_per_seg (st + 1) Hl) as (M1 & M2 & M3). split; [lia|]. intros o Ho. destruct (decide (o = st)) as [->|]; [by apply N2|apply M3; lia].
    - rewrite next_zero_end by done. split; [lia|]. intros o Ho. replace o with st by lia. by apply N2. }
  set (en := next_zero dmap blks_per_seg (st + 1)) in *. clearbody en st. destruct Hend as [He1 He2]. destruct (force && _ && _ && _); [apply IH; [lia|lia|done]|]. destruct co; [eauto|]. apply IH; [lia|lia|].
  intros o [Ho|Ho]%elem_of_union; [auto|]. apply elem_of_list_to_set, elem_of_seqZ in Ho. split; [apply He2; lia|lia].
Qed.
End counts.

Section flush.
Context `{SitFormat} (denv : discard_env).
Notation seg_ok g := (0 <= g < MAIN_SEGS).
Notation off_ok o := (0 <= o < blks_per_seg).
Notation bitmap s := (dirty_sentries_bitmap (sit s)).

(** ** Blocks of the table *)

Lemma spb_pos : 0 < SIT_ENTRY_PER_BLOCK.
Proof. apply sit_per_block. Qed.
Lemma block_of g : seg_ok g -> 0 <= SIT_BLOCK_OFFSET g < sit_blocks /\ START_SEGNO g <= g < block_end (START_SEGNO g) /\ START_SEGNO g + SIT_ENTRY_OFFSET g = g /\ 0 <= SIT_ENTRY_OFFSET g.
Proof.
  intros Hg. pose proof spb_pos as Hp. pose proof sit_area as (_ & _ & Ha). fold MAIN_SEGS in Ha. unfold START_SEGNO, SIT_BLOCK_OFFSET, SIT_ENTRY_OFFSET, block_end. assert (Hnz : SIT_ENTRY_PER_BLOCK <> 0) by lia.
  pose proof (Z.div_mod g _ Hnz). pose proof (Z.mod_pos_bound g _ Hp). split; [split; [apply Z.div_pos; lia|apply Z.div_lt_upper_bound; lia]|]. split; [lia|]. split; lia.
Qed.
(** The segments of the block that starts at [st]. *)
Definition block_segs (st : Z) : list Z := seqZ st (block_end st - st).
Lemma in_block g h : seg_ok g -> seg_ok h -> h ∈ block_segs (START_SEGNO g) <-> START_SEGNO h = START_SEGNO g.
Proof.
  intros Hg Hh. destruct (block_of g Hg) as (B1 & B2 & _). destruct (block_of h Hh) as (B3 & B4 & _). unfold block_segs. rewrite elem_of_seqZ. pose proof spb_pos. split; [|intros E; rewrite E in B4; lia].
  intros Hr. unfold START_SEGNO in *. f_equal. symmetry. unfold SIT_BLOCK_OFFSET in *. unfold block_end in Hr. apply (Z.div_unique h SIT_ENTRY_PER_BLOCK (g / SIT_ENTRY_PER_BLOCK) (h - g / SIT_ENTRY_PER_BLOCK * SIT_ENTRY_PER_BLOCK)); lia.
Qed.
Lemma block_segs_ok st h : 0 <= st -> h ∈ block_segs st -> seg_ok h.
Proof. unfold block_segs, block_end. rewrite elem_of_seqZ. lia. Qed.

(** The address of a block of the table, by the bitmap of the copies. *)
Definition sit_addr (bm : gset Z) (off : Z) : Z := sit_base_addr + off + if bool_decide (off ∈ bm) then sit_blocks else 0.
Lemma sit_current_addr d g : seg_ok g -> current_sit_addr d g = Some (sit_addr (sit_bitmap d) (SIT_BLOCK_OFFSET g)).
Proof.
  intros Hg. unfold current_sit_addr. pose proof total_segs as Ht. fold MAIN_SEGS in Ht. rewrite u32_small by lia. destruct (Z.ltb_spec (TOTAL_SEGS - 1) g); [lia|done].
Qed.
Definition flip (bm : gset Z) (off : Z) : gset Z := if decide (off ∈ bm) then bm ∖ {[off]} else {[off]} ∪ bm.
Lemma flip_other bm off x : x <> off -> x ∈ flip bm off <-> x ∈ bm.
Proof. intros Hx. unfold flip. destruct (decide (off ∈ bm)); set_solver. Qed.
Lemma flip_same bm off : off ∈ flip bm off <-> off ∉ bm.
Proof. unfold flip. destruct (decide (off ∈ bm)); set_solver. Qed.
Lemma next_addr_flip bm off : 0 <= off < sit_blocks -> next_sit_addr (sit_addr bm off) = sit_addr (flip bm off) off.
Proof.
  intros Ho. unfold next_sit_addr, sit_addr. rewrite (bool_decide_ext (off ∈ flip bm off) (off ∉ bm)) by apply flip_same.
  case_bool_decide as Hb; [rewrite (bool_decide_eq_false_2 (off ∉ bm)) by tauto|rewrite (bool_decide_eq_true_2 (off ∉ bm)) by done];
    match goal with |- context [?x <? sit_blocks] => destruct (Z.ltb_spec x sit_blocks) end; lia.
Qed.
Lemma sit_addr_inj bm bm' off off' : 0 <= off < sit_blocks -> 0 <= off' < sit_blocks -> sit_addr bm off = sit_addr bm' off' -> off = off' /\ (off ∈ bm <-> off ∈ bm').
Proof. intros Ho Ho'. unfold sit_addr. do 2 case_bool_decide; intros E; assert (off = off') by lia; subst; split; try done; try tauto; lia. Qed.
Lemma sit_addr_ext bm bm' off : (off ∈ bm <-> off ∈ bm') -> sit_addr bm off = sit_addr bm' off.
Proof. intros E. unfold sit_addr. by rewrite (bool_decide_ext _ _ E). Qed.

(** ** The table as a mount reads it *)

Fixpoint jget (j : list (Z * f2fs_sit_entry)) (g : Z) : option f2fs_sit_entry :=
  match j with
  | [] => None
  | (n, e) :: j => if n =? g then Some e else jget j g
  end.
Definition disk_entry (d : sit_disk) (g : Z) : f2fs_sit_entry :=
  match jget (s_journal d) g with Some e => e | None => sit_meta d (sit_addr (sit_bitmap d) (SIT_BLOCK_OFFSET g)) (SIT_ENTRY_OFFSET g) end.
(** The entry on the page alone. *)
Definition page_entry (d : sit_disk) (g : Z) : f2fs_sit_entry := sit_meta d (sit_addr (sit_bitmap d) (SIT_BLOCK_OFFSET g)) (SIT_ENTRY_OFFSET g).
Definition raw_of (s : seg_sys) (g : Z) : f2fs_sit_entry := match sentries (sit s) !! g with Some se => __seg_info_to_raw_sit se | None => zero_sit end.
(** Entries that are not dirty are on disk. *)
Definition coherent (s : seg_sys) (d : sit_disk) : Prop := forall g, seg_ok g -> g ∉ bitmap s -> disk_entry d g = raw_of s g.
Record journal_ok (j : list (Z * f2fs_sit_entry)) : Prop := {
  jo_nodup : NoDup j.*1;
  jo_len : Z.of_nat (length j) <= SIT_JOURNAL_ENTRIES;
  jo_segs : forall k, k ∈ j.*1 -> seg_ok k
}.

Lemma jget_none j g : g ∉ j.*1 -> jget j g = None.
Proof. induction j as [|[n e] j IH]; [done|]. cbn. intros Hn. destruct (Z.eqb_spec n g) as [->|]; [set_solver|]. apply IH. set_solver. Qed.
Lemma find_segno_spec j g k : match find_segno j g k with Some i => exists m e, i = (k + m)%nat /\ j !! m = Some (g, e) /\ g ∈ j.*1 | None => g ∉ j.*1 end.
Proof.
  revert k. induction j as [|[n e] j IH]; intros k; cbn; [set_solver|]. destruct (Z.eqb_spec n g) as [->|Hne]; [exists 0%nat, e; split; [lia|]; split; [done|set_solver]|].
  specialize (IH (S k)). destruct (find_segno j g (S k)) as [i|]; [|set_solver]. destruct IH as (m & e' & -> & Hm & Hin). exists (S m), e'. split; [lia|]. split; [done|set_solver].
Qed.
Lemma jget_insert j i g e0 e h : NoDup j.*1 -> j !! i = Some (g, e0) -> jget (<[i := (g, e)]> j) h = if decide (h = g) then Some e else jget j h.
Proof.
  revert i. induction j as [|[n x] j IH]; intros i Hn Hi; [done|]. cbn in Hn. apply list.NoDup_cons in Hn as [Hx Hn]. destruct i as [|i]; [change (<[0%nat := (g, e)]> ((n, x) :: j)) with ((g, e) :: j)|change (<[S i := (g, e)]> ((n, x) :: j)) with ((n, x) :: <[i := (g, e)]> j)]; cbn in Hi; cbn [jget].
  - injection Hi as -> ->. destruct (Z.eqb_spec g h) as [->|]; [by rewrite decide_True|by rewrite decide_False].
  - rewrite (IH i Hn Hi). destruct (Z.eqb_spec n h) as [->|]; [|done]. rewrite decide_False; [done|]. intros ->. apply Hx. apply list_elem_of_fmap. exists (g, e0). split; [done|]. by eapply list_elem_of_lookup_2.
Qed.
Lemma jget_app j g e h : g ∉ j.*1 -> jget (j ++ [(g, e)]) h = if decide (h = g) then Some e else jget j h.
Proof.
  induction j as [|[n x] j IH]; intros Hg; cbn; [destruct (Z.eqb_spec g h) as [->|]; [by rewrite decide_True|by rewrite decide_False]|]. rewrite IH by set_solver.
  destruct (Z.eqb_spec n h) as [->|]; [|done]. rewrite decide_False; [done|]. intros ->. set_solver.
Qed.
(** A slot of the journal is found or made. *)
Lemma sit_journal_put j g e : journal_ok j -> seg_ok g -> g ∈ j.*1 \/ Z.of_nat (length j) < SIT_JOURNAL_ENTRIES ->
  exists j1 i, lookup_sit_journal j g = (j1, Some i) /\ let j' := <[i := (g, e)]> j1 in journal_ok j' /\ (forall h, jget j' h = if decide (h = g) then Some e else jget j h) /\
    (forall k, k ∈ j'.*1 <-> k = g \/ k ∈ j.*1) /\ (length j' <= S (length j))%nat.
Proof.
  intros [J1 J2 J3] Hg Hsp. unfold lookup_sit_journal. pose proof (find_segno_spec j g 0) as Hf. destruct (find_segno j g 0) as [i|].
  - destruct Hf as (m & e0 & -> & Hm & Hin). exists j, m. split; [done|]. cbv zeta. assert (Hk : (<[m := (g, e)]> j).*1 = j.*1).
    { rewrite list_fmap_insert. apply list_insert_id. by rewrite list_lookup_fmap, Hm. }
    split; [constructor; rewrite ?Hk, ?length_insert; done|]. split; [intros h; by apply (jget_insert j m g e0)|]. rewrite Hk, length_insert. split; [set_solver|lia].
  - destruct Hsp as [|Hsp]; [done|]. unfold has_sit_space. destruct (Z.leb_spec 1 (SIT_JOURNAL_ENTRIES - Z.of_nat (length j))); [|lia]. eexists _, _. split; [done|]. cbv zeta.
    assert (Ej : <[length j := (g, e)]> (j ++ [(0, zero_sit)]) = j ++ [(g, e)]) by (rewrite insert_app_r_alt by lia; by rewrite Nat.sub_diag). rewrite Ej. rewrite fmap_app, length_app. cbn.
    split; [|split; [intros h; by apply jget_app|split; [set_solver|lia]]]. constructor; rewrite ?fmap_app, ?length_app; cbn.
    + apply list.NoDup_app. split; [done|]. split; [set_solver|]. apply NoDup_singleton.
    + lia.
    + intros k. set_solver.
Qed.

(** ** One entry *)

(** The blocks of the entries of small discards are not valid. *)
Definition dcc_ok (s : seg_sys) (dcc : discard_cmd_control) : Prop :=
  forall a m, (a, m) ∈ entry_list dcc -> exists g, seg_ok g /\ a = START_BLOCK g /\ forall o, o ∈ m -> off_ok o /\ ~ valid_at s g o.
Lemma dcc_same s s' dcc : (forall g o, valid_at s' g o -> valid_at s g o) -> dcc_ok s dcc -> dcc_ok s' dcc.
Proof. intros Hv Hd a m Hin. destruct (Hd a m Hin) as (g & Hg & Ea & Ho). exists g. split; [done|]. split; [done|]. intros o Hm. destruct (Ho o Hm). split; [done|]. intros Hv'. auto. Qed.
Lemma add_discard_ok s dcc g se minlen force co : seg_ok g -> sentries (sit s) !! g = Some se -> entry_ok se -> dcc_ok s dcc ->
  exists dcc' b, add_discard_addrs denv s dcc g minlen force co = Some (dcc', b) /\ dcc_ok s dcc' /\ issued dcc' = issued dcc.
Proof.
  intros Hg E He Hd. unfold add_discard_addrs, get_seg_entry. rewrite E. cbn [mbind option_bind]. destruct (_ || _ || _); [eauto|]. destruct (negb force && _); [eauto|]. set (dmap := if force then _ else _).
  assert (Hdm : forall o, o ∈ dmap -> o ∉ cur_valid_map se).
  { intros o. unfold dmap. pose proof (eo_sub se He). destruct force; [|set_solver]. rewrite elem_of_filter. set_solver. }
  clearbody dmap. destruct (discard_loop_ok denv (S (Z.to_nat blks_per_seg)) dmap force co minlen (nr_discards dcc) 0 ∅) as (nr & acc & b & -> & Hacc); [lia|rewrite Z.sub_0_r; lia|set_solver|]. cbn [mbind option_bind].
  eexists _, b. split; [done|]. destruct (decide (acc = ∅)); [done|]. split; [|done]. intros a m. cbn. intros [Hin|Hin]%elem_of_app; [by apply Hd|]. apply list_elem_of_singleton in Hin. injection Hin as -> ->. exists g.
  split; [done|]. split; [done|]. intros o Ho. destruct (Hacc o Ho) as [Ho1 Ho2]. split; [done|]. rewrite (proj1 (at_entry s g se o E)). auto.
Qed.

Lemma check_ok g se : seg_ok g -> entry_ok se -> check_block_count g (__seg_info_to_raw_sit se) = Some false.
Proof.
  intros Hg He. pose proof (entry_bounds se He) as [Hb _]. pose proof bps_range. unfold check_block_count. cbn [valid_map __seg_info_to_raw_sit vblocks].
  rewrite (count_runs_spec _ (cur_valid_map se) 0 0 _); [|lia|done|lia]. cbn [mbind option_bind]. unfold from_pos. rewrite Z.sub_0_r, (length_filter_size (cur_valid_map se) blks_per_seg).
  - destruct (sit_vblocks_law (se_type se) (valid_blocks se) (eo_type se He) ltac:(lia)) as [-> _]. rewrite Z.add_0_l, <-(eo_valid se He), Z.eqb_refl. unfold f2fs_usable_blks_in_seg. pose proof total_segs as Ht. fold MAIN_SEGS in Ht. rewrite u32_small by lia.
    destruct (Z.ltb_spec blks_per_seg (valid_blocks se)); [lia|]. destruct (Z.ltb_spec (TOTAL_SEGS - 1) g); [lia|done].
  - intros o Ho. apply (eo_map se He). pose proof (eo_sub se He). set_solver.
Qed.
Lemma raw_after se : __seg_info_to_raw_sit (seg_info_to_raw_sit se).2 = __seg_info_to_raw_sit se.
Proof. done. Qed.

(** ** Sets *)

Definition dirty_in (B : gset Z) (st : Z) : list Z := filter (fun g => g ∈ B) (block_segs st).
Definition is_start (st : Z) : Prop := exists g, seg_ok g /\ st = START_SEGNO g.

Lemma start_pos st : is_start st -> 0 <= st.
Proof. intros (g & Hg & ->). unfold START_SEGNO. destruct (block_of g Hg) as [? _]. pose proof spb_pos. nia. Qed.
Lemma dirty_in_spec B st g : is_start st -> g ∈ dirty_in B st <-> g ∈ B /\ seg_ok g /\ START_SEGNO g = st.
Proof.
  intros Hst. pose proof (start_pos st Hst) as Hsp. unfold dirty_in. rewrite list_elem_of_filter. destruct Hst as (h & Hh & ->). split.
  - intros [Hb Hg]. pose proof (block_segs_ok _ _ Hsp Hg) as Hr. split; [done|]. split; [done|]. by apply in_block.
  - intros (Hb & Hr & E). split; [done|]. by apply in_block.
Qed.
Lemma dirty_in_nodup B st : NoDup (dirty_in B st).
Proof. apply list.NoDup_filter, NoDup_seqZ. Qed.
Lemma dirty_in_size B st : is_start st -> (length (dirty_in B st) <= size B)%nat.
Proof.
  intros Hst. rewrite <-(size_list_to_set (C := gset Z)) by apply dirty_in_nodup. apply subseteq_size. intros g Hg. apply elem_of_list_to_set, dirty_in_spec in Hg; [tauto|done].
Qed.
Lemma dirty_in_short B st : is_start st -> 0 <= Z.of_nat (length (dirty_in B st)) < 2 ^ 16.
Proof.
  intros Hst. unfold dirty_in. pose proof (length_filter (fun g => g ∈ B) (block_segs st)) as Hl. unfold block_segs, block_end in *. rewrite length_seqZ in Hl. pose proof sit_per_block. lia.
Qed.

Record sets_ok (B : gset Z) (l : list sit_entry_set) : Prop := {
  se_nodup : NoDup (start_seg <$> l);
  se_cnt : forall e, e ∈ l -> is_start (start_seg e) /\ entry_cnt e = Z.of_nat (length (dirty_in B (start_seg e)));
  se_all : forall g, g ∈ B -> START_SEGNO g ∈ start_seg <$> l
}.
Lemma filter_ext_in (B B' : gset Z) (l : list Z) : (forall g, g ∈ l -> g ∈ B <-> g ∈ B') -> filter (fun g => g ∈ B) l = filter (fun g => g ∈ B') l.
Proof.
  induction l as [|x l IH]; intros Hl; [done|]. rewrite !filter_cons. assert (x ∈ B <-> x ∈ B') as Hxb by (apply Hl; set_solver). rewrite IH by (intros; apply Hl; set_solver).
  destruct (decide (x ∈ B)), (decide (x ∈ B')); tauto || done.
Qed.
Lemma dirty_in_ext B B' st : is_start st -> (forall g, START_SEGNO g = st -> seg_ok g -> g ∈ B <-> g ∈ B') -> dirty_in B st = dirty_in B' st.
Proof.
  intros Hst Hb. apply filter_ext_in. intros g Hg. pose proof (block_segs_ok st g (start_pos st Hst) Hg) as Hr. apply Hb; [|done]. destruct Hst as (h & Hh & ->). by apply in_block.
Qed.
Section one_flush.
Context (s0 : seg_sys) (d0 : sit_disk).
Hypothesis Hx : sit_ok (sit s0).

(** The state in a flush: the entries left are as they were, the others are on disk and are
    the new checkpoint; the blocks of the last checkpoint are untouched. *)
Record finv (P : Z -> Prop) (s : seg_sys) (d : sit_disk) (dcc : discard_cmd_control) : Prop := {
  fi_rest : s = with_sit s0 (sit s);
  fi_sec : sec_entries (sit s) = sec_entries (sit s0) /\ written_valid_blocks (sit s) = written_valid_blocks (sit s0);
  fi_sub : bitmap s ⊆ bitmap s0;
  fi_cnt : dirty_sentries (sit s) = Z.of_nat (size (bitmap s));
  fi_ent : forall g, sentries (sit s) !! g = (fun se => if decide (g ∈ bitmap s) then se else (seg_info_to_raw_sit se).2) <$> sentries (sit s0) !! g;
  fi_disk : forall g, seg_ok g -> g ∉ bitmap s \/ P g -> disk_entry d g = raw_of s0 g;
  fi_journal : journal_ok (s_journal d);
  fi_old : forall off, 0 <= off < sit_blocks -> sit_meta d (sit_addr (sit_bitmap d0) off) = sit_meta d0 (sit_addr (sit_bitmap d0) off);
  fi_fsck : need_fsck d = need_fsck d0;
  fi_dcc : dcc_ok s0 dcc;
  fi_page : forall g, seg_ok g -> page_entry d g = page_entry d0 g \/ page_entry d g = raw_of s0 g
}.
Lemma fi_valid P s d dcc g o : finv P s d dcc -> valid_at s g o <-> valid_at s0 g o.
Proof.
  intros Hf. unfold valid_at. rewrite (fi_ent _ _ _ _ Hf g). destruct (sentries (sit s0) !! g) as [se|]; [|naive_solver]. cbn. split; intros (x & [= <-] & Hx').
  - exists se. split; [done|]. by destruct (decide (g ∈ bitmap s)).
  - eexists. split; [done|]. by destruct (decide (g ∈ bitmap s)).
Qed.

(** Where an entry goes: to the journal if there is room, or to a new page that does not
    belong to the last checkpoint. *)
Definition dst_ok (P : Z -> Prop) (d : sit_disk) (dst : option Z) (g : Z) : Prop :=
  match dst with
  | None => g ∈ (s_journal d).*1 \/ Z.of_nat (length (s_journal d)) < SIT_JOURNAL_ENTRIES
  | Some a => a = sit_addr (sit_bitmap d) (SIT_BLOCK_OFFSET g) /\ P g /\ g ∉ (s_journal d).*1 /\ forall off, 0 <= off < sit_blocks -> a <> sit_addr (sit_bitmap d0) off
  end.
Lemma flush_entry_ok cpc P dst s d dcc g : finv P s d dcc -> g ∈ bitmap s -> dst_ok P d dst g ->
  exists s' d' dcc', flush_sit_entry denv cpc dst s d dcc g = Some (s', d', dcc') /\ finv P s' d' dcc' /\ bitmap s' = bitmap s ∖ {[g]} /\ sit_bitmap d' = sit_bitmap d /\
    match dst with
    | None => (forall k, k ∈ (s_journal d').*1 <-> k = g \/ k ∈ (s_journal d).*1) /\ (length (s_journal d') <= S (length (s_journal d)))%nat
    | Some _ => s_journal d' = s_journal d
    end.
Proof.
  intros Hf Hg Hdst. pose proof Hf as [F1 F2 F3 F4 F5 F6 F7 F8 F9 F10 F11]. assert (Hr : seg_ok g) by (apply (so_bits _ Hx), F3, Hg). destruct (proj2 (so_dom _ Hx g) Hr) as [se E]. pose proof (so_entry _ Hx g se E) as He.
  assert (Es : sentries (sit s) !! g = Some se) by (rewrite F5, E; cbn; by rewrite decide_True). assert (Hraw : raw_of s0 g = __seg_info_to_raw_sit se) by (unfold raw_of; by rewrite E).
  unfold flush_sit_entry, get_seg_entry. rewrite Es. cbn [mbind option_bind].
  set (ad := if cp_discard cpc then Some dcc else _). assert (Ead : exists dcc', ad = Some dcc' /\ dcc_ok s0 dcc').
  { unfold ad. destruct (cp_discard cpc); [eauto|]. destruct (add_discard_ok s dcc g se (trim_minlen cpc) false false Hr Es He) as (dcc' & b & -> & Hd & _); [apply (dcc_same s0); [intros h o; by rewrite (fi_valid P s d dcc h o Hf)|done]|].
    exists dcc'. split; [done|]. apply (dcc_same s); [intros h o; by rewrite (fi_valid P s d dcc h o Hf)|done]. }
  clearbody ad. destruct Ead as (dcc' & -> & Hd'). cbn [mbind option_bind]. unfold seg_info_to_raw_sit at 1. cbv iota beta zeta. rewrite (check_ok g se Hr He). cbn [mbind option_bind].
  set (se' := {| se_type := _ |}). change se' with (seg_info_to_raw_sit se).2. clear se'. set (s' := clear_dirty_sit (put_se s g (seg_info_to_raw_sit se).2) g).
  assert (Hb' : bitmap s' = bitmap s ∖ {[g]}) by done.
  assert (Hs : forall d', (forall h, seg_ok h -> h ∉ bitmap s' \/ P h -> disk_entry d' h = raw_of s0 h) -> journal_ok (s_journal d') -> (forall off, 0 <= off < sit_blocks -> sit_meta d' (sit_addr (sit_bitmap d0) off) = sit_meta d (sit_addr (sit_bitmap d0) off)) -> need_fsck d' = need_fsck d -> (forall h, seg_ok h -> page_entry d' h = page_entry d h \/ page_entry d' h = raw_of s0 h) -> finv P s' d' dcc').
  { intros d' Hd1 Hd2 Hd3 Hd4 Hd5. constructor; try done.
    - unfold s', clear_dirty_sit, put_se. rewrite F1 at 1. by destruct s0.
    - rewrite Hb'. set_solver.
    - cbn. rewrite F4, size_remove by done. apply u32_small. assert (Hsz : Z.of_nat (size (bitmap s)) <= MAIN_SEGS) by (apply map_size; [pose proof main_pos; lia|intros o Ho; by apply (so_bits _ Hx), F3]). pose proof main_small. pose proof (size_remove (bitmap s) g Hg). lia.
    - intros h. cbn. destruct (decide (h = g)) as [->|Hne]; [rewrite lookup_insert_eq, E; cbn; rewrite decide_False by set_solver; done|]. rewrite lookup_insert_ne, F5 by done. destruct (sentries (sit s0) !! h); [|done]. cbn. f_equal.
      destruct (decide (h ∈ bitmap s)), (decide (h ∈ bitmap s ∖ {[g]})); set_solver.
    - intros off Ho. rewrite Hd3 by done. auto.
    - congruence.
    - intros h Hh. destruct (Hd5 h Hh) as [->|]; [by apply F11|by right]. }
  destruct dst as [a|]; cbn [dst_ok] in Hdst.
  - destruct Hdst as (-> & HP & Hnj & Hold). eexists s', _, dcc'. split; [reflexivity|]. split; [|done]. apply Hs; cbn; [|done| |by rewrite orb_false_r|].
    + intros h Hh Hor. unfold disk_entry. cbn. destruct (decide (h = g)) as [->|Hne].
      * rewrite (jget_none _ g Hnj). unfold upd at 1. rewrite decide_True by done. unfold upd. by rewrite decide_True.
      * assert (Eh : disk_entry d h = raw_of s0 h) by (apply F6; [done|]; destruct Hor as [Hn|]; [left; set_solver|by right]). rewrite <-Eh. unfold disk_entry. destruct (jget (s_journal d) h); [done|].
        unfold upd at 1. destruct (decide (sit_addr (sit_bitmap d) (SIT_BLOCK_OFFSET h) = sit_addr (sit_bitmap d) (SIT_BLOCK_OFFSET g))) as [Ea|]; [|done].
        destruct (block_of h Hh) as (B1 & _ & B2 & _). destruct (block_of g Hr) as (B3 & _ & B4 & _). apply sit_addr_inj in Ea as [Ea _]; [|done|done]. unfold upd. rewrite decide_False; [by rewrite Ea|]. intros Eo. apply Hne. unfold START_SEGNO in *. rewrite Ea, Eo in B2. lia.
    + intros off Ho. unfold upd. rewrite decide_False; [done|]. intros Eq. by apply (Hold off Ho).
    + intros h Hh. unfold page_entry. cbn. unfold upd at 1 3. destruct (decide (sit_addr _ (SIT_BLOCK_OFFSET h) = _)) as [Ea|]; [|by left]. destruct (block_of h Hh) as (B1 & _ & B2 & _). destruct (block_of g Hr) as (B3 & _ & B4 & _). apply sit_addr_inj in Ea as [Ea _]; [|done|done].
      unfold upd. destruct (decide (SIT_ENTRY_OFFSET h = SIT_ENTRY_OFFSET g)) as [Eo|]; [|left; by rewrite Ea]. right. assert (h = g) as -> by (unfold START_SEGNO in *; rewrite Ea, Eo in B2; lia). by rewrite Hraw.
  - destruct (sit_journal_put (s_journal d) g (__seg_info_to_raw_sit se) F7 Hr Hdst) as (j1 & i & -> & J1 & J2 & J3 & J4). cbn [mbind option_bind]. eexists s', _, dcc'. split; [reflexivity|]. split; [|done].
    apply Hs; cbn; [|done|done|by rewrite orb_false_r|by left]. intros h Hh Hor. unfold disk_entry. cbn. rewrite J2. destruct (decide (h = g)) as [->|Hne]; [by rewrite Hraw|]. apply F6; [done|]. destruct Hor as [Hn|]; [left; set_solver|by right].
Qed.

(** ** The entries of a set *)

Lemma flush_loop_ok cpc P dst l : NoDup l -> forall s d dcc cnt, finv P s d dcc -> (forall g, g ∈ l -> g ∈ bitmap s) -> Z.of_nat (length l) <= cnt < 2 ^ 32 ->
  match dst with None => Z.of_nat (length (s_journal d)) + Z.of_nat (length l) <= SIT_JOURNAL_ENTRIES | Some _ => forall g, g ∈ l -> dst_ok P d dst g end ->
  exists s' d' dcc', flush_sit_loop denv cpc dst l s d dcc cnt = Some (s', d', dcc', cnt - Z.of_nat (length l)) /\ finv P s' d' dcc' /\ bitmap s' = bitmap s ∖ list_to_set l /\ sit_bitmap d' = sit_bitmap d /\
    (forall k, k ∈ (s_journal d').*1 -> k ∈ l \/ k ∈ (s_journal d).*1) /\ (length (s_journal d') <= length (s_journal d) + length l)%nat.
Proof.
  induction 1 as [|g l Hg Hn IH]; intros s d dcc cnt Hf Hin Hc Hdst.
  - exists s, d, dcc. cbn. rewrite Z.sub_0_r. split; [done|]. split; [done|]. split; [set_solver|]. split; [done|]. split; [by right|lia].
  - cbn [flush_sit_loop]. cbn [length] in Hc, Hdst. assert (Hd1 : dst_ok P d dst g) by (destruct dst; [apply Hdst; set_solver|right; lia]).
    destruct (flush_entry_ok cpc P dst s d dcc g Hf (Hin g ltac:(set_solver)) Hd1) as (s1 & d1 & dcc1 & -> & Hf1 & Hb1 & Hm1 & Hj1). cbn [mbind option_bind]. rewrite (u32_small (cnt - 1)) by lia.
    destruct (IH s1 d1 dcc1 (cnt - 1) Hf1) as (s' & d' & dcc' & -> & Hf' & Hb' & Hm' & Hk' & Hl').
    + intros h Hh. rewrite Hb1. assert (h <> g) by (intros ->; done). specialize (Hin h ltac:(set_solver)). set_solver.
    + lia.
    + destruct dst as [a|]; [|destruct Hj1; lia]. intros h Hh. unfold dst_ok. rewrite Hj1, Hm1. apply (Hdst h). set_solver.
    + exists s', d', dcc'. split; [do 2 f_equal; cbn [length]; lia|]. split; [done|]. split; [rewrite Hb', Hb1; set_solver|]. split; [congruence|]. destruct dst as [a|].
      * rewrite Hj1 in Hk', Hl'. split; [|cbn [length]; lia]. intros k Hk. destruct (Hk' k Hk); [left; set_solver|by right].
      * destruct Hj1 as [Hj1 Hj2]. split; [|cbn [length]; lia]. intros k Hk. destruct (Hk' k Hk) as [|Hk2]; [left; set_solver|]. apply Hj1 in Hk2 as [->|]; [left; set_solver|by right].
Qed.

(** The journal has room for all dirty entries, or holds none of them. *)
Definition jmode (tj : bool) (B : gset Z) (j : list (Z * f2fs_sit_entry)) : Prop :=
  tj = true /\ Z.of_nat (size B) + Z.of_nat (length j) <= SIT_JOURNAL_ENTRIES \/ forall k, k ∈ j.*1 -> k ∉ B.
Notation none := (fun _ : Z => False).

(** A block gets its new page. *)
Lemma next_page_ok s d dcc st : finv none s d dcc -> is_start st -> (forall k, k ∈ (s_journal d).*1 -> k ∉ bitmap s) -> (SIT_BLOCK_OFFSET st ∈ sit_bitmap d <-> SIT_BLOCK_OFFSET st ∈ sit_bitmap d0) ->
  exists d1 a, get_next_sit_page s d st = Some (d1, a) /\ finv (fun h => START_SEGNO h = st) s d1 dcc /\ s_journal d1 = s_journal d /\ sit_bitmap d1 = flip (sit_bitmap d) (SIT_BLOCK_OFFSET st) /\
    a = sit_addr (sit_bitmap d1) (SIT_BLOCK_OFFSET st) /\ (forall off, 0 <= off < sit_blocks -> a <> sit_addr (sit_bitmap d0) off).
Proof.
  intros Hf Hst Hj Hbit. pose proof (start_pos st Hst) as Hpos. pose proof Hst as (g0 & Hg0 & Est). assert (Hr : seg_ok st) by (destruct (block_of g0 Hg0) as (_ & ? & _); lia).
  assert (Eoff : SIT_BLOCK_OFFSET st = SIT_BLOCK_OFFSET g0) by (rewrite Est; unfold SIT_BLOCK_OFFSET, START_SEGNO; pose proof spb_pos; by rewrite Z.div_mul by lia).
  set (off := SIT_BLOCK_OFFSET st) in *. assert (Hoff : 0 <= off < sit_blocks) by (rewrite Eoff; by apply block_of). unfold get_next_sit_page. rewrite sit_current_addr by done. cbn [mbind option_bind]. fold off. rewrite next_addr_flip by done.
  set (a := sit_addr (flip (sit_bitmap d) off) off). assert (Ha : forall o, 0 <= o < sit_blocks -> a <> sit_addr (sit_bitmap d0) o).
  { intros o Ho Eq. apply sit_addr_inj in Eq as [_ Eq]; [|done|done]. rewrite flip_same, Hbit in Eq. tauto. }
  eexists _, a. split; [done|]. split; [|done]. destruct Hf as [F1 F2 F3 F4 F5 F6 F7 F8 F9 F10 F11]. constructor; try done; cbn.
  - intros h Hh Hor. destruct (block_of h Hh) as (B1 & _ & B2 & B3). unfold disk_entry. cbn. change (if decide (SIT_BLOCK_OFFSET st ∈ sit_bitmap d) then _ else _) with (flip (sit_bitmap d) off).
    destruct (jget (s_journal d) h) as [e|] eqn:Ej.
    + assert (Hk : h ∉ bitmap s) by (apply Hj; destruct (decide (h ∈ (s_journal d).*1)) as [|Hn]; [done|by rewrite (jget_none _ _ Hn) in Ej]). specialize (F6 h Hh (or_introl Hk)). unfold disk_entry in F6. by rewrite Ej in F6.
    + destruct (decide (SIT_BLOCK_OFFSET h = off)) as [Eh|Hne].
      * rewrite Eh. unfold upd. rewrite decide_True by done. unfold seg_info_to_sit_page, get_seg_entry. assert (Hs : START_SEGNO h = st) by (rewrite Est; unfold START_SEGNO; congruence). rewrite Hs in B2.
        destruct (block_of h Hh) as (_ & B4 & _). rewrite Hs in B4. destruct (Z.leb_spec 0 (SIT_ENTRY_OFFSET h)); [|lia]. destruct (Z.ltb_spec (SIT_ENTRY_OFFSET h) (block_end st - st)); [|lia]. cbn [andb]. rewrite B2, F5. unfold raw_of.
        destruct (sentries (sit s0) !! h) as [se|]; [|done]. cbn. by destruct (decide (h ∈ bitmap s)).
      * destruct Hor as [Hn|Hs]; [|exfalso; apply Hne; rewrite Eoff; rewrite Est in Hs; unfold START_SEGNO in Hs; pose proof spb_pos; nia].
        specialize (F6 h Hh (or_introl Hn)). unfold disk_entry in F6. rewrite Ej in F6. rewrite <-F6. assert (Eh : sit_addr (flip (sit_bitmap d) off) (SIT_BLOCK_OFFSET h) = sit_addr (sit_bitmap d) (SIT_BLOCK_OFFSET h)) by (apply sit_addr_ext; by apply flip_other).
        rewrite Eh. unfold upd. rewrite decide_False; [done|]. rewrite <-Eh. intros Eq. apply sit_addr_inj in Eq as [? _]; [congruence|done|done].
  - intros o Ho. unfold upd. rewrite decide_False; [by apply F8|]. intros Eq. by apply (Ha o Ho).
  - intros h Hh. destruct (block_of h Hh) as (B1 & B4 & B2 & B3). unfold page_entry. cbn. change (if decide (SIT_BLOCK_OFFSET st ∈ sit_bitmap d) then _ else _) with (flip (sit_bitmap d) off). destruct (decide (SIT_BLOCK_OFFSET h = off)) as [Eh|Hne].
    + right. rewrite Eh. unfold upd. rewrite decide_True by done. unfold seg_info_to_sit_page, get_seg_entry. assert (Hs : START_SEGNO h = st) by (rewrite Est; unfold START_SEGNO; congruence). rewrite Hs in B2, B4.
      destruct (Z.leb_spec 0 (SIT_ENTRY_OFFSET h)); [|lia]. destruct (Z.ltb_spec (SIT_ENTRY_OFFSET h) (block_end st - st)); [|lia]. cbn [andb]. rewrite B2, F5. unfold raw_of. destruct (sentries (sit s0) !! h) as [se|]; [|done]. cbn. by destruct (decide (h ∈ bitmap s)).
    + specialize (F11 h Hh). unfold page_entry in F11. assert (Eh : sit_addr (flip (sit_bitmap d) off) (SIT_BLOCK_OFFSET h) = sit_addr (sit_bitmap d) (SIT_BLOCK_OFFSET h)) by (apply sit_addr_ext; by apply flip_other).
      rewrite Eh. unfold upd. rewrite decide_False; [done|]. rewrite <-Eh. intros Eq. apply sit_addr_inj in Eq as [? _]; [congruence|done|done].
Qed.

Lemma flush_set_ok cpc tj s d dcc e : finv none s d dcc -> is_start (start_seg e) -> entry_cnt e = Z.of_nat (length (dirty_in (bitmap s) (start_seg e))) -> jmode tj (bitmap s) (s_journal d) ->
  (SIT_BLOCK_OFFSET (start_seg e) ∈ sit_bitmap d <-> SIT_BLOCK_OFFSET (start_seg e) ∈ sit_bitmap d0) ->
  exists s' d' dcc' tj', flush_sit_set denv cpc tj s d dcc e = Some (s', d', dcc', tj') /\ finv none s' d' dcc' /\ bitmap s' = bitmap s ∖ list_to_set (dirty_in (bitmap s) (start_seg e)) /\
    jmode tj' (bitmap s') (s_journal d') /\ (forall off, off <> SIT_BLOCK_OFFSET (start_seg e) -> off ∈ sit_bitmap d' <-> off ∈ sit_bitmap d).
Proof.
  intros Hf Hst Hc Hj Hbit. set (st := start_seg e) in *. pose proof (dirty_in_short (bitmap s) st Hst) as Hsh. unfold flush_sit_set. fold st.
  change (filter (fun g => g ∈ bitmap s) (seqZ st (block_end st - st))) with (dirty_in (bitmap s) st). rewrite Hc. set (l := dirty_in (bitmap s) st) in *.
  assert (Hl : forall g, g ∈ l -> g ∈ bitmap s /\ seg_ok g /\ START_SEGNO g = st) by (intros g; by apply dirty_in_spec). assert (Hn : NoDup l) by apply dirty_in_nodup.
  assert (Hsz : (length l + size (bitmap s ∖ list_to_set l) <= size (bitmap s))%nat).
  { rewrite <-(size_list_to_set (C := gset Z) l) by done. rewrite <-size_union by set_solver. apply subseteq_size. intros x [Hx'|Hx']%elem_of_union; [|set_solver]. apply elem_of_list_to_set in Hx'. by apply Hl. }
  destruct (tj && has_sit_space (s_journal d) (Z.of_nat (length l))) eqn:Etj.
  - apply andb_true_iff in Etj as [-> Hsp]. unfold has_sit_space in Hsp. apply Z.leb_le in Hsp. cbn [mbind option_bind].
    destruct (flush_loop_ok cpc none None l Hn s d dcc (Z.of_nat (length l)) Hf) as (s' & d' & dcc' & -> & Hf' & Hb' & Hm' & Hk' & Hl'); [intros g Hg; by apply Hl|lia|lia|]. cbn [mbind option_bind]. rewrite Z.sub_diag. cbn [Z.eqb].
    exists s', d', dcc', true. split; [done|]. split; [done|]. split; [done|]. split; [|by rewrite Hm']. rewrite Hb'. destruct Hj as [[_ Hj]|Hj]; [left; split; [done|lia]|right].
    intros k Hk. destruct (Hk' k Hk) as [Hkl|Hkd]; [|specialize (Hj k Hkd)]; set_solver.
  - assert (Hj' : forall k, k ∈ (s_journal d).*1 -> k ∉ bitmap s).
    { destruct Hj as [[-> Hj]|]; [exfalso|done]. cbn in Etj. unfold has_sit_space in Etj. apply Z.leb_gt in Etj. lia. }
    destruct (next_page_ok s d dcc st Hf Hst Hj' Hbit) as (d1 & a & -> & Hf1 & Ej1 & Eb1 & Ea & Hold). cbn [mbind option_bind].
    destruct (flush_loop_ok cpc (fun h => START_SEGNO h = st) (Some a) l Hn s d1 dcc (Z.of_nat (length l)) Hf1) as (s' & d' & dcc' & -> & Hf' & Hb' & Hm' & Hk' & Hl'); [intros g Hg; by apply Hl|lia| |].
    { intros g Hg. destruct (Hl g Hg) as (G1 & G2 & G3). split; [|split; [done|split; [rewrite Ej1; intros Hk; by apply (Hj' g Hk)|done]]]. rewrite Ea. f_equal. rewrite <-G3. unfold SIT_BLOCK_OFFSET, START_SEGNO. pose proof spb_pos. by rewrite Z.div_mul by lia. }
    cbn [mbind option_bind]. rewrite Z.sub_diag. cbn [Z.eqb]. exists s', d', dcc', false. split; [done|]. split.
    { destruct Hf' as [F1 F2 F3 F4 F5 F6 F7 F8 F9 F10 F11]. constructor; try done. intros g Hg [Hn'|[]]. apply F6; [done|by left]. }
    split; [done|]. split; [|intros off Hoff; rewrite Hm', Eb1; by apply flip_other]. right. intros k Hk. rewrite Hb'. destruct (Hk' k Hk) as [Hkl|Hkd]; [set_solver|]. rewrite Ej1 in Hkd. specialize (Hj' k Hkd). set_solver.
Qed.

Lemma flush_sets_ok cpc l : forall tj s d dcc, finv none s d dcc -> sets_ok (bitmap s) l -> jmode tj (bitmap s) (s_journal d) ->
  (forall e, e ∈ l -> SIT_BLOCK_OFFSET (start_seg e) ∈ sit_bitmap d <-> SIT_BLOCK_OFFSET (start_seg e) ∈ sit_bitmap d0) ->
  exists s' d' dcc', flush_sit_sets denv cpc l tj s d dcc = Some (s', d', dcc') /\ finv none s' d' dcc' /\ bitmap s' = ∅.
Proof.
  induction l as [|e l IH]; intros tj s d dcc Hf [S1 S2 S3] Hj Hbit; cbn [flush_sit_sets].
  - exists s, d, dcc. split; [done|]. split; [done|]. apply set_eq. intros g. specialize (S3 g). cbn in S3. set_solver.
  - destruct (S2 e ltac:(set_solver)) as [Hst Hc]. destruct (flush_set_ok cpc tj s d dcc e Hf Hst Hc Hj (Hbit e ltac:(set_solver))) as (s1 & d1 & dcc1 & tj1 & -> & Hf1 & Hb1 & Hj1 & Hbit1). cbn [mbind option_bind].
    cbn in S1. apply list.NoDup_cons in S1 as [Sn S1]. assert (Hne : forall x, x ∈ l -> start_seg x <> start_seg e) by (intros x Hx' Eq; apply Sn; rewrite <-Eq; apply list_elem_of_fmap; eauto).
    assert (Hb : forall g, g ∈ bitmap s1 <-> g ∈ bitmap s /\ START_SEGNO g <> start_seg e).
    { intros g. rewrite Hb1, elem_of_difference, elem_of_list_to_set, dirty_in_spec by done. split; [|tauto]. intros [Hg Hno]. split; [done|]. intros Eq. apply Hno. split; [done|]. split; [|done]. by apply (so_bits _ Hx), (fi_sub _ _ _ _ Hf). }
    apply (IH tj1 s1 d1 dcc1 Hf1); [|done|].
    + constructor; [done| |].
      * intros x Hx'. destruct (S2 x ltac:(set_solver)) as [Hst' Hc']. split; [done|]. rewrite Hc'. do 2 f_equal. apply dirty_in_ext; [done|]. intros g Eg _. rewrite Hb, Eg. specialize (Hne x Hx'). tauto.
      * intros g [Hg Hno]%Hb. specialize (S3 g Hg). cbn in S3. set_solver.
    + intros x Hx'. rewrite <-(Hbit x) by set_solver. apply Hbit1. intros Eq. apply (Hne x Hx'). destruct (S2 x ltac:(set_solver)) as [(g & Hg & Eg) _]. destruct Hst as (h & Hh & Eh). rewrite Eg, Eh in *.
      unfold START_SEGNO, SIT_BLOCK_OFFSET in *. pose proof spb_pos. rewrite !Z.div_mul in Eq by lia. by rewrite Eq.
Qed.
End one_flush.

(** ** Collecting the sets *)

Lemma insert_sit_perm e l : insert_sit_set e l ≡ₚ e :: l.
Proof. induction l as [|x l IH]; [done|]. cbn. destruct (_ <=? _); [done|]. rewrite IH. by constructor. Qed.
Lemma grow_set_spec st l : match grow_sit_set st l with
  | Some l' => exists c l0, l ≡ₚ {| start_seg := st; entry_cnt := c |} :: l0 /\ l' ≡ₚ {| start_seg := st; entry_cnt := c +! 1 |} :: l0
  | None => st ∉ start_seg <$> l end.
Proof.
  induction l as [|[b c] l IH]; cbn; [set_solver|]. destruct (Z.eqb_spec b st) as [->|Hne]; [exists c, l; split; [done|apply insert_sit_perm]|]. destruct (grow_sit_set st l) as [l'|]; cbn [mbind option_bind]; [|set_solver].
  destruct IH as (c' & l0 & Hp & Hp'). exists c', ({| start_seg := b; entry_cnt := c |} :: l0). split; [rewrite Hp; apply Permutation_swap|rewrite Hp'; apply Permutation_swap].
Qed.
Lemma sets_perm B l l' : l ≡ₚ l' -> sets_ok B l -> sets_ok B l'.
Proof.
  intros Hp [S1 S2 S3]. constructor.
  - by rewrite <-Hp.
  - intros e. rewrite <-Hp. apply S2.
  - intros g Hg. rewrite <-Hp. by apply S3.
Qed.
Lemma dirty_in_add B g : seg_ok g -> g ∉ B -> Z.of_nat (length (dirty_in ({[g]} ∪ B) (START_SEGNO g))) = Z.of_nat (length (dirty_in B (START_SEGNO g))) + 1.
Proof.
  intros Hg Hn. unfold dirty_in. rewrite (filter_one (fun x => x ∈ ({[g]} : gset Z) ∪ B) (fun x => x ∈ B) _ g); [lia|apply NoDup_seqZ|by apply in_block|set_solver|set_solver|done].
Qed.
Lemma add_entry_ok B l g : sets_ok B l -> seg_ok g -> g ∉ B -> sets_ok ({[g]} ∪ B) (add_sit_entry g l).
Proof.
  intros HS Hg Hn. assert (Hst : is_start (START_SEGNO g)) by (by exists g). pose proof (dirty_in_add B g Hg Hn) as Hadd. pose proof (dirty_in_short B _ Hst) as Hsh.
  assert (Hother : forall st, is_start st -> st <> START_SEGNO g -> dirty_in ({[g]} ∪ B) st = dirty_in B st) by (intros st Hs Hne; apply dirty_in_ext; [done|]; intros h Eh _; assert (h <> g) by (intros ->; done); set_solver).
  unfold add_sit_entry. pose proof (grow_set_spec (START_SEGNO g) l) as Hgr. destruct (grow_sit_set (START_SEGNO g) l) as [l'|].
  - destruct Hgr as (c & l0 & Hp & Hp'). apply (sets_perm _ _ _ (Permutation_sym Hp')). pose proof (sets_perm _ _ _ Hp HS) as [S1 S2 S3]. cbn in S1. apply list.NoDup_cons in S1 as [Sn S1]. constructor.
    + cbn. by constructor.
    + intros e [->|He]%elem_of_cons; cbn.
      * split; [done|]. destruct (S2 {| start_seg := START_SEGNO g; entry_cnt := c |} ltac:(set_solver)) as [_ Hc]. cbn in Hc. rewrite Hc, Hadd. apply u32_small. lia.
      * destruct (S2 e ltac:(set_solver)) as [He1 He2]. split; [done|]. rewrite He2, Hother; [done|done|]. intros Eq. apply Sn. rewrite <-Eq. apply list_elem_of_fmap. eauto.
    + intros h [->%elem_of_singleton|Hh]%elem_of_union; [cbn; set_solver|]. exact (S3 h Hh).
  - destruct HS as [S1 S2 S3]. constructor.
    + cbn. by constructor.
    + intros e [->|He]%elem_of_cons; cbn.
      * split; [done|]. rewrite Hadd. replace (dirty_in B (START_SEGNO g)) with (@nil Z); [done|]. symmetry. apply elem_of_nil_inv. intros h Hh. apply dirty_in_spec in Hh as (Hb & _ & Eh); [|done]. apply Hgr. rewrite <-Eh. by apply S3.
      * destruct (S2 e He) as [He1 He2]. split; [done|]. rewrite He2, Hother; [done|done|]. intros Eq. apply Hgr. rewrite <-Eq. apply list_elem_of_fmap. eauto.
    + intros h [->%elem_of_singleton|Hh]%elem_of_union; [cbn; set_solver|]. cbn. specialize (S3 h Hh). set_solver.
Qed.
Lemma add_sits_ok s : sit_ok (sit s) -> sets_ok (bitmap s) (add_sits_in_set s).
Proof.
  intros Hx. unfold add_sits_in_set, set_bits.
  assert (Hgen : forall l B sets, NoDup l -> (forall g, g ∈ l -> seg_ok g /\ g ∉ B) -> sets_ok B sets -> sets_ok (list_to_set l ∪ B) (foldl (fun x g => add_sit_entry g x) sets l)).
  { induction l as [|g l IH]; intros B sets Hn Hl HS; cbn; [by rewrite (union_empty_l_L B)|]. apply list.NoDup_cons in Hn as [Hg Hn]. replace ({[g]} ∪ list_to_set l ∪ B) with (list_to_set l ∪ ({[g]} ∪ B)) by set_solver.
    apply IH; [done| |apply add_entry_ok; [done|apply Hl; set_solver|apply Hl; set_solver]]. intros h Hh. destruct (Hl h ltac:(set_solver)). split; [done|]. assert (h <> g) by (intros ->; done). set_solver. }
  specialize (Hgen (filter (fun i => i ∈ bitmap s) (seqZ 0 MAIN_SEGS)) ∅ []). replace (bitmap s) with (list_to_set (filter (fun i => i ∈ bitmap s) (seqZ 0 MAIN_SEGS)) ∪ ∅ : gset Z) at 1.
  - apply Hgen; [apply list.NoDup_filter, NoDup_seqZ| |constructor; [constructor|set_solver|set_solver]]. intros g Hg. apply list_elem_of_filter in Hg as [_ Hg%elem_of_seqZ]. split; [lia|set_solver].
  - apply set_eq. intros g. rewrite elem_of_union, elem_of_list_to_set, list_elem_of_filter, elem_of_seqZ. split; [set_solver|]. intros Hg. left. split; [done|]. pose proof (so_bits _ Hx g Hg). lia.
Qed.

Lemma sum_valid_ext x x' l : (forall g, valid_of x' g = valid_of x g) -> sum_valid x' l = sum_valid x l.
Proof. intros Hv. induction l as [|h l IH]; [done|]. cbn [sum_valid foldr]. fold (sum_valid x l) (sum_valid x' l). by rewrite Hv, IH. Qed.
Lemma mark_dirty_ok s g : sit_ok (sit s) -> seg_ok g -> sit_ok (sit (__mark_sit_entry_dirty s g).1).
Proof.
  intros Hx Hg. destruct (mark_dirty_sit s g Hx Hg) as (M1 & M2 & M3 & M4 & M5 & _). pose proof Hx as [X1 X2 X3 X4 X5 X6 X7]. set (s' := (__mark_sit_entry_dirty s g).1) in *. clearbody s'.
  assert (Hv : forall l, sum_valid (sit s') l = sum_valid (sit s) l) by (intros l; apply sum_valid_ext; intros h; unfold valid_of; by rewrite M1).
  constructor.
  - by rewrite M1.
  - by rewrite M1.
  - intros h se E Hn. rewrite M1 in E. rewrite M4 in Hn. apply (X3 h se E). set_solver.
  - intros h. rewrite M4. intros [->%elem_of_singleton|Hh]%elem_of_union; [done|auto].
  - done.
  - intros Hl c Hc. rewrite M2, Hv. auto.
  - by rewrite M3, Hv.
Qed.
Lemma mark_dirty_bit s g : (__mark_sit_entry_dirty s g).2 = bool_decide (g ∈ bitmap s).
Proof. unfold __mark_sit_entry_dirty. destruct (decide (g ∈ bitmap s)); [by rewrite bool_decide_eq_true_2|by rewrite bool_decide_eq_false_2]. Qed.

Lemma remove_sits_ok js : (forall k, k ∈ js.*1 -> seg_ok k) -> forall s head, sit_ok (sit s) -> sets_ok (bitmap s) head ->
  exists s' head', remove_sits js s head = (s', head') /\ sit_ok (sit s') /\ sets_ok (bitmap s') head' /\ sentries (sit s') = sentries (sit s) /\ sec_entries (sit s') = sec_entries (sit s) /\
    written_valid_blocks (sit s') = written_valid_blocks (sit s) /\ (forall g, g ∈ bitmap s' <-> g ∈ bitmap s \/ g ∈ js.*1) /\ s' = with_sit s (sit s').
Proof.
  induction js as [|[k e] js IH]; intros Hk s head Hx HS; cbn [remove_sits].
  - exists s, head. split; [done|]. do 5 (split; [done|]). split; [set_solver|by destruct s].
  - assert (Hr : seg_ok k) by (apply Hk; set_solver). destruct (mark_dirty_sit s k Hx Hr) as (M1 & M2 & M3 & M4 & M5 & M6). pose proof (mark_dirty_ok s k Hx Hr) as Hx1. pose proof (mark_dirty_bit s k) as Hb.
    destruct (__mark_sit_entry_dirty s k) as [s1 b]. cbn [fst snd] in *. destruct (IH ltac:(set_solver) s1 (if b then head else add_sit_entry k head) Hx1) as (s' & head' & -> & Hx' & HS' & N1 & N2 & N3 & N4 & N5).
    + rewrite M4, Hb. case_bool_decide; [by rewrite subseteq_union_1_L by set_solver|by apply add_entry_ok].
    + exists s', head'. split; [done|]. split; [done|]. split; [done|]. split; [congruence|]. split; [congruence|]. split; [congruence|]. split; [intros g; rewrite N4, M4; set_solver|]. rewrite N5, M6. by destruct s.
Qed.

(** ** The flush *)

(** An entry after it was written. *)
Definition snap (se : seg_entry) : seg_entry := (seg_info_to_raw_sit se).2.
Lemma snap_clean se : entry_ok se -> ckpt_valid_map se = cur_valid_map se -> snap se = se.
Proof. intros [E1 E2 E3 E4 E5] Ec. destruct se. cbn in *. unfold snap. cbn. rewrite Ec in E5. subst. f_equal. Qed.
Lemma clean_snap s g se : sit_ok (sit s) -> sentries (sit s) !! g = Some se -> g ∉ bitmap s -> snap se = se.
Proof. intros Hx E Hn. apply snap_clean; [by apply (so_entry _ Hx g)|by apply (so_clean _ Hx g)]. Qed.

Record flushed (s s' : seg_sys) (d d' : sit_disk) : Prop := {
  fl_rest : s' = with_sit s (sit s');
  fl_ent : sentries (sit s') = snap <$> sentries (sit s);
  fl_sec : sec_entries (sit s') = sec_entries (sit s) /\ written_valid_blocks (sit s') = written_valid_blocks (sit s);
  fl_dirty : bitmap s' = ∅ /\ dirty_sentries (sit s') = 0;
  fl_disk : forall g, seg_ok g -> disk_entry d' g = raw_of s g;
  fl_journal : journal_ok (s_journal d');
  fl_old : forall off, 0 <= off < sit_blocks -> sit_meta d' (sit_addr (sit_bitmap d) off) = sit_meta d (sit_addr (sit_bitmap d) off);
  fl_fsck : need_fsck d' = need_fsck d;
  fl_page : forall g, seg_ok g -> page_entry d' g = page_entry d g \/ page_entry d' g = raw_of s g
}.
Lemma finv_done s0 d0 s d dcc : finv s0 d0 (fun _ => False) s d dcc -> bitmap s = ∅ -> flushed s0 s d0 d.
Proof.
  intros [F1 F2 F3 F4 F5 F6 F7 F8 F9 F10 F11] Hb. constructor; try done.
  - apply map_eq. intros g. rewrite F5, lookup_fmap. destruct (sentries (sit s0) !! g); [|done]. cbn. by rewrite decide_False by (rewrite Hb; set_solver).
  - split; [done|]. by rewrite F4, Hb, size_empty.
  - intros g Hg. apply F6; [done|]. left. rewrite Hb. set_solver.
Qed.
Lemma flush_core cpc rs s d dcc : sit_ok (sit s) -> coherent s d -> journal_ok (s_journal d) -> dcc_ok s dcc -> dirty_sentries (sit s) <> 0 ->
  exists s' d' dcc', (let head := add_sits_in_set s in
      let '(s, d, head) := if negb (has_sit_space (s_journal d) (dirty_sentries (sit s))) || rs then remove_sits_in_journal s d head else (s, d, head) in
      '(s, d, dcc) ← flush_sit_sets denv cpc head (negb rs) s d dcc; if dirty_sentries (sit s) =? 0 then Some (s, d, dcc) else None) = Some (s', d', dcc') /\ flushed s s' d d' /\ dcc_ok s dcc'.
Proof.
  intros Hx Hco Hj Hd Hnz. cbv zeta. set (pre := if _ || rs then _ else _).
  assert (Hpre : exists s0 dj head, pre = (s0, dj, head) /\ sit_ok (sit s0) /\ sets_ok (bitmap s0) head /\ sentries (sit s0) = sentries (sit s) /\ sec_entries (sit s0) = sec_entries (sit s) /\ written_valid_blocks (sit s0) = written_valid_blocks (sit s) /\
    s0 = with_sit s (sit s0) /\ coherent s0 dj /\ journal_ok (s_journal dj) /\ jmode (negb rs) (bitmap s0) (s_journal dj) /\ sit_bitmap dj = sit_bitmap d /\ sit_meta dj = sit_meta d /\ need_fsck dj = need_fsck d).
  { unfold pre. destruct (negb (has_sit_space (s_journal d) (dirty_sentries (sit s))) || rs) eqn:Eb.
    - unfold remove_sits_in_journal. destruct (remove_sits_ok (s_journal d) (jo_segs _ Hj) s _ Hx (add_sits_ok s Hx)) as (s0 & head & -> & Hx0 & HS0 & N1 & N2 & N3 & N4 & N5).
      exists s0, (set_sjournal d []), head. split; [done|]. do 6 (split; [done|]). split; [|split; [|split; [right; cbn; set_solver|done]]].
      + intros g Hg Hn. unfold raw_of. rewrite N1. fold (raw_of s g). rewrite N4 in Hn. rewrite <-(Hco g Hg) by tauto. unfold disk_entry. cbn. by rewrite (jget_none (s_journal d) g) by tauto.
      + constructor; cbn; [constructor|pose proof sit_journal_cap; lia|set_solver].
    - apply orb_false_iff in Eb as [Eb ->]. apply negb_false_iff in Eb. unfold has_sit_space in Eb. apply Z.leb_le in Eb. exists s, d, (add_sits_in_set s). split; [done|]. split; [done|]. split; [by apply add_sits_ok|]. do 3 (split; [done|]).
      split; [by destruct s|]. split; [done|]. split; [done|]. split; [|done]. left. split; [done|]. rewrite <-(so_dirty _ Hx). lia. }
  clearbody pre. destruct Hpre as (s0 & dj & head & -> & Hx0 & HS0 & N1 & N2 & N3 & N5 & Hco0 & Hj0 & Hjm & D1 & D2 & D3).
  assert (Hv0 : forall g o, valid_at s0 g o <-> valid_at s g o) by (intros g o; unfold valid_at; by rewrite N1).
  destruct (flush_sets_ok s0 dj Hx0 cpc head (negb rs) s0 dj dcc) as (s' & d' & dcc' & E & Hf & Hb).
  - constructor; try done; [by destruct s0|apply Hx0| |intros g Hg [Hn|[]]; by apply Hco0|apply (dcc_same s); [intros g o; apply Hv0|done]|by left].
    intros g. destruct (sentries (sit s0) !! g) as [se|] eqn:Eg; [|done]. cbn. destruct (decide (g ∈ bitmap s0)); [done|]. f_equal. symmetry. by apply (clean_snap s0 g).
  - done.
  - done.
  - done.
  - rewrite E. cbn [mbind option_bind]. rewrite (fi_cnt _ _ _ _ _ _ Hf), Hb, size_empty. cbn [Z.of_nat Z.eqb]. exists s', d', dcc'. split; [done|]. split; [|apply (dcc_same s0); [intros g o; apply Hv0|apply (fi_dcc _ _ _ _ _ _ Hf)]].
    pose proof (finv_done s0 dj s' d' dcc' Hf Hb) as [L1 L2 L3 L4 L5 L6 L7 L8 L9]. constructor; rewrite <-?D1, <-?D2, <-?D3, <-?N1; try done.
    + rewrite L1, N5. by destruct s.
    + destruct L3 as [-> ->]. by rewrite N2, N3.
    + intros g Hg. rewrite (L5 g Hg). unfold raw_of. by rewrite N1.
    + intros g Hg. assert (Ep : page_entry d g = page_entry dj g) by (unfold page_entry; by rewrite D1, D2). rewrite Ep. destruct (L9 g Hg) as [|Hr]; [by left|right]. rewrite Hr. unfold raw_of. by rewrite N1.
Qed.

Lemma trim_loop_ok cpc s l : forall dcc, (forall g, g ∈ l -> seg_ok g) -> sit_ok (sit s) -> dcc_ok s dcc -> exists dcc', trim_loop denv cpc l s dcc = Some dcc' /\ dcc_ok s dcc' /\ issued dcc' = issued dcc.
Proof.
  induction l as [|g l IH]; intros dcc Hl Hx Hd; cbn [trim_loop]; [eauto|]. assert (Hg : seg_ok g) by (apply Hl; set_solver). destruct (proj2 (so_dom _ Hx g) Hg) as [se E].
  destruct (add_discard_ok s dcc g se (trim_minlen cpc) true false Hg E (so_entry _ Hx g se E) Hd) as (d1 & b & -> & Hd1 & Hi1). cbn [mbind option_bind]. destruct (IH d1 ltac:(set_solver) Hx Hd1) as (d2 & -> & Hd2 & Hi2). exists d2. split; [done|]. split; [done|congruence].
Qed.
(** The trim range of a command is in the area. *)
Definition trim_ok (cpc : cp_control) : Prop := cp_discard cpc = true -> 0 <= trim_start cpc /\ trim_end cpc < MAIN_SEGS.

Lemma flushed_sit_ok s s' d d' : sit_ok (sit s) -> flushed s s' d d' -> sit_ok (sit s').
Proof.
  intros [X1 X2 X3 X4 X5 X6 X7] [L1 L2 [L3 L3'] [L4 L4'] L5 L6 L7 L8 L9]. assert (Hvo : forall g, valid_of (sit s') g = valid_of (sit s) g) by (intros g; unfold valid_of; rewrite L2, lookup_fmap; by destruct (sentries (sit s) !! g)).
  assert (Hsum : forall l, sum_valid (sit s') l = sum_valid (sit s) l) by (intros l; by apply sum_valid_ext).
  constructor.
  - intros g. rewrite L2, lookup_fmap, fmap_is_Some. apply X1.
  - intros g se. rewrite L2, lookup_fmap. intros E. apply fmap_Some in E as (se0 & E & ->). destruct (X2 g se0 E) as [T1 T2 T3 T4 T5]. constructor; cbn; [done|done|set_solver|done|done].
  - intros g se. rewrite L2, lookup_fmap. intros E _. apply fmap_Some in E as (se0 & E & ->). done.
  - rewrite L4. set_solver.
  - by rewrite L4, L4', size_empty.
  - intros Hl c Hc. rewrite L3, Hsum. auto.
  - by rewrite L3', Hsum.
Qed.

Lemma flush_ok cpc rs s d dcc : sit_ok (sit s) -> coherent s d -> journal_ok (s_journal d) -> dcc_ok s dcc -> trim_ok cpc ->
  exists s' d' dcc', f2fs_flush_sit_entries denv rs cpc s d dcc = Some (set_prefree_as_free_segments s', d', dcc') /\ flushed s s' d d' /\ sit_ok (sit s') /\ dcc_ok s' dcc'.
Proof.
  intros Hx Hco Hj Hd Ht. unfold f2fs_flush_sit_entries.
  set (core := if dirty_sentries (sit s) =? 0 then Some (s, d, dcc) else _). assert (Hcore : exists s' d' dcc', core = Some (s', d', dcc') /\ flushed s s' d d' /\ dcc_ok s dcc').
  { unfold core. destruct (Z.eqb_spec (dirty_sentries (sit s)) 0) as [Hz|Hnz]; [|exact (flush_core cpc rs s d dcc Hx Hco Hj Hd Hnz)]. exists s, d, dcc. split; [done|]. split; [|done].
    assert (Hb : bitmap s = ∅) by (rewrite (so_dirty _ Hx) in Hz; apply size_zero; lia). constructor; try done; [by destruct s| |intros g Hg; apply Hco; [done|rewrite Hb; set_solver]|by left].
    apply map_eq. intros g. rewrite lookup_fmap. destruct (sentries (sit s) !! g) as [se|] eqn:E; [|done]. cbn. f_equal. symmetry. apply (clean_snap s g); [done|done|rewrite Hb; set_solver]. }
  clearbody core. destruct Hcore as (s' & d' & dcc' & -> & Hf & Hd'). cbn [mbind option_bind]. pose proof (flushed_sit_ok s s' d d' Hx Hf) as Hx'.
  assert (Hds : dcc_ok s' dcc'). { apply (dcc_same s); [|done]. intros g o (se & Es & Ho). rewrite (fl_ent _ _ _ _ Hf), lookup_fmap in Es. apply fmap_Some in Es as (se0 & Es & ->). by exists se0. }
  destruct (cp_discard cpc) eqn:Ec; [|exists s', d', dcc'; done]. destruct (trim_loop_ok cpc s' (seqZ (trim_start cpc) (trim_end cpc - trim_start cpc + 1)) dcc') as (d2 & -> & Hd2 & _); [|done|done|exists s', d', d2; done].
  intros g Hg. apply elem_of_seqZ in Hg. destruct (Ht Ec). lia.
Qed.
End flush.
