(* ===== verification/SegCkpt.v ===== *)
(** * Checkpoints of segments

    First that discards spare every valid block; then a checkpoint as a whole. *)

From S2P Require Import Prelude FreeNid NatCache SegBitmap SegState SegAlloc SegInv SegLists SegCur SegSwitch SegVictim SegVictimProps SegBlocks SegData SegDiscard SegFlush SegFlushProps.

(** ** Discards spare every valid block *)

Section clear.
Context `{SegGeometry} (denv : discard_env).
Notation seg_ok g := (0 <= g < MAIN_SEGS).
Notation off_ok o := (0 <= o < blks_per_seg).

(** ** Changes of the maps of discards *)

Definition core (se : seg_entry) : seg_entry := set_discard_map se ∅.
Record dsame (s s' : seg_sys) : Prop := {
  dm_ent : forall g, core <$> sentries (sit s') !! g = core <$> sentries (sit s) !! g;
  dm_sit : sec_entries (sit s') = sec_entries (sit s) /\ written_valid_blocks (sit s') = written_valid_blocks (sit s) /\ dirty_sentries_bitmap (sit s') = dirty_sentries_bitmap (sit s) /\ dirty_sentries (sit s') = dirty_sentries (sit s);
  dm_fre : fre s' = fre s;
  dm_vict : vict s' = vict s;
  dm_cur : CURSEG_I s' = CURSEG_I s;
  dm_ssa : ssa s' = ssa s;
  dm_cp : CP_DISABLED s' = CP_DISABLED s;
  dm_err : CP_ERROR s' = CP_ERROR s
}.
Lemma dsame_refl s : dsame s s.
Proof. by constructor. Qed.
Lemma dsame_trans s s' s'' : dsame s s' -> dsame s' s'' -> dsame s s''.
Proof. intros [A1 (A2 & A3 & A4 & A5) A6 A7 A8 A9 A10 A11] [B1 (B2 & B3 & B4 & B5) B6 B7 B8 B9 B10 B11]. constructor; [intros g; by rewrite B1|by rewrite B2, B3, B4, B5|congruence..]. Qed.
Lemma dsame_entry s s' g se' : dsame s s' -> sentries (sit s') !! g = Some se' -> exists se, sentries (sit s) !! g = Some se /\ core se = core se'.
Proof. intros Hd E. pose proof (dm_ent _ _ Hd g) as Hg. rewrite E in Hg. destruct (sentries (sit s) !! g) as [se|]; [|done]. apply (inj Some) in Hg. exists se. split; [done|]. by symmetry. Qed.
Lemma core_eq se se' : core se = core se' -> se_type se = se_type se' /\ valid_blocks se = valid_blocks se' /\ ckpt_valid_blocks se = ckpt_valid_blocks se' /\ cur_valid_map se = cur_valid_map se' /\ ckpt_valid_map se = ckpt_valid_map se' /\ se_mtime se = se_mtime se'.
Proof. destruct se, se'. unfold core, set_discard_map. cbn. intros [=]. done. Qed.
Lemma dsame_maps s s' g : dsame s s' -> maps_of s' g = maps_of s g.
Proof.
  intros Hd. pose proof (dm_ent _ _ Hd g) as Hg. unfold maps_of. destruct (sentries (sit s') !! g) as [a|], (sentries (sit s) !! g) as [b|]; try done. apply (inj Some) in Hg. apply core_eq in Hg as (_ & _ & _ & C1 & C2 & _). cbn. by rewrite C1, C2.
Qed.
Lemma dsame_some s s' g : dsame s s' -> is_Some (sentries (sit s') !! g) <-> is_Some (sentries (sit s) !! g).
Proof.
  intros Hd. pose proof (dm_ent _ _ Hd g) as Hg. destruct (sentries (sit s') !! g), (sentries (sit s) !! g); done.
Qed.
Lemma dsame_valid_of s s' g : dsame s s' -> valid_of (sit s') g = valid_of (sit s) g.
Proof.
  intros Hd. pose proof (dm_ent _ _ Hd g) as Hg. unfold valid_of. destruct (sentries (sit s') !! g) as [a|], (sentries (sit s) !! g) as [b|]; try done. apply (inj Some) in Hg. by apply core_eq in Hg as (_ & -> & _).
Qed.
Lemma dsame_sit_ok s s' : dsame s s' -> sit_ok (sit s) -> sit_ok (sit s').
Proof.
  intros Hd [X1 X2 X3 X4 X5 X6 X7]. destruct (dm_sit _ _ Hd) as (D1 & D2 & D3 & D4). assert (Hsum : forall l, sum_valid (sit s') l = sum_valid (sit s) l) by (intros l; apply sum_valid_ext; intros g; by apply dsame_valid_of).
  constructor; rewrite ?D1, ?D2, ?D3, ?D4, ?Hsum; try done.
  - intros g. rewrite (dsame_some s s' g Hd). apply X1.
  - intros g se' E. destruct (dsame_entry s s' g se' Hd E) as (se & E' & Ec). apply core_eq in Ec as (C1 & C2 & C3 & C4 & C5 & C6). destruct (X2 g se E') as [T1 T2 T3 T4 T5]. constructor; rewrite <-?C1, <-?C2, <-?C3, <-?C4, <-?C5; done.
  - intros g se' E Hn. destruct (dsame_entry s s' g se' Hd E) as (se & E' & Ec). apply core_eq in Ec as (C1 & C2 & C3 & C4 & C5 & C6). rewrite <-C4, <-C5. by apply (X3 g).
  - intros Hl c Hc. rewrite Hsum. auto.
Qed.

(** ** Commands *)

(** A command in the area that covers no valid block. *)
Definition spares (s : seg_sys) (cmd : Z * Z) : Prop := forall i, cmd.1 <= i < cmd.1 + cmd.2 -> exists g o, i = blk g o /\ seg_ok g /\ off_ok o /\ ~ valid_at s g o.
Definition all_safe (s : seg_sys) (d : discard_cmd_control) : Prop := forall c, c ∈ issued d -> spares s c.

Lemma dsame_valid_at s s' g o : dsame s s' -> valid_at s' g o <-> valid_at s g o.
Proof. intros Hd. apply maps_valid_at, dsame_maps, Hd. Qed.
Lemma spares_same s s' c : dsame s s' -> spares s' c <-> spares s c.
Proof. intros Hd. unfold spares. split; intros Hs i Hi; destruct (Hs i Hi) as (g & o & E & Hg & Ho & Hv); exists g, o; (split; [done|]; split; [done|]; split; [done|]); by rewrite (dsame_valid_at s s' g o Hd) in *. Qed.

Lemma mark_discarded_ok l : forall s, (forall g, seg_ok g -> is_Some (sentries (sit s) !! g)) -> (forall i, i ∈ l -> exists g o, i = blk g o /\ seg_ok g /\ off_ok o) ->
  exists s', mark_discarded denv l s = Some s' /\ dsame s s' /\ dirt s' = dirt s.
Proof.
  induction l as [|i l IH]; intros s Hdom Hl; cbn [mark_discarded]; [exists s; split; [done|]; split; [apply dsame_refl|done]|]. destruct (Hl i ltac:(set_solver)) as (g & o & -> & Hg & Ho). rewrite get_segno, get_blkoff by done.
  destruct (Hdom g Hg) as [se E]. unfold get_seg_entry. rewrite E. cbn [mbind option_bind]. set (s1 := if _ && _ then _ else s).
  assert (Hd1 : dsame s s1 /\ dirt s1 = dirt s).
  { unfold s1. destruct (_ && _); [|split; [apply dsame_refl|done]]. split; [|done]. constructor; try done. intros h. cbn. destruct (decide (h = g)) as [->|]; [by rewrite lookup_insert_eq, E|by rewrite lookup_insert_ne]. }
  clearbody s1. destruct Hd1 as [Hd1 Ed1]. destruct (IH s1) as (s' & -> & Hd' & Ed'); [intros h Hh; rewrite (dsame_some s s1 h Hd1); auto|set_solver|]. exists s'. split; [done|]. split; [by apply (dsame_trans s s1)|congruence].
Qed.
Lemma issue_ok s d a n : (forall g, seg_ok g -> is_Some (sentries (sit s) !! g)) -> spares s (a, n) ->
  exists s' d', f2fs_issue_discard denv s d a n = Some (s', d') /\ dsame s s' /\ dirt s' = dirt s /\ entry_list d' = entry_list d /\ (all_safe s d -> all_safe s d').
Proof.
  intros Hdom Hsp. unfold f2fs_issue_discard. destruct (mark_discarded_ok (seqZ a n) s Hdom) as (s' & -> & Hd & Ed); [intros i Hi; apply elem_of_seqZ in Hi; destruct (Hsp i Hi) as (g & o & ? & ? & ? & _); eauto|]. cbn [mbind option_bind].
  eexists s', _. split; [done|]. split; [done|]. split; [done|]. destruct (n =? 0); [done|]. split; [done|]. intros Ha c [Hc|Hc]%elem_of_app; [by apply Ha|]. apply list_elem_of_singleton in Hc. by subst c.
Qed.

(** Addresses of a range of segments. *)
Lemma seg_range_addr a b i : 0 <= a < b -> b <= MAIN_SEGS -> START_BLOCK a <= i < START_BLOCK a + (b - a) * blks_per_seg -> exists g o, i = blk g o /\ a <= g < b /\ off_ok o.
Proof.
  intros Hab Hb. rewrite start_block by lia. unfold blk. intros Hi. pose proof bps_range. set (x := i - SEG0_BLKADDR - start_segno * blks_per_seg). assert (Hx : a * blks_per_seg <= x < b * blks_per_seg) by (unfold x; lia).
  assert (Hnz : blks_per_seg <> 0) by lia. pose proof (Z.div_mod x _ Hnz) as Hdm. assert (Hbp : 0 < blks_per_seg) by lia. pose proof (Z.mod_pos_bound x _ Hbp). exists (x / blks_per_seg), (x mod blks_per_seg). split; [unfold x in *; lia|]. split; [|lia].
  split; [apply Z.div_le_lower_bound; lia|apply Z.div_lt_upper_bound; lia].
Qed.
Lemma shift_len n : Z.shiftl n log_blocks_per_seg = n * blks_per_seg.
Proof. pose proof log_range. rewrite Z.shiftl_mul_pow2, <-bps_eq by lia. done. Qed.
Lemma empty_segs_spared s a b : sit_ok (sit s) -> 0 <= a < b -> b <= MAIN_SEGS -> (forall g, a <= g < b -> valid_of (sit s) g = 0) -> spares s (START_BLOCK a, Z.shiftl (b - a) log_blocks_per_seg).
Proof.
  intros Hx Hab Hb Hv i. rewrite shift_len. cbn. intros Hi. destruct (seg_range_addr a b i Hab Hb Hi) as (g & o & -> & Hg & Ho). exists g, o. split; [done|]. split; [lia|]. split; [done|]. intros (se & E & Hin). specialize (Hv g Hg).
  rewrite (valid_of_at _ _ _ E), (eo_valid _ (so_entry _ Hx g se E)) in Hv. assert (Hz : size (cur_valid_map se) = 0%nat) by lia. apply size_zero in Hz. set_solver.
Qed.

(** ** Prefree segments *)

(** The step of one command or of several. *)
Record dcmd (s s' : seg_sys) (d d' : discard_cmd_control) : Prop := {
  dc_same : dsame s s';
  dc_list : entry_list d' = entry_list d;
  dc_safe : all_safe s d -> all_safe s d'
}.
Lemma dcmd_refl s d : dcmd s s d d.
Proof. constructor; [apply dsame_refl|done|done]. Qed.
Lemma all_safe_same s s' d : dsame s s' -> all_safe s' d <-> all_safe s d.
Proof. intros Hd. unfold all_safe. by setoid_rewrite (spares_same s s' _ Hd). Qed.
Lemma dcmd_trans s s1 s2 d d1 d2 : dcmd s s1 d d1 -> dcmd s1 s2 d1 d2 -> dcmd s s2 d d2.
Proof. intros [A1 A2 A3] [B1 B2 B3]. constructor; [by apply (dsame_trans s s1)|congruence|]. intros Ha. rewrite <-(all_safe_same s s1 d2 A1). apply B3. rewrite (all_safe_same s s1 d1 A1). auto. Qed.

Lemma sum_zero x l : sit_ok x -> sum_valid x l = 0 -> forall g, g ∈ l -> valid_of x g = 0.
Proof. intros Hx Hs g Hg. pose proof (sum_valid_at x l g Hx Hg). pose proof (valid_range x g Hx). lia. Qed.
Lemma discard_sections_ok fuel : forall s d c c', sit_ok (sit s) -> is_large_section = true -> 0 <= c < c' -> c' <= MAIN_SECS -> (Z.to_nat (c' - c) <= fuel)%nat ->
  exists s' d', discard_sections denv fuel s d (c * segs_per_sec) (c' * segs_per_sec) = Some (s', d', c' * segs_per_sec - 1) /\ dcmd s s' d d' /\ dirt s' = dirt s.
Proof.
  induction fuel as [|fuel IH]; intros s d c c' Hx Hl Hc Hc' Hf; [lia|]. cbn [discard_sections]. pose proof sec_pos as [Hsp _]. assert (Hcm : 0 <= c < MAIN_SECS) by lia. destruct (sec_first c Hcm) as [Hg Hd]. destruct (sec_of _ Hg) as [-> _]. rewrite Hd, seg_of_sec by lia.
  unfold get_valid_blocks. rewrite Hl. cbn [andb]. destruct (sec_of _ Hg) as [-> _]. rewrite Hd, (so_sec _ Hx Hl c Hcm). cbn [mbind option_bind].
  assert (Hend : c * segs_per_sec + segs_per_sec = (c + 1) * segs_per_sec) by lia. assert (Hm : (c + 1) * segs_per_sec <= MAIN_SEGS) by (unfold MAIN_SEGS; nia). pose proof main_small.
  set (st := if negb (IS_CURSEC s c) && _ then _ else _). assert (Hst : exists s1 d1, st = Some (s1, d1) /\ dcmd s s1 d d1 /\ dirt s1 = dirt s).
  { unfold st. destruct (_ && _) eqn:Ev; [|exists s, d; split; [done|]; split; [apply dcmd_refl|done]]. apply andb_true_iff in Ev as [_ Ev%Z.eqb_eq].
    replace (Z.shiftl segs_per_sec log_blocks_per_seg) with (Z.shiftl ((c + 1) * segs_per_sec - c * segs_per_sec) log_blocks_per_seg) by (f_equal; lia).
    destruct (issue_ok s d (START_BLOCK (c * segs_per_sec)) (Z.shiftl ((c + 1) * segs_per_sec - c * segs_per_sec) log_blocks_per_seg)) as (s1 & d1 & E & D1 & D2 & D3 & D4); [intros g; by apply (so_dom _ Hx)| |exists s1, d1; split; [done|]; split; [by constructor|done]].
    apply empty_segs_spared; [done|lia|done|]. intros g Hgr. apply (sum_zero _ _ Hx Ev). apply elem_of_seqZ. lia. }
  clearbody st. destruct Hst as (s1 & d1 & -> & Hd1 & Ed1). cbn [mbind option_bind]. rewrite u32_small by lia. rewrite Hend. destruct (Z.ltb_spec ((c + 1) * segs_per_sec) (c' * segs_per_sec)) as [Hlt|Hge].
  - destruct (IH s1 d1 (c + 1) c') as (s' & d' & -> & Hd' & Ed'); [apply (dsame_sit_ok s s1); [apply Hd1|done]|done|nia|done|lia|]. exists s', d'. split; [done|]. split; [by apply (dcmd_trans s s1 s' d d1)|congruence].
  - assert (c' = c + 1) as -> by nia. exists s1, d1. done.
Qed.

Lemma clear_pre_ok l : forall d, nr_ok d -> nr_ok (clear_pre l d) /\ dirty_secmap (clear_pre l d) = dirty_secmap d /\ forall t, dirty_segmap (clear_pre l d) t = if decide (t = PRE) then dirty_segmap d PRE ∖ list_to_set l else dirty_segmap d t.
Proof.
  induction l as [|i l IH]; intros d Hn; cbn [clear_pre]; [split; [done|]; split; [done|]; intros t; destruct (decide (t = PRE)) as [->|]; [set_solver|done]|]. destruct (clear_bit_spec d PRE i Hn) as [Hn1 Hm1]. destruct (IH _ Hn1) as (Hn' & Hs' & Hm').
  split; [done|]. split; [rewrite Hs'; unfold clear_dirty_bit; by destruct (decide (i ∈ dirty_segmap d PRE))|]. intros t. rewrite Hm'. destruct (decide (t = PRE)) as [->|]; [rewrite Hm1, decide_True by done; set_solver|by rewrite Hm1, decide_False].
Qed.

(** Discarding whole sections is only done where they are cleaned as a whole. *)
Definition unit_ok : Prop := section_alignment denv = true -> is_large_section = false \/ d_lfs_mode denv = true.
Definition pre_ok (s : seg_sys) : Prop := sit_ok (sit s) /\ nr_ok (dirt s) /\ forall g, g ∈ dirty_segmap (dirt s) PRE -> seg_ok g /\ valid_of (sit s) g = 0.
(** The prefree list is emptied, the others are kept. *)
Definition pre_cleared (d d' : dirty_seglist_info) : Prop :=
  nr_ok d' /\ dirty_secmap d' = dirty_secmap d /\ dirty_segmap d' PRE = ∅ /\ forall t, t <> PRE -> dirty_segmap d' t = dirty_segmap d t.
Definition search_from (end_ : Z) : Z := (if section_alignment denv && negb (end_ =? -1) then end_ - 1 else end_) + 1.

Lemma round_spec a e : 0 <= a < e -> e <= MAIN_SEGS -> let a' := rounddown a segs_per_sec in let e' := roundup e segs_per_sec in
  exists c c', a' = c * segs_per_sec /\ e' = c' * segs_per_sec /\ 0 <= c < c' /\ c' <= MAIN_SECS /\ a' <= a /\ e <= e' /\ (is_large_section = false -> a' = a /\ e' = e).
Proof.
  intros Ha He. unfold rounddown, roundup. pose proof sec_pos as [Hsp _]. assert (Hnz : segs_per_sec <> 0) by lia. pose proof (Z.div_mod a _ Hnz). pose proof (Z.mod_pos_bound a _ Hsp). pose proof (Z.div_mod (e + (segs_per_sec - 1)) _ Hnz). pose proof (Z.mod_pos_bound (e + (segs_per_sec - 1)) _ Hsp).
  exists (a / segs_per_sec), ((e + (segs_per_sec - 1)) / segs_per_sec). assert (0 <= a / segs_per_sec) by (apply Z.div_pos; lia). unfold MAIN_SEGS in He. split; [lia|]. split; [done|]. split; [nia|]. split; [nia|]. split; [lia|]. split; [lia|].
  unfold is_large_section. intros Hl%Z.ltb_ge. assert (Hs1 : segs_per_sec = 1) by lia. rewrite Hs1, Z.mod_1_r, Z.div_1_r. lia.
Qed.

(** A round of the loop: the segments it clears, from [a] to [e]. *)
Definition round_body (fuel : nat) (s : seg_sys) (d : discard_cmd_control) (cpc : cp_control) (a e : Z) : option (seg_sys * discard_cmd_control) :=
  if negb (realtime_discard denv) then clear_prefree_loop denv fuel s d cpc e
  else if cp_discard cpc && (trim_start cpc <=? a) && (e - 1 <=? trim_end cpc) then clear_prefree_loop denv fuel s d cpc e
  else if negb (d_lfs_mode denv) || negb is_large_section
  then '(s, d) ← f2fs_issue_discard denv s d (START_BLOCK a) (Z.shiftl (e - a) log_blocks_per_seg); clear_prefree_loop denv fuel s d cpc e
  else '(s, d, e) ← discard_sections denv (Z.to_nat MAIN_SECS) s d a e; clear_prefree_loop denv fuel s d cpc e.
Record round (s : seg_sys) (a e : Z) : Prop := {
  rd_range : 0 <= a < e /\ e <= MAIN_SEGS;
  rd_some : exists g, a <= g < e /\ g ∈ dirty_segmap (dirt s) PRE;
  rd_exact : is_large_section = false \/ section_alignment denv = false -> forall g, a <= g < e -> g ∈ dirty_segmap (dirt s) PRE;
  rd_sec : section_alignment denv = true -> exists c c', a = c * segs_per_sec /\ e = c' * segs_per_sec /\ 0 <= c < c' /\ c' <= MAIN_SECS;
  rd_rest : forall g, g ∈ dirty_segmap (dirt s) PRE -> ~ a <= g < e -> e <= g /\ (section_alignment denv = false -> e < g)
}.
Definition cleared (s : seg_sys) (a e : Z) : seg_sys := with_dirt s (clear_pre (seqZ a (e - a)) (dirt s)).
Lemma round_ok cpc fuel s d end_ : pre_ok s -> -1 <= end_ -> (forall g, g ∈ dirty_segmap (dirt s) PRE -> search_from end_ <= g) ->
  dirty_segmap (dirt s) PRE = ∅ /\ clear_prefree_loop denv (S fuel) s d cpc end_ = Some (s, d) \/
  exists a e, round s a e /\ clear_prefree_loop denv (S fuel) s d cpc end_ = round_body fuel (cleared s a e) d cpc a e.
Proof.
  intros (Hx & Hnr & Hpre) Hend Hfrom. cbn [clear_prefree_loop]. fold (search_from end_). set (q := search_from end_) in *. set (pre := dirty_segmap (dirt s) PRE) in *. pose proof main_pos as Hmp. pose proof sec_pos as [Hsp _].
  assert (Hq : 0 <= q) by (unfold q, search_from; destruct (section_alignment denv), (Z.eqb_spec end_ (-1)); cbn; lia).
  destruct (Z.leb_spec MAIN_SEGS (next_set pre MAIN_SEGS q)) as [Hge|Hlt].
  { left. split; [|done]. apply set_eq. intros g. split; [|set_solver]. intros Hg. exfalso. destruct (Hpre g Hg) as [Hr _]. specialize (Hfrom g Hg).
    assert (Hqm : q < MAIN_SEGS) by lia. destruct (next_set_spec pre MAIN_SEGS q Hqm) as (N1 & N2 & N3). apply (N3 g); [lia|done]. }
  right. destruct (Z.lt_ge_cases q MAIN_SEGS) as [Hqm|]; [|rewrite next_set_end in Hlt by done; lia]. destruct (next_set_spec pre MAIN_SEGS q Hqm) as (N1 & N2 & N3). set (a := next_set pre MAIN_SEGS q) in *. specialize (N2 Hlt). clearbody a.
  assert (He : a < next_zero pre MAIN_SEGS (a + 1) <= MAIN_SEGS /\ (forall g, a <= g < next_zero pre MAIN_SEGS (a + 1) -> g ∈ pre) /\ next_zero pre MAIN_SEGS (a + 1) ∉ pre).
  { assert (Hout : MAIN_SEGS ∉ pre) by (intros Hin; apply Hpre in Hin; lia). destruct (Z.lt_ge_cases (a + 1) MAIN_SEGS) as [Hl|Hg].
    - destruct (next_zero_spec pre MAIN_SEGS (a + 1) Hl) as (M1 & M2 & M3). split; [lia|]. split; [intros g Hg; destruct (decide (g = a)) as [->|]; [done|apply M3; lia]|]. destruct (Z.lt_ge_cases (next_zero pre MAIN_SEGS (a + 1)) MAIN_SEGS); [auto|]. by replace (next_zero pre MAIN_SEGS (a + 1)) with MAIN_SEGS by lia.
    - rewrite next_zero_end by done. split; [lia|]. split; [|done]. intros g Hgr. by replace g with a by lia. }
  set (e := next_zero pre MAIN_SEGS (a + 1)) in *. clearbody e. destruct He as (He1 & He2 & He3).
  set (al := section_alignment denv) in *. set (ran := if al then _ else (a, e)).
  assert (Hran : exists a' e', ran = (a', e') /\ 0 <= a' <= a /\ e <= e' <= MAIN_SEGS /\ (is_large_section = false \/ al = false -> a' = a /\ e' = e) /\ (al = true -> exists c c', a' = c * segs_per_sec /\ e' = c' * segs_per_sec /\ 0 <= c < c' /\ c' <= MAIN_SECS)).
  { unfold ran. destruct al; [|exists a, e; split; [done|]; split; [lia|]; split; [lia|]; split; [done|done]]. destruct (round_spec a e) as (c & c' & R1 & R2 & R3 & R4 & R5 & R6 & R7); [lia|lia|].
    eexists _, _. split; [done|]. split; [split; [rewrite R1; nia|done]|]. split; [split; [done|rewrite R2; unfold MAIN_SEGS; nia]|]. split; [intros [Hl|]; [auto|done]|]. intros _. eauto 10. }
  clearbody ran. destruct Hran as (a' & e' & -> & Ha' & He' & Hsame & Hsec). exists a', e'. split; [|done]. constructor; fold pre; fold al.
  - lia.
  - exists a. split; [lia|done].
  - intros Hor. destruct (Hsame Hor) as [-> ->]. done.
  - done.
  - intros g Hg Hn. specialize (Hfrom g Hg). assert (a <= g) by (destruct (Z.lt_ge_cases g a); [exfalso; by apply (N3 g); [lia|]|done]). split; [lia|]. intros Hal. destruct Hsame as [-> ->]; [by right|]. assert (g <> e) by (intros ->; done). lia.
Qed.

(** The state after a round, and where the next one searches. *)
Lemma cleared_ok s a e : pre_ok s -> round s a e ->
  pre_ok (cleared s a e) /\ dsame s (cleared s a e) /\ (size (dirty_segmap (dirt (cleared s a e)) PRE) < size (dirty_segmap (dirt s) PRE))%nat /\
  (forall g, g ∈ dirty_segmap (dirt (cleared s a e)) PRE <-> g ∈ dirty_segmap (dirt s) PRE /\ ~ a <= g < e) /\
  (forall d', pre_cleared (dirt (cleared s a e)) d' -> pre_cleared (dirt s) d') /\
  forall n, -1 <= n -> (n = e \/ n = e - 1 /\ section_alignment denv = true) -> forall g, g ∈ dirty_segmap (dirt (cleared s a e)) PRE -> search_from n <= g.
Proof.
  intros (Hx & Hnr & Hpre) [[R1 R2] (x & Hxr & Hxp) _ _ R5]. destruct (clear_pre_ok (seqZ a (e - a)) (dirt s) Hnr) as (Hnr1 & Hsm1 & Hdm1).
  assert (Hpre1 : forall g, g ∈ dirty_segmap (dirt (cleared s a e)) PRE <-> g ∈ dirty_segmap (dirt s) PRE /\ ~ a <= g < e).
  { intros g. cbn. rewrite Hdm1, decide_True by done. rewrite elem_of_difference, elem_of_list_to_set, elem_of_seqZ. replace (a + (e - a)) with e by lia. done. }
  split; [split; [done|]; split; [done|]; intros g [Hg _]%Hpre1; by apply Hpre|]. split; [by constructor|]. split; [|split; [done|split]].
  - assert (Hss : {[x]} ∪ dirty_segmap (dirt (cleared s a e)) PRE ⊆ dirty_segmap (dirt s) PRE) by (intros g [->%elem_of_singleton|Hg]%elem_of_union; [done|by apply Hpre1 in Hg as [? _]]). apply subseteq_size in Hss. rewrite size_union, size_singleton in Hss; [lia|].
    intros g Hga Hg. apply elem_of_singleton in Hga as ->. apply Hpre1 in Hg as [_ Hg]. done.
  - intros d' (C1 & C2 & C3 & C4). split; [done|]. cbn in C2, C4. split; [congruence|]. split; [done|]. intros t Ht. rewrite C4, Hdm1, decide_False by done. done.
  - intros n Hn Hor g [Hg Ho]%Hpre1. destruct (R5 g Hg Ho) as [G1 G2]. unfold search_from. destruct (section_alignment denv); cbn; [destruct (Z.eqb_spec n (-1)); cbn; lia|]. specialize (G2 eq_refl). destruct Hor as [|[_ ?]]; [lia|done].
Qed.

Lemma clear_prefree_ok cpc fuel : unit_ok -> forall s d end_, pre_ok s -> -1 <= end_ -> (forall g, g ∈ dirty_segmap (dirt s) PRE -> search_from end_ <= g) -> (size (dirty_segmap (dirt s) PRE) < fuel)%nat ->
  exists s' d', clear_prefree_loop denv fuel s d cpc end_ = Some (s', d') /\ dcmd s s' d d' /\ pre_cleared (dirt s) (dirt s').
Proof.
  intros Hu. induction fuel as [|fuel IH]; intros s d end_ Hok Hend Hfrom Hf; [lia|]. destruct (round_ok cpc fuel s d end_ Hok Hend Hfrom) as [[Hempty ->]|(a & e & Hr & ->)]; [exists s, d; split; [done|]; split; [apply dcmd_refl|]; split; [apply Hok|done]|].
  destruct (cleared_ok s a e Hok Hr) as (Hok1 & Hs1 & Hsz & _ & Hdc & Hnext). destruct Hr as [[R1 R2] _ R3 R4 _]. pose proof sec_pos as [Hsp _]. set (s1 := cleared s a e) in *.
  assert (Hgo : forall s2 d2 n, dcmd s1 s2 d d2 -> dirt s2 = dirt s1 -> -1 <= n -> (n = e \/ n = e - 1 /\ section_alignment denv = true) -> exists s' d', clear_prefree_loop denv fuel s2 d2 cpc n = Some (s', d') /\ dcmd s s' d d' /\ pre_cleared (dirt s) (dirt s')).
  { intros s2 d2 n Hd2 E2 Hn Hor. destruct (IH s2 d2 n) as (s' & d' & -> & Hd' & Hc').
    - destruct Hok1 as (O1 & O2 & O3). split; [apply (dsame_sit_ok s1 s2); [apply Hd2|done]|]. rewrite E2. split; [done|]. intros g Hg. rewrite (dsame_valid_of s1 s2 g) by apply Hd2. auto.
    - done.
    - rewrite E2. by apply Hnext.
    - rewrite E2. lia.
    - exists s', d'. split; [done|]. split; [|rewrite E2 in Hc'; by apply Hdc]. apply (dcmd_trans s s1 s' d d); [constructor; [done|done|done]|]. by apply (dcmd_trans s1 s2 s' d d2). }
  destruct Hok as (Hx & _ & Hpre). unfold round_body. destruct (negb (realtime_discard denv)); [apply Hgo; [apply dcmd_refl|done|lia|by left]|]. destruct (_ && _ && _); [apply Hgo; [apply dcmd_refl|done|lia|by left]|].
  assert (Hdom1 : forall g, seg_ok g -> is_Some (sentries (sit s1) !! g)) by (intros g; by apply (so_dom _ Hx)).
  destruct (negb (d_lfs_mode denv) || negb is_large_section) eqn:Em.
  - assert (Hn : is_large_section = false \/ section_alignment denv = false). { destruct (section_alignment denv) eqn:Eal; [left|by right]. destruct (Hu Eal) as [|Hlf]; [done|]. rewrite Hlf in Em. cbn in Em. by apply negb_true_iff in Em. }
    destruct (issue_ok s1 d (START_BLOCK a) (Z.shiftl (e - a) log_blocks_per_seg) Hdom1) as (s2 & d2 & -> & D1 & D2 & D3 & D4).
    { apply empty_segs_spared; [done|lia|lia|]. intros g Hg. apply Hpre. by apply R3. }
    cbn [mbind option_bind]. apply Hgo; [by constructor|done|lia|by left].
  - apply orb_false_iff in Em as [Em1%negb_false_iff Em2%negb_false_iff]. assert (Hal : section_alignment denv = true) by (unfold section_alignment; rewrite Em1, Em2; by destruct (discard_unit denv)). destruct (R4 Hal) as (c & c' & -> & -> & Hc & Hc').
    destruct (discard_sections_ok (Z.to_nat MAIN_SECS) s1 d c c' Hx Em2 Hc Hc' ltac:(lia)) as (s2 & d2 & -> & Hd2 & E2). cbn [mbind option_bind]. apply Hgo; [done|done|nia|by right].
Qed.

(** ** Small discards *)

Lemma entry_loop_ok cpc g m fuel : seg_ok g -> forall s d c n v, sit_ok (sit s) -> (forall o, o ∈ m -> off_ok o /\ ~ valid_at s g o) -> off_ok c -> v = bool_decide (c ∈ m) -> (Z.to_nat (blks_per_seg - c) <= fuel)%nat ->
  exists s' d' n', entry_loop denv fuel s d cpc (START_BLOCK g) m c n v = Some (s', d', n') /\ dcmd s s' d d' /\ dirt s' = dirt s.
Proof.
  intros Hg. induction fuel as [|fuel IH]; intros s d c n v Hx Hm Hc Hv Hf; [lia|]. cbn [entry_loop]. destruct (run_spec m c v Hc Hv) as (R1 & R2 & R3). set (x := if v then _ else _) in *. clearbody x.
  set (st := if v && _ then _ else _). assert (Hst : exists s1 d1 n1, st = Some (s1, d1, n1) /\ dcmd s s1 d d1 /\ dirt s1 = dirt s).
  { unfold st. destruct v; cbn [andb]; [|exists s, d, n; split; [done|]; split; [apply dcmd_refl|done]]. destruct (cp_discard cpc && (x - c <? trim_minlen cpc)); cbn [negb]; [exists s, d, n; split; [done|]; split; [apply dcmd_refl|done]|].
    assert (Ea : START_BLOCK g +! c = blk g c). { rewrite start_block by done. unfold blk. rewrite Z.add_0_r. apply u32_small. pose proof (blk_range g c Hg Hc) as Hb. pose proof area_pos. pose proof bps_range. unfold blk in Hb. nia. }
    rewrite Ea. destruct (issue_ok s d (blk g c) (x - c)) as (s1 & d1 & -> & D1 & D2 & D3 & D4); [intros h; by apply (so_dom _ Hx)| |cbn [mbind option_bind]; exists s1, d1, (n + (x - c)); split; [done|]; split; [by constructor|done]].
    intros i. cbn. intros Hi. exists g, (i - blk g 0). assert (i - blk g 0 ∈ m) as Hin by (apply R2; [unfold blk in *; lia|done]). destruct (Hm _ Hin). split; [unfold blk; lia|]. split; [done|]. split; [done|]. done. }
  clearbody st. destruct Hst as (s1 & d1 & n1 & -> & Hd1 & E1). cbn [mbind option_bind]. destruct (Z.ltb_spec x blks_per_seg) as [Hlt|]; [|exists s1, d1, n1; done].
  destruct (IH s1 d1 x n1 (negb v)) as (s' & d' & n' & -> & Hd' & E'); [apply (dsame_sit_ok s s1); [apply Hd1|done]| |lia|by apply R3|lia|].
  - intros o Ho. destruct (Hm o Ho). split; [done|]. by rewrite (dsame_valid_at s s1 g o) by apply Hd1.
  - exists s', d', n'. split; [done|]. split; [by apply (dcmd_trans s s1 s' d d1)|congruence].
Qed.
Lemma small_discards_ok cpc l : forall s d, sit_ok (sit s) -> (forall a m, (a, m) ∈ l -> exists g, seg_ok g /\ a = START_BLOCK g /\ forall o, o ∈ m -> off_ok o /\ ~ valid_at s g o) ->
  exists s' d', small_discards denv l s d cpc = Some (s', d') /\ dsame s s' /\ dirt s' = dirt s /\ (entry_list d = l -> entry_list d' = []) /\ (all_safe s d -> all_safe s d').
Proof.
  induction l as [|[a m] l IH]; intros s d Hx Hl; cbn [small_discards]; [exists s, d; split; [done|]; split; [apply dsame_refl|done]|]. destruct (Hl a m ltac:(set_solver)) as (g & Hg & -> & Hm). pose proof bps_range.
  destruct (entry_loop_ok cpc g m (S (Z.to_nat blks_per_seg)) Hg s d 0 0 (bool_decide (0 ∈ m)) Hx Hm ltac:(lia) eq_refl ltac:(lia)) as (s1 & d1 & n1 & -> & Hd1 & E1). cbn [mbind option_bind]. pose proof (dc_same _ _ _ _ Hd1) as Hs1.
  destruct (IH s1 {| entry_list := l; nr_discards := nr_discards d1 - n1; issued := issued d1 |}) as (s' & d' & -> & Hd' & E' & El & Ha); [by apply (dsame_sit_ok s s1)| |].
  - intros a' m' Hin. destruct (Hl a' m' ltac:(set_solver)) as (h & Hh & -> & Hm'). exists h. split; [done|]. split; [done|]. intros o Ho. destruct (Hm' o Ho). split; [done|]. by rewrite (dsame_valid_at s s1 h o).
  - exists s', d'. split; [done|]. split; [by apply (dsame_trans s s1)|]. split; [congruence|]. split; [auto|]. intros Has. rewrite <-(all_safe_same s s1 d' Hs1). apply Ha. rewrite <-(all_safe_same s s1 _ Hs1) in Has. apply (all_safe_same s s1 d Hs1) in Has. intros c Hc. cbn in Hc. apply (spares_same s s1 c Hs1). by apply (dc_safe _ _ _ _ Hd1).
Qed.

Lemma clear_segments_ok cpc s d : unit_ok -> pre_ok s -> dcc_ok s d ->
  exists s' d', f2fs_clear_prefree_segments denv s d cpc = Some (s', d') /\ dsame s s' /\ pre_cleared (dirt s) (dirt s') /\ (all_safe s d -> all_safe s d') /\ dcc_ok s' d' /\
    entry_list d' = if f2fs_block_unit_discard denv then [] else entry_list d.
Proof.
  intros Hu Hp Hd. unfold f2fs_clear_prefree_segments. destruct Hp as (P1 & P2 & P3). destruct (clear_prefree_ok cpc (S (Z.to_nat MAIN_SEGS)) Hu s d (-1)) as (s1 & d1 & -> & [D1 D2 D3] & Hc).
  - done.
  - lia.
  - intros g Hg. destruct (P3 g Hg). unfold search_from. rewrite andb_false_r. lia.
  - pose proof (map_size (dirty_segmap (dirt s) PRE) MAIN_SEGS) as Hsz. pose proof main_pos. apply Nat.lt_succ_r. apply Nat2Z.inj_le. rewrite Z2Nat.id by lia. apply Hsz; [lia|]. intros g Hg. by apply P3.
  - cbn [mbind option_bind]. assert (Hd1 : dcc_ok s1 d1). { intros a m Hin. rewrite D2 in Hin. destruct (Hd a m Hin) as (g & Hg & -> & Hm). exists g. split; [done|]. split; [done|]. intros o Ho. destruct (Hm o Ho). split; [done|]. by rewrite (dsame_valid_at s s1 g o). }
    destruct (f2fs_block_unit_discard denv); [|exists s1, d1; done]. destruct (small_discards_ok cpc (entry_list d1) s1 d1) as (s' & d' & -> & E1 & E2 & E3 & E4); [by apply (dsame_sit_ok s s1)|done|].
    exists s', d'. split; [done|]. split; [by apply (dsame_trans s s1)|]. split; [by rewrite E2|]. split; [|split; [intros a m; rewrite E3 by done; set_solver|by apply E3]]. intros Ha. rewrite <-(all_safe_same s s1 d' D1). apply E4. rewrite (all_safe_same s s1 d1 D1). auto.
Qed.
(** ** Whole sections (discard_unit=section) *)

(** A command covers the block. *)
Definition discards (d : discard_cmd_control) (a : Z) : Prop := exists c, c ∈ issued d /\ c.1 <= a < c.1 + c.2.
(** With prefree segments of large sections, the command is sent without looking at the
    rest of the section. *)
Definition whole_sections (cpc : cp_control) : Prop := discard_unit denv = DISCARD_UNIT_SECTION /\ d_lfs_mode denv = false /\ realtime_discard denv = true /\ cp_discard cpc = false.

Lemma issue_range s d a e : (forall g, seg_ok g -> is_Some (sentries (sit s) !! g)) -> 0 <= a < e -> e <= MAIN_SEGS ->
  exists s' d', f2fs_issue_discard denv s d (START_BLOCK a) (Z.shiftl (e - a) log_blocks_per_seg) = Some (s', d') /\ dsame s s' /\ dirt s' = dirt s /\
    (forall x, discards d x -> discards d' x) /\ forall g o, a <= g < e -> off_ok o -> discards d' (blk g o).
Proof.
  intros Hdom Ha He. pose proof bps_range. unfold f2fs_issue_discard. destruct (mark_discarded_ok (seqZ (START_BLOCK a) (Z.shiftl (e - a) log_blocks_per_seg)) s Hdom) as (s' & -> & Hs & Ed).
  { intros i Hi. apply elem_of_seqZ in Hi. rewrite shift_len in Hi. destruct (seg_range_addr a e i Ha He Hi) as (g & o & ? & ? & ?). exists g, o. split; [done|]. split; [lia|done]. }
  cbn [mbind option_bind]. rewrite shift_len. destruct (Z.eqb_spec ((e - a) * blks_per_seg) 0) as [Ez|_]; [nia|]. eexists s', _. split; [done|]. split; [done|]. split; [done|]. split.
  - intros x (c & Hc & Hx). exists c. split; [cbn; set_solver|done].
  - intros g o Hg Ho. exists (START_BLOCK a, (e - a) * blks_per_seg). split; [cbn; set_solver|]. rewrite start_block by lia. unfold blk. cbn. nia.
Qed.
Lemma sections_hit cpc fuel : whole_sections cpc -> forall s d end_, pre_ok s -> -1 <= end_ -> (forall g, g ∈ dirty_segmap (dirt s) PRE -> search_from end_ <= g) -> (size (dirty_segmap (dirt s) PRE) < fuel)%nat ->
  exists s' d', clear_prefree_loop denv fuel s d cpc end_ = Some (s', d') /\ dsame s s' /\ (forall x, discards d x -> discards d' x) /\
    forall g h o, g ∈ dirty_segmap (dirt s) PRE -> seg_ok h -> h / segs_per_sec = g / segs_per_sec -> off_ok o -> discards d' (blk h o).
Proof.
  intros (W1 & W2 & W3 & W4). induction fuel as [|fuel IH]; intros s d end_ Hok Hend Hfrom Hf; [lia|].
  destruct (round_ok cpc fuel s d end_ Hok Hend Hfrom) as [[Hempty ->]|(a & e & Hr & ->)]; [exists s, d; split; [done|]; split; [apply dsame_refl|]; split; [done|]; rewrite Hempty; set_solver|].
  destruct (cleared_ok s a e Hok Hr) as (Hok1 & Hs1 & Hsz & Hpre1 & _ & Hnext). destruct Hr as [[R1 R2] _ _ R4 _]. pose proof sec_pos as [Hsp _]. set (s1 := cleared s a e) in *.
  unfold round_body. rewrite W2, W3, W4. cbn [negb andb orb]. destruct Hok1 as (O1 & O2 & O3). destruct (issue_range s1 d a e) as (s2 & d2 & -> & Hs2 & Ed & Hk & Hh); [intros g; by apply (so_dom _ O1)|done|done|].
  cbn [mbind option_bind]. destruct (IH s2 d2 e) as (s' & d' & -> & Hs' & Hk' & Hh').
  - split; [by apply (dsame_sit_ok s1 s2)|]. rewrite Ed. split; [done|]. intros g Hg. rewrite (dsame_valid_of s1 s2 g) by done. auto.
  - lia.
  - rewrite Ed. apply Hnext; [lia|by left].
  - rewrite Ed. lia.
  - exists s', d'. split; [done|]. split; [apply (dsame_trans s s1); [done|by apply (dsame_trans s1 s2)]|]. split; [auto|]. intros g h o Hg Hr Hsec Ho. destruct (decide (a <= g < e)) as [Hin|Hout]; [|apply (Hh' g); [rewrite Ed; by apply Hpre1|done..]].
    apply Hk', Hh; [|done]. destruct R4 as (c & c' & -> & -> & _ & _); [unfold section_alignment; by rewrite W1|]. assert (Hq : c <= h / segs_per_sec < c') by (rewrite Hsec; split; [apply Z.div_le_lower_bound; lia|apply Z.div_lt_upper_bound; lia]). assert (Hnz : segs_per_sec <> 0) by lia. pose proof (Z.div_mod h _ Hnz). pose proof (Z.mod_pos_bound h _ Hsp). nia.
Qed.
End clear.

(** ** A checkpoint of the segment manager *)

Section ckpt.
Context `{SitFormat} (denv : discard_env).
Notation seg_ok g := (0 <= g < MAIN_SEGS).
Notation off_ok o := (0 <= o < blks_per_seg).
Notation log_ok t := (0 <= t < NO_CHECK_TYPE).
Notation bitmap s := (dirty_sentries_bitmap (sit s)).

(** ** Prefree segments become free *)

(** The segments of the logs are in use. *)
Definition logs_used (s : seg_sys) (m : gset Z) : Prop := forall t, log_ok t -> seg_ok (segno (CURSEG_I s t)) /\ segno (CURSEG_I s t) ∈ m \/ segno (CURSEG_I s t) = NULL_SEGNO.
Lemma null_sec c : 0 <= c < MAIN_SECS -> NULL_SEGNO / segs_per_sec <> c.
Proof.
  intros Hc E. pose proof main_small as Hm. pose proof sec_pos as [Hs _]. assert (Hnz : segs_per_sec <> 0) by lia. pose proof (Z.div_mod NULL_SEGNO _ Hnz) as Hd. pose proof (Z.mod_pos_bound NULL_SEGNO _ Hs). unfold MAIN_SEGS, NULL_SEGNO in *. nia.
Qed.
Lemma prefree_loop_ok l : NoDup l -> forall s, free_ok (fre s) -> (forall g, g ∈ l -> seg_ok g /\ g ∈ free_segmap (fre s) /\ IS_CURSEG s g = false) -> logs_used s (free_segmap (fre s)) ->
  exists f', prefree_loop l s = with_fre s f' /\ free_ok f' /\ free_segmap f' = free_segmap (fre s) ∖ list_to_set l.
Proof.
  induction 1 as [|g l Hg Hn IH]; intros s Hf Hl Hu; cbn [prefree_loop]; [exists (fre s); split; [by destruct s|]; split; [done|set_solver]|].
  destruct (Hl g ltac:(set_solver)) as (Hr & Huse & Hc). rewrite curseg_not in Hc. destruct (sec_of g Hr) as [Es Hsr]. rewrite Es.
  destruct (test_and_free_ok (IS_CURSEC s (g / segs_per_sec)) (fre s) g false Hf Hr Huse) as [Hf1 Hm1].
  { intros Ht. cbn [negb andb] in Ht. unfold IS_CURSEC in Ht. apply existsb_exists in Ht as (t & Ht & Et%Z.eqb_eq). apply in_types in Ht. destruct (Hu t Ht) as [[U1 U2]|U]; [exists (segno (CURSEG_I s t)); split; [by apply Hc|done]|]. rewrite U in Et. by destruct (null_sec _ Hsr). }
  set (f1 := __set_test_and_free _ (fre s) g false) in *. destruct (IH (with_fre s f1)) as (f' & -> & Hf' & Hm'); [done| | |].
  - intros h Hh. destruct (Hl h ltac:(set_solver)) as (? & ? & ?). split; [done|]. split; [|done]. cbn. rewrite Hm1. assert (h <> g) by (intros ->; done). set_solver.
  - intros t Ht. cbn. rewrite Hm1. specialize (Hc t Ht). destruct (Hu t Ht) as [[? ?]|]; [left; split; [done|set_solver]|by right].
  - exists f'. split; [done|]. split; [done|]. rewrite Hm'. cbn. rewrite Hm1. set_solver.
Qed.

(** ** Logs that are not in the checkpoint *)

(** The segment of such a log is free in the checkpoint if it has no valid block. *)
Definition unsaved (s : seg_sys) (t : Z) : gset Z := if inited (CURSEG_I s t) && (valid_of (sit s) (segno (CURSEG_I s t)) =? 0) then {[segno (CURSEG_I s t)]} else ∅.
(** Only cached summaries of logs have been written. *)
Definition sums_written (s : seg_sys) (a : Z -> Z -> f2fs_summary) : Prop :=
  forall g, seg_ok g -> IS_CURSEG s g = false -> a (GET_SUM_BLOCK g) = ssa s (GET_SUM_BLOCK g).

(** The summary area once the log is saved. *)
Definition saved (s : seg_sys) (t : Z) (a : Z -> Z -> f2fs_summary) : Z -> Z -> f2fs_summary :=
  if inited (CURSEG_I s t) && negb (valid_of (sit s) (segno (CURSEG_I s t)) =? 0) then upd a (GET_SUM_BLOCK (segno (CURSEG_I s t))) (sum_blk (CURSEG_I s t)) else a.
Lemma save_ok s t a f : log_ok t -> sit_ok (sit s) -> free_ok f -> (inited (CURSEG_I s t) = true -> seg_ok (segno (CURSEG_I s t)) /\ segno (CURSEG_I s t) ∈ free_segmap f) -> sums_written s a ->
  exists a' f', __f2fs_save_inmem_curseg (with_ssa (with_fre s f) a (CP_ERROR s)) t = Some (with_ssa (with_fre s f') a' (CP_ERROR s)) /\ free_ok f' /\ free_segmap f' = free_segmap f ∖ unsaved s t /\ sums_written s a' /\ a' = saved s t a.
Proof.
  intros Ht Hx Hf Hc Ha. unfold __f2fs_save_inmem_curseg, unsaved, saved. cbn [CURSEG_I with_ssa with_fre]. destruct (inited (CURSEG_I s t)) eqn:Ei; cbn [negb andb]; [|exists a, f; split; [done|]; split; [done|]; split; [set_solver|done]].
  destruct (Hc eq_refl) as [Hg Hu]. destruct (proj2 (so_dom _ Hx _) Hg) as [se E]. unfold get_valid_blocks, get_seg_entry. cbn [sit with_ssa with_fre]. rewrite E. cbn [andb fmap option_fmap option_map mbind option_bind]. rewrite (valid_of_at _ _ _ E).
  destruct (Z.eqb_spec (valid_blocks se) 0) as [Hz|Hnz]; cbn [negb].
  - destruct (test_and_free_ok (IS_CURSEC s (GET_SEC_FROM_SEG (segno (CURSEG_I s t)))) f (segno (CURSEG_I s t)) true Hf Hg Hu) as [Hf1 Hm1]; [done|]. exists a. eexists. split; [reflexivity|]. done.
  - eexists _, f. split; [reflexivity|]. split; [done|]. split; [set_solver|]. split; [|done]. intros g Hgr Hn. cbn. unfold upd. rewrite decide_False; [by apply Ha|]. intros Eq. pose proof main_small. apply sum_block_inj in Eq; [|lia|lia]. rewrite curseg_not in Hn. by apply (Hn t Ht).
Qed.
Lemma restore_ok s t f : log_ok t -> sit_ok (sit s) -> free_ok f -> (inited (CURSEG_I s t) = true -> seg_ok (segno (CURSEG_I s t))) -> 
  exists f', __f2fs_restore_inmem_curseg (with_fre s f) t = Some (with_fre s f') /\ free_ok f' /\ free_segmap f' = free_segmap f ∪ unsaved s t.
Proof.
  intros Ht Hx Hf Hc. unfold __f2fs_restore_inmem_curseg, unsaved. cbn [CURSEG_I with_fre]. destruct (inited (CURSEG_I s t)) eqn:Ei; cbn [negb andb]; [|exists f; split; [done|]; split; [done|set_solver]].
  specialize (Hc eq_refl). destruct (proj2 (so_dom _ Hx _) Hc) as [se E]. unfold get_valid_blocks, get_seg_entry. cbn [sit with_fre]. rewrite E. cbn [andb fmap option_fmap option_map mbind option_bind]. rewrite (valid_of_at _ _ _ E).
  destruct (Z.eqb_spec (valid_blocks se) 0) as [Hz|Hnz]; cbn [negb].
  - destruct (test_and_inuse_ok f (segno (CURSEG_I s t)) Hf Hc) as [Hf1 Hm1]. exists (__set_test_and_inuse f (segno (CURSEG_I s t))). split; [done|]. split; [done|]. rewrite Hm1. set_solver.
  - eexists. split; [reflexivity|]. split; [done|set_solver].
Qed.
Definition all_unsaved (atgc : bool) (s : seg_sys) : gset Z := unsaved s CURSEG_COLD_DATA_PINNED ∪ if atgc then unsaved s CURSEG_ALL_DATA_ATGC else ∅.

Lemma unsaved_in s t g : g ∈ unsaved s t -> g = segno (CURSEG_I s t) /\ inited (CURSEG_I s t) = true.
Proof. unfold unsaved. destruct (inited (CURSEG_I s t)); cbn [andb]; [destruct (_ =? 0)|]; set_solver. Qed.
Lemma save_all_ok atgc X s s0 f : seg_inv X s0 -> CURSEG_I s = CURSEG_I s0 -> sit_ok (sit s) -> free_ok f -> (forall t, log_ok t -> inited (CURSEG_I s0 t) = true -> segno (CURSEG_I s0 t) ∈ free_segmap f) ->
  exists a' f', f2fs_save_inmem_curseg atgc (with_fre s f) = Some (with_ssa (with_fre s f') a' (CP_ERROR s)) /\ free_ok f' /\ free_segmap f' = free_segmap f ∖ all_unsaved atgc s /\ sums_written s a' /\
    a' = (if atgc then saved s CURSEG_ALL_DATA_ATGC else id) (saved s CURSEG_COLD_DATA_PINNED (ssa s)).
Proof.
  intros Hi Ec Hx Hf Hu. assert (Hok : forall t, log_ok t -> inited (CURSEG_I s t) = true -> seg_ok (segno (CURSEG_I s t))) by (intros t Ht; rewrite Ec; intros Hin; by apply (co_seg _ _ (si_cur _ _ Hi t Ht))).
  unfold f2fs_save_inmem_curseg. replace (with_fre s f) with (with_ssa (with_fre s f) (ssa s) (CP_ERROR s)) by (by destruct s).
  destruct (save_ok s CURSEG_COLD_DATA_PINNED (ssa s) f) as (a1 & f1 & -> & Hf1 & Hm1 & Ha1 & Ea1); [done|done|done|intros Hin; split; [by apply Hok|rewrite Ec in *; by apply Hu]|done|]. cbn [mbind option_bind]. unfold all_unsaved.
  destruct atgc; [|exists a1, f1; split; [done|]; split; [done|]; split; [by rewrite Hm1, union_empty_r_L|done]].
  destruct (save_ok s CURSEG_ALL_DATA_ATGC a1 f1) as (a2 & f2 & -> & Hf2 & Hm2 & Ha2 & Ea2); [done|done|done| |done|].
  - intros Hin. split; [by apply Hok|]. rewrite Hm1. apply elem_of_difference. split; [rewrite Ec in *; by apply Hu|]. intros [Eq Hin2]%unsaved_in. rewrite Ec in *. by apply (si_cur_ne _ _ Hi CURSEG_ALL_DATA_ATGC CURSEG_COLD_DATA_PINNED) in Eq.
  - exists a2, f2. split; [done|]. split; [done|]. split; [rewrite Hm2, Hm1; set_solver|]. split; [done|]. by rewrite Ea2, Ea1.
Qed.
Lemma restore_all_ok atgc X s s0 f : seg_inv X s0 -> CURSEG_I s = CURSEG_I s0 -> sit_ok (sit s) -> free_ok f ->
  exists f', f2fs_restore_inmem_curseg atgc (with_fre s f) = Some (with_fre s f') /\ free_ok f' /\ free_segmap f' = free_segmap f ∪ all_unsaved atgc s.
Proof.
  intros Hi Ec Hx Hf. assert (Hok : forall t, log_ok t -> inited (CURSEG_I s t) = true -> seg_ok (segno (CURSEG_I s t))) by (intros t Ht; rewrite Ec; intros Hin; by apply (co_seg _ _ (si_cur _ _ Hi t Ht))).
  unfold f2fs_restore_inmem_curseg. destruct (restore_ok s CURSEG_COLD_DATA_PINNED f) as (f1 & -> & Hf1 & Hm1); [done|done|done|by apply Hok|]. cbn [mbind option_bind]. unfold all_unsaved.
  destruct atgc; [|exists f1; split; [done|]; split; [done|]; by rewrite Hm1, union_empty_r_L]. destruct (restore_ok s CURSEG_ALL_DATA_ATGC f1) as (f2 & -> & Hf2 & Hm2); [done|done|done|by apply Hok|]. exists f2. split; [done|]. split; [done|]. rewrite Hm2, Hm1. set_solver.
Qed.
(** ** The checkpoint *)

(** What is valid stays valid, and only that is kept; the logs go on where they are. *)
Record checkpointed (s s' : seg_sys) : Prop := {
  ck_ent : forall g, core <$> sentries (sit s') !! g = core ∘ snap <$> sentries (sit s) !! g;
  ck_sit : sit_ok (sit s');
  ck_clean : bitmap s' = ∅;
  ck_fre : free_ok (fre s') /\ free_segmap (fre s') = free_segmap (fre s) ∖ dirty_segmap (dirt s) PRE;
  ck_dirt : pre_cleared (dirt s) (dirt s');
  ck_cur : CURSEG_I s' = CURSEG_I s;
  ck_vict : vict s' = vict s;
  ck_sums : sums_written s (ssa s');
  ck_cp : CP_DISABLED s' = CP_DISABLED s;
  ck_err : CP_ERROR s' = CP_ERROR s
}.
Lemma ck_entry s s' g se' : checkpointed s s' -> sentries (sit s') !! g = Some se' ->
  exists se, sentries (sit s) !! g = Some se /\ cur_valid_map se' = cur_valid_map se /\ ckpt_valid_map se' = cur_valid_map se /\ se_type se' = se_type se /\ valid_blocks se' = valid_blocks se /\ se_mtime se' = se_mtime se.
Proof.
  intros Hk E. pose proof (ck_ent _ _ Hk g) as Hg. rewrite E in Hg. destruct (sentries (sit s) !! g) as [se|]; [|done]. apply (inj Some) in Hg. apply core_eq in Hg as (C1 & C2 & C3 & C4 & C5 & C6). by exists se.
Qed.
Lemma ck_entry_to s s' g se : checkpointed s s' -> sentries (sit s) !! g = Some se ->
  exists se', sentries (sit s') !! g = Some se' /\ cur_valid_map se' = cur_valid_map se /\ ckpt_valid_map se' = cur_valid_map se /\ se_type se' = se_type se.
Proof.
  intros Hk E. pose proof (ck_ent _ _ Hk g) as Hg. rewrite E in Hg. destruct (sentries (sit s') !! g) as [se'|]; [|done]. apply (inj Some) in Hg. apply core_eq in Hg as (C1 & C2 & C3 & C4 & C5 & C6). by exists se'.
Qed.
Lemma ck_valid_of s s' g : checkpointed s s' -> valid_of (sit s') g = valid_of (sit s) g.
Proof.
  intros Hk. pose proof (ck_ent _ _ Hk g) as Hg. unfold valid_of. destruct (sentries (sit s') !! g), (sentries (sit s) !! g); try done. apply (inj Some) in Hg. by apply core_eq in Hg as (_ & -> & _).
Qed.
Lemma ck_valid s s' g o : checkpointed s s' -> valid_at s' g o <-> valid_at s g o.
Proof.
  intros Hk. unfold valid_at. split; intros (x & E & Ho).
  - destruct (ck_entry s s' g x Hk E) as (se & E' & C & _). exists se. by rewrite <-C.
  - destruct (ck_entry_to s s' g x Hk E) as (se & E' & C & _). exists se. by rewrite C.
Qed.
Lemma ck_kept s s' g o : checkpointed s s' -> kept s' g o <-> valid_at s g o.
Proof.
  intros Hk. unfold valid_at, kept. split; intros (x & E & Ho).
  - destruct (ck_entry s s' g x Hk E) as (se & E' & _ & C & _). exists se. by rewrite <-C.
  - destruct (ck_entry_to s s' g x Hk E) as (se & E' & _ & C & _). exists se. by rewrite C.
Qed.
Lemma ck_summ s s' g o : checkpointed s s' -> seg_ok g -> summ s' g o = summ s g o.
Proof.
  intros Hk Hg. unfold summ. rewrite (ck_cur _ _ Hk). destruct (List.find _ _) as [u|] eqn:Ef; [done|]. rewrite (ck_sums _ _ Hk g Hg); [done|].
  apply curseg_not. intros t Ht E. apply in_types in Ht. apply (List.find_none _ _ Ef), Z.eqb_neq in Ht. done.
Qed.
Lemma ck_cur_ok s s' c : checkpointed s s' -> sit_ok (sit s) -> lists_sound s -> cur_ok s c -> IS_CURSEG s (segno c) = true -> cur_ok s' c.
Proof.
  intros Hk Hx Hl [K1 K2 K3 K4 K5] Hc. destruct (ck_fre _ _ Hk) as [_ Em]. constructor; try done.
  - intros Hi. destruct (K2 Hi) as (? & ? & ?). split; [done|]. split; [|done]. rewrite Em. apply elem_of_difference. split; [done|]. intros Hp. apply (ls_pre _ Hl) in Hp as (_ & _ & Hp & _). congruence.
  - intros Hi Ha se' o E Ho. destruct (ck_entry s s' _ se' Hk E) as (se & E' & _ & C & _). rewrite C. specialize (K4 Hi Ha se o E' Ho). pose proof (eo_sub _ (so_entry _ Hx _ se E')). set_solver.
  - intros Hi se' E. destruct (ck_entry s s' _ se' Hk E) as (se & E' & _ & C & _). rewrite C. specialize (K5 Hi se E'). pose proof (eo_sub _ (so_entry _ Hx _ se E')). set_solver.
Qed.
Lemma ck_lists s s' : checkpointed s s' -> seg_inv ∅ s -> lists_sound s'.
Proof.
  intros Hk Hi. pose proof (si_lists _ _ Hi) as [L1 L2 L3 L4 L5]. destruct (ck_dirt _ _ Hk) as (D1 & _ & D2 & D3). destruct (ck_fre _ _ Hk) as [_ Em].
  assert (Hd : dirty_segmap (dirt s') DIRTY = dirty_segmap (dirt s) DIRTY) by (by apply D3). constructor.
  - done.
  - rewrite D2. set_solver.
  - intros g. rewrite Hd, D2, Em, (curseg_same s s' g (ck_cur _ _ Hk)). intros Hg. destruct (L3 g Hg) as (? & ? & ? & ?). split; [done|]. split; [by apply elem_of_difference|]. split; [done|set_solver].
  - intros t g Ht. rewrite Hd, D3 by (unfold DIRTY, PRE in *; lia). rewrite (L4 t g Ht). split; intros [Hg (se & E & Et)]; (split; [done|]).
    + destruct (ck_entry_to s s' g se Hk E) as (se' & E' & _ & _ & C). exists se'. by rewrite C.
    + destruct (ck_entry s s' g se Hk E) as (se' & E' & _ & _ & C & _). exists se'. by rewrite <-C.
  - intros g se' Hg E. rewrite Hd in Hg. destruct (ck_entry s s' g se' Hk E) as (se & E' & _ & C & _). rewrite C. intros He. destruct (L3 g Hg) as (Hr & _).
    pose proof (li_holes _ _ (si_listed _ _ Hi g Hr (not_elem_of_empty g)) Hg) as Hv. rewrite (valid_of_at _ _ _ E'), (eo_valid _ (so_entry _ (si_sit _ _ Hi) g se E')), He, size_empty in Hv. lia.
Qed.
Lemma checkpointed_inv s s' : checkpointed s s' -> seg_inv ∅ s -> seg_inv ∅ s'.
Proof.
  intros Hk Hi. destruct (ck_fre _ _ Hk) as [Hf Em]. destruct (ck_dirt _ _ Hk) as (D1 & _ & D2 & D3). constructor; rewrite ?(ck_cur _ _ Hk), ?(ck_vict _ _ Hk), ?(ck_cp _ _ Hk); try apply Hi; try done.
  - by apply (ck_sit s s').
  - intros g se' Hg Hn E. destruct (ck_entry s s' g se' Hk E) as (se & E' & _ & C & _). rewrite C. rewrite Em in Hn. destruct (decide (g ∈ dirty_segmap (dirt s) PRE)) as [Hp|Hp].
    + apply (ls_pre _ (si_lists _ _ Hi)) in Hp as (_ & _ & _ & Hv). rewrite (valid_of_at _ _ _ E'), (eo_valid _ (so_entry _ (si_sit _ _ Hi) g se E')) in Hv. apply size_zero. lia.
    + assert (g ∉ free_segmap (fre s)) as Hn' by set_solver. pose proof (si_free _ _ Hi g se Hg Hn' E'). pose proof (eo_sub _ (so_entry _ (si_sit _ _ Hi) g se E')). set_solver.
  - intros t Ht. rewrite ?(ck_cur _ _ Hk). apply (ck_cur_ok s s'); [done|apply Hi|apply Hi|by apply Hi|]. apply curseg_iff. by exists t.
  - by apply (ck_lists s s').
  - intros g Hg Hx. destruct (si_listed _ _ Hi g Hg Hx) as [B1 B2 B3]. constructor; rewrite ?Em, ?D2, ?(curseg_same s s' g (ck_cur _ _ Hk)), ?(ck_valid_of s s' g Hk), ?(D3 DIRTY) by done; [|set_solver|done].
    intros Hu Hc Hv. apply elem_of_difference in Hu as [Hu Hnp]. by destruct (Hnp (B1 Hu Hc Hv)).
Qed.
(** The entry that is written back is the one of the state that is checkpointed. *)
Lemma ck_raw s s' g : checkpointed s s' -> raw_of s' g = raw_of s g.
Proof.
  intros Hk. pose proof (ck_ent _ _ Hk g) as Hg. unfold raw_of. destruct (sentries (sit s') !! g) as [a|], (sentries (sit s) !! g) as [b|]; try done. apply (inj Some) in Hg. cbn [compose] in Hg. apply core_eq in Hg as (C1 & C2 & C3 & C4 & C5 & C6).
  unfold __seg_info_to_raw_sit. by rewrite C1, C2, C4, C6.
Qed.
Lemma curseg_used X s t : seg_inv X s -> log_ok t -> inited (CURSEG_I s t) = true -> segno (CURSEG_I s t) ∈ free_segmap (fre s) ∖ dirty_segmap (dirt s) PRE.
Proof.
  intros Hi Ht Hin. apply elem_of_difference. destruct (co_seg _ _ (si_cur _ _ Hi t Ht) Hin) as (Hg & Hu & _). split; [done|]. intros Hp. apply (ls_pre _ (si_lists _ _ Hi)) in Hp as (_ & _ & Hp & _). rewrite curseg_not in Hp. by apply (Hp t Ht).
Qed.
Lemma unsaved_used atgc X s s1 : seg_inv X s -> CURSEG_I s1 = CURSEG_I s -> all_unsaved atgc s1 ⊆ free_segmap (fre s) ∖ dirty_segmap (dirt s) PRE.
Proof.
  intros Hi Ec g Hg. unfold all_unsaved in Hg. assert (exists t, log_ok t /\ g ∈ unsaved s1 t) as (t & Ht & Hu). { apply elem_of_union in Hg as [Hg|Hg]; [by exists CURSEG_COLD_DATA_PINNED|]. destruct atgc; [by exists CURSEG_ALL_DATA_ATGC|set_solver]. }
  apply unsaved_in in Hu as [-> Hin]. rewrite Ec in *. by apply (curseg_used X).
Qed.
Lemma set_prefree_ok s s1 : seg_inv ∅ s -> s1 = with_sit s (sit s1) -> exists f, set_prefree_as_free_segments s1 = with_fre s1 f /\ free_ok f /\ free_segmap f = free_segmap (fre s) ∖ dirty_segmap (dirt s) PRE.
Proof.
  intros Hi E1. assert (Ef : fre s1 = fre s) by (by rewrite E1). assert (Ed : dirt s1 = dirt s) by (by rewrite E1). assert (Ec : CURSEG_I s1 = CURSEG_I s) by (by rewrite E1). unfold set_prefree_as_free_segments.
  destruct (prefree_loop_ok (set_bits (dirty_segmap (dirt s1) PRE) MAIN_SEGS)) with (s := s1) as (f & -> & Hf & Hm).
  - apply list.NoDup_filter, NoDup_seqZ.
  - rewrite Ef. apply Hi.
  - intros g Hg. apply list_elem_of_filter in Hg as [Hg _]. rewrite Ed in Hg. rewrite Ef, (curseg_same s s1 g Ec). destruct (ls_pre _ (si_lists _ _ Hi) g Hg) as (? & ? & ? & _). done.
  - intros t Ht. rewrite Ec, Ef. destruct (inited (CURSEG_I s t)) eqn:Ei; [left|right; by apply (co_null _ _ (si_cur _ _ Hi t Ht))]. destruct (co_seg _ _ (si_cur _ _ Hi t Ht) Ei) as (? & ? & _). done.
  - exists f. split; [done|]. split; [done|]. rewrite Hm, Ef, Ed. f_equal. apply set_eq. intros g. rewrite elem_of_list_to_set. unfold set_bits. rewrite list_elem_of_filter, elem_of_seqZ. split; [tauto|]. intros Hg. split; [done|]. destruct (ls_pre _ (si_lists _ _ Hi) g Hg) as (? & _). lia.
Qed.

(** Nothing is passed on to the device before the pack is written, and entries are only
    made for blocks. *)
Definition quiet (d d' : discard_cmd_control) : Prop := issued d' = issued d /\ (f2fs_block_unit_discard denv = false -> entry_list d' = entry_list d).
Lemma quiet_refl d : quiet d d.
Proof. done. Qed.
Lemma quiet_trans d d' d'' : quiet d d' -> quiet d' d'' -> quiet d d''.
Proof. unfold quiet. intuition congruence. Qed.
Lemma add_discard_issued s dcc g minlen force co dcc' b : add_discard_addrs denv s dcc g minlen force co = Some (dcc', b) -> quiet dcc dcc'.
Proof.
  unfold add_discard_addrs. destruct (get_seg_entry s g) as [se|]; [|done]. cbn [mbind option_bind]. destruct (f2fs_block_unit_discard denv) eqn:Eb; [|rewrite orb_true_r; by intros [= <- _]]. destruct (_ || _ || _); [by intros [= <- _]|]. destruct (_ && _); [by intros [= <- _]|].
  destruct (discard_loop _ _ _ _ _ _ _ _ _) as [[[nr acc] found]|]; [|done]. cbn [mbind option_bind]. destruct (decide (acc = ∅)); intros [= <- _]; [done|]. split; [done|]. by rewrite Eb.
Qed.
Lemma flush_loop_issued cpc dst l : forall s d dcc cnt s' d' dcc' cnt', flush_sit_loop denv cpc dst l s d dcc cnt = Some (s', d', dcc', cnt') -> quiet dcc dcc'.
Proof.
  induction l as [|g l IH]; intros s d dcc cnt s' d' dcc' cnt'; cbn [flush_sit_loop]; [by intros [= _ _ <- _]|]. unfold flush_sit_entry. destruct (get_seg_entry s g) as [se|]; [|done]. cbn [mbind option_bind].
  assert (Hadd : forall x : option discard_cmd_control, x = (if cp_discard cpc then Some dcc else '(dcc, _) ← add_discard_addrs denv s dcc g (trim_minlen cpc) false false; Some dcc) -> forall dcc1, x = Some dcc1 -> quiet dcc dcc1).
  { intros x -> dcc1. destruct (cp_discard cpc); [by intros [= <-]|]. destruct (add_discard_addrs _ _ _ _ _ _ _) as [[d1 b]|] eqn:Ea; [|done]. cbn. intros [= <-]. by apply (add_discard_issued s dcc g (trim_minlen cpc) false false d1 b). }
  destruct (if cp_discard cpc then _ else _) as [dcc1|]; [|done]. specialize (Hadd _ eq_refl dcc1 eq_refl). cbn [mbind option_bind]. destruct (seg_info_to_raw_sit se) as [rs se']. destruct (check_block_count g rs) as [err|]; [|done]. cbn [mbind option_bind].
  destruct (match dst with Some _ => _ | None => _ end) as [d1|]; [|done]. cbn [mbind option_bind]. intros Hr. apply IH in Hr. by eapply quiet_trans.
Qed.
Lemma flush_sets_issued cpc l : forall tj s d dcc s' d' dcc', flush_sit_sets denv cpc l tj s d dcc = Some (s', d', dcc') -> quiet dcc dcc'.
Proof.
  induction l as [|e l IH]; intros tj s d dcc s' d' dcc'; cbn [flush_sit_sets]; [by intros [= _ _ <-]|]. unfold flush_sit_set. destruct (if tj && _ then _ else _) as [[d1 dst]|]; [|done]. cbn [mbind option_bind].
  destruct (flush_sit_loop _ _ _ _ _ _ _ _) as [[[[s2 d2] dcc2] cnt]|] eqn:El; [|done]. apply flush_loop_issued in El. cbn [mbind option_bind]. destruct (cnt =? 0); [|done]. cbn [mbind option_bind]. intros Hr. apply IH in Hr. by eapply quiet_trans.
Qed.
Lemma trim_issued cpc l s : forall dcc dcc', trim_loop denv cpc l s dcc = Some dcc' -> quiet dcc dcc'.
Proof.
  induction l as [|g l IH]; intros dcc dcc'; cbn [trim_loop]; [by intros [= <-]|]. destruct (add_discard_addrs _ _ _ _ _ _ _) as [[d1 b]|] eqn:Ea; [|done]. apply add_discard_issued in Ea. cbn [mbind option_bind]. intros Hr. apply IH in Hr. by eapply quiet_trans.
Qed.
Lemma flush_issued rs cpc s d dcc s' d' dcc' : f2fs_flush_sit_entries denv rs cpc s d dcc = Some (s', d', dcc') -> quiet dcc dcc'.
Proof.
  unfold f2fs_flush_sit_entries. set (x := if dirty_sentries (sit s) =? 0 then _ else _). assert (Hx : forall s1 d1 dcc1, x = Some (s1, d1, dcc1) -> quiet dcc dcc1).
  { intros s1 d1 dcc1. unfold x. destruct (dirty_sentries (sit s) =? 0); [by intros [= _ _ <-]|]. destruct (if negb _ || _ then _ else _) as [[s2 d2] h]. destruct (flush_sit_sets _ _ _ _ _ _ _) as [[[s3 d3] dcc3]|] eqn:E; [|done]. apply flush_sets_issued in E. cbn [mbind option_bind]. destruct (dirty_sentries (sit s3) =? 0); [|done]. by intros [= _ _ <-]. }
  clearbody x. destruct x as [[[s1 d1] dcc1]|]; [|done]. specialize (Hx _ _ _ eq_refl). cbn [mbind option_bind]. destruct (cp_discard cpc); [|cbn; intros [= _ _ <-]; done].
  destruct (trim_loop _ _ _ _ _) as [dcc2|] eqn:Et; [|done]. apply trim_issued in Et. cbn. intros [= _ _ <-]. by eapply quiet_trans.
Qed.

Lemma checkpoint_ok atgc cpc s d dcc : unit_ok denv -> trim_ok cpc -> seg_inv ∅ s -> coherent s d -> journal_ok (s_journal d) -> dcc_ok s dcc ->
  exists s' d' dcc', sit_checkpoint denv atgc true cpc s d dcc = Some (s', d', dcc') /\ checkpointed s s' /\ journal_ok (s_journal d') /\ (forall g, seg_ok g -> disk_entry d' g = raw_of s g) /\
    (forall off, 0 <= off < sit_blocks -> sit_meta d' (sit_addr (sit_bitmap d) off) = sit_meta d (sit_addr (sit_bitmap d) off)) /\ need_fsck d' = need_fsck d /\
    dcc_ok s' dcc' /\ (all_safe s dcc -> all_safe s dcc') /\ (entry_list dcc = [] -> entry_list dcc' = []) /\
    (forall g, seg_ok g -> page_entry d' g = page_entry d g \/ page_entry d' g = raw_of s g) /\
    ssa s' = (if atgc then saved s CURSEG_ALL_DATA_ATGC else id) (saved s CURSEG_COLD_DATA_PINNED (ssa s)).
Proof.
  intros Hu Ht Hi Hco Hj Hd. unfold sit_checkpoint. destruct (flush_ok denv cpc false s d dcc (si_sit _ _ Hi) Hco Hj Hd Ht) as (s1 & d1 & dcc1 & Efl & Hfl & Hx1 & Hd1). pose proof (flush_issued false cpc s d dcc _ _ _ Efl) as [His Hel]. rewrite Efl. cbn [mbind option_bind].
  pose proof (fl_rest _ _ _ _ Hfl) as E1. assert (Ec : CURSEG_I s1 = CURSEG_I s) by (by rewrite E1). destruct (set_prefree_ok s s1 Hi E1) as (f2 & -> & Hf2 & Em2).
  destruct (save_all_ok atgc ∅ s1 s f2 Hi Ec Hx1 Hf2) as (a3 & f3 & -> & Hf3 & Em3 & Ha3 & Ea3); [intros t Hlt Hin; rewrite Em2; by apply (curseg_used ∅)|]. cbn [mbind option_bind]. set (s3 := with_ssa (with_fre s1 f3) a3 (CP_ERROR s1)).
  assert (Hp : pre_ok s3). { split; [done|]. assert (Ed : dirt s3 = dirt s) by (unfold s3; by rewrite E1). split; [rewrite Ed; exact (ls_nr _ (si_lists _ _ Hi))|]. intros g. rewrite Ed. intros Hg. apply (ls_pre _ (si_lists _ _ Hi)) in Hg as (? & _ & _ & Hv). split; [done|].
    change (sit s3) with (sit s1). unfold valid_of in *. rewrite (fl_ent _ _ _ _ Hfl), lookup_fmap. by destruct (sentries (sit s) !! g). }
  destruct (clear_segments_ok denv cpc s3 dcc1 Hu Hp) as (s4 & dcc4 & -> & Hds & Hpc & Hsafe & Hd4 & El4); [done|]. cbn [mbind option_bind].
  assert (Hx4 : sit_ok (sit s4)) by (by apply (dsame_sit_ok s3 s4)). assert (Ec4 : CURSEG_I s4 = CURSEG_I s) by (by rewrite (dm_cur _ _ Hds)). destruct (restore_all_ok atgc ∅ s4 s f3 Hi Ec4 Hx4 Hf3) as (f5 & E5 & Hf5 & Em5).
  assert (Ef4 : with_fre s4 f3 = s4) by (pose proof (dm_fre _ _ Hds) as Ef; cbn in Ef; rewrite <-Ef; by destruct s4). rewrite Ef4 in E5. rewrite E5. cbn [mbind option_bind]. eexists _, d1, dcc4. split; [reflexivity|].
  assert (Hun : all_unsaved atgc s4 = all_unsaved atgc s1). { unfold all_unsaved, unsaved. rewrite Ec4, Ec. by rewrite !(dsame_valid_of s3 s4 _ Hds). }
  assert (Hck : checkpointed s (with_fre s4 f5)).
  { destruct (dm_sit _ _ Hds) as (_ & _ & D3 & _). constructor; cbn.
    - intros g. rewrite (dm_ent _ _ Hds g). change (sit s3) with (sit s1). rewrite (fl_ent _ _ _ _ Hfl), lookup_fmap. by destruct (sentries (sit s) !! g).
    - done.
    - rewrite D3. apply Hfl.
    - split; [done|]. rewrite Em5, Hun, Em3, Em2. pose proof (unsaved_used atgc ∅ s s1 Hi Ec) as Hsub. apply set_eq. intros g. destruct (decide (g ∈ all_unsaved atgc s1)); set_solver.
    - assert (Ed : dirt s3 = dirt s) by (unfold s3; by rewrite E1). by rewrite <-Ed.
    - done.
    - rewrite (dm_vict _ _ Hds). unfold s3. by rewrite E1.
    - rewrite (dm_ssa _ _ Hds). intros g Hg Hn. unfold s3. cbn. rewrite (Ha3 g Hg); [by rewrite E1|]. by rewrite (curseg_same s s1 g Ec).
    - rewrite (dm_cp _ _ Hds). unfold s3. by rewrite E1.
    - rewrite (dm_err _ _ Hds). unfold s3. by rewrite E1. }
  split; [done|]. split; [apply Hfl|]. split; [apply Hfl|]. split; [apply Hfl|]. split; [apply Hfl|]. split; [done|]. assert (Evo : forall g, valid_of (sit s1) g = valid_of (sit s) g) by (intros g; unfold valid_of; rewrite (fl_ent _ _ _ _ Hfl), lookup_fmap; by destruct (sentries (sit s) !! g)). assert (Ess : ssa s1 = ssa s) by (by rewrite E1).
  split; [|split; [rewrite El4; destruct (f2fs_block_unit_discard denv); [done|]; by rewrite Hel|split; [apply Hfl|cbn; rewrite (dm_ssa _ _ Hds); cbn; rewrite Ea3; unfold saved; by rewrite Ec, Ess, !Evo]]]. intros Hs.
  assert (Hv3 : forall g o, valid_at s3 g o <-> valid_at s g o). { intros g o. rewrite <-(ck_valid s (with_fre s4 f5) g o Hck). symmetry. exact (dsame_valid_at s3 s4 g o Hds). }
  assert (Hsp : forall c, spares s3 c <-> spares s c) by (intros c; unfold spares; by setoid_rewrite Hv3). intros c Hc. apply Hsp. apply Hsafe; [|done]. intros c' Hc'. apply Hsp, Hs. by rewrite <-His.
Qed.
End ckpt.

(** C34: With discard_unit=section on a file system that is not in log-structured mode, a
    checkpoint discards every block of the section of a prefree segment, whatever the
    other segments of the section hold: their valid blocks are discarded, and stay valid
    in the table. *)
Theorem section_discard_hits_live `{SitFormat} denv cpc s d (Hw : whole_sections denv cpc) (Hp : pre_ok s) :
  exists s' d', f2fs_clear_prefree_segments denv s d cpc = Some (s', d') /\
    forall g h o, g ∈ dirty_segmap (dirt s) PRE -> 0 <= h < MAIN_SEGS -> h / segs_per_sec = g / segs_per_sec -> valid_at s h o -> discards d' (blk h o) /\ valid_at s' h o.
Proof.
  destruct Hp as (P1 & P2 & P3). destruct (sections_hit denv cpc (S (Z.to_nat MAIN_SEGS)) Hw s d (-1)) as (s1 & d1 & E & D & _ & Hh).
  - done.
  - lia.
  - intros g Hg. destruct (P3 g Hg). unfold search_from. rewrite andb_false_r. lia.
  - apply Nat.lt_succ_r, Nat2Z.inj_le. pose proof main_pos. rewrite Z2Nat.id by lia. apply map_size; [lia|]. intros g Hg. by apply P3.
  - exists s1, d1. unfold f2fs_clear_prefree_segments, f2fs_block_unit_discard. destruct Hw as (-> & _). rewrite E. split; [done|]. intros g h o Hg Hr Hs Hv. split; [|by apply (dsame_valid_at s s1)].
    apply (Hh g); [done|done|done|]. destruct Hv as (se & Es & Ho). pose proof (so_entry _ P1 h se Es) as He. by apply (eo_map _ He), (eo_sub _ He).
Qed.
