(* ===== verification/SegTouch.v ===== *)
(** * What the operations leave clean, and blocks given back

    First which entries an operation marks; then blocks given back and segments asked for. *)

From S2P Require Import Prelude FreeNid NatCache SegBitmap SegState SegAlloc SegInv SegLists SegCur SegSwitch SegVictim SegVictimProps SegBlocks SegData SegDiscard SegFlush SegFlushProps.

(** ** What the operations leave clean

    Entries that differ from the table on disk are dirty: an operation changes the
    contents of an entry only if it marks it. *)

(** The results of a bind, one after the other. *)
Ltac unbind H :=
  repeat match type of H with
         | mbind _ ?x = Some _ => let E := fresh "E" in destruct x eqn:E; cbn [mbind option_bind] in H; [|discriminate H]
         | context [let '(_, _) := ?p in _] => is_var p; destruct p
         end.

Section touch.
Context `{SitFormat} (block_unit_discard : bool).
Notation seg_ok g := (0 <= g < MAIN_SEGS).
Notation bitmap s := (dirty_sentries_bitmap (sit s)).

Record touch (T : gset Z) (s s' : seg_sys) : Prop := {
  to_bits : bitmap s ⊆ bitmap s';
  to_raw : forall g, g ∉ T -> g ∉ bitmap s' -> raw_of s' g = raw_of s g
}.
Lemma touch_same s s' : sit s' = sit s -> touch ∅ s s'.
Proof. intros E. unfold raw_of. constructor; rewrite E; [done|]. intros g _ _. unfold raw_of. by rewrite E. Qed.
Lemma touch_trans T T' s s' s'' : touch T s s' -> touch T' s' s'' -> touch (T ∪ T') s s''.
Proof. intros [A1 A2] [B1 B2]. constructor; [set_solver|]. intros g Hg Hb. rewrite B2, A2; [done|set_solver|set_solver|set_solver|done]. Qed.
(** What is marked in the end need not be counted. *)
Lemma touch_marked T s s' : touch T s s' -> T ⊆ bitmap s' -> touch ∅ s s'.
Proof. intros [A1 A2] Hs. constructor; [done|]. intros g _ Hg. apply A2; set_solver. Qed.
Lemma touch_then s s' s'' : touch ∅ s s' -> touch ∅ s' s'' -> touch ∅ s s''.
Proof. intros Ha Hb. pose proof (touch_trans _ _ _ _ _ Ha Hb) as Ht. by rewrite union_empty_l_L in Ht. Qed.
Lemma touch_coherent s s' d : touch ∅ s s' -> coherent s d -> coherent s' d.
Proof. intros [A1 A2] Hc g Hg Hb. rewrite A2 by set_solver. apply Hc; [done|set_solver]. Qed.

(** ** Entries *)

Lemma raw_put s g se h : h <> g -> raw_of (put_se s g se) h = raw_of s h.
Proof. intros Hn. unfold raw_of. cbn. by rewrite lookup_insert_ne. Qed.
Lemma touch_mtime ct s a old s' : update_segment_mtime ct s a old = Some s' -> touch (if GET_SEGNO a =? NULL_SEGNO then ∅ else {[GET_SEGNO a]}) s s'.
Proof.
  unfold update_segment_mtime. destruct (GET_SEGNO a =? NULL_SEGNO); [intros [= <-]; by apply touch_same|]. intros Hr. unbind Hr. injection Hr as <-.
  constructor; [by destruct (_ <? ct)|]. intros g Hg _. rewrite <-(raw_put s (GET_SEGNO a) (set_se_mtime s0 (if se_mtime s0 =? 0 then if negb (old =? 0) then old else ct else u64 (u64 (se_mtime s0 * valid_blocks s0) + (if negb (old =? 0) then old else ct)) / (valid_blocks s0 + 1))) g) by set_solver. by destruct (_ <? ct).
Qed.
Lemma mark_spec s g : sentries (sit (__mark_sit_entry_dirty s g).1) = sentries (sit s) /\ bitmap (__mark_sit_entry_dirty s g).1 = {[g]} ∪ bitmap s.
Proof. unfold __mark_sit_entry_dirty. destruct (decide (g ∈ bitmap s)); cbn; [split; [done|set_solver]|done]. Qed.
Lemma touch_sit_entry s a d s' : update_sit_entry block_unit_discard s a d = Some s' -> touch ∅ s s' /\ GET_SEGNO a ∈ bitmap s'.
Proof.
  unfold update_sit_entry. intros Hr. unbind Hr. destruct (_ || _); [done|]. unbind Hr. pose proof (mark_spec (with_counts (put_se s (GET_SEGNO a) (add_ckpt_blocks s1 (GET_BLKOFF_FROM_SEG0 a) d)) z0 z) (GET_SEGNO a)) as [M1 M2].
  destruct (__mark_sit_entry_dirty _ _) as [s2 b]. cbn [fst] in M1, M2. unbind Hr. injection Hr as <-. split; [|cbn; rewrite M2; set_solver]. constructor; [cbn; rewrite M2; cbn; set_solver|].
  intros h _ Hh. cbn in Hh. rewrite M2 in Hh. unfold raw_of. cbn. rewrite M1. cbn. rewrite lookup_insert_ne by set_solver. done.
Qed.
Lemma touch_type s t g s' : __set_sit_entry_type s t g true = Some s' -> touch ∅ s s'.
Proof.
  unfold __set_sit_entry_type. intros Hr. unbind Hr. injection Hr as <-. destruct (mark_spec (put_se s g (set_se_type s0 t)) g) as [M1 M2]. constructor; [rewrite M2; cbn; set_solver|].
  intros h _ Hh. rewrite M2 in Hh. unfold raw_of. rewrite M1. cbn. by rewrite lookup_insert_ne by set_solver.
Qed.

(** ** Lists and logs *)

Lemma locate_one_sit s g t s' : __locate_dirty_segment s g t = Some s' -> sit s' = sit s.
Proof.
  unfold __locate_dirty_segment. destruct (IS_CURSEG s g); [by intros [= <-]|]. destruct (negb (t =? DIRTY)); [by intros [= <-]|]. intros Hr. unbind Hr. destruct (DIRTY <=? _); [done|]. destruct is_large_section; [|by injection Hr as <-].
  unbind Hr. destruct (_ || _); [done|]. by injection Hr as <-.
Qed.
Lemma remove_one_sit s g t s' : __remove_dirty_segment s g t = Some s' -> sit s' = sit s.
Proof.
  unfold __remove_dirty_segment. destruct (negb (t =? DIRTY)); [by intros [= <-]|]. intros Hr. unbind Hr. injection Hr as <-. destruct is_large_section; [destruct (_ || _); [|destruct (IS_CURSEC _ _)]|]; by destruct (_ =? 0).
Qed.
Lemma locate_sit s g s' : locate_dirty_segment s g = Some s' -> sit s' = sit s.
Proof.
  unfold locate_dirty_segment. destruct (_ || _); [by intros [= <-]|]. intros Hr. unbind Hr. destruct (_ && _).
  - unbind Hr. apply locate_one_sit in E0. apply remove_one_sit in Hr. congruence.
  - destruct (_ <? _); [by apply locate_one_sit in Hr|by apply remove_one_sit in Hr].
Qed.
Lemma touch_reset s t s' : reset_curseg s t true = Some s' -> touch ∅ s s'.
Proof. unfold reset_curseg. destruct (_ <=? _); [done|]. intros Hr. apply touch_type in Hr. refine (touch_then _ _ _ _ Hr). by apply touch_same. Qed.
Lemma get_new_sit s n ns ar s' g : get_new_segment s n ns ar = Some (s', g) -> sit s' = sit s.
Proof.
  unfold get_new_segment. cbv zeta. assert (Hg : forall x, (if decide (x ∈ free_segmap (fre s)) then None else Some (with_fre s (__set_inuse (fre s) x), x)) = Some (s', g) -> sit s' = sit s) by (intros x; destruct (decide _); [done|]; by intros [= <- _]).
  destruct (_ && _ && _); [apply Hg|]. intros Hr. unbind Hr. destruct (_ || _ || _ || _); [by apply Hg in Hr|]. unbind Hr. by apply Hg in Hr.
Qed.

Context (env : alloc_env).

Lemma touch_invalidate s a s' : f2fs_invalidate_blocks block_unit_discard env s a = Some s' -> touch ∅ s s'.
Proof.
  unfold f2fs_invalidate_blocks. destruct (_ =? _); [done|]. destruct (_ || _); [intros [= <-]; by apply touch_same|]. intros Hr. unbind Hr. apply touch_mtime in E. apply touch_sit_entry in E0 as [T1 T2]. apply locate_sit in Hr.
  apply (touch_then s s1); [|by apply touch_same]. apply (touch_marked ((if GET_SEGNO a =? NULL_SEGNO then ∅ else {[GET_SEGNO a]}) ∪ ∅)); [by apply (touch_trans _ _ s s0 s1)|]. destruct (_ =? _); set_solver.
Qed.

Context (get_victim : seg_sys -> Z -> Z -> Z -> option (victim_info * option Z)).

Lemma touch_new s t ns s' : new_curseg env s t ns = Some s' -> touch ∅ s s'.
Proof.
  unfold new_curseg. intros Hr. unbind Hr. apply get_new_sit in E0. apply touch_reset in E1. injection Hr as <-. apply (touch_then s s0); [apply touch_same; rewrite E0; by destruct (inited _)|].
  apply (touch_then s0 s1); [|by apply touch_same]. apply (touch_then s0 (with_curseg s0 t (set_next_segno (CURSEG_I s0 t) z0))); [by apply touch_same|done].
Qed.
Lemma touch_change s t s' : change_curseg env s t true = Some s' -> touch ∅ s s'.
Proof.
  unfold change_curseg. intros Hr. unbind Hr. apply remove_one_sit in E, E0. apply touch_reset in E1. apply (touch_then s s1); [apply touch_same; by rewrite E0, E|]. apply (touch_then s1 s2); [done|]. destruct (_ || _); injection Hr as <-; by apply touch_same.
Qed.
Lemma ssr_loop_sit l : forall s st m age s' r, ssr_loop get_victim l s st m age = Some (s', r) -> sit s' = sit s.
Proof.
  induction l as [|i l IH]; intros s st m age s' r; cbn [ssr_loop]; [by intros [= <- _]|]. destruct (i =? st); [apply IH|]. intros Hr. unbind Hr. destruct o; [by injection Hr as <- _|]. by apply IH in Hr.
Qed.
Lemma get_ssr_sit s t m age s' b : get_ssr_segment get_victim s t m age = Some (s', b) -> sit s' = sit s.
Proof.
  unfold get_ssr_segment. destruct (_ <=? _); [done|]. intros Hr. unbind Hr. assert (Hs : sit s0 = sit s) by (destruct o; [by injection E0 as <- _|by apply ssr_loop_sit in E0]). destruct o1; by injection Hr as <- _.
Qed.
Lemma touch_allocate_segment s t f s' : allocate_segment get_victim env s t f = Some s' -> touch ∅ s s'.
Proof.
  unfold allocate_segment. destruct f; [apply touch_new|]. destruct (_ && _); [apply touch_new|]. destruct (_ && _); [apply touch_new|]. destruct (f2fs_need_SSR env s); [|apply touch_new].
  intros Hr. unbind Hr. apply get_ssr_sit in E. apply (touch_then s s0); [by apply touch_same|]. destruct b; [by apply touch_change in Hr|by apply touch_new in Hr].
Qed.
Lemma touch_atssr s t ty m age s' : get_atssr_segment get_victim env s t ty m age = Some s' -> touch ∅ s s'.
Proof.
  unfold get_atssr_segment. intros Hr. unbind Hr. apply get_ssr_sit in E. destruct b.
  - unbind Hr. apply touch_change in Hr. refine (touch_then _ _ _ _ Hr). by apply touch_same.
  - apply touch_new in Hr. refine (touch_then _ _ _ _ Hr). by apply touch_same.
Qed.

(** ** Operations *)

Lemma touch_allocate s old sum t s' a : f2fs_allocate_data_block block_unit_discard get_victim env s old sum t = Some (s', a) -> touch ∅ s s'.
Proof.
  unfold f2fs_allocate_data_block. intros Hr. unbind Hr. destruct (_ <=? _); [done|]. set (new := NEXT_FREE_BLKADDR _) in *. unbind Hr. injection Hr as <- _. set (old_bit := (if GET_SEGNO old =? NULL_SEGNO then ∅ else {[GET_SEGNO old]}) : gset Z).
  assert (H0' : sit s0 = sit s) by (unfold __refresh_next_blkoff in E0; unbind E0; by injection E0 as <-).
  assert (H1' : touch old_bit s0 s1). { destruct (t =? CURSEG_ALL_DATA_ATGC); unbind E1; injection E1 as <- _; [|by apply touch_mtime in E8]. destruct (touch_same s0 s0 eq_refl) as [A1 A2]. constructor; [done|]. intros g _. apply A2. set_solver. }
  assert (H4' : touch ∅ s3 s4 /\ old_bit ⊆ bitmap s4). { unfold old_bit. destruct (GET_SEGNO old =? NULL_SEGNO); cbn [negb] in E4; [injection E4 as <-; split; [by apply touch_same|set_solver]|]. apply touch_sit_entry in E4 as [? ?]. split; [done|set_solver]. }
  assert (H5' : touch ∅ s4 s5). { destruct (__has_curseg_space _); [injection E5 as <-; by apply touch_same|]. destruct (t =? CURSEG_ALL_DATA_ATGC); [unbind E5; by apply touch_atssr in E5|by apply touch_allocate_segment in E5]. }
  apply touch_mtime in E2. apply touch_sit_entry in E3 as [E3 E3']. apply locate_sit in E6, E7. destruct H4' as [H4' H4'']. apply (touch_then s s4); [|apply (touch_then s4 s5); [done|apply touch_same; congruence]].
  apply (touch_then s s0); [by apply touch_same|]. pose proof (touch_trans _ _ _ _ _ (touch_trans _ _ _ _ _ H1' E2) (touch_then _ _ _ E3 H4')) as Ht. apply (touch_marked _ _ _ Ht). pose proof (to_bits _ _ _ H4'). clear -H4'' E3' H2. destruct (GET_SEGNO new =? NULL_SEGNO); set_solver.
Qed.
End touch.

(** ** Blocks given back, and segments asked for *)

Section ops.
Context `{SitFormat} (block_unit_discard : bool).
Context (env : alloc_env).
Notation seg_ok g := (0 <= g < MAIN_SEGS).
Notation off_ok o := (0 <= o < blks_per_seg).
Notation log_ok t := (0 <= t < NO_CHECK_TYPE).

(** ** A block is given back *)

Lemma blk_special g o : seg_ok g -> off_ok o -> blk g o <> NULL_ADDR /\ blk g o <> NEW_ADDR /\ blk g o <> COMPRESS_ADDR.
Proof.
  intros Hg Ho. pose proof (blk_valid g o Hg Ho) as Hv. unfold __is_valid_data_blkaddr in Hv. apply negb_true_iff in Hv. apply orb_false_iff in Hv as [[E1 E2]%orb_false_iff E3]. by apply Z.eqb_neq in E1, E2, E3.
Qed.
Lemma invalidate_spec X s g o : seg_inv X s -> valid_at s g o ->
  exists s', f2fs_invalidate_blocks block_unit_discard env s (blk g o) = Some s' /\ seg_inv X s' /\ CURSEG_I s' = CURSEG_I s /\ CP_ERROR s' = CP_ERROR s /\
    (forall h p, seg_ok h -> off_ok p -> valid_at s' h p <-> valid_at s h p /\ blk h p <> blk g o) /\ (forall h p, kept s' h p <-> kept s h p) /\ (forall h p, summ s' h p = summ s h p).
Proof.
  intros Hi Hv. pose proof (valid_kept X s g o Hi Hv) as Hk. destruct (kept_range X s g o Hi Hk) as [Hg Ho]. unfold f2fs_invalidate_blocks. destruct (blk_special g o Hg Ho) as (N1 & N2 & N3).
  rewrite (proj2 (Z.eqb_neq _ _) N1), (proj2 (Z.eqb_neq _ _) N2), (proj2 (Z.eqb_neq _ _) N3). cbn [orb]. destruct (mtime_spec X s (blk g o) (ctime env) 0 Hi) as (s1 & -> & Hi1 & Hf1 & Hd1); [right; by rewrite get_segno|]. cbn [mbind option_bind].
  assert (Hv1 : forall h p, valid_at s1 h p <-> valid_at s h p) by (intros h p; apply maps_valid_at, Hf1).
  destruct (drop_old block_unit_discard X s1 (blk g o) Hi1) as (s2 & E2 & Hi2 & D1 & D2 & D3 & D4 & D5 & D6 & _); [right; exists g, o; split; [done|by apply Hv1]|].
  rewrite get_segno in E2, Hi2 by done. destruct (Z.eqb_spec g NULL_SEGNO) as [->|_]; [by apply null_not_seg in Hg|]. cbn [negb] in E2. rewrite E2. cbn [mbind option_bind]. rewrite get_segno by done.
  destruct (locate_spec _ s2 g Hi2) as (s3 & -> & Hi3 & Hst). { right. split; [done|]. rewrite D4, (fr_fre _ _ Hf1). by apply (kept_in_use X s g o). }
  pose proof (dirt_frame _ _ Hst) as Hf3. exists s3. split; [done|]. split; [apply (inv_weaken _ _ _ Hi3); set_solver|]. split; [by rewrite (ds_cur _ _ Hst), D5, (fr_cur _ _ Hf1)|]. split; [by rewrite (ds_err _ _ Hst), D6, (fr_err _ _ Hf1)|].
  split; [|split].
  - intros h p Hh Hp. rewrite (maps_valid_at s2 s3 h p) by apply Hf3. by rewrite (D1 h p Hh Hp), Hv1.
  - intros h p. rewrite (maps_kept s2 s3 h p) by apply Hf3. rewrite D2. apply maps_kept, Hf1.
  - intros h p. rewrite (frame_summ s2 s3 h p Hf3), D3. by apply frame_summ.
Qed.

(** ** A new segment *)

Context (get_victim : seg_sys -> Z -> Z -> Z -> option (victim_info * option Z)) (SPB : Z).
(** The request can be answered: a log that has no segment yet is one of cold data, and
    [get_ckpt_valid_blocks] is not asked for a large section. *)
Definition new_ok (s : seg_sys) (t : Z) (new_sec force : bool) : Prop :=
  if inited (CURSEG_I s t) then new_sec = true -> is_large_section = true -> force = true \/ next_blkoff (CURSEG_I s t) <> 0 else seg_type (CURSEG_I s t) = CURSEG_COLD_DATA.
(** Blocks and their summaries stay. *)
Record stays (s s' : seg_sys) : Prop := {
  sy_maps : forall g, maps_of s' g = maps_of s g;
  sy_err : CP_ERROR s = true -> CP_ERROR s' = true;
  sy_sum : CP_ERROR s' = false -> forall g o, seg_ok g -> kept s g o -> summ s' g o = summ s g o
}.
Lemma new_segment_spec X s t new_sec force : seg_inv X s -> room s -> log_ok t -> 0 < free_sections (fre s) -> new_ok s t new_sec force ->
  exists s', __allocate_new_segment get_victim env SPB s t new_sec force = Some s' /\ seg_inv X s' /\ room s' /\ stays s s' /\ (forall u, inited (CURSEG_I s u) = true -> inited (CURSEG_I s' u) = true).
Proof.
  intros Hi Hroom Ht Hfs Hnew. unfold __allocate_new_segment. set (alloc := mbind _ _). assert (Hal : exists s', alloc = Some s' /\ seg_inv X s' /\ room s' /\ stays s s' /\ (forall u, inited (CURSEG_I s u) = true -> inited (CURSEG_I s' u) = true)).
  { unfold alloc, allocate_segment. destruct (switched_new env X s t s (CURSEG_I s t) true Hi Ht Hfs (retag_refl X s t Hi) (same_refl _)) as (s1 & sg & -> & Hi1 & Hsw); [apply (co_type _ _ (si_cur _ _ Hi t Ht))|unfold new_ok in Hnew; destruct (inited (CURSEG_I s t)); [by left|by right]|].
    cbn [mbind option_bind]. destruct (locate_spec _ s1 (segno (CURSEG_I s t)) Hi1) as (s2 & -> & Hi2 & Hst).
    { destruct (inited (CURSEG_I s t)) eqn:Ei; [right|left; by apply (co_null _ _ (si_cur _ _ Hi t Ht))]. destruct (co_seg _ _ (si_cur _ _ Hi t Ht) Ei) as (Hg & Hu & _). split; [done|]. rewrite (sw_use _ _ _ _ Hsw). set_solver. }
    pose proof (dirt_frame _ _ Hst) as Hf. exists s2. split; [done|]. split; [apply (inv_weaken _ _ _ Hi2); set_solver|]. destruct (sw_cur _ _ _ _ Hsw) as (c1 & Hc1 & Hin1 & _ & Hn1). split; [|split].
    - intros u Hu. rewrite (ds_cur _ _ Hst), Hc1. unfold upd. destruct (decide (u = t)); [intros _; lia|by apply Hroom].
    - constructor; [intros g; rewrite (fr_maps _ _ Hf); apply Hsw|rewrite (fr_err _ _ Hf); apply Hsw|]. rewrite (fr_err _ _ Hf). intros He g o Hg Hk. rewrite (frame_summ s1 s2 g o Hf). by apply (sw_sum _ _ _ _ Hsw).
    - intros u. rewrite (ds_cur _ _ Hst), Hc1. unfold upd. by destruct (decide (u = t)). }
  clearbody alloc. unfold new_ok in Hnew. destruct (inited (CURSEG_I s t)) eqn:Ei; cbn [negb]; [|done]. destruct force; cbn [orb]; [done|]. destruct (Z.eqb_spec (next_blkoff (CURSEG_I s t)) 0) as [Hz|]; cbn [negb]; [|done].
  assert (Hns : new_sec && is_large_section = false) by (destruct new_sec, is_large_section; try done; by destruct (Hnew eq_refl eq_refl)). destruct (co_seg _ _ (si_cur _ _ Hi t Ht) Ei) as (Hg & _). destruct (seg_entry_at X s _ Hi Hg) as (se & E & _).
  unfold get_valid_blocks, get_ckpt_valid_blocks, get_seg_entry. rewrite Hns, E. cbn. destruct (negb _); [done|]. destruct (_ =? 0); [|done]. exists s. split; [done|]. split; [done|]. split; [done|]. split; [by constructor|done].
Qed.
Lemma touch_new_segment s t new_sec force s' : __allocate_new_segment get_victim env SPB s t new_sec force = Some s' -> touch ∅ s s'.
Proof.
  unfold __allocate_new_segment. set (alloc := mbind _ _). assert (Hal : alloc = Some s' -> touch ∅ s s').
  { unfold alloc. intros Hr. unbind Hr. apply touch_allocate_segment in E. apply locate_sit in Hr. apply (touch_then s s0); [done|by apply touch_same]. }
  clearbody alloc. destruct (negb _); [done|]. destruct (_ || _); [done|]. intros Hr. unbind Hr. destruct (negb _); [auto|]. unbind Hr. destruct (_ =? 0); [|auto]. injection Hr as <-. by apply touch_same.
Qed.
End ops.
