(* ===== verification/SegSystem.v ===== *)
(** * Histories of the segment manager

    What the rest of the file system relies on: a block that is handed out was neither
    valid nor needed by the last checkpoint, blocks keep the summary they were written
    with, and discards spare what is valid.  Any sequence of allocations, invalidations,
    requests for segments and checkpoints behaves like a set of live blocks and a set of
    blocks that must not be overwritten yet. *)

From S2P Require Import Prelude FreeNid NatCache SegBitmap SegState SegAlloc SegInv SegLists SegCur SegSwitch SegVictim SegVictimProps SegBlocks SegData SegDiscard SegFlush SegFlushProps SegCkpt SegTouch.

(** ** The specification *)

(** Live blocks, blocks that are not to be reused, and the owner of each. *)
Record blocks := { live : gset Z; held : gset Z; owner : Z -> f2fs_summary }.
Inductive seg_event :=
  | EAlloc (old new : Z) (sum : f2fs_summary)
  | EFree (a : Z)
  | ESwitch
  | ECommit (discards : list (Z * Z)).
Definition spec_step (A : blocks) (e : seg_event) : blocks :=
  match e with
  | EAlloc old new sum => {| live := ({[new]} ∪ live A) ∖ {[old]}; held := {[new]} ∪ held A; owner := upd (owner A) new sum |}
  | EFree a => {| live := live A ∖ {[a]}; held := held A; owner := owner A |}
  | ESwitch => A
  | ECommit _ => {| live := live A; held := live A; owner := owner A |}
  end.
Definition allowed (A : blocks) (e : seg_event) : Prop :=
  match e with
  | EAlloc _ new _ => new ∉ held A
  | EFree a => a ∈ live A
  | ESwitch => True
  | ECommit cmds => forall b n, (b, n) ∈ cmds -> forall i, b <= i < b + n -> i ∉ live A
  end.
Fixpoint all_allowed (A : blocks) (es : list seg_event) : Prop := match es with [] => True | e :: es => allowed A e /\ all_allowed (spec_step A e) es end.
Fixpoint no_commit (es : list seg_event) : Prop := match es with [] => True | ECommit _ :: _ => False | _ :: es => no_commit es end.

Section system.
Context `{SitFormat} (denv : discard_env).
Context (get_victim : seg_sys -> Z -> Z -> Z -> option (victim_info * option Z)) `{Hvs : !VictimSelection get_victim}.
Notation seg_ok g := (0 <= g < MAIN_SEGS).
Notation off_ok o := (0 <= o < blks_per_seg).
Notation log_ok t := (0 <= t < NO_CHECK_TYPE).
Notation unit_discard := (f2fs_block_unit_discard denv).

(** ** Operations *)

Record seg_state := { seg : seg_sys; disk : sit_disk; dcc : discard_cmd_control }.
Inductive seg_op :=
  | Allocate (env : alloc_env) (old : Z) (sum : f2fs_summary) (type : Z)
  | Invalidate (env : alloc_env) (addr : Z)
  | NewSegment (env : alloc_env) (type : Z) (new_sec force : bool)
  | Checkpoint (atgc : bool) (cpc : cp_control).
Definition set_seg (c : seg_state) (s : seg_sys) : seg_state := {| seg := s; disk := disk c; dcc := dcc c |}.
(** The commands of each checkpoint are recorded anew. *)
Definition seg_step (o : seg_op) (c : seg_state) : option (seg_state * seg_event) :=
  match o with
  | Allocate env old sum t => '(s, a) ← f2fs_allocate_data_block unit_discard get_victim env (seg c) old sum t; Some (set_seg c s, EAlloc old a sum)
  | Invalidate env a => s ← f2fs_invalidate_blocks unit_discard env (seg c) a; Some (set_seg c s, EFree a)
  | NewSegment env t new_sec force => s ← __allocate_new_segment get_victim env SIT_ENTRY_PER_BLOCK (seg c) t new_sec force; Some (set_seg c s, ESwitch)
  | Checkpoint atgc cpc =>
      '(s, d, q) ← sit_checkpoint denv atgc true cpc (seg c) (disk c) {| entry_list := entry_list (dcc c); nr_discards := nr_discards (dcc c); issued := [] |};
      Some ({| seg := s; disk := d; dcc := q |}, ECommit (issued q))
  end.
(** What the callers of an operation see to. *)
Definition ready (o : seg_op) (c : seg_state) : Prop :=
  match o with
  | Allocate _ old _ t => log_ok t /\ inited (CURSEG_I (seg c) t) = true /\ 0 < free_sections (fre (seg c)) /\ old_ok (seg c) old /\ gc_ok (seg c) t old
  | Invalidate _ a => exists g o, a = blk g o /\ valid_at (seg c) g o
  | NewSegment _ t new_sec force => log_ok t /\ 0 < free_sections (fre (seg c)) /\ new_ok (seg c) t new_sec force
  | Checkpoint _ cpc => trim_ok cpc
  end.
Inductive seg_run : seg_state -> list seg_event -> seg_state -> Prop :=
  | run_nil c : seg_run c [] c
  | run_step c o c1 e es c' : ready o c -> seg_step o c = Some (c1, e) -> seg_run c1 es c' -> seg_run c (e :: es) c'.

(** ** The invariant and the abstraction *)

(** The blocks of the table on disk. *)
Definition disk_valid (d : sit_disk) (g o : Z) : Prop := o ∈ valid_map (disk_entry d g).
Record seg_wf (c : seg_state) : Prop := {
  sf_inv : seg_inv ∅ (seg c);
  sf_room : room (seg c);
  sf_disk : coherent (seg c) (disk c);
  sf_journal : journal_ok (s_journal (disk c));
  sf_entries : entry_list (dcc c) = [];
  sf_kept : forall g o, seg_ok g -> disk_valid (disk c) g o -> kept (seg c) g o;
  sf_pages : forall g, seg_ok g -> check_block_count g (page_entry (disk c) g) = Some false
}.
Record abstracts (c : seg_state) (A : blocks) : Prop := {
  ab_live : forall a, a ∈ live A <-> exists g o, a = blk g o /\ valid_at (seg c) g o;
  ab_held : forall a, a ∈ held A <-> exists g o, a = blk g o /\ kept (seg c) g o;
  ab_owner : CP_ERROR (seg c) = false -> forall g o, kept (seg c) g o -> owner A (blk g o) = summ (seg c) g o
}.

Lemma seg_wf_same c s' : seg_wf c -> seg_inv ∅ s' -> room s' -> touch ∅ (seg c) s' -> (forall g o, kept (seg c) g o -> kept s' g o) -> seg_wf (set_seg c s').
Proof. intros [W1 W2 W3 W4 W5 W6 W7] Hi Hr Ht Hk. constructor; cbn; try done; [by apply (touch_coherent (seg c))|auto]. Qed.
(** A block of the area as an address. *)
Lemma held_blk c A g o : seg_wf c -> abstracts c A -> seg_ok g -> off_ok o -> blk g o ∈ held A <-> kept (seg c) g o.
Proof.
  intros Hw Ha Hg Ho. rewrite (ab_held _ _ Ha). split; [|eauto]. intros (h & p & E & Hk). destruct (kept_range ∅ _ h p (sf_inv _ Hw) Hk) as [Hh Hp]. by apply blk_inj in E as [-> ->].
Qed.
Lemma live_blk c A g o : seg_wf c -> abstracts c A -> seg_ok g -> off_ok o -> blk g o ∈ live A <-> valid_at (seg c) g o.
Proof.
  intros Hw Ha Hg Ho. rewrite (ab_live _ _ Ha). split; [|eauto]. intros (h & p & E & Hv). destruct (kept_range ∅ _ h p (sf_inv _ Hw) (valid_kept ∅ _ h p (sf_inv _ Hw) Hv)) as [Hh Hp]. by apply blk_inj in E as [-> ->].
Qed.
Lemma valid_ok c g o : seg_wf c -> valid_at (seg c) g o -> seg_ok g /\ off_ok o.
Proof. intros Hw Hv. apply (kept_range ∅ (seg c)); [apply Hw|]. apply (valid_kept ∅); [apply Hw|done]. Qed.

(** ** Each operation follows the specification *)

Definition follows (c : seg_state) (A : blocks) (o : seg_op) : Prop :=
  exists c' e, seg_step o c = Some (c', e) /\ seg_wf c' /\ allowed A e /\ abstracts c' (spec_step A e).

Lemma allocate_follows c A env old sum t : seg_wf c -> abstracts c A -> ready (Allocate env old sum t) c -> follows c A (Allocate env old sum t).
Proof.
  intros Hw Ha (Ht & Hin & Hfs & Hold & Hgc). destruct (allocate_spec unit_discard get_victim env ∅ (seg c) t old sum (sf_inv _ Hw) (sf_room _ Hw) Ht Hin Hfs Hold Hgc) as (s' & E & Hi & Hr & Hg & Ho & Hn & [A1 A2 A3 A4] & _).
  set (g0 := segno (CURSEG_I (seg c) t)) in *. set (o0 := next_blkoff (CURSEG_I (seg c) t)) in *. unfold follows. cbn [seg_step]. rewrite E. cbn [mbind option_bind]. eexists _, _. split; [done|].
  pose proof E as Htc. apply touch_allocate in Htc. assert (Hw' : seg_wf (set_seg c s')) by (apply seg_wf_same; try done; intros g o Hk; apply A2; by right).
  split; [done|]. split; [cbn; by rewrite (held_blk c A)|]. constructor; cbn.
  - intros a. rewrite elem_of_difference, elem_of_union, !elem_of_singleton, (ab_live _ _ Ha). split.
    + intros [[->|(g & o & -> & Hv)] Hne]; [exists g0, o0|exists g, o; destruct (valid_ok c g o Hw Hv) as [Hg' Ho']]; (split; [done|]); [apply (A1 g0 o0 Hg Ho)|apply (A1 g o Hg' Ho')]; tauto.
    + intros (g & o & -> & Hv). destruct (valid_ok _ g o Hw' Hv) as [Hg' Ho']. rewrite (A1 g o Hg' Ho') in Hv. destruct Hv as [[[-> ->]|Hv] Hne]; [split; [by left|done]|split; [right; eauto|done]].
  - intros a. rewrite elem_of_union, elem_of_singleton, (ab_held _ _ Ha). setoid_rewrite A2. split; [intros [->|(g & o & -> & Hk)]; eauto 6|]. intros (g & o & -> & [[-> ->]|Hk]); eauto.
  - intros He g o Hk. destruct (kept_range ∅ s' g o Hi Hk) as [Hg' Ho']. rewrite (A4 He g o Hg' Hk). unfold upd. destruct (decide (g = g0 /\ o = o0)) as [[-> ->]|Hne]; [by rewrite decide_True|]. rewrite decide_False by (intros Eb; by apply blk_inj in Eb).
    apply A2 in Hk as [|Hk]; [done|]. apply (ab_owner _ _ Ha); [|done]. destruct (CP_ERROR (seg c)); [by rewrite A3 in He|done].
Qed.
Lemma invalidate_follows c A env a : seg_wf c -> abstracts c A -> ready (Invalidate env a) c -> follows c A (Invalidate env a).
Proof.
  intros Hw Ha (g & o & -> & Hv). destruct (invalidate_spec unit_discard env ∅ (seg c) g o (sf_inv _ Hw) Hv) as (s' & E & Hi & Hc & He & D1 & D2 & D3). destruct (valid_ok c g o Hw Hv) as [Hg Ho].
  unfold follows. cbn [seg_step]. rewrite E. cbn [mbind option_bind]. eexists _, _. split; [done|]. pose proof E as Htc. apply touch_invalidate in Htc.
  assert (Hw' : seg_wf (set_seg c s')) by (apply seg_wf_same; try done; [unfold room; rewrite Hc; apply Hw|intros h p; by rewrite D2]). split; [done|]. split; [cbn; by apply (live_blk c A)|]. constructor; cbn.
  - intros a. rewrite elem_of_difference, elem_of_singleton, (ab_live _ _ Ha). split.
    + intros [(h & p & -> & Hv') Hne]. destruct (valid_ok c h p Hw Hv'). exists h, p. split; [done|]. by apply D1.
    + intros (h & p & -> & Hv'). destruct (valid_ok _ h p Hw' Hv') as [Hh Hp]. apply (D1 h p Hh Hp) in Hv' as [Hv' Hne]. split; [eauto|done].
  - intros a. rewrite (ab_held _ _ Ha). by setoid_rewrite D2.
  - rewrite He. intros He' h p. rewrite D2, D3. by apply (ab_owner _ _ Ha).
Qed.
Lemma new_segment_follows c A env t new_sec force : seg_wf c -> abstracts c A -> ready (NewSegment env t new_sec force) c -> follows c A (NewSegment env t new_sec force).
Proof.
  intros Hw Ha (Ht & Hfs & Hn). destruct (new_segment_spec env get_victim SIT_ENTRY_PER_BLOCK ∅ (seg c) t new_sec force (sf_inv _ Hw) (sf_room _ Hw) Ht Hfs Hn) as (s' & E & Hi & Hr & [Y1 Y2 Y3] & _).
  unfold follows. cbn [seg_step]. rewrite E. cbn [mbind option_bind]. eexists _, _. split; [done|]. pose proof E as Htc. apply touch_new_segment in Htc. assert (Hk : forall g o, kept s' g o <-> kept (seg c) g o) by (intros g o; by apply maps_kept).
  assert (Hv : forall g o, valid_at s' g o <-> valid_at (seg c) g o) by (intros g o; by apply maps_valid_at). split; [apply seg_wf_same; try done; intros g o; by rewrite Hk|]. split; [done|]. constructor; cbn.
  - intros a. rewrite (ab_live _ _ Ha). by setoid_rewrite Hv.
  - intros a. rewrite (ab_held _ _ Ha). by setoid_rewrite Hk.
  - intros He g o. rewrite Hk. intros Hk'. destruct (kept_range ∅ _ g o (sf_inv _ Hw) Hk'). rewrite (Y3 He g o) by done. apply (ab_owner _ _ Ha); [|done]. destruct (CP_ERROR (seg c)); [by rewrite Y2 in He|done].
Qed.
Lemma checkpoint_follows c A atgc cpc : unit_ok denv -> seg_wf c -> abstracts c A -> ready (Checkpoint atgc cpc) c -> follows c A (Checkpoint atgc cpc).
Proof.
  intros Hu Hw Ha Hr. set (q := {| entry_list := entry_list (dcc c); nr_discards := nr_discards (dcc c); issued := [] |}). assert (Hq : dcc_ok (seg c) q) by (intros a m; cbn; rewrite (sf_entries _ Hw); set_solver).
  destruct (checkpoint_ok denv atgc cpc (seg c) (disk c) q Hu Hr (sf_inv _ Hw) (sf_disk _ Hw) (sf_journal _ Hw) Hq) as (s' & d' & q' & E & Hck & Hj & Hd & _ & _ & _ & Hs & He & Hp & _). unfold follows. cbn [seg_step]. fold q. rewrite E. cbn [mbind option_bind]. eexists _, _. split; [done|].
  assert (Hk : forall g o, kept s' g o <-> valid_at (seg c) g o) by (intros g o; by apply ck_kept). assert (Hv : forall g o, valid_at s' g o <-> valid_at (seg c) g o) by (intros g o; by apply ck_valid). split; [|split].
  - constructor; cbn; [apply (checkpointed_inv (seg c)); [done|apply Hw]|unfold room; rewrite (ck_cur _ _ Hck); apply Hw| |done|apply He, Hw| |].
    + intros g Hg _. by rewrite (ck_raw (seg c) s' g Hck), Hd.
    + intros g o Hg. unfold disk_valid. rewrite Hd by done. unfold raw_of. destruct (sentries (sit (seg c)) !! g) as [se|] eqn:Eg; [|cbn; set_solver]. cbn. intros Ho. apply Hk. by exists se.
    + intros g Hg. destruct (Hp g Hg) as [Ep|Ep]; rewrite Ep; [by apply (sf_pages _ Hw)|]. destruct (seg_entry_at ∅ (seg c) g (sf_inv _ Hw) Hg) as (se & Eg & Hse). unfold raw_of. rewrite Eg. by apply check_ok.
  - cbn. intros b n Hc i Hin Hl. destruct (Hs ltac:(intros x Hx; cbn in Hx; set_solver) (b, n) Hc i Hin) as (g & o & -> & Hg & Ho & Hn). by apply (live_blk c A) in Hl.
  - constructor; cbn.
    + intros a. rewrite (ab_live _ _ Ha). by setoid_rewrite Hv.
    + intros a. rewrite (ab_live _ _ Ha). by setoid_rewrite Hk.
    + rewrite (ck_err _ _ Hck). intros Her g o Hk'. apply Hk in Hk'. destruct (valid_ok c g o Hw Hk'). rewrite (ck_summ (seg c) s' g o Hck) by done. apply (ab_owner _ _ Ha); [done|]. apply (valid_kept ∅); [apply Hw|done].
Qed.
Lemma step_follows c A o : unit_ok denv -> seg_wf c -> abstracts c A -> ready o c -> follows c A o.
Proof. intros Hu. destruct o; [apply allocate_follows|apply invalidate_follows|apply new_segment_follows|by apply checkpoint_follows]. Qed.
Lemma run_follows c es c' : unit_ok denv -> seg_run c es c' -> forall A, seg_wf c -> abstracts c A -> all_allowed A es /\ seg_wf c' /\ abstracts c' (foldl spec_step A es).
Proof.
  intros Hu Hr. induction Hr as [c|c o c1 e es c' Hrd E Hr IH]; intros A Hw Ha; [done|]. destruct (step_follows c A o Hu Hw Ha Hrd) as (c2 & e2 & E2 & Hw2 & Hal & Ha2). rewrite E in E2. injection E2 as <- <-. destruct (IH _ Hw2 Ha2) as (? & ? & ?). done.
Qed.

(** C1: Every history of allocations, invalidations, requests for new segments and
    checkpoints follows the specification of blocks: a block handed out is neither live nor
    held for the last checkpoint, live and held blocks and their owners are what the events
    say, no discard of a checkpoint covers a live block; the invariant holds again, and
    every operation whose callers see to its conditions returns. *)
Theorem seg_history_refines c A es c' : unit_ok denv -> seg_wf c -> abstracts c A -> seg_run c es c' ->
  all_allowed A es /\ seg_wf c' /\ abstracts c' (foldl spec_step A es) /\ forall o, ready o c' -> is_Some (seg_step o c').
Proof.
  intros Hu Hw Ha Hr. destruct (run_follows c es c' Hu Hr A Hw Ha) as (Hal & Hw' & Ha'). split; [done|]. split; [done|]. split; [done|]. intros o Ho. destruct (step_follows c' _ o Hu Hw' Ha' Ho) as (c2 & e & -> & _). done.
Qed.

(** ** What a crash finds *)

Lemma step_disk o c c' e : seg_step o c = Some (c', e) -> no_commit [e] -> disk c' = disk c.
Proof.
  destruct o; cbn [seg_step]; intros Hr; unbind Hr; injection Hr as <- <-; done.
Qed.
Lemma held_mono A es a : no_commit es -> a ∈ held A -> all_allowed A es -> forall old new sum, EAlloc old new sum ∈ es -> a <> new.
Proof.
  revert A. induction es as [|e es IH]; intros A Hn Ha Hal old new sum Hin; [set_solver|]. destruct Hal as [H1' H2']. apply elem_of_cons in Hin as [<-|Hin].
  - cbn in H1'. by intros ->.
  - apply (IH (spec_step A e)) with (old := old) (sum := sum); try done; destruct e; cbn in *; try done; set_solver.
Qed.
(** The state as the sets of the specification. *)
Definition abs_of (s : seg_sys) : blocks := {|
  live := set_bind (fun g => match sentries (sit s) !! g with Some se => set_map (blk g) (cur_valid_map se) | None => ∅ end) (list_to_set (seqZ 0 MAIN_SEGS) : gset Z);
  held := set_bind (fun g => match sentries (sit s) !! g with Some se => set_map (blk g) (ckpt_valid_map se) | None => ∅ end) (list_to_set (seqZ 0 MAIN_SEGS) : gset Z);
  owner := fun a => summ s (GET_SEGNO a) (GET_BLKOFF_FROM_SEG0 a) |}.
Lemma abs_of_ok c : seg_wf c -> abstracts c (abs_of (seg c)).
Proof.
  clear dependent get_victim. intros Hw. assert (Hdom : forall g se, sentries (sit (seg c)) !! g = Some se -> seg_ok g) by (intros g se E; apply (so_dom _ (si_sit _ _ (sf_inv _ Hw))); eauto). constructor; cbn.
  - intros a. rewrite elem_of_set_bind. setoid_rewrite elem_of_list_to_set. setoid_rewrite elem_of_seqZ. split.
    + intros (g & _ & Hg). destruct (sentries (sit (seg c)) !! g) as [se|] eqn:E; [|set_solver]. apply elem_of_map in Hg as (o & -> & Ho). exists g, o. split; [done|]. by exists se.
    + intros (g & o & -> & se & E & Ho). exists g. split; [specialize (Hdom g se E); lia|]. rewrite E. set_solver.
  - intros a. rewrite elem_of_set_bind. setoid_rewrite elem_of_list_to_set. setoid_rewrite elem_of_seqZ. split.
    + intros (g & _ & Hg). destruct (sentries (sit (seg c)) !! g) as [se|] eqn:E; [|set_solver]. apply elem_of_map in Hg as (o & -> & Ho). exists g, o. split; [done|]. by exists se.
    + intros (g & o & -> & se & E & Ho). exists g. split; [specialize (Hdom g se E); lia|]. rewrite E. set_solver.
  - intros _ g o Hk. destruct (kept_range ∅ _ g o (sf_inv _ Hw) Hk). by rewrite get_segno, get_blkoff.
Qed.

(** C9: Until the next checkpoint the table on disk does not change, and no block it calls
    valid is handed out: a crash finds every block of the last checkpoint in place. *)
Theorem crash_keeps_blocks c es c' : unit_ok denv -> seg_wf c -> seg_run c es c' -> no_commit es ->
  disk c' = disk c /\ forall old new sum, EAlloc old new sum ∈ es -> forall g o, seg_ok g -> disk_valid (disk c') g o -> blk g o <> new.
Proof.
  intros Hu Hw Hr Hn. assert (Hd : disk c' = disk c).
  { clear Hw. induction Hr as [c|c o c1 e es c' Hrd E Hr IH]; [done|]. rewrite IH by (by destruct e). apply (step_disk o c c1 e E). by destruct e. }
  split; [done|]. rewrite Hd. intros old new sum Hin g o Hg Hv. pose proof (abs_of_ok c Hw) as Ha. destruct (run_follows c es c' Hu Hr _ Hw Ha) as (Hal & _).
  apply (held_mono (abs_of (seg c)) es (blk g o) Hn) with (old := old) (sum := sum); [|done|done]. apply (ab_held _ _ Ha). exists g, o. split; [done|]. by apply (sf_kept _ Hw).
Qed.

(** C18: A checkpoint of the segment table can be read back: from the new pages, bitmap and
    journal every entry comes back as it was, with what is valid now as the state of the
    checkpoint; until the new pack counts, the old bitmap and journal still give the old
    table. *)
Theorem checkpoint_table c atgc cpc : unit_ok denv -> seg_wf c -> trim_ok cpc ->
  exists c' cmds, seg_step (Checkpoint atgc cpc) c = Some (c', ECommit cmds) /\ need_fsck (disk c') = need_fsck (disk c) /\ forall g, seg_ok g ->
    (exists se, sentries (sit (seg c)) !! g = Some se /\ forall dm, seg_info_from_raw_sit dm (disk_entry (disk c') g) = set_discard_map (snap se) dm) /\
    disk_entry {| sit_bitmap := sit_bitmap (disk c); s_journal := s_journal (disk c); sit_meta := sit_meta (disk c'); need_fsck := need_fsck (disk c) |} g = disk_entry (disk c) g.
Proof.
  intros Hu Hw Ht. cbn [seg_step]. set (q := {| entry_list := entry_list (dcc c); nr_discards := nr_discards (dcc c); issued := [] |}). assert (Hq : dcc_ok (seg c) q) by (intros a m; cbn; rewrite (sf_entries _ Hw); set_solver).
  destruct (checkpoint_ok denv atgc cpc (seg c) (disk c) q Hu Ht (sf_inv _ Hw) (sf_disk _ Hw) (sf_journal _ Hw) Hq) as (s' & d' & q' & E & Hck & Hj & Hd & Hold & Hf & _). rewrite E. cbn [mbind option_bind]. eexists _, _. split; [done|]. split; [done|]. intros g Hg. cbn [disk]. split.
  - destruct (seg_entry_at ∅ (seg c) g (sf_inv _ Hw) Hg) as (se & Eg & He). exists se. split; [done|]. intros dm. rewrite Hd by done. unfold raw_of. rewrite Eg. pose proof (entry_bounds se He) as [Hb _]. pose proof bps_range.
    destruct (sit_vblocks_law (se_type se) (valid_blocks se) (eo_type se He) ltac:(lia)) as [V1 V2]. unfold seg_info_from_raw_sit, __seg_info_to_raw_sit, snap, set_discard_map. cbn. by rewrite V1, V2.
  - unfold disk_entry. cbn. destruct (jget (s_journal (disk c)) g); [done|]. by rewrite Hold by apply block_of, Hg.
Qed.
End system.
