(* ===== verification/SegSums.v ===== *)
(** * Compacted summaries (segment.c)

    A checkpoint saves the cached summary blocks of the logs.  If the three logs of data
    have few entries in all, they are written one after the other from the first page of
    summaries on, behind the two journals ([write_compacted_summaries]); a mount reads them
    back ([read_compacted_summaries]). *)

From S2P Require Import Prelude FreeNid NatCache SegBitmap SegState SegAlloc.

(** The sizes of the parts of a summary block (the kernel's f2fs_fs.h). *)
Class SumFormat := {
  PAGE_SIZE : Z; SUM_JOURNAL_SIZE : Z; SUMMARY_SIZE : Z; SUM_FOOTER_SIZE : Z;
  sum_sizes : 0 < SUMMARY_SIZE /\ 0 <= SUM_JOURNAL_SIZE /\ 2 * SUM_JOURNAL_SIZE + SUMMARY_SIZE <= PAGE_SIZE - SUM_FOOTER_SIZE
}.
(** The summaries of a page by their offset in bytes. *)
Notation sum_mem := (Z -> Z -> f2fs_summary).

Section sums.
Context `{SumFormat}.

(** ** Writing *)

(** The page that is filled, if there is one, the address of the next, and the bytes used. *)
Record sum_writer := { w_mem : sum_mem; w_page : option Z; w_blkaddr : Z; w_size : Z }.
Definition grab_page (w : sum_writer) : sum_writer :=
  {| w_mem := upd (w_mem w) (w_blkaddr w) (fun _ => zero_summary); w_page := Some (w_blkaddr w); w_blkaddr := w_blkaddr w + 1; w_size := 0 |}.
Definition write_entry (w : sum_writer) (e : f2fs_summary) : sum_writer :=
  let w := match w_page w with Some _ => w | None => grab_page w end in
  match w_page w with
  | None => w
  | Some a =>
      let size := w_size w + SUMMARY_SIZE in
      {| w_mem := upd (w_mem w) a (upd (w_mem w a) (w_size w) e); w_page := if size + SUMMARY_SIZE <=? PAGE_SIZE - SUM_FOOTER_SIZE then Some a else None;
         w_blkaddr := w_blkaddr w; w_size := size |}
  end.
(** The entries of a log up to [blkoff]. *)
Definition write_log (w : sum_writer) (entries : Z -> f2fs_summary) (blkoff : Z) : sum_writer := foldl (fun w j => write_entry w (entries j)) w (seqZ 0 blkoff).
Definition first_page (mem : sum_mem) (blkaddr : Z) : sum_writer :=
  let w := grab_page {| w_mem := mem; w_page := None; w_blkaddr := blkaddr; w_size := 0 |} in
  {| w_mem := w_mem w; w_page := w_page w; w_blkaddr := w_blkaddr w; w_size := SUM_JOURNAL_SIZE + SUM_JOURNAL_SIZE |}.
(** [write_compacted_summaries] for the logs [i] with their entries and numbers. *)
Definition write_compacted_summaries (mem : sum_mem) (blkaddr : Z) (entries : Z -> Z -> f2fs_summary) (blkoff : Z -> Z) : sum_mem :=
  w_mem (foldl (fun w i => write_log w (entries i) (blkoff i)) (first_page mem blkaddr) [CURSEG_HOT_DATA; CURSEG_WARM_DATA; CURSEG_COLD_DATA]).

(** ** Reading *)

Context (readable : Z -> bool).
(** The page that is read, the address of the next, and the offset. *)
Record sum_reader := { r_page : Z; r_start : Z; r_offset : Z }.
(** The entry at the offset, and the place of the next one; no result is a page that
    cannot be read. *)
Definition read_entry (mem : sum_mem) (r : sum_reader) : option (f2fs_summary * sum_reader) :=
  let s := mem (r_page r) (r_offset r) in
  let offset := r_offset r + SUMMARY_SIZE in
  if offset + SUMMARY_SIZE <=? PAGE_SIZE - SUM_FOOTER_SIZE then Some (s, {| r_page := r_page r; r_start := r_start r; r_offset := offset |})
  else if readable (r_start r) then Some (s, {| r_page := r_start r; r_start := r_start r + 1; r_offset := 0 |}) else None.
Fixpoint read_log (mem : sum_mem) (l : list Z) (entries : Z -> f2fs_summary) (r : sum_reader) : option ((Z -> f2fs_summary) * sum_reader) :=
  match l with
  | [] => Some (entries, r)
  | j :: l => '(s, r) ← read_entry mem r; read_log mem l (upd entries j s) r
  end.
Definition open_sums (start : Z) : option sum_reader := if readable start then Some {| r_page := start; r_start := start + 1; r_offset := 2 * SUM_JOURNAL_SIZE |} else None.

(** Step 3 of [read_compacted_summaries]: the logs one after the other,
    each into its cached block. *)
Fixpoint read_logs (mem : sum_mem) (blkoff : Z -> Z) (logs : list Z) (cached : Z -> Z -> f2fs_summary) (r : sum_reader) : option (Z -> Z -> f2fs_summary) :=
  match logs with
  | [] => Some cached
  | i :: logs => '(es, r) ← read_log mem (seqZ 0 (blkoff i)) (cached i) r; read_logs mem blkoff logs (upd cached i es) r
  end.
Definition read_compacted (mem : sum_mem) (start : Z) (blkoff : Z -> Z) (cached : Z -> Z -> f2fs_summary) : option (Z -> Z -> f2fs_summary) :=
  r ← open_sums start; read_logs mem blkoff [CURSEG_HOT_DATA; CURSEG_WARM_DATA; CURSEG_COLD_DATA] cached r.

(** [f2fs_npages_for_summary_flush]. *)
Definition f2fs_npages_for_summary_flush (blkoff : Z -> Z) : Z :=
  let n := blkoff CURSEG_HOT_DATA + blkoff CURSEG_WARM_DATA + blkoff CURSEG_COLD_DATA in
  let sum_in_page := (PAGE_SIZE - 2 * SUM_JOURNAL_SIZE - SUM_FOOTER_SIZE) / SUMMARY_SIZE in
  if n <=? sum_in_page then 1 else if n - sum_in_page <=? (PAGE_SIZE - SUM_FOOTER_SIZE) / SUMMARY_SIZE then 2 else 3.

(** ** Both walk the same places *)

Definition place : Type := Z * Z.
Definition next_place (p : place) : place := if p.2 + SUMMARY_SIZE + SUMMARY_SIZE <=? PAGE_SIZE - SUM_FOOTER_SIZE then (p.1, p.2 + SUMMARY_SIZE) else (p.1 + 1, 0).
Fixpoint place_at (p : place) (n : nat) : place := match n with O => p | S n => place_at (next_place p) n end.
Definition before (p q : place) : Prop := p.1 < q.1 \/ p.1 = q.1 /\ p.2 < q.2.
Definition place_ok (p : place) : Prop := 0 <= p.2.

Lemma before_trans p q r : before p q -> before q r -> before p r.
Proof. unfold before. lia. Qed.
Lemma next_before p : place_ok p -> before p (next_place p) /\ place_ok (next_place p).
Proof. pose proof sum_sizes. unfold before, place_ok, next_place. intros Hp. destruct (_ <=? _); cbn; lia. Qed.
Lemma place_S p n : place_at p (S n) = next_place (place_at p n).
Proof. revert p. induction n as [|n IH]; intros p; [done|]. change (place_at p (S (S n))) with (place_at (next_place p) (S n)). rewrite IH. done. Qed.
Lemma place_at_ok p n : place_ok p -> place_ok (place_at p n).
Proof. intros Hp. induction n as [|n IH]; [done|]. rewrite place_S. by apply next_before. Qed.
Lemma place_lt p i n : place_ok p -> (i < n)%nat -> before (place_at p i) (place_at p n).
Proof.
  intros Hp. induction n as [|n IH]; intros Hi; [lia|]. rewrite place_S. destruct (next_before (place_at p n) (place_at_ok p n Hp)) as [Hb _]. destruct (decide (i = n)) as [->|]; [done|]. apply (before_trans _ (place_at p n)); [apply IH; lia|done].
Qed.
Lemma place_add p n m : place_at p (n + m) = place_at (place_at p n) m.
Proof. revert p. induction n as [|n IH]; intros p; [done|]. cbn. apply IH. Qed.

(** The writer is at the place [p]. *)
Definition at_place (w : sum_writer) (p : place) : Prop :=
  match w_page w with Some a => p = (a, w_size w) /\ w_blkaddr w = a + 1 | None => p = (w_blkaddr w, 0) end.
Lemma write_entry_at w e p : place_ok p -> at_place w p ->
  at_place (write_entry w e) (next_place p) /\ w_mem (write_entry w e) p.1 p.2 = e /\ forall q, place_ok q -> before q p -> w_mem (write_entry w e) q.1 q.2 = w_mem w q.1 q.2.
Proof.
  intros Hp Hw. unfold write_entry. set (w1 := match w_page w with Some _ => w | None => grab_page w end).
  assert (H1 : w_page w1 = Some p.1 /\ w_size w1 = p.2 /\ w_blkaddr w1 = p.1 + 1 /\ forall q, place_ok q -> before q p -> w_mem w1 q.1 q.2 = w_mem w q.1 q.2).
  { unfold w1, at_place in *. destruct (w_page w) as [a|] eqn:E; [destruct Hw as [-> ?]; done|]. subst p. cbn. split; [done|]. split; [done|]. split; [done|]. intros q Hq Hb. unfold before, place_ok in *. cbn in Hb. unfold upd. rewrite decide_False by lia. done. }
  clearbody w1. destruct H1 as (E1 & E2 & E3 & E4). rewrite E1. cbn. split; [|split].
  - unfold at_place, next_place. cbn. rewrite E2. destruct (_ <=? _); cbn; rewrite ?E3; done.
  - rewrite E2. unfold upd. by rewrite !decide_True.
  - intros q Hq Hb. rewrite <-E4 by done. rewrite E2. unfold upd at 1. destruct (decide (q.1 = p.1)) as [Ea|]; [|done]. unfold upd. rewrite decide_False by (unfold before in Hb; lia). by rewrite Ea.
Qed.
Lemma write_entries_at l w p : place_ok p -> at_place w p ->
  let w' := foldl write_entry w l in at_place w' (place_at p (length l)) /\ (forall i e, l !! i = Some e -> w_mem w' (place_at p i).1 (place_at p i).2 = e) /\
    forall q, place_ok q -> before q p -> w_mem w' q.1 q.2 = w_mem w q.1 q.2.
Proof.
  revert w p. induction l as [|e l IH]; intros w p Hp Hw; [done|]. cbn [foldl length]. destruct (write_entry_at w e p Hp Hw) as (W1 & W2 & W3). destruct (next_before p Hp) as [Hb Hp']. destruct (IH (write_entry w e) (next_place p) Hp' W1) as (I1 & I2 & I3).
  split; [done|]. split.
  - intros [|i] x; cbn [lookup list_lookup place_at]; [|apply I2]. intros [= ->]. by rewrite (I3 p Hp Hb).
  - intros q Hq Hqp. rewrite I3; [by apply W3|done|by apply (before_trans q p)].
Qed.

(** The reader is at the place [p]. *)
Lemma read_log_at mem l : NoDup l -> forall entries a o, (forall x, readable x = true) -> exists entries', read_log mem l entries {| r_page := a; r_start := a + 1; r_offset := o |} = Some (entries', let p := place_at (a, o) (length l) in {| r_page := p.1; r_start := p.1 + 1; r_offset := p.2 |}) /\
  (forall i j, l !! i = Some j -> entries' j = mem (place_at (a, o) i).1 (place_at (a, o) i).2) /\ forall j, j ∉ l -> entries' j = entries j.
Proof.
  intros Hn. induction Hn as [|j l Hj Hn IH]; intros entries a o Hr; [by exists entries|]. cbn [read_log length place_at]. unfold read_entry. cbn [r_page r_offset r_start]. rewrite Hr.
  assert (Hgo : forall p, next_place (a, o) = p -> exists entries', read_log mem l (upd entries j (mem a o)) {| r_page := p.1; r_start := p.1 + 1; r_offset := p.2 |} = Some (entries', let p := place_at (next_place (a, o)) (length l) in {| r_page := p.1; r_start := p.1 + 1; r_offset := p.2 |}) /\
    (forall i k, (j :: l) !! i = Some k -> entries' k = mem (place_at (a, o) i).1 (place_at (a, o) i).2) /\ forall k, k ∉ j :: l -> entries' k = entries k).
  { intros [a' o'] Ep. cbn [fst snd]. destruct (IH (upd entries j (mem a o)) a' o' Hr) as (es & -> & I1 & I2). exists es. rewrite Ep. split; [done|]. split.
    - intros [|i] k; cbn; [|rewrite Ep; apply I1]. intros [= ->]. rewrite I2 by done. unfold upd. by rewrite decide_True.
    - intros k Hk. rewrite I2 by set_solver. unfold upd. rewrite decide_False; [done|set_solver]. }
  destruct (_ <=? _) eqn:El; [apply (Hgo (a, o + SUMMARY_SIZE))|apply (Hgo (a + 1, 0))]; unfold next_place; cbn [fst snd]; by rewrite El.
Qed.

(** The entries in the order they are written. *)
Definition all_entries (entries : Z -> Z -> f2fs_summary) (blkoff : Z -> Z) (logs : list Z) : list f2fs_summary := logs ≫= fun i => entries i <$> seqZ 0 (blkoff i).
Lemma write_logs_at entries blkoff logs w : foldl (fun w i => write_log w (entries i) (blkoff i)) w logs = foldl write_entry w (all_entries entries blkoff logs).
Proof.
  revert w. induction logs as [|i logs IH]; intros w; [done|]. cbn [foldl]. rewrite IH. change (all_entries entries blkoff (i :: logs)) with ((entries i <$> seqZ 0 (blkoff i)) ++ all_entries entries blkoff logs). rewrite foldl_app. f_equal.
  unfold write_log. generalize (seqZ 0 (blkoff i)) as l. intros l. revert w. induction l as [|j l IHl]; intros w; [done|]. cbn. apply IHl.
Qed.
Lemma read_logs_at mem entries blkoff logs : (forall x, readable x = true) -> NoDup logs -> forall cached a o, (forall k e, all_entries entries blkoff logs !! k = Some e -> mem (place_at (a, o) k).1 (place_at (a, o) k).2 = e) ->
  exists cached', read_logs mem blkoff logs cached {| r_page := a; r_start := a + 1; r_offset := o |} = Some cached' /\
    (forall i j, i ∈ logs -> 0 <= j < blkoff i -> cached' i j = entries i j) /\ forall i j, i ∉ logs \/ ~ 0 <= j < blkoff i -> cached' i j = cached i j.
Proof.
  intros Hr Hn. induction Hn as [|i logs Hi Hn IH]; intros cached a o Hm; cbn [read_logs].
  { exists cached. split; [done|]. split; [set_solver|done]. }
  destruct (read_log_at mem (seqZ 0 (blkoff i)) (NoDup_seqZ _ _) (cached i) a o Hr) as (es & -> & E1 & E2). cbn [mbind option_bind]. rewrite length_seqZ. set (n := Z.to_nat (blkoff i)).
  assert (Hes : forall j, 0 <= j < blkoff i -> es j = entries i j).
  { intros j Hj. assert (Hl : seqZ 0 (blkoff i) !! Z.to_nat j = Some j) by (apply lookup_seqZ; lia). rewrite (E1 _ _ Hl). apply Hm. change (all_entries entries blkoff (i :: logs)) with ((entries i <$> seqZ 0 (blkoff i)) ++ all_entries entries blkoff logs).
    rewrite lookup_app_l by (rewrite length_fmap, length_seqZ; lia). by rewrite list_lookup_fmap, Hl. }
  destruct (place_at (a, o) n) as [a' o'] eqn:Ep. cbv zeta. cbn [fst snd]. destruct (IH (upd cached i es) a' o') as (c' & -> & I1 & I2).
  { intros k e Hk. rewrite <-Ep, <-place_add. apply Hm. change (all_entries entries blkoff (i :: logs)) with ((entries i <$> seqZ 0 (blkoff i)) ++ all_entries entries blkoff logs).
    rewrite lookup_app_r by (rewrite length_fmap, length_seqZ; lia). rewrite length_fmap, length_seqZ. fold n. by replace (n + k - n)%nat with k by lia. }
  exists c'. split; [done|]. split.
  - intros x j [->|Hx]%elem_of_cons Hj; [|by apply I1]. rewrite I2 by (by left). unfold upd. rewrite decide_True by done. by apply Hes.
  - intros x j Hor. destruct (decide (x = i)) as [->|Hne].
    + rewrite I2 by (by left). unfold upd. rewrite decide_True by done. apply E2. rewrite elem_of_seqZ. destruct Hor as [Hx|Hj]; [set_solver|lia].
    + rewrite I2 by (destruct Hor; [left; set_solver|by right]). unfold upd. by rewrite decide_False.
Qed.

(** C25: Compacted summaries can be read back: what a checkpoint writes of the three logs of
    data, a mount puts into their cached blocks, entry by entry, and changes nothing else;
    both move to the next page at the same entries. *)
Theorem compacted_summaries_roundtrip mem start entries blkoff cached : (forall a, readable a = true) ->
  exists cached', read_compacted (write_compacted_summaries mem start entries blkoff) start blkoff cached = Some cached' /\
    forall i j, cached' i j = if decide (0 <= i < CURSEG_HOT_NODE /\ 0 <= j < blkoff i) then entries i j else cached i j.
Proof.
  intros Hr. unfold read_compacted, open_sums. rewrite Hr. cbn [mbind option_bind]. set (logs := [CURSEG_HOT_DATA; CURSEG_WARM_DATA; CURSEG_COLD_DATA]). pose proof sum_sizes.
  unfold write_compacted_summaries. fold logs. rewrite write_logs_at. destruct (write_entries_at (all_entries entries blkoff logs) (first_page mem start) (start, 2 * SUM_JOURNAL_SIZE)) as (_ & W2 & _).
  - unfold place_ok. cbn. lia.
  - unfold at_place. cbn. split; [f_equal; lia|done].
  - assert (Hn : NoDup logs) by (unfold logs; repeat constructor; set_solver). destruct (read_logs_at (w_mem (foldl write_entry (first_page mem start) (all_entries entries blkoff logs))) entries blkoff logs Hr Hn cached start (2 * SUM_JOURNAL_SIZE) W2) as (c' & E & R1 & R2).
    assert (Hin : forall i, i ∈ logs <-> 0 <= i < CURSEG_HOT_NODE) by (intros i; unfold logs; rewrite !elem_of_cons, elem_of_nil; unfold CURSEG_HOT_DATA, CURSEG_WARM_DATA, CURSEG_COLD_DATA, CURSEG_HOT_NODE; lia).
    exists c'. split; [done|]. intros i j. destruct (decide (0 <= i < CURSEG_HOT_NODE /\ 0 <= j < blkoff i)) as [[Hi Hj]|Hno]; [apply R1; [by apply Hin|done]|]. apply R2. rewrite Hin. lia.
Qed.
End sums.
