(* ===== verification/SegMount.v ===== *)
(** * Building the segment manager at mount (segment.c, node.c)

    From the checkpoint come the places of the six logs and their summaries
    ([restore_curseg_summaries]), from the segment table and its journal the entries
    ([build_sit_entries]); free and dirty segments follow from these
    ([init_free_segmap], [init_dirty_segmap]), and the logs are checked against them
    ([sanity_check_curseg]).  Memory is taken to be available. *)

From S2P Require Import Prelude FreeNid NatCache SegBitmap SegState SegAlloc SegDiscard SegFlush SegSums.

(** What the checkpoint says of the logs and of its own pack. *)
Record cp_info := {
  cur_segno : Z -> Z; cur_blkoff : Z -> Z; cp_alloc_type : Z -> Z; valid_node_count : Z; start_cp_addr : Z; cp_pack_start_sum : Z; cp_pack_total_block_count : Z;
  CP_COMPACT_SUM_FLAG : bool; exist_node_summaries : bool; CP_TRIMMED_FLAG : bool; cp_disabled : bool
}.
(** The device: which pages can be read, the summaries of a checkpoint pack and of the
    summary area, and the node id in the footer of a node block; the clock. *)
Record mount_env := { meta_readable : Z -> bool; pack : sum_mem; ssa_pages : Z -> Z -> f2fs_summary; node_readable : Z -> bool; footer_nid : Z -> Z; now : Z }.
Inductive mount_error := EIO | EFSCORRUPTED | EINVAL.

(** A step may run into a failed assertion (no result) or return an error. *)
Definition attempt (A : Type) : Type := option (mount_error + A).
Definition attempt_bind {A B} (m : attempt A) (k : A -> attempt B) : attempt B := match m with None => None | Some (inl e) => Some (inl e) | Some (inr a) => k a end.
Notation "'let?' x := m 'in' k" := (attempt_bind m (fun x => k)) (at level 200, x name, right associativity).
Definition lift {A} (m : option A) : attempt A := a ← m; Some (inr a).

Section mount.
Context `{SitFormat} `{SumFormat} (denv : discard_env) (NAT_JOURNAL_ENTRIES : Z) (env : mount_env) (ck : cp_info).

(** ** Logs *)

Definition start_sum_block : Z := start_cp_addr ck +! cp_pack_start_sum ck.
Definition sum_blk_addr (base type : Z) : Z := u32 (start_cp_addr ck + cp_pack_total_block_count ck - (base + 1) + type).
Definition NR_CURSEG_DATA_TYPE : Z := 3.
Definition NR_CURSEG_NODE_TYPE : Z := 3.
Definition NR_CURSEG_PERSIST_TYPE : Z := 6.
(** The loop of [build_curseg]. *)
Definition init_curseg (i : Z) : curseg_info :=
  {| sum_blk := fun _ => zero_summary; entry_type := 0; alloc_type := LFS; seg_type := if i <? NR_PERSISTENT_LOG then i else CURSEG_COLD_DATA; segno := NULL_SEGNO; next_blkoff := 0;
     zone := 0; next_segno := 0; inited := false |}.
(** The part of [f2fs_sanity_check_ckpt] (super.c) about the logs, for a file system that
    is not of the read-only kind: places in range, and no two logs in one segment. *)
Definition log_place_ok (t : Z) : bool := negb ((MAIN_SEGS <=? cur_segno ck t) || (blks_per_seg <=? cur_blkoff ck t)).
Definition logs_apart (base n : Z) : bool :=
  forallb (fun i => log_place_ok (base + i) && forallb (fun j => negb (cur_segno ck (base + i) =? cur_segno ck (base + j))) (seqZ (i + 1) (n - (i + 1)))) (seqZ 0 n).
Definition sanity_check_logs : bool :=
  logs_apart CURSEG_HOT_NODE NR_CURSEG_NODE_TYPE && logs_apart CURSEG_HOT_DATA NR_CURSEG_DATA_TYPE &&
  forallb (fun i => forallb (fun j => negb (cur_segno ck (CURSEG_HOT_NODE + i) =? cur_segno ck (CURSEG_HOT_DATA + j))) (seqZ 0 NR_CURSEG_DATA_TYPE)) (seqZ 0 NR_CURSEG_NODE_TYPE).
(** The place of a log. *)
Definition restore_log (s : seg_sys) (t : Z) : option seg_sys :=
  s ← reset_curseg (with_curseg s t (set_next_segno (CURSEG_I s t) (cur_segno ck t))) t false;
  Some (with_curseg s t (set_next_blkoff (set_alloc_type (CURSEG_I s t) (cp_alloc_type ck t)) (cur_blkoff ck t))).

Fixpoint compact_logs (logs : list Z) (s : seg_sys) (r : sum_reader) : attempt seg_sys :=
  match logs with
  | [] => Some (inr s)
  | i :: logs =>
      let? s := lift (restore_log s i) in
      let blk_off := if alloc_type (CURSEG_I s i) =? SSR then blks_per_seg else cur_blkoff ck i in
      match read_log (meta_readable env) (pack env) (seqZ 0 blk_off) (sum_blk (CURSEG_I s i)) r with
      | None => Some (inl EIO)
      | Some (es, r) => compact_logs logs (with_curseg s i (set_sum (CURSEG_I s i) es)) r
      end
  end.
Definition read_compacted_summaries (s : seg_sys) : attempt seg_sys :=
  match open_sums (meta_readable env) start_sum_block with
  | None => Some (inl EIO)
  | Some r => compact_logs [CURSEG_HOT_DATA; CURSEG_WARM_DATA; CURSEG_COLD_DATA] s r
  end.

(** [f2fs_restore_node_summary] (node.c): the summary of a segment from its node blocks. *)
Fixpoint restore_node_loop (l : list Z) (addr : Z) (sum : Z -> f2fs_summary) : attempt (Z -> f2fs_summary) :=
  match l with
  | [] => Some (inr sum)
  | i :: l =>
      if negb (node_readable env (addr +! i)) then Some (inl EIO)
      else restore_node_loop l addr (upd sum i {| sum_nid := footer_nid env (addr +! i); sum_version := 0; ofs_in_node := 0 |})
  end.
Definition f2fs_restore_node_summary (segno : Z) (sum : Z -> f2fs_summary) : attempt (Z -> f2fs_summary) := restore_node_loop (seqZ 0 blks_per_seg) (START_BLOCK segno) sum.

(** The summaries of a page of the pack, or of one of the summary area. *)
Definition pack_page (a : Z) : Z -> f2fs_summary := fun j => pack env a (j * SUMMARY_SIZE).
Definition read_normal_summaries (s : seg_sys) (type : Z) : attempt seg_sys :=
  let segno := cur_segno ck type in
  let '(blk_addr, page) :=
    if IS_DATASEG type then let a := sum_blk_addr (if exist_node_summaries ck then NR_CURSEG_PERSIST_TYPE else NR_CURSEG_DATA_TYPE) type in (a, pack_page a)
    else if exist_node_summaries ck then let a := sum_blk_addr NR_CURSEG_NODE_TYPE (type - CURSEG_HOT_NODE) in (a, pack_page a)
    else (GET_SUM_BLOCK segno, ssa_pages env (GET_SUM_BLOCK segno)) in
  if negb (meta_readable env blk_addr) then Some (inl EIO)
  else
    let? sum := (if IS_NODESEG type then
               if exist_node_summaries ck then Some (inr (fun j => if (0 <=? j) && (j <? blks_per_seg) then {| sum_nid := sum_nid (page j); sum_version := 0; ofs_in_node := 0 |} else page j))
               else f2fs_restore_node_summary segno page
             else Some (inr page)) in
    lift (restore_log (with_curseg s type (set_sum (CURSEG_I s type) sum)) type).
Fixpoint normal_logs (l : list Z) (s : seg_sys) : attempt seg_sys := match l with [] => Some (inr s) | t :: l => let? s := read_normal_summaries s t in normal_logs l s end.
(** [restore_curseg_summaries]; [nats] is the number of entries of the journal of the node
    table, which has room for [NAT_JOURNAL_ENTRIES]. *)
Definition restore_curseg_summaries (d : sit_disk) (nats : Z) (s : seg_sys) : attempt seg_sys :=
  let? r := (if CP_COMPACT_SUM_FLAG ck then let? s := read_compacted_summaries s in Some (inr (s, CURSEG_HOT_NODE)) else Some (inr (s, CURSEG_HOT_DATA))) in
  let '(s, type) := r in
  let? s := normal_logs (seqZ type (CURSEG_COLD_NODE - type + 1)) s in
  if (NAT_JOURNAL_ENTRIES <? nats) || (SIT_JOURNAL_ENTRIES <? Z.of_nat (length (s_journal d))) then Some (inl EINVAL) else Some (inr s).

(** ** The segment table *)

Definition full_map : gset Z := list_to_set (seqZ 0 blks_per_seg).
(** The part of both loops of [build_sit_entries] that loads an entry; [gained] and [lost]
    are what each adds to the blocks that may be discarded and takes from the section. *)
Definition load_entry (s : seg_sys) (g : Z) (rs : f2fs_sit_entry) (gained lost : Z) : option seg_sys :=
  se ← get_seg_entry s g;
  let se' := seg_info_from_raw_sit (if f2fs_block_unit_discard denv then if CP_TRIMMED_FLAG ck then full_map else valid_map rs else discard_map se) rs in
  let db := if f2fs_block_unit_discard denv && negb (CP_TRIMMED_FLAG ck) then discard_blks s +! gained -! valid_blocks se' else discard_blks s in
  let s := with_counts (put_se s g se') db (unusable_block_count s) in
  sec ← if is_large_section then v ← sec_entries (sit s) !! GET_SEC_FROM_SEG g; Some (<[GET_SEC_FROM_SEG g := v +! valid_blocks se' -! lost]> (sec_entries (sit s))) else Some (sec_entries (sit s));
  Some (with_sit s {| sentries := sentries (sit s); sec_entries := sec; written_valid_blocks := written_valid_blocks (sit s); dirty_sentries_bitmap := dirty_sentries_bitmap (sit s); dirty_sentries := dirty_sentries (sit s) |}).
Definition node_part (s : seg_sys) (g : Z) : Z := match get_seg_entry s g with Some se => if IS_NODESEG (se_type se) then valid_blocks se else 0 | None => 0 end.

Fixpoint sit_page_loop (l : list Z) (d : sit_disk) (s : seg_sys) (nodes : Z) : attempt (seg_sys * Z) :=
  match l with
  | [] => Some (inr (s, nodes))
  | g :: l =>
      let? a := lift (current_sit_addr d g) in
      if negb (meta_readable env a) then Some (inl EIO)
      else
        let rs := sit_meta d a (SIT_ENTRY_OFFSET g) in
        let? err := lift (check_block_count g rs) in
        if err : bool then Some (inl EFSCORRUPTED)
        else let? s := lift (load_entry s g rs blks_per_seg 0) in sit_page_loop l d s (nodes +! node_part s g)
  end.
Fixpoint sit_journal_loop (j : list (Z * f2fs_sit_entry)) (s : seg_sys) (nodes : Z) : attempt (seg_sys * Z) :=
  match j with
  | [] => Some (inr (s, nodes))
  | (g, rs) :: j =>
      if MAIN_SEGS <=? g then Some (inl EFSCORRUPTED)
      else
        let? se := lift (get_seg_entry s g) in
        let nodes := nodes -! node_part s g in
        let? err := lift (check_block_count g rs) in
        if err : bool then Some (inl EFSCORRUPTED)
        else let? s := lift (load_entry s g rs (valid_blocks se) (valid_blocks se)) in sit_journal_loop j s (nodes +! node_part s g)
  end.
(** [build_sit_entries]; pages are read ahead in batches, which changes nothing here. *)
Definition build_sit_entries (d : sit_disk) (s : seg_sys) : attempt seg_sys :=
  let? r := sit_page_loop (seqZ 0 MAIN_SEGS) d s 0 in
  let? r := sit_journal_loop (s_journal d) r.1 r.2 in
  let '(s, nodes) := r in
  if nodes =? valid_node_count ck then Some (inr s) else Some (inl EFSCORRUPTED).

(** ** Free and dirty segments *)

Fixpoint init_free_loop (l : list Z) (s : seg_sys) : option seg_sys :=
  match l with
  | [] => Some s
  | g :: l =>
      se ← get_seg_entry s g;
      init_free_loop l
        (if valid_blocks se =? 0 then with_fre s (__set_free (fre s) g)
         else with_sit s {| sentries := sentries (sit s); sec_entries := sec_entries (sit s); written_valid_blocks := written_valid_blocks (sit s) +! valid_blocks se;
                            dirty_sentries_bitmap := dirty_sentries_bitmap (sit s); dirty_sentries := dirty_sentries (sit s) |})
  end.
Definition init_free_segmap (s : seg_sys) : option seg_sys :=
  s ← init_free_loop (seqZ 0 MAIN_SEGS) s;
  Some (with_fre s (foldl (fun f t => __set_test_and_inuse f (segno (CURSEG_I s t))) (fre s) (seqZ 0 NR_PERSISTENT_LOG))).

Fixpoint init_dirty_loop (l : list Z) (s : seg_sys) : option seg_sys :=
  match l with
  | [] => Some s
  | g :: l =>
      v ← get_valid_blocks s g false;
      if (v =? f2fs_usable_blks_in_seg g) || (v =? 0) then init_dirty_loop l s
      else if f2fs_usable_blks_in_seg g <? v then None
      else s ← __locate_dirty_segment s g DIRTY; init_dirty_loop l s
  end.
Fixpoint init_secmap_loop (l : list Z) (s : seg_sys) : option seg_sys :=
  match l with
  | [] => Some s
  | c :: l =>
      v ← get_valid_blocks s (c * segs_per_sec) true;
      let secno := GET_SEC_FROM_SEG (c * segs_per_sec) in
      init_secmap_loop l (if (v =? 0) || (v =? BLKS_PER_SEC) || IS_CURSEC s secno then s else with_dirt s (set_secmap (dirt s) ({[secno]} ∪ dirty_secmap (dirt s))))
  end.
Definition init_dirty_segmap (s : seg_sys) : option seg_sys :=
  s ← init_dirty_loop (set_bits (free_segmap (fre s)) MAIN_SEGS) s;
  if is_large_section then init_secmap_loop (seqZ 0 MAIN_SECS) s else Some s.

(** ** Checks and times *)

(** A log of [sanity_check_curseg]; the file system is not one of the read-only kind. *)
Definition curseg_sane (s : seg_sys) (i : Z) : option bool :=
  let c := CURSEG_I s i in
  se ← get_seg_entry s (segno c);
  if NR_PERSISTENT_LOG <=? seg_type c then None
  else if decide (next_blkoff c ∈ cur_valid_map se) then Some false
  else if alloc_type c =? SSR then Some true
  else Some (forallb (fun o => bool_decide (o ∉ cur_valid_map se)) (seqZ (next_blkoff c + 1) (blks_per_seg - (next_blkoff c + 1)))).
Fixpoint sanity_loop (l : list Z) (s : seg_sys) : attempt unit :=
  match l with
  | [] => Some (inr tt)
  | i :: l => let? ok := lift (curseg_sane s i) in if ok : bool then sanity_loop l s else Some (inl EFSCORRUPTED)
  end.
Definition sanity_check_curseg (s : seg_sys) : attempt unit := sanity_loop (seqZ 0 NR_PERSISTENT_LOG) s.

Definition section_time (s : seg_sys) (c : Z) : Z := foldl (fun m g => u64 (m + match get_seg_entry s g with Some se => se_mtime se | None => 0 end)) 0 (seqZ (c * segs_per_sec) segs_per_sec) / segs_per_sec.
Definition init_min_max_mtime (s : seg_sys) : seg_sys :=
  let v := vict s in
  with_vict s {| victim_secmap := victim_secmap v; last_victim := last_victim v; cur_victim_sec := cur_victim_sec v; next_victim_seg := next_victim_seg v;
                 min_mtime := foldl (fun m c => if section_time s c <? m then section_time s c else m) (2 ^ 64 - 1) (seqZ 0 MAIN_SECS); max_mtime := now env;
                 dirty_min_mtime := dirty_min_mtime v; dirty_max_mtime := 0 |}.

(** ** Everything *)

Definition zero_se : seg_entry := {| se_type := 0; valid_blocks := 0; ckpt_valid_blocks := 0; cur_valid_map := ∅; ckpt_valid_map := ∅; discard_map := ∅; se_mtime := 0 |}.
(** [build_sit_info], [build_free_segmap], the arrays of [build_curseg] and
    [build_dirty_segmap], before anything is read. *)
Definition blank_sys (v : victim_info) : seg_sys :=
  {| sit := {| sentries := list_to_map ((fun g => (g, zero_se)) <$> seqZ 0 MAIN_SEGS); sec_entries := if is_large_section then list_to_map ((fun c => (c, 0)) <$> seqZ 0 MAIN_SECS) else ∅;
               written_valid_blocks := 0; dirty_sentries_bitmap := ∅; dirty_sentries := 0 |};
     fre := {| free_segmap := list_to_set (seqZ 0 MAIN_SEGS); free_secmap := list_to_set (seqZ 0 MAIN_SECS); free_segments := 0; free_sections := 0 |};
     dirt := {| dirty_segmap := fun _ => ∅; nr_dirty := fun _ => 0; dirty_secmap := ∅ |}; vict := v; CURSEG_I := init_curseg; ssa := ssa_pages env;
     discard_blks := 0; unusable_block_count := 0; CP_DISABLED := cp_disabled ck; CP_ERROR := false |}.
Definition f2fs_build_segment_manager (d : sit_disk) (nats : Z) (v : victim_info) : attempt seg_sys :=
  let? s := restore_curseg_summaries d nats (blank_sys v) in
  let? s := build_sit_entries d s in
  let? s := lift (init_free_segmap s) in
  let? s := lift (init_dirty_segmap s) in
  let? _ := sanity_check_curseg s in
  Some (inr (init_min_max_mtime s)).
End mount.
