(* ===== verification/SegTable.v ===== *)
(** * The segment table as a mount reads it *)

From S2P Require Import Prelude FreeNid NatCache SegBitmap SegState SegAlloc SegInv SegLists SegCur SegSwitch SegVictim SegVictimProps SegBlocks SegData SegDiscard SegFlush SegFlushProps SegSums SegMount.

(** ** Sums over segments *)

Definition sumf (f : Z -> Z) (l : list Z) : Z := foldr (fun g a => f g + a) 0 l.
Lemma sumf_ext f f' l : (forall g, g ∈ l -> f' g = f g) -> sumf f' l = sumf f l.
Proof. induction l as [|g l IH]; intros Hf; [done|]. cbn [sumf foldr]. fold (sumf f l) (sumf f' l). rewrite (Hf g), (IH ltac:(set_solver)) by set_solver. done. Qed.
Lemma sumf_update f f' l g : NoDup l -> g ∈ l -> (forall h, h <> g -> f' h = f h) -> sumf f' l = sumf f l + (f' g - f g).
Proof.
  intros Hn Hg Hf. induction l as [|h l IH]; [set_solver|]. apply list.NoDup_cons in Hn as [Hh Hn]. cbn [sumf foldr]. fold (sumf f l) (sumf f' l). apply elem_of_cons in Hg as [->|Hg].
  - rewrite (sumf_ext f f' l); [lia|]. intros x Hx. apply Hf. by intros ->.
  - rewrite (IH Hn Hg), (Hf h); [lia|]. by intros ->.
Qed.
Lemma sumf_range f l b : (forall g, g ∈ l -> 0 <= f g <= b) -> 0 <= sumf f l <= Z.of_nat (length l) * b.
Proof. induction l as [|g l IH]; intros Hf; cbn [sumf foldr length]; [lia|]. fold (sumf f l). specialize (IH ltac:(set_solver)). specialize (Hf g ltac:(set_solver)). lia. Qed.
Lemma sumf_at f l g b : (forall g, g ∈ l -> 0 <= f g <= b) -> g ∈ l -> f g <= sumf f l <= f g + (Z.of_nat (length l) - 1) * b.
Proof.
  induction l as [|h l IH]; intros Hf Hg; [set_solver|]. cbn [sumf foldr length]. fold (sumf f l). pose proof (sumf_range f l b ltac:(set_solver)). pose proof (Hf h ltac:(set_solver)). apply elem_of_cons in Hg as [->|Hg]; [lia|]. specialize (IH ltac:(set_solver) Hg). lia.
Qed.

Section table.
Context `{SitFormat} `{SumFormat} (denv : discard_env) (NAT_JOURNAL_ENTRIES : Z) (env : mount_env) (ck : cp_info).
Notation seg_ok g := (0 <= g < MAIN_SEGS).
Notation off_ok o := (0 <= o < blks_per_seg).
Notation log_ok t := (0 <= t < NO_CHECK_TYPE).

(** The number of blocks of all segments fits. *)
Lemma all_fit l : NoDup l -> (forall g, g ∈ l -> seg_ok g) -> Z.of_nat (length l) * blks_per_seg < 2 ^ 32 - 2.
Proof.
  intros Hn Hl. assert (Hlen : Z.of_nat (length l) <= MAIN_SEGS). { rewrite <-(size_list_to_set (C := gset Z) l) by done. apply map_size; [pose proof main_pos; lia|]. intros g Hg. apply Hl. by apply elem_of_list_to_set in Hg. }
  pose proof area_end'. pose proof area_pos. pose proof bps_range. pose proof main_pos. nia.
Qed.
(** A sum is kept up to date modulo the width of the counters. *)
Lemma sumf_step f f' l g : NoDup l -> (forall h, h ∈ l -> seg_ok h) -> g ∈ l -> (forall h, 0 <= f h <= blks_per_seg) -> (forall h, 0 <= f' h <= blks_per_seg) -> (forall h, h <> g -> f' h = f h) ->
  sumf f l -! f g +! f' g = sumf f' l /\ sumf f l +! f' g -! f g = sumf f' l.
Proof.
  intros Hn Hl Hg Hf Hf' Hne. pose proof (sumf_update f f' l g Hn Hg Hne) as Hu. pose proof (sumf_at f l g blks_per_seg ltac:(intros; apply Hf) Hg). pose proof (sumf_range f' l blks_per_seg ltac:(intros; apply Hf')). pose proof (all_fit l Hn Hl). pose proof (Hf g). pose proof (Hf' g). pose proof bps_range.
  assert (0 < Z.of_nat (length l)) by (destruct l; [set_solver|cbn; lia]). split.
  - rewrite (u32_small (sumf f l - f g)) by nia. rewrite u32_small by nia. lia.
  - unfold u32. rewrite Zminus_mod_idemp_l. fold (u32 (sumf f l + f' g - f g)). rewrite u32_small by nia. lia.
Qed.

(** ** Entries that pass the check *)

Lemma check_total g rs : exists b, check_block_count g rs = Some b /\ (b = false -> 0 <= GET_SIT_VBLOCKS (vblocks rs) <= blks_per_seg /\ GET_SIT_VBLOCKS (vblocks rs) = Z.of_nat (length (filter (fun o => o ∈ valid_map rs) (seqZ 0 blks_per_seg)))).
Proof.
  pose proof bps_range. unfold check_block_count. rewrite (count_runs_spec _ (valid_map rs) 0 0 _); [|lia|done|lia]. cbn [mbind option_bind]. eexists. split; [done|]. intros Hb. apply orb_false_iff in Hb as [[Hb1 Hb2]%orb_false_iff _]. apply negb_false_iff, Z.eqb_eq in Hb1. unfold f2fs_usable_blks_in_seg in Hb2. apply Z.ltb_ge in Hb2.
  unfold from_pos in Hb1. rewrite Z.sub_0_r in Hb1. lia.
Qed.
Lemma check_valid g rs : check_block_count g rs = Some false -> 0 <= GET_SIT_VBLOCKS (vblocks rs) <= blks_per_seg /\ GET_SIT_VBLOCKS (vblocks rs) = Z.of_nat (length (filter (fun o => o ∈ valid_map rs) (seqZ 0 blks_per_seg))).
Proof. intros E. destruct (check_total g rs) as (b & E' & Hb). rewrite E in E'. injection E' as <-. auto. Qed.

(** ** Loading *)

(** Everything but the table and the statistics of discards. *)
Record tsame (s s' : seg_sys) : Prop := {
  ts_fre : fre s' = fre s; ts_dirt : dirt s' = dirt s; ts_vict : vict s' = vict s; ts_cur : CURSEG_I s' = CURSEG_I s; ts_ssa : ssa s' = ssa s;
  ts_cp : CP_DISABLED s' = CP_DISABLED s; ts_err : CP_ERROR s' = CP_ERROR s;
  ts_sit : written_valid_blocks (sit s') = written_valid_blocks (sit s) /\ dirty_sentries_bitmap (sit s') = dirty_sentries_bitmap (sit s) /\ dirty_sentries (sit s') = dirty_sentries (sit s)
}.
Lemma tsame_refl s : tsame s s.
Proof. by constructor. Qed.
Lemma tsame_trans s s' s'' : tsame s s' -> tsame s' s'' -> tsame s s''.
Proof. intros [A1 A2 A3 A4 A5 A6 A7 (A8 & A9 & A10)] [B1 B2 B3 B4 B5 B6 B7 (B8 & B9 & B10)]. constructor; try congruence. conjs; congruence. Qed.

Definition node_of (x : sit_info) (g : Z) : Z := match sentries x !! g with Some se => if IS_NODESEG (se_type se) then valid_blocks se else 0 | None => 0 end.
Notation all_segs := (seqZ 0 MAIN_SEGS).
(** A table under construction: counters in range, sections and node blocks summed up. *)
Record loading (s : seg_sys) (nodes : Z) : Prop := {
  ld_dom : forall g, is_Some (sentries (sit s) !! g) <-> seg_ok g;
  ld_range : forall g, 0 <= valid_of (sit s) g <= blks_per_seg;
  ld_sec : is_large_section = true -> forall c, 0 <= c < MAIN_SECS -> sec_entries (sit s) !! c = Some (sum_valid (sit s) (seqZ (c * segs_per_sec) segs_per_sec));
  ld_nodes : nodes = sumf (node_of (sit s)) all_segs
}.
Definition loaded (s : seg_sys) (g : Z) (rs : f2fs_sit_entry) : Prop := exists dm, sentries (sit s) !! g = Some (seg_info_from_raw_sit dm rs).

Lemma node_range s nodes g : loading s nodes -> 0 <= node_of (sit s) g <= blks_per_seg.
Proof. intros Hl. pose proof (ld_range _ _ Hl g) as Hr. unfold node_of, valid_of in *. pose proof bps_range. destruct (sentries (sit s) !! g); [|lia]. destruct (IS_NODESEG _); lia. Qed.
Lemma sec_segs c : 0 <= c < MAIN_SECS -> forall g, g ∈ seqZ (c * segs_per_sec) segs_per_sec -> seg_ok g.
Proof. intros Hc g Hg. apply elem_of_seqZ in Hg. pose proof sec_pos. unfold MAIN_SEGS. nia. Qed.

Lemma load_ok s nodes g rs gained : loading s nodes -> seg_ok g -> check_block_count g rs = Some false ->
  exists s', load_entry denv ck s g rs gained (valid_of (sit s) g) = Some s' /\ loading s' (nodes -! node_part s g +! node_part s' g) /\ loaded s' g rs /\ (forall h, h <> g -> sentries (sit s') !! h = sentries (sit s) !! h) /\ tsame s s'.
Proof.
  intros [L1 L2 L3 L4] Hg Hck. assert (Hld : loading s nodes) by done. destruct (check_valid g rs Hck) as [Hv _]. destruct (proj2 (L1 g) Hg) as [se E]. unfold load_entry, get_seg_entry. rewrite E. cbn [mbind option_bind].
  set (se' := seg_info_from_raw_sit _ rs). set (db := if _ && _ then _ else _). set (s1 := with_counts (put_se s g se') db (unusable_block_count s)). destruct (sec_of g Hg) as [Es Hsr]. rewrite Es.
  assert (Hsec : exists sec, (if is_large_section then v ← sec_entries (sit s1) !! (g / segs_per_sec); Some (<[g / segs_per_sec := v +! valid_blocks se' -! valid_of (sit s) g]> (sec_entries (sit s1))) else Some (sec_entries (sit s1))) = Some sec /\
    (is_large_section = true -> forall c, 0 <= c < MAIN_SECS -> sec !! c = Some (sum_valid (sit s1) (seqZ (c * segs_per_sec) segs_per_sec)))).
  { destruct is_large_section eqn:El; [|by exists (sec_entries (sit s1))]. change (sec_entries (sit s1)) with (sec_entries (sit s)). rewrite (L3 eq_refl _ Hsr). cbn [mbind option_bind]. eexists. split; [done|]. intros _ c Hc.
    assert (Hother : forall h, h <> g -> valid_of (sit s1) h = valid_of (sit s) h) by (intros h Hh; unfold valid_of; cbn; by rewrite lookup_insert_ne).
    assert (Hthis : valid_of (sit s1) g = valid_blocks se') by (unfold valid_of; cbn; by rewrite lookup_insert_eq).
    destruct (decide (c = g / segs_per_sec)) as [->|Hne].
    - rewrite lookup_insert_eq. f_equal. rewrite <-Hthis. apply (sumf_step (valid_of (sit s)) (valid_of (sit s1)) _ g); [apply NoDup_seqZ|by apply sec_segs|by apply in_sec|done| |done]. intros h. destruct (decide (h = g)) as [->|]; [rewrite Hthis; cbn; lia|by rewrite Hother].
    - rewrite lookup_insert_ne, (L3 eq_refl c Hc) by done. f_equal. symmetry. apply sumf_ext. intros h Hh. apply Hother. intros ->. apply Hne. symmetry. by apply in_sec. }
  destruct Hsec as (sec & -> & Hsec). cbn [mbind option_bind]. eexists. split; [done|]. set (s' := with_sit s1 _).
  assert (Hent : forall h, sentries (sit s') !! h = if decide (h = g) then Some se' else sentries (sit s) !! h) by (intros h; cbn; destruct (decide (h = g)) as [->|]; [by rewrite lookup_insert_eq|by rewrite lookup_insert_ne]).
  assert (Hrange : forall h, 0 <= valid_of (sit s') h <= blks_per_seg) by (intros h; unfold valid_of; rewrite Hent; destruct (decide (h = g)); [cbn; lia|apply L2]).
  split; [|split; [|split]].
  - constructor; [|done| |].
    + intros h. rewrite Hent. destruct (decide (h = g)) as [->|]; [naive_solver|apply L1].
    + exact Hsec.
    + assert (Hnp : forall u, node_part u g = node_of (sit u) g) by done. rewrite !Hnp, L4. apply (sumf_step (node_of (sit s)) (node_of (sit s')) all_segs g); [apply NoDup_seqZ|intros h Hh; apply elem_of_seqZ in Hh; lia|apply elem_of_seqZ; lia|intros h; by apply (node_range s nodes)| |].
      * intros h. pose proof (Hrange h) as Hr. unfold node_of, valid_of in *. pose proof bps_range. destruct (sentries (sit s') !! h); [|lia]. destruct (IS_NODESEG _); lia.
      * intros h Hh. unfold node_of. by rewrite Hent, decide_False.
  - eexists. rewrite Hent, decide_True by done. done.
  - intros h Hh. by rewrite Hent, decide_False.
  - by constructor.
Qed.

(** ** The two loops *)

Lemma nodes_small s nodes : loading s nodes -> u32 nodes = nodes.
Proof.
  intros Hl. rewrite (ld_nodes _ _ Hl). pose proof (sumf_range (node_of (sit s)) all_segs blks_per_seg ltac:(intros g _; by apply (node_range s nodes))). pose proof (all_fit all_segs (NoDup_seqZ _ _) ltac:(intros g Hg; apply elem_of_seqZ in Hg; lia)). apply u32_small. lia.
Qed.
Definition pages_readable : Prop := forall a, meta_readable env a = true.
Lemma page_loop_ok d l : NoDup l -> (forall g, g ∈ l -> seg_ok g) -> forall s nodes, loading s nodes -> (forall g, g ∈ l -> valid_of (sit s) g = 0) ->
  (exists e, sit_page_loop denv env ck l d s nodes = Some (inl e) /\ ~ (pages_readable /\ forall g, g ∈ l -> check_block_count g (page_entry d g) = Some false)) \/
  exists s' nodes', sit_page_loop denv env ck l d s nodes = Some (inr (s', nodes')) /\ loading s' nodes' /\ (forall g, g ∈ l -> loaded s' g (page_entry d g) /\ check_block_count g (page_entry d g) = Some false) /\
    (forall g, g ∉ l -> sentries (sit s') !! g = sentries (sit s) !! g) /\ tsame s s'.
Proof.
  intros Hn. induction Hn as [|g l Hg Hn IH]; intros Hl s nodes Hld Hz.
  { right. exists s, nodes. split; [done|]. split; [done|]. split; [set_solver|]. split; [done|apply tsame_refl]. }
  cbn [sit_page_loop]. assert (Hr : seg_ok g) by (apply Hl; set_solver). rewrite (sit_current_addr d g Hr). cbn [lift mbind option_bind attempt_bind]. destruct (meta_readable env _) eqn:Er; cbn [negb].
  2: { left. exists EIO. split; [done|]. intros [Hrd _]. by rewrite Hrd in Er. }
  change (sit_meta d (sit_addr (sit_bitmap d) (SIT_BLOCK_OFFSET g)) (SIT_ENTRY_OFFSET g)) with (page_entry d g). destruct (check_total g (page_entry d g)) as (b & Ec & _). rewrite Ec. cbn [lift mbind option_bind attempt_bind]. destruct b.
  { left. exists EFSCORRUPTED. split; [done|]. intros [_ Hc]. specialize (Hc g ltac:(set_solver)). congruence. }
  destruct (load_ok s nodes g (page_entry d g) blks_per_seg Hld Hr Ec) as (s1 & E1 & Hld1 & Hlo1 & Ho1 & Ht1). rewrite (Hz g) in E1 by set_solver. rewrite E1. cbn [lift mbind option_bind attempt_bind].
  assert (Hnz : node_part s g = 0). { specialize (Hz g ltac:(set_solver)). unfold node_part, valid_of, get_seg_entry in *. destruct (sentries (sit s) !! g); [|done]. by destruct (IS_NODESEG _). }
  rewrite Hnz, Z.sub_0_r, (nodes_small s nodes Hld) in Hld1. destruct (IH ltac:(set_solver) s1 _ Hld1) as [(e & Ee & Hne)|(s' & n' & E' & Hld' & Hlo' & Ho' & Ht')].
  - intros h Hh. unfold valid_of. rewrite Ho1 by (intros ->; done). apply Hz. set_solver.
  - left. exists e. split; [done|]. intros [Hrd Hc]. apply Hne. split; [done|]. intros h Hh. apply Hc. set_solver.
  - right. exists s', n'. split; [done|]. split; [done|]. split; [|split; [|by apply (tsame_trans s s1)]].
    + intros h [->|Hh]%elem_of_cons; [|by apply Hlo']. split; [|done]. destruct Hlo1 as [dm Hd]. exists dm. by rewrite Ho'.
    + intros h Hh. rewrite Ho', Ho1; [done|set_solver|set_solver].
Qed.
Lemma journal_loop_ok j : NoDup j.*1 -> (forall k, k ∈ j.*1 -> 0 <= k) -> forall s nodes f, loading s nodes -> (forall g, seg_ok g -> loaded s g (f g) /\ check_block_count g (f g) = Some false) ->
  (exists e, sit_journal_loop denv ck j s nodes = Some (inl e) /\ ~ (forall g rs, (g, rs) ∈ j -> seg_ok g /\ check_block_count g rs = Some false)) \/
  exists s' nodes', sit_journal_loop denv ck j s nodes = Some (inr (s', nodes')) /\ loading s' nodes' /\ tsame s s' /\ (forall k, k ∈ j.*1 -> seg_ok k) /\
    forall g, seg_ok g -> loaded s' g (from_option id (f g) (jget j g)) /\ check_block_count g (from_option id (f g) (jget j g)) = Some false.
Proof.
  induction j as [|[g rs] j IH]; intros Hn Hk s nodes f Hld Hf.
  { right. exists s, nodes. split; [done|]. split; [done|]. split; [apply tsame_refl|]. split; [set_solver|done]. }
  cbn [sit_journal_loop fmap list_fmap fst] in *. apply list.NoDup_cons in Hn as [Hg Hn]. pose proof (Hk g ltac:(set_solver)) as Hg0. destruct (Z.leb_spec MAIN_SEGS g) as [Hge|Hlt].
  { left. exists EFSCORRUPTED. split; [done|]. intros Hc. destruct (Hc g rs ltac:(set_solver)). lia. }
  assert (Hr : seg_ok g) by lia. destruct (Hf g Hr) as [[dm Hdm] _]. assert (Hge : get_seg_entry s g = Some (seg_info_from_raw_sit dm (f g))) by done. rewrite Hge. cbn [lift mbind option_bind attempt_bind]. destruct (check_total g rs) as (b & Ec & _). rewrite Ec. cbn [lift mbind option_bind attempt_bind]. destruct b.
  { left. exists EFSCORRUPTED. split; [done|]. intros Hc. destruct (Hc g rs ltac:(set_solver)). congruence. }
  destruct (load_ok s nodes g rs (valid_of (sit s) g) Hld Hr Ec) as (s1 & E1 & Hld1 & Hlo1 & Ho1 & Ht1). rewrite (valid_of_at _ _ _ Hdm) in E1. rewrite E1. cbn [lift mbind option_bind attempt_bind].
  destruct (IH Hn ltac:(set_solver) s1 _ (fun h => if decide (h = g) then rs else f h) Hld1) as [(e & Ee & Hne)|(s' & n' & E' & Hld' & Ht' & Hkk & Hlo')].
  - intros h Hh. destruct (decide (h = g)) as [->|Hne]; [done|]. destruct (Hf h Hh) as [[dm' Hdm'] ?]. split; [|done]. exists dm'. by rewrite Ho1.
  - left. exists e. split; [done|]. intros Hc. apply Hne. intros h r Hh. apply Hc. set_solver.
  - right. exists s', n'. split; [done|]. split; [done|]. split; [by apply (tsame_trans s s1)|]. split; [intros k [->|]%elem_of_cons; auto|]. intros h Hh. specialize (Hlo' h Hh). cbn [jget]. destruct (Z.eqb_spec g h) as [->|Hne].
    + rewrite (jget_none j h Hg), decide_True in Hlo' by done. done.
    + by rewrite decide_False in Hlo' by congruence.
Qed.

(** [build_sit_entries]: the table on disk, journal included, or an error. *)
Definition table_fits (d : sit_disk) (s : seg_sys) : Prop :=
  pages_readable /\ (forall g, seg_ok g -> check_block_count g (page_entry d g) = Some false) /\ (forall g rs, (g, rs) ∈ s_journal d -> seg_ok g /\ check_block_count g rs = Some false) /\
  forall s', (forall g, seg_ok g -> loaded s' g (disk_entry d g)) -> sumf (node_of (sit s')) all_segs = valid_node_count ck.
Lemma build_entries_ok d s : loading s 0 -> (forall g, valid_of (sit s) g = 0) -> NoDup (s_journal d).*1 -> (forall k, k ∈ (s_journal d).*1 -> 0 <= k) ->
  (exists e, build_sit_entries denv env ck d s = Some (inl e) /\ ~ table_fits d s) \/
  exists s' n, build_sit_entries denv env ck d s = Some (inr s') /\ loading s' n /\ tsame s s' /\ (forall k, k ∈ (s_journal d).*1 -> seg_ok k) /\ (forall g, seg_ok g -> check_block_count g (page_entry d g) = Some false) /\
    forall g, seg_ok g -> loaded s' g (disk_entry d g) /\ check_block_count g (disk_entry d g) = Some false.
Proof.
  intros Hld Hz Hn Hk. unfold build_sit_entries. assert (Hall : forall g, g ∈ all_segs <-> seg_ok g) by (intros g; rewrite elem_of_seqZ; lia).
  destruct (page_loop_ok d all_segs (NoDup_seqZ _ _) ltac:(intros g; apply Hall) s 0 Hld ltac:(intros g _; apply Hz)) as [(e & -> & Hne)|(s1 & n1 & -> & Hld1 & Hlo1 & _ & Ht1)]; cbn [attempt_bind].
  { left. exists e. split; [done|]. intros (T1 & T2 & _). apply Hne. split; [done|]. intros g Hg. by apply T2, Hall. }
  cbn [fst snd]. destruct (journal_loop_ok (s_journal d) Hn Hk s1 n1 (page_entry d) Hld1 ltac:(intros g Hg; by apply Hlo1, Hall)) as [(e & -> & Hne)|(s2 & n2 & -> & Hld2 & Ht2 & Hkk & Hlo2)]; cbn [attempt_bind].
  { left. exists e. split; [done|]. intros (_ & _ & T3 & _). auto. }
  assert (Hde : forall g, from_option id (page_entry d g) (jget (s_journal d) g) = disk_entry d g) by (intros g; unfold disk_entry; by destruct (jget (s_journal d) g)). setoid_rewrite Hde in Hlo2.
  destruct (Z.eqb_spec n2 (valid_node_count ck)) as [En|Hne].
  - right. exists s2, n2. split; [done|]. split; [done|]. split; [by apply (tsame_trans s s1)|]. split; [done|]. split; [|done]. intros g Hg. by apply Hlo1, Hall.
  - left. exists EFSCORRUPTED. split; [done|]. intros (_ & _ & _ & T4). apply Hne. rewrite (ld_nodes _ _ Hld2). apply T4. intros g Hg. by apply Hlo2.
Qed.
End table.
