(* ===== verification/SegRestore.v ===== *)
(** * The logs as a mount restores them *)

From S2P Require Import Prelude FreeNid NatCache SegBitmap SegState SegAlloc SegInv SegLists SegCur SegSwitch SegVictim SegVictimProps SegBlocks SegData SegDiscard SegFlush SegFlushProps SegSums SegMount SegTable.

Section restore.
Context `{SitFormat} `{SumFormat} (NAT_JOURNAL_ENTRIES : Z) (env : mount_env) (ck : cp_info) (v0 : victim_info).
Notation seg_ok g := (0 <= g < MAIN_SEGS).
Notation off_ok o := (0 <= o < blks_per_seg).
Notation persistent t := (0 <= t < NR_PERSISTENT_LOG).

(** ** Before the table is read *)

Record fresh (s : seg_sys) : Prop := {
  fs_dom : forall g, is_Some (sentries (sit s) !! g) <-> seg_ok g;
  fs_zero : forall g, valid_of (sit s) g = 0;
  fs_sec : is_large_section = true -> forall c, 0 <= c < MAIN_SECS -> sec_entries (sit s) !! c = Some 0;
  fs_sit : written_valid_blocks (sit s) = 0 /\ dirty_sentries_bitmap (sit s) = ∅ /\ dirty_sentries (sit s) = 0;
  fs_fre : fre s = fre (blank_sys env ck v0);
  fs_dirt : dirt s = dirt (blank_sys env ck v0);
  fs_vict : vict s = v0;
  fs_ssa : ssa s = ssa_pages env;
  fs_cp : CP_DISABLED s = cp_disabled ck;
  fs_err : CP_ERROR s = false
}.
Lemma lookup_blank {A} (f : Z -> A) n g : (list_to_map ((fun g => (g, f g)) <$> seqZ 0 n) : gmap Z A) !! g = if decide (0 <= g < n) then Some (f g) else None.
Proof.
  assert (Hn : NoDup ((fun g => (g, f g)) <$> seqZ 0 n).*1) by (rewrite <-list_fmap_compose; rewrite (list_fmap_ext _ id), list_fmap_id by done; apply NoDup_seqZ). destruct (decide (0 <= g < n)) as [Hg|Hg].
  - apply elem_of_list_to_map_1; [done|]. apply list_elem_of_fmap. exists g. split; [done|]. apply elem_of_seqZ. lia.
  - apply not_elem_of_list_to_map_1. intros Hin. apply list_elem_of_fmap in Hin as ([x y] & -> & Hin). apply list_elem_of_fmap in Hin as (z & [= -> ->] & Hz). apply elem_of_seqZ in Hz. apply Hg. cbn. lia.
Qed.
Lemma fresh_blank : fresh (blank_sys env ck v0).
Proof.
  constructor; try done.
  - intros g. cbn. rewrite (lookup_blank (fun _ => zero_se)). destruct (decide (0 <= g < MAIN_SEGS)); split; try done.
  - intros g. unfold valid_of. cbn. rewrite (lookup_blank (fun _ => zero_se)). by destruct (decide _).
  - intros Hl c Hc. cbn. rewrite Hl, (lookup_blank (fun _ => 0)). by rewrite decide_True.
Qed.
Lemma fresh_cur s t c : fresh s -> fresh (with_curseg s t c).
Proof. intros []. by constructor. Qed.
Lemma fresh_loading s : fresh s -> loading s 0.
Proof.
  intros Hf. pose proof bps_range. constructor; [apply Hf|intros g; rewrite (fs_zero _ Hf); lia| |].
  - intros Hl c Hc. rewrite (fs_sec _ Hf Hl c Hc). f_equal. generalize (seqZ (c * segs_per_sec) segs_per_sec) as l. induction l as [|g l IH]; [done|]. cbn [sum_valid foldr]. rewrite (fs_zero _ Hf). exact IH.
  - assert (Hz : forall g, node_of (sit s) g = 0) by (intros g; pose proof (fs_zero _ Hf g) as Hz; unfold node_of, valid_of in *; destruct (sentries (sit s) !! g); [by destruct (IS_NODESEG _)|done]).
    generalize (seqZ 0 MAIN_SEGS) as l. induction l as [|g l IH]; [done|]. cbn [sumf foldr]. rewrite Hz. exact IH.
Qed.

(** ** A log *)

Definition restored (t : Z) (sum : Z -> f2fs_summary) : curseg_info :=
  {| sum_blk := sum; entry_type := if IS_NODESEG t then SUM_TYPE_NODE else if IS_DATASEG t then SUM_TYPE_DATA else 0; alloc_type := cp_alloc_type ck t; seg_type := t; segno := cur_segno ck t;
     next_blkoff := cur_blkoff ck t; zone := GET_ZONE_FROM_SEG (cur_segno ck t); next_segno := NULL_SEGNO; inited := true |}.
Hypothesis Hsegs : forall t, persistent t -> seg_ok (cur_segno ck t).

Lemma cur_upd s t c : CURSEG_I (with_curseg s t c) t = c.
Proof. cbn. unfold upd. by rewrite decide_True. Qed.
Lemma restore_log_ok s t : fresh s -> persistent t -> seg_type (CURSEG_I s t) = t ->
  exists s', restore_log ck s t = Some s' /\ fresh s' /\ forall u, CURSEG_I s' u = upd (CURSEG_I s) t (restored t (sum_blk (CURSEG_I s t))) u.
Proof.
  intros Hf Ht Hty. unfold restore_log, reset_curseg. rewrite cur_upd. cbn [seg_type set_next_segno set_cur next_segno sum_blk alloc_type entry_type segno]. rewrite Hty.
  destruct (Z.leb_spec NR_PERSISTENT_LOG t); [lia|]. unfold __set_sit_entry_type, get_seg_entry. cbn [sit with_curseg segno]. destruct (proj2 (fs_dom _ Hf _) (Hsegs t Ht)) as [se E]. rewrite E. cbn [mbind option_bind].
  eexists. split; [done|]. split.
  - destruct Hf as [F1 F2 F3 F4 F5 F6 F7 F8 F9 F10]. constructor; try done; cbn.
    + intros g. destruct (decide (g = cur_segno ck t)) as [->|]; [rewrite lookup_insert_eq; split; [intros _; auto|done]|by rewrite lookup_insert_ne].
    + intros g. specialize (F2 g). unfold valid_of in *. cbn. destruct (decide (g = cur_segno ck t)) as [->|]; [rewrite lookup_insert_eq; by rewrite E in F2|by rewrite lookup_insert_ne].
  - intros u. cbn. unfold upd. destruct (decide (u = t)) as [->|]; [|done]. rewrite decide_True by done. done.
Qed.

(** ** Summaries *)

Definition blk_count (t : Z) : Z := if cp_alloc_type ck t =? SSR then blks_per_seg else cur_blkoff ck t.
Definition all_readable : Prop := (forall a, meta_readable env a = true) /\ forall a, node_readable env a = true.

(** The entries in the pack from the place of the reader on. *)
Definition holds_entries (r : sum_reader) (logs : list Z) (entries : Z -> Z -> f2fs_summary) : Prop :=
  r_start r = r_page r + 1 /\ forall k e, all_entries entries blk_count logs !! k = Some e -> pack env (place_at (r_page r, r_offset r) k).1 (place_at (r_page r, r_offset r) k).2 = e.

Lemma read_log_ok l es r : (exists es' r', read_log (meta_readable env) (pack env) l es r = Some (es', r')) \/ read_log (meta_readable env) (pack env) l es r = None /\ ~ all_readable.
Proof.
  revert es r. induction l as [|j l IH]; intros es r; cbn [read_log]; [eauto|]. unfold read_entry. destruct (_ <=? _); cbn [mbind option_bind]; [apply IH|]. destruct (meta_readable env (r_start r)) eqn:E; cbn [mbind option_bind]; [apply IH|]. right. split; [done|]. intros [Hr _]. by rewrite Hr in E.
Qed.
Lemma holds_next r i logs entries es es' r' : all_readable -> holds_entries r (i :: logs) entries -> read_log (meta_readable env) (pack env) (seqZ 0 (blk_count i)) es r = Some (es', r') ->
  holds_entries r' logs entries /\ forall j, 0 <= j < blk_count i -> es' j = entries i j.
Proof.
  intros [Hr _] [Hst Hm] E. destruct r as [a st o]. cbn [r_page r_start r_offset] in *. subst st. destruct (read_log_at (meta_readable env) (pack env) (seqZ 0 (blk_count i)) (NoDup_seqZ _ _) es a o Hr) as (es2 & E2 & R1 & _). rewrite E in E2. injection E2 as -> ->. rewrite length_seqZ. split.
  - split; [done|]. cbn [r_page r_offset]. rewrite <-surjective_pairing. intros k e Hk. rewrite <-place_add. apply Hm. change (all_entries entries blk_count (i :: logs)) with ((entries i <$> seqZ 0 (blk_count i)) ++ all_entries entries blk_count logs).
    rewrite lookup_app_r by (rewrite length_fmap, length_seqZ; lia). rewrite length_fmap, length_seqZ. by replace (Z.to_nat (blk_count i) + k - Z.to_nat (blk_count i))%nat with k by lia.
  - intros j Hj. assert (Hl : seqZ 0 (blk_count i) !! Z.to_nat j = Some j) by (apply lookup_seqZ; lia). rewrite (R1 _ _ Hl). apply Hm. change (all_entries entries blk_count (i :: logs)) with ((entries i <$> seqZ 0 (blk_count i)) ++ all_entries entries blk_count logs).
    rewrite lookup_app_l by (rewrite length_fmap, length_seqZ; lia). by rewrite list_lookup_fmap, Hl.
Qed.
Lemma compact_logs_ok logs : NoDup logs -> (forall t, t ∈ logs -> persistent t) -> forall s r, fresh s -> (forall t, t ∈ logs -> seg_type (CURSEG_I s t) = t) ->
  (exists e, compact_logs env ck logs s r = Some (inl e) /\ ~ all_readable) \/
  exists s', compact_logs env ck logs s r = Some (inr s') /\ fresh s' /\ (forall t, t ∉ logs -> CURSEG_I s' t = CURSEG_I s t) /\
    forall t, t ∈ logs -> exists sum, CURSEG_I s' t = restored t sum /\ forall entries, all_readable -> holds_entries r logs entries -> forall j, 0 <= j < blk_count t -> sum j = entries t j.
Proof.
  intros Hn. induction Hn as [|i logs Hi Hn IH]; intros Hp s r Hf Hty; cbn [compact_logs].
  { right. exists s. split; [done|]. split; [done|]. split; [done|set_solver]. }
  destruct (restore_log_ok s i Hf (Hp i ltac:(set_solver)) (Hty i ltac:(set_solver))) as (s1 & -> & Hf1 & Hc1). cbn [lift mbind option_bind attempt_bind].
  assert (Ec : CURSEG_I s1 i = restored i (sum_blk (CURSEG_I s i))) by (rewrite Hc1; unfold upd; by rewrite decide_True). rewrite Ec. cbn [alloc_type restored sum_blk]. fold (blk_count i).
  destruct (read_log_ok (seqZ 0 (blk_count i)) (sum_blk (CURSEG_I s i)) r) as [(es & r' & E)|[E Hne]]; rewrite E; [|left; by exists EIO].
  set (s2 := with_curseg s1 i (set_sum (restored i (sum_blk (CURSEG_I s i))) es)). assert (Hc2 : forall u, CURSEG_I s2 u = if decide (u = i) then restored i es else CURSEG_I s u).
  { intros u. cbn. unfold upd. destruct (decide (u = i)) as [->|]; [done|]. rewrite Hc1. unfold upd. by rewrite decide_False. }
  destruct (IH ltac:(set_solver) s2 r') as [(e & Ee & Hne)|(s' & E' & Hf' & Ho & Hs)]; [by apply fresh_cur|intros t Ht; rewrite Hc2, decide_False by (intros ->; done); apply Hty; set_solver|left; by exists e|].
  right. exists s'. split; [done|]. split; [done|]. split.
  - intros t Ht. rewrite Ho, Hc2, decide_False; [done|set_solver|set_solver].
  - intros t [->|Ht]%elem_of_cons.
    + exists es. rewrite Ho, Hc2, decide_True by done. split; [done|]. intros entries Hr Hh. by apply (holds_next r i logs entries (sum_blk (CURSEG_I s i)) es r').
    + destruct (Hs t Ht) as (sum & Es & Hsum). exists sum. split; [done|]. intros entries Hr Hh. apply Hsum; [done|]. by apply (holds_next r i logs entries (sum_blk (CURSEG_I s i)) es r').
Qed.

(** Where the summary of a log comes from otherwise. *)
Definition normal_sum (t : Z) (sum : Z -> f2fs_summary) : Prop :=
  forall j, off_ok j -> sum j =
    if IS_DATASEG t then pack_page env (sum_blk_addr ck (if exist_node_summaries ck then NR_CURSEG_PERSIST_TYPE else NR_CURSEG_DATA_TYPE) t) j
    else {| sum_nid := if exist_node_summaries ck then sum_nid (pack_page env (sum_blk_addr ck NR_CURSEG_NODE_TYPE (t - CURSEG_HOT_NODE)) j) else footer_nid env (START_BLOCK (cur_segno ck t) +! j); sum_version := 0; ofs_in_node := 0 |}.
Lemma node_loop_ok l addr : NoDup l -> forall sum, (exists e, restore_node_loop env l addr sum = Some (inl e) /\ ~ all_readable) \/
  exists sum', restore_node_loop env l addr sum = Some (inr sum') /\ (forall j, j ∈ l -> sum' j = {| sum_nid := footer_nid env (addr +! j); sum_version := 0; ofs_in_node := 0 |}) /\ forall j, j ∉ l -> sum' j = sum j.
Proof.
  induction 1 as [|i l Hi Hn IH]; intros sum; cbn [restore_node_loop]; [right; exists sum; split; [done|]; split; [set_solver|done]|]. destruct (node_readable env (addr +! i)) eqn:Er; cbn [negb]; [|left; exists EIO; split; [done|]; intros [_ Hr]; by rewrite Hr in Er].
  destruct (IH (upd sum i {| sum_nid := footer_nid env (addr +! i); sum_version := 0; ofs_in_node := 0 |})) as [?|(sum' & -> & S1 & S2)]; [by left|]. right. exists sum'. split; [done|]. split.
  - intros j [->|Hj]%elem_of_cons; [|by apply S1]. rewrite S2 by done. unfold upd. by rewrite decide_True.
  - intros j Hj. rewrite S2 by set_solver. unfold upd. rewrite decide_False; [done|set_solver].
Qed.
Lemma normal_ok s t : fresh s -> persistent t -> seg_type (CURSEG_I s t) = t ->
  (exists e, read_normal_summaries env ck s t = Some (inl e) /\ ~ all_readable) \/
  exists s' sum, read_normal_summaries env ck s t = Some (inr s') /\ fresh s' /\ normal_sum t sum /\ forall u, CURSEG_I s' u = upd (CURSEG_I s) t (restored t sum) u.
Proof.
  intros Hf Ht Hty. unfold read_normal_summaries. destruct (if IS_DATASEG t then _ else _) as [a page] eqn:Er. destruct (meta_readable env a) eqn:Ea; cbn [negb]; [|left; exists EIO; split; [done|]; intros [Hr _]; by rewrite Hr in Ea].
  assert (Hgo : forall sum, normal_sum t sum -> exists s' sum', lift (restore_log ck (with_curseg s t (set_sum (CURSEG_I s t) sum)) t) = Some (inr s') /\ fresh s' /\ normal_sum t sum' /\ forall u, CURSEG_I s' u = upd (CURSEG_I s) t (restored t sum') u).
  { intros sum Hs. destruct (restore_log_ok (with_curseg s t (set_sum (CURSEG_I s t) sum)) t) as (s1 & -> & Hf1 & Hc1); [by apply fresh_cur|done|by rewrite cur_upd|]. exists s1, sum. split; [done|]. split; [done|]. split; [done|]. intros u. rewrite Hc1, cur_upd. unfold upd. destruct (decide (u = t)) as [->|Hne]; [done|]. cbn. unfold upd. by rewrite decide_False. }
  assert (Hcase : IS_DATASEG t = true /\ IS_NODESEG t = false \/ IS_DATASEG t = false /\ IS_NODESEG t = true).
  { unfold IS_DATASEG, IS_NODESEG, CURSEG_COLD_DATA, CURSEG_HOT_NODE, CURSEG_COLD_NODE, NR_PERSISTENT_LOG in *. destruct (Z.leb_spec t 2), (Z.leb_spec 3 t), (Z.leb_spec t 5); cbn; try lia; tauto. }
  destruct Hcase as [[Hd Hnd]|[Hd Hnd]]; rewrite Hnd; rewrite Hd in Er.
  - cbn [attempt_bind]. injection Er as <- <-. right. apply Hgo. intros j Hj. by rewrite Hd.
  - destruct (exist_node_summaries ck) eqn:Ee; injection Er as <- <-.
    + cbn [attempt_bind]. right. apply Hgo. intros j Hj. rewrite Hd, Ee. destruct (Z.leb_spec 0 j), (Z.ltb_spec j blks_per_seg); cbn [andb]; [done|lia..].
    + unfold f2fs_restore_node_summary. destruct (node_loop_ok (seqZ 0 blks_per_seg) (START_BLOCK (cur_segno ck t)) (NoDup_seqZ _ _) (ssa_pages env (GET_SUM_BLOCK (cur_segno ck t)))) as [(e & -> & Hne)|(sum' & -> & S1 & _)]; cbn [attempt_bind]; [left; by exists e|].
      right. apply Hgo. intros j Hj. rewrite Hd, Ee. apply S1. apply elem_of_seqZ. lia.
Qed.
Lemma normal_logs_ok l : NoDup l -> (forall t, t ∈ l -> persistent t) -> forall s, fresh s -> (forall t, t ∈ l -> seg_type (CURSEG_I s t) = t) ->
  (exists e, normal_logs env ck l s = Some (inl e) /\ ~ all_readable) \/
  exists s', normal_logs env ck l s = Some (inr s') /\ fresh s' /\ (forall t, t ∉ l -> CURSEG_I s' t = CURSEG_I s t) /\ forall t, t ∈ l -> exists sum, CURSEG_I s' t = restored t sum /\ normal_sum t sum.
Proof.
  induction 1 as [|t l Ht Hn IH]; intros Hp s Hf Hty; cbn [normal_logs]; [right; exists s; split; [done|]; split; [done|]; split; [done|set_solver]|].
  destruct (normal_ok s t Hf (Hp t ltac:(set_solver)) (Hty t ltac:(set_solver))) as [(e & -> & Hne)|(s1 & sum & -> & Hf1 & Hs & Hc)]; cbn [attempt_bind]; [left; by exists e|].
  destruct (IH ltac:(set_solver) s1 Hf1) as [?|(s' & -> & Hf' & Ho & Hl)]; [|by left|].
  - intros u Hu. rewrite Hc. unfold upd. rewrite decide_False by (intros ->; done). apply Hty. set_solver.
  - right. exists s'. split; [done|]. split; [done|]. split.
    + intros u Hu. rewrite Ho, Hc by set_solver. unfold upd. rewrite decide_False; [done|set_solver].
    + intros u [->|Hu]%elem_of_cons; [|by apply Hl]. exists sum. rewrite Ho, Hc by done. unfold upd. by rewrite decide_True.
Qed.

(** The summary of each log. *)
Definition log_sum (t : Z) (sum : Z -> f2fs_summary) : Prop :=
  if CP_COMPACT_SUM_FLAG ck && IS_DATASEG t
  then forall entries, all_readable -> holds_entries {| r_page := start_sum_block ck; r_start := start_sum_block ck + 1; r_offset := 2 * SUM_JOURNAL_SIZE |} [CURSEG_HOT_DATA; CURSEG_WARM_DATA; CURSEG_COLD_DATA] entries ->
       forall j, 0 <= j < blk_count t -> sum j = entries t j
  else normal_sum t sum.
Lemma restore_sums_ok d nats : (exists e, restore_curseg_summaries NAT_JOURNAL_ENTRIES env ck d nats (blank_sys env ck v0) = Some (inl e) /\ ~ (all_readable /\ nats <= NAT_JOURNAL_ENTRIES /\ Z.of_nat (length (s_journal d)) <= SIT_JOURNAL_ENTRIES)) \/
  exists s, restore_curseg_summaries NAT_JOURNAL_ENTRIES env ck d nats (blank_sys env ck v0) = Some (inr s) /\ fresh s /\ Z.of_nat (length (s_journal d)) <= SIT_JOURNAL_ENTRIES /\
    (forall t, ~ persistent t -> CURSEG_I s t = init_curseg t) /\ forall t, persistent t -> exists sum, CURSEG_I s t = restored t sum /\ log_sum t sum.
Proof.
  unfold restore_curseg_summaries. set (blank := blank_sys env ck v0). assert (Hty : forall t, persistent t -> seg_type (init_curseg t) = t) by (intros t Ht; cbn; destruct (Z.ltb_spec t NR_PERSISTENT_LOG); [done|lia]).
  set (logs := [CURSEG_HOT_DATA; CURSEG_WARM_DATA; CURSEG_COLD_DATA]). assert (Hin : forall i, i ∈ logs <-> 0 <= i < CURSEG_HOT_NODE) by (intros i; unfold logs; rewrite !elem_of_cons, elem_of_nil; unfold CURSEG_HOT_DATA, CURSEG_WARM_DATA, CURSEG_COLD_DATA, CURSEG_HOT_NODE; lia).
  assert (Hfin : forall s ty, fresh s -> 0 <= ty <= 3 -> (forall t, ~ (0 <= t < ty) -> CURSEG_I s t = init_curseg t) -> (forall t, 0 <= t < ty -> exists sum, CURSEG_I s t = restored t sum /\ log_sum t sum) -> (ty = 0 -> CP_COMPACT_SUM_FLAG ck = false) -> (ty <> 0 -> ty = 3) ->
    forall r, r = (let? s := normal_logs env ck (seqZ ty (CURSEG_COLD_NODE - ty + 1)) s in if (NAT_JOURNAL_ENTRIES <? nats) || (SIT_JOURNAL_ENTRIES <? Z.of_nat (length (s_journal d))) then Some (inl EINVAL) else Some (inr s)) ->
    (exists e, r = Some (inl e) /\ ~ (all_readable /\ nats <= NAT_JOURNAL_ENTRIES /\ Z.of_nat (length (s_journal d)) <= SIT_JOURNAL_ENTRIES)) \/
    exists s, r = Some (inr s) /\ fresh s /\ Z.of_nat (length (s_journal d)) <= SIT_JOURNAL_ENTRIES /\ (forall t, ~ persistent t -> CURSEG_I s t = init_curseg t) /\ forall t, persistent t -> exists sum, CURSEG_I s t = restored t sum /\ log_sum t sum).
  { intros s ty Hf Hr Hc1 Hc2 Hz H3 r ->. assert (Hl : forall t, t ∈ seqZ ty (CURSEG_COLD_NODE - ty + 1) <-> ty <= t < 6) by (intros t; rewrite elem_of_seqZ; unfold CURSEG_COLD_NODE; lia).
    destruct (normal_logs_ok (seqZ ty (CURSEG_COLD_NODE - ty + 1)) (NoDup_seqZ _ _)) with (s := s) as [(e & -> & Hne)|(s' & -> & Hf' & Ho & Hs)]; cbn [attempt_bind].
    - intros t Ht. apply Hl in Ht. unfold NR_PERSISTENT_LOG. lia.
    - done.
    - intros t Ht. apply Hl in Ht. rewrite Hc1 by lia. apply Hty. unfold NR_PERSISTENT_LOG. lia.
    - left. exists e. split; [done|]. tauto.
    - destruct (_ || _) eqn:Eb; [left; exists EINVAL; split; [done|]; apply orb_true_iff in Eb; rewrite !Z.ltb_lt in Eb; lia|]. apply orb_false_iff in Eb as [_ Eb%Z.ltb_ge]. right. exists s'. split; [done|]. split; [done|]. split; [done|]. split.
      + intros t Ht. rewrite Ho, Hc1; [done|unfold NR_PERSISTENT_LOG in Ht; lia|]. rewrite Hl. unfold NR_PERSISTENT_LOG in Ht. lia.
      + intros t Ht. unfold NR_PERSISTENT_LOG in Ht. destruct (Z.lt_ge_cases t ty) as [Hlt|Hge]; [rewrite Ho by (rewrite Hl; lia); apply Hc2; lia|]. destruct (Hs t ltac:(apply Hl; lia)) as (sum & Es & Hsum). exists sum. split; [done|]. unfold log_sum.
        destruct (decide (ty = 0)) as [->|Hne]; [by rewrite Hz|]. specialize (H3 Hne) as ->. assert (Hnd : IS_DATASEG t = false) by (unfold IS_DATASEG, CURSEG_COLD_DATA; apply Z.leb_gt; lia). by rewrite Hnd, andb_false_r. }
  destruct (CP_COMPACT_SUM_FLAG ck) eqn:Ecp.
  - unfold read_compacted_summaries, open_sums. destruct (meta_readable env (start_sum_block ck)) eqn:Er; [|left; exists EIO; split; [done|]; intros [[Hr _] _]; by rewrite Hr in Er].
    destruct (compact_logs_ok logs) with (s := blank) (r := {| r_page := start_sum_block ck; r_start := start_sum_block ck + 1; r_offset := 2 * SUM_JOURNAL_SIZE |}) as [(e & E & Hne)|(s1 & E & Hf1 & Ho1 & Hs1)].
    + unfold logs. repeat constructor; set_solver.
    + intros t Ht. apply Hin in Ht. unfold CURSEG_HOT_NODE, NR_PERSISTENT_LOG in *. lia.
    + apply fresh_blank.
    + intros t Ht. apply Hin in Ht. apply Hty. unfold CURSEG_HOT_NODE, NR_PERSISTENT_LOG in *. lia.
    + fold logs. rewrite E. cbn [attempt_bind]. left. exists e. split; [done|]. tauto.
    + fold logs. rewrite E. cbn [attempt_bind]. eapply (Hfin s1 CURSEG_HOT_NODE Hf1); [unfold CURSEG_HOT_NODE; lia| | |done|done|reflexivity].
      * intros t Ht. rewrite Ho1; [done|]. by rewrite Hin.
      * intros t Ht. destruct (Hs1 t ltac:(by apply Hin)) as (sum & Es & Hsum). exists sum. split; [done|]. unfold log_sum. assert (Hd : IS_DATASEG t = true) by (unfold IS_DATASEG, CURSEG_COLD_DATA, CURSEG_HOT_NODE in *; apply Z.leb_le; lia). by rewrite Ecp, Hd.
  - cbn [attempt_bind]. eapply (Hfin blank CURSEG_HOT_DATA fresh_blank); [unfold CURSEG_HOT_DATA; lia|done|unfold CURSEG_HOT_DATA; lia|done|done|reflexivity].
Qed.
End restore.
