(* ===== verification/SegMountProps.v ===== *)
(** * A mount establishes the invariant *)

From S2P Require Import Prelude FreeNid NatCache SegBitmap SegState SegAlloc SegInv SegLists SegCur SegSwitch SegVictim SegVictimProps SegBlocks SegData SegDiscard SegFlush SegFlushProps SegSums SegMount SegTable SegRestore SegTouch SegCkpt SegSystem.

Section mprops.
Context `{SitFormat} `{SumFormat} (denv : discard_env) (NAT_JOURNAL_ENTRIES : Z) (env : mount_env) (ck : cp_info) (v0 : victim_info).
Notation seg_ok g := (0 <= g < MAIN_SEGS).
Notation off_ok o := (0 <= o < blks_per_seg).
Notation log_ok t := (0 <= t < NO_CHECK_TYPE).
Notation persistent t := (0 <= t < NR_PERSISTENT_LOG).
Notation all_segs := (seqZ 0 MAIN_SEGS).

(** ** Free segments *)

Lemma blank_free : free_ok (fre (blank_sys env ck v0)).
Proof.
  assert (Hz : forall n, count_out (list_to_set (seqZ 0 n)) n = 0). { intros n. unfold count_out. destruct (filter _ (seqZ 0 n)) as [|g l] eqn:E; [done|]. assert (Hg : g ∈ filter (fun g => g ∉ (list_to_set (seqZ 0 n) : gset Z)) (seqZ 0 n)) by (rewrite E; set_solver). apply list_elem_of_filter in Hg as [Hn Hg]. destruct Hn. by apply elem_of_list_to_set. }
  constructor; cbn; [by rewrite Hz|by rewrite Hz|]. intros c Hc. rewrite elem_of_list_to_set, elem_of_seqZ. split; [|lia]. intros _. destruct (sec_first c Hc) as [Hg Hd]. exists (c * segs_per_sec). split; [done|]. split; [done|]. apply elem_of_list_to_set, elem_of_seqZ. lia.
Qed.
Lemma set_free_ok f g : free_ok f -> seg_ok g -> g ∈ free_segmap f -> free_ok (__set_free f g) /\ free_segmap (__set_free f g) = free_segmap f ∖ {[g]}.
Proof.
  intros Hf Hg Hin. destruct (sec_of g Hg) as [Es Hs]. assert (Hsec : g / segs_per_sec ∈ free_secmap f) by (apply (fo_map _ Hf); eauto). assert (E : __set_free f g = __set_test_and_free false f g true).
  { unfold __set_free, __set_test_and_free. rewrite decide_True by done. cbn [negb andb]. rewrite Es. rewrite (bool_decide_eq_true_2 _ Hsec), andb_true_r. done. }
  rewrite E. by apply test_and_free_ok.
Qed.
(** The table apart from the number of written blocks. *)
Definition rewritten (s s' : seg_sys) (f : free_segmap_info) (w : Z) : Prop :=
  s' = with_fre (with_sit s {| sentries := sentries (sit s); sec_entries := sec_entries (sit s); written_valid_blocks := w; dirty_sentries_bitmap := dirty_sentries_bitmap (sit s); dirty_sentries := dirty_sentries (sit s) |}) f.
Lemma free_loop_ok s0 l : NoDup l -> (forall g, g ∈ l -> seg_ok g) -> (forall g, seg_ok g -> is_Some (sentries (sit s0) !! g)) -> (forall g, 0 <= valid_of (sit s0) g <= blks_per_seg) ->
  forall s f w, rewritten s0 s f w -> free_ok f -> (forall g, g ∈ l -> g ∈ free_segmap f) -> 0 <= w -> w + sumf (valid_of (sit s0)) l < 2 ^ 32 ->
  exists s' f', init_free_loop l s = Some s' /\ rewritten s0 s' f' (w + sumf (valid_of (sit s0)) l) /\ free_ok f' /\ forall g, g ∈ free_segmap f' <-> g ∈ free_segmap f /\ ~ (g ∈ l /\ valid_of (sit s0) g = 0).
Proof.
  intros Hn. induction Hn as [|g l Hg Hn IH]; intros Hl Hdom Hr s f w Hs Hf Hin Hw Hb; cbn [init_free_loop].
  { exists s, f. split; [done|]. cbn [sumf foldr]. rewrite Z.add_0_r. split; [done|]. split; [done|]. set_solver. }
  cbn [sumf foldr] in *. fold (sumf (valid_of (sit s0)) l) in *. assert (Hgr : seg_ok g) by (apply Hl; set_solver). destruct (Hdom g Hgr) as [se E]. pose proof (sumf_range (valid_of (sit s0)) l blks_per_seg ltac:(intros h _; apply Hr)) as Hsr. pose proof (Hr g) as Hrg. pose proof (valid_of_at _ _ _ E) as Ev.
  assert (Es : get_seg_entry s g = Some se) by (unfold get_seg_entry; by rewrite Hs). rewrite Es. cbn [mbind option_bind]. rewrite <-Ev. destruct (Z.eqb_spec (valid_of (sit s0) g) 0) as [Hz|Hnz].
  - destruct (set_free_ok f g Hf Hgr ltac:(set_solver)) as [Hf1 Hm1]. destruct (IH ltac:(set_solver) Hdom Hr (with_fre s (__set_free (fre s) g)) (__set_free f g) w) as (s' & f' & -> & Hs' & Hf' & Hm').
    + unfold rewritten in *. by rewrite Hs.
    + done.
    + intros h Hh. rewrite Hm1. assert (h <> g) by (intros ->; done). set_solver.
    + done.
    + lia.
    + exists s', f'. split; [done|]. split; [by rewrite Hz|]. split; [done|]. intros h. rewrite Hm', Hm1, elem_of_difference, elem_of_singleton, elem_of_cons. destruct (decide (h = g)) as [->|]; [tauto|naive_solver].
  - set (w1 := written_valid_blocks (sit s) +! valid_of (sit s0) g). assert (Ew : w1 = w + valid_of (sit s0) g) by (unfold w1; rewrite Hs; cbn; apply u32_small; lia).
    destruct (IH ltac:(set_solver) Hdom Hr (with_sit s {| sentries := sentries (sit s); sec_entries := sec_entries (sit s); written_valid_blocks := w1; dirty_sentries_bitmap := dirty_sentries_bitmap (sit s); dirty_sentries := dirty_sentries (sit s) |}) f (w + valid_of (sit s0) g)) as (s' & f' & -> & Hs' & Hf' & Hm').
    + unfold rewritten in *. rewrite Ew. by rewrite Hs.
    + done.
    + set_solver.
    + lia.
    + lia.
    + exists s', f'. split; [done|]. split; [by rewrite Z.add_assoc|]. split; [done|]. intros h. rewrite Hm', elem_of_cons. destruct (decide (h = g)) as [->|]; [|naive_solver]. split; [|tauto]. intros [? _]. split; [done|]. tauto.
Qed.
Lemma inuse_fold_ok (seg : Z -> Z) l : forall f, free_ok f -> (forall t, t ∈ l -> seg_ok (seg t)) ->
  let f' := foldl (fun f t => __set_test_and_inuse f (seg t)) f l in free_ok f' /\ forall g, g ∈ free_segmap f' <-> g ∈ free_segmap f \/ exists t, t ∈ l /\ seg t = g.
Proof.
  induction l as [|t l IH]; intros f Hf Hl; cbn [foldl]; [split; [done|]; set_solver|]. destruct (test_and_inuse_ok f (seg t) Hf (Hl t ltac:(set_solver))) as [Hf1 Hm1]. destruct (IH _ Hf1 ltac:(set_solver)) as [Hf' Hm']. split; [done|]. intros g. rewrite Hm', Hm1, elem_of_union, elem_of_singleton. setoid_rewrite elem_of_cons. naive_solver.
Qed.
Lemma init_free_ok s : (forall g, is_Some (sentries (sit s) !! g) <-> seg_ok g) -> (forall g, 0 <= valid_of (sit s) g <= blks_per_seg) -> fre s = fre (blank_sys env ck v0) -> written_valid_blocks (sit s) = 0 -> (forall t, persistent t -> seg_ok (segno (CURSEG_I s t))) ->
  exists s' f', init_free_segmap s = Some s' /\ rewritten s s' f' (sum_valid (sit s) all_segs) /\ free_ok f' /\ forall g, g ∈ free_segmap f' <-> seg_ok g /\ (valid_of (sit s) g <> 0 \/ exists t, persistent t /\ segno (CURSEG_I s t) = g).
Proof.
  intros Hdom Hr Hfre Hw Hlogs. unfold init_free_segmap. pose proof (all_fit all_segs (NoDup_seqZ _ _) ltac:(intros g Hg; apply elem_of_seqZ in Hg; lia)) as Hfit. pose proof (sumf_range (valid_of (sit s)) all_segs blks_per_seg ltac:(intros g _; apply Hr)) as Hsr.
  destruct (free_loop_ok s all_segs (NoDup_seqZ _ _)) with (s := s) (f := fre s) (w := 0) as (s1 & f1 & -> & Hs1 & Hf1 & Hm1).
  - intros g Hg. apply elem_of_seqZ in Hg. lia.
  - intros g. apply Hdom.
  - done.
  - unfold rewritten. rewrite <-Hw. by destruct s as [[] ? ? ? ? ? ? ? ? ?].
  - rewrite Hfre. apply blank_free.
  - intros g Hg. rewrite Hfre. cbn. by apply elem_of_list_to_set.
  - lia.
  - lia.
  - cbn [mbind option_bind]. rewrite Z.add_0_l in Hs1. assert (Ec : CURSEG_I s1 = CURSEG_I s) by (by rewrite Hs1). assert (Ef : fre s1 = f1) by (by rewrite Hs1). destruct (inuse_fold_ok (fun t => segno (CURSEG_I s1 t)) (seqZ 0 NR_PERSISTENT_LOG) (fre s1)) as [Hf2 Hm2].
    + by rewrite Ef.
    + intros t Ht. apply elem_of_seqZ in Ht. rewrite Ec. apply Hlogs. lia.
    + cbv zeta in Hf2, Hm2. set (F := foldl (fun f t => __set_test_and_inuse f (segno (CURSEG_I s1 t))) (fre s1) (seqZ 0 NR_PERSISTENT_LOG)) in *. exists (with_fre s1 F), F. split; [done|]. split; [clearbody F; unfold rewritten; by rewrite Hs1|]. split; [exact Hf2|]. intros g. rewrite Hm2, Ef, Hm1, Hfre. cbn. rewrite !elem_of_list_to_set, !elem_of_seqZ. setoid_rewrite elem_of_seqZ. rewrite Ec. split.
      * intros [[Hg Hno]|(t & Ht & <-)]; [split; [lia|left; intros Hz; apply Hno; split; [lia|done]]|split; [apply Hlogs; lia|right; exists t; split; [lia|done]]].
      * intros [Hg [Hnz|(t & Ht & <-)]]; [left; split; [lia|tauto]|right; exists t; split; [lia|done]].
Qed.

(** ** The checks *)

(** The fields of the checkpoint are unsigned, and each log is in one of the two modes. *)
Record cp_fit : Prop := {
  cf_logs : sanity_check_logs ck = true;
  cf_unsigned : forall t, persistent t -> 0 <= cur_segno ck t /\ 0 <= cur_blkoff ck t;
  cf_alloc : forall t, persistent t -> cp_alloc_type ck t = LFS \/ cp_alloc_type ck t = SSR;
  cf_cp : cp_disabled ck = false
}.
Lemma logs_apart_spec base n : logs_apart ck base n = true -> (forall i, 0 <= i < n -> cur_segno ck (base + i) < MAIN_SEGS /\ cur_blkoff ck (base + i) < blks_per_seg) /\
  forall i j, 0 <= i < n -> 0 <= j < n -> i <> j -> cur_segno ck (base + i) <> cur_segno ck (base + j).
Proof.
  unfold logs_apart. intros Hf. rewrite forallb_forall in Hf. assert (Hi : forall i, 0 <= i < n -> log_place_ok ck (base + i) = true /\ forall j, i < j < n -> cur_segno ck (base + i) <> cur_segno ck (base + j)).
  { intros i Hi. specialize (Hf i ltac:(apply list_elem_of_In, elem_of_seqZ; lia)). apply andb_true_iff in Hf as [Hp Hj]. split; [done|]. intros j Hj'. rewrite forallb_forall in Hj. specialize (Hj j ltac:(apply list_elem_of_In, elem_of_seqZ; lia)). by apply negb_true_iff, Z.eqb_neq in Hj. }
  split.
  - intros i Hr. destruct (Hi i Hr) as [Hp _]. unfold log_place_ok in Hp. apply negb_true_iff, orb_false_iff in Hp. rewrite !Z.leb_gt in Hp. lia.
  - intros i j Hr Hr' Hne. destruct (Z.lt_ge_cases i j); [apply Hi; [done|lia]|]. apply not_eq_sym. apply Hi; [done|lia].
Qed.
Lemma cp_places : cp_fit -> (forall t, persistent t -> seg_ok (cur_segno ck t) /\ off_ok (cur_blkoff ck t)) /\ forall t t', persistent t -> persistent t' -> t <> t' -> cur_segno ck t <> cur_segno ck t'.
Proof.
  intros [Hl Hu _ _]. unfold sanity_check_logs in Hl. apply andb_true_iff in Hl as [[Hn Hd]%andb_true_iff Hx]. apply logs_apart_spec in Hn as [N1 N2], Hd as [D1 D2]. rewrite forallb_forall in Hx. unfold CURSEG_HOT_NODE, CURSEG_HOT_DATA, NR_CURSEG_NODE_TYPE, NR_CURSEG_DATA_TYPE, NR_PERSISTENT_LOG in *.
  assert (HX : forall i j, 0 <= i < 3 -> 0 <= j < 3 -> cur_segno ck (3 + i) <> cur_segno ck (0 + j)).
  { intros i j Hi Hj. specialize (Hx i ltac:(apply list_elem_of_In, elem_of_seqZ; lia)). rewrite forallb_forall in Hx. specialize (Hx j ltac:(apply list_elem_of_In, elem_of_seqZ; lia)). by apply negb_true_iff, Z.eqb_neq in Hx. }
  assert (Hsp : forall t, 0 <= t < 6 -> t = 0 + t /\ 0 <= t < 3 \/ t = 3 + (t - 3) /\ 0 <= t - 3 < 3) by lia. split.
  - intros t Ht. pose proof (Hu t Ht) as [? ?]. destruct (Hsp t Ht) as [[E Hr]|[E Hr]]; [destruct (D1 t Hr) as [P1 P2]|destruct (N1 (t - 3) Hr) as [P1 P2]]; rewrite <-E in P1, P2; lia.
  - intros t t' Ht Ht' Hne. destruct (Hsp t Ht) as [[E Hr]|[E Hr]], (Hsp t' Ht') as [[E' Hr']|[E' Hr']]; rewrite E, E'; [apply D2; lia|apply not_eq_sym, HX; lia|apply HX; lia|apply N2; lia].
Qed.
(** A log writes to a block that is not valid. *)
Definition sane (s : seg_sys) (t : Z) : Prop :=
  forall se, sentries (sit s) !! segno (CURSEG_I s t) = Some se -> next_blkoff (CURSEG_I s t) ∉ cur_valid_map se /\ (alloc_type (CURSEG_I s t) <> SSR -> forall o, next_blkoff (CURSEG_I s t) < o < blks_per_seg -> o ∉ cur_valid_map se).
Lemma curseg_sane_ok s t : is_Some (sentries (sit s) !! segno (CURSEG_I s t)) -> seg_type (CURSEG_I s t) < NR_PERSISTENT_LOG -> exists b, curseg_sane s t = Some b /\ (b = true <-> sane s t).
Proof.
  intros [se E] Hty. unfold curseg_sane, get_seg_entry. rewrite E. cbn [mbind option_bind]. destruct (Z.leb_spec NR_PERSISTENT_LOG (seg_type (CURSEG_I s t))); [lia|]. unfold sane. rewrite E. set (c := CURSEG_I s t).
  destruct (decide (next_blkoff c ∈ cur_valid_map se)) as [Hin|Hin]; [exists false; split; [done|]; split; [done|]; intros Hs; by destruct (Hs se eq_refl)|]. destruct (Z.eqb_spec (alloc_type c) SSR) as [Ea|Ea].
  - exists true. split; [done|]. split; [|done]. intros _ x [= <-]. done.
  - eexists. split; [done|]. rewrite forallb_forall. split.
    + intros Hf x [= <-]. split; [done|]. intros _ o Ho. specialize (Hf o ltac:(apply list_elem_of_In, elem_of_seqZ; lia)). by apply bool_decide_eq_true in Hf.
    + intros Hs o Ho. apply list_elem_of_In, elem_of_seqZ in Ho. apply bool_decide_eq_true. destruct (Hs se eq_refl) as [_ Hs']. apply Hs'; [done|lia].
Qed.
Lemma sanity_loop_ok s l : (forall t, t ∈ l -> is_Some (sentries (sit s) !! segno (CURSEG_I s t)) /\ seg_type (CURSEG_I s t) < NR_PERSISTENT_LOG) ->
  sanity_loop l s = Some (inl EFSCORRUPTED) /\ ~ (forall t, t ∈ l -> sane s t) \/ sanity_loop l s = Some (inr tt) /\ forall t, t ∈ l -> sane s t.
Proof.
  induction l as [|t l IH]; intros Hl; cbn [sanity_loop]; [right; split; [done|set_solver]|]. destruct (Hl t ltac:(set_solver)) as [Hs Ht]. destruct (curseg_sane_ok s t Hs Ht) as (b & -> & Hb). cbn [lift mbind option_bind attempt_bind]. destruct b.
  - assert (sane s t) by (by apply Hb). destruct (IH ltac:(set_solver)) as [[-> Hn]|[-> Ha]]; [left; split; [done|]; intros Ha; apply Hn; set_solver|right; split; [done|]; intros u [->|Hu]%elem_of_cons; auto].
  - left. split; [done|]. intros Ha. specialize (Ha t ltac:(set_solver)). apply Hb in Ha. done.
Qed.

(** ** From the table to the invariant *)

(** What the entries of the table hold beyond the check of their counters: types of logs,
    which no mount verifies, words of 16 bits and maps of the size of a segment; one entry
    per segment in the journal. *)
Record disk_fit (d : sit_disk) : Prop := {
  df_types : forall g, seg_ok g -> 0 <= GET_SIT_TYPE (vblocks (disk_entry d g)) < NR_PERSISTENT_LOG;
  df_words : forall g, seg_ok g -> 0 <= vblocks (disk_entry d g) < 2 ^ 16;
  df_maps : forall g o, seg_ok g -> o ∈ valid_map (disk_entry d g) -> off_ok o;
  df_journal : NoDup (s_journal d).*1;
  df_keys : forall k, k ∈ (s_journal d).*1 -> 0 <= k
}.
Lemma loaded_entry d s g : disk_fit d -> seg_ok g -> loaded s g (disk_entry d g) -> check_block_count g (disk_entry d g) = Some false -> exists dm, sentries (sit s) !! g = Some (seg_info_from_raw_sit dm (disk_entry d g)) /\ entry_ok (seg_info_from_raw_sit dm (disk_entry d g)).
Proof.
  intros Hd Hg [dm E] Hc. exists dm. split; [done|]. destruct (check_valid g _ Hc) as [Hr Hv]. rewrite length_filter_size in Hv by (intros o; by apply (df_maps _ Hd)). constructor; cbn; [by apply (df_types _ Hd)|done|intros o; by apply (df_maps _ Hd)|done|done].
Qed.
Record table_of (d : sit_disk) (s : seg_sys) : Prop := {
  tb_ent : forall g, seg_ok g -> exists dm, sentries (sit s) !! g = Some (seg_info_from_raw_sit dm (disk_entry d g)) /\ entry_ok (seg_info_from_raw_sit dm (disk_entry d g));
  tb_dom : forall g, is_Some (sentries (sit s) !! g) -> seg_ok g;
  tb_clean : dirty_sentries_bitmap (sit s) = ∅ /\ dirty_sentries (sit s) = 0
}.
Lemma table_valid d s g o : table_of d s -> seg_ok g -> (valid_at s g o <-> disk_valid d g o) /\ (kept s g o <-> disk_valid d g o).
Proof.
  intros Ht Hg. destruct (tb_ent _ _ Ht g Hg) as (dm & E & _). unfold valid_at, kept, disk_valid. rewrite E. split; (split; [by intros (x & [= <-] & Hx)|intros Hx; eexists; split; [done|done]]).
Qed.
Lemma table_sit_ok d s : table_of d s -> (is_large_section = true -> forall c, 0 <= c < MAIN_SECS -> sec_entries (sit s) !! c = Some (sum_valid (sit s) (seqZ (c * segs_per_sec) segs_per_sec))) ->
  written_valid_blocks (sit s) = sum_valid (sit s) all_segs -> sit_ok (sit s).
Proof.
  intros [T1 T2 [T3 T4]] Hs Hw. constructor; rewrite ?T3, ?T4; try done.
  - intros g. split; [apply T2|]. intros Hg. destruct (T1 g Hg) as (dm & -> & _). done.
  - intros g se E. destruct (T1 g (T2 g ltac:(eauto))) as (dm & E' & He). rewrite E in E'. by injection E' as ->.
  - intros g se E _. destruct (T1 g (T2 g ltac:(eauto))) as (dm & E' & He). rewrite E in E'. by injection E' as ->.
Qed.

(** The logs after a mount. *)
Definition logs_restored (s : seg_sys) : Prop :=
  (forall t, ~ persistent t -> CURSEG_I s t = init_curseg t) /\ forall t, persistent t -> exists sum, CURSEG_I s t = restored ck t sum.
Lemma logs_in_use s g : logs_restored s -> seg_ok g -> IS_CURSEG s g = true <-> exists t, persistent t /\ segno (CURSEG_I s t) = g.
Proof.
  intros [L1 L2] Hg. rewrite curseg_iff. unfold NO_CHECK_TYPE, NR_PERSISTENT_LOG in *. split; intros (t & Ht & E); [|exists t; split; [lia|done]]. destruct (Z.lt_ge_cases t 6); [exists t; split; [lia|done]|]. rewrite L1 in E by lia. cbn in E. rewrite <-E in Hg. by apply null_not_seg in Hg.
Qed.
(** Before the dirty segments are found: nothing is listed yet. *)
Lemma mount_inv d s : cp_fit -> (forall p, 0 <= last_victim (vict s) p <= MAIN_SEGS) -> table_of d s -> sit_ok (sit s) -> free_ok (fre s) -> logs_restored s -> (forall t, persistent t -> sane s t) -> CP_DISABLED s = false ->
  (forall g, g ∈ free_segmap (fre s) <-> seg_ok g /\ (valid_of (sit s) g <> 0 \/ exists t, persistent t /\ segno (CURSEG_I s t) = g)) -> (forall t, dirty_segmap (dirt s) t = ∅ /\ nr_dirty (dirt s) t = 0) -> seg_inv (list_to_set all_segs) s.
Proof.
  intros Hcp Hlast Ht Hx Hf Hlogs Hsane Hdis Hmap Hd. pose proof Hlogs as [L1 L2]. destruct (cp_places Hcp) as [P1 P2]. assert (Hseg : forall t, persistent t -> segno (CURSEG_I s t) = cur_segno ck t) by (intros t Hp; by destruct (L2 t Hp) as [sum ->]).
  assert (Hini : forall t, inited (CURSEG_I s t) = true <-> persistent t). { intros t. split; [|intros Hp; by destruct (L2 t Hp) as [sum ->]]. intros Hi. destruct (decide (persistent t)) as [|Hn]; [done|]. by rewrite L1 in Hi. }
  constructor; try done.
  - intros g se Hg Hn E. destruct (tb_ent _ _ Ht g Hg) as (dm & E' & He). rewrite E in E'. injection E' as ->. apply size_zero. assert (Hz : valid_of (sit s) g = 0) by (destruct (decide (valid_of (sit s) g = 0)); [done|]; destruct Hn; apply Hmap; tauto). rewrite (valid_of_at _ _ _ E) in Hz. rewrite (eo_valid _ He) in Hz. cbn in Hz |- *. lia.
  - intros t Hlt. destruct (decide (persistent t)) as [Hp|Hp].
    + destruct (L2 t Hp) as [sum Ec]. destruct (P1 t Hp) as [S1 S2]. specialize (Hsane t Hp). unfold sane in Hsane. rewrite Ec in *. cbn in Hsane. constructor; cbn; try done.
      * intros _. split; [done|]. split; [apply Hmap; split; [done|right; exists t; by rewrite Ec]|]. split; [lia|]. by apply (cf_alloc Hcp).
      * intros _ Ha se o E Ho. destruct (tb_ent _ _ Ht _ S1) as (dm & E' & He). rewrite E in E'. injection E' as ->. destruct (Hsane _ E) as [N1 N2]. cbn in *. destruct (decide (o = cur_blkoff ck t)) as [->|]; [done|]. intros Hin. assert (off_ok o) by (by apply (eo_map _ He)). apply (N2 ltac:(rewrite Ha; done) o); [lia|done].
      * intros _ se E. destruct (tb_ent _ _ Ht _ S1) as (dm & E' & He). rewrite E in E'. injection E' as ->. by destruct (Hsane _ E) as [N1 _].
    + rewrite L1 by done. constructor; cbn; try done. destruct (t <? NR_PERSISTENT_LOG) eqn:El; [|done]. apply Z.ltb_lt in El. lia.
  - intros t Hp. by apply Hini.
  - intros t t' Hlt Hlt' Hne Hi. apply Hini in Hi as Hp. rewrite (Hseg t Hp). destruct (decide (persistent t')) as [Hp'|Hp']; [rewrite (Hseg t' Hp'); by apply P2|]. rewrite (L1 t' Hp'). cbn. intros E. destruct (P1 t Hp) as [S1 _]. rewrite E in S1. by apply null_not_seg in S1.
  - constructor; intros *; rewrite ?(proj1 (Hd _)), ?(proj2 (Hd _)), ?size_empty; set_solver.
  - intros g Hg Hn. destruct Hn. apply elem_of_list_to_set, elem_of_seqZ. lia.
Qed.

(** ** Dirty segments *)

Definition holes (s : seg_sys) : Prop := forall g, g ∈ dirty_segmap (dirt s) DIRTY -> 0 < valid_of (sit s) g < blks_per_seg.
Lemma locate_adds s g s' : __locate_dirty_segment s g DIRTY = Some s' -> forall h, h ∈ dirty_segmap (dirt s') DIRTY -> h = g \/ h ∈ dirty_segmap (dirt s) DIRTY.
Proof.
  assert (Hb : forall d t h, h ∈ dirty_segmap (set_dirty_bit d t g) DIRTY -> h = g \/ h ∈ dirty_segmap d DIRTY).
  { intros d t h. unfold set_dirty_bit. destruct (decide (g ∈ dirty_segmap d t)); [by right|]. cbn. unfold upd. destruct (decide (DIRTY = t)) as [<-|]; [set_solver|by right]. }
  unfold __locate_dirty_segment. destruct (IS_CURSEG s g); [intros [= <-]; by right|]. cbn [negb DIRTY Z.eqb Pos.eqb]. intros Hr h. unbind Hr. destruct (DIRTY <=? _); [done|].
  assert (Hd : h ∈ dirty_segmap (set_dirty_bit (set_dirty_bit (dirt s) DIRTY g) (se_type s0) g) DIRTY -> h = g \/ h ∈ dirty_segmap (dirt s) DIRTY) by (intros Hh; apply Hb in Hh as [|Hh]; [by left|by apply Hb in Hh]).
  destruct is_large_section; [unbind Hr; destruct (_ || _); [done|]; injection Hr as <-; destruct (IS_CURSEC s _); exact Hd|injection Hr as <-; exact Hd].
Qed.
Lemma locate_same s g se : seg_ok g -> sentries (sit s) !! g = Some se -> 0 < valid_blocks se < blks_per_seg -> __locate_dirty_segment s g DIRTY = locate_dirty_segment s g.
Proof.
  intros Hg E Hv. unfold locate_dirty_segment, get_seg_entry. destruct (Z.eqb_spec g NULL_SEGNO) as [->|_]; [by apply null_not_seg in Hg|]. cbn [orb]. destruct (IS_CURSEG s g) eqn:Ec; [unfold __locate_dirty_segment; by rewrite Ec|]. rewrite E. cbn [mbind option_bind]. unfold f2fs_usable_blks_in_seg.
  destruct (Z.eqb_spec (valid_blocks se) 0); [lia|]. cbn [andb]. destruct (Z.ltb_spec (valid_blocks se) blks_per_seg); [done|lia].
Qed.
Lemma inv_listed X s g : seg_inv X s -> listed s g -> seg_inv (X ∖ {[g]}) s.
Proof. intros [I1 I2 I3 I4 I5 I6 I7 I8 I9 I10] Hl. constructor; try done. intros h Hh Hn. destruct (decide (h = g)) as [->|]; [done|]. apply I8; [done|set_solver]. Qed.
Lemma dirty_loop_ok l : forall X s, seg_inv X s -> holes s -> (forall g, g ∈ l -> seg_ok g /\ g ∈ free_segmap (fre s)) -> (forall g, g ∈ free_segmap (fre s) -> IS_CURSEG s g = false -> valid_of (sit s) g <> 0) ->
  exists s', init_dirty_loop l s = Some s' /\ seg_inv (X ∖ list_to_set l) s' /\ dirt_step s s' /\ vict s' = vict s.
Proof.
  induction l as [|g l IH]; intros X s Hi Hh Hl Hz; cbn [init_dirty_loop]; [exists s; split; [done|]; split; [by replace (X ∖ list_to_set []) with X by set_solver|]; split; [apply dirt_step_refl|done]|].
  destruct (Hl g ltac:(set_solver)) as [Hg Hu]. destruct (seg_entry_at X s g Hi Hg) as (se & E & He). unfold get_valid_blocks, get_seg_entry. cbn [andb]. rewrite E. cbn [fmap option_fmap option_map mbind option_bind]. unfold f2fs_usable_blks_in_seg. pose proof (entry_bounds se He) as [Hb _]. pose proof (valid_of_at _ _ _ E) as Ev.
  assert (Hset : X ∖ list_to_set (g :: l) = X ∖ {[g]} ∖ list_to_set l) by set_solver. rewrite Hset. destruct (_ || _) eqn:Eo.
  - assert (Hlg : listed s g). { constructor; [intros _ Hc Hv; by destruct (Hz g Hu Hc)| |by apply Hh]. intros _ _ Hv. rewrite Ev in Hv. apply orb_true_iff in Eo. rewrite !Z.eqb_eq in Eo. lia. }
    apply IH; [by apply inv_listed|done|set_solver|done].
  - apply orb_false_iff in Eo as [E1%Z.eqb_neq E2%Z.eqb_neq]. destruct (Z.ltb_spec blks_per_seg (valid_blocks se)); [lia|]. assert (Hv : 0 < valid_blocks se < blks_per_seg) by lia.
    destruct (locate_spec X s g Hi ltac:(by right)) as (s1 & El & Hi1 & Hst). rewrite <-(locate_same s g se Hg E Hv) in El. rewrite El. cbn [mbind option_bind]. assert (Evv : vict s1 = vict s).
    { clear -El. unfold __locate_dirty_segment in El. destruct (IS_CURSEG s g); [by injection El as <-|]. destruct (negb (DIRTY =? DIRTY)); [by injection El as <-|]. unbind El. destruct (DIRTY <=? _); [done|]. destruct is_large_section; [unbind El; destruct (_ || _); [done|]|]; by injection El as <-. }
    destruct (IH (X ∖ {[g]}) s1 Hi1) as (s' & -> & Hi' & Hst' & Ev').
    + intros h Hd. unfold valid_of. rewrite (ds_sit _ _ Hst). fold (valid_of (sit s) h). destruct (locate_adds s g s1 El h Hd) as [->|Hd']; [lia|by apply Hh].
    + intros h Hin. rewrite (ds_fre _ _ Hst). apply Hl. set_solver.
    + intros h. rewrite (ds_fre _ _ Hst), (ds_sit _ _ Hst), (curseg_same s s1 h (ds_cur _ _ Hst)). apply Hz.
    + exists s'. split; [done|]. split; [done|]. split; [by apply (dirt_step_trans s s1)|congruence].
Qed.
Lemma inv_secmap X s m : seg_inv X s -> seg_inv X (with_dirt s (set_secmap (dirt s) m)).
Proof.
  intros [I1 I2 I3 I4 I5 I6 [L1 L2 L3 L4 L5] I8 I9 I10]. constructor; try assumption.
  - intros t Ht. destruct (I4 t Ht). by constructor.
  - by constructor.
  - intros g Hg Hn. destruct (I8 g Hg Hn). by constructor.
Qed.
Lemma secmap_loop_ok l : forall X s, seg_inv X s -> is_large_section = true -> (forall c, c ∈ l -> 0 <= c < MAIN_SECS) -> exists m, init_secmap_loop l s = Some (with_dirt s (set_secmap (dirt s) m)).
Proof.
  induction l as [|c l IH]; intros X s Hi Hl Hc; cbn [init_secmap_loop]; [exists (dirty_secmap (dirt s)); by destruct s as [? ? [] ? ? ? ? ? ? ?]|]. destruct (sec_first c (Hc c ltac:(set_solver))) as [Hg Hd]. unfold get_valid_blocks. rewrite Hl. cbn [andb]. destruct (sec_of _ Hg) as [Es Hs]. rewrite Es, Hd, (so_sec _ (si_sit _ _ Hi) Hl c) by (apply Hc; set_solver). cbn [mbind option_bind].
  destruct (_ || _ || _); [apply (IH X s Hi Hl); set_solver|]. destruct (IH X _ (inv_secmap X s ({[c]} ∪ dirty_secmap (dirt s)) Hi) Hl ltac:(set_solver)) as (m & ->). exists m. done.
Qed.
(** The lists after a mount. *)
Lemma init_dirty_ok s : seg_inv (list_to_set all_segs) s -> holes s -> (forall g, g ∈ free_segmap (fre s) -> IS_CURSEG s g = false -> valid_of (sit s) g <> 0) -> (forall g, g ∈ free_segmap (fre s) -> seg_ok g) ->
  exists s', init_dirty_segmap s = Some s' /\ seg_inv ∅ s' /\ dirt_step s s' /\ vict s' = vict s.
Proof.
  intros Hi Hh Hz Hu. unfold init_dirty_segmap. destruct (dirty_loop_ok (set_bits (free_segmap (fre s)) MAIN_SEGS) _ s Hi Hh) as (s1 & -> & Hi1 & Hst & Ev); [|done|].
  { intros g Hg. apply list_elem_of_filter in Hg as [Hg _]. auto. }
  cbn [mbind option_bind]. assert (Hi2 : seg_inv ∅ s1).
  { destruct Hi1 as [I1 I2 I3 I4 I5 I6 I7 I8 I9 I10]. constructor; try done. intros g Hg _. destruct (decide (g ∈ free_segmap (fre s))) as [Hin|Hn].
    - apply I8; [done|]. intros [_ Hno]%elem_of_difference. apply Hno, elem_of_list_to_set, list_elem_of_filter. split; [done|]. apply elem_of_seqZ. lia.
    - rewrite <-(ds_fre _ _ Hst) in Hn. constructor; [done|done|]. intros Hd. by destruct (ls_dirty _ I7 g Hd) as (_ & ? & _). }
  destruct is_large_section eqn:El; [|exists s1; done]. destruct (secmap_loop_ok (seqZ 0 MAIN_SECS) ∅ s1 Hi2 El) as (m & ->); [intros c Hc; apply elem_of_seqZ in Hc; lia|].
  eexists. split; [done|]. split; [by apply inv_secmap|]. split; [|done]. destruct Hst as [D1 D2 D3 D4 D5 D6 D7]. by constructor.
Qed.
End mprops.
