(* ===== verification/SegRemount.v ===== *)
(** * Mounts and checkpoints

    Whatever a mount accepts satisfies the invariant of the segment manager; a checkpoint
    followed by a mount gives the same live blocks back. *)

From S2P Require Import Prelude FreeNid NatCache SegBitmap SegState SegAlloc SegInv SegLists SegCur SegSwitch SegVictim SegVictimProps SegBlocks SegData SegDiscard SegFlush SegFlushProps SegSums SegMount SegTable SegRestore SegTouch SegCkpt SegSystem SegMountProps.

Section remount.
Context `{SitFormat} `{SumFormat} (denv : discard_env) (NAT_JOURNAL_ENTRIES : Z).
Notation seg_ok g := (0 <= g < MAIN_SEGS).
Notation off_ok o := (0 <= o < blks_per_seg).
Notation persistent t := (0 <= t < NR_PERSISTENT_LOG).
Notation all_segs := (seqZ 0 MAIN_SEGS).

(** ** Up to the free segments *)

Section front.
Context (env : mount_env) (ck : cp_info) (v0 : victim_info).
Record mounted (d : sit_disk) (s : seg_sys) : Prop := {
  mt_table : table_of d s;
  mt_sit : sit_ok (sit s);
  mt_free : free_ok (fre s);
  mt_map : forall g, g ∈ free_segmap (fre s) <-> seg_ok g /\ (valid_of (sit s) g <> 0 \/ exists t, persistent t /\ segno (CURSEG_I s t) = g);
  mt_other : forall t, ~ persistent t -> CURSEG_I s t = init_curseg t;
  mt_logs : forall t, persistent t -> exists sum, CURSEG_I s t = restored ck t sum /\ log_sum env ck t sum;
  mt_dirt : forall t, dirty_segmap (dirt s) t = ∅ /\ nr_dirty (dirt s) t = 0;
  mt_vict : vict s = v0;
  mt_ssa : ssa s = ssa_pages env;
  mt_flags : CP_DISABLED s = cp_disabled ck /\ CP_ERROR s = false;
  mt_journal : journal_ok (s_journal d);
  mt_pages : forall g, seg_ok g -> check_block_count g (page_entry d g) = Some false
}.
Definition front_fits (d : sit_disk) (nats : Z) : Prop :=
  all_readable env /\ nats <= NAT_JOURNAL_ENTRIES /\ Z.of_nat (length (s_journal d)) <= SIT_JOURNAL_ENTRIES /\ forall s, table_fits env ck d s.
Lemma build_front d nats : cp_fit ck -> disk_fit d ->
  (exists e, f2fs_build_segment_manager denv NAT_JOURNAL_ENTRIES env ck d nats v0 = Some (inl e) /\ ~ front_fits d nats) \/
  exists s, mounted d s /\ f2fs_build_segment_manager denv NAT_JOURNAL_ENTRIES env ck d nats v0 = let? s := lift (init_dirty_segmap s) in let? _ := sanity_check_curseg s in Some (inr (init_min_max_mtime env s)).
Proof.
  intros Hcp Hd. destruct (cp_places ck Hcp) as [P1 _]. unfold f2fs_build_segment_manager. destruct (restore_sums_ok NAT_JOURNAL_ENTRIES env ck v0 ltac:(intros t Ht; by apply P1) d nats) as [(e & -> & Hne)|(s1 & -> & Hf1 & Hlen & Ho1 & Hl1)]; cbn [attempt_bind].
  { left. exists e. split; [done|]. intros (F1 & F2 & F3 & _). auto. }
  destruct (build_entries_ok denv env ck d s1 (fresh_loading env ck v0 s1 Hf1) (fs_zero _ _ _ _ Hf1) (df_journal _ Hd) (df_keys _ Hd)) as [(e & -> & Hne)|(s2 & n & -> & Hld & Hts & Hk & Hpg & Hlo)]; cbn [attempt_bind].
  { left. exists e. split; [done|]. intros (_ & _ & _ & F4). auto. }
  destruct (fs_sit _ _ _ _ Hf1) as (W1 & W2 & W3). destruct (ts_sit _ _ Hts) as (W4 & W5 & W6).
  destruct (init_free_ok env ck v0 s2) as (s3 & f3 & -> & Hrw & Hf3 & Hm3); [apply Hld|apply Hld|by rewrite (ts_fre _ _ Hts), (fs_fre _ _ _ _ Hf1)|congruence|intros t Ht; rewrite (ts_cur _ _ Hts); destruct (Hl1 t Ht) as (sum & -> & _); by apply P1|]. cbn [lift mbind option_bind attempt_bind].
  right. exists s3. split; [|done]. assert (Ht3 : table_of d s3).
  { constructor; rewrite Hrw; cbn; [intros g Hg; destruct (Hlo g Hg); by apply (loaded_entry d s2 g)|intros g; apply Hld|split; congruence]. }
  assert (Hrest : fre s3 = f3 /\ CURSEG_I s3 = CURSEG_I s2 /\ dirt s3 = dirt s2 /\ vict s3 = vict s2 /\ ssa s3 = ssa s2 /\ CP_DISABLED s3 = CP_DISABLED s2 /\ CP_ERROR s3 = CP_ERROR s2) by (by rewrite Hrw). destruct Hrest as (E1 & E2 & E3 & E4 & E5 & E6 & E7).
  assert (Ev : forall g, valid_of (sit s3) g = valid_of (sit s2) g) by (intros g; unfold valid_of; by rewrite Hrw). constructor; rewrite ?E1, ?E2, ?E3, ?E4, ?E5, ?E6, ?E7, ?(ts_cur _ _ Hts), ?(ts_dirt _ _ Hts), ?(ts_vict _ _ Hts), ?(ts_ssa _ _ Hts), ?(ts_cp _ _ Hts), ?(ts_err _ _ Hts); try done; try apply Hf1.
  - apply (table_sit_ok d s3 Ht3); rewrite Hrw; cbn; [apply Hld|done].
  - intros g. rewrite Ev, Hm3. by rewrite (ts_cur _ _ Hts).
  - rewrite (fs_dirt _ _ _ _ Hf1). done.
  - by rewrite (fs_cp _ _ _ _ Hf1), (fs_err _ _ _ _ Hf1).
  - constructor; [apply Hd|done|done].
Qed.

(** ** A mount that succeeds *)

Lemma dirty_loop_keeps l : forall s s', init_dirty_loop l s = Some s' -> sit s' = sit s /\ CURSEG_I s' = CURSEG_I s.
Proof.
  assert (Hone : forall s g s', __locate_dirty_segment s g DIRTY = Some s' -> CURSEG_I s' = CURSEG_I s).
  { intros s g s'. unfold __locate_dirty_segment. destruct (IS_CURSEG s g); [by intros [= <-]|]. destruct (negb _); [by intros [= <-]|]. intros Hr. unbind Hr. destruct (DIRTY <=? _); [done|]. destruct is_large_section; [unbind Hr; destruct (_ || _); [done|]|]; by injection Hr as <-. }
  induction l as [|g l IH]; intros s s'; cbn [init_dirty_loop]; [by intros [= <-]|]. intros Hr. unbind Hr. destruct (_ || _); [by apply IH|]. destruct (_ <? _); [done|]. unbind Hr. apply IH in Hr as [-> ->]. split; [by apply locate_one_sit in E0|by apply Hone in E0].
Qed.
Lemma secmap_loop_keeps l : forall s s', init_secmap_loop l s = Some s' -> sit s' = sit s /\ CURSEG_I s' = CURSEG_I s.
Proof. induction l as [|c l IH]; intros s s'; cbn [init_secmap_loop]; [by intros [= <-]|]. intros Hr. unbind Hr. apply IH in Hr as [-> ->]. by destruct (_ || _ || _). Qed.
Lemma init_dirty_keeps s s' : init_dirty_segmap s = Some s' -> sit s' = sit s /\ CURSEG_I s' = CURSEG_I s.
Proof.
  unfold init_dirty_segmap. intros Hr. unbind Hr. apply dirty_loop_keeps in E as [E1 E2]. destruct is_large_section; [apply secmap_loop_keeps in Hr as [-> ->]|injection Hr as <-]; done.
Qed.
Lemma sane_same s s' t : sit s' = sit s -> CURSEG_I s' = CURSEG_I s -> sane s' t <-> sane s t.
Proof. intros E1 E2. unfold sane. by rewrite E1, E2. Qed.

(** The state when all checks have passed. *)
Record mount_done (d : sit_disk) (s s' : seg_sys) : Prop := {
  md_inv : seg_inv ∅ s';
  md_sit : sit s' = sit s;
  md_cur : CURSEG_I s' = CURSEG_I s;
  md_ssa : ssa s' = ssa s;
  md_err : CP_ERROR s' = CP_ERROR s
}.
Hypothesis Hlast : forall p, 0 <= last_victim v0 p <= MAIN_SEGS.
Lemma finish_ok d s : cp_fit ck -> mounted d s -> (forall t, persistent t -> sane s t) ->
  exists s', (let? s := lift (init_dirty_segmap s) in let? _ := sanity_check_curseg s in Some (inr (init_min_max_mtime env s))) = Some (inr s') /\ mount_done d s s'.
Proof.
  intros Hcp [M1 M2 M3 M4 M5 M6 M7 M8 M9 [M10 M11] M12 M13] Hs. assert (Hlr : logs_restored ck s) by (split; [done|]; intros t Ht; destruct (M6 t Ht) as (sum & E & _); eauto).
  assert (Hi : seg_inv (list_to_set all_segs) s) by (apply (mount_inv ck d s Hcp); try done; [by rewrite M8|rewrite M10; apply Hcp]).
  destruct (init_dirty_ok s Hi) as (s1 & -> & Hi1 & Hst & Ev).
  - intros g. rewrite (proj1 (M7 DIRTY)). set_solver.
  - intros g Hg Hc. apply M4 in Hg as [Hg [Hv|Ht]]; [done|]. apply (logs_in_use ck s g Hlr Hg) in Ht. congruence.
  - intros g Hg. by apply M4 in Hg as [Hg _].
  - cbn [lift mbind option_bind attempt_bind]. destruct (cp_places ck Hcp) as [P1 _]. unfold sanity_check_curseg. destruct (sanity_loop_ok s1 (seqZ 0 NR_PERSISTENT_LOG)) as [[_ Hne]|[-> _]].
    + intros t Ht. apply elem_of_seqZ in Ht. assert (Hp : persistent t) by lia. rewrite (ds_sit _ _ Hst), (ds_cur _ _ Hst). destruct (M6 t Hp) as (sum & -> & _). cbn. destruct (P1 t Hp) as [Hg _]. split; [by apply (so_dom _ M2)|lia].
    + destruct Hne. intros t Ht. apply elem_of_seqZ in Ht. rewrite (sane_same s s1); [apply Hs; lia|apply Hst|apply Hst].
    + cbn [attempt_bind]. eexists. split; [done|]. destruct Hst as [D1 D2 D3 D4 D5 D6 D7]. constructor; try done. unfold init_min_max_mtime. destruct Hi1 as [I1 I2 I3 I4 I5 I6 [L1 L2 L3 L4 L5] I8 I9 I10]. constructor; try assumption.
      * intros t Ht. destruct (I4 t Ht). by constructor.
      * by constructor.
      * intros g Hg Hn. destruct (I8 g Hg Hn). by constructor.
Qed.
End front.

Definition no_discards : discard_cmd_control := {| entry_list := []; nr_discards := 0; issued := [] |}.
Lemma mounted_wf env ck v0 d s s' : cp_fit ck -> disk_fit d -> mounted env ck v0 d s -> mount_done d s s' -> seg_wf {| seg := s'; disk := d; dcc := no_discards |}.
Proof.
  intros Hcp Hfit Hm Hdn. destruct (cp_places ck Hcp) as [P1 _]. pose proof (mt_table _ _ _ _ _ Hm) as Ht. assert (Ht' : table_of d s') by (destruct Ht as [T1 T2 T3]; constructor; by rewrite (md_sit _ _ _ Hdn)). constructor; cbn.
  - apply (md_inv _ _ _ Hdn).
  - intros t Hlt. rewrite (md_cur _ _ _ Hdn). intros Hi. destruct (decide (persistent t)) as [Hp|Hp]; [|by rewrite (mt_other _ _ _ _ _ Hm t Hp) in Hi]. destruct (mt_logs _ _ _ _ _ Hm t Hp) as (sum & -> & _). cbn. by apply P1.
  - intros g Hg _. unfold raw_of. destruct (tb_ent _ _ Ht' g Hg) as (dm & -> & He). pose proof (sit_vblocks_join _ (df_words _ Hfit g Hg)) as Hj. unfold __seg_info_to_raw_sit, seg_info_from_raw_sit. cbn. rewrite Hj. by destruct (disk_entry d g).
  - apply (mt_journal _ _ _ _ _ Hm).
  - done.
  - intros g o Hg Hv. by apply (table_valid d s' g o Ht' Hg).
  - apply (mt_pages _ _ _ _ _ Hm).
Qed.

Lemma mount_sound env ck v0 d nats s : cp_fit ck -> disk_fit d -> (forall p, 0 <= last_victim v0 p <= MAIN_SEGS) ->
  f2fs_build_segment_manager denv NAT_JOURNAL_ENTRIES env ck d nats v0 = Some (inr s) -> seg_wf {| seg := s; disk := d; dcc := no_discards |} /\ table_of d s.
Proof.
  intros Hcp Hfit Hlast Hb. destruct (build_front env ck v0 d nats Hcp Hfit) as [(e & E & _)|(s3 & Hm & E)]; rewrite E in Hb; [done|]. assert (Hs : forall t, persistent t -> sane s3 t).
  { destruct (init_dirty_segmap s3) as [s4|] eqn:Ed; [|done]. cbn [lift mbind option_bind attempt_bind] in Hb. destruct (init_dirty_keeps s3 s4 Ed) as [K1 K2]. destruct (cp_places ck Hcp) as [P1 _]. unfold sanity_check_curseg in Hb.
    destruct (sanity_loop_ok s4 (seqZ 0 NR_PERSISTENT_LOG)) as [[Es _]|[_ Ha]]; [|by rewrite Es in Hb|].
    - intros t Ht. apply elem_of_seqZ in Ht. assert (Hp : persistent t) by lia. rewrite K1, K2. destruct (mt_logs _ _ _ _ _ Hm t Hp) as (sum & -> & _). cbn. destruct (P1 t Hp) as [Hg _]. split; [by apply (so_dom _ (mt_sit _ _ _ _ _ Hm))|lia].
    - intros t Hp. rewrite <-(sane_same s3 s4 t K1 K2). apply Ha, elem_of_seqZ. lia. }
  destruct (finish_ok env ck v0 Hlast d s3 Hcp Hm Hs) as (s' & E' & Hdn). rewrite E' in Hb. injection Hb as <-. split; [by apply (mounted_wf env ck v0 d s3)|].
  destruct (mt_table _ _ _ _ _ Hm) as [T1 T2 T3]. constructor; by rewrite (md_sit _ _ _ Hdn).
Qed.

(** C13: What a mount checks is enough once some things are given that it does not check.
    Given are ([disk_fit]) that the entries of the table have a known segment type and no
    segment is twice in the journal, and ([cp_fit]) that the pack passed the check of its
    log places, gives the logs a known way of allocation and is not of a disabled
    checkpoint.  Then, if building the segment manager succeeds, the invariant of the
    segment manager and of its copy on disk holds, and the valid blocks are those of the
    table and its journal: what else is damaged, the counts of an entry, its map, a log
    behind blocks in use, has been refused. *)
Theorem mount_checked env ck v0 d nats s : cp_fit ck -> disk_fit d -> (forall p, 0 <= last_victim v0 p <= MAIN_SEGS) ->
  f2fs_build_segment_manager denv NAT_JOURNAL_ENTRIES env ck d nats v0 = Some (inr s) ->
  seg_wf {| seg := s; disk := d; dcc := no_discards |} /\ forall g o, seg_ok g -> (valid_at s g o <-> disk_valid d g o) /\ (kept s g o <-> disk_valid d g o).
Proof. intros Hcp Hfit Hlast Hb. destruct (mount_sound env ck v0 d nats s Hcp Hfit Hlast Hb) as [Hw Ht]. split; [done|]. intros g o Hg. by apply table_valid. Qed.

(** ** A checkpoint and a mount *)

Context (get_victim : seg_sys -> Z -> Z -> Z -> option (victim_info * option Z)).
(** The pack of the checkpoint of [c], with the summary area as in [s']: places of the logs,
    the number of node blocks, and the summaries of the logs. *)
Record pack_of (c : seg_state) (s' : seg_sys) (env : mount_env) (ck : cp_info) : Prop := {
  pk_logs : forall t, persistent t -> cur_segno ck t = segno (CURSEG_I (seg c) t) /\ cur_blkoff ck t = next_blkoff (CURSEG_I (seg c) t) /\ cp_alloc_type ck t = alloc_type (CURSEG_I (seg c) t);
  pk_nodes : valid_node_count ck = sumf (node_of (sit (seg c))) all_segs;
  pk_cp : cp_disabled ck = false;
  pk_ssa : ssa_pages env = ssa s';
  pk_compact : CP_COMPACT_SUM_FLAG ck = true -> let data := [CURSEG_HOT_DATA; CURSEG_WARM_DATA; CURSEG_COLD_DATA] in let cached := fun t => sum_blk (CURSEG_I (seg c) t) in
    exists mem, forall k, (k < length (all_entries cached (blk_count ck) data))%nat -> let p := place_at (start_sum_block ck, 2 * SUM_JOURNAL_SIZE) k in pack env p.1 p.2 = write_compacted_summaries mem (start_sum_block ck) cached (blk_count ck) p.1 p.2;
  pk_data : forall t, persistent t -> IS_DATASEG t = true -> CP_COMPACT_SUM_FLAG ck = false ->
    forall j, off_ok j -> pack_page env (sum_blk_addr ck (if exist_node_summaries ck then NR_CURSEG_PERSIST_TYPE else NR_CURSEG_DATA_TYPE) t) j = sum_blk (CURSEG_I (seg c) t) j;
  pk_node : forall t j, persistent t -> IS_DATASEG t = false -> valid_at (seg c) (segno (CURSEG_I (seg c) t)) j -> sum_version (sum_blk (CURSEG_I (seg c) t) j) = 0 /\ ofs_in_node (sum_blk (CURSEG_I (seg c) t) j) = 0 /\
    (if exist_node_summaries ck then sum_nid (pack_page env (sum_blk_addr ck NR_CURSEG_NODE_TYPE (t - CURSEG_HOT_NODE)) j) else footer_nid env (START_BLOCK (cur_segno ck t) +! j)) = sum_nid (sum_blk (CURSEG_I (seg c) t) j)
}.
Lemma pack_cp_fit c s' env ck : seg_wf c -> pack_of c s' env ck -> cp_fit ck.
Proof.
  intros Hw Hp. assert (Hcur : forall t, persistent t -> seg_ok (cur_segno ck t) /\ off_ok (cur_blkoff ck t) /\ (cp_alloc_type ck t = LFS \/ cp_alloc_type ck t = SSR)).
  { intros t Ht. destruct (pk_logs _ _ _ _ Hp t Ht) as (E1 & E2 & E3). rewrite E1, E2, E3. pose proof (si_persist _ _ (sf_inv _ Hw) t Ht) as Hi. assert (Hlt : 0 <= t < NO_CHECK_TYPE) by (unfold NR_PERSISTENT_LOG, NO_CHECK_TYPE in *; lia).
    destruct (co_seg _ _ (si_cur _ _ (sf_inv _ Hw) t Hlt) Hi) as (G1 & _ & G3 & G4). pose proof (sf_room _ Hw t Hlt Hi). split; [done|]. split; [lia|done]. }
  assert (Hne : forall t t', persistent t -> persistent t' -> t <> t' -> cur_segno ck t <> cur_segno ck t').
  { intros t t' Ht Ht' Hn. destruct (pk_logs _ _ _ _ Hp t Ht) as (-> & _), (pk_logs _ _ _ _ Hp t' Ht') as (-> & _). apply (si_cur_ne _ _ (sf_inv _ Hw)); [unfold NR_PERSISTENT_LOG, NO_CHECK_TYPE in *; lia..|done|by apply (si_persist _ _ (sf_inv _ Hw))]. }
  constructor; [|intros t Ht; destruct (Hcur t Ht) as (? & ? & _); lia|intros t Ht; by apply Hcur|apply Hp]. unfold NR_PERSISTENT_LOG in *.
  assert (Hplace : forall t, 0 <= t < 6 -> log_place_ok ck t = true). { intros t Ht. destruct (Hcur t Ht) as (? & ? & _). unfold log_place_ok. apply negb_true_iff, orb_false_iff. rewrite !Z.leb_gt. lia. }
  unfold sanity_check_logs, logs_apart, CURSEG_HOT_NODE, CURSEG_HOT_DATA, NR_CURSEG_NODE_TYPE, NR_CURSEG_DATA_TYPE. rewrite !andb_true_iff, !forallb_forall. repeat split.
  - intros i Hi. apply list_elem_of_In, elem_of_seqZ in Hi. rewrite andb_true_iff, forallb_forall. split; [apply Hplace; lia|]. intros j Hj. apply list_elem_of_In, elem_of_seqZ in Hj. apply negb_true_iff, Z.eqb_neq, Hne; lia.
  - intros i Hi. apply list_elem_of_In, elem_of_seqZ in Hi. rewrite andb_true_iff, forallb_forall. split; [apply Hplace; lia|]. intros j Hj. apply list_elem_of_In, elem_of_seqZ in Hj. apply negb_true_iff, Z.eqb_neq, Hne; lia.
  - intros i Hi. apply list_elem_of_In, elem_of_seqZ in Hi. rewrite forallb_forall. intros j Hj. apply list_elem_of_In, elem_of_seqZ in Hj. apply negb_true_iff, Z.eqb_neq, Hne; lia.
Qed.

(** The table a checkpoint leaves behind. *)
Definition table_is (c : seg_state) (d : sit_disk) : Prop := journal_ok (s_journal d) /\ (forall g, seg_ok g -> disk_entry d g = raw_of (seg c) g) /\ forall g, seg_ok g -> check_block_count g (page_entry d g) = Some false.
Lemma raw_entry c g : seg_wf c -> seg_ok g -> exists se, sentries (sit (seg c)) !! g = Some se /\ entry_ok se /\ raw_of (seg c) g = __seg_info_to_raw_sit se /\ forall dm, seg_info_from_raw_sit dm (raw_of (seg c) g) = set_discard_map (snap se) dm.
Proof.
  intros Hw Hg. destruct (seg_entry_at ∅ (seg c) g (sf_inv _ Hw) Hg) as (se & E & He). exists se. split; [done|]. split; [done|]. unfold raw_of. rewrite E. split; [done|]. intros dm. pose proof (entry_bounds se He) as [Hb _]. pose proof bps_range.
  destruct (sit_vblocks_law (se_type se) (valid_blocks se) (eo_type se He) ltac:(lia)) as [V1 V2]. unfold seg_info_from_raw_sit, __seg_info_to_raw_sit, snap, set_discard_map. cbn. by rewrite V1, V2.
Qed.
Lemma table_disk_fit c d : seg_wf c -> table_is c d -> disk_fit d.
Proof.
  intros Hw (T1 & T2 & T3). constructor.
  - intros g Hg. rewrite T2 by done. destruct (raw_entry c g Hw Hg) as (se & E & He & Er & Hf). specialize (Hf ∅). apply (f_equal se_type) in Hf. cbn in Hf. rewrite Hf. apply He.
  - intros g Hg. rewrite T2 by done. destruct (raw_entry c g Hw Hg) as (se & E & He & -> & _). cbn. apply Z.mod_pos_bound. lia.
  - intros g o Hg. rewrite T2 by done. destruct (raw_entry c g Hw Hg) as (se & E & He & -> & _). cbn. intros Ho. apply (eo_map _ He). pose proof (eo_sub _ He). set_solver.
  - apply T1.
  - intros k Hk. apply (jo_segs _ T1) in Hk. lia.
Qed.
Lemma jget_in j g rs : NoDup j.*1 -> (g, rs) ∈ j -> jget j g = Some rs.
Proof.
  induction j as [|[k e] j IH]; intros Hn Hin; [set_solver|]. cbn in Hn. apply list.NoDup_cons in Hn as [Hk Hn]. cbn [jget]. apply elem_of_cons in Hin as [[= -> ->]|Hin]; [by rewrite Z.eqb_refl|]. destruct (Z.eqb_spec k g) as [->|]; [|auto]. destruct Hk. apply list_elem_of_fmap. by exists (g, rs).
Qed.
Lemma table_front c d s' env ck : seg_wf c -> table_is c d -> pack_of c s' env ck -> all_readable env -> forall s, table_fits env ck d s.
Proof.
  intros Hw (T1 & T2 & T3) Hp Hr s. split; [exact (proj1 Hr)|]. split; [done|]. split.
  - intros g rs Hin. assert (Hg : seg_ok g) by (apply (jo_segs _ T1), list_elem_of_fmap; by exists (g, rs)). split; [done|]. pose proof (jget_in _ g rs (jo_nodup _ T1) Hin) as Hj. specialize (T2 g Hg). unfold disk_entry in T2. rewrite Hj in T2. rewrite T2. destruct (raw_entry c g Hw Hg) as (se & E & He & -> & _). by apply check_ok.
  - intros u Hu. rewrite (pk_nodes _ _ _ _ Hp). apply sumf_ext. intros g Hg. apply elem_of_seqZ in Hg. assert (Hgr : seg_ok g) by lia. destruct (Hu g Hgr) as [dm Hdm]. rewrite T2 in Hdm by done. destruct (raw_entry c g Hw Hgr) as (se & E & He & _ & Hf). rewrite Hf in Hdm. unfold node_of. by rewrite Hdm, E.
Qed.
Lemma table_same c d s : seg_wf c -> table_is c d -> table_of d s -> forall g, seg_ok g -> exists se dm, sentries (sit (seg c)) !! g = Some se /\ sentries (sit s) !! g = Some (set_discard_map (snap se) dm) /\ entry_ok se.
Proof.
  intros Hw (T1 & T2 & T3) Ht g Hg. destruct (tb_ent _ _ Ht g Hg) as (dm & E & _). rewrite T2 in E by done. destruct (raw_entry c g Hw Hg) as (se & E' & He & _ & Hf). rewrite Hf in E. by exists se, dm.
Qed.
Lemma table_live c d s g o : seg_wf c -> table_is c d -> table_of d s -> valid_at s g o <-> valid_at (seg c) g o.
Proof.
  intros Hw Hd Ht. unfold valid_at. split; intros (x & E & Ho).
  - assert (Hg : seg_ok g) by (apply (tb_dom _ _ Ht); eauto). destruct (table_same c d s Hw Hd Ht g Hg) as (se & dm & E1 & E2 & _). rewrite E2 in E. injection E as <-. by exists se.
  - assert (Hg : seg_ok g) by (apply (so_dom _ (si_sit _ _ (sf_inv _ Hw))); eauto). destruct (table_same c d s Hw Hd Ht g Hg) as (se & dm & E1 & E2 & _). rewrite E1 in E. injection E as <-. eexists. split; [exact E2|done].
Qed.
Lemma pack_sane c d s' s env ck v0 : seg_wf c -> table_is c d -> pack_of c s' env ck -> mounted env ck v0 d s -> forall t, persistent t -> sane s t.
Proof.
  intros Hw Hd Hp Hm t Ht se E. assert (Hlt : 0 <= t < NO_CHECK_TYPE) by (unfold NR_PERSISTENT_LOG, NO_CHECK_TYPE in *; lia). destruct (mt_logs _ _ _ _ _ Hm t Ht) as (sum & Ec & _). rewrite Ec in *. cbn [segno next_blkoff alloc_type restored] in *. destruct (pk_logs _ _ _ _ Hp t Ht) as (E1 & E2 & E3). rewrite E1, E2, E3 in *.
  pose proof (si_persist _ _ (sf_inv _ Hw) t Ht) as Hi. destruct (si_cur _ _ (sf_inv _ Hw) t Hlt) as [K1 K2 K3 K4 K5]. destruct (K2 Hi) as (G1 & _ & _ & G4). destruct (table_same c d s Hw Hd (mt_table _ _ _ _ _ Hm) _ G1) as (se0 & dm & F1 & F2 & F3). rewrite F2 in E. injection E as <-. cbn. pose proof (eo_sub _ F3).
  split; [specialize (K5 Hi se0 F1); set_solver|]. intros Hns o Ho. destruct G4 as [G4|]; [|done]. assert (o ∉ ckpt_valid_map se0) by (apply (K4 Hi G4 se0 o F1); lia). set_solver.
Qed.
(** The cached summaries of the logs come back where blocks are valid. *)
Lemma pack_sums c s' env ck t sum : seg_wf c -> pack_of c s' env ck -> all_readable env -> persistent t -> log_sum env ck t sum -> forall j, valid_at (seg c) (segno (CURSEG_I (seg c) t)) j -> sum j = sum_blk (CURSEG_I (seg c) t) j.
Proof.
  intros Hw Hp Hr Ht Hs j Hv. destruct (valid_ok c _ j Hw Hv) as [Hg Hj]. assert (Hlt : 0 <= t < NO_CHECK_TYPE) by (unfold NR_PERSISTENT_LOG, NO_CHECK_TYPE in *; lia). unfold log_sum in Hs. destruct (CP_COMPACT_SUM_FLAG ck) eqn:Ec; cbn [andb] in Hs; [destruct (IS_DATASEG t) eqn:Ed|].
  - pose proof (pk_compact _ _ _ _ Hp Ec) as Hc. cbv zeta in Hc. destruct Hc as (mem & Hmem). set (cached := fun t : Z => sum_blk (CURSEG_I (seg c) t)) in *. apply (Hs cached Hr).
    + split; [done|]. cbn [r_page r_offset]. intros k e Hk. assert (Hlen := lookup_lt_Some _ _ _ Hk). rewrite (Hmem k Hlen). unfold write_compacted_summaries. rewrite write_logs_at. pose proof sum_sizes.
      destruct (write_entries_at (all_entries cached (blk_count ck) [CURSEG_HOT_DATA; CURSEG_WARM_DATA; CURSEG_COLD_DATA]) (first_page mem (start_sum_block ck)) (start_sum_block ck, 2 * SUM_JOURNAL_SIZE)) as (_ & W2 & _); [unfold place_ok; cbn; lia|unfold at_place; cbn; split; [f_equal; lia|done]|by apply W2].
    + destruct (pk_logs _ _ _ _ Hp t Ht) as (E1 & E2 & E3). unfold blk_count. rewrite E2, E3. pose proof (si_persist _ _ (sf_inv _ Hw) t Ht) as Hi. destruct (si_cur _ _ (sf_inv _ Hw) t Hlt) as [K1 K2 K3 K4 K5]. destruct (K2 Hi) as (_ & _ & _ & [G4|G4]); rewrite G4; [|done]. cbn [Z.eqb LFS SSR].
      destruct (Z.lt_ge_cases j (next_blkoff (CURSEG_I (seg c) t))) as [|Hge]; [lia|]. destruct Hv as (se & E & Hin). exfalso. apply (K4 Hi G4 se j E Hge). pose proof (eo_sub _ (so_entry _ (si_sit _ _ (sf_inv _ Hw)) _ se E)). set_solver.
  - rewrite (Hs j Hj), Ed. destruct (pk_node _ _ _ _ Hp t j Ht Ed Hv) as (N1 & N2 & N3). rewrite N3. destruct (sum_blk (CURSEG_I (seg c) t) j). cbn in *. congruence.
  - rewrite (Hs j Hj). destruct (IS_DATASEG t) eqn:Ed; [by apply (pk_data _ _ _ _ Hp)|]. destruct (pk_node _ _ _ _ Hp t j Ht Ed Hv) as (N1 & N2 & N3). rewrite N3. destruct (sum_blk (CURSEG_I (seg c) t) j). cbn in *. congruence.
Qed.
(** Logs that are not in the pack have been saved in the summary area. *)
Lemma saved_pages (atgc : bool) (c : seg_state) (s' : seg_sys) (g o : Z) : seg_wf c -> ssa s' = (if atgc then saved (seg c) CURSEG_ALL_DATA_ATGC else id) (saved (seg c) CURSEG_COLD_DATA_PINNED (ssa (seg c))) -> (inited (CURSEG_I (seg c) CURSEG_ALL_DATA_ATGC) = true -> atgc = true) ->
  valid_at (seg c) g o -> (forall t, persistent t -> segno (CURSEG_I (seg c) t) <> g) -> ssa s' (GET_SUM_BLOCK g) o = summ (seg c) g o.
Proof.
  intros Hw Es Ha Hv Hn. destruct (valid_ok c g o Hw Hv) as [Hg _]. pose proof main_small as Hms. assert (Hvo : valid_of (sit (seg c)) g <> 0).
  { destruct Hv as (se & E & Ho). rewrite (valid_of_at _ _ _ E), (eo_valid _ (so_entry _ (si_sit _ _ (sf_inv _ Hw)) g se E)). intros Hz. assert (Hz' : size (cur_valid_map se) = 0%nat) by lia. apply size_zero in Hz'. set_solver. }
  assert (Hsave : forall t a, 0 <= t < NO_CHECK_TYPE -> saved (seg c) t a (GET_SUM_BLOCK g) = if decide (segno (CURSEG_I (seg c) t) = g) then sum_blk (CURSEG_I (seg c) t) else a (GET_SUM_BLOCK g)).
  { intros t a Ht. unfold saved. destruct (inited (CURSEG_I (seg c) t)) eqn:Ei; cbn [andb].
    - destruct (co_seg _ _ (si_cur _ _ (sf_inv _ Hw) t Ht) Ei) as (Gt & _). destruct (decide (segno (CURSEG_I (seg c) t) = g)) as [->|Hne]; [rewrite (proj2 (Z.eqb_neq _ _) Hvo); cbn [negb]; unfold upd; by rewrite decide_True|]. destruct (negb _); [|done]. unfold upd. rewrite decide_False; [done|]. intros E. apply sum_block_inj in E; [congruence|lia|lia].
    - rewrite decide_False; [done|]. rewrite (co_null _ _ (si_cur _ _ (sf_inv _ Hw) t Ht) Ei). intros E. rewrite <-E in Hg. by apply null_not_seg in Hg. }
  assert (H6 : 0 <= CURSEG_COLD_DATA_PINNED < NO_CHECK_TYPE) by done. assert (H7 : 0 <= CURSEG_ALL_DATA_ATGC < NO_CHECK_TYPE) by done.
  assert (Hcur : forall t, 0 <= t < NO_CHECK_TYPE -> segno (CURSEG_I (seg c) t) = g -> summ (seg c) g o = sum_blk (CURSEG_I (seg c) t) o).
  { intros t Ht E. rewrite <-E. apply (summ_cur ∅); [apply Hw|done|]. apply (curseg_inited ∅); [apply Hw|done|by rewrite E]. }
  assert (Hother : segno (CURSEG_I (seg c) CURSEG_COLD_DATA_PINNED) <> g -> segno (CURSEG_I (seg c) CURSEG_ALL_DATA_ATGC) <> g -> summ (seg c) g o = ssa (seg c) (GET_SUM_BLOCK g) o).
  { intros N6 N7. apply summ_not, curseg_not. intros t Ht. unfold NO_CHECK_TYPE, NR_PERSISTENT_LOG, CURSEG_COLD_DATA_PINNED, CURSEG_ALL_DATA_ATGC in *. destruct (Z.lt_ge_cases t 6); [apply Hn; lia|]. assert (t = 6 \/ t = 7) as [->| ->] by lia; done. }
  rewrite Es. destruct (decide (segno (CURSEG_I (seg c) CURSEG_ALL_DATA_ATGC) = g)) as [E7|N7].
  - rewrite (Ha ltac:(apply (curseg_inited ∅); [apply Hw|done|by rewrite E7])). rewrite Hsave, decide_True by done. symmetry. by apply Hcur.
  - assert (E : (if atgc then saved (seg c) CURSEG_ALL_DATA_ATGC else id) (saved (seg c) CURSEG_COLD_DATA_PINNED (ssa (seg c))) (GET_SUM_BLOCK g) = saved (seg c) CURSEG_COLD_DATA_PINNED (ssa (seg c)) (GET_SUM_BLOCK g)) by (destruct atgc; [by rewrite Hsave, decide_False|done]).
    rewrite E, Hsave by done. destruct (decide _) as [E6|N6]; [symmetry; by apply Hcur|symmetry; by apply Hother].
Qed.

(** C2: A checkpoint followed by a mount gives the segment manager back: the mount of what
    the checkpoint has written succeeds, the live blocks are the same, none beyond them is
    held, each log goes on where it was, and every live block has its summary. *)
Theorem remount_restores c atgc cpc c' cmds env ck v0 nats : unit_ok denv -> seg_wf c -> trim_ok cpc -> seg_step denv get_victim (Checkpoint atgc cpc) c = Some (c', ECommit cmds) -> pack_of c (seg c') env ck ->
  all_readable env -> nats <= NAT_JOURNAL_ENTRIES -> (forall p, 0 <= last_victim v0 p <= MAIN_SEGS) -> (inited (CURSEG_I (seg c) CURSEG_ALL_DATA_ATGC) = true -> atgc = true) ->
  exists s, f2fs_build_segment_manager denv NAT_JOURNAL_ENTRIES env ck (disk c') nats v0 = Some (inr s) /\ seg_wf {| seg := s; disk := disk c'; dcc := no_discards |} /\
    (forall g o, valid_at s g o <-> valid_at (seg c) g o) /\ (forall g o, kept s g o <-> valid_at (seg c) g o) /\ (forall g o, valid_at (seg c) g o -> summ s g o = summ (seg c) g o) /\
    forall t, persistent t -> segno (CURSEG_I s t) = segno (CURSEG_I (seg c) t) /\ next_blkoff (CURSEG_I s t) = next_blkoff (CURSEG_I (seg c) t) /\ alloc_type (CURSEG_I s t) = alloc_type (CURSEG_I (seg c) t).
Proof.
  intros Hu Hw Ht Hstep Hp Hr Hn Hlast Hat. cbn [seg_step] in Hstep. set (q := {| entry_list := entry_list (dcc c); nr_discards := nr_discards (dcc c); issued := [] |}) in Hstep. assert (Hq : dcc_ok (seg c) q) by (intros a m; cbn; rewrite (sf_entries _ Hw); set_solver).
  destruct (checkpoint_ok denv atgc cpc (seg c) (disk c) q Hu Ht (sf_inv _ Hw) (sf_disk _ Hw) (sf_journal _ Hw) Hq) as (s1 & d1 & q1 & E & Hck & Hj & Hd & _ & _ & _ & _ & _ & Hpg & Hssa). rewrite E in Hstep. cbn [mbind option_bind] in Hstep. injection Hstep as <- _. cbn [seg disk] in *.
  assert (Htab : table_is c d1). { split; [done|]. split; [done|]. intros g Hg. destruct (Hpg g Hg) as [Ep|Ep]; rewrite Ep; [by apply (sf_pages _ Hw)|]. destruct (raw_entry c g Hw Hg) as (se & _ & He & -> & _). by apply check_ok. }
  pose proof (pack_cp_fit c s1 env ck Hw Hp) as Hcp. pose proof (table_disk_fit c d1 Hw Htab) as Hfit. destruct (build_front env ck v0 d1 nats Hcp Hfit) as [(e & _ & Hne)|(s3 & Hm & E3)].
  { destruct Hne. split; [done|]. split; [done|]. split; [apply Hj|]. by apply (table_front c d1 s1). }
  destruct (finish_ok env ck v0 Hlast d1 s3 Hcp Hm (pack_sane c d1 s1 s3 env ck v0 Hw Htab Hp Hm)) as (s' & E' & Hdn). exists s'. rewrite E3. split; [done|]. pose proof (mounted_wf env ck v0 d1 s3 s' Hcp Hfit Hm Hdn) as Hw'. split; [done|].
  assert (Ht' : table_of d1 s') by (destruct (mt_table _ _ _ _ _ Hm) as [T1 T2 T3]; constructor; by rewrite (md_sit _ _ _ Hdn)). assert (Hv : forall g o, valid_at s' g o <-> valid_at (seg c) g o) by (intros g o; by apply (table_live c d1)). split; [done|].
  assert (Hlog : forall t, persistent t -> exists sum, CURSEG_I s' t = restored ck t sum /\ log_sum env ck t sum) by (intros t Hpt; rewrite (md_cur _ _ _ Hdn); by apply (mt_logs _ _ _ _ _ Hm)).
  assert (Hsegs : forall t, persistent t -> segno (CURSEG_I s' t) = segno (CURSEG_I (seg c) t)) by (intros t Hpt; destruct (Hlog t Hpt) as (sum & -> & _); by apply (pk_logs _ _ _ _ Hp)). split; [|split].
  - intros g o. rewrite <-Hv. split; [|apply (valid_kept ∅), (sf_inv _ Hw')]. intros Hk. destruct (kept_range ∅ s' g o (sf_inv _ Hw') Hk) as [Hg _]. apply (table_valid d1 s' g o Ht' Hg). by apply (table_valid d1 s' g o Ht' Hg).
  - intros g o Hvo. destruct (valid_ok c g o Hw Hvo) as [Hg _]. destruct (decide (Exists (fun t => segno (CURSEG_I (seg c) t) = g) (seqZ 0 NR_PERSISTENT_LOG))) as [Hex|Hno].
    + apply list.Exists_exists in Hex as (t & Hin & <-). apply elem_of_seqZ in Hin. assert (Hpt : persistent t) by lia. assert (Hlt : 0 <= t < NO_CHECK_TYPE) by (unfold NR_PERSISTENT_LOG, NO_CHECK_TYPE in *; lia).
      rewrite (summ_cur ∅ (seg c) t o (sf_inv _ Hw) Hlt (si_persist _ _ (sf_inv _ Hw) t Hpt)). rewrite <-(Hsegs t Hpt) at 1. rewrite (summ_cur ∅ s' t o (sf_inv _ Hw') Hlt (si_persist _ _ (sf_inv _ Hw') t Hpt)). destruct (Hlog t Hpt) as (sum & -> & Hs). cbn. by apply (pack_sums c s1 env ck t sum).
    + assert (Hnp : forall t, persistent t -> segno (CURSEG_I (seg c) t) <> g) by (intros t Hpt Eg; apply Hno, list.Exists_exists; exists t; split; [apply elem_of_seqZ; lia|done]).
      rewrite <-(saved_pages atgc c s1 g o Hw Hssa Hat Hvo Hnp). rewrite summ_not; [by rewrite (md_ssa _ _ _ Hdn), (mt_ssa _ _ _ _ _ Hm), (pk_ssa _ _ _ _ Hp)|]. apply curseg_not. intros t Hlt Eg. destruct (decide (persistent t)) as [Hpt|Hpt]; [apply (Hnp t Hpt); by rewrite <-Hsegs|].
      rewrite (md_cur _ _ _ Hdn), (mt_other _ _ _ _ _ Hm t Hpt) in Eg. cbn in Eg. rewrite <-Eg in Hg. by apply null_not_seg in Hg.
  - intros t Hpt. destruct (Hlog t Hpt) as (sum & -> & _). cbn. apply (pk_logs _ _ _ _ Hp t Hpt).
Qed.
End remount.
