(* ===== verification/Xattr.v ===== *)
(** * Extended attributes (xattr.c, xattr.h)

    The attributes of an inode are a header and a list of entries behind it, packed into an
    area at the end of the inode block and, if that is too small, into one more node block.
    Both are copied into a buffer, with four zero bytes behind them, in which entries are
    pointers; here they are offsets, and an access outside the buffer has no result. *)

From S2P Require Import Prelude.

(** The part of a node block in front of its footer, and the longest name (the kernel's
    f2fs_fs.h). *)
Class XattrFormat := {
  VALID_XATTR_BLOCK_SIZE : Z; F2FS_NAME_LEN : Z;
  valid_block : 28 <= VALID_XATTR_BLOCK_SIZE <= 4096 /\ VALID_XATTR_BLOCK_SIZE mod 4 = 0;
  name_len_fits : 0 <= F2FS_NAME_LEN < 256
}.
Inductive xattr_error := EINVAL | ERANGE | E2BIG | ENODATA | EEXIST | ENOMEM | ENOSPC | EIO | EFSCORRUPTED | EPERM | EDQUOT.

(** What the functions use of an inode: the area in its block and the node block of its own,
    if [i_xattr_nid] is not 0; the mode an ACL is about to set; flags of the file system; the
    node ids that are taken for use. *)
Record xattr_inode := {
  has_inline_xattr : bool; i_inline_xattr_size : Z; inline_area : list Z; i_xattr_nid : Z; xattr_block : list Z;
  is_dir : bool; encrypted : bool; i_mode : Z; i_acl_mode : option Z; x_need_fsck : bool; x_need_cp : bool; x_prealloc : gset Z
}.
(** What the rest of the system answers: memory, the block of the inode and of the
    attributes, a node id and a block for it, the removal of the block; no error is success. *)
Record xattr_env := {
  kzalloc_ok : bool; inode_page : option xattr_error; xattr_page : option xattr_error; free_nid : option Z; new_node_page : option xattr_error; truncate_node : option xattr_error;
  x_cp_error : bool; checkpoint_ready : bool; dquot_error : option xattr_error
}.

Definition with_areas (x : xattr_inode) (inline : list Z) (nid : Z) (block : list Z) (pre : gset Z) : xattr_inode :=
  {| has_inline_xattr := has_inline_xattr x; i_inline_xattr_size := i_inline_xattr_size x; inline_area := inline; i_xattr_nid := nid; xattr_block := block;
     is_dir := is_dir x; encrypted := encrypted x; i_mode := i_mode x; i_acl_mode := i_acl_mode x; x_need_fsck := x_need_fsck x; x_need_cp := x_need_cp x; x_prealloc := pre |}.
Definition set_prealloc (x : xattr_inode) (pre : gset Z) : xattr_inode := with_areas x (inline_area x) (i_xattr_nid x) (xattr_block x) pre.
Definition with_flags (x : xattr_inode) (enc : bool) (mode : Z) (acl : option Z) (fsck cp : bool) : xattr_inode :=
  {| has_inline_xattr := has_inline_xattr x; i_inline_xattr_size := i_inline_xattr_size x; inline_area := inline_area x; i_xattr_nid := i_xattr_nid x; xattr_block := xattr_block x;
     is_dir := is_dir x; encrypted := enc; i_mode := mode; i_acl_mode := acl; x_need_fsck := fsck; x_need_cp := cp; x_prealloc := x_prealloc x |}.
Definition mark_fsck (x : xattr_inode) : xattr_inode := with_flags x (encrypted x) (i_mode x) (i_acl_mode x) true (x_need_cp x).

(** ** Memory *)

Definition rd (buf : list Z) (off n : Z) : option (list Z) :=
  if (0 <=? off) && (0 <=? n) && (off + n <=? Z.of_nat (length buf)) then Some (take (Z.to_nat n) (drop (Z.to_nat off) buf)) else None.
Definition wr (buf : list Z) (off : Z) (bs : list Z) : option (list Z) :=
  if (0 <=? off) && (off + Z.of_nat (length bs) <=? Z.of_nat (length buf)) then Some (take (Z.to_nat off) buf ++ bs ++ drop (Z.to_nat off + length bs) buf) else None.
Definition zeros (n : Z) : list Z := replicate (Z.to_nat n) 0.

(** ** Entries *)

Definition header_size : Z := 24.
Definition entry_size : Z := 4.
Definition F2FS_XATTR_MAGIC : Z := 4076150801.
Definition XATTR_ALIGN (size : Z) : Z := Z.land (size + 3) (Z.lnot 3).
(** [struct f2fs_xattr_entry]. *)
Record f2fs_xattr_entry := { e_name_index : Z; e_name_len : Z; e_value_size : Z }.
Definition entry_at (buf : list Z) (p : Z) : option f2fs_xattr_entry :=
  bs ← rd buf p entry_size; Some {| e_name_index := get_le 1 0 bs; e_name_len := get_le 1 1 bs; e_value_size := get_le 2 2 bs |}.
Definition ENTRY_SIZE (e : f2fs_xattr_entry) : Z := XATTR_ALIGN (entry_size + e_name_len e + e_value_size e).
Definition IS_XATTR_LAST_ENTRY (e : f2fs_xattr_entry) : bool := (e_name_index e =? 0) && (e_name_len e =? 0) && (e_value_size e =? 0).

Section xattr.
Context `{XattrFormat}.

Definition inline_xattr_size (x : xattr_inode) : Z := if has_inline_xattr x then i_inline_xattr_size x * 4 else 0.
Definition XATTR_SIZE (x : xattr_inode) : Z := (if i_xattr_nid x =? 0 then 0 else VALID_XATTR_BLOCK_SIZE) + inline_xattr_size x.
Definition MIN_OFFSET (x : xattr_inode) : Z := XATTR_ALIGN (inline_xattr_size x + VALID_XATTR_BLOCK_SIZE).
Definition MAX_VALUE_LEN (x : xattr_inode) : Z := MIN_OFFSET x - header_size - entry_size.

(** The loop over the entries that [__find_xattr] and [__find_inline_xattr] share, up to the
    address [last]: where it stops, and why. *)
Inductive walk := Found (p : Z) | Last (p : Z) | Crossed (p : Z).
Fixpoint walk_xattrs (fuel : nat) (buf : list Z) (last index : Z) (name : list Z) (p : Z) : option walk :=
  match fuel with
  | O => None
  | S fuel =>
      e ← entry_at buf p;
      if IS_XATTR_LAST_ENTRY e then Some (Last p)
      else if (last <? p + 4) || (last <? p + ENTRY_SIZE e) then Some (Crossed p)
      else if negb (e_name_index e =? index) then walk_xattrs fuel buf last index name (p + ENTRY_SIZE e)
      else if negb (e_name_len e =? Z.of_nat (length name)) then walk_xattrs fuel buf last index name (p + ENTRY_SIZE e)
      else
        n ← rd buf (p + entry_size) (e_name_len e);
        if decide (n = name) then Some (Found p) else walk_xattrs fuel buf last index name (p + ENTRY_SIZE e)
  end.
(** [__find_xattr]: no address is a corrupted list. *)
Definition __find_xattr (buf : list Z) (base last_base index : Z) (name : list Z) : option (option Z) :=
  w ← walk_xattrs (S (length buf)) buf last_base index name (base + header_size);
  Some (match w with Found p | Last p => Some p | Crossed _ => None end).
(** [__find_inline_xattr]: the entry, or the place from which to go on. *)
Definition __find_inline_xattr (buf : list Z) (inline_size index : Z) (name : list Z) : option (Z + Z) :=
  w ← walk_xattrs (S (length buf)) buf inline_size index name header_size;
  Some (match w with Found p => inl p | Last p => if inline_size <? p + 4 then inr p else inl p | Crossed p => inr p end).

(** ** Reading *)

Definition read_inline_xattr (env : xattr_env) (x : xattr_inode) (ipage : bool) (buf : list Z) : option (xattr_error + list Z) :=
  match if ipage then None else inode_page env with
  | Some e => Some (inl e)
  | None => bs ← rd (inline_area x) 0 (inline_xattr_size x); buf ← wr buf 0 bs; Some (inr buf)
  end.
Definition read_xattr_block (env : xattr_env) (x : xattr_inode) (buf : list Z) : option (xattr_error + list Z) :=
  match xattr_page env with
  | Some e => Some (inl e)
  | None => bs ← rd (xattr_block x) 0 VALID_XATTR_BLOCK_SIZE; buf ← wr buf (inline_xattr_size x) bs; Some (inr buf)
  end.
(** The two reads as both readers do them, the first if there is an area in the inode. *)
Definition read_inline (env : xattr_env) (x : xattr_inode) (ipage : bool) (buf : list Z) : option (xattr_error + list Z) :=
  if inline_xattr_size x =? 0 then Some (inr buf) else read_inline_xattr env x ipage buf.
Definition read_block (env : xattr_env) (x : xattr_inode) (buf : list Z) : option (xattr_error + list Z) :=
  if i_xattr_nid x =? 0 then Some (inr buf) else read_xattr_block env x buf.

(** [lookup_all_xattrs]: the buffer, the entry and the size within which its value lies. *)
Definition lookup_all_xattrs (env : xattr_env) (x : xattr_inode) (ipage : bool) (index : Z) (name : list Z) : option (xattr_inode * (xattr_error + list Z * Z * Z)) :=
  let inline_size := inline_xattr_size x in
  if (i_xattr_nid x =? 0) && (inline_size =? 0) then Some (x, inl ENODATA)
  else if negb (kzalloc_ok env) then Some (x, inl ENOMEM)
  else
    let check buf p size := e ← entry_at buf p; if IS_XATTR_LAST_ENTRY e then Some (x, inl ENODATA) else Some (x, inr (buf, p, size)) in
    let outside buf cur_addr :=
      r ← read_block env x buf;
      match r with
      | inl e => Some (x, inl e)
      | inr buf =>
          xe ← __find_xattr buf cur_addr (XATTR_SIZE x) index name;
          match xe with None => Some (mark_fsck x, inl EFSCORRUPTED) | Some p => check buf p (XATTR_SIZE x + 4) end
      end in
    let buf := zeros (XATTR_SIZE x + 4) in
    if inline_size =? 0 then outside buf 0
    else
      r ← read_inline_xattr env x ipage buf;
      match r with
      | inl e => Some (x, inl e)
      | inr buf =>
          xe ← __find_inline_xattr buf inline_size index name;
          match xe with inl p => check buf p inline_size | inr last_addr => outside buf (last_addr - header_size) end
      end.

(** [f2fs_getxattr]; [buffer] is the size of the buffer, if there is one. The result is the
    size of the value and what was copied. *)
Definition f2fs_getxattr (env : xattr_env) (x : xattr_inode) (ipage : bool) (index : Z) (name : option (list Z)) (buffer : option Z) : option (xattr_inode * (xattr_error + Z * option (list Z))) :=
  match name with
  | None => Some (x, inl EINVAL)
  | Some name =>
      if F2FS_NAME_LEN <? Z.of_nat (length name) then Some (x, inl ERANGE)
      else
        '(x, r) ← lookup_all_xattrs env x ipage index name;
        match r with
        | inl e => Some (x, inl e)
        | inr (buf, p, base_size) =>
            e ← entry_at buf p;
            let size := e_value_size e in
            match buffer with
            | None => Some (x, inr (size, None))
            | Some buffer_size =>
                let pval := p + entry_size + e_name_len e in
                if buffer_size <? size then Some (x, inl ERANGE)
                else if base_size - pval <? size then Some (x, inl ERANGE)
                else v ← rd buf pval size; Some (x, inr (size, Some v))
            end
        end
  end.

(** [read_all_xattrs]. *)
Definition read_all_xattrs (env : xattr_env) (x : xattr_inode) (ipage : bool) : option (xattr_error + list Z) :=
  if negb (kzalloc_ok env) then Some (inl ENOMEM)
  else
    r ← read_inline env x ipage (zeros (inline_xattr_size x + VALID_XATTR_BLOCK_SIZE + 4));
    match r with
    | inl e => Some (inl e)
    | inr buf =>
        r ← read_block env x buf;
        match r with
        | inl e => Some (inl e)
        | inr buf =>
            magic ← rd buf 0 4;
            if le_val magic =? F2FS_XATTR_MAGIC then Some (inr buf)
            else buf ← wr buf 0 (le_bytes 4 F2FS_XATTR_MAGIC ++ le_bytes 4 1); Some (inr buf)
        end
    end.

(** The loop of [f2fs_listxattr]: [prefix] gives the prefix of the names of an index whose
    handler lists them; [out] is the buffer so far, if there is one. *)
Fixpoint list_loop (fuel : nat) (prefix : Z -> option (list Z)) (buf : list Z) (last p rest : Z) (out : option (list Z)) : option (xattr_error + Z * option (list Z)) :=
  match fuel with
  | O => None
  | S fuel =>
      e ← entry_at buf p;
      if IS_XATTR_LAST_ENTRY e then Some (inr (rest, out))
      else if (last <? p + 4) || (last <? p + ENTRY_SIZE e) then Some (inl EFSCORRUPTED)
      else
        match prefix (e_name_index e) with
        | None => list_loop fuel prefix buf last (p + ENTRY_SIZE e) rest out
        | Some pre =>
            let size := Z.of_nat (length pre) + e_name_len e + 1 in
            match out with
            | None => list_loop fuel prefix buf last (p + ENTRY_SIZE e) (u64 (rest - size)) None
            | Some o =>
                if rest <? size then Some (inl ERANGE)
                else n ← rd buf (p + entry_size) (e_name_len e); list_loop fuel prefix buf last (p + ENTRY_SIZE e) (u64 (rest - size)) (Some (o ++ pre ++ n ++ [0]))
            end
        end
  end.
Definition f2fs_listxattr (env : xattr_env) (x : xattr_inode) (prefix : Z -> option (list Z)) (buffer : bool) (buffer_size : Z) : option (xattr_inode * (xattr_error + Z * option (list Z))) :=
  r ← read_all_xattrs env x false;
  match r with
  | inl e => Some (x, inl e)
  | inr buf =>
      r ← list_loop (S (length buf)) prefix buf (XATTR_SIZE x) header_size buffer_size (if buffer then Some [] else None);
      match r with
      | inl EFSCORRUPTED => Some (mark_fsck x, inl EFSCORRUPTED)
      | inl e => Some (x, inl e)
      | inr (rest, out) => Some (x, inr (u64 (buffer_size - rest), out))
      end
  end.

(** ** Writing *)

(** [f2fs_alloc_nid_failed] and [f2fs_alloc_nid_done] end the use of an id; 0 is none. *)
Definition nid_over (x : xattr_inode) (nid : Z) : xattr_inode := set_prealloc x (x_prealloc x ∖ {[nid]}).
(** [f2fs_truncate_xattr_node] (node.c). *)
Definition f2fs_truncate_xattr_node (env : xattr_env) (x : xattr_inode) : xattr_inode * option xattr_error :=
  if i_xattr_nid x =? 0 then (x, None)
  else
    match xattr_page env with
    | Some e => (x, Some e)
    | None => match truncate_node env with Some e => (x, Some e) | None => (with_areas x (inline_area x) 0 (xattr_block x) (x_prealloc x), None) end
    end.
(** From the label for the node block on: both parts are written. *)
Definition write_block (env : xattr_env) (x : xattr_inode) (new_nid : Z) (buf : list Z) : option (xattr_inode * option xattr_error) :=
  let store x nid :=
    inl ← if inline_xattr_size x =? 0 then Some (inline_area x) else bs ← rd buf 0 (inline_xattr_size x); wr (inline_area x) 0 bs;
    blk ← rd buf (inline_xattr_size x) VALID_XATTR_BLOCK_SIZE;
    Some (with_areas x inl nid blk (x_prealloc x), None) in
  if i_xattr_nid x =? 0 then
    match new_node_page env with
    | Some e => Some (nid_over x new_nid, Some e)
    | None => store (nid_over x new_nid) new_nid
    end
  else
    match xattr_page env with
    | Some e => Some (nid_over x new_nid, Some e)
    | None => if new_nid =? 0 then store x (i_xattr_nid x) else None
    end.
Definition write_all_xattrs (env : xattr_env) (x : xattr_inode) (hsize : Z) (buf : list Z) (ipage : bool) : option (xattr_inode * option xattr_error) :=
  let inline_size := inline_xattr_size x in
  let go x new_nid :=
    if inline_size =? 0 then write_block env x new_nid buf
    else
      match if ipage then None else inode_page env with
      | Some e => Some (nid_over x new_nid, Some e)
      | None =>
          if hsize <=? inline_size then
            let '(x, err) := f2fs_truncate_xattr_node env x in
            let x := nid_over x new_nid in
            match err with
            | Some e => Some (x, Some e)
            | None => bs ← rd buf 0 inline_size; a ← wr (inline_area x) 0 bs; Some (with_areas x a (i_xattr_nid x) (xattr_block x) (x_prealloc x), None)
            end
          else write_block env x new_nid buf
      end in
  if (inline_size <? hsize) && (i_xattr_nid x =? 0) then
    match free_nid env with
    | None => Some (x, Some ENOSPC)
    | Some nid => go (set_prealloc x ({[nid]} ∪ x_prealloc x)) nid
    end
  else go x 0.

(** The loop of [__f2fs_setxattr] to the end of the list. *)
Fixpoint last_entry (fuel : nat) (buf : list Z) (p : Z) : option Z :=
  match fuel with
  | O => None
  | S fuel => e ← entry_at buf p; if IS_XATTR_LAST_ENTRY e then Some p else last_entry fuel buf (p + ENTRY_SIZE e)
  end.
Definition f2fs_xattr_value_same (buf : list Z) (p : Z) (e : f2fs_xattr_entry) (value : list Z) : option bool :=
  if e_value_size e =? Z.of_nat (length value) then v ← rd buf (p + entry_size + e_name_len e) (Z.of_nat (length value)); Some (bool_decide (v = value)) else Some false.
(** Step 2: the entry [e] at [here] is removed from a list that ends at [last]. *)
Definition remove_entry (buf : list Z) (here last : Z) (e : f2fs_xattr_entry) : option (list Z * Z) :=
  let next := here + ENTRY_SIZE e in
  bs ← rd buf next (last - next);
  buf ← wr buf here bs;
  let last := last - ENTRY_SIZE e in
  buf ← wr buf last (zeros (ENTRY_SIZE e));
  Some (buf, last).
(** Step 3: the stores of a new entry. *)
Definition write_new (buf : list Z) (last index : Z) (name value : list Z) : option (list Z) :=
  buf ← wr buf last (le_bytes 1 index);
  buf ← wr buf (last + 1) (le_bytes 1 (Z.of_nat (length name)));
  buf ← wr buf (last + entry_size) name;
  buf ← wr buf (last + entry_size + Z.of_nat (length name)) value;
  wr buf (last + 2) (le_bytes 2 (Z.of_nat (length value))).
(** The label [same]: an ACL sets the mode. *)
Definition same (x : xattr_inode) : xattr_inode :=
  match i_acl_mode x with None => x | Some m => with_flags x (encrypted x) m None (x_need_fsck x) (x_need_cp x) end.
Definition XATTR_INDEX_ENCRYPTION : Z := 9.
Definition ENCRYPTION_CONTEXT : list Z := [99].

(** The part of [__f2fs_setxattr] behind the search, which stopped at [here]. *)
Definition set_entry (env : xattr_env) (x : xattr_inode) (ipage : bool) (index : Z) (name : list Z) (value : option (list Z)) (create replace : bool) (buf : list Z) (here : Z) : option (xattr_inode * option xattr_error) :=
  e ← entry_at buf here;
  let found := negb (IS_XATTR_LAST_ENTRY e) in
  if found && create then Some (x, Some EEXIST)
  else
    unchanged ← match value with Some v => if found then f2fs_xattr_value_same buf here e v else Some false | None => Some false end;
    if unchanged : bool then Some (same x, None)
    else if negb found && replace then Some (x, Some ENODATA)
    else
      last ← last_entry (S (length buf)) buf here;
      let newsize := XATTR_ALIGN (entry_size + Z.of_nat (length name) + match value with Some v => Z.of_nat (length v) | None => 0 end) in
      let free := MIN_OFFSET x - last + if found then ENTRY_SIZE e else 0 in
      if (match value with Some _ => true | None => false end) && (free <? newsize) then Some (x, Some E2BIG)
      else
        '(buf, last) ← if found then remove_entry buf here last e else Some (buf, last);
        '(buf, hsize) ← match value with Some v => buf ← write_new buf last index name v; Some (buf, last + newsize) | None => Some (buf, last) end;
        '(x, err) ← write_all_xattrs env x hsize buf ipage;
        match err with
        | Some e => Some (x, Some e)
        | None =>
            let enc := encrypted x || ((index =? XATTR_INDEX_ENCRYPTION) && bool_decide (name = ENCRYPTION_CONTEXT)) in
            Some (same (with_flags x enc (i_mode x) (i_acl_mode x) (x_need_fsck x) (x_need_cp x || is_dir x)), None)
        end.

(** [__f2fs_setxattr]; no value removes the attribute. *)
Definition __f2fs_setxattr (env : xattr_env) (x : xattr_inode) (ipage : bool) (index : Z) (name value : option (list Z)) (create replace : bool) : option (xattr_inode * option xattr_error) :=
  match name with
  | None => Some (x, Some EINVAL)
  | Some name =>
      let len := Z.of_nat (length name) in
      let size := match value with Some v => Z.of_nat (length v) | None => 0 end in
      if F2FS_NAME_LEN <? len then Some (x, Some ERANGE)
      else if MAX_VALUE_LEN x <? size then Some (x, Some E2BIG)
      else
        r ← read_all_xattrs env x ipage;
        match r with
        | inl e => Some (x, Some e)
        | inr buf =>
            xe ← __find_xattr buf 0 (XATTR_SIZE x) index name;
            match xe with
            | None => Some (mark_fsck x, Some EFSCORRUPTED)
            | Some here => set_entry env x ipage index name value create replace buf here
            end
        end
  end.
Definition f2fs_setxattr (env : xattr_env) (x : xattr_inode) (ipage : bool) (index : Z) (name value : option (list Z)) (create replace : bool) : option (xattr_inode * option xattr_error) :=
  if x_cp_error env then Some (x, Some EIO)
  else if negb (checkpoint_ready env) then Some (x, Some ENOSPC)
  else match dquot_error env with Some e => Some (x, Some e) | None => __f2fs_setxattr env x ipage index name value create replace end.
End xattr.
