(* ===== verification/XattrProps.v ===== *)
(** * Buffers of extended attributes

    First the list of entries in a buffer; then the accesses of each operation. *)

From S2P Require Import Prelude Xattr.

(** ** The image of a list of extended attributes

    A well-formed image is a header, the entries one after the other and zeros; the
    searches, the removal and the addition of an entry are shown to act on the list. *)

(** ** Memory *)

Notation lenZ l := (Z.of_nat (length l)).
Lemma zeros_len n : 0 <= n -> lenZ (zeros n) = n.
Proof. intros Hn. unfold zeros. rewrite length_replicate. lia. Qed.
Lemma zeros_add a b : 0 <= a -> 0 <= b -> zeros a ++ zeros b = zeros (a + b).
Proof. intros Ha Hb. unfold zeros. rewrite <-replicate_add. f_equal. lia. Qed.
Lemma zeros_split a n : 0 <= a <= n -> zeros n = zeros a ++ zeros (n - a).
Proof. intros Ha. rewrite zeros_add by lia. f_equal. lia. Qed.
Lemma take_zeros a n : 0 <= a <= n -> take (Z.to_nat a) (zeros n) = zeros a.
Proof. intros Ha. unfold zeros. rewrite take_replicate. f_equal. lia. Qed.

Lemma rd_at pre mid post off n : lenZ pre = off -> lenZ mid = n -> rd (pre ++ mid ++ post) off n = Some mid.
Proof.
  intros <- <-. unfold rd. rewrite !length_app. replace (_ && _) with true by (symmetry; zbool; lia). rewrite !Nat2Z.id, drop_app_length, take_app_length. done.
Qed.
Lemma wr_at pre mid post off bs : lenZ pre = off -> length mid = length bs -> wr (pre ++ mid ++ post) off bs = Some (pre ++ bs ++ post).
Proof.
  intros <- Hl. unfold wr. rewrite !length_app, <-Hl. replace (_ && _) with true by (symmetry; zbool; lia). rewrite Nat2Z.id, take_app_length. do 3 f_equal.
  rewrite app_assoc. replace (length pre + length mid)%nat with (length (pre ++ mid)) by (rewrite length_app; lia). by rewrite drop_app_length.
Qed.
Lemma rd_start mid post n : lenZ mid = n -> rd (mid ++ post) 0 n = Some mid.
Proof. apply (rd_at [] mid post 0 n). done. Qed.
Lemma wr_length buf off bs buf' : wr buf off bs = Some buf' -> lenZ buf' = lenZ buf.
Proof.
  unfold wr. destruct (_ && _) eqn:E; [|done]. apply andb_true_iff in E as [E1%Z.leb_le E2%Z.leb_le]. intros [= <-]. rewrite !length_app, length_take, length_drop. lia.
Qed.
Lemma wr_start mid post bs : length mid = length bs -> wr (mid ++ post) 0 bs = Some (bs ++ post).
Proof. apply (wr_at [] mid post 0 bs). done. Qed.
Lemma rd_all buf n : lenZ buf = n -> rd buf 0 n = Some buf.
Proof. intros Hn. rewrite <-(app_nil_r buf) at 1. by apply rd_start. Qed.
Lemma rd_some buf off n : 0 <= off -> 0 <= n -> off + n <= lenZ buf -> exists bs, rd buf off n = Some bs /\ lenZ bs = n.
Proof. intros. unfold rd. replace (_ && _) with true by (symmetry; zbool; lia). eexists. split; [done|]. rewrite length_take, length_drop. lia. Qed.

(** ** Alignment *)

Lemma align_spec n : XATTR_ALIGN n = 4 * ((n + 3) / 4).
Proof. unfold XATTR_ALIGN. rewrite <-Z.ldiff_land. change 3 with (Z.ones 2) at 2. rewrite Z.ldiff_ones_r, Z.shiftl_mul_pow2, Z.shiftr_div_pow2 by lia. change (2 ^ 2) with 4. lia. Qed.
Lemma align_bounds n : n <= XATTR_ALIGN n < n + 4 /\ XATTR_ALIGN n mod 4 = 0.
Proof. rewrite align_spec. rewrite (Z.mul_comm 4), Z.mod_mul by lia. split; [zdiv|done]. Qed.
Lemma align_id n : n mod 4 = 0 -> XATTR_ALIGN n = n.
Proof. rewrite align_spec. intros. zdiv. Qed.

(** ** Entries *)

Notation key := (Z * list Z)%type.
Notation attr := (key * list Z)%type.
(** The list of attributes, in the order of their entries. *)
Notation attrs := (list attr).
Implicit Types (a : attr) (L : attrs).

Definition esize a : Z := XATTR_ALIGN (entry_size + lenZ a.1.2 + lenZ a.2).
Definition enc a : list Z := (le_bytes 1 a.1.1 ++ le_bytes 1 (lenZ a.1.2) ++ le_bytes 2 (lenZ a.2)) ++ a.1.2 ++ a.2 ++ zeros (esize a - (entry_size + lenZ a.1.2 + lenZ a.2)).
Definition sizes L : Z := foldr (fun a n => esize a + n) 0 L.
Definition image L : list Z := concat (enc <$> L).
Definition attr_ok `{XattrFormat} a : Prop := 1 <= a.1.1 < 256 /\ lenZ a.1.2 <= F2FS_NAME_LEN /\ lenZ a.2 < 2 ^ 16.
Definition entry_of a : f2fs_xattr_entry := {| e_name_index := a.1.1; e_name_len := lenZ a.1.2; e_value_size := lenZ a.2 |}.

Lemma esize_bounds a : entry_size + lenZ a.1.2 + lenZ a.2 <= esize a /\ 4 <= esize a /\ esize a mod 4 = 0.
Proof. unfold esize. pose proof (align_bounds (entry_size + lenZ a.1.2 + lenZ a.2)) as [??]. unfold entry_size in *. lia. Qed.
Lemma enc_len a : lenZ (enc a) = esize a.
Proof. unfold enc. rewrite !length_app, !length_le_bytes. pose proof (esize_bounds a). unfold entry_size in *. pose proof (zeros_len (esize a - (4 + lenZ a.1.2 + lenZ a.2))). lia. Qed.
Lemma sizes_app L1 L2 : sizes (L1 ++ L2) = sizes L1 + sizes L2.
Proof. induction L1 as [|a L1 IH]; cbn; [done|]. fold (sizes (L1 ++ L2)) (sizes L1). lia. Qed.
Lemma sizes_bounds L : 0 <= sizes L /\ sizes L mod 4 = 0.
Proof. induction L as [|a L IH]; cbn; [done|]. fold (sizes L). pose proof (esize_bounds a). split; [lia|]. zdiv. Qed.
Lemma image_app L1 L2 : image (L1 ++ L2) = image L1 ++ image L2.
Proof. unfold image. by rewrite fmap_app, concat_app. Qed.
Lemma image_len L : lenZ (image L) = sizes L.
Proof. induction L as [|a L IH]; [done|]. change (image (a :: L)) with (enc a ++ image L). rewrite length_app. cbn. fold (sizes L). pose proof (enc_len a). lia. Qed.

Section props.
Context `{XattrFormat}.
Definition ok_list L : Prop := Forall attr_ok L /\ NoDup L.*1.

Definition hdr4 a : list Z := le_bytes 1 a.1.1 ++ le_bytes 1 (lenZ a.1.2) ++ le_bytes 2 (lenZ a.2).
Lemma entry_at_hdr pre a post p : attr_ok a -> lenZ pre = p -> entry_at (pre ++ hdr4 a ++ post) p = Some (entry_of a).
Proof.
  intros (Hi & Hn & Hv) Hp. pose proof name_len_fits as Hf. unfold entry_at. rewrite (rd_at pre (hdr4 a) post) by (done || by rewrite !length_app, !length_le_bytes). cbn [mbind option_bind]. unfold entry_of. f_equal. f_equal; unfold hdr4.
  - apply (le_val_bytes_small 1 a.1.1). lia.
  - apply (le_val_bytes_small 1 (lenZ a.1.2)). lia.
  - apply (le_val_bytes_small 2 (lenZ a.2)). lia.
Qed.
Lemma entry_at_zeros pre post p : lenZ pre = p -> exists e, entry_at (pre ++ zeros 4 ++ post) p = Some e /\ IS_XATTR_LAST_ENTRY e = true.
Proof. intros Hp. unfold entry_at. rewrite (rd_at pre (zeros 4) post) by done. eexists. split; [done|]. done. Qed.
Lemma entry_not_last a : attr_ok a -> IS_XATTR_LAST_ENTRY (entry_of a) = false.
Proof. intros (Hi & _). unfold IS_XATTR_LAST_ENTRY. cbn. destruct (Z.eqb_spec a.1.1 0); [lia|done]. Qed.

(** ** Searches *)

Fixpoint scan (last : Z) (k : key) L (p : Z) : walk :=
  match L with
  | [] => Last p
  | a :: L => if last <? p + esize a then if last <? p + 4 then Last p else Crossed p else if decide (a.1 = k) then Found p else scan last k L (p + esize a)
  end.
(** What a buffer holds from [p] on: the entries up to [last], and zeros there. *)
Definition holds (buf : list Z) (p last : Z) L : Prop :=
  exists pre z tl, lenZ pre = p /\ 0 <= z /\ p <= last <= p + sizes L + z /\ buf = pre ++ take (Z.to_nat (last - p)) (image L ++ zeros z) ++ zeros 4 ++ tl.
Lemma holds_nil buf p last : holds buf p last [] -> exists e, entry_at buf p = Some e /\ IS_XATTR_LAST_ENTRY e = true.
Proof.
  intros (pre & z & tl & Hp & Hz & Hl & ->). cbn in Hl. cbn [image fmap list_fmap concat app]. rewrite take_zeros by lia. rewrite (app_assoc (zeros _) (zeros 4)), zeros_add by lia. rewrite (zeros_split 4) by lia. rewrite <-(app_assoc (zeros 4)). by apply entry_at_zeros.
Qed.
Lemma enc_hdr a : enc a = hdr4 a ++ a.1.2 ++ a.2 ++ zeros (esize a - (entry_size + lenZ a.1.2 + lenZ a.2)).
Proof. done. Qed.
Lemma hdr4_len a : lenZ (hdr4 a) = 4.
Proof. unfold hdr4. by rewrite !length_app, !length_le_bytes. Qed.
Lemma holds_cons buf p last a L : attr_ok a -> holds buf p last (a :: L) -> p + 4 <= last -> entry_at buf p = Some (entry_of a).
Proof.
  intros Ha (pre & z & tl & Hp & Hz & Hl & ->) H4. change (image (a :: L)) with (enc a ++ image L). rewrite enc_hdr. rewrite <-!(app_assoc (hdr4 a)). rewrite take_app_ge by (pose proof (hdr4_len a); lia). rewrite <-!(app_assoc (hdr4 a)). by apply entry_at_hdr.
Qed.
Lemma holds_inside buf p last a L : holds buf p last (a :: L) -> p + esize a <= last ->
  holds buf (p + esize a) last L /\ rd buf (p + entry_size) (lenZ a.1.2) = Some a.1.2 /\ rd buf (p + entry_size + lenZ a.1.2) (lenZ a.2) = Some a.2.
Proof.
  intros (pre & z & tl & Hp & Hz & Hl & ->) He. change (image (a :: L)) with (enc a ++ image L). cbn in Hl. fold (sizes L) in Hl. pose proof (enc_len a) as Hlen. pose proof (esize_bounds a). rewrite <-(app_assoc (enc a)). rewrite (take_app_ge (enc a)) by lia.
  replace (Z.to_nat (last - p) - length (enc a))%nat with (Z.to_nat (last - (p + esize a))) by lia. rewrite <-(app_assoc (enc a)). split; [|split].
  - exists (pre ++ enc a), z, tl. rewrite length_app, <-(app_assoc pre). split; [lia|]. split; [done|]. split; [lia|done].
  - rewrite enc_hdr, <-!app_assoc, (app_assoc pre). apply rd_at; [rewrite length_app; pose proof (hdr4_len a); unfold entry_size; lia|done].
  - rewrite enc_hdr, <-!app_assoc, (app_assoc pre), (app_assoc (pre ++ hdr4 a)). apply rd_at; [rewrite !length_app; pose proof (hdr4_len a); unfold entry_size; lia|done].
Qed.
Lemma walk_scan last k L : Forall attr_ok L -> last mod 4 = 0 -> forall fuel buf p, p mod 4 = 0 -> holds buf p last L -> (length L < fuel)%nat -> walk_xattrs fuel buf last k.1 k.2 p = Some (scan last k L p).
Proof.
  intros Hok Hlast. induction Hok as [|a L Ha Hok IH]; intros [|fuel] buf p Hp Hb Hf; try (cbn in Hf; lia); cbn [walk_xattrs scan].
  { destruct (holds_nil buf p last Hb) as (e & -> & He). cbn [mbind option_bind]. by rewrite He. }
  pose proof (esize_bounds a) as (_ & Hs4 & Hsm). destruct (Z.ltb_spec last (p + esize a)) as [Hc|Hc].
  - destruct (Z.ltb_spec last (p + 4)) as [H4|H4].
    + assert (Hpl : p = last) by (destruct Hb as (? & ? & ? & _ & _ & ? & _); zdiv). destruct Hb as (pre & z & tl & Hpre & _ & _ & ->). replace (Z.to_nat (last - p)) with 0%nat by lia. rewrite take_0, app_nil_l. destruct (entry_at_zeros pre tl p Hpre) as (e & -> & He). cbn [mbind option_bind]. by rewrite He.
    + rewrite (holds_cons buf p last a L Ha Hb H4). cbn [mbind option_bind]. rewrite (entry_not_last a Ha). change (ENTRY_SIZE (entry_of a)) with (esize a). replace (_ || _) with true by (symmetry; zbool; lia). done.
  - rewrite (holds_cons buf p last a L Ha Hb) by lia. cbn [mbind option_bind]. rewrite (entry_not_last a Ha). change (ENTRY_SIZE (entry_of a)) with (esize a). replace (_ || _) with false by (symmetry; zbool; lia). destruct (holds_inside buf p last a L Hb Hc) as (Hb' & Hn & _).
    assert (Hp' : (p + esize a) mod 4 = 0) by zdiv. assert (Hf' : (length L < fuel)%nat) by (cbn in Hf; lia). cbn [e_name_index e_name_len entry_of]. rewrite Hn. cbn [mbind option_bind]. destruct k as [i n]. cbn [fst snd] in *.
    destruct (Z.eqb_spec a.1.1 i) as [E1|E1]; cbn [negb]; [|rewrite decide_False; [by apply (IH fuel)|intros E; apply E1; by rewrite E]].
    destruct (Z.eqb_spec (lenZ a.1.2) (lenZ n)) as [E2|E2]; cbn [negb]; [|rewrite decide_False; [by apply (IH fuel)|intros E; apply E2; by rewrite E]].
    destruct (decide (a.1.2 = n)) as [E3|E3]; [rewrite decide_True; [done|]; destruct a as [[]]; cbn in *; congruence|]. rewrite decide_False; [by apply (IH fuel)|intros E; apply E3; by rewrite E].
Qed.

(** Entries are found by their key, if all lie in front of [last]. *)
Lemma key_cases (k : key) L : k ∉ L.*1 \/ exists L1 v L2, L = L1 ++ (k, v) :: L2 /\ k ∉ L1.*1.
Proof.
  induction L as [|[j w] L IH]; [left; set_solver|]. destruct (decide (j = k)) as [->|Hne]; [right; exists [], w, L; split; [done|set_solver]|].
  destruct IH as [Hn|(L1 & v & L2 & -> & Hn)]; [left; cbn; set_solver|right]. exists ((j, w) :: L1), v, L2. split; [done|cbn; set_solver].
Qed.
Lemma scan_past last k L1 L2 p : k ∉ L1.*1 -> p + sizes L1 <= last -> scan last k (L1 ++ L2) p = scan last k L2 (p + sizes L1).
Proof.
  revert p. induction L1 as [|a L1 IH]; intros p Hk Hl; cbn; [f_equal; lia|]. cbn in Hl. fold (sizes L1) in Hl |- *. pose proof (sizes_bounds L1). destruct (Z.ltb_spec last (p + esize a)); [lia|]. rewrite decide_False by (cbn in Hk; set_solver). rewrite IH by (cbn in Hk; set_solver || lia). f_equal. lia.
Qed.
Lemma scan_all last k L p : k ∉ L.*1 -> p + sizes L <= last -> scan last k L p = Last (p + sizes L).
Proof. intros Hk Hl. rewrite <-(app_nil_r L) at 1. by rewrite scan_past. Qed.
Lemma scan_hit last k L1 v L2 p : k ∉ L1.*1 -> p + sizes (L1 ++ (k, v) :: L2) <= last -> scan last k (L1 ++ (k, v) :: L2) p = Found (p + sizes L1).
Proof. rewrite sizes_app. cbn. fold (sizes L2). pose proof (sizes_bounds L1). pose proof (sizes_bounds L2). pose proof (esize_bounds (k, v)). intros Hk Hl. rewrite scan_past by (done || lia). cbn [scan]. destruct (Z.ltb_spec last (p + sizes L1 + esize (k, v))); [lia|]. by rewrite decide_True. Qed.
(** A search that crosses the end can go on from there. *)
Lemma scan_cross last k L p : p mod 4 = 0 -> last mod 4 = 0 -> p <= last ->
  match scan last k L p with
  | Found q => exists L1 v L2, L = L1 ++ (k, v) :: L2 /\ q = p + sizes L1 /\ k ∉ L1.*1 /\ q + esize (k, v) <= last
  | Last q | Crossed q => exists L1 L2, L = L1 ++ L2 /\ q = p + sizes L1 /\ k ∉ L1.*1 /\ q <= last /\ (last < q + 4 \/ (L2 = [] <-> match scan last k L p with Last _ => True | _ => False end))
  end.
Proof.
  revert p. induction L as [|a L IH]; intros p Hp Hlast Hle; cbn [scan].
  { exists [], []. cbn. split; [done|]. split; [lia|]. split; [set_solver|]. split; [done|]. by right. }
  pose proof (esize_bounds a) as (_ & Hs & Hm). destruct (Z.ltb_spec last (p + esize a)).
  { destruct (Z.ltb_spec last (p + 4)); exists [], (a :: L); cbn; (split; [done|]; split; [lia|]; split; [set_solver|]; split; [done|]); [by left|by right]. }
  destruct (decide (a.1 = k)) as [<-|Hne]; [exists [], a.2, L; cbn; destruct a; split; [done|]; split; [lia|]; split; [set_solver|done]|].
  specialize (IH (p + esize a) ltac:(zdiv) Hlast ltac:(lia)). destruct (scan last k L (p + esize a)) as [q|q|q].
  - destruct IH as (L1 & v & L2 & -> & -> & Hk & Hq). exists (a :: L1), v, L2. cbn. fold (sizes L1). split; [done|]. split; [lia|]. split; [set_solver|done].
  - destruct IH as (L1 & L2 & -> & -> & Hk & Hq & Ho). exists (a :: L1), L2. cbn. fold (sizes L1). split; [done|]. split; [lia|]. split; [set_solver|]. split; [done|done].
  - destruct IH as (L1 & L2 & -> & -> & Hk & Hq & Ho). exists (a :: L1), L2. cbn. fold (sizes L1). split; [done|]. split; [lia|]. split; [set_solver|]. split; [done|done].
Qed.

(** ** Changes *)

Lemma holds_image pre L z tl p : lenZ pre = p -> 4 <= z -> holds (pre ++ image L ++ zeros z ++ tl) p (p + sizes L) L.
Proof.
  intros Hp Hz. exists pre, 0, (zeros (z - 4) ++ tl). pose proof (sizes_bounds L). split; [done|]. split; [done|]. split; [lia|]. f_equal. change (zeros 0) with ([] : list Z). rewrite app_nil_r, firstn_all2 by (pose proof (image_len L); lia). f_equal. rewrite (zeros_split 4 z) by lia. by rewrite app_assoc.
Qed.
Lemma holds_more buf p last L : holds buf p last L -> sizes L <= last - p -> (length L < S (length buf))%nat.
Proof.
  intros (pre & z & tl & Hp & Hz & Hl & ->) Hs. assert (Hlen : 4 * lenZ L <= sizes L) by (clear; induction L as [|a L IH]; [done|]; cbn [length]; cbn; fold (sizes L); pose proof (esize_bounds a); lia).
  rewrite !length_app, length_take, length_app. pose proof (image_len L). lia.
Qed.
Lemma last_entry_ok L : Forall attr_ok L -> forall fuel buf p last, holds buf p last L -> p + sizes L <= last -> (length L < fuel)%nat -> last_entry fuel buf p = Some (p + sizes L).
Proof.
  intros Hok. induction Hok as [|a L Ha Hok IH]; intros [|fuel] buf p last Hb Hl Hf; try (cbn in Hf; lia); cbn [last_entry].
  - destruct (holds_nil buf p last Hb) as (e & -> & He). cbn [mbind option_bind]. rewrite He. cbn. f_equal. lia.
  - cbn in Hl. fold (sizes L) in Hl. pose proof (esize_bounds a). pose proof (sizes_bounds L). rewrite (holds_cons buf p last a L Ha Hb) by lia. cbn [mbind option_bind]. rewrite (entry_not_last a Ha). change (ENTRY_SIZE (entry_of a)) with (esize a).
    destruct (holds_inside buf p last a L Hb ltac:(lia)) as [Hb' _]. rewrite (IH fuel buf (p + esize a) last Hb') by (cbn in Hf; lia). cbn. fold (sizes L). f_equal. lia.
Qed.
Lemma remove_ok pre a L2 z here : lenZ pre = here -> remove_entry (pre ++ enc a ++ image L2 ++ zeros z) here (here + esize a + sizes L2) (entry_of a) = Some (pre ++ image L2 ++ zeros (esize a) ++ zeros z, here + sizes L2).
Proof.
  intros Hp. unfold remove_entry. change (ENTRY_SIZE (entry_of a)) with (esize a). pose proof (enc_len a). pose proof (image_len L2). pose proof (esize_bounds a). rewrite (app_assoc pre (enc a)). rewrite (rd_at (pre ++ enc a) (image L2)) by (rewrite ?length_app; lia). cbn [mbind option_bind].
  set (X := enc a ++ image L2). assert (HX : length X = (length (image L2) + Z.to_nat (esize a))%nat) by (unfold X; rewrite length_app; lia). rewrite <-(app_assoc pre), (app_assoc (enc a)). fold X.
  rewrite <-(take_drop (length (image L2)) X). rewrite <-(app_assoc (take _ X)). rewrite wr_at by (done || rewrite length_take; lia). cbn [mbind option_bind]. rewrite (app_assoc pre).
  rewrite wr_at; [|rewrite length_app; lia|rewrite length_drop; unfold zeros; rewrite length_replicate; lia]. cbn [mbind option_bind]. rewrite <-app_assoc. do 2 f_equal. lia.
Qed.
Lemma write_new_ok pre a z tl last : attr_ok a -> lenZ pre = last -> esize a <= z -> write_new (pre ++ zeros z ++ tl) last a.1.1 a.1.2 a.2 = Some (pre ++ enc a ++ zeros (z - esize a) ++ tl).
Proof.
  intros Ha Hp Hz. pose proof (esize_bounds a) as (Hs & _ & _). unfold entry_size in Hs. unfold write_new, entry_size. set (n := lenZ a.1.2) in *. set (m := lenZ a.2) in *. set (r := zeros (z - (4 + n + m)) ++ tl).
  assert (E : zeros z ++ tl = zeros 1 ++ zeros 1 ++ zeros 2 ++ zeros n ++ zeros m ++ r) by (unfold r; rewrite !app_assoc, !zeros_add by lia; do 2 f_equal; lia). rewrite E. clear E. pose proof (zeros_len n). pose proof (zeros_len m).
  rewrite (wr_at pre (zeros 1)) by (done || by rewrite length_le_bytes). cbn [mbind option_bind]. rewrite (app_assoc pre). rewrite (wr_at (pre ++ _) (zeros 1)) by (rewrite ?length_app, ?length_le_bytes; done || (cbn; lia)). cbn [mbind option_bind].
  rewrite (app_assoc _ _ (zeros 2 ++ _)), (app_assoc _ (zeros 2)). rewrite (wr_at _ (zeros n)) by (rewrite ?length_app, ?length_le_bytes; change (length (zeros 2)) with 2%nat; lia). cbn [mbind option_bind].
  rewrite (app_assoc _ a.1.2). rewrite (wr_at _ (zeros m)) by (rewrite ?length_app, ?length_le_bytes; change (length (zeros 2)) with 2%nat; lia). cbn [mbind option_bind].
  rewrite <-(app_assoc _ a.1.2), <-(app_assoc _ (zeros 2)). rewrite (wr_at _ (zeros 2)) by (rewrite ?length_app, ?length_le_bytes; done || lia). f_equal. unfold enc, r. rewrite <-!app_assoc. do 6 f_equal. rewrite (app_assoc (zeros _)), zeros_add by (unfold entry_size; lia). do 2 f_equal. unfold entry_size. lia.
Qed.
End props.

(** ** Operations on extended attributes

    On a well-formed inode every operation acts on the list of its attributes; whatever the
    blocks contain, no look-up reads outside its buffer. *)

Section ops.
Context `{XattrFormat}.
Implicit Types (x : xattr_inode).
Notation key := (Z * list Z)%type.
Notation attrs := (list (key * list Z)).

(** ** Well-formed inodes *)

Definition content x : list Z := inline_area x ++ (if i_xattr_nid x =? 0 then [] else xattr_block x).
Record shape x : Prop := {
  sh_inline : inline_xattr_size x = 0 \/ header_size <= inline_xattr_size x <= 4096;
  sh_area : lenZ (inline_area x) = inline_xattr_size x;
  sh_block : i_xattr_nid x <> 0 -> lenZ (xattr_block x) = VALID_XATTR_BLOCK_SIZE;
  sh_nids : 0 ∉ x_prealloc x
}.
Record xwf x (L : attrs) : Prop := {
  xw_shape : shape x;
  xw_list : ok_list L;
  xw_content : (XATTR_SIZE x = 0 /\ L = []) \/ exists hdr z, lenZ hdr = header_size /\ 0 <= z /\ content x = hdr ++ image L ++ zeros z
}.
(** Errors the environment reports. *)
Definition reported (env : xattr_env) (e : xattr_error) : Prop :=
  (kzalloc_ok env = false /\ e = ENOMEM) \/ inode_page env = Some e \/ xattr_page env = Some e \/ new_node_page env = Some e \/ truncate_node env = Some e \/ (free_nid env = None /\ e = ENOSPC) \/
  (x_cp_error env = true /\ e = EIO) \/ (checkpoint_ready env = false /\ e = ENOSPC) \/ dquot_error env = Some e.
(** A node id that is handed out is not in use. *)
Definition fresh_nid (env : xattr_env) x : Prop := forall nid, free_nid env = Some nid -> nid <> 0 /\ nid ∉ x_prealloc x.

Lemma inline_mult x : inline_xattr_size x mod 4 = 0.
Proof. unfold inline_xattr_size. destruct (has_inline_xattr x); [by apply Z.mod_mul|done]. Qed.
Lemma inline_range x : shape x -> 0 <= inline_xattr_size x <= 4096.
Proof. intros Hs. pose proof (sh_inline _ Hs). unfold header_size in *. lia. Qed.
Lemma min_offset x : MIN_OFFSET x = inline_xattr_size x + VALID_XATTR_BLOCK_SIZE.
Proof. unfold MIN_OFFSET. apply align_id. pose proof (inline_mult x). pose proof valid_block. zdiv. Qed.
Lemma content_len x : shape x -> lenZ (content x) = XATTR_SIZE x.
Proof. intros Hs. unfold content, XATTR_SIZE. rewrite length_app. pose proof (sh_area _ Hs). destruct (Z.eqb_spec (i_xattr_nid x) 0) as [|Hn]; [cbn; lia|]. pose proof (sh_block _ Hs Hn). lia. Qed.
Lemma size_range x : shape x -> inline_xattr_size x <= XATTR_SIZE x <= inline_xattr_size x + VALID_XATTR_BLOCK_SIZE /\ XATTR_SIZE x mod 4 = 0.
Proof. intros Hs. pose proof valid_block. pose proof (inline_mult x). unfold XATTR_SIZE. destruct (_ =? 0); (split; [lia|zdiv]). Qed.
(** Attributes fit. *)
Lemma wf_fits x L : xwf x L -> (L = [] \/ header_size + sizes L <= XATTR_SIZE x) /\ (XATTR_SIZE x = 0 -> L = []).
Proof.
  intros [Hs Ho Hc]. pose proof (content_len x Hs) as Hl. destruct Hc as [[E ->]|(hdr & z & Hh & Hz & E)]; [auto|]. rewrite E, !length_app in Hl. pose proof (image_len L). pose proof (zeros_len z Hz). pose proof (sizes_bounds L). unfold header_size in *. split; [right; lia|lia].
Qed.

(** ** Reading *)

Lemma read_inline_ok env x ipage n : shape x -> inline_xattr_size x <= n ->
  (exists e, read_inline env x ipage (zeros n) = Some (inl e) /\ reported env e) \/ read_inline env x ipage (zeros n) = Some (inr (inline_area x ++ zeros (n - inline_xattr_size x))).
Proof.
  intros Hs Hn. pose proof (inline_range x Hs). pose proof (sh_area _ Hs) as Ha. unfold read_inline. destruct (Z.eqb_spec (inline_xattr_size x) 0) as [E|E].
  - right. rewrite E in Ha. destruct (inline_area x); [|cbn in Ha; lia]. cbn. by rewrite E, Z.sub_0_r.
  - unfold read_inline_xattr. destruct (if ipage then None else inode_page env) as [e|] eqn:Ep; [left; exists e; split; [done|]; destruct ipage; [done|]; unfold reported; auto|right].
    rewrite (rd_all (inline_area x)) by done. cbn [mbind option_bind]. rewrite (zeros_split (inline_xattr_size x) n) by lia. rewrite wr_start by (pose proof (zeros_len (inline_xattr_size x)); lia). done.
Qed.
Lemma read_block_ok env x m : shape x -> VALID_XATTR_BLOCK_SIZE <= m \/ (i_xattr_nid x = 0 /\ 0 <= m) ->
  (exists e, read_block env x (inline_area x ++ zeros m) = Some (inl e) /\ reported env e) \/ read_block env x (inline_area x ++ zeros m) = Some (inr (content x ++ zeros (m + inline_xattr_size x - XATTR_SIZE x))).
Proof.
  intros Hs Hm. pose proof valid_block as [Hv _]. unfold read_block, content, XATTR_SIZE. destruct (Z.eqb_spec (i_xattr_nid x) 0) as [E|E].
  - right. rewrite app_nil_r. do 4 f_equal. lia.
  - unfold read_xattr_block. destruct (xattr_page env) as [e|] eqn:Ep; [left; exists e; split; [done|]; unfold reported; auto|right]. pose proof (sh_block _ Hs E) as Hb. rewrite (rd_all (xattr_block x)) by done. cbn [mbind option_bind].
    rewrite (zeros_split VALID_XATTR_BLOCK_SIZE m) by lia. rewrite (wr_at (inline_area x) (zeros VALID_XATTR_BLOCK_SIZE)); [|apply Hs|pose proof (zeros_len VALID_XATTR_BLOCK_SIZE); lia]. cbn [mbind option_bind]. rewrite <-app_assoc. by replace (m + inline_xattr_size x - (VALID_XATTR_BLOCK_SIZE + inline_xattr_size x)) with (m - VALID_XATTR_BLOCK_SIZE) by lia.
Qed.
(** Both together: the header may have been set, and there are zeros behind. *)
Lemma read_all_ok env x ipage : shape x -> (exists e, read_all_xattrs env x ipage = Some (inl e) /\ reported env e) \/
  exists h8 h8', length h8' = length h8 /\ lenZ h8 = 8 /\ (h8' = h8 \/ h8' = le_bytes 4 F2FS_XATTR_MAGIC ++ le_bytes 4 1) /\ exists rest, content x ++ zeros (inline_xattr_size x + VALID_XATTR_BLOCK_SIZE + 4 - XATTR_SIZE x) = h8 ++ rest /\ read_all_xattrs env x ipage = Some (inr (h8' ++ rest)).
Proof.
  intros Hs. pose proof (inline_range x Hs). pose proof valid_block as [Hv _]. pose proof (size_range x Hs) as [Hz _]. unfold read_all_xattrs. destruct (kzalloc_ok env) eqn:Ek; cbn [negb]; [|left; exists ENOMEM; split; [done|]; unfold reported; auto].
  destruct (read_inline_ok env x ipage (inline_xattr_size x + VALID_XATTR_BLOCK_SIZE + 4) Hs) as [(e & -> & He)|E1]; [lia|left; cbn; eauto|]. rewrite E1. cbn [mbind option_bind].
  destruct (read_block_ok env x (inline_xattr_size x + VALID_XATTR_BLOCK_SIZE + 4 - inline_xattr_size x) Hs) as [(e & -> & He)|E2]; [lia|left; cbn; eauto|]. rewrite E2. cbn [mbind option_bind]. replace (_ - inline_xattr_size x + inline_xattr_size x - XATTR_SIZE x) with (inline_xattr_size x + VALID_XATTR_BLOCK_SIZE + 4 - XATTR_SIZE x) by lia.
  set (B := content x ++ _). assert (HB : 28 <= lenZ B) by (unfold B; rewrite length_app; pose proof (content_len x Hs); pose proof (zeros_len (inline_xattr_size x + VALID_XATTR_BLOCK_SIZE + 4 - XATTR_SIZE x)); lia).
  clearbody B. rewrite <-(take_drop 8 B). assert (H8 : lenZ (take 8 B) = 8) by (rewrite length_take; lia). right. destruct (rd_some (take 8 B ++ drop 8 B) 0 4) as (m & -> & _); [lia|lia|rewrite length_app; lia|]. cbn [mbind option_bind]. destruct (le_val m =? F2FS_XATTR_MAGIC).
  - exists (take 8 B), (take 8 B). split; [done|]. split; [done|]. split; [by left|]. exists (drop 8 B). done.
  - exists (take 8 B), (le_bytes 4 F2FS_XATTR_MAGIC ++ le_bytes 4 1). split; [rewrite length_app, !length_le_bytes; lia|]. split; [done|]. split; [by right|]. exists (drop 8 B). split; [done|]. rewrite wr_start by (rewrite length_app, !length_le_bytes; lia). done.
Qed.
(** The buffer of a well-formed inode. *)
Lemma read_all_wf env x ipage L : xwf x L -> (exists e, read_all_xattrs env x ipage = Some (inl e) /\ reported env e) \/
  exists hdr, lenZ hdr = header_size /\ read_all_xattrs env x ipage = Some (inr (hdr ++ image L ++ zeros (MIN_OFFSET x - header_size - sizes L + 4))).
Proof.
  intros Hw. pose proof (xw_shape _ _ Hw) as Hs. destruct (read_all_ok env x ipage Hs) as [?|(h8 & h8' & Hl & H8 & _ & rest & E & ->)]; [by left|right]. rewrite min_offset. pose proof (inline_range x Hs). pose proof valid_block as [Hv _]. pose proof (size_range x Hs) as [Hz _]. pose proof (wf_fits x L Hw) as [Hf Hf0].
  assert (Hhdr : exists hdr, lenZ hdr = header_size /\ h8 ++ rest = hdr ++ image L ++ zeros (inline_xattr_size x + VALID_XATTR_BLOCK_SIZE - header_size - sizes L + 4)).
  { rewrite <-E. destruct (xw_content _ _ Hw) as [[E0 ->]|(hdr & z & Hh & Hz' & Ec)].
    - exists (zeros header_size). split; [done|]. pose proof (content_len x Hs) as Hc. rewrite E0 in Hc. destruct (content x); [|cbn in Hc; lia]. cbn [app image fmap list_fmap concat sizes foldr]. rewrite zeros_add by (unfold header_size in *; lia). f_equal. unfold header_size. lia.
    - exists hdr. split; [done|]. pose proof (content_len x Hs) as Hc. rewrite Ec in Hc |- *. rewrite !length_app in Hc. pose proof (image_len L). pose proof (zeros_len z Hz'). rewrite <-!app_assoc, zeros_add by lia. do 3 f_equal. lia. }
  destruct Hhdr as (hdr & Hh & Eh). exists (h8' ++ drop 8 hdr). split; [rewrite length_app, length_drop; unfold header_size in *; lia|]. do 2 f_equal. rewrite <-app_assoc. f_equal.
  assert (Ed : rest = drop 8 (h8 ++ rest)) by (rewrite drop_app_ge by lia; by replace (8 - length h8)%nat with 0%nat by lia). rewrite Ed, Eh. rewrite drop_app_le by (unfold header_size in *; lia). done.
Qed.
Lemma holds_buf hdr L z last : lenZ hdr = header_size -> header_size + sizes L <= last <= header_size + sizes L + z - 4 -> holds (hdr ++ image L ++ zeros z) header_size last L.
Proof.
  intros Hh Hl. exists hdr, (last - header_size - sizes L), (zeros (header_size + sizes L + z - 4 - last)). pose proof (sizes_bounds L). pose proof (image_len L). split; [done|]. split; [lia|]. split; [lia|]. f_equal. rewrite firstn_all2 by (rewrite length_app; pose proof (zeros_len (last - header_size - sizes L)); lia). rewrite <-app_assoc, !zeros_add by lia. do 2 f_equal. lia.
Qed.
Lemma find_wf hdr L z last k : ok_list L -> lenZ hdr = header_size -> 4 <= z -> last mod 4 = 0 -> header_size + sizes L <= last <= header_size + sizes L + z - 4 \/ L = [] ->
  exists p, __find_xattr (hdr ++ image L ++ zeros z) 0 last k.1 k.2 = Some (Some p) /\
    ((k ∉ L.*1 /\ p = header_size + sizes L) \/ exists L1 v L2, L = L1 ++ (k, v) :: L2 /\ k ∉ L1.*1 /\ p = header_size + sizes L1).
Proof.
  intros [Ho Hn] Hh Hz Hm Hl. unfold __find_xattr. change (0 + header_size) with header_size. destruct (decide (L = [])) as [->|Hne].
  - destruct (holds_nil (hdr ++ image [] ++ zeros z) header_size (header_size + sizes [])) as (e & Ee & He); [rewrite <-(app_nil_r (zeros z)); by apply holds_image|]. cbn [walk_xattrs]. rewrite Ee. cbn [mbind option_bind]. rewrite He. eexists. split; [done|]. left. split; [set_solver|done].
  - destruct Hl as [Hl|]; [|done]. pose proof (holds_buf hdr L z last Hh Hl) as Hb.
    rewrite (walk_scan last k L Ho Hm (S _) _ header_size) by (done || (apply (holds_more _ header_size last); [done|lia])). cbn [mbind option_bind]. destruct (key_cases k L) as [Hk|(L1 & v & L2 & -> & Hk)].
    + rewrite scan_all by (done || lia). eexists. split; [done|]. by left.
    + rewrite scan_hit by (done || lia). eexists. split; [done|]. right. eauto 7.
Qed.

(** ** Look-ups *)

(** The entry of [k] is at [q], with its value in front of [size]. *)
Definition entry_of_at (buf : list Z) (q size : Z) (k : key) (v : list Z) : Prop :=
  entry_at buf q = Some (entry_of (k, v)) /\ rd buf (q + entry_size + lenZ k.2) (lenZ v) = Some v /\ q + entry_size + lenZ k.2 + lenZ v <= size.
Definition ends_at (buf : list Z) (q : Z) : Prop := exists e, entry_at buf q = Some e /\ IS_XATTR_LAST_ENTRY e = true.
Lemma holds_skip buf last L1 L2 p : p + sizes L1 <= last -> holds buf p last (L1 ++ L2) -> holds buf (p + sizes L1) last L2.
Proof.
  revert p. induction L1 as [|a L1 IH]; intros p Hl Hb; cbn in *; [by rewrite Z.add_0_r|]. fold (sizes L1) in *. pose proof (sizes_bounds L1). destruct (holds_inside buf p last a (L1 ++ L2) Hb ltac:(lia)) as [Hb' _]. rewrite Z.add_assoc. apply IH; [lia|done].
Qed.
Lemma entry_found buf last L1 k v L2 p : Forall attr_ok (L1 ++ (k, v) :: L2) -> holds buf p last (L1 ++ (k, v) :: L2) -> p + sizes L1 + esize (k, v) <= last -> entry_of_at buf (p + sizes L1) last k v.
Proof.
  intros Ho Hb Hl. pose proof (esize_bounds (k, v)) as (He & H4 & _). cbn in He. apply holds_skip in Hb; [|lia]. apply Forall_app in Ho as [_ Ho]. apply list.Forall_cons in Ho as [Ha _]. destruct (holds_inside _ _ _ _ _ Hb Hl) as (_ & _ & Hv).
  split; [by apply (holds_cons _ _ last _ L2); [|done|lia]|]. split; [done|lia].
Qed.
Lemma end_found buf last L p : holds buf p last L -> p + sizes L <= last -> ends_at buf (p + sizes L).
Proof. intros Hb Hl. rewrite <-(app_nil_r L) in Hb. apply holds_skip in Hb; [|done]. by apply holds_nil in Hb. Qed.
Lemma find_from buf p last L k : Forall attr_ok L -> holds buf p last L -> p mod 4 = 0 -> last mod 4 = 0 -> p + sizes L <= last ->
  exists q, __find_xattr buf (p - header_size) last k.1 k.2 = Some (Some q) /\ ((k ∉ L.*1 /\ ends_at buf q) \/ exists L1 v L2, L = L1 ++ (k, v) :: L2 /\ k ∉ L1.*1 /\ entry_of_at buf q last k v).
Proof.
  intros Ho Hb Hp Hm Hl. unfold __find_xattr. replace (p - header_size + header_size) with p by lia. rewrite (walk_scan last k L Ho Hm (S _) _ p) by (done || (apply (holds_more _ p last); [done|lia])). cbn [mbind option_bind]. destruct (key_cases k L) as [Hk|(L1 & v & L2 & -> & Hk)].
  - rewrite scan_all by done. eexists. split; [done|]. left. split; [done|]. by apply (end_found buf last).
  - rewrite scan_hit by done. eexists. split; [done|]. right. exists L1, v, L2. split; [done|]. split; [done|]. apply (entry_found buf last L1 k v L2); try done. rewrite sizes_app in Hl. cbn in Hl. fold (sizes L2) in Hl. pose proof (sizes_bounds L2). lia.
Qed.

Definition looked_up (env : xattr_env) (k : key) (L : attrs) (r : xattr_error + list Z * Z * Z) : Prop :=
  (exists e, r = inl e /\ reported env e) \/ (k ∉ L.*1 /\ r = inl ENODATA) \/
  exists L1 v L2 buf q size, L = L1 ++ (k, v) :: L2 /\ k ∉ L1.*1 /\ r = inr (buf, q, size) /\ entry_of_at buf q size k v.
(** The part of [lookup_all_xattrs] behind the search. *)
Lemma checked env x k v L1 L2 buf q size : entry_of_at buf q size k v -> attr_ok (k, v) -> k ∉ L1.*1 ->
  exists r, (e ← entry_at buf q; if IS_XATTR_LAST_ENTRY e then Some (x, inl ENODATA) else Some (x, inr (buf, q, size))) = Some (x, r) /\ looked_up env k (L1 ++ (k, v) :: L2) r.
Proof. intros Hq Ha Hk. pose proof Hq as (-> & _). cbn [mbind option_bind]. rewrite (entry_not_last _ Ha). eexists. split; [done|]. right. right. eexists L1, v, L2, buf, q, size. done. Qed.
Lemma check_end env x k L buf q size : ends_at buf q -> k ∉ L.*1 ->
  exists r, (e ← entry_at buf q; if IS_XATTR_LAST_ENTRY e then Some (x, inl ENODATA) else Some (x, inr (buf, q, size))) = Some (x, r) /\ looked_up env k L r.
Proof. intros (e & -> & He) Hk. cbn [mbind option_bind]. rewrite He. eexists. split; [done|]. right. by left. Qed.

Section lookup.
Context (env : xattr_env) (x : xattr_inode) (k : key) (L : attrs) (Hw : xwf x L).
Lemma outside_ok L1 L2 : L = L1 ++ L2 -> k ∉ L1.*1 -> XATTR_SIZE x <> 0 ->
  exists r, (r ← read_block env x (inline_area x ++ zeros (XATTR_SIZE x + 4 - inline_xattr_size x));
    match r with
    | inl e => Some (x, inl e)
    | inr buf =>
        xe ← __find_xattr buf (header_size + sizes L1 - header_size) (XATTR_SIZE x) k.1 k.2;
        match xe with None => Some (mark_fsck x, inl EFSCORRUPTED) | Some p => e ← entry_at buf p; if IS_XATTR_LAST_ENTRY e then Some (x, inl ENODATA) else Some (x, inr (buf, p, XATTR_SIZE x + 4)) end
    end) = Some (x, r) /\ looked_up env k L r.
Proof using Hw.
  intros EL Hk Hx. pose proof (xw_shape _ _ Hw) as Hs. pose proof (size_range x Hs) as [Hz Hzm]. pose proof (sh_inline _ Hs) as Hin. destruct (xw_list _ _ Hw) as [Ho Hn]. destruct (read_block_ok env x (XATTR_SIZE x + 4 - inline_xattr_size x) Hs) as [(e & -> & He)|E].
  { unfold XATTR_SIZE. destruct (Z.eqb_spec (i_xattr_nid x) 0); [right; split; [done|lia]|left; lia]. }
  { cbn. eexists. split; [done|]. left. eauto. }
  rewrite E. cbn [mbind option_bind]. replace (_ + inline_xattr_size x - XATTR_SIZE x) with 4 by lia. destruct (xw_content _ _ Hw) as [[? _]|(hdr & z & Hh & Hz0 & Ec)]; [done|]. pose proof (content_len x Hs) as Hc. rewrite Ec in Hc |- *. rewrite !length_app in Hc. pose proof (image_len L) as Hl. pose proof (zeros_len z Hz0). assert (ES : sizes L = sizes L1 + sizes L2) by (by rewrite EL, sizes_app). pose proof (sizes_bounds L1) as [S1 S1m]. pose proof (sizes_bounds L2) as [S2 _].
  set (buf := (hdr ++ image L ++ zeros z) ++ zeros 4). assert (Hb : holds buf (header_size + sizes L1) (XATTR_SIZE x) L2).
  { exists (hdr ++ image L1), z, []. split; [rewrite length_app; pose proof (image_len L1); lia|]. split; [done|]. split; [lia|]. unfold buf. rewrite EL, image_app, app_nil_r, <-!app_assoc. do 2 f_equal. rewrite firstn_all2 by (rewrite length_app; pose proof (image_len L2); lia). by rewrite <-app_assoc. }
  rewrite EL in Ho. pose proof Ho as Ho'. apply Forall_app in Ho' as [_ Ho2]. destruct (find_from buf (header_size + sizes L1) (XATTR_SIZE x) L2 k) as (q & Eq & Hq); [done|done|unfold header_size; zdiv|done|lia|]. rewrite Eq. cbn [mbind option_bind]. destruct Hq as [[Hk2 Hq]|(L21 & v & L22 & E2 & Hk2 & Hq)].
  - apply (check_end env x k L buf q (XATTR_SIZE x + 4)); [done|]. rewrite EL, fmap_app. set_solver.
  - rewrite EL, E2, app_assoc. apply checked; [destruct Hq as (? & ? & ?); split; [done|]; split; [done|lia]| |rewrite fmap_app; set_solver]. rewrite E2 in Ho2. apply Forall_app in Ho2 as [_ Ho2]. by apply list.Forall_cons in Ho2 as [? _].
Qed.
Lemma lookup_ok ipage : exists r, lookup_all_xattrs env x ipage k.1 k.2 = Some (x, r) /\ looked_up env k L r.
Proof using Hw.
  pose proof (xw_shape _ _ Hw) as Hs. pose proof (size_range x Hs) as [Hz Hzm]. pose proof (inline_mult x) as Him. destruct (xw_list _ _ Hw) as [Ho Hn]. pose proof valid_block as [Hv _]. unfold lookup_all_xattrs. destruct (wf_fits x L Hw) as [_ Hf0].
  destruct (Z.eqb_spec (inline_xattr_size x) 0) as [Ei|Ei].
  - rewrite andb_true_r. destruct (Z.eqb_spec (i_xattr_nid x) 0) as [En|En]; [eexists; split; [done|]; right; left; rewrite Hf0; [split; [set_solver|done]|unfold XATTR_SIZE; rewrite En, Ei; done]|]. destruct (kzalloc_ok env) eqn:Ek; cbn [negb]; [|eexists; split; [done|]; left; exists ENOMEM; split; [done|]; by left].
    assert (Hx : XATTR_SIZE x <> 0) by (unfold XATTR_SIZE; destruct (Z.eqb_spec (i_xattr_nid x) 0); [done|lia]). pose proof (outside_ok [] L eq_refl ltac:(set_solver) Hx) as Hout. pose proof (sh_area _ Hs) as Ha. rewrite Ei in Ha. destruct (inline_area x) eqn:Ea; [|cbn in Ha; lia]. rewrite Ei, Z.sub_0_r in Hout. exact Hout.
  - rewrite andb_false_r. destruct (kzalloc_ok env) eqn:Ek; cbn [negb]; [|eexists; split; [done|]; left; exists ENOMEM; split; [done|]; by left]. destruct (sh_inline _ Hs) as [?|Hin]; [done|]. assert (Hx : XATTR_SIZE x <> 0) by (unfold header_size in *; lia).
    destruct (read_inline_ok env x ipage (XATTR_SIZE x + 4) Hs) as [(e & E & He)|E]; [lia|..]; unfold read_inline in E; rewrite (proj2 (Z.eqb_neq _ _) Ei) in E; rewrite E; cbn [mbind option_bind]; [eexists; split; [done|]; left; eauto|].
    set (buf := inline_area x ++ zeros (XATTR_SIZE x + 4 - inline_xattr_size x)). destruct (xw_content _ _ Hw) as [[? _]|(hdr & z & Hh & Hz0 & Ec)]; [done|]. pose proof (content_len x Hs) as Hc. rewrite Ec, !length_app in Hc. pose proof (image_len L). pose proof (zeros_len z Hz0). pose proof (sizes_bounds L).
    assert (Hb : holds buf header_size (inline_xattr_size x) L).
    { exists hdr, z, (zeros (XATTR_SIZE x - inline_xattr_size x)). split; [done|]. split; [done|]. split; [lia|]. unfold buf. rewrite zeros_add by lia. rewrite app_assoc. f_equal; [|f_equal; lia]. assert (Et : inline_area x = take (Z.to_nat (inline_xattr_size x)) (content x)) by (unfold content; rewrite take_app_le by (pose proof (sh_area _ Hs); lia); rewrite firstn_all2 by (pose proof (sh_area _ Hs); lia); done).
      rewrite Et, Ec, take_app_ge by lia. f_equal. f_equal. lia. }
    assert (Hfuel : (length L < S (length buf))%nat \/ sizes L > inline_xattr_size x - header_size) by (destruct (Z.le_gt_cases (sizes L) (inline_xattr_size x - header_size)); [left; by apply (holds_more _ header_size (inline_xattr_size x))|right; lia]).
    assert (Hlen : (length L < S (length buf))%nat) by (assert (Hlz : 4 * lenZ L <= sizes L) by (clear; induction L as [|a L' IH]; [done|]; cbn [length]; cbn; fold (sizes L'); pose proof (esize_bounds a); lia); unfold buf; rewrite length_app; pose proof (sh_area _ Hs); pose proof (zeros_len (XATTR_SIZE x + 4 - inline_xattr_size x)); lia).
    unfold __find_inline_xattr. rewrite (walk_scan (inline_xattr_size x) k L Ho Him (S (length buf)) buf header_size) by done. cbn [mbind option_bind]. pose proof (scan_cross (inline_xattr_size x) k L header_size eq_refl Him ltac:(lia)) as Hsc. destruct (scan (inline_xattr_size x) k L header_size) as [q|q|q].
    + destruct Hsc as (L1 & v & L2 & EL & -> & Hk & Hq). rewrite EL in Ho, Hb |- *. apply checked; [by apply (entry_found buf (inline_xattr_size x) L1 k v L2)| |done]. apply Forall_app in Ho as [_ Ho]. by apply list.Forall_cons in Ho as [? _].
    + destruct Hsc as (L1 & L2 & EL & -> & Hk & Hq & Hor). destruct (Z.ltb_spec (inline_xattr_size x) (header_size + sizes L1 + 4)) as [Hc4|Hc4]; [by apply (outside_ok L1 L2)|]. destruct Hor as [?|[_ E2]]; [lia|]. rewrite E2, app_nil_r in EL by done. subst L1. apply check_end; [|done]. by apply (end_found buf (inline_xattr_size x)).
    + destruct Hsc as (L1 & L2 & EL & -> & Hk & Hq & _). by apply (outside_ok L1 L2).
Qed.
End lookup.
End ops.
