(* ===== verification/XattrSystem.v ===== *)
(** * Histories of extended attributes

    The attributes of an inode behave like a list of keys with values: look-ups, listings,
    additions, replacements and removals follow the specification below, whatever fails
    around them. *)

From S2P Require Import Prelude Xattr XattrProps.

Notation key := (Z * list Z)%type.
Notation attrs := (list (key * list Z)).

(** ** The specification *)

Inductive xattr_op :=
  | GetAttr (ipage : bool) (k : key) (buffer : option Z)
  | SetAttr (ipage : bool) (k : key) (value : option (list Z)) (create replace : bool)
  | ListAttrs (buffer : bool) (size : Z).
Inductive xattr_result := RError (e : xattr_error) | RDone | RValue (size : Z) (v : option (list Z)).

Fixpoint attr_of (k : key) (L : attrs) : option (list Z) := match L with [] => None | (j, v) :: L => if decide (j = k) then Some v else attr_of k L end.
Definition drop_attr (k : key) (L : attrs) : attrs := filter (fun a => a.1 <> k) L.
Definition get_result (L : attrs) (k : key) (buffer : option Z) : xattr_result :=
  match attr_of k L with
  | None => RError ENODATA
  | Some v => match buffer with None => RValue (lenZ v) None | Some n => if n <? lenZ v then RError ERANGE else RValue (lenZ v) (Some v) end
  end.
(** [room] is the size of both areas together. *)
Definition set_result (room : Z) (L : attrs) (k : key) (value : option (list Z)) (create replace : bool) : xattr_result * attrs :=
  let size := match value with Some v => lenZ v | None => 0 end in
  if room - header_size - entry_size <? size then (RError E2BIG, L)
  else
    match attr_of k L with
    | Some w =>
        if create then (RError EEXIST, L)
        else
          match value with
          | None => (RDone, drop_attr k L)
          | Some v => if decide (w = v) then (RDone, L) else if room <? header_size + sizes (drop_attr k L) + esize (k, v) then (RError E2BIG, L) else (RDone, drop_attr k L ++ [(k, v)])
          end
    | None =>
        if replace then (RError ENODATA, L)
        else
          match value with
          | None => (RDone, L)
          | Some v => if room <? header_size + sizes L + esize (k, v) then (RError E2BIG, L) else (RDone, L ++ [(k, v)])
          end
    end.
(** The names of a listing, each with its prefix and a zero. *)
Definition listed (prefix : Z -> option (list Z)) (L : attrs) : list Z := concat ((fun a => match prefix a.1.1 with None => [] | Some pre => pre ++ a.1.2 ++ [0] end) <$> L).
Definition list_result (prefix : Z -> option (list Z)) (L : attrs) (buffer : bool) (size : Z) : xattr_result :=
  let names := listed prefix L in
  if buffer then if size <? lenZ names then RError ERANGE else RValue (lenZ names) (Some names) else RValue (lenZ names) None.

Section system.
Context `{XattrFormat} (prefix : Z -> option (list Z)).
Implicit Types (x : xattr_inode) (L : attrs).

Definition result_of (r : xattr_error + Z * option (list Z)) : xattr_result := match r with inl e => RError e | inr (n, v) => RValue n v end.
Definition xattr_step (env : xattr_env) (o : xattr_op) x : option (xattr_inode * xattr_result) :=
  match o with
  | GetAttr ipage k buffer => '(x, r) ← f2fs_getxattr env x ipage k.1 (Some k.2) buffer; Some (x, result_of r)
  | SetAttr ipage k value create replace => '(x, r) ← f2fs_setxattr env x ipage k.1 (Some k.2) value create replace; Some (x, match r with None => RDone | Some e => RError e end)
  | ListAttrs buffer size => '(x, r) ← f2fs_listxattr env x prefix buffer size; Some (x, result_of r)
  end.
Definition long_name (o : xattr_op) : bool := match o with GetAttr _ k _ | SetAttr _ k _ _ _ => F2FS_NAME_LEN <? lenZ k.2 | ListAttrs _ _ => false end.
(** An error of the environment changes nothing; otherwise the result is that of the list. *)
Definition xattr_spec (env : xattr_env) (room : Z) (o : xattr_op) L (r : xattr_result) L' : Prop :=
  (exists e, r = RError e /\ reported env e /\ L' = L) \/
  if long_name o then r = RError ERANGE /\ L' = L
  else match o with
       | GetAttr _ k buffer => r = get_result L k buffer /\ L' = L
       | SetAttr _ k value create replace => (r, L') = set_result room L k value create replace
       | ListAttrs buffer size => r = list_result prefix L buffer size /\ L' = L
       end.
(** Conditions on the arguments: the index is one of a kind of attributes, a buffer has a
    size. *)
Definition op_ok (o : xattr_op) : Prop := match o with GetAttr _ k _ => True | SetAttr _ k _ _ _ => 1 <= k.1 < 256 | ListAttrs _ size => 0 <= size < 2 ^ 64 end.

Record kept x x' : Prop := {
  kp_inline : has_inline_xattr x' = has_inline_xattr x; kp_size : i_inline_xattr_size x' = i_inline_xattr_size x; kp_nids : x_prealloc x' = x_prealloc x
}.
Lemma kept_refl x : kept x x.
Proof. by constructor. Qed.
Lemma kept_room x x' : kept x x' -> MIN_OFFSET x' = MIN_OFFSET x.
Proof. intros [E1 E2 _]. unfold MIN_OFFSET, inline_xattr_size. by rewrite E1, E2. Qed.

(** ** Keys *)

Lemma attr_of_none k L : k ∉ L.*1 -> attr_of k L = None /\ drop_attr k L = L.
Proof.
  induction L as [|[j w] L IH]; intros Hk; [done|]. cbn in Hk. destruct IH as [I1 I2]; [set_solver|]. split; [cbn; by rewrite decide_False by set_solver|]. unfold drop_attr. rewrite filter_cons_True by (cbn; set_solver). f_equal. exact I2.
Qed.
Lemma attr_of_some k L1 v L2 : ok_list (L1 ++ (k, v) :: L2) -> k ∉ L1.*1 -> attr_of k (L1 ++ (k, v) :: L2) = Some v /\ drop_attr k (L1 ++ (k, v) :: L2) = L1 ++ L2.
Proof.
  intros [_ Hn] Hk. rewrite fmap_app in Hn. cbn in Hn. apply list.NoDup_app in Hn as (_ & _ & Hn). apply list.NoDup_cons in Hn as [Hn _]. split.
  - clear Hn. induction L1 as [|[j w] L1 IH]; cbn; [by rewrite decide_True|]. cbn in Hk. rewrite decide_False by set_solver. apply IH. set_solver.
  - unfold drop_attr. rewrite list.filter_app, filter_cons_False by (cbn; tauto). f_equal; [by apply attr_of_none|by apply attr_of_none].
Qed.
Lemma ok_drop L1 a L2 : ok_list (L1 ++ a :: L2) -> ok_list (L1 ++ L2) /\ a.1 ∉ (L1 ++ L2).*1 /\ attr_ok a.
Proof.
  intros [Ho Hn]. apply Forall_app in Ho as [Ho1 Ho2]. apply list.Forall_cons in Ho2 as [Ha Ho2]. rewrite fmap_app, fmap_cons in Hn. apply list.NoDup_app in Hn as (N1 & N2 & N3). apply list.NoDup_cons in N3 as [N3 N4]. split; [split; [by apply Forall_app|rewrite fmap_app; apply list.NoDup_app; split; [done|]; split; [set_solver|done]]|]. split; [rewrite fmap_app; set_solver|done].
Qed.
Lemma ok_add L a : ok_list L -> attr_ok a -> a.1 ∉ L.*1 -> ok_list (L ++ [a]).
Proof. intros [Ho Hn] Ha Hk. split; [apply Forall_app; split; [done|by constructor]|]. rewrite fmap_app. cbn. apply list.NoDup_app. split; [done|]. split; [set_solver|apply list.NoDup_singleton]. Qed.

(** ** Look-ups *)

Lemma get_follows env x L ipage k buffer : xwf x L -> exists r, xattr_step env (GetAttr ipage k buffer) x = Some (x, r) /\ xattr_spec env (MIN_OFFSET x) (GetAttr ipage k buffer) L r L.
Proof.
  intros Hw. cbn [xattr_step]. unfold f2fs_getxattr. destruct (F2FS_NAME_LEN <? lenZ k.2) eqn:En; [cbn; eexists; split; [done|]; right; cbn; by rewrite En|].
  destruct (lookup_ok env x k L Hw ipage) as (r & -> & Hr). cbn [mbind option_bind]. destruct Hr as [(e & -> & He)|[[Hk ->]|(L1 & v & L2 & buf & q & size & -> & Hk & -> & Eq & Hv & Hs)]].
  - cbn. eexists. split; [done|]. left. eauto.
  - cbn. eexists. split; [done|]. right. cbn. rewrite En. unfold get_result. by rewrite (proj1 (attr_of_none k L Hk)).
  - rewrite Eq. cbn [mbind option_bind e_value_size e_name_len entry_of fst snd]. destruct (attr_of_some k L1 v L2 (xw_list _ _ Hw) Hk) as [Ea _]. destruct buffer as [n|]; [destruct (n <? lenZ v) eqn:Eb; [|destruct (Z.ltb_spec (size - (q + entry_size + lenZ k.2)) (lenZ v)); [lia|]; rewrite Hv; cbn [mbind option_bind]]|]; cbn [mbind option_bind]; (eexists; split; [done|]; right; cbn; rewrite En; unfold get_result; rewrite Ea, ?Eb; done).
Qed.

(** ** Listings *)

Lemma list_loop_ok last L : Forall attr_ok L -> forall fuel buf p rest out, holds buf p last L -> p + sizes L <= last -> (length L < fuel)%nat -> 0 <= rest < 2 ^ 64 ->
  list_loop fuel prefix buf last p rest out =
    match out with
    | None => Some (inr (u64 (rest - lenZ (listed prefix L)), None))
    | Some o => Some (if rest <? lenZ (listed prefix L) then inl ERANGE else inr (rest - lenZ (listed prefix L), Some (o ++ listed prefix L)))
    end.
Proof.
  intros Hok. induction Hok as [|a L Ha Hok IH]; intros [|fuel] buf p rest out Hb Hl Hf Hr; try (cbn in Hf; lia); cbn [list_loop].
  - destruct (holds_nil buf p last Hb) as (e & -> & He). cbn [mbind option_bind]. rewrite He. change (listed prefix []) with ([] : list Z). change (lenZ []) with 0. destruct out as [o|]; [|by rewrite Z.sub_0_r, u64_small]. destruct (Z.ltb_spec rest 0); [lia|]. by rewrite app_nil_r, Z.sub_0_r.
  - cbn in Hl. fold (sizes L) in Hl. pose proof (esize_bounds a). pose proof (sizes_bounds L). rewrite (holds_cons buf p last a L Ha Hb) by lia. cbn [mbind option_bind]. rewrite (entry_not_last a Ha). change (ENTRY_SIZE (entry_of a)) with (esize a). replace (_ || _) with false by (symmetry; zbool; lia).
    destruct (holds_inside buf p last a L Hb ltac:(lia)) as (Hb' & Hn & _). cbn [e_name_index e_name_len entry_of]. assert (Hf' : (length L < fuel)%nat) by (cbn in Hf; lia). specialize (IH fuel buf (p + esize a)). unfold listed. cbn [fmap list_fmap concat]. fold (listed prefix L). destruct (prefix a.1.1) as [pre|] eqn:Ep; [|cbn [app]; apply IH; done || lia].
    set (size := lenZ pre + lenZ a.1.2 + 1). assert (Esz : lenZ ((pre ++ a.1.2 ++ [0]) ++ listed prefix L) = size + lenZ (listed prefix L)) by (rewrite !length_app; cbn; unfold size; lia). rewrite Esz. destruct out as [o|].
    + destruct (Z.ltb_spec rest size); [destruct (Z.ltb_spec rest (size + lenZ (listed prefix L))); [done|lia]|]. rewrite Hn. cbn [mbind option_bind]. rewrite u64_small by lia. rewrite IH by (done || lia). destruct (Z.ltb_spec (rest - size) (lenZ (listed prefix L))), (Z.ltb_spec rest (size + lenZ (listed prefix L))); try lia; [done|]. do 3 f_equal; [lia|]. f_equal. by rewrite <-!app_assoc.
    + rewrite IH by (done || lia || apply u64_range). unfold u64. by rewrite Zminus_mod_idemp_l, Z.sub_add_distr.
Qed.
(** ** Changes *)

Lemma written_wf x x' L' hdr w a b : shape x -> kept x x' -> ok_list L' -> lenZ hdr = header_size -> 4 <= w ->
  hdr ++ image L' ++ zeros (w - 4) = a ++ b -> lenZ a = inline_xattr_size x -> lenZ b = VALID_XATTR_BLOCK_SIZE -> inline_area x' = a ->
  (i_xattr_nid x' <> 0 /\ xattr_block x' = b) \/ (i_xattr_nid x' = 0 /\ header_size + sizes L' <= inline_xattr_size x) -> xwf x' L'.
Proof.
  intros Hs [K1 K2 K3] Ho Hh Hw E Ha Hb Ea Hor. assert (Ei : inline_xattr_size x' = inline_xattr_size x) by (unfold inline_xattr_size; by rewrite K1, K2). pose proof valid_block as [Hv _]. pose proof (inline_range x Hs). pose proof (image_len L') as Hl. constructor; [|done|right].
  - constructor; rewrite ?Ei, ?Ea, ?K3; try apply Hs; [done|]. intros Hn. destruct Hor as [[_ ->]|[? _]]; done.
  - unfold content. rewrite Ea. destruct Hor as [[Hn ->]|[Hn Hfit]].
    + rewrite (proj2 (Z.eqb_neq _ _) Hn). exists hdr, (w - 4). split; [done|]. split; [lia|done].
    + rewrite Hn. cbn. rewrite app_nil_r. exists hdr, (inline_xattr_size x - header_size - sizes L'). split; [done|]. split; [lia|]. assert (Et : take (Z.to_nat (inline_xattr_size x)) (a ++ b) = a) by (rewrite take_app_le by lia; apply firstn_all2; lia). rewrite <-Et, <-E.
      assert (Hw4 : lenZ (hdr ++ image L' ++ zeros (w - 4)) = inline_xattr_size x + VALID_XATTR_BLOCK_SIZE) by (rewrite E, length_app; lia). rewrite !length_app in Hw4. pose proof (zeros_len (w - 4)). rewrite take_app_ge by lia. f_equal. rewrite take_app_ge by lia. f_equal. rewrite <-(take_zeros (inline_xattr_size x - header_size - sizes L') (w - 4)) by lia. f_equal. lia.
Qed.
Lemma eta_prealloc x : with_areas x (inline_area x) (i_xattr_nid x) (xattr_block x) (x_prealloc x) = x.
Proof. by destruct x. Qed.
Lemma same_prealloc env x nid : fresh_nid env x -> free_nid env = Some nid -> nid_over (set_prealloc x ({[nid]} ∪ x_prealloc x)) nid = x.
Proof. intros Hf E. destruct (Hf nid E) as [_ Hn]. assert (Ep : ({[nid]} ∪ x_prealloc x) ∖ {[nid]} = x_prealloc x) by set_solver. unfold nid_over. cbn [x_prealloc set_prealloc with_areas]. rewrite Ep. exact (eta_prealloc x). Qed.
Lemma over_0 x : shape x -> nid_over x 0 = x.
Proof. intros Hs. unfold nid_over, set_prealloc. pose proof (sh_nids _ Hs). assert (Ep : x_prealloc x ∖ {[0]} = x_prealloc x) by set_solver. rewrite Ep. exact (eta_prealloc x). Qed.
Section store.
Context (env : xattr_env) (x : xattr_inode) (L' : attrs) (hdr : list Z) (w : Z).
Context (Hs : shape x) (Hnid : fresh_nid env x) (Ho : ok_list L') (Hh : lenZ hdr = header_size) (Hw : 4 <= w) (Hlen : header_size + sizes L' + w = inline_xattr_size x + VALID_XATTR_BLOCK_SIZE + 4).
Definition stored (res : option (xattr_inode * option xattr_error)) : Prop :=
  exists x' r, res = Some (x', r) /\ ((exists e, r = Some e /\ reported env e /\ x' = x) \/ (r = None /\ xwf x' L' /\ kept x x')).
Notation buf := (hdr ++ image L' ++ zeros w).
(** The buffer is the two areas and four bytes of padding. *)
Lemma buf_parts : exists a b, buf = a ++ b ++ zeros 4 /\ hdr ++ image L' ++ zeros (w - 4) = a ++ b /\ lenZ a = inline_xattr_size x /\ lenZ b = VALID_XATTR_BLOCK_SIZE.
Proof.
  set (A := hdr ++ image L' ++ zeros (w - 4)). pose proof (inline_range x Hs). pose proof valid_block as [Hv _]. assert (HA : lenZ A = inline_xattr_size x + VALID_XATTR_BLOCK_SIZE) by (unfold A; rewrite !length_app; pose proof (image_len L'); pose proof (zeros_len (w - 4)); lia).
  exists (take (Z.to_nat (inline_xattr_size x)) A), (drop (Z.to_nat (inline_xattr_size x)) A). split; [rewrite (app_assoc (take _ A)), take_drop; unfold A; rewrite <-!app_assoc, zeros_add by lia; do 3 f_equal; lia|]. split; [by rewrite take_drop|]. rewrite length_take, length_drop. lia.
Qed.

Lemma write_block_ok y nid : (y = x /\ nid = 0 /\ i_xattr_nid x <> 0) \/ (free_nid env = Some nid /\ y = set_prealloc x ({[nid]} ∪ x_prealloc x) /\ i_xattr_nid x = 0) -> stored (write_block env y nid buf).
Proof.
  intros Hy. destruct buf_parts as (a & b & Eb & Eab & Ha & Hb). rewrite Eb. unfold write_block.
  assert (Hstore : forall z n, kept x z -> inline_area z = inline_area x -> n <> 0 ->
    stored (inl ← if inline_xattr_size z =? 0 then Some (inline_area z) else bs ← rd (a ++ b ++ zeros 4) 0 (inline_xattr_size z); wr (inline_area z) 0 bs;
            blk ← rd (a ++ b ++ zeros 4) (inline_xattr_size z) VALID_XATTR_BLOCK_SIZE; Some (with_areas z inl n blk (x_prealloc z), None))).
  { intros z n Hk Ei Hn. assert (Ez : inline_xattr_size z = inline_xattr_size x) by (unfold inline_xattr_size; destruct Hk as [-> -> _]; done). rewrite Ez, Ei.
    assert (Einl : (if inline_xattr_size x =? 0 then Some (inline_area x) else bs ← rd (a ++ b ++ zeros 4) 0 (inline_xattr_size x); wr (inline_area x) 0 bs) = Some a).
    { pose proof (sh_area _ Hs) as Hx. destruct (Z.eqb_spec (inline_xattr_size x) 0) as [E0|E0]; [rewrite E0 in Ha, Hx; destruct a, (inline_area x); cbn in *; done || lia|]. rewrite (rd_start a) by done. cbn [mbind option_bind]. rewrite <-(app_nil_r (inline_area x)), wr_start by lia. by rewrite app_nil_r. }
    rewrite Einl. cbn [mbind option_bind]. rewrite (rd_at a b) by done. cbn [mbind option_bind]. eexists _, _. split; [done|]. right. split; [done|]. assert (Hk' : kept x (with_areas z a n b (x_prealloc z))) by (destruct Hk; by constructor). split; [|done]. apply (written_wf x _ L' hdr w a b); try done. by left. }
  destruct Hy as [(-> & -> & Hn)|(Ef & -> & Hn)].
  - rewrite (proj2 (Z.eqb_neq _ _) Hn). destruct (xattr_page env) as [e|] eqn:Ep; [|change (0 =? 0) with true; cbv iota; apply Hstore; [apply kept_refl|done|done]]. eexists _, _. split; [done|]. left. exists e. split; [done|]. split; [unfold reported; auto|by apply over_0].
  - destruct (Hnid nid Ef) as [Hn0 Hnn]. change (i_xattr_nid (set_prealloc x _)) with (i_xattr_nid x). rewrite Hn. change (0 =? 0) with true. cbv iota. destruct (new_node_page env) as [e|] eqn:Ep.
    + eexists _, _. split; [done|]. left. exists e. split; [done|]. split; [unfold reported; auto|by apply (same_prealloc env)].
    + apply Hstore; [|done|done]. constructor; [done|done|]. cbn. set_solver.
Qed.
Lemma write_all_ok ipage : stored (write_all_xattrs env x (header_size + sizes L') buf ipage).
Proof.
  pose proof (inline_range x Hs) as Hin. pose proof (sizes_bounds L') as [HsL _]. unfold write_all_xattrs.
  assert (Hgo : forall y nid, (y = x /\ nid = 0 /\ (i_xattr_nid x <> 0 \/ header_size + sizes L' <= inline_xattr_size x)) \/ (free_nid env = Some nid /\ y = set_prealloc x ({[nid]} ∪ x_prealloc x) /\ i_xattr_nid x = 0 /\ inline_xattr_size x < header_size + sizes L') ->
    stored (if inline_xattr_size x =? 0 then write_block env y nid buf
      else match if ipage then None else inode_page env with
      | Some e => Some (nid_over y nid, Some e)
      | None => if header_size + sizes L' <=? inline_xattr_size x then
          let '(y, err) := f2fs_truncate_xattr_node env y in
          let y := nid_over y nid in
          match err with Some e => Some (y, Some e) | None => bs ← rd buf 0 (inline_xattr_size x); a ← wr (inline_area y) 0 bs; Some (with_areas y a (i_xattr_nid y) (xattr_block y) (x_prealloc y), None) end
        else write_block env y nid buf
      end)).
  { intros y nid Hy. destruct (Z.eqb_spec (inline_xattr_size x) 0) as [E0|E0]; [apply write_block_ok; unfold header_size in *; destruct Hy as [(? & ? & [?|?])|(? & ? & ? & _)]; [by left|lia|by right]|].
    destruct (if ipage then None else inode_page env) as [e|] eqn:Ep.
    { eexists _, _. split; [done|]. left. exists e. split; [done|]. split; [destruct ipage; [done|]; unfold reported; auto|]. destruct Hy as [(-> & -> & _)|(Ef & -> & _)]; [by apply over_0|by apply (same_prealloc env)]. }
    destruct (Z.leb_spec (header_size + sizes L') (inline_xattr_size x)) as [Hle|Hgt]; [|apply write_block_ok; destruct Hy as [(? & ? & [?|?])|(? & ? & ? & _)]; [by left|lia|by right]]. destruct Hy as [(-> & -> & _)|(_ & _ & _ & ?)]; [|lia].
    destruct buf_parts as (a & b & Eb & Eab & Ha & Hb). rewrite Eb. assert (Hput : forall z, kept x z -> inline_area z = inline_area x -> i_xattr_nid z = 0 ->
      stored (bs ← rd (a ++ b ++ zeros 4) 0 (inline_xattr_size x); c ← wr (inline_area z) 0 bs; Some (with_areas z c (i_xattr_nid z) (xattr_block z) (x_prealloc z), None))).
    { intros z Hk Ei Hn. rewrite (rd_start a) by done. cbn [mbind option_bind]. rewrite Ei. rewrite <-(app_nil_r (inline_area x)), wr_start by (pose proof (sh_area _ Hs); lia). cbn [mbind option_bind]. rewrite app_nil_r. eexists _, _. split; [done|]. right. split; [done|]. assert (Hk' : kept x (with_areas z a (i_xattr_nid z) (xattr_block z) (x_prealloc z))) by (destruct Hk; by constructor). split; [|done]. apply (written_wf x _ L' hdr w a b); try done. by right. }
    unfold f2fs_truncate_xattr_node. destruct (Z.eqb_spec (i_xattr_nid x) 0) as [En|En]; [cbv zeta; rewrite over_0 by done; by apply Hput, En|]. destruct (xattr_page env) as [e|] eqn:Ex; [cbv zeta; rewrite over_0 by done; eexists _, _; split; [done|]; left; exists e; split; [done|]; split; [unfold reported; auto|done]|].
    destruct (truncate_node env) as [e|] eqn:Et; [cbv zeta; rewrite over_0 by done; eexists _, _; split; [done|]; left; exists e; split; [done|]; split; [unfold reported; tauto|done]|]. cbv zeta. apply Hput; [|done|done]. constructor; [done|done|]. cbn. pose proof (sh_nids _ Hs). set_solver. }
  destruct (Z.ltb_spec (inline_xattr_size x) (header_size + sizes L')) as [Hlt|Hge]; [destruct (Z.eqb_spec (i_xattr_nid x) 0) as [En|En]|]; cbn [andb].
  - destruct (free_nid env) as [nid|] eqn:Ef; [apply Hgo; right; done|]. eexists _, _. split; [done|]. left. exists ENOSPC. split; [done|]. split; [unfold reported; tauto|done].
  - apply Hgo. left. auto.
  - apply Hgo. left. split; [done|]. split; [done|]. by right.
Qed.
End store.
(** Flags and the mode do not matter. *)
Lemma flags_kept x y L e m a f c : xwf y L -> kept x y -> xwf (same (with_flags y e m a f c)) L /\ kept x (same (with_flags y e m a f c)).
Proof. intros [[S1 S2 S3 S4] Ho Hc] [K1 K2 K3]. unfold same. destruct (i_acl_mode _); (split; [|by constructor]); (constructor; [by constructor|done|exact Hc]). Qed.
Lemma same_kept x L : xwf x L -> xwf (same x) L /\ kept x (same x).
Proof. intros [[S1 S2 S3 S4] Ho Hc]. unfold same. destruct (i_acl_mode x); (split; [|by constructor]); (constructor; [by constructor|done|exact Hc]). Qed.

Section change.
Context (env : xattr_env) (x : xattr_inode) (ipage : bool) (k : key) (value : option (list Z)).
Context (Hs : shape x) (Hnid : fresh_nid env x) (Hk : 1 <= k.1 < 256) (Hname : lenZ k.2 <= F2FS_NAME_LEN) (Hval : match value with Some v => lenZ v < 2 ^ 16 | None => True end).
Definition changed (L' : attrs) (res : option (xattr_inode * option xattr_error)) : Prop :=
  exists x' r, res = Some (x', r) /\ ((exists e, r = Some e /\ reported env e /\ x' = x) \/ (r = None /\ xwf x' L' /\ kept x x')).
Definition with_value (M : attrs) : attrs := match value with Some v => M ++ [(k, v)] | None => M end.
(** Step 3 and what follows, on a list without [k]. *)
Lemma write_value M hdr w last newsize : ok_list M -> k ∉ M.*1 -> lenZ hdr = header_size -> 4 <= w -> header_size + sizes M + w = MIN_OFFSET x + 4 -> last = header_size + sizes M ->
  match value with Some v => newsize = esize (k, v) /\ esize (k, v) <= w - 4 | None => True end ->
  changed (with_value M) ('(buf, hsize) ← match value with Some v => buf ← write_new (hdr ++ image M ++ zeros w) last k.1 k.2 v; Some (buf, last + newsize) | None => Some (hdr ++ image M ++ zeros w, last) end;
    '(y, err) ← write_all_xattrs env x hsize buf ipage;
    match err with
    | Some e => Some (y, Some e)
    | None => Some (same (with_flags y (encrypted y || ((k.1 =? XATTR_INDEX_ENCRYPTION) && bool_decide (k.2 = ENCRYPTION_CONTEXT))) (i_mode y) (i_acl_mode y) (x_need_fsck y) (x_need_cp y || is_dir y)), None)
    end).
Proof.
  intros Ho Hn Hh Hw Hlen -> Hfit. pose proof (min_offset x) as Hmin. pose proof (sizes_bounds M).
  assert (Hbuf : exists w', 4 <= w' /\ ok_list (with_value M) /\ header_size + sizes (with_value M) + w' = inline_xattr_size x + VALID_XATTR_BLOCK_SIZE + 4 /\
    (match value with Some v => buf ← write_new (hdr ++ image M ++ zeros w) (header_size + sizes M) k.1 k.2 v; Some (buf, header_size + sizes M + newsize) | None => Some (hdr ++ image M ++ zeros w, header_size + sizes M) end) = Some (hdr ++ image (with_value M) ++ zeros w', header_size + sizes (with_value M))).
  { unfold with_value. destruct value as [v|]; [|exists w; split; [done|]; split; [done|]; split; [lia|done]]. destruct Hfit as [-> Hfit]. assert (Ha : attr_ok (k, v)) by done. exists (w - esize (k, v)). split; [lia|]. split; [by apply ok_add|]. rewrite sizes_app. cbn [sizes foldr]. split; [lia|].
    pose proof (write_new_ok (hdr ++ image M) (k, v) w [] (header_size + sizes M) Ha) as Hnew. rewrite !app_nil_r in Hnew. cbn [fst snd] in Hnew. rewrite (app_assoc hdr), Hnew; [|rewrite length_app; pose proof (image_len M); lia|lia]. cbn [mbind option_bind]. rewrite image_app. change (image [(k, v)]) with (enc (k, v) ++ []). rewrite app_nil_r, <-!app_assoc. do 2 f_equal. lia. }
  destruct Hbuf as (w' & Hw' & Ho' & Hlen' & ->). cbn [mbind option_bind]. destruct (write_all_ok env x (with_value M) hdr w' Hs Hnid Ho' Hh Hw' Hlen' ipage) as (y & r & -> & Hr). cbn [mbind option_bind]. destruct Hr as [(e & -> & He & ->)|(-> & Hy & Hky)]; eexists _, _; (split; [done|]); [left; eauto|right]. split; [done|]. by apply flags_kept.
Qed.
End change.

(** What becomes of an entry that is set. *)
Section entry.
Context (env : xattr_env) (x : xattr_inode) (L : attrs) (ipage : bool) (k : key) (value : option (list Z)) (create replace : bool) (hdr : list Z).
Context (Hw : xwf x L) (Hnid : fresh_nid env x) (Hk : 1 <= k.1 < 256) (Hname : lenZ k.2 <= F2FS_NAME_LEN) (Hh : lenZ hdr = header_size).
Notation size := (match value with Some v => lenZ v | None => 0 end).
Context (Hmax : size <= MIN_OFFSET x - header_size - entry_size).
Notation newsize := (XATTR_ALIGN (entry_size + lenZ k.2 + size)).
Definition sets (res : option (xattr_inode * option xattr_error)) : Prop :=
  exists y r, res = Some (y, r) /\ ((exists e, r = Some e /\ reported env e /\ y = x) \/
    exists L', (match r with None => RDone | Some e => RError e end, L') = set_result (MIN_OFFSET x) L k value create replace /\ xwf y L' /\ kept x y).
Notation z := (MIN_OFFSET x - header_size - sizes L + 4).
Notation buf := (hdr ++ image L ++ zeros z).
Lemma set_refused e : set_result (MIN_OFFSET x) L k value create replace = (RError e, L) -> sets (Some (x, Some e)).
Proof. intros E. eexists _, _. split; [done|]. right. exists L. split; [done|]. split; [done|apply kept_refl]. Qed.
Lemma room_z : 4 <= z.
Proof. pose proof (wf_fits x L Hw) as [Hf _]. pose proof (size_range x (xw_shape _ _ Hw)) as [Hz _]. pose proof (min_offset x). pose proof valid_block as [Hv _]. pose proof (inline_range x (xw_shape _ _ Hw)). destruct Hf as [->|?]; [cbn; unfold header_size; lia|lia]. Qed.
Lemma value_fits : match value with Some v => lenZ v < 2 ^ 16 | None => True end.
Proof. pose proof (min_offset x). pose proof valid_block as [Hv _]. pose proof (inline_range x (xw_shape _ _ Hw)). destruct value; [unfold header_size, entry_size in *; lia|done]. Qed.
Lemma buf_holds : holds buf header_size (header_size + sizes L) L.
Proof. pose proof room_z. apply holds_buf; [done|lia]. Qed.
(** The stores, for a list [M] without [k] and the room [w]. *)
Lemma set_stored M w last : ok_list M -> k ∉ M.*1 -> 4 <= w -> header_size + sizes M + w = MIN_OFFSET x + 4 -> last = header_size + sizes M -> (match value with Some v => esize (k, v) <= w - 4 | None => True end) ->
  set_result (MIN_OFFSET x) L k value create replace = (RDone, with_value k value M) ->
  sets ('(buf, hsize) ← match value with Some v => buf ← write_new (hdr ++ image M ++ zeros w) last k.1 k.2 v; Some (buf, last + newsize) | None => Some (hdr ++ image M ++ zeros w, last) end;
    '(y, err) ← write_all_xattrs env x hsize buf ipage;
    match err with
    | Some e => Some (y, Some e)
    | None => Some (same (with_flags y (encrypted y || ((k.1 =? XATTR_INDEX_ENCRYPTION) && bool_decide (k.2 = ENCRYPTION_CONTEXT))) (i_mode y) (i_acl_mode y) (x_need_fsck y) (x_need_cp y || is_dir y)), None)
    end).
Proof.
  intros Ho Hn Hw4 Hlen Hlast Hfit Hres. destruct (write_value env x ipage k value (xw_shape _ _ Hw) Hnid Hk Hname value_fits M hdr w last newsize Ho Hn Hh Hw4 Hlen Hlast) as (y & r & -> & Hr); [by destruct value|]. eexists _, _. split; [done|]. destruct Hr as [?|(-> & Hy & Hky)]; [by left|right]. exists (with_value k value M). done.
Qed.
Lemma set_missing : k ∉ L.*1 -> sets (set_entry env x ipage k.1 k.2 value create replace buf (header_size + sizes L)).
Proof.
  intros Hnk. pose proof room_z as Hz. destruct (end_found buf (header_size + sizes L) L header_size buf_holds ltac:(lia)) as (e & Ee & He). unfold set_entry. rewrite Ee. cbn [mbind option_bind]. rewrite He. cbn [negb andb]. destruct (attr_of_none k L Hnk) as [Ea _].
  assert (Eres : set_result (MIN_OFFSET x) L k value create replace = if replace then (RError ENODATA, L) else match value with None => (RDone, L) | Some v => if MIN_OFFSET x <? header_size + sizes L + esize (k, v) then (RError E2BIG, L) else (RDone, L ++ [(k, v)]) end) by (unfold set_result; rewrite Ea; destruct (Z.ltb_spec (MIN_OFFSET x - header_size - entry_size) size); [lia|done]).
  replace (match value with Some v => Some false | None => Some false end) with (Some false) by (by destruct value). cbn [mbind option_bind]. destruct replace eqn:Er; [apply set_refused; by rewrite Er, Eres|]. rewrite <-Er in Eres.
  assert (Elast : last_entry (S (length buf)) buf (header_size + sizes L) = Some (header_size + sizes L)) by (cbn [last_entry]; rewrite Ee; cbn [mbind option_bind]; by rewrite He). rewrite Elast. cbn [mbind option_bind]. rewrite Z.add_0_r. destruct (_ && (_ <? _)) eqn:Efull.
  - apply set_refused. rewrite Eres. destruct value as [v|]; [|done]. cbn [andb] in Efull. apply Z.ltb_lt in Efull. change (XATTR_ALIGN (entry_size + lenZ k.2 + lenZ v)) with (esize (k, v)) in Efull. destruct (Z.ltb_spec (MIN_OFFSET x) (header_size + sizes L + esize (k, v))); [done|lia].
  - assert (Hfit : match value with Some v => esize (k, v) <= z - 4 | None => True end) by (destruct value as [v|]; [|done]; cbn [andb] in Efull; apply Z.ltb_ge in Efull; change (XATTR_ALIGN (entry_size + lenZ k.2 + lenZ v)) with (esize (k, v)) in Efull; lia).
    apply set_stored; [apply Hw|done|done|lia|done|done|]. rewrite Eres. unfold with_value. destruct value as [v|]; [|done]. destruct (Z.ltb_spec (MIN_OFFSET x) (header_size + sizes L + esize (k, v))); [lia|done].
Qed.

Lemma set_found L1 v0 L2 : L = L1 ++ (k, v0) :: L2 -> k ∉ L1.*1 -> sets (set_entry env x ipage k.1 k.2 value create replace buf (header_size + sizes L1)).
Proof.
  intros EL Hnk. pose proof room_z as Hz. pose proof buf_holds as Hb. pose proof (xw_list _ _ Hw) as HoL. rewrite EL in HoL. destruct (ok_drop L1 (k, v0) L2 HoL) as (Ho12 & Hn12 & Ha0). cbn [fst] in Hn12. destruct (attr_of_some k L1 v0 L2 HoL Hnk) as [Ea Ed]. rewrite <-EL in Ea, Ed.
  assert (ESL : sizes L = sizes L1 + (esize (k, v0) + sizes L2)) by (rewrite EL, sizes_app; done). assert (ES12 : sizes (L1 ++ L2) = sizes L1 + sizes L2) by apply sizes_app. pose proof (sizes_bounds L1). pose proof (sizes_bounds L2). pose proof (esize_bounds (k, v0)).
  assert (Hb2 : holds buf header_size (header_size + sizes L) (L1 ++ (k, v0) :: L2)) by (by rewrite <-EL). destruct (entry_found buf (header_size + sizes L) L1 k v0 L2 header_size (proj1 HoL) Hb2) as (Ee & Hrd & _); [lia|]. unfold set_entry. rewrite Ee. cbn [mbind option_bind]. rewrite (entry_not_last _ Ha0). cbn [negb andb].
  assert (Eres : set_result (MIN_OFFSET x) L k value create replace = if create then (RError EEXIST, L) else match value with None => (RDone, L1 ++ L2) | Some v => if decide (v0 = v) then (RDone, L) else if MIN_OFFSET x <? header_size + sizes (L1 ++ L2) + esize (k, v) then (RError E2BIG, L) else (RDone, (L1 ++ L2) ++ [(k, v)]) end) by (unfold set_result; rewrite Ea, Ed; destruct (Z.ltb_spec (MIN_OFFSET x - header_size - entry_size) size); [lia|done]).
  destruct create eqn:Ec; [apply set_refused; by rewrite Ec, Eres|]. rewrite <-Ec in Eres.
  assert (Esame : match value with Some v => f2fs_xattr_value_same buf (header_size + sizes L1) (entry_of (k, v0)) v | None => Some false end = Some (match value with Some v => bool_decide (v0 = v) | None => false end)).
  { destruct value as [v|]; [|done]. unfold f2fs_xattr_value_same. cbn [e_value_size e_name_len entry_of fst snd]. destruct (Z.eqb_spec (lenZ v0) (lenZ v)) as [El|El]; [rewrite <-El, Hrd; done|]. rewrite bool_decide_eq_false_2; [done|]. by intros ->. }
  rewrite Esame. cbn [mbind option_bind]. destruct (match value with Some v => bool_decide (v0 = v) | None => false end) eqn:Eb.
  { eexists _, _. split; [done|]. right. exists L. destruct (same_kept x L Hw). split; [|done]. rewrite Eres. destruct value as [v|]; [|done]. apply bool_decide_eq_true in Eb. by rewrite decide_True. }
  assert (Hb3 : holds buf (header_size + sizes L1) (header_size + sizes L) ((k, v0) :: L2)) by (apply holds_skip; [lia|done]). rewrite (last_entry_ok ((k, v0) :: L2) (proj2 (proj1 (Forall_app _ _ _) (proj1 HoL))) _ buf _ _ Hb3); [|cbn [sizes foldr]; fold (sizes L2); lia|apply (holds_more _ _ _ _ Hb3); cbn [sizes foldr]; fold (sizes L2); lia].
  cbn [mbind option_bind]. change (sizes ((k, v0) :: L2)) with (esize (k, v0) + sizes L2). change (ENTRY_SIZE (entry_of (k, v0))) with (esize (k, v0)). replace (header_size + sizes L1 + (esize (k, v0) + sizes L2)) with (header_size + sizes L) by lia. destruct (_ && (_ <? _)) eqn:Efull.
  - apply set_refused. rewrite Eres. destruct value as [v|]; [|done]. cbn [andb] in Efull. apply Z.ltb_lt in Efull. change (XATTR_ALIGN (entry_size + lenZ k.2 + lenZ v)) with (esize (k, v)) in Efull. apply bool_decide_eq_false in Eb. rewrite decide_False by done. destruct (Z.ltb_spec (MIN_OFFSET x) (header_size + sizes (L1 ++ L2) + esize (k, v))); [done|lia].
  - assert (Erm : remove_entry buf (header_size + sizes L1) (header_size + sizes L) (entry_of (k, v0)) = Some (hdr ++ image (L1 ++ L2) ++ zeros (esize (k, v0) + z), header_size + sizes (L1 ++ L2))).
    { pose proof (remove_ok (hdr ++ image L1) (k, v0) L2 z (header_size + sizes L1)) as Hrm. replace (header_size + sizes L1 + esize (k, v0) + sizes L2) with (header_size + sizes L) in Hrm by lia. rewrite <-!app_assoc in Hrm. rewrite EL at 1. rewrite image_app. change (image ((k, v0) :: L2)) with (enc (k, v0) ++ image L2). rewrite <-!app_assoc. rewrite Hrm by (rewrite length_app; pose proof (image_len L1); lia). rewrite image_app, <-!app_assoc, zeros_add by lia. do 2 f_equal. lia. }
    rewrite Erm. cbn [mbind option_bind]. assert (Hfit : match value with Some v => esize (k, v) <= esize (k, v0) + z - 4 | None => True end) by (destruct value as [v|]; [|done]; cbn [andb] in Efull; apply Z.ltb_ge in Efull; change (XATTR_ALIGN (entry_size + lenZ k.2 + lenZ v)) with (esize (k, v)) in Efull; lia).
    apply set_stored; [done|done|lia|lia|done|done|]. rewrite Eres. unfold with_value. destruct value as [v|]; [|done]. apply bool_decide_eq_false in Eb. rewrite decide_False by done. destruct (Z.ltb_spec (MIN_OFFSET x) (header_size + sizes (L1 ++ L2) + esize (k, v))); [lia|done].
Qed.
Lemma set_search : sets (xe ← __find_xattr buf 0 (XATTR_SIZE x) k.1 k.2; match xe with None => Some (mark_fsck x, Some EFSCORRUPTED) | Some here => set_entry env x ipage k.1 k.2 value create replace buf here end).
Proof.
  pose proof (wf_fits x L Hw) as [Hf _]. pose proof (size_range x (xw_shape _ _ Hw)) as [Hz Hzm]. pose proof (min_offset x) as Hmin. destruct (find_wf hdr L z (XATTR_SIZE x) k (xw_list _ _ Hw) Hh room_z Hzm) as (p & -> & Hp); [destruct Hf; [by right|left; lia]|]. cbn [mbind option_bind]. destruct Hp as [[Hnk ->]|(L1 & v0 & L2 & EL & Hnk & ->)]; [by apply set_missing|by apply (set_found L1 v0 L2)].
Qed.
End entry.

Lemma set_follows env x L ipage k value create replace : xwf x L -> 1 <= k.1 < 256 -> fresh_nid env x ->
  exists x' r L', xattr_step env (SetAttr ipage k value create replace) x = Some (x', r) /\ xattr_spec env (MIN_OFFSET x) (SetAttr ipage k value create replace) L r L' /\ xwf x' L' /\ kept x x'.
Proof.
  intros Hw Hk Hnid. cbn [xattr_step]. set (P := fun res : option (xattr_inode * option xattr_error) => exists x' r L', ('(x, r) ← res; Some (x, match r with None => RDone | Some e => RError e end)) = Some (x', r) /\ xattr_spec env (MIN_OFFSET x) (SetAttr ipage k value create replace) L r L' /\ xwf x' L' /\ kept x x').
  assert (Hrep : forall e, reported env e -> P (Some (x, Some e))) by (intros e He; exists x, (RError e), L; split; [done|]; split; [left; eauto|]; split; [done|apply kept_refl]). change (P (f2fs_setxattr env x ipage k.1 (Some k.2) value create replace)).
  unfold f2fs_setxattr. destruct (x_cp_error env) eqn:E1; [apply Hrep; unfold reported; tauto|]. destruct (checkpoint_ready env) eqn:E2; cbn [negb]; [|apply Hrep; unfold reported; tauto]. destruct (dquot_error env) as [e|] eqn:E3; [apply Hrep; unfold reported; tauto|]. unfold __f2fs_setxattr, MAX_VALUE_LEN.
  destruct (F2FS_NAME_LEN <? lenZ k.2) eqn:En; [exists x, (RError ERANGE), L; split; [done|]; split; [right; cbn; by rewrite En|]; split; [done|apply kept_refl]|].
  assert (Hsets : forall res, sets env x L k value create replace res -> P res).
  { intros res (y & r & -> & [(e & -> & He & ->)|(L' & Hr & Hy & Hky)]); [by apply Hrep|]. exists y, (match r with None => RDone | Some e => RError e end), L'. split; [done|]. split; [right; cbn [long_name]; by rewrite En|done]. }
  destruct (Z.ltb_spec (MIN_OFFSET x - header_size - entry_size) (match value with Some v => lenZ v | None => 0 end)) as [Hm|Hm].
  - apply Hsets, set_refused; [done|]. unfold set_result. destruct (Z.ltb_spec (MIN_OFFSET x - header_size - entry_size) (match value with Some v => lenZ v | None => 0 end)); [done|lia].
  - destruct (read_all_wf env x ipage L Hw) as [(e & -> & He)|(hdr & Hh & ->)]; cbn [mbind option_bind]; [by apply Hrep|]. apply Hsets, set_search; try done. by apply Z.ltb_ge in En.
Qed.

(** ** Listings and histories *)

Hypothesis short_prefix : forall i pre, prefix i = Some pre -> lenZ pre <= 256.
Lemma listed_len L : Forall attr_ok L -> 0 <= lenZ (listed prefix L) <= 128 * sizes L.
Proof.
  pose proof name_len_fits. intros Ho. induction Ho as [|a L (_ & Ha & _) Ho IH]; [done|]. unfold listed. cbn [fmap list_fmap concat sizes foldr]. fold (listed prefix L) (sizes L). rewrite length_app. pose proof (esize_bounds a) as (H1 & H2 & _). destruct (prefix a.1.1) as [pre|] eqn:Ep; [|cbn; lia]. apply short_prefix in Ep. rewrite !length_app. cbn [length]. lia.
Qed.
Lemma list_follows env x L buffer size : xwf x L -> op_ok (ListAttrs buffer size) -> exists r, xattr_step env (ListAttrs buffer size) x = Some (x, r) /\ xattr_spec env (MIN_OFFSET x) (ListAttrs buffer size) L r L.
Proof.
  intros Hw Hsz. cbn in Hsz. pose proof (xw_shape _ _ Hw) as Hs. destruct (xw_list _ _ Hw) as [Ho _]. pose proof (wf_fits x L Hw) as [Hf _]. pose proof (size_range x Hs) as [Hz _]. pose proof (inline_range x Hs). pose proof valid_block as [Hv _]. pose proof (min_offset x) as Hmin. pose proof (listed_len L Ho) as Hll. cbn [xattr_step]. unfold f2fs_listxattr.
  destruct (read_all_wf env x false L Hw) as [(e & -> & He)|(hdr & Hh & ->)]; cbn [mbind option_bind]; [eexists; split; [done|]; left; eauto|].
  set (buf := hdr ++ image L ++ _). assert (El : list_loop (S (length buf)) prefix buf (XATTR_SIZE x) header_size size (if buffer then Some [] else None) = match (if buffer then Some [] else None) with
    | None => Some (inr (u64 (size - lenZ (listed prefix L)), None))
    | Some o => Some (if size <? lenZ (listed prefix L) then inl ERANGE else inr (size - lenZ (listed prefix L), Some (o ++ listed prefix L))) end).
  { destruct (decide (L = [])) as [->|Hne].
    - rewrite <-(list_loop_ok header_size [] ltac:(constructor) (S (length buf)) buf header_size size); [|unfold buf; apply holds_buf; [done|cbn; unfold header_size; lia]|cbn; lia|cbn; lia|done]. cbn [list_loop]. destruct (holds_nil buf header_size header_size) as (e & -> & He); [unfold buf; apply holds_buf; [done|cbn; unfold header_size; lia]|]. cbn [mbind option_bind]. by rewrite He.
    - destruct Hf as [?|Hf]; [done|]. assert (Hb : holds buf header_size (XATTR_SIZE x) L) by (unfold buf; apply holds_buf; [done|lia]). apply list_loop_ok; try done. apply (holds_more _ header_size (XATTR_SIZE x)); [done|lia]. }
  rewrite El. assert (Hsm : lenZ (listed prefix L) < 2 ^ 64) by (destruct Hf as [->|]; [done|lia]). destruct buffer; cbn [mbind option_bind].
  - destruct (size <? lenZ (listed prefix L)) eqn:Es; cbn [mbind option_bind]; eexists; (split; [done|]); right; cbn; unfold list_result; rewrite Es; [done|]. split; [|done]. replace (size - (size - lenZ (listed prefix L))) with (lenZ (listed prefix L)) by lia. rewrite u64_small by lia. done.
  - eexists. split; [done|]. right. cbn. split; [|done]. unfold list_result. f_equal. unfold u64. rewrite Zminus_mod_idemp_r. replace (size - (size - lenZ (listed prefix L))) with (lenZ (listed prefix L)) by lia. apply Z.mod_small. lia.
Qed.


Lemma xattr_step_follows env x L o : xwf x L -> op_ok o -> fresh_nid env x ->
  exists x' r L', xattr_step env o x = Some (x', r) /\ xattr_spec env (MIN_OFFSET x) o L r L' /\ xwf x' L' /\ kept x x'.
Proof.
  intros Hw Ho Hf. destruct o as [ipage k buffer|ipage k value create replace|buffer size].
  - destruct (get_follows env x L ipage k buffer Hw) as (r & E & Hr). exists x, r, L. split; [done|]. split; [done|]. split; [done|apply kept_refl].
  - by apply set_follows.
  - destruct (list_follows env x L buffer size Hw Ho) as (r & E & Hr). exists x, r, L. split; [done|]. split; [done|]. split; [done|apply kept_refl].
Qed.
(** Each operation has an environment of its own. *)
Fixpoint xattr_run (ops : list (xattr_env * xattr_op)) x : option (xattr_inode * list xattr_result) :=
  match ops with
  | [] => Some (x, [])
  | (env, o) :: ops => '(x, r) ← xattr_step env o x; '(x, rs) ← xattr_run ops x; Some (x, r :: rs)
  end.
Fixpoint spec_run (room : Z) (ops : list (xattr_env * xattr_op)) L (rs : list xattr_result) L' : Prop :=
  match ops, rs with
  | [], [] => L' = L
  | (env, o) :: ops, r :: rs => exists L1, xattr_spec env room o L r L1 /\ spec_run room ops L1 rs L'
  | _, _ => False
  end.
(** C8: In every history of look-ups, listings, additions, replacements and removals of
    extended attributes, on an inode whose areas hold a list of attributes, every call
    returns, each result is the one the list gives (the value, the names in order, an error
    for a missing or existing attribute, for a name that is too long, for a value or list
    that does not fit), an error of the device or of memory changes nothing, and the areas
    hold the new list afterwards; node ids that were taken are used or given back. *)
Theorem xattr_history_refines ops x L : xwf x L -> (forall env o, (env, o) ∈ ops -> op_ok o /\ fresh_nid env x) ->
  exists x' rs L', xattr_run ops x = Some (x', rs) /\ spec_run (MIN_OFFSET x) ops L rs L' /\ xwf x' L' /\ kept x x'.
Proof.
  revert x L. induction ops as [|[env o] ops IH]; intros x L Hw Hok; [by exists x, [], L|]. destruct (Hok env o ltac:(set_solver)) as [Ho Hf]. destruct (xattr_step_follows env x L o Hw Ho Hf) as (x1 & r & L1 & E & Hr & Hw1 & Hk1). cbn [xattr_run]. rewrite E. cbn [mbind option_bind].
  destruct (IH x1 L1 Hw1) as (x' & rs & L' & -> & Hrs & Hw' & Hk'). { intros env' o' Hin. destruct (Hok env' o' ltac:(set_solver)) as [? Hf']. split; [done|]. intros nid E'. rewrite (kp_nids _ _ Hk1). by apply Hf'. }
  cbn [mbind option_bind]. eexists _, _, L'. split; [done|]. split; [exists L1; split; [done|by rewrite <-(kept_room x x1)]|]. split; [done|]. destruct Hk1, Hk'. constructor; congruence.
Qed.

(** ** Blocks with any content *)

(** The areas have their sizes and consist of bytes. *)
Record raw_inode x : Prop := {
  rw_shape : shape x; rw_inline : Forall (fun b => 0 <= b < 256) (inline_area x); rw_block : Forall (fun b => 0 <= b < 256) (xattr_block x)
}.
Definition bytes_ok (buf : list Z) : Prop := Forall (fun b => 0 <= b < 256) buf.
Lemma entry_bytes buf p : bytes_ok buf -> 0 <= p -> p + 4 <= lenZ buf -> exists e, entry_at buf p = Some e /\ 0 <= e_name_len e /\ 0 <= e_value_size e.
Proof.
  intros Hb Hp Hl. unfold entry_at, rd, entry_size. replace (_ && _) with true by (symmetry; zbool; lia). cbn [mbind option_bind]. eexists. split; [done|]. cbn.
  assert (Hpos : forall l, bytes_ok l -> 0 <= le_val l) by (intros l Hl'; induction Hl'; cbn [le_val]; lia). unfold get_le. split; apply Hpos; unfold bytes_ok in *; by repeat (apply Forall_take || apply Forall_drop).
Qed.
Lemma entry_forward e : 0 <= e_name_len e -> 0 <= e_value_size e -> entry_size + e_name_len e + e_value_size e <= ENTRY_SIZE e /\ 4 <= ENTRY_SIZE e.
Proof. intros. unfold ENTRY_SIZE. pose proof (align_bounds (entry_size + e_name_len e + e_value_size e)). unfold entry_size in *. lia. Qed.
Lemma walk_safe buf last index name : bytes_ok buf -> last + 4 <= lenZ buf -> forall fuel p, 0 <= p -> p + 4 <= lenZ buf -> lenZ buf - p < Z.of_nat fuel ->
  exists w, walk_xattrs fuel buf last index name p = Some w /\ match w with Found q | Last q | Crossed q => 0 <= q /\ q + 4 <= lenZ buf end.
Proof.
  intros Hb Hlast. induction fuel as [|fuel IH]; intros p Hp Hl Hf; [lia|]. cbn [walk_xattrs]. destruct (entry_bytes buf p Hb Hp Hl) as (e & -> & H1 & H2). cbn [mbind option_bind]. destruct (entry_forward e H1 H2) as [Hs H4]. destruct (IS_XATTR_LAST_ENTRY e); [by eexists|]. destruct (Z.ltb_spec last (p + 4)) as [?|Hp4]; cbn [orb]; [by eexists|]. destruct (Z.ltb_spec last (p + ENTRY_SIZE e)) as [?|Hpn]; [by eexists|].
  specialize (IH (p + ENTRY_SIZE e) ltac:(lia) ltac:(lia) ltac:(lia)). unfold entry_size in *. destruct (negb (e_name_index e =? index)); [done|]. destruct (negb (e_name_len e =? lenZ name)); [done|]. destruct (rd_some buf (p + 4) (e_name_len e)) as (n & -> & _); [lia..|]. cbn [mbind option_bind]. destruct (decide (n = name)); [by eexists|done].
Qed.
Lemma list_safe buf last : bytes_ok buf -> last + 4 <= lenZ buf -> forall fuel p rest out, 0 <= p -> p + 4 <= lenZ buf -> lenZ buf - p < Z.of_nat fuel -> is_Some (list_loop fuel prefix buf last p rest out).
Proof.
  intros Hb Hlast. induction fuel as [|fuel IH]; intros p rest out Hp Hl Hf; [lia|]. cbn [list_loop]. destruct (entry_bytes buf p Hb Hp Hl) as (e & -> & H1 & H2). cbn [mbind option_bind]. destruct (entry_forward e H1 H2) as [Hs H4]. destruct (IS_XATTR_LAST_ENTRY e); [by eexists|]. destruct (Z.ltb_spec last (p + 4)) as [?|Hp4]; cbn [orb]; [by eexists|]. destruct (Z.ltb_spec last (p + ENTRY_SIZE e)) as [?|Hpn]; [by eexists|].
  assert (Hgo : forall rest out, is_Some (list_loop fuel prefix buf last (p + ENTRY_SIZE e) rest out)) by (intros; apply IH; lia). destruct (prefix (e_name_index e)) as [pre|]; [|done]. destruct out as [o|]; [|done]. destruct (_ <? _); [by eexists|]. unfold entry_size in *. destruct (rd_some buf (p + 4) (e_name_len e)) as (n & -> & _); [lia..|]. cbn [mbind option_bind]. apply Hgo.
Qed.
Lemma zeros_bytes n : bytes_ok (zeros n).
Proof. apply Forall_replicate. lia. Qed.
Lemma content_bytes x n : raw_inode x -> bytes_ok (content x ++ zeros n).
Proof. intros [Hs Hi Hb]. apply Forall_app. split; [|apply zeros_bytes]. apply Forall_app. split; [done|]. by destruct (_ =? 0). Qed.

Section raw.
Context (env : xattr_env) (x : xattr_inode) (Hx : raw_inode x) (index : Z) (name : list Z).
(** A result whose entry and value lie in its buffer. *)
Definition inside (res : option (xattr_inode * (xattr_error + list Z * Z * Z))) : Prop :=
  exists y r, res = Some (y, r) /\ match r with inl _ => True | inr (buf, p, size) => bytes_ok buf /\ 0 <= p /\ p + 4 <= lenZ buf /\ size <= lenZ buf end.
Lemma check_inside buf p size : bytes_ok buf -> 0 <= p -> p + 4 <= lenZ buf -> size <= lenZ buf ->
  inside (e ← entry_at buf p; if IS_XATTR_LAST_ENTRY e then Some (x, inl ENODATA) else Some (x, inr (buf, p, size))).
Proof. intros Hb Hp Hl Hs. destruct (entry_bytes buf p Hb Hp Hl) as (e & -> & _). cbn [mbind option_bind]. destruct (IS_XATTR_LAST_ENTRY e); by eexists _, _. Qed.
Lemma find_inside buf last p (cont : Z -> option (xattr_inode * (xattr_error + list Z * Z * Z))) : bytes_ok buf -> last + 4 <= lenZ buf -> 0 <= p -> p + 4 <= lenZ buf -> (forall q, 0 <= q -> q + 4 <= lenZ buf -> inside (cont q)) ->
  inside (xe ← __find_xattr buf (p - header_size) last index name; match xe with None => Some (mark_fsck x, inl EFSCORRUPTED) | Some q => cont q end).
Proof.
  intros Hb Hl Hp Hpl Hc. unfold __find_xattr. replace (p - header_size + header_size) with p by lia. destruct (walk_safe buf last index name Hb Hl (S (length buf)) p Hp Hpl ltac:(lia)) as (w & -> & Hw). cbn [mbind option_bind]. destruct w; cbn [mbind option_bind]; [apply Hc; lia|apply Hc; lia|by eexists _, _].
Qed.
Lemma outside_inside p : 0 <= p <= XATTR_SIZE x \/ p = header_size -> XATTR_SIZE x >= header_size ->
  inside (r ← read_block env x (inline_area x ++ zeros (XATTR_SIZE x + 4 - inline_xattr_size x));
    match r with
    | inl e => Some (x, inl e)
    | inr buf => xe ← __find_xattr buf (p - header_size) (XATTR_SIZE x) index name;
        match xe with None => Some (mark_fsck x, inl EFSCORRUPTED) | Some q => e ← entry_at buf q; if IS_XATTR_LAST_ENTRY e then Some (x, inl ENODATA) else Some (x, inr (buf, q, XATTR_SIZE x + 4)) end
    end).
Proof.
  intros Hp Hge. pose proof (rw_shape _ Hx) as Hs. pose proof (size_range x Hs) as [Hz _]. unfold header_size in *. destruct (read_block_ok env x (XATTR_SIZE x + 4 - inline_xattr_size x) Hs) as [(e & -> & _)|E].
  { unfold XATTR_SIZE. destruct (Z.eqb_spec (i_xattr_nid x) 0); [right; split; [done|lia]|left; pose proof (sh_inline _ Hs); lia]. }
  { by eexists _, _. }
  rewrite E. cbn [mbind option_bind]. replace (_ + inline_xattr_size x - XATTR_SIZE x) with 4 by lia. set (buf := content x ++ zeros 4). assert (Hl : lenZ buf = XATTR_SIZE x + 4) by (unfold buf; rewrite length_app; pose proof (content_len x Hs); change (length (zeros 4)) with 4%nat; lia).
  assert (Hb : bytes_ok buf) by by apply content_bytes. apply (find_inside buf (XATTR_SIZE x) p); [done|lia..|]. intros q Hq Hql. apply check_inside; try done. lia.
Qed.
Lemma lookup_inside ipage : inside (lookup_all_xattrs env x ipage index name).
Proof.
  pose proof (rw_shape _ Hx) as Hs. pose proof (size_range x Hs) as [Hz _]. pose proof (inline_range x Hs). pose proof valid_block as [Hv _]. unfold lookup_all_xattrs. destruct (Z.eqb_spec (inline_xattr_size x) 0) as [Ei|Ei].
  - rewrite andb_true_r. destruct (Z.eqb_spec (i_xattr_nid x) 0) as [En|En]; [by eexists _, _|]. destruct (kzalloc_ok env); cbn [negb]; [|by eexists _, _]. assert (Hge : XATTR_SIZE x >= header_size) by (unfold XATTR_SIZE, header_size; destruct (Z.eqb_spec (i_xattr_nid x) 0); [done|lia]).
    pose proof (outside_inside header_size ltac:(by right) Hge) as Hout. pose proof (sh_area _ Hs) as Ha. rewrite Ei in Ha. destruct (inline_area x) eqn:Ea; [|cbn in Ha; lia]. rewrite Ei, Z.sub_0_r in Hout. exact Hout.
  - rewrite andb_false_r. destruct (kzalloc_ok env); cbn [negb]; [|by eexists _, _]. destruct (sh_inline _ Hs) as [?|Hin]; [done|]. assert (Hge : XATTR_SIZE x >= header_size) by lia. destruct (read_inline_ok env x ipage (XATTR_SIZE x + 4) Hs) as [(e & E & _)|E]; [lia|..]; unfold read_inline in E; rewrite (proj2 (Z.eqb_neq _ _) Ei) in E; rewrite E; cbn [mbind option_bind]; [by eexists _, _|].
    set (buf := inline_area x ++ zeros (XATTR_SIZE x + 4 - inline_xattr_size x)). assert (Hl : lenZ buf = XATTR_SIZE x + 4) by (unfold buf; rewrite length_app; pose proof (sh_area _ Hs); pose proof (zeros_len (XATTR_SIZE x + 4 - inline_xattr_size x)); lia). assert (Hb : bytes_ok buf) by (apply Forall_app; split; [apply Hx|apply zeros_bytes]).
    unfold __find_inline_xattr. destruct (walk_safe buf (inline_xattr_size x) index name Hb ltac:(lia) (S (length buf)) header_size ltac:(done) ltac:(unfold header_size in *; lia) ltac:(unfold header_size; lia)) as (w & -> & Hw). cbn [mbind option_bind]. destruct w as [q|q|q]; [apply check_inside; try done; lia| |apply (outside_inside q); [left; lia|done]].
    destruct (_ <? _); [apply (outside_inside q); [left; lia|done]|apply check_inside; try done; lia].
Qed.
End raw.

(** C29: Whatever the areas of an inode contain, a look-up and a listing of extended attributes
    return: no access lies outside the buffer the areas are copied into, whatever entries
    claim about their lengths, as long as the area in the inode has room for a header. *)
Theorem xattr_reads_inside env x ipage index name buffer b size : raw_inode x ->
  is_Some (f2fs_getxattr env x ipage index name buffer) /\ is_Some (f2fs_listxattr env x prefix b size).
Proof.
  intros Hx. pose proof (rw_shape _ Hx) as Hs. pose proof (size_range x Hs) as [Hz _]. pose proof (inline_range x Hs). pose proof valid_block as [Hv _]. split.
  - unfold f2fs_getxattr. destruct name as [name|]; [|done]. destruct (_ <? _); [done|]. destruct (lookup_inside env x Hx index name ipage) as (y & r & -> & Hr). cbn [mbind option_bind]. destruct r as [e|[[buf p] base]]; [done|]. destruct Hr as (Hb & Hp & Hl & Hbs). destruct (entry_bytes buf p Hb Hp Hl) as (e & -> & H1 & H2). cbn [mbind option_bind].
    destruct buffer as [n|]; [|done]. destruct (_ <? _); [done|]. destruct (Z.ltb_spec (base - (p + entry_size + e_name_len e)) (e_value_size e)); [done|]. unfold entry_size in *. destruct (rd_some buf (p + 4 + e_name_len e) (e_value_size e)) as (v & -> & _); [lia..|]. done.
  - unfold f2fs_listxattr. destruct (read_all_ok env x false Hs) as [(e & -> & _)|(h8 & h8' & Hl8 & H8 & Hh & rest & E & Er)]; [done|]. assert (Hbytes : bytes_ok (h8' ++ rest) /\ lenZ (h8' ++ rest) = inline_xattr_size x + VALID_XATTR_BLOCK_SIZE + 4).
    { assert (Hbc : bytes_ok (h8 ++ rest)) by (rewrite <-E; by apply content_bytes). apply Forall_app in Hbc as [Hb8 Hbr]. split; [apply Forall_app; split; [destruct Hh as [->| ->]; [done|]|done]; repeat (constructor; [vm_compute; by split|]); constructor|].
      rewrite length_app, Hl8, <-length_app, <-E, length_app. pose proof (content_len x Hs). pose proof (zeros_len (inline_xattr_size x + VALID_XATTR_BLOCK_SIZE + 4 - XATTR_SIZE x)). lia. }
    rewrite Er. cbn [mbind option_bind]. destruct Hbytes as [Hb Hl]. assert (Hls : XATTR_SIZE x + 4 <= lenZ (h8' ++ rest)) by lia. destruct (list_safe (h8' ++ rest) (XATTR_SIZE x) Hb Hls (S (length (h8' ++ rest))) header_size size (if b then Some [] else None)) as [r ->]; [done|unfold header_size; lia|unfold header_size; lia|]. cbn [mbind option_bind]. by destruct r as [[]|[]].
Qed.

(** C40: The condition of the area having room for a header matters, and the mount does not
    check it: [sanity_check_inode] accepts an area of one to five words.  Whatever such an
    area contains, without an attribute block every look-up of a named attribute reads its
    first entry behind the buffer. *)
Theorem small_area_reads_outside env x ipage index name buffer : has_inline_xattr x = true -> 1 <= i_inline_xattr_size x <= 5 -> lenZ (inline_area x) = inline_xattr_size x -> i_xattr_nid x = 0 ->
  kzalloc_ok env = true -> ipage = true \/ inode_page env = None -> lenZ name <= F2FS_NAME_LEN -> f2fs_getxattr env x ipage index (Some name) buffer = None.
Proof.
  intros Hin Hsz Hl Hnid Hk Hp Hn. assert (Hs : inline_xattr_size x = i_inline_xattr_size x * 4) by (unfold inline_xattr_size; by rewrite Hin). unfold f2fs_getxattr. destruct (Z.ltb_spec F2FS_NAME_LEN (lenZ name)); [lia|].
  unfold lookup_all_xattrs. rewrite Hk. destruct (Z.eqb_spec (inline_xattr_size x) 0); [lia|]. rewrite andb_false_r. cbn [negb]. unfold read_inline_xattr.
  assert (Hpage : (if ipage then None else inode_page env) = None) by (destruct ipage; [done|by destruct Hp]). rewrite Hpage. destruct (rd_some (inline_area x) 0 (inline_xattr_size x)) as (bs & -> & Hbs); [lia..|]. cbn [mbind option_bind].
  assert (Hx : XATTR_SIZE x = inline_xattr_size x) by (unfold XATTR_SIZE; by rewrite Hnid). rewrite Hx. pose proof (zeros_len (inline_xattr_size x + 4) ltac:(lia)) as Hz. destruct (wr (zeros (inline_xattr_size x + 4)) 0 bs) as [buf|] eqn:Ew; [|done]. cbn [mbind option_bind].
  assert (Hb : lenZ buf = inline_xattr_size x + 4) by (rewrite <-Hz; by apply (wr_length _ _ _ _ Ew)). unfold __find_inline_xattr. cbn [walk_xattrs]. unfold entry_at, rd. destruct (Z.leb_spec (header_size + entry_size) (lenZ buf)); [unfold header_size, entry_size in *; lia|]. by rewrite andb_false_r.
Qed.
End system.
