(* ===== verification/DentryBlock.v ===== *)
(** * Dentry blocks (dir.c, f2fs.h)

    A block of directory entries: a bitmap of slots, an entry per slot and the
    bytes of the names.  A name takes as many consecutive slots as its bytes
    need; only the entry of the first of them is used.  The same layout is used
    for the entries inside an inode ([make_dentry_ptr_inline]), with another
    number of slots. *)

From S2P Require Import Prelude.

(** What linux/f2fs_fs.h provides: the length of a slot, the number of slots of
    a name, the longest name, the slots of a block, the file types, and the
    bounds of the hash levels. *)
Class DirFormat := {
  F2FS_SLOT_LEN : nat; GET_DENTRY_SLOTS : Z -> Z; F2FS_NAME_LEN : Z; NR_DENTRY_IN_BLOCK : nat;
  MAX_DIR_HASH_DEPTH : Z; MAX_DIR_BUCKETS : Z;
  FT_REG_FILE : Z; FT_DIR : Z; FT_CHRDEV : Z; FT_BLKDEV : Z; FT_FIFO : Z; FT_SOCK : Z; FT_SYMLINK : Z; FT_MAX : Z;
  dentry_slots_law : forall n, 0 <= n ->
    Z.of_nat F2FS_SLOT_LEN * (GET_DENTRY_SLOTS n - 1) < n <= Z.of_nat F2FS_SLOT_LEN * GET_DENTRY_SLOTS n;
  slot_len_pos : (2 <= F2FS_SLOT_LEN)%nat;
  name_len_range : 2 <= F2FS_NAME_LEN < 2 ^ 16;
  nr_dentry_name : GET_DENTRY_SLOTS F2FS_NAME_LEN <= Z.of_nat NR_DENTRY_IN_BLOCK;
  nr_dentry_dots : (2 <= NR_DENTRY_IN_BLOCK)%nat;
  hash_depth_range : 4 <= MAX_DIR_HASH_DEPTH <= 63;
  dir_buckets_law : MAX_DIR_BUCKETS = 2 ^ (MAX_DIR_HASH_DEPTH / 2 - 1);
  file_types : Forall (fun t => 0 < t < FT_MAX) [FT_REG_FILE; FT_DIR; FT_CHRDEV; FT_BLKDEV; FT_FIFO; FT_SOCK; FT_SYMLINK]
            /\ NoDup [FT_REG_FILE; FT_DIR; FT_CHRDEV; FT_BLKDEV; FT_FIFO; FT_SOCK; FT_SYMLINK] /\ FT_MAX <= 2 ^ 8
}.

(** [struct f2fs_dir_entry]. *)
Record f2fs_dir_entry := { hash_code : Z; de_ino : Z; name_len : Z; file_type : Z }.

(** [struct f2fs_dentry_ptr] with the memory it points to; [filename] are the
    bytes of all slots in order. *)
Record f2fs_dentry_ptr := { bitmap : list bool; dentry : list f2fs_dir_entry; filename : list Z; dmax : nat }.

Definition zero_de : f2fs_dir_entry := {| hash_code := 0; de_ino := 0; name_len := 0; file_type := 0 |}.
Definition set_name_len (de : f2fs_dir_entry) (n : Z) : f2fs_dir_entry :=
  {| hash_code := hash_code de; de_ino := de_ino de; name_len := n; file_type := file_type de |}.

(** ** Bitmaps *)

Definition test_bit_le (p : nat) (bm : list bool) : bool := default false (bm !! p).

(** [find_next_bit_le] ([v] true) and [find_next_zero_bit_le] ([v] false). *)
Fixpoint scan_bits (v : bool) (bm : list bool) (n i : nat) : nat :=
  match n with
  | O => i
  | S n => if Bool.eqb (test_bit_le i bm) v then i else scan_bits v bm n (S i)
  end.
Definition find_next (v : bool) (bm : list bool) (size start : nat) : nat :=
  if (size <=? start)%nat then size else scan_bits v bm (size - start) start.
Definition find_next_bit_le : list bool -> nat -> nat -> nat := find_next true.
Definition find_next_zero_bit_le : list bool -> nat -> nat -> nat := find_next false.

(** [__set_bit_le] and [__clear_bit_le]; outside the bitmap they corrupt memory. *)
Definition set_bit (v : bool) (p : nat) (bm : list bool) : option (list bool) :=
  if (p <? length bm)%nat then Some (<[p:=v]> bm) else None.

(** [f2fs_room_for_filename]; an iteration moves [bit_start] ahead, so [max_slots]
    iterations suffice. *)
Fixpoint room_loop (fuel : nat) (bm : list bool) (slots max_slots bit_start : nat) : nat :=
  match fuel with
  | O => max_slots
  | S fuel =>
      let zero_start := find_next_zero_bit_le bm max_slots bit_start in
      if (max_slots <=? zero_start)%nat then max_slots
      else
        let zero_end := find_next_bit_le bm max_slots zero_start in
        if (slots <=? zero_end - zero_start)%nat then zero_start
        else if (max_slots <=? zero_end + 1)%nat then max_slots
        else room_loop fuel bm slots max_slots (zero_end + 1)
  end.
Definition f2fs_room_for_filename (bm : list bool) (slots max_slots : nat) : nat :=
  room_loop (S max_slots) bm slots max_slots 0.

(** ** File types *)

Definition S_SHIFT : Z := 12.
Definition S_IFMT : Z := 61440. (* 00170000 *)
Definition DT_UNKNOWN : Z := 0.

Section block.
Context `{DirFormat}.

(** [f2fs_type_by_mode] and [f2fs_filetype_table]: the pairs of a directory entry
    type and the file type bits of a mode, which are the DT_ values. *)
Definition type_table : list (Z * Z) :=
  [(8, FT_REG_FILE); (4, FT_DIR); (2, FT_CHRDEV); (6, FT_BLKDEV); (1, FT_FIFO); (12, FT_SOCK); (10, FT_SYMLINK)].
Definition f2fs_type_by_mode (t : Z) : Z :=
  match list_find (fun e => e.1 = t) type_table with Some (_, e) => e.2 | None => 0 end.
Definition f2fs_filetype_table (ft : Z) : Z :=
  match list_find (fun e => e.2 = ft) type_table with Some (_, e) => e.1 | None => DT_UNKNOWN end.
Definition set_de_type (de : f2fs_dir_entry) (mode : Z) : f2fs_dir_entry :=
  {| hash_code := hash_code de; de_ino := de_ino de; name_len := name_len de;
     file_type := f2fs_type_by_mode (Z.shiftr (Z.land mode S_IFMT) S_SHIFT) |}.
Definition f2fs_get_de_type (de : f2fs_dir_entry) : Z :=
  if file_type de <? FT_MAX then f2fs_filetype_table (file_type de) else DT_UNKNOWN.

(** ** Operations on a block *)

(** A number of slots, as an index. *)
Definition dslots (len : Z) : nat := Z.to_nat (GET_DENTRY_SLOTS len).

(** A page of zeros as a block of [n] slots. *)
Definition zero_block (n : nat) : f2fs_dentry_ptr :=
  {| bitmap := replicate n false; dentry := replicate n zero_de; filename := replicate (n * F2FS_SLOT_LEN) 0; dmax := n |}.

(** [d->filename[pos]], [len] bytes; what lies behind the array is not modelled. *)
Definition de_name (d : f2fs_dentry_ptr) (pos : nat) (len : Z) : list Z :=
  take (Z.to_nat len) (drop (pos * F2FS_SLOT_LEN) (filename d)).

(** The loop of [f2fs_update_dentry] from slot [i] of the name on. *)
Fixpoint mark_slots (n i pos : nat) (d : f2fs_dentry_ptr) : option f2fs_dentry_ptr :=
  match n with
  | O => Some d
  | S n =>
      bm ← set_bit true (pos + i) (bitmap d);
      de ← dentry d !! (pos + i)%nat;
      let dl := if (i =? 0)%nat then dentry d else <[(pos + i)%nat := set_name_len de 0]> (dentry d) in
      mark_slots n (S i) pos {| bitmap := bm; dentry := dl; filename := filename d; dmax := dmax d |}
  end.

Definition f2fs_update_dentry (ino mode : Z) (d : f2fs_dentry_ptr) (name : list Z) (name_hash : Z) (bit_pos : nat) : option f2fs_dentry_ptr :=
  de ← dentry d !! bit_pos;
  if (length (filename d) <? bit_pos * F2FS_SLOT_LEN + length name)%nat then None
  else
    let de := {| hash_code := name_hash; de_ino := u32 ino; name_len := u16 (Z.of_nat (length name)); file_type := file_type de |} in
    mark_slots (dslots (Z.of_nat (length name))) 0 bit_pos
      {| bitmap := bitmap d; dentry := <[bit_pos := set_de_type de mode]> (dentry d);
         filename := list_inserts (bit_pos * F2FS_SLOT_LEN) name (filename d); dmax := dmax d |}.

(** The loops of [f2fs_delete_entry] and [f2fs_delete_inline_entry]. *)
Fixpoint clear_slots (n pos : nat) (bm : list bool) : option (list bool) :=
  match n with
  | O => Some bm
  | S n => bm ← set_bit false pos bm; clear_slots n (S pos) bm
  end.
Definition delete_slots (d : f2fs_dentry_ptr) (pos : nat) : option f2fs_dentry_ptr :=
  de ← dentry d !! pos;
  bm ← clear_slots (dslots (name_len de)) pos (bitmap d);
  Some {| bitmap := bm; dentry := dentry d; filename := filename d; dmax := dmax d |}.

(** ** [f2fs_find_target_dentry] *)

Section search.
(** The hash looked for, and [f2fs_match_name] for the name looked for: negative
    on an error, positive on a match. *)
Context (hash : Z) (match_name : list Z -> Z).

(** The loop: the error or the slot found, and [max_slots]. *)
Fixpoint find_target_loop (fuel : nat) (d : f2fs_dentry_ptr) (bit_pos max_len max_slots : nat) : option ((Z + option nat) * nat) :=
  match fuel with
  | O => None
  | S fuel =>
      if (dmax d <=? bit_pos)%nat then Some (inr None, Nat.max max_slots max_len)
      else if negb (test_bit_le bit_pos (bitmap d)) then find_target_loop fuel d (S bit_pos) (S max_len) max_slots
      else
        de ← dentry d !! bit_pos;
        if name_len de =? 0 then find_target_loop fuel d (S bit_pos) max_len max_slots
        else
          let res := if hash_code de =? hash then match_name (de_name d bit_pos (name_len de)) else 0 in
          if res <? 0 then Some (inl res, max_slots)
          else if 0 <? res then Some (inr (Some bit_pos), Nat.max max_slots max_len)
          else find_target_loop fuel d (bit_pos + dslots (name_len de)) 0 (Nat.max max_slots max_len)
  end.
Definition f2fs_find_target_dentry (d : f2fs_dentry_ptr) : option ((Z + option nat) * nat) :=
  find_target_loop (S (dmax d)) d 0 0 0.
End search.

(** ** [f2fs_fill_dentries] *)

(** What [dir_emit] passes on, and [struct dir_context] with the entries its
    actor has accepted. *)
Record dirent := { dn_name : list Z; dn_ino : Z; dn_type : Z }.
Record dir_context := { ctx_pos : Z; emitted : list dirent }.

Definition EFSCORRUPTED : Z := 117.

Section fill.
(** Whether the directory is encrypted, [fscrypt_fname_disk_to_usr] (an error or
    the user's name) and the actor, which sees what it got so far. *)
Context (encrypted : bool) (disk_to_usr : Z -> list Z -> Z + list Z) (actor : list dirent -> dirent -> bool).

Definition usr_name (hash : Z) (name : list Z) : Z + list Z := if encrypted then disk_to_usr hash name else inr name.

(** The loop: the error (1 when the actor is full), the context and [SBI_NEED_FSCK]. *)
Fixpoint fill_loop (fuel : nat) (d : f2fs_dentry_ptr) (start_pos : Z) (bit_pos : nat) (found_valid_dirent : bool)
    (ctx : dir_context) (fsck : bool) : option (Z * dir_context * bool) :=
  match fuel with
  | O => None
  | S fuel =>
      if (dmax d <=? bit_pos)%nat then Some (0, ctx, fsck)
      else
        let bit_pos := find_next_bit_le (bitmap d) (dmax d) bit_pos in
        if (dmax d <=? bit_pos)%nat then Some (0, ctx, fsck)
        else
          de ← dentry d !! bit_pos;
          if name_len de =? 0 then
            fill_loop fuel d start_pos (S bit_pos) found_valid_dirent
              {| ctx_pos := start_pos +! Z.of_nat (S bit_pos); emitted := emitted ctx |}
              (fsck || found_valid_dirent || (bit_pos =? 0)%nat)
          else
            let next := (bit_pos + dslots (name_len de))%nat in
            if (dmax d <? next)%nat || (F2FS_NAME_LEN <? name_len de) then Some (- EFSCORRUPTED, ctx, true)
            else
              match usr_name (hash_code de) (de_name d bit_pos (name_len de)) with
              | inl err => Some (err, ctx, fsck)
              | inr nm =>
                  let e := {| dn_name := nm; dn_ino := de_ino de; dn_type := f2fs_get_de_type de |} in
                  if actor (emitted ctx) e then
                    fill_loop fuel d start_pos next true
                      {| ctx_pos := start_pos +! Z.of_nat next; emitted := emitted ctx ++ [e] |} fsck
                  else Some (1, ctx, fsck)
              end
  end.
Definition f2fs_fill_dentries (ctx : dir_context) (d : f2fs_dentry_ptr) (start_pos : Z) (fsck : bool) : option (Z * dir_context * bool) :=
  fill_loop (S (dmax d)) d start_pos (Z.to_nat (ctx_pos ctx mod Z.of_nat (dmax d))) false ctx fsck.
End fill.

(** ** Entries of a block and its invariant *)

(** What an entry says: hash, name, inode number and file type. *)
Record dir_ent := { e_hash : Z; e_name : list Z; e_ino : Z; e_type : Z }.

(** Slot [p] starts an entry. *)
Definition has_entry (d : f2fs_dentry_ptr) (p : nat) (de : f2fs_dir_entry) : Prop :=
  test_bit_le p (bitmap d) = true /\ dentry d !! p = Some de /\ name_len de <> 0.

(** The entry that starts at a slot. *)
Definition entry_at (d : f2fs_dentry_ptr) (p : nat) : option dir_ent :=
  if test_bit_le p (bitmap d) then
    de ← dentry d !! p;
    if name_len de =? 0 then None
    else Some {| e_hash := hash_code de; e_name := de_name d p (name_len de); e_ino := de_ino de; e_type := file_type de |}
  else None.

(** Entries lie inside the block, the other slots of a name are in use and
    start no entry, and every slot in use belongs to an entry. *)
Record block_ok (d : f2fs_dentry_ptr) : Prop := {
  bok_bm : length (bitmap d) = dmax d;
  bok_de : length (dentry d) = dmax d;
  bok_fn : length (filename d) = (dmax d * F2FS_SLOT_LEN)%nat;
  bok_range : forall p de, has_entry d p de -> 0 < name_len de <= F2FS_NAME_LEN /\ (p + dslots (name_len de) <= dmax d)%nat;
  bok_inner : forall p de q, has_entry d p de -> (p < q < p + dslots (name_len de))%nat ->
    test_bit_le q (bitmap d) = true /\ exists de', dentry d !! q = Some de' /\ name_len de' = 0;
  bok_owner : forall q, test_bit_le q (bitmap d) = true -> exists p de, has_entry d p de /\ (p <= q < p + dslots (name_len de))%nat
}.

Lemma entry_at_has d p e : entry_at d p = Some e <->
  exists de, has_entry d p de /\ e = {| e_hash := hash_code de; e_name := de_name d p (name_len de); e_ino := de_ino de; e_type := file_type de |}.
Proof.
  unfold entry_at, has_entry. destruct (test_bit_le p (bitmap d)); [|naive_solver].
  destruct (dentry d !! p) as [de|]; cbn; [|naive_solver]. destruct (Z.eqb_spec (name_len de) 0); naive_solver.
Qed.

Lemma entry_at_None d p : entry_at d p = None <-> forall de, ~ has_entry d p de.
Proof.
  unfold entry_at, has_entry. destruct (test_bit_le p (bitmap d)); [|naive_solver].
  destruct (dentry d !! p) as [de|]; cbn; [|naive_solver]. destruct (Z.eqb_spec (name_len de) 0); naive_solver.
Qed.

(** *** Slots *)

Lemma dslots_bytes n : 0 <= n -> n <= Z.of_nat (dslots n * F2FS_SLOT_LEN).
Proof.
  intros Hn. pose proof (dentry_slots_law n Hn) as [_ Hl]. unfold dslots.
  destruct (decide (0 <= GET_DENTRY_SLOTS n)); [|nia]. rewrite Nat2Z.inj_mul, Z2Nat.id by lia. lia.
Qed.

Lemma dslots_pos n : 0 < n -> (0 < dslots n)%nat.
Proof. intros Hn. pose proof (dslots_bytes n). destruct (dslots n); lia. Qed.

Lemma dslots_le_mono n n' : 0 <= n -> n <= n' -> (dslots n <= dslots n')%nat.
Proof.
  intros Hn Hle. pose proof (dentry_slots_law n ltac:(lia)) as [Hlo _].
  pose proof (dentry_slots_law n' ltac:(lia)) as [_ Hhi]. pose proof slot_len_pos. unfold dslots. nia.
Qed.

(** The names [.] and [..] take one slot. *)
Lemma dslots_dots n : 0 < n <= 2 -> dslots n = 1%nat.
Proof.
  intros Hn. pose proof (dentry_slots_law n ltac:(lia)) as Hl. pose proof slot_len_pos. unfold dslots.
  assert (GET_DENTRY_SLOTS n = 1) as -> by nia. done.
Qed.

(** *** Bits *)

Lemma test_bit_insert p q v bm : (p < length bm)%nat ->
  test_bit_le q (<[p:=v]> bm) = if decide (q = p) then v else test_bit_le q bm.
Proof.
  intros Hp. unfold test_bit_le. destruct (decide (q = p)) as [->|Hne].
  - by rewrite list_lookup_insert_eq.
  - by rewrite list_lookup_insert_ne.
Qed.

Lemma test_bit_lt p bm : test_bit_le p bm = true -> (p < length bm)%nat.
Proof.
  unfold test_bit_le. destruct (bm !! p) eqn:E; [|done]. intros _. by apply lookup_lt_Some in E.
Qed.

Lemma scan_bits_spec v bm n i : let r := scan_bits v bm n i in
  (i <= r <= i + n)%nat /\ (forall q, (i <= q < r)%nat -> test_bit_le q bm = negb v) /\ ((r < i + n)%nat -> test_bit_le r bm = v).
Proof.
  revert i. induction n as [|n IH]; intros i; cbn; [split; [lia|]; split; intros; lia|].
  destruct (Bool.eqb (test_bit_le i bm) v) eqn:E.
  - apply Bool.eqb_prop in E. split; [lia|]. split; [intros; lia|done].
  - apply Bool.eqb_false_iff in E. destruct (IH (S i)) as (Hr & Hq & Hv).
    split; [lia|]. split; [|intros; apply Hv; lia]. intros q Hiq.
    destruct (decide (q = i)) as [->|]; [|apply Hq; lia]. by destruct (test_bit_le i bm), v.
Qed.

Lemma find_next_spec v bm size start : (start <= size)%nat -> let r := find_next v bm size start in
  (start <= r <= size)%nat /\ (forall q, (start <= q < r)%nat -> test_bit_le q bm = negb v) /\ ((r < size)%nat -> test_bit_le r bm = v).
Proof.
  intros Hs. unfold find_next. destruct (Nat.leb_spec size start).
  - split; [lia|]. split; intros; lia.
  - destruct (scan_bits_spec v bm (size - start) start) as (Hr & Hq & Hv).
    split; [lia|]. split; [done|]. intros; apply Hv; lia.
Qed.

(** A run of [n] free slots from [p] on. *)
Definition free_run (bm : list bool) (p n : nat) : Prop := forall q, (p <= q < p + n)%nat -> test_bit_le q bm = false.

Lemma room_loop_spec fuel bm slots m start : (0 < slots)%nat -> (start <= m)%nat -> (m < fuel + start)%nat ->
  (forall q, (q + slots <= m)%nat -> free_run bm q slots -> (start <= q)%nat) ->
  let r := room_loop fuel bm slots m start in
  (r < m -> r + slots <= m /\ free_run bm r slots)%nat /\ (r <= m)%nat /\
  (forall q, (q + slots <= m)%nat -> free_run bm q slots -> (r <= q /\ r < m)%nat).
Proof.
  intros Hsl. revert start. induction fuel as [|fuel IH]; intros start Hs Hf Hinv; [lia|]. cbn.
  destruct (find_next_spec false bm m start Hs) as (Hz & Hzs & Hz0). unfold find_next_zero_bit_le.
  set (zs := find_next false bm m start) in *.
  assert (Hge : forall q, (q + slots <= m)%nat -> free_run bm q slots -> (zs <= q)%nat).
  { intros q Hq Hrun. destruct (decide (zs <= q)%nat); [done|]. exfalso.
    specialize (Hzs q ltac:(specialize (Hinv q Hq Hrun); lia)). rewrite Hrun in Hzs by lia. done. }
  destruct (Nat.leb_spec m zs).
  { split; [lia|]. split; [lia|]. intros q Hq Hrun. specialize (Hge q Hq Hrun). lia. }
  destruct (find_next_spec true bm m zs ltac:(lia)) as (He & Hes & He0). unfold find_next_bit_le.
  set (ze := find_next true bm m zs) in *. cbn in Hes.
  destruct (Nat.leb_spec slots (ze - zs)).
  { split; [|split; [lia|intros q Hq Hrun; specialize (Hge q Hq Hrun); lia]].
    intros _. split; [lia|]. intros q Hq. apply Hes. lia. }
  assert (Hgt : forall q, (q + slots <= m)%nat -> free_run bm q slots -> (ze < q)%nat).
  { intros q Hq Hrun. specialize (Hge q Hq Hrun). destruct (decide (ze < q)%nat); [done|]. exfalso.
    specialize (Hrun ze ltac:(lia)). rewrite He0 in Hrun by lia. done. }
  destruct (Nat.leb_spec m (ze + 1)).
  { split; [lia|]. split; [lia|]. intros q Hq Hrun. specialize (Hgt q Hq Hrun). lia. }
  apply IH; [lia|lia|]. intros q Hq Hrun. specialize (Hgt q Hq Hrun). lia.
Qed.

(** The search for room is a first fit: it returns the first run of [slots] free
    slots, and [max_slots] only if there is none. *)
Lemma room_first_fit bm slots m : (0 < slots)%nat -> let r := f2fs_room_for_filename bm slots m in
  (r < m -> r + slots <= m /\ free_run bm r slots)%nat /\ (r <= m)%nat /\
  (forall q, (q + slots <= m)%nat -> free_run bm q slots -> (r <= q /\ r < m)%nat).
Proof. intros Hs. apply room_loop_spec; [done|lia|lia|]. intros; lia. Qed.

(** *** Insertion *)

(** The slots marked and the entries cleared behind the first. *)
Lemma mark_slots_spec n i pos d : (pos + i + n <= length (bitmap d))%nat -> length (dentry d) = length (bitmap d) ->
  exists d', mark_slots n i pos d = Some d' /\ filename d' = filename d /\ dmax d' = dmax d /\
    length (bitmap d') = length (bitmap d) /\ length (dentry d') = length (dentry d) /\
    (forall q, test_bit_le q (bitmap d') = if decide (pos + i <= q < pos + i + n)%nat then true else test_bit_le q (bitmap d)) /\
    (forall q, dentry d' !! q = if decide (pos + i <= q < pos + i + n /\ q <> pos)%nat
                               then (fun de => set_name_len de 0) <$> dentry d !! q else dentry d !! q).
Proof.
  revert i d. induction n as [|n IH]; intros i d Hl Hd; cbn.
  { exists d. conjs; try done; intros q; rewrite decide_False by lia; done. }
  unfold set_bit. destruct (Nat.ltb_spec (pos + i) (length (bitmap d))); [|lia]. cbn.
  destruct (lookup_lt_is_Some_2 (dentry d) (pos + i)) as [de Hde]; [lia|]. rewrite Hde. cbn.
  destruct (IH (S i) {| bitmap := <[(pos + i)%nat:=true]> (bitmap d);
     dentry := if (i =? 0)%nat then dentry d else <[(pos + i)%nat:=set_name_len de 0]> (dentry d); filename := filename d; dmax := dmax d |})
    as (d' & -> & Hf & Hm & Hlb & Hld & Hb & Hq); cbn.
  { rewrite length_insert. lia. }
  { rewrite length_insert. destruct (i =? 0)%nat; by rewrite ?length_insert. }
  cbn in *. exists d'. rewrite length_insert in Hlb. conjs; try done.
  - destruct (i =? 0)%nat; by rewrite ?length_insert in Hld.
  - intros q. rewrite Hb, test_bit_insert by done. repeat case_decide; try done; lia.
  - intros q. rewrite Hq. destruct (Nat.eqb_spec i 0) as [->|Hi].
    + repeat case_decide; try done; lia.
    + destruct (decide (q = (pos + i)%nat)) as [->|Hne].
      * rewrite decide_False, decide_True, list_lookup_insert_eq by lia. by rewrite Hde.
      * rewrite list_lookup_insert_ne by done. repeat case_decide; try done; lia.
Qed.

(** The bytes of a name are not touched by a store outside its slots. *)
Lemma de_name_inserts_ne d d' p pos name len : 0 <= len ->
  filename d' = list_inserts (pos * F2FS_SLOT_LEN) name (filename d) ->
  (p + dslots len <= pos \/ pos + dslots (Z.of_nat (length name)) <= p)%nat ->
  de_name d' p len = de_name d p len.
Proof.
  intros Hlen Hf Hdis. unfold de_name. rewrite Hf. pose proof (dslots_bytes len Hlen). pose proof (dslots_bytes (Z.of_nat (length name))).
  apply window_inserts_disjoint. destruct Hdis as [Hd|Hd]; apply (Nat.mul_le_mono_r _ _ F2FS_SLOT_LEN) in Hd; lia.
Qed.

Lemma de_name_inserts_eq d d' pos name : (pos * F2FS_SLOT_LEN + length name <= length (filename d))%nat ->
  filename d' = list_inserts (pos * F2FS_SLOT_LEN) name (filename d) ->
  de_name d' pos (Z.of_nat (length name)) = name.
Proof.
  intros Hl Hf. unfold de_name. rewrite Hf, Nat2Z.id, window_inserts_same by lia.
  rewrite drop_ge by (rewrite length_take; lia). apply app_nil_r.
Qed.

(** Two entries of a block do not overlap. *)
Lemma entries_apart d p de q de' : block_ok d -> has_entry d p de -> has_entry d q de' -> (p < q)%nat -> (p + dslots (name_len de) <= q)%nat.
Proof.
  intros Hok Hp Hq Hlt. destruct (decide (q < p + dslots (name_len de))%nat); [|lia].
  destruct (bok_inner d Hok p de q Hp ltac:(lia)) as (_ & de2 & Hd & Hz). destruct Hq as (_ & Hq & Hn). congruence.
Qed.

(** A slot in use belongs to a free run neither at its start nor inside. *)
Lemma entry_free_apart d p de pos n : block_ok d -> has_entry d p de -> free_run (bitmap d) pos n ->
  (p + dslots (name_len de) <= pos \/ pos + n <= p)%nat \/ n = 0%nat.
Proof.
  intros Hok Hp Hrun. destruct (decide (n = 0%nat)); [by right|left].
  destruct (decide (pos + n <= p)%nat); [by right|left].
  destruct (decide (p + dslots (name_len de) <= pos)%nat); [done|]. exfalso.
  pose proof (bok_range d Hok p de Hp) as [Hr _]. pose proof (dslots_pos (name_len de) ltac:(lia)).
  assert (Hset : forall q, (p <= q < p + dslots (name_len de))%nat -> test_bit_le q (bitmap d) = true).
  { intros q Hq. destruct (decide (q = p)) as [->|]; [by destruct Hp|]. by destruct (bok_inner d Hok p de q Hp ltac:(lia)). }
  pose proof (Hset (Nat.max p pos) ltac:(lia)) as H1. rewrite Hrun in H1 by lia. done.
Qed.

Definition new_ent (ino mode : Z) (name : list Z) (hash : Z) : dir_ent :=
  {| e_hash := hash; e_name := name; e_ino := u32 ino; e_type := f2fs_type_by_mode (Z.shiftr (Z.land mode S_IFMT) S_SHIFT) |}.

(** A name that fits the format. *)
Definition name_ok (name : list Z) : Prop := 0 < Z.of_nat (length name) <= F2FS_NAME_LEN.

Lemma update_dentry_has ino mode d name hash pos : block_ok d -> name_ok name ->
  (pos + dslots (Z.of_nat (length name)) <= dmax d)%nat -> free_run (bitmap d) pos (dslots (Z.of_nat (length name))) ->
  exists d' de, f2fs_update_dentry ino mode d name hash pos = Some d' /\ dmax d' = dmax d /\
    name_len de = Z.of_nat (length name) /\ hash_code de = hash /\ de_ino de = u32 ino /\ file_type de = e_type (new_ent ino mode name hash) /\
    filename d' = list_inserts (pos * F2FS_SLOT_LEN) name (filename d) /\
    length (bitmap d') = dmax d /\ length (dentry d') = dmax d /\
    (forall q, test_bit_le q (bitmap d') = true <-> (pos <= q < pos + dslots (Z.of_nat (length name)))%nat \/ test_bit_le q (bitmap d) = true) /\
    (forall q de', has_entry d' q de' <-> (q = pos /\ de' = de) \/ has_entry d q de') /\
    (forall q, (pos < q < pos + dslots (Z.of_nat (length name)))%nat -> exists de', dentry d' !! q = Some de' /\ name_len de' = 0) /\
    (forall q, (q < pos \/ pos + dslots (Z.of_nat (length name)) <= q)%nat -> dentry d' !! q = dentry d !! q).
Proof.
  intros Hok [Hn0 Hn] Hpos Hrun. pose proof name_len_range. pose proof (dslots_pos _ Hn0).
  pose proof (bok_bm d Hok) as Lb. pose proof (bok_de d Hok) as Ld.
  unfold f2fs_update_dentry. destruct (lookup_lt_is_Some_2 (dentry d) pos) as [de0 Hde0]; [lia|]. rewrite Hde0. cbn [mbind option_bind].
  destruct (Nat.ltb_spec (length (filename d)) (pos * F2FS_SLOT_LEN + length name)).
  { rewrite (bok_fn d Hok) in *. pose proof (dslots_bytes (Z.of_nat (length name))).
    apply (Nat.mul_le_mono_r _ _ F2FS_SLOT_LEN) in Hpos. lia. }
  set (de := set_de_type _ mode). edestruct (mark_slots_spec (dslots (Z.of_nat (length name))) 0 pos) as (d' & -> & Hf & Hm & Hlb & Hld & Hb & Hq);
    [| |exists d', de; cbn in *]; cbn; [lia|rewrite length_insert; lia|].
  rewrite length_insert in Hld. rewrite Nat.add_0_r in *. rewrite u16_small by lia. conjs; try done; try lia.
  - intros q. rewrite Hb. case_decide; naive_solver.
  - intros q de'. unfold has_entry. rewrite Hb, Hq. destruct (decide (q = pos)) as [->|Hne].
    + rewrite decide_True, decide_False, list_lookup_insert_eq by lia. rewrite Hrun by lia. subst de. cbn.
      split; [naive_solver|]. intros [[_ ->]|]; [|naive_solver]. conjs; try done. cbn. rewrite u16_small; lia.
    + rewrite list_lookup_insert_ne by done. destruct (decide (pos <= q < pos + dslots (Z.of_nat (length name)))%nat).
      * rewrite decide_True by lia. rewrite (Hrun q) by lia. split; [|naive_solver].
        intros (_ & Hd & Hnz). apply fmap_Some in Hd as (x & _ & ->). cbn in Hnz. done.
      * rewrite decide_False by lia. naive_solver.
  - intros q Hqq. rewrite Hq, decide_True, list_lookup_insert_ne by lia.
    destruct (lookup_lt_is_Some_2 (dentry d) q) as [x Hx]; [lia|]. rewrite Hx. cbn. eauto.
  - intros q Hqq. rewrite Hq, decide_False, list_lookup_insert_ne by lia. done.
Qed.

Lemma update_dentry_ok ino mode d name hash pos : block_ok d -> name_ok name ->
  (pos + dslots (Z.of_nat (length name)) <= dmax d)%nat -> free_run (bitmap d) pos (dslots (Z.of_nat (length name))) ->
  exists d', f2fs_update_dentry ino mode d name hash pos = Some d' /\ block_ok d' /\ dmax d' = dmax d /\
    forall q, entry_at d' q = if decide (q = pos) then Some (new_ent ino mode name hash) else entry_at d q.
Proof.
  intros Hok Hn Hpos Hrun. destruct (update_dentry_has ino mode d name hash pos Hok Hn Hpos Hrun)
    as (d' & de & E & Hm & Hlen & Hh & Hi & Ht & Hf & Lb & Ld & Hb & He & Hin & Hout).
  destruct Hn as [Hn0 Hn]. pose proof (dslots_pos _ Hn0).
  assert (Hap : forall p de', has_entry d p de' -> (p + dslots (name_len de') <= pos \/ pos + dslots (Z.of_nat (length name)) <= p)%nat).
  { intros p de' Hp. destruct (entry_free_apart d p de' pos _ Hok Hp Hrun); [done|lia]. }
  exists d'. split; [done|]. split; [|split; [done|]].
  - constructor; try lia.
    + rewrite Hf, length_inserts, (bok_fn d Hok). lia.
    + intros p de' [[-> ->]|Hp]%He; [rewrite Hlen; lia|]. rewrite Hm. by apply (bok_range d Hok).
    + intros p de' q [[-> ->]|Hp]%He Hq; rewrite Hb.
      * rewrite Hlen in Hq. split; [left; lia|apply Hin; lia].
      * destruct (bok_inner d Hok p de' q Hp Hq) as [H1 H2]. split; [by right|]. rewrite Hout; [done|].
        specialize (Hap p de' Hp). lia.
    + intros q [Hq|Hq]%Hb.
      * exists pos, de. split; [apply He; by left|]. rewrite Hlen. lia.
      * destruct (bok_owner d Hok q Hq) as (p & de' & Hp & Hr). exists p, de'. split; [apply He; by right|done].
  - intros q. destruct (decide (q = pos)) as [->|Hne].
    + apply entry_at_has. exists de. split; [apply He; by left|]. unfold new_ent. rewrite Hlen, Hh, Hi, Ht. cbn. f_equal.
      symmetry. apply (de_name_inserts_eq d); [|done]. rewrite (bok_fn d Hok).
      pose proof (dslots_bytes (Z.of_nat (length name))). apply (Nat.mul_le_mono_r _ _ F2FS_SLOT_LEN) in Hpos. lia.
    + destruct (entry_at d q) as [e|] eqn:Eq.
      * apply entry_at_has in Eq as (de' & Hq & ->). apply entry_at_has. exists de'. split; [apply He; by right|].
        f_equal. symmetry. apply (de_name_inserts_ne d d' q pos name); [|done|by apply Hap].
        pose proof (bok_range d Hok q de' Hq). lia.
      * rewrite entry_at_None in *. intros de' [[]|]%He; [done|]. by eapply Eq.
Qed.

(** *** Deletion *)

Lemma clear_slots_spec n pos bm : (pos + n <= length bm)%nat ->
  exists bm', clear_slots n pos bm = Some bm' /\ length bm' = length bm /\
    forall q, test_bit_le q bm' = if decide (pos <= q < pos + n)%nat then false else test_bit_le q bm.
Proof.
  revert pos bm. induction n as [|n IH]; intros pos bm Hl; cbn.
  { exists bm. conjs; try done. intros q. by rewrite decide_False by lia. }
  unfold set_bit. destruct (Nat.ltb_spec pos (length bm)); [|lia]. cbn.
  destruct (IH (S pos) (<[pos:=false]> bm)) as (bm' & -> & Hlb & Hb); [rewrite length_insert; lia|].
  exists bm'. rewrite length_insert in Hlb. conjs; try done. intros q. rewrite Hb, test_bit_insert by done.
  repeat case_decide; try done; lia.
Qed.

Lemma delete_slots_ok d pos e : block_ok d -> entry_at d pos = Some e ->
  exists d', delete_slots d pos = Some d' /\ block_ok d' /\ dmax d' = dmax d /\
    forall q, entry_at d' q = if decide (q = pos) then None else entry_at d q.
Proof.
  intros Hok (de & Hp & _)%entry_at_has. pose proof (bok_range d Hok pos de Hp) as [Hn Hr]. pose proof (dslots_pos (name_len de) ltac:(lia)).
  unfold delete_slots. destruct Hp as (Hbit & Hde & Hnz) eqn:EHp. rewrite Hde. cbn [mbind option_bind].
  destruct (clear_slots_spec (dslots (name_len de)) pos (bitmap d)) as (bm & -> & Lb & Hb); [rewrite (bok_bm d Hok); lia|].
  cbn [mbind option_bind]. eexists. split; [done|].
  set (d' := Build_f2fs_dentry_ptr bm (dentry d) (filename d) (dmax d)).
  assert (He : forall q de', has_entry d' q de' <-> q <> pos /\ has_entry d q de').
  { intros q de'. unfold has_entry. cbn. rewrite Hb. case_decide as Hc; [|split; [|tauto]; intros ?; split; [lia|done]].
    split; [by intros [? _]|]. intros (Hne & Hq). destruct (bok_inner d Hok pos de q Hp ltac:(lia)) as (_ & x & Hx & Hz).
    destruct Hq as (_ & Hq & Hqz). congruence. }
  assert (Hkeep : forall q de' r, has_entry d' q de' -> (q <= r < q + dslots (name_len de'))%nat -> test_bit_le r bm = test_bit_le r (bitmap d)).
  { intros q de' r [Hne Hq]%He Hr'. rewrite Hb. rewrite decide_False; [done|]. intros Hc.
    destruct (decide (q < pos)%nat); [pose proof (entries_apart d q de' pos de Hok Hq Hp); lia|].
    pose proof (entries_apart d pos de q de' Hok Hp Hq). lia. }
  split; [constructor; cbn|split; [done|]].
  - rewrite Lb. apply (bok_bm d Hok).
  - apply (bok_de d Hok).
  - apply (bok_fn d Hok).
  - intros q de' [Hne Hq]%He. by apply (bok_range d Hok).
  - intros q de' r Hq Hrr. rewrite (Hkeep q de' r Hq) by lia. apply He in Hq as [_ Hq]. by apply (bok_inner d Hok q de').
  - intros r Hrb. rewrite Hb in Hrb. case_decide as Hc; [done|]. destruct (bok_owner d Hok r Hrb) as (q & de' & Hq & Hrr).
    exists q, de'. split; [|done]. apply He. split; [|done]. intros ->. destruct Hq as (? & Hd' & ?). rewrite Hde in Hd'. injection Hd' as <-. lia.
  - intros q. case_decide as Hc.
    + apply entry_at_None. intros de' [Hne _]%He. done.
    + destruct (entry_at d q) as [e'|] eqn:Eq.
      * apply entry_at_has in Eq as (de' & Hq & ->). apply entry_at_has. exists de'. split; [by apply He|done].
      * rewrite entry_at_None in *. intros de' [_ Hq]%He. by eapply Eq.
Qed.

(** The loop of [f2fs_empty_dir] and of the deletion: a block without bits set from
    slot [start] on has no entries there. *)
Lemma no_bits_no_entries d start : block_ok d -> (start <= dmax d)%nat ->
  (find_next_bit_le (bitmap d) (dmax d) start = dmax d <-> forall q, (start <= q)%nat -> test_bit_le q (bitmap d) = false).
Proof.
  intros Hok Hs. destruct (find_next_spec true (bitmap d) (dmax d) start Hs) as (Hr & Hb & Hlt). unfold find_next_bit_le. split.
  - intros E q Hq. destruct (decide (q < dmax d)%nat).
    + rewrite Hb; [done|lia].
    + unfold test_bit_le. rewrite lookup_ge_None_2; [done|]. rewrite (bok_bm d Hok). lia.
  - intros Hall. destruct (decide (find_next true (bitmap d) (dmax d) start < dmax d)%nat) as [Hc|]; [|lia].
    specialize (Hlt Hc). rewrite Hall in Hlt by lia. done.
Qed.

Lemma empty_bits_entries d : block_ok d -> (forall q, test_bit_le q (bitmap d) = false) <-> (forall q, entry_at d q = None).
Proof.
  intros Hok. split; intros Hall q.
  - unfold entry_at. by rewrite Hall.
  - destruct (test_bit_le q (bitmap d)) eqn:E; [|done]. destruct (bok_owner d Hok q E) as (p & de & Hp & _).
    specialize (Hall p). rewrite entry_at_None in Hall. by destruct (Hall de).
Qed.

Lemma zero_block_ok n : block_ok (zero_block n) /\ forall q, entry_at (zero_block n) q = None.
Proof.
  assert (Hb : forall q, test_bit_le q (replicate n false) = false).
  { intros q. unfold test_bit_le. destruct (replicate n false !! q) eqn:E; [|done]. by apply lookup_replicate in E as [-> _]. }
  split.
  - constructor; cbn; rewrite ?length_replicate; try done; unfold has_entry; cbn; intros *; rewrite Hb; naive_solver.
  - intros q. unfold entry_at. cbn. by rewrite Hb.
Qed.

(** *** Search *)

Section search_spec.
Context (hash : Z) (match_name : list Z -> Z).

(** The verdict of the search on an entry. *)
Definition verdict (e : dir_ent) : Z := if e_hash e =? hash then match_name (e_name e) else 0.

(** [p] is not inside an entry that starts before it. *)
Definition boundary (d : f2fs_dentry_ptr) (p : nat) : Prop :=
  forall q de, has_entry d q de -> (q < p)%nat -> (q + dslots (name_len de) <= p)%nat.

Lemma boundary_next d p de : block_ok d -> has_entry d p de -> boundary d p -> boundary d (p + dslots (name_len de)).
Proof.
  intros Hok Hp Hb q de' Hq Hlt. destruct (decide (q = p)) as [->|Hne].
  - destruct Hq as (_ & E & _), Hp as (_ & E' & _). rewrite E in E'. injection E' as ->. lia.
  - destruct (decide (q < p)%nat) as [Hqp|Hqp]; [specialize (Hb q de' Hq Hqp); lia|].
    pose proof (entries_apart d p de q de' Hok Hp Hq ltac:(lia)). lia.
Qed.

Lemma boundary_free d p : boundary d p -> test_bit_le p (bitmap d) = false -> boundary d (S p).
Proof.
  intros Hb Hp q de Hq Hlt. destruct (decide (q = p)) as [->|]; [destruct Hq; congruence|].
  specialize (Hb q de Hq ltac:(lia)). lia.
Qed.

(** At a boundary, a slot in use starts an entry. *)
Lemma boundary_entry d p : block_ok d -> boundary d p -> test_bit_le p (bitmap d) = true -> exists de, has_entry d p de.
Proof.
  intros Hok Hb Hp. destruct (bok_owner d Hok p Hp) as (q & de & Hq & Hr).
  destruct (decide (q = p)) as [->|]; [by exists de|]. specialize (Hb q de Hq ltac:(lia)). lia.
Qed.

(** What the search has learnt about free slots at slot [p]: [ml] are the free
    slots right before it, [ms] the longest run met before them. *)
Record runs_seen (d : f2fs_dentry_ptr) (p ml ms : nat) : Prop := {
  rs_le : (ml <= p)%nat;
  rs_run : free_run (bitmap d) (p - ml) ml;
  rs_left : ml = p \/ test_bit_le (p - ml - 1) (bitmap d) = true;
  rs_real : ms = 0%nat \/ exists q, (q + ms <= p)%nat /\ free_run (bitmap d) q ms;
  rs_all : forall q s, free_run (bitmap d) q s -> (q + s <= p)%nat -> (s <= Nat.max ms ml)%nat
}.

Lemma runs_seen_0 d : runs_seen d 0 0 0.
Proof. constructor; try lia. intros q Hq; lia. Qed.

Lemma runs_seen_free d p ml ms : runs_seen d p ml ms -> test_bit_le p (bitmap d) = false -> runs_seen d (S p) (S ml) ms.
Proof.
  intros [Hle Hrun Hleft Hreal Hall] Hp. constructor.
  - lia.
  - intros q Hq. destruct (decide (q = p)) as [->|]; [done|]. apply Hrun. lia.
  - destruct Hleft as [->|Hl]; [by left|right]. by replace (S p - S ml - 1)%nat with (p - ml - 1)%nat by lia.
  - destruct Hreal as [|(q & Hq & Hr)]; [by left|right]. exists q. split; [lia|done].
  - intros q s Hr Hs. destruct (decide (q + s <= p)%nat) as [Hc|Hc]; [specialize (Hall q s Hr Hc); lia|].
    destruct (decide (s <= S ml)%nat); [lia|]. destruct Hleft as [->|Hl]; [lia|]. rewrite Hr in Hl by lia. done.
Qed.

Lemma runs_seen_entry d p de ml ms : block_ok d -> runs_seen d p ml ms -> has_entry d p de ->
  runs_seen d (p + dslots (name_len de)) 0 (Nat.max ms ml).
Proof.
  intros Hok [Hle Hrun Hleft Hreal Hall] Hp. pose proof (bok_range d Hok p de Hp) as [Hn _]. pose proof (dslots_pos (name_len de) ltac:(lia)).
  assert (Hset : forall q, (p <= q < p + dslots (name_len de))%nat -> test_bit_le q (bitmap d) = true).
  { intros q Hq. destruct (decide (q = p)) as [->|]; [by destruct Hp|]. by destruct (bok_inner d Hok p de q Hp ltac:(lia)). }
  constructor.
  - lia.
  - intros q Hq. lia.
  - right. apply Hset. lia.
  - destruct (decide (ms <= ml)%nat).
    + rewrite Nat.max_r by lia. right. exists (p - ml)%nat. split; [lia|done].
    + rewrite Nat.max_l by lia. destruct Hreal as [|(q & Hq & Hr)]; [by left|right]. exists q. split; [lia|done].
  - intros q s Hr Hs. destruct (decide (q + s <= p)%nat) as [Hc|Hc]; [specialize (Hall q s Hr Hc); lia|].
    destruct (decide (s = 0%nat)); [lia|]. specialize (Hr (q + s - 1)%nat ltac:(lia)). rewrite Hset in Hr by lia. done.
Qed.

(** Once the block is walked through, the longest run is known. *)
Lemma runs_seen_end d ml ms s : runs_seen d (dmax d) ml ms -> (0 < s)%nat ->
  (s <= Nat.max ms ml)%nat <-> exists q, (q + s <= dmax d)%nat /\ free_run (bitmap d) q s.
Proof.
  intros [Hle Hrun Hleft Hreal Hall] Hs. split.
  - intros Hm. destruct (decide (s <= ml)%nat).
    + exists (dmax d - ml)%nat. split; [lia|]. intros q Hq. apply Hrun. lia.
    + destruct Hreal as [|(q & Hq & Hr)]; [lia|]. exists q. split; [lia|]. intros x Hx. apply Hr. lia.
  - intros (q & Hq & Hr). by apply (Hall q).
Qed.

Definition found_from (d : f2fs_dentry_ptr) (p : nat) (r : option nat) : Prop :=
  match r with
  | Some q => (p <= q)%nat /\ (exists e, entry_at d q = Some e /\ 0 < verdict e) /\
              forall q' e', (p <= q' < q)%nat -> entry_at d q' = Some e' -> verdict e' = 0
  | None => forall q e, (p <= q)%nat -> entry_at d q = Some e -> verdict e = 0
  end.

(** No entry starts between the slots [p] and [p']. *)
Lemma found_from_skip d p p' r : (p <= p')%nat -> (forall q e, (p <= q < p')%nat -> entry_at d q = Some e -> verdict e = 0) ->
  found_from d p' r -> found_from d p r.
Proof.
  intros Hle Hno. destruct r as [q|]; cbn.
  - intros (Hq & He & Hf). split; [lia|]. split; [done|]. intros q' e' Hq' E.
    destruct (decide (q' < p')%nat); [apply (Hno q'); [lia|done]|apply (Hf q'); [lia|done]].
  - intros Hf q e Hq E. destruct (decide (q < p')%nat); [apply (Hno q); [lia|done]|apply (Hf q); [lia|done]].
Qed.

Lemma find_target_loop_spec fuel d p ml ms : block_ok d -> boundary d p -> (p <= dmax d)%nat -> (dmax d < fuel + p)%nat -> runs_seen d p ml ms ->
  (forall q e, entry_at d q = Some e -> 0 <= verdict e) ->
  exists r ms', find_target_loop hash match_name fuel d p ml ms = Some (inr r, ms') /\ found_from d p r /\
    (r = None -> forall s, (0 < s)%nat -> (s <= ms')%nat <-> exists q, (q + s <= dmax d)%nat /\ free_run (bitmap d) q s).
Proof.
  intros Hok. revert p ml ms. induction fuel as [|fuel IH]; intros p ml ms Hb Hp Hf Hrs Hv; [lia|]. cbn.
  destruct (Nat.leb_spec (dmax d) p).
  { replace p with (dmax d) in * by lia. exists None, (Nat.max ms ml). split; [done|]. split; [|intros _ s Hs; by apply runs_seen_end].
    intros q e Hq (de & Hq' & _)%entry_at_has. pose proof (bok_range d Hok q de Hq') as [Hn Hr]. pose proof (dslots_pos (name_len de) ltac:(lia)). lia. }
  destruct (test_bit_le p (bitmap d)) eqn:Ebit; cbn.
  2: { destruct (IH (S p) (S ml) ms) as (r & ms' & E & Hr & Hms); [by apply boundary_free|lia|lia|by apply runs_seen_free|done|].
       exists r, ms'. split; [done|]. split; [|done]. revert Hr. apply found_from_skip; [lia|].
       intros q e Hq E'. replace q with p in E' by lia. unfold entry_at in E'. by rewrite Ebit in E'. }
  destruct (boundary_entry d p Hok Hb Ebit) as [de Hde]. assert (Hde' := Hde). destruct Hde' as (_ & Hd & Hnz). rewrite Hd. cbn.
  destruct (Z.eqb_spec (name_len de) 0); [done|].
  assert (He : entry_at d p = Some {| e_hash := hash_code de; e_name := de_name d p (name_len de); e_ino := de_ino de; e_type := file_type de |})
    by (apply entry_at_has; eauto).
  pose proof (Hv _ _ He) as Hv0. assert (Everd : verdict {| e_hash := hash_code de; e_name := de_name d p (name_len de); e_ino := de_ino de; e_type := file_type de |}
    = if hash_code de =? hash then match_name (de_name d p (name_len de)) else 0) by done. rewrite Everd in Hv0.
  set (res := if hash_code de =? hash then _ else 0) in *. destruct (Z.ltb_spec res 0); [lia|]. destruct (Z.ltb_spec 0 res).
  { exists (Some p), (Nat.max ms ml). split; [done|]. split; [|done]. cbn. split; [lia|]. split; [|intros; lia]. eexists. split; [done|]. lia. }
  pose proof (bok_range d Hok p de Hde) as [Hn Hr]. pose proof (dslots_pos (name_len de) ltac:(lia)).
  destruct (IH (p + dslots (name_len de))%nat 0%nat (Nat.max ms ml)) as (r & ms' & E & Hr' & Hms);
    [by apply boundary_next|lia|lia|by apply runs_seen_entry|done|].
  exists r, ms'. split; [done|]. split; [|done]. revert Hr'. apply found_from_skip; [lia|].
  intros q e Hq E'. destruct (decide (q = p)) as [->|].
  - rewrite He in E'. injection E' as <-. lia.
  - apply entry_at_has in E' as (de' & Hq' & _). pose proof (entries_apart d p de q de' Hok Hde Hq' ltac:(lia)). lia.
Qed.

(** The search of a block finds its first matching entry, says that there is none
    only if there is none, and then reports the longest run of free slots. *)
Lemma find_target_spec d : block_ok d -> (forall q e, entry_at d q = Some e -> 0 <= verdict e) ->
  exists r ms, f2fs_find_target_dentry hash match_name d = Some (inr r, ms) /\ found_from d 0 r /\
    (r = None -> forall s, (0 < s)%nat -> (s <= ms)%nat <-> (f2fs_room_for_filename (bitmap d) s (dmax d) < dmax d)%nat).
Proof.
  intros Hok Hv. destruct (find_target_loop_spec (S (dmax d)) d 0 0 0) as (r & ms & E & Hr & Hms); try done; try lia.
  { intros q de Hq Hlt. lia. }
  { apply runs_seen_0. }
  exists r, ms. split; [done|]. split; [done|]. intros Hn s Hs. rewrite Hms by done.
  destruct (room_first_fit (bitmap d) s (dmax d) Hs) as (H1 & H2 & H3). split.
  - intros (q & Hq & Hrun). by destruct (H3 q Hq Hrun).
  - intros Hlt. destruct (H1 Hlt). eauto.
Qed.
End search_spec.

(** *** Listing *)

(** The entries of a block from slot [p] on, with their slots. *)
Definition entries_from (d : f2fs_dentry_ptr) (p : nat) : list (nat * dir_ent) :=
  omap (fun q => (fun e => (q, e)) <$> entry_at d q) (seq p (dmax d - p)).

Lemma entries_from_step d p : (p < dmax d)%nat ->
  entries_from d p = match entry_at d p with Some e => (p, e) :: entries_from d (S p) | None => entries_from d (S p) end.
Proof.
  intros Hp. unfold entries_from. replace (dmax d - p)%nat with (S (dmax d - S p)) by lia. cbn. by destruct (entry_at d p).
Qed.

Lemma entries_from_end d p : (dmax d <= p)%nat -> entries_from d p = [].
Proof. intros Hp. unfold entries_from. by replace (dmax d - p)%nat with 0%nat by lia. Qed.

Lemma entries_from_skip d p n : (forall q, (p <= q < p + n)%nat -> entry_at d q = None) -> entries_from d p = entries_from d (p + n).
Proof.
  revert p. induction n as [|n IH]; intros p Hn; [by rewrite Nat.add_0_r|].
  destruct (decide (p < dmax d)%nat); [|by rewrite !entries_from_end by lia].
  rewrite entries_from_step, Hn by lia. rewrite IH by (intros; apply Hn; lia). f_equal. lia.
Qed.

Lemma elem_of_entries_from d p q e : (q, e) ∈ entries_from d p <-> (p <= q < dmax d)%nat /\ entry_at d q = Some e.
Proof.
  unfold entries_from. rewrite list_elem_of_omap. split.
  - intros (x & Hx & E). apply elem_of_seq in Hx. apply fmap_Some in E as (e' & E & [= -> ->]). split; [lia|done].
  - intros [Hq E]. exists q. split; [apply elem_of_seq; lia|]. by rewrite E.
Qed.

Section fill_spec.
Context (encrypted : bool) (disk_to_usr : Z -> list Z -> Z + list Z) (actor : list dirent -> dirent -> bool).
(** The user's view of an entry. *)
Context (user_name : dir_ent -> list Z).

Definition de_type_of (t : Z) : Z := if t <? FT_MAX then f2fs_filetype_table t else DT_UNKNOWN.
Definition user_ent (e : dir_ent) : dirent := {| dn_name := user_name e; dn_ino := e_ino e; dn_type := de_type_of (e_type e) |}.

(** What the actor takes of a list of entries: the prefix up to its first refusal. *)
Fixpoint taken (acc : list dirent) (es : list dirent) : list dirent :=
  match es with
  | [] => acc
  | e :: es => if actor acc e then taken (acc ++ [e]) es else acc
  end.
Fixpoint left_over (acc : list dirent) (es : list dirent) : list dirent :=
  match es with
  | [] => []
  | e :: es' => if actor acc e then left_over (acc ++ [e]) es' else es
  end.

Lemma boundary_skip d p r : boundary d p -> (p <= r)%nat -> (forall q, (p <= q < r)%nat -> test_bit_le q (bitmap d) = false) -> boundary d r.
Proof.
  intros Hb Hpr Hfree q de Hq Hlt. destruct (decide (q < p)%nat) as [Hc|Hc]; [specialize (Hb q de Hq Hc); lia|].
  destruct Hq as (Hq & _). rewrite Hfree in Hq by lia. done.
Qed.

(** Slots not in use, and the inner slots of a name, start no entry. *)
Lemma free_no_entry d q : test_bit_le q (bitmap d) = false -> entry_at d q = None.
Proof. intros Hq. unfold entry_at. by rewrite Hq. Qed.
Lemma inner_no_entry d p de q : block_ok d -> has_entry d p de -> (p < q < p + dslots (name_len de))%nat -> entry_at d q = None.
Proof.
  intros Hok Hp Hq. apply entry_at_None. intros de' Hq'. pose proof (entries_apart d p de q de' Hok Hp Hq' ltac:(lia)). lia.
Qed.

Lemma entries_from_entry d p de e : block_ok d -> has_entry d p de -> entry_at d p = Some e ->
  entries_from d p = (p, e) :: entries_from d (p + dslots (name_len de)).
Proof.
  intros Hok Hp He. pose proof (bok_range d Hok p de Hp) as [Hn Hr]. pose proof (dslots_pos (name_len de) ltac:(lia)).
  rewrite entries_from_step, He by lia. f_equal. rewrite (entries_from_skip d (S p) (dslots (name_len de) - 1)); [f_equal; lia|].
  intros q Hq. apply (inner_no_entry d p de); [done|done|lia].
Qed.

Lemma fill_loop_spec fuel d start p found ctx fsck v : block_ok d -> (p <= dmax d)%nat -> (dmax d < fuel + p)%nat ->
  0 <= start -> start + Z.of_nat (dmax d) < 2 ^ 32 ->
  (forall q e, entry_at d q = Some e -> usr_name encrypted disk_to_usr (e_hash e) (e_name e) = inr (user_name e)) ->
  (found = true -> boundary d p) ->
  ctx_pos ctx = start + Z.of_nat v -> (v <= dmax d)%nat -> entries_from d v = entries_from d p ->
  let es := (fun x => user_ent x.2) <$> entries_from d p in
  exists err v', fill_loop encrypted disk_to_usr actor fuel d start p found ctx fsck =
      Some (err, {| ctx_pos := start + Z.of_nat v'; emitted := taken (emitted ctx) es |}, fsck) /\
    (v' <= dmax d)%nat /\ ((fun x => user_ent x.2) <$> entries_from d v') = left_over (emitted ctx) es /\
    (err = 0 /\ left_over (emitted ctx) es = [] \/ err = 1 /\ left_over (emitted ctx) es <> []).
Proof.
  intros Hok. revert p found ctx v. induction fuel as [|fuel IH]; intros p found ctx v Hp Hf Hs Hmax Hdec Hb Hv Hvm Hve; [lia|]. cbn -[u32 Nat.ltb].
  assert (Hend : entries_from d p = [] -> exists err v', Some (0, ctx, fsck) =
      Some (err, {| ctx_pos := start + Z.of_nat v'; emitted := taken (emitted ctx) ((fun x => user_ent x.2) <$> entries_from d p) |}, fsck) /\
    (v' <= dmax d)%nat /\ ((fun x => user_ent x.2) <$> entries_from d v') = left_over (emitted ctx) ((fun x => user_ent x.2) <$> entries_from d p) /\
    (err = 0 /\ left_over (emitted ctx) ((fun x => user_ent x.2) <$> entries_from d p) = [] \/ err = 1 /\ left_over (emitted ctx) ((fun x => user_ent x.2) <$> entries_from d p) <> [])).
  { intros E. rewrite E. exists 0, v. rewrite Hve, E. cbn. conjs; [|done|done|by left]. destruct ctx; cbn in *. by rewrite Hv. }
  destruct (Nat.leb_spec (dmax d) p) as [Hge|Hlt]; [by apply Hend, entries_from_end|].
  destruct (find_next_spec true (bitmap d) (dmax d) p Hp) as (Hr & Hfree & Hset). unfold find_next_bit_le.
  set (r := find_next true (bitmap d) (dmax d) p) in *. cbn in Hfree.
  assert (Hsk : entries_from d p = entries_from d r).
  { rewrite (entries_from_skip d p (r - p)); [f_equal; lia|]. intros q Hq. apply free_no_entry, Hfree. lia. }
  destruct (Nat.leb_spec (dmax d) r) as [Hge|Hlt']; [by apply Hend; rewrite Hsk; apply entries_from_end|]. clear Hend.
  specialize (Hset Hlt'). destruct (lookup_lt_is_Some_2 (dentry d) r) as [de Hde]; [rewrite (bok_de d Hok); lia|]. rewrite Hde. cbn -[u32 Nat.ltb].
  assert (Hbr : found = true -> boundary d r) by (intros Ht; apply (boundary_skip d p); [by apply Hb|lia|done]).
  destruct (Z.eqb_spec (name_len de) 0) as [Hz|Hnz].
  - assert (Hnone : entry_at d r = None) by (apply entry_at_None; intros de' (_ & E & ?); congruence).
    assert (found = false) as ->.
    { destruct found; [|done]. destruct (boundary_entry d r Hok (Hbr eq_refl) Hset) as (de' & _ & E & ?). congruence. }
    assert (r <> 0%nat) as Hr0.
    { intros E0. destruct (bok_owner d Hok r Hset) as (q & de' & Hq & Hqr). replace q with r in Hq by lia. destruct Hq as (_ & E & ?). congruence. }
    destruct (Nat.eqb_spec r 0); [done|]. rewrite !orb_false_r. rewrite u32_small by lia.
    assert (Hs' : entries_from d p = entries_from d (S r)).
    { rewrite Hsk, (entries_from_skip d r 1); [f_equal; lia|]. intros q Hq. by replace q with r by lia. }
    rewrite Hs'. apply (IH (S r) false {| ctx_pos := start + Z.of_nat (S r); emitted := emitted ctx |} (S r)); try done; lia.
  - assert (Hent : has_entry d r de) by done. pose proof (bok_range d Hok r de Hent) as [Hn Hrr]. pose proof (dslots_pos (name_len de) ltac:(lia)).
    destruct (Nat.ltb_spec (dmax d) (r + dslots (name_len de))); [lia|]. destruct (Z.ltb_spec F2FS_NAME_LEN (name_len de)); [lia|]. cbn -[u32 Nat.ltb].
    pose (e := {| e_hash := hash_code de; e_name := de_name d r (name_len de); e_ino := de_ino de; e_type := file_type de |}).
    assert (He : entry_at d r = Some e) by (apply entry_at_has; exists de; done).
    pose proof (Hdec r e He) as Hd. cbn in Hd. rewrite Hd.
    change {| dn_name := user_name e; dn_ino := de_ino de; dn_type := f2fs_get_de_type de |} with (user_ent e).
    rewrite Hsk, (entries_from_entry d r de e Hok Hent He), !fmap_cons. cbn -[u32 user_ent]. destruct (actor (emitted ctx) (user_ent e)) eqn:Ea.
    + rewrite u32_small by lia. apply (IH _ true {| ctx_pos := start + Z.of_nat (r + dslots (name_len de)); emitted := emitted ctx ++ [user_ent e] |}
        (r + dslots (name_len de))%nat); try done; try lia. intros _.
      apply boundary_next; [done|done|]. destruct found; [by apply Hbr|].
      intros q de' Hq Hqr. pose proof (entries_apart d q de' r de Hok Hq Hent Hqr). done.
    + exists 1, v. rewrite Hve, Hsk, (entries_from_entry d r de e Hok Hent He). conjs; try done; [|by right].
      destruct ctx; cbn in *. by rewrite Hv.
Qed.
End fill_spec.
End block.

#[global] Arguments f2fs_room_for_filename : simpl never.
#[global] Arguments f2fs_update_dentry : simpl never.
#[global] Arguments f2fs_find_target_dentry : simpl never.
#[global] Arguments f2fs_fill_dentries : simpl never.
