(* ===== verification/DirName.v ===== *)
(** * Names in directories (dir.c)

    How a name is prepared for a search, hashed, and compared with the name of
    an entry; and what this promises to the directory code. *)

From S2P Require Import Prelude.
From S2P Require Import Hash.

Definition ENOENT : Z := 2.
Definition ENOMEM : Z := 12.
Definition EINVAL : Z := 22.

(** What the code reads of a directory and its super block, and
    [fscrypt_has_encryption_key]. *)
Record dir_props := { casefolded : bool; dir_encrypted : bool; has_key : bool; strict_encoding : bool }.

(** [struct fscrypt_name], and [struct f2fs_filename] with its hash. *)
Record fscrypt_name := { fs_usr_fname : list Z; fs_disk_name : list Z; is_nokey_name : bool; fs_hash : Z }.
Record dir_filename := { fname : f2fs_filename; fhash : Z }.

Section dirname.
(** The kernel's names, Unicode and encryption code: [is_dot_dotdot], the hash
    of encrypted names, [utf8_casefold] (an error or the folded name),
    [utf8_strncasecmp_folded] (0 if equal, 1 if not, negative on invalid bytes),
    [fscrypt_setup_filename], [fscrypt_fname_disk_to_usr] and
    [fscrypt_match_name]. *)
Context (F2FS_HASH_COL_BIT : Z) (is_dot_dotdot : list Z -> Z -> bool) (siphash : list Z -> Z).
Context (utf8_casefold : list Z -> Z + list Z) (utf8_strncasecmp_folded : list Z -> list Z -> Z).
Context (fscrypt_setup_filename : list Z -> bool -> Z + fscrypt_name) (fscrypt_fname_disk_to_usr : list Z -> Z + list Z).
Context (fscrypt_match_name : list Z -> list Z -> bool).
Context (dir : dir_props).

(** [f2fs_init_casefolded_name]; [alloc] says whether the buffer was allocated. *)
Definition f2fs_init_casefolded_name (alloc : bool) (f : f2fs_filename) : Z + f2fs_filename :=
  if casefolded dir then
    if negb alloc then inl (- ENOMEM)
    else
      match utf8_casefold (usr_fname f) with
      | inr (b :: cf) => inr {| disk_name := disk_name f; usr_fname := usr_fname f; cf_name := Some (b :: cf) |}
      | _ => if strict_encoding dir then inl (- EINVAL)
             else inr {| disk_name := disk_name f; usr_fname := usr_fname f; cf_name := None |}
      end
  else inr f.

Definition __f2fs_setup_filename (alloc : bool) (crypt_name : fscrypt_name) : option (Z + dir_filename) :=
  let f := {| disk_name := fs_disk_name crypt_name; usr_fname := fs_usr_fname crypt_name; cf_name := None |} in
  if is_nokey_name crypt_name then Some (inr {| fname := f; fhash := u32 (fs_hash crypt_name) |})
  else
    match f2fs_init_casefolded_name alloc f with
    | inl err => Some (inl err)
    | inr f =>
        h ← f2fs_hash_filename F2FS_HASH_COL_BIT is_dot_dotdot (casefolded dir) (dir_encrypted dir) siphash f;
        Some (inr {| fname := f; fhash := h |})
    end.

Definition f2fs_setup_filename (alloc : bool) (iname : list Z) (lookup : bool) : option (Z + dir_filename) :=
  match fscrypt_setup_filename iname lookup with
  | inl err => Some (inl err)
  | inr crypt_name => __f2fs_setup_filename alloc crypt_name
  end.

(** [f2fs_match_ci_name]; [alloc] says whether the buffer of the decrypted name was allocated. *)
Definition f2fs_match_ci_name (alloc : bool) (name de_name : list Z) : Z :=
  let entry :=
    if dir_encrypted dir then
      if negb (has_key dir) then inl (- EINVAL)
      else if negb alloc then inl (- ENOMEM)
      else fscrypt_fname_disk_to_usr de_name
    else inr de_name in
  match entry with
  | inl err => err
  | inr entry =>
      let res := utf8_strncasecmp_folded name entry in
      if (res <? 0) && negb (strict_encoding dir) then
        if (length name =? length entry)%nat && bool_decide (name = take (length name) entry) then 1 else 0
      else if res =? 0 then 1 else 0
  end.

Definition f2fs_match_name (alloc : bool) (f : dir_filename) (de_name : list Z) : Z :=
  match cf_name (fname f) with
  | Some cf => f2fs_match_ci_name alloc cf de_name
  | None => if fscrypt_match_name (disk_name (fname f)) de_name then 1 else 0
  end.
End dirname.

(** ** The interface to directories

    Names fall into classes of names that are the same entry; equal classes have
    equal hashes, and a prepared name matches exactly the names of its class. *)
Class NameMatching (match_name : dir_filename -> list Z -> Z) := {
  valid_name : list Z -> Prop;
  prepared : dir_filename -> Prop;
  canon : list Z -> list Z;
  hash_of : list Z -> Z;
  hash_of_range : forall n, 0 <= hash_of n < 2 ^ 32;
  canon_hash : forall a b, valid_name a -> valid_name b -> canon a = canon b -> hash_of a = hash_of b;
  prepared_valid : forall f, prepared f -> valid_name (disk_name (fname f));
  prepared_hash : forall f, prepared f -> fhash f = hash_of (disk_name (fname f));
  match_canon : forall f b, prepared f -> valid_name b ->
    match_name f b = if decide (canon (disk_name (fname f)) = canon b) then 1 else 0;
  dots_valid : valid_name [46] /\ valid_name [46; 46];
  dots_hash : hash_of [46] = 0 /\ hash_of [46; 46] = 0;
  dots_canon : canon [46] <> canon [46; 46]
}.

(** ** Directories without encryption

    Their names are what the user gives; in a casefolded directory names that fold
    to the same bytes are the same entry, and names that cannot be folded are
    opaque. *)
Section matching.
Context (F2FS_HASH_COL_BIT : Z) (is_dot_dotdot : list Z -> Z -> bool) (siphash : list Z -> Z).
Context (utf8_casefold : list Z -> Z + list Z) (utf8_strncasecmp_folded : list Z -> list Z -> Z).
Context (fscrypt_setup_filename : list Z -> bool -> Z + fscrypt_name) (fscrypt_fname_disk_to_usr : list Z -> Z + list Z).
Context (fscrypt_match_name : list Z -> list Z -> bool).
Context (dir : dir_props) (plain : dir_encrypted dir = false).

(** What the kernel documents: the two dot names; an unencrypted directory's
    names are not transformed and compared byte by byte; the comparison with a
    folded name is that of the folded names; folding is idempotent and keeps the
    dot names. *)
Context (is_dot : forall n, is_dot_dotdot n (Z.of_nat (length n)) = true <-> n = [46] \/ n = [46; 46]).
Context (setup_plain : forall n l, fscrypt_setup_filename n l = inr {| fs_usr_fname := n; fs_disk_name := n; is_nokey_name := false; fs_hash := 0 |}).
Context (match_plain : forall a b, fscrypt_match_name a b = true <-> a = b).
Context (cmp_folded : forall c n, c <> [] -> utf8_strncasecmp_folded c n = 0 <-> utf8_casefold n = inr c).
Context (fold_idem : forall n c, utf8_casefold n = inr c -> utf8_casefold c = inr c).
Context (fold_dots : utf8_casefold [46] = inr [46] /\ utf8_casefold [46; 46] = inr [46; 46]).

(** The name that stands for the class of a name. *)
Definition fold_name (n : list Z) : list Z :=
  if casefolded dir then match utf8_casefold n with inr (b :: cf) => b :: cf | _ => n end else n.
(** Names in the scope of the interface: they fold to a dot name only if they are
    one (such names hash differently from the name they match). *)
Definition accepted (n : list Z) : Prop :=
  (is_dot_dotdot (fold_name n) (Z.of_nat (length (fold_name n))) = true -> is_dot_dotdot n (Z.of_nat (length n)) = true).
Definition name_hash (n : list Z) : Z :=
  if is_dot_dotdot n (Z.of_nat (length n)) then 0
  else default 0 (TEA_hash_name F2FS_HASH_COL_BIT (fold_name n) (Z.of_nat (length (fold_name n)))).
Definition set_up (f : dir_filename) : Prop :=
  exists alloc n lookup, accepted n /\
    f2fs_setup_filename F2FS_HASH_COL_BIT is_dot_dotdot siphash utf8_casefold fscrypt_setup_filename dir alloc n lookup = Some (inr f).

(** What the preparation of a name yields. *)
Lemma set_up_inv f : set_up f -> exists n, accepted n /\ disk_name (fname f) = n /\ fhash f = name_hash n /\
  cf_name (fname f) = (if casefolded dir then match utf8_casefold n with inr (b :: cf) => Some (b :: cf) | _ => None end else None).
Proof.
  intros (alloc & n & lookup & Hn & E). exists n. split; [done|]. unfold f2fs_setup_filename in E. rewrite setup_plain in E.
  unfold __f2fs_setup_filename, f2fs_init_casefolded_name in E. cbn [is_nokey_name fs_disk_name fs_usr_fname usr_fname disk_name] in E.
  assert (Hh : forall g, disk_name g = n -> (if casefolded dir then match cf_name g with Some c => c | None => usr_fname g end else n) = fold_name n ->
    f2fs_hash_filename F2FS_HASH_COL_BIT is_dot_dotdot (casefolded dir) (dir_encrypted dir) siphash g = Some (name_hash n)).
  { intros g Hg Hf. unfold f2fs_hash_filename, name_hash. rewrite Hg, plain, andb_false_r. destruct (is_dot_dotdot n _); [done|]. rewrite Hf.
    destruct (TEA_hash_name_some F2FS_HASH_COL_BIT (fold_name n)) as (h & -> & _). done. }
  destruct (casefolded dir) eqn:Ec.
  - destruct alloc; [|done]. cbn [negb] in E.
    destruct (utf8_casefold n) as [err|[|b cf]] eqn:Ef; [destruct (strict_encoding dir); [done|]..|];
      (rewrite Hh in E; [|done|unfold fold_name; rewrite Ec, Ef; done]); cbn in E; injection E as <-; done.
  - rewrite Hh in E; [|done|unfold fold_name; by rewrite Ec]. cbn in E. injection E as <-. done.
Qed.

Lemma fold_name_fixed n : fold_name n <> n -> casefolded dir = true /\ utf8_casefold n = inr (fold_name n) /\ fold_name n <> [].
Proof. unfold fold_name. destruct (casefolded dir); [|done]. destruct (utf8_casefold n) as [|[|b cf]]; done. Qed.

Lemma fold_name_eq n b : fold_name b = n -> n <> b -> casefolded dir = true /\ utf8_casefold b = inr n /\ utf8_casefold n = inr n /\ n <> [].
Proof. intros Hf Hne. destruct (fold_name_fixed b) as (Hc & Hfb & Hnn); [congruence|]. rewrite Hf in *. conjs; try done. by apply (fold_idem b). Qed.

Lemma match_fold alloc f b : set_up f ->
  f2fs_match_name utf8_strncasecmp_folded fscrypt_fname_disk_to_usr fscrypt_match_name dir alloc f b =
  if decide (fold_name (disk_name (fname f)) = fold_name b) then 1 else 0.
Proof.
  intros (n & Hn & Hdn & _ & Hcf)%set_up_inv. rewrite Hdn. unfold f2fs_match_name. rewrite Hcf, Hdn.
  assert (Hraw : fold_name n = n -> (utf8_casefold n <> inr n \/ n = [] \/ casefolded dir = false) ->
    (if fscrypt_match_name n b then 1 else 0) = if decide (fold_name n = fold_name b) then 1 else 0).
  { intros Hfix Hno. destruct (decide (n = b)) as [<-|Hne].
    - rewrite (proj2 (match_plain n n) eq_refl). by rewrite decide_True.
    - destruct (fscrypt_match_name n b) eqn:E; [by apply match_plain in E|]. rewrite decide_False; [done|]. rewrite Hfix. intros Hx.
      destruct (fold_name_eq n b) as (Hc & _ & Hi & Hnn); [done|done|]. destruct Hno as [|[|]]; congruence. }
  destruct (casefolded dir) eqn:Ec; [|apply Hraw; [unfold fold_name; by rewrite Ec|by right; right]].
  destruct (utf8_casefold n) as [err|[|b0 cf]] eqn:En.
  - apply Hraw; [unfold fold_name; by rewrite Ec, En|left; congruence].
  - apply Hraw; [unfold fold_name; by rewrite Ec, En|]. destruct n; [by right; left|left; congruence].
  - set (c := b0 :: cf) in *. assert (fold_name n = c) as -> by (unfold fold_name; by rewrite Ec, En).
    assert (Hcb : utf8_casefold b <> inr c -> c <> fold_name b /\ c <> b).
    { intros Hno. assert (c <> b) as Hne by (intros <-; apply Hno; by apply (fold_idem n)). split; [|done].
      intros Hx. destruct (fold_name_eq c b) as (_ & ? & _); done. }
    unfold f2fs_match_ci_name. rewrite plain. destruct (decide (utf8_casefold b = inr c)) as [Hy|Hno].
    + rewrite (proj2 (cmp_folded c b ltac:(done)) Hy). cbn. rewrite decide_True; [done|]. unfold fold_name. by rewrite Ec, Hy.
    + destruct (Hcb Hno) as [H1 H2]. rewrite decide_False by done.
      assert (utf8_strncasecmp_folded c b <> 0) as Hz by (by rewrite cmp_folded).
      destruct (_ && _); [|by destruct (Z.eqb_spec (utf8_strncasecmp_folded c b) 0)].
      destruct (Nat.eqb_spec (length c) (length b)) as [Hl|]; [|done]. rewrite bool_decide_false; [done|]. rewrite Hl, take_ge by lia. done.
Qed.

#[export] Instance plain_matching (alloc : bool) :
  NameMatching (f2fs_match_name utf8_strncasecmp_folded fscrypt_fname_disk_to_usr fscrypt_match_name dir alloc).
Proof.
  refine {| valid_name := accepted; prepared := set_up; canon := fold_name; hash_of := name_hash |}.
  - intros n. unfold name_hash. destruct (is_dot_dotdot _ _); [lia|]. destruct (TEA_hash_name_some F2FS_HASH_COL_BIT (fold_name n)) as (h & -> & ?). done.
  - intros a b Ha Hb Hc. unfold name_hash. rewrite <-Hc. assert (is_dot_dotdot a (Z.of_nat (length a)) = is_dot_dotdot b (Z.of_nat (length b))) as ->; [|done].
    assert (Hd : forall x y, accepted y -> fold_name x = fold_name y -> is_dot_dotdot x (Z.of_nat (length x)) = true -> is_dot_dotdot y (Z.of_nat (length y)) = true).
    { intros x y Hy E Hx. apply Hy. rewrite <-E. assert (fold_name x = x) as ->; [|done]. apply is_dot in Hx. destruct fold_dots as [F1 F2].
      unfold fold_name. destruct (casefolded dir); [|done]. destruct Hx as [-> | ->]; [by rewrite F1|by rewrite F2]. }
    apply eq_true_iff_eq. split; apply Hd; done.
  - intros f (n & Hn & -> & _)%set_up_inv. done.
  - intros f (n & Hn & -> & -> & _)%set_up_inv. done.
  - intros f b Hf _. by apply match_fold.
  - split; intros _; apply is_dot; tauto.
  - unfold name_hash. rewrite !(proj2 (is_dot _)) by tauto. done.
  - destruct fold_dots as [F1 F2]. unfold fold_name. destruct (casefolded dir); [|done]. by rewrite F1, F2.
Defined.

(** What makes a hashed search complete: in a directory without encryption,
    casefolded or not, two prepared names that match have the same hash, so the
    entry of a matching name is in the bucket that is searched. *)
Theorem match_same_hash alloc f g : set_up f -> set_up g ->
  f2fs_match_name utf8_strncasecmp_folded fscrypt_fname_disk_to_usr fscrypt_match_name dir alloc f (disk_name (fname g)) = 1 ->
  fhash f = fhash g.
Proof.
  intros Hf Hg. pose proof (plain_matching alloc) as M. rewrite match_fold by done. case_decide as Hc; [intros _|done].
  destruct (set_up_inv f Hf) as (n & Hn & En & -> & _), (set_up_inv g Hg) as (n' & Hn' & En' & -> & _). rewrite En, En' in Hc.
  by apply (canon_hash (NameMatching := plain_matching alloc) n n').
Qed.
End matching.
