(* ===== verification/Directory.v ===== *)
(** * Directories (dir.c, f2fs.h, data.c)

    A directory is a file of dentry blocks, organised as a multi-level hash
    table: level [l] has a power of two of buckets, a bucket has two or four
    blocks, and a name is in the bucket of its hash on one of the levels. *)

From S2P Require Import Prelude.
From S2P Require Import Hash.
From S2P Require Import DirName.
From S2P Require Import DentryBlock.

Definition PAGE_SHIFT : Z := 12.
Definition PAGE_SIZE : Z := 4096.
Definition ENOSPC : Z := 28.
Definition EAGAIN : Z := 11.
Definition EEXIST : Z := 17.

(** What the code keeps of a directory: size, level, depth, the hint of the last
    failed lookup, the task that made it; its blocks, by index, holes left out;
    and the entries in the inode, while they are there. *)
Record dir_inode := {
  i_size : Z; i_dir_level : Z; i_current_depth : Z; chash : Z; clevel : Z; dtask : option Z;
  d_pages : gmap Z f2fs_dentry_ptr; d_inline : option f2fs_dentry_ptr
}.

Definition set_hint (dir : dir_inode) (h l : Z) : dir_inode :=
  {| i_size := i_size dir; i_dir_level := i_dir_level dir; i_current_depth := i_current_depth dir; chash := h; clevel := l;
     dtask := dtask dir; d_pages := d_pages dir; d_inline := d_inline dir |}.
Definition set_task (dir : dir_inode) (t : option Z) : dir_inode :=
  {| i_size := i_size dir; i_dir_level := i_dir_level dir; i_current_depth := i_current_depth dir; chash := chash dir; clevel := clevel dir;
     dtask := t; d_pages := d_pages dir; d_inline := d_inline dir |}.
Definition f2fs_i_depth_write (dir : dir_inode) (depth : Z) : dir_inode :=
  {| i_size := i_size dir; i_dir_level := i_dir_level dir; i_current_depth := depth; chash := chash dir; clevel := clevel dir;
     dtask := dtask dir; d_pages := d_pages dir; d_inline := d_inline dir |}.
Definition f2fs_i_size_write (dir : dir_inode) (size : Z) : dir_inode :=
  {| i_size := size; i_dir_level := i_dir_level dir; i_current_depth := i_current_depth dir; chash := chash dir; clevel := clevel dir;
     dtask := dtask dir; d_pages := d_pages dir; d_inline := d_inline dir |}.
Definition set_pages (dir : dir_inode) (pages : gmap Z f2fs_dentry_ptr) : dir_inode :=
  {| i_size := i_size dir; i_dir_level := i_dir_level dir; i_current_depth := i_current_depth dir; chash := chash dir; clevel := clevel dir;
     dtask := dtask dir; d_pages := pages; d_inline := d_inline dir |}.
Definition set_inline (dir : dir_inode) (d : option f2fs_dentry_ptr) : dir_inode :=
  {| i_size := i_size dir; i_dir_level := i_dir_level dir; i_current_depth := i_current_depth dir; chash := chash dir; clevel := clevel dir;
     dtask := dtask dir; d_pages := d_pages dir; d_inline := d |}.

Definition dir_blocks (dir : dir_inode) : Z := Z.shiftr (u64 (i_size dir + PAGE_SIZE - 1)) PAGE_SHIFT.

Section levels.
Context `{DirFormat}.

(** ** Levels, buckets and blocks *)

Definition dir_buckets (level dir_level : Z) : Z :=
  if level +! dir_level <? MAX_DIR_HASH_DEPTH / 2 then u32 (Z.shiftl 1 (level +! dir_level)) else MAX_DIR_BUCKETS.

Definition bucket_blocks (level : Z) : Z := if level <? MAX_DIR_HASH_DEPTH / 2 then 2 else 4.

(** The loop of [dir_block_index]: the products are 32-bit, the sum is 64-bit. *)
Fixpoint level_sum (n : nat) (i bidx dir_level : Z) : Z :=
  match n with
  | O => bidx
  | S n => level_sum n (i + 1) (u64 (bidx + (dir_buckets i dir_level *! bucket_blocks i))) dir_level
  end.
Definition dir_block_index (level dir_level idx : Z) : Z :=
  u64 (level_sum (Z.to_nat level) 0 0 dir_level + (idx *! bucket_blocks level)).

(** ** Data pages of a directory *)

(** [f2fs_find_data_page] and [f2fs_get_lock_data_page]: the error of a read, or
    the page; a hole gives [-ENOENT]. *)
Definition f2fs_find_data_page (io : Z -> option Z) (dir : dir_inode) (index : Z) : Z + f2fs_dentry_ptr :=
  match io index with
  | Some err => inl err
  | None => match d_pages dir !! index with Some b => inr b | None => inl (- ENOENT) end
  end.

(** [f2fs_get_new_data_page] with [new_i_size]: a hole becomes a page of zeros. *)
Definition f2fs_get_new_data_page (alloc : Z -> option Z) (dir : dir_inode) (index : Z) : dir_inode * (Z + f2fs_dentry_ptr) :=
  match alloc index with
  | Some err => (dir, inl err)
  | None =>
      let b := default (zero_block NR_DENTRY_IN_BLOCK) (d_pages dir !! index) in
      let dir := set_pages dir (<[index := b]> (d_pages dir)) in
      let dir := if i_size dir <? Z.shiftl (index + 1) PAGE_SHIFT then f2fs_i_size_write dir (Z.shiftl (index + 1) PAGE_SHIFT) else dir in
      (dir, inr b)
  end.
End levels.

Section directory.
Context `{DirFormat} (match_name : dir_filename -> list Z -> Z).

Definition fname_slots (f : dir_filename) : nat := dslots (Z.of_nat (length (disk_name (fname f)))).

(** ** Lookup *)

(** Where an entry is: a block and a slot, or a slot of the inode. *)
Inductive dloc := InPage (bidx : Z) (pos : nat) | InInode (pos : nat).

(** [find_in_block]. *)
Definition find_in_block (b : f2fs_dentry_ptr) (f : dir_filename) : option ((Z + option nat) * nat) :=
  f2fs_find_target_dentry (fhash f) (match_name f) b.

(** The loop of [find_in_level] over the blocks of a bucket: the error or the
    entry found, and whether there is [room]. *)
Fixpoint bucket_loop (n : nat) (io : Z -> option Z) (dir : dir_inode) (f : dir_filename) (bidx end_block : Z) (room : bool)
    : option ((Z + option dloc) * bool) :=
  match n with
  | O => Some (inr None, room)
  | S n =>
      if end_block <=? bidx then Some (inr None, room)
      else
        match f2fs_find_data_page io dir bidx with
        | inl err =>
            if err =? - ENOENT then bucket_loop n io dir f (bidx +! 1) end_block true
            else Some (inl err, room)
        | inr b =>
            '(r, max_slots) ← find_in_block b f;
            match r with
            | inl err => Some (inl err, room)
            | inr (Some pos) => Some (inr (Some (InPage bidx pos)), room)
            | inr None => bucket_loop n io dir f (bidx +! 1) end_block (room || (fname_slots f <=? max_slots)%nat)
            end
        end
  end.

Definition find_in_level (io : Z -> option Z) (dir : dir_inode) (level : Z) (f : dir_filename) : option (dir_inode * (Z + option dloc)) :=
  let nbucket := dir_buckets level (i_dir_level dir) in
  let nblock := bucket_blocks level in
  let bidx := u32 (dir_block_index level (i_dir_level dir) (fhash f mod nbucket)) in
  let end_block := bidx +! nblock in
  '(r, room) ← bucket_loop (Z.to_nat nblock) io dir f bidx end_block false;
  let missed := match r with inr (Some _) => false | _ => true end in
  let dir := if missed && room && negb (chash dir =? fhash f) then set_hint dir (fhash f) level else dir in
  Some (dir, r).

(** The loop of [__f2fs_find_entry] over the levels. *)
Fixpoint level_loop (n : nat) (io : Z -> option Z) (dir : dir_inode) (level : Z) (f : dir_filename) : option (dir_inode * (Z + option dloc)) :=
  match n with
  | O => Some (dir, inr None)
  | S n =>
      '(dir, r) ← find_in_level io dir level f;
      match r with
      | inr None => level_loop n io dir (level + 1) f
      | _ => Some (dir, r)
      end
  end.

(** [f2fs_find_in_inline_dir]; [ierr] is the error of reading the node page. *)
Definition f2fs_find_in_inline_dir (ierr : option Z) (d : f2fs_dentry_ptr) (f : dir_filename) : option (Z + option dloc) :=
  match ierr with
  | Some err => Some (inl err)
  | None =>
      '(r, _) ← f2fs_find_target_dentry (fhash f) (match_name f) d;
      Some (match r with inl err => inl err | inr None => inr None | inr (Some pos) => inr (Some (InInode pos)) end)
  end.

(** What the outside answers in a call: errors of reading pages, of the node
    page, of new pages; the current task. *)
Record dir_env := { env_io : Z -> option Z; env_ipage : option Z; env_alloc : Z -> option Z; current : Z }.

Definition __f2fs_find_entry (env : dir_env) (dir : dir_inode) (f : dir_filename) : option (dir_inode * (Z + option dloc)) :=
  '(dir, r) ←
    match d_inline dir with
    | Some d => r ← f2fs_find_in_inline_dir (env_ipage env) d f; Some (dir, r)
    | None =>
        if dir_blocks dir =? 0 then Some (dir, inr None)
        else
          let max_depth := i_current_depth dir in
          let '(max_depth, dir) := if MAX_DIR_HASH_DEPTH <? max_depth then (MAX_DIR_HASH_DEPTH, f2fs_i_depth_write dir MAX_DIR_HASH_DEPTH) else (max_depth, dir) in
          level_loop (Z.to_nat max_depth) (env_io env) dir 0 f
    end;
  let missed := match r with inr (Some _) => false | _ => true end in
  Some (if missed then set_task dir (Some (current env)) else dir, r).

(** The entry at a location. *)
Definition de_at (dir : dir_inode) (l : dloc) : option dir_ent :=
  match l with
  | InPage bidx pos => b ← d_pages dir !! bidx; entry_at b pos
  | InInode pos => d ← d_inline dir; entry_at d pos
  end.

(** The inode number [f2fs_inode_by_name] returns: 0 if there is none. *)
Definition f2fs_inode_by_name (env : dir_env) (dir : dir_inode) (f : dir_filename) : option (dir_inode * Z) :=
  '(dir, r) ← __f2fs_find_entry env dir f;
  match r with
  | inr (Some l) => e ← de_at dir l; Some (dir, e_ino e)
  | _ => Some (dir, 0)
  end.

(** ** Insertion

    [S] is the state outside the directory that an insertion changes: the inode
    linked, the link count of the directory, the list of orphans.  [init] is
    [f2fs_init_inode_metadata] on it, [fini] what
    [f2fs_update_parent_metadata] does to it; without an inode they do nothing. *)
Section insertion.
Context {S : Type} (init : S -> S * option Z) (fini : S -> S).

(** The loop over the blocks of a bucket: the error, or the block with room and its slot. *)
Fixpoint room_in_bucket (n : nat) (alloc : Z -> option Z) (dir : dir_inode) (slots : nat) (block : Z) : dir_inode * (Z + option (Z * f2fs_dentry_ptr * nat)) :=
  match n with
  | O => (dir, inr None)
  | Datatypes.S n =>
      match f2fs_get_new_data_page alloc dir block with
      | (dir, inl err) => (dir, inl err)
      | (dir, inr b) =>
          let bit_pos := f2fs_room_for_filename (bitmap b) slots NR_DENTRY_IN_BLOCK in
          if (bit_pos <? NR_DENTRY_IN_BLOCK)%nat then (dir, inr (Some (block, b, bit_pos)))
          else room_in_bucket n alloc dir slots (u64 (block + 1))
      end
  end.

(** The loop over the levels from [start] on, without fault injection: the depth
    reached and the place found. *)
Fixpoint find_room (fuel : nat) (alloc : Z -> option Z) (dir : dir_inode) (f : dir_filename) (level current_depth : Z)
    : option (dir_inode * (Z + (Z * (Z * f2fs_dentry_ptr * nat)))) :=
  match fuel with
  | O => None
  | Datatypes.S fuel =>
      if current_depth =? MAX_DIR_HASH_DEPTH then Some (dir, inl (- ENOSPC))
      else
        let current_depth := if level =? current_depth then current_depth +! 1 else current_depth in
        let nbucket := dir_buckets level (i_dir_level dir) in
        let bidx := dir_block_index level (i_dir_level dir) (fhash f mod nbucket) in
        match room_in_bucket (Z.to_nat (bucket_blocks level)) alloc dir (fname_slots f) bidx with
        | (dir, inl err) => Some (dir, inl err)
        | (dir, inr (Some place)) => Some (dir, inr (current_depth, place))
        | (dir, inr None) => find_room fuel alloc dir f (level +! 1) current_depth
        end
  end.

(** The levels there are bound the loop: it stops at the greatest depth. *)
Definition find_room_fuel : nat := Z.to_nat MAX_DIR_HASH_DEPTH + 1.

(** [f2fs_add_regular_entry]; the result is the error, 0 on success. *)
Definition f2fs_add_regular_entry (env : dir_env) (dir : dir_inode) (f : dir_filename) (ino mode : Z) (st : S) : option (dir_inode * S * Z) :=
  let current_depth := i_current_depth dir in
  let '(level, dir) := if chash dir =? fhash f then (clevel dir, set_hint dir 0 (clevel dir)) else (0, dir) in
  '(dir, r) ← find_room find_room_fuel (env_alloc env) dir f level current_depth;
  match r with
  | inl err => Some (dir, st, err)
  | inr (depth, (block, b, bit_pos)) =>
      match init st with
      | (st, Some err) => Some (dir, st, err)
      | (st, None) =>
          b ← f2fs_update_dentry ino mode b (disk_name (fname f)) (fhash f) bit_pos;
          let dir := set_pages dir (<[block := b]> (d_pages dir)) in
          let dir := if i_current_depth dir =? depth then dir else f2fs_i_depth_write dir depth in
          Some (dir, fini st, 0)
      end
  end.
End insertion.

(** ** Changing and removing an entry *)

(** The entry at a slot with inode number and type replaced. *)
Definition relink (d : f2fs_dentry_ptr) (pos : nat) (ino mode : Z) : option f2fs_dentry_ptr :=
  de ← dentry d !! pos;
  let de := {| hash_code := hash_code de; de_ino := u32 ino; name_len := name_len de; file_type := file_type de |} in
  Some {| bitmap := bitmap d; dentry := <[pos := set_de_type de mode]> (dentry d); filename := filename d; dmax := dmax d |}.

(** [f2fs_set_link]. *)
Definition f2fs_set_link (dir : dir_inode) (l : dloc) (ino mode : Z) : option dir_inode :=
  match l with
  | InPage bidx pos => b ← d_pages dir !! bidx; b ← relink b pos ino mode; Some (set_pages dir (<[bidx := b]> (d_pages dir)))
  | InInode pos => d ← d_inline dir; d ← relink d pos ino mode; Some (set_inline dir (Some d))
  end.

(** [f2fs_delete_entry] and [f2fs_delete_inline_entry], up to the inode's link
    count; [hole] is whether [f2fs_truncate_hole] succeeds on an empty block. *)
Definition f2fs_delete_entry (hole : bool) (dir : dir_inode) (l : dloc) : option dir_inode :=
  match l with
  | InInode pos => d ← d_inline dir; d ← delete_slots d pos; Some (set_inline dir (Some d))
  | InPage bidx pos =>
      b ← d_pages dir !! bidx;
      b ← delete_slots b pos;
      let pages := if (find_next_bit_le (bitmap b) NR_DENTRY_IN_BLOCK 0 =? NR_DENTRY_IN_BLOCK)%nat && hole
                   then delete bidx (d_pages dir) else <[bidx := b]> (d_pages dir) in
      Some (set_pages dir pages)
  end.

(** ** Emptiness *)

Fixpoint empty_loop (n : nat) (io : Z -> option Z) (dir : dir_inode) (bidx : Z) : bool :=
  match n with
  | O => true
  | S n =>
      match f2fs_find_data_page io dir bidx with
      | inl err => if err =? - ENOENT then empty_loop n io dir (bidx + 1) else false
      | inr b =>
          let bit_pos := find_next_bit_le (bitmap b) NR_DENTRY_IN_BLOCK (if bidx =? 0 then 2 else 0) in
          if (bit_pos <? NR_DENTRY_IN_BLOCK)%nat then false else empty_loop n io dir (bidx + 1)
      end
  end.

(** [f2fs_empty_inline_dir] and [f2fs_empty_dir]. *)
Definition f2fs_empty_inline_dir (ierr : option Z) (d : f2fs_dentry_ptr) : bool :=
  match ierr with
  | Some _ => false
  | None => negb (find_next_bit_le (bitmap d) (dmax d) 2 <? dmax d)%nat
  end.
Definition f2fs_empty_dir (env : dir_env) (dir : dir_inode) : bool :=
  match d_inline dir with
  | Some d => f2fs_empty_inline_dir (env_ipage env) d
  | None => empty_loop (Z.to_nat (dir_blocks dir)) (env_io env) dir 0
  end.

(** [f2fs_do_make_empty_dir]: the entries of the directory itself and of its parent. *)
Definition dot : list Z := [46].
Definition dotdot : list Z := [46; 46].
Definition f2fs_do_make_empty_dir (ino mode pino pmode : Z) (d : f2fs_dentry_ptr) : option f2fs_dentry_ptr :=
  d ← f2fs_update_dentry ino mode d dot 0 0;
  f2fs_update_dentry pino pmode d dotdot 0 1.

(** [make_empty_dir] on a new directory; [inline_max] is its [MAX_INLINE_DATA]. *)
Definition make_empty_dir (env : dir_env) (inline_max : Z) (dir : dir_inode) (ino mode pino pmode : Z) : option (dir_inode * Z) :=
  match d_inline dir with
  | Some d =>
      d ← f2fs_do_make_empty_dir ino mode pino pmode d;
      let dir := set_inline dir (Some d) in
      Some (if i_size dir <? inline_max then f2fs_i_size_write dir inline_max else dir, 0)
  | None =>
      match f2fs_get_new_data_page (env_alloc env) dir 0 with
      | (dir, inl err) => Some (dir, err)
      | (dir, inr b) =>
          b ← f2fs_do_make_empty_dir ino mode pino pmode b;
          Some (set_pages dir (<[0 := b]> (d_pages dir)), 0)
      end
  end.
End directory.
