(* ===== verification/DirLevels.v ===== *)
(** * Block numbers of hash levels (dir.c)

    Where the levels and buckets of a directory lie, and where the 32-bit
    arithmetic of [dir_block_index] loses them. *)

From S2P Require Import Prelude.
From S2P Require Import Hash.
From S2P Require Import DirName.
From S2P Require Import DentryBlock.
From S2P Require Import Directory.

Section levels.
Context `{DirFormat}.

(** The blocks of a level, and of all levels below one, in unbounded integers. *)
Definition level_blocks (dl level : Z) : Z := dir_buckets level dl * bucket_blocks level.
Fixpoint level_base (dl : Z) (n : nat) : Z :=
  match n with O => 0 | S n => level_base dl n + level_blocks dl (Z.of_nat n) end.

Lemma dir_buckets_range level dl : 0 <= level < 2 ^ 8 -> 0 <= dl < 2 ^ 8 -> 0 < dir_buckets level dl <= MAX_DIR_BUCKETS.
Proof.
  intros Hl Hd. pose proof hash_depth_range. unfold dir_buckets. rewrite (u32_small (level + dl)) by lia. rewrite dir_buckets_law.
  assert (0 < 2 ^ (MAX_DIR_HASH_DEPTH / 2 - 1) <= 2 ^ 30) as Hp.
  { split; [apply Z.pow_pos_nonneg; zdiv|]. apply Z.pow_le_mono_r; zdiv. }
  destruct (Z.ltb_spec (level + dl) (MAX_DIR_HASH_DEPTH / 2)) as [Hlt|]; [|lia]. rewrite Z.shiftl_1_l.
  assert (2 ^ (level + dl) <= 2 ^ (MAX_DIR_HASH_DEPTH / 2 - 1)) by (apply Z.pow_le_mono_r; lia).
  pose proof (Z.pow_pos_nonneg 2 (level + dl)). rewrite u32_small; lia.
Qed.

Lemma max_buckets_range : 0 < MAX_DIR_BUCKETS <= 2 ^ 30.
Proof.
  pose proof hash_depth_range. rewrite dir_buckets_law. split; [apply Z.pow_pos_nonneg; zdiv|]. apply Z.pow_le_mono_r; zdiv.
Qed.

(** Below the middle level a level has at most [2 ^ 31] blocks. *)
Lemma level_blocks_low level dl : 0 <= level < MAX_DIR_HASH_DEPTH / 2 -> 0 <= dl < 2 ^ 8 -> 0 < level_blocks dl level <= 2 ^ 31.
Proof.
  intros Hl Hd. pose proof hash_depth_range. pose proof max_buckets_range. pose proof (dir_buckets_range level dl ltac:(zdiv) Hd).
  unfold level_blocks, bucket_blocks. destruct (Z.ltb_spec level (MAX_DIR_HASH_DEPTH / 2)); lia.
Qed.

Lemma level_sum_snoc n i b dl : level_sum (S n) i b dl = u64 (level_sum n i b dl + (dir_buckets (i + Z.of_nat n) dl *! bucket_blocks (i + Z.of_nat n))).
Proof.
  revert i b. induction n as [|n IH]; intros i b; [cbn -[u64 u32]; by rewrite Z.add_0_r|].
  change (level_sum (S (S n)) i b dl) with (level_sum (S n) (i + 1) (u64 (b + (dir_buckets i dl *! bucket_blocks i))) dl).
  rewrite IH. cbn [level_sum]. by replace (i + 1 + Z.of_nat n) with (i + Z.of_nat (S n)) by lia.
Qed.

(** The loop computes the base of a level up to the middle one. *)
Lemma level_sum_base n dl : Z.of_nat n <= MAX_DIR_HASH_DEPTH / 2 -> 0 <= dl < 2 ^ 8 ->
  level_sum n 0 0 dl = level_base dl n /\ 0 <= level_base dl n <= Z.of_nat n * 2 ^ 31.
Proof.
  intros Hn Hd. pose proof hash_depth_range. induction n as [|n IH]; [cbn; lia|]. rewrite level_sum_snoc. cbn [level_base]. rewrite Z.add_0_l.
  destruct IH as [-> Hb]; [lia|]. pose proof (level_blocks_low (Z.of_nat n) dl ltac:(lia) Hd) as Hlb.
  change (dir_buckets (Z.of_nat n) dl * bucket_blocks (Z.of_nat n)) with (level_blocks dl (Z.of_nat n)).
  assert (Z.of_nat n < 31) by zdiv. rewrite (u32_small (level_blocks _ _)), u64_small by lia. lia.
Qed.

Lemma level_base_mono dl n n' : 0 <= dl < 2 ^ 8 -> (n < n')%nat -> Z.of_nat n' <= MAX_DIR_HASH_DEPTH / 2 ->
  level_base dl n + level_blocks dl (Z.of_nat n) <= level_base dl n'.
Proof.
  intros Hd Hlt. induction Hlt as [|n' Hlt IH]; intros Hn; [cbn; lia|]. cbn [level_base].
  pose proof (level_blocks_low (Z.of_nat n') dl ltac:(lia) Hd). lia.
Qed.

Lemma dir_block_index_exact level dl idx : 0 <= level <= MAX_DIR_HASH_DEPTH / 2 -> 0 <= dl < 2 ^ 8 -> 0 <= idx < dir_buckets level dl ->
  dir_block_index level dl idx = level_base dl (Z.to_nat level) + idx * bucket_blocks level.
Proof.
  intros Hl Hd Hi. pose proof hash_depth_range. pose proof max_buckets_range. pose proof (dir_buckets_range level dl ltac:(zdiv) Hd).
  unfold dir_block_index. destruct (level_sum_base (Z.to_nat level) dl ltac:(lia) Hd) as [-> Hb].
  assert (0 <= idx * bucket_blocks level < 2 ^ 32) by (unfold bucket_blocks; destruct (_ <? _); lia).
  rewrite (u32_small (idx * _)) by done. assert (level <= 31) by zdiv. apply u64_small. lia.
Qed.

(** Buckets do not overlap: the blocks of two buckets, of the same or of
    different levels up to the middle one, are disjoint, and their numbers are
    computed without wrap-around. *)
Theorem dir_buckets_disjoint dl l idx l' idx' b :
  0 <= dl < 2 ^ 8 -> 0 <= l <= MAX_DIR_HASH_DEPTH / 2 -> 0 <= l' <= MAX_DIR_HASH_DEPTH / 2 ->
  0 <= idx < dir_buckets l dl -> 0 <= idx' < dir_buckets l' dl ->
  dir_block_index l dl idx <= b < dir_block_index l dl idx + bucket_blocks l ->
  dir_block_index l' dl idx' <= b < dir_block_index l' dl idx' + bucket_blocks l' ->
  l = l' /\ idx = idx'.
Proof.
  intros Hd Hl Hl' Hi Hi'. rewrite !dir_block_index_exact by done. intros Hb Hb'.
  assert (Hlt : forall x y ix iy, 0 <= x <= MAX_DIR_HASH_DEPTH / 2 -> 0 <= y <= MAX_DIR_HASH_DEPTH / 2 -> 0 <= ix < dir_buckets x dl -> 0 <= iy ->
    level_base dl (Z.to_nat x) + ix * bucket_blocks x <= b < level_base dl (Z.to_nat x) + ix * bucket_blocks x + bucket_blocks x ->
    level_base dl (Z.to_nat y) + iy * bucket_blocks y <= b -> x < y -> False).
  { intros x y ix iy Hx Hy Hix Hiy Hbx Hby Hxy. pose proof (level_base_mono dl (Z.to_nat x) (Z.to_nat y) Hd ltac:(lia) ltac:(lia)) as Hm.
    rewrite Z2Nat.id in Hm by lia. unfold level_blocks in Hm. assert (0 < bucket_blocks x /\ 0 < bucket_blocks y) by (unfold bucket_blocks; destruct (x <? _), (y <? _); lia). nia. }
  destruct (decide (l < l')) as [|]; [exfalso; by eapply (Hlt l l' idx idx'); try lia|].
  destruct (decide (l' < l)) as [|]; [exfalso; by eapply (Hlt l' l idx' idx); try lia|].
  assert (l = l') as -> by lia. split; [done|]. assert (0 < bucket_blocks l') by (unfold bucket_blocks; destruct (l' <? _); lia). nia.
Qed.

(** C38: Above the middle level the product of buckets and blocks is [2 ^ 32], which
    is 0 in the 32-bit arithmetic of [dir_block_index] (with the depth of 63 of the
    format): all these levels get the same blocks.  The hash table has half of the
    levels its depth announces. *)
Theorem dir_block_index_wraps dl level idx : MAX_DIR_HASH_DEPTH = 63 -> 0 <= dl < 2 ^ 8 -> 31 <= level < 63 ->
  dir_block_index (level + 1) dl idx = dir_block_index level dl idx.
Proof.
  intros Hm Hd Hl. assert (Hhalf : MAX_DIR_HASH_DEPTH / 2 = 31) by (by rewrite Hm).
  assert (Hbb : forall l, 31 <= l -> bucket_blocks l = 4) by (intros l Hl'; unfold bucket_blocks; rewrite Hhalf; destruct (Z.ltb_spec l 31); lia).
  unfold dir_block_index. rewrite !Hbb by lia. do 2 f_equal.
  replace (Z.to_nat (level + 1)) with (S (Z.to_nat level)) by lia. rewrite level_sum_snoc, Z.add_0_l, Z2Nat.id, Hbb by lia.
  assert (dir_buckets level dl = 2 ^ 30) as ->.
  { unfold dir_buckets. rewrite u32_small by lia. rewrite Hhalf. destruct (Z.ltb_spec (level + dl) 31); [lia|]. by rewrite dir_buckets_law, Hhalf. }
  change (2 ^ 30 *! 4) with 0. rewrite Z.add_0_r. apply u64_small.
  assert (Hr : forall n, 0 <= level_sum n 0 0 dl < 2 ^ 64); [|apply Hr].
  intros [|n]; [cbn; lia|]. rewrite level_sum_snoc. apply u64_range.
Qed.
End levels.
