(* ===== verification/DirProps.v ===== *)
(** * Directories as finite maps

    A directory stands for a map from names to entries: the operations of
    [Directory] are shown to look up, insert, replace and delete in it. *)

From S2P Require Import Prelude.
From S2P Require Import Hash.
From S2P Require Import DirName.
From S2P Require Import DentryBlock.
From S2P Require Import Directory.

Section rep.
Context `{DirFormat} (match_name : dir_filename -> list Z -> Z) `{!NameMatching match_name}.

Definition name_of (f : dir_filename) : list Z := disk_name (fname f).

(** A name with its hash, as an insertion needs it. *)
Definition hashed (f : dir_filename) : Prop := valid_name (name_of f) /\ name_ok (name_of f) /\ fhash f = hash_of (name_of f).

(** What every entry satisfies: a valid name with its hash, an inode number and a
    file type of the format, or none. *)
Definition ent_ok (e : dir_ent) : Prop :=
  valid_name (e_name e) /\ name_ok (e_name e) /\ e_hash e = hash_of (e_name e) /\
  0 <= e_ino e < 2 ^ 32 /\ (e_type e = 0 \/ e_type e ∈ type_table.*2).

Lemma type_by_mode_range t : f2fs_type_by_mode t = 0 \/ f2fs_type_by_mode t ∈ type_table.*2.
Proof.
  unfold f2fs_type_by_mode. destruct (list_find (fun e => e.1 = t) type_table) as [[i x]|] eqn:E; [right|by left].
  apply list_find_Some in E as (E & _). apply list_elem_of_lookup_2 in E. apply list_elem_of_fmap. by exists x.
Qed.

Lemma new_ent_ok f ino mode : hashed f -> ent_ok (new_ent ino mode (name_of f) (fhash f)).
Proof. intros (Hv & Hn & Hh). unfold ent_ok, new_ent. conjs; try done; [apply u32_range..|apply type_by_mode_range]. Qed.

(** The first block of the bucket of a hash on a level. *)
Definition bucket_start (dir : dir_inode) (level hash : Z) : Z :=
  dir_block_index level (i_dir_level dir) (hash mod dir_buckets level (i_dir_level dir)).

(** Block [bidx] is in the bucket of the hash on a level of the directory. *)
Definition placed (dir : dir_inode) (hash bidx : Z) : Prop :=
  exists level, 0 <= level < i_current_depth dir /\
    bucket_start dir level hash <= bidx < bucket_start dir level hash + bucket_blocks level.

(** The invariant of a directory.  Its shape: well-formed blocks at indices a file
    can have, inside the size; depth, hint and level in range.  Its entries: valid
    names with their hashes, in their buckets, each once. *)
Record dir_shape (dir : dir_inode) : Prop := {
  dk_size : 0 <= i_size dir < 2 ^ 63;
  dk_pages : forall i b, d_pages dir !! i = Some b -> block_ok b /\ dmax b = NR_DENTRY_IN_BLOCK /\ 0 <= i < 2 ^ 31 /\ Z.shiftl (i + 1) PAGE_SHIFT <= i_size dir;
  dk_inline : forall d, d_inline dir = Some d -> block_ok d /\ d_pages dir = ∅ /\ clevel dir = 0 /\ (dmax d <= NR_DENTRY_IN_BLOCK)%nat;
  dk_depth : 0 <= i_current_depth dir <= MAX_DIR_HASH_DEPTH;
  dk_hint : 0 <= clevel dir <= i_current_depth dir;
  dk_level : 0 <= i_dir_level dir < 2 ^ 8
}.
Record dir_ok (dir : dir_inode) : Prop := {
  dk_shape :> dir_shape dir;
  dk_valid : forall l e, de_at dir l = Some e -> ent_ok e;
  dk_place : forall i p e, de_at dir (InPage i p) = Some e -> placed dir (e_hash e) i;
  dk_uniq : forall l l' e e', de_at dir l = Some e -> de_at dir l' = Some e' -> canon (e_name e) = canon (e_name e') -> l = l'
}.

(** The directory stands for the map [m] from classes of names to entries. *)
Definition dir_rep (dir : dir_inode) (m : gmap (list Z) dir_ent) : Prop :=
  dir_ok dir /\ forall k e, m !! k = Some e <-> exists l, de_at dir l = Some e /\ canon (e_name e) = k.

(** Reads do not fail with the error that stands for a hole, no call fails with the
    one that asks for another try, and a page is allocated only at an index a file
    can have. *)
Definition env_ok (env : dir_env) : Prop :=
  (forall i, env_io env i <> Some (- ENOENT)) /\ (forall i, env_alloc env i = None -> 0 <= i < 2 ^ 31) /\
  (forall i err, env_alloc env i = Some err -> err < 0 /\ err <> - EAGAIN) /\ (forall err, env_ipage env = Some err -> err < 0 /\ err <> - EAGAIN).

(** *** Frames *)

(** A directory with the same entries in the same places. *)
Definition same_dir (dir dir' : dir_inode) : Prop :=
  d_pages dir' = d_pages dir /\ d_inline dir' = d_inline dir /\ i_size dir' = i_size dir /\ i_dir_level dir' = i_dir_level dir.

Lemma de_at_same dir dir' l : d_pages dir' = d_pages dir -> d_inline dir' = d_inline dir -> de_at dir' l = de_at dir l.
Proof. intros Hp Hi. destruct l; cbn; by rewrite ?Hp, ?Hi. Qed.

Lemma placed_mono dir dir' hash bidx : i_dir_level dir' = i_dir_level dir -> i_current_depth dir <= i_current_depth dir' ->
  placed dir hash bidx -> placed dir' hash bidx.
Proof. intros Hl Hd (level & Hlev & Hb). exists level. unfold bucket_start in *. rewrite Hl. split; [lia|done]. Qed.

Lemma dir_rep_same dir dir' m : same_dir dir dir' -> i_current_depth dir <= i_current_depth dir' <= MAX_DIR_HASH_DEPTH ->
  0 <= clevel dir' <= i_current_depth dir' -> (d_inline dir <> None -> clevel dir' = 0) -> dir_rep dir m -> dir_rep dir' m.
Proof.
  intros (Hp & Hi & Hs & Hl) Hd Hc Hc0 [[[] ???] Hm]. assert (He : forall l, de_at dir' l = de_at dir l) by (intros l; by apply de_at_same).
  split; [constructor; [constructor|..]|]; rewrite ?Hp, ?Hi, ?Hs, ?Hl; try done; try lia.
  - intros d Ed. destruct (dk_inline0 d Ed) as (? & ? & _ & ?). conjs; try done. apply Hc0. congruence.
  - intros l e. rewrite He. apply dk_valid0.
  - intros i p e. rewrite He. intros E. apply (placed_mono dir); [done|lia|eauto].
  - intros l l' e e'. rewrite !He. eauto.
  - intros k e. rewrite Hm. f_equiv. intros l. by rewrite He.
Qed.

(** *** Lookup *)

(** The search decides by the classes of names. *)
Lemma verdict_canon dir f l e : dir_ok dir -> prepared f -> de_at dir l = Some e ->
  verdict (fhash f) (match_name f) e = if decide (canon (name_of f) = canon (e_name e)) then 1 else 0.
Proof.
  intros Hok Hf He. destruct (dk_valid dir Hok l e He) as (Hv & _ & Hh & _). unfold verdict.
  rewrite Hh, (prepared_hash f Hf), (match_canon f _ Hf Hv). unfold name_of. case_decide as Hc.
  - rewrite (canon_hash _ _ (prepared_valid f Hf) Hv Hc), Z.eqb_refl. done.
  - by destruct (_ =? _).
Qed.

Lemma find_in_block_spec dir f (mk : nat -> dloc) b : dir_ok dir -> prepared f -> block_ok b -> (forall p, de_at dir (mk p) = entry_at b p) ->
  exists r ms, find_in_block match_name b f = Some (inr r, ms) /\
    match r with
    | Some p => exists e, de_at dir (mk p) = Some e /\ canon (name_of f) = canon (e_name e)
    | None => forall p e, de_at dir (mk p) = Some e -> canon (name_of f) <> canon (e_name e)
    end.
Proof.
  intros Hok Hf Hb Hmk. assert (Hv : forall q e, entry_at b q = Some e ->
    verdict (fhash f) (match_name f) e = if decide (canon (name_of f) = canon (e_name e)) then 1 else 0).
  { intros q e E. apply (verdict_canon dir f (mk q)); [done|done|]. by rewrite Hmk. }
  destruct (find_target_spec (fhash f) (match_name f) b Hb) as (r & ms & E & Hr & _).
  { intros q e E. rewrite (Hv q e E). case_decide; lia. }
  exists r, ms. split; [done|]. destruct r as [p|].
  - destruct Hr as (_ & (e & Ee & Hpos) & _). exists e. rewrite Hmk. split; [done|]. rewrite (Hv p e Ee) in Hpos. by case_decide.
  - intros p e Ee. rewrite Hmk in Ee. specialize (Hr p e ltac:(lia) Ee). rewrite (Hv p e Ee) in Hr. by case_decide.
Qed.

(** What a search of some blocks found. *)
Definition search_res (io : Z -> option Z) (dir : dir_inode) (f : dir_filename) (where_ : Z -> Prop) (r : Z + option dloc) : Prop :=
  match r with
  | inl err => exists i, io i = Some err
  | inr (Some l) => exists e, de_at dir l = Some e /\ canon (name_of f) = canon (e_name e)
  | inr None => forall i p e, where_ i -> de_at dir (InPage i p) = Some e -> canon (name_of f) <> canon (e_name e)
  end.

Lemma bucket_loop_spec n io dir f bidx end_block room : dir_ok dir -> prepared f -> (forall i, io i <> Some (- ENOENT)) ->
  0 <= bidx -> end_block <= bidx + Z.of_nat n -> end_block < 2 ^ 32 ->
  exists r room', bucket_loop match_name n io dir f bidx end_block room = Some (r, room') /\
    search_res io dir f (fun i => bidx <= i < end_block) r.
Proof.
  intros Hok Hf Hio. revert bidx room. induction n as [|n IH]; intros bidx room Hb He Hm; cbn -[u32 find_in_block].
  { exists (inr None), room. split; [done|]. intros i p e Hi. lia. }
  destruct (Z.leb_spec end_block bidx).
  { exists (inr None), room. split; [done|]. intros i p e Hi. lia. }
  rewrite u32_small by lia. unfold f2fs_find_data_page. destruct (io bidx) as [err|] eqn:Eio.
  { destruct (Z.eqb_spec err (- ENOENT)) as [->|Hne]; [by destruct (Hio bidx)|]. exists (inl err), room. split; [done|]. by exists bidx. }
  destruct (d_pages dir !! bidx) as [b|] eqn:Eb.
  - destruct (dk_pages dir Hok bidx b Eb) as (Hbok & _).
    destruct (find_in_block_spec dir f (InPage bidx) b Hok Hf Hbok) as (r & ms & -> & Hr).
    { intros p. cbn. by rewrite Eb. }
    cbn -[u32]. destruct r as [p|].
    { exists (inr (Some (InPage bidx p))), room. split; [done|]. done. }
    destruct (IH (bidx + 1) (room || (fname_slots f <=? ms)%nat)) as (r & room' & E & Hr'); [lia..|].
    exists r, room'. split; [done|]. destruct r as [err|[l|]]; [done|done|]. intros i p e Hi Ee.
    destruct (decide (i = bidx)) as [->|]; [by eapply Hr|]. apply (Hr' i p e); [lia|done].
  - rewrite Z.eqb_refl. destruct (IH (bidx + 1) true) as (r & room' & E & Hr'); [lia..|].
    exists r, room'. split; [done|]. destruct r as [err|[l|]]; [done|done|]. intros i p e Hi Ee.
    destruct (decide (i = bidx)) as [->|]; [cbn in Ee; by rewrite Eb in Ee|]. apply (Hr' i p e); [lia|done].
Qed.

Lemma bucket_blocks_pos level : 2 <= bucket_blocks level <= 4.
Proof. unfold bucket_blocks. destruct (_ <? _); lia. Qed.

Lemma find_in_level_spec io dir level f : dir_ok dir -> prepared f -> (forall i, io i <> Some (- ENOENT)) -> 0 <= level < i_current_depth dir ->
  exists dir' r, find_in_level match_name io dir level f = Some (dir', r) /\
    same_dir dir dir' /\ i_current_depth dir' = i_current_depth dir /\ 0 <= clevel dir' <= i_current_depth dir /\
    search_res io dir f (fun i => i < 2 ^ 31 /\ bucket_start dir level (fhash f) <= i < bucket_start dir level (fhash f) + bucket_blocks level) r.
Proof.
  intros Hok Hf Hio Hl. unfold find_in_level. fold (bucket_start dir level (fhash f)). set (bs := bucket_start dir level (fhash f)).
  pose proof (bucket_blocks_pos level) as Hbb. assert (0 <= bs) as Hbs by apply u64_range.
  destruct (bucket_loop_spec (Z.to_nat (bucket_blocks level)) io dir f (u32 bs) (u32 bs +! bucket_blocks level) false Hok Hf Hio)
    as (r & room & -> & Hr); [apply u32_range| |apply u32_range|].
  { rewrite Z2Nat.id by lia. unfold u32 at 1. apply Z.mod_le; [pose proof (u32_range bs); lia|lia]. }
  cbn -[u32]. eexists _, r. split; [done|]. pose proof (dk_hint dir Hok). destruct (_ && room && _); (conjs; cbn; try done; try lia);
  (destruct r as [err|[l|]]; [done|done|]); intros i p e [Hi Hib] Ee; apply (Hr i p e); try done; rewrite !u32_small; try lia; rewrite u32_small; lia.
Qed.

Lemma search_res_same io dir dir' f w r : same_dir dir dir' -> search_res io dir' f w r -> search_res io dir f w r.
Proof.
  intros (Hp & Hi & _). destruct r as [err|[l|]]; unfold search_res; [done| |].
  - by rewrite (de_at_same dir dir') by done.
  - intros Hr i p e Hw. rewrite <-(de_at_same dir dir' (InPage i p)) by done. by apply Hr.
Qed.

Lemma level_loop_spec n io dir level f m : dir_rep dir m -> d_inline dir = None -> prepared f -> (forall i, io i <> Some (- ENOENT)) ->
  0 <= level -> level + Z.of_nat n = i_current_depth dir ->
  exists dir' r, level_loop match_name n io dir level f = Some (dir', r) /\
    same_dir dir dir' /\ i_current_depth dir' = i_current_depth dir /\ 0 <= clevel dir' <= i_current_depth dir /\
    search_res io dir f (fun i => i < 2 ^ 31 /\ exists l, level <= l < i_current_depth dir /\ bucket_start dir l (fhash f) <= i < bucket_start dir l (fhash f) + bucket_blocks l) r.
Proof.
  revert dir level. induction n as [|n IH]; intros dir level Hrep Hin Hf Hio Hl Hd; cbn.
  { exists dir, (inr None). pose proof (dk_hint dir (proj1 Hrep)). conjs; try done; try lia. intros i p e (_ & l & Hl' & _). lia. }
  destruct (find_in_level_spec io dir level f (proj1 Hrep) Hf Hio ltac:(lia)) as (dir1 & r1 & -> & Hs1 & Hd1 & Hc1 & Hr1). cbn.
  destruct r1 as [err|[l|]]; [exists dir1; eexists; done..|].
  pose proof (dk_depth dir (proj1 Hrep)).
  destruct (IH dir1 (level + 1)) as (dir2 & r & -> & Hs2 & Hd2 & Hc2 & Hr2); try done; try lia.
  { by apply (dir_rep_same dir); [done|lia|lia| |]. }
  { destruct Hs1 as (_ & -> & _). done. }
  exists dir2, r. rewrite Hd1 in *. conjs; try done; try lia.
  - unfold same_dir in *. naive_solver congruence.
  - apply (search_res_same _ _ _ _ _ _ Hs1) in Hr2. destruct r as [err|[l|]]; [done|done|].
    intros i p e (Hi & l & Hl' & Hb) Ee. destruct (decide (l = level)) as [->|].
    + apply (Hr1 i p e); done.
    + apply (Hr2 i p e); [|done]. split; [done|]. exists l. unfold bucket_start in *. destruct Hs1 as (_ & _ & _ & ->). split; [lia|done].
Qed.

Lemma pages_blocks dir i b : dir_shape dir -> d_pages dir !! i = Some b -> 0 <= i < dir_blocks dir.
Proof.
  intros Hok Hb. destruct (dk_pages dir Hok i b Hb) as (_ & _ & Hi & Hs). pose proof (dk_size dir Hok).
  unfold dir_blocks, PAGE_SIZE, PAGE_SHIFT in *. rewrite Z.shiftl_mul_pow2 in Hs by lia. rewrite u64_small, Z.shiftr_div_pow2 by lia. zdiv.
Qed.

(** The lookup of a name is the lookup in the map; the only other results are
    errors of reads. *)
Lemma find_entry_spec env dir f m : dir_rep dir m -> prepared f -> env_ok env ->
  exists dir' r, __f2fs_find_entry match_name env dir f = Some (dir', r) /\ dir_rep dir' m /\ same_dir dir dir' /\
    match r with
    | inl err => env_ipage env = Some err \/ exists i, env_io env i = Some err
    | inr (Some l) => exists e, de_at dir l = Some e /\ m !! canon (name_of f) = Some e
    | inr None => m !! canon (name_of f) = None
    end.
Proof.
  intros Hrep Hf (Hio & _). pose proof (proj1 Hrep) as Hok. pose proof (dk_depth dir Hok) as Hdep. pose proof (dk_hint dir Hok) as Hh.
  assert (Hfound : forall l e, de_at dir l = Some e -> canon (name_of f) = canon (e_name e) -> m !! canon (name_of f) = Some e).
  { intros l e He Hc. apply Hrep. exists l. split; [done|by symmetry]. }
  assert (Hmiss : (forall l e, de_at dir l = Some e -> canon (name_of f) <> canon (e_name e)) -> m !! canon (name_of f) = None).
  { intros Hall. destruct (m !! canon (name_of f)) as [e|] eqn:E; [|done]. apply Hrep in E as (l & He & Hc). by destruct (Hall l e He). }
  assert (Htask : forall t, dir_rep (set_task dir t) m /\ same_dir dir (set_task dir t)).
  { intros t. split; [|done]. apply (dir_rep_same dir); [done|cbn; lia|done| |done]. cbn. destruct (d_inline dir) as [d|] eqn:E; [|done].
    by destruct (dk_inline dir Hok d E) as (_ & _ & -> & _). }
  unfold __f2fs_find_entry. destruct (d_inline dir) as [d|] eqn:Ein.
  - destruct (dk_inline dir Hok d Ein) as (Hd & Hp & _). unfold f2fs_find_in_inline_dir. destruct (env_ipage env) as [err|] eqn:Eip; cbn [mbind option_bind].
    { eexists _, (inl err). split; [done|]. destruct (Htask (Some (current env))). conjs; try done. by left. }
    destruct (find_in_block_spec dir f InInode d Hok Hf Hd) as (r & ms & E & Hr); [intros p; cbn; by rewrite Ein|].
    unfold find_in_block in E. rewrite E. cbn [mbind option_bind]. destruct r as [p|].
    + eexists _, (inr (Some (InInode p))). split; [done|]. conjs; try done. destruct Hr as (e & He & Hc). exists e. split; [done|by eapply Hfound].
    + eexists _, (inr None). split; [done|]. destruct (Htask (Some (current env))). conjs; try done. apply Hmiss.
      intros [i p|p] e He; [cbn in He; rewrite Hp in He; by rewrite lookup_empty in He|by eapply Hr].
  - assert (Hin : forall p e, de_at dir (InInode p) <> Some e) by (intros p e; cbn; by rewrite Ein).
    destruct (Z.eqb_spec (dir_blocks dir) 0) as [Hz|Hnz]; cbn [mbind option_bind].
    { eexists _, (inr None). split; [done|]. destruct (Htask (Some (current env))). conjs; try done. apply Hmiss.
      intros [i p|p] e He; [|by destruct (Hin p e)]. cbn in He. destruct (d_pages dir !! i) as [b|] eqn:Eb; [|done].
      pose proof (pages_blocks dir i b Hok Eb). lia. }
    destruct (Z.ltb_spec MAX_DIR_HASH_DEPTH (i_current_depth dir)); [lia|].
    destruct (level_loop_spec (Z.to_nat (i_current_depth dir)) (env_io env) dir 0 f m Hrep Ein Hf Hio) as (dir' & r & -> & Hs & Hd' & Hc' & Hr); [lia|lia|].
    cbn [mbind option_bind]. eexists _, r. split; [done|]. set (b := match r with inr (Some _) => false | _ => true end).
    assert (Hs' : same_dir dir (if b then set_task dir' (Some (current env)) else dir')) by (by destruct b).
    split; [by apply (dir_rep_same dir); [done|destruct b; cbn; lia|destruct b; cbn; lia| |]|]. split; [done|].
    destruct r as [err|[l|]]; cbn in Hr.
    + by right.
    + destruct Hr as (e & He & Hc). exists e. split; [done|by eapply Hfound].
    + apply Hmiss. intros [i p|p] e He Hc; [|by destruct (Hin p e)].
      destruct (dk_place dir Hok i p e He) as (l & Hl & Hb). destruct (dk_valid dir Hok (InPage i p) e He) as (Hv & _ & Hh' & _).
      assert (fhash f = e_hash e) as Hfe by (rewrite Hh', (prepared_hash f Hf); apply canon_hash; [by apply prepared_valid|done|done]).
      refine (Hr i p e _ He Hc). rewrite Hfe. split; [|exists l; split; [lia|done]].
      cbn in He. destruct (d_pages dir !! i) as [blk|] eqn:Eb; [|done]. destruct (dk_pages dir Hok i blk Eb) as (_ & _ & Hi & _). lia.
Qed.

(** *** Changing one entry *)

#[local] Instance dloc_eq_dec : EqDecision dloc.
Proof. solve_decision. Defined.

(** The map after the entry at a place is replaced by [oe]. *)
Definition map_change (m : gmap (list Z) dir_ent) (old new : option dir_ent) : gmap (list Z) dir_ent :=
  let m := match old with Some e => delete (canon (e_name e)) m | None => m end in
  match new with Some e => <[canon (e_name e) := e]> m | None => m end.

Lemma dir_rep_change dir dir' m l oe : dir_rep dir m -> dir_shape dir' ->
  i_dir_level dir' = i_dir_level dir -> i_current_depth dir <= i_current_depth dir' ->
  (forall l', de_at dir' l' = if decide (l' = l) then oe else de_at dir l') ->
  (forall e, oe = Some e -> ent_ok e /\
    (forall i p, l = InPage i p -> placed dir' (e_hash e) i) /\
    (forall l' e', l' <> l -> de_at dir l' = Some e' -> canon (e_name e) <> canon (e_name e'))) ->
  dir_rep dir' (map_change m (de_at dir l) oe).
Proof.
  intros [Hok Hm] Hsh Hl Hd Hat Hoe. split; [constructor; [done|..]|].
  - intros l' e. rewrite Hat. case_decide as Hc; [|apply (dk_valid dir Hok)]. intros E. by destruct (Hoe e E) as [? _].
  - intros i p e. rewrite Hat. case_decide as Hc; intros E.
    + destruct (Hoe e E) as (_ & Hp & _). by apply (Hp i p).
    + apply (placed_mono dir); [done|done|]. by apply (dk_place dir Hok i p).
  - intros l1 l2 e1 e2. rewrite !Hat. destruct (decide (l1 = l)) as [->|H1], (decide (l2 = l)) as [->|H2]; intros E1 E2 Hc; [done|..].
    + destruct (Hoe e1 E1) as (_ & _ & Hu). by destruct (Hu l2 e2 H2 E2).
    + destruct (Hoe e2 E2) as (_ & _ & Hu). by destruct (Hu l1 e1 H1 E1).
    + by apply (dk_uniq dir Hok l1 l2 e1 e2).
  - intros k e. unfold map_change.
    assert (Hm0 : forall k e, (match de_at dir l with Some e0 => delete (canon (e_name e0)) m | None => m end) !! k = Some e <->
              exists l', l' <> l /\ de_at dir l' = Some e /\ canon (e_name e) = k).
    { intros k' e'. destruct (de_at dir l) as [e0|] eqn:E0.
      - rewrite lookup_delete_Some, Hm. split.
        + intros (Hne & l' & E' & Hc). exists l'. split; [|done]. intros ->. congruence.
        + intros (l' & Hne & E' & Hc). split; [|by exists l']. intros Hk. apply Hne. apply (dk_uniq dir Hok l' l e' e0); [done|done|congruence].
      - rewrite Hm. split; intros (l' & Hx); exists l'; [split; [intros ->; naive_solver congruence|done]|naive_solver]. }
    destruct oe as [en|].
    + rewrite lookup_insert_Some, Hm0. destruct (Hoe en eq_refl) as (_ & _ & Hu). split.
      * intros [[<- <-]|(Hne & l' & Hl' & E' & Hc)]; [exists l; by rewrite Hat, decide_True|].
        exists l'. by rewrite Hat, decide_False.
      * intros (l' & E' & Hc). rewrite Hat in E'. case_decide as Hll; [left; naive_solver|right].
        split; [|by exists l']. intros Hk. by destruct (Hu l' e Hll E'); congruence.
    + rewrite Hm0. split; intros (l' & Hx); exists l'; rewrite Hat in *; [rewrite decide_False; tauto|].
      destruct Hx as [Hx Hc]. case_decide; [done|tauto].
Qed.

(** A block of the directory replaced by one that differs in one slot. *)
Lemma de_at_set_block dir dir' i b b' pos oe : d_inline dir' = d_inline dir -> d_pages dir !! i = Some b ->
  (d_pages dir' = <[i:=b']> (d_pages dir) \/ (d_pages dir' = delete i (d_pages dir) /\ forall q, entry_at b' q = None)) ->
  (forall q, entry_at b' q = if decide (q = pos) then oe else entry_at b q) ->
  forall l, de_at dir' l = if decide (l = InPage i pos) then oe else de_at dir l.
Proof.
  intros Hi Hb Hp He l. destruct l as [j q|q]; cbn [de_at]; [|by rewrite decide_False, Hi].
  destruct (decide (j = i)) as [->|Hne].
  - rewrite Hb. cbn [mbind option_bind]. destruct Hp as [->|[-> Hnone]].
    + rewrite lookup_insert_eq. cbn [mbind option_bind]. rewrite He. repeat case_decide; naive_solver.
    + rewrite lookup_delete_eq. cbn [mbind option_bind]. rewrite <-(Hnone q), He. repeat case_decide; naive_solver.
  - rewrite decide_False by congruence. destruct Hp as [->|[-> _]]; [by rewrite lookup_insert_ne|by rewrite lookup_delete_ne].
Qed.

Lemma shape_set_block dir i b b' : dir_shape dir -> d_pages dir !! i = Some b -> block_ok b' -> dmax b' = dmax b ->
  dir_shape (set_pages dir (<[i:=b']> (d_pages dir))).
Proof.
  intros [] Hb Hb' Hm. constructor; cbn; try done.
  - intros j bj. rewrite lookup_insert_Some. intros [[<- <-]|[Hne Hj]]; [|by apply dk_pages0].
    destruct (dk_pages0 i b Hb) as (_ & ? & ?). split; [done|]. split; [congruence|done].
  - intros d Hd. destruct (dk_inline0 d Hd) as (_ & He & _). rewrite He in Hb. by rewrite lookup_empty in Hb.
Qed.

Lemma shape_delete_block dir i : dir_shape dir -> dir_shape (set_pages dir (delete i (d_pages dir))).
Proof.
  intros []. constructor; cbn; try done.
  - intros j bj [Hne Hj]%lookup_delete_Some. by apply dk_pages0.
  - intros d Hd. destruct (dk_inline0 d Hd) as (? & He & ?). split; [done|]. by rewrite He, delete_empty.
Qed.

Lemma shape_set_inline dir d d' : dir_shape dir -> d_inline dir = Some d -> block_ok d' -> dmax d' = dmax d -> dir_shape (set_inline dir (Some d')).
Proof. intros [] Hd Hd' Hm. constructor; cbn; try done. intros d2 [= <-]. split; [done|]. rewrite Hm. by destruct (dk_inline0 d Hd). Qed.

Lemma de_at_set_inline dir d d' pos oe : d_inline dir = Some d ->
  (forall q, entry_at d' q = if decide (q = pos) then oe else entry_at d q) ->
  forall l, de_at (set_inline dir (Some d')) l = if decide (l = InInode pos) then oe else de_at dir l.
Proof.
  intros Hd He [j q|q]; cbn; [by rewrite decide_False|]. rewrite Hd. cbn. rewrite He. repeat case_decide; naive_solver.
Qed.

(** *** Deletion *)

Lemma delete_entry_spec hole dir l e m : dir_rep dir m -> de_at dir l = Some e ->
  exists dir', f2fs_delete_entry hole dir l = Some dir' /\ dir_rep dir' (delete (canon (e_name e)) m).
Proof.
  intros Hrep He. pose proof (proj1 Hrep) as Hok.
  replace (delete (canon (e_name e)) m) with (map_change m (de_at dir l) None) by (by rewrite He).
  destruct l as [i p|p]; cbn [f2fs_delete_entry de_at] in He |- *.
  - destruct (d_pages dir !! i) as [b|] eqn:Eb; [|done]. cbn [mbind option_bind] in He |- *. destruct (dk_pages dir Hok i b Eb) as (Hb & Hmx & _).
    destruct (delete_slots_ok b p e Hb He) as (b' & -> & Hb' & Hm' & Hat). cbn [mbind option_bind]. eexists. split; [done|].
    pose proof (shape_set_block dir i b b' Hok Eb Hb' Hm') as Hsh. replace (entry_at b p) with (de_at dir (InPage i p)) by (cbn; by rewrite Eb).
    destruct ((_ =? _)%nat && hole) eqn:Eh.
    + apply andb_true_iff in Eh as [Eh _]. apply Nat.eqb_eq in Eh. rewrite <-Hmx, <-Hm' in Eh.
      pose proof (proj1 (no_bits_no_entries b' 0 Hb' ltac:(lia)) Eh) as Eh'. clear Eh. rename Eh' into Eh. assert (Hnone : forall q, entry_at b' q = None).
      { apply empty_bits_entries; [done|]. intros q. apply Eh. lia. }
      apply (dir_rep_change dir _ m (InPage i p) None); try done. { apply shape_delete_block, Hok. }
      apply (de_at_set_block dir _ i b b' p); try done. by right.
    + apply (dir_rep_change dir _ m (InPage i p) None); try done. apply (de_at_set_block dir _ i b b' p); try done. by left.
  - destruct (d_inline dir) as [d|] eqn:Ed; [|done]. cbn [mbind option_bind] in He |- *. destruct (dk_inline dir Hok d Ed) as (Hb & _).
    destruct (delete_slots_ok d p e Hb He) as (d' & -> & Hb' & Hm' & Hat). cbn [mbind option_bind]. eexists. split; [done|].
    replace (entry_at d p) with (de_at dir (InInode p)) by (cbn; by rewrite Ed).
    apply (dir_rep_change dir _ m (InInode p) None); try done; [by apply (shape_set_inline dir d _ Hok)|]. by apply (de_at_set_inline dir d).
Qed.

(** *** A new inode number *)

Lemma relink_ok d pos ino mode e : block_ok d -> entry_at d pos = Some e ->
  exists d', relink d pos ino mode = Some d' /\ block_ok d' /\ dmax d' = dmax d /\
    forall q, entry_at d' q = if decide (q = pos) then Some (new_ent ino mode (e_name e) (e_hash e)) else entry_at d q.
Proof.
  intros Hok He. pose proof He as (de & Hp & ->)%entry_at_has. destruct Hp as (Hbit & Hde & Hnz) eqn:EHp. unfold relink. rewrite Hde. cbn [mbind option_bind].
  eexists. split; [done|]. set (de' := set_de_type _ mode). assert (Hlp := lookup_lt_Some _ _ _ Hde).
  set (d' := Build_f2fs_dentry_ptr (bitmap d) (<[pos:=de']> (dentry d)) (filename d) (dmax d)).
  assert (Hh : forall q x, has_entry d' q x <-> if decide (q = pos) then x = de' else has_entry d q x).
  { intros q x. unfold has_entry. cbn. case_decide as Hc; [subst q; rewrite list_lookup_insert_eq by done|by rewrite list_lookup_insert_ne].
    split; [naive_solver|]. intros ->. done. }
  assert (Hlen : forall q x, has_entry d' q x -> exists x', has_entry d q x' /\ name_len x' = name_len x).
  { intros q x Hx%Hh. case_decide as Hc; [|by exists x]. subst. by exists de. }
  assert (Hlen' : forall q x, has_entry d q x -> exists x', has_entry d' q x' /\ name_len x' = name_len x).
  { intros q x Hx. destruct (decide (q = pos)) as [->|Hc]; [|exists x; split; [|done]; apply Hh; by rewrite decide_False].
    exists de'. split; [apply Hh; by rewrite decide_True|]. destruct Hx as (_ & E & _). rewrite Hde in E. by injection E as ->. }
  split; [|split; [done|]].
  - constructor; cbn; rewrite ?length_insert; try apply Hok.
    + intros q x (x' & Hx & <-)%Hlen. by apply (bok_range d Hok).
    + intros q x r (x' & Hx & <-)%Hlen Hr. destruct (bok_inner d Hok q x' r Hx Hr) as (H1 & y & Hy & Hz). split; [done|].
      exists y. split; [|done]. rewrite list_lookup_insert_ne; [done|]. intros ->. congruence.
    + intros q Hq. destruct (bok_owner d Hok q Hq) as (r & x & Hx & Hr). destruct (Hlen' r x Hx) as (x' & Hx' & E). exists r, x'. rewrite E. done.
  - intros q. case_decide as Hc.
    + subst. apply entry_at_has. exists de'. split; [apply Hh; by rewrite decide_True|]. done.
    + unfold entry_at. cbn. by rewrite list_lookup_insert_ne.
Qed.

Lemma set_link_spec dir l e ino mode m : dir_rep dir m -> de_at dir l = Some e ->
  exists dir', f2fs_set_link dir l ino mode = Some dir' /\ dir_rep dir' (<[canon (e_name e) := new_ent ino mode (e_name e) (e_hash e)]> m).
Proof.
  intros Hrep He. pose proof (proj1 Hrep) as Hok. set (e' := new_ent ino mode (e_name e) (e_hash e)).
  replace (<[canon (e_name e) := e']> m) with (map_change m (de_at dir l) (Some e')) by (rewrite He; cbn; by rewrite insert_delete_eq).
  destruct (dk_valid dir Hok l e He) as (Hv & Hn & Hh & _).
  assert (Hnew : forall x, Some e' = Some x -> ent_ok x /\
    (forall i p, l = InPage i p -> placed dir (e_hash x) i) /\ (forall l' x', l' <> l -> de_at dir l' = Some x' -> canon (e_name x) <> canon (e_name x'))).
  { intros x [= <-]. split; [unfold ent_ok; conjs; try done; [apply u32_range..|apply type_by_mode_range]|]. split.
    - intros i p ->. exact (dk_place dir Hok i p e He).
    - intros l' x' Hne Hx' Hc. apply Hne. by apply (dk_uniq dir Hok l' l x' e). }
  destruct l as [i p|p]; cbn [f2fs_set_link de_at] in He |- *.
  - destruct (d_pages dir !! i) as [b|] eqn:Eb; [|done]. cbn [mbind option_bind] in He |- *. destruct (dk_pages dir Hok i b Eb) as (Hb & Hmx & _).
    destruct (relink_ok b p ino mode e Hb He) as (b' & -> & Hb' & Hm' & Hat). cbn [mbind option_bind]. eexists. split; [done|].
    replace (entry_at b p) with (de_at dir (InPage i p)) by (cbn; by rewrite Eb).
    apply (dir_rep_change dir _ m (InPage i p) (Some e')); try done; [by apply (shape_set_block dir i b _ Hok)|].
    apply (de_at_set_block dir _ i b b' p); try done. by left.
  - destruct (d_inline dir) as [d|] eqn:Ed; [|done]. cbn [mbind option_bind] in He |- *. destruct (dk_inline dir Hok d Ed) as (Hb & _).
    destruct (relink_ok d p ino mode e Hb He) as (d' & -> & Hb' & Hm' & Hat). cbn [mbind option_bind]. eexists. split; [done|].
    replace (entry_at d p) with (de_at dir (InInode p)) by (cbn; by rewrite Ed).
    apply (dir_rep_change dir _ m (InInode p) (Some e')); try done; [by apply (shape_set_inline dir d _ Hok)|]. by apply (de_at_set_inline dir d).
Qed.

(** *** Insertion *)

(** What the search for room changes: pages and size, not the rest. *)
Definition grown (dir dir' : dir_inode) : Prop :=
  d_inline dir' = d_inline dir /\ i_dir_level dir' = i_dir_level dir /\ i_current_depth dir' = i_current_depth dir /\ clevel dir' = clevel dir.

Lemma get_new_page_spec env dir m index dir' r : dir_rep dir m -> d_inline dir = None -> env_ok env ->
  f2fs_get_new_data_page (env_alloc env) dir index = (dir', r) ->
  dir_rep dir' m /\ grown dir dir' /\
  match r with inl err => env_alloc env index = Some err | inr b => d_pages dir' !! index = Some b end.
Proof.
  intros [Hok Hm] Hin (_ & Hal & _). unfold f2fs_get_new_data_page. destruct (env_alloc env index) as [err|] eqn:Ea.
  { intros [= <- <-]. done. }
  specialize (Hal index Ea). intros [= <- <-]. pose proof (dk_size dir Hok) as Hsz.
  set (b := default _ _). set (dir1 := set_pages dir (<[index:=b]> (d_pages dir))).
  set (dir2 := if i_size dir1 <? Z.shiftl (index + 1) PAGE_SHIFT then f2fs_i_size_write dir1 (Z.shiftl (index + 1) PAGE_SHIFT) else dir1).
  change (dir_rep dir2 m /\ grown dir dir2 /\ d_pages dir2 !! index = Some b).
  assert (Hp2 : d_pages dir2 = <[index:=b]> (d_pages dir)) by (unfold dir2; by destruct (_ <? _)).
  assert (Hg : grown dir dir2) by (unfold dir2; by destruct (_ <? _)).
  assert (Hs2 : 0 <= i_size dir2 < 2 ^ 63 /\ i_size dir <= i_size dir2 /\ Z.shiftl (index + 1) PAGE_SHIFT <= i_size dir2).
  { unfold dir2, PAGE_SHIFT. rewrite Z.shiftl_mul_pow2 by lia. destruct (Z.ltb_spec (i_size dir1) ((index + 1) * 2 ^ 12)); cbn in *; lia. }
  assert (Hb : block_ok b /\ dmax b = NR_DENTRY_IN_BLOCK).
  { unfold b. destruct (d_pages dir !! index) eqn:E; cbn; [by destruct (dk_pages dir Hok index _ E) as (? & ? & _)|]. split; [apply zero_block_ok|done]. }
  assert (Hat : forall l, de_at dir2 l = de_at dir l).
  { destruct Hg as (Hi & _). intros [i p|p]; cbn [de_at]; [|by rewrite Hi]. rewrite Hp2. destruct (decide (i = index)) as [->|]; [|by rewrite lookup_insert_ne].
    rewrite lookup_insert_eq. unfold b. destruct (d_pages dir !! index); cbn; [done|]. apply zero_block_ok. }
  pose proof Hg as (Hi & Hl & Hd & Hc). split; [split|split; [done|by rewrite Hp2, lookup_insert_eq]].
  - constructor; [constructor|..]; rewrite ?Hl, ?Hd, ?Hc, ?Hi, ?Hin; try (apply Hok); try done; try tauto.
    + intros i bi. rewrite Hp2. rewrite lookup_insert_Some. intros [[<- <-]|[Hne Ei]]; [tauto|].
      destruct (dk_pages dir Hok i bi Ei) as (? & ? & ? & ?). split; [done|]. split; [done|]. split; [done|lia].
    + intros l e. rewrite Hat. apply (dk_valid dir Hok).
    + intros i p e. rewrite Hat. intros E. apply (placed_mono dir); [done|lia|]. by apply (dk_place dir Hok i p).
    + intros l l' e e'. rewrite !Hat. apply (dk_uniq dir Hok).
  - intros k e. rewrite Hm. f_equiv. intros l. by rewrite Hat.
Qed.

Lemma grown_trans d1 d2 d3 : grown d1 d2 -> grown d2 d3 -> grown d1 d3.
Proof. unfold grown. naive_solver congruence. Qed.

(** A place for [n] slots in a block of the directory. *)
Definition has_room (dir : dir_inode) (n : nat) (place : Z * f2fs_dentry_ptr * nat) : Prop :=
  let '(block, b, pos) := place in
  d_pages dir !! block = Some b /\ (pos + n <= NR_DENTRY_IN_BLOCK)%nat /\ free_run (bitmap b) pos n.

Lemma room_in_bucket_spec env n dir m slots block : dir_rep dir m -> d_inline dir = None -> env_ok env -> (0 < slots)%nat ->
  0 <= block -> block + Z.of_nat n < 2 ^ 64 ->
  exists dir' r, room_in_bucket n (env_alloc env) dir slots block = (dir', r) /\ dir_rep dir' m /\ grown dir dir' /\
    match r with
    | inl err => exists i, env_alloc env i = Some err
    | inr (Some place) => has_room dir' slots place /\ block <= place.1.1 < block + Z.of_nat n
    | inr None => True
    end.
Proof.
  intros Hrep Hin He Hsl. revert dir block Hrep Hin. induction n as [|n IH]; intros dir block Hrep Hin Hb Hm; cbn -[u64 Nat.ltb].
  { exists dir, (inr None). split; [done|]. split; [done|]. split; [done|done]. }
  destruct (f2fs_get_new_data_page (env_alloc env) dir block) as [dir1 r1] eqn:E1.
  destruct (get_new_page_spec env dir m block dir1 r1 Hrep Hin He E1) as (Hrep1 & Hg1 & Hr1).
  destruct r1 as [err|b]; [eexists _, _; split; [done|]; eauto|].
  destruct (room_first_fit (bitmap b) slots NR_DENTRY_IN_BLOCK Hsl) as (Hroom & _ & _).
  destruct (Nat.ltb_spec (f2fs_room_for_filename (bitmap b) slots NR_DENTRY_IN_BLOCK) NR_DENTRY_IN_BLOCK) as [Hlt|Hge].
  { eexists _, _. split; [done|]. split; [done|]. split; [done|]. cbn. destruct (Hroom Hlt). conjs; try done; lia. }
  rewrite u64_small by lia. destruct (IH dir1 (block + 1)) as (dir2 & r & -> & Hrep2 & Hg2 & Hr); try done; try lia.
  { by rewrite (proj1 Hg1). }
  eexists _, _. split; [done|]. split; [done|]. split; [by eapply grown_trans|]. destruct r as [err|[place|]]; try done. split; [tauto|lia].
Qed.

(** The block numbers of the levels there are do not wrap in 64 bits. *)
Lemma level_sum_bound n i b dl : 0 <= b -> b + Z.of_nat n * 2 ^ 32 < 2 ^ 64 -> 0 <= level_sum n i b dl <= b + Z.of_nat n * 2 ^ 32.
Proof.
  revert i b. induction n as [|n IH]; intros i b Hb Hm; cbn -[u64 u32 Z.of_nat]; [lia|].
  pose proof (u32_range (dir_buckets i dl * bucket_blocks i)). rewrite u64_small by lia.
  set (x := u32 _) in *. specialize (IH (i + 1) (b + x)). lia.
Qed.
Lemma bucket_start_bound dir l h : 0 <= l <= 63 -> 0 <= bucket_start dir l h < 2 ^ 40.
Proof.
  intros Hl. unfold bucket_start, dir_block_index. pose proof (level_sum_bound (Z.to_nat l) 0 0 (i_dir_level dir) ltac:(lia) ltac:(lia)).
  pose proof (u32_range (h mod dir_buckets l (i_dir_level dir) * bucket_blocks l)). rewrite u64_small; lia.
Qed.

(** The search for room returns a place in the bucket of the name on a level of
    the new depth, or an error, and keeps the directory as it was otherwise. *)
Lemma find_room_spec fuel env dir m f level depth : dir_rep dir m -> d_inline dir = None -> env_ok env -> name_ok (name_of f) ->
  0 <= level <= depth -> depth <= MAX_DIR_HASH_DEPTH -> MAX_DIR_HASH_DEPTH - level < Z.of_nat fuel ->
  exists dir' r, find_room fuel (env_alloc env) dir f level depth = Some (dir', r) /\ dir_rep dir' m /\ grown dir dir' /\
    match r with
    | inl err => err = - ENOSPC \/ exists i, env_alloc env i = Some err
    | inr (depth', place) => depth <= depth' <= MAX_DIR_HASH_DEPTH /\ has_room dir' (fname_slots f) place /\
        exists l, 0 <= l < depth' /\ bucket_start dir l (fhash f) <= place.1.1 < bucket_start dir l (fhash f) + bucket_blocks l
    end.
Proof.
  intros Hrep Hin He Hn. revert dir level depth Hrep Hin. induction fuel as [|fuel IH]; intros dir level depth Hrep Hin Hl Hd Hf; [lia|].
  cbn -[u32 u64]. pose proof hash_depth_range. destruct (Z.eqb_spec depth MAX_DIR_HASH_DEPTH).
  { eexists _, _. split; [done|]. split; [done|]. split; [done|]. by left. }
  set (depth' := if level =? depth then depth +! 1 else depth).
  assert (Hd' : depth <= depth' <= MAX_DIR_HASH_DEPTH /\ level < depth') by (unfold depth'; destruct (Z.eqb_spec level depth); rewrite ?u32_small; lia).
  fold (bucket_start dir level (fhash f)). pose proof (bucket_blocks_pos level).
  pose proof (bucket_start_bound dir level (fhash f) ltac:(lia)) as Hbs.
  destruct (room_in_bucket_spec env (Z.to_nat (bucket_blocks level)) dir m (fname_slots f) (bucket_start dir level (fhash f)))
    as (dir1 & r1 & -> & Hrep1 & Hg1 & Hr1); try done; try lia.
  { apply dslots_pos. apply Hn. }
  destruct r1 as [err|[place|]].
  - eexists _, _. split; [done|]. split; [done|]. split; [done|]. by right.
  - eexists _, _. split; [done|]. split; [done|]. split; [done|]. split; [lia|]. split; [tauto|]. exists level. split; [lia|]. rewrite Z2Nat.id in Hr1 by lia. tauto.
  - rewrite u32_small by lia. assert (Hbsame : forall l h, bucket_start dir1 l h = bucket_start dir l h).
    { intros l h. unfold bucket_start. by destruct Hg1 as (_ & -> & _). }
    destruct (IH dir1 (level + 1) depth') as (dir2 & r & E & Hrep2 & Hg2 & Hr); try done; try lia.
    { by rewrite (proj1 Hg1). }
    eexists _, _. split; [done|]. split; [done|]. split; [by eapply grown_trans|]. destruct r as [err|[dp place]]; [done|].
    split; [lia|]. split; [tauto|]. destruct Hr as (_ & _ & l & Hll & Hb). exists l. rewrite Hbsame in Hb. done.
Qed.

Lemma map_change_new m e : map_change m None (Some e) = <[canon (e_name e) := e]> m.
Proof. done. Qed.

(** A name put into a place with room. *)
Lemma insert_at_spec dir m f ino mode depth block b pos : dir_rep dir m -> d_inline dir = None -> hashed f ->
  m !! canon (name_of f) = None -> has_room dir (fname_slots f) (block, b, pos) ->
  i_current_depth dir <= depth <= MAX_DIR_HASH_DEPTH ->
  (exists l, 0 <= l < depth /\ bucket_start dir l (fhash f) <= block < bucket_start dir l (fhash f) + bucket_blocks l) ->
  exists b', f2fs_update_dentry ino mode b (name_of f) (fhash f) pos = Some b' /\
    let dir1 := set_pages dir (<[block := b']> (d_pages dir)) in
    dir_rep (if i_current_depth dir1 =? depth then dir1 else f2fs_i_depth_write dir1 depth)
      (<[canon (name_of f) := new_ent ino mode (name_of f) (fhash f)]> m).
Proof.
  intros Hrep Hin Hf Hm (Hb & Hpos & Hrun) Hd Hl. pose proof (proj1 (proj2 Hf)) as Hn. pose proof (proj1 Hrep) as Hok. destruct (dk_pages dir Hok block b Hb) as (Hbok & Hmx & _).
  destruct (update_dentry_ok ino mode b (name_of f) (fhash f) pos Hbok Hn) as (b' & E & Hb' & Hm' & Hat); [by rewrite Hmx|done|].
  exists b'. split; [done|]. intros dir1. set (dir2 := if _ =? _ then dir1 else _).
  pose proof (shape_set_block dir block b b' Hok Hb Hb' Hm') as Hsh.
  assert (Hp2 : d_pages dir2 = <[block:=b']> (d_pages dir) /\ d_inline dir2 = d_inline dir /\ i_dir_level dir2 = i_dir_level dir /\ i_current_depth dir2 = depth).
  { unfold dir2. destruct (Z.eqb_spec (i_current_depth dir1) depth); done. }
  destruct Hp2 as (Hp2 & Hi2 & Hl2 & Hd2).
  assert (Hnone : de_at dir (InPage block pos) = None).
  { cbn. rewrite Hb. cbn. apply free_no_entry. apply Hrun. pose proof (dslots_pos _ (proj1 Hn)). unfold fname_slots. fold (name_of f). lia. }
  replace (<[canon (name_of f) := _]> m) with (map_change m (de_at dir (InPage block pos)) (Some (new_ent ino mode (name_of f) (fhash f)))) by (by rewrite Hnone).
  apply (dir_rep_change dir); try done; try lia.
  - unfold dir2. destruct (Z.eqb_spec (i_current_depth dir1) depth) as [|Hne]; [done|]. destruct Hsh. constructor; cbn in *; try done; lia.
  - apply (de_at_set_block dir dir2 block b b' pos); try done. by left.
  - intros e [= <-]. split; [by apply new_ent_ok|]. split.
    + intros i p [= -> ->]. destruct Hl as (l & Hll & Hbl). exists l. rewrite Hd2. unfold bucket_start in *. rewrite Hl2. done.
    + intros l' e' _ He' Hc. assert (m !! canon (name_of f) = Some e') as E'; [|congruence]. apply Hrep. by exists l'.
Qed.

Lemma add_regular_spec {S} (init : S -> S * option Z) (fini : S -> S) env dir f ino mode st m :
  dir_rep dir m -> d_inline dir = None -> hashed f -> env_ok env -> m !! canon (name_of f) = None ->
  exists dir' st' err, f2fs_add_regular_entry init fini env dir f ino mode st = Some (dir', st', err) /\ d_inline dir' = None /\ i_dir_level dir' = i_dir_level dir /\ clevel dir' = clevel dir /\
    ((err = 0 /\ dir_rep dir' (<[canon (name_of f) := new_ent ino mode (name_of f) (fhash f)]> m) /\ exists st1, init st = (st1, None) /\ st' = fini st1) \/
     (dir_rep dir' m /\ (init st = (st', Some err) \/ st' = st /\ (err = - ENOSPC \/ exists i, env_alloc env i = Some err)))).
Proof.
  intros Hrep Hin Hf He Hm. pose proof (proj1 (proj2 Hf)) as Hn. pose proof (proj1 Hrep) as Hok. pose proof (dk_hint dir Hok) as Hh. pose proof (dk_depth dir Hok) as Hd.
  pose proof hash_depth_range. unfold f2fs_add_regular_entry.
  set (ld := if chash dir =? fhash f then _ else _). destruct ld as [level dir0] eqn:Eld. subst ld.
  assert (Hd0 : dir_rep dir0 m /\ d_inline dir0 = None /\ 0 <= level <= i_current_depth dir /\ i_current_depth dir0 = i_current_depth dir /\
    i_dir_level dir0 = i_dir_level dir /\ clevel dir0 = clevel dir).
  { destruct (chash dir =? fhash f); injection Eld as <- <-; (split; [|split; [done|cbn; split; [lia|conjs; done]]]); [|done].
    by apply (dir_rep_same dir); [done|cbn; lia|cbn; lia| |]. }
  destruct Hd0 as (Hrep0 & Hin0 & Hlev & Hdep0 & Hdl0 & Hcl0).
  destruct (find_room_spec find_room_fuel env dir0 m f level (i_current_depth dir)) as (dir1 & r & -> & Hrep1 & Hg & Hr); try done; try lia.
  { unfold find_room_fuel. lia. }
  cbn [mbind option_bind]. assert (Hin1 : d_inline dir1 = None) by (by rewrite (proj1 Hg)).
  assert (Hdl1 : i_dir_level dir1 = i_dir_level dir /\ clevel dir1 = clevel dir) by (destruct Hg as (_ & -> & _ & ->); done). destruct Hdl1 as [Hdl1 Hcl1].
  destruct r as [err|[depth [[block b] pos]]].
  { eexists _, _, _. split; [done|]. split; [done|]. split; [done|]. split; [done|]. right. split; [done|]. by right. }
  destruct (init st) as [st1 [err|]] eqn:Ei.
  { eexists _, _, _. split; [done|]. split; [done|]. split; [done|]. split; [done|]. right. split; [done|]. by left. }
  destruct Hr as (Hdep & Hroom & l & Hl & Hbl). destruct Hg as (_ & Hgl & Hgd & _).
  fold (name_of f). destruct (insert_at_spec dir1 m f ino mode depth block b pos) as (b' & -> & Hrep2); try done; try lia.
  { exists l. unfold bucket_start in *. rewrite Hgl. done. }
  cbn [mbind option_bind]. eexists _, _, _. split; [done|]. split; [destruct (i_current_depth _ =? depth); exact Hin1|].
  split; [destruct (i_current_depth _ =? depth); exact Hdl1|]. split; [destruct (i_current_depth _ =? depth); exact Hcl1|]. left. split; [done|]. split; [done|]. eauto.
Qed.
End rep.
