(* ===== verification/DirOps.v ===== *)
(** * Whole directory operations (dir.c, inline.c)

    Entries in the inode and their move to blocks, the insertion of a name with
    its choice between the two layouts, and the listing of a directory. *)

From S2P Require Import Prelude.
From S2P Require Import Hash.
From S2P Require Import DirName.
From S2P Require Import DentryBlock.
From S2P Require Import Directory.

Definition ERESTARTSYS : Z := 512.

Section ops.
Context `{DirFormat} (match_name : dir_filename -> list Z -> Z).

(** ** The area of entries in an inode (f2fs.h) *)

(** [SIZE_OF_DIR_ENTRY] of the format header; the sizes derived from the bytes the
    inode has for inline data. *)
Context (SIZE_OF_DIR_ENTRY : Z) (MAX_INLINE_DATA : Z).
Definition NR_INLINE_DENTRY : Z := MAX_INLINE_DATA * 8 / ((SIZE_OF_DIR_ENTRY + Z.of_nat F2FS_SLOT_LEN) * 8 + 1).
Definition INLINE_DENTRY_BITMAP_SIZE : Z := (NR_INLINE_DENTRY + 8 - 1) / 8.
Definition INLINE_RESERVED_SIZE : Z :=
  MAX_INLINE_DATA - ((SIZE_OF_DIR_ENTRY + Z.of_nat F2FS_SLOT_LEN) * NR_INLINE_DENTRY + INLINE_DENTRY_BITMAP_SIZE).

(** The offsets [make_dentry_ptr_inline] gives to bitmap, entries and names. *)
Definition inline_offsets : Z * Z * Z :=
  (0, INLINE_DENTRY_BITMAP_SIZE + INLINE_RESERVED_SIZE,
   INLINE_DENTRY_BITMAP_SIZE + INLINE_RESERVED_SIZE + SIZE_OF_DIR_ENTRY * NR_INLINE_DENTRY).

(** ** From the inode to blocks *)

(** The copy of [f2fs_move_inline_dirents] into a page with contents [old]; the bits
    of the last byte of the bitmap behind the last slot are never set. *)
Definition copy_dirents (src old : f2fs_dentry_ptr) : f2fs_dentry_ptr :=
  {| bitmap := bitmap src ++ replicate (NR_DENTRY_IN_BLOCK - dmax src) false;
     dentry := dentry src ++ drop (dmax src) (dentry old);
     filename := filename src ++ drop (dmax src * F2FS_SLOT_LEN) (filename old);
     dmax := NR_DENTRY_IN_BLOCK |}.

(** [f2fs_move_inline_dirents]; [cerr] is the error of getting the page and of
    reserving its block, [old] the contents of the page. *)
Definition f2fs_move_inline_dirents (cerr : option Z) (old : f2fs_dentry_ptr) (dir : dir_inode) (src : f2fs_dentry_ptr) : dir_inode * Z :=
  match cerr with
  | Some err => (dir, err)
  | None =>
      let dir := set_pages dir (<[0 := copy_dirents src old]> (d_pages dir)) in
      let dir := f2fs_i_depth_write (set_inline dir None) 1 in
      (if i_size dir <? PAGE_SIZE then f2fs_i_size_write dir PAGE_SIZE else dir, 0)
  end.

(** The name of an entry that is moved: only its bytes and its hash are used. *)
Definition moved_name (name : list Z) (hash : Z) : dir_filename :=
  {| fname := {| disk_name := name; usr_fname := []; cf_name := None |}; fhash := hash |}.

(** The loop of [f2fs_add_inline_entries] from slot [bit_pos] on. *)
Fixpoint add_inline_loop (fuel : nat) (env : dir_env) (dir : dir_inode) (d : f2fs_dentry_ptr) (bit_pos : nat) : option (dir_inode * Z) :=
  match fuel with
  | O => None
  | S fuel =>
      if (dmax d <=? bit_pos)%nat then Some (dir, 0)
      else if negb (test_bit_le bit_pos (bitmap d)) then add_inline_loop fuel env dir d (S bit_pos)
      else
        de ← dentry d !! bit_pos;
        if name_len de =? 0 then add_inline_loop fuel env dir d (S bit_pos)
        else
          let fake_mode := u16 (Z.shiftl (f2fs_get_de_type de) S_SHIFT) in
          '(dir, _, err) ← f2fs_add_regular_entry (S := unit) (fun st => (st, None)) id env dir
              (moved_name (de_name d bit_pos (name_len de)) (hash_code de)) (de_ino de) fake_mode tt;
          if err =? 0 then add_inline_loop fuel env dir d (bit_pos + dslots (name_len de))
          else Some (dir, err)
  end.

(** [f2fs_add_inline_entries]: on an error the pages are dropped again. *)
Definition f2fs_add_inline_entries (env : dir_env) (dir : dir_inode) (d : f2fs_dentry_ptr) : option (dir_inode * Z) :=
  '(dir, err) ← add_inline_loop (S (dmax d)) env dir d 0;
  Some (if err =? 0 then dir else set_pages dir ∅, err).

(** [f2fs_move_rehashed_dirents]; [kerr] is the error of allocating the backup.
    The entries are added to blocks while the inode's area is zeroed. *)
Definition f2fs_move_rehashed_dirents (kerr : option Z) (env : dir_env) (dir : dir_inode) (src : f2fs_dentry_ptr) : option (dir_inode * Z) :=
  match kerr with
  | Some err => Some (dir, err)
  | None =>
      '(dir, err) ← f2fs_add_inline_entries env (set_inline dir None) src;
      Some (if err =? 0 then (dir, 0)
            else (f2fs_i_size_write (f2fs_i_depth_write (set_inline dir (Some src)) 0) MAX_INLINE_DATA, err))
  end.

(** What the outside answers to a conversion. *)
Record conv_env := { conv_err : option Z; conv_old : f2fs_dentry_ptr }.

Definition do_convert_inline_dir (cenv : conv_env) (env : dir_env) (dir : dir_inode) (src : f2fs_dentry_ptr) : option (dir_inode * Z) :=
  if i_dir_level dir =? 0 then Some (f2fs_move_inline_dirents (conv_err cenv) (conv_old cenv) dir src)
  else f2fs_move_rehashed_dirents (conv_err cenv) env dir src.

(** [f2fs_has_enough_room] and [f2fs_try_convert_inline_dir]. *)
Definition f2fs_has_enough_room (d : f2fs_dentry_ptr) (f : dir_filename) : bool :=
  (f2fs_room_for_filename (bitmap d) (fname_slots f) (dmax d) <? dmax d)%nat.
Definition f2fs_try_convert_inline_dir (cenv : conv_env) (env : dir_env) (dir : dir_inode) (f : Z + dir_filename) : option (dir_inode * Z) :=
  match d_inline dir with
  | None => Some (dir, 0)
  | Some d =>
      match f with
      | inl err => Some (dir, err)
      | inr f =>
          match env_ipage env with
          | Some err => Some (dir, err)
          | None => if f2fs_has_enough_room d f then Some (dir, 0) else do_convert_inline_dir cenv env dir d
          end
      end
  end.

(** ** Insertion of a name *)

Section insertion.
Context {S : Type} (init : S -> S * option Z) (fini : S -> S).

Definition f2fs_add_inline_entry (cenv : conv_env) (env : dir_env) (dir : dir_inode) (d : f2fs_dentry_ptr) (f : dir_filename) (ino mode : Z) (st : S)
    : option (dir_inode * S * Z) :=
  match env_ipage env with
  | Some err => Some (dir, st, err)
  | None =>
      let bit_pos := f2fs_room_for_filename (bitmap d) (fname_slots f) (dmax d) in
      if (dmax d <=? bit_pos)%nat then
        '(dir, err) ← do_convert_inline_dir cenv env dir d;
        Some (dir, st, if err =? 0 then - EAGAIN else err)
      else
        match init st with
        | (st, Some err) => Some (dir, st, err)
        | (st, None) =>
            d ← f2fs_update_dentry ino mode d (disk_name (fname f)) (fhash f) bit_pos;
            let dir := set_inline dir (Some d) in
            let dir := if i_current_depth dir =? 0 then dir else f2fs_i_depth_write dir 0 in
            Some (dir, fini st, 0)
        end
  end.

Definition f2fs_add_dentry (cenv : conv_env) (env : dir_env) (dir : dir_inode) (f : dir_filename) (ino mode : Z) (st : S) : option (dir_inode * S * Z) :=
  '(dir, st, err) ←
    match d_inline dir with
    | Some d => f2fs_add_inline_entry cenv env dir d f ino mode st
    | None => Some (dir, st, - EAGAIN)
    end;
  if err =? - EAGAIN then f2fs_add_regular_entry init fini env dir f ino mode st else Some (dir, st, err).

(** [f2fs_do_add_link] on a prepared name: another task than the one that
    looked the name up looks again. *)
Definition f2fs_do_add_link (cenv : conv_env) (env : dir_env) (dir : dir_inode) (f : dir_filename) (ino mode : Z) (st : S) : option (dir_inode * S * Z) :=
  '(dir, r) ←
    if decide (dtask dir = Some (current env)) then Some (dir, inr None)
    else '(dir, r) ← __f2fs_find_entry match_name env dir f; Some (set_task dir None, r);
  match r with
  | inr (Some _) => Some (dir, st, - EEXIST)
  | inl err => Some (dir, st, err)
  | inr None => f2fs_add_dentry cenv env dir f ino mode st
  end.
End insertion.

(** ** Listing *)

Section listing.
Context (encrypted : bool) (disk_to_usr : Z -> list Z -> Z + list Z) (actor : list dirent -> dirent -> bool).

(** The loop of [f2fs_readdir] over the blocks from [n] on; [sig] says before which
    blocks a fatal signal is pending. *)
Fixpoint readdir_loop (k : nat) (sig : Z -> bool) (io : Z -> option Z) (dir : dir_inode) (n : Z) (ctx : dir_context) (fsck : bool)
    : option (Z * dir_context * bool) :=
  match k with
  | O => Some (0, ctx, fsck)
  | S k =>
      let next := fun ctx => {| ctx_pos := (n +! 1) *! Z.of_nat NR_DENTRY_IN_BLOCK; emitted := emitted ctx |} in
      if sig n then Some (- ERESTARTSYS, ctx, fsck)
      else
        match f2fs_find_data_page io dir n with
        | inl err => if err =? - ENOENT then readdir_loop k sig io dir (n +! 1) (next ctx) fsck else Some (err, ctx, fsck)
        | inr b =>
            '(err, ctx, fsck) ← f2fs_fill_dentries encrypted disk_to_usr actor ctx b (n *! Z.of_nat NR_DENTRY_IN_BLOCK) fsck;
            if err =? 0 then readdir_loop k sig io dir (n +! 1) (next ctx) fsck else Some (err, ctx, fsck)
        end
  end.

(** [f2fs_read_inline_dir]. *)
Definition f2fs_read_inline_dir (ierr : option Z) (d : f2fs_dentry_ptr) (ctx : dir_context) (fsck : bool) : option (Z * dir_context * bool) :=
  if ctx_pos ctx =? Z.of_nat (dmax d) then Some (0, ctx, fsck)
  else
    match ierr with
    | Some err => Some (err, ctx, fsck)
    | None =>
        '(err, ctx, fsck) ← f2fs_fill_dentries encrypted disk_to_usr actor ctx d 0 fsck;
        let ctx := if err =? 0 then {| ctx_pos := Z.of_nat (dmax d); emitted := emitted ctx |} else ctx in
        Some (if err <? 0 then err else 0, ctx, fsck)
    end.

(** [f2fs_readdir] after the buffer of decrypted names is there. *)
Definition f2fs_readdir (sig : Z -> bool) (env : dir_env) (dir : dir_inode) (ctx : dir_context) (fsck : bool) : option (Z * dir_context * bool) :=
  match d_inline dir with
  | Some d => f2fs_read_inline_dir (env_ipage env) d ctx fsck
  | None =>
      let n := u32 (u64 (ctx_pos ctx) / Z.of_nat NR_DENTRY_IN_BLOCK) in
      '(err, ctx, fsck) ← readdir_loop (Z.to_nat (dir_blocks dir - n)) sig (env_io env) dir n ctx fsck;
      Some (if err <? 0 then err else 0, ctx, fsck)
  end.
End listing.
End ops.
