(* ===== verification/DirRefine.v ===== *)
(** * Conversion and insertion refine the map

    Moving the entries of an inode to blocks keeps the map of a directory; the
    insertion of a name inserts into it, in either layout. *)

From S2P Require Import Prelude.
From S2P Require Import Hash.
From S2P Require Import DirName.
From S2P Require Import DentryBlock.
From S2P Require Import Directory.
From S2P Require Import DirProps.
From S2P Require Import DirOps.

Section refine.
Context `{DirFormat} (match_name : dir_filename -> list Z -> Z) `{!NameMatching match_name}.
Context (MAX_INLINE_DATA : Z) (inline_range : 0 <= MAX_INLINE_DATA < 2 ^ 63).

(** ** File types survive a move *)

Lemma list_find_unique {A B} `{EqDecision B} (g : A -> B) (l : list A) x : NoDup (g <$> l) -> x ∈ l ->
  exists i, list_find (fun y => g y = g x) l = Some (i, x).
Proof.
  intros Hn (i & Hi)%list_elem_of_lookup_1. exists i. apply list_find_Some. split; [done|]. split; [done|].
  intros j y Hj Hlt Heq. assert (i = j) as ->; [|lia].
  apply (NoDup_lookup (g <$> l) i j (g x)); [done|rewrite list_lookup_fmap, Hi; done|rewrite list_lookup_fmap, Hj; cbn; congruence].
Qed.

Lemma fake_mode_type t : t = 0 \/ t ∈ type_table.*2 ->
  f2fs_type_by_mode (Z.shiftr (Z.land (u16 (Z.shiftl (de_type_of t) S_SHIFT)) S_IFMT) S_SHIFT) = t.
Proof.
  destruct file_types as (Hr & Hnd & Hmax). unfold de_type_of. intros [->|Ht].
  - assert (0 < FT_MAX) by (apply list.Forall_cons in Hr as [? _]; lia). destruct (Z.ltb_spec 0 FT_MAX); [|lia].
    unfold f2fs_filetype_table. destruct (list_find (fun e => e.2 = 0) type_table) as [[i x]|] eqn:E; [|done].
    apply list_find_Some in E as (E & E0 & _). apply list_elem_of_lookup_2, (list_elem_of_fmap_2 snd) in E.
    rewrite list.Forall_forall in Hr. specialize (Hr _ E). cbn in Hr. lia.
  - assert (0 < t < FT_MAX) by (rewrite list.Forall_forall in Hr; by apply Hr). destruct (Z.ltb_spec t FT_MAX); [|lia].
    apply list_elem_of_fmap in Ht as (x & -> & Hx).
    destruct (list_find_unique snd type_table x) as (i & Hi); [done|done|]. unfold f2fs_filetype_table. rewrite Hi.
    assert (Hx1 : Z.shiftr (Z.land (u16 (Z.shiftl x.1 S_SHIFT)) S_IFMT) S_SHIFT = x.1).
    { unfold type_table in Hx. rewrite !elem_of_cons, elem_of_nil in Hx. destruct_or! Hx; subst; done. }
    rewrite Hx1. destruct (list_find_unique fst type_table x) as (j & Hj); [|done|].
    { cbn. refine (bool_decide_unpack _ _). vm_compute. exact I. }
    unfold f2fs_type_by_mode. by rewrite Hj.
Qed.

(** An entry inserted again with the mode made of its type is the same entry. *)
Lemma moved_ent e : ent_ok match_name e ->
  new_ent (e_ino e) (u16 (Z.shiftl (de_type_of (e_type e)) S_SHIFT)) (e_name e) (e_hash e) = e.
Proof.
  intros (_ & _ & _ & Hi & Ht). unfold new_ent. rewrite fake_mode_type by done. rewrite u32_small by done. by destruct e.
Qed.

(** ** The copy of a small block into a page *)

Lemma test_bit_app_false q bm n : test_bit_le q (bm ++ replicate n false) = test_bit_le q bm.
Proof.
  unfold test_bit_le. destruct (decide (q < length bm)%nat); [by rewrite lookup_app_l|].
  rewrite lookup_app_r, (lookup_ge_None_2 bm) by lia. destruct (replicate n false !! _) eqn:E; [|done]. by apply lookup_replicate in E as [-> _].
Qed.

Lemma copy_dirents_ok src old : block_ok src -> (dmax src <= NR_DENTRY_IN_BLOCK)%nat ->
  length (dentry old) = NR_DENTRY_IN_BLOCK -> length (filename old) = (NR_DENTRY_IN_BLOCK * F2FS_SLOT_LEN)%nat ->
  block_ok (copy_dirents src old) /\ forall q, entry_at (copy_dirents src old) q = entry_at src q.
Proof.
  intros Hok Hm Hd Hf. pose proof (bok_bm src Hok) as Lb. pose proof (bok_de src Hok) as Ld. pose proof (bok_fn src Hok) as Lf.
  assert (Hdl : forall q, (q < dmax src)%nat -> dentry (copy_dirents src old) !! q = dentry src !! q) by (intros q Hq; cbn; by rewrite lookup_app_l by lia).
  assert (Hh : forall q de, has_entry (copy_dirents src old) q de <-> has_entry src q de).
  { intros q de. unfold has_entry. cbn [bitmap copy_dirents]. rewrite test_bit_app_false. destruct (decide (q < dmax src)%nat) as [Hq|Hq]; [by rewrite Hdl|].
    split; intros (Hb & _); apply test_bit_lt in Hb; lia. }
  split.
  - constructor; cbn [dmax copy_dirents bitmap filename dentry].
    + rewrite length_app, length_replicate. lia.
    + rewrite length_app, length_drop. lia.
    + rewrite length_app, length_drop, Lf, Hf. apply (Nat.mul_le_mono_r _ _ F2FS_SLOT_LEN) in Hm. lia.
    + intros p de Hp%Hh. destruct (bok_range src Hok p de Hp). split; [done|lia].
    + intros p de q Hp%Hh Hq. destruct (bok_inner src Hok p de q Hp Hq) as (Hb & de' & Hde & Hz). rewrite test_bit_app_false. split; [done|].
      exists de'. split; [|done]. rewrite <-Hde. apply lookup_app_l. apply test_bit_lt in Hb. lia.
    + intros q. rewrite test_bit_app_false. intros Hb. destruct (bok_owner src Hok q Hb) as (p & de & Hp & Hr). exists p, de. split; [by apply Hh|done].
  - intros q. destruct (entry_at src q) as [e|] eqn:E.
    + apply entry_at_has in E as (de & Hq & ->). apply entry_at_has. exists de. split; [by apply Hh|]. f_equal.
      destruct (bok_range src Hok q de Hq) as [Hn Hr]. pose proof (dslots_bytes (name_len de) ltac:(lia)). unfold de_name. cbn [filename copy_dirents].
      apply (Nat.mul_le_mono_r _ _ F2FS_SLOT_LEN) in Hr. rewrite drop_app_le, take_app_le by (rewrite ?length_drop; lia). done.
    + rewrite entry_at_None in *. intros de Hq%Hh. by eapply E.
Qed.

(** ** Conversion *)

(** The page that receives the entries has the size of a page. *)
Definition conv_ok (cenv : conv_env) : Prop :=
  length (dentry (conv_old cenv)) = NR_DENTRY_IN_BLOCK /\ length (filename (conv_old cenv)) = (NR_DENTRY_IN_BLOCK * F2FS_SLOT_LEN)%nat /\
  (forall err, conv_err cenv = Some err -> err < 0 /\ err <> - EAGAIN).

(** Where an error of an insertion comes from: a full table or the outside. *)
Definition dir_err (cenv : conv_env) (env : dir_env) (err : Z) : Prop :=
  err = - ENOSPC \/ (exists i, env_alloc env i = Some err) \/ env_ipage env = Some err \/ conv_err cenv = Some err.

Lemma dir_err_neg cenv env err : env_ok env -> conv_ok cenv -> dir_err cenv env err -> err < 0 /\ err <> - EAGAIN.
Proof.
  intros (_ & _ & Ha & Hi) (_ & _ & Hc) [->|[(i & E)|[E|E]]]; [unfold ENOSPC, EAGAIN; lia|by apply Ha in E|by apply Hi|by apply Hc].
Qed.

Lemma bucket_start_0 dir h : i_dir_level dir = 0 -> bucket_start dir 0 h = 0.
Proof.
  intros Hl. unfold bucket_start. rewrite Hl. pose proof hash_depth_range. unfold dir_buckets. replace (0 +! 0) with 0 by done.
  destruct (Z.ltb_spec 0 (MAX_DIR_HASH_DEPTH / 2)); [|zdiv]. replace (u32 (Z.shiftl 1 0)) with 1 by done. by rewrite Z.mod_1_r.
Qed.

Lemma move_inline_spec cenv dir src m : dir_rep match_name dir m -> d_inline dir = Some src -> i_dir_level dir = 0 -> conv_ok cenv -> conv_err cenv = None ->
  exists dir', f2fs_move_inline_dirents (conv_err cenv) (conv_old cenv) dir src = (dir', 0) /\ dir_rep match_name dir' m /\ d_inline dir' = None.
Proof.
  intros [Hok Hm] Hin Hl (Hd & Hf & _) ->. destruct (dk_inline dir Hok src Hin) as (Hb & Hp & Hc & Hx).
  destruct (copy_dirents_ok src (conv_old cenv) Hb Hx Hd Hf) as (Hcb & Hce).
  unfold f2fs_move_inline_dirents. eexists. split; [done|]. set (dir' := if _ <? _ then _ else _).
  assert (Hf' : d_pages dir' = {[0 := copy_dirents src (conv_old cenv)]} /\ d_inline dir' = None /\ i_dir_level dir' = i_dir_level dir /\
     i_current_depth dir' = 1 /\ clevel dir' = 0 /\ PAGE_SIZE <= i_size dir' < 2 ^ 63).
  { pose proof (dk_size dir Hok). unfold dir'. destruct (Z.ltb_spec (i_size (f2fs_i_depth_write (set_inline (set_pages dir (<[0:=copy_dirents src (conv_old cenv)]> (d_pages dir))) None) 1)) PAGE_SIZE) as [Hlt|Hge];
      cbn in *; rewrite Hp, insert_empty; conjs; try done; unfold PAGE_SIZE in *; lia. }
  clearbody dir'. destruct Hf' as (Ep & Ei & El & Edp & Ec & Es).
  assert (Hat : forall l e, de_at dir' l = Some e <-> exists p, l = InPage 0 p /\ de_at dir (InInode p) = Some e).
  { intros l e. destruct l as [i p|p]; cbn; rewrite ?Ei, ?Ep, ?Hin; [|naive_solver]. destruct (decide (i = 0)) as [->|Hne].
    - rewrite lookup_singleton_eq. cbn. rewrite Hce. naive_solver.
    - rewrite lookup_singleton_ne by done. naive_solver. }
  split; [|done]. split; [constructor; [constructor|..]|].
  - unfold PAGE_SIZE in *. lia.
  - intros i b. rewrite Ep, lookup_singleton_Some. intros [<- <-]. unfold PAGE_SIZE, PAGE_SHIFT in *. conjs; try done; try lia. replace ((0 + 1) ≪ 12) with 4096 by done. lia.
  - intros d. by rewrite Ei.
  - rewrite Edp. pose proof hash_depth_range. lia.
  - rewrite Ec, Edp. lia.
  - rewrite El. apply (dk_level dir Hok).
  - intros l e (p & -> & E)%Hat. by apply (dk_valid _ dir Hok _ _ E).
  - intros i p e (p' & [= -> ->] & E)%Hat. exists 0. rewrite Edp. pose proof (bucket_blocks_pos 0). rewrite bucket_start_0 by congruence. lia.
  - intros l l' e e' (p & -> & E)%Hat (p' & -> & E')%Hat Hcc. pose proof (dk_uniq _ dir Hok _ _ e e' E E' Hcc) as [= ->]. done.
  - intros k e. rewrite Hm. split.
    + intros (l & E & Hk). destruct l as [i p|p]; [cbn in E; by rewrite Hp, lookup_empty in E|]. exists (InPage 0 p). split; [|done]. apply Hat. eauto.
    + intros (l & (p & -> & E)%Hat & Hk). eauto.
Qed.

Notation dir_rep := (dir_rep match_name).

(** The entries of a block below slot [p], as a map. *)
Definition block_map (d : f2fs_dentry_ptr) (p : nat) (m : gmap (list Z) dir_ent) : Prop :=
  forall k e, m !! k = Some e <-> exists q, (q < p)%nat /\ entry_at d q = Some e /\ canon (e_name e) = k.
Definition block_uniq (d : f2fs_dentry_ptr) : Prop :=
  forall q q' e e', entry_at d q = Some e -> entry_at d q' = Some e' -> canon (e_name e) = canon (e_name e') -> q = q'.

Lemma block_map_skip d p p' m : (p <= p')%nat -> (forall q, (p <= q < p')%nat -> entry_at d q = None) -> block_map d p m -> block_map d p' m.
Proof.
  intros Hle Hno Hm k e. rewrite (Hm k e). f_equiv. intros q. split; [intros (? & ? & ?); split; [lia|done]|].
  intros (Hq & He & Hc). split; [|done]. destruct (decide (q < p)%nat); [done|]. rewrite Hno in He; [done|lia].
Qed.

Lemma block_map_entry d p de e m : block_ok d -> block_uniq d -> has_entry d p de -> entry_at d p = Some e -> block_map d p m ->
  m !! canon (e_name e) = None /\ block_map d (p + dslots (name_len de)) (<[canon (e_name e) := e]> m).
Proof.
  intros Hok Hu Hp He Hm. pose proof (bok_range d Hok p de Hp) as [Hn Hr]. pose proof (dslots_pos (name_len de) ltac:(lia)).
  assert (Hnone : m !! canon (e_name e) = None).
  { destruct (m !! canon (e_name e)) as [e'|] eqn:E; [|done]. apply Hm in E as (q & Hq & Eq & Hc).
    pose proof (Hu q p e' e Eq He Hc). lia. }
  split; [done|]. apply (block_map_skip d (S p)); [lia|intros q Hq; apply (inner_no_entry d p de); [done|done|lia]|].
  intros k e'. rewrite lookup_insert_Some, (Hm k e'). split.
  - intros [[<- <-]|(Hne & q & Hq & Eq & Hc)]; [exists p; split; [lia|done]|exists q; split; [lia|done]].
  - intros (q & Hq & Eq & Hc). destruct (decide (q = p)) as [->|Hqp]; [left; naive_solver congruence|right].
    split; [|exists q; split; [lia|done]]. intros Hk. apply Hqp. apply (Hu q p e' e); [done|done|congruence].
Qed.

Lemma add_inline_loop_spec fuel cenv env dir d p m : dir_rep dir m -> d_inline dir = None -> env_ok env -> conv_ok cenv -> block_ok d -> block_uniq d ->
  (forall q e, entry_at d q = Some e -> ent_ok match_name e) ->
  boundary d p -> (p <= dmax d)%nat -> (dmax d < fuel + p)%nat -> block_map d p m ->
  exists dir' err m', add_inline_loop fuel env dir d p = Some (dir', err) /\ dir_rep dir' m' /\ d_inline dir' = None /\
    i_dir_level dir' = i_dir_level dir /\ clevel dir' = clevel dir /\
    (err = 0 /\ block_map d (dmax d) m' \/ dir_err cenv env err).
Proof.
  intros Hrep Hin He Hce Hok Hu Hent. revert dir p m Hrep Hin. induction fuel as [|fuel IH]; intros dir p m Hrep Hin Hb Hp Hf Hm; [lia|]. cbn -[u16].
  destruct (Nat.leb_spec (dmax d) p).
  { exists dir, 0, m. replace p with (dmax d) in Hm by lia. conjs; try done. by left. }
  destruct (test_bit_le p (bitmap d)) eqn:Ebit; cbn -[u16].
  2: { apply (IH dir (S p) m); try done; try lia; [by apply boundary_free|]. revert Hm. apply block_map_skip; [lia|].
       intros q Hq. replace q with p by lia. by apply free_no_entry. }
  destruct (boundary_entry d p Hok Hb Ebit) as [de Hde]. pose proof Hde as (_ & Hd & Hnz). rewrite Hd. cbn -[u16].
  destruct (Z.eqb_spec (name_len de) 0); [done|].
  pose (e := {| e_hash := hash_code de; e_name := de_name d p (name_len de); e_ino := de_ino de; e_type := file_type de |}).
  assert (Hpe : entry_at d p = Some e) by (apply entry_at_has; eauto). pose proof (Hent p e Hpe) as Heo.
  destruct (block_map_entry d p de e m Hok Hu Hde Hpe Hm) as (Hnone & Hm').
  pose proof (bok_range d Hok p de Hde) as [Hn Hr]. pose proof (dslots_pos (name_len de) ltac:(lia)).
  edestruct (add_regular_spec match_name (S := unit) (fun st => (st, None)) id env dir (moved_name (e_name e) (e_hash e)) (de_ino de)
     (u16 (Z.shiftl (f2fs_get_de_type de) S_SHIFT)) tt m) as (dir1 & st1 & err & E1 & Hin1 & Hl1 & Hc1 & Hres); try done.
  { destruct Heo as (? & ? & ? & _). done. }
  cbn [e_name e_hash e] in E1. rewrite E1. cbn -[u16]. destruct Hres as [(-> & Hrep1 & _)|(Hrep1 & [[=]|(_ & Herr)])].
  - cbn. rewrite <-Hl1, <-Hc1. apply (IH dir1 _ (<[canon (e_name e) := e]> m)); try done; try lia; [|by apply boundary_next].
    change (u16 (f2fs_get_de_type de ≪ S_SHIFT)) with (u16 (Z.shiftl (de_type_of (e_type e)) S_SHIFT)) in Hrep1.
    change (de_ino de) with (e_ino e) in Hrep1. unfold name_of in Hrep1. cbn [fname moved_name disk_name fhash] in Hrep1. by rewrite moved_ent in Hrep1.
  - assert (dir_err cenv env err) as Hde' by (destruct Herr; [by left|by right; left]).
    pose proof (dir_err_neg cenv env err He Hce Hde'). destruct (Z.eqb_spec err 0); [lia|]. exists dir1, err, m. conjs; try done. by right.
Qed.

Lemma move_rehashed_spec cenv env dir src m : dir_rep dir m -> d_inline dir = Some src -> env_ok env -> conv_ok cenv ->
  exists dir' err, f2fs_move_rehashed_dirents MAX_INLINE_DATA (conv_err cenv) env dir src = Some (dir', err) /\ dir_rep dir' m /\
    (err = 0 /\ d_inline dir' = None \/ dir_err cenv env err).
Proof.
  intros Hrep Hin He Hce. pose proof Hrep as [Hok Hm]. destruct (dk_inline dir Hok src Hin) as (Hb & Hp & Hc & Hx).
  unfold f2fs_move_rehashed_dirents. destruct (conv_err cenv) as [err|] eqn:Ecv; [exists dir, err; split; [done|]; split; [done|]; right; by right; right; right|].
  assert (Hrep0 : dir_rep (set_inline dir None) ∅).
  { split; [constructor; [destruct (dk_shape _ dir Hok); constructor; cbn; done|..]|].
    - intros [i p|p] e; cbn; [rewrite Hp, lookup_empty|]; done.
    - intros i p e; cbn. by rewrite Hp, lookup_empty.
    - intros [i p|p] l' e e'; cbn; [rewrite Hp, lookup_empty|]; done.
    - intros k e. rewrite lookup_empty. split; [done|]. intros ([i p|p] & E & _); cbn in E; [by rewrite Hp, lookup_empty in E|done]. }
  assert (Hat : forall q e, entry_at src q = Some e <-> de_at dir (InInode q) = Some e) by (intros q e; cbn; by rewrite Hin).
  destruct (add_inline_loop_spec (S (dmax src)) cenv env (set_inline dir None) src 0 ∅) as (dir1 & err & m1 & E & Hrep1 & Hin1 & Hl1 & Hc1 & Hres); try done; try lia.
  { intros q q' e e' E%Hat E'%Hat Hcc. pose proof (dk_uniq _ dir Hok _ _ _ _ E E' Hcc) as [= ->]. done. }
  { intros q e E%Hat. apply (dk_valid _ dir Hok _ _ E). }
  { intros q de Hq. lia. }
  { intros k e. rewrite lookup_empty. split; [done|]. intros (q & Hq & _). lia. }
  unfold f2fs_add_inline_entries. rewrite E. cbn [mbind option_bind]. destruct Hres as [(-> & Hm1)|Hneg].
  - cbn. exists dir1, 0. split; [done|]. split; [|by left]. destruct Hrep1 as [Hok1 Hm1']. split; [done|]. intros k e. rewrite <-Hm1', Hm, (Hm1 k e). split.
    + intros (l & El & Hk). destruct l as [i p|p]; [cbn in El; by rewrite Hp, lookup_empty in El|]. exists p. pose proof El as El'%Hat. split; [|done].
      apply entry_at_has in El' as (de & Hde & _). destruct (bok_range src Hb p de Hde) as [Hn Hr]. pose proof (dslots_pos (name_len de) ltac:(lia)). lia.
    + intros (q & _ & Eq%Hat & Hk). eauto.
  - pose proof (dir_err_neg cenv env err He Hce Hneg). destruct (Z.eqb_spec err 0); [lia|]. cbn. exists (f2fs_i_size_write (f2fs_i_depth_write (set_inline (set_pages dir1 ∅) (Some src)) 0) MAX_INLINE_DATA), err.
    split; [done|]. split; [|by right]. set (dir2 := f2fs_i_size_write _ _).
    assert (Hat2 : forall l, de_at dir2 l = de_at dir l).
    { intros [i p|p]; cbn; [by rewrite Hp, !lookup_empty|by rewrite Hin]. }
    pose proof hash_depth_range. split; [constructor; [constructor; cbn; try done; try lia|..]|].
    + intros d [= <-]. conjs; try done. by rewrite Hc1.
    + rewrite Hc1. cbn. lia.
    + rewrite Hl1. apply (dk_level dir Hok).
    + intros l e. rewrite Hat2. apply (dk_valid _ dir Hok).
    + intros i p e. rewrite Hat2. cbn. by rewrite Hp, lookup_empty.
    + intros l l' e e'. rewrite !Hat2. apply (dk_uniq _ dir Hok).
    + intros k e. rewrite Hm. f_equiv. intros l. by rewrite Hat2.
Qed.

(** Moving the entries out of the inode keeps the map, whether it succeeds or not. *)
Lemma do_convert_spec cenv env dir src m : dir_rep dir m -> d_inline dir = Some src -> env_ok env -> conv_ok cenv ->
  exists dir' err, do_convert_inline_dir MAX_INLINE_DATA cenv env dir src = Some (dir', err) /\ dir_rep dir' m /\
    (err = 0 /\ d_inline dir' = None \/ dir_err cenv env err).
Proof.
  intros Hrep Hin He Hce. unfold do_convert_inline_dir. destruct (Z.eqb_spec (i_dir_level dir) 0) as [Hl|Hl]; [|by apply move_rehashed_spec].
  destruct (conv_err cenv) as [err|] eqn:Ec.
  - exists dir, err. split; [done|]. split; [done|]. right. by right; right; right.
  - destruct (move_inline_spec cenv dir src m Hrep Hin Hl Hce Ec) as (dir' & E & Hrep' & Hin'). rewrite Ec in E. exists dir', 0. rewrite E. split; [done|]. split; [done|]. by left.
Qed.

(** ** Insertion of a name *)

Section insertion.
Context {S : Type} (init : S -> S * option Z) (fini : S -> S).
(** The metadata of the inode is not a matter of another try either. *)
Context (init_err : forall st st' err, init st = (st', Some err) -> err < 0 /\ err <> - EAGAIN).

(** The outcome of an insertion: success, with the metadata set up and the name in
    the map, or an error, with the map as it was. *)
Definition insert_res (cenv : conv_env) (env : dir_env) (m : gmap (list Z) dir_ent) (f : dir_filename) (ino mode : Z) (st : S) (dir' : dir_inode) (st' : S) (err : Z) : Prop :=
  (err = 0 /\ dir_rep dir' (<[canon (name_of f) := new_ent ino mode (name_of f) (fhash f)]> m) /\ exists st1, init st = (st1, None) /\ st' = fini st1) \/
  (dir_rep dir' m /\ (dir_err cenv env err /\ st' = st \/ init st = (st', Some err))).

Lemma add_inline_spec cenv env dir d f ino mode st m : dir_rep dir m -> d_inline dir = Some d -> hashed match_name f -> env_ok env -> conv_ok cenv ->
  m !! canon (name_of f) = None ->
  exists dir' st' err, f2fs_add_inline_entry MAX_INLINE_DATA init fini cenv env dir d f ino mode st = Some (dir', st', err) /\
    (err = - EAGAIN /\ dir_rep dir' m /\ d_inline dir' = None /\ st' = st \/ err <> - EAGAIN /\ insert_res cenv env m f ino mode st dir' st' err).
Proof.
  intros Hrep Hin Hf He Hce Hm. pose proof (proj1 Hrep) as Hok. destruct (dk_inline dir Hok d Hin) as (Hb & Hp & Hc & Hx).
  unfold f2fs_add_inline_entry. destruct (env_ipage env) as [err|] eqn:Eip.
  { exists dir, st, err. split; [done|]. right. assert (dir_err cenv env err) as Hde by (by right; right; left).
    split; [by eapply dir_err_neg|]. right. auto. }
  pose proof (proj1 (proj2 Hf)) as Hn. destruct (room_first_fit (bitmap d) (fname_slots f) (dmax d)) as (Hroom & Hle & _); [apply dslots_pos, Hn|].
  destruct (Nat.leb_spec (dmax d) (f2fs_room_for_filename (bitmap d) (fname_slots f) (dmax d))) as [Hge|Hlt].
  { destruct (do_convert_spec cenv env dir d m Hrep Hin He Hce) as (dir' & err & -> & Hrep' & Hres). cbn [mbind option_bind].
    destruct Hres as [(-> & Hin')|Hneg]; [exists dir', st, (- EAGAIN); split; [done|]; by left|].
    destruct (dir_err_neg cenv env err He Hce Hneg). destruct (Z.eqb_spec err 0); [lia|]. exists dir', st, err. split; [done|]. right. split; [done|]. right. auto. }
  destruct (Hroom Hlt) as (Hpos & Hrun). destruct (init st) as [st1 [err|]] eqn:Ei.
  { exists dir, st1, err. split; [done|]. right. destruct (init_err _ _ _ Ei). split; [done|]. right. auto. }
  fold (name_of f). destruct (update_dentry_ok ino mode d (name_of f) (fhash f) _ Hb Hn Hpos Hrun) as (d' & -> & Hb' & Hm' & Hat). cbn [mbind option_bind].
  eexists _, _, _. split; [done|]. right. split; [unfold EAGAIN; lia|]. left. split; [done|]. split; [|eauto].
  set (pos := f2fs_room_for_filename _ _ _) in *. set (dir' := if _ =? _ then _ else _).
  assert (Hnone : de_at dir (InInode pos) = None).
  { cbn. rewrite Hin. cbn. apply free_no_entry, Hrun. pose proof (dslots_pos _ (proj1 Hn)). unfold fname_slots. fold (name_of f). lia. }
  assert (Hx0 : dir_rep (set_inline dir (Some d')) (<[canon (name_of f) := new_ent ino mode (name_of f) (fhash f)]> m)).
  { replace (<[canon (name_of f) := _]> m) with (map_change match_name m (de_at dir (InInode pos)) (Some (new_ent ino mode (name_of f) (fhash f)))) by (by rewrite Hnone).
    apply (dir_rep_change _ dir); try done.
    - by apply (shape_set_inline dir d _ Hok).
    - by apply (de_at_set_inline dir d).
    - intros e [= <-]. split; [by apply new_ent_ok|]. split; [done|].
      intros l' e' _ He' Hcc. assert (m !! canon (name_of f) = Some e') as E'; [|congruence]. apply Hrep. by exists l'. }
  unfold dir'. destruct (Z.eqb_spec (i_current_depth (set_inline dir (Some d'))) 0) as [|Hd0]; [done|].
  destruct Hx0 as [Hok0 Hm0]. split; [|done]. destruct Hok0 as [[] Hv0 Hp0 Hu0]. pose proof hash_depth_range. constructor; [constructor; cbn in *; try done; try lia|..]; try done.
  intros i p e E. cbn in E. by rewrite Hp, lookup_empty in E.
Qed.

Lemma add_dentry_spec cenv env dir f ino mode st m : dir_rep dir m -> hashed match_name f -> env_ok env -> conv_ok cenv -> m !! canon (name_of f) = None ->
  exists dir' st' err, f2fs_add_dentry MAX_INLINE_DATA init fini cenv env dir f ino mode st = Some (dir', st', err) /\ insert_res cenv env m f ino mode st dir' st' err.
Proof.
  intros Hrep Hf He Hce Hm. unfold f2fs_add_dentry.
  assert (Hreg : forall dir1, dir_rep dir1 m -> d_inline dir1 = None ->
    exists dir' st' err, f2fs_add_regular_entry init fini env dir1 f ino mode st = Some (dir', st', err) /\ insert_res cenv env m f ino mode st dir' st' err).
  { intros dir1 Hrep1 Hin1. destruct (add_regular_spec match_name init fini env dir1 f ino mode st m Hrep1 Hin1 Hf He Hm) as (dir' & st' & err & E & _ & _ & _ & Hres).
    exists dir', st', err. split; [done|]. destruct Hres as [|(Hrep' & Herr)]; [by left|right].
    split; [done|]. destruct Herr as [Ei|(-> & [->|(i & Hi)])]; [by right|left; split; [by left|done]|left; split; [right; left; eauto|done]]. }
  destruct (d_inline dir) as [d|] eqn:Ein; [|cbn; by apply Hreg].
  destruct (add_inline_spec cenv env dir d f ino mode st m Hrep Ein Hf He Hce Hm) as (dir' & st' & err & -> & Hres). cbn [mbind option_bind].
  destruct Hres as [(-> & Hrep' & Hin' & ->)|(Hne & Hres)]; [rewrite Z.eqb_refl; by apply Hreg|].
  destruct (Z.eqb_spec err (- EAGAIN)); [done|]. by exists dir', st', err.
Qed.
End insertion.
End refine.
