(* ===== verification/DirSystem.v ===== *)
(** * Histories of a directory

    Any sequence of lookups, insertions, replacements, removals and conversions
    behaves as the corresponding operations on a finite map from names to
    entries; the only other results are errors of the environment. *)

From S2P Require Import Prelude.
From S2P Require Import Hash.
From S2P Require Import DirName.
From S2P Require Import DentryBlock.
From S2P Require Import Directory.
From S2P Require Import DirProps.
From S2P Require Import DirOps.
From S2P Require Import DirRefine.

Inductive dir_result := RFound (e : dir_ent) | RNone | RErr (err : Z) | RDone.

(** Calls on a directory, each with the answers of the outside.  A replacement and
    a removal look the name up first, as their callers in namei.c do. *)
Inductive dir_op :=
| Lookup (env : dir_env) (f : dir_filename)
| AddLink (env : dir_env) (cenv : conv_env) (f : dir_filename) (ino mode : Z) (ierr : option Z)
| SetLink (env : dir_env) (f : dir_filename) (ino mode : Z)
| Unlink (env : dir_env) (f : dir_filename) (hole : bool)
| Convert (env : dir_env) (cenv : conv_env) (f : dir_filename).

Section system.
Context `{DirFormat} (match_name : dir_filename -> list Z -> Z) `{!NameMatching match_name}.
Context (MAX_INLINE_DATA : Z) (inline_range : 0 <= MAX_INLINE_DATA < 2 ^ 63).

Definition dir_exec (dir : dir_inode) (op : dir_op) : option (dir_inode * dir_result) :=
  match op with
  | Lookup env f =>
      '(dir, r) ← __f2fs_find_entry match_name env dir f;
      match r with
      | inl err => Some (dir, RErr err)
      | inr None => Some (dir, RNone)
      | inr (Some l) => e ← de_at dir l; Some (dir, RFound e)
      end
  | AddLink env cenv f ino mode ierr =>
      '(dir, _, err) ← f2fs_do_add_link match_name MAX_INLINE_DATA (fun st => (st, ierr)) id cenv env dir f ino mode tt;
      Some (dir, if err =? 0 then RDone else RErr err)
  | SetLink env f ino mode =>
      '(dir, r) ← __f2fs_find_entry match_name env dir f;
      match r with
      | inl err => Some (dir, RErr err)
      | inr None => Some (dir, RNone)
      | inr (Some l) => dir ← f2fs_set_link dir l ino mode; Some (dir, RDone)
      end
  | Unlink env f hole =>
      '(dir, r) ← __f2fs_find_entry match_name env dir f;
      match r with
      | inl err => Some (dir, RErr err)
      | inr None => Some (dir, RNone)
      | inr (Some l) => dir ← f2fs_delete_entry hole dir l; Some (dir, RDone)
      end
  | Convert env cenv f =>
      '(dir, err) ← f2fs_try_convert_inline_dir MAX_INLINE_DATA cenv env dir (inr f);
      Some (dir, if err =? 0 then RDone else RErr err)
  end.

(** The abstract directory. *)
Inductive spec_step (m : gmap (list Z) dir_ent) : dir_op -> gmap (list Z) dir_ent -> dir_result -> Prop :=
| spec_lookup_hit env f e : m !! canon (name_of f) = Some e -> spec_step m (Lookup env f) m (RFound e)
| spec_lookup_miss env f : m !! canon (name_of f) = None -> spec_step m (Lookup env f) m RNone
| spec_lookup_err env f err : (env_ipage env = Some err \/ exists i, env_io env i = Some err) -> spec_step m (Lookup env f) m (RErr err)
| spec_add env cenv f ino mode : m !! canon (name_of f) = None ->
    spec_step m (AddLink env cenv f ino mode None) (<[canon (name_of f) := new_ent ino mode (name_of f) (fhash f)]> m) RDone
| spec_add_exists env cenv f ino mode ierr e : m !! canon (name_of f) = Some e -> spec_step m (AddLink env cenv f ino mode ierr) m (RErr (- EEXIST))
| spec_add_err env cenv f ino mode ierr err : (dir_err cenv env err \/ ierr = Some err \/ exists i, env_io env i = Some err) ->
    spec_step m (AddLink env cenv f ino mode ierr) m (RErr err)
| spec_set env f ino mode e : m !! canon (name_of f) = Some e ->
    spec_step m (SetLink env f ino mode) (<[canon (name_of f) := new_ent ino mode (e_name e) (e_hash e)]> m) RDone
| spec_set_miss env f ino mode : m !! canon (name_of f) = None -> spec_step m (SetLink env f ino mode) m RNone
| spec_set_err env f ino mode err : (env_ipage env = Some err \/ exists i, env_io env i = Some err) -> spec_step m (SetLink env f ino mode) m (RErr err)
| spec_unlink env f hole e : m !! canon (name_of f) = Some e -> spec_step m (Unlink env f hole) (delete (canon (name_of f)) m) RDone
| spec_unlink_miss env f hole : m !! canon (name_of f) = None -> spec_step m (Unlink env f hole) m RNone
| spec_unlink_err env f hole err : (env_ipage env = Some err \/ exists i, env_io env i = Some err) -> spec_step m (Unlink env f hole) m (RErr err)
| spec_convert env cenv f : spec_step m (Convert env cenv f) m RDone
| spec_convert_err env cenv f err : dir_err cenv env err -> spec_step m (Convert env cenv f) m (RErr err).

(** What callers guarantee: prepared names; reads fail with errors; a task that
    skips the second lookup has found the name to be absent. *)
Definition op_ok (dir : dir_inode) (m : gmap (list Z) dir_ent) (op : dir_op) : Prop :=
  match op with
  | Lookup env f | SetLink env f _ _ | Unlink env f _ => env_ok env /\ prepared f
  | Convert env cenv f => env_ok env /\ conv_ok cenv
  | AddLink env cenv f _ _ ierr =>
      env_ok env /\ conv_ok cenv /\ prepared f /\ name_ok (name_of f) /\
      (forall i, env_io env i <> Some 0) /\ (forall err, ierr = Some err -> err < 0 /\ err <> - EAGAIN) /\
      (dtask dir = Some (current env) -> m !! canon (name_of f) = None)
  end.

Notation dir_rep := (dir_rep match_name).

Lemma prepared_hashed f : prepared f -> name_ok (name_of f) -> hashed match_name f.
Proof. intros Hf Hn. split; [by apply prepared_valid|]. split; [done|by apply prepared_hash]. Qed.

Lemma same_dir_de_at dir dir' l : same_dir dir dir' -> de_at dir' l = de_at dir l.
Proof. intros (Hp & Hi & _). by apply de_at_same. Qed.

(** The entry found has the name that was looked up. *)
Lemma found_canon dir m k e : dir_rep dir m -> m !! k = Some e -> canon (e_name e) = k.
Proof. intros [_ Hm] (l & _ & Hc)%Hm. done. Qed.

Lemma add_link_step dir m env cenv f ino mode ierr : dir_rep dir m -> op_ok dir m (AddLink env cenv f ino mode ierr) ->
  exists dir' m' r, dir_exec dir (AddLink env cenv f ino mode ierr) = Some (dir', r) /\ dir_rep dir' m' /\ spec_step m (AddLink env cenv f ino mode ierr) m' r.
Proof.
  intros Hrep (He & Hce & Hf & Hn & Hio & Hi & Htask). unfold dir_exec, f2fs_do_add_link.
  assert (Hadd : forall dir1, dir_rep dir1 m -> m !! canon (name_of f) = None ->
    exists dir' m' r, ('(dir, _, err) ← f2fs_add_dentry MAX_INLINE_DATA (fun st : unit => (st, ierr)) id cenv env dir1 f ino mode tt;
      Some (dir, if err =? 0 then RDone else RErr err)) = Some (dir', r) /\ dir_rep dir' m' /\ spec_step m (AddLink env cenv f ino mode ierr) m' r).
  { intros dir1 Hrep1 Hnone.
    destruct (add_dentry_spec match_name MAX_INLINE_DATA inline_range (fun st : unit => (st, ierr)) id) with (cenv := cenv) (env := env) (dir := dir1) (f := f) (ino := ino)
      (mode := mode) (st := tt) (m := m) as (dir' & st' & err & -> & Hres); try done.
    { intros st st' err [= _ E]. by apply Hi. }
    { by apply prepared_hashed. }
    cbn. destruct Hres as [(-> & Hrep' & st1 & [= _ ->] & _)|(Hrep' & Herr)].
    - eexists _, _, _. split; [done|]. split; [done|]. by apply spec_add.
    - assert (err <> 0) as Hne.
      { destruct Herr as [[Hde _]|[= _ ->]]; [destruct (dir_err_neg _ _ _ He Hce Hde); lia|destruct (Hi err eq_refl); lia]. }
      destruct (Z.eqb_spec err 0); [done|]. eexists _, _, _. split; [done|]. split; [done|]. apply spec_add_err. destruct Herr as [[Hde _]|[= _ ->]]; auto. }
  destruct (decide (dtask dir = Some (current env))) as [Ht|Ht]; cbn [mbind option_bind]; [by apply Hadd; [|apply Htask]|].
  destruct (find_entry_spec match_name env dir f m Hrep Hf He) as (dir1 & r & -> & Hrep1 & Hs & Hr). cbn [mbind option_bind].
  assert (Hrep2 : dir_rep (set_task dir1 None) m).
  { pose proof (proj1 Hrep1) as Hok1. apply (dir_rep_same _ dir1); [done|cbn; split; [lia|apply (dk_depth dir1 Hok1)]|apply (dk_hint dir1 Hok1)| |done].
    cbn. destruct (d_inline dir1) as [d|] eqn:E; [|done]. by destruct (dk_inline dir1 Hok1 d E) as (_ & _ & -> & _). }
  destruct r as [err|[l|]]; cbn [mbind option_bind].
  - assert (err <> 0) as Hne.
    { destruct Hr as [Hip|(i & Hio')]; [destruct He as (_ & _ & _ & Hx); apply Hx in Hip; lia|intros ->; by destruct (Hio i)]. }
    destruct (Z.eqb_spec err 0); [done|]. eexists _, _, _. split; [done|]. split; [done|]. apply spec_add_err. unfold dir_err. naive_solver.
  - eexists _, _, _. split; [done|]. split; [done|]. destruct Hr as (e & _ & E). by eapply spec_add_exists.
  - by apply Hadd.
Qed.

(** One call refines one step of the map, and never traps. *)
Lemma exec_refines dir m op : dir_rep dir m -> op_ok dir m op ->
  exists dir' m' r, dir_exec dir op = Some (dir', r) /\ dir_rep dir' m' /\ spec_step m op m' r.
Proof.
  intros Hrep Hop. destruct op as [env f|env cenv f ino mode ierr|env f ino mode|env f hole|env cenv f]; [|by apply add_link_step|..].
  - destruct Hop as [He Hf]. cbn. destruct (find_entry_spec match_name env dir f m Hrep Hf He) as (dir1 & r & -> & Hrep1 & Hs & Hr). cbn.
    destruct r as [err|[l|]]; [eexists _, _, _; split; [done|]; split; [done|]; by constructor| |eexists _, _, _; split; [done|]; split; [done|]; by constructor].
    destruct Hr as (e & El & E). rewrite (same_dir_de_at dir dir1) by done. rewrite El. cbn. eexists _, _, _. split; [done|]. split; [done|]. by constructor.
  - destruct Hop as [He Hf]. cbn. destruct (find_entry_spec match_name env dir f m Hrep Hf He) as (dir1 & r & -> & Hrep1 & Hs & Hr). cbn.
    destruct r as [err|[l|]]; [eexists _, _, _; split; [done|]; split; [done|]; by constructor| |eexists _, _, _; split; [done|]; split; [done|]; by constructor].
    destruct Hr as (e & El & E). rewrite <-(same_dir_de_at dir dir1) in El by done.
    destruct (set_link_spec match_name dir1 l e ino mode m Hrep1 El) as (dir2 & -> & Hrep2). cbn. eexists _, _, _. split; [done|]. split; [done|].
    rewrite (found_canon dir m _ e Hrep E). by constructor.
  - destruct Hop as [He Hf]. cbn. destruct (find_entry_spec match_name env dir f m Hrep Hf He) as (dir1 & r & -> & Hrep1 & Hs & Hr). cbn.
    destruct r as [err|[l|]]; [eexists _, _, _; split; [done|]; split; [done|]; by constructor| |eexists _, _, _; split; [done|]; split; [done|]; by constructor].
    destruct Hr as (e & El & E). rewrite <-(same_dir_de_at dir dir1) in El by done.
    destruct (delete_entry_spec match_name hole dir1 l e m Hrep1 El) as (dir2 & -> & Hrep2). cbn. eexists _, _, _. split; [done|]. split; [done|].
    rewrite (found_canon dir m _ e Hrep E). by eapply spec_unlink.
  - destruct Hop as (He & Hce). cbn [dir_exec]. unfold f2fs_try_convert_inline_dir. destruct (d_inline dir) as [d|] eqn:Ein; cbn [mbind option_bind].
    2: { eexists _, _, _. split; [done|]. split; [done|]. constructor. }
    destruct (env_ipage env) as [err|] eqn:Eip; cbn [mbind option_bind].
    { assert (dir_err cenv env err) as Hde by (by right; right; left). destruct (dir_err_neg _ _ _ He Hce Hde). destruct (Z.eqb_spec err 0); [lia|].
      eexists _, _, _. split; [done|]. split; [done|]. by constructor. }
    destruct (f2fs_has_enough_room d f); cbn; [eexists _, _, _; split; [done|]; split; [done|]; constructor|].
    destruct (do_convert_spec match_name MAX_INLINE_DATA inline_range cenv env dir d m Hrep Ein He Hce) as (dir' & err & -> & Hrep' & Hres). cbn.
    destruct Hres as [[-> _]|Hde]; [eexists _, _, _; split; [done|]; split; [done|]; constructor|].
    destruct (dir_err_neg _ _ _ He Hce Hde). destruct (Z.eqb_spec err 0); [lia|]. eexists _, _, _. split; [done|]. split; [done|]. by constructor.
Qed.

(** Histories of the code and of the map. *)
Inductive dir_run : dir_inode -> list (dir_op * dir_result) -> dir_inode -> Prop :=
| run_nil dir : dir_run dir [] dir
| run_cons dir op dir1 r h dir' : dir_exec dir op = Some (dir1, r) -> dir_run dir1 h dir' -> dir_run dir ((op, r) :: h) dir'.
Inductive spec_run : gmap (list Z) dir_ent -> list (dir_op * dir_result) -> gmap (list Z) dir_ent -> Prop :=
| spec_nil m : spec_run m [] m
| spec_cons m op m1 r h m' : spec_step m op m1 r -> spec_run m1 h m' -> spec_run m ((op, r) :: h) m'.

(** The calls of a history keep to what callers guarantee, as long as it runs. *)
Inductive history_ok : dir_inode -> gmap (list Z) dir_ent -> list dir_op -> Prop :=
| hist_nil dir m : history_ok dir m []
| hist_cons dir m op ops : op_ok dir m op ->
    (forall dir1 r m1, dir_exec dir op = Some (dir1, r) -> dir_rep dir1 m1 -> spec_step m op m1 r -> history_ok dir1 m1 ops) ->
    history_ok dir m (op :: ops).

(** C4: A directory is a finite map.  From any directory that stands for a map,
    every history of lookups, insertions, replacements, removals and conversions
    runs to its end (no call traps), and its results are those of a history of
    the map: a lookup finds the entry the map holds, an insertion succeeds, fails
    on an existing name or on an error of the outside, and the directory stands
    for the map after every call, across the move from the inode to blocks and
    over all hash levels. *)
Theorem dir_history_refines ops dir m : dir_rep dir m -> history_ok dir m ops ->
  exists h dir' m', h.*1 = ops /\ dir_run dir h dir' /\ spec_run m h m' /\ dir_rep dir' m'.
Proof.
  revert dir m. induction ops as [|op ops IH]; intros dir m Hrep Hh.
  { exists [], dir, m. conjs; try done; constructor. }
  inversion Hh as [|???? Hop Hnext]; subst.
  destruct (exec_refines dir m op Hrep Hop) as (dir1 & m1 & r & E & Hrep1 & Hs).
  destruct (IH dir1 m1 Hrep1 (Hnext dir1 r m1 E Hrep1 Hs)) as (h & dir' & m' & <- & Hr & Hsr & Hrep').
  exists ((op, r) :: h), dir', m'. conjs; [done| | |done]; econstructor; done.
Qed.
End system.
