(* ===== verification/DirList.v ===== *)
(** * Listing, emptiness and creation of directories

    A listing that is interrupted and resumed shows every entry once; a directory
    is reported empty exactly if it holds nothing but its two dot entries; a new
    directory holds these. *)

From S2P Require Import Prelude.
From S2P Require Import Hash.
From S2P Require Import DirName.
From S2P Require Import DentryBlock.
From S2P Require Import Directory.
From S2P Require Import DirProps.
From S2P Require Import DirOps.

Section list.
Context `{DirFormat} (match_name : dir_filename -> list Z -> Z) `{!NameMatching match_name}.
Notation dir_rep := (dir_rep match_name).

(** ** The entries of a directory in the order of a listing *)

Definition block_ents (dir : dir_inode) (i : Z) (p : nat) : list (dloc * dir_ent) :=
  match d_pages dir !! i with
  | Some b => (fun x => (InPage i x.1, x.2)) <$> entries_from b p
  | None => []
  end.
(** The entries of [k] blocks from block [n] on, from slot [p] of the first. *)
Fixpoint tail_ents (dir : dir_inode) (k : nat) (n : Z) (p : nat) : list (dloc * dir_ent) :=
  match k with
  | O => []
  | S k => block_ents dir n p ++ tail_ents dir k (n + 1) 0
  end.
Definition dir_ents (dir : dir_inode) : list (dloc * dir_ent) :=
  match d_inline dir with
  | Some d => (fun x => (InInode x.1, x.2)) <$> entries_from d 0
  | None => tail_ents dir (Z.to_nat (dir_blocks dir)) 0 0
  end.

Lemma entries_from_NoDup d p : NoDup (entries_from d p).*1.
Proof.
  unfold entries_from. generalize (dmax d - p)%nat. intros n. revert p. induction n as [|n IH]; intros p; cbn; [constructor|].
  destruct (entry_at d p) as [e|]; cbn; [|apply IH]. constructor; [|apply IH].
  intros ((q & e') & Hq & Hin)%list_elem_of_fmap. cbn in Hq. subst. apply list_elem_of_omap in Hin as (x & Hx & E).
  apply elem_of_seq in Hx. apply fmap_Some in E as (y & _ & [= -> _]). lia.
Qed.

Lemma fmap_NoDup_fst {A B C} (g : A -> C) (l : list (A * B)) : (forall a a', g a = g a' -> a = a') -> NoDup l.*1 ->
  NoDup ((fun x => (g x.1, x.2)) <$> l).*1.
Proof.
  intros Hg Hn. replace ((fun x => (g x.1, x.2)) <$> l).*1 with (g <$> l.*1) by (by rewrite <-!list_fmap_compose).
  apply NoDup_fmap_2_strong; [intros; by apply Hg|done].
Qed.

Lemma elem_of_block_ents dir i p l e : dir_shape dir -> (l, e) ∈ block_ents dir i p <-> exists q, l = InPage i q /\ (p <= q)%nat /\ de_at dir l = Some e.
Proof.
  intros Hok. unfold block_ents. destruct (d_pages dir !! i) as [b|] eqn:Eb.
  - rewrite list_elem_of_fmap. destruct (dk_pages dir Hok i b Eb) as (Hb & _). split.
    + intros ((q & e') & [= -> ->] & (Hq & E)%elem_of_entries_from). exists q. split; [done|]. split; [lia|]. cbn. by rewrite Eb.
    + intros (q & -> & Hq & E). cbn in E. rewrite Eb in E. cbn in E. exists (q, e). split; [done|]. apply elem_of_entries_from. split; [|done].
      apply entry_at_has in E as (de & Hde & _). destruct (bok_range b Hb q de Hde) as [Hn Hr]. pose proof (dslots_pos (name_len de) ltac:(lia)). lia.
  - split; [by intros ?%elem_of_nil|]. intros (q & -> & _ & E). cbn in E. by rewrite Eb in E.
Qed.

Lemma elem_of_tail_ents dir k n l e : dir_shape dir ->
  (l, e) ∈ tail_ents dir k n 0 <-> exists i q, l = InPage i q /\ n <= i < n + Z.of_nat k /\ de_at dir l = Some e.
Proof.
  intros Hok. revert n. induction k as [|k IH]; intros n; cbn [tail_ents].
  - split; [by intros ?%elem_of_nil|]. intros (i & q & _ & Hi & _). lia.
  - rewrite elem_of_app, IH, elem_of_block_ents by done. split.
    + intros [(q & -> & _ & E)|(i & q & -> & Hi & E)]; [exists n, q|exists i, q]; (split; [done|]; split; [lia|done]).
    + intros (i & q & -> & Hi & E). destruct (decide (i = n)) as [->|]; [left; exists q; split; [done|]; split; [lia|done]|].
      right. exists i, q. split; [done|]. split; [lia|done].
Qed.

Lemma tail_ents_NoDup dir k n p : dir_shape dir -> NoDup (tail_ents dir k n p).*1.
Proof.
  intros Hok. revert n p. induction k as [|k IH]; intros n p; cbn [tail_ents]; [constructor|].
  rewrite fmap_app. apply list.NoDup_app. split; [|split; [|apply IH]].
  - unfold block_ents. destruct (d_pages dir !! n) as [b|]; [|constructor]. apply (fmap_NoDup_fst (InPage n)); [by intros ?? [= ->]|apply entries_from_NoDup].
  - intros l ((l1 & e1) & -> & H1)%list_elem_of_fmap ((l2 & e2) & Hl & H2)%list_elem_of_fmap. cbn in Hl. subst.
    apply elem_of_block_ents in H1 as (q & E1 & _); [|done]. apply elem_of_tail_ents in H2 as (i & q' & E2 & Hi & _); [|done].
    assert (i = n) by congruence. lia.
Qed.

Lemma elem_of_dir_ents dir l e : dir_shape dir -> (l, e) ∈ dir_ents dir <-> de_at dir l = Some e.
Proof.
  intros Hok. unfold dir_ents. destruct (d_inline dir) as [d|] eqn:Ein.
  - destruct (dk_inline dir Hok d Ein) as (Hd & Hp & _). rewrite list_elem_of_fmap. split.
    + intros ((q & e') & [= -> ->] & (_ & E)%elem_of_entries_from). cbn. by rewrite Ein.
    + destruct l as [i q|q]; cbn; [by rewrite Hp, lookup_empty|]. rewrite Ein. cbn. intros E. exists (q, e). split; [done|]. apply elem_of_entries_from.
      split; [|done]. apply entry_at_has in E as (de & Hde & _). destruct (bok_range d Hd q de Hde) as [Hn Hr]. pose proof (dslots_pos (name_len de) ltac:(lia)). lia.
  - rewrite elem_of_tail_ents by done. split; [naive_solver|]. destruct l as [i q|q]; [|cbn; by rewrite Ein]. intros E. exists i, q. split; [done|]. split; [|done].
    cbn in E. destruct (d_pages dir !! i) as [b|] eqn:Eb; [|done]. pose proof (pages_blocks dir i b Hok Eb). lia.
Qed.

Lemma dir_ents_NoDup dir : dir_shape dir -> NoDup (dir_ents dir).*1.
Proof.
  intros Hok. unfold dir_ents. destruct (d_inline dir) as [d|]; [|by apply tail_ents_NoDup].
  apply (fmap_NoDup_fst InInode); [by intros ?? [= ->]|apply entries_from_NoDup].
Qed.

(** The entries are those of the map, each once. *)
Lemma dir_ents_map dir m : dir_rep dir m -> (dir_ents dir).*2 ≡ₚ (map_to_list m).*2.
Proof.
  intros [Hok Hm]. assert (Hk : (fun x : dloc * dir_ent => (canon (e_name x.2), x.2)) <$> dir_ents dir ≡ₚ map_to_list m).
  { apply NoDup_Permutation; [|apply NoDup_map_to_list|].
    - apply NoDup_fmap_2_strong; [|by eapply NoDup_fmap_1, dir_ents_NoDup, Hok].
      intros [l e] [l' e'] H1%elem_of_dir_ents H2%elem_of_dir_ents; [|apply Hok..]. cbn. intros [= Hc ->].
      f_equal. by apply (dk_uniq _ dir Hok l l' e' e').
    - intros [k e]. rewrite elem_of_map_to_list, Hm, list_elem_of_fmap. split.
      + intros ((l & e') & [= -> ->] & E%elem_of_dir_ents); [|apply Hok]. eauto.
      + intros (l & E & <-). exists (l, e). split; [done|]. apply elem_of_dir_ents; [apply Hok|done]. }
  rewrite <-Hk, <-list_fmap_compose. done.
Qed.

(** ** Listing *)

Section readdir.
Context (encrypted : bool) (disk_to_usr : Z -> list Z -> Z + list Z) (user_name : dir_ent -> list Z).

Lemma taken_app actor acc l1 l2 : taken actor acc (l1 ++ l2) = if decide (left_over actor acc l1 = []) then taken actor (taken actor acc l1) l2 else taken actor acc l1.
Proof.
  revert acc. induction l1 as [|e l1 IH]; intros acc; cbn; [done|]. destruct (actor acc e); [apply IH|done].
Qed.
Lemma left_over_app actor acc l1 l2 : left_over actor acc (l1 ++ l2) = if decide (left_over actor acc l1 = []) then left_over actor (taken actor acc l1) l2 else left_over actor acc l1 ++ l2.
Proof.
  revert acc. induction l1 as [|e l1 IH]; intros acc; cbn; [done|]. destruct (actor acc e); [apply IH|done].
Qed.
Lemma taken_left_over actor acc l : taken actor acc l ++ left_over actor acc l = acc ++ l.
Proof.
  revert acc. induction l as [|e l IH]; intros acc; cbn; [done|]. destruct (actor acc e); [|done]. rewrite IH, <-app_assoc. done.
Qed.
Lemma taken_all acc l : taken (fun _ _ => true) acc l = acc ++ l.
Proof. revert acc. induction l as [|e l IH]; intros acc; cbn; [by rewrite app_nil_r|]. rewrite IH, <-app_assoc. done. Qed.
Lemma left_over_all acc l : left_over (fun _ _ => true) acc l = [].
Proof. revert acc. induction l as [|e l IH]; intros acc; cbn; [done|]. apply IH. Qed.

Definition shown (l : list (dloc * dir_ent)) : list dirent := (fun x => user_ent user_name x.2) <$> l.

Lemma shown_app l1 l2 : shown (l1 ++ l2) = shown l1 ++ shown l2.
Proof. apply fmap_app. Qed.
Lemma shown_block (mk : nat -> dloc) l : shown ((fun x => (mk x.1, x.2)) <$> l) = (fun x => user_ent user_name x.2) <$> l.
Proof. unfold shown. by rewrite <-list_fmap_compose. Qed.

(** The names of the directory can be decoded. *)
Definition decodes (dir : dir_inode) : Prop :=
  forall l e, de_at dir l = Some e -> usr_name encrypted disk_to_usr (e_hash e) (e_name e) = inr (user_name e).

Lemma readdir_loop_spec actor k io dir n p ctx fsck : dir_shape dir -> decodes dir -> (forall i, io i = None) ->
  0 <= n -> (n + Z.of_nat k) * Z.of_nat NR_DENTRY_IN_BLOCK < 2 ^ 32 -> (0 < NR_DENTRY_IN_BLOCK)%nat ->
  ctx_pos ctx = n * Z.of_nat NR_DENTRY_IN_BLOCK + Z.of_nat p -> (p < NR_DENTRY_IN_BLOCK)%nat -> (k = 0%nat -> p = 0%nat) ->
  let es := shown (tail_ents dir k n p) in
  exists err n' p', readdir_loop encrypted disk_to_usr actor k (fun _ => false) io dir n ctx fsck =
      Some (err, {| ctx_pos := n' * Z.of_nat NR_DENTRY_IN_BLOCK + Z.of_nat p'; emitted := taken actor (emitted ctx) es |}, fsck) /\
    n <= n' <= n + Z.of_nat k /\ (p' < NR_DENTRY_IN_BLOCK)%nat /\ (n' = n + Z.of_nat k -> p' = 0%nat) /\
    shown (tail_ents dir (Z.to_nat (n + Z.of_nat k - n')) n' p') = left_over actor (emitted ctx) es /\
    (err = 0 \/ err = 1).
Proof.
  intros Hok Hdec Hio. revert n p ctx. induction k as [|k IH]; intros n p ctx Hn Hm Hnr Hpos Hp Hk; cbn -[u32 f2fs_fill_dentries].
  { rewrite (Hk eq_refl) in *. exists 0, n, 0%nat. replace (Z.to_nat (n + Z.of_nat 0 - n)) with 0%nat by lia.
    destruct ctx as [cp em]; cbn in *. subst cp. conjs; try done; lia. }
  assert (Hlt : n < 2 ^ 32 - 1) by nia. rewrite !(u32_small (n + 1)) by lia.
  rewrite !(u32_small ((n + 1) * _)) by nia.
  assert (Hnext : forall em, exists err n' p', readdir_loop encrypted disk_to_usr actor k (fun _ => false) io dir (n + 1)
      {| ctx_pos := (n + 1) * Z.of_nat NR_DENTRY_IN_BLOCK; emitted := em |} fsck =
      Some (err, {| ctx_pos := n' * Z.of_nat NR_DENTRY_IN_BLOCK + Z.of_nat p'; emitted := taken actor em (shown (tail_ents dir k (n + 1) 0)) |}, fsck) /\
    n <= n' <= n + Z.of_nat (S k) /\ (p' < NR_DENTRY_IN_BLOCK)%nat /\ (n' = n + Z.of_nat (S k) -> p' = 0%nat) /\
    shown (tail_ents dir (Z.to_nat (n + Z.of_nat (S k) - n')) n' p') = left_over actor em (shown (tail_ents dir k (n + 1) 0)) /\ (err = 0 \/ err = 1)).
  { intros em. destruct (IH (n + 1) 0%nat {| ctx_pos := (n + 1) * Z.of_nat NR_DENTRY_IN_BLOCK; emitted := em |}) as (err & n' & p' & E & H1 & H2 & H3 & H4 & H5);
      [lia|nia|lia|cbn; lia|lia|done|].
    exists err, n', p'. rewrite E. conjs; try done; try lia.
    cbn [emitted] in H4. rewrite <-H4. do 2 f_equal. lia. }
  unfold f2fs_find_data_page. rewrite Hio. unfold block_ents. destruct (d_pages dir !! n) as [b|] eqn:Eb; cbn -[u32 f2fs_fill_dentries].
  2: { apply Hnext. }
  destruct (dk_pages dir Hok n b Eb) as (Hb & Hmx & _). rewrite (u32_small (n * _)) by nia.
  unfold f2fs_fill_dentries. rewrite Hmx. replace (Z.to_nat (ctx_pos ctx mod Z.of_nat NR_DENTRY_IN_BLOCK)) with p.
  2: { rewrite Hpos, Z.add_comm, Z.mod_add, Z.mod_small; lia. }
  destruct (fill_loop_spec encrypted disk_to_usr actor user_name (S NR_DENTRY_IN_BLOCK) b (n * Z.of_nat NR_DENTRY_IN_BLOCK) p false ctx fsck p)
    as (err & v & -> & Hv & Hleft & Hres); rewrite ?Hmx; try done; try lia; try nia.
  { intros q e E. apply (Hdec (InPage n q)). cbn. by rewrite Eb. }
  cbn -[u32]. rewrite shown_app, shown_block.
  rewrite taken_app, left_over_app. destruct Hres as [[-> Hlo]|[-> Hlo]].
  - cbn -[u32]. rewrite decide_True by done. rewrite decide_True by done. apply Hnext.
  - cbn -[u32]. rewrite decide_False by done. rewrite decide_False by done. exists 1, n, v.
    assert (v < NR_DENTRY_IN_BLOCK)%nat.
    { destruct (decide (v < NR_DENTRY_IN_BLOCK)%nat); [done|]. rewrite entries_from_end in Hleft by lia. by rewrite <-Hleft in Hlo. }
    conjs; try done; try lia. replace (Z.to_nat (n + Z.of_nat (S k) - n)) with (S k) by lia. cbn [tail_ents].
    unfold block_ents. rewrite Eb, shown_app, shown_block. by rewrite Hleft.
Qed.

(** A call of [f2fs_readdir] shows what the actor takes of the rest of the directory,
    and leaves the position at what it did not take. *)
Lemma readdir_spec actor env dir n p ctx fsck : dir_shape dir -> decodes dir -> (forall i, env_io env i = None) -> env_ipage env = None ->
  dir_blocks dir * Z.of_nat NR_DENTRY_IN_BLOCK < 2 ^ 32 -> (0 < NR_DENTRY_IN_BLOCK)%nat -> d_inline dir = None ->
  0 <= n <= dir_blocks dir -> (p < NR_DENTRY_IN_BLOCK)%nat -> (n = dir_blocks dir -> p = 0%nat) ->
  ctx_pos ctx = n * Z.of_nat NR_DENTRY_IN_BLOCK + Z.of_nat p ->
  let es := shown (tail_ents dir (Z.to_nat (dir_blocks dir - n)) n p) in
  exists n' p', f2fs_readdir encrypted disk_to_usr actor (fun _ => false) env dir ctx fsck =
      Some (0, {| ctx_pos := n' * Z.of_nat NR_DENTRY_IN_BLOCK + Z.of_nat p'; emitted := taken actor (emitted ctx) es |}, fsck) /\
    0 <= n' <= dir_blocks dir /\ (p' < NR_DENTRY_IN_BLOCK)%nat /\ (n' = dir_blocks dir -> p' = 0%nat) /\
    shown (tail_ents dir (Z.to_nat (dir_blocks dir - n')) n' p') = left_over actor (emitted ctx) es.
Proof.
  intros Hok Hdec Hio Hip Hm Hnr Hin Hn Hp Hpn Hpos es. unfold f2fs_readdir. rewrite Hin.
  replace (u32 (u64 (ctx_pos ctx) / Z.of_nat NR_DENTRY_IN_BLOCK)) with n.
  2: { rewrite Hpos, u64_small by nia. rewrite Z.add_comm, Z.div_add, Z.div_small, Z.add_0_l, u32_small by nia. done. }
  destruct (readdir_loop_spec actor (Z.to_nat (dir_blocks dir - n)) (env_io env) dir n p ctx fsck) as (err & n' & p' & -> & H1 & H2 & H3 & H4 & H5); try done; try lia.
  { rewrite Z2Nat.id by lia. nia. }
  rewrite Z2Nat.id in * by lia. replace (n + (dir_blocks dir - n)) with (dir_blocks dir) in * by lia.
  cbn [mbind option_bind]. exists n', p'. conjs; try done; try lia. replace (if err <? 0 then err else 0) with 0; [done|]. by destruct H5 as [-> | ->].
Qed.

(** The entries still to be shown at a position of the listing. *)
Definition rest_at (dir : dir_inode) (pos : Z) (es : list dirent) : Prop :=
  match d_inline dir with
  | Some d => exists v, pos = Z.of_nat v /\ (v <= dmax d)%nat /\ es = ((fun x => user_ent user_name x.2) <$> entries_from d v)
  | None => exists n p, pos = n * Z.of_nat NR_DENTRY_IN_BLOCK + Z.of_nat p /\ 0 <= n <= dir_blocks dir /\ (p < NR_DENTRY_IN_BLOCK)%nat /\
      (n = dir_blocks dir -> p = 0%nat) /\ es = shown (tail_ents dir (Z.to_nat (dir_blocks dir - n)) n p)
  end.

(** Blocks and slots are counted in 32 bits, and there are slots. *)
Definition listable (dir : dir_inode) : Prop :=
  (0 < NR_DENTRY_IN_BLOCK)%nat /\ dir_blocks dir * Z.of_nat NR_DENTRY_IN_BLOCK < 2 ^ 32 /\
  forall d, d_inline dir = Some d -> (0 < dmax d)%nat /\ Z.of_nat (dmax d) < 2 ^ 32.

Lemma rest_at_0 dir : dir_shape dir -> listable dir -> rest_at dir 0 (shown (dir_ents dir)).
Proof.
  intros Hok (Hnr & Hm & _). unfold rest_at, dir_ents. destruct (d_inline dir) as [d|].
  - exists 0%nat. rewrite shown_block. split; [done|]. split; [lia|done].
  - exists 0, 0%nat. rewrite Z.sub_0_r. conjs; try done; try lia. apply Z.shiftr_nonneg, u64_range.
Qed.

Lemma readdir_rest actor env dir ctx fsck es : dir_shape dir -> decodes dir -> (forall i, env_io env i = None) -> env_ipage env = None -> listable dir ->
  rest_at dir (ctx_pos ctx) es ->
  exists ctx', f2fs_readdir encrypted disk_to_usr actor (fun _ => false) env dir ctx fsck = Some (0, ctx', fsck) /\
    emitted ctx' = taken actor (emitted ctx) es /\ rest_at dir (ctx_pos ctx') (left_over actor (emitted ctx) es).
Proof.
  intros Hok Hdec Hio Hip (Hnr & Hm & Hd). unfold rest_at at 1. destruct (d_inline dir) as [d|] eqn:Ein.
  - intros (v & Hpos & Hv & ->). destruct (Hd d eq_refl) as [Hd0 Hd1]. destruct (dk_inline dir Hok d Ein) as (Hb & _).
    unfold f2fs_readdir. rewrite Ein. unfold f2fs_read_inline_dir, rest_at. rewrite Ein, Hip. destruct (Z.eqb_spec (ctx_pos ctx) (Z.of_nat (dmax d))) as [He|Hne].
    { rewrite entries_from_end by lia. exists ctx. cbn. split; [done|]. split; [done|]. exists v. rewrite entries_from_end by lia. done. }
    unfold f2fs_fill_dentries. replace (Z.to_nat (ctx_pos ctx mod Z.of_nat (dmax d))) with v by (rewrite Hpos, Z.mod_small; lia).
    destruct (fill_loop_spec encrypted disk_to_usr actor user_name (S (dmax d)) d 0 v false ctx fsck v) as (err & v' & -> & Hv' & Hleft & Hres); try done; try lia.
    { intros q e E. apply (Hdec (InInode q)). cbn. by rewrite Ein. }
    cbn [mbind option_bind]. eexists. split; [by destruct Hres as [[-> _]|[-> _]]|]. split; [by destruct (err =? 0)|]. destruct Hres as [[-> Hlo]|[-> Hlo]]; cbn.
    + exists (dmax d). split; [done|]. split; [lia|]. rewrite Hlo, entries_from_end by lia. done.
    + exists v'. split; [done|]. split; [lia|]. done.
  - intros (n & p & Hpos & Hn & Hp & Hpn & ->).
    destruct (readdir_spec actor env dir n p ctx fsck) as (n' & p' & -> & H1 & H2 & H3 & H4); try done.
    eexists. split; [done|]. split; [done|]. unfold rest_at. rewrite Ein. exists n', p'. conjs; try done; lia.
Qed.

(** A listing by several calls, each with an actor that may stop it. *)
Fixpoint readdir_calls (actors : list (list dirent -> dirent -> bool)) (env : dir_env) (dir : dir_inode) (ctx : dir_context) (fsck : bool) : option (dir_context * bool) :=
  match actors with
  | [] => Some (ctx, fsck)
  | a :: actors =>
      '(err, ctx, fsck) ← f2fs_readdir encrypted disk_to_usr a (fun _ => false) env dir ctx fsck;
      if err =? 0 then readdir_calls actors env dir ctx fsck else None
  end.

Lemma readdir_calls_app a1 a2 env dir ctx fsck :
  readdir_calls (a1 ++ a2) env dir ctx fsck = ('(ctx, fsck) ← readdir_calls a1 env dir ctx fsck; readdir_calls a2 env dir ctx fsck).
Proof.
  revert ctx fsck. induction a1 as [|a a1 IH]; intros ctx fsck; cbn; [done|].
  destruct (f2fs_readdir _ _ a _ env dir ctx fsck) as [[[err c1] f1]|]; [|done]. cbn. destruct (err =? 0); [apply IH|done].
Qed.

Lemma readdir_calls_rest actors env dir ctx fsck es : dir_shape dir -> decodes dir -> (forall i, env_io env i = None) -> env_ipage env = None -> listable dir ->
  rest_at dir (ctx_pos ctx) es ->
  exists ctx' es', readdir_calls actors env dir ctx fsck = Some (ctx', fsck) /\ rest_at dir (ctx_pos ctx') es' /\ emitted ctx' ++ es' = emitted ctx ++ es.
Proof.
  intros Hok Hdec Hio Hip Hl. revert ctx es. induction actors as [|a actors IH]; intros ctx es Hr; cbn; [by exists ctx, es|].
  destruct (readdir_rest a env dir ctx fsck es Hok Hdec Hio Hip Hl Hr) as (ctx1 & -> & He & Hr1). cbn.
  destruct (IH ctx1 _ Hr1) as (ctx' & es' & E & Hr' & Hcat). exists ctx', es'. split; [done|]. split; [done|]. by rewrite Hcat, He, taken_left_over.
Qed.

(** C32: Interrupted listings.  When the blocks can be read and the names decoded,
    however the readers of a directory that does not change stop and resume, once a call reads to the end each entry of the
    directory has been shown exactly once, with its name, inode number and type:
    nothing is skipped at a full buffer, in the middle of a block, at a hole or
    at the end of a block, in both layouts; no file system check is requested. *)
Theorem readdir_shows_all actors env dir m fsck : dir_rep dir m -> decodes dir -> (forall i, env_io env i = None) -> env_ipage env = None -> listable dir ->
  exists ctx, readdir_calls (actors ++ [fun _ _ => true]) env dir {| ctx_pos := 0; emitted := [] |} fsck = Some (ctx, fsck) /\
    emitted ctx ≡ₚ (user_ent user_name <$> (map_to_list m).*2).
Proof.
  intros Hrep Hdec Hio Hip Hl. pose proof (dk_shape _ dir (proj1 Hrep)) as Hok.
  destruct (readdir_calls_rest actors env dir {| ctx_pos := 0; emitted := [] |} fsck (shown (dir_ents dir))) as (ctx & es & E & Hr & Hcat); try done.
  { by apply rest_at_0. }
  destruct (readdir_rest (fun _ _ => true) env dir ctx fsck es Hok Hdec Hio Hip Hl Hr) as (ctx' & E' & He & _).
  exists ctx'. split.
  - rewrite readdir_calls_app, E. cbn. by rewrite E'.
  - rewrite He, taken_all, Hcat. cbn. unfold shown. rewrite <-(dir_ents_map dir m Hrep). by rewrite <-list_fmap_compose.
Qed.
End readdir.

(** ** Dot entries *)

(** The length of a name in a block is the length stored in its entry. *)
Lemma entry_name_length d p de : block_ok d -> has_entry d p de -> Z.of_nat (length (de_name d p (name_len de))) = name_len de.
Proof.
  intros Hok Hp. destruct (bok_range d Hok p de Hp) as [Hn Hr]. pose proof (dslots_bytes (name_len de) ltac:(lia)).
  apply (Nat.mul_le_mono_r _ _ F2FS_SLOT_LEN) in Hr. unfold de_name. rewrite length_take, length_drop, (bok_fn d Hok). lia.
Qed.

(** The two first slots hold the dot entries. *)
Definition dots_in (d : f2fs_dentry_ptr) : Prop :=
  (exists e, entry_at d 0 = Some e /\ e_name e = dot) /\ (exists e, entry_at d 1 = Some e /\ e_name e = dotdot).
Definition dots_at (dir : dir_inode) : Prop :=
  match d_inline dir with
  | Some d => dots_in d
  | None => exists b, d_pages dir !! 0 = Some b /\ dots_in b
  end.

(** Behind the dots, a bit is set only if there is an entry. *)
Lemma dots_bits d : block_ok d -> dots_in d ->
  (forall q, (2 <= q)%nat -> test_bit_le q (bitmap d) = false) <-> (forall q, (2 <= q)%nat -> entry_at d q = None).
Proof.
  intros Hok [(e0 & E0 & N0) (e1 & E1 & N1)]. split; intros Hall q Hq; [by apply free_no_entry, Hall|].
  destruct (test_bit_le q (bitmap d)) eqn:Eb; [|done]. exfalso. destruct (bok_owner d Hok q Eb) as (p & de & Hp & Hr).
  destruct (decide (2 <= p)%nat) as [Hp2|Hp2].
  { specialize (Hall p Hp2). rewrite entry_at_None in Hall. by eapply Hall. }
  pose proof (entry_name_length d p de Hok Hp) as Hlen.
  assert (Hone : dslots (name_len de) = 1%nat); [|lia]. apply dslots_dots. rewrite <-Hlen.
  assert (He : entry_at d p = Some {| e_hash := hash_code de; e_name := de_name d p (name_len de); e_ino := de_ino de; e_type := file_type de |}) by (apply entry_at_has; eauto).
  destruct p as [|[|]]; [rewrite He in E0; injection E0 as <-; cbn in N0; by rewrite N0|rewrite He in E1; injection E1 as <-; cbn in N1; by rewrite N1|lia].
Qed.

Lemma empty_loop_spec n io dir bidx : dir_shape dir -> (forall i, io i = None) -> 0 <= bidx -> (bidx = 0 -> forall b, d_pages dir !! 0 = Some b -> dots_in b) ->
  empty_loop n io dir bidx = true <->
  forall i q e, bidx <= i < bidx + Z.of_nat n -> de_at dir (InPage i q) = Some e -> i = 0 /\ (q < 2)%nat.
Proof.
  intros Hok Hio. revert bidx. induction n as [|n IH]; intros bidx Hb Hdots; cbn -[ENOENT Nat.ltb].
  { split; [|done]. intros _ i q e Hi. lia. }
  assert (Hstep : (forall i q e, bidx + 1 <= i < bidx + 1 + Z.of_nat n -> de_at dir (InPage i q) = Some e -> i = 0 /\ (q < 2)%nat) ->
    (forall q e, de_at dir (InPage bidx q) = Some e -> bidx = 0 /\ (q < 2)%nat) ->
    forall i q e, bidx <= i < bidx + Z.of_nat (S n) -> de_at dir (InPage i q) = Some e -> i = 0 /\ (q < 2)%nat).
  { intros H1 H2 i q e Hi E. destruct (decide (i = bidx)) as [->|]; [by eapply H2|]. apply (H1 i q e); [lia|done]. }
  assert (Hback : (forall i q e, bidx <= i < bidx + Z.of_nat (S n) -> de_at dir (InPage i q) = Some e -> i = 0 /\ (q < 2)%nat) ->
     (forall i q e, bidx + 1 <= i < bidx + 1 + Z.of_nat n -> de_at dir (InPage i q) = Some e -> i = 0 /\ (q < 2)%nat)).
  { intros H1 i q e Hi. apply (H1 i q e). lia. }
  unfold f2fs_find_data_page. rewrite Hio. destruct (d_pages dir !! bidx) as [b|] eqn:Eb.
  2: { rewrite Z.eqb_refl, IH by lia. split; [|done]. intros H1. apply Hstep; [done|]. intros q e E. cbn in E. by rewrite Eb in E. }
  destruct (dk_pages dir Hok bidx b Eb) as (Hbok & Hmx & _). pose proof nr_dentry_dots.
  set (start := if bidx =? 0 then 2%nat else 0%nat). assert (Hst : (start <= dmax b)%nat) by (unfold start; destruct (_ =? _); lia).
  pose proof (no_bits_no_entries b start Hbok Hst) as Hbits. rewrite Hmx in Hbits.
  assert (Hents : (forall q, (start <= q)%nat -> test_bit_le q (bitmap b) = false) <-> forall q e, de_at dir (InPage bidx q) = Some e -> bidx = 0 /\ (q < 2)%nat).
  { unfold start. cbn. rewrite Eb. cbn. destruct (Z.eqb_spec bidx 0) as [->|Hne].
    - rewrite (dots_bits b Hbok) by (by apply Hdots). split.
      + intros Hall q e E. split; [done|]. destruct (decide (q < 2)%nat); [done|]. rewrite Hall in E; [done|lia].
      + intros Hall q Hq. destruct (entry_at b q) as [e|] eqn:E; [|done]. destruct (Hall q e E). lia.
    - split.
      + intros Hall q e E. pose proof (proj1 (empty_bits_entries b Hbok) (fun q => Hall q ltac:(lia)) q). congruence.
      + intros Hall q _. apply (empty_bits_entries b Hbok). intros q'. destruct (entry_at b q') as [e|] eqn:E; [|done]. by destruct (Hall q' e E). }
  destruct (find_next_spec true (bitmap b) NR_DENTRY_IN_BLOCK start ltac:(lia)) as (Hr & _ & _). fold find_next_bit_le in Hr.
  destruct (Nat.ltb_spec (find_next_bit_le (bitmap b) NR_DENTRY_IN_BLOCK start) NR_DENTRY_IN_BLOCK) as [Hlt|Hge].
  - split; [done|]. intros Hall. assert (find_next_bit_le (bitmap b) NR_DENTRY_IN_BLOCK start = NR_DENTRY_IN_BLOCK); [|lia].
    apply Hbits, Hents. intros q e. apply Hall. lia.
  - rewrite IH by lia. split; [|done]. intros H1. apply Hstep; [done|]. apply Hents, Hbits. lia.
Qed.

(** The places of the dot entries. *)
Definition dot_loc (dir : dir_inode) (p : nat) : dloc := match d_inline dir with Some _ => InInode p | None => InPage 0 p end.

Lemma dots_de_at dir : dots_at dir ->
  (exists e, de_at dir (dot_loc dir 0) = Some e /\ e_name e = dot) /\ (exists e, de_at dir (dot_loc dir 1) = Some e /\ e_name e = dotdot).
Proof.
  unfold dots_at, dot_loc. destruct (d_inline dir) as [d|] eqn:Ein; cbn; [by rewrite Ein|]. intros (b & -> & Hd). done.
Qed.

Lemma empty_dir_entries env dir : dir_shape dir -> dots_at dir -> (forall i, env_io env i = None) -> env_ipage env = None ->
  f2fs_empty_dir env dir = true <-> forall l e, de_at dir l = Some e -> l = dot_loc dir 0 \/ l = dot_loc dir 1.
Proof.
  intros Hok Hdots Hio Hip. unfold f2fs_empty_dir, dot_loc, dots_at in *. destruct (d_inline dir) as [d|] eqn:Ein.
  - destruct (dk_inline dir Hok d Ein) as (Hb & Hp & _). unfold f2fs_empty_inline_dir. rewrite Hip, negb_true_iff, Nat.ltb_ge.
    assert (H2 : (2 <= dmax d)%nat).
    { destruct Hdots as [_ (e & E & _)]. apply entry_at_has in E as (de & Hde & _). destruct (bok_range d Hb 1 de Hde) as [Hn Hr]. pose proof (dslots_pos (name_len de) ltac:(lia)). lia. }
    pose proof (no_bits_no_entries d 2 Hb H2) as Hbits. rewrite (dots_bits d Hb Hdots) in Hbits.
    destruct (find_next_spec true (bitmap d) (dmax d) 2 H2) as (Hr & _ & _). fold find_next_bit_le in Hr. split.
    + intros Hge [i q|q] e E; [cbn in E; by rewrite Hp, lookup_empty in E|]. cbn in E. rewrite Ein in E. cbn in E.
      destruct (decide (2 <= q)%nat) as [Hq|Hq]; [rewrite (proj1 Hbits ltac:(lia)) in E; done|]. destruct q as [|[|]]; [by left|by right|lia].
    + intros Hall. rewrite (proj2 Hbits); [lia|]. intros q Hq. destruct (entry_at d q) as [e|] eqn:E; [|done].
      destruct (Hall (InInode q) e) as [[= ->]|[= ->]]; [cbn; by rewrite Ein|lia|lia].
  - destruct Hdots as (b & Eb & Hdots). rewrite empty_loop_spec by (try done; naive_solver). split.
    + intros Hall [i q|q] e E; [|cbn in E; by rewrite Ein in E]. destruct (Hall i q e) as [-> Hq]; [|done|destruct q as [|[|]]; [by left|by right|lia]].
      cbn in E. destruct (d_pages dir !! i) as [b'|] eqn:Eb'; [|done]. pose proof (pages_blocks dir i b' Hok Eb'). lia.
    + intros Hall i q e Hi E. destruct (Hall _ e E) as [[= -> ->]|[= -> ->]]; lia.
Qed.

(** C33: A directory that starts with its dot entries and whose blocks can be read is
    empty, for rmdir and rename, exactly if its map holds nothing but the dot entries:
    no block, hole or inner slot of a name is mistaken for an entry or for its absence. *)
Theorem empty_dir_iff env dir m : dir_rep dir m -> dots_at dir -> (forall i, env_io env i = None) -> env_ipage env = None ->
  f2fs_empty_dir env dir = true <-> dom m = {[canon dot; canon dotdot]}.
Proof.
  intros [Hok Hm] Hdots Hio Hip. rewrite (empty_dir_entries env dir) by (done || apply Hok).
  destruct (dots_de_at dir Hdots) as ((e0 & E0 & N0) & (e1 & E1 & N1)). split.
  - intros Hall. apply set_eq. intros k. rewrite elem_of_dom. split.
    + intros (e & (l & E & <-)%Hm). destruct (Hall l e E) as [-> | ->]; [replace e with e0 by congruence; rewrite N0|replace e with e1 by congruence; rewrite N1]; set_solver.
    + rewrite elem_of_union, !elem_of_singleton. intros [-> | ->]; [exists e0|exists e1]; apply Hm; [exists (dot_loc dir 0)|exists (dot_loc dir 1)]; (split; [done|congruence]).
  - intros Hd l e E. assert (canon (e_name e) ∈ dom m) as Hin by (apply elem_of_dom; exists e; apply Hm; eauto).
    rewrite Hd, elem_of_union, !elem_of_singleton in Hin. destruct Hin as [Hc|Hc]; [left|right].
    + apply (dk_uniq _ dir Hok l _ e e0); [done|done|congruence].
    + apply (dk_uniq _ dir Hok l _ e e1); [done|done|congruence].
Qed.

(** ** New directories *)

(** A directory as [f2fs_new_inode] leaves it: no pages, or an area of zeros in the inode. *)
Definition new_dir (level : Z) (inl : option nat) : dir_inode :=
  {| i_size := 0; i_dir_level := level; i_current_depth := 1; chash := 0; clevel := 0; dtask := None; d_pages := ∅; d_inline := zero_block <$> inl |}.

Lemma make_dots n ino mode pino pmode : (2 <= n)%nat ->
  exists b, f2fs_do_make_empty_dir ino mode pino pmode (zero_block n) = Some b /\ block_ok b /\ dmax b = n /\
    forall q, entry_at b q = if decide (q = 1%nat) then Some (new_ent pino pmode dotdot 0) else if decide (q = 0%nat) then Some (new_ent ino mode dot 0) else None.
Proof.
  intros Hn. pose proof name_len_range as Hnl. destruct (zero_block_ok n) as [Hz Hze]. 
  assert (S1 : dslots (Z.of_nat (length dot)) = 1%nat) by (apply dslots_dots; cbn; lia). assert (S2 : dslots (Z.of_nat (length dotdot)) = 1%nat) by (apply dslots_dots; cbn; lia).
  unfold f2fs_do_make_empty_dir.
  destruct (update_dentry_ok ino mode (zero_block n) dot 0 0 Hz) as (b1 & -> & Hb1 & Hm1 & He1).
  { unfold name_ok. cbn. lia. }
  { rewrite S1. cbn. lia. }
  { intros q _. apply (empty_bits_entries _ Hz), Hze. }
  cbn [mbind option_bind]. destruct (update_dentry_ok pino pmode b1 dotdot 0 1 Hb1) as (b2 & -> & Hb2 & Hm2 & He2).
  { unfold name_ok. cbn. lia. }
  { rewrite S2, Hm1. cbn. lia. }
  { intros q Hq. rewrite S2 in Hq. destruct (test_bit_le q (bitmap b1)) eqn:Eb; [|done]. exfalso.
    destruct (bok_owner b1 Hb1 q Eb) as (p & de & Hp & Hr).
    assert (He : entry_at b1 p = Some {| e_hash := hash_code de; e_name := de_name b1 p (name_len de); e_ino := de_ino de; e_type := file_type de |}) by (apply entry_at_has; eauto).
    pose proof (entry_name_length b1 p de Hb1 Hp) as Hlen. rewrite He1 in He. case_decide as Hc; [|by rewrite Hze in He].
    injection He as _ Hnm _ _. rewrite <-Hnm in Hlen. rewrite <-Hlen, S1 in Hr. lia. }
  exists b2. conjs; [done|done|by rewrite Hm2, Hm1|]. intros q. rewrite He2. case_decide; [done|]. rewrite He1. case_decide; [done|]. apply Hze.
Qed.

Definition dots_map (ino mode pino pmode : Z) : gmap (list Z) dir_ent :=
  {[canon dot := new_ent ino mode dot 0; canon dotdot := new_ent pino pmode dotdot 0]}.

(** A directory of one block, or of the inode, with the two dot entries. *)
Lemma dots_dir_rep dir ino mode pino pmode : dir_shape dir -> (d_inline dir = None -> placed dir 0 0) ->
  (forall l e, de_at dir l = Some e <-> (l = dot_loc dir 0 /\ e = new_ent ino mode dot 0) \/ (l = dot_loc dir 1 /\ e = new_ent pino pmode dotdot 0)) ->
  dir_rep dir (dots_map ino mode pino pmode).
Proof.
  intros Hok Hpl Hat. pose proof dots_canon as Hne. pose proof name_len_range as Hnl.
  destruct dots_hash as [Hh0 Hh1], dots_valid as [Hv0 Hv1].
  assert (Hent : forall l e, de_at dir l = Some e -> ent_ok match_name e).
  { intros l e [[_ ->]|[_ ->]]%Hat; unfold ent_ok, name_ok; (conjs; [done|cbn; lia|cbn; lia|done|apply u32_range|apply u32_range|apply type_by_mode_range]). }
  split; [constructor; [done|done|..]|].
  - unfold dot_loc in Hat. intros i p e [[Hl ->]|[Hl ->]]%Hat; destruct (d_inline dir); try done; injection Hl as -> ->; by apply Hpl.
  - intros l l' e e' [[-> ->]|[-> ->]]%Hat [[-> ->]|[-> ->]]%Hat; cbn; intros Hc; try done; by destruct Hne.
  - intros k e. unfold dots_map. rewrite lookup_insert_Some, lookup_singleton_Some. split.
    + intros [[<- <-]|(_ & <- & <-)]; eexists; (split; [apply Hat|done]); [by left|by right].
    + intros (l & [[_ ->]|[_ ->]]%Hat & <-); [by left|right]. split; [done|by split].
Qed.

(** A new directory stands for the map of its dot entries. *)
Lemma make_empty_dir_rep env inline_max level inl ino mode pino pmode :
  env_alloc env 0 = None -> 0 <= level < 2 ^ 8 -> 0 <= inline_max < 2 ^ 63 -> (forall n, inl = Some n -> (2 <= n <= NR_DENTRY_IN_BLOCK)%nat) ->
  exists dir, make_empty_dir env inline_max (new_dir level inl) ino mode pino pmode = Some (dir, 0) /\
    dir_rep dir (dots_map ino mode pino pmode) /\ dots_at dir.
Proof.
  intros Hal Hl Hmax Hn. unfold make_empty_dir. pose proof hash_depth_range as Hhd. destruct inl as [n|]; cbn [d_inline new_dir fmap option_fmap option_map].
  - destruct (make_dots n ino mode pino pmode) as (b & -> & Hb & Hm & He); [specialize (Hn n eq_refl); lia|]. cbn [mbind option_bind]. eexists. split; [done|].
    set (dir := if _ <? inline_max then _ else _).
    assert (Hd : d_inline dir = Some b /\ d_pages dir = ∅ /\ i_current_depth dir = 1 /\ clevel dir = 0 /\ i_dir_level dir = level /\ 0 <= i_size dir < 2 ^ 63).
    { unfold dir. destruct (Z.ltb_spec (i_size (set_inline (new_dir level (Some n)) (Some b))) inline_max); cbn; conjs; try done; lia. }
    clearbody dir. destruct Hd as (Ei & Ep & Ed & Ec & El & Es). split.
    + apply dots_dir_rep; [|by rewrite Ei|].
      * constructor; rewrite ?Ei, ?Ep, ?Ed, ?Ec, ?El; try done; try lia. intros d [= <-]. conjs; try done. rewrite Hm. by apply Hn.
      * intros [i p|p] e; unfold dot_loc; rewrite Ei; cbn; rewrite ?Ei, ?Ep, ?lookup_empty; [naive_solver|]. cbn. rewrite He. repeat case_decide; naive_solver.
    + unfold dots_at. rewrite Ei. split; eexists; rewrite He; done.
  - unfold f2fs_get_new_data_page. rewrite Hal. cbn [d_pages new_dir]. rewrite lookup_empty. cbn [default]. pose proof nr_dentry_dots.
    destruct (make_dots NR_DENTRY_IN_BLOCK ino mode pino pmode) as (b & -> & Hb & Hm & He); [lia|]. cbn [mbind option_bind]. eexists. split; [done|].
    match goal with |- _ ?d _ /\ _ => set (dir := d) end.
    assert (Hd : d_inline dir = None /\ d_pages dir = {[0 := b]} /\ i_current_depth dir = 1 /\ clevel dir = 0 /\ i_dir_level dir = level /\ i_size dir = 4096).
    { unfold dir. change (Z.shiftl (0 + 1) PAGE_SHIFT) with 4096. cbn. rewrite insert_insert_eq, insert_empty. done. }
    clearbody dir. destruct Hd as (Ei & Ep & Ed & Ec & El & Es). split.
    + apply dots_dir_rep.
      * constructor; rewrite ?Ei, ?Ep, ?Ed, ?Ec, ?El, ?Es; try done; try lia. intros i b' [<- <-]%lookup_singleton_Some. conjs; try done; lia.
      * intros _. exists 0. rewrite Ed. pose proof (bucket_blocks_pos 0). assert (bucket_start dir 0 0 = 0) as -> by (unfold bucket_start; by rewrite Zmod_0_l). lia.
      * intros [i p|p] e; unfold dot_loc; rewrite Ei; cbn; rewrite ?Ei, ?Ep; [|naive_solver]. destruct (decide (i = 0)) as [->|Hne].
        -- rewrite lookup_singleton_eq. cbn. rewrite He. repeat case_decide; naive_solver.
        -- rewrite lookup_singleton_ne by done. naive_solver.
    + unfold dots_at. rewrite Ei, Ep. exists b. rewrite lookup_singleton_eq. split; [done|]. split; eexists; rewrite He; done.
Qed.
(** A new directory: [make_empty_dir] gives a directory that stands for the
    map of its two dot entries, in both layouts, and [f2fs_empty_dir] takes it for
    empty. *)
Theorem make_empty_dir_spec env inline_max level inl ino mode pino pmode :
  (forall i, env_io env i = None) -> env_ipage env = None -> env_alloc env 0 = None -> 0 <= level < 2 ^ 8 -> 0 <= inline_max < 2 ^ 63 ->
  (forall n, inl = Some n -> (2 <= n <= NR_DENTRY_IN_BLOCK)%nat) ->
  exists dir, make_empty_dir env inline_max (new_dir level inl) ino mode pino pmode = Some (dir, 0) /\
    dir_rep dir (dots_map ino mode pino pmode) /\ f2fs_empty_dir env dir = true.
Proof.
  intros Hio Hip Hal Hl Hmax Hn. destruct (make_empty_dir_rep env inline_max level inl ino mode pino pmode) as (dir & E & Hrep & Hdots); try done.
  exists dir. split; [done|]. split; [done|]. pose proof Hrep as [Hok Hm]. apply empty_dir_entries; [apply Hok|done..|]. intros l e El.
  assert (Hin : dots_map ino mode pino pmode !! canon (e_name e) = Some e) by (apply Hm; eauto).
  destruct (dots_de_at dir Hdots) as ((e0 & E0 & N0) & (e1 & E1 & N1)). unfold dots_map in Hin.
  apply lookup_insert_Some in Hin as [[Hc _]|(_ & [Hc _]%lookup_singleton_Some)]; [left|right].
  - apply (dk_uniq _ dir Hok l _ e e0); [done|done|by rewrite N0].
  - apply (dk_uniq _ dir Hok l _ e e1); [done|done|by rewrite N1].
Qed.
End list.
