(* ===== verification/FileMap.v ===== *)
(** * The block map of a file (node.c, data.c, file.c, f2fs.h, node.h)

    The inode, node pages, counters and what is below them; then the operations on them. *)

From S2P Require Import Prelude FreeNid NatCache NodePath.

(** ** The block map of a file: state and counters (node.c, data.c, file.c, f2fs.h, node.h)

    The addresses of a file's blocks are in its inode and in direct nodes, which hang in a
    tree of indirect nodes below the five node ids of the inode.  A node page is an array of
    words, addresses or node ids by its place in the tree.  The node address table is the
    abstract table that [NatSystem] shows the NAT code to implement; blocks are given out and
    taken back by a layer below, the class [BlockOps]. *)

(** The kernel's f2fs_fs.h: node pages, and the places of the node ids in an inode. *)
Class FileFormat `{NatFormat, F2fsFsNode} := {
  page_words : Z; COMPRESS_ADDR : Z; XATTR_NODE_OFFSET : Z; F2FS_ROOT_INO : Z;
  null_zero : NULL_ADDR = 0;
  compress_other : COMPRESS_ADDR <> NULL_ADDR /\ COMPRESS_ADDR <> NEW_ADDR;
  words_fit : NIDS_PER_BLOCK <= page_words /\ DEF_ADDRS_PER_BLOCK <= page_words;
  root_pos : 0 < F2FS_ROOT_INO;
  xattr_high : 2 ^ 21 <= XATTR_NODE_OFFSET;
  node_places : NODE_DIR2_BLOCK = NODE_DIR1_BLOCK + 1 /\ NODE_IND1_BLOCK = NODE_DIR1_BLOCK + 2 /\ NODE_IND2_BLOCK = NODE_DIR1_BLOCK + 3 /\ NODE_DIND_BLOCK = NODE_DIR1_BLOCK + 4
}.

(** Errors of the device, of memory and of the quota come from outside. *)
Inductive env_errno := EIO | ENOMEM | EFSBADCRC | EDQUOT | EINTR.
Inductive errno := ENOENT | ENOSPC | E2BIG | EINVAL | EPERM | EFSCORRUPTED | Env (e : env_errno).

(** A node page and its footer. *)
Record node_page := { words : list Z; ofs_of_node : Z }.
(** The counters of the file system, in blocks and nodes. *)
Record f2fs_counts := {
  total_valid_block_count : Z; total_valid_node_count : Z; total_valid_inode_count : Z; alloc_valid_block_count : Z;
  user_block_count : Z; current_reserved_blocks : Z; reserved_blocks : Z; root_reserved_blocks : Z; unusable_block_count : Z; total_node_count : Z; cp_disabled : bool
}.
(** What the functions use of the inode; [i_addr] is the address array of its page from its
    start, [i_nid] the five node ids; [inline_data] are the bytes of an inline file. *)
Record file_inode := {
  ino : Z; shape : node_inode; extra_isize : Z; i_addr : list Z; i_nid : list Z; inline_data : option (list Z);
  i_blocks : Z; i_compr_blocks : Z; i_xnid : Z; no_alloc : bool; first_block_written : bool
}.
(** Whether the n-th request to the rest of the system fails, and whether the caller may use
    reserved blocks. *)
Record file_env := { answer : nat -> option env_errno; allow_reserved_blocks : bool }.

(** The layer of blocks: taking back an address, writing a block out of place (the old
    address; whether it is a node, and the node, offset and version for its summary), and
    the check of an address against the range of blocks and the ones in use. *)
Class BlockOps (S : Type) := {
  bl_invalidate : S -> Z -> option S;
  bl_write : S -> Z -> bool * Z * Z * Z -> option (S * Z);
  f2fs_is_valid_blkaddr : S -> Z -> bool
}.

(** The system: the inode, the node pages and the table for all nodes that exist, free node
    ids in their order and those taken for use, the updates the extent cache was told. *)
Record fsys (S : Type) := {
  fi : file_inode; pages : gmap Z node_page; nat_tab : gmap Z f2fs_nat_entry; free_nids : list Z; prealloc : gset Z; max_nid : Z;
  cnt : f2fs_counts; blocks : S; ext_log : list (Z * Z * Z); need_fsck : bool; ticks : nat
}.
Arguments fi {S}. Arguments pages {S}. Arguments nat_tab {S}. Arguments free_nids {S}. Arguments prealloc {S}. Arguments max_nid {S}.
Arguments cnt {S}. Arguments blocks {S}. Arguments ext_log {S}. Arguments need_fsck {S}. Arguments ticks {S}.

Section state.
Context {S : Type}.
Implicit Types (st : fsys S).
Definition with_fi st (i : file_inode) : fsys S := {| fi := i; pages := pages st; nat_tab := nat_tab st; free_nids := free_nids st; prealloc := prealloc st; max_nid := max_nid st; cnt := cnt st; blocks := blocks st; ext_log := ext_log st; need_fsck := need_fsck st; ticks := ticks st |}.
Definition with_pages st (p : gmap Z node_page) : fsys S := {| fi := fi st; pages := p; nat_tab := nat_tab st; free_nids := free_nids st; prealloc := prealloc st; max_nid := max_nid st; cnt := cnt st; blocks := blocks st; ext_log := ext_log st; need_fsck := need_fsck st; ticks := ticks st |}.
Definition with_nat st (t : gmap Z f2fs_nat_entry) : fsys S := {| fi := fi st; pages := pages st; nat_tab := t; free_nids := free_nids st; prealloc := prealloc st; max_nid := max_nid st; cnt := cnt st; blocks := blocks st; ext_log := ext_log st; need_fsck := need_fsck st; ticks := ticks st |}.
Definition with_nids st (l : list Z) (p : gset Z) : fsys S := {| fi := fi st; pages := pages st; nat_tab := nat_tab st; free_nids := l; prealloc := p; max_nid := max_nid st; cnt := cnt st; blocks := blocks st; ext_log := ext_log st; need_fsck := need_fsck st; ticks := ticks st |}.
Definition with_cnt st (c : f2fs_counts) : fsys S := {| fi := fi st; pages := pages st; nat_tab := nat_tab st; free_nids := free_nids st; prealloc := prealloc st; max_nid := max_nid st; cnt := c; blocks := blocks st; ext_log := ext_log st; need_fsck := need_fsck st; ticks := ticks st |}.
Definition with_blocks st (b : S) : fsys S := {| fi := fi st; pages := pages st; nat_tab := nat_tab st; free_nids := free_nids st; prealloc := prealloc st; max_nid := max_nid st; cnt := cnt st; blocks := b; ext_log := ext_log st; need_fsck := need_fsck st; ticks := ticks st |}.
Definition with_ext st (e : list (Z * Z * Z)) : fsys S := {| fi := fi st; pages := pages st; nat_tab := nat_tab st; free_nids := free_nids st; prealloc := prealloc st; max_nid := max_nid st; cnt := cnt st; blocks := blocks st; ext_log := e; need_fsck := need_fsck st; ticks := ticks st |}.
Definition with_fsck st : fsys S := {| fi := fi st; pages := pages st; nat_tab := nat_tab st; free_nids := free_nids st; prealloc := prealloc st; max_nid := max_nid st; cnt := cnt st; blocks := blocks st; ext_log := ext_log st; need_fsck := true; ticks := ticks st |}.
Definition tick st : fsys S := {| fi := fi st; pages := pages st; nat_tab := nat_tab st; free_nids := free_nids st; prealloc := prealloc st; max_nid := max_nid st; cnt := cnt st; blocks := blocks st; ext_log := ext_log st; need_fsck := need_fsck st; ticks := Datatypes.S (ticks st) |}.

(** ** Errors and state *)

(** No result is a trap. *)
Definition M (A : Type) : Type := fsys S -> option ((errno + A) * fsys S).
Definition ret {A} (a : A) : M A := fun st => Some (inr a, st).
Definition err {A} (e : errno) : M A := fun st => Some (inl e, st).
Definition trap {A} : M A := fun _ => None.
Definition bind {A B} (m : M A) (f : A -> M B) : M B := fun st => match m st with None => None | Some (inl e, st) => Some (inl e, st) | Some (inr a, st) => f a st end.
(** The result of a call as a value. *)
Definition catch {A} (m : M A) : M (errno + A) := fun st => match m st with None => None | Some (r, st) => Some (inr r, st) end.
Definition get {A} (f : fsys S -> A) : M A := fun st => Some (inr (f st), st).
Definition modify (f : fsys S -> fsys S) : M unit := fun st => Some (inr tt, f st).
Definition some {A} (o : option A) : M A := match o with Some a => ret a | None => trap end.
Definition result {A} (r : errno + A) : M A := match r with inl e => err e | inr a => ret a end.
End state.
Declare Scope file_scope.
Delimit Scope file_scope with file.
Notation "x <- m ;; k" := (bind m (fun x => k)) (at level 100, m at next level, k at level 200, right associativity) : file_scope.
Notation "m ;; k" := (bind m (fun _ => k)) (at level 100, k at level 200, right associativity) : file_scope.
#[local] Open Scope file_scope.

Section counters.
Context {S : Type} (env : file_env).
Notation M := (M (S := S)).

(** A request to the rest of the system. *)
Definition ask (convert : env_errno -> errno) : M unit := fun st => match answer env (ticks st) with None => Some (inr tt, tick st) | Some e => Some (inl (convert e), tick st) end.

Definition set_counts (c : f2fs_counts) (blocks nodes inodes alloc reserved : Z) : f2fs_counts :=
  {| total_valid_block_count := blocks; total_valid_node_count := nodes; total_valid_inode_count := inodes; alloc_valid_block_count := alloc; user_block_count := user_block_count c; current_reserved_blocks := reserved;
     reserved_blocks := reserved_blocks c; root_reserved_blocks := root_reserved_blocks c; unusable_block_count := unusable_block_count c; total_node_count := total_node_count c; cp_disabled := cp_disabled c |}.
Definition set_i_blocks (i : file_inode) (n : Z) : file_inode :=
  {| ino := ino i; shape := shape i; extra_isize := extra_isize i; i_addr := i_addr i; i_nid := i_nid i; inline_data := inline_data i; i_blocks := n; i_compr_blocks := i_compr_blocks i; i_xnid := i_xnid i; no_alloc := no_alloc i; first_block_written := first_block_written i |}.
(** [f2fs_i_blocks_write]: the quota counts sectors. *)
Definition f2fs_i_blocks_write (diff : Z) (add : bool) : M unit := modify (fun st => with_fi st (set_i_blocks (fi st) (if add then i_blocks (fi st) + diff * 8 else i_blocks (fi st) - diff * 8))).

(** [inc_valid_block_count]: how many of the blocks were granted. *)
Definition inc_valid_block_count (count : Z) : M Z :=
  ask Env;; ask (fun _ => ENOSPC);;
  c <- get cnt;;
  let total := total_valid_block_count c +! count in
  let avail := user_block_count c -! current_reserved_blocks c in
  let avail := if allow_reserved_blocks env then avail else avail -! root_reserved_blocks c in
  let avail := if cp_disabled c then (if unusable_block_count c <? avail then avail -! unusable_block_count c else 0) else avail in
  let diff := if avail <? total then Z.min (total - avail) count else 0 in
  let upd := modify (fun st => with_cnt st (set_counts c (total -! diff) (total_valid_node_count c) (total_valid_inode_count c) (alloc_valid_block_count c + count - diff) (current_reserved_blocks c))) in
  if (avail <? total) && (count - diff =? 0) then upd;; err ENOSPC else upd;; f2fs_i_blocks_write (count - diff) true;; ret (count - diff).
Definition dec_valid_block_count (count : Z) : M unit :=
  c <- get cnt;;
  if total_valid_block_count c <? count then trap
  else
    modify (fun st => with_cnt st (set_counts c (total_valid_block_count c -! count) (total_valid_node_count c) (total_valid_inode_count c) (alloc_valid_block_count c)
      (if negb (reserved_blocks c =? 0) && (current_reserved_blocks c <? reserved_blocks c) then Z.min (reserved_blocks c) (current_reserved_blocks c + count) else current_reserved_blocks c)));;
    n <- get (fun st => i_blocks (fi st));;
    if n <? count * 8 then modify with_fsck else f2fs_i_blocks_write count false.
(** [inc_valid_node_count], [dec_valid_node_count]. *)
Definition inc_valid_node_count (is_inode : bool) : M unit :=
  ask Env;; ask (fun _ => ENOSPC);;
  c <- get cnt;;
  let valid := total_valid_block_count c +! current_reserved_blocks c +! 1 in
  let valid := if allow_reserved_blocks env then valid else valid +! root_reserved_blocks c in
  let user := if cp_disabled c then user_block_count c -! unusable_block_count c else user_block_count c in
  if user <? valid then err ENOSPC
  else if total_node_count c <? total_valid_node_count c +! 1 then err ENOSPC
  else
    modify (fun st => with_cnt st (set_counts c (total_valid_block_count c +! 1) (total_valid_node_count c +! 1) (total_valid_inode_count c) (alloc_valid_block_count c + 1) (current_reserved_blocks c)));;
    if is_inode then ret tt else f2fs_i_blocks_write 1 true.
Definition dec_valid_node_count (is_inode : bool) : M unit :=
  c <- get cnt;;
  if (total_valid_block_count c =? 0) || (total_valid_node_count c =? 0) then trap
  else
    modify (fun st => with_cnt st (set_counts c (total_valid_block_count c -! 1) (total_valid_node_count c -! 1) (total_valid_inode_count c) (alloc_valid_block_count c)
      (if negb (reserved_blocks c =? 0) && (current_reserved_blocks c <? reserved_blocks c) then current_reserved_blocks c +! 1 else current_reserved_blocks c)));;
    if is_inode then ret tt
    else n <- get (fun st => i_blocks (fi st));; if n =? 0 then modify with_fsck else f2fs_i_blocks_write 1 false.
End counters.

(** ** The block map of a file: nodes, look-up, truncation (node.c, data.c, file.c) *)

(** A node page is the inode's or that of a node; [dnode_of_data] without its page
    references. *)
Inductive node_ref := AtInode | AtNode (nid : Z).
Record dnode_of_data := { dn_nid : Z; node_page_of : node_ref; ofs_in_node : Z; data_blkaddr : Z }.
Inductive node_mode := ALLOC_NODE | LOOKUP_NODE | LOOKUP_NODE_RA.

Section map.
Context `{FileFormat} {S : Type} `{BlockOps S} (env : file_env).
Notation M := (M (S := S)).
Notation ask := (ask env).

Definition is_data_addr (a : Z) : bool := negb ((a =? NEW_ADDR) || (a =? NULL_ADDR) || (a =? COMPRESS_ADDR)).
Definition at_word (l : list Z) (i : Z) : option Z := if i <? 0 then None else l !! Z.to_nat i.
Definition put_word (l : list Z) (i v : Z) : option (list Z) := _ ← at_word l i; Some (<[Z.to_nat i := v]> l).

Definition last_of (l : list Z) : option Z := l !! Nat.pred (length l).

(** ** Node pages *)

Definition f2fs_check_nid_range (st : fsys S) (nid : Z) : bool := (nid <? F2FS_ROOT_INO) || (max_nid st <=? nid).
(** [f2fs_get_node_page]: the id must be in range; memory, the read and the checks of the
    page may fail; the table has no node. *)
Definition f2fs_get_node_page (nid : Z) : M node_page :=
  if nid =? 0 then err ENOENT
  else
    bad <- get (fun st => f2fs_check_nid_range st nid);;
    if bad : bool then modify with_fsck;; err EINVAL
    else ask Env;; p <- get (fun st => pages st !! nid);; match p with None => err ENOENT | Some p => ret p end.
Definition get_inode_page : M unit := ask Env.

Definition set_i_nid (i : file_inode) (l : list Z) : file_inode :=
  {| ino := ino i; shape := shape i; extra_isize := extra_isize i; i_addr := i_addr i; i_nid := l; inline_data := inline_data i; i_blocks := i_blocks i; i_compr_blocks := i_compr_blocks i; i_xnid := i_xnid i; no_alloc := no_alloc i; first_block_written := first_block_written i |}.
Definition set_i_addr (i : file_inode) (l : list Z) : file_inode :=
  {| ino := ino i; shape := shape i; extra_isize := extra_isize i; i_addr := l; i_nid := i_nid i; inline_data := inline_data i; i_blocks := i_blocks i; i_compr_blocks := i_compr_blocks i; i_xnid := i_xnid i; no_alloc := no_alloc i; first_block_written := first_block_written i |}.
Definition set_words (st : fsys S) (nid : Z) (p : node_page) (l : list Z) : fsys S := with_pages st (<[nid := {| words := l; ofs_of_node := ofs_of_node p |}]> (pages st)).
(** [get_nid], [set_nid]: in the inode the offset counts from [NODE_DIR1_BLOCK]. *)
Definition get_nid (r : node_ref) (off : Z) : M Z :=
  o <- get (fun st => match r with AtInode => at_word (i_nid (fi st)) (off - NODE_DIR1_BLOCK) | AtNode nid => p ← pages st !! nid; at_word (words p) off end);; some o.
Definition set_nid (r : node_ref) (off nid : Z) : M unit := fun st =>
  match r with
  | AtInode => l ← put_word (i_nid (fi st)) (off - NODE_DIR1_BLOCK) nid; Some (inr tt, with_fi st (set_i_nid (fi st) l))
  | AtNode n => p ← pages st !! n; l ← put_word (words p) off nid; Some (inr tt, set_words st n p l)
  end.
(** Block addresses of a direct node or the inode, where they start at [extra_isize]. *)
Definition get_blkaddr (r : node_ref) (ofs : Z) : M Z :=
  o <- get (fun st => match r with AtInode => at_word (i_addr (fi st)) (extra_isize (fi st) + ofs) | AtNode nid => p ← pages st !! nid; at_word (words p) ofs end);; some o.
Definition __set_data_blkaddr (r : node_ref) (ofs blkaddr : Z) : M unit := fun st =>
  match r with
  | AtInode => l ← put_word (i_addr (fi st)) (extra_isize (fi st) + ofs) blkaddr; Some (inr tt, with_fi st (set_i_addr (fi st) l))
  | AtNode n => p ← pages st !! n; l ← put_word (words p) ofs blkaddr; Some (inr tt, set_words st n p l)
  end.
Definition node_ofs (r : node_ref) : M Z := o <- get (fun st => match r with AtInode => Some 0 | AtNode nid => ofs_of_node <$> pages st !! nid end);; some o.

(** The node address table: [f2fs_get_node_info] and [set_node_addr] with its checks. *)
Definition nat_entry_of (st : fsys S) (nid : Z) : f2fs_nat_entry := default {| ne_ino := 0; block_addr := NULL_ADDR; version := 0 |} (nat_tab st !! nid).
Definition f2fs_get_node_info (nid : Z) : M f2fs_nat_entry := ask Env;; get (fun st => nat_entry_of st nid).
Definition set_node_addr (nid : Z) (i : f2fs_nat_entry) (new : Z) : M unit := fun st =>
  let old := block_addr i in
  if ((old =? NULL_ADDR) && (new =? NULL_ADDR)) || ((old =? NEW_ADDR) && (new =? NEW_ADDR)) || (is_data_addr old && (new =? NEW_ADDR)) || negb (old =? block_addr (nat_entry_of st nid)) then None
  else
    let ver := if negb (old =? NEW_ADDR) && (new =? NULL_ADDR) then u8 (version i + 1) else version i in
    Some (inr tt, with_nat st (<[nid := {| ne_ino := ne_ino i; block_addr := new; version := ver |}]> (nat_tab st))).

(** Free ids as [f2fs_alloc_nid], [f2fs_alloc_nid_failed] and [f2fs_alloc_nid_done] keep them;
    the second forgets the id if memory is short. *)
Definition f2fs_alloc_nid : M Z := fun st =>
  match free_nids st with
  | [] => Some (inl ENOSPC, st)
  | n :: l => Some (inr n, with_nids st l ({[n]} ∪ prealloc st))
  end.
Definition f2fs_alloc_nid_failed (nid : Z) : M unit :=
  r <- catch (ask Env);;
  modify (fun st => with_nids st (match r with inr _ => free_nids st ++ [nid] | inl _ => free_nids st end) (prealloc st ∖ {[nid]})).
Definition f2fs_alloc_nid_done (nid : Z) : M unit := modify (fun st => with_nids st (free_nids st) (prealloc st ∖ {[nid]})).

Definition f2fs_invalidate_blocks (a : Z) : M unit := fun st => b ← bl_invalidate (blocks st) a; Some (inr tt, with_blocks st b).

Definition f2fs_has_xattr_block (ofs : Z) : bool := ofs =? XATTR_NODE_OFFSET.
Definition set_xnid (i : file_inode) (n : Z) : file_inode :=
  {| ino := ino i; shape := shape i; extra_isize := extra_isize i; i_addr := i_addr i; i_nid := i_nid i; inline_data := inline_data i; i_blocks := i_blocks i; i_compr_blocks := i_compr_blocks i; i_xnid := n; no_alloc := no_alloc i; first_block_written := first_block_written i |}.
Definition inc_valid_inode_count (c : f2fs_counts) : f2fs_counts := set_counts c (total_valid_block_count c) (total_valid_node_count c) (total_valid_inode_count c + 1) (alloc_valid_block_count c) (current_reserved_blocks c).
Definition f2fs_new_node_page (nid ofs : Z) : M unit :=
  no <- get (fun st => no_alloc (fi st));;
  if no : bool then err EPERM
  else
    ask Env;;
    inc_valid_node_count env (ofs =? 0);;
    i <- get (fun st => ino (fi st));;
    set_node_addr nid {| ne_ino := i; block_addr := NULL_ADDR; version := 0 |} NEW_ADDR;;
    modify (fun st => with_pages st (<[nid := {| words := replicate (Z.to_nat page_words) 0; ofs_of_node := ofs |}]> (pages st)));;
    (if f2fs_has_xattr_block ofs then modify (fun st => with_fi st (set_xnid (fi st) nid)) else ret tt);;
    if ofs =? 0 then modify (fun st => with_cnt st (inc_valid_inode_count (cnt st))) else ret tt.

(** ** From a block index to its node *)

(** The levels below [parent]: the offsets in the nodes from [parent] on, the node offsets
    of the nodes below. An error comes with the level it stopped at. *)
Fixpoint descend (mode : node_mode) (i : Z) (parent : node_ref) (nid : Z) (offs noffs : list Z) : M ((errno * Z) + node_ref * Z) :=
  match noffs, offs with
  | [], _ => ret (inr (parent, nid))
  | nofs :: noffs, off :: offs =>
      nid <- get_nid parent off;;
      r <- (match mode with
            | ALLOC_NODE =>
                if nid =? 0 then
                  a <- catch f2fs_alloc_nid;;
                  match a with
                  | inl _ => ret (inl ENOSPC)
                  | inr n =>
                      p <- catch (f2fs_new_node_page n nofs);;
                      match p with
                      | inl e => f2fs_alloc_nid_failed n;; ret (inl e)
                      | inr _ => set_nid parent off n;; f2fs_alloc_nid_done n;; ret (inr n)
                      end
                  end
                else p <- catch (f2fs_get_node_page nid);; ret (match p with inl e => inl e | inr _ => inr nid end)
            | _ => p <- catch (f2fs_get_node_page nid);; ret (match p with inl e => inl e | inr _ => inr nid end)
            end);;
      match r with
      | inl e => ret (inl (e, i))
      | inr n => descend mode (i + 1) (AtNode n) n offs noffs
      end
  | _ :: _, [] => trap
  end.
(** [f2fs_get_dnode_of_data]; [ipage]: the caller has the inode's page. An [ENOENT] below the
    path comes with the levels where it stopped and where the block would be. *)
Definition f2fs_get_dnode_of_data (ipage : bool) (index : Z) (mode : node_mode) : M ((errno * Z * Z) + dnode_of_data) :=
  i <- get fi;;
  match get_node_path (shape i) index with
  | None => ret (inl (E2BIG, 0, 0))
  | Some p =>
      r <- catch (if ipage then ret tt else get_inode_page);;
      match r with
      | inl e => ret (inl (e, 0, 0))
      | inr _ =>
          if match inline_data i with Some _ => true | None => false end && negb (index =? 0) then ret (inl (ENOENT, 0, level p))
          else
            d <- descend mode 1 AtInode (ino i) (offset p) (tail (noffset p));;
            match d with
            | inl (e, l) => ret (inl (e, l, level p))
            | inr (node, nid) =>
                ofs <- some (last_of (offset p));;
                a <- get_blkaddr node ofs;;
                ret (inr {| dn_nid := nid; node_page_of := node; ofs_in_node := ofs; data_blkaddr := a |})
            end
      end
  end.

(** ** Addresses given and taken *)

Definition set_compr (i : file_inode) (n : Z) : file_inode :=
  {| ino := ino i; shape := shape i; extra_isize := extra_isize i; i_addr := i_addr i; i_nid := i_nid i; inline_data := inline_data i; i_blocks := i_blocks i; i_compr_blocks := n; i_xnid := i_xnid i; no_alloc := no_alloc i; first_block_written := first_block_written i |}.
Definition set_first (i : file_inode) (b : bool) : file_inode :=
  {| ino := ino i; shape := shape i; extra_isize := extra_isize i; i_addr := i_addr i; i_nid := i_nid i; inline_data := inline_data i; i_blocks := i_blocks i; i_compr_blocks := i_compr_blocks i; i_xnid := i_xnid i; no_alloc := no_alloc i; first_block_written := b |}.
Definition f2fs_i_compr_blocks_update (blocks : Z) (add : bool) : M unit :=
  modify (fun st =>
    let i := fi st in let diff := i_cluster_size (shape i) - blocks in
    if negb add && (i_compr_blocks i =? 0) then st else with_fi st (set_compr i (if add then i_compr_blocks i + diff else i_compr_blocks i - diff))).
(** [f2fs_update_extent_cache_range] and [f2fs_update_extent_cache]. *)
Definition f2fs_update_extent_cache_range (fofs blkaddr len : Z) : M unit := modify (fun st => with_ext st ((fofs, blkaddr, len) :: ext_log st)).
Definition f2fs_update_extent_cache (r : node_ref) (ofs blkaddr : Z) : M unit :=
  n <- node_ofs r;; i <- get (fun st => shape (fi st));;
  f2fs_update_extent_cache_range (f2fs_start_bidx_of_node n i + ofs) (if blkaddr =? NEW_ADDR then NULL_ADDR else blkaddr) 1.
Definition f2fs_update_data_blkaddr (r : node_ref) (ofs blkaddr : Z) : M unit := __set_data_blkaddr r ofs blkaddr;; f2fs_update_extent_cache r ofs blkaddr.

(** The loop of [f2fs_truncate_data_blocks_range]; a cluster is one of compressed blocks,
    [valid] counts its blocks, [nr_free] the blocks given back. *)
Fixpoint truncate_range_loop (n : nat) (r : node_ref) (released : bool) (ofs index : Z) (cluster : bool) (valid nr_free : Z) : M (bool * Z * Z) :=
  match n with
  | O => ret (cluster, valid, nr_free)
  | Datatypes.S n =>
      i <- get (fun st => shape (fi st));;
      a <- get_blkaddr r ofs;;
      cv <- (if f2fs_compressed_file i && (Z.land index (i_cluster_size i - 1) =? 0)
             then (if cluster then f2fs_i_compr_blocks_update valid false else ret tt);; ret (a =? COMPRESS_ADDR, 0)
             else ret (cluster, valid));;
      let '(cluster, valid) := cv in
      if a =? NULL_ADDR then truncate_range_loop n r released (ofs + 1) (index + 1) cluster valid nr_free
      else
        __set_data_blkaddr r ofs NULL_ADDR;;
        valid_addr <- get (fun st => f2fs_is_valid_blkaddr (blocks st) a);;
        if is_data_addr a && negb valid_addr then truncate_range_loop n r released (ofs + 1) (index + 1) cluster valid nr_free
        else
          (if (ofs =? 0) && match r with AtInode => true | AtNode _ => false end then modify (fun st => with_fi st (set_first (fi st) false)) else ret tt);;
          f2fs_invalidate_blocks a;;
          truncate_range_loop n r released (ofs + 1) (index + 1) cluster (if is_data_addr a && cluster then valid + 1 else valid) (if negb released || negb (a =? COMPRESS_ADDR) then nr_free + 1 else nr_free)
  end.
Definition f2fs_truncate_data_blocks_range (r : node_ref) (ofs count : Z) : M unit :=
  released <- get (fun st => i_compr_blocks (fi st) =? 0);;
  c <- truncate_range_loop (Z.to_nat count) r released ofs 0 false 0 0;;
  let '(cluster, valid, nr_free) := c in
  (if cluster : bool then f2fs_i_compr_blocks_update valid false else ret tt);;
  if nr_free =? 0 then ret tt
  else
    n <- node_ofs r;; i <- get (fun st => shape (fi st));;
    f2fs_update_extent_cache_range (f2fs_start_bidx_of_node n i + ofs) 0 count;;
    dec_valid_block_count nr_free.
Definition f2fs_truncate_data_blocks (nid : Z) : M unit := i <- get (fun st => shape (fi st));; f2fs_truncate_data_blocks_range (AtNode nid) 0 (addrs_per_block i).

(** The loop of [f2fs_reserve_new_blocks] goes on until it has found as many empty places as
    were granted. *)
Fixpoint reserve_loop (fuel : nat) (r : node_ref) (ofs count : Z) : M unit :=
  if count <=? 0 then ret tt
  else
    match fuel with
    | O => trap
    | Datatypes.S fuel =>
        a <- get_blkaddr r ofs;;
        if a =? NULL_ADDR then __set_data_blkaddr r ofs NEW_ADDR;; reserve_loop fuel r (ofs + 1) (count - 1) else reserve_loop fuel r (ofs + 1) count
    end.
Definition f2fs_reserve_new_blocks (r : node_ref) (ofs count : Z) : M unit :=
  if count =? 0 then ret tt
  else
    no <- get (fun st => no_alloc (fi st));;
    if no : bool then err EPERM else count <- inc_valid_block_count env count;; reserve_loop (Z.to_nat page_words) r ofs count.
Definition f2fs_reserve_new_block (r : node_ref) (ofs : Z) : M unit := f2fs_reserve_new_blocks r ofs 1.
Definition f2fs_reserve_block (ipage : bool) (index : Z) : M ((errno * Z * Z) + dnode_of_data) :=
  d <- f2fs_get_dnode_of_data ipage index ALLOC_NODE;;
  match d with
  | inl e => ret (inl e)
  | inr dn =>
      if data_blkaddr dn =? NULL_ADDR then
        r <- catch (f2fs_reserve_new_block (node_page_of dn) (ofs_in_node dn));;
        ret (match r with inl e => inl (e, 0, 0) | inr _ => inr dn end)
      else ret (inr dn)
  end.

(** ** Truncation of the tree *)

(** The entry of a removed inode among the orphans is a part of [Orphan]. *)
Definition dec_valid_inode_count (c : f2fs_counts) : f2fs_counts := set_counts c (total_valid_block_count c) (total_valid_node_count c) (total_valid_inode_count c - 1) (alloc_valid_block_count c) (current_reserved_blocks c).
Definition truncate_node (nid : Z) : M unit :=
  i <- f2fs_get_node_info nid;;
  f2fs_invalidate_blocks (block_addr i);;
  is_inode <- get (fun st => nid =? ino (fi st));;
  dec_valid_node_count is_inode;;
  set_node_addr nid i NULL_ADDR;;
  (if is_inode : bool then modify (fun st => with_cnt st (dec_valid_inode_count (cnt st))) else ret tt);;
  modify (fun st => with_pages st (delete nid (pages st))).
Definition truncate_dnode (nid : Z) : M Z :=
  if nid =? 0 then ret 1
  else
    p <- catch (f2fs_get_node_page nid);;
    match p with
    | inl ENOENT => ret 1
    | inl e => err e
    | inr _ => f2fs_truncate_data_blocks nid;; truncate_node nid;; ret 1
    end.
(** The loop over the direct nodes of an indirect node, in [truncate_nodes] and in
    [truncate_partial_nodes]. *)
Fixpoint clear_dnodes (p : Z) (slots : list Z) : M unit :=
  match slots with
  | [] => ret tt
  | i :: slots =>
      nid <- get_nid (AtNode p) i;;
      if nid =? 0 then clear_dnodes p slots
      else truncate_dnode nid;; set_nid (AtNode p) i 0;; clear_dnodes p slots
  end.
(** The loop over its indirect nodes: [kill] is [truncate_nodes] one level down. *)
Fixpoint clear_nodes (kill : Z -> Z -> M Z) (p : Z) (slots : list Z) (child_nofs : Z) : M Z :=
  match slots with
  | [] => ret child_nofs
  | i :: slots =>
      nid <- get_nid (AtNode p) i;;
      if nid =? 0 then clear_nodes kill p slots (child_nofs + NIDS_PER_BLOCK + 1)
      else
        r <- catch (kill nid child_nofs);;
        match r with
        | inr n => if n =? NIDS_PER_BLOCK + 1 then set_nid (AtNode p) i 0;; clear_nodes kill p slots (child_nofs + n) else clear_nodes kill p slots child_nofs
        | inl ENOENT => clear_nodes kill p slots child_nofs
        | inl e => err e
        end
  end.
(** [truncate_nodes]: the number of nodes freed, up to what the callers use of it. *)
Fixpoint truncate_nodes (depth : nat) (nid nofs ofs : Z) : M Z :=
  match depth with
  | O => trap
  | Datatypes.S d =>
      if nid =? 0 then ret (NIDS_PER_BLOCK + 1)
      else
        f2fs_get_node_page nid;;
        freed <- (if (depth <? 3)%nat then clear_dnodes nid (seqZ ofs (NIDS_PER_BLOCK - ofs));; ret (NIDS_PER_BLOCK - ofs)
                  else clear_nodes (fun c n => truncate_nodes d c n 0) nid (seqZ ofs (NIDS_PER_BLOCK - ofs)) (nofs + ofs * (NIDS_PER_BLOCK + 1) + 1));;
        if ofs =? 0 then truncate_node nid;; ret (freed + 1) else ret freed
  end.
(** The path of [truncate_partial_nodes] below [offset[0]]: the last node of it. *)
Fixpoint partial_path (nid : Z) (offs : list Z) : M (Z * Z) :=
  match offs with
  | [] => trap
  | [o] => f2fs_get_node_page nid;; ret (nid, o)
  | o :: offs => f2fs_get_node_page nid;; n <- get_nid (AtNode nid) o;; partial_path n offs
  end.
(** The offsets as they are afterwards: the last that is left is increased, the next 0. *)
Definition truncate_partial_nodes (offset : list Z) (depth : Z) : M (list Z) :=
  match offset with
  | [] => trap
  | o0 :: offs =>
      nid0 <- get_nid AtInode o0;;
      if nid0 =? 0 then ret offset
      else
        p <- partial_path nid0 (removelast offs);;
        let '(p, o) := p in
        clear_dnodes p (seqZ o (NIDS_PER_BLOCK - o));;
        (if o =? 0 then truncate_node p else ret tt);;
        let idx := Z.to_nat (depth - 2) in
        o' <- some (offset !! idx);;
        ret (<[Datatypes.S idx := 0]> (<[idx := o' + 1]> offset))
  end.

(** The loop of [f2fs_truncate_inode_blocks] over the node ids of the inode. *)
Fixpoint truncate_roots (fuel : nat) (off0 off1 nofs : Z) : M unit :=
  match fuel with
  | O => trap
  | Datatypes.S fuel =>
      nid <- get_nid AtInode off0;;
      r <- catch (if (off0 =? NODE_DIR1_BLOCK) || (off0 =? NODE_DIR2_BLOCK) then truncate_dnode nid
                  else if (off0 =? NODE_IND1_BLOCK) || (off0 =? NODE_IND2_BLOCK) then truncate_nodes 2 nid nofs off1
                  else if off0 =? NODE_DIND_BLOCK then truncate_nodes 3 nid nofs off1
                  else trap);;
      n <- (match r with inl ENOENT => ret (-2) | inl e => err e | inr n => ret n end);;
      nid <- get_nid AtInode off0;;
      (if (off1 =? 0) && negb (nid =? 0) then set_nid AtInode off0 0 else ret tt);;
      if off0 =? NODE_DIND_BLOCK then match r with inl e => err e | inr _ => ret tt end else truncate_roots fuel (off0 + 1) 0 (nofs + n)
  end.
(** [f2fs_truncate_inode_blocks] from block [from], which is not one of the inode's own. *)
Definition f2fs_truncate_inode_blocks (from : Z) : M unit :=
  i <- get fi;;
  match get_node_path (shape i) from with
  | None => err E2BIG
  | Some p =>
      get_inode_page;;
      let partial := negb (default 0 (last_of (removelast (offset p))) =? 0) in
      offs <- (if (level p =? 2) || (level p =? 3) then
                 if partial then r <- catch (truncate_partial_nodes (offset p) (level p));; match r with inl ENOENT => ret (offset p) | inl e => err e | inr o => ret o end
                 else ret (offset p)
               else if level p =? 1 then ret (offset p) else trap);;
      match offs with
      | off0 :: off1 :: _ => truncate_roots 5 off0 off1 (if level p =? 3 then 5 + 2 * NIDS_PER_BLOCK else default 0 (noffset p !! 1%nat) + (if (level p =? 2) && partial then 1 + NIDS_PER_BLOCK else 0))
      | _ => trap
      end
  end.

(** ** Truncation of a file *)

Definition PAGE_SIZE : Z := 4096.
Definition F2FS_BLK_ALIGN (x : Z) : Z := (x + PAGE_SIZE - 1) / PAGE_SIZE.
Definition set_inline (i : file_inode) (l : list Z) : file_inode :=
  {| ino := ino i; shape := shape i; extra_isize := extra_isize i; i_addr := i_addr i; i_nid := i_nid i; inline_data := Some l; i_blocks := i_blocks i; i_compr_blocks := i_compr_blocks i; i_xnid := i_xnid i; no_alloc := no_alloc i; first_block_written := first_block_written i |}.
Definition addrs_per_page (r : node_ref) (i : node_inode) : Z := match r with AtInode => addrs_per_inode i | AtNode _ => addrs_per_block i end.
Definition f2fs_truncate_inline_inode (from : Z) : M unit :=
  modify (fun st => match inline_data (fi st) with
                    | Some l => if Z.of_nat (length l) <=? from then st else with_fi st (set_inline (fi st) (take (Z.to_nat from) l ++ replicate (length l - Z.to_nat from) 0))
                    | None => st
                    end).
(** [truncate_partial_data_page]: getting the last page to zero its rest may fail like other
    requests for pages. *)
Definition truncate_partial_data_page (from : Z) (cache_only : bool) : M unit := if cache_only || (from mod PAGE_SIZE =? 0) then ret tt else ask Env.
(** [f2fs_do_truncate_blocks] to a size in bytes. *)
Definition f2fs_do_truncate_blocks (from : Z) : M unit :=
  let free_from := F2FS_BLK_ALIGN from in
  i <- get fi;;
  (if max_file_blocks (shape i) <=? free_from then ret tt
   else
     get_inode_page;;
     match inline_data i with
     | Some _ => f2fs_truncate_inline_inode from
     | None =>
         d <- f2fs_get_dnode_of_data true free_from LOOKUP_NODE_RA;;
         match d with
         | inl (ENOENT, _, _) => f2fs_truncate_inode_blocks free_from
         | inl (e, _, _) => err e
         | inr dn =>
             let count := addrs_per_page (node_page_of dn) (shape i) - ofs_in_node dn in
             if count <? 0 then trap
             else if negb (ofs_in_node dn =? 0) || match node_page_of dn with AtInode => true | AtNode _ => false end
             then f2fs_truncate_data_blocks_range (node_page_of dn) (ofs_in_node dn) count;; f2fs_truncate_inode_blocks (free_from + count)
             else f2fs_truncate_inode_blocks free_from
         end
     end);;
  truncate_partial_data_page from match inline_data i with Some _ => negb (max_file_blocks (shape i) <=? free_from) | None => false end.
(** [f2fs_truncate_hole]: each round goes on by a block or more. *)
Fixpoint truncate_hole_loop (fuel : nat) (pg_start pg_end : Z) : M unit :=
  if pg_end <=? pg_start then ret tt
  else
    match fuel with
    | O => trap
    | Datatypes.S fuel =>
        i <- get (fun st => shape (fi st));;
        d <- f2fs_get_dnode_of_data false pg_start LOOKUP_NODE;;
        match d with
        | inl (ENOENT, cur, max) => next <- some (f2fs_get_next_page_offset i cur max pg_start);; truncate_hole_loop fuel next pg_end
        | inl (e, _, _) => err e
        | inr dn =>
            let end_offset := addrs_per_page (node_page_of dn) i in
            let count := Z.min (end_offset - ofs_in_node dn) (pg_end - pg_start) in
            if (count =? 0) || (end_offset <? count) then trap
            else f2fs_truncate_data_blocks_range (node_page_of dn) (ofs_in_node dn) count;; truncate_hole_loop fuel (pg_start + count) pg_end
        end
    end.
Definition f2fs_truncate_hole (pg_start pg_end : Z) : M unit := truncate_hole_loop (Z.to_nat (pg_end - pg_start)) pg_start pg_end.

(** ** A file is deleted *)

Definition f2fs_truncate_xattr_node : M unit :=
  n <- get (fun st => i_xnid (fi st));;
  if n =? 0 then ret tt else f2fs_get_node_page n;; truncate_node n;; modify (fun st => with_fi st (set_xnid (fi st) 0)).
(** [f2fs_remove_inode_page] of a file, a directory or a link; the test for a checkpoint
    error is a request. *)
Definition f2fs_remove_inode_page : M unit :=
  d <- f2fs_get_dnode_of_data false 0 LOOKUP_NODE;;
  match d with
  | inl (e, _, _) => err e
  | inr dn =>
      f2fs_truncate_xattr_node;;
      f2fs_truncate_data_blocks_range (node_page_of dn) (ofs_in_node dn) 1;;
      ask (fun _ => Env EIO);;
      n <- get (fun st => i_blocks (fi st));;
      (if negb (n =? 0) && negb (n =? 8) then modify with_fsck else ret tt);;
      truncate_node (dn_nid dn)
  end.
(** [f2fsj_truncate] of an uncompressed file without inline data: checkpoint errors,
    injected faults and the quota are requests. *)
Definition f2fsj_truncate (size : Z) : M unit := ask (fun _ => Env EIO);; ask (fun _ => Env EIO);; ask Env;; f2fs_do_truncate_blocks size.
Definition F2FS_HAS_BLOCKS (i : file_inode) : bool := (if i_xnid i =? 0 then 0 else 1) <? Z.shiftr (i_blocks i) 3.
(** An attempt of [f2fsj_evict_inode], and the loop: only a lack of memory leads to another.
    The loop is followed for [attempts] rounds; [ENOMEM] after them says that it would go on. *)
Definition evict_attempt : M (errno + unit) :=
  has <- get (fun st => F2FS_HAS_BLOCKS (fi st));;
  r <- (if has : bool then catch (f2fsj_truncate 0) else ret (inr tt));;
  f <- catch (ask (fun _ => Env EIO));;
  match f, r with
  | inl e, _ => ret (inl e)
  | _, inl e => ret (inl e)
  | inr _, inr _ => r <- catch f2fs_remove_inode_page;; ret (match r with inl ENOENT => inr tt | r => r end)
  end.
Fixpoint evict_loop (attempts : nat) : M unit :=
  match attempts with
  | O => err (Env ENOMEM)
  | Datatypes.S attempts => r <- evict_attempt;; match r with inl (Env ENOMEM) => evict_loop attempts | inl e => err e | inr _ => ret tt end
  end.
Definition set_no_alloc (i : file_inode) : file_inode :=
  {| ino := ino i; shape := shape i; extra_isize := extra_isize i; i_addr := i_addr i; i_nid := i_nid i; inline_data := inline_data i; i_blocks := i_blocks i; i_compr_blocks := i_compr_blocks i; i_xnid := i_xnid i; no_alloc := true; first_block_written := first_block_written i |}.
(** [f2fsj_evict_inode] of an inode without links, from where it may not allocate. *)
Definition f2fsj_evict_inode (attempts : nat) : M unit := modify (fun st => with_fi st (set_no_alloc (fi st)));; evict_loop attempts.

(** ** Blocks written out of place *)

(** The part of [f2fs_do_write_data_page] for a page that is not updated in place; its
    encryption may fail. *)
Definition f2fs_do_write_data_page (index : Z) : M unit :=
  d <- f2fs_get_dnode_of_data false index LOOKUP_NODE;;
  match d with
  | inl (e, _, _) => err e
  | inr dn =>
      let old := data_blkaddr dn in
      if old =? NULL_ADDR then ret tt
      else
        valid_addr <- get (fun st => f2fs_is_valid_blkaddr (blocks st) old);;
        if is_data_addr old && negb valid_addr then err EFSCORRUPTED else
        i <- f2fs_get_node_info (dn_nid dn);;
        ask Env;;
        new <- (fun st => '(b, new) ← bl_write (blocks st) old (false, dn_nid dn, ofs_in_node dn, version i); Some (inr new, with_blocks st b));;
        f2fs_update_data_blkaddr (node_page_of dn) (ofs_in_node dn) new;;
        if index =? 0 then modify (fun st => with_fi st (set_first (fi st) true)) else ret tt
  end.
(** The part of [__write_node_page] that gives a node its block. *)
Definition __write_node_page (nid : Z) : M unit :=
  i <- f2fs_get_node_info nid;;
  valid_addr <- get (fun st => f2fs_is_valid_blkaddr (blocks st) (block_addr i));;
  if block_addr i =? NULL_ADDR then ret tt
  else if is_data_addr (block_addr i) && negb valid_addr then ret tt
  else
    new <- (fun st => '(b, new) ← bl_write (blocks st) (block_addr i) (true, nid, 0, 0); Some (inr new, with_blocks st b));;
    set_node_addr nid i new.
End map.
