(* ===== verification/FileTree.v ===== *)
(** * The tree of nodes as a list of addresses, owned and counted

    First the tree of a node id as a list; then what a file owns and how it is counted. *)

From S2P Require Import Prelude FreeNid NatCache NodePath FileMap.
#[local] Open Scope file_scope.

(** ** The tree of nodes as a list of addresses

    What a tree of nodes holds: [tree_flat] lists the addresses below a node id in the order
    of the blocks, holes as [NULL_ADDR]; [tree_nids] lists the nodes; both depend only on the
    pages of these nodes.  [tree_ok] says that the pages are there and know their places. *)

Notation lenZ l := (Z.of_nat (length l)).

(** ** Lists of chunks *)

Section chunks.
Context {A B : Type}.
Implicit Types (f : A -> list B) (l : list A).
Lemma chunks_length f l (n : nat) : (forall x, length (f x) = n) -> length (concat (f <$> l)) = (length l * n)%nat.
Proof. intros Hn. induction l as [|x l IH]; [done|]. cbn. rewrite length_app, Hn. fold (fmap f l). rewrite IH. lia. Qed.
Lemma chunks_split f l k x : l !! k = Some x -> concat (f <$> l) = concat (f <$> take k l) ++ f x ++ concat (f <$> drop (S k) l).
Proof. intros E. rewrite <-(take_drop_middle l k x E) at 1. by rewrite fmap_app, fmap_cons, concat_app. Qed.
Lemma chunks_ext (f g : A -> list B) l : (forall x, x ∈ l -> f x = g x) -> concat (f <$> l) = concat (g <$> l).
Proof. intros E. f_equal. by apply list_fmap_ext_In || (apply list_fmap_ext; intros i x Hi; apply E; by eapply list_elem_of_lookup_2). Qed.
Lemma in_chunks f l z : z ∈ concat (f <$> l) <-> exists x, z ∈ f x /\ x ∈ l.
Proof. induction l as [|x l IH]; cbn; [set_solver|]. rewrite elem_of_app. fold (fmap f l). rewrite IH. set_solver. Qed.
(** One chunk is changed. *)
Lemma chunks_insert (f g : A -> list B) l k x y : l !! k = Some x -> (forall i z, i <> k -> l !! i = Some z -> g z = f z) ->
  concat (g <$> <[k := y]> l) = concat (f <$> take k l) ++ g y ++ concat (f <$> drop (S k) l).
Proof.
  intros E Hg. rewrite (chunks_split g (<[k := y]> l) k y) by (apply list_lookup_insert_eq; by eapply lookup_lt_Some). f_equal; [|f_equal].
  - rewrite take_insert_ge by lia. apply chunks_ext. intros z (i & Hi)%list_elem_of_lookup. apply lookup_take_Some in Hi as [Hi Hlt]. apply (Hg i); [lia|done].
  - rewrite drop_insert_lt by lia. apply chunks_ext. intros z (i & Hi)%list_elem_of_lookup. rewrite lookup_drop in Hi. apply (Hg (S k + i)%nat); [lia|done].
Qed.
Lemma chunk_elem f l k x z : l !! k = Some x -> z ∈ f x -> z ∈ concat (f <$> l).
Proof. intros E Hz. rewrite (chunks_split f l k x E), !elem_of_app. tauto. Qed.
End chunks.

Section tree.
Context `{FileFormat} (B : Z) (HB : 0 < B <= DEF_ADDRS_PER_BLOCK).
Notation N := NIDS_PER_BLOCK.
Implicit Types (P : gmap Z node_page) (h : nat) (nid : Z).

(** The addresses below a node of height [h] (0: a direct node). *)
Fixpoint cap (h : nat) : nat := match h with O => Z.to_nat B | S h => (Z.to_nat N * cap h)%nat end.
Fixpoint tree_flat P h nid : list Z :=
  if nid =? 0 then replicate (cap h) NULL_ADDR
  else match P !! nid with
       | None => replicate (cap h) NULL_ADDR
       | Some p => match h with O => take (Z.to_nat B) (words p) | S h => concat (tree_flat P h <$> take (Z.to_nat N) (words p)) end
       end.
Fixpoint tree_nids P h nid : list Z :=
  if nid =? 0 then []
  else nid :: match P !! nid with
       | None => []
       | Some p => match h with O => [] | S h => concat (tree_nids P h <$> take (Z.to_nat N) (words p)) end
       end.
(** The node offset of child [k] of a node at [ofs]. *)
Definition child_ofs (h : nat) (ofs k : Z) : Z := match h with S (S _) => ofs + 1 + k * (N + 1) | _ => ofs + 1 + k end.
Fixpoint tree_ok P h (ofs nid : Z) : Prop :=
  nid = 0 \/ exists p, P !! nid = Some p /\ lenZ (words p) = page_words /\ ofs_of_node p = ofs /\
    match h with O => True | S h' => forall k c, (k < Z.to_nat N)%nat -> words p !! k = Some c -> tree_ok P h' (child_ofs h ofs (Z.of_nat k)) c end.
Definition nonnull (l : list Z) : list Z := filter (fun a => a <> NULL_ADDR) l.
(** Some places of a list are emptied. *)
Definition thinned (l l' : list Z) : Prop := Forall2 (fun a b => b = a \/ b = NULL_ADDR) l l'.

Lemma flat_zero P h : tree_flat P h 0 = replicate (cap h) NULL_ADDR.
Proof. by destruct h. Qed.
Lemma nids_zero P h : tree_nids P h 0 = [].
Proof. by destruct h. Qed.
Lemma ok_zero P h ofs : tree_ok P h ofs 0.
Proof. destruct h; by left. Qed.
Lemma flat_page P h nid p : nid <> 0 -> P !! nid = Some p -> tree_flat P h nid = match h with O => take (Z.to_nat B) (words p) | S h => concat (tree_flat P h <$> take (Z.to_nat N) (words p)) end.
Proof. intros Hn E. destruct h; cbn [tree_flat]; rewrite (proj2 (Z.eqb_neq _ _) Hn), E; done. Qed.
Lemma nids_page P h nid p : nid <> 0 -> P !! nid = Some p -> tree_nids P h nid = nid :: match h with O => [] | S h => concat (tree_nids P h <$> take (Z.to_nat N) (words p)) end.
Proof. intros Hn E. destruct h; cbn [tree_nids]; rewrite (proj2 (Z.eqb_neq _ _) Hn), E; done. Qed.
Lemma ok_page P h ofs nid : nid <> 0 -> tree_ok P h ofs nid -> exists p, P !! nid = Some p /\ lenZ (words p) = page_words /\ ofs_of_node p = ofs /\
  match h with O => True | S h' => forall k c, (k < Z.to_nat N)%nat -> words p !! k = Some c -> tree_ok P h' (child_ofs h ofs (Z.of_nat k)) c end.
Proof. intros Hn Ho. destruct h; destruct Ho; done. Qed.
Lemma root_in P h nid : nid <> 0 -> nid ∈ tree_nids P h nid.
Proof. intros Hn. destruct h; cbn; rewrite (proj2 (Z.eqb_neq _ _) Hn); by left. Qed.
Lemma nids_nonzero P h nid : 0 ∉ tree_nids P h nid.
Proof.
  revert nid. induction h as [|h IH]; intros nid; cbn [tree_nids]; (destruct (Z.eqb_spec nid 0) as [|Hn]; [set_solver|]); destruct (P !! nid) as [p|]; rewrite elem_of_cons; intros [?|Hin]; try done; try set_solver.
Qed.
Lemma flat_length P h ofs nid : tree_ok P h ofs nid -> length (tree_flat P h nid) = cap h.
Proof.
  revert ofs nid. induction h as [|h IH]; intros ofs nid Ho; (destruct (decide (nid = 0)) as [->|Hn]; [rewrite flat_zero; by rewrite length_replicate|]); destruct (ok_page _ _ _ _ Hn Ho) as (p & E & Hl & _ & Hk); rewrite (flat_page _ _ _ _ Hn E); destruct words_fit as [W1 W2].
  - rewrite length_take. cbn [cap]. lia.
  - cbn [cap]. assert (Hlt : length (take (Z.to_nat N) (words p)) = Z.to_nat N) by (rewrite length_take; lia). rewrite <-Hlt at 2.
    assert (Hch : forall k c, take (Z.to_nat N) (words p) !! k = Some c -> length (tree_flat P h c) = cap h) by (intros k c [Hc Hkn]%lookup_take_Some; by eapply IH, Hk).
    clear -Hch. induction (take (Z.to_nat N) (words p)) as [|c l IHl]; [done|]. cbn. rewrite length_app, (Hch 0%nat c) by done. fold (fmap (tree_flat P h) l). rewrite IHl; [lia|]. intros k d Hd. by apply (Hch (S k)).
Qed.

(** ** Frames *)

Lemma frame P P' h nid : (forall m, m ∈ tree_nids P h nid -> P' !! m = P !! m) -> tree_flat P' h nid = tree_flat P h nid /\ tree_nids P' h nid = tree_nids P h nid.
Proof.
  revert nid. induction h as [|h IH]; intros nid Hf; (destruct (decide (nid = 0)) as [->|Hn]; [by rewrite !flat_zero, !nids_zero|]); pose proof (Hf nid (root_in _ _ _ Hn)) as E; cbn [tree_flat tree_nids] in *; rewrite (proj2 (Z.eqb_neq _ _) Hn) in *; rewrite E; destruct (P !! nid) as [p|]; try done.
  assert (Hch : forall c, c ∈ take (Z.to_nat N) (words p) -> tree_flat P' h c = tree_flat P h c /\ tree_nids P' h c = tree_nids P h c).
  { intros c Hc. apply IH. intros m Hm. apply Hf. right. apply in_chunks. by exists c. }
  split; [|f_equal]; apply chunks_ext; intros c Hc; by destruct (Hch c Hc).
Qed.
Lemma frame_ok P P' h ofs nid : (forall m, m ∈ tree_nids P h nid -> P' !! m = P !! m) -> tree_ok P h ofs nid -> tree_ok P' h ofs nid.
Proof.
  revert ofs nid. induction h as [|h IH]; intros ofs nid Hf Ho; (destruct (decide (nid = 0)) as [->|Hn]; [apply ok_zero|]); pose proof (Hf nid (root_in _ _ _ Hn)) as E; destruct (ok_page _ _ _ _ Hn Ho) as (p & Ep & Hl & Hofs & Hk); right; exists p; (split; [by rewrite E|]); (split; [done|]); (split; [done|]); [done|].
  intros k c Hkn Hc. apply (IH _ c); [|by apply (Hk k c)]. intros m Hm. apply Hf. rewrite (nids_page _ _ _ _ Hn Ep). right. apply (chunk_elem _ _ k c); [|done]. by apply lookup_take_Some.
Qed.
Lemma child_nids P h nid p k c : nid <> 0 -> P !! nid = Some p -> (k < Z.to_nat N)%nat -> words p !! k = Some c -> tree_nids P h c ⊆ tree_nids P (S h) nid.
Proof. intros Hn E Hk Hc m Hm. rewrite (nids_page _ _ _ _ Hn E). right. apply (chunk_elem _ _ k c); [|done]. by apply lookup_take_Some. Qed.
(** Children are disjoint from each other and from the node. *)
Lemma child_apart P h nid p k c k' c' m : nid <> 0 -> P !! nid = Some p -> NoDup (tree_nids P (S h) nid) -> (k < Z.to_nat N)%nat -> (k' < Z.to_nat N)%nat -> words p !! k = Some c -> words p !! k' = Some c' -> k <> k' ->
  m ∈ tree_nids P h c -> m ∉ tree_nids P h c'.
Proof.
  intros Hn E Hd Hk Hk' Hc Hc' Hne Hm Hm'. rewrite (nids_page _ _ _ _ Hn E) in Hd. apply list.NoDup_cons in Hd as [_ Hd].
  assert (Hgen : forall k k' c c', (k < k')%nat -> (k' < Z.to_nat N)%nat -> words p !! k = Some c -> words p !! k' = Some c' -> m ∈ tree_nids P h c -> m ∈ tree_nids P h c' -> False).
  { clear -Hd. intros k k' c c' Hlt Hk' Hc Hc' Hm Hm'. assert (E : take (Z.to_nat N) (words p) !! k = Some c) by (apply lookup_take_Some; split; [done|lia]). rewrite (chunks_split _ _ k c E) in Hd.
    apply list.NoDup_app in Hd as (_ & _ & Hd). apply list.NoDup_app in Hd as (_ & Hd & _). apply (Hd m Hm), (chunk_elem _ _ (k' - S k) c'); [|done]. rewrite lookup_drop. replace (S k + (k' - S k))%nat with k' by lia. by apply lookup_take_Some. }
  destruct (Nat.lt_ge_cases k k'); [by apply (Hgen k k' c c')|]. apply (Hgen k' k c' c); try done. lia.
Qed.
Lemma child_root_apart P h nid p k c : nid <> 0 -> P !! nid = Some p -> NoDup (tree_nids P (S h) nid) -> (k < Z.to_nat N)%nat -> words p !! k = Some c -> nid ∉ tree_nids P h c.
Proof.
  intros Hn E Hd Hk Hc Hin. rewrite (nids_page _ _ _ _ Hn E) in Hd. apply list.NoDup_cons in Hd as [Hd _]. apply Hd, (chunk_elem _ _ k c); [|done]. by apply lookup_take_Some.
Qed.
Lemma child_nodup P h nid p k c : nid <> 0 -> P !! nid = Some p -> NoDup (tree_nids P (S h) nid) -> (k < Z.to_nat N)%nat -> words p !! k = Some c -> NoDup (tree_nids P h c).
Proof.
  intros Hn E Hd Hk Hc. rewrite (nids_page _ _ _ _ Hn E) in Hd. apply list.NoDup_cons in Hd as [_ Hd]. rewrite (chunks_split _ _ k c) in Hd by (by apply lookup_take_Some).
  apply list.NoDup_app in Hd as (_ & _ & Hd). by apply list.NoDup_app in Hd as (Hd & _).
Qed.
End tree.

(** ** Blocks and nodes of a file: what is owned and counted

    [acct st A Ns]: the file owns the addresses [A] and the nodes [Ns], with the blocks of the
    nodes; nothing twice; the counters count them on top of what others own. *)

(** What the layer of blocks promises: it takes back what is live, and hands out what is not. *)
Class BlockLaws `{FileFormat} (S : Type) `{BlockOps S} := {
  bl_ok : S -> Prop; bl_live : S -> Z -> Prop; bl_ready : S -> Prop;
  bl_data s a : bl_ok s -> bl_live s a -> is_data_addr a = true /\ f2fs_is_valid_blkaddr s a = true;
  bl_none s : bl_ok s -> bl_invalidate s NEW_ADDR = Some s;
  bl_take s a : bl_ok s -> bl_live s a -> exists s', bl_invalidate s a = Some s' /\ bl_ok s' /\ (forall b, bl_live s' b <-> bl_live s b /\ b <> a);
  bl_give s old sum : bl_ok s -> bl_ready s -> old = NEW_ADDR \/ bl_live s old ->
    exists s' new, bl_write s old sum = Some (s', new) /\ bl_ok s' /\ ~ bl_live s new /\ (forall b, bl_live s' b <-> (b = new \/ bl_live s b) /\ b <> old) /\ is_data_addr new = true
}.

(** ** Steps *)

Section steps.
Context {S : Type}.
Notation M := (M (S := S)).
Implicit Types (st : fsys S).
Lemma bind_ok {A B} (m : M A) (f : A -> M B) st a st1 : m st = Some (inr a, st1) -> bind m f st = f a st1.
Proof. unfold bind. by intros ->. Qed.
Lemma bind_err {A B} (m : M A) (f : A -> M B) st e st1 : m st = Some (inl e, st1) -> bind m f st = Some (inl e, st1).
Proof. unfold bind. by intros ->. Qed.
Lemma bind_get {A B} (g : fsys S -> A) (f : A -> M B) st : bind (get g) f st = f (g st) st.
Proof. done. Qed.
Lemma bind_modify {B} g (f : unit -> M B) st : bind (modify g) f st = f tt (g st).
Proof. done. Qed.
Lemma bind_ret {A B} (a : A) (f : A -> M B) st : bind (ret a) f st = f a st.
Proof. done. Qed.
Lemma bind_bind {A B C} (m : M A) (f : A -> M B) (g : B -> M C) st : bind (bind m f) g st = bind m (fun a => bind (f a) g) st.
Proof. unfold bind. by destruct (m st) as [[[]]|]. Qed.
Lemma bind_catch {A B} (m : M A) (f : errno + A -> M B) st r st1 : m st = Some (r, st1) -> bind (catch m) f st = f r st1.
Proof. unfold bind, catch. by intros ->. Qed.
Lemma catch_run {A} (m : M A) st r st1 : m st = Some (r, st1) -> catch m st = Some (inr r, st1).
Proof. unfold catch. by intros ->. Qed.
End steps.
(** Runs the steps that only read, write or return. *)
Ltac msteps := repeat first [rewrite bind_get | rewrite bind_modify | rewrite bind_ret]; cbn beta.

(** The blocks and nodes of others, the inode's own node among them: how many, which blocks
    are live, and where the nodes are. *)
Record rest := { o_blocks : Z; o_nodes : Z; o_iblocks : Z; o_live : Z -> Prop; o_addr : Z -> option Z }.
(** The limits of the counters leave room for each other. *)
Record limits (c : f2fs_counts) : Prop := {
  li_reserved : 0 <= current_reserved_blocks c /\ 0 <= reserved_blocks c /\ 0 <= root_reserved_blocks c;
  li_user : Z.max (current_reserved_blocks c) (reserved_blocks c) + root_reserved_blocks c <= user_block_count c;
  li_wide : user_block_count c + Z.max (current_reserved_blocks c) (reserved_blocks c) + root_reserved_blocks c + 1 < 2 ^ 32;
  li_unusable : 0 <= unusable_block_count c <= user_block_count c;
  li_total : total_valid_block_count c <= user_block_count c;
  li_nodes : total_valid_node_count c <= total_node_count c < 2 ^ 32 - 1
}.

Section acct.
Context {T : Type} `{BlockLaws T} (o : rest).
Implicit Types (st : fsys T) (A Ns : list Z).

Definition node_addr st (n : Z) : Z := block_addr (nat_entry_of st n).
Definition data_addrs st A Ns : list Z := filter (fun a => is_data_addr a = true) (A ++ (node_addr st <$> Ns)).
Definition nid_ok st (n : Z) : Prop := F2FS_ROOT_INO <= n < max_nid st.
Record acct st A Ns : Prop := {
  ac_bl : bl_ok (blocks st);
  ac_addr : Forall (fun a => a <> NULL_ADDR /\ a <> COMPRESS_ADDR) A;
  ac_nid : Forall (fun n => nid_ok st n /\ node_addr st n <> NULL_ADDR /\ node_addr st n <> COMPRESS_ADDR) Ns;
  ac_live a : a ∈ data_addrs st A Ns -> bl_live (blocks st) a;
  ac_once : NoDup (data_addrs st A Ns);
  ac_nodes : NoDup (Ns ++ free_nids st);
  ac_free : Forall (fun n => nid_ok st n /\ node_addr st n = NULL_ADDR) (free_nids st);
  ac_total : total_valid_block_count (cnt st) = o_blocks o + lenZ A + lenZ Ns;
  ac_count : total_valid_node_count (cnt st) = o_nodes o + lenZ Ns;
  ac_iblocks : i_blocks (fi st) = o_iblocks o + 8 * (lenZ A + lenZ Ns);
  ac_rest : 0 <= o_blocks o /\ 0 <= o_nodes o /\ 0 <= o_iblocks o;
  ac_limits : limits (cnt st);
  ac_others b : o_live o b <-> bl_live (blocks st) b /\ b ∉ data_addrs st A Ns;
  ac_ino : is_Some (o_addr o (ino (fi st)));
  ac_nat n a : o_addr o n = Some a -> node_addr st n = a /\ n ∉ Ns ++ free_nids st
}.
#[export] Instance data_addrs_perm st : Proper (Permutation ==> Permutation ==> Permutation) (data_addrs st).
Proof. intros A A' HA Ns Ns' HN. unfold data_addrs. by rewrite HA, HN. Qed.
Lemma acct_perm st A Ns A' Ns' : acct st A Ns -> A ≡ₚ A' -> Ns ≡ₚ Ns' -> acct st A' Ns'.
Proof.
  intros [X1 X2 X3 X4 X5 X6 X7 X8 X9 X10 X11 X12 X13 X14 X15] HA HN. pose proof (data_addrs_perm st A A' HA Ns Ns' HN) as HD. constructor; try done.
  - by rewrite <-HA.
  - by rewrite <-HN.
  - intros a. rewrite <-HD. apply X4.
  - by rewrite <-HD.
  - by rewrite <-HN.
  - by rewrite <-HA, <-HN.
  - by rewrite <-HN.
  - by rewrite <-HA, <-HN.
  - intros b. rewrite <-HD. apply X13.
  - intros n a. rewrite <-HN. apply X15.
Qed.
#[export] Instance acct_proper st : Proper (Permutation ==> Permutation ==> iff) (acct st).
Proof. intros A A' HA Ns Ns' HN. split; intros Ha; by eapply acct_perm. Qed.
(** [acct] looks at these parts only. *)
Lemma acct_same st st' A Ns : acct st A Ns -> blocks st' = blocks st -> nat_tab st' = nat_tab st -> free_nids st' = free_nids st -> max_nid st' = max_nid st -> cnt st' = cnt st -> i_blocks (fi st') = i_blocks (fi st) -> ino (fi st') = ino (fi st) -> acct st' A Ns.
Proof.
  intros [X1 X2 X3 X4 X5 X6 X7 X8 X9 X10 X11 X12 X13 X14 X15] E1 E2 E3 E4 E5 E6 E7. assert (En : forall n, node_addr st' n = node_addr st n) by (intros n; unfold node_addr, nat_entry_of; by rewrite E2).
  assert (Ed : data_addrs st' A Ns = data_addrs st A Ns) by (unfold data_addrs; do 2 f_equal; apply list_fmap_ext; intros; apply En).
  constructor; rewrite ?E1, ?E3, ?E5, ?E6, ?E7, ?Ed; try done.
  - apply (list.Forall_impl _ _ _ X3). cbn. intros n. unfold nid_ok. by rewrite E4, En.
  - apply (list.Forall_impl _ _ _ X7). cbn. intros n. unfold nid_ok. by rewrite E4, En.
  - intros n a. rewrite En. apply X15.
Qed.

(** What a step below the inode leaves alone. *)
Record stable st st' : Prop := {
  sb_shape : shape (fi st') = shape (fi st); sb_extra : extra_isize (fi st') = extra_isize (fi st); sb_addr : i_addr (fi st') = i_addr (fi st); sb_nid : i_nid (fi st') = i_nid (fi st);
  sb_inline : inline_data (fi st') = inline_data (fi st); sb_ino : ino (fi st') = ino (fi st); sb_compr : i_compr_blocks (fi st') = i_compr_blocks (fi st); sb_max : max_nid st' = max_nid st; sb_xnid : i_xnid (fi st') = i_xnid (fi st)
}.
Lemma stable_refl st : stable st st.
Proof. by constructor. Qed.
Lemma stable_trans st st1 st2 : stable st st1 -> stable st1 st2 -> stable st st2.
Proof. intros [] []. constructor; congruence. Qed.
End acct.
#[export] Hint Resolve stable_refl : core.

Section counters.
Context {T : Type} `{BlockLaws T} (o : rest) (env : file_env).
Implicit Types (st : fsys T) (A Ns : list Z).
Notation acct := (acct o).

Lemma ask_run conv st : ask env conv st = Some (inr tt, tick st) \/ exists e, ask env conv st = Some (inl (conv e), tick st).
Proof. unfold ask. destruct (answer env (ticks st)) as [e|]; [right; by exists e|by left]. Qed.
Lemma acct_tick st A Ns : acct st A Ns -> acct (tick st) A Ns.
Proof. intros Ha. by apply (acct_same o st). Qed.

Lemma get_page_run st nid p : nid_ok st nid -> pages st !! nid = Some p ->
  f2fs_get_node_page env nid st = Some (inr p, tick st) \/ exists e, f2fs_get_node_page env nid st = Some (inl (Env e), tick st).
Proof.
  intros Hr Hp. pose proof root_pos. unfold f2fs_get_node_page, nid_ok in *. destruct (Z.eqb_spec nid 0); [lia|]. rewrite !bind_get. unfold f2fs_check_nid_range. destruct (Z.ltb_spec nid F2FS_ROOT_INO), (Z.leb_spec (max_nid st) nid); try lia. cbn [orb].
  destruct (ask_run Env st) as [E|(e & E)]; [left|right; exists e; by apply bind_err]. rewrite (bind_ok _ _ _ _ _ E), bind_get. cbn. by rewrite Hp.
Qed.
Lemma get_page_zero st : f2fs_get_node_page env 0 st = Some (inl ENOENT, st).
Proof. done. Qed.

(** Blocks and nodes are taken off the counters. *)
Record counted st st' : Prop := {
  cd_stable : stable st st'; cd_pages : pages st' = pages st; cd_ext : ext_log st' = ext_log st; cd_blocks : blocks st' = blocks st; cd_nat : nat_tab st' = nat_tab st; cd_free : free_nids st' = free_nids st; cd_pre : prealloc st' = prealloc st;
  cd_limits : limits (cnt st')
}.
Lemma dec_blocks_run st n x y : 0 < n -> 0 <= x -> 0 <= y -> total_valid_block_count (cnt st) = x + n -> i_blocks (fi st) = y + 8 * n -> limits (cnt st) ->
  exists st', dec_valid_block_count n st = Some (inr tt, st') /\ counted st st' /\ total_valid_block_count (cnt st') = x /\ total_valid_node_count (cnt st') = total_valid_node_count (cnt st) /\ i_blocks (fi st') = y.
Proof.
  intros Hn Hx Hy Ht Hi [L1 L2 L3 L4 L5 L6]. unfold dec_valid_block_count. msteps. destruct (Z.ltb_spec (total_valid_block_count (cnt st)) n); [lia|]. msteps. cbn [fi with_cnt]. destruct (Z.ltb_spec (i_blocks (fi st)) (n * 8)); [lia|].
  unfold f2fs_i_blocks_write, modify. eexists. split; [done|]. cbn. rewrite (u32_small (_ - _)) by lia. split; [|split; [lia|split; [done|lia]]]. constructor; try done.
  constructor; cbn; rewrite ?u32_small by lia; try done; try lia; destruct (negb (reserved_blocks (cnt st) =? 0) && (current_reserved_blocks (cnt st) <? reserved_blocks (cnt st))); try lia.
Qed.
Lemma dec_node_run st x m y : 0 <= x -> 0 <= m -> 0 <= y -> total_valid_block_count (cnt st) = x + 1 -> total_valid_node_count (cnt st) = m + 1 -> i_blocks (fi st) = y + 8 -> limits (cnt st) ->
  exists st', dec_valid_node_count false st = Some (inr tt, st') /\ counted st st' /\ total_valid_block_count (cnt st') = x /\ total_valid_node_count (cnt st') = m /\ i_blocks (fi st') = y.
Proof.
  intros Hx Hm Hy Ht Hn Hi [L1 L2 L3 L4 L5 L6]. unfold dec_valid_node_count. msteps. destruct (Z.eqb_spec (total_valid_block_count (cnt st)) 0), (Z.eqb_spec (total_valid_node_count (cnt st)) 0); try lia. cbn [orb]. msteps. cbn [fi with_cnt]. destruct (Z.eqb_spec (i_blocks (fi st)) 0); [lia|].
  unfold f2fs_i_blocks_write, modify. eexists. split; [done|]. cbn. rewrite !(u32_small (_ - _)) by lia. split; [|split; [lia|split; lia]]. constructor; try done.
  assert (Hr : 0 <= (if negb (reserved_blocks (cnt st) =? 0) && (current_reserved_blocks (cnt st) <? reserved_blocks (cnt st)) then current_reserved_blocks (cnt st) +! 1 else current_reserved_blocks (cnt st)) <= Z.max (current_reserved_blocks (cnt st)) (reserved_blocks (cnt st))).
  { destruct (negb _); cbn [andb]; [|lia]. destruct (Z.ltb_spec (current_reserved_blocks (cnt st)) (reserved_blocks (cnt st))); [rewrite u32_small; lia|lia]. }
  constructor; cbn; rewrite ?(u32_small (_ - _)) by lia; try done; lia.
Qed.
End counters.
