(* ===== verification/FileCut.v ===== *)
(** * Truncation below one node id

    First a range of one node or of the inode; then whole nodes and trees below an id. *)

From S2P Require Import Prelude FreeNid NatCache NodePath FileMap FileTree.
#[local] Open Scope file_scope.

(** ** Ranges of addresses in one node (file.c: f2fs_truncate_data_blocks_range) *)

Section range.
Context {T : Type} `{BlockLaws T} (o : rest) (env : file_env).
Implicit Types (st : fsys T) (A Ns l : list Z) (r : node_ref).
Notation acct := (acct o).

(** ** The extent cache, as it was told *)

Fixpoint ext_view (log : list (Z * Z * Z)) (j : Z) : Z :=
  match log with
  | [] => NULL_ADDR
  | (f, a, n) :: log => if (f <=? j) && (j <? f + n) then (if a =? NULL_ADDR then NULL_ADDR else a + (j - f)) else ext_view log j
  end.
(** The extent cache has the written blocks of the list [l] that starts at block [s]. *)
Definition mirror (log : list (Z * Z * Z)) (s : Z) l : Prop := forall k a, l !! k = Some a -> ext_view log (s + Z.of_nat k) = if is_data_addr a then a else NULL_ADDR.

(** ** The address array of a node *)

Definition arr st r : option (list Z) := match r with AtInode => Some (drop (Z.to_nat (extra_isize (fi st))) (i_addr (fi st))) | AtNode nid => words <$> pages st !! nid end.
(** Only the addresses of [r] and the layer of blocks change. *)
Record quiet st st' : Prop := {
  qu_shape : shape (fi st') = shape (fi st); qu_extra : extra_isize (fi st') = extra_isize (fi st); qu_nid : i_nid (fi st') = i_nid (fi st); qu_inline : inline_data (fi st') = inline_data (fi st);
  qu_ino : ino (fi st') = ino (fi st); qu_compr : i_compr_blocks (fi st') = i_compr_blocks (fi st); qu_max : max_nid st' = max_nid st; qu_nat : nat_tab st' = nat_tab st; qu_free : free_nids st' = free_nids st; qu_pre : prealloc st' = prealloc st; qu_xnid : i_xnid (fi st') = i_xnid (fi st)
}.
Definition elsewhere r st st' : Prop :=
  match r with
  | AtInode => pages st' = pages st /\ take (Z.to_nat (extra_isize (fi st))) (i_addr (fi st')) = take (Z.to_nat (extra_isize (fi st))) (i_addr (fi st))
  | AtNode nid => i_addr (fi st') = i_addr (fi st) /\ ofs_of_node <$> pages st' !! nid = ofs_of_node <$> pages st !! nid /\ forall m, m <> nid -> pages st' !! m = pages st !! m
  end.
Lemma quiet_steps st st1 st2 : quiet st st1 -> quiet st1 st2 -> quiet st st2.
Proof. intros [] []. constructor; congruence. Qed.
Lemma elsewhere_trans r st st1 st2 : extra_isize (fi st1) = extra_isize (fi st) -> elsewhere r st st1 -> elsewhere r st1 st2 -> elsewhere r st st2.
Proof. intros E. destruct r as [|nid]; cbn; [intros [] []; rewrite <-E; split; congruence|]. intros (? & ? & Hm) (? & ? & Hm'). split; [congruence|]. split; [congruence|]. intros m Hne. rewrite Hm' by done. by apply Hm. Qed.
(** The state after a store to the array. *)
Lemma set_addr_run st r l k v : 0 <= extra_isize (fi st) -> arr st r = Some l -> (k < length l)%nat ->
  exists st', __set_data_blkaddr r (Z.of_nat k) v st = Some (inr tt, st') /\ arr st' r = Some (<[k := v]> l) /\ quiet st st' /\ elsewhere r st st' /\ cnt st' = cnt st /\ i_blocks (fi st') = i_blocks (fi st) /\ blocks st' = blocks st /\ ext_log st' = ext_log st.
Proof.
  intros He Hl Hk. unfold __set_data_blkaddr, put_word, at_word. destruct r as [|nid]; cbn in Hl.
  - injection Hl as <-. rewrite length_drop in Hk. destruct (Z.ltb_spec (extra_isize (fi st) + Z.of_nat k) 0); [lia|]. destruct (lookup_lt_is_Some_2 (i_addr (fi st)) (Z.to_nat (extra_isize (fi st) + Z.of_nat k))) as [a Ea]; [lia|]. rewrite Ea. cbn [mbind option_bind]. eexists. split; [done|].
    replace (Z.to_nat (extra_isize (fi st) + Z.of_nat k)) with (Z.to_nat (extra_isize (fi st)) + k)%nat by lia. split; [cbn; f_equal; rewrite drop_insert_ge by lia; f_equal; lia|]. split; [by constructor|]. split; [|done]. split; [done|]. cbn. by rewrite take_insert_ge by lia.
  - destruct (pages st !! nid) as [p|] eqn:Ep; [|done]. injection Hl as <-. cbn [mbind option_bind]. destruct (Z.ltb_spec (Z.of_nat k) 0); [lia|]. rewrite Nat2Z.id. destruct (lookup_lt_is_Some_2 (words p) k Hk) as [a Ea]. rewrite Ea. cbn [mbind option_bind]. eexists. split; [done|].
    split; [cbn; by rewrite lookup_insert_eq|]. split; [by constructor|]. split; [|done]. cbn. split; [done|]. split; [by rewrite lookup_insert_eq, Ep|]. intros m Hm. by rewrite lookup_insert_ne.
Qed.
Lemma get_addr_run st r l k a : 0 <= extra_isize (fi st) -> arr st r = Some l -> l !! k = Some a -> get_blkaddr r (Z.of_nat k) st = Some (inr a, st).
Proof.
  intros He Hl Ha. unfold get_blkaddr. rewrite bind_get. unfold at_word. destruct r as [|nid]; cbn in Hl.
  - injection Hl as <-. rewrite lookup_drop in Ha. destruct (Z.ltb_spec (extra_isize (fi st) + Z.of_nat k) 0); [lia|]. replace (Z.to_nat (extra_isize (fi st) + Z.of_nat k)) with (Z.to_nat (extra_isize (fi st)) + k)%nat by lia. by rewrite Ha.
  - destruct (pages st !! nid) as [p|] eqn:Ep; [|done]. injection Hl as <-. cbn [mbind option_bind]. destruct (Z.ltb_spec (Z.of_nat k) 0); [lia|]. rewrite Nat2Z.id. by rewrite Ha.
Qed.

(** ** The loop *)

Definition taken st l : Prop := (forall a, a ∈ l -> a <> COMPRESS_ADDR /\ (is_data_addr a = true -> bl_live (blocks st) a)) /\ NoDup (filter (fun a => is_data_addr a = true) l).
Lemma data_not a : is_data_addr a = true <-> a <> NEW_ADDR /\ a <> NULL_ADDR /\ a <> COMPRESS_ADDR.
Proof. unfold is_data_addr. rewrite negb_true_iff, !orb_false_iff, !Z.eqb_neq. tauto. Qed.
Lemma range_loop n : forall st r l k idx valid nr,
  f2fs_compressed_file (shape (fi st)) = false -> 0 <= extra_isize (fi st) -> bl_ok (blocks st) -> arr st r = Some l -> (k + n <= length l)%nat -> taken st (take n (drop k l)) ->
  exists st', truncate_range_loop n r true (Z.of_nat k) idx false valid nr st = Some (inr (false, valid, nr + lenZ (nonnull (take n (drop k l)))), st') /\
    arr st' r = Some (take k l ++ replicate n NULL_ADDR ++ drop (k + n) l) /\ quiet st st' /\ elsewhere r st st' /\ cnt st' = cnt st /\ i_blocks (fi st') = i_blocks (fi st) /\ ext_log st' = ext_log st /\
    bl_ok (blocks st') /\ (forall b, bl_live (blocks st') b <-> bl_live (blocks st) b /\ b ∉ take n (drop k l)).
Proof.
  induction n as [|n IH]; intros st r l k idx valid nr Hc He Hbl Hl Hk Ht.
  { exists st. cbn. rewrite Z.add_0_r, Nat.add_0_r, take_drop. split; [done|]. split; [done|]. split; [by constructor|]. split; [destruct r; done|]. do 4 (split; [done|]). set_solver. }
  destruct (lookup_lt_is_Some_2 l k) as [a Ha]; [lia|]. assert (Ed : take (Datatypes.S n) (drop k l) = a :: take n (drop (Datatypes.S k) l)) by (by rewrite (drop_S l a k Ha)). rewrite Ed in *. destruct Ht as [Ht Hnd].
  cbn [truncate_range_loop]. msteps. rewrite (bind_ok _ _ _ _ _ (get_addr_run st r l k a He Hl Ha)). rewrite Hc. cbn [andb]. msteps. replace (Z.of_nat k + 1) with (Z.of_nat (Datatypes.S k)) by lia.
  destruct (Z.eqb_spec a NULL_ADDR) as [->|Hna].
  { destruct (IH st r l (Datatypes.S k) (idx + 1) valid nr Hc He Hbl Hl) as (st' & -> & E1 & E2 & E3 & E4 & E5 & E6 & E7 & E8); [lia|split; [set_solver|]|].
    { rewrite filter_cons_False in Hnd; [done|]. rewrite data_not. tauto. }
    exists st'. split; [unfold nonnull; rewrite filter_cons_False by tauto; done|]. split; [|do 6 (split; [done|])].
    - rewrite E1. f_equal. rewrite (take_S_r l k NULL_ADDR) by done. rewrite <-app_assoc. cbn. by replace (k + Datatypes.S n)%nat with (Datatypes.S (k + n)) by lia.
    - intros b. rewrite E8, elem_of_cons. split; [|tauto]. intros [Hb Hnb]. split; [done|]. intros [->|]; [|done]. apply (bl_data _ _ Hbl) in Hb as [Hb _]. apply data_not in Hb. tauto. }
  destruct (set_addr_run st r l k NULL_ADDR He Hl) as (st1 & E1 & Hl1 & Q1 & W1 & Hc1 & Hi1 & Hb1 & Hx1); [lia|]. rewrite (bind_ok _ _ _ _ _ E1). destruct (Ht a) as [Hnc Hlive]; [by left|].
  rewrite bind_get, Hb1. assert (Hvalid : is_data_addr a && negb (f2fs_is_valid_blkaddr (blocks st) a) = false) by (destruct (is_data_addr a) eqn:Ea; [|done]; destruct (bl_data _ _ Hbl (Hlive eq_refl)) as [_ ->]; done). rewrite Hvalid. clear Hvalid.
  set (m := if _ && _ then modify _ else ret tt). assert (Em : exists st2, m st1 = Some (inr tt, st2) /\ arr st2 r = arr st1 r /\ quiet st1 st2 /\ elsewhere r st1 st2 /\ cnt st2 = cnt st1 /\ i_blocks (fi st2) = i_blocks (fi st1) /\ blocks st2 = blocks st1 /\ ext_log st2 = ext_log st1).
  { unfold m. destruct ((Z.of_nat k =? 0) && match r with AtInode => true | AtNode _ => false end); eexists; (split; [reflexivity|]); (split; [by destruct r|]); (split; [by constructor|]); (split; [by destruct r|]); done. }
  clearbody m. destruct Em as (st2 & Em & Hl2 & Q2 & W2 & Hc2 & Hi2 & Hb2 & Hx2). rewrite (bind_ok _ _ _ _ _ Em).
  assert (Einv : exists s3, bl_invalidate (blocks st2) a = Some s3 /\ bl_ok s3 /\ forall b, bl_live s3 b <-> bl_live (blocks st) b /\ b <> a).
  { rewrite Hb2, Hb1. destruct (is_data_addr a) eqn:Ea; [by apply bl_take; [|apply Hlive]|]. assert (a = NEW_ADDR) as ->. { unfold is_data_addr in Ea. apply negb_false_iff in Ea. apply orb_true_iff in Ea as [[->%Z.eqb_eq|?%Z.eqb_eq]%orb_true_iff|?%Z.eqb_eq]; done. }
    exists (blocks st). split; [by apply bl_none|]. split; [done|]. intros b. split; [|tauto]. intros Hb. split; [done|]. intros ->. apply (bl_data _ _ Hbl) in Hb as [Hb _]. congruence. }
  destruct Einv as (s3 & Ei & Hok3 & Hl3). unfold f2fs_invalidate_blocks at 1. unfold bind at 1. rewrite Ei. cbn [mbind option_bind]. rewrite orb_true_intro by (right; by apply negb_true_iff, Z.eqb_neq). rewrite andb_false_r.
  assert (Q : quiet st (with_blocks st2 s3)) by (eapply quiet_steps; [exact Q1|]; eapply quiet_steps; [exact Q2|]; by constructor). assert (W : elsewhere r st (with_blocks st2 s3)).
  { eapply elsewhere_trans; [exact (qu_extra _ _ Q1)|exact W1|]. by destruct r. }
  assert (Hlen : length (<[k:=NULL_ADDR]> l) = length l) by apply length_insert.
  destruct (IH (with_blocks st2 s3) r (<[k := NULL_ADDR]> l) (Datatypes.S k) (idx + 1) valid (nr + 1)) as (st' & -> & E1' & E2 & E3 & E4 & E5 & E6 & E7 & E8).
  { by rewrite (qu_shape _ _ Q). } { by rewrite (qu_extra _ _ Q). } { done. } { transitivity (arr st2 r); [by destruct r|]. by rewrite Hl2. } { rewrite Hlen. lia. }
  { rewrite drop_insert_lt by lia. rewrite filter_cons in Hnd. split; [|by case_decide; [apply list.NoDup_cons in Hnd as [_ Hnd]|]]. intros b Hb. split; [apply Ht; by right|]. intros Hd. cbn. apply Hl3. split; [by apply Ht; [right|]|]. intros ->. rewrite decide_True in Hnd by done. apply list.NoDup_cons in Hnd as [Hnd _]. apply Hnd. by apply list_elem_of_filter. }
  rewrite drop_insert_lt in * by lia. exists st'. split; [|split; [|split; [by eapply quiet_steps|split; [by eapply elsewhere_trans; [apply (qu_extra _ _ Q)|..]|]]]].
  - unfold nonnull. rewrite filter_cons_True by done. cbn [length]. do 4 f_equal. lia.
  - rewrite E1'. f_equal. rewrite ?(drop_insert_lt l (Datatypes.S k + n)) by lia. rewrite (take_S_r (<[k:=NULL_ADDR]> l) k NULL_ADDR) by (rewrite list_lookup_insert_eq; [done|lia]). rewrite take_insert_ge by lia. rewrite <-app_assoc. cbn. by replace (k + Datatypes.S n)%nat with (Datatypes.S (k + n)) by lia.
  - cbn in E4, E5, E6. split; [congruence|]. split; [congruence|]. split; [congruence|]. split; [done|]. intros b. rewrite E8, elem_of_cons. cbn. rewrite Hl3. tauto.
Qed.

(** ** The whole call *)

Lemma filter_parts {X} (P : X -> Prop) `{forall x, Decision (P x)} (l1 l2 : list X) : filter P (l1 ++ l2) = filter P l1 ++ filter P l2.
Proof. apply list.filter_app. Qed.
Lemma data_nonnull l : filter (fun a => is_data_addr a = true) (nonnull l) = filter (fun a => is_data_addr a = true) l.
Proof.
  unfold nonnull. induction l as [|a l IH]; [done|]. destruct (decide (a = NULL_ADDR)) as [->|Hn].
  - rewrite (filter_cons_False (fun a => a <> NULL_ADDR)) by tauto. rewrite (filter_cons_False _ NULL_ADDR) by (rewrite data_not; tauto). exact IH.
  - rewrite (filter_cons_True (fun a => a <> NULL_ADDR)) by done. rewrite !filter_cons. by rewrite IH.
Qed.
(** Owned addresses can be taken. *)
Lemma acct_taken st l A Ns : acct st (nonnull l ++ A) Ns -> taken st l.
Proof.
  intros Ha. assert (Hd : data_addrs st (nonnull l ++ A) Ns = filter (fun a => is_data_addr a = true) l ++ data_addrs st A Ns) by (unfold data_addrs; by rewrite <-app_assoc, filter_parts, data_nonnull).
  split.
  - intros a Hin. destruct (decide (a = NULL_ADDR)) as [->|Hn]; [split; [destruct compress_other; congruence|]; rewrite data_not; tauto|]. assert (Hna : a ∈ nonnull l) by (by apply list_elem_of_filter). split.
    + pose proof (ac_addr _ _ _ _ Ha) as Hf. rewrite list.Forall_forall in Hf. apply (Hf a). set_solver.
    + intros Hda. apply (ac_live _ _ _ _ Ha). rewrite Hd. apply elem_of_app. left. by apply list_elem_of_filter.
  - pose proof (ac_once _ _ _ _ Ha) as Ho. rewrite Hd in Ho. by apply list.NoDup_app in Ho as (? & _).
Qed.
(** What is left when addresses were taken. *)
(** What others have stays when the file's blocks in [l] are given back. *)
Lemma others_drop (s s' : T) (P : Z -> Prop) l (D : list Z) : bl_ok s -> (forall b, P b <-> bl_live s b /\ b ∉ filter (fun a => is_data_addr a = true) l ++ D) -> (forall b, bl_live s' b <-> bl_live s b /\ b ∉ l) -> forall b, P b <-> bl_live s' b /\ b ∉ D.
Proof.
  intros Hok HP Hl b. rewrite HP, Hl, not_elem_of_app, list_elem_of_filter. split; [|tauto]. intros (Hb & Hn & HD). split; [split; [done|]|done]. intros Hin. apply Hn. split; [by apply (bl_data s b Hok)|done].
Qed.
(** The same when a block is moved. *)
Lemma others_move (s s' : T) (P : Z -> Prop) old new (D : list Z) : bl_ok s -> ~ bl_live s new -> (forall b, P b <-> bl_live s b /\ b ∉ filter (fun a => is_data_addr a = true) [old] ++ D) -> (forall b, bl_live s' b <-> (b = new \/ bl_live s b) /\ b <> old) -> forall b, P b <-> bl_live s' b /\ b ∉ new :: D.
Proof.
  intros Hok Hnew HP Hl b. rewrite HP, Hl, not_elem_of_app, list_elem_of_filter, list_elem_of_singleton, not_elem_of_cons. split.
  - intros (Hb & Hn & HD). split; [split; [by right|]|split; [|done]].
    + intros ->. apply Hn. split; [by apply (bl_data s old Hok)|done].
    + by intros ->.
  - intros ((Hb & Hn) & Hne & HD). destruct Hb as [Hb|Hb]; [done|]. split; [done|]. split; [|done]. by intros [_ ?].
Qed.
Lemma acct_drop st st' l A Ns : acct st (nonnull l ++ A) Ns -> nat_tab st' = nat_tab st -> free_nids st' = free_nids st -> max_nid st' = max_nid st -> ino (fi st') = ino (fi st) -> bl_ok (blocks st') -> (forall b, bl_live (blocks st') b <-> bl_live (blocks st) b /\ b ∉ l) ->
  total_valid_block_count (cnt st') = o_blocks o + lenZ A + lenZ Ns -> total_valid_node_count (cnt st') = total_valid_node_count (cnt st) -> i_blocks (fi st') = o_iblocks o + 8 * (lenZ A + lenZ Ns) -> limits (cnt st') -> acct st' A Ns.
Proof.
  intros Ha E1 E2 E3 E4 Hok Hl Ht Hn Hi Hli. assert (En : forall n, node_addr st' n = node_addr st n) by (intros n; unfold node_addr, nat_entry_of; by rewrite E1).
  assert (Hd : data_addrs st (nonnull l ++ A) Ns = filter (fun a => is_data_addr a = true) l ++ data_addrs st A Ns) by (unfold data_addrs; by rewrite <-app_assoc, filter_parts, data_nonnull).
  assert (Ed : data_addrs st' A Ns = data_addrs st A Ns) by (unfold data_addrs; do 2 f_equal; apply list_fmap_ext; intros; apply En). pose proof Ha as [X1 X2 X3 X4 X5 X6 X7 X8 X9 X10 X11 X12 X13 X14 X15]. rewrite Hd in X4, X5. apply list.NoDup_app in X5 as (_ & X5 & X5'). apply Forall_app in X2 as [_ X2].
  constructor; rewrite ?Ed, ?E2, ?E4; try done; try congruence.
  - apply (list.Forall_impl _ _ _ X3). cbn. intros n. unfold nid_ok. by rewrite E3, En.
  - intros a Hin. apply Hl. split; [apply X4; set_solver|]. intros Hal. apply (X5 a); [|done]. apply list_elem_of_filter. split; [|done]. unfold data_addrs in Hin. by apply list_elem_of_filter in Hin as [? _].
  - apply (list.Forall_impl _ _ _ X7). cbn. intros n. unfold nid_ok. by rewrite E3, En.
  - apply (others_drop (blocks st) _ _ l); [done| |done]. intros b. by rewrite X13, Hd.
  - intros n a. rewrite En. apply X15.
Qed.
Lemma truncate_range_run st r l k n q A Ns : f2fs_compressed_file (shape (fi st)) = false -> i_compr_blocks (fi st) = 0 -> 0 <= extra_isize (fi st) -> arr st r = Some l -> (k + n <= length l)%nat ->
  match r with AtInode => q = 0 | AtNode nid => ofs_of_node <$> pages st !! nid = Some q end -> acct st (nonnull (take n (drop k l)) ++ A) Ns ->
  exists st', f2fs_truncate_data_blocks_range r (Z.of_nat k) (Z.of_nat n) st = Some (inr tt, st') /\ arr st' r = Some (take k l ++ replicate n NULL_ADDR ++ drop (k + n) l) /\ quiet st st' /\ elsewhere r st st' /\ acct st' A Ns /\
    (ext_log st' = ext_log st /\ nonnull (take n (drop k l)) = [] \/ ext_log st' = (f2fs_start_bidx_of_node q (shape (fi st)) + Z.of_nat k, 0, Z.of_nat n) :: ext_log st).
Proof.
  intros Hc Hcb He Hl Hk Hq Ha. unfold f2fs_truncate_data_blocks_range. msteps. rewrite Hcb, Z.eqb_refl, Nat2Z.id. destruct (range_loop n st r l k 0 0 0 Hc He (ac_bl _ _ _ _ Ha) Hl Hk (acct_taken _ _ _ _ Ha)) as (st1 & E & G1 & G2 & G3 & G4 & G5 & G6 & G7 & G8).
  rewrite (bind_ok _ _ _ _ _ E). clear E. msteps. rewrite Z.add_0_l. pose proof Ha as [X1 X2 X3 X4 X5 X6 X7 X8 X9 X10 X11 X12 X13 X14 X15]. rewrite length_app in X8, X10. destruct (Z.eqb_spec (lenZ (nonnull (take n (drop k l)))) 0) as [E0|E0].
  - assert (En : nonnull (take n (drop k l)) = []) by (apply nil_length_inv; lia). exists st1. split; [done|]. do 3 (split; [done|]). split; [|by left].
    apply (acct_drop st st1 (take n (drop k l)) A Ns Ha); try done; [apply G2|apply G2|apply G2|apply G2|rewrite G4; lia|by rewrite G4|rewrite G5; lia|by rewrite G4].
  - assert (Eq : node_ofs r st1 = Some (inr q, st1)).
    { unfold node_ofs. rewrite bind_get. destruct r as [|nid]; [by subst|]. destruct G3 as (_ & G3 & _). rewrite Hq in G3. by rewrite G3. }
    rewrite (bind_ok _ _ _ _ _ Eq). msteps. unfold f2fs_update_extent_cache_range. msteps.
    destruct (dec_blocks_run (with_ext st1 ((f2fs_start_bidx_of_node q (shape (fi st1)) + Z.of_nat k, 0, Z.of_nat n) :: ext_log st1)) (lenZ (nonnull (take n (drop k l)))) (o_blocks o + lenZ A + lenZ Ns) (o_iblocks o + 8 * (lenZ A + lenZ Ns))) as (st2 & E2 & [C1 C2 C3 C4 C5 C6 C7 C8] & D1 & D2 & D3); [lia..|cbn; rewrite G4; lia|cbn; rewrite G5; lia|cbn; by rewrite G4|].
    exists st2. split; [exact E2|]. cbn in C1, C2, C3, C4, C5, C6, C7, C8, D1, D2, D3. split; [|split; [|split; [|split; [|right]]]].
    + rewrite <-G1. destruct r; cbn; [by rewrite (sb_addr _ _ C1), (sb_extra _ _ C1)|by rewrite C2].
    + eapply quiet_steps; [exact G2|]. destruct C1. constructor; cbn in *; congruence.
    + eapply elsewhere_trans; [apply G2|exact G3|]. destruct r; cbn; [by rewrite C2, (sb_addr _ _ C1)|by rewrite C2, (sb_addr _ _ C1)].
    + apply (acct_drop st st2 (take n (drop k l)) A Ns Ha); try done; try (by rewrite ?C4, ?C5, ?C6, ?(sb_max _ _ C1), ?(sb_ino _ _ C1); apply G2); [by rewrite C4|intros b; by rewrite C4|congruence].
    + rewrite C3. by rewrite G6, (qu_shape _ _ G2).
Qed.
End range.

(** ** Nodes are removed (node.c: truncate_node, truncate_dnode, truncate_nodes)

    [evolve] describes what a step does to one subtree: the nodes of others stay, the subtree
    keeps its place, holds the addresses [fl], everything is owned and counted, and the extent
    cache was told. *)

Section cut.
Context {T : Type} `{BlockLaws T} (o : rest) (env : file_env) (i : node_inode) (Hi : inode_ok i) (Hplain : f2fs_compressed_file i = false).
Implicit Types (st : fsys T) (A Ns l fl : list Z) (h : nat).
Notation acct := (acct o).
Notation N := NIDS_PER_BLOCK.
Notation B := (addrs_per_block i).
Notation cap := (cap B).
Notation tree_flat := (tree_flat B).

Lemma block_fits : 0 < B <= DEF_ADDRS_PER_BLOCK.
Proof. pose proof (iok_block i Hi). split; [lia|]. unfold addrs_per_block. rewrite Hplain. cbn. lia. Qed.
(** The first block below a node, and that the children share it out. *)
Fixpoint start h (ofs : Z) : Z := match h with O => f2fs_start_bidx_of_node ofs i | S h' => start h' (child_ofs h ofs 0) end.
Fixpoint placed h (ofs : Z) : Prop := match h with O => True | S h' => forall k, 0 <= k < N -> placed h' (child_ofs h ofs k) /\ start h' (child_ofs h ofs k) = start h ofs + k * Z.of_nat (cap h') end.
(** An uncompressed file. *)
Record plain st : Prop := { pl_shape : shape (fi st) = i; pl_compr : i_compr_blocks (fi st) = 0; pl_extra : 0 <= extra_isize (fi st) }.
Lemma plain_stable st st' : plain st -> stable st st' -> plain st'.
Proof. intros [] []. constructor; congruence. Qed.

Record evolve A Ns h (ofs nid nid' : Z) fl st st' : Prop := {
  ev_stable : stable st st';
  ev_pages m : m ∈ Ns -> pages st' !! m = pages st !! m;
  ev_ok : tree_ok (pages st') h ofs nid';
  ev_flat : tree_flat (pages st') h nid' = fl;
  ev_acct : acct st' (nonnull fl ++ A) (tree_nids (pages st') h nid' ++ Ns);
  ev_out j : ~ (start h ofs <= j < start h ofs + Z.of_nat (cap h)) -> ext_view (ext_log st') j = ext_view (ext_log st) j;
  ev_in : mirror (ext_log st) (start h ofs) (tree_flat (pages st) h nid) -> mirror (ext_log st') (start h ofs) fl
}.
Definition owns A Ns h (ofs nid : Z) st : Prop := tree_ok (pages st) h ofs nid /\ acct st (nonnull (tree_flat (pages st) h nid) ++ A) (tree_nids (pages st) h nid ++ Ns).
Lemma evolve_refl A Ns h ofs nid st : owns A Ns h ofs nid st -> evolve A Ns h ofs nid nid (tree_flat (pages st) h nid) st st.
Proof. intros [Hok Ha]. by constructor. Qed.
Lemma evolve_trans A Ns h ofs nid nid1 nid2 fl1 fl2 st st1 st2 : evolve A Ns h ofs nid nid1 fl1 st st1 -> evolve A Ns h ofs nid1 nid2 fl2 st1 st2 -> evolve A Ns h ofs nid nid2 fl2 st st2.
Proof.
  intros [X1 X2 X3 X4 X5 X6 X7] [Y1 Y2 Y3 Y4 Y5 Y6 Y7]. constructor; try done.
  - by eapply stable_trans.
  - intros m Hm. rewrite Y2, X2; done.
  - intros j Hj. rewrite Y6, X6; done.
  - intros Hm. apply Y7. rewrite X4. by apply X7.
Qed.
Lemma evolve_owns A Ns h ofs nid nid' fl st st' : evolve A Ns h ofs nid nid' fl st st' -> owns A Ns h ofs nid' st'.
Proof. intros [X1 X2 X3 X4 X5 X6 X7]. split; [done|]. by rewrite X4. Qed.
(** A step that does nothing to what [evolve] looks at. *)
Lemma evolve_tick A Ns h ofs nid nid' fl st st' : evolve A Ns h ofs nid nid' fl st st' -> evolve A Ns h ofs nid nid' fl st (tick st').
Proof. intros [X1 X2 X3 X4 X5 X6 X7]. constructor; try done; [by destruct X1|by apply acct_tick]. Qed.
Lemma owns_plain_tick A Ns h ofs nid st : owns A Ns h ofs nid st -> owns A Ns h ofs nid (tick st).
Proof. intros [? ?]. split; [done|by apply acct_tick]. Qed.

(** ** One node *)

Lemma node_addr_set st nid e m : node_addr (with_nat st (<[nid := e]> (nat_tab st))) m = if decide (m = nid) then block_addr e else node_addr st m.
Proof. unfold node_addr, nat_entry_of. cbn. case_decide as E; [subst; by rewrite lookup_insert_eq|by rewrite lookup_insert_ne]. Qed.
Lemma truncate_node_run st nid A Ns : acct st A (nid :: Ns) ->
  exists st' r, truncate_node env nid st = Some (r, st') /\
    ((r = inr tt /\ acct st' A Ns /\ stable st st' /\ pages st' = delete nid (pages st) /\ ext_log st' = ext_log st) \/ (exists e, r = inl (Env e) /\ st' = tick st)).
Proof.
  intros Ha. pose proof Ha as [X1 X2 X3 X4 X5 X6 X7 X8 X9 X10 X11 X12 X13 X14 X15]. unfold truncate_node, f2fs_get_node_info. rewrite bind_bind. destruct (ask_run env Env st) as [E|(e & E)]; [|exists (tick st), (inl (Env e)); split; [by apply bind_err|right; by exists e]].
  rewrite (bind_ok _ _ _ _ _ E). msteps. apply list.Forall_cons in X3 as [(Hnid & Hnull & Hcomp) X3]. set (a := node_addr st nid) in *. change (block_addr (nat_entry_of (tick st) nid)) with a.
  assert (Hd : data_addrs st A (nid :: Ns) ≡ₚ filter (fun a => is_data_addr a = true) [a] ++ data_addrs st A Ns) by (unfold data_addrs; rewrite fmap_cons, <-list.filter_app; fold a; apply filter_Permutation; symmetry; apply (Permutation_middle A (node_addr st <$> Ns) a)).
  assert (Einv : exists s, bl_invalidate (blocks st) a = Some s /\ bl_ok s /\ forall b, bl_live s b <-> bl_live (blocks st) b /\ b <> a).
  { destruct (is_data_addr a) eqn:Ea; [apply bl_take; [done|]; apply X4; rewrite Hd, elem_of_app; left; apply list_elem_of_filter; split; [done|by left]|]. assert (a = NEW_ADDR) as Ena. { unfold is_data_addr in Ea. apply negb_false_iff in Ea. apply orb_true_iff in Ea as [[Ea%Z.eqb_eq|Ea%Z.eqb_eq]%orb_true_iff|Ea%Z.eqb_eq]; done. }
    exists (blocks st). rewrite Ena. split; [by apply bl_none|]. split; [done|]. intros b. split; [|tauto]. intros Hb. split; [done|]. intros ->. apply (bl_data _ _ X1) in Hb as [Hb _]. congruence. }
  destruct Einv as (s & Ei & Hs & Hl). unfold f2fs_invalidate_blocks at 1. unfold bind at 1. cbn [blocks tick]. rewrite Ei. cbn [mbind option_bind].
  destruct (dec_node_run (with_blocks (tick st) s) (o_blocks o + lenZ A + lenZ Ns) (o_nodes o + lenZ Ns) (o_iblocks o + 8 * (lenZ A + lenZ Ns))) as (st1 & E1 & [C1 C2 C3 C4 C5 C6 C7 C8] & D1 & D2 & D3); [lia..|cbn; rewrite X8; cbn; lia|cbn; rewrite X9; cbn; lia|cbn; rewrite X10; cbn; lia|done|].
  rewrite bind_get. assert (Hni : (nid =? ino (fi (with_blocks (tick st) s))) = false) by (apply Z.eqb_neq; cbn; intros ->; destruct X14 as [x X14]; apply X15 in X14 as [_ X14]; apply X14; by left). rewrite Hni.
  rewrite (bind_ok _ _ _ _ _ E1). cbn in C2, C3, C4, C5, C6, C7, D1, D2, D3. unfold set_node_addr. unfold bind at 1. assert (Een : nat_entry_of st1 nid = nat_entry_of st nid) by (unfold nat_entry_of; by rewrite C5). rewrite Een. fold (node_addr st nid). change (nat_entry_of (tick st) nid) with (nat_entry_of st nid). fold (node_addr st nid). fold a.
  pose proof nat_addrs as Hna. rewrite (proj2 (Z.eqb_neq a NULL_ADDR)), (proj2 (Z.eqb_neq NULL_ADDR NEW_ADDR)), !Z.eqb_refl by done. rewrite !andb_false_r. cbn [andb orb negb].
  eexists _, (inr tt). split; [reflexivity|]. left. split; [done|]. set (e' := {| ne_ino := _; block_addr := _; version := _ |}). split; [|split; [|split; [cbn; by rewrite C2|exact C3]]].
  2: { destruct C1. by constructor. }
  assert (Hnn : nid ∉ Ns /\ nid ∉ free_nids st) by (cbn in X6; apply list.NoDup_cons in X6 as [X6 _]; set_solver).
  assert (En : forall m, m <> nid -> node_addr (with_nat st1 (<[nid := e']> (nat_tab st1))) m = node_addr st m) by (intros m Hm; rewrite node_addr_set, decide_False by done; unfold node_addr, nat_entry_of; by rewrite C5).
  assert (Ed : data_addrs (with_nat st1 (<[nid := e']> (nat_tab st1))) A Ns = data_addrs st A Ns) by (unfold data_addrs; do 2 f_equal; apply list_fmap_ext; intros k m Hm; apply En; intros ->; apply (proj1 Hnn); by eapply list_elem_of_lookup_2).
  assert (X5' : NoDup (filter (fun a => is_data_addr a = true) [a] ++ data_addrs st A Ns)) by by rewrite <-Hd. apply list.NoDup_app in X5' as (_ & X5a & X5b).
  apply (acct_same o (with_nat st1 (<[nid := e']> (nat_tab st1)))); try done. constructor; rewrite ?Ed; cbn; rewrite ?C4, ?C6; try done.
  - rewrite list.Forall_forall in X3 |- *. intros m Hm. rewrite En by (intros ->; tauto). unfold nid_ok. cbn. rewrite (sb_max _ _ C1). by apply X3.
  - intros b Hb. apply Hl. split; [apply X4; rewrite Hd; set_solver|]. intros ->. apply (X5a a); [|done]. apply list_elem_of_filter. split; [by apply list_elem_of_filter in Hb as [? _]|by left].
  - by apply list.NoDup_cons in X6 as [_ X6].
  - rewrite list.Forall_forall in X7 |- *. intros m Hm. rewrite En by (intros ->; tauto). unfold nid_ok. cbn. rewrite (sb_max _ _ C1). by apply X7.
  - apply (others_drop (blocks st) _ _ [a]); [done|intros b; by rewrite X13, Hd|]. intros b. by rewrite Hl, list_elem_of_singleton.
  - by rewrite (sb_ino _ _ C1).
  - intros m b Hm. apply X15 in Hm as [Hm Hout]. cbn in Hout. apply not_elem_of_cons in Hout as [Hne Hout]. split; [by rewrite En|done].
Qed.

(** ** A direct node *)

Lemma nonnull_nulls n : nonnull (replicate n NULL_ADDR) = [].
Proof. induction n as [|n IH]; [done|]. unfold nonnull. cbn [replicate]. by rewrite filter_cons_False by tauto. Qed.
Lemma thinned_refl l : thinned l l.
Proof. induction l as [|a l IH]; constructor; [by left|done]. Qed.
Lemma thinned_nulls l : thinned l (replicate (length l) NULL_ADDR).
Proof. induction l as [|a l IH]; constructor; [by right|done]. Qed.
(** The extent cache after a range was emptied. *)
Lemma cut_out (log log' : list (Z * Z * Z)) s (n : nat) l j : log' = log /\ nonnull l = [] \/ log' = (s, 0, Z.of_nat n) :: log -> ~ (s <= j < s + Z.of_nat n) -> ext_view log' j = ext_view log j.
Proof. intros [[-> _]| ->] Hj; [done|]. cbn. destruct (Z.leb_spec s j), (Z.ltb_spec j (s + Z.of_nat n)); try done. lia. Qed.
Lemma cut_in (log log' : list (Z * Z * Z)) s l : log' = log /\ nonnull l = [] \/ log' = (s, 0, lenZ l) :: log -> mirror log s l -> mirror log' s (replicate (length l) NULL_ADDR).
Proof.
  intros Hl Hm k a [-> Hk]%lookup_replicate. assert (Hd : is_data_addr NULL_ADDR = false) by (unfold is_data_addr; rewrite (Z.eqb_refl NULL_ADDR), orb_true_r; done). rewrite Hd. destruct Hl as [[-> Hn]| ->].
  - destruct (lookup_lt_is_Some_2 l k Hk) as [a Ha]. specialize (Hm k a Ha). assert (a = NULL_ADDR) as -> by (destruct (decide (a = NULL_ADDR)) as [|Hne]; [done|]; exfalso; assert (Hin : a ∈ nonnull l) by (apply list_elem_of_filter; split; [done|by eapply list_elem_of_lookup_2]); rewrite Hn in Hin; set_solver). by rewrite Hd in Hm.
  - cbn. destruct (Z.leb_spec s (s + Z.of_nat k)), (Z.ltb_spec (s + Z.of_nat k) (s + lenZ l)); try lia. cbn. by rewrite null_zero.
Qed.
Lemma owns_page A Ns h ofs nid st : nid <> 0 -> owns A Ns h ofs nid st -> exists p, pages st !! nid = Some p /\ lenZ (words p) = page_words /\ ofs_of_node p = ofs /\ nid_ok st nid /\ nid ∉ Ns /\ nid ∉ free_nids st.
Proof.
  intros Hn [Hok Ha]. destruct (ok_page _ _ _ _ Hn Hok) as (p & Ep & Hl & Ho & _). exists p. do 3 (split; [done|]). pose proof (root_in (pages st) h nid Hn) as Hin. split.
  - pose proof (ac_nid _ _ _ _ Ha) as Hf. rewrite list.Forall_forall in Hf. apply Hf. set_solver.
  - pose proof (ac_nodes _ _ _ _ Ha) as Hd. rewrite <-app_assoc in Hd. apply list.NoDup_app in Hd as (_ & Hd & _). specialize (Hd nid Hin). set_solver.
Qed.
Definition cut_result (h : nat) A Ns (ofs nid : Z) st (ok : errno + Z -> Prop) (res : option ((errno + Z) * fsys T)) : Prop :=
  exists st' r, res = Some (r, st') /\
    ((ok r /\ evolve A Ns h ofs nid 0 (replicate (cap h) NULL_ADDR) st st') \/ (exists e fl, r = inl (Env e) /\ thinned (tree_flat (pages st) h nid) fl /\ evolve A Ns h ofs nid nid fl st st')).
Lemma truncate_dnode_run A Ns ofs nid st : nid <> 0 -> plain st -> owns A Ns 0 ofs nid st -> cut_result 0 A Ns ofs nid st (fun r => r = inr 1) (truncate_dnode env nid st).
Proof.
  intros Hn Hp Hw. destruct (owns_page _ _ _ _ _ _ Hn Hw) as (p & Ep & Hlen & Hofs & Hr & HnN & HnF). pose proof Hw as [Hok Ha]. unfold truncate_dnode. rewrite (proj2 (Z.eqb_neq _ _) Hn). pose proof block_fits as HB. pose proof words_fit as [_ HW].
  assert (Ef : tree_flat (pages st) 0 nid = take (Z.to_nat B) (words p)) by (by rewrite (flat_page B _ 0 nid p Hn Ep)). assert (Enid : forall P, tree_nids P 0 nid = [nid]) by (intros P; cbn; rewrite (proj2 (Z.eqb_neq _ _) Hn); by destruct (P !! nid)).
  destruct (get_page_run env st nid p Hr Ep) as [E|(e & E)]; rewrite (bind_catch _ _ _ _ _ E).
  2: { eexists _, _. split; [done|]. right. exists e, (tree_flat (pages st) 0 nid). split; [done|]. split; [apply thinned_refl|]. by apply evolve_tick, evolve_refl. }
  unfold f2fs_truncate_data_blocks. rewrite bind_bind. msteps. cbn [fi tick]. rewrite (pl_shape _ Hp).
  destruct (truncate_range_run o (tick st) (AtNode nid) (words p) 0 (Z.to_nat B) ofs A (nid :: Ns)) as (st1 & E1 & Harr & Q & W & Ha1 & Hx); cbn; [by rewrite (pl_shape _ Hp)|apply Hp|apply Hp|by rewrite Ep|lia|by rewrite Ep, <-Hofs|rewrite drop_0, <-Ef; apply acct_tick; by rewrite Enid in Ha|].
  rewrite Z2Nat.id in E1 by lia. change (Z.of_nat 0) with 0 in E1. rewrite (bind_ok _ _ _ _ _ E1). cbn [shape fi tick] in Hx. rewrite (pl_shape _ Hp), Z.add_0_r, drop_0, <-Ef in Hx. rewrite take_0, app_nil_l, Nat.add_0_l in Harr.
  assert (Elen : length (tree_flat (pages st) 0 nid) = cap 0) by (rewrite Ef, length_take; cbn [FileTree.cap]; lia). assert (Hst1 : stable st st1) by (destruct Q, W as (W1 & _); by constructor).
  assert (Hx' : ext_log st1 = ext_log st /\ nonnull (tree_flat (pages st) 0 nid) = [] \/ ext_log st1 = (start 0 ofs, 0, lenZ (tree_flat (pages st) 0 nid)) :: ext_log st) by (rewrite Elen; exact Hx). clear Hx.
  assert (Hpg : forall m, m ∈ Ns -> pages st1 !! m = pages st !! m) by (intros m Hm; destruct W as (_ & _ & W); apply W; by intros ->).
  destruct (truncate_node_run st1 nid A Ns Ha1) as (st2 & r & E2 & [(-> & Ha2 & Hst2 & Hpg2 & Hx2)|(e & -> & ->)]).
  - rewrite (bind_ok _ _ _ _ _ E2). exists st2, (inr 1). split; [done|]. left. split; [done|]. constructor.
    + by eapply stable_trans.
    + intros m Hm. rewrite Hpg2, lookup_delete_ne by (by intros ->). by apply Hpg.
    + apply ok_zero.
    + apply flat_zero.
    + by rewrite nonnull_nulls, nids_zero.
    + intros j Hj. rewrite Hx2. apply (cut_out _ _ (start 0 ofs) (cap 0) (tree_flat (pages st) 0 nid)); [by rewrite <-Elen|done].
    + rewrite Hx2, <-Elen. by apply cut_in.
  - rewrite (bind_err _ _ _ _ _ E2). eexists _, _. split; [done|]. right. exists e, (replicate (cap 0) NULL_ADDR). split; [done|]. split; [rewrite <-Elen; apply thinned_nulls|].
    cbn in Harr. destruct (pages st1 !! nid) as [p1|] eqn:Ep1; [|done]. injection Harr as Hw1. apply evolve_tick. constructor; try done.
    + right. exists p1. split; [done|]. split; [rewrite Hw1, length_app, length_replicate, length_drop; lia|]. split; [|done]. destruct W as (_ & W & _). cbn in W. rewrite Ep1, Ep in W. cbn in W. congruence.
    + rewrite (flat_page B _ 0 nid p1 Hn Ep1), Hw1. cbn [FileTree.cap]. rewrite take_app_length' by (by rewrite length_replicate). done.
    + by rewrite nonnull_nulls, Enid.
    + intros j Hj. apply (cut_out _ _ (start 0 ofs) (cap 0) (tree_flat (pages st) 0 nid)); [by rewrite <-Elen|done].
    + rewrite <-Elen. by apply cut_in.
Qed.

(** ** One child of an indirect node *)

Section child.
Context (A Ns : list Z) (h : nat) (ofs nid : Z) (p : node_page) (st : fsys T) (k : nat) (c : Z).
Context (Hn : nid <> 0) (Hw : owns A Ns (Datatypes.S h) ofs nid st) (Ep : pages st !! nid = Some p) (Hk : (k < Z.to_nat N)%nat) (Hc : words p !! k = Some c).
Notation W := (take (Z.to_nat N) (words p)).
Notation flats l := (concat (tree_flat (pages st) h <$> l)).
Notation nidss l := (concat (tree_nids (pages st) h <$> l)).
Definition sib_addrs : list Z := nonnull (flats (take k W) ++ flats (drop (Datatypes.S k) W)) ++ A.
Definition sib_nodes : list Z := nid :: nidss (take k W) ++ nidss (drop (Datatypes.S k) W) ++ Ns.
Notation cofs := (child_ofs (Datatypes.S h) ofs (Z.of_nat k)).

Lemma child_word : W !! k = Some c.
Proof. by apply lookup_take_Some. Qed.
Lemma words_long : length W = Z.to_nat N.
Proof. destruct (owns_page _ _ _ _ _ _ Hn Hw) as (p' & Ep' & Hl & _). rewrite Ep in Ep'. injection Ep' as <-. destruct words_fit. rewrite length_take. lia. Qed.
Lemma child_ok k' c' : (k' < Z.to_nat N)%nat -> words p !! k' = Some c' -> tree_ok (pages st) h (child_ofs (Datatypes.S h) ofs (Z.of_nat k')) c'.
Proof. destruct Hw as [Hok _]. destruct (ok_page _ _ _ _ Hn Hok) as (p' & Ep' & _ & _ & Hch). rewrite Ep in Ep'. injection Ep' as <-. apply Hch. Qed.
Lemma parent_flat : tree_flat (pages st) (Datatypes.S h) nid = flats (take k W) ++ tree_flat (pages st) h c ++ flats (drop (Datatypes.S k) W).
Proof. rewrite (flat_page B _ _ _ _ Hn Ep). apply chunks_split, child_word. Qed.
Lemma parent_nids : tree_nids (pages st) (Datatypes.S h) nid = nid :: nidss (take k W) ++ tree_nids (pages st) h c ++ nidss (drop (Datatypes.S k) W).
Proof. rewrite (nids_page _ _ _ _ Hn Ep). f_equal. apply chunks_split, child_word. Qed.
Lemma flats_length l k0 : (forall j d, l !! j = Some d -> W !! (k0 + j)%nat = Some d) -> length (flats l) = (length l * cap h)%nat.
Proof.
  revert k0. induction l as [|d l IH]; intros k0 Hl; [done|]. cbn [fmap list_fmap concat length]. rewrite length_app. fold (fmap (tree_flat (pages st) h) l). rewrite (IH (Datatypes.S k0)) by (intros j e He; replace (Datatypes.S k0 + j)%nat with (k0 + Datatypes.S j)%nat by lia; by apply Hl).
  pose proof (Hl 0%nat d eq_refl) as Hd. rewrite Nat.add_0_r in Hd. apply lookup_take_Some in Hd as [Hd Hlt]. rewrite (flat_length B block_fits _ _ _ _ (child_ok _ _ Hlt Hd)). cbn. lia.
Qed.
Lemma before_length : length (flats (take k W)) = (k * cap h)%nat.
Proof. rewrite (flats_length _ 0), length_take by (intros j d Hj; cbn; apply lookup_take_Some in Hj as [Hj _]; exact Hj). rewrite words_long. lia. Qed.
Lemma nodes_perm (x : list Z) : (nid :: nidss (take k W) ++ x ++ nidss (drop (Datatypes.S k) W)) ++ Ns ≡ₚ x ++ sib_nodes.
Proof. unfold sib_nodes. rewrite <-app_comm_cons, <-!app_assoc, (app_comm_cons (nidss (take k W)) _ nid), (app_comm_cons (nidss (take k W)) (nidss (drop (Datatypes.S k) W) ++ Ns) nid). apply Permutation_app_swap_app. Qed.
Lemma addrs_perm (fl : list Z) : nonnull (flats (take k W) ++ fl ++ flats (drop (Datatypes.S k) W)) ++ A ≡ₚ nonnull fl ++ sib_addrs.
Proof. unfold sib_addrs, nonnull. rewrite !list.filter_app, <-!app_assoc. apply Permutation_app_swap_app. Qed.
Lemma child_owns : owns sib_addrs sib_nodes h cofs c st.
Proof.
  split; [by apply child_ok|]. destruct Hw as [_ Ha]. by rewrite parent_flat, parent_nids, addrs_perm, nodes_perm in Ha.
Qed.
(** The siblings, when only [c] was worked on. *)
Lemma sibling_in k' c' m : k' <> k -> W !! k' = Some c' -> m ∈ tree_nids (pages st) h c' -> m ∈ sib_nodes.
Proof.
  intros Hne Hc' Hm. unfold sib_nodes. right. rewrite !elem_of_app. destruct (Nat.lt_ge_cases k' k); [left; apply (chunk_elem _ _ k' c'); [|done]; by apply lookup_take_Some|].
  right. left. apply (chunk_elem _ _ (k' - Datatypes.S k) c'); [|done]. rewrite lookup_drop. by replace (Datatypes.S k + (k' - Datatypes.S k))%nat with k' by lia.
Qed.
Lemma sibling_root k' c' : (k' < Z.to_nat N)%nat -> words p !! k' = Some c' -> nid ∉ tree_nids (pages st) h c'.
Proof. intros Hk' Hc'. apply (child_root_apart (pages st) h nid p k' c'); try done. destruct Hw as [_ Ha]. pose proof (ac_nodes _ _ _ _ Ha) as Hd. rewrite <-app_assoc in Hd. by apply list.NoDup_app in Hd as (Hd & _). Qed.

Context (Hpl : placed (Datatypes.S h) ofs).
Lemma child_start : start h cofs = start (Datatypes.S h) ofs + Z.of_nat (k * cap h).
Proof. destruct (Hpl (Z.of_nat k)) as [_ E]; [lia|]. rewrite E. lia. Qed.
(** The child evolves, and the parent's word follows. *)
Lemma child_step c' fl st1 : evolve sib_addrs sib_nodes h cofs c c' fl st st1 ->
  evolve A Ns (Datatypes.S h) ofs nid nid (flats (take k W) ++ fl ++ flats (drop (Datatypes.S k) W)) st (with_pages st1 (<[nid := {| words := <[k := c']> (words p); ofs_of_node := ofs_of_node p |}]> (pages st1))).
Proof.
  intros [X1 X2 X3 X4 X5 X6 X7]. set (p' := {| words := _; ofs_of_node := _ |}). set (P2 := <[nid := p']> (pages st1)). pose proof words_long as HWl.
  assert (Hnc' : nid ∉ tree_nids (pages st1) h c'). { pose proof (ac_nodes _ _ _ _ X5) as Hd. rewrite <-app_assoc in Hd. apply list.NoDup_app in Hd as (_ & Hd & _). intros Hin. apply (Hd nid Hin). unfold sib_nodes. set_solver. }
  assert (Hfc : forall m, m ∈ tree_nids (pages st1) h c' -> P2 !! m = pages st1 !! m) by (intros m Hm; unfold P2; rewrite lookup_insert_ne by (by intros ->); done).
  destruct (frame B (pages st1) P2 h c' Hfc) as [Ff Fn]. assert (Hfs : forall k' d, k' <> k -> W !! k' = Some d -> forall m, m ∈ tree_nids (pages st) h d -> P2 !! m = pages st !! m).
  { intros k' d Hne Hd m Hm. unfold P2. pose proof (sibling_in k' d m Hne Hd Hm) as Hin. pose proof Hd as [Hd' Hlt]%lookup_take_Some. rewrite lookup_insert_ne by (intros Em; apply (sibling_root k' d Hlt Hd'); by rewrite Em). by apply X2. }
  assert (Ep2 : P2 !! nid = Some p') by apply lookup_insert_eq. assert (HW' : take (Z.to_nat N) (words p') = <[k := c']> W) by (cbn; by rewrite take_insert_lt).
  assert (Eflat : tree_flat P2 (Datatypes.S h) nid = flats (take k W) ++ fl ++ flats (drop (Datatypes.S k) W)).
  { rewrite (flat_page B _ _ _ _ Hn Ep2), HW', (chunks_insert (tree_flat (pages st) h) _ W k c c' child_word); [by rewrite Ff, X4|]. intros k' d Hne Hd. by apply (frame B (pages st) P2 h d (Hfs k' d Hne Hd)). }
  assert (Enids : tree_nids P2 (Datatypes.S h) nid = nid :: nidss (take k W) ++ tree_nids (pages st1) h c' ++ nidss (drop (Datatypes.S k) W)).
  { rewrite (nids_page _ _ _ _ Hn Ep2). f_equal. rewrite HW', (chunks_insert (tree_nids (pages st) h) _ W k c c' child_word); [by rewrite Fn|]. intros k' d Hne Hd. by apply (frame B (pages st) P2 h d (Hfs k' d Hne Hd)). }
  assert (Hlf : length fl = cap h) by (rewrite <-X4; by apply (flat_length B block_fits _ _ cofs)). pose proof before_length as Hlb. pose proof child_start as Hcs.
  constructor.
  - destruct X1. by constructor.
  - intros m Hm. cbn. unfold P2. destruct (owns_page _ _ _ _ _ _ Hn Hw) as (_ & _ & _ & _ & _ & HnN & _). rewrite lookup_insert_ne by (by intros ->). apply X2. unfold sib_nodes. set_solver.
  - right. exists p'. split; [done|]. destruct (owns_page _ _ _ _ _ _ Hn Hw) as (p0 & Ep0 & Hl0 & Ho0 & _). rewrite Ep in Ep0. injection Ep0 as <-. split; [cbn; by rewrite length_insert|]. split; [done|].
    intros k' d Hlt Hd. cbn [words p'] in Hd. destruct (decide (k' = k)) as [->|Hne].
    + rewrite list_lookup_insert_eq in Hd by (by eapply lookup_lt_Some). injection Hd as <-. by apply (frame_ok (pages st1)).
    + rewrite list_lookup_insert_ne in Hd by done. apply (frame_ok (pages st)); [|by apply child_ok]. intros m Hm. apply (Hfs k' d); [done|by apply lookup_take_Some|done].
  - exact Eflat.
  - cbn [pages with_pages]. fold P2. rewrite Enids. rewrite addrs_perm, nodes_perm. by apply (acct_same o st1).
  - intros j Hj. apply X6. intros Hj'. apply Hj. rewrite Hcs in Hj'. cbn [FileTree.cap]. split; [lia|]. assert ((k * cap h + cap h <= Z.to_nat N * cap h)%nat) by nia. lia.
  - intros Hm. rewrite parent_flat in Hm. assert (Hmc : mirror (ext_log st) (start h cofs) (tree_flat (pages st) h c)).
    { intros j a Ha. rewrite Hcs. replace (start (Datatypes.S h) ofs + Z.of_nat (k * cap h) + Z.of_nat j) with (start (Datatypes.S h) ofs + Z.of_nat (k * cap h + j)) by lia. apply Hm. rewrite lookup_app_r by lia. rewrite lookup_app_l by (apply lookup_lt_Some in Ha; lia). rewrite <-Ha. f_equal. lia. }
    specialize (X7 Hmc). assert (Hlc : length (tree_flat (pages st) h c) = cap h) by (by apply (flat_length B block_fits _ _ cofs), child_ok).
    intros j a Ha. cbn [ext_log with_pages]. destruct (Nat.lt_ge_cases j (k * cap h)) as [Hj|Hj].
    + rewrite X6 by (rewrite Hcs; lia). apply Hm. rewrite lookup_app_l in Ha |- * by lia. done.
    + rewrite lookup_app_r in Ha by lia. destruct (Nat.lt_ge_cases j (k * cap h + cap h)) as [Hj2|Hj2].
      * rewrite lookup_app_l in Ha by lia. apply X7 in Ha. rewrite Hcs in Ha. rewrite <-Ha. f_equal. lia.
      * rewrite lookup_app_r in Ha by lia. rewrite X6 by (rewrite Hcs; lia). apply Hm. rewrite lookup_app_r, lookup_app_r by lia. rewrite Hlc, <-Hlf. done.
Qed.
(** The same when the word does not change. *)
Lemma child_step_same fl st1 : evolve sib_addrs sib_nodes h cofs c c fl st st1 -> evolve A Ns (Datatypes.S h) ofs nid nid (flats (take k W) ++ fl ++ flats (drop (Datatypes.S k) W)) st st1.
Proof.
  intros He. pose proof (child_step c fl st1 He) as Hs. assert (E : with_pages st1 (<[nid := {| words := <[k := c]> (words p); ofs_of_node := ofs_of_node p |}]> (pages st1)) = st1); [|by rewrite E in Hs].
  rewrite list_insert_id by done. rewrite insert_id; [by destruct st1|]. rewrite (ev_pages _ _ _ _ _ _ _ _ _ He nid) by (unfold sib_nodes; set_solver). rewrite Ep. by destruct p.
Qed.
End child.

(** ** The children of an indirect node, one after the other *)

Lemma get_nid_run st nid p k c : pages st !! nid = Some p -> words p !! k = Some c -> get_nid (AtNode nid) (Z.of_nat k) st = Some (inr c, st).
Proof. intros Ep Hc. unfold get_nid. rewrite bind_get, Ep. cbn [mbind option_bind]. unfold at_word. destruct (Z.ltb_spec (Z.of_nat k) 0); [lia|]. by rewrite Nat2Z.id, Hc. Qed.
Lemma set_nid_run st nid p k c v : pages st !! nid = Some p -> words p !! k = Some c -> set_nid (AtNode nid) (Z.of_nat k) v st = Some (inr tt, with_pages st (<[nid := {| words := <[k := v]> (words p); ofs_of_node := ofs_of_node p |}]> (pages st))).
Proof. intros Ep Hc. unfold set_nid, put_word, at_word. rewrite Ep. cbn [mbind option_bind]. destruct (Z.ltb_spec (Z.of_nat k) 0); [lia|]. by rewrite Nat2Z.id, Hc. Qed.
Lemma thinned_app l1 l1' l2 l2' : thinned l1 l1' -> thinned l2 l2' -> thinned (l1 ++ l2) (l1' ++ l2').
Proof. apply Forall2_app. Qed.
Lemma thinned_trans l1 l2 l3 : thinned l1 l2 -> thinned l2 l3 -> thinned l1 l3.
Proof. intros Ht. revert l3. induction Ht as [|a b l1 l2 Hab Ht IH]; intros l3 Ht3; inversion Ht3; subst; constructor; [naive_solver congruence|by apply IH]. Qed.
Notation nulls n := (replicate n NULL_ADDR).

Section slots.
Context (A Ns : list Z) (h : nat) (ofs nid : Z) (Hn : nid <> 0) (Hpl : placed (Datatypes.S h) ofs).
Notation own := (owns A Ns (Datatypes.S h) ofs nid).
Notation evo := (evolve A Ns (Datatypes.S h) ofs nid nid).
Notation flat st := (tree_flat (pages st) (Datatypes.S h) nid).
(** What a slot that was worked on may be: emptied, or some of it and an error. *)
Definition slot_cut (k : nat) (st : fsys T) (p : node_page) (res : option ((errno + unit) * fsys T)) : Prop :=
  (exists st1, res = Some (inr tt, st1) /\ evo (take (k * cap h) (flat st) ++ nulls (cap h) ++ drop ((k + 1) * cap h) (flat st)) st st1 /\ (exists p1, pages st1 !! nid = Some p1 /\ words p1 = <[k := 0]> (words p))) \/
  (exists e st1 fl, res = Some (inl (Env e), st1) /\ thinned (flat st) fl /\ take (k * cap h) fl = take (k * cap h) (flat st) /\ evo fl st st1).
Lemma slot_flat st p k c : own st -> pages st !! nid = Some p -> (k < Z.to_nat N)%nat -> words p !! k = Some c ->
  concat (tree_flat (pages st) h <$> take k (take (Z.to_nat N) (words p))) = take (k * cap h) (flat st) /\
  concat (tree_flat (pages st) h <$> drop (Datatypes.S k) (take (Z.to_nat N) (words p))) = drop ((k + 1) * cap h) (flat st) /\ length (tree_flat (pages st) h c) = cap h.
Proof.
  intros Hw Ep Hk Hc. rewrite (parent_flat h nid p st k c Hn Ep Hk Hc). pose proof (before_length A Ns h ofs nid p st k Hn Hw Ep Hk) as Hb. pose proof (flat_length B block_fits _ _ _ _ (child_ok A Ns h ofs nid p st Hn Hw Ep k c Hk Hc)) as Hl.
  split; [|split; [|done]]; [by rewrite take_app_length'|]. rewrite app_assoc, drop_app_length'; [done|]. rewrite length_app. lia.
Qed.
(** A slot that is free already. *)
Lemma slot_free st p k : own st -> pages st !! nid = Some p -> (k < Z.to_nat N)%nat -> words p !! k = Some 0 -> slot_cut k st p (Some (inr tt, st)).
Proof.
  intros Hw Ep Hk Hc. left. exists st. split; [done|]. destruct (slot_flat st p k 0 Hw Ep Hk Hc) as (E1 & E2 & _). split.
  - rewrite <-E1, <-E2, <-(flat_zero B (pages st) h), <-(parent_flat h nid p st k 0 Hn Ep Hk Hc). by apply evolve_refl.
  - exists p. split; [done|]. by rewrite list_insert_id.
Qed.
Lemma slot_kill st p k c okr (kill : M (S := T) Z) : own st -> pages st !! nid = Some p -> (k < Z.to_nat N)%nat -> words p !! k = Some c ->
  cut_result h (sib_addrs A h p st k) (sib_nodes Ns h nid p st k) (child_ofs (Datatypes.S h) ofs (Z.of_nat k)) c st okr (kill st) ->
  exists st1 r, kill st = Some (r, st1) /\ ((okr r /\ slot_cut k st p (set_nid (AtNode nid) (Z.of_nat k) 0 st1)) \/ (exists e, r = inl (Env e) /\ slot_cut k st p (Some (inl (Env e), st1)))).
Proof.
  intros Hw Ep Hk Hc (st1 & r & E & [[Hok He]|(e & fl & -> & Ht & He)]); exists st1; destruct (slot_flat st p k c Hw Ep Hk Hc) as (E1 & E2 & E3).
  - exists r. split; [done|]. left. split; [done|]. assert (Ep1 : pages st1 !! nid = Some p) by (rewrite (ev_pages _ _ _ _ _ _ _ _ _ He) by (unfold sib_nodes; set_solver); done). rewrite (set_nid_run st1 nid p k c 0 Ep1 Hc).
    left. eexists. split; [done|]. split; [|eexists; split; [cbn; apply lookup_insert_eq|done]]. rewrite <-E1, <-E2. by apply (child_step A Ns h ofs nid p st k c Hn Hw Ep Hk Hc Hpl).
  - exists (inl (Env e)). split; [done|]. right. exists e. split; [done|]. right. exists e, st1, (take (k * cap h) (flat st) ++ fl ++ drop ((k + 1) * cap h) (flat st)). split; [done|].
    rewrite <-E1, <-E2. split; [|split; [|by apply (child_step_same A Ns h ofs nid p st k c Hn Hw Ep Hk Hc Hpl)]].
    + rewrite (parent_flat h nid p st k c Hn Ep Hk Hc). apply thinned_app; [apply thinned_refl|]. apply thinned_app; [done|apply thinned_refl].
    + pose proof (before_length A Ns h ofs nid p st k Hn Hw Ep Hk) as Hb. by rewrite take_app_length'.
Qed.
(** The loop from slot [k] to the end, if each slot is worked on like that. *)
Definition slots_cut {X} (k : nat) (st : fsys T) (p : node_page) (res : option ((errno + X) * fsys T)) : Prop :=
  (exists st1 x, res = Some (inr x, st1) /\ evo (take (k * cap h) (flat st) ++ nulls ((Z.to_nat N - k) * cap h)) st st1 /\
     (exists p1, pages st1 !! nid = Some p1 /\ (forall j, (k <= j < Z.to_nat N)%nat -> words p1 !! j = Some 0) /\ forall j, (j < k)%nat -> words p1 !! j = words p !! j)) \/
  (exists e st1 fl, res = Some (inl (Env e), st1) /\ thinned (flat st) fl /\ take (k * cap h) fl = take (k * cap h) (flat st) /\ evo fl st st1).

(** A slot is done and the loop goes on. *)
Lemma slots_next {X} k st p c st1 p1 (res : option ((errno + X) * fsys T)) : own st -> pages st !! nid = Some p -> (k < Z.to_nat N)%nat ->
  evo (take (k * cap h) (flat st) ++ nulls (cap h) ++ drop ((k + 1) * cap h) (flat st)) st st1 -> pages st1 !! nid = Some p1 -> words p1 = <[k := 0]> (words p) ->
  words p !! k = Some c -> slots_cut (Datatypes.S k) st1 p1 res -> slots_cut k st p res.
Proof.
  intros Hw Ep Hk He Ep1 Hw1 Hc Hres. pose proof (proj1 Hw) as Hok. pose proof (flat_length B block_fits _ _ _ _ Hok) as HL. cbn [FileTree.cap] in HL. pose proof (ev_flat _ _ _ _ _ _ _ _ _ He) as Ef. assert (Hka : (k * cap h + cap h <= Z.to_nat N * cap h)%nat) by nia.
  destruct Hres as [(st2 & x & -> & He2 & p2 & Ep2 & Hz & Hb)|(e & st2 & fl & -> & Ht & Hfl & He2)].
  - left. exists st2, x. split; [done|]. split.
    + replace (take (k * cap h) (flat st) ++ nulls ((Z.to_nat N - k) * cap h)) with (take (Datatypes.S k * cap h) (flat st1) ++ nulls ((Z.to_nat N - Datatypes.S k) * cap h)); [by eapply evolve_trans|].
      rewrite Ef. rewrite app_assoc, take_app_length' by (rewrite length_app, length_take, length_replicate; lia). rewrite <-app_assoc, <-replicate_add. do 2 f_equal. nia.
    + exists p2. split; [done|]. split; intros j Hj; [destruct (decide (j = k)) as [->|]; [rewrite Hb, Hw1 by lia; apply list_lookup_insert_eq; by eapply lookup_lt_Some|apply Hz; lia]|]. rewrite Hb, Hw1, list_lookup_insert_ne by lia. done.
  - right. exists e, st2, fl. split; [done|]. split; [|split; [|by eapply evolve_trans]].
    + eapply thinned_trans; [|exact Ht]. rewrite Ef. rewrite <-(take_drop (k * cap h) (flat st)) at 1. apply thinned_app; [apply thinned_refl|]. rewrite <-(take_drop (cap h) (drop (k * cap h) (flat st))) at 1. apply thinned_app.
      * pose proof (thinned_nulls (take (cap h) (drop (k * cap h) (flat st)))) as Ht2. rewrite length_take, length_drop, Nat.min_l in Ht2 by lia. exact Ht2.
      * rewrite drop_drop. replace (k * cap h + cap h)%nat with ((k + 1) * cap h)%nat by lia. apply thinned_refl.
    + assert (Hk1 : take (k * cap h) (take (Datatypes.S k * cap h) fl) = take (k * cap h) (take (Datatypes.S k * cap h) (flat st1))) by (by rewrite Hfl). rewrite !take_take, !Nat.min_l in Hk1 by nia. rewrite Hk1, Ef, take_app_length' by (rewrite length_take; lia). done.
Qed.

Lemma slots_done {X} (x : X) st p : own st -> pages st !! nid = Some p -> slots_cut (Z.to_nat N) st p (Some (inr x, st)).
Proof.
  intros Hw Ep. left. exists st, x. split; [done|]. split; [|exists p; split; [done|split; intros; [lia|done]]]. rewrite Nat.sub_diag, app_nil_r, firstn_all2 by (pose proof (flat_length B block_fits _ _ _ _ (proj1 Hw)) as HL; cbn [FileTree.cap] in HL; lia). by apply evolve_refl.
Qed.
Lemma slots_bind {X} (m : M unit) (f : M (S := T) X) k st p c : own st -> plain st -> pages st !! nid = Some p -> (k < Z.to_nat N)%nat -> words p !! k = Some c -> slot_cut k st p (m st) ->
  (forall st1 p1, own st1 -> plain st1 -> pages st1 !! nid = Some p1 -> slots_cut (Datatypes.S k) st1 p1 (f st1)) -> slots_cut k st p (bind m (fun _ => f) st).
Proof.
  intros Hw Hp Ep Hk Hc [(st1 & E & He & p1 & Ep1 & Hw1)|(e & st1 & fl & E & Ht & Hfl & He)] Hf.
  - rewrite (bind_ok _ _ _ _ _ E). apply (slots_next k st p c st1 p1); try done. apply Hf; [by eapply evolve_owns|by eapply plain_stable, He|done].
  - rewrite (bind_err _ _ _ _ _ E). right. by exists e, st1, fl.
Qed.
Lemma own_word st p k : own st -> pages st !! nid = Some p -> (k < Z.to_nat N)%nat -> exists c, words p !! k = Some c.
Proof. intros Hw Ep Hk. destruct (owns_page _ _ _ _ _ _ Hn Hw) as (p' & Ep' & Hl & _). rewrite Ep in Ep'. injection Ep' as <-. destruct words_fit. destruct (lookup_lt_is_Some_2 (words p) k) as [c ?]; [lia|by exists c]. Qed.
End slots.

Lemma clear_dnodes_run A Ns ofs nid n : nid <> 0 -> placed 1 ofs -> forall k st p, owns A Ns 1 ofs nid st -> plain st -> pages st !! nid = Some p -> (k + n)%nat = Z.to_nat N ->
  slots_cut A Ns 0 ofs nid k st p (clear_dnodes env nid (seqZ (Z.of_nat k) (Z.of_nat n)) st).
Proof.
  intros Hn Hpl. induction n as [|n IH]; intros k st p Hw Hp Ep Hk; [rewrite Nat.add_0_r in Hk; subst k; by apply slots_done|]. rewrite seqZ_cons by lia. replace (Z.succ (Z.of_nat k)) with (Z.of_nat (Datatypes.S k)) by lia. replace (Z.pred (Z.of_nat (Datatypes.S n))) with (Z.of_nat n) by lia.
  assert (Hlt : (k < Z.to_nat N)%nat) by lia. destruct (own_word A Ns 0 ofs nid Hn st p k Hw Ep Hlt) as [c Hc]. cbn [clear_dnodes]. rewrite (bind_ok _ _ _ _ _ (get_nid_run st nid p k c Ep Hc)). destruct (Z.eqb_spec c 0) as [->|Hc0].
  - change (clear_dnodes env nid ?l st) with (bind (ret tt) (fun _ => clear_dnodes env nid l) st). apply (slots_bind A Ns 0 ofs nid (ret tt) _ k st p 0); try done; [by apply slot_free|]. intros st1 p1 Hw1 Hp1 Ep1. apply IH; try done. lia.
  - rewrite <-bind_bind. apply (slots_bind A Ns 0 ofs nid (bind (truncate_dnode env c) (fun _ => set_nid (AtNode nid) (Z.of_nat k) 0)) _ k st p c); try done.
    + destruct (slot_kill A Ns 0 ofs nid Hn Hpl st p k c (fun r => r = inr 1) (truncate_dnode env c) Hw Ep Hlt Hc) as (st1 & r & E & [[-> Hs]|(e & -> & Hs)]); [apply truncate_dnode_run; [done|done|by apply child_owns]|..].
      * by rewrite (bind_ok _ _ _ _ _ E).
      * by rewrite (bind_err _ _ _ _ _ E).
    + intros st1 p1 Hw1 Hp1 Ep1. apply IH; try done. lia.
Qed.
(** [kill] removes a subtree of height [h]. *)
Definition kills (h : nat) (kill : Z -> Z -> M (S := T) Z) : Prop :=
  forall A Ns ofs nid st nofs, nid <> 0 -> plain st -> placed h ofs -> owns A Ns h ofs nid st -> cut_result h A Ns ofs nid st (fun r => r = inr (N + 1)) (kill nid nofs st).
Lemma clear_nodes_run kill h A Ns ofs nid n : kills h kill -> nid <> 0 -> placed (Datatypes.S h) ofs -> forall k st p nofs, owns A Ns (Datatypes.S h) ofs nid st -> plain st -> pages st !! nid = Some p -> (k + n)%nat = Z.to_nat N ->
  slots_cut A Ns h ofs nid k st p (clear_nodes kill nid (seqZ (Z.of_nat k) (Z.of_nat n)) nofs st).
Proof.
  intros Hkill Hn Hpl. induction n as [|n IH]; intros k st p nofs Hw Hp Ep Hk; [rewrite Nat.add_0_r in Hk; subst k; by apply slots_done|]. rewrite seqZ_cons by lia. replace (Z.succ (Z.of_nat k)) with (Z.of_nat (Datatypes.S k)) by lia. replace (Z.pred (Z.of_nat (Datatypes.S n))) with (Z.of_nat n) by lia.
  assert (Hlt : (k < Z.to_nat N)%nat) by lia. destruct (own_word A Ns h ofs nid Hn st p k Hw Ep Hlt) as [c Hc]. cbn [clear_nodes]. rewrite (bind_ok _ _ _ _ _ (get_nid_run st nid p k c Ep Hc)). destruct (Z.eqb_spec c 0) as [->|Hc0].
  - change (clear_nodes kill nid ?l ?q st) with (bind (ret tt) (fun _ => clear_nodes kill nid l q) st). apply (slots_bind A Ns h ofs nid (ret tt) _ k st p 0); try done; [by apply slot_free|]. intros st1 p1 Hw1 Hp1 Ep1. apply IH; try done. lia.
  - destruct (slot_kill A Ns h ofs nid Hn Hpl st p k c (fun r => r = inr (N + 1)) (kill c nofs) Hw Ep Hlt Hc) as (st1 & r & E & [[-> Hs]|(e & -> & Hs)]).
    + apply Hkill; [done|done| |by apply child_owns]. apply (Hpl (Z.of_nat k)). lia.
    + rewrite (bind_catch _ _ _ _ _ E), Z.eqb_refl. destruct Hs as [(st2 & E2 & He & p2 & Ep2 & Hw2)|(e & st2 & fl & E2 & _)]; [|exfalso; unfold set_nid in E2; destruct (pages st1 !! nid) as [q|]; [|done]; cbn [mbind option_bind] in E2; by destruct (put_word (words q) (Z.of_nat k) 0)].
      rewrite (bind_ok _ _ _ _ _ E2). apply (slots_next A Ns h ofs nid k st p c st2 p2); try done. apply IH; [by eapply evolve_owns|by eapply plain_stable, He|done|lia].
    + rewrite (bind_catch _ _ _ _ _ E). destruct Hs as [(st2 & E2 & _)|(e' & st2 & fl & [= -> ->] & Ht & Hfl & He)]; [done|]. right. by exists e', st2, fl.
Qed.

(** ** Indirect nodes *)

(** An indirect node without children goes. *)
Lemma finish_node A Ns h ofs nid st st1 p1 : nid <> 0 -> owns A Ns (Datatypes.S h) ofs nid st -> evolve A Ns (Datatypes.S h) ofs nid nid (nulls (cap (Datatypes.S h))) st st1 -> pages st1 !! nid = Some p1 -> (forall j, (j < Z.to_nat N)%nat -> words p1 !! j = Some 0) ->
  exists st2 r, truncate_node env nid st1 = Some (r, st2) /\ ((r = inr tt /\ evolve A Ns (Datatypes.S h) ofs nid 0 (nulls (cap (Datatypes.S h))) st st2) \/ (exists e, r = inl (Env e) /\ evolve A Ns (Datatypes.S h) ofs nid nid (nulls (cap (Datatypes.S h))) st st2)).
Proof.
  intros Hn Hw He Ep1 Hz. assert (Enids : tree_nids (pages st1) (Datatypes.S h) nid = [nid]).
  { rewrite (nids_page _ _ _ _ Hn Ep1). f_equal. assert (Hall : forall c, c ∈ take (Z.to_nat N) (words p1) -> c = 0) by (intros c (j & Hj)%list_elem_of_lookup; apply lookup_take_Some in Hj as [Hj Hlt]; rewrite Hz in Hj by done; congruence).
    clear -Hall. induction (take (Z.to_nat N) (words p1)) as [|c l IH]; [done|]. cbn. rewrite (Hall c) by (by left). rewrite nids_zero. apply IH. intros d Hd. apply Hall. by right. }
  pose proof (ev_acct _ _ _ _ _ _ _ _ _ He) as Ha. rewrite nonnull_nulls, Enids in Ha. destruct (owns_page _ _ _ _ _ _ Hn Hw) as (_ & _ & _ & _ & _ & HnN & _).
  destruct (truncate_node_run st1 nid A Ns Ha) as (st2 & r & E & [(-> & Ha2 & Hst & Hpg & Hx)|(e & -> & ->)]); eexists _, _; (split; [exact E|]); [left|right; exists e]; (split; [done|]); [|by apply evolve_tick].
  destruct He as [X1 X2 X3 X4 X5 X6 X7]. constructor.
  - by eapply stable_trans.
  - intros m Hm. rewrite Hpg, lookup_delete_ne by (by intros ->). by apply X2.
  - apply ok_zero.
  - apply flat_zero.
  - by rewrite nonnull_nulls, nids_zero.
  - intros j Hj. rewrite Hx. by apply X6.
  - rewrite Hx. exact X7.
Qed.
(** [truncate_nodes] from slot [k] on; from slot 0 the node goes too. *)
Definition nodes_cut (h k : nat) A Ns (ofs nid : Z) st (okr : errno + Z -> Prop) (res : option ((errno + Z) * fsys T)) : Prop :=
  exists st' r, res = Some (r, st') /\
    ((okr r /\ evolve A Ns h ofs nid (if (k =? 0)%nat then 0 else nid) (take k (tree_flat (pages st) h nid) ++ nulls (cap h - k)) st st') \/
     (exists e fl, r = inl (Env e) /\ thinned (tree_flat (pages st) h nid) fl /\ take k fl = take k (tree_flat (pages st) h nid) /\ evolve A Ns h ofs nid nid fl st st')).
Lemma nodes_body {X} (loop : M (S := T) X) (freed : X -> Z) (good : X -> Prop) h k A Ns ofs nid st : nid <> 0 -> plain st -> owns A Ns (Datatypes.S h) ofs nid st -> (k <= Z.to_nat N)%nat ->
  (forall p, pages st !! nid = Some p -> slots_cut A Ns h ofs nid k (tick st) p (loop (tick st))) -> (forall x st1, loop (tick st) = Some (inr x, st1) -> good x) ->
  nodes_cut (Datatypes.S h) (k * cap h) A Ns ofs nid st (fun r => exists x, good x /\ r = inr (if (k =? 0)%nat then freed x + 1 else freed x))
    ((f2fs_get_node_page env nid;; x <- loop;; if Z.of_nat k =? 0 then truncate_node env nid;; ret (freed x + 1) else ret (freed x)) st).
Proof.
  intros Hn Hp Hw Hk Hloop Hgood. destruct (owns_page _ _ _ _ _ _ Hn Hw) as (p & Ep & _ & _ & Hr & _). assert (Hcap : cap h <> 0%nat). { pose proof block_fits. pose proof nids_range. clear -H4 H5. induction h as [|h IH]; cbn [FileTree.cap]; lia. }
  destruct (get_page_run env st nid p Hr Ep) as [E|(e & E)].
  2: { rewrite (bind_err _ _ _ _ _ E). eexists _, _. split; [done|]. right. exists e, (tree_flat (pages st) (Datatypes.S h) nid). split; [done|]. split; [apply thinned_refl|]. split; [done|]. by apply evolve_tick, evolve_refl. }
  rewrite (bind_ok _ _ _ _ _ E). assert (Hkz : (k * cap h =? 0)%nat = (Z.of_nat k =? 0)) by (destruct (Z.eqb_spec (Z.of_nat k) 0), (Nat.eqb_spec (k * cap h) 0); try done; lia). assert (Hkz' : (k =? 0)%nat = (Z.of_nat k =? 0)) by (destruct (Z.eqb_spec (Z.of_nat k) 0), (Nat.eqb_spec k 0); try done; lia).
  unfold nodes_cut. rewrite Hkz. setoid_rewrite Hkz'. clear Hkz Hkz'. assert (Htick : forall nid' fl st', evolve A Ns (Datatypes.S h) ofs nid nid' fl (tick st) st' -> evolve A Ns (Datatypes.S h) ofs nid nid' fl st st') by (intros nid' fl st' [X1 X2 X3 X4 X5 X6 X7]; constructor; try done; by destruct X1).
  destruct (Hloop p Ep) as [(st1 & x & E1 & He & p1 & Ep1 & Hz & _)|(e & st1 & fl & E1 & Ht & Hfl & He)]; change (pages (tick st)) with (pages st) in *.
  - pose proof (Hgood x st1 E1) as Hx. rewrite (bind_ok _ _ _ _ _ E1). apply Htick in He. replace ((Z.to_nat N - k) * cap h)%nat with (cap (Datatypes.S h) - k * cap h)%nat in He by (cbn [FileTree.cap]; nia). destruct (Z.eqb_spec (Z.of_nat k) 0) as [Ek|Ek]; [|eexists _, _; split; [done|]; left; split; [by exists x|done]].
    assert (k = 0%nat) as -> by lia. rewrite take_0, app_nil_l, Nat.sub_0_r in *. destruct (finish_node A Ns h ofs nid st st1 p1 Hn Hw He Ep1) as (st2 & r & E2 & [(-> & He2)|(e & -> & He2)]); [intros j Hj; apply Hz; lia|..].
    + rewrite (bind_ok _ _ _ _ _ E2). eexists _, _. split; [done|]. left. split; [by exists x|done].
    + rewrite (bind_err _ _ _ _ _ E2). eexists _, _. split; [done|]. right. exists e, (nulls (cap (Datatypes.S h))). split; [done|]. split; [|split; [by rewrite !take_0|done]]. rewrite <-(flat_length B block_fits _ _ _ _ (proj1 Hw)). apply thinned_nulls.
  - rewrite (bind_err _ _ _ _ _ E1). eexists _, _. split; [done|]. right. exists e, fl. split; [done|]. split; [done|]. split; [done|]. by apply Htick.
Qed.
(** The loop, at depth 2 and 3. *)
Lemma truncate_nodes2_run k A Ns ofs nid st nofs : nid <> 0 -> plain st -> placed 1 ofs -> owns A Ns 1 ofs nid st -> (k <= Z.to_nat N)%nat ->
  nodes_cut 1 (k * cap 0) A Ns ofs nid st (fun r => r = inr (if (k =? 0)%nat then N + 1 else N - Z.of_nat k)) (truncate_nodes env 2 nid nofs (Z.of_nat k) st).
Proof.
  intros Hn Hp Hpl Hw Hk. cbn [truncate_nodes]. rewrite (proj2 (Z.eqb_neq _ _) Hn). change (2 <? 3)%nat with true. cbv iota.
  destruct (nodes_body (clear_dnodes env nid (seqZ (Z.of_nat k) (N - Z.of_nat k));; ret (N - Z.of_nat k)) id (fun x => x = N - Z.of_nat k) 0 k A Ns ofs nid st Hn Hp Hw Hk) as (st' & r & E & Hr).
  - intros p Ep. assert (Hs : slots_cut A Ns 0 ofs nid k (tick st) p (clear_dnodes env nid (seqZ (Z.of_nat k) (N - Z.of_nat k)) (tick st))).
    { replace (N - Z.of_nat k) with (Z.of_nat (Z.to_nat N - k)) by (pose proof nids_range; lia). apply clear_dnodes_run; try done; [by apply owns_plain_tick|by constructor; apply Hp|lia]. }
    destruct Hs as [(st1 & x & E & He & Hz)|(e & st1 & fl & E & Ht)]; [left; exists st1, (N - Z.of_nat k)|right; exists e, st1, fl]; by rewrite ?(bind_ok _ _ _ _ _ E), ?(bind_err _ _ _ _ _ E).
  - intros x st1. unfold bind. destruct (clear_dnodes _ _ _ _) as [[[]]|]; try done. by intros [= <- _].
  - exists st', r. split; [exact E|]. destruct Hr as [[(x & -> & ->) He]|Hr]; [left|by right]. split; [|done]. cbn [id]. destruct (Nat.eqb_spec k 0); do 2 f_equal; lia.
Qed.
Lemma kills_nodes2 : kills 1 (fun c n => truncate_nodes env 2 c n 0).
Proof.
  intros A Ns ofs nid st nofs Hn Hp Hpl Hw. pose proof nids_range. destruct (truncate_nodes2_run 0 A Ns ofs nid st nofs Hn Hp Hpl Hw) as (st' & r & E & Hr); [lia|]. exists st', r. split; [exact E|].
  destruct Hr as [[-> He]|(e & fl & -> & Ht & _ & He)]; [left; by rewrite Nat.sub_0_r in He|right; by exists e, fl].
Qed.
Lemma truncate_nodes3_run k A Ns ofs nid st nofs : nid <> 0 -> plain st -> placed 2 ofs -> owns A Ns 2 ofs nid st -> (k <= Z.to_nat N)%nat ->
  nodes_cut 2 (k * cap 1) A Ns ofs nid st (fun r => exists n, r = inr n) (truncate_nodes env 3 nid nofs (Z.of_nat k) st).
Proof.
  intros Hn Hp Hpl Hw Hk. change (truncate_nodes env 3 nid nofs (Z.of_nat k) st) with ((if nid =? 0 then ret (N + 1) else f2fs_get_node_page env nid;; freed <- clear_nodes (fun c n => truncate_nodes env 2 c n 0) nid (seqZ (Z.of_nat k) (N - Z.of_nat k)) (nofs + Z.of_nat k * (N + 1) + 1);; if Z.of_nat k =? 0 then truncate_node env nid;; ret (freed + 1) else ret freed) st). rewrite (proj2 (Z.eqb_neq _ _) Hn).
  destruct (nodes_body (clear_nodes (fun c n => truncate_nodes env 2 c n 0) nid (seqZ (Z.of_nat k) (N - Z.of_nat k)) (nofs + Z.of_nat k * (N + 1) + 1)) id (fun _ => True) 1 k A Ns ofs nid st Hn Hp Hw Hk) as (st' & r & E & Hr); [|done|].
  - intros p Ep. replace (N - Z.of_nat k) with (Z.of_nat (Z.to_nat N - k)) by (pose proof nids_range; lia). apply clear_nodes_run; try done; [apply kills_nodes2|by apply owns_plain_tick|by constructor; apply Hp|lia].
  - exists st', r. split; [exact E|]. destruct Hr as [[(x & _ & ->) He]|Hr]; [left|by right]. split; [by eexists|done].
Qed.
End cut.
