(* ===== verification/FileTrunc.v ===== *)
(** * The whole file and its truncation

    First the file as its own addresses and five trees; then the truncation of all of it. *)

From S2P Require Import Prelude FreeNid NatCache NodePath FileMap FileTree FileCut.
#[local] Open Scope file_scope.

(** ** The whole file: the blocks of the inode and its five trees

    [file_flat] lists the addresses of all blocks of the file; [owned] says that the trees are
    as they should be, that everything is owned once and counted; [fevolve] is what a step
    does to the list, [blank] empties a range of it. *)

Notation nulls n := (replicate n NULL_ADDR).

(** ** Emptied ranges of a list *)

Section blank.
Context `{FileFormat}.
Implicit Types (l : list Z) (a b c : nat).
Definition blank a b l : list Z := take a l ++ nulls (b - a) ++ drop b l.
Lemma blank_length a b l : (a <= b <= length l)%nat -> length (blank a b l) = length l.
Proof. intros Hab. unfold blank. rewrite !length_app, length_take, length_replicate, length_drop. lia. Qed.
Lemma blank_lookup a b l j : (a <= b <= length l)%nat -> blank a b l !! j = if (a <=? j)%nat && (j <? b)%nat then Some NULL_ADDR else l !! j.
Proof.
  intros Hab. unfold blank. destruct (Nat.leb_spec a j); cbn [andb].
  - rewrite lookup_app_r by (rewrite length_take; lia). rewrite length_take, Nat.min_l by lia. destruct (Nat.ltb_spec j b).
    + rewrite lookup_app_l by (rewrite length_replicate; lia). rewrite lookup_replicate_2 by lia. done.
    + rewrite lookup_app_r by (rewrite length_replicate; lia). rewrite length_replicate, lookup_drop. f_equal. lia.
  - rewrite lookup_app_l by (rewrite length_take; lia). by rewrite lookup_take_lt.
Qed.
Lemma blank_blank a b c l : (a <= b <= c)%nat -> (c <= length l)%nat -> blank b c (blank a b l) = blank a c l.
Proof.
  intros Hab Hc. apply list_eq. intros j. rewrite !blank_lookup by (rewrite ?blank_length; lia).
  destruct (Nat.leb_spec a j), (Nat.leb_spec b j), (Nat.ltb_spec j b), (Nat.ltb_spec j c); cbn; try lia; done.
Qed.
Lemma blank_empty a l : (a <= length l)%nat -> blank a a l = l.
Proof. intros. unfold blank. by rewrite Nat.sub_diag, app_nil_l, take_drop. Qed.
Lemma blank_end a l : (a <= length l)%nat -> blank a (length l) l = take a l ++ nulls (length l - a).
Proof. intros. unfold blank. rewrite drop_all. by rewrite app_nil_r. Qed.
Lemma blank_take a b l : (a <= length l)%nat -> take a (blank a b l) = take a l.
Proof. intros. unfold blank. by rewrite take_app_length' by (rewrite length_take; lia). Qed.
Lemma thinned_ranges l l' : length l' = length l -> (forall j, l' !! j = l !! j \/ l' !! j = Some NULL_ADDR) -> thinned l l'.
Proof.
  intros Hl Hj. apply Forall2_same_length_lookup_2; [done|]. intros j x y Hx Hy. destruct (Hj j) as [E|E]; rewrite Hy in E; [left; congruence|right; congruence].
Qed.
Lemma blank_thinned a b l : (a <= b <= length l)%nat -> thinned l (blank a b l).
Proof.
  intros Hab. apply thinned_ranges; [by apply blank_length|]. intros j. rewrite blank_lookup by done. destruct ((a <=? j)%nat && (j <? b)%nat); tauto.
Qed.
(** A range inside a part of a list. *)
Lemma blank_part l1 l2 l3 a b : (a <= b <= length l2)%nat -> l1 ++ blank a b l2 ++ l3 = blank (length l1 + a) (length l1 + b) (l1 ++ l2 ++ l3).
Proof.
  intros Hab. apply list_eq. intros j. rewrite blank_lookup by (rewrite !length_app; lia). destruct (Nat.lt_ge_cases j (length l1)).
  - rewrite !(lookup_app_l l1) by lia. destruct (Nat.leb_spec (length l1 + a) j); [lia|done].
  - rewrite !(lookup_app_r l1) by lia. destruct (Nat.lt_ge_cases (j - length l1) (length l2)).
    + rewrite (lookup_app_l (blank a b l2)) by (by rewrite blank_length). rewrite (lookup_app_l l2) by lia. rewrite blank_lookup by done. destruct (Nat.leb_spec a (j - length l1)), (Nat.leb_spec (length l1 + a) j), (Nat.ltb_spec (j - length l1) b), (Nat.ltb_spec j (length l1 + b)); try lia; done.
    + rewrite (lookup_app_r (blank a b l2)) by (by rewrite blank_length). rewrite (lookup_app_r l2) by lia. rewrite blank_length by done. destruct (Nat.ltb_spec j (length l1 + b)); [lia|]. by rewrite andb_false_r.
Qed.
End blank.

Section roots.
Context {T : Type} `{BlockLaws T} (o : rest) (env : file_env) (i : node_inode) (Hi : inode_ok i) (Hplain : f2fs_compressed_file i = false).
Implicit Types (st : fsys T) (A Ns l fl : list Z) (h j : nat).
Notation acct := (acct o).
Notation N := NIDS_PER_BLOCK.
Notation B := (addrs_per_block i).
Notation D := (addrs_per_inode i).
Notation cap := (cap B).
Notation tree_flat := (tree_flat B).
Notation evolve := (evolve o i).
Notation owns := (owns o i).

(** ** The five trees *)

(** Their heights and the offsets of their roots; the first block of each. *)
Definition root_kinds : list (nat * Z) := [(0%nat, 1); (0%nat, 2); (1%nat, 3); (1%nat, 4 + N); (2%nat, 5 + 2 * N)].
Definition root_pos (j : nat) : nat := match j with O => 0 | 1 => cap 0 | 2 => cap 0 + cap 0 | 3 => cap 0 + cap 0 + cap 1 | 4 => cap 0 + cap 0 + cap 1 + cap 1 | _ => cap 0 + cap 0 + cap 1 + cap 1 + cap 2 end%nat.
Definition root_flat (P : gmap Z node_page) (x : nat * Z * Z) : list Z := tree_flat P x.1.1 x.2.
Definition root_nids (P : gmap Z node_page) (x : nat * Z * Z) : list Z := tree_nids P x.1.1 x.2.
Definition roots st : list (nat * Z * Z) := zip root_kinds (i_nid (fi st)).
Definition own_addrs st : list Z := take (Z.to_nat D) (drop (Z.to_nat (extra_isize (fi st))) (i_addr (fi st))).
Definition file_flat st : list Z := own_addrs st ++ concat (root_flat (pages st) <$> roots st).
Definition file_nids st : list Z := concat (root_nids (pages st) <$> roots st).
Record file_ok st : Prop := {
  fo_plain : plain i st;
  fo_addr : (Z.to_nat (extra_isize (fi st)) + Z.to_nat D <= length (i_addr (fi st)))%nat;
  fo_nids : length (i_nid (fi st)) = 5%nat;
  fo_trees : forall j x, roots st !! j = Some x -> tree_ok (pages st) x.1.1 x.1.2 x.2
}.
Definition owned A Ns st : Prop := file_ok st /\ acct st (nonnull (file_flat st) ++ A) (file_nids st ++ Ns).
(** What a step keeps of the inode. *)
Record kept st st' : Prop := {
  kp_shape : shape (fi st') = shape (fi st); kp_extra : extra_isize (fi st') = extra_isize (fi st); kp_inline : inline_data (fi st') = inline_data (fi st); kp_ino : ino (fi st') = ino (fi st);
  kp_compr : i_compr_blocks (fi st') = i_compr_blocks (fi st); kp_max : max_nid st' = max_nid st; kp_xnid : i_xnid (fi st') = i_xnid (fi st);
  kp_xattr : take (Z.to_nat (extra_isize (fi st))) (i_addr (fi st')) = take (Z.to_nat (extra_isize (fi st))) (i_addr (fi st))
}.
Lemma kept_trans st st1 st2 : kept st st1 -> kept st1 st2 -> kept st st2.
Proof. intros [] []. constructor; congruence. Qed.
Lemma kept_same st : kept st st.
Proof. by constructor. Qed.
Lemma stable_kept st st' : stable st st' -> kept st st'.
Proof. intros []. constructor; congruence. Qed.
Record fevolve A Ns fl st st' : Prop := {
  fe_kept : kept st st';
  fe_pages m : m ∈ Ns -> pages st' !! m = pages st !! m;
  fe_own : owned A Ns st';
  fe_flat : file_flat st' = fl;
  fe_mirror : mirror (ext_log st) 0 (file_flat st) -> mirror (ext_log st') 0 fl
}.
Lemma fevolve_refl A Ns st : owned A Ns st -> fevolve A Ns (file_flat st) st st.
Proof. intros Ho. constructor; try done. Qed.
Lemma fevolve_trans A Ns fl1 fl2 st st1 st2 : fevolve A Ns fl1 st st1 -> fevolve A Ns fl2 st1 st2 -> fevolve A Ns fl2 st st2.
Proof.
  intros [X1 X2 X3 X4 X5] [Y1 Y2 Y3 Y4 Y5]. constructor; try done; [by eapply kept_trans|intros m Hm; by rewrite Y2, X2|]. intros Hm. apply Y5. rewrite X4. by apply X5.
Qed.
Lemma fevolve_tick A Ns fl st st' : fevolve A Ns fl st st' -> fevolve A Ns fl st (tick st').
Proof. intros [X1 X2 [[Y1 Y2 Y3 Y4] X3] X4 X5]. constructor; try done; [by destruct X1|]. split; [|by apply acct_tick]. constructor; try done. destruct Y1. by constructor. Qed.

(** ** Where the trees are *)

Lemma root_cases j kd : root_kinds !! j = Some kd -> j = 0%nat /\ kd = (0%nat, 1) \/ j = 1%nat /\ kd = (0%nat, 2) \/ j = 2%nat /\ kd = (1%nat, 3) \/ j = 3%nat /\ kd = (1%nat, 4 + N) \/ j = 4%nat /\ kd = (2%nat, 5 + 2 * N).
Proof. do 5 (destruct j as [|j]; [intros [= <-]; tauto|]). done. Qed.
Lemma start0 q : start i 0 q = f2fs_start_bidx_of_node q i.
Proof. done. Qed.
(** The place of a direct node below an indirect one. *)
Lemma ind_child q kk : (q = 0 \/ q = 1) -> 0 <= kk < N -> start i 0 (child_ofs 1 (3 + q * (N + 1)) kk) = D + (2 + q * N + kk) * B.
Proof.
  intros Hq Hk. pose proof nids_range. cbn [child_ofs]. rewrite start0, (start_indirect i Hi (3 + q * (N + 1) + 1 + kk) q); [|destruct Hq; subst; lia|].
  - destruct Hq; subst; lia.
  - symmetry. apply (Z.div_unique _ _ _ kk); [left; lia|]. destruct Hq; subst; lia.
Qed.
Lemma dind_child k1 k2 : 0 <= k1 < N -> 0 <= k2 < N -> start i 0 (child_ofs 1 (child_ofs 2 (5 + 2 * N) k1) k2) = D + (2 + 2 * N + k1 * N + k2) * B.
Proof.
  intros Hk1 Hk2. cbn [child_ofs]. rewrite start0. replace (5 + 2 * N + 1 + k1 * (N + 1) + 1 + k2) with (7 + N * 2 + k1 * (N + 1) + k2) by lia. rewrite (start_dindirect i Hi) by lia. lia.
Qed.
Lemma cap0 : Z.of_nat (cap 0) = B.
Proof. pose proof (iok_block i Hi). cbn [FileTree.cap]. lia. Qed.
Lemma cap1 : Z.of_nat (cap 1) = N * B.
Proof. pose proof (iok_block i Hi). pose proof nids_range. cbn [FileTree.cap]. lia. Qed.
Lemma cap2 : Z.of_nat (cap 2) = N * N * B.
Proof. change (cap 2) with (Z.to_nat N * cap 1)%nat. pose proof nids_range. rewrite Nat2Z.inj_mul, cap1. lia. Qed.
Lemma ind_start q : (q = 0 \/ q = 1) -> start i 1 (3 + q * (N + 1)) = D + (2 + q * N) * B.
Proof. intros Hq. pose proof nids_range. transitivity (start i 0 (child_ofs 1 (3 + q * (N + 1)) 0)); [done|]. rewrite ind_child by (done || lia). f_equal. f_equal. lia. Qed.
Lemma ind_placed q : (q = 0 \/ q = 1) -> placed i 1 (3 + q * (N + 1)).
Proof. intros Hq k Hk. split; [done|]. rewrite ind_child, ind_start, cap0 by done. lia. Qed.
Lemma dind1_start k1 : 0 <= k1 < N -> start i 1 (child_ofs 2 (5 + 2 * N) k1) = D + (2 + 2 * N + k1 * N) * B.
Proof. intros Hk. pose proof nids_range. transitivity (start i 0 (child_ofs 1 (child_ofs 2 (5 + 2 * N) k1) 0)); [done|]. rewrite dind_child by lia. f_equal. f_equal. lia. Qed.
Lemma dind_start : start i 2 (5 + 2 * N) = D + (2 + 2 * N) * B.
Proof. pose proof nids_range. transitivity (start i 1 (child_ofs 2 (5 + 2 * N) 0)); [done|]. rewrite dind1_start by lia. f_equal. f_equal. lia. Qed.
Lemma dind_placed : placed i 2 (5 + 2 * N).
Proof.
  intros k1 Hk1. split.
  - intros k2 Hk2. split; [done|]. rewrite dind_child, dind1_start, cap0 by done. lia.
  - rewrite dind1_start, dind_start, cap1 by done. lia.
Qed.
Lemma root_placed j kd : root_kinds !! j = Some kd -> placed i kd.1 kd.2 /\ start i kd.1 kd.2 = D + Z.of_nat (root_pos j) /\ root_pos (Datatypes.S j) = (root_pos j + cap kd.1)%nat.
Proof.
  pose proof nids_range. pose proof cap0. pose proof cap1. intros [(-> & ->)|[(-> & ->)|[(-> & ->)|[(-> & ->)|(-> & ->)]]]]%root_cases; cbn [fst snd root_pos].
  - split; [done|]. split; [|done]. rewrite start0, (start_direct i Hi) by lia. lia.
  - split; [done|]. split; [|done]. rewrite start0, (start_direct i Hi) by lia. lia.
  - pose proof (ind_placed 0 (or_introl eq_refl)) as HP. pose proof (ind_start 0 (or_introl eq_refl)) as HS. replace (3 + 0 * (N + 1)) with 3 in * by lia. split; [done|]. split; [lia|lia].
  - pose proof (ind_placed 1 (or_intror eq_refl)) as HP. pose proof (ind_start 1 (or_intror eq_refl)) as HS. replace (3 + 1 * (N + 1)) with (4 + N) in * by lia. split; [done|]. split; [lia|lia].
  - split; [apply dind_placed|]. split; [|done]. rewrite dind_start. lia.
Qed.

(** ** One tree *)

Lemma roots_nil st : file_ok st -> length (roots st) = 5%nat.
Proof. intros [_ _ Hl _]. unfold roots. rewrite length_zip_with, Hl. done. Qed.
Lemma root_lookup st j kd c : root_kinds !! j = Some kd -> i_nid (fi st) !! j = Some c -> roots st !! j = Some (kd, c).
Proof. intros Hk Hc. unfold roots. by rewrite lookup_zip_with, Hk, Hc. Qed.
Lemma root_inv st j x : roots st !! j = Some x -> root_kinds !! j = Some x.1 /\ i_nid (fi st) !! j = Some x.2.
Proof. unfold roots. intros (kd & c & -> & ? & ?)%lookup_zip_with_Some. done. Qed.
Lemma root_length st j x : file_ok st -> roots st !! j = Some x -> length (root_flat (pages st) x) = cap x.1.1.
Proof. intros Hf Hx. unfold root_flat. eapply flat_length; [by apply block_fits|]. by apply (fo_trees _ Hf j). Qed.
Lemma roots_before st j : file_ok st -> (j <= 5)%nat -> length (concat (root_flat (pages st) <$> take j (roots st))) = root_pos j.
Proof.
  intros Hf. induction j as [|j IH]; intros Hj; [done|]. destruct (lookup_lt_is_Some_2 (roots st) j) as [x Hx]; [rewrite roots_nil by done; lia|]. rewrite (take_S_r _ _ _ Hx), fmap_app, concat_app, length_app, IH by lia.
  destruct (root_inv _ _ _ Hx) as [Hk _]. destruct (root_placed j x.1 Hk) as (_ & _ & ->). cbn [fmap list_fmap concat]. by rewrite app_nil_r, (root_length st j x Hf Hx).
Qed.
Lemma roots_total st : file_ok st -> length (concat (root_flat (pages st) <$> roots st)) = root_pos 5.
Proof. intros Hf. rewrite <-(roots_before st 5) by (done || lia). by rewrite firstn_all2 by (rewrite roots_nil by done; lia). Qed.
Lemma own_length st : file_ok st -> length (own_addrs st) = Z.to_nat D.
Proof. intros [_ Ha _ _]. unfold own_addrs. rewrite length_take, length_drop. lia. Qed.

Section root.
Context (A Ns : list Z) (st : fsys T) (j : nat) (kd : nat * Z) (c : Z).
Context (Hw : owned A Ns st) (Hk : root_kinds !! j = Some kd) (Hc : i_nid (fi st) !! j = Some c).
Notation flats l := (concat (root_flat (pages st) <$> l)).
Notation nidss l := (concat (root_nids (pages st) <$> l)).
Notation before := (take j (roots st)).
Notation after := (drop (Datatypes.S j) (roots st)).
Definition rsib_addrs : list Z := nonnull (own_addrs st ++ flats before ++ flats after) ++ A.
Definition rsib_nodes : list Z := nidss before ++ nidss after ++ Ns.

Lemma whole_flat : file_flat st = own_addrs st ++ flats before ++ tree_flat (pages st) kd.1 c ++ flats after.
Proof. unfold file_flat. rewrite (chunks_split _ (roots st) j (kd, c)) by (by apply root_lookup). done. Qed.
Lemma whole_nids : file_nids st = nidss before ++ tree_nids (pages st) kd.1 c ++ nidss after.
Proof. unfold file_nids. rewrite (chunks_split _ (roots st) j (kd, c)) by (by apply root_lookup). done. Qed.
Lemma root_addrs_perm fl : nonnull (own_addrs st ++ flats before ++ fl ++ flats after) ++ A ≡ₚ nonnull fl ++ rsib_addrs.
Proof. unfold rsib_addrs, nonnull. rewrite !list.filter_app, <-!app_assoc. rewrite (Permutation_app_swap_app (filter _ (flats before))). apply Permutation_app_swap_app. Qed.
Lemma root_nodes_perm (x : list Z) : (nidss before ++ x ++ nidss after) ++ Ns ≡ₚ x ++ rsib_nodes.
Proof. unfold rsib_nodes. rewrite <-!app_assoc. apply Permutation_app_swap_app. Qed.
Lemma root_owns : owns rsib_addrs rsib_nodes kd.1 kd.2 c st.
Proof.
  destruct Hw as [Hf Ha]. split; [by apply (fo_trees _ Hf j (kd, c)), root_lookup|]. by rewrite whole_flat, whole_nids, root_addrs_perm, root_nodes_perm in Ha.
Qed.
Lemma root_sibling j' x m : j' <> j -> roots st !! j' = Some x -> m ∈ root_nids (pages st) x -> m ∈ rsib_nodes.
Proof.
  intros Hne Hx Hm. unfold rsib_nodes. rewrite !elem_of_app. destruct (Nat.lt_ge_cases j' j); [left; apply (chunk_elem _ _ j' x); [|done]; by apply lookup_take_Some|].
  right. left. apply (chunk_elem _ _ (j' - Datatypes.S j) x); [|done]. rewrite lookup_drop. by replace (Datatypes.S j + (j' - Datatypes.S j))%nat with j' by lia.
Qed.
(** The tree evolves, and the inode's word follows. *)
Lemma root_step c' fl st1 : evolve rsib_addrs rsib_nodes kd.1 kd.2 c c' fl st st1 ->
  fevolve A Ns (own_addrs st ++ flats before ++ fl ++ flats after) st (with_fi st1 (set_i_nid (fi st1) (<[j := c']> (i_nid (fi st1))))).
Proof.
  intros [X1 X2 X3 X4 X5 X6 X7]. pose proof X1 as [S1 S2 S3 S4 S5 S6 S7 S8]. set (st2 := with_fi st1 _). destruct Hw as [Hf Ha]. pose proof Hf as [F1 F2 F3 F4]. destruct (root_placed j kd Hk) as (_ & Hst & _).
  assert (Hroots : roots st2 = <[j := (kd, c')]> (roots st)).
  { unfold roots, st2. cbn [fi with_fi set_i_nid i_nid]. rewrite S4. apply list_eq. intros q. destruct (decide (q = j)) as [->|Hne].
    - rewrite list_lookup_insert_eq by (by eapply lookup_lt_Some, root_lookup). rewrite lookup_zip_with, Hk. cbn [mbind option_bind]. by rewrite list_lookup_insert_eq by (by eapply lookup_lt_Some).
    - rewrite list_lookup_insert_ne by done. rewrite !lookup_zip_with. by rewrite list_lookup_insert_ne. }
  assert (Hfs : forall j' x, j' <> j -> roots st !! j' = Some x -> forall m, m ∈ root_nids (pages st) x -> pages st1 !! m = pages st !! m) by (intros j' x Hne Hx m Hm; apply X2; by eapply root_sibling).
  assert (Eflat : file_flat st2 = own_addrs st ++ flats before ++ fl ++ flats after).
  { unfold file_flat. f_equal; [unfold own_addrs, st2; cbn; by rewrite S2, S3|]. rewrite Hroots, (chunks_insert (root_flat (pages st)) _ (roots st) j (kd, c) (kd, c') (root_lookup _ _ _ _ Hk Hc)); [by rewrite <-X4|]. intros j' x Hne Hx. by apply (frame B (pages st) (pages st1) x.1.1 x.2 (Hfs j' x Hne Hx)). }
  assert (Enids : file_nids st2 = nidss before ++ tree_nids (pages st1) kd.1 c' ++ nidss after).
  { unfold file_nids. rewrite Hroots, (chunks_insert (root_nids (pages st)) _ (roots st) j (kd, c) (kd, c') (root_lookup _ _ _ _ Hk Hc)); [done|]. intros j' x Hne Hx. by apply (frame B (pages st) (pages st1) x.1.1 x.2 (Hfs j' x Hne Hx)). }
  assert (Hok2 : file_ok st2).
  { constructor.
    - pose proof (plain_stable i st st1 F1 X1) as []. by constructor.
    - unfold st2. cbn. by rewrite S2, S3.
    - unfold st2. cbn. by rewrite length_insert, S4.
    - intros q x Hx. rewrite Hroots in Hx. destruct (decide (q = j)) as [->|Hne]; [rewrite list_lookup_insert_eq in Hx by (by eapply lookup_lt_Some, root_lookup); by injection Hx as <-|]. rewrite list_lookup_insert_ne in Hx by done. apply (frame_ok (pages st)); [by eapply Hfs|by eapply F4]. }
  assert (Hlen : length (own_addrs st) = Z.to_nat D) by (by apply own_length). assert (Hb : length (flats before) = root_pos j) by (apply roots_before; [done|]; apply lookup_lt_Some in Hk; cbn in Hk; lia). pose proof (iok_direct i Hi) as HD.
  assert (Hlf : length fl = cap kd.1) by (rewrite <-X4; by apply (flat_length B (block_fits i Hi Hplain) _ _ kd.2)). assert (Hlc : length (tree_flat (pages st) kd.1 c) = cap kd.1) by (apply (flat_length B (block_fits i Hi Hplain) _ _ kd.2), (F4 j (kd, c)), root_lookup; done).
  constructor; try done.
  - constructor; cbn; congruence.
  - intros m Hm. apply X2. unfold rsib_nodes. set_solver.
  - split; [done|]. rewrite Eflat, Enids, root_addrs_perm, root_nodes_perm. by apply (acct_same o st1).
  - intros Hm. rewrite whole_flat in Hm. cbn [ext_log with_fi st2]. assert (Hmc : mirror (ext_log st) (start i kd.1 kd.2) (tree_flat (pages st) kd.1 c)).
    { intros q a Hq. rewrite Hst. replace (D + Z.of_nat (root_pos j) + Z.of_nat q) with (0 + Z.of_nat (Z.to_nat D + root_pos j + q)) by lia. apply Hm. rewrite lookup_app_r by lia. rewrite lookup_app_r by lia. rewrite lookup_app_l by (apply lookup_lt_Some in Hq; lia). rewrite <-Hq. f_equal. lia. }
    specialize (X7 Hmc). intros q a Hq. rewrite app_assoc in Hq, Hm. set (pre := own_addrs st ++ flats before) in *. assert (Hpre : length pre = (Z.to_nat D + root_pos j)%nat) by (unfold pre; rewrite length_app; lia).
    destruct (Nat.lt_ge_cases q (length pre)); [rewrite X6 by (rewrite Hst; lia); apply Hm; rewrite lookup_app_l in Hq |- * by lia; done|]. rewrite lookup_app_r in Hq by lia. destruct (Nat.lt_ge_cases (q - length pre) (cap kd.1)).
    + rewrite lookup_app_l in Hq by lia. apply X7 in Hq. rewrite Hst in Hq. rewrite <-Hq. f_equal. lia.
    + rewrite lookup_app_r in Hq by lia. rewrite X6 by (rewrite Hst; lia). apply Hm. rewrite lookup_app_r, lookup_app_r by lia. rewrite Hlc, <-Hlf. done.
Qed.
(** The same when the word stays. *)
Lemma root_step_same fl st1 : evolve rsib_addrs rsib_nodes kd.1 kd.2 c c fl st st1 -> fevolve A Ns (own_addrs st ++ flats before ++ fl ++ flats after) st st1.
Proof.
  intros He. pose proof (root_step c fl st1 He) as Hs. assert (E : with_fi st1 (set_i_nid (fi st1) (<[j := c]> (i_nid (fi st1)))) = st1); [|by rewrite E in Hs].
  destruct (ev_stable _ _ _ _ _ _ _ _ _ _ _ He) as [_ _ _ S4 _ _ _ _]. rewrite S4, list_insert_id, <-S4 by done. by destruct st1 as [[]].
Qed.
End root.
End roots.

(** ** The trees of a file are truncated (node.c: f2fs_truncate_inode_blocks)

    [fcut a b]: either blocks [a] to [b] are emptied, or the rest of the system failed; then
    some blocks from [a] on may be empty.  Both ways the file is as it should be. *)

Section trunc.
Context {T : Type} `{BlockLaws T} (o : rest) (env : file_env) (i : node_inode) (Hi : inode_ok i) (Hplain : f2fs_compressed_file i = false).
Implicit Types (st : fsys T) (A Ns l fl : list Z) (h j : nat).
Notation acct := (acct o).
Notation N := NIDS_PER_BLOCK.
Notation B := (addrs_per_block i).
Notation D := (addrs_per_inode i).
Notation cap := (cap B).
Notation tree_flat := (tree_flat B).
Notation evolve := (evolve o i).
Notation owns := (owns o i).
Notation fevolve := (fevolve o i).
Notation owned := (owned o i).
Notation file_flat := (file_flat i).
Notation root_pos := (root_pos i).
Notation d := (Z.to_nat D).

Definition fcut {X} A Ns (a b : nat) st (good : X -> Prop) (res : option ((errno + X) * fsys T)) : Prop :=
  (exists st1 x, res = Some (inr x, st1) /\ good x /\ fevolve A Ns (blank a b (file_flat st)) st st1) \/
  (exists e st1 fl, res = Some (inl (Env e), st1) /\ thinned (file_flat st) fl /\ take a fl = take a (file_flat st) /\ fevolve A Ns fl st st1).
Lemma flat_total A Ns st : owned A Ns st -> length (file_flat st) = (d + root_pos 5)%nat.
Proof. intros [Hf _]. unfold FileTrunc.file_flat. by rewrite length_app, (own_length i st Hf), (roots_total i Hi Hplain st Hf). Qed.
Lemma root_pos_mono j j' : (j <= j' <= 5)%nat -> (root_pos j <= root_pos j')%nat.
Proof. intros Hj. do 6 (destruct j as [|j]; [do 6 (destruct j' as [|j']; [cbn [FileTrunc.root_pos]; lia|]); lia|]). lia. Qed.
Lemma fcut_next {X} A Ns a b c st st1 (good : X -> Prop) res : (a <= b <= c)%nat -> (c <= length (file_flat st))%nat -> fevolve A Ns (blank a b (file_flat st)) st st1 -> fcut A Ns b c st1 good res -> fcut A Ns a c st good res.
Proof.
  intros Hab Hc He [(st2 & x & -> & Hx & He2)|(e & st2 & fl & -> & Ht & Hfl & He2)]; pose proof (fe_flat _ _ _ _ _ _ _ He) as Ef.
  - left. exists st2, x. split; [done|]. split; [done|]. rewrite Ef, blank_blank in He2 by lia. by eapply fevolve_trans.
  - right. exists e, st2, fl. split; [done|]. rewrite Ef in *. split; [eapply thinned_trans; [|exact Ht]; apply blank_thinned; lia|]. split; [|by eapply fevolve_trans].
    assert (E : take a (take b fl) = take a (take b (blank a b (file_flat st)))) by (by rewrite Hfl). rewrite !take_take, Nat.min_l in E by lia. rewrite E. apply blank_take. lia.
Qed.
Lemma fcut_bind {X Y} A Ns a b c st (good : X -> Prop) (good' : Y -> Prop) (m : M (S := T) X) (f : X -> M (S := T) Y) : (a <= b <= c)%nat -> (c <= length (file_flat st))%nat -> fcut A Ns a b st good (m st) ->
  (forall x st1, good x -> owned A Ns st1 -> length (file_flat st1) = length (file_flat st) -> fcut A Ns b c st1 good' (f x st1)) -> fcut A Ns a c st good' (bind m f st).
Proof.
  intros Hab Hc [(st1 & x & E & Hx & He)|(e & st1 & fl & E & Ht & Hfl & He)] Hf.
  - rewrite (bind_ok _ _ _ _ _ E). apply (fcut_next A Ns a b c st st1); try done. apply Hf; [done|by apply He|]. rewrite (fe_flat _ _ _ _ _ _ _ He). apply blank_length. lia.
  - rewrite (bind_err _ _ _ _ _ E). right. by exists e, st1, fl.
Qed.
Lemma fcut_nothing {X} A Ns a st (good : X -> Prop) x : owned A Ns st -> (a <= length (file_flat st))%nat -> good x -> fcut A Ns a a st good (Some (inr x, st)).
Proof. intros Ho Ha Hx. left. exists st, x. split; [done|]. split; [done|]. rewrite blank_empty by done. by apply fevolve_refl. Qed.
Lemma fcut_failed {X} A Ns a b st (good : X -> Prop) e : owned A Ns st -> fcut A Ns a b st good (Some (inl (Env e), tick st)).
Proof. intros Ho. right. exists e, (tick st), (file_flat st). split; [done|]. split; [apply thinned_refl|]. split; [done|]. by apply fevolve_tick, fevolve_refl. Qed.
Lemma fevolve_from_tick A Ns fl st st' : fevolve A Ns fl (tick st) st' -> fevolve A Ns fl st st'.
Proof. intros [X1 X2 X3 X4 X5]. constructor; try done. by destruct X1. Qed.
Lemma fcut_from_tick {X} A Ns a b st (good : X -> Prop) res : fcut A Ns a b (tick st) good res -> fcut A Ns a b st good res.
Proof.
  intros [(st1 & x & -> & Hx & He)|(e & st1 & fl & -> & Ht & Hfl & He)]; apply fevolve_from_tick in He; [left; by exists st1, x|right; by exists e, st1, fl].
Qed.

(** ** One of the five trees *)

Definition unit_of (h : nat) : nat := match h with O => 0%nat | Datatypes.S h' => cap h' end.
Definition root_kill (off0 off1 nofs nid : Z) : M (S := T) Z :=
  if (off0 =? NODE_DIR1_BLOCK) || (off0 =? NODE_DIR2_BLOCK) then truncate_dnode env nid
  else if (off0 =? NODE_IND1_BLOCK) || (off0 =? NODE_IND2_BLOCK) then truncate_nodes env 2 nid nofs off1
  else if off0 =? NODE_DIND_BLOCK then truncate_nodes env 3 nid nofs off1
  else trap.
Lemma root_kill_kind j kd nid off1 nofs : root_kinds !! j = Some kd ->
  root_kill (NODE_DIR1_BLOCK + Z.of_nat j) off1 nofs nid = match kd.1 with O => truncate_dnode env nid | h => truncate_nodes env (Datatypes.S h) nid nofs off1 end.
Proof.
  unfold root_kill. destruct node_places as (P2 & P3 & P4 & P5). rewrite P2, P3, P4, P5. intros [(-> & ->)|[(-> & ->)|[(-> & ->)|[(-> & ->)|(-> & ->)]]]]%root_cases; cbn [fst];
    repeat first [rewrite (proj2 (Z.eqb_neq (_ + _) _)) by lia | rewrite (proj2 (Z.eqb_eq (_ + _) _)) by lia]; done.
Qed.
Lemma cap_pos h : (0 < cap h)%nat.
Proof. pose proof (iok_block i Hi). pose proof nids_range. induction h as [|h IH]; cbn [FileTree.cap]; [lia|]. apply Nat.mul_pos_pos; [lia|done]. Qed.
Lemma root_kill_run j kd k A Ns nid st nofs : root_kinds !! j = Some kd -> (k <= match kd.1 with O => 0 | _ => Z.to_nat N end)%nat -> plain i st -> owns A Ns kd.1 kd.2 nid st ->
  nodes_cut o i kd.1 (k * unit_of kd.1) A Ns kd.2 nid st (fun r => exists n, r = inr n) (root_kill (NODE_DIR1_BLOCK + Z.of_nat j) (Z.of_nat k) nofs nid st).
Proof.
  intros Hj Hk Hp Hw. rewrite (root_kill_kind j kd) by done. destruct (root_placed i Hi j kd Hj) as (Hpl & _). destruct (decide (nid = 0)) as [->|Hn].
  { assert (E : exists n, match kd.1 with O => truncate_dnode env 0 | h => truncate_nodes env (Datatypes.S h) 0 nofs (Z.of_nat k) end st = Some (inr n, st)) by (destruct kd.1; by eexists). destruct E as [n E]. exists st, (inr n). split; [done|]. left. split; [by exists n|].
    assert (Hc : (k * unit_of kd.1 <= cap kd.1)%nat) by (destruct kd.1 as [|h']; cbn [unit_of FileTree.cap]; nia). rewrite flat_zero, take_replicate, Nat.min_l, <-replicate_add by done. replace (k * unit_of kd.1 + (cap kd.1 - k * unit_of kd.1))%nat with (cap kd.1) by lia.
    replace (if (_ =? 0)%nat then 0 else 0) with 0 by (by destruct (_ =? 0)%nat). rewrite <-(flat_zero B (pages st) kd.1). by apply evolve_refl. }
  apply root_cases in Hj. destruct kd as [h q]. cbn [fst snd] in *. destruct h as [|[|[|h]]].
  - assert (k = 0%nat) as -> by lia. destruct (truncate_dnode_run o env i Hi Hplain A Ns q nid st Hn Hp Hw) as (st' & r & E & Hr). exists st', r. split; [exact E|]. destruct Hr as [[-> He]|(e & fl & -> & Ht & He)]; [left|right; by exists e, fl]. split; [by eexists|]. cbn [Nat.mul Nat.eqb]. by rewrite Nat.sub_0_r.
  - destruct (truncate_nodes2_run o env i Hi Hplain k A Ns q nid st nofs Hn Hp Hpl Hw Hk) as (st' & r & E & Hr). exists st', r. split; [exact E|]. destruct Hr as [[-> He]|Hr]; [left; split; [by eexists|done]|by right].
  - exact (truncate_nodes3_run o env i Hi Hplain k A Ns q nid st nofs Hn Hp Hpl Hw Hk).
  - exfalso. naive_solver.
Qed.

(** A step on one tree, seen from the file. *)
Lemma get_root_run st j c : i_nid (fi st) !! j = Some c -> get_nid AtInode (NODE_DIR1_BLOCK + Z.of_nat j) st = Some (inr c, st).
Proof. intros Hc. unfold get_nid. rewrite bind_get. unfold at_word. rewrite (proj2 (Z.ltb_ge _ _)) by lia. replace (Z.to_nat (NODE_DIR1_BLOCK + Z.of_nat j - NODE_DIR1_BLOCK)) with j by lia. by rewrite Hc. Qed.
Lemma set_root_run st j c v : i_nid (fi st) !! j = Some c -> set_nid AtInode (NODE_DIR1_BLOCK + Z.of_nat j) v st = Some (inr tt, with_fi st (set_i_nid (fi st) (<[j := v]> (i_nid (fi st))))).
Proof. intros Hc. unfold set_nid, put_word, at_word. rewrite (proj2 (Z.ltb_ge _ _)) by lia. replace (Z.to_nat (NODE_DIR1_BLOCK + Z.of_nat j - NODE_DIR1_BLOCK)) with j by lia. by rewrite Hc. Qed.
Notation before st j := (concat (root_flat i (pages st) <$> take j (roots st))).
Notation after st j := (concat (root_flat i (pages st) <$> drop (Datatypes.S j) (roots st))).
Lemma tree_blank A Ns st j kd c a b : owned A Ns st -> root_kinds !! j = Some kd -> i_nid (fi st) !! j = Some c -> (a <= b <= cap kd.1)%nat ->
  own_addrs i st ++ before st j ++ blank a b (tree_flat (pages st) kd.1 c) ++ after st j = blank (d + root_pos j + a) (d + root_pos j + b) (file_flat st).
Proof.
  intros Hw Hj Hc Hab. destruct Hw as [Hf _]. assert (Hl : length (tree_flat (pages st) kd.1 c) = cap kd.1) by (apply (root_length i Hi Hplain st j (kd, c) Hf), root_lookup; done).
  rewrite app_assoc, blank_part by lia. rewrite (whole_flat i st j kd c Hj Hc), length_app, (own_length i st Hf), (roots_before i Hi Hplain st j Hf) by (apply lookup_lt_Some in Hj; cbn in Hj; lia). by rewrite <-app_assoc.
Qed.
Lemma tree_thinned A Ns st j kd c fl a : owned A Ns st -> root_kinds !! j = Some kd -> i_nid (fi st) !! j = Some c -> thinned (tree_flat (pages st) kd.1 c) fl -> take a fl = take a (tree_flat (pages st) kd.1 c) ->
  thinned (file_flat st) (own_addrs i st ++ before st j ++ fl ++ after st j) /\ take (d + root_pos j + a) (own_addrs i st ++ before st j ++ fl ++ after st j) = take (d + root_pos j + a) (file_flat st).
Proof.
  intros [Hf _] Hj Hc Ht Ha. rewrite (whole_flat i st j kd c Hj Hc). split; [repeat apply thinned_app; try done; apply thinned_refl|].
  rewrite !(app_assoc (own_addrs i st)). assert (Hpre : length (own_addrs i st ++ before st j) = (d + root_pos j)%nat) by (rewrite length_app, (own_length i st Hf), (roots_before i Hi Hplain st j Hf) by (apply lookup_lt_Some in Hj; cbn in Hj; lia); done).
  rewrite !(take_app (own_addrs i st ++ before st j)), Hpre. replace (d + root_pos j + a - (d + root_pos j))%nat with a by lia. f_equal. rewrite !take_app, Ha, <-(Forall2_length Ht). done.
Qed.

(** ** The loop over the trees *)

Lemma truncate_roots_eq fuel off0 off1 nofs : truncate_roots env (Datatypes.S fuel) off0 off1 nofs =
  (nid <- get_nid AtInode off0;; r <- catch (root_kill off0 off1 nofs nid);;
   n <- (match r with inl ENOENT => ret (-2) | inl e => err e | inr n => ret n end);;
   nid <- get_nid AtInode off0;;
   (if (off1 =? 0) && negb (nid =? 0) then set_nid AtInode off0 0 else ret tt);;
   if off0 =? NODE_DIND_BLOCK then match r with inl e => err e | inr _ => ret tt end else truncate_roots env fuel (off0 + 1) 0 (nofs + n)).
Proof. done. Qed.
(** The word of the inode after its tree was cut. *)
Lemma root_cut_set j k A Ns st kd c st1 : root_kinds !! j = Some kd -> i_nid (fi st) !! j = Some c -> (k <= match kd.1 with O => 0 | _ => Z.to_nat N end)%nat -> owned A Ns st ->
  evolve (rsib_addrs i A st j) (rsib_nodes Ns st j) kd.1 kd.2 c (if (k * unit_of kd.1 =? 0)%nat then 0 else c) (take (k * unit_of kd.1) (tree_flat (pages st) kd.1 c) ++ nulls (cap kd.1 - k * unit_of kd.1)) st st1 ->
  exists st2, (if (Z.of_nat k =? 0) && negb (c =? 0) then set_nid AtInode (NODE_DIR1_BLOCK + Z.of_nat j) 0 else ret tt) st1 = Some (inr tt, st2) /\
    fevolve A Ns (blank (d + root_pos j + k * unit_of kd.1) (d + root_pos (Datatypes.S j)) (file_flat st)) st st2 /\ (k = 0%nat -> i_nid (fi st2) = <[j := 0]> (i_nid (fi st))).
Proof.
  intros Hj Hc Hk Hw He. pose proof Hw as [Hf Ha]. destruct (root_placed i Hi j kd Hj) as (_ & _ & Hnext). assert (Hcap : (k * unit_of kd.1 <= cap kd.1)%nat) by (destruct kd.1 as [|h']; cbn [unit_of FileTree.cap]; nia).
  assert (Hn1 : i_nid (fi st1) = i_nid (fi st)) by apply (sb_nid _ _ (ev_stable _ _ _ _ _ _ _ _ _ _ _ He)). assert (Hlt : length (tree_flat (pages st) kd.1 c) = cap kd.1) by (apply (root_length i Hi Hplain st j (kd, c) Hf), root_lookup; done).
  replace (take (k * unit_of kd.1) (tree_flat (pages st) kd.1 c) ++ _) with (blank (k * unit_of kd.1) (cap kd.1) (tree_flat (pages st) kd.1 c)) in He by (rewrite <-Hlt at 1; rewrite blank_end, Hlt by lia; done).
  rewrite Hnext, Nat.add_assoc, <-(tree_blank A Ns st j kd c) by (done || lia). destruct (decide (k = 0%nat /\ c <> 0)) as [[-> Hc0]|Hne].
  - rewrite (proj2 (Z.eqb_neq c 0)) by done. cbn [Z.of_nat Z.eqb andb negb]. eexists. split; [apply set_root_run with (c := c); by rewrite Hn1|]. cbn [Nat.mul Nat.eqb] in He. split; [by apply (root_step o i Hi Hplain A Ns st j kd c Hw Hj Hc)|]. intros _. cbn. by rewrite Hn1.
  - exists st1. split; [destruct (Z.eqb_spec (Z.of_nat k) 0), (Z.eqb_spec c 0); try done; lia|]. split; [|intros ->; rewrite Hn1; symmetry; apply list_insert_id; destruct (decide (c = 0)) as [->|]; [done|tauto]].
    replace (if (k * unit_of kd.1 =? 0)%nat then 0 else c) with c in He; [by apply (root_step_same o i Hi Hplain A Ns st j kd c Hw Hj Hc)|].
    destruct (Nat.eqb_spec (k * unit_of kd.1) 0) as [E0|]; [|done]. destruct (decide (c = 0)) as [|Hc0]; [done|]. exfalso. destruct kd.1 as [|h']; [apply Hne; split; [cbn in Hk; lia|done]|]. pose proof (cap_pos h'). cbn [unit_of] in E0. apply Hne. split; [nia|done].
Qed.
Lemma truncate_roots_run fuel : forall j k A Ns st nofs kd, (5 <= j + fuel)%nat -> root_kinds !! j = Some kd -> (k <= match kd.1 with O => 0 | _ => Z.to_nat N end)%nat -> owned A Ns st ->
  fcut A Ns (d + root_pos j + k * unit_of kd.1) (d + root_pos 5) st (fun _ => True) (truncate_roots env fuel (NODE_DIR1_BLOCK + Z.of_nat j) (Z.of_nat k) nofs st).
Proof.
  induction fuel as [|fuel IH]; intros j k A Ns st nofs kd Hfu Hj Hk Hw; [apply lookup_lt_Some in Hj; cbn in Hj; lia|]. pose proof Hw as [Hf Ha]. pose proof (flat_total A Ns st Hw) as Htot. pose proof (lookup_lt_Some _ _ _ Hj) as Hj5. cbn in Hj5. pose proof (root_pos_mono (Datatypes.S j) 5 ltac:(clear -Hj5; lia)) as Hmono. destruct (root_placed i Hi j kd Hj) as (_ & _ & Hnext).
  destruct (lookup_lt_is_Some_2 (i_nid (fi st)) j) as [c Hc]; [rewrite (fo_nids _ _ Hf); done|]. assert (Hcap : (k * unit_of kd.1 <= cap kd.1)%nat) by (destruct kd.1 as [|h']; cbn [unit_of FileTree.cap]; nia).
  rewrite truncate_roots_eq, (bind_ok _ _ _ _ _ (get_root_run st j c Hc)). destruct (root_kill_run j kd k _ _ c st nofs Hj Hk (fo_plain _ _ Hf) (root_owns o i A Ns st j kd c Hw Hj Hc)) as (st1 & r & E & Hr). rewrite (bind_catch _ _ _ _ _ E). destruct Hr as [[[n ->] He]|(e & fl & -> & Ht & Hfl & He)].
  - rewrite bind_ret. assert (Hc1 : i_nid (fi st1) !! j = Some c) by (by rewrite (sb_nid _ _ (ev_stable _ _ _ _ _ _ _ _ _ _ _ He))). rewrite (bind_ok _ _ _ _ _ (get_root_run st1 j c Hc1)).
    destruct (root_cut_set j k A Ns st kd c st1 Hj Hc Hk Hw He) as (st2 & E2 & He2 & _). rewrite (bind_ok _ _ _ _ _ E2). apply (fcut_next A Ns _ (d + root_pos (Datatypes.S j)) _ st st2); [lia|lia|done|]. destruct node_places as (_ & _ & _ & P5). destruct (Z.eqb_spec (NODE_DIR1_BLOCK + Z.of_nat j) NODE_DIND_BLOCK) as [Ed|Ed].
    + assert (j = 4%nat) as -> by lia. apply fcut_nothing; [by apply He2|rewrite (fe_flat _ _ _ _ _ _ _ He2), blank_length by lia; lia|done].
    + assert (Hj4 : (Datatypes.S j < length root_kinds)%nat) by (cbn; lia). destruct (lookup_lt_is_Some_2 _ _ Hj4) as [kd' Hj']. replace (NODE_DIR1_BLOCK + Z.of_nat j + 1) with (NODE_DIR1_BLOCK + Z.of_nat (Datatypes.S j)) by lia.
      pose proof (IH (Datatypes.S j) 0%nat A Ns st2 (nofs + n) kd') as IH2. cbn [Nat.mul] in IH2. rewrite Nat.add_0_r in IH2. apply IH2; [lia|done|lia|by apply He2].
  - assert (Er : (n <- (err (Env e) : M Z);; (nid <- get_nid AtInode (NODE_DIR1_BLOCK + Z.of_nat j);; (if (Z.of_nat k =? 0) && negb (nid =? 0) then set_nid AtInode (NODE_DIR1_BLOCK + Z.of_nat j) 0 else ret tt);; if NODE_DIR1_BLOCK + Z.of_nat j =? NODE_DIND_BLOCK then match (inl (Env e) : errno + Z) with inl e => err e | inr _ => ret tt end else truncate_roots env fuel (NODE_DIR1_BLOCK + Z.of_nat j + 1) 0 (nofs + n))) st1 = Some (inl (Env e), st1)) by done.
    right. exists e, st1, (own_addrs i st ++ before st j ++ fl ++ after st j). split; [exact Er|]. destruct (tree_thinned A Ns st j kd c fl (k * unit_of kd.1) Hw Hj Hc Ht Hfl) as [T1 T2]. split; [done|]. split; [done|]. by apply (root_step_same o i Hi Hplain A Ns st j kd c Hw Hj Hc).
Qed.

(** From the start of a tree on no node is left. *)
Lemma truncate_roots_zero fuel : forall j A Ns st nofs st', (5 <= j + fuel)%nat -> (j < 5)%nat -> owned A Ns st -> truncate_roots env fuel (NODE_DIR1_BLOCK + Z.of_nat j) 0 nofs st = Some (inr tt, st') ->
  forall q c, i_nid (fi st') !! q = Some c -> (j <= q)%nat -> c = 0.
Proof.
  assert (Hkeep : forall fuel j A Ns st nofs st', (5 <= j + fuel)%nat -> (j < 5)%nat -> owned A Ns st -> truncate_roots env fuel (NODE_DIR1_BLOCK + Z.of_nat j) 0 nofs st = Some (inr tt, st') ->
    exists l, i_nid (fi st') = take j (i_nid (fi st)) ++ l /\ length l = (5 - j)%nat /\ Forall (fun c => c = 0) l).
  2: { intros j A Ns st nofs st' Hfu Hj Hw E q c Hq Hle. destruct (Hkeep fuel j A Ns st nofs st' Hfu Hj Hw E) as (l & El & _ & Hl). rewrite El, lookup_app_r in Hq by (rewrite length_take; lia). exact (Forall_lookup_1 _ _ _ _ Hl Hq). }
  clear fuel. intros fuel. induction fuel as [|fuel IH]; intros j A Ns st nofs st' Hfu Hj5 Hw E; [lia|]. pose proof Hw as [Hf Ha]. destruct (lookup_lt_is_Some_2 root_kinds j ltac:(cbn; lia)) as [kd Hj]. destruct (lookup_lt_is_Some_2 (i_nid (fi st)) j) as [c Hc]; [rewrite (fo_nids _ _ Hf); done|].
  rewrite truncate_roots_eq, (bind_ok _ _ _ _ _ (get_root_run st j c Hc)) in E. destruct (root_kill_run j kd 0 _ _ c st nofs Hj ltac:(lia) (fo_plain _ _ Hf) (root_owns o i A Ns st j kd c Hw Hj Hc)) as (st1 & r & E1 & Hr). change (Z.of_nat 0) with 0 in E1. rewrite (bind_catch _ _ _ _ _ E1) in E. destruct Hr as [[[n ->] He]|(e & fl & -> & _)]; [|done].
  rewrite bind_ret in E. assert (Hc1 : i_nid (fi st1) !! j = Some c) by (by rewrite (sb_nid _ _ (ev_stable _ _ _ _ _ _ _ _ _ _ _ He))). rewrite (bind_ok _ _ _ _ _ (get_root_run st1 j c Hc1)) in E.
  destruct (root_cut_set j 0 A Ns st kd c st1 Hj Hc ltac:(lia) Hw He) as (st2 & E2 & He2 & Hn2). change (Z.of_nat 0) with 0 in E2. rewrite (bind_ok _ _ _ _ _ E2) in E. specialize (Hn2 eq_refl). pose proof (fo_nids _ _ Hf) as Hlen. destruct node_places as (_ & _ & _ & P5). destruct (Z.eqb_spec (NODE_DIR1_BLOCK + Z.of_nat j) NODE_DIND_BLOCK) as [Ed|Ed].
  - injection E as <-. exists [0]. assert (j = 4%nat) as -> by lia. rewrite Hn2. split; [|by split; [|constructor]]. rewrite insert_take_drop by lia. by rewrite drop_ge by lia.
  - replace (NODE_DIR1_BLOCK + Z.of_nat j + 1) with (NODE_DIR1_BLOCK + Z.of_nat (Datatypes.S j)) in E by lia. destruct (IH (Datatypes.S j) A Ns st2 (nofs + n) st' ltac:(lia) ltac:(lia) (fe_own _ _ _ _ _ _ _ He2) E) as (l & El & Hll & Hz). exists (0 :: l).
    rewrite El, Hn2, (take_S_r _ j 0) by (apply list_lookup_insert_eq; lia). rewrite take_insert_ge by lia. rewrite <-app_assoc. split; [done|]. split; [cbn; lia|by constructor].
Qed.

(** ** A part of an indirect node *)

Lemma blank_nulls l a a' c : (a' <= a <= c)%nat -> (c <= length l)%nat -> (forall q, (a' <= q < a)%nat -> l !! q = Some NULL_ADDR) -> blank a' c l = blank a c l.
Proof.
  intros Ha Hc Hn. apply list_eq. intros q. rewrite !blank_lookup by lia. destruct (Nat.leb_spec a' q), (Nat.leb_spec a q), (Nat.ltb_spec q c); cbn; try done; try lia. symmetry. apply Hn. lia.
Qed.
Lemma fcut_widen {X} A Ns a a' c st (good : X -> Prop) res : (a' <= a <= c)%nat -> (c <= length (file_flat st))%nat -> (forall q, (a' <= q < a)%nat -> file_flat st !! q = Some NULL_ADDR) -> fcut A Ns a' c st good res -> fcut A Ns a c st good res.
Proof.
  intros Ha Hc Hn [(st1 & x & -> & Hx & He)|(e & st1 & fl & -> & Ht & Hfl & He)].
  - left. exists st1, x. split; [done|]. split; [done|]. by rewrite (blank_nulls _ a a' c) in He.
  - right. exists e, st1, fl. split; [done|]. split; [done|]. split; [|done]. apply list_eq. intros q. destruct (Nat.lt_ge_cases q a) as [Hq|Hq]; [|by rewrite !lookup_take_ge by lia]. rewrite !lookup_take_lt by done.
    destruct (Nat.lt_ge_cases q a'); [by rewrite <-(lookup_take_lt fl a'), <-(lookup_take_lt (file_flat st) a'), Hfl by done|]. rewrite (Hn q) by lia. destruct (Forall2_lookup_l _ _ _ _ _ Ht (Hn q ltac:(clear -Hq H4; lia))) as (b & -> & Hb). by destruct Hb as [-> | ->].
Qed.
Lemma tree_lookup A Ns st j kd c q : owned A Ns st -> root_kinds !! j = Some kd -> i_nid (fi st) !! j = Some c -> (q < cap kd.1)%nat -> file_flat st !! (d + root_pos j + q)%nat = tree_flat (pages st) kd.1 c !! q.
Proof.
  intros [Hf _] Hj Hc Hq. assert (Hl : length (tree_flat (pages st) kd.1 c) = cap kd.1) by (apply (root_length i Hi Hplain st j (kd, c) Hf), root_lookup; done).
  rewrite (whole_flat i st j kd c Hj Hc), !(app_assoc (own_addrs i st)). assert (Hpre : length (own_addrs i st ++ before st j) = (d + root_pos j)%nat) by (rewrite length_app, (own_length i st Hf), (roots_before i Hi Hplain st j Hf) by (apply lookup_lt_Some in Hj; cbn in Hj; lia); done).
  rewrite lookup_app_r by lia. rewrite lookup_app_l by lia. f_equal. lia.
Qed.
(** The children of one node from a slot on. *)
Lemma partial_clear A Ns ofs nid st k : nid <> 0 -> placed i 1 ofs -> owns A Ns 1 ofs nid st -> plain i st -> (k <= Z.to_nat N)%nat ->
  exists st1 r, clear_dnodes env nid (seqZ (Z.of_nat k) (N - Z.of_nat k)) st = Some (r, st1) /\
    ((r = inr tt /\ evolve A Ns 1 ofs nid nid (blank (k * cap 0) (cap 1) (tree_flat (pages st) 1 nid)) st st1) \/
     (exists e fl, r = inl (Env e) /\ thinned (tree_flat (pages st) 1 nid) fl /\ take (k * cap 0) fl = take (k * cap 0) (tree_flat (pages st) 1 nid) /\ evolve A Ns 1 ofs nid nid fl st st1)).
Proof.
  intros Hn Hpl Hw Hp Hk. pose proof nids_range. destruct (owns_page o i Hi Hplain _ _ _ _ _ _ Hn Hw) as (p & Ep & _). pose proof (clear_dnodes_run o env i Hi Hplain A Ns ofs nid (Z.to_nat N - k)%nat Hn Hpl k st p Hw Hp Ep ltac:(clear -Hk; lia)) as Hs.
  replace (Z.of_nat (Z.to_nat N - k)) with (N - Z.of_nat k) in Hs by lia. destruct Hs as [(st1 & [] & E & He & _)|(e & st1 & fl & E & Ht & Hfl & He)]; exists st1.
  - exists (inr tt). split; [exact E|]. left. split; [done|]. rewrite <-(flat_length B (block_fits i Hi Hplain) _ _ _ _ (proj1 Hw)) at 1. rewrite blank_end; rewrite (flat_length B (block_fits i Hi Hplain) _ _ _ _ (proj1 Hw)); cbn [FileTree.cap]; [|nia]. replace (Z.to_nat N * Z.to_nat B - k * Z.to_nat B)%nat with ((Z.to_nat N - k) * Z.to_nat B)%nat by nia. done.
  - exists (inl (Env e)). split; [exact E|]. right. by exists e, fl.
Qed.
Lemma evolve_from_tick A Ns h q n n' fl st st' : evolve A Ns h q n n' fl (tick st) st' -> evolve A Ns h q n n' fl st st'.
Proof. intros [X1 X2 X3 X4 X5 X6 X7]. constructor; try done. by destruct X1. Qed.
Lemma owned_tick A Ns st : owned A Ns st -> owned A Ns (tick st).
Proof. intros Ho. by apply (fevolve_tick o i A Ns (file_flat st) st st (fevolve_refl o i A Ns st Ho)). Qed.
Lemma truncate_partial2_run A Ns st j q c k x : owned A Ns st -> root_kinds !! j = Some (1%nat, q) -> i_nid (fi st) !! j = Some c -> (0 < k < Z.to_nat N)%nat -> c <> 0 ->
  fcut A Ns (d + root_pos j + k * cap 0) (d + root_pos (Datatypes.S j)) st (fun offs => offs = [NODE_DIR1_BLOCK + Z.of_nat j + 1; 0; x]) (truncate_partial_nodes env [NODE_DIR1_BLOCK + Z.of_nat j; Z.of_nat k; x] 2 st).
Proof.
  intros Hw Hj Hc Hk Hc0. destruct (root_placed i Hi j _ Hj) as (Hpl & _ & Hnext). pose proof (root_owns o i A Ns st j _ c Hw Hj Hc) as Hro. cbn [fst snd] in *. pose proof Hw as [Hf _]. pose proof (fo_plain _ _ Hf) as Hp.
  unfold truncate_partial_nodes. rewrite (bind_ok _ _ _ _ _ (get_root_run st j c Hc)), (proj2 (Z.eqb_neq c 0)) by done. cbn [removelast partial_path]. rewrite bind_bind.
  destruct (owns_page o i Hi Hplain _ _ _ _ _ _ Hc0 Hro) as (p & Ep & _ & _ & Hr & _). destruct (get_page_run env st c p Hr Ep) as [E|(e & E)]; [|rewrite (bind_err _ _ _ _ _ E); by apply fcut_failed].
  rewrite (bind_ok _ _ _ _ _ E), bind_ret. cbv beta iota zeta. destruct (partial_clear (rsib_addrs i A st j) (rsib_nodes Ns st j) q c (tick st) k Hc0 Hpl) as (st1 & r & E1 & Hr1); [by apply owns_plain_tick|by constructor; apply Hp|lia|]. destruct Hr1 as [[-> He]|(e & fl & -> & Ht & Hfl & He)]; apply evolve_from_tick in He; cbn [pages tick] in *.
  - rewrite (bind_ok _ _ _ _ _ E1). rewrite (proj2 (Z.eqb_neq (Z.of_nat k) 0)), bind_ret by lia. change (Z.to_nat (2 - 2)) with 0%nat. cbn [lookup list_lookup some]. rewrite bind_ret. left. eexists st1, _. split; [reflexivity|]. split; [done|].
    rewrite Hnext, Nat.add_assoc. pose proof (tree_blank A Ns st j _ c (k * cap 0) (cap 1) Hw Hj Hc) as Ht. cbn [fst snd] in Ht. rewrite <-Ht by (cbn [FileTree.cap]; nia). by apply (root_step_same o i Hi Hplain A Ns st j _ c Hw Hj Hc).
  - rewrite (bind_err _ _ _ _ _ E1). right. exists e, st1, (own_addrs i st ++ before st j ++ fl ++ after st j). split; [done|]. destruct (tree_thinned A Ns st j _ c fl (k * cap 0) Hw Hj Hc Ht Hfl) as [T1 T2]. split; [done|]. split; [done|]. by apply (root_step_same o i Hi Hplain A Ns st j _ c Hw Hj Hc).
Qed.
(** One child of an indirect node, seen from that node. *)
Lemma child_blank A Ns h ofs nid p st (k : nat) c a b : nid <> 0 -> owns A Ns (Datatypes.S h) ofs nid st -> pages st !! nid = Some p -> (k < Z.to_nat N)%nat -> words p !! k = Some c -> (a <= b <= cap h)%nat ->
  concat (tree_flat (pages st) h <$> take k (take (Z.to_nat N) (words p))) ++ blank a b (tree_flat (pages st) h c) ++ concat (tree_flat (pages st) h <$> drop (Datatypes.S k) (take (Z.to_nat N) (words p))) = blank (k * cap h + a) (k * cap h + b) (tree_flat (pages st) (Datatypes.S h) nid).
Proof.
  intros Hn Hw Ep Hk Hc Hab. destruct (slot_flat o i Hi Hplain A Ns h ofs nid Hn st p k c Hw Ep Hk Hc) as (_ & _ & Hl). rewrite blank_part by lia. rewrite (before_length o i Hi Hplain A Ns h ofs nid p st k Hn Hw Ep Hk). by rewrite (parent_flat i h nid p st k c Hn Ep Hk Hc).
Qed.
Lemma child_thinned A Ns h ofs nid p st (k : nat) c a fl : nid <> 0 -> owns A Ns (Datatypes.S h) ofs nid st -> pages st !! nid = Some p -> (k < Z.to_nat N)%nat -> words p !! k = Some c -> thinned (tree_flat (pages st) h c) fl -> take a fl = take a (tree_flat (pages st) h c) ->
  let fl' := concat (tree_flat (pages st) h <$> take k (take (Z.to_nat N) (words p))) ++ fl ++ concat (tree_flat (pages st) h <$> drop (Datatypes.S k) (take (Z.to_nat N) (words p))) in
  thinned (tree_flat (pages st) (Datatypes.S h) nid) fl' /\ take (k * cap h + a) fl' = take (k * cap h + a) (tree_flat (pages st) (Datatypes.S h) nid).
Proof.
  intros Hn Hw Ep Hk Hc Ht Ha. cbv zeta. rewrite (parent_flat i h nid p st k c Hn Ep Hk Hc). split; [apply thinned_app; [apply thinned_refl|]; apply thinned_app; [done|apply thinned_refl]|].
  pose proof (before_length o i Hi Hplain A Ns h ofs nid p st k Hn Hw Ep Hk) as Hb. set (l1 := concat (_ <$> take k _)) in *. rewrite !(take_app l1), Hb. replace (k * cap h + a - k * cap h)%nat with a by lia. f_equal. by rewrite !take_app, Ha, <-(Forall2_length Ht).
Qed.
Lemma truncate_partial3_run A Ns st q c p (k1 k2 : nat) c1 x : owned A Ns st -> root_kinds !! 4%nat = Some (2%nat, q) -> i_nid (fi st) !! 4%nat = Some c -> c <> 0 -> pages st !! c = Some p -> (k1 < Z.to_nat N)%nat -> (0 < k2 < Z.to_nat N)%nat -> words p !! k1 = Some c1 ->
  let res := truncate_partial_nodes env [NODE_DIR1_BLOCK + Z.of_nat 4; Z.of_nat k1; Z.of_nat k2; x] 3 st in
  fcut A Ns (d + root_pos 4 + (k1 * cap 1 + k2 * cap 0)) (d + root_pos 4 + Datatypes.S k1 * cap 1) st (fun offs => offs = [NODE_DIR1_BLOCK + Z.of_nat 4; Z.of_nat k1 + 1; 0; x]) res \/ (c1 = 0 /\ res = Some (inl ENOENT, tick st)).
Proof.
  intros Hw Hj Hc Hc0 Ep Hk1 Hk2 Hc1. cbv zeta. destruct (root_placed i Hi 4 _ Hj) as (Hpl & _ & _). pose proof (root_owns o i A Ns st 4 _ c Hw Hj Hc) as Hro. cbn [fst snd] in *. pose proof Hw as [Hf _]. pose proof (fo_plain _ _ Hf) as Hp.
  unfold truncate_partial_nodes. rewrite (bind_ok _ _ _ _ _ (get_root_run st 4 c Hc)), (proj2 (Z.eqb_neq c 0)) by done. cbn [removelast partial_path]. rewrite !bind_bind.
  destruct (owns_page o i Hi Hplain _ _ _ _ _ _ Hc0 Hro) as (p' & Ep' & _ & _ & Hr & _). rewrite Ep in Ep'. injection Ep' as <-. destruct (get_page_run env st c p Hr Ep) as [E|(e & E)]; [|left; rewrite (bind_err _ _ _ _ _ E); by apply fcut_failed].
  rewrite (bind_ok _ _ _ _ _ E), bind_bind, (bind_ok _ _ _ _ _ (get_nid_run (tick st) c p k1 c1 Ep Hc1)), bind_bind. destruct (decide (c1 = 0)) as [->|Hc10]; [by right|left].
  pose proof (child_owns o i _ _ _ _ c p (tick st) k1 c1 Hc0 (owns_plain_tick _ _ _ _ _ _ _ _ Hro) Ep Hk1 Hc1) as Hch. assert (Hplc : placed i 1 (child_ofs 2 q (Z.of_nat k1))) by (destruct (Hpl (Z.of_nat k1)) as [HX _]; [lia|exact HX]).
  destruct (owns_page o i Hi Hplain _ _ _ _ _ _ Hc10 Hch) as (p1 & Ep1 & _ & _ & Hr1 & _). destruct (get_page_run env (tick st) c1 p1 Hr1 Ep1) as [E1|(e & E1)]; [|rewrite (bind_err _ _ _ _ _ E1); apply fcut_from_tick, fcut_failed; by apply owned_tick].
  rewrite (bind_ok _ _ _ _ _ E1), bind_ret. cbv beta iota zeta. destruct (partial_clear _ _ _ c1 (tick (tick st)) k2 Hc10 Hplc (owns_plain_tick _ _ _ _ _ _ _ _ Hch)) as (st1 & r & E2 & Hr2); [by constructor; apply Hp|lia|].
  assert (Hcap : (k1 * cap 1 + cap 1 <= cap 2)%nat) by (change (cap 2) with (Z.to_nat N * cap 1)%nat; nia). assert (Hcap2 : (k2 * cap 0 <= cap 1)%nat) by (change (cap 1) with (Z.to_nat N * cap 0)%nat; nia).
  destruct Hr2 as [[-> He]|(e & fl & -> & Ht & Hfl & He)]; apply evolve_from_tick in He; apply (child_step_same o i Hi Hplain _ _ _ _ c p (tick st) k1 c1 Hc0 (owns_plain_tick _ _ _ _ _ _ _ _ Hro) Ep Hk1 Hc1 Hpl) in He; apply evolve_from_tick in He; cbn [pages tick] in *.
  - rewrite (bind_ok _ _ _ _ _ E2). rewrite (proj2 (Z.eqb_neq (Z.of_nat k2) 0)), bind_ret by lia. change (Z.to_nat (3 - 2)) with 1%nat. cbn [lookup list_lookup some]. rewrite bind_ret. left. eexists st1, _. split; [reflexivity|]. split; [done|].
    rewrite (child_blank (rsib_addrs i A st 4) (rsib_nodes Ns st 4) 1 q c p st k1 c1) in He by (done || lia). replace (d + root_pos 4 + Datatypes.S k1 * cap 1)%nat with (d + root_pos 4 + (k1 * cap 1 + cap 1))%nat by lia. pose proof (tree_blank A Ns st 4 _ c (k1 * cap 1 + k2 * cap 0) (k1 * cap 1 + cap 1) Hw Hj Hc) as Ht. cbn [fst snd] in Ht. rewrite <-Ht by lia. by apply (root_step_same o i Hi Hplain A Ns st 4 _ c Hw Hj Hc).
  - rewrite (bind_err _ _ _ _ _ E2). right. destruct (child_thinned (rsib_addrs i A st 4) (rsib_nodes Ns st 4) 1 q c p st k1 c1 (k2 * cap 0) fl) as [Ht1 Hfl1]; try done. set (fl1 := concat _ ++ fl ++ _) in *. exists e, st1, (own_addrs i st ++ before st 4 ++ fl1 ++ after st 4). split; [done|]. destruct (tree_thinned A Ns st 4 _ c fl1 (k1 * cap 1 + k2 * cap 0) Hw Hj Hc Ht1 Hfl1) as [T1 T2]. split; [done|]. split; [done|]. by apply (root_step_same o i Hi Hplain A Ns st 4 _ c Hw Hj Hc).
Qed.

(** ** The path of a block *)

Ltac path_steps := repeat match goal with |- context [?a <? ?b] => first [rewrite (proj2 (Z.ltb_lt a b)) by lia | rewrite (proj2 (Z.ltb_ge a b)) by lia] end.
Lemma path_own b : 0 <= b < D -> get_node_path i b = Some {| level := 0; offset := [b]; noffset := [0] |}.
Proof. intros Hb. unfold get_node_path. path_steps. done. Qed.
Lemma path_dnode m x : 0 <= m < 2 -> 0 <= x < B -> get_node_path i (D + m * B + x) = Some {| level := 1; offset := [NODE_DIR1_BLOCK + m; x]; noffset := [0; 1 + m] |}.
Proof.
  intros Hm Hx. unfold get_node_path. destruct node_places as (P2 & _). assert (m = 0 \/ m = 1) as [-> | ->] by lia; path_steps.
  - replace (D + 0 * B + x - D) with x by lia. by rewrite Z.add_0_r.
  - replace (D + 1 * B + x - D - B) with x by lia. by rewrite P2.
Qed.
Lemma path_ind_at q k x : (q = 0 \/ q = 1) -> 0 <= k < N -> 0 <= x < B -> get_node_path i (D + (2 + q * N + k) * B + x) = Some {| level := 2; offset := [NODE_DIR1_BLOCK + 2 + q; k; x]; noffset := [0; 3 + q * (N + 1); child_ofs 1 (3 + q * (N + 1)) k] |}.
Proof.
  intros Hq Hk Hx. unfold get_node_path. destruct node_places as (_ & P3 & P4 & _). assert (Hkb : 0 <= k * B /\ k * B + B <= N * B) by nia. assert (Eq : (x + k * B) / B = k /\ (x + k * B) mod B = x) by (rewrite Z.div_add, Z.mod_add, Z.div_small, Z.mod_small by lia; lia). destruct Eq as [Eq1 Eq2].
  pose proof nids_range. cbn [child_ofs]. destruct Hq as [-> | ->]; path_steps.
  - replace (D + (2 + 0 * N + k) * B + x - D - B - B) with (x + k * B) by lia. rewrite Eq1, Eq2, P3, u32_small by lia. do 2 f_equal; repeat match goal with |- _ :: _ = _ :: _ => f_equal end; lia.
  - replace (D + (2 + 1 * N + k) * B + x - D - B - B - B * N) with (x + k * B) by lia. rewrite Eq1, Eq2, P4, !u32_small by lia. do 2 f_equal; repeat match goal with |- _ :: _ = _ :: _ => f_equal end; lia.
Qed.
Lemma path_dind_at k1 k2 x : 0 <= k1 < N -> 0 <= k2 < N -> 0 <= x < B -> get_node_path i (D + (2 + 2 * N + k1 * N + k2) * B + x) = Some {| level := 3; offset := [NODE_DIR1_BLOCK + 4; k1; k2; x]; noffset := [0; 5 + 2 * N; child_ofs 2 (5 + 2 * N) k1; child_ofs 1 (child_ofs 2 (5 + 2 * N) k1) k2] |}.
Proof.
  intros Hk1 Hk2 Hx. unfold get_node_path. destruct node_places as (_ & _ & _ & P5). pose proof (iok_block i Hi) as HB. assert (Hkb : 0 <= k2 * B /\ k2 * B + B <= N * B) by nia. assert (Hkc : 0 <= k1 * (N * B) /\ k1 * (N * B) + N * B <= N * (N * B)) by nia.
  pose proof nids_range. path_steps. replace (D + (2 + 2 * N + k1 * N + k2) * B + x - D - B - B - B * N - B * N) with (x + k2 * B + k1 * (B * N)) by lia.
  assert (E1 : (x + k2 * B + k1 * (B * N)) / (B * N) = k1) by (rewrite Z.div_add, Z.div_small by nia; lia). replace (x + k2 * B + k1 * (B * N)) with (x + (k2 + k1 * N) * B) in * by lia.
  assert (E2 : (x + (k2 + k1 * N) * B) / B = k2 + k1 * N) by (rewrite Z.div_add, Z.div_small by lia; lia). assert (E3 : (x + (k2 + k1 * N) * B) mod B = x) by (rewrite Z.mod_add, Z.mod_small by lia; lia). rewrite E1, E2, E3, Z.mod_add, Z.mod_small, P5 by lia. cbn [child_ofs]. assert (0 <= k1 * (N + 1) <= 1018 * 1019) by nia. rewrite !u32_small by lia. do 2 f_equal; repeat match goal with |- _ :: _ = _ :: _ => f_equal end; lia.
Qed.
Lemma max_pos : Z.of_nat (d + root_pos 5) = max_inode_blocks i.
Proof. pose proof (iok_direct i Hi). unfold max_inode_blocks. cbn [FileTrunc.root_pos]. rewrite !Nat2Z.inj_add, (cap0 i Hi), (cap1 i Hi), (cap2 i Hi). lia. Qed.

(** ** The whole function *)

Definition offs_then (partial : bool) (offs : list Z) (level : Z) (tail : list Z -> M (S := T) unit) : M (S := T) unit :=
  offs <- (if (level =? 2) || (level =? 3) then
             if partial then r <- catch (truncate_partial_nodes env offs level);; match r with inl ENOENT => ret offs | inl e => err e | inr o => ret o end
             else ret offs
           else if level =? 1 then ret offs else trap);;
  tail offs.
Definition roots_tail (nofs : Z) (offs : list Z) : M (S := T) unit := match offs with off0 :: off1 :: _ => truncate_roots env 5 off0 off1 nofs | _ => trap end.
Lemma truncate_inode_blocks_eq from p st : shape (fi st) = i -> get_node_path i from = Some p -> exists nofs, f2fs_truncate_inode_blocks env from st = bind (get_inode_page env) (fun _ => offs_then (negb (default 0 (last_of (removelast (offset p))) =? 0)) (offset p) (level p) (roots_tail nofs)) st.
Proof.
  intros Es Hp. exists (if level p =? 3 then 5 + 2 * N else default 0 (noffset p !! 1%nat) + (if (level p =? 2) && negb (default 0 (last_of (removelast (offset p))) =? 0) then 1 + N else 0)).
  unfold f2fs_truncate_inode_blocks, offs_then, roots_tail. rewrite bind_get, Es, Hp. reflexivity.
Qed.
Lemma tail_run A Ns st j k kd nofs x rest : owned A Ns st -> root_kinds !! j = Some kd -> (k <= match kd.1 with O => 0 | _ => Z.to_nat N end)%nat -> x = NODE_DIR1_BLOCK + Z.of_nat j ->
  fcut A Ns (d + root_pos j + k * unit_of kd.1) (d + root_pos 5) st (fun _ => True) (roots_tail nofs (x :: Z.of_nat k :: rest) st).
Proof. intros Hw Hj Hk ->. cbn [roots_tail]. apply truncate_roots_run; [clear; lia|exact Hj|exact Hk|exact Hw]. Qed.
Lemma partial_run {Y} A Ns a b c st st0 (good : list Z -> Prop) (good' : Y -> Prop) offs level (f : list Z -> M (S := T) Y) : (a <= b <= c)%nat -> (c <= length (file_flat st))%nat -> st0 = st ->
  fcut A Ns a b st good (truncate_partial_nodes env offs level st) -> (forall x st1, good x -> owned A Ns st1 -> length (file_flat st1) = length (file_flat st) -> fcut A Ns b c st1 good' (f x st1)) ->
  fcut A Ns a c st good' ((x <- (r <- catch (truncate_partial_nodes env offs level);; match r with inl ENOENT => ret offs | inl e => err e | inr o => ret o end);; f x) st0).
Proof.
  intros Hab Hc -> Hp Hf. eapply fcut_bind; [exact Hab|exact Hc| |exact Hf]. destruct Hp as [(st1 & x & E & Hx & He)|(e & st1 & fl & E & Ht & Hfl & He)]; rewrite (bind_catch _ _ _ _ _ E); [left; by exists st1, x|right; by exists e, st1, fl].
Qed.
Lemma inode_blocks_dnode A Ns st j kd k x nofs : owned A Ns st -> root_kinds !! j = Some kd -> kd.1 = 0%nat -> k = 0 \/ i_nid (fi st) !! j = Some 0 ->
  fcut A Ns (d + root_pos j) (d + root_pos 5) st (fun _ => True) (offs_then x [NODE_DIR1_BLOCK + Z.of_nat j; k] 1 (roots_tail nofs) st).
Proof.
  intros Hw Hj Hkd Hk. destruct (decide (k = 0)) as [->|Hk0].
  { pose proof (tail_run A Ns st j 0 kd nofs _ [] Hw Hj ltac:(clear; lia) eq_refl) as Ht. rewrite Hkd, Nat.add_0_r in Ht. exact Ht. }
  destruct Hk as [|Hc]; [done|]. assert (Hj2 : (j < 2)%nat) by (apply root_cases in Hj as [(-> & ?)|[(-> & ?)|[(-> & ->)|[(-> & ->)|(-> & ->)]]]]; (lia || discriminate Hkd)). destruct node_places as (P2 & _ & _ & P5).
  destruct (root_placed i Hi j kd Hj) as (_ & _ & Hnext). rewrite Hkd in Hnext. pose proof (flat_total A Ns st Hw) as Htot. pose proof (root_pos_mono (Datatypes.S j) 5 ltac:(clear -Hj2; lia)) as Hmono.
  change (offs_then x [NODE_DIR1_BLOCK + Z.of_nat j; k] 1 (roots_tail nofs) st) with (truncate_roots env 5 (NODE_DIR1_BLOCK + Z.of_nat j) k nofs st). rewrite truncate_roots_eq, (bind_ok _ _ _ _ _ (get_root_run st j 0 Hc)).
  assert (Er : root_kill (NODE_DIR1_BLOCK + Z.of_nat j) k nofs 0 st = Some (inr 1, st)) by (rewrite (root_kill_kind j kd) by done; by rewrite Hkd). rewrite (bind_catch _ _ _ _ _ Er), bind_ret, (bind_ok _ _ _ _ _ (get_root_run st j 0 Hc)), (proj2 (Z.eqb_neq k 0)) by done. cbn [andb]. rewrite bind_ret, (proj2 (Z.eqb_neq _ NODE_DIND_BLOCK)) by lia.
  assert (Hj4 : (Datatypes.S j < length root_kinds)%nat) by (cbn; lia). destruct (lookup_lt_is_Some_2 _ _ Hj4) as [kd' Hj']. pose proof (truncate_roots_run 4 (Datatypes.S j) 0 A Ns st (nofs + 1) kd' ltac:(clear -Hj2; lia) Hj' ltac:(clear; lia) Hw) as Ht. cbn [Nat.mul] in Ht. rewrite Nat.add_0_r in Ht. replace (NODE_DIR1_BLOCK + Z.of_nat (Datatypes.S j)) with (NODE_DIR1_BLOCK + Z.of_nat j + 1) in Ht by lia.
  apply (fcut_next A Ns _ (d + root_pos (Datatypes.S j)) _ st st); [lia|lia| |exact Ht]. rewrite (blank_nulls _ (d + root_pos (Datatypes.S j))), blank_empty by (try lia; intros y Hy; replace y with (d + root_pos j + (y - (d + root_pos j)))%nat by lia; rewrite (tree_lookup A Ns st j kd 0) by (rewrite ?Hkd; done || lia); rewrite flat_zero; apply lookup_replicate_2; rewrite Hkd; lia). by apply fevolve_refl.
Qed.
Lemma inode_blocks_ind A Ns st j q (k : nat) x nofs : owned A Ns st -> root_kinds !! j = Some (1%nat, q) -> (k < Z.to_nat N)%nat ->
  fcut A Ns (d + root_pos j + k * cap 0) (d + root_pos 5) st (fun _ => True) (offs_then (negb (Z.of_nat k =? 0)) [NODE_DIR1_BLOCK + Z.of_nat j; Z.of_nat k; x] 2 (roots_tail nofs) st).
Proof.
  intros Hw Hj Hk. pose proof (tail_run A Ns st j k _ nofs _ [x] Hw Hj ltac:(cbn; clear -Hk; lia) eq_refl) as Ht. cbn [fst unit_of] in Ht. unfold offs_then. change ((2 =? 2) || (2 =? 3)) with true. cbv iota. destruct (Z.eqb_spec (Z.of_nat k) 0) as [E|E]; cbn [negb]; [exact Ht|].
  pose proof (flat_total A Ns st Hw) as Htot. pose proof (lookup_lt_Some _ _ _ Hj) as Hj5. cbn in Hj5. pose proof (root_pos_mono (Datatypes.S j) 5 ltac:(clear -Hj5; lia)) as Hmono. destruct (root_placed i Hi j _ Hj) as (_ & _ & Hnext). cbn [fst] in Hnext. assert (Hcap : (k * cap 0 <= cap 1)%nat) by (change (cap 1) with (Z.to_nat N * cap 0)%nat; nia).
  destruct (lookup_lt_is_Some_2 (i_nid (fi st)) j) as [c Hc]; [rewrite (fo_nids _ _ (proj1 Hw)); done|]. destruct (decide (c = 0)) as [->|Hc0].
  - assert (Ep : truncate_partial_nodes env [NODE_DIR1_BLOCK + Z.of_nat j; Z.of_nat k; x] 2 st = Some (inr [NODE_DIR1_BLOCK + Z.of_nat j; Z.of_nat k; x], st)) by (unfold truncate_partial_nodes; rewrite (bind_ok _ _ _ _ _ (get_root_run st j 0 Hc)); done).
    apply (partial_run A Ns _ (d + root_pos j + k * cap 0) _ st _ (fun o => o = [NODE_DIR1_BLOCK + Z.of_nat j; Z.of_nat k; x])); [lia|lia|done|rewrite Ep; apply fcut_nothing; [done|lia|done]|]. intros offs st1 -> Hw1 Hl1. pose proof (tail_run A Ns st1 j k _ nofs _ [x] Hw1 Hj ltac:(cbn; clear -Hk; lia) eq_refl) as Ht1. exact Ht1.
  - apply (partial_run A Ns _ (d + root_pos (Datatypes.S j)) _ st _ (fun o => o = [NODE_DIR1_BLOCK + Z.of_nat j + 1; 0; x])); [lia|lia|done|apply (truncate_partial2_run A Ns st j q c k); (done || lia)|].
    intros offs st1 -> Hw1 Hl1. assert (Hj4 : (Datatypes.S j < length root_kinds)%nat) by (cbn; apply root_cases in Hj as [(-> & ?)|[(-> & ?)|[(-> & ?)|[(-> & ?)|(-> & Hkd)]]]]; [lia..|discriminate Hkd]). destruct (lookup_lt_is_Some_2 _ _ Hj4) as [kd' Hj']. pose proof (tail_run A Ns st1 (Datatypes.S j) 0 kd' nofs (NODE_DIR1_BLOCK + Z.of_nat j + 1) [x] Hw1 Hj' ltac:(clear; lia) ltac:(clear; lia)) as Ht1. cbn [Nat.mul] in Ht1. by rewrite Nat.add_0_r in Ht1.
Qed.
(** Blocks below a child that is not there are holes. *)
Lemma hole_child A Ns h ofs nid p st (k : nat) q : nid <> 0 -> owns A Ns (Datatypes.S h) ofs nid st -> pages st !! nid = Some p -> (k < Z.to_nat N)%nat -> words p !! k = Some 0 -> (k * cap h <= q < k * cap h + cap h)%nat -> tree_flat (pages st) (Datatypes.S h) nid !! q = Some NULL_ADDR.
Proof.
  intros Hn Hw Ep Hk Hc Hq. rewrite (parent_flat i h nid p st k 0 Hn Ep Hk Hc). pose proof (before_length o i Hi Hplain A Ns h ofs nid p st k Hn Hw Ep Hk) as Hb. rewrite lookup_app_r, Hb by lia. rewrite flat_zero. rewrite lookup_app_l by (rewrite length_replicate; lia). apply lookup_replicate_2. lia.
Qed.
Lemma inode_blocks_dind A Ns st (k1 k2 : nat) x nofs : owned A Ns st -> (k1 < Z.to_nat N)%nat -> (k2 < Z.to_nat N)%nat ->
  fcut A Ns (d + root_pos 4 + (k1 * cap 1 + k2 * cap 0)) (d + root_pos 5) st (fun _ => True) (offs_then (negb (Z.of_nat k2 =? 0)) [NODE_DIR1_BLOCK + Z.of_nat 4; Z.of_nat k1; Z.of_nat k2; x] 3 (roots_tail nofs) st).
Proof.
  intros Hw Hk1 Hk2. assert (Hj : root_kinds !! 4%nat = Some (2%nat, 5 + 2 * N)) by done. assert (Htail : forall st1, owned A Ns st1 -> fcut A Ns (d + root_pos 4 + k1 * cap 1) (d + root_pos 5) st1 (fun _ => True) (roots_tail nofs [NODE_DIR1_BLOCK + Z.of_nat 4; Z.of_nat k1; Z.of_nat k2; x] st1)).
  { intros st1 Hw1. pose proof (tail_run A Ns st1 4 k1 _ nofs _ [Z.of_nat k2; x] Hw1 Hj ltac:(cbn; clear -Hk1; lia) eq_refl) as Ht. exact Ht. }
  unfold offs_then. change ((3 =? 2) || (3 =? 3)) with true. cbv iota. destruct (Z.eqb_spec (Z.of_nat k2) 0) as [E|E]; cbn [negb]; [assert (k2 = 0%nat) as -> by lia; rewrite Nat.mul_0_l, Nat.add_0_r; by apply Htail|].
  pose proof (flat_total A Ns st Hw) as Htot. assert (Hcap1 : (k2 * cap 0 + cap 0 <= cap 1)%nat) by (change (cap 1) with (Z.to_nat N * cap 0)%nat; nia). assert (Hcap2 : (k1 * cap 1 + cap 1 <= cap 2)%nat) by (change (cap 2) with (Z.to_nat N * cap 1)%nat; nia). assert (E5 : root_pos 5 = (root_pos 4 + cap 2)%nat) by done.
  destruct (lookup_lt_is_Some_2 (i_nid (fi st)) 4) as [c Hc]; [rewrite (fo_nids _ _ (proj1 Hw)); lia|]. pose proof (root_owns o i A Ns st 4 _ c Hw Hj Hc) as Hro. cbn [fst snd] in Hro.
  destruct (decide (c = 0)) as [->|Hc0].
  { assert (Ep : truncate_partial_nodes env [NODE_DIR1_BLOCK + Z.of_nat 4; Z.of_nat k1; Z.of_nat k2; x] 3 st = Some (inr [NODE_DIR1_BLOCK + Z.of_nat 4; Z.of_nat k1; Z.of_nat k2; x], st)) by (unfold truncate_partial_nodes; rewrite (bind_ok _ _ _ _ _ (get_root_run st 4 0 Hc)); done).
    rewrite bind_bind, (bind_catch _ _ _ _ _ Ep), bind_ret. apply (fcut_widen A Ns _ (d + root_pos 4 + k1 * cap 1)); [lia|lia| |by apply Htail]. intros y Hy. replace y with (d + root_pos 4 + (y - (d + root_pos 4)))%nat by lia. rewrite (tree_lookup A Ns st 4 _ 0) by (done || (cbn [fst]; lia)). rewrite flat_zero. apply lookup_replicate_2. cbn [fst]. lia. }
  destruct (owns_page o i Hi Hplain _ _ _ _ _ _ Hc0 Hro) as (p & Ep & Hl & _). destruct words_fit. destruct (lookup_lt_is_Some_2 (words p) k1) as [c1 Hc1]; [lia|]. destruct (truncate_partial3_run A Ns st _ c p k1 k2 c1 x Hw Hj Hc Hc0 Ep Hk1 ltac:(clear -Hk2 E; lia) Hc1) as [Hr|[-> Er]].
  - apply (partial_run A Ns _ (d + root_pos 4 + Datatypes.S k1 * cap 1) _ st _ (fun o => o = [NODE_DIR1_BLOCK + Z.of_nat 4; Z.of_nat k1 + 1; 0; x])); [lia|lia|done|exact Hr|]. intros offs st1 -> Hw1 Hl1.
    pose proof (tail_run A Ns st1 4 (Datatypes.S k1) _ nofs _ [0; x] Hw1 Hj ltac:(cbn; clear -Hk1; lia) eq_refl) as Ht. cbn [fst unit_of] in Ht. replace (Z.of_nat (Datatypes.S k1)) with (Z.of_nat k1 + 1) in Ht by lia. exact Ht.
  - rewrite bind_bind, (bind_catch _ _ _ _ _ Er), bind_ret. apply fcut_from_tick, (fcut_widen A Ns _ (d + root_pos 4 + k1 * cap 1)); [lia|change (FileTrunc.file_flat i (tick st)) with (file_flat st); lia| |by apply Htail, owned_tick].
    change (FileTrunc.file_flat i (tick st)) with (file_flat st). intros y Hy. replace y with (d + root_pos 4 + (y - (d + root_pos 4)))%nat by lia. rewrite (tree_lookup A Ns st 4 _ c) by (done || (cbn [fst]; lia)). cbn [fst]. apply (hole_child _ _ 1 _ c p st k1 _ Hc0 Hro Ep Hk1 Hc1). lia.
Qed.
(** Every direct node is one of these. *)
Lemma dnode_cases m : 0 <= m -> D + m * B < max_inode_blocks i -> 0 <= m < 2 \/ (exists q k, (q = 0 \/ q = 1) /\ 0 <= k < N /\ m = 2 + q * N + k) \/ exists k1 k2, 0 <= k1 < N /\ 0 <= k2 < N /\ m = 2 + 2 * N + k1 * N + k2.
Proof.
  intros Hm. unfold max_inode_blocks. pose proof (iok_block i Hi) as HB. pose proof nids_range as HN. intros Hx. destruct (Z.lt_ge_cases m 2); [left; lia|right]. destruct (Z.lt_ge_cases m (2 + N)); [left; exists 0, (m - 2); lia|]. destruct (Z.lt_ge_cases m (2 + 2 * N)); [left; exists 1, (m - 2 - N); lia|].
  right. set (u := m - 2 - 2 * N). exists (u / N), (u mod N). assert (0 < N) as HpN by lia. pose proof (Z.mod_pos_bound u N HpN). pose proof (Z.div_mod u N (Z.neq_sym _ _ (Z.lt_neq _ _ HpN))). assert (u < N * N) by nia. split; [|split; [done|lia]]. split; [apply Z.div_pos; lia|]. apply Z.div_lt_upper_bound; lia.
Qed.
Lemma truncate_inode_blocks_run A Ns st m x : owned A Ns st -> 0 <= m -> D + m * B < max_inode_blocks i -> 0 <= x < B -> x = 0 \/ 2 <= m \/ i_nid (fi st) !! Z.to_nat m = Some 0 ->
  fcut A Ns (Z.to_nat (D + m * B)) (d + root_pos 5) st (fun _ => True) (f2fs_truncate_inode_blocks env (D + m * B + x) st).
Proof.
  intros Hw Hm Hmax Hx Hxm. pose proof (iok_block i Hi) as HB. pose proof (iok_direct i Hi) as HD. pose proof nids_range as HN. pose proof (cap0 i Hi) as C0. pose proof (cap1 i Hi) as C1. pose proof (pl_shape _ _ (fo_plain _ _ (proj1 Hw))) as Hs. pose proof (owned_tick _ _ _ Hw) as Hwt.
  assert (Hgo : forall p (a : nat), get_node_path i (D + m * B + x) = Some p -> a = Z.to_nat (D + m * B) -> (forall nofs, fcut A Ns a (d + root_pos 5) (tick st) (fun _ => True) (offs_then (negb (default 0 (last_of (removelast (offset p))) =? 0)) (offset p) (level p) (roots_tail nofs) (tick st))) ->
    fcut A Ns (Z.to_nat (D + m * B)) (d + root_pos 5) st (fun _ => True) (f2fs_truncate_inode_blocks env (D + m * B + x) st)).
  { intros p a Hp <- Hr. destruct (truncate_inode_blocks_eq (D + m * B + x) p st Hs Hp) as [nofs ->]. unfold get_inode_page. destruct (ask_run env Env st) as [E|(e & E)]; [rewrite (bind_ok _ _ _ _ _ E); apply fcut_from_tick, Hr|rewrite (bind_err _ _ _ _ _ E); by apply fcut_failed]. }
  destruct (dnode_cases m Hm Hmax) as [Hm2|[(q & k & Hq & Hk & ->)|(k1 & k2 & Hk1 & Hk2 & ->)]].
  - pose proof (path_dnode m x Hm2 Hx) as Hp. assert (m = 0 \/ m = 1) as [-> | ->] by lia.
    + apply (Hgo _ (d + root_pos 0)%nat Hp); [cbn [FileTrunc.root_pos]; lia|]. intros nofs. apply (inode_blocks_dnode A Ns (tick st) 0 (0%nat, 1)); [done|done|done|]. destruct Hxm as [?|[?|Hc]]; [by left|lia|by right].
    + apply (Hgo _ (d + root_pos 1)%nat Hp); [cbn [FileTrunc.root_pos]; lia|]. intros nofs. apply (inode_blocks_dnode A Ns (tick st) 1 (0%nat, 2)); [done|done|done|]. destruct Hxm as [?|[?|Hc]]; [by left|lia|by right].
  - pose proof (path_ind_at q k x Hq Hk Hx) as Hp. assert (Ek : k = Z.of_nat (Z.to_nat k)) by lia. set (kn := Z.to_nat k) in *. assert (Hkn : (kn < Z.to_nat N)%nat) by lia. clearbody kn. subst k. destruct Hq as [-> | ->].
    + apply (Hgo _ (d + root_pos 2 + kn * cap 0)%nat Hp); [cbn [FileTrunc.root_pos]; nia|]. intros nofs. cbn [offset level removelast last_of]. replace (NODE_DIR1_BLOCK + 2 + 0) with (NODE_DIR1_BLOCK + Z.of_nat 2) by lia. by apply (inode_blocks_ind A Ns (tick st) 2 3 kn x nofs).
    + apply (Hgo _ (d + root_pos 3 + kn * cap 0)%nat Hp); [cbn [FileTrunc.root_pos]; nia|]. intros nofs. cbn [offset level removelast last_of]. replace (NODE_DIR1_BLOCK + 2 + 1) with (NODE_DIR1_BLOCK + Z.of_nat 3) by lia. by apply (inode_blocks_ind A Ns (tick st) 3 (4 + N) kn x nofs).
  - pose proof (path_dind_at k1 k2 x Hk1 Hk2 Hx) as Hp. assert (Ek1 : k1 = Z.of_nat (Z.to_nat k1)) by lia. assert (Ek2 : k2 = Z.of_nat (Z.to_nat k2)) by lia. set (u1 := Z.to_nat k1) in *. set (u2 := Z.to_nat k2) in *. assert (Hu : (u1 < Z.to_nat N)%nat /\ (u2 < Z.to_nat N)%nat) by lia. clearbody u1 u2. subst k1 k2.
    apply (Hgo _ (d + root_pos 4 + (u1 * cap 1 + u2 * cap 0))%nat Hp); [cbn [FileTrunc.root_pos]; nia|]. intros nofs. apply (inode_blocks_dind A Ns (tick st) u1 u2 x nofs); [done|apply Hu..].
Qed.
End trunc.
