(* ===== verification/FileLookup.v ===== *)
(** * Windows and look-up

    First one node as a window on the file; then the look-up of a block. *)

From S2P Require Import Prelude FreeNid NatCache NodePath FileMap FileTree FileCut FileTrunc.
#[local] Open Scope file_scope.

(** ** One node of a file as a window on its blocks

    [lens base r n]: the first [n] addresses in node [r] are those of the file from block
    [base] on, and a step that works on this array only is a step on the file. *)

Section lens.
Context {T : Type} `{BlockLaws T} (o : rest) (env : file_env) (i : node_inode) (Hi : inode_ok i) (Hplain : f2fs_compressed_file i = false).
Implicit Types (st : fsys T) (A Ns l fl : list Z) (h j : nat).
Notation acct := (acct o).
Notation N := NIDS_PER_BLOCK.
Notation B := (addrs_per_block i).
Notation D := (addrs_per_inode i).
Notation cap := (cap B).
Notation tree_flat := (tree_flat B).
Notation evolve := (evolve o i).
Notation owns := (owns o i).
Notation fevolve := (fevolve o i).
Notation owned := (owned o i).
Notation file_flat := (file_flat i).
Notation root_pos := (root_pos i).
Notation d := (Z.to_nat D).

(** ** Nothing but questions asked *)

Definition idle st st' : Prop := exists n, st' = Nat.iter n tick st.
Lemma idle_refl st : idle st st.
Proof. by exists 0%nat. Qed.
Lemma idle_tick st st' : idle (tick st) st' -> idle st st'.
Proof. intros [n ->]. exists (Datatypes.S n). by rewrite Nat.iter_succ_r. Qed.
Lemma idle_trans st st1 st2 : idle st st1 -> idle st1 st2 -> idle st st2.
Proof. intros [n ->] [m ->]. exists (m + n)%nat. by rewrite Nat.iter_add. Qed.
Lemma idle_ind (P : fsys T -> Prop) st st' : idle st st' -> P st -> (forall s, P s -> P (tick s)) -> P st'.
Proof. intros [n ->] H0' HS. induction n as [|n IH]; [done|]. rewrite Nat.iter_succ. by apply HS. Qed.
Lemma idle_same {X} (f : fsys T -> X) st st' : (forall s, f (tick s) = f s) -> idle st st' -> f st' = f st.
Proof. intros Hf Hid. apply (idle_ind (fun s => f s = f st) st st' Hid); [done|]. intros s <-. apply Hf. Qed.
Lemma idle_evolve A Ns fl st st1 st2 : idle st st1 -> fevolve A Ns fl st1 st2 -> fevolve A Ns fl st st2.
Proof. intros [n ->]. induction n as [|n IH]; [done|]. rewrite Nat.iter_succ. intros He. by apply IH, fevolve_from_tick. Qed.
Lemma idle_owned A Ns st st' : idle st st' -> owned A Ns st -> owned A Ns st'.
Proof. intros Hid Hw. apply (idle_ind _ st st' Hid Hw). intros s. apply owned_tick. Qed.

(** ** The window *)

Definition splice (a : nat) (x : list Z) l : list Z := take a l ++ x ++ drop (a + length x) l.
Lemma splice_length a x l : (a + length x <= length l)%nat -> length (splice a x l) = length l.
Proof. intros. unfold splice. rewrite !length_app, length_take, length_drop. lia. Qed.
Lemma splice_lookup a x l q : (a + length x <= length l)%nat -> splice a x l !! q = if (a <=? q)%nat && (q <? a + length x)%nat then x !! (q - a)%nat else l !! q.
Proof.
  intros Ha. unfold splice. destruct (Nat.leb_spec a q); cbn [andb].
  - rewrite lookup_app_r by (rewrite length_take; lia). rewrite length_take, Nat.min_l by lia. destruct (Nat.ltb_spec q (a + length x)); [by rewrite lookup_app_l by lia|]. rewrite lookup_app_r by lia. rewrite lookup_drop. f_equal. lia.
  - rewrite lookup_app_l by (rewrite length_take; lia). by rewrite lookup_take_lt.
Qed.
Lemma splice_part l1 l2 l3 a x : (a + length x <= length l2)%nat -> l1 ++ splice a x l2 ++ l3 = splice (length l1 + a) x (l1 ++ l2 ++ l3).
Proof.
  intros Ha. apply list_eq. intros q. rewrite splice_lookup by (rewrite !length_app; lia). destruct (Nat.lt_ge_cases q (length l1)).
  - rewrite !(lookup_app_l l1) by lia. destruct (Nat.leb_spec (length l1 + a) q); [lia|done].
  - rewrite !(lookup_app_r l1) by lia. destruct (Nat.lt_ge_cases (q - length l1) (length l2)).
    + rewrite (lookup_app_l (splice a x l2)) by (by rewrite splice_length). rewrite (lookup_app_l l2) by lia. rewrite splice_lookup by done. destruct (Nat.leb_spec a (q - length l1)), (Nat.leb_spec (length l1 + a) q), (Nat.ltb_spec (q - length l1) (a + length x)), (Nat.ltb_spec q (length l1 + a + length x)); try lia; cbn; [f_equal; lia|done..].
    + rewrite (lookup_app_r (splice a x l2)) by (by rewrite splice_length). rewrite (lookup_app_r l2) by lia. rewrite splice_length by done. destruct (Nat.ltb_spec q (length l1 + a + length x)); [lia|]. by rewrite andb_false_r.
Qed.
Lemma splice_whole x l : length x = length l -> splice 0 x l = x.
Proof. intros E. unfold splice. rewrite take_0. cbn. rewrite drop_ge by lia. by rewrite app_nil_r. Qed.

(** A direct node below a node of height [h]. *)
Definition focus A Ns h (ofs nid : Z) st (pos : nat) (m : Z) : Prop :=
  exists A1 N1 q, m <> 0 /\ owns A1 N1 0 q m st /\ start i 0 q = start i h ofs + Z.of_nat pos /\ (pos + cap 0 <= cap h)%nat /\
    (forall y, (y < cap 0)%nat -> tree_flat (pages st) h nid !! (pos + y)%nat = tree_flat (pages st) 0 m !! y) /\
    (forall fl st1, evolve A1 N1 0 q m m fl st st1 -> evolve A Ns h ofs nid nid (splice pos fl (tree_flat (pages st) h nid)) st st1).
Lemma evolve_length A Ns h q n n' fl st st' : evolve A Ns h q n n' fl st st' -> length fl = cap h.
Proof. intros He. rewrite <-(ev_flat _ _ _ _ _ _ _ _ _ _ _ He). by apply (flat_length B (block_fits i Hi Hplain) _ _ q), He. Qed.
Lemma focus_self A Ns q m st : m <> 0 -> owns A Ns 0 q m st -> focus A Ns 0 q m st 0 m.
Proof.
  intros Hm Hw. exists A, Ns, q. split; [done|]. split; [done|]. split; [lia|]. split; [lia|]. split; [done|]. intros fl st1 He. rewrite splice_whole; [done|]. rewrite (evolve_length _ _ _ _ _ _ _ _ _ He). symmetry. by apply (flat_length B (block_fits i Hi Hplain) _ _ q), Hw.
Qed.
Lemma focus_child A Ns h ofs nid p st k c pos m : nid <> 0 -> owns A Ns (Datatypes.S h) ofs nid st -> pages st !! nid = Some p -> (k < Z.to_nat N)%nat -> words p !! k = Some c -> placed i (Datatypes.S h) ofs ->
  focus (sib_addrs i A h p st k) (sib_nodes Ns h nid p st k) h (child_ofs (Datatypes.S h) ofs (Z.of_nat k)) c st pos m -> focus A Ns (Datatypes.S h) ofs nid st (k * cap h + pos) m.
Proof.
  intros Hn Hw Ep Hk Hc Hpl (A1 & N1 & q & Hm & Hw1 & Hst & Hpos & Hy & Hlift). destruct (slot_flat o i Hi Hplain A Ns h ofs nid Hn st p k c Hw Ep Hk Hc) as (_ & _ & Hl). pose proof (before_length o i Hi Hplain A Ns h ofs nid p st k Hn Hw Ep Hk) as Hb.
  exists A1, N1, q. split; [done|]. split; [done|]. split; [rewrite Hst, (child_start i h ofs k Hk Hpl), Nat2Z.inj_add; apply eq_sym, Z.add_assoc|]. assert (Hkc : (k * cap h + cap h <= Z.to_nat N * cap h)%nat) by (clear -Hk; nia). split; [change (cap (Datatypes.S h)) with (Z.to_nat N * cap h)%nat; lia|]. split.
  - intros y Hyl. rewrite <-(Hy y Hyl), (parent_flat i h nid p st k c Hn Ep Hk Hc), lookup_app_r, Hb by lia. rewrite lookup_app_l by lia. f_equal. lia.
  - intros fl st1 He. pose proof (evolve_length _ _ _ _ _ _ _ _ _ He) as Hfl. apply Hlift in He. apply (child_step_same o i Hi Hplain A Ns h ofs nid p st k c Hn Hw Ep Hk Hc Hpl) in He. rewrite splice_part, Hb in He by lia. by rewrite <-(parent_flat i h nid p st k c Hn Ep Hk Hc) in He.
Qed.

Definition lens A Ns st (base : nat) (r : node_ref) (n : nat) : Prop :=
  exists l q A1 N1, arr st r = Some l /\ (n <= length l)%nat /\ (base + n <= length (file_flat st))%nat /\ (forall y, (y < n)%nat -> file_flat st !! (base + y)%nat = l !! y) /\
    match r with AtInode => q = 0 | AtNode m => ofs_of_node <$> pages st !! m = Some q end /\ f2fs_start_bidx_of_node q i = Z.of_nat base /\ acct st (nonnull (take n l) ++ A1) N1 /\
    (forall l' st1, arr st1 r = Some l' -> length l' = length l -> quiet st st1 -> elsewhere r st st1 -> acct st1 (nonnull (take n l') ++ A1) N1 ->
       (forall j : Z, ~ (Z.of_nat base <= j < Z.of_nat base + Z.of_nat n) -> ext_view (ext_log st1) j = ext_view (ext_log st) j) -> (mirror (ext_log st) (Z.of_nat base) (take n l) -> mirror (ext_log st1) (Z.of_nat base) (take n l')) ->
       fevolve A Ns (splice base (take n l') (file_flat st)) st st1).
Lemma nids_leaf P m : m <> 0 -> tree_nids P 0 m = [m].
Proof. intros Hm. cbn. rewrite (proj2 (Z.eqb_neq _ _) Hm). by destruct (P !! m). Qed.
Lemma lens_node A Ns st j kd c pos m : owned A Ns st -> root_kinds !! j = Some kd -> i_nid (fi st) !! j = Some c -> focus (rsib_addrs i A st j) (rsib_nodes Ns st j) kd.1 kd.2 c st pos m ->
  lens A Ns st (d + root_pos j + pos) (AtNode m) (cap 0).
Proof.
  intros Hw Hj Hc (A1 & N1 & q & Hm & Hw1 & Hst & Hpos & Hy & Hlift). pose proof Hw as [Hf _]. pose proof (iok_direct i Hi) as HD. pose proof (flat_total o i Hi Hplain A Ns st Hw) as Htot. destruct (root_placed i Hi j kd Hj) as (_ & Hrs & Hnext). pose proof (root_pos_mono i (Datatypes.S j) 5 ltac:(apply lookup_lt_Some in Hj; cbn in Hj; clear -Hj; lia)) as Hmono.
  destruct (owns_page o i Hi Hplain _ _ _ _ _ _ Hm Hw1) as (p & Ep & Hl & Hofs & _ & HmN & _). destruct words_fit as [_ HWf]. pose proof (block_fits i Hi Hplain) as HB. assert (Hcapw : (cap 0 <= length (words p))%nat) by (cbn [FileTree.cap]; lia).
  assert (Ef : forall P p', P !! m = Some p' -> tree_flat P 0 m = take (cap 0) (words p')) by (intros P p' Ep'; by rewrite (flat_page B _ 0 m p' Hm Ep')).
  assert (Estart : start i 0 q = Z.of_nat (d + root_pos j + pos)) by (rewrite Hst, Hrs; lia). exists (words p), q, A1, (m :: N1). split; [cbn; by rewrite Ep|]. split; [done|]. split; [lia|]. split.
  { intros y Hyl. rewrite <-Nat.add_assoc, (tree_lookup o i Hi Hplain A Ns st j kd c) by (done || lia). rewrite Hy, (Ef _ _ Ep) by done. by apply lookup_take_lt. }
  split; [by rewrite Ep, <-Hofs|]. split; [by rewrite <-Estart|]. pose proof (proj2 Hw1) as Ha. rewrite (nids_leaf _ _ Hm), (Ef _ _ Ep) in Ha. split; [exact Ha|].
  intros l' st1 Hl' Hlen Q (W1 & W2 & W3) Ha1 Hout Hin. cbn in Hl'. destruct (pages st1 !! m) as [p1|] eqn:Ep1; [|done]. injection Hl' as Hw'. assert (He : evolve A1 N1 0 q m m (take (cap 0) l') st st1).
  { constructor.
    - destruct Q. by constructor.
    - intros m' Hm'. apply W3. by intros ->.
    - right. exists p1. split; [done|]. split; [by rewrite Hw', Hlen|]. split; [rewrite Ep in W2; cbn in W2; by injection W2 as ->|done].
    - by rewrite (Ef _ _ Ep1), Hw'.
    - rewrite (nids_leaf _ _ Hm). exact Ha1.
    - intros y Hyo. apply Hout. by rewrite Estart in Hyo.
    - rewrite Estart, (Ef _ _ Ep). exact Hin. }
  pose proof (evolve_length _ _ _ _ _ _ _ _ _ He) as Hfl. apply Hlift in He. apply (root_step_same o i Hi Hplain A Ns st j kd c Hw Hj Hc) in He.
  assert (Hlt : length (tree_flat (pages st) kd.1 c) = cap kd.1) by (apply (root_length i Hi Hplain st j (kd, c) Hf), root_lookup; done). rewrite app_assoc, splice_part, <-app_assoc, <-(whole_flat i st j kd c Hj Hc), length_app, (own_length i st Hf), (roots_before i Hi Hplain st j Hf) in He by (try lia; apply lookup_lt_Some in Hj; cbn in Hj; lia). exact He.
Qed.
Lemma lens_inode A Ns st : owned A Ns st -> lens A Ns st 0 AtInode d.
Proof.
  intros Hw. pose proof Hw as [Hf Ha]. pose proof Hf as [F1 F2 F3 F4]. pose proof (own_length i st Hf) as Hlen. pose proof (iok_direct i Hi) as HD. set (R := concat (root_flat i (pages st) <$> roots st)). exists (drop (Z.to_nat (extra_isize (fi st))) (i_addr (fi st))), 0, (nonnull R ++ A), (file_nids st ++ Ns).
  assert (Eflat : file_flat st = own_addrs i st ++ R) by done. split; [done|]. split; [rewrite length_drop; lia|]. split; [rewrite Eflat, length_app; lia|]. split.
  { intros y Hy. rewrite Nat.add_0_l, Eflat, lookup_app_l by lia. unfold own_addrs. by rewrite lookup_take_lt. }
  split; [done|]. split; [done|]. split; [unfold file_flat, FileTrunc.file_flat, nonnull in Ha; rewrite list.filter_app, <-app_assoc in Ha; exact Ha|].
  intros l' st1 Hl' Hll Q (W1 & W2) Ha1 Hout Hin. cbn in Hl'. injection Hl' as Hl'. assert (Hroots : roots st1 = roots st) by (unfold roots; by rewrite (qu_nid _ _ Q)).
  assert (Hown : own_addrs i st1 = take d l') by (unfold own_addrs; by rewrite <-Hl'). assert (Eflat1 : file_flat st1 = take d l' ++ R) by (unfold FileTrunc.file_flat; by rewrite Hown, Hroots, W1).
  assert (Htl : length (take d l') = d) by (rewrite length_take, Hll, length_drop; lia). assert (Esp : splice 0 (take d l') (file_flat st) = take d l' ++ R) by (unfold splice; rewrite take_0, Htl, Nat.add_0_l, Eflat, drop_app_length' by done; done).
  constructor.
  - destruct Q. by constructor.
  - intros m Hm. by rewrite W1.
  - split; [|rewrite Eflat1; unfold file_nids; rewrite Hroots, W1; unfold nonnull; rewrite list.filter_app, <-app_assoc; exact Ha1]. constructor.
    + destruct F1, Q. constructor; congruence.
    + assert (Hla : length l' = (length (i_addr (fi st1)) - Z.to_nat (extra_isize (fi st1)))%nat) by (by rewrite <-Hl', length_drop). rewrite Hll, length_drop in Hla. rewrite (qu_extra _ _ Q) in *. pose proof (f_equal length W2) as W3. rewrite !length_take in W3. lia.
    + by rewrite (qu_nid _ _ Q).
    + intros j x. rewrite Hroots, W1. apply F4.
  - by rewrite Eflat1, Esp.
  - intros Hm. rewrite Esp. rewrite Eflat in Hm. assert (Hm0 : mirror (ext_log st) (Z.of_nat 0) (take d (drop (Z.to_nat (extra_isize (fi st))) (i_addr (fi st))))) by (intros y a Hy; apply Hm; rewrite lookup_app_l; [exact Hy|]; by eapply lookup_lt_Some).
    specialize (Hin Hm0). intros y a Hy. destruct (Nat.lt_ge_cases y d); [rewrite lookup_app_l in Hy by lia; by apply Hin|]. rewrite Hout by lia. apply Hm. rewrite lookup_app_r in Hy |- * by lia. by rewrite Hlen, <-Htl.
Qed.
End lens.

(** ** The block map is looked up (node.c: f2fs_get_dnode_of_data)

    The path of [get_node_path] leads to the node whose window has the block, or to a hole. *)

Section lookup.
Context {T : Type} `{BlockLaws T} (o : rest) (env : file_env) (i : node_inode) (Hi : inode_ok i) (Hplain : f2fs_compressed_file i = false).
Implicit Types (st : fsys T) (A Ns l fl : list Z) (h j : nat).
Notation acct := (acct o).
Notation N := NIDS_PER_BLOCK.
Notation B := (addrs_per_block i).
Notation D := (addrs_per_inode i).
Notation cap := (cap B).
Notation tree_flat := (tree_flat B).
Notation evolve := (evolve o i).
Notation owns := (owns o i).
Notation fevolve := (fevolve o i).
Notation owned := (owned o i).
Notation file_flat := (file_flat i).
Notation root_pos := (root_pos i).
Notation focus := (focus o i).
Notation lens := (lens o i).
Notation d := (Z.to_nat D).

(** ** Slots on the path *)

Fixpoint slot_pos h (ks : list nat) : nat := match h, ks with Datatypes.S h', k :: ks => k * cap h' + slot_pos h' ks | _, _ => 0 end%nat.
Fixpoint ofs_path h (ofs : Z) (ks : list nat) : list Z := ofs :: match h, ks with Datatypes.S h', k :: ks => ofs_path h' (child_ofs h ofs (Z.of_nat k)) ks | _, _ => [] end.
Definition slots_ok h (ks : list nat) : Prop := length ks = h /\ Forall (fun k => (k < Z.to_nat N)%nat) ks.
Lemma slot_pos_fits h ks : slots_ok h ks -> (slot_pos h ks + cap 0 <= cap h)%nat.
Proof.
  revert ks. induction h as [|h IH]; intros ks [Hl Hf]; [cbn [slot_pos]; lia|]. destruct ks as [|k ks]; [done|]. apply list.Forall_cons in Hf as [Hk Hf]. cbn [slot_pos]. assert (Hs : slots_ok h ks) by (split; [by injection Hl|done]). specialize (IH ks Hs).
  change (cap (Datatypes.S h)) with (Z.to_nat N * cap h)%nat. assert ((k * cap h + cap h <= Z.to_nat N * cap h)%nat) by (clear -Hk; nia). lia.
Qed.
Record path_of (b : Z) (j : nat) (kd : nat * Z) (ks : list nat) (x : nat) : Prop := {
  po_root : root_kinds !! j = Some kd; po_slots : slots_ok kd.1 ks; po_last : (x < cap 0)%nat; po_block : b = Z.of_nat (d + root_pos j + slot_pos kd.1 ks + x);
  po_path : get_node_path i b = Some {| level := Z.of_nat kd.1 + 1; offset := (NODE_DIR1_BLOCK + Z.of_nat j) :: (Z.of_nat <$> ks) ++ [Z.of_nat x]; noffset := 0 :: ofs_path kd.1 kd.2 ks |}
}.
Lemma path_at b : D <= b < max_inode_blocks i -> exists j kd ks x, path_of b j kd ks x.
Proof.
  intros Hb. pose proof (iok_block i Hi) as HB. pose proof (iok_direct i Hi) as HD. pose proof nids_range as HN. pose proof (cap0 i Hi) as C0. pose proof (cap1 i Hi) as C1. set (m := (b - D) / B). set (x := (b - D) mod B). assert (HpB : 0 < B) by apply HB. pose proof (Z.div_mod (b - D) B (Z.neq_sym _ _ (Z.lt_neq _ _ HpB))) as Eb. pose proof (Z.mod_pos_bound (b - D) B HpB) as Hx. fold m x in Eb, Hx.
  assert (Hm : 0 <= m) by (apply Z.div_pos; lia). assert (E : b = D + m * B + x) by lia. rewrite E in *. clear Eb E. set (xn := Z.to_nat x). assert (Ex : x = Z.of_nat xn) by lia. clearbody x m xn. subst x. assert (Hxn : (xn < cap 0)%nat) by lia.
  destruct (dnode_cases i Hi m Hm ltac:(clear -Hb Hx; lia)) as [Hm2|[(q & k & Hq & Hk & ->)|(k1 & k2 & Hk1 & Hk2 & ->)]].
  - pose proof (path_dnode i m (Z.of_nat xn) Hm2 Hx) as Hp. assert (m = 0 \/ m = 1) as [-> | ->] by lia.
    + exists 0%nat, (0%nat, 1), [], xn. constructor; try done; cbn [FileTrunc.root_pos slot_pos fst]; lia.
    + exists 1%nat, (0%nat, 2), [], xn. constructor; try done; cbn [FileTrunc.root_pos slot_pos fst]; lia.
  - pose proof (path_ind_at i q k (Z.of_nat xn) Hq Hk Hx) as Hp. assert (Ek : k = Z.of_nat (Z.to_nat k)) by lia. set (kn := Z.to_nat k) in *. assert (Hkn : (kn < Z.to_nat N)%nat) by lia. clearbody kn. subst k. assert (Hs : slots_ok 1 [kn]) by (split; [done|by constructor]). destruct Hq as [-> | ->].
    + exists 2%nat, (1%nat, 3), [kn], xn. constructor; [done|done|done|cbn [FileTrunc.root_pos slot_pos fst]; nia|]. rewrite Hp. do 2 f_equal; cbn; repeat match goal with |- _ :: _ = _ :: _ => f_equal end; lia.
    + exists 3%nat, (1%nat, 4 + N), [kn], xn. constructor; [done|done|done|cbn [FileTrunc.root_pos slot_pos fst]; nia|]. rewrite Hp. do 2 f_equal; cbn; repeat match goal with |- _ :: _ = _ :: _ => f_equal end; lia.
  - pose proof (path_dind_at i Hi k1 k2 (Z.of_nat xn) Hk1 Hk2 Hx) as Hp. assert (Ek1 : k1 = Z.of_nat (Z.to_nat k1)) by lia. assert (Ek2 : k2 = Z.of_nat (Z.to_nat k2)) by lia. set (u1 := Z.to_nat k1) in *. set (u2 := Z.to_nat k2) in *. assert (Hu : (u1 < Z.to_nat N)%nat /\ (u2 < Z.to_nat N)%nat) by lia. clearbody u1 u2. subst k1 k2. destruct Hu as [Hu1 Hu2].
    exists 4%nat, (2%nat, 5 + 2 * N), [u1; u2], xn. constructor; [done|by split; [|repeat constructor]|done|cbn [FileTrunc.root_pos slot_pos fst]; nia|]. rewrite Hp. done.
Qed.

(** ** A tree is looked up *)

(** Blocks [a] to [a + cap g] of a list are a missing subtree of height [g]. *)
Definition hole (g : nat) (pos a : nat) l : Prop := (a <= pos /\ pos + cap 0 <= a + cap g)%nat /\ (exists u, a = u * cap g)%nat /\ forall y, (a <= y < a + cap g)%nat -> l !! y = Some NULL_ADDR.
Lemma cap_divides h g : (g <= h)%nat -> exists u, cap h = (u * cap g)%nat.
Proof. intros Hg. induction Hg as [|h Hg [u IH]]; [exists 1%nat; lia|]. exists (Z.to_nat N * u)%nat. cbn [FileTree.cap]. rewrite IH. lia. Qed.
Definition get_stable (parent : node_ref) (off nid : Z) st : Prop := get_nid parent off st = Some (inr nid, st) /\ get_nid parent off (tick st) = Some (inr nid, tick st).
Lemma descend_lookup h : forall A Ns ofs nid st parent off ks x nofs lvl pn, get_nid parent off st = Some (inr nid, st) -> owns A Ns h ofs nid st -> plain i st -> placed i h ofs -> slots_ok h ks -> length nofs = Datatypes.S h ->
  exists st' r, descend env LOOKUP_NODE lvl parent pn (off :: (Z.of_nat <$> ks) ++ [x]) nofs st = Some (inr r, st') /\ idle st st' /\
    ((exists m, r = inr (AtNode m, m) /\ focus A Ns h ofs nid st' (slot_pos h ks) m) \/
     (exists g a, r = inl (ENOENT, lvl + Z.of_nat (h - g)) /\ (g <= h)%nat /\ (g = h -> nid = 0) /\ hole g (slot_pos h ks) a (tree_flat (pages st) h nid)) \/
     (exists e (at_level : Z), r = inl (Env e, at_level))).
Proof.
  induction h as [|h IH]; intros A Ns ofs nid st parent off ks x nofs lvl pn Hget Hw Hp Hpl [Hlk Hfk] Hln; (destruct nofs as [|nf nofs]; [done|]); cbn [descend]; rewrite (bind_ok _ _ _ _ _ Hget), bind_bind.
  all: destruct (decide (nid = 0)) as [->|Hn]; [rewrite (bind_catch _ _ _ _ _ (get_page_zero env st)), bind_ret; eexists st, _; split; [done|]; split; [apply idle_refl|]; right; left|].
  1, 3: match goal with |- context [FileTree.tree_flat _ _ ?h0 0] => exists h0, 0%nat; rewrite Nat.sub_diag, Z.add_0_r; split; [done|]; split; [done|]; split; [done|]; split; [|split; [by exists 0%nat|]] end; [pose proof (slot_pos_fits _ ks (conj Hlk Hfk)); lia|].
  1, 2: intros y Hy; rewrite flat_zero; apply lookup_replicate_2; lia.
  all: destruct (owns_page o i Hi Hplain _ _ _ _ _ _ Hn Hw) as (p & Ep & Hlp & _ & Hr & _); destruct (get_page_run env st nid p Hr Ep) as [E|(e & E)]; rewrite (bind_catch _ _ _ _ _ E), bind_ret; [|eexists (tick st), _; split; [done|]; split; [by exists 1%nat|]; right; right; by exists e, lvl].
  - destruct nofs; [|done]. destruct ks; [|done]. cbn [fmap list_fmap app descend]. eexists (tick st), _. split; [done|]. split; [by exists 1%nat|]. left. exists nid. split; [done|]. apply focus_self; try done. by apply owns_plain_tick.
  - destruct ks as [|k ks]; [done|]. apply list.Forall_cons in Hfk as [Hk Hfk]. injection Hlk as Hlk. injection Hln as Hln. destruct words_fit as [HwN _]. destruct (lookup_lt_is_Some_2 (words p) k) as [c Hc]; [lia|]. pose proof (owns_plain_tick o i _ _ _ _ _ _ Hw) as Hwt. destruct (Hpl (Z.of_nat k)) as [Hplc _]; [lia|]. cbn [fmap list_fmap app].
    pose proof (child_owns o i A Ns h ofs nid p (tick st) k c Hn Hwt Ep Hk Hc) as Hch. destruct (IH _ _ _ c (tick st) (AtNode nid) (Z.of_nat k) ks x nofs (lvl + 1) nid (get_nid_run (tick st) nid p k c Ep Hc) Hch) as (st' & r & E1 & Hid & Hr'); [by constructor; apply Hp|done|by split|done|]. fold (fmap Z.of_nat ks) in E1.
    exists st', r. split; [exact E1|]. split; [by apply idle_tick|]. destruct Hr' as [(m & -> & Hfo)|[(g & a & -> & Hg & Hg0 & Hho)|(e & l & ->)]]; [left|right; left|right; right; by exists e, l].
    + exists m. split; [done|]. assert (Epg : pages st' = pages st) by (by apply (idle_same pages (tick st) st')). cbn [slot_pos]. assert (Hw' : owns A Ns (Datatypes.S h) ofs nid st') by (apply (idle_ind _ _ _ Hid Hwt); intros s; apply owns_plain_tick).
      apply (focus_child o i Hi Hplain A Ns h ofs nid p st' k c); try done; [by rewrite Epg|]. unfold sib_addrs, sib_nodes in *. cbn [pages tick] in Hfo. by rewrite Epg.
    + destruct Hho as ((Ha1 & Ha2) & (u & Hu) & Hy). destruct (cap_divides h g Hg) as [v Hv]. assert (Hpf : forall y, (y < cap h)%nat -> tree_flat (pages st) (Datatypes.S h) nid !! (k * cap h + y)%nat = tree_flat (pages st) h c !! y).
      { destruct (slot_flat o i Hi Hplain A Ns h ofs nid Hn st p k c Hw Ep Hk Hc) as (_ & _ & Hl). pose proof (before_length o i Hi Hplain A Ns h ofs nid p st k Hn Hw Ep Hk) as Hb. intros y Hyl. rewrite (parent_flat i h nid p st k c Hn Ep Hk Hc), lookup_app_r, Hb by lia. rewrite lookup_app_l by lia. f_equal. lia. }
      exists g, (k * cap h + a)%nat. split; [do 2 f_equal; lia|]. split; [lia|]. split; [lia|]. split; [cbn [slot_pos]; lia|]. split; [exists (k * v + u)%nat; rewrite Hv, Hu; lia|].
      intros y Hyr. replace y with (k * cap h + (y - k * cap h))%nat by lia. pose proof (Hy (y - k * cap h)%nat ltac:(clear -Hyr; lia)) as Hyn. rewrite Hpf; [done|]. apply lookup_lt_Some in Hyn. cbn [pages tick] in Hyn. by rewrite (flat_length B (block_fits i Hi Hplain) _ _ _ _ (child_ok o i A Ns h ofs nid p st Hn Hw Ep k c Hk Hc)) in Hyn.
Qed.

(** ** The whole function *)

Lemma skip_cap g : (g <= 2)%nat -> skip_levels g B = Z.of_nat (cap g).
Proof.
  intros Hg. pose proof (iok_block i Hi) as HB. pose proof nids_range as HN. pose proof (cap0 i Hi) as C0. pose proof (cap1 i Hi) as C1. pose proof (cap2 i Hi) as C2. assert (0 <= B * N <= 1018 * 1018) by nia. assert (0 <= B * N * N <= 1018 * 1018 * 1018) by nia.
  destruct g as [|[|[|g]]]; [..|lia]; cbn [skip_levels]; rewrite ?u32_small by (rewrite ?u32_small by lia; lia); lia.
Qed.
(** The hole ends where [f2fs_get_next_page_offset] says. *)
Lemma next_offset j kd (g a u q : nat) b : root_kinds !! j = Some kd -> (g <= kd.1)%nat -> b = Z.of_nat (d + root_pos j + a + q) -> a = (u * cap g)%nat -> (q < cap g)%nat ->
  f2fs_get_next_page_offset i (1 + Z.of_nat (kd.1 - g)) (Z.of_nat kd.1 + 1) b = Some (Z.of_nat (d + root_pos j + a + cap g)).
Proof.
  intros Hj Hg Hb Ha Hq. pose proof (iok_direct i Hi) as HD. pose proof (iok_block i Hi) as HB. pose proof nids_range as HN. pose proof (cap_pos i Hi g) as Hcg. unfold f2fs_get_next_page_offset. rewrite (proj2 (Z.eqb_neq _ 0)) by lia. replace (Z.to_nat (Z.of_nat kd.1 + 1 - (1 + Z.of_nat (kd.1 - g)))) with g by lia.
  assert (Hg2 : (g <= 2)%nat) by (apply root_cases in Hj as [(-> & ->)|[(-> & ->)|[(-> & ->)|[(-> & ->)|(-> & ->)]]]]; cbn in Hg; lia). rewrite (skip_cap g Hg2).
  assert (Hgen : forall (rb v : nat), (root_pos j = rb + v * cap g)%nat -> ((b - Z.of_nat (d + rb)) / Z.of_nat (cap g) + 1) * Z.of_nat (cap g) + Z.of_nat (d + rb) = Z.of_nat (d + root_pos j + a + cap g)).
  { intros rb v Hv. replace ((b - Z.of_nat (d + rb)) / Z.of_nat (cap g)) with (Z.of_nat (v + u)); [rewrite Hv, Ha; lia|]. apply (Z.div_unique _ _ _ (Z.of_nat q)); [left; lia|]. rewrite Hb, Hv, Ha. lia. }
  pose proof (cap0 i Hi) as C0. pose proof (cap1 i Hi) as C1. apply root_cases in Hj as [(-> & ->)|[(-> & ->)|[(-> & ->)|[(-> & ->)|(-> & ->)]]]]; cbn [fst] in *; cbn [Z.of_nat Pos.of_succ_nat Pos.succ Z.add Pos.add Z.eqb Pos.eqb mbind option_bind].
  - rewrite <-(Hgen 0%nat 0%nat) by done. f_equal. replace (Z.of_nat (d + 0)) with D by lia. done.
  - assert (g = 0%nat) as -> by lia. rewrite <-(Hgen 0%nat 1%nat) by (cbn [FileTrunc.root_pos]; lia). f_equal. replace (Z.of_nat (d + 0)) with D by lia. done.
  - rewrite <-(Hgen (root_pos 2) 0%nat) by lia. f_equal. replace (Z.of_nat (d + root_pos 2)) with (2 * B + D) by (cbn [FileTrunc.root_pos]; lia). done.
  - destruct (cap_divides 1 g Hg) as [v Hv]. rewrite <-(Hgen (root_pos 2) v) by (rewrite <-Hv; done). f_equal. replace (Z.of_nat (d + root_pos 2)) with (2 * B + D) by (cbn [FileTrunc.root_pos]; lia). done.
  - rewrite <-(Hgen (root_pos 4) 0%nat) by lia. f_equal. replace (Z.of_nat (d + root_pos 4)) with (2 * (B * N) + 2 * B + D) by (cbn [FileTrunc.root_pos]; lia). done.
Qed.
(** What a look-up finds. *)
Record found A Ns st (index : Z) (dn : dnode_of_data) : Prop := {
  fd_lens : exists base n, lens A Ns st base (node_page_of dn) n /\ Z.of_nat base + ofs_in_node dn = index /\ 0 <= ofs_in_node dn < Z.of_nat n /\ Z.of_nat n = addrs_per_page (node_page_of dn) i /\
    (node_page_of dn = AtInode /\ base = 0%nat \/ exists m nid, node_page_of dn = AtNode nid /\ Z.of_nat base = D + m * B /\ 0 <= m);
  fd_addr : file_flat st !! Z.to_nat index = Some (data_blkaddr dn)
}.
Record missing A Ns st (index cur mx : Z) : Prop := {
  ms_next : exists next, f2fs_get_next_page_offset i cur mx index = Some (Z.of_nat next) /\ index < Z.of_nat next /\
    exists m x, index = D + m * B + x /\ 0 <= m /\ 0 <= x < B /\ (x = 0 \/ 2 <= m \/ i_nid (fi st) !! Z.to_nat m = Some 0) /\ forall y, D + m * B <= Z.of_nat y < Z.of_nat next -> file_flat st !! y = Some NULL_ADDR
}.
Lemma root_multiple j kd ks : root_kinds !! j = Some kd -> slots_ok kd.1 ks -> exists m, Z.of_nat (root_pos j + slot_pos kd.1 ks) = m * B /\ 0 <= m /\ (m < 2 -> kd.1 = 0%nat /\ m = Z.of_nat j).
Proof.
  intros Hj [Hl Hf]. pose proof nids_range as HN. pose proof (cap0 i Hi) as C0. pose proof (cap1 i Hi) as C1. apply root_cases in Hj as [(-> & ->)|[(-> & ->)|[(-> & ->)|[(-> & ->)|(-> & ->)]]]]; cbn [fst] in *.
  - exists 0. split; [cbn [FileTrunc.root_pos slot_pos]; lia|]. split; [lia|done].
  - exists 1. split; [cbn [FileTrunc.root_pos slot_pos]; lia|]. split; [lia|done].
  - destruct ks as [|k [|? ?]]; try done. exists (2 + Z.of_nat k). split; [cbn [FileTrunc.root_pos slot_pos]; nia|]. split; lia.
  - destruct ks as [|k [|? ?]]; try done. exists (2 + N + Z.of_nat k). split; [cbn [FileTrunc.root_pos slot_pos]; nia|]. split; lia.
  - destruct ks as [|k1 [|k2 [|? ?]]]; try done. exists (2 + 2 * N + Z.of_nat k1 * N + Z.of_nat k2). split; [cbn [FileTrunc.root_pos slot_pos]; nia|]. split; lia.
Qed.
Lemma last_snoc (l : list Z) x : last_of (l ++ [x]) = Some x.
Proof. unfold last_of. rewrite length_app. cbn. rewrite Nat.add_1_r. cbn. rewrite lookup_app_r by lia. by rewrite Nat.sub_diag. Qed.
Lemma lens_addr A Ns st base r n k : lens A Ns st base r n -> (k < n)%nat -> 0 <= extra_isize (fi st) -> exists a, get_blkaddr r (Z.of_nat k) st = Some (inr a, st) /\ file_flat st !! (base + k)%nat = Some a.
Proof.
  intros (l & q & A1 & N1 & Hl & Hn & Hfit & Hy & _) Hk He. destruct (lookup_lt_is_Some_2 l k) as [a Ha]; [lia|]. exists a. split; [by apply (get_addr_run _ _ l)|]. by rewrite Hy.
Qed.

Lemma idle_plain st st' : idle st st' -> plain i st -> plain i st'.
Proof. intros Hid Hp. apply (idle_ind _ st st' Hid Hp). intros s []. by constructor. Qed.
Lemma dnode_lookup A Ns st index ipage : owned A Ns st -> inline_data (fi st) = None -> 0 <= index < max_inode_blocks i ->
  exists st' r, f2fs_get_dnode_of_data env ipage index LOOKUP_NODE st = Some (inr r, st') /\ idle st st' /\
    ((exists dn, r = inr dn /\ found A Ns st' index dn) \/ (exists cur mx, r = inl (ENOENT, cur, mx) /\ missing A Ns st index cur mx) \/ (exists e (l1 l2 : Z), r = inl (Env e, l1, l2))).
Proof.
  intros Hw Hin Hix. pose proof Hw as [Hf Ha]. pose proof (fo_plain _ _ Hf) as Hp. unfold f2fs_get_dnode_of_data. rewrite bind_get, (pl_shape _ _ Hp).
  assert (Hpage : exists st0, idle st st0 /\ ((if ipage then ret tt else get_inode_page env) st = Some (inr tt, st0) \/ exists e, (if ipage then ret tt else get_inode_page env) st = Some (inl (Env e), st0))).
  { destruct ipage; [exists st; split; [apply idle_refl|by left]|]. exists (tick st). split; [by exists 1%nat|]. unfold get_inode_page. destruct (ask_run env Env st) as [E|(e & E)]; [by left|right; by exists e]. }
  destruct Hpage as (st0 & Hid0 & Hpage). pose proof (idle_owned o i A Ns st st0 Hid0 Hw) as Hw0. pose proof (idle_plain st st0 Hid0 Hp) as Hp0. assert (Epg : file_flat st0 = file_flat st) by (by apply (idle_same file_flat st st0)). assert (Enid : i_nid (fi st0) = i_nid (fi st)) by (by apply (idle_same (fun s => i_nid (fi s)) st st0)).
  destruct (Z.lt_ge_cases index D) as [Hown|Hfar].
  - rewrite (path_own i index) by lia. cbv beta iota. destruct Hpage as [E|(e & E)]; rewrite (bind_catch _ _ _ _ _ E); [|eexists st0, _; split; [done|]; split; [done|]; right; right; by exists e, 0, 0]. rewrite Hin. cbn [andb offset noffset level tail descend]. rewrite bind_ret. change (last_of [index]) with (Some index). cbn [some]. rewrite bind_ret.
    pose proof (lens_inode o i Hi A Ns st0 Hw0) as Hl. assert (Hk : (Z.to_nat index < d)%nat) by lia. destruct (lens_addr A Ns st0 0 AtInode d _ Hl Hk (pl_extra _ _ Hp0)) as (a & Eg & Ea). rewrite Z2Nat.id in Eg by lia. rewrite (bind_ok _ _ _ _ _ Eg). eexists st0, _. split; [done|]. split; [done|]. left. eexists. split; [done|].
    constructor; cbn [node_page_of ofs_in_node data_blkaddr]; [|done]. exists 0%nat, d. split; [done|]. cbn [addrs_per_page]. split; [lia|]. split; [lia|]. split; [lia|by left].
  - destruct (path_at index) as (j & kd & ks & x & [P1 P2 P3 P4 P5]); [lia|]. rewrite P5. cbv beta iota. destruct Hpage as [E|(e & E)]; rewrite (bind_catch _ _ _ _ _ E); [|eexists st0, _; split; [done|]; split; [done|]; right; right; by exists e, 0, 0]. rewrite Hin. cbn [andb offset noffset level tail].
    destruct (lookup_lt_is_Some_2 (i_nid (fi st0)) j) as [c Hc]; [rewrite (fo_nids _ _ (proj1 Hw0)); apply lookup_lt_Some in P1; exact P1|]. destruct (root_placed i Hi j kd P1) as (Hpl & _ & Hnext). pose proof (iok_direct i Hi) as HD. pose proof (cap0 i Hi) as C0. destruct (root_multiple j kd ks P1 P2) as (m & Em & Hm & Hm2).
    destruct (descend_lookup kd.1 _ _ kd.2 c st0 AtInode (NODE_DIR1_BLOCK + Z.of_nat j) ks (Z.of_nat x) (ofs_path kd.1 kd.2 ks) 1 (ino (fi st)) (get_root_run st0 j c Hc) (root_owns o i A Ns st0 j kd c Hw0 P1 Hc) Hp0 Hpl P2) as (st' & r & Ed & Hid & Hr).
    { clear -P2. destruct P2 as [Hl _]. generalize kd.2. revert ks Hl. induction kd.1 as [|h IH]; intros [|k ks] Hl q; try done. cbn [ofs_path length]. f_equal. apply IH. by injection Hl. }
    rewrite (bind_ok _ _ _ _ _ Ed). pose proof (idle_trans _ _ _ Hid0 Hid) as Hid'. destruct Hr as [(n & -> & Hfo)|[(g & a & -> & Hg & Hg0 & (Ha1 & Ha2) & (u & Hu) & Hy)|(e & l & ->)]].
    + rewrite app_comm_cons, last_snoc. cbn [some]. rewrite bind_ret. pose proof (idle_owned o i A Ns st0 st' Hid Hw0) as Hw'. assert (Hc' : i_nid (fi st') !! j = Some c) by (rewrite <-Hc; f_equal; by apply (idle_same (fun s => i_nid (fi s)) st0 st')).
      assert (Hs1 : rsib_addrs i A st' j = rsib_addrs i A st0 j) by (by apply (idle_same (fun s => rsib_addrs i A s j) st0 st')). assert (Hs2 : rsib_nodes Ns st' j = rsib_nodes Ns st0 j) by (by apply (idle_same (fun s => rsib_nodes Ns s j) st0 st')).
      pose proof (lens_node o i Hi Hplain A Ns st' j kd c (slot_pos kd.1 ks) n Hw' P1 Hc') as Hl. rewrite Hs1, Hs2 in Hl. specialize (Hl Hfo). destruct (lens_addr A Ns st' _ _ _ x Hl P3 (pl_extra _ _ (idle_plain _ _ Hid Hp0))) as (a & Eg & Ea). rewrite (bind_ok _ _ _ _ _ Eg).
      eexists st', _. split; [done|]. split; [done|]. left. eexists. split; [done|]. constructor; cbn [node_page_of ofs_in_node data_blkaddr]; [|by rewrite P4, Nat2Z.id]. exists (d + root_pos j + slot_pos kd.1 ks)%nat, (cap 0). split; [done|]. cbn [addrs_per_page]. split; [lia|]. split; [lia|]. split; [done|]. right. exists m, n. split; [done|]. split; [|done]. rewrite Nat2Z.inj_add in Em. lia.
    + eexists st', _. split; [done|]. split; [done|]. right. left. eexists _, _. split; [done|]. constructor. exists (d + root_pos j + a + cap g)%nat. split; [apply (next_offset j kd g a u (slot_pos kd.1 ks - a + x)); (done || lia)|]. split; [lia|]. exists m, (Z.of_nat x). rewrite Nat2Z.inj_add in Em. split; [lia|]. split; [done|]. split; [lia|]. split.
      * destruct (Z.lt_ge_cases m 2) as [Hlt|]; [|tauto]. destruct (Hm2 Hlt) as [Hk0 ->]. right. right. rewrite Nat2Z.id, <-Enid, Hc. f_equal. apply Hg0. lia.
      * intros y Hyr. rewrite <-Epg. assert (Hyc : (y - (d + root_pos j) < cap kd.1)%nat).
        { pose proof (Hy (y - (d + root_pos j))%nat) as Hyn. specialize (Hyn ltac:(clear -Hyr Em Ha1 Ha2 HD; lia)). apply lookup_lt_Some in Hyn. pose proof (root_length i Hi Hplain st0 j (kd, c) (proj1 Hw0) (root_lookup _ _ _ _ P1 Hc)) as Hrl. unfold root_flat in Hrl. cbn [fst snd] in Hrl. by rewrite Hrl in Hyn. }
        replace y with (d + root_pos j + (y - (d + root_pos j)))%nat by lia. rewrite (tree_lookup o i Hi Hplain A Ns st0 j kd c) by done. apply Hy. lia.
    + eexists st', _. split; [done|]. split; [done|]. right. right. by exists e, l, (Z.of_nat kd.1 + 1).
Qed.
End lookup.
