(* ===== verification/FileAlloc.v ===== *)
(** * Nodes are made on the way to a block (node.c: f2fs_get_dnode_of_data with ALLOC_NODE)

    A node that is made has no blocks, so the list of the file's blocks does not change. *)

From S2P Require Import Prelude FreeNid NatCache NodePath FileMap FileTree FileCut FileTrunc FileLookup.
#[local] Open Scope file_scope.

Section alloc.
Context {T : Type} `{BlockLaws T} (o : rest) (env : file_env) (i : node_inode) (Hi : inode_ok i) (Hplain : f2fs_compressed_file i = false).
Implicit Types (st : fsys T) (A Ns l fl : list Z) (h j : nat).
Notation acct := (acct o).
Notation N := NIDS_PER_BLOCK.
Notation B := (addrs_per_block i).
Notation D := (addrs_per_inode i).
Notation cap := (cap B).
Notation tree_flat := (tree_flat B).
Notation evolve := (evolve o i).
Notation owns := (owns o i).
Notation fevolve := (fevolve o i).
Notation owned := (owned o i).
Notation file_flat := (file_flat i).
Notation root_pos := (root_pos i).
Notation d := (Z.to_nat D).

(** ** A block more *)

Lemma inc_node_run st x m y : total_valid_block_count (cnt st) = x -> total_valid_node_count (cnt st) = m -> i_blocks (fi st) = y -> 0 <= x -> 0 <= m -> limits (cnt st) ->
  (exists st', inc_valid_node_count env false st = Some (inr tt, st') /\ counted st st' /\ total_valid_block_count (cnt st') = x + 1 /\ total_valid_node_count (cnt st') = m + 1 /\ i_blocks (fi st') = y + 8) \/
  (exists st' e, inc_valid_node_count env false st = Some (inl e, st') /\ (e = ENOSPC \/ exists v, e = Env v) /\ idle st st').
Proof.
  intros Hx Hm Hy Hx0 Hm0 [L1 L2 L3 L4 L5 L6]. unfold inc_valid_node_count. destruct (ask_run env Env st) as [E|(e & E)]; [|right; exists (tick st), (Env e); rewrite (bind_err _ _ _ _ _ E); split; [done|]; split; [right; by exists e|by exists 1%nat]].
  rewrite (bind_ok _ _ _ _ _ E). clear E. destruct (ask_run env (fun _ => ENOSPC) (tick st)) as [E|(e & E)]; [|right; exists (tick (tick st)), ENOSPC; rewrite (bind_err _ _ _ _ _ E); split; [done|]; split; [by left|by exists 2%nat]]. rewrite (bind_ok _ _ _ _ _ E). msteps. cbn [cnt tick]. rewrite Hx, Hm.
  set (c := cnt st) in *. assert (Hval : (if allow_reserved_blocks env then x +! current_reserved_blocks c +! 1 else x +! current_reserved_blocks c +! 1 +! root_reserved_blocks c) = x + current_reserved_blocks c + 1 + (if allow_reserved_blocks env then 0 else root_reserved_blocks c)) by (destruct (allow_reserved_blocks env); rewrite ?u32_small; rewrite ?u32_small; try lia; rewrite ?u32_small; lia).
  rewrite Hval. assert (Huser : (if cp_disabled c then user_block_count c -! unusable_block_count c else user_block_count c) <= user_block_count c) by (destruct (cp_disabled c); rewrite ?u32_small by lia; lia). set (user := if cp_disabled c then _ else _) in *. clearbody user.
  destruct (Z.ltb_spec user (x + current_reserved_blocks c + 1 + (if allow_reserved_blocks env then 0 else root_reserved_blocks c))) as [Hlt|Hge]; [right; exists (tick (tick st)), ENOSPC; split; [done|]; split; [by left|by exists 2%nat]|]. rewrite (u32_small (m + 1)) by lia.
  destruct (Z.ltb_spec (total_node_count c) (m + 1)); [right; exists (tick (tick st)), ENOSPC; split; [done|]; split; [by left|by exists 2%nat]|]. left. assert (Hx1 : x + 1 <= user_block_count c) by (destruct (allow_reserved_blocks env); lia).
  msteps. unfold f2fs_i_blocks_write, modify. eexists. split; [reflexivity|]. cbn. rewrite (u32_small (x + 1)) by lia. rewrite ?(u32_small (m + 1)) by lia. split; [|split; [done|split; [done|lia]]]. constructor; try done. constructor; cbn; rewrite ?u32_small by lia; try done; lia.
Qed.

(** ** A node is made *)

Definition alloc_error (e : errno) : Prop := e = ENOSPC \/ e = EPERM \/ exists v, e = Env v.
(** The piece of [descend] for an empty slot. *)
Definition make_node (parent : node_ref) (off nofs : Z) : M (S := T) (errno + Z) :=
  a <- catch f2fs_alloc_nid;;
  match a with
  | inl _ => ret (inl ENOSPC)
  | inr n => p <- catch (f2fs_new_node_page env n nofs);; match p with inl e => f2fs_alloc_nid_failed env n;; ret (inl e) | inr _ => set_nid parent off n;; f2fs_alloc_nid_done n;; ret (inr n) end
  end.
Lemma concat_nulls (n c : nat) : concat (tree_flat (∅ : gmap Z node_page) c <$> replicate n 0) = nulls (n * cap c).
Proof. induction n as [|n IH]; [done|]. cbn [replicate fmap list_fmap concat]. rewrite flat_zero. fold (fmap (tree_flat (∅ : gmap Z node_page) c) (replicate n 0)). rewrite IH, <-replicate_add. done. Qed.
Lemma fresh_tree P h q n : n <> 0 -> let P' := <[n := {| words := replicate (Z.to_nat page_words) 0; ofs_of_node := q |}]> P in tree_ok P' h q n /\ tree_flat P' h n = nulls (cap h) /\ tree_nids P' h n = [n].
Proof.
  intros Hn P'. destruct words_fit as [W1 W2]. pose proof nids_range as HN. assert (Ep : P' !! n = Some {| words := replicate (Z.to_nat page_words) 0; ofs_of_node := q |}) by apply lookup_insert_eq. assert (Hz : forall m k c, replicate m 0 !! k = Some c -> c = 0) by (intros m k c Hc; by apply lookup_replicate in Hc as [-> _]).
  split; [|split].
  - assert (Hall : exists p, P' !! n = Some p /\ lenZ (words p) = page_words /\ ofs_of_node p = q /\ match h with O => True | Datatypes.S h' => forall k c, (k < Z.to_nat N)%nat -> words p !! k = Some c -> tree_ok P' h' (child_ofs h q (Z.of_nat k)) c end).
    { eexists. split; [exact Ep|]. cbn. rewrite length_replicate. split; [lia|]. split; [done|]. destruct h; [done|]. intros k c _ Hc. apply Hz in Hc as ->. apply ok_zero. }
    destruct h; by right.
  - rewrite (flat_page B _ h n _ Hn Ep). cbn [words]. destruct h as [|h].
    + rewrite take_replicate, Nat.min_l by (pose proof (block_fits i Hi Hplain); lia). cbn [FileTree.cap]. by rewrite <-null_zero.
    + rewrite take_replicate, Nat.min_l by lia. rewrite (chunks_ext _ (tree_flat (∅ : gmap Z node_page) h)), concat_nulls; [done|]. intros c Hc. apply list_elem_of_lookup in Hc as [k Hc]. apply Hz in Hc as ->. by rewrite !flat_zero.
  - rewrite (nids_page _ h n _ Hn Ep). f_equal. destruct h as [|h]; [done|]. cbn [words]. rewrite take_replicate. induction (Z.to_nat N `min` Z.to_nat page_words)%nat as [|w IH]; [done|]. cbn. rewrite nids_zero. exact IH.
Qed.

(** What does not matter to the file: questions asked and the lists of free ids. *)
Lemma evolve_nids A Ns h q n n' fl st st' l p : evolve A Ns h q n n' fl st st' -> Forall (fun m => nid_ok st' m /\ node_addr st' m = NULL_ADDR) l -> NoDup ((tree_nids (pages st') h n' ++ Ns) ++ l) -> (forall m a, o_addr o m = Some a -> node_addr st' m = a /\ m ∉ (tree_nids (pages st') h n' ++ Ns) ++ l) -> evolve A Ns h q n n' fl st (with_nids st' l p).
Proof.
  intros [X1 X2 X3 X4 X5 X6 X7] Hf Hd Hio. constructor; try done; [by destruct X1|]. destruct X5 as [Y1 Y2 Y3 Y4 Y5 Y6 Y7 Y8 Y9 Y10 Y11 Y12 Y13 Y14 Y15]. constructor; done.
Qed.
Lemma new_node_run st n q : 0 < q < 2 ^ 21 -> node_addr st n = NULL_ADDR -> limits (cnt st) -> 0 <= total_valid_block_count (cnt st) -> 0 <= total_valid_node_count (cnt st) ->
  (exists st1, f2fs_new_node_page env n q st = Some (inr tt, st1) /\ stable st st1 /\ pages st1 = <[n := {| words := replicate (Z.to_nat page_words) 0; ofs_of_node := q |}]> (pages st) /\ ext_log st1 = ext_log st /\ blocks st1 = blocks st /\ free_nids st1 = free_nids st /\ limits (cnt st1) /\
     total_valid_block_count (cnt st1) = total_valid_block_count (cnt st) + 1 /\ total_valid_node_count (cnt st1) = total_valid_node_count (cnt st) + 1 /\ i_blocks (fi st1) = i_blocks (fi st) + 8 /\ (forall m, node_addr st1 m = if decide (m = n) then NEW_ADDR else node_addr st m)) \/
  (exists e st1, f2fs_new_node_page env n q st = Some (inl e, st1) /\ alloc_error e /\ idle st st1).
Proof.
  intros Hq Hnull Hli Hb0 Hn0. unfold f2fs_new_node_page. rewrite bind_get. destruct (no_alloc (fi st)); [right; exists EPERM, st; split; [done|]; split; [right; by left|by exists 0%nat]|]. destruct (ask_run env Env st) as [E|(e & E)]; [|right; exists (Env e), (tick st); rewrite (bind_err _ _ _ _ _ E); split; [done|]; split; [right; right; by exists e|by exists 1%nat]]. rewrite (bind_ok _ _ _ _ _ E), (proj2 (Z.eqb_neq q 0)) by lia.
  destruct (inc_node_run (tick st) _ _ _ eq_refl eq_refl eq_refl Hb0 Hn0 Hli) as [(st1 & E1 & [C1 C2 C3 C4 C5 C6 C7 C8] & D1 & D2 & D3)|(st1 & e & E1 & He & Hid)].
  2: { right. exists e, st1. rewrite (bind_err _ _ _ _ _ E1). split; [done|]. split; [unfold alloc_error; tauto|by apply idle_tick]. }
  left. rewrite (bind_ok _ _ _ _ _ E1), bind_get. assert (Hnull1 : block_addr (nat_entry_of st1 n) = NULL_ADDR) by (rewrite <-Hnull; unfold node_addr, nat_entry_of; by rewrite C5).
  unfold set_node_addr. unfold bind at 1. rewrite Hnull1. pose proof nat_addrs as Hna2. cbn [block_addr]. rewrite !Z.eqb_refl, (proj2 (Z.eqb_neq NULL_ADDR NEW_ADDR)), (proj2 (Z.eqb_neq NEW_ADDR NULL_ADDR)) by (done || (intros X; by apply Hna2)). assert (Hd : is_data_addr NULL_ADDR = false) by (unfold is_data_addr; by rewrite Z.eqb_refl, orb_true_r). rewrite Hd. cbn [andb orb negb].
  rewrite bind_modify. unfold f2fs_has_xattr_block. rewrite (proj2 (Z.eqb_neq q XATTR_NODE_OFFSET)) by (pose proof xattr_high; lia). rewrite bind_ret. eexists. split; [reflexivity|]. cbn in C2, C3, C4, C5, C6, D1, D2, D3.
  split; [destruct C1; by constructor|]. split; [cbn; by rewrite C2|]. split; [done|]. split; [done|]. split; [done|]. split; [done|]. split; [done|]. split; [done|]. split; [done|]. intros m. unfold node_addr, nat_entry_of. cbn. case_decide as Em; [subst; by rewrite lookup_insert_eq|by rewrite lookup_insert_ne, C5 by done].
Qed.
Lemma make_run A Ns h q st parent off : owns A Ns h q 0 st -> 0 < q < 2 ^ 21 ->
  (exists e st', make_node parent off q st = Some (inr (inl e), st') /\ alloc_error e /\ ext_log st' = ext_log st /\ evolve A Ns h q 0 0 (nulls (cap h)) st st') \/
  (exists n st1, n <> 0 /\ make_node parent off q st = (set_nid parent off n;; f2fs_alloc_nid_done n;; ret (inr n)) st1 /\ ext_log st1 = ext_log st /\ evolve A Ns h q 0 n (nulls (cap h)) st st1).
Proof.
  intros [Hok Ha] Hq. rewrite flat_zero, nonnull_nulls, nids_zero in Ha. cbn [app] in Ha. pose proof Ha as [X1 X2 X3 X4 X5 X6 X7 X8 X9 X10 X11 X12 X13 X14 X15]. unfold make_node, f2fs_alloc_nid. pose proof FileMap.root_pos as Hrp. assert (Href : forall st', acct st' A Ns -> stable st st' -> pages st' = pages st -> ext_log st' = ext_log st -> evolve A Ns h q 0 0 (nulls (cap h)) st st').
  { intros st' Ha' Hs Hpg Hx. constructor; try done; [by rewrite Hpg|apply ok_zero|apply flat_zero|by rewrite nonnull_nulls, nids_zero|by rewrite Hx|rewrite Hx, flat_zero; done]. }
  destruct (free_nids st) as [|n l] eqn:Ef.
  { left. exists ENOSPC, st. unfold bind at 1, catch. cbv beta. rewrite Ef. split; [done|]. split; [by left|]. split; [done|]. by apply Href. }
  set (st0 := with_nids st l ({[n]} ∪ prealloc st)). assert (Ec : catch f2fs_alloc_nid st = Some (inr (inr n), st0)) by (unfold catch, f2fs_alloc_nid; by rewrite Ef). unfold f2fs_alloc_nid in Ec. rewrite (bind_ok _ _ _ _ _ Ec). apply list.Forall_cons in X7 as [(Hnok & Hnull) X7]. assert (Hn : n <> 0) by (unfold nid_ok in Hnok; lia).
  assert (HnN : n ∉ Ns /\ n ∉ l /\ NoDup (Ns ++ l)) by (rewrite <-Permutation_middle in X6; apply list.NoDup_cons in X6 as [X6 X6']; set_solver). destruct HnN as (HnN & Hnl & Hdl). assert (Hio : forall m a, o_addr o m = Some a -> node_addr st m = a /\ m ∉ Ns ++ l /\ m ∉ Ns ++ l ++ [n]) by (intros m a Hm; apply X15 in Hm as [? ?]; set_solver).
  assert (Hpos : 0 <= total_valid_block_count (cnt st0) /\ 0 <= total_valid_node_count (cnt st0)) by (cbn; lia). destruct (new_node_run st0 n q Hq Hnull X12 (proj1 Hpos) (proj2 Hpos)) as [(st1 & E1 & S1 & Hpg & Hx & Hbl & Hfr & Hli & T1 & T2 & T3 & Haddr)|(e & st1 & E1 & He & Hid)]; rewrite (bind_catch _ _ _ _ _ E1).
  - right. exists n, st1. split; [done|]. split; [done|]. split; [done|]. cbn in Hpg, Hbl, Hfr, T1, T2, T3. destruct (fresh_tree (pages st) h q n Hn) as (F1 & F2 & F3). rewrite <-Hpg in F1, F2, F3.
    assert (Haddr' : forall m, m <> n -> node_addr st1 m = node_addr st m) by (intros m Hm; rewrite Haddr, decide_False by done; done). assert (Hnn : node_addr st1 n = NEW_ADDR) by (by rewrite Haddr, decide_True). pose proof nat_addrs as Hadd. destruct compress_other as [Hc1 Hc2].
    assert (Ed : data_addrs st1 A (n :: Ns) ≡ₚ data_addrs st A Ns).
    { unfold data_addrs. rewrite fmap_cons, <-Permutation_middle, filter_cons_False by (rewrite Hnn; unfold is_data_addr; rewrite Z.eqb_refl; done). assert (Em : node_addr st1 <$> Ns = node_addr st <$> Ns) by (apply list_fmap_ext; intros k m Hm; apply Haddr'; intros ->; by apply HnN, list_elem_of_lookup_2 with k). by rewrite Em. }
    constructor; try done.
    + destruct S1. by constructor.
    + intros m Hm. rewrite Hpg, lookup_insert_ne by (by intros ->). done.
    + rewrite nonnull_nulls, F3. cbn [app]. constructor; rewrite ?Hbl, ?Hfr; try done.
      * constructor; [unfold nid_ok; rewrite Hnn, (sb_max _ _ S1); split; [done|]; split; [congruence|congruence]|]. rewrite list.Forall_forall in X3 |- *. intros m Hm. unfold nid_ok. rewrite (sb_max _ _ S1), Haddr' by (by intros ->). by apply X3.
      * intros a Hin. rewrite Ed in Hin. by apply X4.
      * by rewrite Ed.
      * apply list.NoDup_cons. split; [set_solver|done].
      * rewrite list.Forall_forall in X7 |- *. intros m Hm. unfold nid_ok. rewrite (sb_max _ _ S1), Haddr' by (by intros ->). by apply X7.
      * cbn [length]. lia.
      * cbn [length]. lia.
      * cbn [length]. lia.
      * intros b. by rewrite Ed.
      * by rewrite (sb_ino _ _ S1).
      * intros m a Hm. apply X15 in Hm as [Hm Hout]. rewrite <-Permutation_middle in Hout. split; [rewrite Haddr'; [done|]; intros ->; set_solver|done].
    + intros y _. by rewrite Hx.
    + intros Hm. rewrite flat_zero in Hm. by rewrite Hx.
  - left. unfold f2fs_alloc_nid_failed. rewrite bind_bind. assert (Hst1 : acct st1 A Ns /\ stable st st1 /\ pages st1 = pages st /\ ext_log st1 = ext_log st /\ free_nids st1 = l /\ nat_tab st1 = nat_tab st /\ max_nid st1 = max_nid st).
    { apply (idle_ind (fun s => acct s A Ns /\ stable st s /\ pages s = pages st /\ ext_log s = ext_log st /\ free_nids s = l /\ nat_tab s = nat_tab st /\ max_nid s = max_nid st) st0 st1 Hid).
      - split; [|split; [by constructor|done]]. constructor; try done. intros m a Hm. by destruct (Hio m a Hm) as (? & ? & _).
      - intros s (Y1 & Y2 & Y3 & Y4 & Y5 & Y6 & Y7). split; [by apply acct_tick|]. split; [by destruct Y2|done]. }
    destruct Hst1 as (Y1 & Y2 & Y3 & Y4 & Y5 & Y6 & Y7). assert (Hfin : forall s l', (s = st1 \/ s = tick st1) -> (l' = l ++ [n] \/ l' = l) -> evolve A Ns h q 0 0 (nulls (cap h)) st (with_nids s l' (prealloc s ∖ {[n]}))).
    { intros s l' Hs Hl'. assert (Hs' : acct s A Ns /\ stable st s /\ pages s = pages st /\ ext_log s = ext_log st /\ nat_tab s = nat_tab st /\ max_nid s = max_nid st) by (destruct Hs as [-> | ->]; [done|split; [by apply acct_tick|split; [by destruct Y2|done]]]). destruct Hs' as (Z1 & Z2 & Z3 & Z4 & Z5 & Z6). apply Href; try done; [|by destruct Z2].
      destruct Z1 as [W1 W2 W3 W4 W5 W6 W7 W8 W9 W10 W11 W12 W13 W14 W15]. constructor; try done; cbn [free_nids with_nids].
      - destruct Hl' as [-> | ->]; [|done]. rewrite (Permutation_app_comm l [n]). cbn. rewrite <-Permutation_middle. apply list.NoDup_cons. split; [set_solver|done].
      - assert (Hfl : Forall (fun m => nid_ok (with_nids s l' (prealloc s ∖ {[n]})) m /\ node_addr (with_nids s l' (prealloc s ∖ {[n]})) m = NULL_ADDR) (n :: l)); [|destruct Hl' as [-> | ->]; [rewrite (Permutation_app_comm l [n]); exact Hfl|by apply list.Forall_cons in Hfl as [_ Hfl]]].
        constructor; unfold nid_ok, node_addr, nat_entry_of in *; cbn; rewrite Z5, Z6; [done|]. apply (list.Forall_impl _ _ _ X7). done.
      - intros m a Hm. destruct (Hio m a Hm) as (H1m & H2m & H3m). split; [unfold node_addr, nat_entry_of in *; cbn; by rewrite Z5|by destruct Hl' as [-> | ->]]. }
    destruct (ask_run env Env st1) as [E|(v & E)]; rewrite (bind_catch _ _ _ _ _ E), bind_modify; eexists e, _; (split; [reflexivity|]); (split; [done|]); (split; [done|]); apply Hfin; cbn; rewrite ?Y5; tauto.
Qed.

(** ** Where a node is *)

Lemma splice_mid (l1 l2 l3 x : list Z) : length x = length l2 -> l1 ++ x ++ l3 = splice (length l1) x (l1 ++ l2 ++ l3).
Proof. intros E. rewrite <-(splice_whole x l2 E) at 1. rewrite splice_part by lia. by rewrite Nat.add_0_r. Qed.
Lemma splice_splice a b (x y l : list Z) : (b + length y <= length x)%nat -> (a + length x <= length l)%nat -> (forall q, (q < length x)%nat -> l !! (a + q)%nat = x !! q) -> splice a (splice b y x) l = splice (a + b) y l.
Proof.
  intros Hb Ha Hx. apply list_eq. intros q. rewrite !splice_lookup by (rewrite ?splice_length by lia; lia). rewrite splice_length by lia.
  destruct (Nat.leb_spec a q), (Nat.ltb_spec q (a + length x)), (Nat.leb_spec (a + b) q), (Nat.ltb_spec q (a + b + length y)); cbn [andb]; try lia; try done; destruct (Nat.leb_spec b (q - a)), (Nat.ltb_spec (q - a) (b + length y)); cbn [andb]; try lia; first [f_equal; lia|rewrite <-Hx by lia; f_equal; lia].
Qed.
Lemma splice_same a (x l : list Z) : (a + length x <= length l)%nat -> (forall q, (q < length x)%nat -> l !! (a + q)%nat = x !! q) -> splice a x l = l.
Proof.
  intros Ha Hx. apply list_eq. intros q. rewrite splice_lookup by done. destruct (Nat.leb_spec a q), (Nat.ltb_spec q (a + length x)); cbn [andb]; try done. rewrite <-Hx by lia. f_equal. lia.
Qed.
(** Node [m] is the root of a subtree of height [h] for the blocks from [base] on. *)
Definition spot A Ns st (base h : nat) (q m : Z) : Prop :=
  m <> 0 /\ placed i h q /\ start i h q = Z.of_nat base /\ (base + cap h <= length (file_flat st))%nat /\ (forall y, (y < cap h)%nat -> file_flat st !! (base + y)%nat = tree_flat (pages st) h m !! y) /\
  exists A1 N1, owns A1 N1 h q m st /\ forall fl st1, evolve A1 N1 h q m m fl st st1 -> fevolve A Ns (splice base fl (file_flat st)) st st1.
Lemma spot_root A Ns st j kd c : owned A Ns st -> root_kinds !! j = Some kd -> i_nid (fi st) !! j = Some c -> c <> 0 -> spot A Ns st (d + root_pos j) kd.1 kd.2 c.
Proof.
  intros Hw Hj Hc Hc0. pose proof Hw as [Hf _]. destruct (root_placed i Hi j kd Hj) as (Hpl & Hst & Hnext). pose proof (iok_direct i Hi) as HD. pose proof (flat_total o i Hi Hplain A Ns st Hw) as Htot. pose proof (lookup_lt_Some _ _ _ Hj) as Hj5. cbn in Hj5. assert (Hj5' : (Datatypes.S j <= 5 <= 5)%nat) by lia. pose proof (root_pos_mono i (Datatypes.S j) 5 Hj5') as Hmono.
  split; [done|]. split; [done|]. split; [rewrite Hst; lia|]. split; [lia|]. split; [intros y Hy; by apply (tree_lookup o i Hi Hplain A Ns)|]. exists (rsib_addrs i A st j), (rsib_nodes Ns st j). split; [by apply root_owns|]. intros fl st1 He. pose proof (evolve_length o i Hi Hplain _ _ _ _ _ _ _ _ _ He) as Hfl.
  apply (root_step_same o i Hi Hplain A Ns st j kd c Hw Hj Hc) in He. assert (Hlt : length (tree_flat (pages st) kd.1 c) = cap kd.1) by (apply (root_length i Hi Hplain st j (kd, c) Hf), root_lookup; done).
  rewrite app_assoc, (splice_mid _ (tree_flat (pages st) kd.1 c)) in He by lia. rewrite <-app_assoc, <-(whole_flat i st j kd c Hj Hc), length_app, (own_length i st Hf), (roots_before i Hi Hplain st j Hf) in He by lia. exact He.
Qed.
Lemma spot_child A Ns st base h q m p k c : spot A Ns st base (Datatypes.S h) q m -> pages st !! m = Some p -> (k < Z.to_nat N)%nat -> words p !! k = Some c -> c <> 0 -> spot A Ns st (base + k * cap h) h (child_ofs (Datatypes.S h) q (Z.of_nat k)) c.
Proof.
  intros (Hm & Hpl & Hst & Hfit & Hy & A1 & N1 & Hw & Hlift) Ep Hk Hc Hc0. destruct (slot_flat o i Hi Hplain A1 N1 h q m Hm st p k c Hw Ep Hk Hc) as (_ & _ & Hl). pose proof (before_length o i Hi Hplain A1 N1 h q m p st k Hm Hw Ep Hk) as Hb. pose proof (flat_length B (block_fits i Hi Hplain) _ _ _ _ (proj1 Hw)) as Hwl.
  assert (Hkc : (k * cap h + cap h <= cap (Datatypes.S h))%nat) by (change (cap (Datatypes.S h)) with (Z.to_nat N * cap h)%nat; clear -Hk; nia). destruct (Hpl (Z.of_nat k)) as [Hplc _]; [lia|]. split; [done|]. split; [exact Hplc|]. split; [rewrite (child_start i h q k Hk Hpl), Hst; lia|]. split; [lia|]. split.
  - intros y Hyl. rewrite <-Nat.add_assoc, Hy by lia. rewrite (parent_flat i h m p st k c Hm Ep Hk Hc), lookup_app_r, Hb by lia. rewrite lookup_app_l by lia. f_equal. lia.
  - exists (sib_addrs i A1 h p st k), (sib_nodes N1 h m p st k). split; [by apply child_owns|]. intros fl st1 He. pose proof (evolve_length o i Hi Hplain _ _ _ _ _ _ _ _ _ He) as Hfl. apply (child_step_same o i Hi Hplain A1 N1 h q m p st k c Hm Hw Ep Hk Hc Hpl) in He.
    rewrite (splice_mid _ (tree_flat (pages st) h c)), Hb, <-(parent_flat i h m p st k c Hm Ep Hk Hc) in He by lia. apply Hlift in He. rewrite splice_splice in He; [done|lia|lia|]. intros x Hx. apply Hy. lia.
Qed.
(** A direct node is a window. *)
Lemma spot_lens A Ns st base q m : spot A Ns st base 0 q m -> lens o i A Ns st base (AtNode m) (cap 0).
Proof.
  intros (Hm & _ & Hst & Hfit & Hy & A1 & N1 & Hw & Hlift). destruct (owns_page o i Hi Hplain _ _ _ _ _ _ Hm Hw) as (p & Ep & Hl & Hofs & _ & HmN & _). destruct words_fit as [_ HWf]. pose proof (block_fits i Hi Hplain) as HB. assert (Hcapw : (cap 0 <= length (words p))%nat) by (cbn [FileTree.cap]; lia).
  assert (Ef : forall P p', P !! m = Some p' -> tree_flat P 0 m = take (cap 0) (words p')) by (intros P p' Ep'; by rewrite (flat_page B _ 0 m p' Hm Ep')). exists (words p), q, A1, (m :: N1). split; [cbn; by rewrite Ep|]. split; [done|]. split; [done|]. split; [intros y Hyl; rewrite Hy, (Ef _ _ Ep) by done; by apply lookup_take_lt|]. split; [by rewrite Ep, <-Hofs|]. split; [exact Hst|].
  pose proof (proj2 Hw) as Ha. rewrite (nids_leaf _ _ Hm), (Ef _ _ Ep) in Ha. split; [exact Ha|]. intros l' st1 Hl' Hlen Q (W1 & W2 & W3) Ha1 Hout Hin. cbn in Hl'. destruct (pages st1 !! m) as [p1|] eqn:Ep1; [|done]. injection Hl' as Hw'. apply Hlift. constructor.
  - destruct Q. by constructor.
  - intros m' Hm'. apply W3. by intros ->.
  - right. exists p1. split; [done|]. split; [by rewrite Hw', Hlen|]. split; [rewrite Ep in W2; cbn in W2; by injection W2 as ->|done].
  - by rewrite (Ef _ _ Ep1), Hw'.
  - rewrite (nids_leaf _ _ Hm). exact Ha1.
  - intros y Hyo. apply Hout. by rewrite Hst in Hyo.
  - rewrite Hst, (Ef _ _ Ep). exact Hin.
Qed.

Lemma fevolve_back A Ns fl st st1 st2 : fevolve A Ns (file_flat st) st st1 -> ext_log st1 = ext_log st -> fevolve A Ns fl st st2 -> fevolve A Ns fl st1 st2.
Proof.
  intros [X1 X2 X3 X4 X5] Hx [Y1 Y2 Y3 Y4 Y5]. constructor; try done.
  - destruct X1, Y1. constructor; congruence.
  - intros m Hm. by rewrite Y2, X2.
  - rewrite X4, Hx. exact Y5.
Qed.
Lemma spot_repack A Ns st st2 base h q m A1 N1 : m <> 0 -> placed i h q -> start i h q = Z.of_nat base -> (base + cap h <= length (file_flat st))%nat -> (forall y, (y < cap h)%nat -> file_flat st !! (base + y)%nat = tree_flat (pages st) h m !! y) -> owns A1 N1 h q m st ->
  (forall fl st1, evolve A1 N1 h q m m fl st st1 -> fevolve A Ns (splice base fl (file_flat st)) st st1) -> evolve A1 N1 h q m m (tree_flat (pages st) h m) st st2 -> ext_log st2 = ext_log st -> fevolve A Ns (file_flat st) st st2 /\ spot A Ns st2 base h q m.
Proof.
  intros Hm Hpl Hst Hfit Hy Hw Hlift He Hx. pose proof (evolve_length o i Hi Hplain _ _ _ _ _ _ _ _ _ He) as Hfl. pose proof (Hlift _ _ He) as Hf. rewrite splice_same in Hf; [|by rewrite Hfl|intros y Hyl; apply Hy; by rewrite Hfl in Hyl]. split; [done|]. pose proof (fe_flat _ _ _ _ _ _ _ Hf) as Ef. pose proof (ev_flat _ _ _ _ _ _ _ _ _ _ _ He) as Et.
  split; [done|]. split; [done|]. split; [done|]. split; [by rewrite Ef|]. split; [intros y Hyl; rewrite Ef, Et; by apply Hy|]. exists A1, N1. split; [by eapply evolve_owns|]. intros fl st3 He3. rewrite Ef. eapply fevolve_back; [exact Hf|exact Hx|]. apply Hlift. by eapply evolve_trans.
Qed.
Lemma spot_tick A Ns st base h q m : spot A Ns st base h q m -> spot A Ns (tick st) base h q m.
Proof.
  intros (Hm & Hpl & Hst & Hfit & Hy & A1 & N1 & Hw & Hlift). destruct (spot_repack A Ns st (tick st) base h q m A1 N1) as [_ Hs]; try done. by apply evolve_tick, evolve_refl.
Qed.
(** The piece of [descend] for one slot. *)
Definition get_node (parent : node_ref) (off nofs nid : Z) : M (S := T) (errno + Z) :=
  if nid =? 0 then make_node parent off nofs
  else p <- catch (f2fs_get_node_page env nid);; ret (match p with inl e => inl e | inr _ => inr nid end).
Definition slot_made A Ns st (base h : nat) (q : Z) (res : option ((errno + (errno + Z)) * fsys T)) : Prop :=
  exists st' r, res = Some (inr r, st') /\ fevolve A Ns (file_flat st) st st' /\ ext_log st' = ext_log st /\ ((exists n, r = inr n /\ spot A Ns st' base h q n) \/ (exists e, r = inl e /\ alloc_error e)).
Lemma get_node_there A Ns st base h q parent off n : owned A Ns st -> spot A Ns st base h q n -> slot_made A Ns st base h q (get_node parent off q n st).
Proof.
  intros Hw Hs. pose proof Hs as (Hn & _ & _ & _ & _ & A1 & N1 & Hw1 & _). unfold get_node. rewrite (proj2 (Z.eqb_neq n 0)) by done. destruct (owns_page o i Hi Hplain _ _ _ _ _ _ Hn Hw1) as (p & Ep & _ & _ & Hr & _). pose proof (fevolve_tick o i A Ns _ st st (fevolve_refl o i A Ns st Hw)) as Ht.
  destruct (get_page_run env st n p Hr Ep) as [E|(e & E)]; rewrite (bind_catch _ _ _ _ _ E); eexists (tick st), _; (split; [done|]); (split; [done|]); (split; [done|]); [left; exists n; split; [done|by apply spot_tick]|right; exists (Env e); split; [done|right; right; by exists e]].
Qed.
(** A slot of an indirect node. *)
Lemma slot_node_run A Ns st base h q m p k c : owned A Ns st -> spot A Ns st base (Datatypes.S h) q m -> pages st !! m = Some p -> (k < Z.to_nat N)%nat -> words p !! k = Some c -> let cofs := child_ofs (Datatypes.S h) q (Z.of_nat k) in 0 < cofs < 2 ^ 21 ->
  slot_made A Ns st (base + k * cap h) h cofs (get_node (AtNode m) (Z.of_nat k) cofs c st).
Proof.
  intros Hw Hs Ep Hk Hc cofs Hcofs. destruct (decide (c = 0)) as [->|Hc0]; [|apply get_node_there; [done|by eapply spot_child]]. pose proof Hs as (Hm & Hpl & Hst & Hfit & Hy & A1 & N1 & Hw1 & Hlift). change (get_node (AtNode m) (Z.of_nat k) cofs 0 st) with (make_node (AtNode m) (Z.of_nat k) cofs st).
  destruct (slot_flat o i Hi Hplain A1 N1 h q m Hm st p k 0 Hw1 Ep Hk Hc) as (_ & _ & Hl). pose proof (parent_flat i h m p st k 0 Hm Ep Hk Hc) as Epf. rewrite flat_zero in Epf.
  destruct (make_run _ _ h cofs st (AtNode m) (Z.of_nat k) (child_owns o i A1 N1 h q m p st k 0 Hm Hw1 Ep Hk Hc) Hcofs) as [(e & st' & E & He & Hx & Hev)|(n & st1 & Hn & E & Hx & Hev)].
  - exists st', (inl e). split; [done|]. apply (child_step_same o i Hi Hplain A1 N1 h q m p st k 0 Hm Hw1 Ep Hk Hc Hpl) in Hev. rewrite <-Epf in Hev. destruct (spot_repack A Ns st st' base (Datatypes.S h) q m A1 N1) as [Hf _]; try done. split; [done|]. split; [done|]. right. by exists e.
  - assert (Ep1 : pages st1 !! m = Some p) by (rewrite (ev_pages _ _ _ _ _ _ _ _ _ _ _ Hev); [done|unfold sib_nodes; by left]). rewrite (bind_ok _ _ _ _ _ (set_nid_run st1 m p k 0 n Ep1 Hc)) in E. unfold f2fs_alloc_nid_done in E. rewrite bind_modify in E.
    apply (child_step o i Hi Hplain A1 N1 h q m p st k 0 Hm Hw1 Ep Hk Hc Hpl) in Hev. rewrite <-Epf in Hev. set (st2 := with_pages st1 _) in *. set (st3 := with_nids st2 (free_nids st2) (prealloc st2 ∖ {[n]})) in *.
    assert (Hev3 : evolve A1 N1 (Datatypes.S h) q m m (tree_flat (pages st) (Datatypes.S h) m) st st3) by (apply evolve_nids; [done|apply (ac_free _ _ _ _ (ev_acct _ _ _ _ _ _ _ _ _ _ _ Hev))|apply (ac_nodes _ _ _ _ (ev_acct _ _ _ _ _ _ _ _ _ _ _ Hev))|apply (ac_nat _ _ _ _ (ev_acct _ _ _ _ _ _ _ _ _ _ _ Hev))]).
    destruct (spot_repack A Ns st st3 base (Datatypes.S h) q m A1 N1) as [Hf Hs3]; try done. exists st3, (inr n). split; [exact E|]. split; [done|]. split; [done|]. left. exists n. split; [done|].
    apply (spot_child A Ns st3 base h q m {| words := <[k := n]> (words p); ofs_of_node := ofs_of_node p |} k n Hs3); [cbn; apply lookup_insert_eq|done|cbn; by apply list_lookup_insert_eq, lookup_lt_Some with 0|done].
Qed.

(** A node id of the inode. *)
Lemma slot_root_run A Ns st j kd c : owned A Ns st -> root_kinds !! j = Some kd -> i_nid (fi st) !! j = Some c -> 0 < kd.2 < 2 ^ 21 -> slot_made A Ns st (d + root_pos j) kd.1 kd.2 (get_node AtInode (NODE_DIR1_BLOCK + Z.of_nat j) kd.2 c st).
Proof.
  intros Hw Hj Hc Hq. destruct (decide (c = 0)) as [->|Hc0]; [|apply get_node_there; [done|by eapply spot_root]]. change (get_node AtInode (NODE_DIR1_BLOCK + Z.of_nat j) kd.2 0 st) with (make_node AtInode (NODE_DIR1_BLOCK + Z.of_nat j) kd.2 st).
  pose proof (whole_flat i st j kd 0 Hj Hc) as Eflat. rewrite flat_zero in Eflat. destruct (make_run _ _ kd.1 kd.2 st AtInode (NODE_DIR1_BLOCK + Z.of_nat j) (root_owns o i A Ns st j kd 0 Hw Hj Hc) Hq) as [(e & st' & E & He & Hx & Hev)|(n & st1 & Hn & E & Hx & Hev)].
  - exists st', (inl e). split; [done|]. apply (root_step_same o i Hi Hplain A Ns st j kd 0 Hw Hj Hc) in Hev. rewrite <-Eflat in Hev. split; [done|]. split; [done|]. right. by exists e.
  - assert (Hc1 : i_nid (fi st1) !! j = Some 0) by (by rewrite (sb_nid _ _ (ev_stable _ _ _ _ _ _ _ _ _ _ _ Hev))). rewrite (bind_ok _ _ _ _ _ (set_root_run st1 j 0 n Hc1)) in E. unfold f2fs_alloc_nid_done in E. rewrite bind_modify in E.
    apply (root_step o i Hi Hplain A Ns st j kd 0 Hw Hj Hc) in Hev. rewrite <-Eflat in Hev. set (st2 := with_fi st1 _) in *. set (st3 := with_nids st2 (free_nids st2) (prealloc st2 ∖ {[n]})) in *. assert (Hf : fevolve A Ns (file_flat st) st st3).
    { destruct Hev as [X1 X2 [[Y1 Y2 Y3 Y4] X3] X4 X5]. constructor; try done; [by destruct X1|]. split; [constructor; try done; destruct Y1; by constructor|by apply (acct_same o st2)]. }
    exists st3, (inr n). split; [exact E|]. split; [done|]. split; [done|]. left. exists n. split; [done|]. apply spot_root; [by apply Hf|done| |done]. cbn. apply list_lookup_insert_eq. by eapply lookup_lt_Some.
Qed.

(** ** The path *)

Lemma path_offsets j kd ks : root_kinds !! j = Some kd -> slots_ok kd.1 ks -> Forall (fun q => 0 < q < 2 ^ 21) (ofs_path kd.1 kd.2 ks).
Proof.
  intros Hj [Hl Hf]. pose proof nids_range as HN. apply root_cases in Hj as [(-> & ->)|[(-> & ->)|[(-> & ->)|[(-> & ->)|(-> & ->)]]]]; cbn [fst snd] in *.
  1, 2: constructor; [lia|constructor].
  1, 2: destruct ks as [|k [|? ?]]; try done; apply list.Forall_cons in Hf as [Hk _]; cbn; repeat constructor; lia.
  destruct ks as [|k1 [|k2 [|? ?]]]; try done. apply list.Forall_cons in Hf as [Hk1 Hf]. apply list.Forall_cons in Hf as [Hk2 _]. cbn. assert (0 <= Z.of_nat k1 * (N + 1) <= 1017 * 1019) by nia. repeat constructor; lia.
Qed.
Definition path_made A Ns st (pos : nat) (res : option ((errno + ((errno * Z) + node_ref * Z)) * fsys T)) : Prop :=
  exists st' r, res = Some (inr r, st') /\ fevolve A Ns (file_flat st) st st' /\ ext_log st' = ext_log st /\ ((exists n q, r = inr (AtNode n, n) /\ spot A Ns st' pos 0 q n) \/ (exists e (at_level : Z), r = inl (e, at_level) /\ alloc_error e)).
Lemma path_next A Ns st st1 pos res : fevolve A Ns (file_flat st) st st1 -> ext_log st1 = ext_log st -> path_made A Ns st1 pos res -> path_made A Ns st pos res.
Proof.
  intros He Hx (st2 & r & -> & He2 & Hx2 & Hr). exists st2, r. split; [done|]. rewrite (fe_flat _ _ _ _ _ _ _ He) in He2. split; [by eapply fevolve_trans|]. split; [by rewrite Hx2|done].
Qed.
Lemma descend_alloc h : forall A Ns st base q m ks x lvl, owned A Ns st -> spot A Ns st base h q m -> slots_ok h ks -> Forall (fun q => 0 < q < 2 ^ 21) (ofs_path h q ks) ->
  path_made A Ns st (base + slot_pos i h ks) (descend env ALLOC_NODE lvl (AtNode m) m ((Z.of_nat <$> ks) ++ [x]) (tail (ofs_path h q ks)) st).
Proof.
  induction h as [|h IH]; intros A Ns st base q m ks x lvl Hw Hs [Hlk Hfk] Hofs.
  - destruct ks; [|done]. cbn. exists st, (inr (AtNode m, m)). split; [done|]. split; [by apply fevolve_refl|]. split; [done|]. left. exists m, q. split; [done|]. by rewrite Nat.add_0_r.
  - destruct ks as [|k ks]; [done|]. apply list.Forall_cons in Hfk as [Hk Hfk]. injection Hlk as Hlk. cbn [ofs_path tail] in Hofs |- *. apply list.Forall_cons in Hofs as [_ Hofs]. set (cofs := child_ofs (Datatypes.S h) q (Z.of_nat k)) in *. assert (Hcofs : 0 < cofs < 2 ^ 21) by (destruct h; by apply list.Forall_cons in Hofs as [? _]).
    pose proof Hs as (Hm & _ & _ & _ & _ & A1 & N1 & Hw1 & _). destruct (owns_page o i Hi Hplain _ _ _ _ _ _ Hm Hw1) as (p & Ep & Hlp & _). destruct words_fit as [HwN _]. destruct (lookup_lt_is_Some_2 (words p) k) as [c Hc]; [lia|].
    assert (Epath : exists tl, ofs_path h cofs ks = cofs :: tl /\ tl = tail (ofs_path h cofs ks)) by (destruct h; eexists; split; reflexivity). destruct Epath as (tl & Epath & Etl). rewrite Epath. cbn [fmap list_fmap app descend]. rewrite (bind_ok _ _ _ _ _ (get_nid_run st m p k c Ep Hc)).
    destruct (slot_node_run A Ns st base h q m p k c Hw Hs Ep Hk Hc Hcofs) as (st1 & r & E & He & Hx & Hr). fold cofs in E, Hr. unfold get_node, make_node in E. rewrite (bind_ok _ _ _ _ _ E). apply (path_next A Ns st st1); [done|done|]. destruct Hr as [(n & -> & Hsn)|(e & -> & Hae)].
    + cbn [slot_pos]. rewrite Nat.add_assoc, Etl. fold (fmap Z.of_nat ks). apply IH; [by apply He|done|by split|done].
    + exists st1, (inl (e, lvl)). split; [done|]. split; [apply fevolve_refl, He|]. split; [done|]. right. by exists e, lvl.
Qed.
Lemma dnode_alloc A Ns st index ipage : owned A Ns st -> inline_data (fi st) = None -> 0 <= index < max_inode_blocks i ->
  exists st' r, f2fs_get_dnode_of_data env ipage index ALLOC_NODE st = Some (inr r, st') /\ fevolve A Ns (file_flat st) st st' /\ ext_log st' = ext_log st /\
    ((exists dn, r = inr dn /\ found o i A Ns st' index dn) \/ (exists e (l1 l2 : Z), r = inl (e, l1, l2) /\ alloc_error e)).
Proof.
  intros Hw Hin Hix. pose proof Hw as [Hf Ha]. pose proof (fo_plain _ _ Hf) as Hp. unfold f2fs_get_dnode_of_data. rewrite bind_get, (pl_shape _ _ Hp).
  assert (Hpage : exists st0, idle st st0 /\ ((if ipage then ret tt else get_inode_page env) st = Some (inr tt, st0) \/ exists e, (if ipage then ret tt else get_inode_page env) st = Some (inl (Env e), st0))).
  { destruct ipage; [exists st; split; [apply idle_refl|by left]|]. exists (tick st). split; [by exists 1%nat|]. unfold get_inode_page. destruct (ask_run env Env st) as [E|(e & E)]; [by left|right; by exists e]. }
  destruct Hpage as (st0 & Hid0 & Hpage). pose proof (idle_owned o i A Ns st st0 Hid0 Hw) as Hw0. assert (Efl : file_flat st0 = file_flat st) by (by apply (idle_same file_flat st st0)). assert (Hx0 : ext_log st0 = ext_log st) by (by apply (idle_same ext_log st st0)).
  assert (Hf0 : fevolve A Ns (file_flat st) st st0) by (apply (idle_evolve o i A Ns _ st st0 st0 Hid0); rewrite <-Efl; by apply fevolve_refl). assert (Hfail : forall e, alloc_error (Env e)) by (intros e; right; right; by exists e).
  destruct (Z.lt_ge_cases index D) as [Hown|Hfar].
  - rewrite (path_own i index) by lia. cbv beta iota. destruct Hpage as [E|(e & E)]; rewrite (bind_catch _ _ _ _ _ E); [|eexists st0, _; split; [done|]; split; [done|]; split; [done|]; right; by exists (Env e), 0, 0]. rewrite Hin. cbn [andb offset noffset level tail descend]. rewrite bind_ret. change (last_of [index]) with (Some index). cbn [some]. rewrite bind_ret.
    pose proof (lens_inode o i Hi A Ns st0 Hw0) as Hl. assert (Hk : (Z.to_nat index < d)%nat) by lia. destruct (lens_addr o i A Ns st0 0 AtInode d _ Hl Hk (pl_extra _ _ (fo_plain _ _ (proj1 Hw0)))) as (a & Eg & Ea). rewrite Z2Nat.id in Eg by lia. rewrite (bind_ok _ _ _ _ _ Eg). eexists st0, _. split; [done|]. split; [done|]. split; [done|]. left. eexists. split; [done|].
    constructor; cbn [node_page_of ofs_in_node data_blkaddr]; [|done]. exists 0%nat, d. split; [done|]. cbn [addrs_per_page]. split; [lia|]. split; [lia|]. split; [lia|by left].
  - destruct (path_at i Hi index) as (j & kd & ks & x & [P1 P2 P3 P4 P5]); [lia|]. rewrite P5. cbv beta iota. destruct Hpage as [E|(e & E)]; rewrite (bind_catch _ _ _ _ _ E); [|eexists st0, _; split; [done|]; split; [done|]; split; [done|]; right; by exists (Env e), 0, 0]. rewrite Hin. cbn [andb offset noffset level tail].
    destruct (lookup_lt_is_Some_2 (i_nid (fi st0)) j) as [c Hc]; [rewrite (fo_nids _ _ (proj1 Hw0)); apply lookup_lt_Some in P1; exact P1|]. pose proof (path_offsets j kd ks P1 P2) as Hofs. pose proof (iok_direct i Hi) as HD. pose proof (cap0 i Hi) as C0. destruct (root_multiple i Hi j kd ks P1 P2) as (m & Em & Hm & _).
    assert (Epath : exists tl, ofs_path kd.1 kd.2 ks = kd.2 :: tl /\ tl = tail (ofs_path kd.1 kd.2 ks)) by (destruct kd.1; eexists; split; reflexivity). destruct Epath as (tl & Epath & Etl). assert (Hkd2 : 0 < kd.2 < 2 ^ 21) by (rewrite Epath in Hofs; by apply list.Forall_cons in Hofs as [? _]).
    destruct (slot_root_run A Ns st0 j kd c Hw0 P1 Hc Hkd2) as (st1 & r & E1 & He1 & Hx1 & Hr). rewrite Epath. cbn [descend]. rewrite bind_bind, (bind_ok _ _ _ _ _ (get_root_run st0 j c Hc)), bind_bind. unfold get_node, make_node in E1. rewrite (bind_ok _ _ _ _ _ E1). rewrite Efl in He1. pose proof (fevolve_trans o i _ _ _ _ _ _ _ Hf0 He1) as Hf1. rewrite Hx0 in Hx1.
    destruct Hr as [(n & -> & Hs)|(e & -> & Hae)]; [|eexists st1, _; split; [done|]; split; [done|]; split; [done|]; right; eexists e, _, _; split; [done|done]].
    destruct (descend_alloc kd.1 A Ns st1 _ kd.2 n ks (Z.of_nat x) (1 + 1) ltac:(apply Hf1) Hs P2 Hofs) as (st2 & r & E2 & He2 & Hx2 & Hr2). rewrite <-Etl in E2. rewrite (bind_ok _ _ _ _ _ E2). rewrite (fe_flat _ _ _ _ _ _ _ He1) in He2. pose proof (fevolve_trans o i _ _ _ _ _ _ _ Hf1 He2) as Hf2. rewrite Hx1 in Hx2.
    destruct Hr2 as [(n2 & q2 & -> & Hs2)|(e & l & -> & Hae)]; [|eexists st2, _; split; [done|]; split; [done|]; split; [done|]; right; eexists e, _, _; split; [done|done]]. rewrite app_comm_cons, last_snoc. cbn [some]. rewrite bind_ret.
    pose proof (spot_lens A Ns st2 _ q2 n2 Hs2) as Hl. destruct (lens_addr o i A Ns st2 _ _ _ x Hl P3 (pl_extra _ _ (fo_plain _ _ (proj1 (fe_own _ _ _ _ _ _ _ Hf2))))) as (a & Eg & Ea). rewrite (bind_ok _ _ _ _ _ Eg).
    eexists st2, _. split; [done|]. split; [done|]. split; [done|]. left. eexists. split; [done|]. constructor; cbn [node_page_of ofs_in_node data_blkaddr]; [|by rewrite P4, Nat2Z.id]. exists (d + root_pos j + slot_pos i kd.1 ks)%nat, (cap 0). split; [done|]. cbn [addrs_per_page]. split; [lia|]. split; [lia|]. split; [done|]. right. exists m, n2. split; [done|]. split; [|done]. rewrite Nat2Z.inj_add in Em. lia.
Qed.
End alloc.
