(* ===== verification/FileOps.v ===== *)
(** * Operations on a file

    First truncation and holes; then reservations and writes. *)

From S2P Require Import Prelude FreeNid NatCache NodePath FileMap FileTree FileCut FileTrunc FileLookup FileAlloc.
#[local] Open Scope file_scope.

(** ** Truncation and holes (file.c: f2fs_do_truncate_blocks, f2fs_truncate_hole) *)

Section ops.
Context {T : Type} `{BlockLaws T} (o : rest) (env : file_env) (i : node_inode) (Hi : inode_ok i) (Hplain : f2fs_compressed_file i = false).
Implicit Types (st : fsys T) (A Ns l fl : list Z) (h j : nat).
Notation acct := (acct o).
Notation N := NIDS_PER_BLOCK.
Notation B := (addrs_per_block i).
Notation D := (addrs_per_inode i).
Notation cap := (cap B).
Notation fevolve := (fevolve o i).
Notation owned := (owned o i).
Notation file_flat := (file_flat i).
Notation root_pos := (root_pos i).
Notation lens := (lens o i).
Notation fcut := (fcut o i).
Notation d := (Z.to_nat D).

(** ** A range in the window of a node *)

Lemma nonnull_app l1 l2 : nonnull (l1 ++ l2) = nonnull l1 ++ nonnull l2.
Proof. apply list.filter_app. Qed.
Lemma window_split l (k c n : nat) : (k + c <= n <= length l)%nat -> take n l = take k l ++ take c (drop k l) ++ drop (k + c) (take n l).
Proof.
  intros Hn. rewrite <-(take_drop k (take n l)) at 1. rewrite take_take, Nat.min_l by lia. f_equal. rewrite <-(take_drop c (drop k (take n l))) at 1. f_equal; [|by rewrite drop_drop].
  rewrite skipn_firstn_comm, take_take, Nat.min_l by lia. done.
Qed.
Lemma window_blank l (k c n : nat) : (k + c <= n <= length l)%nat -> take n (take k l ++ nulls c ++ drop (k + c) l) = take k l ++ nulls c ++ drop (k + c) (take n l).
Proof.
  intros Hn. rewrite !take_app, length_take, length_replicate, Nat.min_l by lia. rewrite take_take, Nat.min_r by lia. rewrite (firstn_all2 (nulls c)) by (rewrite length_replicate; lia). do 2 f_equal. rewrite skipn_firstn_comm. f_equal. lia.
Qed.
Lemma lens_truncate A Ns st base r n (k c : nat) : owned A Ns st -> lens A Ns st base r n -> (k + c <= n)%nat ->
  exists st', f2fs_truncate_data_blocks_range r (Z.of_nat k) (Z.of_nat c) st = Some (inr tt, st') /\ fevolve A Ns (blank (base + k) (base + k + c) (file_flat st)) st st'.
Proof.
  intros Hw (l & q & A1 & N1 & Hl & Hn & Hfit & Hy & Hq & Hst & Ha & Hlift) Hkc. pose proof (fo_plain _ _ (proj1 Hw)) as [P1 P2 P3]. pose proof (window_split l k c n ltac:(clear -Hkc Hn; lia)) as Hsp.
  assert (Ha' : acct st (nonnull (take c (drop k l)) ++ nonnull (take k l ++ drop (k + c) (take n l)) ++ A1) N1) by (rewrite Hsp, !nonnull_app, <-!app_assoc, Permutation_app_swap_app in Ha; by rewrite nonnull_app, <-app_assoc).
  destruct (truncate_range_run o st r l k c q _ N1 ltac:(by rewrite P1) P2 P3 Hl ltac:(clear -Hkc Hn; lia) Hq Ha') as (st' & E & Harr & Q & W & Ha2 & Hx). exists st'. split; [exact E|]. rewrite P1, Hst in Hx.
  assert (Htk : take n (take k l ++ nulls c ++ drop (k + c) l) = take k l ++ nulls c ++ drop (k + c) (take n l)) by (apply window_blank; lia). assert (Hlc : length (take c (drop k l)) = c) by (rewrite length_take, length_drop; lia).
  assert (Hout : forall y : Z, ~ (Z.of_nat base + Z.of_nat k <= y < Z.of_nat base + Z.of_nat k + Z.of_nat c) -> ext_view (ext_log st') y = ext_view (ext_log st) y) by (intros y Hyo; by apply (cut_out _ _ (Z.of_nat base + Z.of_nat k) c (take c (drop k l)))).
  assert (Hfl : splice base (take n (take k l ++ nulls c ++ drop (k + c) l)) (file_flat st) = blank (base + k) (base + k + c) (file_flat st)).
  { apply list_eq. intros y. assert (Hlen : length (take n (take k l ++ nulls c ++ drop (k + c) l)) = n) by (rewrite length_take, !length_app, length_take, length_replicate, length_drop; lia). rewrite splice_lookup, blank_lookup by (rewrite ?Hlen; lia). rewrite Hlen, Htk.
    change (take k l ++ nulls c ++ drop (k + c) (take n l)) with (take k l ++ nulls c ++ drop (k + c) (take n l)). assert (Hb : take k l ++ nulls c ++ drop (k + c) (take n l) = blank k (k + c) (take n l)) by (unfold blank; rewrite take_take, Nat.min_l by lia; replace (k + c - k)%nat with c by lia; done). rewrite Hb, blank_lookup by (rewrite length_take; lia).
    destruct (Nat.leb_spec base y), (Nat.ltb_spec y (base + n)); cbn [andb]; [|destruct (Nat.leb_spec (base + k) y), (Nat.ltb_spec y (base + k + c)); cbn [andb]; (lia || done)..]. destruct (Nat.leb_spec k (y - base)), (Nat.leb_spec (base + k) y), (Nat.ltb_spec (y - base) (k + c)), (Nat.ltb_spec y (base + k + c)); cbn [andb]; try lia; try done.
    all: rewrite lookup_take_lt by lia; rewrite <-Hy by lia; f_equal; lia. }
  rewrite <-Hfl. apply (Hlift (take k l ++ nulls c ++ drop (k + c) l) st' Harr); try done.
  - rewrite !length_app, length_take, length_replicate, length_drop. lia.
  - rewrite Htk, !nonnull_app, nonnull_nulls. rewrite nonnull_app, <-app_assoc in Ha2. by rewrite <-!app_assoc.
  - intros y Hyo. apply Hout. lia.
  - intros Hm. rewrite Htk. assert (Hms : mirror (ext_log st) (Z.of_nat base + Z.of_nat k) (take c (drop k l))).
    { intros y a Hya. replace (Z.of_nat base + Z.of_nat k + Z.of_nat y) with (Z.of_nat base + Z.of_nat (k + y)) by lia. apply Hm. rewrite Hsp, lookup_app_r; rewrite length_take, Nat.min_l by lia; [|lia]. replace (k + y - k)%nat with y by lia. rewrite lookup_app_l by (by eapply lookup_lt_Some). done. }
    assert (Hin2 : mirror (ext_log st') (Z.of_nat base + Z.of_nat k) (nulls c)) by (rewrite <-Hlc; eapply cut_in; [done|done|rewrite Hlc; exact Hx|exact Hms]).
    intros y a Hya. destruct (Nat.lt_ge_cases y k) as [Hlt|Hge].
    + rewrite lookup_app_l in Hya by (rewrite length_take; lia). rewrite Hout by lia. apply Hm. by rewrite Hsp, lookup_app_l by (rewrite length_take; lia).
    + rewrite lookup_app_r in Hya by (rewrite length_take; lia). rewrite length_take, Nat.min_l in Hya by lia. destruct (Nat.lt_ge_cases (y - k) c) as [Hlt2|Hge2].
      * rewrite lookup_app_l in Hya by (rewrite length_replicate; lia). replace (Z.of_nat base + Z.of_nat y) with (Z.of_nat base + Z.of_nat k + Z.of_nat (y - k)) by lia. by apply Hin2.
      * rewrite lookup_app_r in Hya by (rewrite length_replicate; lia). rewrite length_replicate in Hya. rewrite Hout by lia. apply Hm. rewrite Hsp, lookup_app_r by (rewrite length_take; lia). rewrite length_take, Nat.min_l by lia. rewrite lookup_app_r by lia. by rewrite Hlc.
Qed.

(** ** A file is truncated *)

Lemma descend_ra noffs : forall i0 parent nid offs st, descend env LOOKUP_NODE_RA i0 parent nid offs noffs st = descend env LOOKUP_NODE i0 parent nid offs noffs st.
Proof.
  induction noffs as [|nofs noffs IH]; intros i0 parent nid [|off offs] st; [done..|]. cbn [descend]. unfold bind. destruct (get_nid parent off st) as [[[e|n] st1]|]; [done| |done]. destruct (catch (f2fs_get_node_page env n) st1) as [[[e|p] st2]|]; [done| |done]. destruct p; [done|]. apply IH.
Qed.
Lemma dnode_ra ipage index st : f2fs_get_dnode_of_data env ipage index LOOKUP_NODE_RA st = f2fs_get_dnode_of_data env ipage index LOOKUP_NODE st.
Proof.
  unfold f2fs_get_dnode_of_data. rewrite !bind_get. destruct (get_node_path _ _); [|done]. unfold bind. destruct (catch _ st) as [[[e|r] st1]|]; [done| |done]. destruct r; [done|]. destruct (_ && _); [done|]. by rewrite descend_ra.
Qed.
(** Some block of the last direct node, but not its first. *)
Definition in_last_dnode (b : Z) : Prop := max_inode_blocks i - B < b < max_file_blocks i.
(** From where on a truncation to block [b] empties the file: from the limit of the size on it does nothing. *)
Definition cut_from (b : Z) : Z := if max_file_blocks i <=? b then max_inode_blocks i else b.
Definition truncated A Ns (a : nat) st (b : Z) (res : option ((errno + unit) * fsys T)) : Prop :=
  fcut A Ns a (d + root_pos 5) st (fun _ => True) res \/ (exists st1, res = Some (inl E2BIG, st1) /\ in_last_dnode b /\ fevolve A Ns (blank a (d + root_pos 5) (file_flat st)) st st1).
Lemma max_dnodes : max_inode_blocks i = D + (2 + 2 * N + N * N) * B.
Proof. unfold max_inode_blocks. lia. Qed.
Lemma truncate_found_cases A Ns st b dn : owned A Ns st -> 0 <= b < max_file_blocks i -> found o i A Ns st b dn ->
  let res := (let count := addrs_per_page (node_page_of dn) i - ofs_in_node dn in
     if count <? 0 then trap
     else if negb (ofs_in_node dn =? 0) || match node_page_of dn with AtInode => true | AtNode _ => false end
     then f2fs_truncate_data_blocks_range (node_page_of dn) (ofs_in_node dn) count;; f2fs_truncate_inode_blocks env (b + count)
     else f2fs_truncate_inode_blocks env b) st in
  (~ in_last_dnode b /\ fcut A Ns (Z.to_nat b) (d + root_pos 5) st (fun _ => True) res) \/ (in_last_dnode b /\ exists st1, res = Some (inl E2BIG, st1) /\ fevolve A Ns (blank (Z.to_nat b) (d + root_pos 5) (file_flat st)) st st1).
Proof.
  intros Hw Hbf [(base & n & Hl & Eb & Hof & En & Hcase) _]. pose proof (max_blocks i) as Hmb. pose proof (iok_direct i Hi) as HD0. assert (Hb : 0 <= b < max_inode_blocks i) by lia. cbv zeta. rewrite <-En. pose proof (iok_block i Hi) as HB. pose proof (iok_direct i Hi) as HD. pose proof nids_range as HN. pose proof (max_pos i Hi) as Hmax. pose proof (flat_total o i Hi Hplain A Ns st Hw) as Htot. pose proof max_dnodes as Hmd.
  assert (HmB : max_inode_blocks i = D + (2 + 2 * N + N * N) * B) by done. destruct (Z.ltb_spec (Z.of_nat n - ofs_in_node dn) 0); [lia|]. set (k := Z.to_nat (ofs_in_node dn)). assert (Ek : ofs_in_node dn = Z.of_nat k) by lia. rewrite Ek in *. clearbody k. replace (Z.of_nat n - Z.of_nat k) with (Z.of_nat (n - k)) by lia.
  assert (Hnext : exists m, Z.of_nat (base + n) = D + m * B /\ 0 <= m /\ (node_page_of dn = AtInode \/ Z.of_nat base = D + (m - 1) * B /\ 1 <= m)).
  { destruct Hcase as [[E ->]|(m & nid & E & Em & Hm)]; rewrite E in En; cbn [addrs_per_page] in En; [exists 0; split; [lia|]; split; [lia|by left]|]. exists (m + 1). split; [lia|]. split; [lia|]. right. split; [rewrite Em; lia|lia]. }
  destruct (negb (Z.of_nat k =? 0) || _) eqn:Eg.
  - destruct (lens_truncate A Ns st base (node_page_of dn) n k (n - k) Hw Hl ltac:(clear -Hof; lia)) as (st1 & E1 & He1). rewrite (bind_ok _ _ _ _ _ E1). destruct Hnext as (m & Em & Hm & Hnode). pose proof (fe_own _ _ _ _ _ _ _ He1) as Hw1. assert (Hfit : (base + n <= length (file_flat st))%nat) by (destruct Hl as (? & ? & ? & ? & _ & _ & ? & _); done).
    replace (b + Z.of_nat (n - k)) with (D + m * B + 0) by lia. replace (base + k)%nat with (Z.to_nat b) in He1 by lia. replace (Z.to_nat b + (n - k))%nat with (base + n)%nat in He1 by lia. destruct (Z.lt_ge_cases (D + m * B) (max_inode_blocks i)) as [Hlt|Hge].
    + left. split; [unfold in_last_dnode; assert (m < 2 + 2 * N + N * N) by nia; nia|]. apply (fcut_next o i A Ns _ (base + n) _ st st1); [lia|lia|done|]. replace (base + n)%nat with (Z.to_nat (D + m * B)) by lia. apply (truncate_inode_blocks_run o env i Hi Hplain A Ns st1 m 0); [done|done|done|lia|by left].
    + right. assert (Emax : (base + n)%nat = (d + root_pos 5)%nat) by lia. rewrite Emax in He1. split.
      2: { exists st1. split; [|exact He1]. unfold f2fs_truncate_inode_blocks. rewrite bind_get, (pl_shape _ _ (fo_plain _ _ (proj1 Hw1))). assert (Hpos : 0 <= D + m * B + 0) by lia. pose proof (path_reaches i (D + m * B + 0) Hi Hpos) as Hr. destruct (get_node_path i (D + m * B + 0)); [exfalso; destruct Hr; lia|done]. }
      destruct Hnode as [E|[Eb1 Hm1]]; [exfalso; rewrite E in En; cbn [addrs_per_page] in En; assert (Z.of_nat base + Z.of_nat n = D) by (destruct Hcase as [[_ ->]|(? & ? & Ex & _)]; [lia|congruence]); nia|].
        assert (Hk0 : k <> 0%nat). { intros ->. destruct Hcase as [[Ex Eb0]|(? & ? & Ex & _)]; [|rewrite Ex in Eg; done]. rewrite Ex in En. cbn [addrs_per_page] in En. subst base. assert (0 <= (m - 1) * B) by (apply Z.mul_nonneg_nonneg; lia). lia. } unfold in_last_dnode. lia.
  - apply orb_false_iff in Eg as [Ek0%negb_false_iff%Z.eqb_eq Enode]. assert (k = 0%nat) as -> by lia. destruct Hcase as [[E _]|(m & nid & E & Em & Hm)]; [by rewrite E in Enode|]. left. split; [unfold in_last_dnode; intros [L1 L2]; assert (m < 2 + 2 * N + N * N) by nia; nia|]. replace b with (D + m * B) by lia. pose proof (truncate_inode_blocks_run o env i Hi Hplain A Ns st m 0 Hw Hm ltac:(clear -Eb Em Hb; lia) ltac:(clear -HB; lia) (or_introl eq_refl)) as Ht. by rewrite Z.add_0_r in Ht.
Qed.
Lemma truncate_found A Ns st b dn : owned A Ns st -> 0 <= b < max_file_blocks i -> found o i A Ns st b dn ->
  truncated A Ns (Z.to_nat b) st b ((let count := addrs_per_page (node_page_of dn) i - ofs_in_node dn in
     if count <? 0 then trap
     else if negb (ofs_in_node dn =? 0) || match node_page_of dn with AtInode => true | AtNode _ => false end
     then f2fs_truncate_data_blocks_range (node_page_of dn) (ofs_in_node dn) count;; f2fs_truncate_inode_blocks env (b + count)
     else f2fs_truncate_inode_blocks env b) st).
Proof. intros Hw Hb Hf. destruct (truncate_found_cases A Ns st b dn Hw Hb Hf) as [[_ ?]|[? (st1 & ? & ?)]]; [by left|right; by exists st1]. Qed.
Lemma partial_page_run from c st : truncate_partial_data_page env from c st = Some (inr tt, st) \/ truncate_partial_data_page env from c st = Some (inr tt, tick st) \/ exists e, truncate_partial_data_page env from c st = Some (inl (Env e), tick st).
Proof. unfold truncate_partial_data_page. destruct (c || _); [by left|right]. apply ask_run. Qed.
Lemma truncated_then A Ns a st b (m : M (S := T) unit) from c : owned A Ns st -> (a <= length (file_flat st))%nat -> truncated A Ns a st b (m st) -> truncated A Ns a st b ((m;; truncate_partial_data_page env from c) st).
Proof.
  intros Hw Ha Hm. pose proof (flat_total o i Hi Hplain A Ns st Hw) as Htot. destruct Hm as [[(st1 & [] & E & _ & He)|(e & st1 & fl & E & Ht & Hfl & He)]|(st1 & E & Hb & He)].
  - rewrite (bind_ok _ _ _ _ _ E). left. destruct (partial_page_run from c st1) as [->|[->|(e & ->)]]; [left; by exists st1, tt|left; exists (tick st1), tt; split; [done|]; split; [done|by apply fevolve_tick]|].
    right. exists e, (tick st1), (blank a (d + root_pos 5) (file_flat st)). split; [done|]. split; [apply blank_thinned; lia|]. split; [by apply blank_take|by apply fevolve_tick].
  - rewrite (bind_err _ _ _ _ _ E). left. right. by exists e, st1, fl.
  - rewrite (bind_err _ _ _ _ _ E). right. by exists st1.
Qed.
Lemma do_truncate_run A Ns st from : owned A Ns st -> inline_data (fi st) = None -> 0 <= from ->
  truncated A Ns (Z.to_nat (cut_from (F2FS_BLK_ALIGN from))) st (F2FS_BLK_ALIGN from) (f2fs_do_truncate_blocks env from st).
Proof.
  intros Hw Hin Hfrom. pose proof (pl_shape _ _ (fo_plain _ _ (proj1 Hw))) as Hs. pose proof (flat_total o i Hi Hplain A Ns st Hw) as Htot. pose proof (max_pos i Hi) as Hmax. unfold f2fs_do_truncate_blocks. rewrite bind_get, Hs, Hin. set (b := F2FS_BLK_ALIGN from). assert (Hb : 0 <= b) by (apply Z.div_pos; unfold PAGE_SIZE; lia).
  pose proof (max_blocks i) as Hmb. pose proof (iok_direct i Hi) as HD0. unfold cut_from. apply (truncated_then A Ns _ st b _ from _ Hw); [destruct (Z.leb_spec (max_file_blocks i) b); lia|]. destruct (Z.leb_spec (max_file_blocks i) b) as [Hge|Hlt].
  { left. rewrite <-Hmax, Nat2Z.id. apply fcut_nothing; [done|lia|done]. }
  unfold get_inode_page. destruct (ask_run env Env st) as [E|(e & E)]; [|rewrite (bind_err _ _ _ _ _ E); left; by apply fcut_failed]. rewrite (bind_ok _ _ _ _ _ E). pose proof (owned_tick o i A Ns st Hw) as Hwt.
  assert (Htick : forall res, truncated A Ns (Z.to_nat b) (tick st) b res -> truncated A Ns (Z.to_nat b) st b res) by (intros res [Hr|(st1 & -> & Hl & He)]; [left; by apply fcut_from_tick|right; exists st1; split; [done|]; split; [done|by apply fevolve_from_tick]]). apply Htick. clear Htick E.
  destruct (dnode_lookup o env i Hi Hplain A Ns (tick st) b true Hwt Hin ltac:(clear -Hb Hlt Hmb HD0; lia)) as (st1 & r & E & Hid & Hr). rewrite <-dnode_ra in E. rewrite (bind_ok _ _ _ _ _ E). pose proof (idle_owned o i A Ns _ _ Hid Hwt) as Hw1. assert (Hidle : forall res, truncated A Ns (Z.to_nat b) st1 b res -> truncated A Ns (Z.to_nat b) (tick st) b res).
  { assert (Efl : file_flat st1 = file_flat (tick st)) by (by apply (idle_same file_flat _ _)). intros res [[(st2 & x & -> & Hx & He)|(e & st2 & fl & -> & Ht & Hfl & He)]|(st2 & -> & Hl & He)]; rewrite Efl in *; [left; left; exists st2, x|left; right; exists e, st2, fl|right; exists st2]; (do 2 (split; [done|])); [|split; [done|]|]; by eapply idle_evolve. }
  apply Hidle. clear Hidle. destruct Hr as [(dn & -> & Hfd)|[(cur & mx & -> & [Hms])|(e & l1 & l2 & ->)]].
  - by apply truncate_found.
  - destruct Hms as (next & _ & Hnx & m & x & Eb & Hm & Hx & Hxm & Hnull). left. assert (Efl : file_flat st1 = file_flat (tick st)) by (by apply (idle_same file_flat _ _)). assert (Enid : i_nid (fi st1) = i_nid (fi (tick st))) by (by apply (idle_same (fun s => i_nid (fi s)) _ _ )). rewrite <-Efl in Hnull. rewrite <-Enid in Hxm. pose proof (iok_direct i Hi) as HD. assert (HmB : 0 <= m * B) by (pose proof (iok_block i Hi); nia).
    apply (fcut_widen o i A Ns (Z.to_nat b) (Z.to_nat (D + m * B))); [lia|rewrite Efl; change (file_flat (tick st)) with (file_flat st); lia|intros y Hy; apply Hnull; lia|]. rewrite Eb. apply truncate_inode_blocks_run; try done. lia.
  - left. right. exists e, st1, (file_flat st1). split; [done|]. split; [apply thinned_refl|]. split; [done|]. by apply fevolve_refl.
Qed.

(** Within the last direct node, if it is there, the call always fails. *)
Lemma do_truncate_last A Ns st from a : owned A Ns st -> inline_data (fi st) = None -> 0 <= from -> in_last_dnode (F2FS_BLK_ALIGN from) -> file_flat st !! Z.to_nat (F2FS_BLK_ALIGN from) = Some a -> a <> NULL_ADDR ->
  exists st' r, f2fs_do_truncate_blocks env from st = Some (inl r, st') /\ ((r = E2BIG /\ fevolve A Ns (blank (Z.to_nat (F2FS_BLK_ALIGN from)) (d + root_pos 5) (file_flat st)) st st') \/ (exists e, r = Env e /\ idle st st')).
Proof.
  intros Hw Hin Hfrom Hlast Ha Hnn. pose proof (pl_shape _ _ (fo_plain _ _ (proj1 Hw))) as Hs. unfold f2fs_do_truncate_blocks. rewrite bind_get, Hs, Hin. set (b := F2FS_BLK_ALIGN from) in *. assert (Hb : 0 <= b) by (apply Z.div_pos; unfold PAGE_SIZE; lia). pose proof Hlast as [_ Hlt]. assert (Hbi : 0 <= b < max_inode_blocks i) by (pose proof (max_blocks i); pose proof (iok_direct i Hi); lia). rewrite (proj2 (Z.leb_gt _ _)) by done.
  unfold get_inode_page. rewrite bind_bind. destruct (ask_run env Env st) as [E|(e & E)]; [|rewrite (bind_err _ _ _ _ _ E); eexists _, _; split; [done|]; right; exists e; split; [done|by exists 1%nat]]. rewrite (bind_ok _ _ _ _ _ E), bind_bind. pose proof (owned_tick o i A Ns st Hw) as Hwt.
  destruct (dnode_lookup o env i Hi Hplain A Ns (tick st) b true Hwt Hin Hbi) as (st1 & r & E1 & Hid & Hr). rewrite <-dnode_ra in E1. rewrite (bind_ok _ _ _ _ _ E1). pose proof (idle_owned o i A Ns _ _ Hid Hwt) as Hw1. assert (Efl : file_flat st1 = file_flat st) by (by apply (idle_same file_flat (tick st) _)).
  destruct Hr as [(dn & -> & Hfd)|[(cur & mx & -> & [Hms])|(e & l1 & l2 & ->)]].
  - destruct (truncate_found_cases A Ns st1 b dn Hw1 (conj Hb Hlt) Hfd) as [[Hno _]|[_ (st2 & E2 & He)]]; [done|]. rewrite (bind_err _ _ _ _ _ E2). eexists _, _. split; [done|]. left. split; [done|]. rewrite Efl in He. eapply idle_evolve; [|exact He]. by apply idle_tick.
  - exfalso. destruct Hms as (next & _ & Hnx & m & x & Eb & Hm & Hx & _ & Hnull). change (file_flat (tick st)) with (file_flat st) in Hnull. rewrite Hnull in Ha; [congruence|]. lia.
  - eexists _, _. split; [done|]. right. exists e. split; [done|]. by apply idle_tick.
Qed.

(** ** A hole is punched *)

(** The blocks are emptied in their order. *)
Definition punched A Ns (a b : nat) st (res : option ((errno + unit) * fsys T)) : Prop :=
  exists st1 r c, res = Some (r, st1) /\ (a <= c <= b)%nat /\ fevolve A Ns (blank a c (file_flat st)) st st1 /\ (r = inr tt /\ c = b \/ exists e, r = inl (Env e)).
Lemma punched_next A Ns a b c st st1 res : (a <= b <= c)%nat -> (c <= length (file_flat st))%nat -> fevolve A Ns (blank a b (file_flat st)) st st1 -> punched A Ns b c st1 res -> punched A Ns a c st res.
Proof.
  intros Hab Hc He (st2 & r & x & -> & Hx & He2 & Hr). exists st2, r, x. split; [done|]. split; [lia|]. split; [|done]. rewrite (fe_flat _ _ _ _ _ _ _ He), blank_blank in He2 by lia. by eapply fevolve_trans.
Qed.
Lemma hole_loop_done fuel s e st : e <= s -> truncate_hole_loop env fuel s e st = Some (inr tt, st).
Proof. intros Hse. destruct fuel; cbn [truncate_hole_loop]; by rewrite (proj2 (Z.leb_le e s)). Qed.
Lemma hole_run fuel : forall A Ns (s e : nat) st, (e - s <= fuel)%nat -> (s <= e <= length (file_flat st))%nat -> owned A Ns st -> inline_data (fi st) = None -> punched A Ns s e st (truncate_hole_loop env fuel (Z.of_nat s) (Z.of_nat e) st).
Proof.
  induction fuel as [|fuel IH]; intros A Ns s e st Hfu Hse Hw Hin; (destruct (decide (s = e)) as [->|Hne]; [rewrite hole_loop_done by lia; exists st, (inr tt), e; split; [done|]; split; [lia|]; split; [rewrite blank_empty by lia; by apply fevolve_refl|by left]|]); [lia|].
  cbn [truncate_hole_loop]. rewrite (proj2 (Z.leb_gt _ _)) by lia. rewrite bind_get, (pl_shape _ _ (fo_plain _ _ (proj1 Hw))). pose proof (flat_total o i Hi Hplain A Ns st Hw) as Htot. pose proof (max_pos i Hi) as Hmax. destruct (dnode_lookup o env i Hi Hplain A Ns st (Z.of_nat s) false Hw Hin ltac:(clear -Hse Hne Hmax Htot; lia)) as (st1 & r & E & Hid & Hr). rewrite (bind_ok _ _ _ _ _ E).
  pose proof (idle_owned o i A Ns _ _ Hid Hw) as Hw1. assert (Efl : file_flat st1 = file_flat st) by (by apply (idle_same file_flat _ _)). assert (Hin1 : inline_data (fi st1) = None) by (rewrite <-Hin; by apply (idle_same (fun s => inline_data (fi s)) _ _)). assert (He1 : fevolve A Ns (file_flat st) st st1) by (apply (idle_evolve o i A Ns _ st st1 st1 Hid); rewrite <-Efl; by apply fevolve_refl).
  destruct Hr as [(dn & -> & [(base & n & Hl & Eb & Hof & En & _) _])|[(cur & mx & -> & [Hms])|(er & l1 & l2 & ->)]].
  - rewrite <-En. set (k := Z.to_nat (ofs_in_node dn)). assert (Ek : ofs_in_node dn = Z.of_nat k) by lia. rewrite Ek in *. clearbody k. set (c := Nat.min (n - k) (e - s)). assert (Ec : Z.min (Z.of_nat n - Z.of_nat k) (Z.of_nat e - Z.of_nat s) = Z.of_nat c) by lia. rewrite Ec. assert (Hc : (0 < c)%nat /\ (k + c <= n)%nat /\ (s + c <= e)%nat) by lia. clearbody c. destruct Hc as (Hc0 & Hcn & Hce). rewrite (proj2 (Z.eqb_neq _ 0)), (proj2 (Z.ltb_ge _ _)) by lia. cbn [orb].
    destruct (lens_truncate A Ns st1 base (node_page_of dn) n k c Hw1 Hl Hcn) as (st2 & E2 & He2). rewrite (bind_ok _ _ _ _ _ E2). replace (base + k)%nat with s in He2 by lia. rewrite Efl in He2. apply (punched_next A Ns s (s + c) e st st2); [lia|lia|by eapply fevolve_trans|]. replace (Z.of_nat s + Z.of_nat c) with (Z.of_nat (s + c)) by lia.
    apply IH; [lia|rewrite (fe_flat _ _ _ _ _ _ _ He2), blank_length by lia; lia|by apply He2|]. by rewrite (kp_inline _ _ (fe_kept _ _ _ _ _ _ _ He2)).
  - destruct Hms as (next & Hno & Hnx & m & x & Ex & Hm & Hx & _ & Hnull). rewrite Hno. cbn [some]. rewrite bind_ret. pose proof (iok_direct i Hi) as HD. set (t := Nat.min next e). assert (Ht : (s <= t <= e)%nat) by lia. assert (Hb : blank s t (file_flat st) = file_flat st) by (rewrite (blank_nulls _ t s t), blank_empty; [done|lia|lia|lia|]; intros y Hy; apply Hnull; lia).
    apply (punched_next A Ns s t e st st1); [lia|lia|by rewrite Hb|]. destruct (Nat.le_gt_cases e next).
    + rewrite hole_loop_done by lia. assert (t = e) as -> by lia. exists st1, (inr tt), e. split; [done|]. split; [lia|]. split; [rewrite blank_empty by (rewrite Efl; lia); by apply fevolve_refl|by left].
    + assert (t = next) as -> by lia. apply IH; [lia|rewrite Efl; lia|done|done].
  - exists st1, (inl (Env er)), s. split; [done|]. split; [lia|]. split; [rewrite blank_empty by lia; exact He1|right; by exists er].
Qed.
End ops.

(** ** Blocks are reserved and written out of place (data.c)

    A reserved block has [NEW_ADDR] in its place; writing it gives it an address that nothing
    else has, and gives the old one back. *)

Section write.
Context {T : Type} `{BlockLaws T} (o : rest) (env : file_env) (i : node_inode) (Hi : inode_ok i) (Hplain : f2fs_compressed_file i = false).
Implicit Types (st : fsys T) (A Ns l fl : list Z) (h j : nat).
Notation acct := (acct o).
Notation fevolve := (fevolve o i).
Notation owned := (owned o i).
Notation file_flat := (file_flat i).
Notation lens := (lens o i).
Notation found := (found o i).

(** ** One block more *)

Lemma inc_blocks_run st x m y : total_valid_block_count (cnt st) = x -> total_valid_node_count (cnt st) = m -> i_blocks (fi st) = y -> 0 <= x -> limits (cnt st) ->
  (exists st', inc_valid_block_count env 1 st = Some (inr 1, st') /\ counted st st' /\ total_valid_block_count (cnt st') = x + 1 /\ total_valid_node_count (cnt st') = m /\ i_blocks (fi st') = y + 8) \/
  (exists st' e, inc_valid_block_count env 1 st = Some (inl e, st') /\ alloc_error e /\ idle st st').
Proof.
  intros Hx Hm Hy Hx0 [L1 L2 L3 L4 L5 L6]. unfold inc_valid_block_count. destruct (ask_run env Env st) as [E|(e & E)]; [|right; exists (tick st), (Env e); rewrite (bind_err _ _ _ _ _ E); split; [done|]; split; [right; right; by exists e|by exists 1%nat]].
  rewrite (bind_ok _ _ _ _ _ E). clear E. destruct (ask_run env (fun _ => ENOSPC) (tick st)) as [E|(e & E)]; [|right; exists (tick (tick st)), ENOSPC; rewrite (bind_err _ _ _ _ _ E); split; [done|]; split; [by left|by exists 2%nat]]. rewrite (bind_ok _ _ _ _ _ E). msteps. cbn [cnt tick].
  set (c := cnt st) in *. rewrite (u32_small (_ + 1)) by lia. rewrite (u32_small (user_block_count c - current_reserved_blocks c)) by lia. set (av1 := if allow_reserved_blocks env then _ else _). assert (Hav1 : 0 <= av1 <= user_block_count c) by (unfold av1; destruct (allow_reserved_blocks env); rewrite ?u32_small by lia; lia). clearbody av1.
  set (av2 := if cp_disabled c then _ else _). assert (Hav2 : 0 <= av2 <= user_block_count c) by (unfold av2; destruct (cp_disabled c); [|lia]; destruct (Z.ltb_spec (unusable_block_count c) av1); rewrite ?u32_small by lia; lia). clearbody av2. rewrite Hx.
  destruct (Z.ltb_spec av2 (x + 1)) as [Hlt|Hge].
  - right. rewrite (Z.min_r (x + 1 - av2) 1) by lia. change (true && (1 - 1 =? 0)) with true. cbv iota. rewrite bind_modify. eexists _, ENOSPC. split; [done|]. split; [by left|]. exists 2%nat. cbn. unfold with_cnt, tick. cbn. f_equal. rewrite u32_small by lia. fold c. replace (x + 1 - 1) with (total_valid_block_count c) by lia. replace (alloc_valid_block_count c + 1 - 1) with (alloc_valid_block_count c) by lia. by destruct c.
  - left. cbn [andb]. rewrite Z.sub_0_r, bind_modify. unfold f2fs_i_blocks_write. rewrite bind_modify. eexists. split; [reflexivity|]. cbn. fold c. rewrite Z.sub_0_r, (u32_small (x + 1)) by lia. split; [|split; [done|split; [done|lia]]]. constructor; try done. constructor; cbn; fold c; try done; lia.
Qed.

(** ** One place of a window *)

Lemma nonnull_insert l (k : nat) a v : l !! k = Some a -> nonnull l ≡ₚ nonnull [a] ++ nonnull (take k l ++ drop (Datatypes.S k) l) /\ nonnull (<[k := v]> l) ≡ₚ nonnull [v] ++ nonnull (take k l ++ drop (Datatypes.S k) l).
Proof.
  intros Ha. pose proof (lookup_lt_Some _ _ _ Ha) as Hk. split.
  - rewrite <-(take_drop_middle l k a Ha) at 1. rewrite nonnull_app. change (a :: drop (Datatypes.S k) l) with ([a] ++ drop (Datatypes.S k) l). rewrite (nonnull_app [a]), nonnull_app. apply Permutation_app_swap_app.
  - rewrite insert_take_drop by done. rewrite nonnull_app. change (v :: drop (Datatypes.S k) l) with ([v] ++ drop (Datatypes.S k) l). rewrite (nonnull_app [v]), nonnull_app. apply Permutation_app_swap_app.
Qed.
Lemma splice_insert base (k n : nat) v l fl : (k < n <= length l)%nat -> (base + n <= length fl)%nat -> (forall y, (y < n)%nat -> fl !! (base + y)%nat = l !! y) -> splice base (take n (<[k := v]> l)) fl = <[(base + k)%nat := v]> fl.
Proof.
  intros Hk Hfit Hy. apply list_eq. intros q. assert (Hlen : length (take n (<[k := v]> l)) = n) by (rewrite length_take, length_insert; lia). rewrite splice_lookup, Hlen by lia. destruct (decide (q = base + k)%nat) as [->|Hne].
  - rewrite (list_lookup_insert_eq fl) by lia. rewrite (proj2 (Nat.leb_le _ _)), (proj2 (Nat.ltb_lt _ _)) by lia. cbn [andb]. rewrite lookup_take_lt by lia. replace (base + k - base)%nat with k by lia. apply list_lookup_insert_eq. lia.
  - rewrite (list_lookup_insert_ne fl) by done. destruct (Nat.leb_spec base q), (Nat.ltb_spec q (base + n)); cbn [andb]; try done. rewrite lookup_take_lt by lia. rewrite list_lookup_insert_ne by lia. rewrite <-Hy by lia. f_equal. lia.
Qed.
Lemma mirror_insert log log' s l (k : nat) v : mirror log s l -> (k < length l)%nat -> ext_view log' (s + Z.of_nat k) = (if is_data_addr v then v else NULL_ADDR) -> (forall j : Z, j <> s + Z.of_nat k -> ext_view log' j = ext_view log j) -> mirror log' s (<[k := v]> l).
Proof.
  intros Hm Hk Hv Hj q a Hq. destruct (decide (q = k)) as [->|Hne].
  - rewrite list_lookup_insert_eq in Hq by done. by injection Hq as <-.
  - rewrite list_lookup_insert_ne in Hq by done. rewrite Hj by lia. by apply Hm.
Qed.

(** ** A block is reserved *)

Lemma acct_reserved st st' A Ns : acct st A Ns -> blocks st' = blocks st -> nat_tab st' = nat_tab st -> free_nids st' = free_nids st -> max_nid st' = max_nid st -> total_valid_block_count (cnt st') = total_valid_block_count (cnt st) + 1 -> total_valid_node_count (cnt st') = total_valid_node_count (cnt st) -> i_blocks (fi st') = i_blocks (fi st) + 8 -> limits (cnt st') -> ino (fi st') = ino (fi st) -> acct st' (NEW_ADDR :: A) Ns.
Proof.
  intros [X1 X2 X3 X4 X5 X6 X7 X8 X9 X10 X11 X12 X13 X14 X15] E1 E2 E3 E4 E5 E6 E7 Hli E8. assert (En : forall n, node_addr st' n = node_addr st n) by (intros n; unfold node_addr, nat_entry_of; by rewrite E2). pose proof nat_addrs as Hadd. destruct compress_other as [Hc1 Hc2].
  assert (Ed : data_addrs st' (NEW_ADDR :: A) Ns = data_addrs st A Ns) by (unfold data_addrs; cbn [app]; rewrite filter_cons_False by (unfold is_data_addr; rewrite Z.eqb_refl; done); do 2 f_equal; apply list_fmap_ext; intros; apply En).
  constructor; rewrite ?E1, ?E3, ?E8, ?Ed; try done.
  - constructor; [split; congruence|done].
  - apply (list.Forall_impl _ _ _ X3). cbn. intros n. unfold nid_ok. by rewrite E4, En.
  - apply (list.Forall_impl _ _ _ X7). cbn. intros n. unfold nid_ok. by rewrite E4, En.
  - cbn [length]. lia.
  - lia.
  - cbn [length]. lia.
  - intros n a. rewrite En. apply X15.
Qed.
Lemma not_data (a : Z) : is_data_addr a = false -> a = NEW_ADDR \/ a = NULL_ADDR \/ a = COMPRESS_ADDR.
Proof. unfold is_data_addr. intros E%negb_false_iff. apply orb_true_iff in E as [[E%Z.eqb_eq|E%Z.eqb_eq]%orb_true_iff|E%Z.eqb_eq]; tauto. Qed.
Lemma reserve_run A Ns st base r n (k : nat) : owned A Ns st -> lens A Ns st base r n -> (k < n)%nat -> file_flat st !! (base + k)%nat = Some NULL_ADDR ->
  (exists st', f2fs_reserve_new_block env r (Z.of_nat k) st = Some (inr tt, st') /\ fevolve A Ns (<[(base + k)%nat := NEW_ADDR]> (file_flat st)) st st') \/
  (exists e st', f2fs_reserve_new_block env r (Z.of_nat k) st = Some (inl e, st') /\ alloc_error e /\ fevolve A Ns (file_flat st) st st').
Proof.
  intros Hw (l & q & A1 & N1 & Hl & Hn & Hfit & Hy & Hq & Hst & Ha & Hlift) Hk Hnull. pose proof (fevolve_refl o i A Ns st Hw) as Href. pose proof (pl_extra _ _ (fo_plain _ _ (proj1 Hw))) as Hex. unfold f2fs_reserve_new_block, f2fs_reserve_new_blocks. change (1 =? 0) with false. cbv iota. rewrite bind_get. assert (Hlk : l !! k = Some NULL_ADDR) by (rewrite <-Hy; done).
  destruct (no_alloc (fi st)); [right; exists EPERM, st; split; [done|]; split; [right; by left|done]|]. pose proof Ha as [_ _ _ _ _ _ _ X8 X9 X10 X11 X12 X13 X14 X15]. destruct (inc_blocks_run st _ _ _ eq_refl eq_refl eq_refl ltac:(rewrite X8; lia) X12) as [(st1 & E1 & [C1 C2 C3 C4 C5 C6 C7 C8] & T1 & T2 & T3)|(st1 & e & E1 & He & Hid)].
  2: { right. exists e, st1. rewrite (bind_err _ _ _ _ _ E1). split; [done|]. split; [done|]. assert (Efl : file_flat st1 = file_flat st) by (by apply (idle_same file_flat st st1)). eapply idle_evolve; [exact Hid|]. rewrite <-Efl. apply fevolve_refl. by eapply idle_owned. }
  left. rewrite (bind_ok _ _ _ _ _ E1). assert (Hl1 : arr st1 r = Some l) by (destruct r; cbn in *; [by rewrite (sb_extra _ _ C1), (sb_addr _ _ C1)|by rewrite C2]). assert (Hex1 : 0 <= extra_isize (fi st1)) by (by rewrite (sb_extra _ _ C1)).
  destruct words_fit as [W1 _]. pose proof nids_range as HN. assert (Epw : exists w, Z.to_nat page_words = Datatypes.S w) by (exists (Nat.pred (Z.to_nat page_words)); lia). destruct Epw as [w ->]. cbn [reserve_loop]. change (1 <=? 0) with false. cbv iota. rewrite (bind_ok _ _ _ _ _ (get_addr_run st1 r l k NULL_ADDR Hex1 Hl1 Hlk)), Z.eqb_refl.
  destruct (set_addr_run st1 r l k NEW_ADDR Hex1 Hl1 ltac:(clear -Hk Hn; lia)) as (st2 & E2 & Hl2 & Q & W & Hc2 & Hi2 & Hb2 & Hx2). rewrite (bind_ok _ _ _ _ _ E2). exists st2. split; [by destruct w|]. cbn in C2, C3, C4, C5, C6, T1, T2, T3.
  assert (Q0 : quiet st st2) by (destruct Q, C1; constructor; congruence). assert (W0 : elsewhere r st st2) by (destruct r; cbn in *; [destruct W as [V1 V2]; rewrite (sb_extra _ _ C1), (sb_addr _ _ C1) in V2; by rewrite V1|destruct W as (V1 & V2 & V3); rewrite C2 in *; split; [by rewrite V1, (sb_addr _ _ C1)|done]]).
  rewrite <-(splice_insert base k n NEW_ADDR l) by (done || lia). assert (Htk : take n l !! k = Some NULL_ADDR) by (rewrite lookup_take_lt by done; done). assert (Eti : take n (<[k := NEW_ADDR]> l) = <[k := NEW_ADDR]> (take n l)) by (by rewrite take_insert_lt by done).
  destruct (nonnull_insert (take n l) k NULL_ADDR NEW_ADDR Htk) as [P1 P2]. pose proof nat_addrs as Hadd. assert (Enn : nonnull [NULL_ADDR] = [] /\ nonnull [NEW_ADDR] = [NEW_ADDR]) by (unfold nonnull; rewrite filter_cons_False by tauto; rewrite filter_cons_True by (intros X; by apply Hadd); done). destruct Enn as [N0 NN]. rewrite N0 in P1. rewrite NN in P2. cbn [app] in P1, P2.
  apply (Hlift (<[k := NEW_ADDR]> l) st2 Hl2); try done.
  - by rewrite length_insert.
  - rewrite Eti, P2, <-P1. cbn [app]. apply (acct_reserved st); try (destruct Q0; congruence); done.
  - intros j _. by rewrite Hx2, C3.
  - intros Hm. rewrite Eti. apply (mirror_insert (ext_log st)); [done|by eapply lookup_lt_Some| |intros j _; by rewrite Hx2, C3]. rewrite Hx2, C3, (Hm k NULL_ADDR Htk). unfold is_data_addr. by rewrite !Z.eqb_refl, !orb_true_r.
Qed.
(** The whole call. *)
Definition reserved A Ns (b : nat) st (res : option ((errno + ((errno * Z * Z) + dnode_of_data)) * fsys T)) : Prop :=
  exists st' r, res = Some (inr r, st') /\
    ((exists dn a, r = inr dn /\ file_flat st !! b = Some a /\ fevolve A Ns (<[b := if a =? NULL_ADDR then NEW_ADDR else a]> (file_flat st)) st st') \/
     (exists e (l1 l2 : Z), r = inl (e, l1, l2) /\ alloc_error e /\ fevolve A Ns (file_flat st) st st')).
Lemma reserve_block_run A Ns st index ipage : owned A Ns st -> inline_data (fi st) = None -> 0 <= index < max_inode_blocks i -> reserved A Ns (Z.to_nat index) st (f2fs_reserve_block env ipage index st).
Proof.
  intros Hw Hin Hix. unfold f2fs_reserve_block. destruct (dnode_alloc o env i Hi Hplain A Ns st index ipage Hw Hin Hix) as (st1 & r & E & He & Hx & Hr). rewrite (bind_ok _ _ _ _ _ E). pose proof (fe_flat _ _ _ _ _ _ _ He) as Efl. destruct Hr as [(dn & -> & [(base & n & Hl & Eb & Hof & En & _) Ha])|(e & l1 & l2 & -> & Hae)].
  - rewrite Efl in Ha. destruct (Z.eqb_spec (data_blkaddr dn) NULL_ADDR) as [E0|E0].
    + set (k := Z.to_nat (ofs_in_node dn)). assert (Ek : ofs_in_node dn = Z.of_nat k) by lia. assert (Hk : (k < n)%nat) by lia. assert (Ebk : Z.to_nat index = (base + k)%nat) by lia. rewrite Ek, Ebk in *. rewrite E0 in Ha.
      destruct (reserve_run A Ns st1 base (node_page_of dn) n k ltac:(apply He) Hl Hk ltac:(rewrite Efl; exact Ha)) as [(st2 & E2 & He2)|(e & st2 & E2 & Hae & He2)]; rewrite (bind_catch _ _ _ _ _ E2), Efl in *; exists st2; eexists; (split; [done|]); [left|right].
      * exists dn, NULL_ADDR. split; [done|]. split; [done|]. rewrite Z.eqb_refl. by eapply fevolve_trans.
      * exists e, 0, 0. split; [done|]. split; [done|]. by eapply fevolve_trans.
    + exists st1, (inr dn). split; [done|]. left. exists dn, (data_blkaddr dn). split; [done|]. split; [done|]. rewrite (proj2 (Z.eqb_neq _ _)) by done. by rewrite list_insert_id.
  - exists st1, (inl (e, l1, l2)). split; [done|]. right. by exists e, l1, l2.
Qed.

(** ** A block is written *)

Lemma acct_moved st st' s old new A Ns : acct st (old :: A) Ns -> blocks st' = s -> bl_ok s -> ~ bl_live (blocks st) new -> is_data_addr new = true -> (forall b, bl_live s b <-> (b = new \/ bl_live (blocks st) b) /\ b <> old) ->
  nat_tab st' = nat_tab st -> free_nids st' = free_nids st -> max_nid st' = max_nid st -> cnt st' = cnt st -> i_blocks (fi st') = i_blocks (fi st) -> ino (fi st') = ino (fi st) -> acct st' (new :: A) Ns.
Proof.
  intros [X1 X2 X3 X4 X5 X6 X7 X8 X9 X10 X11 X12 X13 X14 X15] Es Hok Hnew Hd Hl E2 E3 E4 E5 E6 E7. assert (En : forall n, node_addr st' n = node_addr st n) by (intros n; unfold node_addr, nat_entry_of; by rewrite E2). pose proof (proj1 (data_not new) Hd) as (D1 & D2 & D3).
  assert (Ed : data_addrs st' (new :: A) Ns = new :: data_addrs st A Ns) by (unfold data_addrs; cbn [app]; rewrite filter_cons_True by done; do 3 f_equal; apply list_fmap_ext; intros; apply En).
  assert (Eold : data_addrs st (old :: A) Ns = filter (fun a => is_data_addr a = true) [old] ++ data_addrs st A Ns) by (unfold data_addrs; cbn [app]; rewrite !filter_cons; by case_decide). assert (X13' : forall b, o_live o b <-> bl_live (blocks st) b /\ b ∉ filter (fun a => is_data_addr a = true) [old] ++ data_addrs st A Ns) by (intros b; by rewrite X13, Eold). rewrite Eold in X4, X5. apply list.Forall_cons in X2 as [_ X2]. apply list.NoDup_app in X5 as (_ & X5a & X5b).
  assert (Hne : forall a, a ∈ data_addrs st A Ns -> a <> old) by (intros a Hin ->; pose proof Hin as [Hda _]%list_elem_of_filter; apply (X5a old); [|done]; apply list_elem_of_filter; split; [done|by left]). assert (Hno : new <> old) by (intros ->; apply Hnew, X4; rewrite elem_of_app; left; apply list_elem_of_filter; split; [done|by left]).
  constructor; rewrite ?Ed, ?Es, ?E3, ?E5, ?E7; try done.
  - constructor; [done|done].
  - apply (list.Forall_impl _ _ _ X3). cbn. intros n. unfold nid_ok. by rewrite E4, En.
  - intros a [->|Hin]%elem_of_cons; apply Hl; [split; [by left|done]|]. split; [right; apply X4; set_solver|by apply Hne].
  - apply list.NoDup_cons. split; [|done]. intros Hin. apply Hnew, X4. set_solver.
  - apply (list.Forall_impl _ _ _ X7). cbn. intros n. unfold nid_ok. by rewrite E4, En.
  - by rewrite E6.
  - by apply (others_move (blocks st) _ _ old).
  - intros n a. rewrite En. apply X15.
Qed.
Lemma node_ofs_run st r q : match r with AtInode => q = 0 | AtNode m => ofs_of_node <$> pages st !! m = Some q end -> node_ofs r st = Some (inr q, st).
Proof. unfold node_ofs. rewrite bind_get. destruct r; [by intros ->|by intros ->]. Qed.
Lemma write_run A Ns st base r n (k : nat) old sum : owned A Ns st -> lens A Ns st base r n -> (k < n)%nat -> file_flat st !! (base + k)%nat = Some old -> old <> NULL_ADDR -> bl_ready (blocks st) ->
  (is_data_addr old = true -> f2fs_is_valid_blkaddr (blocks st) old = true) /\
  exists s new st', bl_write (blocks st) old sum = Some (s, new) /\ ~ bl_live (blocks st) new /\ is_data_addr new = true /\ f2fs_update_data_blkaddr r (Z.of_nat k) new (with_blocks st s) = Some (inr tt, st') /\ fevolve A Ns (<[(base + k)%nat := new]> (file_flat st)) st st'.
Proof.
  intros Hw (l & q & A1 & N1 & Hl & Hn & Hfit & Hy & Hq & Hst & Ha & Hlift) Hk Hold Hnn Hready. assert (Hlk : l !! k = Some old) by (rewrite <-Hy; done). assert (Htk : take n l !! k = Some old) by (rewrite lookup_take_lt by done; done). pose proof (fo_plain _ _ (proj1 Hw)) as [P1 _ Hex].
  assert (Hin : old ∈ nonnull (take n l)) by (apply list_elem_of_filter; split; [done|by eapply list_elem_of_lookup_2]). assert (Hlive : is_data_addr old = true -> bl_live (blocks st) old) by (intros Hd; apply (ac_live _ _ _ _ Ha); apply list_elem_of_filter; split; [done|]; set_solver).
  assert (Hcase : old = NEW_ADDR \/ bl_live (blocks st) old). { destruct (is_data_addr old) eqn:Ed; [right; by apply Hlive|]. destruct (not_data _ Ed) as [->|[->| ->]]; [by left|done|]. exfalso. pose proof (ac_addr _ _ _ _ Ha) as Hf. rewrite list.Forall_forall in Hf. destruct (Hf COMPRESS_ADDR) as [_ Hc]; [set_solver|done]. }
  split; [intros Hd; by apply (bl_data (blocks st) old (ac_bl _ _ _ _ Ha)), Hlive|]. destruct (bl_give (blocks st) old sum (ac_bl _ _ _ _ Ha) Hready Hcase) as (s & new & E & Hok & Hnew & Hl' & Hd). exists s, new.
  set (st0 := with_blocks st s). assert (Hl0 : arr st0 r = Some l) by (by destruct r). destruct (set_addr_run st0 r l k new Hex Hl0 ltac:(clear -Hk Hn; lia)) as (st2 & E2 & Hl2 & Q & W & Hc2 & Hi2 & Hb2 & Hx2).
  assert (Hq2 : match r with AtInode => q = 0 | AtNode m => ofs_of_node <$> pages st2 !! m = Some q end) by (destruct r; [done|]; destruct W as (_ & -> & _); exact Hq). pose proof (proj1 (data_not new) Hd) as (D1 & D2 & D3).
  exists (with_ext st2 ((f2fs_start_bidx_of_node q (shape (fi st2)) + Z.of_nat k, new, 1) :: ext_log st2)). split; [done|]. split; [done|]. split; [done|]. split.
  { unfold f2fs_update_data_blkaddr, f2fs_update_extent_cache. rewrite (bind_ok _ _ _ _ _ E2), (bind_ok _ _ _ _ _ (node_ofs_run st2 r q Hq2)), bind_get. rewrite (proj2 (Z.eqb_neq new NEW_ADDR)) by done. done. }
  rewrite (qu_shape _ _ Q). cbn [fi st0 with_blocks]. rewrite P1, Hst, Hx2. cbn [ext_log st0 with_blocks]. set (st3 := with_ext st2 _). assert (Q3 : quiet st st3) by (destruct Q; by constructor). assert (W3 : elsewhere r st st3) by (by destruct r).
  assert (Hv : forall j : Z, ext_view (ext_log st3) j = if decide (j = Z.of_nat base + Z.of_nat k) then new else ext_view (ext_log st) j).
  { intros j. cbn. rewrite (proj2 (Z.eqb_neq new NULL_ADDR)) by done. case_decide as Ej; [subst j; rewrite (proj2 (Z.leb_le _ _)), (proj2 (Z.ltb_lt _ _)) by lia; cbn [andb]; lia|]. destruct (Z.leb_spec (Z.of_nat base + Z.of_nat k) j), (Z.ltb_spec j (Z.of_nat base + Z.of_nat k + 1)); cbn [andb]; try done. lia. }
  rewrite <-(splice_insert base k n new l) by (done || lia). assert (Eti : take n (<[k := new]> l) = <[k := new]> (take n l)) by (by rewrite take_insert_lt by done). destruct (nonnull_insert (take n l) k old new Htk) as [N0 NN].
  assert (Enn : nonnull [old] = [old] /\ nonnull [new] = [new]) by (unfold nonnull; by rewrite !filter_cons_True). destruct Enn as [M0 MN]. rewrite M0 in N0. rewrite MN in NN. apply (Hlift (<[k := new]> l) st3); try done.
  - by rewrite length_insert.
  - rewrite Eti, NN. rewrite N0 in Ha. cbn [app] in *. apply (acct_moved st st3 s old new); try done; apply Q3.
  - intros j Hj. rewrite Hv, decide_False by lia. done.
  - intros Hm. rewrite Eti. apply (mirror_insert (ext_log st)); [done|by eapply lookup_lt_Some|rewrite Hv, decide_True by done; by rewrite Hd|intros j Hj; by rewrite Hv, decide_False].
Qed.
Lemma lens_tick A Ns st base r n : lens A Ns st base r n -> lens A Ns (tick st) base r n.
Proof.
  intros (l & q & A1 & N1 & L1 & L2 & L3 & L4 & L5 & L6 & L7 & L8). exists l, q, A1, N1. split; [by destruct r|]. split; [done|]. split; [done|]. split; [done|]. split; [by destruct r|]. split; [done|]. split; [by apply acct_tick|]. intros l' st' V1 V2 V3 V4 V5 V6 V7.
  assert (Hb : fevolve A Ns (splice base (take n l') (file_flat st)) st st') by (apply L8; first [done|by destruct V3; constructor|by destruct r]). destruct Hb as [Z1 Z2 Z3 Z4 Z5]. constructor; try done. by destruct Z1.
Qed.
Lemma fevolve_first A Ns fl b st st' : fevolve A Ns fl st st' -> fevolve A Ns fl st (with_fi st' (set_first (fi st') b)).
Proof.
  intros [X1 X2 [[Y1 Y2 Y3 Y4] X3] X4 X5]. constructor; try done; [by destruct X1|]. split; [|by apply (acct_same o st')]. constructor; try done. destruct Y1. by constructor.
Qed.
(** The whole call. *)
Definition written A Ns (b : nat) st (res : option ((errno + unit) * fsys T)) : Prop :=
  exists st' r a, res = Some (r, st') /\ file_flat st !! b = Some a /\
    ((a = NULL_ADDR /\ (r = inr tt \/ r = inl ENOENT) /\ idle st st') \/
     (a <> NULL_ADDR /\ r = inr tt /\ exists new, is_data_addr new = true /\ ~ bl_live (blocks st) new /\ fevolve A Ns (<[b := new]> (file_flat st)) st st') \/
     (exists e, r = inl (Env e) /\ idle st st')).
Lemma write_page_run A Ns st index : owned A Ns st -> inline_data (fi st) = None -> 0 <= index < max_inode_blocks i -> bl_ready (blocks st) -> written A Ns (Z.to_nat index) st (f2fs_do_write_data_page env index st).
Proof.
  intros Hw Hin Hix Hready. pose proof (flat_total o i Hi Hplain A Ns st Hw) as Htot. pose proof (max_pos i Hi) as Hmax. destruct (lookup_lt_is_Some_2 (file_flat st) (Z.to_nat index)) as [a Ha]; [lia|]. unfold f2fs_do_write_data_page. destruct (dnode_lookup o env i Hi Hplain A Ns st index false Hw Hin Hix) as (st1 & r & E & Hid & Hr). rewrite (bind_ok _ _ _ _ _ E).
  pose proof (idle_owned o i A Ns _ _ Hid Hw) as Hw1. assert (Efl : file_flat st1 = file_flat st) by (by apply (idle_same file_flat _ _)). assert (Ebl : blocks st1 = blocks st) by (by apply (idle_same blocks _ _)). destruct Hr as [(dn & -> & [(base & n & Hl & Eb & Hof & En & _) Hda])|[(cur & mx & -> & [Hms])|(e & l1 & l2 & ->)]].
  - rewrite Efl, Ha in Hda. injection Hda as ->. set (a := data_blkaddr dn) in *. destruct (Z.eqb_spec a NULL_ADDR) as [E0|E0]; [exists st1, (inr tt), a; split; [done|]; split; [done|]; left; split; [done|]; split; [by left|done]|].
    set (k := Z.to_nat (ofs_in_node dn)). assert (Ek : ofs_in_node dn = Z.of_nat k) by lia. assert (Hk : (k < n)%nat) by lia. assert (Ebk : Z.to_nat index = (base + k)%nat) by lia. rewrite Ek, Ebk in *.
    rewrite bind_get. assert (Hv : is_data_addr a && negb (f2fs_is_valid_blkaddr (blocks st1) a) = false). { destruct (write_run A Ns st1 base (node_page_of dn) n k a (false, 0, 0, 0) Hw1 Hl Hk ltac:(by rewrite Efl) E0 ltac:(by rewrite Ebl)) as [Hv _]. destruct (is_data_addr a); [by rewrite Hv|done]. } rewrite Hv. unfold f2fs_get_node_info. rewrite bind_bind.
    destruct (ask_run env Env st1) as [E1|(e & E1)]; [|rewrite (bind_err _ _ _ _ _ E1); exists (tick st1), (inl (Env e)), a; split; [done|]; split; [done|]; right; right; exists e; split; [done|]; eapply idle_trans; [exact Hid|by exists 1%nat]]. rewrite (bind_ok _ _ _ _ _ E1), bind_get.
    destruct (ask_run env Env (tick st1)) as [E2|(e & E2)]; [|rewrite (bind_err _ _ _ _ _ E2); exists (tick (tick st1)), (inl (Env e)), a; split; [done|]; split; [done|]; right; right; exists e; split; [done|]; eapply idle_trans; [exact Hid|by exists 2%nat]]. rewrite (bind_ok _ _ _ _ _ E2). set (st2 := tick (tick st1)).
    assert (Hid2 : idle st st2) by (eapply idle_trans; [exact Hid|by exists 2%nat]). pose proof (idle_owned o i A Ns _ _ Hid2 Hw) as Hw2. pose proof (lens_tick A Ns _ _ _ _ (lens_tick A Ns _ _ _ _ Hl)) as Hl2.
    destruct (write_run A Ns st2 base (node_page_of dn) n k a (false, dn_nid dn, Z.of_nat k, version (nat_entry_of (tick st1) (dn_nid dn))) Hw2 Hl2 Hk) as (_ & s & new & st3 & E3 & Hnew & Hd & E4 & He); [change (file_flat st1 !! (base + k)%nat = Some a); by rewrite Efl|done|change (bl_ready (blocks st1)); by rewrite Ebl|].
    unfold bind at 1. rewrite E3. cbn [mbind option_bind]. change (blocks st2) with (blocks st1) in Hnew. rewrite Ebl in Hnew. change (file_flat st2) with (file_flat st1) in He. rewrite Efl in He. rewrite (bind_ok _ _ _ _ _ E4).
    assert (Hend : exists st4, (if index =? 0 then modify (fun s => with_fi s (set_first (fi s) true)) else ret tt) st3 = Some (inr tt, st4) /\ fevolve A Ns (<[(base + k)%nat := new]> (file_flat st)) st2 st4) by (destruct (index =? 0); eexists; (split; [done|]); [by apply fevolve_first|done]).
    destruct Hend as (st4 & E5 & He4). exists st4, (inr tt), a. split; [exact E5|]. split; [done|]. right. left. split; [done|]. split; [done|]. exists new. split; [done|]. split; [done|]. eapply idle_evolve; [exact Hid2|exact He4].
  - destruct Hms as (next & _ & Hnx & m & x & Eix & Hm & Hx & _ & Hnull). assert (a = NULL_ADDR) as -> by (rewrite Hnull in Ha by lia; by injection Ha). exists st1, (inl ENOENT), NULL_ADDR. split; [done|]. split; [done|]. left. split; [done|]. split; [by right|done].
  - exists st1, (inl (Env e)), a. split; [done|]. split; [done|]. right. right. by exists e.
Qed.

(** ** A node is written *)

Lemma acct_node_moved st st' s new n A Ns : acct st A (n :: Ns) -> blocks st' = s -> bl_ok s -> ~ bl_live (blocks st) new -> is_data_addr new = true -> (forall b, bl_live s b <-> (b = new \/ bl_live (blocks st) b) /\ b <> node_addr st n) ->
  (forall m, node_addr st' m = if decide (m = n) then new else node_addr st m) -> free_nids st' = free_nids st -> max_nid st' = max_nid st -> cnt st' = cnt st -> i_blocks (fi st') = i_blocks (fi st) -> ino (fi st') = ino (fi st) -> acct st' A (n :: Ns).
Proof.
  intros [X1 X2 X3 X4 X5 X6 X7 X8 X9 X10 X11 X12 X13 X14 X15] Es Hok Hnew Hd Hl En E3 E4 E5 E6 E7. pose proof (proj1 (data_not new) Hd) as (D1 & D2 & D3). cbn in X6. apply list.NoDup_cons in X6 as [Hn X6]. set (old := node_addr st n) in *.
  assert (Ed : data_addrs st' A (n :: Ns) ≡ₚ new :: data_addrs st A Ns).
  { unfold data_addrs. rewrite fmap_cons, <-Permutation_middle, En, decide_True by done. rewrite filter_cons_True by done. assert (Em : node_addr st' <$> Ns = node_addr st <$> Ns) by (apply list_fmap_ext; intros k m Hm; rewrite En, decide_False; [done|]; intros ->; apply Hn; apply elem_of_app; left; by eapply list_elem_of_lookup_2). by rewrite Em. }
  assert (Eold : data_addrs st A (n :: Ns) ≡ₚ filter (fun a => is_data_addr a = true) [old] ++ data_addrs st A Ns) by (unfold data_addrs; rewrite fmap_cons, <-Permutation_middle, <-list.filter_app; done).
  assert (X4' : forall a, a ∈ filter (fun a => is_data_addr a = true) [old] ++ data_addrs st A Ns -> bl_live (blocks st) a) by (intros a; rewrite <-Eold; apply X4). assert (X5' : NoDup (filter (fun a => is_data_addr a = true) [old] ++ data_addrs st A Ns)) by (by rewrite <-Eold). apply list.NoDup_app in X5' as (_ & X5a & X5b).
  assert (Hne : forall a, a ∈ data_addrs st A Ns -> a <> old) by (intros a Hin ->; pose proof Hin as [Hda _]%list_elem_of_filter; apply (X5a old); [|done]; apply list_elem_of_filter; split; [done|by left]). assert (Hno : new <> old) by (intros E; rewrite E in Hd, Hnew; apply Hnew, X4', elem_of_app; left; apply list_elem_of_filter; split; [done|by left]).
  constructor; rewrite ?Es, ?E3, ?E5, ?E7; try done.
  - apply list.Forall_cons in X3 as [[X3 _] X3']. constructor; [unfold nid_ok in *; rewrite E4, En, decide_True; done|]. rewrite list.Forall_forall in X3' |- *. intros m Hm. unfold nid_ok. rewrite E4, En. case_decide as Em; [|by apply X3']. subst m. exfalso. apply Hn. apply elem_of_app. by left.
  - intros a. rewrite Ed. intros [->|Hin]%elem_of_cons; apply Hl; [split; [by left|done]|]. split; [right; apply X4'; set_solver|by apply Hne].
  - rewrite Ed. apply list.NoDup_cons. split; [|done]. intros Hin. apply Hnew, X4'. set_solver.
  - by apply list.NoDup_cons.
  - rewrite list.Forall_forall in X7 |- *. intros m Hm. unfold nid_ok. rewrite E4, En. case_decide as Em; [|by apply X7]. subst m. exfalso. apply Hn. apply elem_of_app. by right.
  - by rewrite E6.
  - intros b. rewrite Ed. apply (others_move (blocks st) _ _ old); try done. intros b'. by rewrite X13, Eold.
  - intros m a Hm. apply X15 in Hm as [Hm Hout]. split; [|done]. rewrite En, decide_False; [done|]. intros ->. apply Hout. by left.
Qed.
Lemma write_node_run A Ns st n : owned A Ns st -> n ∈ file_nids st ++ Ns -> bl_ready (blocks st) ->
  exists st' r, __write_node_page env n st = Some (r, st') /\
    ((r = inr tt /\ fevolve A Ns (file_flat st) st st' /\ ext_log st' = ext_log st /\ is_data_addr (node_addr st' n) = true /\ ~ bl_live (blocks st) (node_addr st' n) /\ forall m, m <> n -> node_addr st' m = node_addr st m) \/ (exists e, r = inl (Env e) /\ idle st st')).
Proof.
  intros Hw Hn Hready. pose proof Hw as [Hf Ha]. unfold __write_node_page, f2fs_get_node_info. rewrite bind_bind. destruct (ask_run env Env st) as [E|(e & E)]; [|rewrite (bind_err _ _ _ _ _ E); eexists _, _; split; [done|]; right; exists e; split; [done|by exists 1%nat]]. rewrite (bind_ok _ _ _ _ _ E), !bind_get. change (nat_entry_of (tick st) n) with (nat_entry_of st n). change (blocks (tick st)) with (blocks st). fold (node_addr st n).
  apply list_elem_of_split in Hn as (l1 & l2 & El). assert (HA : acct st (nonnull (file_flat st) ++ A) (n :: l1 ++ l2)) by (rewrite Permutation_middle, <-El; done). pose proof (ac_nid _ _ _ _ HA) as Hnid. apply list.Forall_cons in Hnid as [(_ & Hnull & Hcomp) _]. rewrite (proj2 (Z.eqb_neq _ _) Hnull).
  set (old := node_addr st n) in *. assert (Hlive : is_data_addr old = true -> bl_live (blocks st) old) by (intros Hd; apply (ac_live _ _ _ _ HA); apply list_elem_of_filter; split; [done|]; rewrite fmap_cons; apply elem_of_app; right; by left). assert (Hcase : old = NEW_ADDR \/ bl_live (blocks st) old) by (destruct (is_data_addr old) eqn:Ed; [right; by apply Hlive|]; destruct (not_data _ Ed) as [?|[?|?]]; [by left|done|done]).
  assert (Hv : is_data_addr old && negb (f2fs_is_valid_blkaddr (blocks st) old) = false) by (destruct (is_data_addr old) eqn:Ed; [|done]; destruct (bl_data (blocks st) old (ac_bl _ _ _ _ Ha) (Hlive eq_refl)) as [_ ->]; done). rewrite Hv. destruct (bl_give (blocks st) old (true, n, 0, 0) (ac_bl _ _ _ _ Ha) Hready Hcase) as (s & new & Ew & Hok & Hnew & Hl & Hd). pose proof (proj1 (data_not new) Hd) as (D1 & D2 & D3).
  unfold bind at 1. cbn [blocks tick]. rewrite Ew. cbn [mbind option_bind]. unfold set_node_addr. change (block_addr (nat_entry_of (with_blocks (tick st) s) n)) with old. change (block_addr (nat_entry_of st n)) with old.
  rewrite (proj2 (Z.eqb_neq new NULL_ADDR)), (proj2 (Z.eqb_neq new NEW_ADDR)), !Z.eqb_refl by done. rewrite !andb_false_r. cbn [orb negb]. eexists _, (inr tt). split; [reflexivity|]. left. split; [done|]. set (e' := {| ne_ino := _; block_addr := new; version := _ |}). set (st' := with_nat _ _).
  assert (Haddr : forall m, node_addr st' m = if decide (m = n) then new else node_addr st m) by (intros m; unfold st'; rewrite node_addr_set; case_decide; done). assert (HA' : acct st' (nonnull (file_flat st) ++ A) (n :: l1 ++ l2)) by (by apply (acct_node_moved st st' s new)).
  split; [|split; [done|split; [by rewrite Haddr, decide_True|split; [by rewrite Haddr, decide_True|intros m Hm; by rewrite Haddr, decide_False]]]]. constructor; try done. split; [destruct Hf as [[] F2 F3 F4]; constructor; try done; by constructor|]. change (FileTrunc.file_nids st') with (file_nids st). rewrite Permutation_middle, <-El in HA'. exact HA'.
Qed.
End write.
