(* ===== verification/FileHistory.v ===== *)
(** * Histories of a file's blocks

    Reservations, writes, truncations and holes in any order, with errors of the rest of the
    system at any point: the trees below the inode behave like the list of the addresses of
    the file's blocks. *)

From S2P Require Import Prelude FreeNid NatCache NodePath FileMap FileTree FileCut FileTrunc FileLookup FileAlloc FileOps.
#[local] Open Scope file_scope.

Inductive file_op := Reserve (index : Z) | WritePage (index : Z) | WriteNode (nid : Z) | Truncate (from : Z) | Punch (pg_start pg_end : Z).

Section history.
Context {T : Type} `{BlockLaws T} (env : file_env).
Implicit Types (st : fsys T) (A Ns l : list Z).

(** ** Operations *)

Definition run_op (op : file_op) : M (S := T) unit :=
  match op with
  | Reserve b => d <- f2fs_reserve_block env false b;; match d with inl (e, _, _) => err e | inr _ => ret tt end
  | WritePage b => f2fs_do_write_data_page env b
  | WriteNode n => __write_node_page env n
  | Truncate from => f2fs_do_truncate_blocks env from
  | Punch s e => f2fs_truncate_hole env s e
  end.
(** What the callers see to: blocks are below the limit of the file's size, [max_file_blocks], holes are not empty ranges
    backwards, and a write finds room in the layer of blocks. *)
Definition ready (op : file_op) st : Prop :=
  let max := max_file_blocks (shape (fi st)) in
  match op with
  | Reserve b => 0 <= b < max
  | WritePage b => 0 <= b < max /\ bl_ready (blocks st)
  | WriteNode n => n ∈ file_nids st /\ bl_ready (blocks st)
  | Truncate from => 0 <= from
  | Punch s e => 0 <= s <= e /\ e <= max
  end.
Inductive file_run : fsys T -> list (file_op * (errno + unit)) -> fsys T -> Prop :=
  | file_nil st : file_run st [] st
  | file_step st op r st1 tr st' : ready op st -> run_op op st = Some (r, st1) -> file_run st1 tr st' -> file_run st ((op, r) :: tr) st'.

(** ** The specification: a list of addresses *)

Definition external (r : errno + unit) : Prop := exists e, r = inl (Env e).
(** What an operation with its result does to the list. *)
Definition spec_step (i : node_inode) (op : file_op) (r : errno + unit) l l' : Prop :=
  match op with
  | Reserve b => exists a, l !! Z.to_nat b = Some a /\ ((r = inr tt /\ l' = <[Z.to_nat b := if a =? NULL_ADDR then NEW_ADDR else a]> l) \/ (exists e, r = inl e /\ alloc_error e /\ l' = l))
  | WritePage b => exists a, l !! Z.to_nat b = Some a /\
      ((a = NULL_ADDR /\ (r = inr tt \/ r = inl ENOENT) /\ l' = l) \/ (a <> NULL_ADDR /\ r = inr tt /\ exists new, is_data_addr new = true /\ new ∉ l /\ l' = <[Z.to_nat b := new]> l) \/ (external r /\ l' = l))
  | WriteNode _ => (r = inr tt \/ external r) /\ l' = l
  | Truncate from =>
      let b := F2FS_BLK_ALIGN from in let a := Z.to_nat (cut_from i b) in
      ((r = inr tt \/ (r = inl E2BIG /\ in_last_dnode i b)) /\ l' = blank a (length l) l) \/ (external r /\ thinned l l' /\ take a l' = take a l)
  | Punch s e => exists c, (Z.to_nat s <= c <= Z.to_nat e)%nat /\ l' = blank (Z.to_nat s) c l /\ (r = inr tt /\ c = Z.to_nat e \/ external r)
  end.
Inductive spec_run (i : node_inode) : list Z -> list (file_op * (errno + unit)) -> list Z -> Prop :=
  | spec_nil l : spec_run i l [] l
  | spec_cons l op r l1 tr l' : spec_step i op r l l1 -> spec_run i l1 tr l' -> spec_run i l ((op, r) :: tr) l'.

(** ** Well-formed files *)

(** An uncompressed file without inline data.  The inode has other addresses [A] and nodes
    [Ns], such as its node of attributes; [o] counts what others have. *)
Record file_wf (o : rest) (i : node_inode) A Ns st : Prop := {
  fw_inode : inode_ok i;
  fw_plain : f2fs_compressed_file i = false;
  fw_owned : owned o i A Ns st;
  fw_inline : inline_data (fi st) = None
}.
Lemma wf_shape o i A Ns st : file_wf o i A Ns st -> shape (fi st) = i.
Proof. intros [_ _ [Hf _] _]. by destruct (fo_plain _ _ Hf). Qed.
Lemma wf_evolve o i A Ns fl st st' : file_wf o i A Ns st -> fevolve o i A Ns fl st st' -> file_wf o i A Ns st'.
Proof. intros [W1 W2 W3 W4] He. constructor; try done; [apply He|]. by rewrite (kp_inline _ _ (fe_kept _ _ _ _ _ _ _ He)). Qed.
Lemma wf_idle o i A Ns st st' : file_wf o i A Ns st -> idle st st' -> fevolve o i A Ns (file_flat i st) st st'.
Proof.
  intros Hw Hid. assert (Efl : file_flat i st' = file_flat i st) by (by apply (idle_same (file_flat i) st st')). eapply idle_evolve; [exact Hid|]. rewrite <-Efl. apply fevolve_refl. eapply idle_owned; [exact Hid|apply Hw].
Qed.
Lemma wf_length o i A Ns st : file_wf o i A Ns st -> Z.of_nat (length (file_flat i st)) = max_inode_blocks i.
Proof. intros [W1 W2 W3 W4]. rewrite (flat_total o i W1 W2 A Ns st W3). by apply max_pos. Qed.
(** The blocks of the file are live. *)
Lemma own_live o i A Ns st a : file_wf o i A Ns st -> a ∈ file_flat i st ++ A ++ (node_addr st <$> file_nids st ++ Ns) -> is_data_addr a = true -> bl_live (blocks st) a.
Proof.
  intros [_ _ [_ Ha] _] Hin Hd. apply (ac_live _ _ _ _ Ha), list_elem_of_filter. split; [done|]. rewrite app_assoc in Hin. apply elem_of_app in Hin as [Hin|]; apply elem_of_app; [left|by right]. apply elem_of_app in Hin as [Hin|]; apply elem_of_app; [left|by right].
  apply list_elem_of_filter. split; [|done]. intros ->. unfold is_data_addr in Hd. by rewrite Z.eqb_refl, orb_true_r in Hd.
Qed.
Lemma flat_live o i A Ns st a : file_wf o i A Ns st -> a ∈ file_flat i st -> is_data_addr a = true -> bl_live (blocks st) a.
Proof. intros Hw Hin. apply (own_live o i A Ns st a Hw), elem_of_app. by left. Qed.

(** ** One operation *)

Definition op_result (o : rest) (i : node_inode) A Ns (op : file_op) st (res : option ((errno + unit) * fsys T)) : Prop :=
  exists r st' l', res = Some (r, st') /\ fevolve o i A Ns l' st st' /\ spec_step i op r (file_flat i st) l'.
Lemma truncate_result o i A Ns st from : file_wf o i A Ns st -> 0 <= from -> op_result o i A Ns (Truncate from) st (f2fs_do_truncate_blocks env from st).
Proof.
  intros Hw Hf. pose proof Hw as [W1 W2 W3 W4]. pose proof (flat_total o i W1 W2 A Ns st W3) as Htot. destruct (do_truncate_run o env i W1 W2 A Ns st from W3 W4 Hf) as [[(st1 & [] & E & _ & He)|(e & st1 & fl & E & Ht & Hfl & He)]|(st1 & E & Hl & He)]; rewrite <-?Htot in He.
  - exists (inr tt), st1. eexists. split; [exact E|]. split; [exact He|]. left. split; [by left|done].
  - exists (inl (Env e)), st1, fl. split; [done|]. split; [done|]. right. split; [by exists e|done].
  - exists (inl E2BIG), st1. eexists. split; [exact E|]. split; [exact He|]. left. split; [by right|done].
Qed.
Lemma punch_result o i A Ns st s e : file_wf o i A Ns st -> 0 <= s <= e -> e <= max_inode_blocks i -> op_result o i A Ns (Punch s e) st (f2fs_truncate_hole env s e st).
Proof.
  intros Hw Hse He. pose proof (wf_length o i A Ns st Hw) as Hlen. pose proof Hw as [W1 W2 W3 W4]. unfold f2fs_truncate_hole. pose proof (hole_run o env i W1 W2 (Z.to_nat (e - s)) A Ns (Z.to_nat s) (Z.to_nat e) st) as Hr. rewrite !Z2Nat.id in Hr by lia.
  destruct Hr as (st1 & r & c & E & Hc & Hev & Hres); [lia|lia|done|done|]. exists r, st1. eexists. split; [exact E|]. split; [exact Hev|]. exists c. split; [done|]. split; [done|]. destruct Hres as [?|[x ->]]; [by left|right; by exists x].
Qed.
Lemma reserve_result o i A Ns st b : file_wf o i A Ns st -> 0 <= b < max_inode_blocks i -> op_result o i A Ns (Reserve b) st (run_op (Reserve b) st).
Proof.
  intros Hw Hb. pose proof (wf_length o i A Ns st Hw) as Hlen. pose proof Hw as [W1 W2 W3 W4]. destruct (lookup_lt_is_Some_2 (file_flat i st) (Z.to_nat b)) as [a Ha]; [lia|]. destruct (reserve_block_run o env i W1 W2 A Ns st b false W3 W4 Hb) as (st1 & r & E & Hr). cbn [run_op]. rewrite (bind_ok _ _ _ _ _ E). destruct Hr as [(dn & a' & -> & Ha' & He)|(e & l1 & l2 & -> & Hae & He)].
  - exists (inr tt), st1. eexists. split; [done|]. split; [exact He|]. exists a'. split; [done|]. by left.
  - exists (inl e), st1. eexists. split; [done|]. split; [exact He|]. exists a. split; [done|]. right. by exists e.
Qed.
Lemma write_result o i A Ns st b : file_wf o i A Ns st -> 0 <= b < max_inode_blocks i -> bl_ready (blocks st) -> op_result o i A Ns (WritePage b) st (f2fs_do_write_data_page env b st).
Proof.
  intros Hw Hb Hready. pose proof Hw as [W1 W2 W3 W4]. destruct (write_page_run o env i W1 W2 A Ns st b W3 W4 Hb Hready) as (st1 & r & a & E & Ha & [(Ha0 & Hr & Hid)|[(Ha0 & -> & new & Hd & Hnew & He)|(e & -> & Hid)]]).
  - exists r, st1; eexists; (split; [exact E|]). split; [by apply wf_idle|]. exists a. split; [done|]. by left.
  - exists (inr tt), st1; eexists; (split; [exact E|]). split; [exact He|]. exists a. split; [done|]. right. left. split; [done|]. split; [done|]. exists new. split; [done|]. split; [|done]. intros Hin. apply Hnew. by eapply flat_live.
  - exists (inl (Env e)), st1; eexists; (split; [exact E|]). split; [by apply wf_idle|]. exists a. split; [done|]. right. right. split; [by exists e|done].
Qed.
Lemma node_result o i A Ns st n : file_wf o i A Ns st -> n ∈ file_nids st -> bl_ready (blocks st) -> op_result o i A Ns (WriteNode n) st (__write_node_page env n st).
Proof.
  intros Hw Hn Hready. pose proof Hw as [W1 W2 W3 W4]. destruct (write_node_run o env i W1 W2 A Ns st n W3 ltac:(apply elem_of_app; by left) Hready) as (st1 & r & E & [(-> & He & _)|(e & -> & Hid)]); eexists _, st1, _; (split; [exact E|]).
  - split; [exact He|]. split; [by left|done].
  - split; [by apply wf_idle|]. split; [right; by exists e|done].
Qed.
Lemma op_runs o i A Ns op st : file_wf o i A Ns st -> ready op st -> op_result o i A Ns op st (run_op op st).
Proof.
  intros Hw Hr. pose proof (wf_shape o i A Ns st Hw) as Hs. pose proof (max_blocks i) as Hmb. pose proof (iok_direct i (fw_inode _ _ _ _ _ Hw)) as HD. destruct op; cbn [run_op ready] in *; rewrite ?Hs in Hr.
  - apply reserve_result; [done|lia].
  - destruct Hr. apply write_result; [done|lia|done].
  - destruct Hr. by apply node_result.
  - by apply truncate_result.
  - destruct Hr. apply punch_result; [done|lia|lia].
Qed.
Lemma history_runs o i A Ns st tr st' : file_wf o i A Ns st -> file_run st tr st' -> spec_run i (file_flat i st) tr (file_flat i st') /\ file_wf o i A Ns st' /\ (mirror (ext_log st) 0 (file_flat i st) -> mirror (ext_log st') 0 (file_flat i st')) /\ forall m, m ∈ Ns -> pages st' !! m = pages st !! m.
Proof.
  intros Hw Hr. induction Hr as [st|st op r st1 tr st' Hready E _ IH]; [split; [constructor|done]|]. destruct (op_runs o i A Ns op st Hw Hready) as (r' & st1' & l' & E' & He & Hs). rewrite E in E'. injection E' as <- <-. destruct (IH (wf_evolve _ _ _ _ _ _ _ Hw He)) as (I1 & I2 & I3 & I4). rewrite (fe_flat _ _ _ _ _ _ _ He) in *.
  split; [by econstructor|]. split; [done|]. split; [intros Hm; apply I3; by apply (fe_mirror _ _ _ _ _ _ _ He)|]. intros m Hm. by rewrite I4, (fe_pages _ _ _ _ _ _ _ He).
Qed.
Lemma history_wf o i A Ns st tr st' : file_wf o i A Ns st -> file_run st tr st' -> file_wf o i A Ns st'.
Proof. intros Hw Hr. by apply (history_runs o i A Ns st tr st' Hw Hr). Qed.

(** ** What holds of a file *)

(** C5: From a well-formed uncompressed file, every history of reservations, page writes,
    node writes, truncations and holes, with errors of the device, of memory, of space and
    of the quota at any point, does to the list of the file's addresses what the
    specification allows: a reservation fills a hole, a write replaces an address by one
    that the file does not have, a truncation empties everything behind its block (nothing
    if that is not below the limit of the size), a hole
    empties its range, and after an error at most what was to be emptied is.  What the
    extent cache was told stays true, and the pages of the inode's other nodes are as they were. *)
Theorem file_history_refines o i A Ns st tr st' : file_wf o i A Ns st -> file_run st tr st' ->
  spec_run i (file_flat i st) tr (file_flat i st') /\ (mirror (ext_log st) 0 (file_flat i st) -> mirror (ext_log st') 0 (file_flat i st')) /\ forall m, m ∈ Ns -> pages st' !! m = pages st !! m.
Proof. intros Hw Hr. destruct (history_runs o i A Ns st tr st' Hw Hr) as (? & _ & ?). done. Qed.

(** C12: After every history the nodes form the tree they should: each node below the five
    ids of the inode has a full page that records its place; no node is used twice or
    is on the list of free ids; no block is used twice by the data and the nodes of the
    inode, and the live blocks are exactly these and those of others, so that none is lost
    or taken from others; the counters of blocks, of nodes and of the inode count exactly
    the blocks and nodes there are. *)
Theorem file_history_typed o i A Ns st tr st' : file_wf o i A Ns st -> file_run st tr st' ->
  let data := nonnull (file_flat i st') ++ A in let nodes := file_nids st' ++ Ns in
  (forall j x, roots st' !! j = Some x -> tree_ok (pages st') x.1.1 x.1.2 x.2) /\
  lenZ (file_flat i st') = max_inode_blocks i /\ NoDup (nodes ++ free_nids st') /\
  NoDup (filter (fun a => is_data_addr a = true) (data ++ (node_addr st' <$> nodes))) /\
  (forall a, bl_live (blocks st') a <-> is_data_addr a = true /\ a ∈ data ++ (node_addr st' <$> nodes) \/ o_live o a) /\
  (forall a, o_live o a -> is_data_addr a = true -> a ∉ data ++ (node_addr st' <$> nodes)) /\
  total_valid_block_count (cnt st') = o_blocks o + lenZ data + lenZ nodes /\
  total_valid_node_count (cnt st') = o_nodes o + lenZ nodes /\
  i_blocks (fi st') = o_iblocks o + 8 * (lenZ data + lenZ nodes).
Proof.
  intros Hw Hr data nodes. pose proof (history_wf o i A Ns st tr st' Hw Hr) as Hw'. pose proof (wf_length o i A Ns st' Hw') as Hl. destruct Hw' as [_ _ [[_ _ _ Ht] [_ _ _ Hv Hd Hn _ Hb Hc Hi _ _ Ho _ _]] _].
  unfold data_addrs in *. fold data nodes in Hv, Ho. do 4 (split; [done|]). split; [|split; [|done]].
  - intros a. specialize (Hv a). specialize (Ho a). rewrite list_elem_of_filter in Hv, Ho. destruct (decide (is_data_addr a = true /\ a ∈ data ++ (node_addr st' <$> nodes))); tauto.
  - intros a [_ Ha]%Ho Hda Hin. apply Ha, list_elem_of_filter. done.
Qed.

(** C10: [f2fs_do_truncate_blocks] on a well-formed file of any shape, to any size: if the new
    end is below the limit of the size it empties
    all blocks from the one that holds the new end on, and nothing from the limit on, and
    leaves a well-formed file, whose
    counters and live blocks are those of what is left.  The result is a success, or [E2BIG] within
    the last direct node.  If the rest of the system fails the file is still well-formed,
    blocks were only emptied, and none before the new end. *)
Theorem truncate_blocks_spec o i A Ns st from : file_wf o i A Ns st -> 0 <= from ->
  let b := F2FS_BLK_ALIGN from in let a := Z.to_nat (cut_from i b) in
  exists r st', f2fs_do_truncate_blocks env from st = Some (r, st') /\ file_wf o i A Ns st' /\
    ((r = inr tt \/ r = inl E2BIG /\ in_last_dnode i b) /\ file_flat i st' = blank a (length (file_flat i st)) (file_flat i st) \/
     (exists e, r = inl (Env e)) /\ thinned (file_flat i st) (file_flat i st') /\ take a (file_flat i st') = take a (file_flat i st)).
Proof.
  intros Hw Hf b a. destruct (truncate_result o i A Ns st from Hw Hf) as (r & st' & l & E & He & Hs). exists r, st'. split; [exact E|]. split; [by eapply wf_evolve|]. rewrite (fe_flat _ _ _ _ _ _ _ He). exact Hs.
Qed.

(** C16: [f2fs_get_dnode_of_data] walks the tree as the list says: it finds the place that
    holds the address of the block, or reports [ENOENT] and with it the next block worth
    looking at, before which the file has a hole, or passes on an error; it changes
    nothing. *)
Theorem lookup_block_spec o i A Ns st index ipage : file_wf o i A Ns st -> 0 <= index < max_inode_blocks i ->
  exists st' r, f2fs_get_dnode_of_data env ipage index LOOKUP_NODE st = Some (inr r, st') /\ idle st st' /\
    match r with
    | inr dn => file_flat i st !! Z.to_nat index = Some (data_blkaddr dn) /\ get_blkaddr (node_page_of dn) (ofs_in_node dn) st' = Some (inr (data_blkaddr dn), st')
    | inl (ENOENT, cur, mx) => exists next, f2fs_get_next_page_offset i cur mx index = Some next /\ index < next /\ forall y, index <= Z.of_nat y < next -> file_flat i st !! y = Some NULL_ADDR
    | inl (e, _, _) => exists v, e = Env v
    end.
Proof.
  intros [W1 W2 W3 W4] Hx. destruct (dnode_lookup o env i W1 W2 A Ns st index ipage W3 W4 Hx) as (st' & r & E & Hid & Hr). exists st', r. split; [exact E|]. split; [done|]. destruct Hr as [(dn & -> & [Hl Ha])|[(cur & mx & -> & [Hn])|(e & l1 & l2 & ->)]].
  - assert (Hfl : file_flat i st' = file_flat i st) by (by apply (idle_same (file_flat i) st st')). rewrite Hfl in Ha. split; [done|].
    destruct Hl as (base & n & Hl & Hb & Ho & _). pose proof (idle_owned o i A Ns _ _ Hid W3) as [[[_ _ Hex] _ _ _] _]. destruct (lens_addr o i A Ns st' base _ n (Z.to_nat (ofs_in_node dn)) Hl) as (a & Eg & Ef); [lia|done|]. rewrite Z2Nat.id in Eg by lia. rewrite Hfl in Ef. replace (base + Z.to_nat (ofs_in_node dn))%nat with (Z.to_nat index) in Ef by lia. congruence.
  - destruct Hn as (next & E1 & Hlt & m & x & Ex & Hm & Hxr & _ & Hz). exists (Z.of_nat next). split; [done|]. split; [done|]. intros y Hy. apply Hz. lia.
  - by exists e.
Qed.

(** C27: No operation that is ready traps or runs on: each of them, on every well-formed file
    and for all answers of the rest of the system, returns and leaves a well-formed file.
    In particular the loop of [f2fs_truncate_hole] ends within as many rounds as it has
    blocks, however the tree is filled, and the loop of [f2fs_reserve_new_blocks] stays inside its
    node. *)
Theorem file_ops_return o i A Ns op st : file_wf o i A Ns st -> ready op st -> exists r st', run_op op st = Some (r, st') /\ file_wf o i A Ns st'.
Proof.
  intros Hw Hr. destruct (op_runs o i A Ns op st Hw Hr) as (r & st' & l & E & He & _). exists r, st'. split; [done|by eapply wf_evolve].
Qed.

(** C28: Truncating to a block inside the last direct node, below the limit of the size, where there
    is data, never succeeds: all blocks are emptied as they should be and then the call returns
    [E2BIG], because it looks for the path of the block behind the last one. *)
Theorem truncate_last_node_fails o i A Ns st from a : file_wf o i A Ns st -> 0 <= from -> in_last_dnode i (F2FS_BLK_ALIGN from) -> file_flat i st !! Z.to_nat (F2FS_BLK_ALIGN from) = Some a -> a <> NULL_ADDR ->
  exists e st', f2fs_do_truncate_blocks env from st = Some (inl e, st') /\
    (e = E2BIG /\ file_flat i st' = blank (Z.to_nat (F2FS_BLK_ALIGN from)) (length (file_flat i st)) (file_flat i st) \/ (exists v, e = Env v) /\ file_flat i st' = file_flat i st).
Proof.
  intros Hw Hf Hl Ha Hn. pose proof Hw as [W1 W2 W3 W4]. destruct (do_truncate_last o env i W1 W2 A Ns st from a W3 W4 Hf Hl Ha Hn) as (st' & e & E & Hr). exists e, st'. split; [exact E|]. rewrite (flat_total o i W1 W2 A Ns st W3). destruct Hr as [[-> He]|(v & -> & Hid)].
  - left. split; [done|]. apply (fe_flat _ _ _ _ _ _ _ He).
  - right. split; [by exists v|]. by apply (idle_same (file_flat i) st st').
Qed.

(** C17: [f2fs_do_write_data_page] puts a block with an address, written or reserved, at a new place that was not live,
    so neither another block of the file nor a node or block of others is overwritten; the
    inode or node that holds the address and the extent cache name the new place, and all
    other blocks keep theirs.  A hole is not written, and an error leaves the file as it was. *)
Theorem write_page_safe o i A Ns st b a : file_wf o i A Ns st -> 0 <= b < max_inode_blocks i -> bl_ready (blocks st) -> file_flat i st !! Z.to_nat b = Some a ->
  exists r st', f2fs_do_write_data_page env b st = Some (r, st') /\ file_wf o i A Ns st' /\
    (((exists v, r = inl (Env v)) \/ a = NULL_ADDR /\ (r = inr tt \/ r = inl ENOENT)) /\ file_flat i st' = file_flat i st \/
     a <> NULL_ADDR /\ r = inr tt /\ exists new, is_data_addr new = true /\ ~ bl_live (blocks st) new /\ bl_live (blocks st') new /\
       file_flat i st' = <[Z.to_nat b := new]> (file_flat i st) /\
       (mirror (ext_log st) 0 (file_flat i st) -> ext_view (ext_log st') b = new)).
Proof.
  intros Hw Hb Hready Ha. pose proof Hw as [W1 W2 W3 W4]. pose proof (wf_length o i A Ns st Hw) as Hlen. destruct (write_page_run o env i W1 W2 A Ns st b W3 W4 Hb Hready) as (st' & r & a' & E & Ha' & Hr). assert (a' = a) as -> by congruence. exists r, st'. split; [exact E|].
  assert (Hidle : idle st st' -> file_wf o i A Ns st' /\ file_flat i st' = file_flat i st) by (intros Hid; pose proof (wf_idle o i A Ns st st' Hw Hid) as He; split; [by eapply wf_evolve|apply (fe_flat _ _ _ _ _ _ _ He)]).
  destruct Hr as [(Ha0 & Hr & [? ?]%Hidle)|[(Ha0 & Hr & new & Hd & Hnew & He)|(e & Hr & [? ?]%Hidle)]]; [split; [done|]; left; split; [by right|done]| |split; [done|]; left; split; [left; by exists e|done]].
  pose proof (wf_evolve _ _ _ _ _ _ _ Hw He) as Hw'. split; [done|]. right. split; [done|]. split; [done|]. exists new. pose proof (fe_flat _ _ _ _ _ _ _ He) as Hfl. assert (Hin : file_flat i st' !! Z.to_nat b = Some new) by (rewrite Hfl; apply list_lookup_insert_eq; lia).
  split; [done|]. split; [done|]. split; [apply (flat_live o i A Ns st'); [done|by eapply list_elem_of_lookup_2|done]|]. split; [done|]. intros Hm. apply (fe_mirror _ _ _ _ _ _ _ He) in Hm. rewrite <-Hfl in Hm. specialize (Hm _ _ Hin). rewrite Hd in Hm. by replace (0 + Z.of_nat (Z.to_nat b)) with b in Hm by lia.
Qed.
End history.
