(* ===== verification/FileEvict.v ===== *)
(** * A file is deleted

    Eviction of an inode without links: truncation to nothing, then the node of attributes and
    the inode itself.  When it succeeds nothing of the file is left; when it fails the file is
    still well-formed. *)

From S2P Require Import Prelude FreeNid NatCache NodePath FileMap FileTree FileCut FileTrunc FileLookup FileAlloc FileOps FileHistory.
#[local] Open Scope file_scope.

(** ** Memory comes back

    The loop of attempts goes on only while requests fail for lack of memory: when from the
    request [K] on none does, an attempt that starts later ends it. *)

Section memory.
Context {T : Type} `{FileFormat} `{BlockOps T} (env : file_env) (K : nat) (Hmem : forall t, (K <= t)%nat -> answer env t <> Some ENOMEM).
Notation M := (M (S := T)).

(** Requests are counted, and from [K] on, if [c], the result is not a lack of memory and a value has [Q]. *)
Definition steady {X} (c : Prop) (Q : X -> Prop) (m : M X) : Prop := forall st r st', m st = Some (r, st') -> (ticks st <= ticks st')%nat /\ (c -> (K <= ticks st)%nat -> match r with inl e => e <> Env ENOMEM | inr x => Q x end).
Notation steady' c := (steady c (fun _ => True)).
Definition sound {X} (r : errno + X) : Prop := r <> inl (Env ENOMEM).
Definition sound_at {X Y} (r : (errno * Y) + X) : Prop := match r with inl (e, _) => e <> Env ENOMEM | inr _ => True end.
Definition sound_dn {X} (r : (errno * Z * Z) + X) : Prop := match r with inl (e, _, _) => e <> Env ENOMEM | inr _ => True end.

Lemma steady_ret {X} c (Q : X -> Prop) x : (c -> Q x) -> steady c Q (ret x).
Proof. intros Hq st r st' [= <- <-]. split; [done|]. intros Hc _. by apply Hq. Qed.
Lemma steady_err {X} c (Q : X -> Prop) e : (c -> e <> Env ENOMEM) -> steady c Q (err e).
Proof. intros Hq st r st' [= <- <-]. split; [done|]. intros Hc _. by apply Hq. Qed.
Lemma steady_trap {X} c (Q : X -> Prop) : steady c Q trap.
Proof. by intros st r st' [=]. Qed.
Lemma steady_get {X} c f : steady' c (get (A := X) f).
Proof. intros st r st' [= <- <-]. done. Qed.
Lemma steady_modify c g : (forall st, ticks (g st) = ticks st) -> steady' c (modify g).
Proof. intros Hg st r st' [= <- <-]. rewrite Hg. done. Qed.
Lemma steady_some {X} c (o : option X) : steady' c (some o).
Proof. destruct o; [by apply steady_ret|apply steady_trap]. Qed.
Lemma steady_ask c conv : (forall v, v <> ENOMEM -> conv v <> Env ENOMEM) -> steady' c (ask env conv).
Proof. intros Hc st r st'. unfold ask. destruct (answer env (ticks st)) as [v|] eqn:E; intros [= <- <-]; (split; [cbn; lia|]); intros _ Hk; [|done]. apply Hc. intros ->. exact (Hmem _ Hk E). Qed.
Lemma steady_bind {X Y} c (P : X -> Prop) (Q : Y -> Prop) m f : steady c P m -> (forall x, steady (c /\ P x) Q (f x)) -> steady c Q (bind m f).
Proof.
  intros Hm Hf st r st'. unfold bind. destruct (m st) as [[[e|x] st1]|] eqn:E; [| |done]; [intros [= <- <-]; exact (Hm _ _ _ E)|]. intros Er. destruct (Hm _ _ _ E) as [Hle Hx]. destruct (Hf x _ _ _ Er) as [Hle2 Hr]. split; [lia|]. intros Hc Hk. apply Hr; [by split; [|apply Hx]|lia].
Qed.
Lemma steady_catch {X} c (m : M X) : steady' c m -> steady c sound (catch m).
Proof. intros Hm st r st'. unfold catch. destruct (m st) as [[r1 st1]|] eqn:E; intros [= <- <-]. destruct (Hm _ _ _ E) as [Hle Hr]. split; [done|]. intros Hc Hk [= ->]. by apply Hr. Qed.
Lemma steady_weaken {X} c (P Q : X -> Prop) m : steady c P m -> (forall x, P x -> Q x) -> steady c Q m.
Proof. intros Hm Hq st r st' E. destruct (Hm _ _ _ E) as [Hle Hr]. split; [done|]. intros Hc Hk. specialize (Hr Hc Hk). destruct r; [done|by apply Hq]. Qed.
Lemma steady_ticks {X} (Q : X -> Prop) m st r st' : m st = Some (r, st') -> steady False Q m -> (ticks st <= ticks st')%nat.
Proof. intros E Hm. by apply (Hm _ _ _ E). Qed.
Create HintDb steady.
Ltac sound_done := unfold sound, sound_at, sound_dn in *; first [done | intros; destruct_and?; repeat case_match; (done || congruence)].
Ltac steps := repeat first
  [ solve [auto 2 with steady]
  | match goal with |- steady _ _ (let '(_, _) := ?p in _) => destruct p | |- steady _ _ match ?x with _ => _ end => destruct x eqn:? end
  | apply steady_trap | apply steady_get | apply steady_some | assumption
  | apply steady_modify; (done || (intros; repeat case_match; done))
  | apply steady_ask; (done || (intros; congruence))
  | apply steady_ret; sound_done | apply steady_err; sound_done
  | apply (steady_bind _ sound _ (catch _)); [apply steady_catch|intros ?]
  | apply (steady_bind _ (fun _ => True)); [|intros ?]
  | apply steady_catch
  | eapply steady_weaken; [solve [auto 2 with steady]|sound_done] ].

Lemma steady_node c nid : steady' c (f2fs_get_node_page env nid).
Proof. unfold f2fs_get_node_page. steps. Qed.
Lemma steady_get_nid c r off : steady' c (get_nid (S := T) r off).
Proof. unfold get_nid. steps. Qed.
Lemma steady_blkaddr c r ofs : steady' c (get_blkaddr (S := T) r ofs).
Proof. unfold get_blkaddr. steps. Qed.
Lemma steady_ofs c r : steady' c (node_ofs (S := T) r).
Proof. unfold node_ofs. steps. Qed.
Lemma steady_set_nid c r off nid : steady' c (set_nid (S := T) r off nid).
Proof. intros st x st' E. unfold set_nid in E. destruct r; simplify_option_eq; done. Qed.
Lemma steady_set_addr c r ofs a : steady' c (__set_data_blkaddr (S := T) r ofs a).
Proof. intros st x st' E. unfold __set_data_blkaddr in E. destruct r; simplify_option_eq; done. Qed.
Lemma steady_set_node c nid e a : steady' c (set_node_addr (S := T) nid e a).
Proof. intros st x st' E. unfold set_node_addr in E. case_match; [done|]. by injection E as <- <-. Qed.
Lemma steady_invalidate c a : steady' c (f2fs_invalidate_blocks (S := T) a).
Proof. intros st x st' E. unfold f2fs_invalidate_blocks in E. simplify_option_eq. done. Qed.
Lemma steady_info c nid : steady' c (f2fs_get_node_info env nid).
Proof. unfold f2fs_get_node_info. steps. Qed.
Hint Resolve steady_node steady_get_nid steady_blkaddr steady_ofs steady_set_nid steady_set_addr steady_set_node steady_invalidate steady_info : steady.

Lemma steady_dec_block c n : steady' c (dec_valid_block_count (S := T) n).
Proof. unfold dec_valid_block_count, f2fs_i_blocks_write. steps. Qed.
Lemma steady_dec_node c b : steady' c (dec_valid_node_count (S := T) b).
Proof. unfold dec_valid_node_count, f2fs_i_blocks_write. steps. Qed.
Lemma steady_compr c b add : steady' c (f2fs_i_compr_blocks_update (S := T) b add).
Proof. unfold f2fs_i_compr_blocks_update. steps. Qed.
Hint Resolve steady_dec_block steady_dec_node steady_compr : steady.
Lemma steady_range_loop c n : forall r released ofs index cluster valid nr, steady' c (truncate_range_loop (S := T) n r released ofs index cluster valid nr).
Proof.
  revert c. induction n as [|n IH]; intros; cbn [truncate_range_loop]; steps; apply IH.
Qed.
Hint Resolve steady_range_loop : steady.
Lemma steady_range c r ofs count : steady' c (f2fs_truncate_data_blocks_range (S := T) r ofs count).
Proof. unfold f2fs_truncate_data_blocks_range, f2fs_update_extent_cache_range. steps. Qed.
Lemma steady_kill c nid : steady' c (truncate_node env nid).
Proof. unfold truncate_node. steps. Qed.
Hint Resolve steady_range steady_kill : steady.
Lemma steady_dnode c nid : steady' c (truncate_dnode env nid).
Proof. unfold truncate_dnode, f2fs_truncate_data_blocks. steps. Qed.
Hint Resolve steady_dnode : steady.
Lemma steady_clear c p slots : steady' c (clear_dnodes env p slots).
Proof. revert c. induction slots as [|x slots IH]; intros; cbn [clear_dnodes]; steps; apply IH. Qed.
Hint Resolve steady_clear : steady.
Lemma steady_clear_nodes c kill p slots : (forall c x n, steady' c (kill x n)) -> forall n, steady' c (clear_nodes kill p slots n).
Proof. intros Hk. revert c. induction slots as [|x slots IH]; intros; cbn [clear_nodes]; steps; first [apply IH|apply Hk]. Qed.
Lemma steady_nodes c depth : forall nid nofs ofs, steady' c (truncate_nodes env depth nid nofs ofs).
Proof.
  revert c. induction depth as [|d IH]; intros; cbn [truncate_nodes]; steps. apply steady_clear_nodes. intros. apply IH.
Qed.
Lemma steady_path c offs : forall nid, steady' c (partial_path env nid offs).
Proof. revert c. induction offs as [|x offs IH]; intros; cbn [partial_path]; steps; subst; apply IH. Qed.
Hint Resolve steady_nodes steady_path : steady.
Lemma steady_partial c offs depth : steady' c (truncate_partial_nodes env offs depth).
Proof. unfold truncate_partial_nodes. steps. Qed.
Hint Resolve steady_partial : steady.
Lemma steady_roots c fuel : forall off0 off1 nofs, steady' c (truncate_roots env fuel off0 off1 nofs).
Proof. revert c. induction fuel as [|fuel IH]; intros; cbn [truncate_roots]; steps; apply IH. Qed.
Hint Resolve steady_roots : steady.
Lemma steady_inode_blocks c from : steady' c (f2fs_truncate_inode_blocks env from).
Proof. unfold f2fs_truncate_inode_blocks, get_inode_page. steps. Qed.
Hint Resolve steady_inode_blocks : steady.

Lemma steady_descend c mode i parent nid offs noffs : mode <> ALLOC_NODE -> steady c sound_at (descend env mode i parent nid offs noffs).
Proof.
  intros Hm. revert c i parent nid noffs. induction offs as [|off offs IH]; intros; destruct noffs as [|nofs noffs]; cbn [descend]; [steps..|]. apply (steady_bind _ (fun _ => True)); [steps|intros n]. apply (steady_bind _ sound); [destruct mode; [done|steps..]|intros r]. destruct r as [e|n']; [steps|apply IH].
Qed.
Lemma steady_lookup c ipage index mode : mode <> ALLOC_NODE -> steady c sound_dn (f2fs_get_dnode_of_data env ipage index mode).
Proof.
  intros Hm. unfold f2fs_get_dnode_of_data, get_inode_page. apply (steady_bind _ (fun _ => True)); [steps|intros i]. destruct (get_node_path (shape i) index) as [p|]; [|steps]. apply (steady_bind _ sound); [steps|intros r]. destruct r as [e|r]; [steps|]. destruct (_ && _); [steps|].
  apply (steady_bind _ sound_at); [by apply steady_descend|intros d]. steps.
Qed.
Lemma steady_truncate c from : steady' c (f2fs_do_truncate_blocks env from).
Proof.
  unfold f2fs_do_truncate_blocks, truncate_partial_data_page, get_inode_page, f2fs_truncate_inline_inode. apply (steady_bind _ (fun _ => True)); [steps|intros i]. apply (steady_bind _ (fun _ => True)); [|intros ?; steps]. destruct (_ <=? _); [steps|]. apply (steady_bind _ (fun _ => True)); [steps|intros u]. destruct (inline_data i); [steps|].
  apply (steady_bind _ sound_dn); [by apply steady_lookup|intros d]. steps.
Qed.
Lemma steady_xattr c : steady' c (f2fs_truncate_xattr_node env).
Proof. unfold f2fs_truncate_xattr_node. steps. Qed.
Hint Resolve steady_truncate steady_xattr : steady.
Lemma steady_remove c : steady' c (f2fs_remove_inode_page env).
Proof. unfold f2fs_remove_inode_page. apply (steady_bind _ sound_dn); [by apply steady_lookup|intros d]. steps. Qed.
Hint Resolve steady_remove : steady.
(** An attempt makes a request or more. *)
Lemma steady_attempt c : steady c sound (evict_attempt env).
Proof.
  unfold evict_attempt. apply (steady_bind _ (fun _ => True)); [steps|intros has]. apply (steady_bind _ sound); [unfold f2fsj_truncate; steps|intros r]. apply (steady_bind _ sound); [steps|intros f]. steps.
Qed.
Definition valued {X} (m : M X) : Prop := forall st e st', m st <> Some (inl e, st').
Lemma valued_catch {X} (m : M X) : valued (catch m).
Proof. intros st e st'. unfold catch. by destruct (m st) as [[]|]. Qed.
Lemma valued_bind {X Y} (m : M X) (f : X -> M Y) : valued m -> (forall x, valued (f x)) -> valued (bind m f).
Proof. intros Hm Hf st e st'. unfold bind. destruct (m st) as [[[x|x] st1]|] eqn:E; [by apply Hm in E|apply Hf|done]. Qed.
Lemma bind_valued {X Y} (m : M X) (f : X -> M Y) st r st' : valued m -> bind m f st = Some (r, st') -> exists x st1, m st = Some (inr x, st1) /\ f x st1 = Some (r, st').
Proof. intros Hm. unfold bind. destruct (m st) as [[[x|x] st1]|] eqn:E; [by apply Hm in E|by exists x, st1|done]. Qed.
Lemma attempt_value : valued (evict_attempt env).
Proof.
  unfold evict_attempt. repeat first [apply valued_bind; [|intros ?]|apply valued_catch|case_match|by intros ? ? ? [=]].
Qed.
Lemma attempt_ticks st r st' : evict_attempt env st = Some (r, st') -> (ticks st < ticks st')%nat.
Proof.
  unfold evict_attempt. rewrite bind_get. intros (r1 & st1 & E1 & E)%bind_valued; [|destruct (F2FS_HAS_BLOCKS _); [apply valued_catch|by intros ? ? ? [=]]].
  assert (Hle : (ticks st <= ticks st1)%nat) by (apply (steady_ticks sound _ _ _ _) in E1; [done|]; unfold f2fsj_truncate; steps).
  apply bind_valued in E as (f & st2 & E2 & E); [|apply valued_catch]. assert (Ht : (ticks st1 < ticks st2)%nat) by (unfold catch, ask in E2; destruct (answer env (ticks st1)); injection E2 as <- <-; cbn; lia).
  assert (Hle2 : (ticks st2 <= ticks st')%nat) by (apply (steady_ticks sound _ _ _ _) in E; [done|]; steps). lia.
Qed.
Lemma loop_ends attempts : forall st st' r, evict_loop env attempts st = Some (r, st') -> (K < ticks st + attempts)%nat -> (0 < attempts)%nat -> r <> inl (Env ENOMEM).
Proof.
  induction attempts as [|n IH]; intros st st' r E Hk Hn; [lia|]. cbn [evict_loop] in E. unfold bind at 1 in E. destruct (evict_attempt env st) as [[r1 st1]|] eqn:E1; [|done]. pose proof (attempt_ticks _ _ _ E1) as Ht. destruct (steady_attempt True _ _ _ E1) as [_ Hs].
  destruct (decide (K <= ticks st)%nat) as [Hks|Hks]; [specialize (Hs I Hks)|]; (destruct r1 as [e|[e|[]]]; [injection E as <- <-| |by injection E as <- <-]).
  - congruence.
  - unfold sound in Hs. destruct e as [| | | | | |[]]; try (injection E as <- <-; done). done.
  - exfalso. by eapply attempt_value.
  - destruct e as [| | | | | |[]]; try (injection E as <- <-; done). apply (IH st1 st'); [done|lia|lia].
Qed.
End memory.

Section evict.
Context {T : Type} `{BlockLaws T} (env : file_env) (o : rest) (i : node_inode) (Hi : inode_ok i) (Hplain : f2fs_compressed_file i = false) (Hown : 0 < addrs_per_inode i).
Implicit Types (st : fsys T) (A Ns : list Z).
Notation D := (addrs_per_inode i).
Notation B := (addrs_per_block i).

(** ** Files without blocks *)

Definition xnodes st : list Z := if i_xnid (fi st) =? 0 then [] else [i_xnid (fi st)].
Definition xpages st : Prop := forall n, n ∈ xnodes st -> is_Some (pages st !! n).
Record hollow st : Prop := {
  ho_plain : plain i st;
  ho_addr : (Z.to_nat (extra_isize (fi st)) + Z.to_nat D <= length (i_addr (fi st)))%nat;
  ho_nids : i_nid (fi st) = replicate 5 0;
  ho_own : nonnull (own_addrs i st) = [];
  ho_inline : inline_data (fi st) = None;
  ho_acct : acct o st [] (xnodes st);
  ho_pages : xpages st
}.
Lemma zero_roots st : i_nid (fi st) = replicate 5 0 -> forall j x, roots st !! j = Some x -> x.2 = 0.
Proof. intros Hn j x Hx. apply root_inv in Hx as [_ Hx]. rewrite Hn in Hx. by apply elem_of_replicate_inv with 5%nat, list_elem_of_lookup_2 with j. Qed.
Lemma zero_nids st : i_nid (fi st) = replicate 5 0 -> file_nids st = [].
Proof. intros Hn. unfold file_nids, roots. rewrite Hn. done. Qed.
Lemma zero_flat st : i_nid (fi st) = replicate 5 0 -> nonnull (file_flat i st) = nonnull (own_addrs i st).
Proof.
  intros Hn. unfold file_flat, roots. rewrite Hn, nonnull_app. cbn [root_kinds replicate zip zip_with fmap list_fmap concat]. unfold root_flat. cbn [fst snd]. rewrite !flat_zero, !nonnull_app, !nonnull_nulls. by rewrite !app_nil_r.
Qed.
Lemma hollow_wf st : hollow st -> file_wf o i [] (xnodes st) st.
Proof.
  intros [X1 X2 X3 X4 X5 X6 X7]. constructor; try done. split; [|by rewrite zero_flat, X4, zero_nids]. constructor; [done|done|by rewrite X3|]. intros j x Hx. rewrite (zero_roots st X3 j x Hx). apply ok_zero.
Qed.
Lemma nids_nil st : length (i_nid (fi st)) = 5%nat -> file_nids st = [] -> i_nid (fi st) = replicate 5 0.
Proof.
  intros Hl Hn. apply list_eq. intros q. destruct (Nat.lt_ge_cases q 5) as [Hq|Hq]; [|rewrite !lookup_ge_None_2; [done|by rewrite length_replicate|lia]]. rewrite lookup_replicate_2 by done. destruct (lookup_lt_is_Some_2 (i_nid (fi st)) q) as [c Hc]; [lia|]. rewrite Hc. f_equal.
  destruct (decide (c = 0)) as [|Hne]; [done|]. exfalso. destruct (lookup_lt_is_Some_2 root_kinds q Hq) as [kd Hkd]. assert (Hin : c ∈ file_nids st) by (apply (chunk_elem _ _ q (kd, c)); [by apply root_lookup|by apply root_in]). rewrite Hn in Hin. by apply not_elem_of_nil in Hin.
Qed.
Lemma wf_hollow st : file_wf o i [] (xnodes st) st -> xpages st -> nonnull (file_flat i st) = [] -> file_nids st = [] -> hollow st.
Proof.
  intros [W1 W2 [[F1 F2 F3 F4] Ha] W4] Hx Hf Hn. pose proof (nids_nil st F3 Hn) as Hz. constructor; try done; [by rewrite <-zero_flat|]. by rewrite Hf, Hn in Ha.
Qed.
Lemma hollow_tick st : hollow st -> hollow (tick st).
Proof. intros [[] X2 X3 X4 X5 X6 X7]. constructor; try done. by apply acct_tick. Qed.

(** ** The steps on them *)

Lemma xattr_run st : hollow st -> exists st' r, f2fs_truncate_xattr_node env st = Some (r, st') /\ hollow st' /\ ino (fi st') = ino (fi st) /\ (r = inr tt /\ xnodes st' = [] \/ exists e, r = inl (Env e)).
Proof.
  intros Hh. pose proof Hh as [X1 X2 X3 X4 X5 X6 X7]. unfold f2fs_truncate_xattr_node. rewrite bind_get. destruct (Z.eqb_spec (i_xnid (fi st)) 0) as [E0|E0]; [exists st, (inr tt); split; [done|]; split; [done|]; split; [done|]; left; split; [done|]; unfold xnodes; by rewrite (proj2 (Z.eqb_eq _ _) E0)|].
  set (n := i_xnid (fi st)) in *. assert (Hxn : xnodes st = [n]) by (unfold xnodes; fold n; by rewrite (proj2 (Z.eqb_neq _ _) E0)). destruct (X7 n ltac:(rewrite Hxn; by left)) as [p Hp]. rewrite Hxn in X6. pose proof (ac_nid _ _ _ _ X6) as Hnid. apply list.Forall_cons in Hnid as [(Hnid & _ & _) _].
  destruct (get_page_run env st n p Hnid Hp) as [E|(e & E)]; [rewrite (bind_ok _ _ _ _ _ E)|rewrite (bind_err _ _ _ _ _ E); exists (tick st), (inl (Env e)); split; [done|]; split; [by apply hollow_tick|]; split; [done|]; right; by exists e].
  destruct (truncate_node_run o env i Hi Hplain (tick st) n [] [] (acct_tick o _ _ _ X6)) as (st1 & r & E1 & [(-> & Ha & Hs & Hpg & _)|(e & -> & ->)]); [rewrite (bind_ok _ _ _ _ _ E1)|rewrite (bind_err _ _ _ _ _ E1); exists (tick (tick st)), (inl (Env e)); split; [done|]; split; [by apply hollow_tick, hollow_tick|]; split; [done|]; right; by exists e].
  eexists _, (inr tt). split; [done|]. destruct Hs as [S1 S2 S3 S4 S5 S6 S7 S8 S9]. split; [|split; [by cbn|by left]]. cbn in S1, S2, S3, S4, S5, S6, S7, S8, S9. destruct X1. constructor; cbn; try solve [congruence].
  - constructor; cbn; congruence.
  - by rewrite S4.
  - unfold own_addrs in *. cbn. by rewrite S2, S3.
  - unfold xnodes. cbn. by apply (acct_same o st1).
  - unfold xpages, xnodes. cbn. intros m Hm. by apply not_elem_of_nil in Hm.
Qed.

Lemma first_null (n : nat) (l : list Z) : nonnull (take n l) = [] -> nonnull (take n (NULL_ADDR :: drop 1 l)) = [].
Proof.
  destruct n as [|n]; [done|]. unfold nonnull. cbn [take]. rewrite filter_cons_False by tauto. destruct l as [|a l]; [by destruct n|]. cbn [take drop]. rewrite filter_cons. case_decide; [done|]. by rewrite drop_0.
Qed.
(** The range of one block at the start of the inode. *)
Lemma first_block_run st : hollow st -> exists st', f2fs_truncate_data_blocks_range AtInode 0 1 st = Some (inr tt, st') /\ hollow st' /\ ino (fi st') = ino (fi st) /\ xnodes st' = xnodes st.
Proof.
  intros Hh. pose proof Hh as [[P1 P2 P3] X2 X3 X4 X5 X6 X7]. set (l := drop (Z.to_nat (extra_isize (fi st))) (i_addr (fi st))). pose proof (iok_direct i Hi) as HD.
  assert (Hlen : (Z.to_nat D <= length l)%nat) by (unfold l; rewrite length_drop; lia). assert (Hone : nonnull (take 1 (drop 0 l)) = []).
  { unfold own_addrs in X4. fold l in X4. destruct l as [|a l']; [done|]. rewrite drop_0. cbn [take]. destruct (Z.to_nat D) as [|n] eqn:En; [lia|]. cbn [take] in X4. unfold nonnull in *. rewrite filter_cons in X4 |- *. by case_decide. }
  destruct (truncate_range_run o st AtInode l 0 1 0 [] (xnodes st) ltac:(by rewrite P1) P2 P3 eq_refl ltac:(lia) eq_refl ltac:(by rewrite Hone)) as (st' & E & Harr & Q & (W1 & W2) & Ha & _). exists st'. split; [exact E|].
  assert (Exn : xnodes st' = xnodes st) by (unfold xnodes; by rewrite (qu_xnid _ _ Q)). split; [|split; [apply Q|done]]. cbn [arr] in Harr. injection Harr as Harr. rewrite (qu_extra _ _ Q) in Harr.
  assert (Hla : length (i_addr (fi st')) = length (i_addr (fi st))). { assert (Hsp : forall x n, length x = (length (take n x) + @length Z (drop n x))%nat) by (intros x n; by rewrite <-length_app, take_drop). rewrite (Hsp (i_addr (fi st')) (Z.to_nat (extra_isize (fi st)))), W2, Harr, (Hsp (i_addr (fi st)) (Z.to_nat (extra_isize (fi st)))). fold l. f_equal. cbn [length]. rewrite length_drop. lia. }
  constructor.
  - destruct Q. constructor; congruence.
  - rewrite (qu_extra _ _ Q), Hla. done.
  - by rewrite (qu_nid _ _ Q).
  - unfold own_addrs in *. rewrite (qu_extra _ _ Q), Harr. by apply first_null.
  - by rewrite (qu_inline _ _ Q).
  - by rewrite Exn.
  - intros n Hn. rewrite Exn in Hn. rewrite W1. by apply X7.
Qed.

(** ** The inode itself *)

(** Nothing is left: the blocks and nodes are those of others without the inode [n] at [a]. *)
Record deleted (a n : Z) st : Prop := {
  de_live b : bl_live (blocks st) b <-> o_live o b /\ b <> a;
  de_total : total_valid_block_count (cnt st) = o_blocks o - 1;
  de_nodes : total_valid_node_count (cnt st) = o_nodes o - 1;
  de_iblocks : i_blocks (fi st) = o_iblocks o;
  de_addr : node_addr st n = NULL_ADDR;
  de_others m b : m <> n -> o_addr o m = Some b -> node_addr st m = b
}.
Lemma dec_inode_run st : 1 <= total_valid_block_count (cnt st) -> 1 <= total_valid_node_count (cnt st) -> limits (cnt st) ->
  exists c, dec_valid_node_count true st = Some (inr tt, with_cnt st c) /\ total_valid_block_count c = total_valid_block_count (cnt st) - 1 /\ total_valid_node_count c = total_valid_node_count (cnt st) - 1.
Proof.
  intros Ht Hn [L1 L2 L3 L4 L5 L6]. unfold dec_valid_node_count. msteps. destruct (Z.eqb_spec (total_valid_block_count (cnt st)) 0), (Z.eqb_spec (total_valid_node_count (cnt st)) 0); try lia. cbn [orb]. msteps. eexists. split; [done|]. cbn. rewrite !u32_small by lia. done.
Qed.
Context (Hroom : 1 <= o_blocks o /\ 1 <= o_nodes o /\ o_iblocks o = 0).
(** The inode is in a block of its own, or not written yet. *)
Definition inode_at (n a : Z) : Prop := o_addr o n = Some a /\ a <> NULL_ADDR /\ a <> COMPRESS_ADDR /\ (is_data_addr a = true -> o_live o a).
Lemma inode_run st a : hollow st -> xnodes st = [] -> inode_at (ino (fi st)) a ->
  exists st' r, truncate_node env (ino (fi st)) st = Some (r, st') /\ (r = inr tt /\ deleted a (ino (fi st)) st' \/ (exists e, r = inl (Env e) /\ st' = tick st)).
Proof.
  intros Hh Hx (Hoa & Hnull & Hcomp & Hlive). pose proof (ho_acct _ Hh) as Ha. rewrite Hx in Ha. destruct Ha as [X1 _ _ _ _ _ _ X8 X9 X10 _ X12 X13 _ X15]. cbn in X8, X9, X10. set (n := ino (fi st)) in *. destruct (X15 n a Hoa) as [Hna _].
  assert (Hod : forall b, o_live o b <-> bl_live (blocks st) b) by (intros b; rewrite X13; split; [by intros [? _]|intros ?; split; [done|by apply not_elem_of_nil]]). unfold truncate_node, f2fs_get_node_info. rewrite bind_bind.
  destruct (ask_run env Env st) as [E|(e & E)]; [|exists (tick st), (inl (Env e)); split; [by apply bind_err|right; by exists e]]. rewrite (bind_ok _ _ _ _ _ E). msteps. change (block_addr (nat_entry_of (tick st) n)) with (node_addr st n). rewrite Hna.
  assert (Einv : exists s, bl_invalidate (blocks st) a = Some s /\ forall b, bl_live s b <-> bl_live (blocks st) b /\ b <> a).
  { destruct (is_data_addr a) eqn:Ea; [destruct (bl_take (blocks st) a X1 (proj1 (Hod a) (Hlive eq_refl))) as (s & Es & _ & Hs); by exists s|]. destruct (not_data a Ea) as [-> | [-> | ->]]; [|done..]. exists (blocks st). split; [by apply bl_none|]. intros b. split; [|tauto]. intros Hb. split; [done|]. intros ->. apply (bl_data _ _ X1) in Hb as [Hb _]. congruence. }
  destruct Einv as (s & Es & Hs). unfold f2fs_invalidate_blocks at 1. unfold bind at 1. cbn [blocks tick]. rewrite Es. cbn [mbind option_bind]. rewrite bind_get. change (ino (fi (with_blocks (tick st) s))) with n. rewrite Z.eqb_refl.
  destruct (dec_inode_run (with_blocks (tick st) s)) as (c & Ec & C1 & C2); [cbn; lia|cbn; lia|done|]. rewrite (bind_ok _ _ _ _ _ Ec). unfold set_node_addr. unfold bind at 1. change (nat_entry_of (with_cnt (with_blocks (tick st) s) c) n) with (nat_entry_of st n). change (nat_entry_of (tick st) n) with (nat_entry_of st n). change (block_addr (nat_entry_of st n)) with (node_addr st n). rewrite Hna.
  pose proof nat_addrs as Hadd. rewrite (proj2 (Z.eqb_neq a NULL_ADDR)), (proj2 (Z.eqb_neq NULL_ADDR NEW_ADDR)), !Z.eqb_refl by done. rewrite !andb_false_r. cbn [andb orb negb]. msteps. eexists _, (inr tt). split; [reflexivity|]. left. split; [done|]. cbn in C1, C2. constructor; cbn; try lia.
  - intros b. by rewrite Hs, Hod.
  - unfold node_addr, nat_entry_of. cbn. by rewrite lookup_insert_eq.
  - intros m b Hm Hb. unfold node_addr, nat_entry_of. cbn. rewrite lookup_insert_ne by done. by destruct (X15 m b Hb) as [? _].
Qed.
Lemma first_dnode st : plain i st -> (Z.to_nat (extra_isize (fi st)) + Z.to_nat D <= length (i_addr (fi st)))%nat -> inline_data (fi st) = None -> forall ipage mode,
  exists st' r, f2fs_get_dnode_of_data env ipage 0 mode st = Some (inr r, st') /\ (st' = st \/ st' = tick st) /\
    ((exists e, r = inl (Env e, 0, 0)) \/ exists a, r = inr {| dn_nid := ino (fi st); node_page_of := AtInode; ofs_in_node := 0; data_blkaddr := a |}).
Proof.
  intros [P1 P2 P3] Hlen Hin ipage mode. unfold f2fs_get_dnode_of_data. rewrite bind_get, P1, (path_own i 0) by lia. assert (Hga : forall s : fsys T, fi s = fi st -> exists a, get_blkaddr (S := T) AtInode 0 s = Some (inr a, s)).
  { intros s Es. unfold get_blkaddr. rewrite bind_get, Es. unfold at_word. rewrite (proj2 (Z.ltb_ge _ _)) by lia. destruct (lookup_lt_is_Some_2 (i_addr (fi st)) (Z.to_nat (extra_isize (fi st) + 0))) as [a Ha]; [lia|]. rewrite Ha. by exists a. }
  assert (Hgo : forall s : fsys T, fi s = fi st -> exists a, (d <- descend env mode 1 AtInode (ino (fi st)) [0] [];; match d with inl (e, l) => ret (inl (e, l, 0)) | inr (node, nid) => ofs <- some (last_of [0]);; a <- get_blkaddr node ofs;; ret (inr {| dn_nid := nid; node_page_of := node; ofs_in_node := ofs; data_blkaddr := a |}) end) s = Some (inr (inr {| dn_nid := ino (fi st); node_page_of := AtInode; ofs_in_node := 0; data_blkaddr := a |}), s)).
  { intros s Es. destruct (Hga s Es) as [a Ea]. exists a. cbn [descend]. rewrite bind_ret. change (some (last_of [0])) with (ret (S := T) 0). rewrite bind_ret, (bind_ok _ _ _ _ _ Ea). done. }
  cbn [offset level noffset tail]. rewrite Hin. destruct ipage.
  - destruct (Hgo st eq_refl) as [a Ea]. exists st, (inr {| dn_nid := ino (fi st); node_page_of := AtInode; ofs_in_node := 0; data_blkaddr := a |}). split; [exact Ea|]. split; [by left|]. right. by exists a.
  - unfold get_inode_page. destruct (ask_run env Env st) as [E|(e & E)]; rewrite (bind_catch _ _ _ _ _ E).
    + destruct (Hgo (tick st) eq_refl) as [a Ea]. exists (tick st), (inr {| dn_nid := ino (fi st); node_page_of := AtInode; ofs_in_node := 0; data_blkaddr := a |}). split; [exact Ea|]. split; [by right|]. right. by exists a.
    + exists (tick st), (inl (Env e, 0, 0)). split; [done|]. split; [by right|]. left. by exists e.
Qed.
Lemma remove_page_run st a : hollow st -> inode_at (ino (fi st)) a ->
  exists st' r, f2fs_remove_inode_page env st = Some (r, st') /\ (r = inr tt /\ deleted a (ino (fi st)) st' \/ (exists e, r = inl (Env e)) /\ hollow st' /\ ino (fi st') = ino (fi st)).
Proof.
  intros Hh Ha. unfold f2fs_remove_inode_page. destruct (first_dnode st (ho_plain _ Hh) (ho_addr _ Hh) (ho_inline _ Hh) false LOOKUP_NODE) as (st1 & r & E & Hst1 & Hr). rewrite (bind_ok _ _ _ _ _ E). assert (Hh1 : hollow st1 /\ ino (fi st1) = ino (fi st)) by (destruct Hst1 as [-> | ->]; [done|split; [by apply hollow_tick|done]]). destruct Hh1 as [Hh1 Ei1].
  destruct Hr as [(e & ->)|(x & ->)]; [exists st1, (inl (Env e)); split; [done|]; right; split; [by exists e|done]|]. cbn [node_page_of ofs_in_node dn_nid].
  destruct (xattr_run st1 Hh1) as (st2 & r2 & E2 & Hh2 & Ei2 & [[-> Hx2]|(e & ->)]); [rewrite (bind_ok _ _ _ _ _ E2)|rewrite (bind_err _ _ _ _ _ E2); exists st2, (inl (Env e)); split; [done|]; right; split; [by exists e|split; [done|congruence]]].
  destruct (first_block_run st2 Hh2) as (st3 & E3 & Hh3 & Ei3 & Hx3). rewrite (bind_ok _ _ _ _ _ E3). rewrite Hx2 in Hx3.
  destruct (ask_run env (fun _ => Env EIO) st3) as [E4|(e & E4)]; [rewrite (bind_ok _ _ _ _ _ E4)|rewrite (bind_err _ _ _ _ _ E4); exists (tick st3), (inl (Env EIO)); split; [done|]; right; split; [by exists EIO|split; [by apply hollow_tick|cbn; congruence]]].
  rewrite bind_get. pose proof (hollow_tick _ Hh3) as Hh4. assert (Hb : i_blocks (fi (tick st3)) = 0) by (pose proof (ac_iblocks _ _ _ _ (ho_acct _ Hh3)) as Hb; rewrite Hx3 in Hb; cbn in *; lia). rewrite Hb. cbn [Z.eqb negb andb]. rewrite bind_ret.
  assert (Ei : ino (fi st) = ino (fi (tick st3))) by (cbn; congruence). rewrite Ei in *. destruct (inode_run (tick st3) a Hh4 Hx3 Ha) as (st5 & r5 & E5 & [[-> Hd]|(e & -> & ->)]).
  - exists st5, (inr tt). split; [exact E5|]. by left.
  - exists (tick (tick st3)), (inl (Env e)). split; [exact E5|]. right. split; [by exists e|]. split; [by apply hollow_tick|done].
Qed.

(** ** Truncation to nothing *)

Lemma align_0 : F2FS_BLK_ALIGN 0 = 0.
Proof. done. Qed.
Lemma max_positive : B <= max_file_blocks i.
Proof. pose proof (iok_block i Hi). pose proof nids_range. pose proof (max_blocks i). unfold max_inode_blocks in *. nia. Qed.
Lemma cut_all : cut_from i 0 = 0.
Proof. pose proof max_positive. pose proof (iok_block i Hi). unfold cut_from. by rewrite (proj2 (Z.leb_gt _ _)) by lia. Qed.
Lemma first_path : get_node_path i D = Some {| level := 1; offset := [NODE_DIR1_BLOCK + 0; 0]; noffset := [0; 1 + 0] |}.
Proof. pose proof (iok_block i Hi). rewrite <-(path_dnode i 0 0) by lia. f_equal. lia. Qed.
Lemma zero_all st A Ns st' : owned o i A Ns st -> inline_data (fi st) = None -> f2fs_do_truncate_blocks env 0 st = Some (inr tt, st') -> forall q c, i_nid (fi st') !! q = Some c -> c = 0.
Proof.
  intros Hw Hin E. pose proof (fo_plain _ _ (proj1 Hw)) as Hp. pose proof (pl_shape _ _ Hp) as Hs. pose proof max_positive. pose proof (iok_block i Hi) as HB. unfold f2fs_do_truncate_blocks in E. rewrite align_0, bind_get, Hs, Hin in E. rewrite (proj2 (Z.leb_gt _ _)) in E by lia. cbn [negb] in E.
  unfold get_inode_page in E. rewrite bind_bind in E. destruct (ask_run env Env st) as [E1|(e & E1)]; [|by rewrite (bind_err _ _ _ _ _ E1) in E]. rewrite (bind_ok _ _ _ _ _ E1), bind_bind in E. pose proof (owned_tick o i A Ns st Hw) as Hwt.
  destruct (first_dnode (tick st) (fo_plain _ _ (proj1 Hwt)) (fo_addr _ _ (proj1 Hwt)) Hin true LOOKUP_NODE_RA) as (st1 & r & E2 & Hst1 & Hr). rewrite (bind_ok _ _ _ _ _ E2) in E. assert (Hw1 : owned o i A Ns st1 /\ inline_data (fi st1) = None) by (destruct Hst1 as [-> | ->]; split; [done|done|by apply owned_tick|done]). destruct Hw1 as [Hw1 Hin1]. clear Hst1.
  destruct Hr as [(e & ->)|(a & ->)]; [done|]. cbn [node_page_of ofs_in_node addrs_per_page] in E. rewrite Z.sub_0_r in E. rewrite (proj2 (Z.ltb_ge _ _)) in E by lia. cbn [Z.eqb negb orb] in E.
  pose proof (lens_inode o i Hi A Ns st1 Hw1) as Hl. destruct (lens_truncate o i Hi Hplain A Ns st1 0 AtInode (Z.to_nat D) 0 (Z.to_nat D) Hw1 Hl ltac:(lia)) as (st2 & E3 & He). rewrite Z2Nat.id in E3 by lia. change (Z.of_nat 0) with 0 in E3. rewrite bind_bind, (bind_ok _ _ _ _ _ E3) in E. pose proof (fe_own _ _ _ _ _ _ _ He) as Hw2. rewrite Z.add_0_l in E.
  destruct (truncate_inode_blocks_eq env i D _ st2 (pl_shape _ _ (fo_plain _ _ (proj1 Hw2))) first_path) as [nofs Eq]. unfold bind in E at 1. rewrite Eq in E. cbn [level offset] in E. unfold get_inode_page in E. destruct (ask_run env Env st2) as [E4|(e & E4)]; [|by rewrite (bind_err _ _ _ _ _ E4) in E]. rewrite (bind_ok _ _ _ _ _ E4) in E.
  destruct (offs_then env _ _ _ _ _) as [[[e|[]] st3]|] eqn:E5; [done| |done]. injection E as <-. intros q c Hq. pose proof (owned_tick o i A Ns st2 Hw2) as Hw3. eapply (truncate_roots_zero o env i Hi Hplain 5 0 A Ns (tick st2) nofs st3); [lia|lia|done|exact E5|exact Hq|lia].
Qed.

(** ** The loop *)

(** What is true before each attempt: the file [n] is well-formed, its node of attributes is there. *)
Record evictable (n : Z) st : Prop := { ev_wf : file_wf o i [] (xnodes st) st; ev_pages : xpages st; ev_ino : ino (fi st) = n }.
Lemma hollow_evictable st : hollow st -> evictable (ino (fi st)) st.
Proof. intros Hh. constructor; [by apply hollow_wf|apply Hh|done]. Qed.
Lemma evictable_tick n st : evictable n st -> evictable n (tick st).
Proof. intros [[W1 W2 W3 W4] X2 X3]. constructor; try done. constructor; try done. by apply owned_tick. Qed.
Lemma evictable_evolve n fl st st' : evictable n st -> fevolve o i [] (xnodes st) fl st st' -> evictable n st'.
Proof.
  intros [X1 X2 X3] He. pose proof (fe_kept _ _ _ _ _ _ _ He) as Hk. assert (Exn : xnodes st' = xnodes st) by (unfold xnodes; by rewrite (kp_xnid _ _ Hk)). constructor.
  - rewrite Exn. by eapply wf_evolve.
  - intros m Hm. rewrite Exn in Hm. rewrite (fe_pages _ _ _ _ _ _ _ He) by done. by apply X2.
  - by rewrite (kp_ino _ _ Hk).
Qed.
Lemma truncate_all_run n st : evictable n st -> exists st' r, f2fsj_truncate env 0 st = Some (r, st') /\ evictable n st' /\ (r = inr tt /\ hollow st' \/ exists e, r = inl (Env e)).
Proof.
  intros Hev. unfold f2fsj_truncate. destruct (ask_run env (fun _ => Env EIO) st) as [E|(e & E)]; [|rewrite (bind_err _ _ _ _ _ E); exists (tick st), (inl (Env EIO)); split; [done|]; split; [by apply evictable_tick|right; by exists EIO]]. rewrite (bind_ok _ _ _ _ _ E). apply evictable_tick in Hev. set (st1 := tick st) in *. clearbody st1. clear E.
  destruct (ask_run env (fun _ => Env EIO) st1) as [E|(e & E)]; [|rewrite (bind_err _ _ _ _ _ E); exists (tick st1), (inl (Env EIO)); split; [done|]; split; [by apply evictable_tick|right; by exists EIO]]. rewrite (bind_ok _ _ _ _ _ E). apply evictable_tick in Hev. set (st2 := tick st1) in *. clearbody st2. clear E.
  destruct (ask_run env Env st2) as [E|(e & E)]; [|rewrite (bind_err _ _ _ _ _ E); exists (tick st2), (inl (Env e)); split; [done|]; split; [by apply evictable_tick|right; by exists e]]. rewrite (bind_ok _ _ _ _ _ E). apply evictable_tick in Hev. set (st3 := tick st2) in *. clearbody st3. clear E.
  pose proof (ev_wf _ _ Hev) as Hw. pose proof max_positive. destruct (truncate_result env o i [] (xnodes st3) st3 0 Hw) as (r & st' & l & E & He & Hs); [lia|]. pose proof (evictable_evolve _ _ _ _ Hev He) as Hev'. exists st', r. split; [exact E|]. split; [done|]. cbn [spec_step] in Hs. rewrite align_0 in Hs.
  destruct Hs as [[[-> | [-> Hl]] Hl']|[[e ->] _]]; [|exfalso; unfold in_last_dnode in Hl; pose proof (max_blocks i); lia|right; by exists e]. left. split; [done|]. rewrite cut_all in Hl'. apply wf_hollow; [apply Hev'|apply Hev'| |].
  - rewrite (fe_flat _ _ _ _ _ _ _ He), Hl', blank_end by lia. cbn [take Z.to_nat]. apply nonnull_nulls.
  - apply zero_nids. assert (Hlen : length (i_nid (fi st')) = 5%nat) by (apply (fw_owned _ _ _ _ _ (ev_wf _ _ Hev'))). apply list_eq. intros q. destruct (i_nid (fi st') !! q) as [c|] eqn:Hc.
    + rewrite (zero_all st3 [] (xnodes st3) st' (fw_owned _ _ _ _ _ Hw) (fw_inline _ _ _ _ _ Hw) E q c Hc). symmetry. apply lookup_replicate_2. apply lookup_lt_Some in Hc. lia.
    + symmetry. apply lookup_ge_None_2. apply lookup_ge_None_1 in Hc. rewrite length_replicate. lia.
Qed.
Lemma no_blocks_hollow n st : evictable n st -> F2FS_HAS_BLOCKS (fi st) = false -> hollow st.
Proof.
  intros [Hw Hx _] Hb. pose proof (fw_owned _ _ _ _ _ Hw) as [_ Ha]. pose proof (ac_iblocks _ _ _ _ Ha) as Hi8. rewrite app_nil_r in Hi8. unfold F2FS_HAS_BLOCKS in Hb. rewrite Hi8, Z.shiftr_div_pow2 in Hb by lia. replace (o_iblocks o + 8 * _) with ((lenZ (nonnull (file_flat i st)) + lenZ (file_nids st ++ xnodes st)) * 2 ^ 3) in Hb by lia. rewrite Z.div_mul in Hb by done.
  assert (Hxl : lenZ (xnodes st) = if i_xnid (fi st) =? 0 then 0 else 1) by (unfold xnodes; by destruct (i_xnid (fi st) =? 0)). rewrite <-Hxl in Hb. apply Z.ltb_ge in Hb. rewrite length_app in Hb.
  assert (Hlen : lenZ (nonnull (file_flat i st)) = 0 /\ lenZ (file_nids st) = 0) by lia. destruct Hlen as [H1' H2']. apply wf_hollow; try done; apply length_zero_iff_nil; lia.
Qed.
Lemma attempt_run n a st : inode_at n a -> evictable n st -> exists st' r, evict_attempt env st = Some (inr r, st') /\ (r = inr tt /\ deleted a n st' \/ (exists e, r = inl (Env e)) /\ evictable n st').
Proof.
  intros Hat Hev. unfold evict_attempt. rewrite bind_get.
  assert (Hcut : exists st1 r, (if F2FS_HAS_BLOCKS (fi st) then catch (f2fsj_truncate env 0) else ret (inr tt)) st = Some (inr r, st1) /\ evictable n st1 /\ (r = inr tt /\ hollow st1 \/ exists e, r = inl (Env e))).
  { destruct (F2FS_HAS_BLOCKS (fi st)) eqn:Eb.
    - destruct (truncate_all_run n st Hev) as (st1 & r & E & Hr). exists st1, r. split; [|done]. by apply catch_run.
    - exists st, (inr tt). split; [done|]. split; [done|]. left. split; [done|]. by eapply no_blocks_hollow. }
  destruct Hcut as (st1 & r & E & Hev1 & Hr). rewrite (bind_ok _ _ _ _ _ E). destruct (ask_run env (fun _ => Env EIO) st1) as [E1|(e & E1)]; rewrite (bind_catch _ _ _ _ _ E1); [|exists (tick st1), (inl (Env EIO)); split; [done|]; right; split; [by exists EIO|by apply evictable_tick]].
  apply evictable_tick in Hev1. destruct Hr as [[-> Hh]|(e & ->)]; [|exists (tick st1), (inl (Env e)); split; [done|]; right; split; [by exists e|done]]. apply hollow_tick in Hh. pose proof (ev_ino _ _ Hev1) as En.
  destruct (remove_page_run (tick st1) a Hh ltac:(by rewrite En)) as (st2 & r & E2 & [[-> Hd]|((e & ->) & Hh2 & Ei)]); rewrite (bind_catch _ _ _ _ _ E2).
  - exists st2, (inr tt). split; [done|]. left. by rewrite En in Hd.
  - exists st2, (inl (Env e)). split; [done|]. right. split; [by exists e|]. rewrite <-En, <-Ei. by apply hollow_evictable.
Qed.
Lemma loop_run n a attempts : inode_at n a -> forall st, evictable n st -> exists st' r, evict_loop env attempts st = Some (r, st') /\ (r = inr tt /\ deleted a n st' \/ (exists e, r = inl (Env e)) /\ evictable n st').
Proof.
  intros Hat. induction attempts as [|k IH]; intros st Hev; [exists st, (inl (Env ENOMEM)); split; [done|]; right; split; [by exists ENOMEM|done]|]. cbn [evict_loop]. destruct (attempt_run n a st Hat Hev) as (st1 & r & E & Hr). rewrite (bind_ok _ _ _ _ _ E).
  destruct Hr as [[-> Hd]|((e & ->) & Hev1)]; [exists st1, (inr tt); split; [done|]; by left|]. destruct e; try (eexists st1, _; split; [done|]; right; split; [by eexists|done]). by apply IH.
Qed.
End evict.

(** C11: [f2fsj_evict_inode] of a well-formed file without links, of any shape: it always returns, after any
    number of attempts and whatever fails.  When it succeeds everything has been given back: the live
    blocks are those of others without the inode's own, the counters are those of others, the
    inode's id has no address and other nodes keep theirs.  When it fails the file is still well-formed, so that no
    block is lost or has two owners, and eviction can be tried again.  Its loop ends when memory does not stay short: if
    from the request [K] on no request fails for a lack of memory, then so many attempts as are left until then, and one more, never end in one. *)
Theorem evict_frees_all {T : Type} `{BlockLaws T} (env : file_env) (o : rest) (i : node_inode) (attempts : nat) (a : Z) (st : fsys T) :
  0 < addrs_per_inode i -> 1 <= o_blocks o /\ 1 <= o_nodes o /\ o_iblocks o = 0 -> file_wf o i [] (xnodes st) st -> xpages st -> inode_at o (ino (fi st)) a ->
  exists r st', f2fsj_evict_inode env attempts st = Some (r, st') /\
    (r = inr tt /\ deleted o a (ino (fi st)) st' \/ (exists e, r = inl (Env e)) /\ file_wf o i [] (xnodes st') st' /\ xpages st') /\
    (forall K, (forall t, (K <= t)%nat -> answer env t <> Some ENOMEM) -> (K < ticks st + attempts)%nat -> (0 < attempts)%nat -> r <> inl (Env ENOMEM)).
Proof.
  intros Hd Hroom Hw Hx Hat. unfold f2fsj_evict_inode. rewrite bind_modify. set (st1 := with_fi st (set_no_alloc (fi st))). assert (Hev : evictable o i (ino (fi st)) st1).
  { destruct Hw as [W1 W2 [[F1 F2 F3 F4] Ha] W4]. constructor; try done. constructor; try done. split; [|by apply (acct_same o st)]. constructor; try done. by destruct F1. }
  destruct (loop_run env o i ltac:(apply Hw) ltac:(apply Hw) Hd Hroom (ino (fi st)) a attempts Hat st1 Hev) as (st' & r & E & Hr). exists r, st'. split; [exact E|]. split; [destruct Hr as [?|[He [? ? ?]]]; [by left|right; done]|]. intros K HK Hn Hp. by apply (loop_ends env K HK attempts st1 st' r E).
Qed.
