(* ===== verification/FileSeg.v ===== *)
(** * The segment manager as the layer of blocks of a file

    Taking back is [f2fs_invalidate_blocks], writing out of place is
    [f2fs_allocate_data_block] in the log that [log] chooses for the block; the manager's
    invariant gives the laws. *)

From S2P Require Import Prelude FreeNid NatCache NodePath SegBitmap SegState SegAlloc SegInv SegLists SegCur SegSwitch SegVictim SegVictimProps SegBlocks SegData SegDiscard SegFlush SegTouch.
From S2P Require FileMap FileTree FileCut FileTrunc FileHistory.

Section seg.
Notation seg_ok g := (0 <= g < MAIN_SEGS).
Notation off_ok o := (0 <= o < blks_per_seg).
Context {HN : NatFormat} {HF : F2fsFsNode} {HFF : FileMap.FileFormat} {HG : SegGeometry} {HS : SitFormat} (Hcompr : FileMap.COMPRESS_ADDR = COMPRESS_ADDR).
Context (unit_discard : bool) (get_victim : seg_sys -> Z -> Z -> Z -> option (victim_info * option Z)) {Hvs : VictimSelection get_victim} (env : alloc_env) (log : bool * Z * Z * Z -> Z).

(** [f2fs_is_valid_blkaddr] for [DATA_GENERIC_ENHANCE]: the address is in the main area and in use. *)
Definition __is_bitmap_valid (s : seg_sys) (a : Z) : bool :=
  match get_seg_entry s (GET_SEGNO a) with Some se => bool_decide (GET_BLKOFF_FROM_SEG0 a ∈ cur_valid_map se) | None => false end.
Definition is_data_blkaddr (s : seg_sys) (a : Z) : bool := (SEG0_BLKADDR + start_segno * blks_per_seg <=? a) && (a <? SEG0_BLKADDR + (start_segno + MAIN_SEGS) * blks_per_seg) && __is_bitmap_valid s a.
Definition seg_write (s : seg_sys) (old : Z) (sum : bool * Z * Z * Z) : option (seg_sys * Z) :=
  let '(_, n, ofs, ver) := sum in f2fs_allocate_data_block unit_discard get_victim env s old {| sum_nid := n; sum_version := ver; ofs_in_node := ofs |} (log sum).
Definition seg_block_ops : FileMap.BlockOps seg_sys := {|
  FileMap.bl_invalidate s a := f2fs_invalidate_blocks unit_discard env s a; FileMap.bl_write := seg_write; FileMap.f2fs_is_valid_blkaddr := is_data_blkaddr |}.

Context (Hlog : forall sum, 0 <= log sum < NO_CHECK_TYPE) (Hgc : forall sum, log sum <> CURSEG_ALL_DATA_ATGC).
Definition seg_live (s : seg_sys) (a : Z) : Prop := exists g o, a = blk g o /\ valid_at s g o.
Definition seg_ok_state (s : seg_sys) : Prop := seg_inv ∅ s /\ room s.
Definition seg_ready (s : seg_sys) : Prop := (forall sum, inited (CURSEG_I s (log sum)) = true) /\ 0 < free_sections (fre s).

Lemma data_blk g o : seg_ok g -> off_ok o -> FileMap.is_data_addr (blk g o) = true.
Proof. intros Hg Ho. destruct (blk_special g o Hg Ho) as (N1 & N2 & N3). apply FileCut.data_not. by rewrite Hcompr. Qed.
Lemma live_at s g o : seg_inv ∅ s -> valid_at s g o -> seg_ok g /\ off_ok o.
Proof. intros Hi Hv. by apply (kept_range ∅ s), (valid_kept ∅). Qed.
Lemma seg_data s a : seg_ok_state s -> seg_live s a -> FileMap.is_data_addr a = true /\ is_data_blkaddr s a = true.
Proof.
  intros [Hi _] (g & o & -> & Hv). destruct (live_at s g o Hi Hv) as [Hg Ho]. split; [by apply data_blk|]. assert (Hb : __is_bitmap_valid s (blk g o) = true) by (unfold __is_bitmap_valid; rewrite get_segno, get_blkoff by done; destruct Hv as (se & E & Ho'); unfold get_seg_entry; rewrite E; by apply bool_decide_eq_true).
  unfold is_data_blkaddr. rewrite Hb. pose proof bps_range. unfold blk. rewrite !andb_true_iff. split; [|done]. split; [apply Z.leb_le; nia|apply Z.ltb_lt; nia].
Qed.
Lemma seg_none s : f2fs_invalidate_blocks unit_discard env s NEW_ADDR = Some s.
Proof. pose proof nat_addrs as Hn. unfold f2fs_invalidate_blocks. destruct (Z.eqb_spec NEW_ADDR NULL_ADDR) as [E|]; [by rewrite E in Hn|]. by rewrite Z.eqb_refl. Qed.
Lemma seg_take s a : seg_ok_state s -> seg_live s a -> exists s', f2fs_invalidate_blocks unit_discard env s a = Some s' /\ seg_ok_state s' /\ (forall b, seg_live s' b <-> seg_live s b /\ b <> a).
Proof.
  intros [Hi Hr] (g & o & -> & Hv). destruct (invalidate_spec unit_discard env ∅ s g o Hi Hv) as (s' & E & Hi' & Hc & _ & D1 & _). exists s'. split; [done|]. split; [split; [done|unfold room; by rewrite Hc]|]. intros b. split.
  - intros (h & p & -> & Hv'). destruct (live_at s' h p Hi' Hv') as [Hh Hp]. apply (D1 h p Hh Hp) in Hv' as [? ?]. split; [by exists h, p|done].
  - intros [(h & p & -> & Hv') Hne]. destruct (live_at s h p Hi Hv') as [Hh Hp]. exists h, p. split; [done|]. by apply D1.
Qed.
Lemma seg_give s old sum : seg_ok_state s -> seg_ready s -> old = NEW_ADDR \/ seg_live s old ->
  exists s' new, seg_write s old sum = Some (s', new) /\ seg_ok_state s' /\ ~ seg_live s new /\ (forall b, seg_live s' b <-> (b = new \/ seg_live s b) /\ b <> old) /\ FileMap.is_data_addr new = true.
Proof.
  intros [Hi Hr] [Hini Hfs] Hold. set (l := log sum). destruct sum as [[[x n] ofs] ver] eqn:Es. assert (Hok : old_ok s old). { destruct Hold as [->|Hl]; [left|by right]. apply get_segno_null. unfold __is_valid_data_blkaddr. by rewrite Z.eqb_refl. }
  destruct (allocate_spec unit_discard get_victim env ∅ s l old {| sum_nid := n; sum_version := ver; ofs_in_node := ofs |} Hi Hr (Hlog _) (Hini _) Hfs Hok ltac:(intros He; by apply Hgc in He)) as (s' & E & Hi' & Hr' & Hg & Ho & Hn & [A1 A2 A3 A4] & _).
  exists s', (blk (segno (CURSEG_I s l)) (next_blkoff (CURSEG_I s l))). split; [exact E|]. split; [done|]. split; [|split; [|by apply data_blk]].
  - intros (h & p & Eb & Hv). destruct (live_at s h p Hi Hv) as [Hh Hp]. apply blk_inj in Eb as [E1 E2]; try done. apply Hn. rewrite E1, E2. by apply (valid_kept ∅).
  - intros b. split.
    + intros (h & p & -> & Hv). destruct (live_at s' h p Hi' Hv) as [Hh Hp]. apply (A1 h p Hh Hp) in Hv as [[[-> ->]|Hv] Hne]; (split; [|done]); [by left|right; by exists h, p].
    + intros [[->|(h & p & -> & Hv)] Hne]; eexists _, _; (split; [reflexivity|]).
      * apply (A1 _ _ Hg Ho). split; [by left|done].
      * destruct (live_at s h p Hi Hv) as [Hh Hp]. apply (A1 h p Hh Hp). split; [by right|done].
Qed.
Definition seg_block_laws : @FileTree.BlockLaws HN HF HFF seg_sys seg_block_ops :=
  @FileTree.Build_BlockLaws HN HF HFF seg_sys seg_block_ops seg_ok_state seg_live seg_ready seg_data (fun s _ => seg_none s) seg_take seg_give.
#[local] Existing Instances seg_block_ops seg_block_laws.

(** C6: The block map and the segment manager together: after every history of a well-formed
    file the table of segments satisfies its invariant, marks as valid every block that
    holds data or a node of the file, and of all other blocks marks the same as before; the
    next operation returns, so no assertion of the segment manager fails under
    it. *)
Theorem file_history_on_segments o i A Ns (fenv : FileMap.file_env) st tr st' :
  FileHistory.file_wf o i A Ns st -> FileHistory.file_run fenv st tr st' ->
  let owned s := FileTree.data_addrs s (FileTree.nonnull (FileTrunc.file_flat i s) ++ A) (FileTrunc.file_nids s ++ Ns) in
  seg_inv ∅ (FileMap.blocks st') /\
  (forall a, a ∈ owned st' -> exists g off, a = blk g off /\ valid_at (FileMap.blocks st') g off) /\
  (forall g off, seg_ok g -> off_ok off -> valid_at (FileMap.blocks st') g off /\ blk g off ∉ owned st' <-> valid_at (FileMap.blocks st) g off /\ blk g off ∉ owned st) /\
  (forall op, FileHistory.ready op st' -> exists r st2, FileHistory.run_op fenv op st' = Some (r, st2) /\ seg_inv ∅ (FileMap.blocks st2)).
Proof.
  intros Hw Hr owned. pose proof (FileHistory.history_wf fenv o i A Ns st tr st' Hw Hr) as Hw'. assert (Hinv : forall s, FileHistory.file_wf o i A Ns s -> seg_inv ∅ (FileMap.blocks s)) by (intros s [_ _ [_ Ha] _]; apply (FileTree.ac_bl _ _ _ _ Ha)).
  split; [by apply Hinv|]. split; [|split].
  - destruct Hw' as [_ _ [_ Ha] _]. exact (FileTree.ac_live _ _ _ _ Ha).
  - assert (Hlive : forall s, FileHistory.file_wf o i A Ns s -> forall g off, seg_ok g -> off_ok off -> valid_at (FileMap.blocks s) g off <-> seg_live (FileMap.blocks s) (blk g off)).
    { intros s Hs g off Hg Ho. split; [by exists g, off|]. intros (h & p & Eb & Hv). destruct (live_at _ h p (Hinv s Hs) Hv) as [Hh Hp]. by apply blk_inj in Eb as [-> ->]. }
    intros g off Hg Ho. rewrite !Hlive by done. destruct Hw as [_ _ [_ Ha] _], Hw' as [_ _ [_ Ha'] _]. exact (iff_trans (iff_sym (FileTree.ac_others _ _ _ _ Ha' (blk g off))) (FileTree.ac_others _ _ _ _ Ha (blk g off))).
  - intros op Hready. destruct (FileHistory.op_runs fenv o i A Ns op st' Hw' Hready) as (r & st2 & l & E & He & _). exists r, st2. split; [done|]. apply Hinv. by eapply FileHistory.wf_evolve.
Qed.
End seg.
