(* ===== verification/FsWitnesses.v ===== *)
(** * Concrete instances for the file system components

    Each lemma named after a theorem on node paths, free ids, name hashes, ACLs
    or the extent cache applies it to concrete data. *)

From S2P Require Import Prelude NodePath FreeNid Hash Acl ExtentTree ExtentCache ExtentInode ExtentSystem.

(** ** Node paths: 4 KiB blocks *)

Definition node_4k : F2fsFsNode.
Proof.
  refine {| NIDS_PER_BLOCK := 1018; DEF_ADDRS_PER_BLOCK := 1018; NODE_DIR1_BLOCK := 924; NODE_DIR2_BLOCK := 925;
            NODE_IND1_BLOCK := 926; NODE_IND2_BLOCK := 927; NODE_DIND_BLOCK := 928 |}; lia.
Defined.

Definition plain_inode : node_inode := {| cur_addrs := 923; f2fs_compressed_file := false; i_cluster_size := 4 |}.

Lemma plain_inode_ok : @inode_ok node_4k plain_inode.
Proof. apply uncompressed_ok; cbn; lia. Qed.

Lemma node_path_roundtrip_witness :
  @get_node_path node_4k plain_inode 5000000 = Some {| level := 3; offset := [928; 2; 836; 697]; noffset := [0; 2041; 4080; 4917] |} /\
  match @get_node_path node_4k plain_inode 5000000 with
  | Some p => 5000000 < @max_inode_blocks node_4k plain_inode /\ @leads_to node_4k plain_inode p 5000000
  | None => @max_inode_blocks node_4k plain_inode <= 5000000 /\ @max_file_blocks node_4k plain_inode <= 5000000
  end.
Proof. split; [vm_compute; reflexivity|]. apply (@node_path_roundtrip node_4k plain_inode 5000000); [apply plain_inode_ok|lia]. Defined.

(** ** Name hashes *)

Lemma str2hashbuf_injective_witness :
  let name := [108; 111; 103] in Forall is_byte name /\ name = [108; 111; 103].
Proof.
  intros name. assert (Hb : Forall is_byte name) by (repeat constructor; unfold is_byte; lia).
  split; [exact Hb|].
  apply (str2hashbuf_injective name [108; 111; 103] 4); [exact Hb|exact Hb|reflexivity|cbn; lia|vm_compute; reflexivity].
Defined.

(** ** ACLs: the tag values of the kernel, and one user namespace *)

Definition posix_tags : PosixAcl.
Proof.
  refine {| ACL_USER_OBJ := 1; ACL_USER := 2; ACL_GROUP_OBJ := 4; ACL_GROUP := 8; ACL_MASK := 16; ACL_OTHER := 32;
            make_kuid := id; make_kgid := id; from_kuid := id; from_kgid := id |}.
  - by apply (bool_decide_unpack _).
  - repeat constructor; lia.
Defined.
#[local] Existing Instance posix_tags.

(** u::rw-, u:1000:rwx, g::r--, m::r-x, o::--- *)
Definition shared_acl : list posix_acl_entry := [
  {| e_tag := 1; e_perm := 6; e_id := None |}; {| e_tag := 2; e_perm := 7; e_id := Some 1000 |};
  {| e_tag := 4; e_perm := 4; e_id := None |}; {| e_tag := 16; e_perm := 5; e_id := None |};
  {| e_tag := 32; e_perm := 0; e_id := None |}].

Lemma acl_disk_roundtrip_witness :
  exists buf size, f2fs_acl_to_disk (Some (replicate 44 170)) shared_acl = inl (buf, size) /\ 0 <= size <= Z.of_nat (length buf) /\
    f2fs_acl_from_disk true (take (Z.to_nat size) buf ++ [7]) size = inl (Some shared_acl).
Proof.
  apply (acl_disk_roundtrip shared_acl (replicate 44 170) [7]).
  - unfold shared_acl. repeat apply list.Forall_cons_2; try apply list.Forall_nil_2; unfold entry_ok; cbn; (split; [lia|]);
      first [left; split; reflexivity|right; left; split; [reflexivity|exists 1000; repeat split; cbn; lia]].
  - right. reflexivity.
  - cbn. lia.
  - reflexivity.
Defined.

Lemma masq_never_grants_witness :
  f2fs_acl_create_masq shared_acl 33204 = inl
    ([{| e_tag := 1; e_perm := 6; e_id := None |}; {| e_tag := 2; e_perm := 7; e_id := Some 1000 |};
      {| e_tag := 4; e_perm := 4; e_id := None |}; {| e_tag := 16; e_perm := 4; e_id := None |};
      {| e_tag := 32; e_perm := 0; e_id := None |}], 33184, true) /\ subset_bits 33184 33204.
Proof.
  assert (E : f2fs_acl_create_masq shared_acl 33204 = inl
    ([{| e_tag := 1; e_perm := 6; e_id := None |}; {| e_tag := 2; e_perm := 7; e_id := Some 1000 |};
      {| e_tag := 4; e_perm := 4; e_id := None |}; {| e_tag := 16; e_perm := 4; e_id := None |};
      {| e_tag := 32; e_perm := 0; e_id := None |}], 33184, true)) by (vm_compute; reflexivity).
  split; [exact E|]. apply (masq_never_grants _ _ _ _ _ E).
Defined.

(** ** Extent caches: trees that are rebuilt as right spines *)

Fixpoint spine (l : list extent_node) : rb_root :=
  match l with [] => RB_NULL | n :: l => RB_NODE RB_NULL n (spine l) end.

Lemma spine_nodes l : rb_nodes (spine l) = l.
Proof. induction l as [|n l IH]; [done|]. cbn. by rewrite IH. Qed.

Definition spine_tree : RbTree.
Proof.
  refine {| rb_insert_color := fun t k n => spine (take k (rb_nodes t) ++ n :: drop k (rb_nodes t));
            rb_erase := fun t id => spine (filter (fun n => en_id n <> id) (rb_nodes t)) |}; intros; apply spine_nodes.
Defined.
#[local] Existing Instance spine_tree.

(** One node of 200 blocks, at address 0. *)
Definition tree200 : extent_tree := {|
  root := RB_NODE RB_NULL {| en_id := 0; ei := {| fofs := 0; len := 200; blk := 1000; c_len := 0 |} |} RB_NULL;
  cached_en := Some 0; largest := {| fofs := 0; len := 200; blk := 1000; c_len := 0 |}; largest_updated := false; node_cnt := 1 |}.
Definition sbi200 : ext_sbi := {| extent_list := [0]; total_ext_node := 1; ext_allocs := 1 |}.
Definition map200 : bmap := fun x => if (0 <=? x) && (x <? 200) then Some (1000 + x) else None.

Lemma map200_ok : ext_ok map200 {| fofs := 0; len := 200; blk := 1000; c_len := 0 |}.
Proof.
  intros i Hi. unfold map200. cbn [fofs len blk] in *. rewrite Z.add_0_l. destruct ((0 <=? i) && (i <? 200)) eqn:E; [done|lia].
Qed.

Lemma tree200_inv : inode_inv (fun _ => False) map200 sbi200 tree200 false.
Proof.
  pose proof map200_ok as Hok. split; [|done]. constructor; cbn; try done.
  - apply list.Forall_singleton. split; [unfold ext_range; cbn; lia|done].
  - apply NoDup_singleton.
  - intros n ->%list_elem_of_singleton. by apply list_elem_of_singleton.
  - apply NoDup_singleton.
  - intros i ->%list_elem_of_singleton. lia.
  - intros i [= <-]. eexists. split; [by apply list_elem_of_singleton|done].
  - intros i Hi. by left.
Qed.

Lemma update_then_lookup_witness : exists s1 et1 no_extent' dirty s2 et2 r,
  f2fs_update_extent_tree_range (fun _ => true) sbi200 tree200 false 100 5000 1 = Some (s1, et1, no_extent', dirty) /\
  f2fs_lookup_extent_tree s1 et1 (100 + 0) = (s2, et2, r) /\
  match r with
  | Some e => 5000 <> 0 /\ fofs e <= 100 + 0 < fofs e + len e /\ blk e + (100 + 0 - fofs e) = 5000 + 0
  | None => 5000 <> 0 -> (forall k : nat, (fun _ => true) k = true) -> no_extent' = true
  end.
Proof. apply (update_then_lookup (fun _ => False) (fun _ => true) map200 sbi200 tree200 false 100 5000 1 0); [apply tree200_inv|lia..]. Defined.

(** A run: inode 5 with one extent of 200 blocks is read, block 100 moves, the
    inode is written and evicted. *)
Definition opts_on : ext_opts := {| EXTENT_CACHE := true; sb_has_readonly := false; s_list_empty := false |}.
Definition all_reg (_ : Z) : bool := true.
Definition none_compressed (_ : Z) : bool := false.
Definition kmem_ok (_ : nat) : bool := true.

Definition mounted200 : world := {|
  w_fs := f2fs_init_extent_cache_info 0; w_live := ∅;
  w_disk := fun ino => if ino =? 5 then {| x_fofs := 0; x_blk := 1000; x_len := 200 |} else no_extent;
  w_dirty := fun _ => false; w_exists := fun ino => ino =? 5; w_map := fun ino => if ino =? 5 then map200 else fun _ => None |}.

Lemma mounted200_ok : w_mounted mounted200.
Proof.
  unfold w_mounted. conjs; [by exists 0%nat|done|]. intros ino Hx. cbn in Hx |- *. rewrite Hx. intros _. split; [unfold ext_range; cbn; lia|apply map200_ok].
Qed.

#[local] Abbreviation step200 := (w_step kmem_ok opts_on all_reg none_compressed).

Lemma run200 : exists w i, rtc step200 mounted200 w /\ w_live w !! 5 = Some i /\ w_map w 5 100 = Some 5000.
Proof.
  do 2 eexists. split.
  - eapply rtc_l; [eapply (ws_iget _ _ _ _ _ 5 0); vm_compute; reflexivity|].
    eapply rtc_l; [eapply (ws_update _ _ _ _ _ 5 _ 100 5000 1); [vm_compute; reflexivity|lia..|vm_compute; reflexivity]|].
    apply rtc_refl.
  - split; vm_compute; reflexivity.
Qed.

Lemma extent_lookup_agrees_witness : exists w i, w_live w !! 5 = Some i /\ w_map w 5 100 = Some 5000 /\
  exists fs r, f2fs_lookup_extent_cache opts_on (w_fs w) i 100 = Some (fs, r) /\
    forall e, r = Some e -> fofs e <= 100 < fofs e + len e /\ w_map w 5 100 = Some (blk e + (100 - fofs e)).
Proof.
  destruct run200 as (w & i & Hr & Hi & Hm). exists w, i. split; [exact Hi|]. split; [exact Hm|].
  apply (extent_lookup_agrees kmem_ok opts_on all_reg none_compressed mounted200 w 5 i 100); [apply mounted200_ok|exact Hr|exact Hi].
Defined.

Lemma extent_calls_return_witness : exists w, total_ext_node (fs_s (w_fs w)) = Z.of_nat (length (extent_list (fs_s (w_fs w)))) /\
  rtc step200 mounted200 w.
Proof.
  destruct run200 as (w & i & Hr & Hi & Hm). exists w. split; [|exact Hr].
  apply (extent_calls_return kmem_ok opts_on all_reg none_compressed mounted200 w); [apply mounted200_ok|exact Hr].
Defined.

(** The run goes on: the inode is written and evicted, and its tree stays as a
    zombie. *)
Lemma run200_evicted : exists w, rtc step200 mounted200 w /\ w_live w !! 5 = None /\ w_exists w 5 = true /\
  zombie_list (w_fs w) = [5] /\ w_disk w 5 = {| x_fofs := 0; x_blk := 1000; x_len := 100 |}.
Proof.
  eexists. split.
  - eapply rtc_l; [eapply (ws_iget _ _ _ _ _ 5 0); vm_compute; reflexivity|].
    eapply rtc_l; [eapply (ws_update _ _ _ _ _ 5 _ 100 5000 1); [vm_compute; reflexivity|lia..|vm_compute; reflexivity]|].
    eapply rtc_l; [eapply (ws_write _ _ _ _ _ 5); vm_compute; reflexivity|].
    eapply rtc_l; [eapply (ws_evict _ _ _ _ _ 5 _ 1 false); [vm_compute; reflexivity|vm_compute; reflexivity|lia|vm_compute; reflexivity]|].
    apply rtc_refl.
  - conjs; vm_compute; reflexivity.
Qed.

Lemma page_extent_true_witness : exists w, zombie_list (w_fs w) = [5] /\ disk_ok (w_map w 5) (w_disk w 5).
Proof.
  destruct run200_evicted as (w & Hr & Hn & Hx & Hz & _). exists w. split; [exact Hz|].
  apply (page_extent_true kmem_ok opts_on all_reg none_compressed mounted200 w 5); [apply mounted200_ok|exact Hr|exact Hn|exact Hx].
Defined.

Lemma init_failure_unmarked_witness : exists fs1 i1,
  f2fs_init_extent_tree (fun _ => false) opts_on 0 (f2fs_init_extent_cache_info 0) (fresh_inode all_reg none_compressed 5)
    (Some {| x_fofs := 0; x_blk := 1000; x_len := 200 |}) = Some (fs1, i1, Some {| x_fofs := 0; x_blk := 1000; x_len := 200 |}) /\
  exists fs2, f2fs_update_extent_cache_range (fun _ => false) opts_on fs1 i1 100 5000 1 = Some (fs2, i1, false).
Proof.
  apply (init_failure_unmarked (fun _ => false) opts_on all_reg none_compressed 0 (f2fs_init_extent_cache_info 0) 5
    {| x_fofs := 0; x_blk := 1000; x_len := 200 |} 100 5000 1); try reflexivity; cbn; lia.
Defined.

(** ** Free node ids: ids 4, 5 and 6 are free in the first block, and the
    journal says that 4 is in use *)

Definition small_nat : nat_env := {|
  nat_cache := fun _ => None; get_current_nat_page := fun b => Some (fun i => if (b =? 0) && (4 <=? i) && (i <=? 6) then 0 else 1);
  nat_journal := [(4, 700)] |}.

Lemma small_journal_ok : journal_ok small_nat.
Proof. apply NoDup_singleton. Qed.

Lemma fresh_sound : @nat_sound nat_4k small_nat fresh_nm.
Proof.
  constructor; [|done|].
  - constructor; cbn; try done; [apply NoDup_nil_2|].
    intros n. split; [by intros ?%elem_of_nil|done].
  - intros b Hb. by apply elem_of_empty in Hb.
Qed.

Lemma build_free_nids_sound_witness : exists nm' ok,
  @__f2fs_build_free_nids nat_4k 3 small_nat true fresh_nm true false = Some (nm', ok) /\ nid_inv nm' /\
  (forall n, free_nid_root nm' !! n = Some PREALLOC_NID <-> free_nid_root fresh_nm !! n = Some PREALLOC_NID) /\
  (ok = true -> forall n, n ∈ free_nid_list nm' -> @truly_free nat_4k small_nat n).
Proof. apply (@build_free_nids_sound nat_4k 3 ltac:(lia) small_nat true fresh_nm true false small_journal_ok fresh_sound). Defined.

Lemma alloc_nids_distinct_witness : exists nm', @alloc_nids nat_4k 3 small_nat 2 2 true fresh_nm = Some (nm', [5; 6]) /\ NoDup [5; 6].
Proof.
  destruct (@alloc_nids nat_4k 3 small_nat 2 2 true fresh_nm) as [[nm' l]|] eqn:E; [|vm_compute in E; done].
  assert (El : l = [5; 6]) by (vm_compute in E; congruence). subst l. exists nm'. split; [reflexivity|].
  apply (@alloc_nids_distinct nat_4k 3 ltac:(lia) small_nat 2 2 true fresh_nm nm' [5; 6] small_journal_ok fresh_sound E).
Defined.

(** Two ids already on the free list. *)
Definition two_nm : f2fs_nm_info := {|
  max_nid := 3640; available_nids := 100; next_scan_nid := 0; nat_blocks := 8;
  free_nid_root := {[5 := FREE_NID; 6 := FREE_NID]}; free_nid_list := [6; 5]; cnt_free := 2;
  cnt_prealloc := 0; nat_block_bitmap := ∅; free_nid_bitmap := ∅; free_nid_count := ∅ |}.

Lemma two_sound : @nat_sound nat_4k small_nat two_nm.
Proof.
  assert (Hl : forall n st, free_nid_root two_nm !! n = Some st <-> (n = 5 \/ n = 6) /\ st = FREE_NID).
  { intros n st. cbn [two_nm free_nid_root]. rewrite lookup_insert_Some, lookup_singleton_Some. naive_solver lia. }
  constructor.
  - constructor.
    + cbn. lia.
    + by apply (bool_decide_unpack _).
    + intros n. rewrite Hl. cbn [two_nm free_nid_list]. set_solver.
    + intros n st [Hn _]%Hl. cbn. lia.
    + done.
    + vm_compute. reflexivity.
  - intros n [Hn _]%Hl. split; [done|]. split.
    + unfold journaled. cbn. rewrite list_elem_of_singleton. lia.
    + intros _. eexists. split; [reflexivity|]. destruct Hn as [->| ->]; vm_compute; reflexivity.
  - intros b Hb. by apply elem_of_empty in Hb.
Qed.

Lemma alloc_nids_fifo_witness : exists nm', @alloc_nids nat_4k 3 small_nat 2 1 true two_nm = Some (nm', [6; 5]) /\
  free_nid_list nm' = [] /\ available_nids nm' = 98.
Proof. apply (@alloc_nids_fifo nat_4k 3 ltac:(lia) small_nat 2 0 true two_nm small_journal_ok two_sound); cbn; lia. Defined.

Lemma alloc_nid_release_witness : exists nm' nid nm1, @f2fs_alloc_nid nat_4k 3 2 small_nat true fresh_nm = Some (nm', Some nid) /\
  f2fs_alloc_nid_done nm' nid = Some nm1.
Proof.
  destruct (@f2fs_alloc_nid nat_4k 3 2 small_nat true fresh_nm) as [[nm' [nid|]]|] eqn:E; [|vm_compute in E; done|vm_compute in E; done].
  destruct (@alloc_nid_release nat_4k 3 ltac:(lia) small_nat 2 true fresh_nm nm' nid small_journal_ok fresh_sound E) as [(nm1 & E1 & _) _].
  exists nm', nid, nm1. split; [reflexivity|exact E1].
Defined.

(** A table with one entry per block, and ten free ids: two more than stay. *)
Definition nat_tiny : NatFormat.
Proof. refine {| NAT_ENTRY_PER_BLOCK := 1; NULL_ADDR := 0; NEW_ADDR := 4294967295 |}; lia. Defined.

Definition ten_nm : f2fs_nm_info := {|
  max_nid := 20; available_nids := 100; next_scan_nid := 0; nat_blocks := 20;
  free_nid_root := list_to_map ((fun n => (n, FREE_NID)) <$> seqZ 1 10); free_nid_list := seqZ 1 10; cnt_free := 10;
  cnt_prealloc := 0; nat_block_bitmap := ∅; free_nid_bitmap := ∅; free_nid_count := ∅ |}.

Lemma ten_inv : nid_inv ten_nm.
Proof.
  assert (Hl : forall n st, free_nid_root ten_nm !! n = Some st <-> n ∈ seqZ 1 10 /\ st = FREE_NID).
  { intros n st. cbn [ten_nm free_nid_root]. rewrite <-elem_of_list_to_map.
    - rewrite list_elem_of_fmap. naive_solver.
    - rewrite <-list_fmap_compose. cbn. rewrite list_fmap_id. apply NoDup_seqZ. }
  constructor.
  - cbn. lia.
  - apply NoDup_seqZ.
  - intros n. rewrite Hl. cbn [ten_nm free_nid_list]. naive_solver.
  - intros n st [Hn _]%Hl. apply elem_of_seqZ in Hn. cbn. lia.
  - done.
  - vm_compute. reflexivity.
Qed.

Lemma try_to_free_nids_exact_witness : exists nm' n,
  @f2fs_try_to_free_nids nat_tiny true ten_nm 5 = Some (nm', n) /\ nid_inv nm' /\
  n = Z.max 0 (Z.min 5 (cnt_free ten_nm - @MAX_FREE_NIDS nat_tiny)) /\
  free_nid_list nm' = drop (Z.to_nat n) (free_nid_list ten_nm) /\
  (forall i, free_nid_root nm' !! i = Some PREALLOC_NID <-> free_nid_root ten_nm !! i = Some PREALLOC_NID).
Proof. apply (@try_to_free_nids_exact nat_tiny true ten_nm 5); [apply ten_inv|lia]. Defined.
