(* ===== verification/DirWitnesses.v ===== *)
(** * Concrete instances for directories, orphans and checkpoint packs

    Each lemma named after a theorem on directories, orphan inodes or checkpoint
    packs applies it to concrete data, with the constants of the format. *)

From S2P Require Import Prelude.
From S2P Require Import Hash.
From S2P Require Import DirName.
From S2P Require Import DentryBlock.
From S2P Require Import Directory.
From S2P Require Import DirLevels.
From S2P Require Import DirProps.
From S2P Require Import DirOps.
From S2P Require Import DirRefine.
From S2P Require Import DirSystem.
From S2P Require Import DirList.
From S2P Require Import InoEntry.
From S2P Require Import Orphan.
From S2P Require Import CpPack.

(** ** Directories of 4 KiB blocks *)

Definition dir_4k : DirFormat.
Proof.
  refine {| F2FS_SLOT_LEN := 8; GET_DENTRY_SLOTS := fun n => (n + 8 - 1) / 8; F2FS_NAME_LEN := 255; NR_DENTRY_IN_BLOCK := 214;
            MAX_DIR_HASH_DEPTH := 63; MAX_DIR_BUCKETS := 2 ^ 30;
            FT_REG_FILE := 1; FT_DIR := 2; FT_CHRDEV := 3; FT_BLKDEV := 4; FT_FIFO := 5; FT_SOCK := 6; FT_SYMLINK := 7; FT_MAX := 8 |}.
  - intros n Hn. pose proof (Z.div_mod (n + 8 - 1) 8 ltac:(lia)). pose proof (Z.mod_pos_bound (n + 8 - 1) 8 ltac:(lia)). lia.
  - lia.
  - lia.
  - vm_compute. discriminate.
  - lia.
  - lia.
  - reflexivity.
  - split; [repeat constructor; lia|]. split; [by apply (bool_decide_unpack _)|lia].
Defined.
#[local] Existing Instance dir_4k.

(** Names folded as ASCII, and the parts that directories without encryption use. *)
Definition ascii_lower (b : Z) : Z := if (65 <=? b) && (b <=? 90) then b + 32 else b.
Definition ascii_fold (n : list Z) : Z + list Z := inr (ascii_lower <$> n).
Definition ascii_cmp (c n : list Z) : Z := if decide (c = ascii_lower <$> n) then 0 else 1.
Definition dot_names (n : list Z) (len : Z) : bool := bool_decide (n = [46] \/ n = [46; 46]).
Definition plain_setup (n : list Z) (lookup : bool) : Z + fscrypt_name :=
  inr {| fs_usr_fname := n; fs_disk_name := n; is_nokey_name := false; fs_hash := 0 |}.
Definition plain_match (a b : list Z) : bool := bool_decide (a = b).
Definition no_key (n : list Z) : Z + list Z := inl (-126).
Definition folded_dir : dir_props := {| casefolded := true; dir_encrypted := false; has_key := false; strict_encoding := false |}.

Definition ascii_set_up : dir_filename -> Prop := set_up (2 ^ 63) dot_names (fun _ => 0) ascii_fold plain_setup folded_dir.
Definition ascii_match : dir_filename -> list Z -> Z := f2fs_match_name ascii_cmp no_key plain_match folded_dir true.

Lemma ascii_lower_idem b : ascii_lower (ascii_lower b) = ascii_lower b.
Proof.
  assert (Hid : forall x, ~ (65 <= x <= 90) -> ascii_lower x = x).
  { intros x Hx. unfold ascii_lower. destruct (Z.leb_spec 65 x), (Z.leb_spec x 90); done || lia. }
  destruct (decide (65 <= b <= 90)) as [Hb|Hb]; [|by rewrite (Hid b Hb), (Hid b Hb)].
  apply Hid. unfold ascii_lower. destruct (Z.leb_spec 65 b), (Z.leb_spec b 90); cbn [andb]; lia.
Qed.
Lemma dot_names_spec n : dot_names n (Z.of_nat (length n)) = true <-> n = [46] \/ n = [46; 46].
Proof. apply bool_decide_eq_true. Qed.
Lemma plain_match_spec a b : plain_match a b = true <-> a = b.
Proof. apply bool_decide_eq_true. Qed.
Lemma ascii_cmp_spec c n : c <> [] -> ascii_cmp c n = 0 <-> ascii_fold n = inr c.
Proof. intros _. unfold ascii_cmp, ascii_fold. case_decide as Hc; [subst|]; split; congruence. Qed.
Lemma ascii_fold_idem n c : ascii_fold n = inr c -> ascii_fold c = inr c.
Proof.
  intros [= <-]. unfold ascii_fold. rewrite <-list_fmap_compose. f_equal. apply list_fmap_ext. intros i b _. apply ascii_lower_idem.
Qed.

#[local] Instance ascii_matching : NameMatching ascii_match.
Proof.
  apply (plain_matching (2 ^ 63) dot_names (fun _ => 0) ascii_fold ascii_cmp plain_setup no_key plain_match folded_dir eq_refl
    dot_names_spec (fun n l => eq_refl) plain_match_spec ascii_cmp_spec ascii_fold_idem (conj eq_refl eq_refl)).
Defined.

(** The file "Log", and a request for "LOG". *)
Definition ascii_name (n : list Z) : dir_filename :=
  match f2fs_setup_filename (2 ^ 63) dot_names (fun _ => 0) ascii_fold plain_setup folded_dir true n true with
  | Some (inr f) => f
  | _ => {| fname := {| usr_fname := []; disk_name := []; cf_name := None |}; fhash := 0 |}
  end.
Definition log_name : dir_filename := ascii_name [76; 111; 103].
Definition LOG_name : dir_filename := ascii_name [76; 79; 71].

Lemma log_set_up : ascii_set_up log_name.
Proof. exists true, [76; 111; 103], true. split; [intros E; by vm_compute in E|by vm_compute]. Qed.
Lemma LOG_set_up : ascii_set_up LOG_name.
Proof. exists true, [76; 79; 71], true. split; [intros E; by vm_compute in E|by vm_compute]. Qed.

Lemma match_same_hash_witness : ascii_match LOG_name [76; 111; 103] = 1 /\ fhash LOG_name = fhash log_name.
Proof.
  split; [vm_compute; reflexivity|].
  apply (match_same_hash (2 ^ 63) dot_names (fun _ => 0) ascii_fold ascii_cmp plain_setup no_key plain_match folded_dir eq_refl
    dot_names_spec (fun n l => eq_refl) plain_match_spec ascii_cmp_spec ascii_fold_idem (conj eq_refl eq_refl) true LOG_name log_name).
  - apply LOG_set_up.
  - apply log_set_up.
  - vm_compute. reflexivity.
Defined.

(** ** Hash levels *)

Lemma dir_buckets_disjoint_witness : dir_block_index 3 0 5 = 24 /\ (3 = 3 /\ 5 = 5).
Proof.
  split; [vm_compute; reflexivity|].
  apply (dir_buckets_disjoint 0 3 5 3 5 25); vm_compute; split; (reflexivity || discriminate).
Defined.

Lemma dir_block_index_wraps_witness : dir_block_index 32 0 7 = dir_block_index 31 0 7.
Proof. apply (dir_block_index_wraps 0 31 7); [reflexivity|lia|lia]. Defined.

(** ** A directory in its inode, with a file *)

(** No read fails; blocks can be allocated below [2 ^ 31]. *)
Definition quiet_env : dir_env :=
  {| env_io := fun _ => None; env_ipage := None; env_alloc := fun i => if decide (0 <= i < 2 ^ 31) then None else Some (- ENOSPC); current := 7 |}.
Definition quiet_conv : conv_env := {| conv_err := None; conv_old := zero_block NR_DENTRY_IN_BLOCK |}.

Lemma quiet_env_ok : env_ok quiet_env.
Proof.
  split; [done|]. split; [intros i; cbn; by case_decide|]. split; [|done]. intros i err. cbn. case_decide; [done|]. intros [= <-]. unfold ENOSPC, EAGAIN. lia.
Qed.
Lemma quiet_conv_ok : conv_ok quiet_conv.
Proof. split; [reflexivity|]. by split. Qed.

Lemma make_empty_dir_spec_witness : exists dir,
  make_empty_dir quiet_env 3488 (new_dir 0 (Some 182%nat)) 3 16877 2 16877 = Some (dir, 0) /\
  dir_rep ascii_match dir (dots_map ascii_match 3 16877 2 16877) /\ f2fs_empty_dir quiet_env dir = true.
Proof.
  apply (make_empty_dir_spec ascii_match quiet_env 3488 0 (Some 182%nat) 3 16877 2 16877); try reflexivity; try lia.
  intros n [= <-]. cbn. lia.
Defined.

(** The directory the theorems below start from. *)
Definition home_dir : dir_inode := default (new_dir 0 None) (fst <$> make_empty_dir quiet_env 3488 (new_dir 0 (Some 182%nat)) 3 16877 2 16877).

Lemma home_dir_rep : dir_rep ascii_match home_dir (dots_map ascii_match 3 16877 2 16877) /\ dots_at home_dir.
Proof.
  destruct (make_empty_dir_rep ascii_match quiet_env 3488 0 (Some 182%nat) 3 16877 2 16877) as (dir & E & Hrep); try reflexivity; try lia.
  { intros n [= <-]. cbn. lia. }
  unfold home_dir. rewrite E. exact Hrep.
Qed.

Lemma empty_dir_iff_witness :
  f2fs_empty_dir quiet_env home_dir = true <->
  dom (dots_map ascii_match 3 16877 2 16877) = {[canon (match_name := ascii_match) dot; canon (match_name := ascii_match) dotdot]}.
Proof.
  apply (empty_dir_iff ascii_match quiet_env home_dir); [apply home_dir_rep|apply home_dir_rep|reflexivity|reflexivity].
Defined.

(** A reader that stops after each entry, and one that reads to the end. *)
Lemma readdir_shows_all_witness : exists ctx,
  readdir_calls false (fun _ n => inr n) ([fun l _ => (length l <? 1)%nat] ++ [fun _ _ => true]) quiet_env home_dir {| ctx_pos := 0; emitted := [] |} false = Some (ctx, false) /\
  emitted ctx ≡ₚ (user_ent e_name <$> (map_to_list (dots_map ascii_match 3 16877 2 16877)).*2).
Proof.
  apply (readdir_shows_all ascii_match false (fun _ n => inr n) e_name [fun l _ => (length l <? 1)%nat] quiet_env home_dir); try reflexivity.
  - apply home_dir_rep.
  - intros l e _. reflexivity.
  - split; [cbn; lia|]. split; [vm_compute; reflexivity|]. intros d E. assert (dmax d = 182%nat) as -> by (vm_compute in E; injection E as <-; reflexivity). lia.
Defined.

(** Create "Log", look up "LOG", replace its inode, and remove it. *)
Definition log_ops : list dir_op :=
  [AddLink quiet_env quiet_conv log_name 9 33188 None; Lookup quiet_env LOG_name; SetLink quiet_env LOG_name 11 33188; Unlink quiet_env log_name false].

Lemma dir_history_refines_witness : exists h dir' m',
  h.*1 = log_ops /\ dir_run ascii_match 3488 home_dir h dir' /\ spec_run ascii_match (dots_map ascii_match 3 16877 2 16877) h m' /\ dir_rep ascii_match dir' m'.
Proof.
  apply (dir_history_refines ascii_match 3488 ltac:(lia) log_ops home_dir); [apply home_dir_rep|].
  apply hist_cons.
  - split; [apply quiet_env_ok|]. split; [apply quiet_conv_ok|]. split; [apply log_set_up|]. split; [split; vm_compute; (reflexivity || discriminate)|].
    split; [done|]. split; [done|]. intros E. vm_compute in E. discriminate.
  - intros dir1 r1 m1 _ _ _. apply hist_cons; [split; [apply quiet_env_ok|apply LOG_set_up]|].
    intros dir2 r2 m2 _ _ _. apply hist_cons; [split; [apply quiet_env_ok|apply LOG_set_up]|].
    intros dir3 r3 m3 _ _ _. apply hist_cons; [split; [apply quiet_env_ok|apply log_set_up]|].
    intros dir4 r4 m4 _ _ _. apply hist_nil.
Defined.

(** ** Orphans *)

Definition orphan_4k : OrphanFormat.
Proof. refine {| F2FS_ORPHANS_PER_BLOCK := 1020; GET_ORPHAN_BLOCKS := fun n => (n + 1020 - 1) / 1020 |}; [lia|reflexivity]. Defined.
#[local] Existing Instance orphan_4k.

(** 1500 orphans: a full block and a part of another. *)
Definition many_orphans : list Z := seqZ 100 1500.
Definition orphan_im : ino_mgmt :=
  set_im f2fs_init_ino_entry_info ORPHAN_INO {| ino_root := gset_to_gmap ∅ (list_to_set many_orphans); ino_list := many_orphans; ino_num := 1500 |}.

Lemma orphan_im_inv : ino_inv 2000 orphan_im 0.
Proof.
  unfold orphan_im, set_im, f2fs_init_ino_entry_info, many_orphans. constructor; try lia.
  - intros t. destruct (decide (t = ORPHAN_INO)); cbn [ino_list no_inos]; [apply NoDup_seqZ|constructor].
  - intros t ino. destruct (decide (t = ORPHAN_INO)); cbn [ino_root ino_list no_inos]; [|rewrite lookup_empty, elem_of_nil; split; [by intros [? ?]|done]].
    rewrite <-elem_of_dom, dom_gset_to_gmap, elem_of_list_to_set. done.
  - intros t. destruct (decide (t = ORPHAN_INO)); cbn [ino_num ino_list no_inos]; [rewrite length_seqZ; lia|done].
  - rewrite decide_True by done. cbn [ino_num]. lia.
  - intros t. destruct (decide (t = ORPHAN_INO)); cbn [ino_num no_inos]; lia.
Qed.

Lemma orphans_recovered_witness :
  f2fs_recover_orphan_inodes (fun _ => 0) true false 512 (1 + 0 + GET_ORPHAN_BLOCKS (ino_num (orphan_im ORPHAN_INO))) 0
    (fun i => match write_orphan_inodes orphan_im (512 + 1 + 0) ∅ !! i with Some b => inr b | None => inl (-5) end) =
  (ino_list (orphan_im ORPHAN_INO), 0, false).
Proof.
  apply (orphans_recovered orphan_im (fun _ => 0) ∅ 512 0 2000).
  - apply orphan_im_inv.
  - change (ino_list (orphan_im ORPHAN_INO)) with many_orphans. apply list.Forall_forall. intros i Hi%elem_of_seqZ. lia.
  - lia.
  - reflexivity.
Defined.

(** A file is created, its name removed while it is open, and freed; another one is made
    without a name; the creations of a directory and of a file fail, the directory has got
    a block already. *)
Definition unlink_ops : list link_op := [NewInode 9 false 0 None; Drop 9 1; Tmpfile 10 0 None; NewInode 11 true (-28) (Some 700); NewInode 12 false (-28) (Some 0); FreeInode 9].
Definition after_op (st : link_state) (op : link_op) : link_state := default st (fst <$> link_exec 100 0 st op).
Definition unlinked : link_state := foldl after_op link_init unlink_ops.

Lemma orphans_exact_witness : ino_list (im unlinked ORPHAN_INO) = [10; 11] /\ SBI_NEED_FSCK unlinked = false /\ (11 ∈ ino_list (im unlinked ORPHAN_INO) <-> nlinks unlinked !! 11 = Some 0 /\ 11 ∉ FI_FREE_NID unlinked).
Proof.
  split; [vm_compute; reflexivity|]. split; [vm_compute; reflexivity|].
  apply (orphans_exact 100 0 ltac:(lia) unlink_ops unlinked); [|vm_compute; reflexivity].
  eapply lrun_cons; [split; [vm_compute; reflexivity|lia]|vm_compute; reflexivity|].
  eapply lrun_cons; [exists 1; split; [vm_compute; reflexivity|lia]|vm_compute; reflexivity|].
  do 3 (eapply lrun_cons; [split; [vm_compute; reflexivity|lia]|vm_compute; reflexivity|]).
  eapply lrun_cons; [exact I|vm_compute; reflexivity|]. apply lrun_nil.
Defined.

(** ** Checkpoint packs: blocks of 4 KiB, segments of 2 MiB *)

Definition cp_4k : CpFormat.
Proof.
  refine {| OFF_VER := 0; OFF_TOTAL := 136; OFF_CKSUM := 164; CP_MIN_CHKSUM_OFFSET := 192; CP_CHKSUM_OFFSET := 4092; F2FS_BLKSIZE := 4096;
            F2FS_SUPER_MAGIC := 4076150800 |}; lia.
Defined.
#[local] Existing Instance cp_4k.

Definition sum_crc (s : Z) (bs : list Z) : Z := foldl (fun c b => (c * 31 + b) mod 2 ^ 32) (s mod 2 ^ 32) bs.
Lemma sum_crc_range s bs : 0 <= sum_crc s bs < 2 ^ 32.
Proof.
  unfold sum_crc. generalize (Z.mod_pos_bound s (2 ^ 32) ltac:(lia)). generalize (s mod 2 ^ 32). induction bs as [|b bs IH]; intros c Hc; [done|].
  apply IH, Z.mod_pos_bound. lia.
Qed.

(** Version 5 is in the first pack; version 6 is being written to the second one
    when the machine stops: its first block is written, the last one is torn. *)
Definition cp_ver (v : Z) : block := put_le 8 OFF_VER v (put_le 4 OFF_CKSUM 4092 (replicate 4096 0)).
Definition cp_disk (a : Z) : block := if (a =? 512) || (a =? 514) then seal_checkpoint sum_crc (cp_ver 5) 3 else [].
Definition first_written (i : nat) : written := match i with O => New | _ => Old end.

Lemma cp_disk_stale a w : 1024 <= a < 1536 -> cp_check sum_crc (cp_disk a) = Some w -> 0 <= w < 5.
Proof.
  intros Ha. unfold cp_disk. destruct (Z.eqb_spec a 512), (Z.eqb_spec a 514); [lia..|]. intros E. vm_compute in E. discriminate.
Qed.

Lemma checkpoint_crash_safe_witness :
  f2fs_get_valid_checkpoint sum_crc (fun _ => false) 512 512 9 0
    (readable (crash_disk cp_disk 1024 (pack_blocks sum_crc (cp_ver 6) [] [] [[1]; [2]] []) first_written (Torn [7]))) = inr (1, cp_disk 512 ++ []).
Proof.
  apply (checkpoint_crash_safe sum_crc sum_crc_range (fun _ => false) 512 9 1 cp_disk (cp_ver 6) [] [] [[1]; [2]] [] first_written (Torn [7]) (cp_disk 512) 5).
  - by left.
  - lia.
  - lia.
  - vm_compute. reflexivity.
  - vm_compute. reflexivity.
  - reflexivity.
  - split; [vm_compute; reflexivity|]. vm_compute. split; discriminate.
  - vm_compute. reflexivity.
  - lia.
  - vm_compute. reflexivity.
  - vm_compute. reflexivity.
  - apply cp_disk_stale.
  - intros [|i] t; discriminate.
  - intros t [= <-]. vm_compute. reflexivity.
  - discriminate.
Defined.
