(* ===== verification/NatWitnesses.v ===== *)
(** * Concrete runs of the node address table *)

From S2P Require Import Prelude FreeNid NatCache NatFlush NatProps NatSystem.

(** Four entries per block; a journal of one record; ids 3 to 19. *)
#[local] Instance nat_small : NatFormat.
Proof. refine {| NAT_ENTRY_PER_BLOCK := 4; NULL_ADDR := 0; NEW_ADDR := 4294967295 |}; lia. Defined.

(** After a mount: the cache is empty, the journal says that node 5 was removed, and
    the blocks give every node the address 100. *)
Definition empty_nats : nat_cache_info := {| nat_root := ∅; nat_entries := []; nat_set_root := ∅; TOTAL_NAT := 0; DIRTY_NAT := 0; RECLAIMABLE_NAT := 0 |}.
Definition mounted_nids : f2fs_nm_info := {|
  max_nid := 20; available_nids := 17; next_scan_nid := 0; nat_blocks := 5; free_nid_root := ∅; free_nid_list := []; cnt_free := 0;
  cnt_prealloc := 0; nat_block_bitmap := ∅; free_nid_bitmap := ∅; free_nid_count := ∅ |}.
Definition mounted_disk : nat_disk := {|
  nat_bitmap := ∅; n_journal := [(5, {| ne_ino := 5; block_addr := 0; version := 3 |})];
  meta := fun _ _ => {| ne_ino := 7; block_addr := 100; version := 0 |}; meta_dirty := ∅; full_nat_bits := ∅; empty_nat_bits := ∅; cp_error := false |}.
Definition mounted : nat_sys := {| cache := empty_nats; nids := mounted_nids; disk := mounted_disk |}.

Notation nat_table := (table 1024 9).
Notation small_exec := (nat_exec 1 1024 9 3 false (fun _ => true) 4294967294).
Notation small_flush := (f2fs_flush_nat_entries 1 1024 9 3 false).
Definition no_error : Z -> option Z := fun _ => None.

Lemma mounted_nat_inv : nat_inv 1 1024 9 3 20 mounted.
Proof.
  assert (Hnone : forall (A : Type) (n : Z) (e : A), (∅ : gmap Z A) !! n = Some e -> False) by (intros A n e E; by rewrite lookup_empty in E).
  split; [constructor|].
  - constructor; try (intros n e E; by apply Hnone in E); try done. constructor; try done; cbn.
    + constructor.
    + intros n. split; [intros Hn; set_solver|intros (e & E & _); by apply Hnone in E].
    + intros b. unfold set_list. cbn. rewrite lookup_empty. constructor.
    + intros b n. unfold set_list. cbn. rewrite lookup_empty. split; [intros Hn; set_solver|intros (_ & e & E & _); by apply Hnone in E].
  - constructor; cbn; try lia; try done; [constructor|intros n; rewrite lookup_empty; set_solver].
  - done.
  - constructor; cbn; [by apply (bool_decide_unpack _)|lia| |].
    + intros n r. unfold journal_get. cbn [list_to_map foldr]. rewrite insert_empty, lookup_singleton_Some. intros [<- <-]. cbn. lia.
    + intros n Hn. cbn. lia.
  - intros b Hb. cbn in Hb. by rewrite lookup_empty in Hb.
  - intros _. split; [intros x b Hx; cbn in Hx; set_solver|]. intros n e E. by apply Hnone in E.
Qed.

Lemma mounted_clean : copies_clean 1024 9 mounted_disk.
Proof. intros x b Hx. cbn in Hx. set_solver. Qed.

Lemma nat_checkpoint_atomic_witness : exists st' err, small_flush true no_error mounted = Some (st', err) /\
  forall written, nat_table (crashed (disk mounted) (disk st') written) 5 = nat_table (disk mounted) 5.
Proof.
  destruct (nat_checkpoint_atomic 1 1024 9 ltac:(lia) 3 20 ltac:(lia) false true no_error mounted (ns_sys _ _ _ _ _ _ mounted_nat_inv) mounted_clean ltac:(done)) as (st' & err & E & _ & _ & Hc & _).
  exists st', err. split; [exact E|]. intros written. apply Hc. lia.
Defined.

(** Node 7 is read, moves to block 200, a checkpoint writes the table, and it is read again. *)
Definition move_history : list nat_op :=
  [GetInfo no_error true 7; SetAddr 7 {| ne_ino := 7; block_addr := 100; version := 0 |} 200 false; Checkpoint false no_error; Shrink true 10; GetInfo no_error true 7].

Lemma move_history_ok : nat_history_ok 1 1024 9 3 20 false (fun _ => true) 4294967294 mounted move_history.
Proof.
  unfold move_history. cbn [nat_history_ok]. split; [cbn; lia|]. intros st1 r1 E1. vm_compute in E1. injection E1 as <- <-.
  split; [cbn -[truly_free]; repeat split; try lia; done|]. intros st2 r2 E2. vm_compute in E2. injection E2 as <- <-.
  split; [done|]. intros st3 r3 E3. vm_compute in E3. injection E3 as <- <-.
  split; [done|]. intros st4 r4 E4. vm_compute in E4. injection E4 as <- <-. split; [cbn; lia|done].
Qed.

Lemma nat_history_refines_witness : exists st' rs, nat_run 1 1024 9 3 false (fun _ => true) 4294967294 mounted move_history = Some (st', rs) /\ nat_inv 1 1024 9 3 20 st' /\
  exists T', table_run (fun _ => true) (nat_view 1024 9 mounted) move_history T' rs.
Proof.
  destruct (nat_history_refines 1 1024 9 ltac:(lia) 3 20 ltac:(lia) false (fun _ => true) 4294967294 move_history mounted (nat_view 1024 9 mounted) mounted_nat_inv ltac:(done) move_history_ok)
    as (st' & T' & rs & E & Hi & _ & Hr).
  exists st', rs. split; [exact E|]. split; [exact Hi|]. exists T'. exact Hr.
Defined.

(** The removed node 5 is used again and has no block yet. *)
Definition reuse : nat_op := SetAddr 5 {| ne_ino := 5; block_addr := 0; version := 3 |} 4294967295 false.
Definition preallocated : nat_sys := default mounted (fst <$> small_exec mounted reuse).
Lemma preallocated_inv : nat_inv 1 1024 9 3 20 preallocated.
Proof.
  destruct (nat_exec_refines 1 1024 9 ltac:(lia) 3 20 ltac:(lia) false (fun _ => true) 4294967294 mounted (nat_view 1024 9 mounted) reuse mounted_nat_inv ltac:(done)) as (st' & T' & r & E & Hi & _).
  { cbn -[truly_free]. repeat split; try lia; try done; [intros _; left|intros Hn; destruct Hn; left]. }
  unfold preallocated. by rewrite E.
Qed.
Lemma preallocated_record_lost_witness : nat_table (disk preallocated) 5 = {| ne_ino := 5; block_addr := 0; version := 3 |} /\
  exists st' err, small_flush true no_error preallocated = Some (st', err) /\ block_addr (nat_table (disk st') 5) = 100.
Proof.
  destruct (preallocated_record_lost 1 1024 9 ltac:(lia) 3 20 ltac:(lia) false no_error preallocated 5 {| ne_ino := 5; block_addr := 0; version := 3 |} (ns_sys _ _ _ _ _ _ preallocated_inv)) as (E & st' & err & Ef & Et);
    [intros x b Hx; vm_compute in Hx; set_solver|done|lia|vm_compute; reflexivity|vm_compute; reflexivity|].
  split; [exact E|]. exists st', err. split; [exact Ef|]. rewrite Et. vm_compute. reflexivity.
Defined.
