(* ===== verification/SegWitnesses.v ===== *)
(** * Concrete runs of the segment manager *)

From S2P Require Import Prelude FreeNid NatCache SegBitmap SegState SegAlloc SegInv SegLists SegCur SegSwitch SegVictim SegVictimProps SegBlocks SegData SegDiscard SegFlush SegFlushProps SegSums SegMount SegTable SegRestore SegTouch SegCkpt SegSystem SegMountProps SegRemount.

(** ** Conditions decided by evaluation *)

Definition disk_fitb `{F : SitFormat} (d : sit_disk) : bool :=
  forallb (fun g => let e := disk_entry d g in (0 <=? GET_SIT_TYPE (vblocks e)) && (GET_SIT_TYPE (vblocks e) <? 6) && (0 <=? vblocks e) && (vblocks e <? 65536) && forallb (fun o => (0 <=? o) && (o <? blks_per_seg)) (elements (valid_map e))) (seqZ 0 MAIN_SEGS)
  && bool_decide (NoDup (s_journal d).*1) && forallb (fun k => 0 <=? k) (s_journal d).*1.
Lemma disk_fit_eval `{F : SitFormat} d : disk_fitb d = true -> disk_fit d.
Proof.
  unfold disk_fitb. intros Hb. apply andb_true_iff in Hb as [Hb Hk]. apply andb_true_iff in Hb as [Hb Hn]. apply bool_decide_eq_true in Hn. rewrite forallb_forall in Hb, Hk.
  assert (Hg : forall g, 0 <= g < MAIN_SEGS -> let e := disk_entry d g in 0 <= GET_SIT_TYPE (vblocks e) < 6 /\ 0 <= vblocks e < 65536 /\ forall o, o ∈ valid_map e -> 0 <= o < blks_per_seg).
  { intros g Hg. specialize (Hb g ltac:(apply list_elem_of_In, elem_of_seqZ; lia)). cbv zeta in *. rewrite !andb_true_iff, forallb_forall in Hb. destruct Hb as [[[[Hb1 Hb2] Hb3] Hb4] Hb5]. split; [lia|]. split; [lia|]. intros o Ho. specialize (Hb5 o ltac:(by apply list_elem_of_In, elem_of_elements)). lia. }
  constructor; [intros g Hr; by apply Hg..|intros g o Hr; by apply Hg|done|]. intros k Hkin. specialize (Hk k ltac:(by apply list_elem_of_In)). lia.
Qed.
Definition validb (s : seg_sys) (g o : Z) : bool := match sentries (sit s) !! g with Some se => bool_decide (o ∈ cur_valid_map se) | None => false end.
Lemma valid_eval s g o : validb s g o = true -> valid_at s g o.
Proof. unfold validb. destruct (sentries (sit s) !! g) as [se|] eqn:E; [|done]. intros Hb%bool_decide_eq_true. by exists se. Qed.

(** ** A small file system *)

(** Twelve segments of four blocks, one per section; a table of one block. *)
#[local] Instance seg_nats : NatFormat.
Proof. refine {| NAT_ENTRY_PER_BLOCK := 4; NULL_ADDR := 0; NEW_ADDR := 4294967295 |}; lia. Defined.
#[local] Instance seg_small : SegGeometry.
Proof.
  refine {| log_blocks_per_seg := 2; segs_per_sec := 1; secs_per_zone := 1; MAIN_SECS := 12; SEG0_BLKADDR := 512; start_segno := 8; ssa_blkaddr := 400; COMPRESS_ADDR := 4294967294 |}; try lia.
  intros a Ha. unfold __is_valid_data_blkaddr. cbn in *. destruct (Z.eqb_spec a 4294967295), (Z.eqb_spec a 0), (Z.eqb_spec a 4294967294); cbn; lia || done.
Defined.
Lemma vblocks_joined : forallb (fun t => forallb (fun v => ((u16 (Z.lor (Z.shiftl t 10) v)) mod 2 ^ 10 =? v) && ((u16 (Z.lor (Z.shiftl t 10) v)) / 2 ^ 10 =? t)) (seqZ 0 513)) (seqZ 0 6) = true.
Proof. vm_compute. done. Qed.
Lemma vblocks_split v : 0 <= v < 65536 -> u16 (Z.lor (Z.shiftl (v / 2 ^ 10) 10) (v mod 2 ^ 10)) = v.
Proof.
  intros Hv. assert (E : Z.lor (Z.shiftl (v / 2 ^ 10) 10) (v mod 2 ^ 10) = v).
  { apply Z.bits_inj'. intros i Hi. rewrite Z.lor_spec, Z.shiftl_spec by lia. rewrite <-Z.shiftr_div_pow2 by lia. destruct (Z.lt_ge_cases i 10).
    - rewrite Z.testbit_neg_r by lia. by rewrite Z.mod_pow2_bits_low.
    - rewrite Z.shiftr_spec, Z.mod_pow2_bits_high, orb_false_r by lia. f_equal. lia. }
  rewrite E. apply Z.mod_small. lia.
Qed.
(** The table of a file system of at most 40 segments. *)
Definition sit_format `{SegGeometry} (Hn : MAIN_SECS * segs_per_sec <= 40) : SitFormat.
Proof.
  refine {| SIT_VBLOCKS_SHIFT := 10; GET_SIT_VBLOCKS := fun v => v mod 2 ^ 10; GET_SIT_TYPE := fun v => v / 2 ^ 10; SIT_ENTRY_PER_BLOCK := 55; SIT_JOURNAL_ENTRIES := 6; sit_base_addr := 100; sit_blocks := 2; TOTAL_SEGS := 40 |}; try lia.
  - intros t v Ht Hv. pose proof vblocks_joined as Hf. rewrite forallb_forall in Hf. specialize (Hf t ltac:(apply list_elem_of_In, elem_of_seqZ; unfold NR_PERSISTENT_LOG in Ht; lia)). rewrite forallb_forall in Hf. specialize (Hf v ltac:(apply list_elem_of_In, elem_of_seqZ; lia)). apply andb_true_iff in Hf as [H1%Z.eqb_eq H2%Z.eqb_eq]. done.
  - intros v Hv. by apply vblocks_split.
Defined.
#[local] Instance sit_small : SitFormat.
Proof. apply sit_format. cbn. lia. Defined.
#[local] Instance sum_small : SumFormat.
Proof. refine {| PAGE_SIZE := 4096; SUM_JOURNAL_SIZE := 507; SUMMARY_SIZE := 7; SUM_FOOTER_SIZE := 5 |}; lia. Defined.

(** The table: segment 1 has two blocks, 6 one hole, 7 is full, 8 has one block of nodes by
    the journal. *)
Definition raw (t : Z) (m : gset Z) : f2fs_sit_entry := {| vblocks := Z.lor (Z.shiftl t 10) (Z.of_nat (size m)); valid_map := m; raw_mtime := 5 |}.
Definition w_page (i : Z) : f2fs_sit_entry := if i =? 1 then raw 1 {[0; 1]} else if i =? 6 then raw 0 {[0; 2; 3]} else if i =? 7 then raw 2 {[0; 1; 2; 3]} else if i <? 6 then raw i ∅ else raw 0 ∅.
Definition w_disk : sit_disk := {| sit_bitmap := ∅; s_journal := [(8, raw 3 {[1]})]; sit_meta := fun a i => if a =? 100 then w_page i else zero_sit; need_fsck := false |}.
(** The logs are in the first six segments, the one of warm data behind its two blocks. *)
Definition w_cp : cp_info := {|
  cur_segno := fun t => t; cur_blkoff := fun t => if t =? 1 then 2 else 0; cp_alloc_type := fun _ => LFS; valid_node_count := 1; start_cp_addr := 10; cp_pack_start_sum := 1; cp_pack_total_block_count := 8;
  CP_COMPACT_SUM_FLAG := true; exist_node_summaries := true; CP_TRIMMED_FLAG := false; cp_disabled := false |}.
Definition w_env : mount_env := {| meta_readable := fun _ => true; pack := fun a o => {| sum_nid := a; sum_version := 0; ofs_in_node := o |}; ssa_pages := fun a o => {| sum_nid := a; sum_version := 0; ofs_in_node := o |}; node_readable := fun _ => true; footer_nid := fun a => a; now := 9 |}.
Definition w_vict : victim_info := {| victim_secmap := ∅; last_victim := fun _ => 0; cur_victim_sec := NULL_SEGNO; next_victim_seg := fun _ => NULL_SEGNO; min_mtime := 0; max_mtime := 0; dirty_min_mtime := 0; dirty_max_mtime := 0 |}.
Definition w_denv : discard_env := {| discard_unit := DISCARD_UNIT_BLOCK; hw_support_discard := true; realtime_discard := true; max_discards := 16; d_lfs_mode := false |}.

Definition w_mount : attempt seg_sys := f2fs_build_segment_manager w_denv 38 w_env w_cp w_disk 0 w_vict.
Definition w_sys : seg_sys := match w_mount with Some (inr s) => s | _ => blank_sys w_env w_cp w_vict end.
Lemma w_mounts : w_mount = Some (inr w_sys).
Proof. assert (E : match w_mount with Some (inr _) => true | _ => false end = true) by (vm_compute; done). unfold w_sys. destruct w_mount as [[e|s]|]; done. Qed.
Definition w_state : seg_state := {| seg := w_sys; disk := w_disk; dcc := no_discards |}.

Lemma w_cp_fit : cp_fit w_cp.
Proof. constructor; [vm_compute; done|intros t Ht; unfold NR_PERSISTENT_LOG in Ht; cbn; destruct (t =? 1); cbn; lia|by left|done]. Qed.
Lemma w_disk_fit : disk_fit w_disk.
Proof. apply disk_fit_eval. vm_compute. done. Qed.
Lemma w_last p : 0 <= last_victim w_vict p <= MAIN_SEGS.
Proof. split; vm_compute; done. Qed.
Lemma w_wf : seg_wf w_state.
Proof. apply (mount_sound w_denv 38 w_env w_cp w_vict w_disk 0 w_sys w_cp_fit w_disk_fit w_last w_mounts). Qed.

Definition w_central (l : list victim_entry) (x : Z) : option nat := match l with [] => None | _ => Some 0%nat end.
Definition w_venv : victim_env := {| sbi_gc_mode := 0; max_victim_search := 4096; v_noheap := true; elapsed_time := 9; atgc_enabled := false; candidate_ratio := 20; max_candidate_count := 10; age_weight := 60; am_age_threshold := 100 |}.
Definition w_victim := ssr_victim w_venv w_central SIT_ENTRY_PER_BLOCK.
#[local] Instance w_selection : VictimSelection w_victim.
Proof. apply default_v_ops. cbn. lia. Qed.
Definition w_aenv : alloc_env := {| ctime := 9; ssr_needed := 0; lfs_mode := false; gc_urgent_high := false; noheap := true; alloc_reuse := false; crc_recovery := false; sum_readable := fun _ => true |}.
Definition w_sum : f2fs_summary := {| sum_nid := 77; sum_version := 0; ofs_in_node := 5 |}.
Definition w_node : f2fs_summary := {| sum_nid := 88; sum_version := 0; ofs_in_node := 0 |}.

Definition after (o : seg_op) (c : seg_state) : seg_state := match seg_step w_denv w_victim o c with Some (c', _) => c' | None => c end.
Definition event (o : seg_op) (c : seg_state) : seg_event := match seg_step w_denv w_victim o c with Some (_, e) => e | None => ESwitch end.
Definition returns (o : seg_op) (c : seg_state) : bool := match seg_step w_denv w_victim o c with Some _ => true | None => false end.
Lemma stepped o c : returns o c = true -> seg_step w_denv w_victim o c = Some (after o c, event o c).
Proof. unfold returns, after, event. by destruct (seg_step w_denv w_victim o c) as [[c' e]|]. Qed.

Lemma committed atgc cpc c : returns (Checkpoint atgc cpc) c = true -> seg_step w_denv w_victim (Checkpoint atgc cpc) c = Some (after (Checkpoint atgc cpc) c, ECommit (issued (dcc (after (Checkpoint atgc cpc) c)))).
Proof. unfold returns, after. cbn [seg_step]. by destruct (sit_checkpoint _ _ _ _ _ _ _) as [[[? ?] ?]|]. Qed.

(** A write of warm data in place of a block of segment 6, one that fills the segment of the
    log, a node written anew, a block of segment 7 given back, a new segment for cold data,
    a checkpoint. *)
Definition op1 : seg_op := Allocate w_aenv (blk 6 2) w_sum 1.
Definition op2 : seg_op := Allocate w_aenv 0 w_sum 1.
Definition op3 : seg_op := Allocate w_aenv (blk 8 1) w_node 3.
Definition op4 : seg_op := Invalidate w_aenv (blk 7 0).
Definition op5 : seg_op := NewSegment w_aenv 2 false true.
Definition w_cpc : cp_control := {| cp_discard := false; trim_start := 0; trim_end := 0; trim_minlen := 0 |}.
Definition op6 : seg_op := Checkpoint true w_cpc.
Definition c1 := after op1 w_state.
Definition c2 := after op2 c1.
Definition c3 := after op3 c2.
Definition c4 := after op4 c3.
Definition c5 := after op5 c4.
Definition c6 := after op6 c5.

(** What the callers see to, of a write that replaces the block [o] of [g] and of one that
    replaces none. *)
Definition readyb (c : seg_state) (t : Z) : bool := (0 <=? t) && (t <? 6) && inited (CURSEG_I (seg c) t) && (0 <? free_sections (fre (seg c))).
Lemma ready_write c env g o sum t : readyb c t && validb (seg c) g o = true -> ready (Allocate env (blk g o) sum t) c.
Proof.
  unfold readyb. rewrite !andb_true_iff. intros [[[[H1 H2] H3] H4] H5]. cbn [ready]. split; [unfold NO_CHECK_TYPE; lia|]. split; [done|]. split; [lia|]. split; [right; eexists _, _; split; [done|by apply valid_eval]|]. intros ->. done.
Qed.
Lemma ready_append c env sum t : readyb c t = true -> ready (Allocate env 0 sum t) c.
Proof. unfold readyb. rewrite !andb_true_iff. intros [[[H1 H2] H3] H4]. cbn [ready]. split; [unfold NO_CHECK_TYPE; lia|]. split; [done|]. split; [lia|]. split; [by left|]. intros ->. done. Qed.
Lemma w_run5 : seg_run w_denv w_victim w_state [event op1 w_state; event op2 c1; event op3 c2; event op4 c3; event op5 c4] c5.
Proof.
  apply (run_step _ _ _ op1 c1); [apply ready_write; vm_compute; done|apply stepped; vm_compute; done|].
  apply (run_step _ _ _ op2 c2); [apply ready_append; vm_compute; done|apply stepped; vm_compute; done|].
  apply (run_step _ _ _ op3 c3); [apply ready_write; vm_compute; done|apply stepped; vm_compute; done|].
  apply (run_step _ _ _ op4 c4); [exists 7, 0; split; [done|apply valid_eval; vm_compute; done]|apply stepped; vm_compute; done|].
  apply (run_step _ _ _ op5 c5); [|apply stepped; vm_compute; done|constructor].
  split; [done|]. split; [vm_compute; done|]. unfold new_ok. destruct (inited _) eqn:E; [done|]. by vm_compute in E.
Qed.
Lemma w_unit : unit_ok w_denv.
Proof. by intros ?. Qed.
Lemma w_trim : trim_ok w_cpc.
Proof. done. Qed.
Lemma c5_wf : seg_wf c5.
Proof. apply (run_follows w_denv w_victim w_state _ c5 w_unit w_run5 _ w_wf (abs_of_ok _ w_wf)). Qed.

(** The pack of a checkpoint: compacted summaries of data, nodes found by their footers. *)
Section packs.
Context (c c' : seg_state).
Definition cp_of : cp_info := {|
  cur_segno := fun t => segno (CURSEG_I (seg c) t); cur_blkoff := fun t => next_blkoff (CURSEG_I (seg c) t); cp_alloc_type := fun t => alloc_type (CURSEG_I (seg c) t);
  valid_node_count := sumf (node_of (sit (seg c))) (seqZ 0 MAIN_SEGS); start_cp_addr := 10; cp_pack_start_sum := 1; cp_pack_total_block_count := 5; CP_COMPACT_SUM_FLAG := true; exist_node_summaries := false; CP_TRIMMED_FLAG := false; cp_disabled := false |}.
Definition env_of : mount_env := {|
  meta_readable := fun _ => true; pack := write_compacted_summaries (fun _ _ => zero_summary) (start_sum_block cp_of) (fun t => sum_blk (CURSEG_I (seg c) t)) (blk_count cp_of); ssa_pages := ssa (seg c'); node_readable := fun _ => true;
  footer_nid := fun a => sum_nid (summ (seg c) (GET_SEGNO a) (GET_BLKOFF_FROM_SEG0 a)); now := 9 |}.
Definition nodesb : bool := forallb (fun t => forallb (fun j => implb (validb (seg c) (segno (CURSEG_I (seg c) t)) j)
  (let e := sum_blk (CURSEG_I (seg c) t) j in (sum_version e =? 0) && (ofs_in_node e =? 0) && (footer_nid env_of (START_BLOCK (cur_segno cp_of t) +! j) =? sum_nid e))) (seqZ 0 4)) (seqZ 3 3).
Lemma pack_eval : seg_wf c -> nodesb = true -> pack_of c (seg c') env_of cp_of.
Proof.
  intros Hw Hf. constructor; try done.
  - intros _. by exists (fun _ _ => zero_summary).
  - intros t j Ht Hd Hv. unfold nodesb in Hf. rewrite forallb_forall in Hf. unfold NR_PERSISTENT_LOG in Ht. unfold IS_DATASEG, CURSEG_COLD_DATA in Hd. apply Z.leb_gt in Hd. specialize (Hf t ltac:(apply list_elem_of_In, elem_of_seqZ; lia)).
    destruct (valid_ok c _ j Hw Hv) as [_ Hj]. change blks_per_seg with 4 in Hj. rewrite forallb_forall in Hf. specialize (Hf j ltac:(apply list_elem_of_In, elem_of_seqZ; lia)). destruct Hv as (se & E & Hin). unfold validb in Hf. rewrite E, bool_decide_eq_true_2 in Hf by done. cbn [implb] in Hf. cbv zeta in Hf. rewrite !andb_true_iff, !Z.eqb_eq in Hf. tauto.
Qed.
End packs.
Definition r_cp : cp_info := cp_of c5.
Definition r_env : mount_env := env_of c5 c6.
Lemma r_pack : pack_of c5 (seg c6) r_env r_cp.
Proof. apply pack_eval; [apply c5_wf|vm_compute; done]. Qed.

(** ** The theorems at these runs *)

Lemma find_rev_next_bits_witness : let map := [0; 129; 0; 0; 0; 0; 0; 0; 0; 16; 0; 0; 0; 0; 0; 0] in
  __find_rev_next_bit map 128 16 = Some (next_bit (fun i => f2fs_test_bit i map) 128 16) /\ __find_rev_next_bit map 128 16 = Some 75 /\ __find_rev_next_bit map 192 80 = None.
Proof.
  intros map. split; [|split; vm_compute; reflexivity]. apply (find_rev_next_bits map); [|lia|reflexivity|vm_compute; discriminate].
  intros b Hb. repeat (apply elem_of_cons in Hb as [->|Hb]; [lia|]). by apply elem_of_nil in Hb.
Defined.
Lemma ssr_victim_cheapest_witness : exists v r, w_victim w_sys 0 SSR 0 = Some (v, r) /\ match r with Some g => candidate w_sys 0 g /\ forall h, candidate w_sys 0 h -> ckpt_of w_sys g <= ckpt_of w_sys h | None => forall h, ~ candidate w_sys 0 h end.
Proof. apply (ssr_victim_cheapest w_venv w_central SIT_ENTRY_PER_BLOCK ∅ w_sys 0 0); [apply (sf_inv _ w_wf)|done|left; vm_compute; done]. Defined.
Lemma seg_history_refines_witness : let es := [event op1 w_state; event op2 c1; event op3 c2; event op4 c3; event op5 c4] in
  all_allowed (abs_of w_sys) es /\ seg_wf c5 /\ abstracts c5 (foldl spec_step (abs_of w_sys) es) /\ forall o, ready o c5 -> is_Some (seg_step w_denv w_victim o c5).
Proof. apply (seg_history_refines w_denv w_victim w_state); [apply w_unit|apply w_wf|apply (abs_of_ok _ w_wf)|apply w_run5]. Defined.
Lemma crash_keeps_blocks_witness : disk c5 = w_disk /\ forall old new sum, EAlloc old new sum ∈ [event op1 w_state; event op2 c1; event op3 c2; event op4 c3; event op5 c4] -> forall g o, 0 <= g < MAIN_SEGS -> disk_valid (disk c5) g o -> blk g o <> new.
Proof. apply (crash_keeps_blocks w_denv w_victim w_state); [apply w_unit|apply w_wf|apply w_run5|vm_compute; done]. Defined.
Lemma checkpoint_table_witness : exists c' cmds, seg_step w_denv w_victim op6 c5 = Some (c', ECommit cmds) /\ need_fsck (disk c') = need_fsck (disk c5) /\ forall g, 0 <= g < MAIN_SEGS ->
    (exists se, sentries (sit (seg c5)) !! g = Some se /\ forall dm, seg_info_from_raw_sit dm (disk_entry (disk c') g) = set_discard_map (snap se) dm) /\
    disk_entry {| sit_bitmap := sit_bitmap (disk c5); s_journal := s_journal (disk c5); sit_meta := sit_meta (disk c'); need_fsck := need_fsck (disk c5) |} g = disk_entry (disk c5) g.
Proof. apply (checkpoint_table w_denv w_victim c5 true w_cpc); [apply w_unit|apply c5_wf|apply w_trim]. Defined.
Lemma compacted_summaries_roundtrip_witness : exists cached', read_compacted (fun _ => true) (write_compacted_summaries (fun _ _ => zero_summary) 11 (fun i j => {| sum_nid := i; sum_version := 0; ofs_in_node := j |}) (fun i => 300 * i)) 11 (fun i => 300 * i) (fun _ _ => w_sum) = Some cached' /\
    forall i j, cached' i j = if decide (0 <= i < CURSEG_HOT_NODE /\ 0 <= j < 300 * i) then {| sum_nid := i; sum_version := 0; ofs_in_node := j |} else w_sum.
Proof. apply (compacted_summaries_roundtrip (fun _ => true) (fun _ _ => zero_summary) 11 (fun i j => {| sum_nid := i; sum_version := 0; ofs_in_node := j |}) (fun i => 300 * i) (fun _ _ => w_sum)). done. Defined.
Lemma mount_checked_witness : seg_wf w_state /\ forall g o, 0 <= g < MAIN_SEGS -> (valid_at w_sys g o <-> disk_valid w_disk g o) /\ (kept w_sys g o <-> disk_valid w_disk g o).
Proof. apply (mount_checked w_denv 38 w_env w_cp w_vict w_disk 0 w_sys); [apply w_cp_fit|apply w_disk_fit|apply w_last|apply w_mounts]. Defined.
Lemma remount_restores_witness : exists s, f2fs_build_segment_manager w_denv 38 r_env r_cp (disk c6) 0 w_vict = Some (inr s) /\ seg_wf {| seg := s; disk := disk c6; dcc := no_discards |} /\
    (forall g o, valid_at s g o <-> valid_at (seg c5) g o) /\ (forall g o, kept s g o <-> valid_at (seg c5) g o) /\ (forall g o, valid_at (seg c5) g o -> summ s g o = summ (seg c5) g o) /\
    forall t, 0 <= t < NR_PERSISTENT_LOG -> segno (CURSEG_I s t) = segno (CURSEG_I (seg c5) t) /\ next_blkoff (CURSEG_I s t) = next_blkoff (CURSEG_I (seg c5) t) /\ alloc_type (CURSEG_I s t) = alloc_type (CURSEG_I (seg c5) t).
Proof.
  apply (remount_restores w_denv 38 w_victim c5 true w_cpc c6 (issued (dcc c6)) r_env r_cp w_vict 0); [apply w_unit|apply c5_wf|apply w_trim| |apply r_pack|by split|lia|apply w_last|intros _; reflexivity].
  apply committed. vm_compute. done.
Defined.

(** ** Sections of two segments *)

Module LargeSections.
Definition seg_large : @SegGeometry seg_nats.
Proof.
  refine {| log_blocks_per_seg := 2; segs_per_sec := 2; secs_per_zone := 1; MAIN_SECS := 6; SEG0_BLKADDR := 512; start_segno := 8; ssa_blkaddr := 400; COMPRESS_ADDR := 4294967294 |}; try lia.
  intros a Ha. unfold __is_valid_data_blkaddr. cbn in *. destruct (Z.eqb_spec a 4294967295), (Z.eqb_spec a 0), (Z.eqb_spec a 4294967294); cbn; lia || done.
Defined.
#[local] Existing Instance seg_large | 0.
#[local] Instance sit_large : @SitFormat seg_nats seg_large.
Proof. apply sit_format. cbn. lia. Defined.

(** Mounted with the option [discard_unit=section]. *)
Definition l_denv : discard_env := {| discard_unit := DISCARD_UNIT_SECTION; hw_support_discard := true; realtime_discard := true; max_discards := 16; d_lfs_mode := false |}.
(** Segments 6 and 7 are a section: one block is valid in the first, all in the second. *)
Definition l_page (i : Z) : f2fs_sit_entry := if i =? 6 then raw 0 {[0]} else if i =? 7 then raw 0 {[0; 1; 2; 3]} else if i <? 6 then raw i ∅ else raw 0 ∅.
Definition l_disk : sit_disk := {| sit_bitmap := ∅; s_journal := []; sit_meta := fun a i => if a =? 100 then l_page i else zero_sit; need_fsck := false |}.
Definition l_cp : cp_info := {|
  cur_segno := fun t => t; cur_blkoff := fun _ => 0; cp_alloc_type := fun _ => LFS; valid_node_count := 0; start_cp_addr := 10; cp_pack_start_sum := 1; cp_pack_total_block_count := 8;
  CP_COMPACT_SUM_FLAG := true; exist_node_summaries := true; CP_TRIMMED_FLAG := false; cp_disabled := false |}.
Definition l_mount : attempt seg_sys := f2fs_build_segment_manager l_denv 38 w_env l_cp l_disk 0 w_vict.
Definition l_state : seg_state := {| seg := match l_mount with Some (inr s) => s | _ => blank_sys w_env l_cp w_vict end; disk := l_disk; dcc := no_discards |}.
Definition l_victim := ssr_victim w_venv w_central SIT_ENTRY_PER_BLOCK.
(** The block of segment 6 is given back. *)
Definition l_back : seg_op := Invalidate w_aenv (blk 6 0).
Definition l_freed : seg_state := match seg_step w_denv l_victim l_back l_state with Some (c, _) => c | None => l_state end.
Lemma l_mounts : l_mount = Some (inr (seg l_state)).
Proof. assert (E : match l_mount with Some (inr _) => true | _ => false end = true) by (vm_compute; done). unfold l_state. cbn. destruct l_mount as [[e|s]|]; done. Qed.
Lemma l_steps : seg_step w_denv l_victim l_back l_state = Some (l_freed, EFree (blk 6 0)).
Proof.
  assert (E : match seg_step w_denv l_victim l_back l_state with Some (_, EFree a) => a =? blk 6 0 | _ => false end = true) by (vm_compute; done). unfold l_freed.
  destruct (seg_step w_denv l_victim l_back l_state) as [[c [| | |]]|]; try done. by apply Z.eqb_eq in E as ->.
Qed.
#[local] Instance l_selection : VictimSelection l_victim.
Proof. apply default_v_ops. cbn. lia. Qed.
Lemma l_unit : unit_ok w_denv.
Proof. by intros ?. Qed.
Lemma l_freed_wf : seg_wf l_freed.
Proof.
  assert (Hw : seg_wf l_state).
  { apply (mount_sound l_denv 38 w_env l_cp w_vict l_disk 0 (seg l_state)); [constructor; [vm_compute; done|intros t Ht; unfold NR_PERSISTENT_LOG in Ht; cbn; lia|by left|done]|apply disk_fit_eval; vm_compute; done|intros p; split; vm_compute; done|apply l_mounts]. }
  assert (Hr : seg_run w_denv l_victim l_state [EFree (blk 6 0)] l_freed).
  { apply (run_step _ _ _ l_back l_freed); [|apply l_steps|constructor]. exists 6, 0. split; [done|]. apply valid_eval. vm_compute. done. }
  apply (run_follows w_denv l_victim l_state _ l_freed l_unit Hr _ Hw (abs_of_ok _ Hw)).
Qed.
Lemma l_pre : pre_ok (seg l_freed).
Proof. pose proof (sf_inv _ l_freed_wf) as Hi. split; [apply Hi|]. split; [exact (ls_nr _ (si_lists _ _ Hi))|]. intros g Hg. apply (ls_pre _ (si_lists _ _ Hi)) in Hg as (Hr & _ & _ & Hv). exact (conj Hr Hv). Qed.
Lemma l_prefree : 6 ∈ dirty_segmap (dirt (seg l_freed)) PRE.
Proof. refine (proj1 (bool_decide_eq_true (6 ∈ dirty_segmap (dirt (seg l_freed)) PRE)) _). vm_compute. reflexivity. Qed.
Lemma l_live : valid_at (seg l_freed) 7 0.
Proof. apply valid_eval. vm_compute. reflexivity. Qed.
Lemma section_discard_hits_live_witness : exists s' d', f2fs_clear_prefree_segments l_denv (seg l_freed) no_discards w_cpc = Some (s', d') /\ discards d' (blk 7 0) /\ valid_at s' 7 0.
Proof.
  destruct (section_discard_hits_live l_denv w_cpc (seg l_freed) no_discards) as (s' & d' & E & Hd); [done|apply l_pre|]. exists s', d'. split; [exact E|].
  apply (Hd 6 7 0 l_prefree); [split; [discriminate|reflexivity]|reflexivity|apply l_live].
Defined.
End LargeSections.
