(* ===== verification/XattrWitnesses.v ===== *)
(** * Concrete runs of the extended attributes *)

From S2P Require Import Prelude Xattr XattrProps XattrSystem.

(** Node blocks of 64 bytes in front of the footer. *)
#[local] Instance xattr_small : XattrFormat.
Proof. refine {| VALID_XATTR_BLOCK_SIZE := 64; F2FS_NAME_LEN := 255 |}; done. Defined.

Definition w_inode (words : Z) (area : list Z) (nid : Z) (block : list Z) : xattr_inode :=
  {| has_inline_xattr := true; i_inline_xattr_size := words; inline_area := area; i_xattr_nid := nid; xattr_block := block;
     is_dir := false; encrypted := false; i_mode := 420; i_acl_mode := None; x_need_fsck := false; x_need_cp := false; x_prealloc := {[9]} |}.
Definition w_env : xattr_env :=
  {| kzalloc_ok := true; inode_page := None; xattr_page := None; free_nid := Some 5; new_node_page := None; truncate_node := None;
     x_cp_error := false; checkpoint_ready := true; dquot_error := None |}.
(** The block of the attributes cannot be had. *)
Definition w_failing : xattr_env :=
  {| kzalloc_ok := true; inode_page := None; xattr_page := Some EIO; free_nid := Some 5; new_node_page := Some ENOSPC; truncate_node := None;
     x_cp_error := false; checkpoint_ready := true; dquot_error := None |}.
(** "user." for index 1. *)
Definition w_prefix (index : Z) : option (list Z) := if index =? 1 then Some [117; 115; 101; 114; 46] else None.

(** Two attributes, the second of which needs the block; both are read, listed, replaced and
    removed. *)
Definition w_short : key := (1, [97]).
Definition w_long : key := (6, [98; 99; 100]).
Definition w_ops : list (xattr_env * xattr_op) :=
  [(w_env, SetAttr false w_short (Some [7; 8]) false false); (w_failing, SetAttr false w_long (Some (seqZ 10 30)) true false);
   (w_env, SetAttr false w_long (Some (seqZ 10 30)) true false); (w_env, SetAttr false w_long (Some [1]) true false);
   (w_env, GetAttr false w_long (Some 30)); (w_env, GetAttr false w_long (Some 29)); (w_failing, GetAttr false w_short None); (w_failing, GetAttr false w_long None);
   (w_env, ListAttrs true 64); (w_env, SetAttr false w_short (Some (seqZ 0 60)) false true); (w_env, SetAttr false w_long None false true); (w_env, GetAttr false w_long None)].
Definition w_empty : xattr_inode := w_inode 10 (zeros 40) 0 [].
Lemma w_shape words area nid block : lenZ area = words * 4 -> 24 <= words * 4 <= 4096 -> (nid <> 0 -> lenZ block = 64) -> shape (w_inode words area nid block).
Proof. intros Ha Hw Hb. constructor; [by right|done|done|]. cbn. set_solver. Qed.
Lemma w_empty_wf : xwf w_empty [].
Proof. constructor; [by apply w_shape|split; constructor|]. right. by exists (zeros 24), 16. Qed.
Definition result_eqb (r r' : xattr_result) : bool :=
  match r, r' with
  | RDone, RDone | RError EIO, RError EIO | RError ENOSPC, RError ENOSPC | RError EEXIST, RError EEXIST | RError ERANGE, RError ERANGE | RError E2BIG, RError E2BIG | RError ENODATA, RError ENODATA => true
  | RValue n v, RValue n' v' => (n =? n') && bool_decide (v = v')
  | _, _ => false
  end.
Lemma xattr_history_refines_witness :
  match xattr_run w_prefix w_ops w_empty with
  | Some (x', rs) => forallb (fun p => result_eqb p.1 p.2) (zip rs [RDone; RError ENOSPC; RDone; RError EEXIST; RValue 30 (Some (seqZ 10 30)); RError ERANGE; RValue 2 None; RError EIO; RValue 7 (Some [117; 115; 101; 114; 46; 97; 0]); RError E2BIG; RDone; RError ENODATA]) && (length rs =? 12)%nat && (i_xattr_nid x' =? 0)
  | None => false
  end = true /\
  exists x' rs L', xattr_run w_prefix w_ops w_empty = Some (x', rs) /\ spec_run w_prefix (MIN_OFFSET w_empty) w_ops [] rs L' /\ xwf x' L' /\ kept w_empty x'.
Proof.
  split; [vm_compute; reflexivity|]. apply xattr_history_refines; [|exact w_empty_wf|].
  - intros i pre E. unfold w_prefix in E. destruct (i =? 1); [injection E as <-; done|done].
  - intros env o Hin. assert (Hf : fresh_nid w_env w_empty /\ fresh_nid w_failing w_empty) by (split; intros nid E; injection E as <-; cbn; split; [done|set_solver|done|set_solver]).
    assert (Hall : Forall (fun p => op_ok p.2 /\ fresh_nid p.1 w_empty) w_ops) by (repeat (constructor; [cbn; split; [done || lia|tauto]|]); constructor).
    rewrite list.Forall_forall in Hall. apply (Hall (env, o) Hin).
Defined.

(** Entries that claim more than there is. *)
Definition w_broken : xattr_inode := w_inode 10 (zeros 24 ++ [1; 1; 2; 0; 97; 7; 8; 0] ++ [1; 200; 255; 255; 0; 0; 0; 0]) 5 (replicate 64 255).
Lemma w_broken_raw : raw_inode w_broken.
Proof. constructor; [by apply w_shape|cbn; repeat (constructor; [lia|]); constructor|apply Forall_replicate; lia]. Qed.
Lemma xattr_reads_inside_witness :
  (match f2fs_getxattr w_env w_broken false 1 (Some [98]) None with Some (x', inl EFSCORRUPTED) => x_need_fsck x' | _ => false end) &&
  (match f2fs_listxattr w_env w_broken w_prefix true 64 with Some (x', inl EFSCORRUPTED) => x_need_fsck x' | _ => false end) = true /\
  is_Some (f2fs_getxattr w_env w_broken false 1 (Some [98]) None) /\ is_Some (f2fs_listxattr w_env w_broken w_prefix true 64).
Proof. split; [vm_compute; reflexivity|]. apply xattr_reads_inside, w_broken_raw. Defined.

(** An entry with a value, and behind it one that claims a long value; and an area of five
    words, which [sanity_check_inode] accepts. *)
Definition w_corrupted : xattr_inode := w_inode 10 (zeros 24 ++ [1; 1; 2; 0; 97; 7; 8; 0] ++ [1; 200; 255; 255; 0; 0; 0; 0]) 0 [].
Definition w_tiny : xattr_inode := w_inode 5 (zeros 20) 0 [].
(** A look-up in a corrupted list stops in front of the entry that does not fit, and reports
    it; setting the attribute in front of it walks on to the end of the list without a check,
    and leaves the buffer. *)
Example corrupted_set_traps :
  raw_inode w_corrupted /\
  (exists x, f2fs_getxattr w_env w_corrupted false 1 (Some [98]) None = Some (x, inl EFSCORRUPTED)) /\
  f2fs_setxattr w_env w_corrupted false 1 (Some [97]) (Some [9]) false true = None.
Proof.
  split; [constructor; [by apply w_shape|cbn; repeat (constructor; [lia|]); constructor|constructor]|]. split; [eexists; vm_compute; reflexivity|vm_compute; reflexivity].
Qed.
Lemma small_area_reads_outside_witness : f2fs_getxattr w_env w_tiny false 1 (Some [97]) None = None.
Proof. apply small_area_reads_outside; [reflexivity|cbn; lia|reflexivity|reflexivity|reflexivity|right; reflexivity|cbn; lia]. Defined.
