(* ===== verification/FileWitnesses.v ===== *)
(** * Concrete runs of the block map of a file *)

From S2P Require Import Prelude FreeNid NatCache NodePath FileMap FileTree FileCut FileTrunc FileLookup FileOps FileHistory FileEvict FileSeg.
From S2P Require SegState SegData SegSystem SegWitnesses.
#[local] Open Scope file_scope.

(** ** A small file system *)

(** Two addresses in the inode, four in each direct node, three ids in an indirect node: places for 70
    blocks, files of up to 68. *)
#[local] Existing Instance SegWitnesses.seg_nats.
#[local] Instance file_nodes : F2fsFsNode.
Proof. refine {| NIDS_PER_BLOCK := 3; DEF_ADDRS_PER_BLOCK := 4; NODE_DIR1_BLOCK := 100; NODE_DIR2_BLOCK := 101; NODE_IND1_BLOCK := 102; NODE_IND2_BLOCK := 103; NODE_DIND_BLOCK := 104 |}; lia. Defined.
#[local] Instance file_format : FileFormat.
Proof. refine {| page_words := 4; COMPRESS_ADDR := 4294967294; XATTR_NODE_OFFSET := 536870911; F2FS_ROOT_INO := 3 |}; cbn; lia. Defined.

(** A layer of blocks that hands out one after the other. *)
#[local] Instance next_ops : BlockOps (gset Z * Z) := {|
  bl_invalidate s a := if a =? NEW_ADDR then Some s else if decide (a ∈ s.1) then Some (s.1 ∖ {[a]}, s.2) else None;
  bl_write s old _ := Some (({[s.2]} ∪ s.1) ∖ {[old]}, s.2 + 1, s.2);
  f2fs_is_valid_blkaddr s a := bool_decide (a ∈ s.1) |}.
Definition next_ok (s : gset Z * Z) : Prop := 1000 <= s.2 <= 4000000000 /\ forall a, a ∈ s.1 -> 1000 <= a < s.2.
Definition next_live (s : gset Z * Z) (a : Z) : Prop := a ∈ s.1.
Definition next_ready (s : gset Z * Z) : Prop := s.2 < 4000000000.
Lemma next_data a : 1000 <= a < 4000000000 -> is_data_addr a = true.
Proof. intros Ha. apply data_not. cbn. lia. Qed.
Lemma next_live_data s a : next_ok s -> next_live s a -> is_data_addr a = true /\ f2fs_is_valid_blkaddr s a = true.
Proof. intros [Hs Hl] Ha. split; [apply next_data; specialize (Hl a Ha); lia|by apply bool_decide_eq_true]. Qed.
Lemma next_take s a : next_ok s -> next_live s a -> exists s', bl_invalidate s a = Some s' /\ next_ok s' /\ (forall b, next_live s' b <-> next_live s b /\ b <> a).
Proof.
  intros [Hs Hl] Ha. unfold next_live in *. pose proof (Hl a Ha). cbn. rewrite (proj2 (Z.eqb_neq a _)) by lia. rewrite decide_True by done. eexists. split; [done|]. split; [|set_solver]. split; [done|]. cbn. intros b Hb. apply Hl. set_solver.
Qed.
Lemma next_give s old (sum : bool * Z * Z * Z) : next_ok s -> next_ready s -> old = NEW_ADDR \/ next_live s old ->
  exists s' new, bl_write s old sum = Some (s', new) /\ next_ok s' /\ ~ next_live s new /\ (forall b, next_live s' b <-> (b = new \/ next_live s b) /\ b <> old) /\ is_data_addr new = true.
Proof.
  intros [Hs Hl] Hr Hold. unfold next_live, next_ready in *. eexists _, _. split; [done|]. split; [|split; [intros Ha%Hl; lia|split; [set_solver|apply next_data; lia]]].
  split; [cbn; lia|]. cbn. intros a Ha. assert (a = s.2 \/ a ∈ s.1) as [->|Hin%Hl] by set_solver; lia.
Qed.
#[local] Instance next_laws : BlockLaws (gset Z * Z) := {| bl_data := next_live_data; bl_none := fun s _ => eq_refl; bl_take := next_take; bl_give := next_give |}.

(** ** A file without blocks, with a node of attributes, beside a block of another file *)

Definition w_shape : node_inode := {| cur_addrs := 2; f2fs_compressed_file := false; i_cluster_size := 4 |}.
Definition w_inode : file_inode := {| ino := 5; shape := w_shape; extra_isize := 1; i_addr := [77; 0; 0; 88]; i_nid := [0; 0; 0; 0; 0]; inline_data := None; i_blocks := 8; i_compr_blocks := 0; i_xnid := 7; no_alloc := false; first_block_written := false |}.
Definition w_pages : gmap Z node_page := {[7 := {| words := [0; 0; 0; 0]; ofs_of_node := XATTR_NODE_OFFSET |}]}.
Definition w_nat (a b : Z) : gmap Z f2fs_nat_entry := {[5 := {| ne_ino := 5; block_addr := a; version := 0 |}; 7 := {| ne_ino := 5; block_addr := b; version := 0 |}]}.
Definition w_state : fsys (gset Z * Z) := {| fi := w_inode; pages := w_pages; nat_tab := w_nat 1700 1600; free_nids := seqZ 10 30; prealloc := ∅; max_nid := 1000;
  cnt := {| total_valid_block_count := 3; total_valid_node_count := 2; total_valid_inode_count := 1; alloc_valid_block_count := 0; user_block_count := 1000; current_reserved_blocks := 0; reserved_blocks := 0; root_reserved_blocks := 0; unusable_block_count := 0; total_node_count := 900; cp_disabled := false |};
  blocks := ({[1500; 1600; 1700]}, 2000); ext_log := []; need_fsck := false; ticks := 0 |}.
Definition w_rest : rest := {| o_blocks := 2; o_nodes := 1; o_iblocks := 0; o_live := fun a => a = 1500 \/ a = 1700; o_addr := fun n => if n =? 5 then Some 1700 else None |}.

Lemma w_ready_inode : inode_ok w_shape.
Proof. constructor; vm_compute; done. Qed.
Lemma w_file : file_ok w_shape w_state.
Proof.
  constructor; [by constructor|vm_compute; lia|done|]. intros j x (kd & c & -> & _ & Hc)%lookup_zip_with_Some. assert (c = 0) as -> by (do 5 (destruct j as [|j]; [by injection Hc|]); done). apply ok_zero.
Qed.
Lemma w_flat : file_flat w_shape w_state = replicate 70 0.
Proof. vm_compute. done. Qed.
Lemma w_nids : file_nids w_state = [].
Proof. vm_compute. done. Qed.
Lemma w_acct : acct w_rest w_state (nonnull (file_flat w_shape w_state) ++ []) (file_nids w_state ++ [7]).
Proof.
  rewrite w_flat, w_nids. change (nonnull (replicate 70 0) ++ []) with (@nil Z). change ([] ++ [7]) with [7]. assert (Ed : data_addrs w_state [] [7] = [1600]) by (vm_compute; done).
  constructor; rewrite ?Ed.
  - split; [vm_compute; done|]. cbn [blocks w_state fst snd]. intros a Ha. assert (a = 1500 \/ a = 1600 \/ a = 1700) as [-> | [-> | ->]] by set_solver; lia.
  - constructor.
  - apply list.Forall_singleton. vm_compute. done.
  - intros a ->%list_elem_of_singleton. cbn. set_solver.
  - apply NoDup_singleton.
  - apply (bool_decide_unpack _). vm_compute. done.
  - apply list.Forall_forall. intros n Hn%elem_of_seqZ. split; [unfold nid_ok; cbn; lia|]. unfold node_addr, nat_entry_of. cbn [nat_tab w_state]. unfold w_nat. rewrite lookup_insert_ne, lookup_singleton_ne by lia. done.
  - vm_compute. done.
  - vm_compute. done.
  - vm_compute. done.
  - vm_compute. done.
  - constructor; vm_compute; intuition done.
  - intros b. change (bl_live (blocks w_state) b) with (b ∈ ({[1500; 1600; 1700]} : gset Z)). change (o_live w_rest b) with (b = 1500 \/ b = 1700). split; [intros [-> | ->]; (split; [set_solver|by intros ?%list_elem_of_singleton])|]. rewrite list_elem_of_singleton. set_solver.
  - by exists 1700.
  - intros n a. cbn [o_addr w_rest]. destruct (Z.eqb_spec n 5) as [->|]; [|done]. intros [= <-]. split; [vm_compute; done|]. apply (bool_decide_unpack _). vm_compute. done.
Qed.
Lemma f_wf : file_wf w_rest w_shape [] [7] w_state.
Proof. constructor; [apply w_ready_inode|done|split; [apply w_file|apply w_acct]|done]. Qed.

(** ** Histories evaluated *)

Section eval.
Context {T : Type} `{BlockLaws T} (env : file_env) (br : T -> bool) (Hbr : forall s, br s = true -> bl_ready s).
Implicit Types (st : fsys T).
Definition after (op : file_op) st : fsys T := match run_op env op st with Some (_, st') => st' | None => st end.
Definition outcome (op : file_op) st : errno + unit := match run_op env op st with Some (r, _) => r | None => inr tt end.
Definition readyb (op : file_op) st : bool :=
  let max := max_file_blocks (shape (fi st)) in
  match op with
  | Reserve b => (0 <=? b) && (b <? max)
  | WritePage b => (0 <=? b) && (b <? max) && br (blocks st)
  | WriteNode n => bool_decide (n ∈ file_nids st) && br (blocks st)
  | Truncate from => 0 <=? from
  | Punch s e => (0 <=? s) && (s <=? e) && (e <=? max)
  end.
Fixpoint final (ops : list file_op) st : fsys T := match ops with [] => st | op :: ops => final ops (after op st) end.
Fixpoint trace (ops : list file_op) st : list (file_op * (errno + unit)) := match ops with [] => [] | op :: ops => (op, outcome op st) :: trace ops (after op st) end.
Fixpoint runsb (ops : list file_op) st : bool := match ops with [] => true | op :: ops => readyb op st && match run_op env op st with Some _ => true | None => false end && runsb ops (after op st) end.
Lemma ready_eval op st : readyb op st = true -> ready op st.
Proof.
  destruct op; unfold readyb, ready; cbv zeta; rewrite ?andb_true_iff, ?Z.leb_le, ?Z.ltb_lt.
  - lia.
  - intros [? ?]. auto.
  - intros [Hn Hb]. apply bool_decide_eq_true in Hn. auto.
  - done.
  - lia.
Qed.
Lemma runs_eval ops st : runsb ops st = true -> file_run env st (trace ops st) (final ops st).
Proof.
  revert st. induction ops as [|op ops IH]; intros st Hr; [constructor|]. cbn [runsb] in Hr. apply andb_true_iff in Hr as [Hr Hn]. apply andb_true_iff in Hr as [Hr He]. cbn [trace final]. apply (file_step env st op _ (after op st)); [by apply ready_eval| |by apply IH].
  unfold outcome, after. by destruct (run_op env op st) as [[]|].
Qed.
End eval.

(** Blocks in the inode and at all levels of the tree, nodes written, a hole, a truncation,
    a request for space refused on the way. *)
Definition w_ops : list file_op := [Reserve 0; WritePage 0; Reserve 3; WritePage 3; Reserve 11; Reserve 12; WritePage 12; WritePage 12; WriteNode 10; Reserve 30; WritePage 30; Reserve 67; WritePage 67; Punch 3 12; Truncate (13 * 4096 + 5); WritePage 4].
Definition next_readyb (s : gset Z * Z) : bool := s.2 <? 4000000000.
Lemma next_ready_eval (s : gset Z * Z) : next_readyb s = true -> bl_ready s.
Proof. apply Z.ltb_lt. Qed.
Definition w_env : file_env := {| answer := fun n => if (n =? 64)%nat then Some EIO else None; allow_reserved_blocks := true |}.
Definition w_after : fsys (gset Z * Z) := final w_env w_ops w_state.
Definition w_trace : list (file_op * (errno + unit)) := trace w_env w_ops w_state.
Lemma w_run : file_run w_env w_state w_trace w_after.
Proof. apply (runs_eval w_env next_readyb next_ready_eval). vm_compute. done. Qed.
(** What the history did. *)
Example w_outcome : (w_trace.*2 !! 11%nat, w_trace.*2 !! 12%nat, file_flat w_shape w_after, i_nid (fi w_after)) = (Some (inl ENOSPC), Some (inl ENOENT), <[0%nat := 2000]> (<[12%nat := 2003]> (replicate 70 0)), [10; 0; 11; 0; 0]).
Proof. vm_compute. done. Qed.
Lemma w_mirror : mirror (ext_log w_state) 0 (file_flat w_shape w_state).
Proof. rewrite w_flat. intros k a Ha%elem_of_replicate_inv%list_elem_of_lookup_2 || (intros k a Ha; apply list_elem_of_lookup_2, elem_of_replicate_inv in Ha). by subst a. Qed.

Lemma file_history_refines_witness : mirror (ext_log w_after) 0 (file_flat w_shape w_after).
Proof. apply (file_history_refines w_env w_rest w_shape [] [7] w_state w_trace w_after f_wf w_run), w_mirror. Defined.
Lemma file_history_typed_witness : NoDup ((file_nids w_after ++ [7]) ++ free_nids w_after).
Proof. apply (file_history_typed w_env w_rest w_shape [] [7] w_state w_trace w_after f_wf w_run). Defined.
Lemma w_after_wf : file_wf w_rest w_shape [] [7] w_after.
Proof. exact (history_wf w_env w_rest w_shape [] [7] w_state w_trace w_after f_wf w_run). Qed.
Lemma truncate_blocks_spec_witness : exists r st', f2fs_do_truncate_blocks w_env (12 * 4096) w_after = Some (r, st') /\ file_wf w_rest w_shape [] [7] st'.
Proof. destruct (truncate_blocks_spec w_env w_rest w_shape [] [7] w_after (12 * 4096) w_after_wf) as (r & st' & E & Hw & _); [lia|]. exists r, st'. split; [exact E|exact Hw]. Defined.
Lemma lookup_block_spec_witness : exists st' r, f2fs_get_dnode_of_data w_env false 13 LOOKUP_NODE w_after = Some (inr r, st') /\ idle w_after st'.
Proof. destruct (lookup_block_spec w_env w_rest w_shape [] [7] w_after 13 false w_after_wf) as (st' & r & E & Hid & _); [vm_compute; done|]. exists st', r. split; [exact E|exact Hid]. Defined.
Lemma file_ops_return_witness : exists r st', run_op w_env (Punch 5 20) w_after = Some (r, st') /\ file_wf w_rest w_shape [] [7] st'.
Proof. apply (file_ops_return w_env w_rest w_shape [] [7] (Punch 5 20) w_after w_after_wf). apply (ready_eval next_readyb next_ready_eval). vm_compute. done. Defined.
Lemma write_page_safe_witness : exists r st', f2fs_do_write_data_page w_env 12 w_after = Some (r, st') /\ file_wf w_rest w_shape [] [7] st'.
Proof. destruct (write_page_safe w_env w_rest w_shape [] [7] w_after 12 2003 w_after_wf) as (r & st' & E & Hw & _); [vm_compute; done|apply next_ready_eval; vm_compute; done|vm_compute; done|]. exists r, st'. split; [exact E|exact Hw]. Defined.

(** The last block of the largest file is reserved; the file is then cut in front of it. *)
Definition w_largest : fsys (gset Z * Z) := final w_env [Reserve 67] w_state.
Lemma w_largest_wf : file_wf w_rest w_shape [] [7] w_largest.
Proof. apply (history_wf w_env w_rest w_shape [] [7] w_state (trace w_env [Reserve 67] w_state) w_largest f_wf). apply (runs_eval w_env next_readyb next_ready_eval). vm_compute. done. Qed.
Lemma truncate_last_node_fails_witness : exists e st', f2fs_do_truncate_blocks w_env (67 * 4096) w_largest = Some (inl e, st').
Proof. destruct (truncate_last_node_fails w_env w_rest w_shape [] [7] w_largest (67 * 4096) NEW_ADDR w_largest_wf) as (e & st' & E & _); [lia|split; vm_compute; done|vm_compute; done|done|]. exists e, st'. exact E. Defined.
Example w_largest_cut : (match f2fs_do_truncate_blocks w_env (67 * 4096) w_largest with Some (inl E2BIG, st) => bool_decide (file_flat w_shape st = replicate 70 0) | _ => false end,
  match f2fs_do_truncate_blocks w_env (66 * 4096) w_largest with Some (inr tt, st) => bool_decide (file_flat w_shape st = replicate 70 0) | _ => false end) = (true, true).
Proof. vm_compute. done. Qed.
(** From the limit of the size on a truncation does nothing. *)
Example w_beyond_limit : match f2fs_do_truncate_blocks w_env (68 * 4096) w_largest with Some (inr tt, st) => bool_decide (file_flat w_shape st = file_flat w_shape w_largest) | _ => false end = true.
Proof. vm_compute. done. Qed.

(** ** The file is deleted *)

(** Memory is short once on the way. *)
Definition e_env : file_env := {| answer := fun n => if (n =? 97)%nat then Some ENOMEM else None; allow_reserved_blocks := true |}.
Lemma w_after_xattr : xnodes w_after = [7] /\ ino (fi w_after) = 5.
Proof. vm_compute. done. Qed.
Lemma w_after_pages : xpages w_after.
Proof. unfold xpages. rewrite (proj1 w_after_xattr). intros n ->%list_elem_of_singleton. assert (E : bool_decide (is_Some (pages w_after !! 7)) = true) by (vm_compute; done). by apply bool_decide_eq_true in E. Qed.
Lemma w_after_at : inode_at w_rest 5 1700.
Proof. split; [done|]. split; [done|]. split; [done|]. intros _. by right. Qed.
Lemma evict_frees_all_witness : exists r st', f2fsj_evict_inode e_env 20 w_after = Some (r, st') /\ r <> inl (Env ENOMEM) /\ (r = inr tt /\ deleted w_rest 1700 5 st' \/ (exists e, r = inl (Env e)) /\ file_wf w_rest w_shape [] (xnodes st') st' /\ xpages st').
Proof.
  pose proof w_after_xattr as [Ex Ei]. destruct (evict_frees_all e_env w_rest w_shape 20 1700 w_after) as (r & st' & E & Hr & Hm); [vm_compute; done|split; [vm_compute; discriminate|split; [vm_compute; discriminate|done]]|rewrite Ex; exact w_after_wf|exact w_after_pages|rewrite Ei; exact w_after_at|].
  exists r, st'. split; [exact E|]. split; [|rewrite Ei in Hr; exact Hr]. apply (Hm 98%nat); [|vm_compute; lia|lia]. intros t Ht. cbn. by rewrite (proj2 (Nat.eqb_neq t 97)) by lia.
Defined.
Example w_evicted : (match f2fsj_evict_inode e_env 3 w_after with Some (inr tt, st) => Some (elements (blocks st).1, total_valid_block_count (cnt st), i_blocks (fi st)) | _ => None end,
  match f2fsj_evict_inode e_env 1 w_after with Some (inl (Env ENOMEM), st) => Some (total_valid_block_count (cnt st)) | _ => None end) = (Some ([1500], 1, 0), Some 6).
Proof. vm_compute. done. Qed.

(** ** The same file on the segment manager *)

Module OnSegments.
#[local] Existing Instances SegWitnesses.seg_small SegWitnesses.w_selection.
(** Nodes and data go to different logs. *)
Definition log (x : bool * Z * Z * Z) : Z := let '(node, _, _, _) := x in if node : bool then 4 else 1.
Lemma log_range x : 0 <= log x < SegState.NO_CHECK_TYPE.
Proof. destruct x as [[[[] ?] ?] ?]; vm_compute; done. Qed.
Lemma log_kind x : log x <> SegState.CURSEG_ALL_DATA_ATGC.
Proof. by destruct x as [[[[] ?] ?] ?]. Qed.
Definition same_mark : COMPRESS_ADDR = SegState.COMPRESS_ADDR := eq_refl.
#[local] Instance ops : BlockOps SegState.seg_sys := seg_block_ops true SegWitnesses.w_victim SegWitnesses.w_aenv log.
#[local] Instance laws : BlockLaws SegState.seg_sys := seg_block_laws same_mark true SegWitnesses.w_victim SegWitnesses.w_aenv log log_range log_kind.
Definition s_state : fsys SegState.seg_sys := {| fi := w_inode; pages := w_pages; nat_tab := w_nat (SegInv.blk 7 1) (SegInv.blk 8 1); free_nids := seqZ 10 30; prealloc := ∅; max_nid := 1000;
  cnt := cnt w_state; blocks := SegWitnesses.w_sys; ext_log := []; need_fsck := false; ticks := 0 |}.
Definition s_rest : rest := {| o_blocks := 2; o_nodes := 1; o_iblocks := 0; o_live := fun a => seg_live SegWitnesses.w_sys a /\ a <> SegInv.blk 8 1; o_addr := fun n => if n =? 5 then Some (SegInv.blk 7 1) else None |}.
Lemma s_acct : acct s_rest s_state (nonnull (file_flat w_shape s_state) ++ []) (file_nids s_state ++ [7]).
Proof.
  change (file_flat w_shape s_state) with (file_flat w_shape w_state). change (file_nids s_state) with (file_nids w_state). rewrite w_flat, w_nids. change (nonnull (replicate 70 0) ++ []) with (@nil Z). change ([] ++ [7]) with [7]. assert (Ed : data_addrs s_state [] [7] = [SegInv.blk 8 1]) by (vm_compute; done).
  pose proof w_acct as Ha. rewrite w_flat, w_nids in Ha. destruct Ha as [_ Ha2 _ _ _ Ha6 _ _ _ _ Ha11 Ha12 _ _ _].
  constructor; rewrite ?Ed; [|exact Ha2| | | |exact Ha6| |vm_compute; done..|exact Ha11|exact Ha12| | |].
  - split; [apply (SegSystem.sf_inv _ SegWitnesses.w_wf)|apply (SegSystem.sf_room _ SegWitnesses.w_wf)].
  - apply list.Forall_singleton. vm_compute. done.
  - intros a ->%list_elem_of_singleton. exists 8, 1. split; [done|]. apply SegWitnesses.valid_eval. vm_compute. done.
  - apply NoDup_singleton.
  - apply list.Forall_forall. intros n Hn%elem_of_seqZ. split; [unfold nid_ok; cbn; lia|]. unfold node_addr, nat_entry_of. cbn [nat_tab s_state]. unfold w_nat. rewrite lookup_insert_ne, lookup_singleton_ne by lia. done.
  - intros b. rewrite list_elem_of_singleton. exact (iff_refl _).
  - by eexists.
  - intros n a. cbn [o_addr s_rest]. destruct (Z.eqb_spec n 5) as [->|]; [|done]. intros [= <-]. split; [vm_compute; done|]. apply (bool_decide_unpack _). vm_compute. done.
Qed.
Lemma s_wf : file_wf s_rest w_shape [] [7] s_state.
Proof. constructor; [apply w_ready_inode|done|split; [|apply s_acct]|done]. destruct w_file as [[] ? ? ?]. by constructor. Qed.
Definition seg_readyb (s : SegState.seg_sys) : bool := SegState.inited (SegState.CURSEG_I s 1) && SegState.inited (SegState.CURSEG_I s 4) && (0 <? SegState.free_sections (SegState.fre s)).
Lemma seg_ready_eval s : seg_readyb s = true -> bl_ready s.
Proof. unfold seg_readyb. rewrite !andb_true_iff, Z.ltb_lt. intros [[H1 H2] H3]. split; [|done]. by intros [[[[] ?] ?] ?]. Qed.
Definition s_ops : list file_op := [Reserve 3; WritePage 3; WriteNode 10; WritePage 3; Reserve 8; WritePage 8; WriteNode 11; Truncate 4096].
Definition s_after : fsys SegState.seg_sys := final w_env s_ops s_state.
Lemma s_run : file_run w_env s_state (trace w_env s_ops s_state) s_after.
Proof. apply (runs_eval w_env seg_readyb seg_ready_eval). vm_compute. done. Qed.
Lemma s_other : SegInv.blk 7 0 ∉ data_addrs s_state (nonnull (file_flat w_shape s_state) ++ []) (file_nids s_state ++ [7]).
Proof. assert (E : data_addrs s_state (nonnull (file_flat w_shape s_state) ++ []) (file_nids s_state ++ [7]) = [SegInv.blk 8 1]) by (vm_compute; done). rewrite E, list_elem_of_singleton. vm_compute. done. Qed.
Lemma s_range : 0 <= 7 < SegState.MAIN_SEGS.
Proof. vm_compute. done. Qed.
Lemma s_offset : 0 <= 0 < SegState.blks_per_seg.
Proof. vm_compute. done. Qed.
Lemma s_valid : SegData.valid_at (blocks s_state) 7 0.
Proof. apply SegWitnesses.valid_eval. vm_compute. done. Qed.
Lemma file_history_on_segments_witness : SegInv.seg_inv ∅ (blocks s_after) /\ SegData.valid_at (blocks s_after) 7 0.
Proof.
  destruct (file_history_on_segments same_mark true SegWitnesses.w_victim SegWitnesses.w_aenv log log_range log_kind s_rest w_shape [] [7] w_env s_state (trace w_env s_ops s_state) s_after s_wf s_run) as (Hi & _ & Hv & _).
  split; [exact Hi|]. apply (proj2 (Hv 7 0 s_range s_offset) (conj s_valid s_other)).
Defined.
End OnSegments.
